(* ===== verification/_CoqProject ===== *)
-Q . S2P
Prelude.v
Ctype.v
MemFuns.v
Strings.v
StringProps.v
ThunkState.v
Thunks.v
ThunkProps.v
ThunkThms.v
ThunkObjs.v
ThunkCtrl.v
ThunkInit.v
Strto.v
FnMatch.v
Paths.v
FsExt.v
FdProps.v
FileClose.v
GetOpt.v
Env.v
TSearch.v
Rand48.v
LSearch.v
SwapCtx.v
CtxIso.v
LibcCtx.v
QSort.v
QSortProps.v
Calendar.v
MkTime.v
TzRules.v
TzLoad.v
TzSafe.v
TzInv.v
TzThms.v
TzZone.v
NMalloc.v
NmRep.v
NmInv.v
NmLists.v
NmOps.v
NmSplit.v
NmThms.v
NmAlloc.v
NmHeap.v
NmMain.v
Stdio.v
StdioInv.v
StdioWr.v
StdioRd.v
StdioIn.v
StdioThms.v
StdioTab.v
StdioDisk.v
Doprnt.v
DoprntSpec.v
DoprntConv.v
DoprntLoop.v
DoprntThms.v
DoprntRuns.v
HashTab.v
HashProps.v
Doscan.v
DoscanSpec.v
DoscanConv.v
DoscanLoop.v
DoscanThms.v
DoscanFile.v
DoscanRuns.v
CrtArgs.v
CrtArgsProps.v
CrtArgsThms.v
CrtArgsQuote.v
CrtArgsRuns.v
CrtEnv.v
CrtEnvProps.v
CrtStart.v
PathFix.v
PathFixProps.v
PathFixRuns.v
