(* ===== verification/Prelude.v ===== *)
(** * A verification library for dj64dev

    dj64dev is a tool-chain for DOS programs whose C code is 64-bit: the program runs on
    the host, next to a 32-bit DOS side that it reaches through thunks, on a port of the
    DJGPP C library. This library models the thunk layer and the parts of the C library
    whose logic is their own, and proves what makes them correct. Paths below are those
    of the repository.

    ** The program's parts and how they interact

    - _The thunk layer_ (src/libc/dj64/thunks.c, src/libc/dj64/dosobj.c). A DOS program
      enters C code with [dj64_call]; the C code calls DOS code with [dj64_asm_call] and
      its variants, which may enter C code again. Per handle there is a record ([udisp])
      of dispatch functions, thunk tables, the nesting count, the jump buffer of the
      innermost call and the DOS objects on record at each level. A DOS call that is
      aborted or does not return is left by longjmp to the innermost [_dj64_call], which
      frees what the abandoned code had on record. [dj64_ctrl] resolves the thunk tables
      against the loaded image; libraries register themselves before DJ64_INIT_FN
      connects them.
    - _The C library_ (src/libc): character classes, memory and strings, numbers, the
      environment, getopt, sorting, search trees, fnmatch, path names, local time with
      its zones, exit, the allocator, hash tables, buffered streams on top of [_read],
      [_write] and lseek, formatted output and input on top of these and of strings, and
      the tables behind file descriptors: file modes, file system extensions, descriptor
      properties, and [_close], which uses the last two.
    - _The start of a program_ (src/libc/crt0). The environment of DOS is copied, the file
      that the variable DJGPP names adds to it, and the command line becomes the arguments
      of main: quotes, response files, wildcards.
    - _Swappable contexts_ (include/libc/djctx.h). All DOS programs share one copy of the
      C library; what belongs to one program is in arrays with an element per handle,
      and the thunk layer's hooks save and restore the variables at every call.

    ** Files

    - [Prelude] outcomes of C code, loops with fuel, machine integers, byte memory, and
      the lemmas on them that all files share.
    - [Ctype] src/libc/ansi/ctype: the flag tables, the classes and case mapping.
    - [MemFuns] memcpy, memmove (with its word-wise copying), memset, memchr, memcmp,
      memmem, bcmp and their kin, over byte memory.
    - [Strings], [StringProps] the string functions of ansi/string, compat/string,
      compat/bsd and posix/string over byte memory, with their specifications on lists.
    - [ThunkState] the data of the thunk layer: the registers, thunk tables, [udisp], the
      static variables with the heap and memory as [world]; the interface to the host as
      the class [Dj64Api]; DOS code ([host]) and C code ([client]) as trees of the
      operations they can perform.
    - [Thunks] every operation of thunks.c and dosobj.c, in its order, with its
      assertions and early returns.
    - [ThunkProps] the invariant [world_ok] (objects on record are allocated, recorded
      once, and counted by [objcnt], which also counts those for which malloc32 failed) and
      its preservation by every operation, nested calls included.
    - [ThunkThms], [ThunkObjs], [ThunkCtrl], [ThunkInit] the theorems on calls, DOS
      objects, resolution and [dj64_ctrl], registration.
    - [Strto] strtol, strtoul, strtoll, strtoull, atoi and its kin, bsearch, div, rand.
    - [FnMatch] posix/fnmatch, with the matching relation it decides.
    - [Paths] dos/dir/fnsplit.c, fnmerge.c, compat/unistd/basename.c, dirname.c,
      dos/lfn/is_dos83.c, lfnshort.c.
    - [FsExt] fsext/fsext.c: the growing table of extensions.
    - [FdProps] dos/io/fd_props.c: the objects of descriptors in a store with pointers,
      the two linked lists, and a step relation for open, dup and close.
    - [FileClose] dos/io/_close.c on the state of the two files before it, and the two
      cleanups at exit.
    - [GetOpt] posix/unistd/getopt.c with its static pointer, and the loop around it.
    - [Env] getenv, putenv, setenv, unsetenv on the array behind [_environ].
    - [TSearch] posix/search/tsearch_avl.c: AVL trees with the addresses of their nodes;
      the caller's comparison is a class with laws.
    - [Rand48] compat/stdlib/rand48.c: the generator on 16-bit limbs.
    - [LSearch] posix/search/lfind.c, compat/search/insque.c, remque.c.
    - [SwapCtx] the macros of include/libc/djctx.h, as operations on an array of contexts
      with a current pointer and global variables; the law that its users satisfy is a
      class. [CtxIso] isolation of handles through all of [Thunks].
    - [LibcCtx] three users of the macros, dos/io/dosio.c, fsext/fsext.c and ansi/stdlib/exit.c
      with atexit.c, and the counter of crt0/crt1.c, as a client of [Thunks].
    - [QSort], [QSortProps] ansi/stdlib/qsort.c over byte memory; the proof is against an
      interface of arrays (a class), which memory implements.
    - [Calendar], [MkTime] ansi/time/ctime.c: breaking times down and putting them
      together, against the Gregorian calendar.
    - [TzRules], [TzLoad] ctime.c: the rules of a TZ string, the loader of zone files,
      tzparse, tzset; statements of the loader in a monad over the tables with
      [return -1]. [TzSafe] weakest preconditions of the statements and of loading a
      file; [TzInv] of tzparse and tzset; [TzThms], [TzZone] the theorems.
    - [NMalloc] ansi/stdlib/nmalloc.inc with nmalcdef.h: the chain of blocks, the free
      lists, splitting, joining, growth by sbrk. [NmRep] the chain in byte memory as a
      list of blocks; [NmInv], [NmLists], [NmOps], [NmSplit], [NmThms], [NmAlloc] the
      invariant and what each operation does to it; [NmHeap] malloc.c and nmalloc.c, the
      clients of the heap and their abstract heap; [NmMain] the theorems.
    - [Stdio] ansi/stdio with include/libc/file.h: FILEs in a table, their buffers in byte
      memory, the calls of the system as the class [StdioApi], statements in a state
      monad. [StdioInv] flags and weakest preconditions; [StdioWr] output, [StdioRd] and
      [StdioIn] input, [StdioTab] the table of FILEs; [StdioThms] the theorems;
      [StdioDisk] a disk in memory that satisfies the laws, and concrete runs.
    - [Doprnt] ansi/stdio/doprnt.c and the printf family: conversions, the output through
      a stream or a string. [DoprntSpec] the text a format stands for, and what a sink of
      characters promises (a class); [DoprntConv], [DoprntLoop] the conversions and the
      loop against it; [DoprntThms] the theorems for streams and strings; [DoprntRuns]
      concrete formats.
    - [HashTab], [HashProps] posix/search/hcreate.c, hdestroy.c, hsearch.c, _hash2v.c.
    - [Doscan] ansi/stdio/doscan.c and the scanf family. [DoscanSpec] what a format takes
      from a text and stores, and what a source of characters promises (a class);
      [DoscanConv], [DoscanLoop] the conversions and the loop against it; [DoscanThms]
      strings, [DoscanFile] streams; [DoscanRuns] concrete formats.
    - [CrtArgs] crt0/c1args.c, with buffers that are changed in place and a monad that
      counts malloc and free. [CrtArgsProps] the parser against a reference; [CrtArgsThms]
      response files, wildcards, argv; [CrtArgsQuote] quoting; [CrtArgsRuns] runs.
    - [CrtEnv] crt0/c1loadef.c and setup_environment of crt1.c, on the environment of
      [Env]. [CrtEnvProps] the file against a reference on lines; [CrtStart] the whole
      start, and runs.
    - [PathFix], [PathFixProps], [PathFixRuns] dos/io/putpath.c and posix/sys/stat/fixpath.c:
      names under /dev and the canonical form of paths.

    ** What the theorems show

    The theorems have conditions, which the comment in front of each names, and where a
    condition keeps out a case in which the code goes wrong, a theorem on that case stands
    beside it (the list at the end of this section). In outline:

    Calls through the thunk layer are balanced whatever the C code and the DOS code do, also
    where malloc32 fails; an abandoned call is cleaned up and reported, or ends in an
    assertion where malloc32 has failed in it; nesting is bounded, which is also why the
    fuel of [dj64_call] is enough; objects make the round trip; a table is resolved up to
    its first undefined symbol; ELF handles are closed; registration connects a library or
    refuses it. In a settled state a call leaves what the handles that it cannot enter own
    in every swappable context alone, and a handle whose call returned DJ64_RET_OK finds
    its variables again. The C library functions compute what they are specified to
    compute: functional theorems for memory, strings, numbers, sorting, paths, calendar and
    zones; refinement of maps by the environment and the table of extensions; invariants by
    induction over step relations for descriptor properties and search trees, and over
    sequences of calls for the tables of time zones, whose accesses stay in bounds for files
    without leap seconds and version 2 footer and for TZ strings with short names; round
    trips for fnsplit and fnmerge, for getopt, and for localtime and mktime in a zone with
    one offset; termination of the loop around getopt and, in such a zone, of mktime's
    search; bounds on the height of trees and the width of results. The allocator refines an
    abstract heap for every client that keeps to its blocks, its lists stay sound, and malloc
    succeeds, as long as sbrk gives fresh memory or -1 and no small remainder is retired.
    Streams refine byte sequences, as long as write does not fail: programs of output calls
    put their characters on the descriptor in order, programs of input calls follow a cursor
    on the file, and what is written is read; the byte 255 by fwrite to line buffered binary
    streams, fread in text mode and stdin as input are left out. printf puts the text that a
    format stands for on a stream or a string, snprintf within its bounds; scanf takes from a
    string or a file what a format stands for and stores the values; what printf prints of a
    number scanf reads: for the conversions, lengths and numbers that the definitions
    [item_ok], [sitem_ok] and [scan_ref] allow, not for positions, floating point and sets.
    fnmatch decides a matching relation of patterns without escapes. Hash tables refine maps,
    and the hash function equals the one it replaces. The start of a program gives main the
    variables of DOS and of DJGPP.ENV and the words of the command line, and quoted words
    that do not start with @ arrive as they are, within the limits that [start_ok] and
    [line_from] state. Paths that are not under /dev get one canonical form.
    Where the code does not do what it is meant to, a
    theorem says what it does instead (names ending in _truncates, _exhausted, _forgets,
    _overruns, _defect, _overreads, _dangles, _overflows, _lost, _corrupts, _missing,
    _always_dst, _keeps_default, _loses_variables, _overrun, _unseen, _faults, _255,
    _doubled, _differ_on_cr; ftell_breaks_line_buffer, setvbuf_frees_user_buffer,
    start_drops_streams, free32_null; positions_advance, char_ignores_position, hh_not_cut,
    alt_octal_zero, ptrdiff_as_int, vasprintf_reuses, vasnprintf_size, hash_exceeds_32_bits,
    hsearch_without_table, scan_positions_advance, scan_pointer_cut, long_double_not_stored,
    high_literal_unmet, unbuffered_scan_loses; response_file_endless,
    quoted_name_is_argument, cmdline_changed, argv0_cut, argv0_unchecked, the names ending
    in _underruns, trailing_percent_cuts, file_left_open, nameless_uninit;
    self_variable_endless, probe_misread, too_long_ignored, deep_backslash).

    ** Conventions, bounds and fuel

    A C function is a function into [outcome]: [Done], or [Fail] with undefined behaviour,
    a failed assertion or exhausted fuel. Loops are [loop fuel body]; the fuel is computed
    from the data (the mapped bytes, the length of a table, the number of objects), and
    the theorems on a function show that it returns [Done], so that the fuel sufficed.
    Integers are [Z], wrapped ([wrap_u], [wrap_s]) where the code's width can matter;
    [char] is signed, [int] has 32 bits, [long] and pointers 64. Memory is a finite map
    from addresses to bytes, and an access outside of it is undefined behaviour. The
    components whose claims do not depend on aliasing (paths, getopt, the environment)
    take strings by value. The binary search of mktime has 40 rounds, more than the
    halvings of 32 bits; localsub nests once, since no zone repeats; the years of a TZ
    rule are bounded by the size of the table. The lists of the allocator and the loops
    of fread and fwrite get as many rounds as there are blocks or bytes; the loop of fread
    that doubles the fill size 64, more than a size_t can be doubled. printf and scanf get
    the length of the format, and of the text, and more; the theorems say how much is
    enough. The parsers of the command line, of DJGPP.ENV and of paths get the length of
    their text. Two recursions have no bound in the code, response files inside of response
    files and variables inside of variables of a path: their fuel is a depth, the theorems
    assume that files and variables nest to a finite depth, and an endless nesting is shown
    to exhaust every fuel.

    ** Parameters

    The host side of dj64 ([Dj64Api]), DOS's answers (duplicated handles, closing a
    handle, resolved names, the current directory, the PSP and the environment block), the
    functions of extensions, comparisons, sbrk, the calls below the streams, glob, the text
    and the bytes of floating point numbers, the thousands separator: arguments of the
    definitions that use them. Components other than the allocator take malloc, and the
    thunk layer malloc32, as a parameter, which may fail. Their laws are fields of a class or premises, and
    every theorem that has such a premise has a witness with a concrete instance.

    ** Not modelled

    Assembler (plt stubs, crt0, DPMI, hardware), sockets, terminals, processes, floating
    point and its formatting and scanning, strftime and asctime, locale, memalign and the
    debugging allocator, wide characters, glob, the search of directories, and the vendored
    code (regex, ncurses). Of these strftime and glob carry logic that could be added next.
    Sets in scanf formats are modelled, and the theorems are on formats without them. Streams
    open for both directions, on strings and on terminals are modelled, and the theorems
    are on streams of one direction that termios has not hooked. Of the loader of zones, signed
    overflow in sums of offsets that only absurd files have is not modelled as undefined.
*)

From stdpp Require Import base gmap list sets numbers.
From Stdlib Require Import ZArith Lia.
From Stdlib Require String Ascii.

Open Scope Z_scope.

#[global] Arguments Z.eqb : simpl never.
#[global] Arguments Z.leb : simpl never.
#[global] Arguments Z.ltb : simpl never.
#[global] Arguments Z.of_nat : simpl never.
#[global] Arguments Z.add : simpl never.
#[global] Arguments Z.sub : simpl never.
#[global] Arguments Z.mul : simpl never.

(** ** Outcomes of C code

    [Fail UB] is undefined behaviour of the C abstract machine (an access
    outside the mapped bytes, a dereferenced NULL, a signed overflow),
    [Fail AssertFailed] is a failed [assert], [Fail NoFuel] is a loop of the
    model that used up its fuel, which the theorems about that loop exclude. *)
Inductive fault :=
  | UB
  | AssertFailed
  | NoFuel.

Inductive outcome (A : Type) :=
  | Done (a : A)
  | Fail (f : fault).
Arguments Done {A} _.
Arguments Fail {A} _.

#[export] Instance fault_eq_dec : EqDecision fault.
Proof. solve_decision. Defined.

#[export] Instance outcome_ret : MRet outcome := fun A a => Done a.
#[export] Instance outcome_bind : MBind outcome := fun A B k m =>
  match m with Done a => k a | Fail f => Fail f end.
#[export] Instance outcome_fmap : FMap outcome := fun A B g m =>
  match m with Done a => Done (g a) | Fail f => Fail f end.

(** [assert(b)] *)
Definition c_assert (b : bool) : outcome unit :=
  if b then Done tt else Fail AssertFailed.

(** ** Loops

    Every C loop is [loop fuel body s]: the body either goes round again with
    a new state ([inl]) or leaves the loop with a result ([inr]). *)
Fixpoint loop {S R : Type} (fuel : nat) (body : S -> outcome (S + R)) (s : S)
  : outcome R :=
  match fuel with
  | O => Fail NoFuel
  | S fuel' =>
      match body s with
      | Done (inl s') => loop fuel' body s'
      | Done (inr r) => Done r
      | Fail f => Fail f
      end
  end.

(** ** Machine integers *)

Declare Scope c_scope.
Delimit Scope c_scope with C.
Infix ".|" := Z.lor (at level 50, left associativity) : c_scope.
Infix ".&" := Z.land (at level 40, left associativity) : c_scope.

(** The value of [x] converted to an unsigned type of [w] bits. *)
Definition wrap_u (w x : Z) : Z := x mod 2 ^ w.

(** The value of [x] converted to a two's complement signed type of [w] bits. *)
Definition wrap_s (w x : Z) : Z := (x + 2 ^ (w - 1)) mod 2 ^ w - 2 ^ (w - 1).

(** The byte that a [char] holds, as its unsigned value. *)
Definition byte (c : Z) : Z := c mod 256.

(** ** Byte memory *)

Abbreviation mem := (gmap Z Z) (only parsing).

Definition load (m : mem) (a : Z) : outcome Z :=
  match m !! a with Some b => Done b | None => Fail UB end.

(** A store converts to [unsigned char] and needs a mapped address. *)
Definition store (m : mem) (a v : Z) : outcome mem :=
  match m !! a with Some _ => Done (<[a := byte v]> m) | None => Fail UB end.

(** Fuel for a scan that leaves the mapped memory at the latest after as many
    steps as there are mapped bytes. *)
Definition scan_fuel (m : mem) : nat := S (size m).

(** The bytes [l] are stored from address [p] on. *)
Definition bytes_at (m : mem) (p : Z) (l : list Z) : Prop :=
  forall i b, l !! i = Some b -> m !! (p + Z.of_nat i) = Some b.

(** Every byte of a block is an [unsigned char]. *)
Definition bytes_ok (l : list Z) : Prop := Forall (fun b => 0 <= b < 256) l.

(** Every byte of a string is a non-NUL character. *)
Definition str_ok (s : list Z) : Prop := Forall (fun b => 0 < b < 256) s.

(** The NUL-terminated string [s] is stored from address [p] on. *)
Definition cstr (m : mem) (p : Z) (s : list Z) : Prop :=
  bytes_at m p (s ++ [0]) /\ str_ok s.

(** All of [p, p+n) is mapped. *)
Definition mapped (m : mem) (p : Z) (n : nat) : Prop :=
  forall i, (i < n)%nat -> is_Some (m !! (p + Z.of_nat i)).

(** [m] with the bytes [l] written from [p] on. *)
Fixpoint write_bytes (m : mem) (p : Z) (l : list Z) : mem :=
  match l with
  | [] => m
  | b :: l' => write_bytes (<[p := b]> m) (p + 1) l'
  end.

(** A block of memory holding [l] at [p], for concrete examples. *)
Definition mem_of (p : Z) (l : list Z) : mem := write_bytes ∅ p l.

(** The bytes of a string literal. *)
Definition lit (s : String.string) : list Z :=
  map (fun c => Z.of_N (Ascii.N_of_ascii c)) (String.list_ascii_of_string s).
Arguments lit s%_string_scope.

(** ** Searching a list *)

Fixpoint prefixb (needle hay : list Z) : bool :=
  match needle, hay with
  | [], _ => true
  | _ :: _, [] => false
  | a :: needle', b :: hay' => (a =? b) && prefixb needle' hay'
  end.

(** The position of the first occurrence of [needle] in [hay]. *)
Fixpoint first_occ (needle hay : list Z) : option nat :=
  if prefixb needle hay then Some O
  else match hay with
       | [] => None
       | _ :: hay' => S <$> first_occ needle hay'
       end.

(** The position of the first element that satisfies [P]. *)
Fixpoint find_index (P : Z -> bool) (l : list Z) : option nat :=
  match l with
  | [] => None
  | b :: l' => if P b then Some O else S <$> find_index P l'
  end.

(** The difference of the first two elements that differ, 0 if there is none. *)
Fixpoint first_diff (l1 l2 : list Z) : Z :=
  match l1, l2 with
  | a :: l1', b :: l2' => if a =? b then first_diff l1' l2' else a - b
  | _, _ => 0
  end.

(** * Lemmas *)

Lemma loop_S {S R} fuel (body : S -> outcome (S + R)) s :
  loop (Datatypes.S fuel) body s =
  match body s with
  | Done (inl s') => loop fuel body s'
  | Done (inr r) => Done r
  | Fail f => Fail f
  end.
Proof. done. Qed.

(** Total correctness of a loop: an invariant and a measure. *)
Lemma loop_total {S R} (I : S -> Prop) (Q : R -> Prop) (mu : S -> nat)
    (body : S -> outcome (S + R)) :
  (forall s, I s ->
     match body s with
     | Done (inl s') => I s' /\ (mu s' < mu s)%nat
     | Done (inr r) => Q r
     | Fail _ => False
     end) ->
  forall fuel s, I s -> (mu s < fuel)%nat ->
  exists r, loop fuel body s = Done r /\ Q r.
Proof.
  intros Hbody fuel. induction fuel as [|fuel IH]; intros s Hs Hmu; [lia|].
  rewrite loop_S. specialize (Hbody s Hs).
  destruct (body s) as [[s'|r]|f]; [|by eauto|done].
  destruct Hbody as [Hs' Hlt]. apply IH; [done|lia].
Qed.

(** Partial correctness of a loop: an invariant of the body gives what holds of
    the result, if there is one. *)
Lemma loop_inv {S R} (I : S -> Prop) (Q : R -> Prop) (body : S -> outcome (S + R)) :
  (forall s, I s ->
     match body s with
     | Done (inl s') => I s'
     | Done (inr r) => Q r
     | Fail _ => True
     end) ->
  forall fuel s r, I s -> loop fuel body s = Done r -> Q r.
Proof.
  intros Hb. induction fuel as [|fuel IH]; intros s r Hs; [done|]. rewrite loop_S.
  specialize (Hb s Hs). destruct (body s) as [[s'|r']|f]; [by apply IH| |done].
  by intros [= <-].
Qed.

(** More fuel does not change a result. *)
Lemma loop_fuel_mono {S R} (body : S -> outcome (S + R)) fuel fuel' s r :
  loop fuel body s = Done r -> (fuel <= fuel')%nat ->
  loop fuel' body s = Done r.
Proof.
  revert fuel' s. induction fuel as [|fuel IH]; intros fuel' s; [done|].
  destruct fuel' as [|fuel']; [lia|]. rewrite !loop_S.
  destruct (body s) as [[s'|r']|f]; [|done|done].
  intros H Hle. apply IH; [done|lia].
Qed.

Lemma bind_Done {A B} (a : A) (k : A -> outcome B) : (Done a ≫= k) = k a.
Proof. done. Qed.

Lemma bind_inv {A B} (m : outcome A) (k : A -> outcome B) b :
  (m ≫= k) = Done b -> exists a, m = Done a /\ k a = Done b.
Proof. destruct m as [a|]; [|done]. eauto. Qed.

Lemma wrap_u_small w x : 0 <= x < 2 ^ w -> wrap_u w x = x.
Proof. intros. by apply Z.mod_small. Qed.

Lemma wrap_u_range w x : 0 <= w -> 0 <= wrap_u w x < 2 ^ w.
Proof. intros. apply Z.mod_pos_bound. by apply Z.pow_pos_nonneg. Qed.

Lemma wrap_s_small w x :
  0 < w -> - 2 ^ (w - 1) <= x < 2 ^ (w - 1) -> wrap_s w x = x.
Proof.
  intros Hw Hx. unfold wrap_s.
  replace (2 ^ w) with (2 * 2 ^ (w - 1)) by (rewrite <- Z.pow_succ_r by lia; f_equal; lia).
  rewrite Z.mod_small; lia.
Qed.

Lemma byte_small c : 0 <= c < 256 -> byte c = c.
Proof. intros. by apply Z.mod_small. Qed.

Lemma byte_range c : 0 <= byte c < 256.
Proof. by apply Z.mod_pos_bound. Qed.

(** Bits that do not overlap are added. *)
Lemma lor_shiftl_add w a d :
  0 <= w -> 0 <= a < 2 ^ w -> 0 <= d -> Z.lor a (Z.shiftl d w) = a + d * 2 ^ w.
Proof.
  intros Hw Ha Hd. assert (H0 : Z.land a (Z.shiftl d w) = 0).
  { apply Z.bits_inj'. intros i Hi. rewrite Z.land_spec, Z.bits_0.
    destruct (Z.lt_ge_cases i w).
    - by rewrite Z.shiftl_spec_low, andb_false_r by lia.
    - destruct (decide (a = 0)) as [->|]; [by rewrite Z.bits_0|].
      rewrite Z.bits_above_log2; [done|lia|]. apply Z.log2_lt_pow2; [lia|].
      apply (Z.lt_le_trans _ (2 ^ w)); [lia|]. apply Z.pow_le_mono_r; lia. }
  rewrite <- Z.lxor_lor, <- Z.add_nocarry_lxor by done. by rewrite Z.shiftl_mul_pow2.
Qed.

(** ** Lemmas on memory *)

Lemma load_Some m a b : m !! a = Some b -> load m a = Done b.
Proof. unfold load. by intros ->. Qed.

Lemma load_None m a : m !! a = None -> load m a = Fail UB.
Proof. unfold load. by intros ->. Qed.

Lemma store_Some m a v : is_Some (m !! a) -> store m a v = Done (<[a := byte v]> m).
Proof. unfold store. by intros [? ->]. Qed.

Lemma bytes_at_nil m p : bytes_at m p [].
Proof. intros i b. by rewrite lookup_nil. Qed.

Lemma bytes_at_cons m p b l :
  bytes_at m p (b :: l) <-> m !! p = Some b /\ bytes_at m (p + 1) l.
Proof.
  split.
  - intros H. split.
    + specialize (H 0%nat b eq_refl). by rewrite Z.add_0_r in H.
    + intros i c Hi. specialize (H (S i) c Hi).
      by replace (p + 1 + Z.of_nat i) with (p + Z.of_nat (S i)) by lia.
  - intros [H0 H] [|i] c Hi.
    + simplify_eq/=. by rewrite Z.add_0_r.
    + replace (p + Z.of_nat (S i)) with (p + 1 + Z.of_nat i) by lia. by apply H.
Qed.

Lemma bytes_at_app m p l1 l2 :
  bytes_at m p (l1 ++ l2) <->
  bytes_at m p l1 /\ bytes_at m (p + Z.of_nat (length l1)) l2.
Proof.
  revert p. induction l1 as [|b l1 IH]; intros p; simpl.
  - rewrite Z.add_0_r. split; [intros; split; [apply bytes_at_nil|done]|by intros [_ ?]].
  - rewrite !bytes_at_cons, IH.
    replace (p + 1 + Z.of_nat (length l1)) with (p + Z.of_nat (S (length l1))) by lia.
    tauto.
Qed.

Lemma bytes_at_load m p l i b :
  bytes_at m p l -> l !! i = Some b -> load m (p + Z.of_nat i) = Done b.
Proof. intros H Hi. apply load_Some. by apply H. Qed.

Lemma bytes_at_mapped m p l : bytes_at m p l -> mapped m p (length l).
Proof.
  intros H i Hi. destruct (lookup_lt_is_Some_2 l i Hi) as [b Hb].
  rewrite (H _ _ Hb). by eexists.
Qed.

(** A block of mapped bytes is at most as long as the memory is big: this is
    why [scan_fuel] is enough. *)
Lemma mapped_size m p n : mapped m p n -> (n <= size m)%nat.
Proof.
  intros H.
  assert (Hsub : (list_to_set (seqZ p (Z.of_nat n)) : gset Z) ⊆ dom m).
  { intros a. rewrite elem_of_list_to_set, elem_of_seqZ. intros Ha.
    apply elem_of_dom. replace a with (p + Z.of_nat (Z.to_nat (a - p))) by lia.
    apply H. lia. }
  apply subseteq_size in Hsub.
  rewrite size_list_to_set in Hsub by apply NoDup_seqZ.
  rewrite length_seqZ, size_dom in Hsub. lia.
Qed.

Lemma bytes_at_fuel m p l : bytes_at m p l -> (length l < scan_fuel m)%nat.
Proof. intros H%bytes_at_mapped%mapped_size. unfold scan_fuel. lia. Qed.

Lemma str_ok_cons b s : str_ok (b :: s) <-> 0 < b < 256 /\ str_ok s.
Proof. unfold str_ok. by rewrite Forall_cons_iff. Qed.

Lemma str_ok_app s1 s2 : str_ok (s1 ++ s2) <-> str_ok s1 /\ str_ok s2.
Proof. unfold str_ok. apply Forall_app. Qed.

Lemma str_ok_elem s b : str_ok s -> b ∈ s -> 0 < b < 256.
Proof. intros Hs Hb. apply (proj1 (List.Forall_forall _ _) Hs). by apply list_elem_of_In. Qed.

Lemma cstr_nil m p : cstr m p [] <-> m !! p = Some 0.
Proof.
  unfold cstr. simpl. rewrite bytes_at_cons.
  split; [tauto|]. intros. repeat split; [done|apply bytes_at_nil|constructor].
Qed.

Lemma cstr_cons m p b s :
  cstr m p (b :: s) <-> 0 < b < 256 /\ m !! p = Some b /\ cstr m (p + 1) s.
Proof. unfold cstr. simpl. rewrite bytes_at_cons, str_ok_cons. tauto. Qed.

Lemma cstr_fuel m p s : cstr m p s -> (S (length s) < scan_fuel m)%nat.
Proof.
  intros [H%bytes_at_fuel _]. rewrite length_app in H. simpl in H. lia.
Qed.

Lemma bytes_ok_cons b l : bytes_ok (b :: l) <-> 0 <= b < 256 /\ bytes_ok l.
Proof. unfold bytes_ok. by rewrite Forall_cons_iff. Qed.

Lemma bytes_ok_app l1 l2 : bytes_ok (l1 ++ l2) <-> bytes_ok l1 /\ bytes_ok l2.
Proof. unfold bytes_ok. apply Forall_app. Qed.

Lemma store_byte m a b :
  0 <= b < 256 -> is_Some (m !! a) -> store m a b = Done (<[a := b]> m).
Proof. intros Hb Ha. rewrite store_Some by done. by rewrite byte_small. Qed.

(** ** Writing a block of bytes *)

Lemma lookup_write_bytes m p l a :
  write_bytes m p l !! a =
  if decide (p <= a < p + Z.of_nat (length l)) then l !! Z.to_nat (a - p)
  else m !! a.
Proof.
  revert m p. induction l as [|b l IH]; intros m p; simpl.
  - by rewrite decide_False by lia.
  - rewrite IH. repeat case_decide; try lia.
    + by replace (Z.to_nat (a - p)) with (S (Z.to_nat (a - (p + 1)))) by lia.
    + assert (a = p) as -> by lia. by rewrite lookup_insert_eq, Z.sub_diag.
    + by rewrite lookup_insert_ne by lia.
Qed.

Lemma lookup_write_bytes_out m p l a :
  a < p \/ p + Z.of_nat (length l) <= a -> write_bytes m p l !! a = m !! a.
Proof. intros. rewrite lookup_write_bytes. by rewrite decide_False by lia. Qed.

Lemma write_bytes_app m p l1 l2 :
  write_bytes m p (l1 ++ l2) =
  write_bytes (write_bytes m p l1) (p + Z.of_nat (length l1)) l2.
Proof.
  revert m p. induction l1 as [|b l1 IH]; intros m p; simpl.
  - by rewrite Z.add_0_r.
  - rewrite IH. f_equal. lia.
Qed.

(** Writing elsewhere commutes with writing a block. *)
Lemma write_bytes_insert m p l a b :
  a < p \/ p + Z.of_nat (length l) <= a ->
  write_bytes (<[a := b]> m) p l = <[a := b]> (write_bytes m p l).
Proof.
  revert m p. induction l as [|c l IH]; intros m p Ha; simpl in *; [done|].
  rewrite <- IH by lia. f_equal. apply insert_insert_ne. lia.
Qed.

Lemma write_bytes_comm m p l p' l' :
  p + Z.of_nat (length l) <= p' \/ p' + Z.of_nat (length l') <= p ->
  write_bytes (write_bytes m p l) p' l' = write_bytes (write_bytes m p' l') p l.
Proof.
  revert m p. induction l as [|c l IH]; intros m p H; simpl in *; [done|].
  rewrite IH by lia. f_equal. apply write_bytes_insert. lia.
Qed.

Lemma bytes_at_write m p l : bytes_at (write_bytes m p l) p l.
Proof.
  intros i b Hi. pose proof (lookup_lt_Some _ _ _ Hi).
  rewrite lookup_write_bytes, decide_True by lia.
  by replace (Z.to_nat (p + Z.of_nat i - p)) with i by lia.
Qed.

(** A block survives writes outside it. *)
Lemma bytes_at_write_out m p l p' l' :
  bytes_at m p l ->
  p + Z.of_nat (length l) <= p' \/ p' + Z.of_nat (length l') <= p ->
  bytes_at (write_bytes m p' l') p l.
Proof.
  intros H Hd i b Hi. pose proof (lookup_lt_Some _ _ _ Hi).
  rewrite lookup_write_bytes_out by lia. by apply H.
Qed.

Lemma bytes_at_insert_out m p l a b :
  bytes_at m p l -> a < p \/ p + Z.of_nat (length l) <= a ->
  bytes_at (<[a := b]> m) p l.
Proof.
  intros H Hd i c Hi. pose proof (lookup_lt_Some _ _ _ Hi).
  rewrite lookup_insert_ne by lia. by apply H.
Qed.

Lemma mapped_write m p n p' l : mapped m p n -> mapped (write_bytes m p' l) p n.
Proof.
  intros H i Hi. rewrite lookup_write_bytes. case_decide; [|by apply H].
  apply lookup_lt_is_Some_2. lia.
Qed.

Lemma mapped_insert m p n a b : mapped m p n -> mapped (<[a := b]> m) p n.
Proof. intros H. exact (mapped_write m p n a [b] H). Qed.

Lemma mapped_S m p n : mapped m p (S n) <-> is_Some (m !! p) /\ mapped m (p + 1) n.
Proof.
  split.
  - intros H. split.
    + specialize (H 0%nat ltac:(lia)). by rewrite Z.add_0_r in H.
    + intros i Hi. specialize (H (S i) ltac:(lia)).
      by replace (p + 1 + Z.of_nat i) with (p + Z.of_nat (S i)) by lia.
  - intros [H0 H] [|i] Hi; [by rewrite Z.add_0_r|].
    replace (p + Z.of_nat (S i)) with (p + 1 + Z.of_nat i) by lia. apply H. lia.
Qed.

Lemma mapped_le m p n n' : mapped m p n -> (n' <= n)%nat -> mapped m p n'.
Proof. intros H Hle i Hi. apply H. lia. Qed.

Lemma mapped_app m p n1 n2 :
  mapped m p (n1 + n2) <-> mapped m p n1 /\ mapped m (p + Z.of_nat n1) n2.
Proof.
  split.
  - intros H. split; [apply (mapped_le m p (n1 + n2)); [done|lia]|].
    intros i Hi. specialize (H (n1 + i)%nat ltac:(lia)).
    by replace (p + Z.of_nat n1 + Z.of_nat i) with (p + Z.of_nat (n1 + i)) by lia.
  - intros [H1 H2] i Hi. destruct (decide (i < n1)%nat); [by apply H1|].
    replace (p + Z.of_nat i) with (p + Z.of_nat n1 + Z.of_nat (i - n1)) by lia.
    apply H2. lia.
Qed.

Lemma mapped_Some m p n a : mapped m p n -> p <= a < p + Z.of_nat n -> is_Some (m !! a).
Proof.
  intros H Ha. replace a with (p + Z.of_nat (Z.to_nat (a - p))) by lia. apply H. lia.
Qed.

Lemma store_mapped m p n a v :
  mapped m p n -> p <= a < p + Z.of_nat n -> store m a v = Done (<[a := byte v]> m).
Proof. intros H Ha. apply store_Some. by eapply mapped_Some. Qed.

(** Writing the bytes that are already there changes nothing. *)
Lemma write_bytes_id m p l : bytes_at m p l -> write_bytes m p l = m.
Proof.
  revert p. induction l as [|b l IH]; intros p H; [done|]. simpl.
  apply bytes_at_cons in H as [Hb H]. rewrite insert_id by done. by apply IH.
Qed.

Lemma lookup_write_replicate m p n c a :
  write_bytes m p (replicate n c) !! a =
  if decide (p <= a < p + Z.of_nat n) then Some c else m !! a.
Proof.
  rewrite lookup_write_bytes, length_replicate. case_decide; [|done].
  apply lookup_replicate_2. lia.
Qed.

(** ** Lemmas on searching *)

Lemma prefixb_iff n h : prefixb n h = true <-> exists r, h = n ++ r.
Proof.
  revert h. induction n as [|a n IH]; intros [|b h]; simpl.
  - split; [eauto|done].
  - split; [eauto|done].
  - split; [done|]. intros [r Hr]. done.
  - rewrite andb_true_iff, Z.eqb_eq, IH. split.
    + intros [-> [r ->]]. by exists r.
    + intros [r Hr]. simplify_eq. eauto.
Qed.

Lemma prefixb_short n h : (length h < length n)%nat -> prefixb n h = false.
Proof.
  revert h. induction n as [|a n IH]; intros [|b h] Hl; simpl in *; try (done || lia).
  rewrite IH by lia. by rewrite andb_false_r.
Qed.

Lemma first_occ_short n h : (length h < length n)%nat -> first_occ n h = None.
Proof.
  induction h as [|b h IH]; intros Hl; cbn [first_occ]; rewrite prefixb_short by done; [done|].
  rewrite IH; [done|]. simpl in Hl. lia.
Qed.

(** [first_occ] finds an occurrence, and none before it. *)
Lemma first_occ_Some n h i :
  first_occ n h = Some i <->
  prefixb n (drop i h) = true /\ (i <= length h)%nat /\
  forall j, (j < i)%nat -> prefixb n (drop j h) = false.
Proof.
  revert i. induction h as [|b h IH]; intros i; cbn [first_occ];
    destruct (prefixb n _) eqn:E; simpl.
  - split.
    + intros [= <-]. split_and!; [done|lia|intros; lia].
    + intros (_ & Hi & _). f_equal. lia.
  - split; [done|]. intros (H & Hi & _). rewrite drop_nil in H. congruence.
  - split.
    + intros [= <-]. split_and!; [done|lia|intros; lia].
    + intros (_ & _ & Hj). destruct i as [|i]; [done|].
      specialize (Hj 0%nat ltac:(lia)). simpl in Hj. congruence.
  - rewrite fmap_Some. split.
    + intros (k & Hk & ->). apply IH in Hk as (H1 & H2 & H3). simpl.
      split_and!; [done|lia|]. intros [|j] Hj; [done|]. apply H3. lia.
    + intros (H1 & H2 & H3). destruct i as [|i]; [simpl in H1; congruence|].
      exists i. split; [|done]. apply IH. simpl in *. split_and!; [done|lia|].
      intros j Hj. apply (H3 (S j)). lia.
Qed.

Lemma first_occ_None n h :
  first_occ n h = None <-> forall i, (i <= length h)%nat -> prefixb n (drop i h) = false.
Proof.
  induction h as [|b h IH]; cbn [first_occ]; destruct (prefixb n _) eqn:E; simpl.
  - split; [done|]. intros H. specialize (H 0%nat ltac:(lia)). simpl in H. congruence.
  - split; [|done]. intros _ i Hi. by rewrite drop_nil.
  - split; [done|]. intros H. specialize (H 0%nat ltac:(lia)). simpl in H. congruence.
  - rewrite fmap_None, IH. split.
    + intros H [|i] Hi; [done|]. apply H. lia.
    + intros H i Hi. apply (H (S i)). lia.
Qed.

Lemma first_diff_0 l1 l2 :
  length l1 = length l2 -> first_diff l1 l2 = 0 <-> l1 = l2.
Proof.
  revert l2. induction l1 as [|a l1 IH]; intros [|b l2] Hl; try done.
  simpl in *. destruct (Z.eqb_spec a b) as [->|Hne].
  - rewrite IH by lia. split; [by intros ->|by intros [= ->]].
  - split; [lia|]. intros [= -> _]. done.
Qed.

Lemma prefixb_take n h :
  (length n <= length h)%nat -> prefixb n h = bool_decide (take (length n) h = n).
Proof.
  revert h. induction n as [|a n IH]; intros [|b h] Hl; simpl in *; try done; try lia.
  rewrite IH by lia. destruct (Z.eqb_spec a b) as [->|Hne]; simpl.
  - apply bool_decide_ext. split; [by intros ->|by intros [= ->]].
  - symmetry. apply bool_decide_eq_false. by intros [= ->].
Qed.

(** ** Decision procedures, for concrete memories *)

Fixpoint bytes_at_b (m : mem) (p : Z) (l : list Z) : bool :=
  match l with
  | [] => true
  | b :: l' => bool_decide (m !! p = Some b) && bytes_at_b m (p + 1) l'
  end.

Lemma bytes_at_b_iff m p l : bytes_at_b m p l = true <-> bytes_at m p l.
Proof.
  revert p. induction l as [|b l IH]; intros p; simpl.
  - split; [intros; apply bytes_at_nil|done].
  - rewrite andb_true_iff, bool_decide_eq_true, IH. symmetry. apply bytes_at_cons.
Qed.

Fixpoint mapped_b (m : mem) (p : Z) (n : nat) : bool :=
  match n with
  | O => true
  | S n' => bool_decide (is_Some (m !! p)) && mapped_b m (p + 1) n'
  end.

Lemma mapped_b_iff m p n : mapped_b m p n = true <-> mapped m p n.
Proof.
  revert p. induction n as [|n IH]; intros p; simpl.
  - split; [intros _ i Hi; lia|done].
  - rewrite andb_true_iff, bool_decide_eq_true, IH. symmetry. apply mapped_S.
Qed.

#[export] Instance bytes_at_dec m p l : Decision (bytes_at m p l) :=
  match bytes_at_b m p l as b return (b = true <-> _) -> _ with
  | true => fun H => left (proj1 H eq_refl)
  | false => fun H => right (fun H' => Bool.diff_false_true (proj2 H H'))
  end (bytes_at_b_iff m p l).

#[export] Instance mapped_dec m p n : Decision (mapped m p n) :=
  match mapped_b m p n as b return (b = true <-> _) -> _ with
  | true => fun H => left (proj1 H eq_refl)
  | false => fun H => right (fun H' => Bool.diff_false_true (proj2 H H'))
  end (mapped_b_iff m p n).

#[export] Instance bytes_ok_dec l : Decision (bytes_ok l).
Proof. unfold bytes_ok. apply _. Defined.

#[export] Instance str_ok_dec s : Decision (str_ok s).
Proof. unfold str_ok. apply _. Defined.

#[export] Instance cstr_dec m p s : Decision (cstr m p s).
Proof. unfold cstr. apply _. Defined.

(** Decide a closed proposition by evaluation. *)
Ltac by_eval := refine (bool_decide_unpack _ _); vm_compute; exact I.

Create HintDb dj64.
Create Rewrite HintDb dj64.
#[export] Hint Resolve bytes_at_nil byte_range bytes_at_write mapped_write
  mapped_insert : dj64.
#[export] Hint Rewrite @bind_Done : dj64.

(** Take a [Done] of a sequence apart. *)
Ltac inv_done H :=
  match type of H with
  | (_ ≫= _) = Done _ =>
      let a := fresh "r" in let E := fresh "E" in
      apply bind_inv in H as (a & E & H)
  end.

(** Case analysis on the [match]es and boolean tests of the goal. *)
Ltac cases :=
  repeat (case_match; simplify_eq/=; try done).

(** Turn the boolean comparisons of the context into propositions. *)
Ltac bool_to_prop :=
  repeat match goal with
  | H : (_ && _)%bool = true |- _ => apply andb_true_iff in H; destruct H
  | H : (_ || _)%bool = false |- _ => apply orb_false_iff in H; destruct H
  | H : negb _ = true |- _ => apply negb_true_iff in H
  | H : negb _ = false |- _ => apply negb_false_iff in H
  | H : (_ =? _) = true |- _ => apply Z.eqb_eq in H
  | H : (_ =? _) = false |- _ => apply Z.eqb_neq in H
  | H : (_ <? _) = true |- _ => apply Z.ltb_lt in H
  | H : (_ <? _) = false |- _ => apply Z.ltb_ge in H
  | H : (_ <=? _) = true |- _ => apply Z.leb_le in H
  | H : (_ <=? _) = false |- _ => apply Z.leb_gt in H
  end.
