(* ===== verification/Ctype.v ===== *)
(** * Character classification

    The tables and functions of src/src/libc/ansi/ctype and the macros of
    src/include/inlines/ctype.ha: a table of flags and two case-mapping tables,
    all indexed by [c + 1] so that [EOF] (-1) has an entry of its own. *)

From S2P Require Import Prelude.
From stdpp Require Import base list numbers.
From Stdlib Require Import ZArith Lia.

Open Scope Z_scope.
Open Scope c_scope.

Definition __dj_ISALNUM := 0x0001.
Definition __dj_ISALPHA := 0x0002.
Definition __dj_ISCNTRL := 0x0004.
Definition __dj_ISDIGIT := 0x0008.
Definition __dj_ISGRAPH := 0x0010.
Definition __dj_ISLOWER := 0x0020.
Definition __dj_ISPRINT := 0x0040.
Definition __dj_ISPUNCT := 0x0080.
Definition __dj_ISSPACE := 0x0100.
Definition __dj_ISUPPER := 0x0200.
Definition __dj_ISXDIGIT := 0x0400.
Definition __dj_ISBLANK := 0x0800.

(** The rows of [__dj_ctype_flags] for [EOF] and the characters 0 to 0x7f. *)
Definition ctype_flags_ascii : list Z := [
  0; (* 0xffff *)
  __dj_ISCNTRL; (* 0x0 *)
  __dj_ISCNTRL; (* 0x1 *)
  __dj_ISCNTRL; (* 0x2 *)
  __dj_ISCNTRL; (* 0x3 *)
  __dj_ISCNTRL; (* 0x4 *)
  __dj_ISCNTRL; (* 0x5 *)
  __dj_ISCNTRL; (* 0x6 *)
  __dj_ISCNTRL; (* 0x7 *)
  __dj_ISCNTRL; (* 0x8 *)
  __dj_ISCNTRL .| __dj_ISSPACE .| __dj_ISBLANK; (* 0x9 *)
  __dj_ISCNTRL .| __dj_ISSPACE; (* 0xa *)
  __dj_ISCNTRL .| __dj_ISSPACE; (* 0xb *)
  __dj_ISCNTRL .| __dj_ISSPACE; (* 0xc *)
  __dj_ISCNTRL .| __dj_ISSPACE; (* 0xd *)
  __dj_ISCNTRL; (* 0xe *)
  __dj_ISCNTRL; (* 0xf *)
  __dj_ISCNTRL; (* 0x10 *)
  __dj_ISCNTRL; (* 0x11 *)
  __dj_ISCNTRL; (* 0x12 *)
  __dj_ISCNTRL; (* 0x13 *)
  __dj_ISCNTRL; (* 0x14 *)
  __dj_ISCNTRL; (* 0x15 *)
  __dj_ISCNTRL; (* 0x16 *)
  __dj_ISCNTRL; (* 0x17 *)
  __dj_ISCNTRL; (* 0x18 *)
  __dj_ISCNTRL; (* 0x19 *)
  __dj_ISCNTRL; (* 0x1a *)
  __dj_ISCNTRL; (* 0x1b *)
  __dj_ISCNTRL; (* 0x1c *)
  __dj_ISCNTRL; (* 0x1d *)
  __dj_ISCNTRL; (* 0x1e *)
  __dj_ISCNTRL; (* 0x1f *)
  __dj_ISPRINT .| __dj_ISSPACE .| __dj_ISBLANK; (* 0x20 *)
  __dj_ISGRAPH .| __dj_ISPRINT .| __dj_ISPUNCT; (* 0x21 *)
  __dj_ISGRAPH .| __dj_ISPRINT .| __dj_ISPUNCT; (* 0x22 *)
  __dj_ISGRAPH .| __dj_ISPRINT .| __dj_ISPUNCT; (* 0x23 *)
  __dj_ISGRAPH .| __dj_ISPRINT .| __dj_ISPUNCT; (* 0x24 *)
  __dj_ISGRAPH .| __dj_ISPRINT .| __dj_ISPUNCT; (* 0x25 *)
  __dj_ISGRAPH .| __dj_ISPRINT .| __dj_ISPUNCT; (* 0x26 *)
  __dj_ISGRAPH .| __dj_ISPRINT .| __dj_ISPUNCT; (* 0x27 *)
  __dj_ISGRAPH .| __dj_ISPRINT .| __dj_ISPUNCT; (* 0x28 *)
  __dj_ISGRAPH .| __dj_ISPRINT .| __dj_ISPUNCT; (* 0x29 *)
  __dj_ISGRAPH .| __dj_ISPRINT .| __dj_ISPUNCT; (* 0x2a *)
  __dj_ISGRAPH .| __dj_ISPRINT .| __dj_ISPUNCT; (* 0x2b *)
  __dj_ISGRAPH .| __dj_ISPRINT .| __dj_ISPUNCT; (* 0x2c *)
  __dj_ISGRAPH .| __dj_ISPRINT .| __dj_ISPUNCT; (* 0x2d *)
  __dj_ISGRAPH .| __dj_ISPRINT .| __dj_ISPUNCT; (* 0x2e *)
  __dj_ISGRAPH .| __dj_ISPRINT .| __dj_ISPUNCT; (* 0x2f *)
  __dj_ISALNUM .| __dj_ISDIGIT .| __dj_ISGRAPH .| __dj_ISPRINT .| __dj_ISXDIGIT; (* 0x30 *)
  __dj_ISALNUM .| __dj_ISDIGIT .| __dj_ISGRAPH .| __dj_ISPRINT .| __dj_ISXDIGIT; (* 0x31 *)
  __dj_ISALNUM .| __dj_ISDIGIT .| __dj_ISGRAPH .| __dj_ISPRINT .| __dj_ISXDIGIT; (* 0x32 *)
  __dj_ISALNUM .| __dj_ISDIGIT .| __dj_ISGRAPH .| __dj_ISPRINT .| __dj_ISXDIGIT; (* 0x33 *)
  __dj_ISALNUM .| __dj_ISDIGIT .| __dj_ISGRAPH .| __dj_ISPRINT .| __dj_ISXDIGIT; (* 0x34 *)
  __dj_ISALNUM .| __dj_ISDIGIT .| __dj_ISGRAPH .| __dj_ISPRINT .| __dj_ISXDIGIT; (* 0x35 *)
  __dj_ISALNUM .| __dj_ISDIGIT .| __dj_ISGRAPH .| __dj_ISPRINT .| __dj_ISXDIGIT; (* 0x36 *)
  __dj_ISALNUM .| __dj_ISDIGIT .| __dj_ISGRAPH .| __dj_ISPRINT .| __dj_ISXDIGIT; (* 0x37 *)
  __dj_ISALNUM .| __dj_ISDIGIT .| __dj_ISGRAPH .| __dj_ISPRINT .| __dj_ISXDIGIT; (* 0x38 *)
  __dj_ISALNUM .| __dj_ISDIGIT .| __dj_ISGRAPH .| __dj_ISPRINT .| __dj_ISXDIGIT; (* 0x39 *)
  __dj_ISGRAPH .| __dj_ISPRINT .| __dj_ISPUNCT; (* 0x3a *)
  __dj_ISGRAPH .| __dj_ISPRINT .| __dj_ISPUNCT; (* 0x3b *)
  __dj_ISGRAPH .| __dj_ISPRINT .| __dj_ISPUNCT; (* 0x3c *)
  __dj_ISGRAPH .| __dj_ISPRINT .| __dj_ISPUNCT; (* 0x3d *)
  __dj_ISGRAPH .| __dj_ISPRINT .| __dj_ISPUNCT; (* 0x3e *)
  __dj_ISGRAPH .| __dj_ISPRINT .| __dj_ISPUNCT; (* 0x3f *)
  __dj_ISGRAPH .| __dj_ISPRINT .| __dj_ISPUNCT; (* 0x40 *)
  __dj_ISALNUM .| __dj_ISALPHA .| __dj_ISGRAPH .| __dj_ISPRINT .| __dj_ISUPPER .| __dj_ISXDIGIT; (* 0x41 *)
  __dj_ISALNUM .| __dj_ISALPHA .| __dj_ISGRAPH .| __dj_ISPRINT .| __dj_ISUPPER .| __dj_ISXDIGIT; (* 0x42 *)
  __dj_ISALNUM .| __dj_ISALPHA .| __dj_ISGRAPH .| __dj_ISPRINT .| __dj_ISUPPER .| __dj_ISXDIGIT; (* 0x43 *)
  __dj_ISALNUM .| __dj_ISALPHA .| __dj_ISGRAPH .| __dj_ISPRINT .| __dj_ISUPPER .| __dj_ISXDIGIT; (* 0x44 *)
  __dj_ISALNUM .| __dj_ISALPHA .| __dj_ISGRAPH .| __dj_ISPRINT .| __dj_ISUPPER .| __dj_ISXDIGIT; (* 0x45 *)
  __dj_ISALNUM .| __dj_ISALPHA .| __dj_ISGRAPH .| __dj_ISPRINT .| __dj_ISUPPER .| __dj_ISXDIGIT; (* 0x46 *)
  __dj_ISALNUM .| __dj_ISALPHA .| __dj_ISGRAPH .| __dj_ISPRINT .| __dj_ISUPPER; (* 0x47 *)
  __dj_ISALNUM .| __dj_ISALPHA .| __dj_ISGRAPH .| __dj_ISPRINT .| __dj_ISUPPER; (* 0x48 *)
  __dj_ISALNUM .| __dj_ISALPHA .| __dj_ISGRAPH .| __dj_ISPRINT .| __dj_ISUPPER; (* 0x49 *)
  __dj_ISALNUM .| __dj_ISALPHA .| __dj_ISGRAPH .| __dj_ISPRINT .| __dj_ISUPPER; (* 0x4a *)
  __dj_ISALNUM .| __dj_ISALPHA .| __dj_ISGRAPH .| __dj_ISPRINT .| __dj_ISUPPER; (* 0x4b *)
  __dj_ISALNUM .| __dj_ISALPHA .| __dj_ISGRAPH .| __dj_ISPRINT .| __dj_ISUPPER; (* 0x4c *)
  __dj_ISALNUM .| __dj_ISALPHA .| __dj_ISGRAPH .| __dj_ISPRINT .| __dj_ISUPPER; (* 0x4d *)
  __dj_ISALNUM .| __dj_ISALPHA .| __dj_ISGRAPH .| __dj_ISPRINT .| __dj_ISUPPER; (* 0x4e *)
  __dj_ISALNUM .| __dj_ISALPHA .| __dj_ISGRAPH .| __dj_ISPRINT .| __dj_ISUPPER; (* 0x4f *)
  __dj_ISALNUM .| __dj_ISALPHA .| __dj_ISGRAPH .| __dj_ISPRINT .| __dj_ISUPPER; (* 0x50 *)
  __dj_ISALNUM .| __dj_ISALPHA .| __dj_ISGRAPH .| __dj_ISPRINT .| __dj_ISUPPER; (* 0x51 *)
  __dj_ISALNUM .| __dj_ISALPHA .| __dj_ISGRAPH .| __dj_ISPRINT .| __dj_ISUPPER; (* 0x52 *)
  __dj_ISALNUM .| __dj_ISALPHA .| __dj_ISGRAPH .| __dj_ISPRINT .| __dj_ISUPPER; (* 0x53 *)
  __dj_ISALNUM .| __dj_ISALPHA .| __dj_ISGRAPH .| __dj_ISPRINT .| __dj_ISUPPER; (* 0x54 *)
  __dj_ISALNUM .| __dj_ISALPHA .| __dj_ISGRAPH .| __dj_ISPRINT .| __dj_ISUPPER; (* 0x55 *)
  __dj_ISALNUM .| __dj_ISALPHA .| __dj_ISGRAPH .| __dj_ISPRINT .| __dj_ISUPPER; (* 0x56 *)
  __dj_ISALNUM .| __dj_ISALPHA .| __dj_ISGRAPH .| __dj_ISPRINT .| __dj_ISUPPER; (* 0x57 *)
  __dj_ISALNUM .| __dj_ISALPHA .| __dj_ISGRAPH .| __dj_ISPRINT .| __dj_ISUPPER; (* 0x58 *)
  __dj_ISALNUM .| __dj_ISALPHA .| __dj_ISGRAPH .| __dj_ISPRINT .| __dj_ISUPPER; (* 0x59 *)
  __dj_ISALNUM .| __dj_ISALPHA .| __dj_ISGRAPH .| __dj_ISPRINT .| __dj_ISUPPER; (* 0x5a *)
  __dj_ISGRAPH .| __dj_ISPRINT .| __dj_ISPUNCT; (* 0x5b *)
  __dj_ISGRAPH .| __dj_ISPRINT .| __dj_ISPUNCT; (* 0x5c *)
  __dj_ISGRAPH .| __dj_ISPRINT .| __dj_ISPUNCT; (* 0x5d *)
  __dj_ISGRAPH .| __dj_ISPRINT .| __dj_ISPUNCT; (* 0x5e *)
  __dj_ISGRAPH .| __dj_ISPRINT .| __dj_ISPUNCT; (* 0x5f *)
  __dj_ISGRAPH .| __dj_ISPRINT .| __dj_ISPUNCT; (* 0x60 *)
  __dj_ISALNUM .| __dj_ISALPHA .| __dj_ISGRAPH .| __dj_ISLOWER .| __dj_ISPRINT .| __dj_ISXDIGIT; (* 0x61 *)
  __dj_ISALNUM .| __dj_ISALPHA .| __dj_ISGRAPH .| __dj_ISLOWER .| __dj_ISPRINT .| __dj_ISXDIGIT; (* 0x62 *)
  __dj_ISALNUM .| __dj_ISALPHA .| __dj_ISGRAPH .| __dj_ISLOWER .| __dj_ISPRINT .| __dj_ISXDIGIT; (* 0x63 *)
  __dj_ISALNUM .| __dj_ISALPHA .| __dj_ISGRAPH .| __dj_ISLOWER .| __dj_ISPRINT .| __dj_ISXDIGIT; (* 0x64 *)
  __dj_ISALNUM .| __dj_ISALPHA .| __dj_ISGRAPH .| __dj_ISLOWER .| __dj_ISPRINT .| __dj_ISXDIGIT; (* 0x65 *)
  __dj_ISALNUM .| __dj_ISALPHA .| __dj_ISGRAPH .| __dj_ISLOWER .| __dj_ISPRINT .| __dj_ISXDIGIT; (* 0x66 *)
  __dj_ISALNUM .| __dj_ISALPHA .| __dj_ISGRAPH .| __dj_ISLOWER .| __dj_ISPRINT; (* 0x67 *)
  __dj_ISALNUM .| __dj_ISALPHA .| __dj_ISGRAPH .| __dj_ISLOWER .| __dj_ISPRINT; (* 0x68 *)
  __dj_ISALNUM .| __dj_ISALPHA .| __dj_ISGRAPH .| __dj_ISLOWER .| __dj_ISPRINT; (* 0x69 *)
  __dj_ISALNUM .| __dj_ISALPHA .| __dj_ISGRAPH .| __dj_ISLOWER .| __dj_ISPRINT; (* 0x6a *)
  __dj_ISALNUM .| __dj_ISALPHA .| __dj_ISGRAPH .| __dj_ISLOWER .| __dj_ISPRINT; (* 0x6b *)
  __dj_ISALNUM .| __dj_ISALPHA .| __dj_ISGRAPH .| __dj_ISLOWER .| __dj_ISPRINT; (* 0x6c *)
  __dj_ISALNUM .| __dj_ISALPHA .| __dj_ISGRAPH .| __dj_ISLOWER .| __dj_ISPRINT; (* 0x6d *)
  __dj_ISALNUM .| __dj_ISALPHA .| __dj_ISGRAPH .| __dj_ISLOWER .| __dj_ISPRINT; (* 0x6e *)
  __dj_ISALNUM .| __dj_ISALPHA .| __dj_ISGRAPH .| __dj_ISLOWER .| __dj_ISPRINT; (* 0x6f *)
  __dj_ISALNUM .| __dj_ISALPHA .| __dj_ISGRAPH .| __dj_ISLOWER .| __dj_ISPRINT; (* 0x70 *)
  __dj_ISALNUM .| __dj_ISALPHA .| __dj_ISGRAPH .| __dj_ISLOWER .| __dj_ISPRINT; (* 0x71 *)
  __dj_ISALNUM .| __dj_ISALPHA .| __dj_ISGRAPH .| __dj_ISLOWER .| __dj_ISPRINT; (* 0x72 *)
  __dj_ISALNUM .| __dj_ISALPHA .| __dj_ISGRAPH .| __dj_ISLOWER .| __dj_ISPRINT; (* 0x73 *)
  __dj_ISALNUM .| __dj_ISALPHA .| __dj_ISGRAPH .| __dj_ISLOWER .| __dj_ISPRINT; (* 0x74 *)
  __dj_ISALNUM .| __dj_ISALPHA .| __dj_ISGRAPH .| __dj_ISLOWER .| __dj_ISPRINT; (* 0x75 *)
  __dj_ISALNUM .| __dj_ISALPHA .| __dj_ISGRAPH .| __dj_ISLOWER .| __dj_ISPRINT; (* 0x76 *)
  __dj_ISALNUM .| __dj_ISALPHA .| __dj_ISGRAPH .| __dj_ISLOWER .| __dj_ISPRINT; (* 0x77 *)
  __dj_ISALNUM .| __dj_ISALPHA .| __dj_ISGRAPH .| __dj_ISLOWER .| __dj_ISPRINT; (* 0x78 *)
  __dj_ISALNUM .| __dj_ISALPHA .| __dj_ISGRAPH .| __dj_ISLOWER .| __dj_ISPRINT; (* 0x79 *)
  __dj_ISALNUM .| __dj_ISALPHA .| __dj_ISGRAPH .| __dj_ISLOWER .| __dj_ISPRINT; (* 0x7a *)
  __dj_ISGRAPH .| __dj_ISPRINT .| __dj_ISPUNCT; (* 0x7b *)
  __dj_ISGRAPH .| __dj_ISPRINT .| __dj_ISPUNCT; (* 0x7c *)
  __dj_ISGRAPH .| __dj_ISPRINT .| __dj_ISPUNCT; (* 0x7d *)
  __dj_ISGRAPH .| __dj_ISPRINT .| __dj_ISPUNCT; (* 0x7e *)
  __dj_ISCNTRL (* 0x7f *)
].

(** The rows of [__dj_ctype_flags] for the characters 0x80 to 0xff. *)
Definition ctype_flags_high : list Z := [
  0; (* 0x80 *)
  0; (* 0x81 *)
  0; (* 0x82 *)
  0; (* 0x83 *)
  0; (* 0x84 *)
  0; (* 0x85 *)
  0; (* 0x86 *)
  0; (* 0x87 *)
  0; (* 0x88 *)
  0; (* 0x89 *)
  0; (* 0x8a *)
  0; (* 0x8b *)
  0; (* 0x8c *)
  0; (* 0x8d *)
  0; (* 0x8e *)
  0; (* 0x8f *)
  0; (* 0x90 *)
  0; (* 0x91 *)
  0; (* 0x92 *)
  0; (* 0x93 *)
  0; (* 0x94 *)
  0; (* 0x95 *)
  0; (* 0x96 *)
  0; (* 0x97 *)
  0; (* 0x98 *)
  0; (* 0x99 *)
  0; (* 0x9a *)
  0; (* 0x9b *)
  0; (* 0x9c *)
  0; (* 0x9d *)
  0; (* 0x9e *)
  0; (* 0x9f *)
  0; (* 0xa0 *)
  0; (* 0xa1 *)
  0; (* 0xa2 *)
  0; (* 0xa3 *)
  0; (* 0xa4 *)
  0; (* 0xa5 *)
  0; (* 0xa6 *)
  0; (* 0xa7 *)
  0; (* 0xa8 *)
  0; (* 0xa9 *)
  0; (* 0xaa *)
  0; (* 0xab *)
  0; (* 0xac *)
  0; (* 0xad *)
  0; (* 0xae *)
  0; (* 0xaf *)
  0; (* 0xb0 *)
  0; (* 0xb1 *)
  0; (* 0xb2 *)
  0; (* 0xb3 *)
  0; (* 0xb4 *)
  0; (* 0xb5 *)
  0; (* 0xb6 *)
  0; (* 0xb7 *)
  0; (* 0xb8 *)
  0; (* 0xb9 *)
  0; (* 0xba *)
  0; (* 0xbb *)
  0; (* 0xbc *)
  0; (* 0xbd *)
  0; (* 0xbe *)
  0; (* 0xbf *)
  0; (* 0xc0 *)
  0; (* 0xc1 *)
  0; (* 0xc2 *)
  0; (* 0xc3 *)
  0; (* 0xc4 *)
  0; (* 0xc5 *)
  0; (* 0xc6 *)
  0; (* 0xc7 *)
  0; (* 0xc8 *)
  0; (* 0xc9 *)
  0; (* 0xca *)
  0; (* 0xcb *)
  0; (* 0xcc *)
  0; (* 0xcd *)
  0; (* 0xce *)
  0; (* 0xcf *)
  0; (* 0xd0 *)
  0; (* 0xd1 *)
  0; (* 0xd2 *)
  0; (* 0xd3 *)
  0; (* 0xd4 *)
  0; (* 0xd5 *)
  0; (* 0xd6 *)
  0; (* 0xd7 *)
  0; (* 0xd8 *)
  0; (* 0xd9 *)
  0; (* 0xda *)
  0; (* 0xdb *)
  0; (* 0xdc *)
  0; (* 0xdd *)
  0; (* 0xde *)
  0; (* 0xdf *)
  0; (* 0xe0 *)
  0; (* 0xe1 *)
  0; (* 0xe2 *)
  0; (* 0xe3 *)
  0; (* 0xe4 *)
  0; (* 0xe5 *)
  0; (* 0xe6 *)
  0; (* 0xe7 *)
  0; (* 0xe8 *)
  0; (* 0xe9 *)
  0; (* 0xea *)
  0; (* 0xeb *)
  0; (* 0xec *)
  0; (* 0xed *)
  0; (* 0xee *)
  0; (* 0xef *)
  0; (* 0xf0 *)
  0; (* 0xf1 *)
  0; (* 0xf2 *)
  0; (* 0xf3 *)
  0; (* 0xf4 *)
  0; (* 0xf5 *)
  0; (* 0xf6 *)
  0; (* 0xf7 *)
  0; (* 0xf8 *)
  0; (* 0xf9 *)
  0; (* 0xfa *)
  0; (* 0xfb *)
  0; (* 0xfc *)
  0; (* 0xfd *)
  0; (* 0xfe *)
  0 (* 0xff *)
].

Definition __dj_ctype_flags : list Z := ctype_flags_ascii ++ ctype_flags_high.

Definition __dj_ctype_tolower : list Z := [
  0x00;
  0x00; 0x01; 0x02; 0x03; 0x04; 0x05; 0x06; 0x07;
  0x08; 0x09; 0x0a; 0x0b; 0x0c; 0x0d; 0x0e; 0x0f;
  0x10; 0x11; 0x12; 0x13; 0x14; 0x15; 0x16; 0x17;
  0x18; 0x19; 0x1a; 0x1b; 0x1c; 0x1d; 0x1e; 0x1f;
  0x20; 0x21; 0x22; 0x23; 0x24; 0x25; 0x26; 0x27;
  0x28; 0x29; 0x2a; 0x2b; 0x2c; 0x2d; 0x2e; 0x2f;
  0x30; 0x31; 0x32; 0x33; 0x34; 0x35; 0x36; 0x37;
  0x38; 0x39; 0x3a; 0x3b; 0x3c; 0x3d; 0x3e; 0x3f;
  0x40; 0x61; 0x62; 0x63; 0x64; 0x65; 0x66; 0x67;
  0x68; 0x69; 0x6a; 0x6b; 0x6c; 0x6d; 0x6e; 0x6f;
  0x70; 0x71; 0x72; 0x73; 0x74; 0x75; 0x76; 0x77;
  0x78; 0x79; 0x7a; 0x5b; 0x5c; 0x5d; 0x5e; 0x5f;
  0x60; 0x61; 0x62; 0x63; 0x64; 0x65; 0x66; 0x67;
  0x68; 0x69; 0x6a; 0x6b; 0x6c; 0x6d; 0x6e; 0x6f;
  0x70; 0x71; 0x72; 0x73; 0x74; 0x75; 0x76; 0x77;
  0x78; 0x79; 0x7a; 0x7b; 0x7c; 0x7d; 0x7e; 0x7f;
  0x80; 0x81; 0x82; 0x83; 0x84; 0x85; 0x86; 0x87;
  0x88; 0x89; 0x8a; 0x8b; 0x8c; 0x8d; 0x8e; 0x8f;
  0x90; 0x91; 0x92; 0x93; 0x94; 0x95; 0x96; 0x97;
  0x98; 0x99; 0x9a; 0x9b; 0x9c; 0x9d; 0x9e; 0x9f;
  0xa0; 0xa1; 0xa2; 0xa3; 0xa4; 0xa5; 0xa6; 0xa7;
  0xa8; 0xa9; 0xaa; 0xab; 0xac; 0xad; 0xae; 0xaf;
  0xb0; 0xb1; 0xb2; 0xb3; 0xb4; 0xb5; 0xb6; 0xb7;
  0xb8; 0xb9; 0xba; 0xbb; 0xbc; 0xbd; 0xbe; 0xbf;
  0xc0; 0xc1; 0xc2; 0xc3; 0xc4; 0xc5; 0xc6; 0xc7;
  0xc8; 0xc9; 0xca; 0xcb; 0xcc; 0xcd; 0xce; 0xcf;
  0xd0; 0xd1; 0xd2; 0xd3; 0xd4; 0xd5; 0xd6; 0xd7;
  0xd8; 0xd9; 0xda; 0xdb; 0xdc; 0xdd; 0xde; 0xdf;
  0xe0; 0xe1; 0xe2; 0xe3; 0xe4; 0xe5; 0xe6; 0xe7;
  0xe8; 0xe9; 0xea; 0xeb; 0xec; 0xed; 0xee; 0xef;
  0xf0; 0xf1; 0xf2; 0xf3; 0xf4; 0xf5; 0xf6; 0xf7;
  0xf8; 0xf9; 0xfa; 0xfb; 0xfc; 0xfd; 0xfe; 0xff
].

Definition __dj_ctype_toupper : list Z := [
  0x00;
  0x00; 0x01; 0x02; 0x03; 0x04; 0x05; 0x06; 0x07;
  0x08; 0x09; 0x0a; 0x0b; 0x0c; 0x0d; 0x0e; 0x0f;
  0x10; 0x11; 0x12; 0x13; 0x14; 0x15; 0x16; 0x17;
  0x18; 0x19; 0x1a; 0x1b; 0x1c; 0x1d; 0x1e; 0x1f;
  0x20; 0x21; 0x22; 0x23; 0x24; 0x25; 0x26; 0x27;
  0x28; 0x29; 0x2a; 0x2b; 0x2c; 0x2d; 0x2e; 0x2f;
  0x30; 0x31; 0x32; 0x33; 0x34; 0x35; 0x36; 0x37;
  0x38; 0x39; 0x3a; 0x3b; 0x3c; 0x3d; 0x3e; 0x3f;
  0x40; 0x41; 0x42; 0x43; 0x44; 0x45; 0x46; 0x47;
  0x48; 0x49; 0x4a; 0x4b; 0x4c; 0x4d; 0x4e; 0x4f;
  0x50; 0x51; 0x52; 0x53; 0x54; 0x55; 0x56; 0x57;
  0x58; 0x59; 0x5a; 0x5b; 0x5c; 0x5d; 0x5e; 0x5f;
  0x60; 0x41; 0x42; 0x43; 0x44; 0x45; 0x46; 0x47;
  0x48; 0x49; 0x4a; 0x4b; 0x4c; 0x4d; 0x4e; 0x4f;
  0x50; 0x51; 0x52; 0x53; 0x54; 0x55; 0x56; 0x57;
  0x58; 0x59; 0x5a; 0x7b; 0x7c; 0x7d; 0x7e; 0x7f;
  0x80; 0x81; 0x82; 0x83; 0x84; 0x85; 0x86; 0x87;
  0x88; 0x89; 0x8a; 0x8b; 0x8c; 0x8d; 0x8e; 0x8f;
  0x90; 0x91; 0x92; 0x93; 0x94; 0x95; 0x96; 0x97;
  0x98; 0x99; 0x9a; 0x9b; 0x9c; 0x9d; 0x9e; 0x9f;
  0xa0; 0xa1; 0xa2; 0xa3; 0xa4; 0xa5; 0xa6; 0xa7;
  0xa8; 0xa9; 0xaa; 0xab; 0xac; 0xad; 0xae; 0xaf;
  0xb0; 0xb1; 0xb2; 0xb3; 0xb4; 0xb5; 0xb6; 0xb7;
  0xb8; 0xb9; 0xba; 0xbb; 0xbc; 0xbd; 0xbe; 0xbf;
  0xc0; 0xc1; 0xc2; 0xc3; 0xc4; 0xc5; 0xc6; 0xc7;
  0xc8; 0xc9; 0xca; 0xcb; 0xcc; 0xcd; 0xce; 0xcf;
  0xd0; 0xd1; 0xd2; 0xd3; 0xd4; 0xd5; 0xd6; 0xd7;
  0xd8; 0xd9; 0xda; 0xdb; 0xdc; 0xdd; 0xde; 0xdf;
  0xe0; 0xe1; 0xe2; 0xe3; 0xe4; 0xe5; 0xe6; 0xe7;
  0xe8; 0xe9; 0xea; 0xeb; 0xec; 0xed; 0xee; 0xef;
  0xf0; 0xf1; 0xf2; 0xf3; 0xf4; 0xf5; 0xf6; 0xf7;
  0xf8; 0xf9; 0xfa; 0xfb; 0xfc; 0xfd; 0xfe; 0xff
].

(** [tab[i]] for a table with static storage: reading outside it is undefined. *)
Definition table_get (tab : list Z) (i : Z) : outcome Z :=
  if i <? 0 then Fail UB
  else match tab !! Z.to_nat i with Some v => Done v | None => Fail UB end.

Definition isalnum (c : Z) : outcome Z :=
  f ← table_get __dj_ctype_flags (c + 1); Done (f .& __dj_ISALNUM).

Definition isalpha (c : Z) : outcome Z :=
  f ← table_get __dj_ctype_flags (c + 1); Done (f .& __dj_ISALPHA).

Definition iscntrl (c : Z) : outcome Z :=
  f ← table_get __dj_ctype_flags (c + 1); Done (f .& __dj_ISCNTRL).

Definition isdigit (c : Z) : outcome Z :=
  f ← table_get __dj_ctype_flags (c + 1); Done (f .& __dj_ISDIGIT).

Definition isgraph (c : Z) : outcome Z :=
  f ← table_get __dj_ctype_flags (c + 1); Done (f .& __dj_ISGRAPH).

Definition islower (c : Z) : outcome Z :=
  f ← table_get __dj_ctype_flags (c + 1); Done (f .& __dj_ISLOWER).

Definition isprint (c : Z) : outcome Z :=
  f ← table_get __dj_ctype_flags (c + 1); Done (f .& __dj_ISPRINT).

Definition ispunct (c : Z) : outcome Z :=
  f ← table_get __dj_ctype_flags (c + 1); Done (f .& __dj_ISPUNCT).

Definition isspace (c : Z) : outcome Z :=
  f ← table_get __dj_ctype_flags (c + 1); Done (f .& __dj_ISSPACE).

Definition isupper (c : Z) : outcome Z :=
  f ← table_get __dj_ctype_flags (c + 1); Done (f .& __dj_ISUPPER).

Definition isxdigit (c : Z) : outcome Z :=
  f ← table_get __dj_ctype_flags (c + 1); Done (f .& __dj_ISXDIGIT).

Definition isblank (c : Z) : outcome Z :=
  f ← table_get __dj_ctype_flags (c + 1); Done (f .& __dj_ISBLANK).

Definition tolower (c : Z) : outcome Z := table_get __dj_ctype_tolower (c + 1).

Definition toupper (c : Z) : outcome Z := table_get __dj_ctype_toupper (c + 1).

Definition isascii (c : Z) : Z := if (c .& Z.lnot 0x7f) =? 0 then 1 else 0.

Definition toascii (c : Z) : Z := c .& 0x7f.

(** [wint_t] is [uint32_t]: the subtractions wrap at 32 bits. *)
Definition iswdigit (wc : Z) : bool := wrap_u 32 (wc - 48) <? 10.

Definition iswprint (wc : Z) : bool :=
  if wc <? 0xff then 0x21 <=? ((wc + 1) .& 0x7f)
  else if (wc <? 0x2028) || (wrap_u 32 (wc - 0x202a) <? 0xd800 - 0x202a)
          || (wrap_u 32 (wc - 0xe000) <? 0xfff9 - 0xe000) then true
  else if (0x10ffff - 0xfffc <? wrap_u 32 (wc - 0xfffc))
          || ((wc .& 0xfffe) =? 0xfffe) then false
  else true.

(** C truth value of a classification result. *)
Definition truth (o : outcome Z) : bool :=
  match o with Done v => negb (v =? 0) | Fail _ => false end.

(** ** The C locale's character classes, stated without the tables *)

Definition in_range (lo hi c : Z) : bool := (lo <=? c) && (c <=? hi).
Definition upper_spec (c : Z) : bool := in_range 65 90 c.
Definition lower_spec (c : Z) : bool := in_range 97 122 c.
Definition digit_spec (c : Z) : bool := in_range 48 57 c.
Definition alpha_spec (c : Z) : bool := upper_spec c || lower_spec c.
Definition alnum_spec (c : Z) : bool := alpha_spec c || digit_spec c.
Definition xdigit_spec (c : Z) : bool :=
  digit_spec c || in_range 65 70 c || in_range 97 102 c.
Definition space_spec (c : Z) : bool := in_range 9 13 c || (c =? 32).
Definition blank_spec (c : Z) : bool := (c =? 9) || (c =? 32).
Definition cntrl_spec (c : Z) : bool := in_range 0 31 c || (c =? 127).
Definition print_spec (c : Z) : bool := in_range 32 126 c.
Definition graph_spec (c : Z) : bool := in_range 33 126 c.
Definition punct_spec (c : Z) : bool := graph_spec c && negb (alnum_spec c).

(** Every code point that iswprint's comment calls printable. *)
Definition wprint_spec (wc : Z) : bool :=
  (wc <=? 0x10ffff) && negb (in_range 0xd800 0xdfff wc)
  && negb (in_range 0 0x1f wc) && negb (in_range 0x7f 0x9f wc)
  && negb (in_range 0x2028 0x2029 wc) && negb (in_range 0xfff9 0xfffb wc)
  && negb (65534 <=? wc mod 65536).

(** A decidable statement about all of [lo, lo+n) holds if it evaluates to true
    on each. *)
Lemma range_all (lo n : Z) (P : Z -> bool) :
  forallb P (seqZ lo n) = true -> forall c, lo <= c < lo + n -> P c = true.
Proof.
  intros H c Hc. rewrite forallb_forall in H. apply H.
  apply list_elem_of_In, elem_of_seqZ. lia.
Qed.

Definition done_is (o : outcome Z) (v : Z) : bool :=
  match o with Done x => x =? v | Fail _ => false end.

Lemma done_is_true o v : done_is o v = true -> o = Done v.
Proof. destruct o; simpl; [intros ->%Z.eqb_eq|]; done. Qed.

(** Close [f c = Done (g c)] for [c] in [lo, 256) by evaluation. *)
Ltac ctype_eval lo n c Hc :=
  apply done_is_true; revert c Hc; apply (range_all lo n); vm_compute; reflexivity.

Lemma isspace_spec c : -1 <= c < 256 ->
  isspace c = Done (if space_spec c then __dj_ISSPACE else 0).
Proof. intros Hc. ctype_eval (-1) 257 c Hc. Qed.

Lemma isdigit_spec c : -1 <= c < 256 ->
  isdigit c = Done (if digit_spec c then __dj_ISDIGIT else 0).
Proof. intros Hc. ctype_eval (-1) 257 c Hc. Qed.

Lemma isalpha_spec c : -1 <= c < 256 ->
  isalpha c = Done (if alpha_spec c then __dj_ISALPHA else 0).
Proof. intros Hc. ctype_eval (-1) 257 c Hc. Qed.

Lemma isupper_spec c : -1 <= c < 256 ->
  isupper c = Done (if upper_spec c then __dj_ISUPPER else 0).
Proof. intros Hc. ctype_eval (-1) 257 c Hc. Qed.

Lemma tolower_spec c : 0 <= c < 256 ->
  tolower c = Done (if upper_spec c then c + 32 else c).
Proof. intros Hc. ctype_eval 0 256 c Hc. Qed.

Lemma toupper_spec c : 0 <= c < 256 ->
  toupper c = Done (if lower_spec c then c - 32 else c).
Proof. intros Hc. ctype_eval 0 256 c Hc. Qed.

(** The classes that are only used through [ctype_c_locale]. *)
Lemma other_classes_spec c : -1 <= c < 256 ->
  isalnum c = Done (if alnum_spec c then __dj_ISALNUM else 0) /\
  iscntrl c = Done (if cntrl_spec c then __dj_ISCNTRL else 0) /\
  isgraph c = Done (if graph_spec c then __dj_ISGRAPH else 0) /\
  islower c = Done (if lower_spec c then __dj_ISLOWER else 0) /\
  isprint c = Done (if print_spec c then __dj_ISPRINT else 0) /\
  ispunct c = Done (if punct_spec c then __dj_ISPUNCT else 0) /\
  isxdigit c = Done (if xdigit_spec c then __dj_ISXDIGIT else 0) /\
  isblank c = Done (if blank_spec c then __dj_ISBLANK else 0).
Proof. intros Hc. repeat split; ctype_eval (-1) 257 c Hc. Qed.

(** C locale classes: for [EOF] and every unsigned character the table lookups
    of the ctype functions are inside the tables and give exactly the ASCII
    classes of the C locale (and the table's own flag bit as the value). *)
Theorem ctype_c_locale c : -1 <= c < 256 ->
  isupper c = Done (if upper_spec c then __dj_ISUPPER else 0) /\
  islower c = Done (if lower_spec c then __dj_ISLOWER else 0) /\
  isdigit c = Done (if digit_spec c then __dj_ISDIGIT else 0) /\
  isalpha c = Done (if alpha_spec c then __dj_ISALPHA else 0) /\
  isalnum c = Done (if alnum_spec c then __dj_ISALNUM else 0) /\
  isxdigit c = Done (if xdigit_spec c then __dj_ISXDIGIT else 0) /\
  isspace c = Done (if space_spec c then __dj_ISSPACE else 0) /\
  isblank c = Done (if blank_spec c then __dj_ISBLANK else 0) /\
  iscntrl c = Done (if cntrl_spec c then __dj_ISCNTRL else 0) /\
  isprint c = Done (if print_spec c then __dj_ISPRINT else 0) /\
  isgraph c = Done (if graph_spec c then __dj_ISGRAPH else 0) /\
  ispunct c = Done (if punct_spec c then __dj_ISPUNCT else 0).
Proof.
  intros Hc.
  destruct (other_classes_spec c Hc) as (? & ? & ? & ? & ? & ? & ? & ?).
  repeat split; auto using isupper_spec, isdigit_spec, isalpha_spec, isspace_spec.
Qed.

Lemma ctype_c_locale_witness :
  isupper 65 = Done __dj_ISUPPER /\ isspace (-1) = Done 0.
Proof.
  split.
  - exact (proj1 (ctype_c_locale 65 ltac:(lia))).
  - exact (proj1 (proj2 (proj2 (proj2 (proj2 (proj2 (proj2
      (ctype_c_locale (-1) ltac:(lia))))))))).
Defined.

(** Case mapping: on unsigned characters tolower and toupper change exactly the
    ASCII letters of the other case by 32, and each undoes the other on the
    letters it maps to; [EOF], whose table entry is 0, is mapped to 0. *)
Theorem case_mapping c : 0 <= c < 256 ->
  tolower c = Done (if upper_spec c then c + 32 else c) /\
  toupper c = Done (if lower_spec c then c - 32 else c) /\
  (upper_spec c = true -> (l ← tolower c; toupper l) = Done c) /\
  (lower_spec c = true -> (u ← toupper c; tolower u) = Done c) /\
  tolower (-1) = Done 0 /\ toupper (-1) = Done 0.
Proof.
  intros Hc. rewrite (tolower_spec c Hc), (toupper_spec c Hc).
  repeat split.
  - intros Hu. rewrite Hu. simpl. unfold upper_spec, in_range in Hu. bool_to_prop.
    rewrite toupper_spec by lia. unfold lower_spec, in_range.
    rewrite !(proj2 (Z.leb_le _ _)) by lia. simpl. f_equal. lia.
  - intros Hl. rewrite Hl. simpl. unfold lower_spec, in_range in Hl. bool_to_prop.
    rewrite tolower_spec by lia. unfold upper_spec, in_range.
    rewrite !(proj2 (Z.leb_le _ _)) by lia. simpl. f_equal. lia.
Qed.

Lemma case_mapping_witness : tolower 65 = Done 97 /\ tolower (-1) = Done 0.
Proof.
  split.
  - exact (proj1 (case_mapping 65 ltac:(lia))).
  - exact (proj1 (proj2 (proj2 (proj2 (proj2 (case_mapping 65 ltac:(lia))))))).
Defined.

Lemma land_fffe wc : 0 <= wc ->
  ((wc .& 0xfffe) =? 0xfffe) = (65534 <=? wc mod 65536).
Proof.
  intros Hwc.
  assert (E : wc .& 0xfffe = 2 * ((wc / 2) mod 32768)).
  { change 32768 with (2 ^ 15). rewrite <- Z.land_ones by lia.
    change (wc / 2) with (wc / 2 ^ 1). rewrite <- Z.shiftr_div_pow2 by lia.
    rewrite Z.mul_comm. change 2 with (2 ^ 1) at 1. rewrite <- Z.shiftl_mul_pow2 by lia.
    rewrite Z.shiftl_land, <- Z.ldiff_ones_r by lia.
    apply Z.bits_inj'. intros n Hn. rewrite !Z.land_spec, Z.ldiff_spec.
    change (Z.ones 15 ≪ 1) with 0xfffe. change (Z.ones 1) with 1.
    destruct (Z.eqb_spec n 0) as [->|]; [by rewrite !andb_false_r|].
    rewrite (Z.bits_above_log2 1 n) by (simpl; lia). by rewrite andb_true_r. }
  rewrite E. change 65536 with (2 * 32768). rewrite Z.rem_mul_r by lia.
  pose proof (Z.mod_pos_bound wc 2 ltac:(lia)).
  pose proof (Z.mod_pos_bound (wc / 2) 32768 ltac:(lia)). lia.
Qed.

Lemma iswprint_low wc : 0 <= wc < 255 -> iswprint wc = wprint_spec wc.
Proof.
  intros H. apply Bool.eqb_prop.
  revert wc H. apply (range_all 0 255). vm_compute. reflexivity.
Qed.

(** iswprint agrees with its comment: its optimised comparisons (with their
    wrap-around subtractions) accept exactly the code points up to 0x10ffff
    other than the surrogates, C0 and C1 controls, DEL, U+2028, U+2029, U+FFF9
    to U+FFFB and the last two code points of each plane. *)
Theorem iswprint_correct wc : 0 <= wc < 2 ^ 32 -> iswprint wc = wprint_spec wc.
Proof.
  intros Hwc. destruct (Z.ltb_spec wc 255) as [Hlt|Hge]; [apply iswprint_low; lia|].
  unfold iswprint, wprint_spec, in_range. rewrite land_fffe by lia.
  rewrite (proj2 (Z.ltb_ge wc 255)) by lia.
  assert (W : forall k, 0 <= k < 2 ^ 32 ->
    wrap_u 32 (wc - k) = if wc <? k then wc - k + 2 ^ 32 else wc - k).
  { intros k Hk. unfold wrap_u. destruct (Z.ltb_spec wc k).
    - rewrite <- (Z.mod_add _ 1) by lia. apply Z.mod_small. lia.
    - apply Z.mod_small. lia. }
  rewrite !W by lia. clear W.
  destruct (Z.ltb_spec wc 0xfffc) as [Hs|Hl].
  - rewrite (Z.mod_small wc 65536) by lia.
    destruct (Z.ltb_spec wc 0x202a); destruct (Z.ltb_spec wc 0xe000);
      repeat case_match; lia.
  - generalize (65534 <=? wc mod 65536). intros M.
    rewrite !(proj2 (Z.ltb_ge wc _)) by lia. destruct M; repeat case_match; lia.
Qed.

Lemma iswprint_correct_witness : iswprint 0x2028 = false.
Proof. rewrite (iswprint_correct 0x2028 ltac:(lia)). reflexivity. Defined.
