(* ===== verification/MemFuns.v ===== *)
(** * Memory blocks

    The byte-block functions of src/src/libc/ansi/string (memchr, memcmp,
    memcpy, memmem, memmove, memset), src/src/libc/compat/string (memccpy,
    memicmp) and src/src/libc/compat/bsd (bcmp, bcopy, bzero), on a byte memory.
    A function that writes returns the new memory with its result; NULL is 0;
    [size_t] arguments are non-negative integers. *)

From S2P Require Import Prelude Ctype.
From stdpp Require Import base gmap list numbers.
From Stdlib Require Import ZArith Lia.

Open Scope Z_scope.
Open Scope c_scope.

(** Fuel of a loop that counts [n] down to 0. *)
Definition count_fuel (n : Z) : nat := S (Z.to_nat n).

Definition memchr (m : mem) (s c n : Z) : outcome Z :=
  if n =? 0 then Done 0
  else
    let cc := byte c in
    loop (count_fuel n) (fun '(p, n) =>
      b ← load m p;
      if b =? cc then Done (inr p)
      else if n - 1 =? 0 then Done (inr 0) else Done (inl (p + 1, n - 1)))
      (s, n).

Definition memcmp (m : mem) (s1 s2 n : Z) : outcome Z :=
  if n =? 0 then Done 0
  else
    loop (count_fuel n) (fun '(p1, p2, n) =>
      b1 ← load m p1;
      b2 ← load m p2;
      if negb (b1 =? b2) then Done (inr (b1 - b2))
      else if n - 1 =? 0 then Done (inr 0)
      else Done (inl (p1 + 1, p2 + 1, n - 1)))
      (s1, s2, n).

(** [for (; n; n--) *d++ = *s++;] *)
Definition copy_forward (m : mem) (d s n : Z) : outcome mem :=
  loop (count_fuel n) (fun '(m, d, s, n) =>
    if n =? 0 then Done (inr m)
    else
      b ← load m s;
      m' ← store m d b;
      Done (inl (m', d + 1, s + 1, n - 1)))
    (m, d, s, n).

Definition memcpy (m : mem) (dest src n : Z) : outcome (mem * Z) :=
  m' ← copy_forward m dest src n; Done (m', dest).

(** [if (cur[0] == cs[0] && memcmp(cur, cs, s_len) == 0) return cur;] *)
Definition memmem_body (m : mem) (s s_len last cur : Z) : outcome (Z + Z) :=
  if cur <=? last then
    b ← load m cur;
    b0 ← load m s;
    if b =? b0 then
      r ← memcmp m cur s s_len;
      if r =? 0 then Done (inr cur) else Done (inl (cur + 1))
    else Done (inl (cur + 1))
  else Done (inr 0).

Definition memmem (m : mem) (l l_len s s_len : Z) : outcome Z :=
  if (l_len =? 0) || (s_len =? 0) then Done 0
  else if l_len <? s_len then Done 0
  else if s_len =? 1 then c ← load m s; memchr m l c l_len
  else
    let last := l + l_len - s_len in
    loop (count_fuel l_len) (memmem_body m s s_len last) l.

(** A [size_t] is read and written as its 8 bytes. *)
Definition WS : Z := 8.

Fixpoint load_bytes (m : mem) (a : Z) (n : nat) : outcome (list Z) :=
  match n with
  | O => Done []
  | S n' => b ← load m a; l ← load_bytes m (a + 1) n'; Done (b :: l)
  end.

Fixpoint store_bytes (m : mem) (a : Z) (l : list Z) : outcome mem :=
  match l with
  | [] => Done m
  | b :: l' => m' ← store m a b; store_bytes m' (a + 1) l'
  end.

(** [*(WT * )d = *(const WT * )s;] *)
Definition copy_word (m : mem) (d s : Z) : outcome mem :=
  w ← load_bytes m s (Z.to_nat WS); store_bytes m d w.

(** [while ((uintptr_t)d % WS) { if (!n--) return dest; *d++ = *s++; }]: [inl]
    is the early return. *)
Definition align_forward (m : mem) (d s n : Z) : outcome (mem + mem * Z * Z * Z) :=
  loop (count_fuel n) (fun '(m, d, s, n) =>
    if d mod WS =? 0 then Done (inr (inr (m, d, s, n)))
    else if n =? 0 then Done (inr (inl m))
    else
      b ← load m s;
      m' ← store m d b;
      Done (inl (m', d + 1, s + 1, n - 1))) (m, d, s, n).

Definition words_forward_body (st : mem * Z * Z * Z)
  : outcome (mem * Z * Z * Z + mem * Z * Z * Z) :=
  let '(m, d, s, n) := st in
  if WS <=? n then
    m' ← copy_word m d s;
    Done (inl (m', d + WS, s + WS, n - WS))
  else Done (inr (m, d, s, n)).

(** [for (; n>=WS; n-=WS, d+=WS, s+=WS) *(WT * )d = *(const WT * )s;] *)
Definition words_forward (m : mem) (d s n : Z) : outcome (mem * Z * Z * Z) :=
  loop (count_fuel n) words_forward_body (m, d, s, n).

(** [while ((uintptr_t)(d+n) % WS) { if (!n--) return dest; d[n] = s[n]; }] *)
Definition align_backward (m : mem) (d s n : Z) : outcome (mem + mem * Z) :=
  loop (count_fuel n) (fun '(m, n) =>
    if (d + n) mod WS =? 0 then Done (inr (inr (m, n)))
    else if n =? 0 then Done (inr (inl m))
    else
      b ← load m (s + (n - 1));
      m' ← store m (d + (n - 1)) b;
      Done (inl (m', n - 1))) (m, n).

Definition words_backward_body (d s : Z) (st : mem * Z)
  : outcome (mem * Z + mem * Z) :=
  let '(m, n) := st in
  if WS <=? n then
    m' ← copy_word m (d + (n - WS)) (s + (n - WS));
    Done (inl (m', n - WS))
  else Done (inr (m, n)).

(** [while (n>=WS) n-=WS, *(WT * )(d+n) = *(const WT * )(s+n);] *)
Definition words_backward (m : mem) (d s n : Z) : outcome (mem * Z) :=
  loop (count_fuel n) (words_backward_body d s) (m, n).

(** [while (n) n--, d[n] = s[n];] *)
Definition copy_backward (m : mem) (d s n : Z) : outcome mem :=
  loop (count_fuel n) (fun '(m, n) =>
    if n =? 0 then Done (inr m)
    else
      b ← load m (s + (n - 1));
      m' ← store m (d + (n - 1)) b;
      Done (inl (m', n - 1))) (m, n).

(** The branch [d < s]. *)
Definition move_forward (m : mem) (d s n : Z) : outcome mem :=
  if s mod WS =? d mod WS then
    st ← align_forward m d s n;
    match st with
    | inl m => Done m
    | inr (m, d, s, n) =>
        '(m, d, s, n) ← words_forward m d s n;
        copy_forward m d s n
    end
  else copy_forward m d s n.

(** The branch [d > s]. *)
Definition move_backward (m : mem) (d s n : Z) : outcome mem :=
  if s mod WS =? d mod WS then
    st ← align_backward m d s n;
    match st with
    | inl m => Done m
    | inr (m, n) =>
        '(m, n) ← words_backward m d s n;
        copy_backward m d s n
    end
  else copy_backward m d s n.

Definition memmove (m : mem) (dest src n : Z) : outcome (mem * Z) :=
  let d := dest in
  let s := src in
  if d =? s then Done (m, d)
  else if (s + n <=? d) || (d + n <=? s) then memcpy m d s n
  else
    m ← (if d <? s then move_forward m d s n else move_backward m d s n);
    Done (m, dest).

Definition memset (m : mem) (dest c n : Z) : outcome (mem * Z) :=
  let s := dest in
  if n =? 0 then Done (m, dest)
  else
    m ← store m s c;
    m ← store m (s + (n - 1)) c;
    if n <=? 2 then Done (m, dest)
    else
      m ← store m (s + 1) c;
      m ← store m (s + 2) c;
      m ← store m (s + (n - 2)) c;
      m ← store m (s + (n - 3)) c;
      if n <=? 6 then Done (m, dest)
      else
        m ← store m (s + 3) c;
        m ← store m (s + (n - 4)) c;
        if n <=? 8 then Done (m, dest)
        else
          let k := (- s) .& 3 in
          let s := s + k in
          let n := n - k in
          let n := n .& (-4) in
          m ← loop (count_fuel n) (fun '(m, s, n) =>
            if n =? 0 then Done (inr m)
            else m' ← store m s c; Done (inl (m', s + 1, n - 1))) (m, s, n);
          Done (m, dest).

(** ** compat/string and compat/bsd *)

Definition memccpy (m : mem) (t f c n : Z) : outcome (mem * Z) :=
  let c := c .& 0xff in
  if n =? 0 then Done (m, 0)
  else
    loop (count_fuel n) (fun '(m, t', f', n) =>
      b ← load m f';
      m' ← store m t' b;
      if b =? c then Done (inr (m', t' + 1))
      else if n - 1 =? 0 then Done (inr (m', 0))
      else Done (inl (m', t' + 1, f' + 1, n - 1)))
      (m, t, f, n).

Definition memicmp (m : mem) (s1 s2 n : Z) : outcome Z :=
  if n =? 0 then Done 0
  else
    loop (count_fuel n) (fun '(p1, p2, n) =>
      b1 ← load m p1;
      b2 ← load m p2;
      let next := if n - 1 =? 0 then Done (inr 0)
                  else Done (inl (p1 + 1, p2 + 1, n - 1)) in
      if negb (b1 =? b2) then
        u1 ← toupper b1;
        u2 ← toupper b2;
        if negb (u1 - u2 =? 0) then Done (inr (u1 - u2)) else next
      else next)
      (s1, s2, n).

(** The result is a [size_t] converted to [int]. *)
Definition bcmp (m : mem) (ptr1 ptr2 length : Z) : outcome Z :=
  if ptr1 =? ptr2 then Done 0
  else if (ptr1 =? 0) || (ptr2 =? 0) then Done (-1)
  else
    loop (count_fuel length) (fun '(ptr1, ptr2, length) =>
      if length =? 0 then Done (inr 0)
      else
        b1 ← load m ptr1;
        b2 ← load m ptr2;
        if negb (b1 =? b2) then Done (inr (wrap_s 32 length))
        else Done (inl (ptr1 + 1, ptr2 + 1, length - 1)))
      (ptr1, ptr2, length).

Definition bcopy (m : mem) (a b len : Z) : outcome mem :=
  '(m, _) ← memmove m b a len; Done m.

Definition bzero (m : mem) (a b : Z) : outcome mem :=
  '(m, _) ← memset m a 0 b; Done m.

(** * Correctness *)

Lemma count_fuel_of_nat n : count_fuel (Z.of_nat n) = S n.
Proof. unfold count_fuel. by rewrite Nat2Z.id. Qed.

Lemma of_nat_eqb_0 n : (Z.of_nat n =? 0) = (n =? 0)%nat.
Proof. destruct n; [done|]. simpl. reflexivity. Qed.

Lemma of_nat_S_pred n : Z.of_nat (S n) - 1 = Z.of_nat n.
Proof. lia. Qed.

Lemma copy_forward_spec l : forall m d s,
  bytes_ok l -> bytes_at m s l -> mapped m d (length l) ->
  d <= s \/ s + Z.of_nat (length l) <= d ->
  copy_forward m d s (Z.of_nat (length l)) = Done (write_bytes m d l).
Proof.
  induction l as [|b l IH]; intros m d s Hok Hs Hd Hov; [done|].
  unfold copy_forward. rewrite count_fuel_of_nat. simpl length in *.
  rewrite loop_S. cbn beta iota. rewrite of_nat_eqb_0. simpl (_ =? _)%nat.
  apply bytes_at_cons in Hs as [Hb Hs]. apply mapped_S in Hd as [H0 Hd].
  apply bytes_ok_cons in Hok as [Hbb Hok].
  rewrite (load_Some _ _ _ Hb). rewrite bind_Done, store_byte, bind_Done by done.
  rewrite of_nat_S_pred. specialize (IH (<[d:=b]> m) (d + 1) (s + 1)).
  unfold copy_forward in IH. rewrite count_fuel_of_nat in IH. apply IH; [done| |auto with dj64|lia].
  apply bytes_at_insert_out; [done|lia].
Qed.

Lemma copy_backward_spec l : forall m d s,
  bytes_ok l -> bytes_at m s l -> mapped m d (length l) -> s <= d ->
  copy_backward m d s (Z.of_nat (length l)) = Done (write_bytes m d l).
Proof.
  induction l as [|b l IH] using rev_ind; intros m d s Hok Hs Hd Hov; [done|].
  unfold copy_backward. rewrite count_fuel_of_nat.
  apply bytes_ok_app in Hok as [Hok [Hb _]%bytes_ok_cons].
  apply bytes_at_app in Hs as [Hs Hsb]. rewrite bytes_at_cons in Hsb.
  destruct Hsb as [Hsb _]. rewrite length_app in *. apply mapped_app in Hd as [Hd Hd0].
  apply mapped_S in Hd0 as [Hd0 _]. simpl length in *.
  rewrite Nat.add_1_r in *. rewrite loop_S. cbn beta iota.
  rewrite of_nat_eqb_0. simpl (_ =? _)%nat. rewrite of_nat_S_pred.
  rewrite (load_Some _ _ _ Hsb), bind_Done, store_byte, bind_Done by done.
  specialize (IH (<[d + Z.of_nat (length l):=b]> m) d s).
  unfold copy_backward in IH. rewrite count_fuel_of_nat in IH. rewrite IH.
  - f_equal. rewrite write_bytes_app. simpl. apply write_bytes_insert. lia.
  - done.
  - apply bytes_at_insert_out; [done|lia].
  - auto with dj64.
  - done.
Qed.

Lemma load_bytes_spec l : forall m a,
  bytes_at m a l -> load_bytes m a (length l) = Done l.
Proof.
  induction l as [|b l IH]; intros m a H; [done|].
  apply bytes_at_cons in H as [Hb H]. simpl.
  by rewrite (load_Some _ _ _ Hb), bind_Done, (IH _ _ H).
Qed.

Lemma store_bytes_spec l : forall m a,
  bytes_ok l -> mapped m a (length l) ->
  store_bytes m a l = Done (write_bytes m a l).
Proof.
  induction l as [|b l IH]; intros m a Hok Ha; [done|].
  apply bytes_ok_cons in Hok as [Hb Hok]. apply mapped_S in Ha as [H0 Ha]. simpl.
  rewrite store_byte, bind_Done by done. auto with dj64.
Qed.

Lemma copy_word_spec m d s w :
  length w = Z.to_nat WS -> bytes_ok w -> bytes_at m s w -> mapped m d (length w) ->
  copy_word m d s = Done (write_bytes m d w).
Proof.
  intros Hlen Hok Hs Hd. unfold copy_word. rewrite <- Hlen.
  rewrite (load_bytes_spec _ _ _ Hs), bind_Done. by apply store_bytes_spec.
Qed.

(** The forward alignment loop copies a prefix of the block. *)
Lemma align_forward_spec l : forall m d s,
  bytes_ok l -> bytes_at m s l -> mapped m d (length l) -> d <= s ->
  align_forward m d s (Z.of_nat (length l)) = Done (inl (write_bytes m d l)) \/
  exists l1 l2, l = l1 ++ l2 /\
    align_forward m d s (Z.of_nat (length l)) =
      Done (inr (write_bytes m d l1, d + Z.of_nat (length l1),
                 s + Z.of_nat (length l1), Z.of_nat (length l2))).
Proof.
  unfold align_forward.
  induction l as [|b l IH]; intros m d s Hok Hs Hd Hov;
    rewrite count_fuel_of_nat, loop_S; cbn beta iota;
    (destruct (d mod WS =? 0);
      [right; eexists [], _; simpl; rewrite ?Z.add_0_r; done|]);
    rewrite of_nat_eqb_0; simpl (_ =? _)%nat; cbn iota; [by left|].
  apply bytes_at_cons in Hs as [Hb Hs]. apply mapped_S in Hd as [H0 Hd].
  apply bytes_ok_cons in Hok as [Hbb Hok].
  rewrite (load_Some _ _ _ Hb), bind_Done, store_byte, bind_Done by done.
  simpl length in *. rewrite of_nat_S_pred.
  specialize (IH (<[d:=b]> m) (d + 1) (s + 1)). rewrite count_fuel_of_nat in IH.
  destruct IH as [IH|(l1 & l2 & -> & IH)];
    [done|apply bytes_at_insert_out; [done|lia]|auto with dj64|lia|by left|].
  right. exists (b :: l1), l2. split; [done|]. rewrite IH. simpl length. simpl write_bytes.
  by replace (d + Z.of_nat (S (length l1))) with (d + 1 + Z.of_nat (length l1)) by lia;
    replace (s + Z.of_nat (S (length l1))) with (s + 1 + Z.of_nat (length l1)) by lia.
Qed.

(** The forward word loop copies a prefix of the block. *)
Lemma words_forward_spec fuel : forall l m d s,
  (length l < fuel)%nat ->
  bytes_ok l -> bytes_at m s l -> mapped m d (length l) -> d <= s ->
  exists l1 l2, l = l1 ++ l2 /\
    loop fuel words_forward_body (m, d, s, Z.of_nat (length l)) =
      Done (write_bytes m d l1, d + Z.of_nat (length l1),
            s + Z.of_nat (length l1), Z.of_nat (length l2)).
Proof.
  induction fuel as [|fuel IH]; intros l m d s Hf Hok Hs Hd Hov; [lia|].
  rewrite loop_S. unfold words_forward_body at 1. destruct (Z.leb_spec WS (Z.of_nat (length l))) as [Hle|].
  2: { eexists [], l. simpl. rewrite !Z.add_0_r. done. }
  rewrite <- (take_drop (Z.to_nat WS) l) in Hok, Hs, Hd |- *.
  set (w := take (Z.to_nat WS) l) in *. set (r := drop (Z.to_nat WS) l) in *.
  assert (Hw : length w = Z.to_nat WS) by (subst w; rewrite length_take; unfold WS in *; lia).
  assert (Hr : (length r < fuel)%nat) by (subst r; rewrite length_drop; unfold WS in *; lia).
  clearbody w r. rewrite length_app in *.
  apply bytes_ok_app in Hok as [Hokw Hok]. apply bytes_at_app in Hs as [Hsw Hs].
  apply mapped_app in Hd as [Hdw Hd].
  rewrite (copy_word_spec _ _ _ w) by done. rewrite bind_Done.
  replace (Z.of_nat (length w + length r) - WS) with (Z.of_nat (length r))
    by (rewrite Hw; unfold WS; lia).
  replace WS with (Z.of_nat (length w)) by (rewrite Hw; done).
  edestruct (IH r (write_bytes m d w) (d + Z.of_nat (length w)) (s + Z.of_nat (length w)))
    as (l1 & l2 & -> & E);
    [done|done|apply bytes_at_write_out; [done|lia]|auto with dj64|lia|].
  rewrite E. exists (w ++ l1), l2. split; [by rewrite app_assoc|].
  rewrite write_bytes_app, length_app.
  by rewrite Nat2Z.inj_add, !Z.add_assoc.
Qed.

(** The backward alignment loop copies a suffix of the block. *)
Lemma align_backward_spec l : forall m d s,
  bytes_ok l -> bytes_at m s l -> mapped m d (length l) -> s <= d ->
  align_backward m d s (Z.of_nat (length l)) = Done (inl (write_bytes m d l)) \/
  exists l1 l2, l = l1 ++ l2 /\
    align_backward m d s (Z.of_nat (length l)) =
      Done (inr (write_bytes m (d + Z.of_nat (length l1)) l2, Z.of_nat (length l1))).
Proof.
  unfold align_backward.
  induction l as [|b l IH] using rev_ind; intros m d s Hok Hs Hd Hov;
    rewrite count_fuel_of_nat, loop_S; cbn beta iota;
    (match goal with |- context [(?x mod WS) =? 0] => destruct (x mod WS =? 0) end;
      [right; eexists _, []; rewrite app_nil_r; done|]);
    rewrite of_nat_eqb_0; [by left|].
  apply bytes_ok_app in Hok as [Hok [Hb _]%bytes_ok_cons].
  apply bytes_at_app in Hs as [Hs [Hsb _]%bytes_at_cons].
  rewrite length_app in *. apply mapped_app in Hd as [Hd [Hd0 _]%mapped_S].
  simpl length in *. rewrite Nat.add_1_r in *. simpl (_ =? _)%nat. cbn iota.
  rewrite of_nat_S_pred, (load_Some _ _ _ Hsb), bind_Done, store_byte, bind_Done by done.
  specialize (IH (<[d + Z.of_nat (length l):=b]> m) d s). rewrite count_fuel_of_nat in IH.
  destruct IH as [IH|(l1 & l2 & -> & IH)];
    [done|apply bytes_at_insert_out; [done|lia]|auto with dj64|done| |].
  - left. rewrite IH. rewrite write_bytes_app. simpl.
    by rewrite write_bytes_insert by lia.
  - right. exists l1, (l2 ++ [b]). split; [by rewrite app_assoc|]. rewrite IH.
    rewrite length_app, Nat2Z.inj_add, Z.add_assoc, write_bytes_app. simpl.
    by rewrite write_bytes_insert by lia.
Qed.

(** The backward word loop copies a suffix of the block. *)
Lemma words_backward_spec fuel : forall l m d s,
  (length l < fuel)%nat ->
  bytes_ok l -> bytes_at m s l -> mapped m d (length l) -> s <= d ->
  exists l1 l2, l = l1 ++ l2 /\
    loop fuel (words_backward_body d s) (m, Z.of_nat (length l)) =
      Done (write_bytes m (d + Z.of_nat (length l1)) l2, Z.of_nat (length l1)).
Proof.
  induction fuel as [|fuel IH]; intros l m d s Hf Hok Hs Hd Hov; [lia|].
  rewrite loop_S. unfold words_backward_body at 1.
  destruct (Z.leb_spec WS (Z.of_nat (length l))) as [Hle|].
  2: { eexists l, []. simpl. rewrite app_nil_r. done. }
  set (k := (length l - Z.to_nat WS)%nat).
  assert (Hk : (k <= length l)%nat) by lia.
  rewrite <- (take_drop k l) in Hok, Hs, Hd |- *.
  assert (Ht : length (take k l) = k) by (rewrite length_take; lia).
  assert (Hw : length (drop k l) = Z.to_nat WS) by (rewrite length_drop; unfold WS in *; lia).
  assert (Hlt : (k < fuel)%nat) by (unfold WS in *; lia). clearbody k.
  revert Ht Hw Hok Hs Hd. generalize (take k l) (drop k l). clear Hle Hf Hk l.
  intros t w Ht Hw Hok Hs Hd. rewrite length_app in *.
  apply bytes_ok_app in Hok as [Hok Hokw]. apply bytes_at_app in Hs as [Hs Hsw].
  apply mapped_app in Hd as [Hd Hdw].
  replace (Z.of_nat (length t + length w) - WS) with (Z.of_nat (length t))
    by (rewrite Hw; unfold WS; lia).
  rewrite (copy_word_spec _ _ _ w) by done. rewrite bind_Done.
  edestruct (IH t (write_bytes m (d + Z.of_nat (length t)) w) d s)
    as (l1 & l2 & -> & E);
    [lia|done|apply bytes_at_write_out; [done|lia]|auto with dj64|done|].
  rewrite E. exists l1, (l2 ++ w). split; [by rewrite app_assoc|].
  rewrite write_bytes_app, length_app, Nat2Z.inj_add, Z.add_assoc.
  by rewrite write_bytes_comm by lia.
Qed.

(** ** memmove, memcpy and memset *)

Lemma memcpy_spec m dest src l :
  bytes_ok l -> bytes_at m src l -> mapped m dest (length l) ->
  dest <= src \/ src + Z.of_nat (length l) <= dest ->
  memcpy m dest src (Z.of_nat (length l)) = Done (write_bytes m dest l, dest).
Proof. intros. unfold memcpy. by rewrite copy_forward_spec. Qed.

Lemma move_forward_spec m d s l :
  bytes_ok l -> bytes_at m s l -> mapped m d (length l) -> d <= s ->
  move_forward m d s (Z.of_nat (length l)) = Done (write_bytes m d l).
Proof.
  intros Hok Hs Hd Hle. unfold move_forward. destruct (s mod WS =? d mod WS).
  2: { apply copy_forward_spec; (done || lia). }
  destruct (align_forward_spec l m d s) as [E|(l1 & l2 & -> & E)];
    [done|done|done|lia|by rewrite E|].
  rewrite E, bind_Done. rewrite length_app in *.
  apply bytes_ok_app in Hok as [_ Hok]. apply bytes_at_app in Hs as [_ Hs].
  apply mapped_app in Hd as [_ Hd]. unfold words_forward. rewrite count_fuel_of_nat.
  assert (Hs' : bytes_at (write_bytes m d l1) (s + Z.of_nat (length l1)) l2)
    by (apply bytes_at_write_out; [done|lia]).
  destruct (words_forward_spec (S (length l2)) l2 _ _ _ ltac:(lia) Hok Hs'
    (mapped_write _ _ _ _ _ Hd) ltac:(lia)) as (k1 & k2 & -> & E2).
  rewrite E2, bind_Done. rewrite length_app in *.
  apply bytes_ok_app in Hok as [_ Hok]. apply bytes_at_app in Hs' as [_ Hs'].
  apply mapped_app in Hd as [_ Hd].
  rewrite copy_forward_spec; [|done|apply bytes_at_write_out; [done|lia]|auto with dj64|lia].
  by rewrite !write_bytes_app.
Qed.

Lemma move_backward_spec m d s l :
  bytes_ok l -> bytes_at m s l -> mapped m d (length l) -> s <= d ->
  move_backward m d s (Z.of_nat (length l)) = Done (write_bytes m d l).
Proof.
  intros Hok Hs Hd Hle. unfold move_backward. destruct (s mod WS =? d mod WS).
  2: { apply copy_backward_spec; (done || lia). }
  destruct (align_backward_spec l m d s) as [E|(l1 & l2 & -> & E)];
    [done|done|done|lia|by rewrite E|].
  rewrite E, bind_Done. rewrite length_app in *.
  apply bytes_ok_app in Hok as [Hok _]. apply bytes_at_app in Hs as [Hs _].
  apply mapped_app in Hd as [Hd _]. unfold words_backward. rewrite count_fuel_of_nat.
  assert (Hs' : bytes_at (write_bytes m (d + Z.of_nat (length l1)) l2) s l1)
    by (apply bytes_at_write_out; [done|lia]).
  destruct (words_backward_spec (S (length l1)) l1 _ d _ ltac:(lia) Hok Hs'
    (mapped_write _ _ _ _ _ Hd) ltac:(lia)) as (k1 & k2 & -> & E2).
  rewrite E2, bind_Done. rewrite length_app in *.
  apply bytes_ok_app in Hok as [Hok _]. apply bytes_at_app in Hs' as [Hs' _].
  apply mapped_app in Hd as [Hd _].
  rewrite copy_backward_spec; [|done|apply bytes_at_write_out; [done|lia]|auto with dj64|lia].
  rewrite !write_bytes_app, length_app. f_equal.
  rewrite (write_bytes_comm _ (d + Z.of_nat (length k1)) k2) by lia.
  rewrite (write_bytes_comm _ _ l2 d k1) by lia.
  by rewrite (write_bytes_comm _ _ l2 _ k2) by lia.
Qed.

Lemma memmove_spec m dest src l :
  bytes_ok l -> bytes_at m src l -> mapped m dest (length l) ->
  memmove m dest src (Z.of_nat (length l)) = Done (write_bytes m dest l, dest).
Proof.
  intros Hok Hs Hd. unfold memmove.
  destruct (Z.eqb_spec dest src) as [->|Hne]; [by rewrite write_bytes_id|].
  destruct (_ || _) eqn:Hdis; [apply memcpy_spec; try done; lia|]. bool_to_prop.
  destruct (Z.ltb_spec dest src).
  - by rewrite move_forward_spec by (done || lia).
  - by rewrite move_backward_spec by (done || lia).
Qed.

(** C38. memmove is correct for every overlap and alignment: for [n] readable source
    bytes and [n] writable destination bytes, whatever their overlap, the result
    is [dest] and a memory that differs from the old one exactly in holding the
    original source bytes at [dest]; no access leaves the two blocks. *)
Theorem memmove_correct m dest src l :
  bytes_ok l -> bytes_at m src l -> mapped m dest (length l) ->
  memmove m dest src (Z.of_nat (length l)) = Done (write_bytes m dest l, dest).
Proof. exact (memmove_spec m dest src l). Qed.

(** 30 bytes at 8, moved up by 8 (overlapping, equally aligned). *)
Definition move_example : list Z := seqZ 1 30.

Lemma memmove_correct_witness :
  memmove (write_bytes (mem_of 0 (replicate 64 0)) 8 move_example) 16 8 30 =
  Done (write_bytes (write_bytes (mem_of 0 (replicate 64 0)) 8 move_example) 16
          move_example, 16).
Proof.
  apply (memmove_correct _ 16 8 move_example); by_eval.
Defined.

(** The fill loop of memset. *)
Lemma fill_loop_spec c n : forall m s,
  mapped m s n ->
  loop (S n) (fun '(m, s, n) =>
    if n =? 0 then Done (inr m)
    else m' ← store m s c; Done (inl (m', s + 1, n - 1))) (m, s, Z.of_nat n) =
  Done (write_bytes m s (replicate n (byte c))).
Proof.
  induction n as [|n IH]; intros m s Hs; [done|].
  rewrite loop_S. cbn beta iota. rewrite of_nat_eqb_0. simpl (_ =? _)%nat. cbn iota.
  apply mapped_S in Hs as [H0 Hs]. rewrite store_Some, bind_Done by done.
  rewrite of_nat_S_pred. simpl replicate. apply IH. auto with dj64.
Qed.

(** Two memories that agree at each address, by cases on the address. *)
Ltac mem_ext :=
  apply map_eq; intros ?a;
  rewrite ?lookup_write_replicate, ?lookup_insert;
  repeat case_decide; subst; (reflexivity || lia).

Lemma land_neg4 n : n .& (-4) = n - n mod 4.
Proof.
  change (-4) with (Z.lnot (Z.ones 2)). rewrite <- Z.ldiff_land.
  rewrite Z.ldiff_ones_r by lia. rewrite Z.shiftr_div_pow2, Z.shiftl_mul_pow2 by lia.
  change (2 ^ 2) with 4. pose proof (Z.div_mod n 4). lia.
Qed.

(** memset fills exactly [n] bytes: its "minimal branching" sequence of head and
    tail stores followed by an aligned fill loop leaves the byte [c] in each of
    the [n] destination bytes and every other byte unchanged, for every [n] and
    every alignment of [dest], touching no byte outside the block. *)
Theorem memset_correct m dest c n :
  mapped m dest n ->
  memset m dest c (Z.of_nat n) = Done (write_bytes m dest (replicate n (byte c)), dest).
Proof.
  intros Hm. unfold memset.
  destruct (Z.eqb_spec (Z.of_nat n) 0) as [E|E0]; [by destruct n|].
  do 2 (rewrite (store_mapped _ dest n) by (auto 10 with dj64 || lia); rewrite bind_Done).
  destruct (Z.leb_spec (Z.of_nat n) 2); [do 2 f_equal; mem_ext|].
  do 4 (rewrite (store_mapped _ dest n) by (auto 10 with dj64 || lia); rewrite bind_Done).
  destruct (Z.leb_spec (Z.of_nat n) 6); [do 2 f_equal; mem_ext|].
  do 2 (rewrite (store_mapped _ dest n) by (auto 10 with dj64 || lia); rewrite bind_Done).
  destruct (Z.leb_spec (Z.of_nat n) 8); [do 2 f_equal; mem_ext|].
  rewrite land_neg4.
  change ((- dest) .& 3) with ((- dest) .& Z.ones 2). rewrite Z.land_ones by lia.
  change (2 ^ 2) with 4.
  set (k := (- dest) mod 4). set (r := (Z.of_nat n - k) mod 4).
  assert (0 <= k < 4) by (apply Z.mod_pos_bound; lia).
  assert (0 <= r < 4) by (apply Z.mod_pos_bound; lia). clearbody k r.
  set (j := Z.to_nat (Z.of_nat n - k - r)).
  replace (Z.of_nat n - k - r) with (Z.of_nat j) by lia. rewrite count_fuel_of_nat.
  rewrite fill_loop_spec.
  2: { intros i Hi. apply (mapped_Some _ dest n); [auto 20 with dj64|lia]. }
  rewrite bind_Done. do 2 f_equal. mem_ext.
Qed.

Lemma memset_correct_witness :
  memset (mem_of 3 (replicate 11 7)) 3 0x141 11 =
  Done (mem_of 3 (replicate 11 0x41), 3).
Proof.
  rewrite (memset_correct _ 3 0x141 11); [by vm_compute|by_eval].
Defined.

(** ** Searching and comparing *)

Lemma memchr_spec l : forall m s c,
  bytes_at m s l ->
  memchr m s c (Z.of_nat (length l)) =
  Done (match find_index (Z.eqb (byte c)) l with
        | Some i => s + Z.of_nat i
        | None => 0
        end).
Proof.
  unfold memchr. induction l as [|b l IH]; intros m s c Hs; [done|].
  rewrite of_nat_eqb_0, count_fuel_of_nat. simpl length. simpl (_ =? _)%nat. cbn iota.
  apply bytes_at_cons in Hs as [Hb Hs].
  rewrite loop_S. cbn beta iota. rewrite (load_Some _ _ _ Hb), bind_Done, of_nat_S_pred.
  simpl find_index. rewrite (Z.eqb_sym (byte c) b).
  destruct (b =? byte c); [by rewrite Z.add_0_r|].
  specialize (IH m (s + 1) c Hs). rewrite of_nat_eqb_0, count_fuel_of_nat in IH. rewrite of_nat_eqb_0.
  destruct (length l =? 0)%nat eqn:E.
  - apply Nat.eqb_eq, nil_length_inv in E. by subst.
  - rewrite IH. destruct (find_index _ l); simpl; f_equal; lia.
Qed.

Lemma memcmp_spec l1 : forall l2 m p1 p2,
  length l1 = length l2 -> bytes_at m p1 l1 -> bytes_at m p2 l2 ->
  memcmp m p1 p2 (Z.of_nat (length l1)) = Done (first_diff l1 l2).
Proof.
  unfold memcmp. induction l1 as [|b1 l1 IH]; intros [|b2 l2] m p1 p2 Hl H1 H2; try done.
  injection Hl as Hl. simpl length.
  rewrite of_nat_eqb_0, count_fuel_of_nat. simpl (_ =? _)%nat. cbn iota.
  apply bytes_at_cons in H1 as [Hb1 H1]. apply bytes_at_cons in H2 as [Hb2 H2].
  rewrite loop_S. cbn beta iota.
  rewrite (load_Some _ _ _ Hb1), bind_Done, (load_Some _ _ _ Hb2), bind_Done, of_nat_S_pred.
  simpl first_diff. destruct (b1 =? b2) eqn:Eb; cbn [negb]; [|done].
  specialize (IH l2 m (p1 + 1) (p2 + 1) ltac:(lia) H1 H2).
  rewrite of_nat_eqb_0, count_fuel_of_nat in IH. rewrite of_nat_eqb_0.
  destruct (length l1 =? 0)%nat eqn:E; [|done].
  apply Nat.eqb_eq, nil_length_inv in E. by subst.
Qed.

(** Comparing the needle with the front of a suffix that is long enough. *)
Lemma memcmp_prefix m cur s n h :
  (length n <= length h)%nat -> bytes_at m cur h -> bytes_at m s n ->
  exists r, memcmp m cur s (Z.of_nat (length n)) = Done r /\
    (r =? 0) = prefixb n h.
Proof.
  intros Hle Hc Hs. rewrite <- (take_drop (length n) h) in Hc.
  apply bytes_at_app in Hc as [Hc _].
  assert (Hl : length (take (length n) h) = length n) by (rewrite length_take; lia).
  pose proof (memcmp_spec _ _ _ _ _ Hl Hc Hs) as E. rewrite Hl in E.
  eexists. split; [exact E|]. rewrite prefixb_take by done.
  apply first_diff_0 in Hl. apply Bool.eq_iff_eq_true.
  by rewrite Z.eqb_eq, bool_decide_eq_true.
Qed.

(** The search loop of memmem, started at a suffix of the haystack. *)
Lemma memmem_loop m s n h : forall fuel cur,
  (length h < fuel)%nat -> (0 < length n)%nat ->
  bytes_at m cur h -> bytes_at m s n ->
  loop fuel (memmem_body m s (Z.of_nat (length n))
    (cur + Z.of_nat (length h) - Z.of_nat (length n))) cur =
  Done (match first_occ n h with Some i => cur + Z.of_nat i | None => 0 end).
Proof.
  induction h as [|b h IH]; intros fuel cur Hf Hn Hc Hs;
    (destruct fuel as [|fuel]; [lia|]); rewrite loop_S; unfold memmem_body at 1.
  { rewrite (proj2 (Z.leb_gt _ _)) by (simpl; lia).
    by rewrite first_occ_short by (simpl; lia). }
  destruct (Z.leb_spec cur (cur + Z.of_nat (length (b :: h)) - Z.of_nat (length n))) as [Hle|].
  2: { by rewrite first_occ_short by lia. }
  destruct n as [|b0 n]; [simpl in Hn; lia|].
  destruct (memcmp_prefix m cur s (b0 :: n) (b :: h)) as (r & Er & Hr); [lia|done|done|].
  apply bytes_at_cons in Hc as [Hb Hc]. pose proof Hs as [Hb0 _]%bytes_at_cons.
  rewrite (load_Some _ _ _ Hb), bind_Done, (load_Some _ _ _ Hb0), bind_Done, Er, bind_Done, Hr.
  replace (cur + Z.of_nat (length (b :: h))) with (cur + 1 + Z.of_nat (length h)) by (simpl; lia).
  specialize (IH fuel (cur + 1) ltac:(simpl in Hf; lia) Hn Hc Hs).
  cbn [first_occ]. destruct (prefixb (b0 :: n) (b :: h)) eqn:Hp.
  - apply prefixb_iff in Hp as [? [= -> _]]. by rewrite Z.eqb_refl, Z.add_0_r.
  - destruct (b =? b0); rewrite IH; (destruct (first_occ _ h); simpl; f_equal; lia).
Qed.

Lemma first_occ_single c l : first_occ [c] l = find_index (Z.eqb c) l.
Proof.
  induction l as [|b l IH]; [done|]. cbn [first_occ prefixb find_index].
  rewrite andb_true_r. by destruct (c =? b); [|rewrite IH].
Qed.

(** memmem finds the first occurrence: for a non-empty needle it returns the
    address of the first place in the haystack where the needle occurs, and NULL
    when there is none (an empty needle is never found); no byte outside the two
    blocks is read. *)
Theorem memmem_correct m l s hay needle :
  bytes_ok needle -> bytes_at m l hay -> bytes_at m s needle ->
  memmem m l (Z.of_nat (length hay)) s (Z.of_nat (length needle)) =
  Done (match needle with
        | [] => 0
        | _ => match first_occ needle hay with Some i => l + Z.of_nat i | None => 0 end
        end).
Proof.
  intros Hok Hl Hs. unfold memmem. rewrite !of_nat_eqb_0.
  destruct needle as [|c needle]; [by rewrite orb_true_r|].
  simpl (length (c :: needle) =? 0)%nat. rewrite orb_false_r.
  destruct (length hay =? 0)%nat eqn:E0.
  { apply Nat.eqb_eq, nil_length_inv in E0. by subst. }
  destruct (Z.ltb_spec (Z.of_nat (length hay)) (Z.of_nat (length (c :: needle)))).
  { by rewrite first_occ_short by lia. }
  destruct (Z.eqb_spec (Z.of_nat (length (c :: needle))) 1) as [E1|].
  - destruct needle; [|simpl in E1; lia]. rewrite first_occ_single.
    apply bytes_at_cons in Hs as [Hc _]. rewrite (load_Some _ _ _ Hc), bind_Done.
    apply bytes_ok_cons in Hok as [Hc' _]. rewrite memchr_spec by done.
    by rewrite byte_small.
  - rewrite count_fuel_of_nat. apply memmem_loop; [lia|simpl; lia|done|done].
Qed.

Lemma memmem_correct_witness :
  memmem (mem_of 10 [5;6;6;7;6;7;8]) 10 4 13 3 = Done 0 /\
  memmem (mem_of 10 [5;6;6;7;6;7;8]) 10 7 13 2 = Done 13.
Proof.
  split.
  - rewrite (memmem_correct _ 10 13 [5;6;6;7] [7;6;7]); [reflexivity|by_eval..].
  - rewrite (memmem_correct _ 10 13 [5;6;6;7;6;7;8] [7;6]); [reflexivity|by_eval..].
Defined.

(** ** bcmp *)

(** bcmp loses a difference: the remaining length is returned as an [int], so
    two different blocks compare equal when the first difference has a multiple
    of 2^32 bytes left behind it (counting itself). *)
Theorem bcmp_truncates m p1 p2 len b1 b2 :
  0 < p1 -> 0 < p2 -> p1 <> p2 -> 0 < len -> len mod 2 ^ 32 = 0 ->
  m !! p1 = Some b1 -> m !! p2 = Some b2 -> b1 <> b2 ->
  bcmp m p1 p2 len = Done 0.
Proof.
  intros H1 H2 Hne Hlen Hmod Hb1 Hb2 Hb. unfold bcmp.
  rewrite (proj2 (Z.eqb_neq p1 p2)), (proj2 (Z.eqb_neq p1 0)),
    (proj2 (Z.eqb_neq p2 0)) by lia. cbn [orb].
  unfold count_fuel. rewrite loop_S. cbn beta iota.
  rewrite (proj2 (Z.eqb_neq len 0)) by lia.
  rewrite (load_Some _ _ _ Hb1), bind_Done, (load_Some _ _ _ Hb2), bind_Done.
  rewrite (proj2 (Z.eqb_neq b1 b2)) by done. cbn [negb]. f_equal.
  unfold wrap_s. rewrite Z.add_mod, Hmod by lia. done.
Qed.

Lemma bcmp_truncates_witness :
  bcmp (mem_of 1 [1; 2]) 1 2 (2 ^ 32) = Done 0.
Proof.
  apply (bcmp_truncates _ 1 2 _ 1 2); (lia || reflexivity || by vm_compute).
Defined.
