(* ===== verification/Strings.v ===== *)
(** * NUL-terminated strings

    The str* functions of src/src/libc/ansi/string, src/src/libc/compat/string,
    src/src/libc/compat/bsd and src/src/libc/posix/string on a byte memory.
    A [char] is represented by its unsigned value; the functions only compare
    characters for equality or convert them to [unsigned char] first, so the
    signedness of [char] does not matter.  NULL is 0. *)

From S2P Require Import Prelude Ctype MemFuns.
From stdpp Require Import base gmap list numbers strings.
From Stdlib Require Import ZArith Lia.

Open Scope Z_scope.
Open Scope c_scope.

(** ** Loops the functions share *)

(** [for (; *s; ++s);] *)
Definition scan_nul (m : mem) (s : Z) : outcome Z :=
  loop (scan_fuel m) (fun s =>
    b ← load m s; if b =? 0 then Done (inr s) else Done (inl (s + 1))) s.

(** [while (( *d++ = *s++));], with the address of the NUL that was written. *)
Definition copy_str (m : mem) (d s : Z) : outcome (mem * Z) :=
  loop (scan_fuel m) (fun '(m, d, s) =>
    b ← load m s;
    m' ← store m d b;
    if b =? 0 then Done (inr (m', d)) else Done (inl (m', d + 1, s + 1)))
    (m, d, s).

(** [do { if ((sc = *spanp++) == c) found } while (sc != 0);] *)
Definition span_do (m : mem) (spanp c : Z) : outcome bool :=
  loop (scan_fuel m) (fun p =>
    sc ← load m p;
    if sc =? c then Done (inr true)
    else if sc =? 0 then Done (inr false) else Done (inl (p + 1))) spanp.

(** [for (spanp = s2; (sc = *spanp++) != 0;) if (sc == c) found] *)
Definition span_for (m : mem) (spanp c : Z) : outcome bool :=
  loop (scan_fuel m) (fun p =>
    sc ← load m p;
    if sc =? 0 then Done (inr false)
    else if sc =? c then Done (inr true) else Done (inl (p + 1))) spanp.

(** ** ansi/string *)

Definition strlen (m : mem) (str : Z) : outcome Z :=
  if str =? 0 then Done 0 else s ← scan_nul m str; Done (s - str).

Definition strcat (m : mem) (s append : Z) : outcome (mem * Z) :=
  e ← scan_nul m s;
  '(m, _) ← copy_str m e append;
  Done (m, s).

Definition strchr (m : mem) (s c : Z) : outcome Z :=
  let cc := byte c in
  loop (scan_fuel m) (fun s =>
    b ← load m s;
    if b =? 0 then Done (inr (if cc =? 0 then s else 0))
    else if b =? cc then Done (inr s) else Done (inl (s + 1))) s.

Definition strcmp (m : mem) (s1 s2 : Z) : outcome Z :=
  loop (scan_fuel m) (fun '(s1, s2) =>
    b1 ← load m s1;
    b2 ← load m s2;
    if b1 =? b2 then
      if b1 =? 0 then Done (inr 0) else Done (inl (s1 + 1, s2 + 1))
    else Done (inr (b1 - b2))) (s1, s2).

Definition strcpy (m : mem) (to from : Z) : outcome (mem * Z) :=
  '(m, _) ← copy_str m to from; Done (m, to).

Definition strcspn (m : mem) (s1 s2 : Z) : outcome Z :=
  loop (scan_fuel m) (fun p =>
    c ← load m p;
    let p := p + 1 in
    found ← span_do m s2 c;
    if found : bool then Done (inr (p - 1 - s1)) else Done (inl p)) s1.

Definition strncat (m : mem) (dst src n : Z) : outcome (mem * Z) :=
  if n =? 0 then Done (m, dst)
  else
    d ← scan_nul m dst;
    '(m, d) ← loop (count_fuel n) (fun '(m, d, s, n) =>
      b ← load m s;
      m' ← store m d b;
      if b =? 0 then Done (inr (m', d))
      else if n - 1 =? 0 then Done (inr (m', d + 1))
      else Done (inl (m', d + 1, s + 1, n - 1))) (m, d, src, n);
    m ← store m d 0;
    Done (m, dst).

Definition strncmp (m : mem) (s1 s2 n : Z) : outcome Z :=
  if n =? 0 then Done 0
  else
    loop (count_fuel n) (fun '(s1, s2, n) =>
      b1 ← load m s1;
      b2 ← load m s2;
      if negb (b1 =? b2) then Done (inr (b1 - b2))
      else if b1 =? 0 then Done (inr 0)
      else if n - 1 =? 0 then Done (inr 0)
      else Done (inl (s1 + 1, s2 + 1, n - 1))) (s1, s2, n).

(** [while (--n != 0) *d++ = 0;] *)
Definition zero_fill (m : mem) (d n : Z) : outcome mem :=
  loop (count_fuel n) (fun '(m, d, n) =>
    if n - 1 =? 0 then Done (inr m)
    else m' ← store m d 0; Done (inl (m', d + 1, n - 1))) (m, d, n).

Definition strncpy (m : mem) (dst src n : Z) : outcome (mem * Z) :=
  if n =? 0 then Done (m, dst)
  else
    m ← loop (count_fuel n) (fun '(m, d, s, n) =>
      b ← load m s;
      m' ← store m d b;
      if b =? 0 then m'' ← zero_fill m' (d + 1) n; Done (inr m'')
      else if n - 1 =? 0 then Done (inr m')
      else Done (inl (m', d + 1, s + 1, n - 1))) (m, dst, src, n);
    Done (m, dst).

Definition strpbrk (m : mem) (s1 s2 : Z) : outcome Z :=
  loop (scan_fuel m) (fun s1 =>
    c ← load m s1;
    let s1 := s1 + 1 in
    if c =? 0 then Done (inr 0)
    else
      found ← span_for m s2 c;
      if found : bool then Done (inr (s1 - 1)) else Done (inl s1)) s1.

Definition strrchr (m : mem) (s c : Z) : outcome Z :=
  let cc := byte c in
  loop (scan_fuel m) (fun '(s, sp) =>
    b ← load m s;
    if b =? 0 then Done (inr (if cc =? 0 then s else sp))
    else Done (inl (s + 1, if b =? cc then s else sp))) (s, 0).

Definition strspn (m : mem) (s1 s2 : Z) : outcome Z :=
  loop (scan_fuel m) (fun p =>
    c ← load m p;
    let p := p + 1 in
    found ← span_for m s2 c;
    if found : bool then Done (inl p) else Done (inr (p - 1 - s1))) s1.

(** The body of strstr's outer loop: the inner loop is
    [do { if ((sc = *s++) == 0) return 0; } while (sc != c);]. *)
Definition strstr_body (m : mem) (c find len s : Z) : outcome (Z + Z) :=
  r ← loop (scan_fuel m) (fun s =>
    sc ← load m s;
    let s := s + 1 in
    if sc =? 0 then Done (inr None)
    else if sc =? c then Done (inr (Some s)) else Done (inl s)) s;
  match r with
  | None => Done (inr 0)
  | Some s =>
      d ← strncmp m s find len;
      if d =? 0 then Done (inr (s - 1)) else Done (inl s)
  end.

Definition strstr (m : mem) (s find : Z) : outcome Z :=
  c ← load m find;
  let find := find + 1 in
  if c =? 0 then Done s
  else
    len ← strlen m find;
    loop (scan_fuel m) (strstr_body m c find len) s.

(** The C locale's collating table is the identity. *)
Definition __dj_collate_table : list Z := seqZ 0 256.

Definition coll (c : Z) : outcome Z := table_get __dj_collate_table (byte c).

Definition strcoll (m : mem) (s1 s2 : Z) : outcome Z :=
  loop (scan_fuel m) (fun '(s1, s2) =>
    b1 ← load m s1;
    b2 ← load m s2;
    c1 ← coll b1;
    c2 ← coll b2;
    if c1 =? c2 then
      if b1 =? 0 then Done (inr 0) else Done (inl (s1 + 1, s2 + 1))
    else Done (inr (c1 - c2))) (s1, s2).

Definition strxfrm (m : mem) (dst src n : Z) : outcome (mem * Z) :=
  if n =? 0 then Done (m, 0)
  else
    '(m, dst, r) ← loop (scan_fuel m) (fun '(m, dst, src, n, r) =>
      c ← load m src;
      let src := src + 1 in
      if c =? 0 then Done (inr (m, dst, r))
      else
        let r := r + 1 in
        if n - 1 =? 0 then
          e ← scan_nul m src;
          Done (inr (m, dst, r + (e - src)))
        else
          m' ← store m dst c;
          Done (inl (m', dst + 1, src, n - 1, r))) (m, dst, src, n, 0);
    m ← store m dst 0;
    Done (m, r).

(** ** posix/string *)

Definition strnlen (m : mem) (_str _n : Z) : outcome Z :=
  b ← load m _str;
  if (b =? 0) || (_n =? 0) then Done 0
  else
    loop (count_fuel _n) (fun i =>
      b ← load m (_str + i);
      if negb (b =? 0) && (i <? _n) then Done (inl (i + 1)) else Done (inr i)) 1.

(** [cont: c = *s++; for (spanp = delim; (sc = *spanp++) != 0;) if (c == sc) goto cont;] *)
Definition tok_skip_body (m : mem) (delim s : Z) : outcome (Z + Z * Z) :=
  c ← load m s;
  let s := s + 1 in
  found ← span_for m delim c;
  if found : bool then Done (inl s) else Done (inr (c, s)).

(** The scan for the end of a token, as strtok_r and strsep both have it; the
    result is the memory, the token and the pointer to go on from. *)
Definition tok_scan_body (m : mem) (delim tok s : Z) : outcome (Z + mem * Z * Z) :=
  c ← load m s;
  let s := s + 1 in
  found ← span_do m delim c;
  if found : bool then
    if c =? 0 then Done (inr (m, tok, 0))
    else m' ← store m (s - 1) 0; Done (inr (m', tok, s))
  else Done (inl s).

(** The caller's [*last] is passed and returned; the result is
    [(memory, token, *last)]. *)
Definition strtok_r (m : mem) (s delim last : Z) : outcome (mem * Z * Z) :=
  let s := if s =? 0 then last else s in
  if s =? 0 then Done (m, 0, last)
  else
    '(c, s) ← loop (scan_fuel m) (tok_skip_body m delim) s;
    if c =? 0 then Done (m, 0, 0)
    else
      let tok := s - 1 in
      loop (scan_fuel m) (tok_scan_body m delim tok) s.

(** [strtok] keeps [*last] in a static variable. *)
Definition strtok (m : mem) (last s delim : Z) : outcome (mem * Z * Z) :=
  strtok_r m s delim last.

(** ** compat/string *)

Definition stpcpy (m : mem) (_dest _src : Z) : outcome (mem * Z) :=
  if (_dest =? 0) || (_src =? 0) then Done (m, 0) else copy_str m _dest _src.

(** [do { *--dst = 0; } while (--n != 0);] *)
Definition zero_back (m : mem) (dst n : Z) : outcome (mem * Z) :=
  loop (count_fuel n) (fun '(m, dst, n) =>
    let dst := dst - 1 in
    m' ← store m dst 0;
    if n - 1 =? 0 then Done (inr (m', dst)) else Done (inl (m', dst, n - 1)))
    (m, dst, n).

Definition stpncpy (m : mem) (dst src n : Z) : outcome (mem * Z) :=
  if (dst =? 0) || (src =? 0) then Done (m, 0)
  else if n =? 0 then Done (m, dst)
  else
    loop (count_fuel n) (fun '(m, dst, src, n) =>
      b ← load m src;
      m' ← store m dst b;
      let dst := dst + 1 in
      if b =? 0 then
        '(m'', dst) ← zero_back m' (dst + (n - 1)) n;
        Done (inr (m'', dst))
      else if n - 1 =? 0 then Done (inr (m', dst))
      else Done (inl (m', dst, src + 1, n - 1))) (m, dst, src, n).

Definition stricmp (m : mem) (s1 s2 : Z) : outcome Z :=
  loop (scan_fuel m) (fun '(s1, s2) =>
    b1 ← load m s1;
    b2 ← load m s2;
    l1 ← tolower b1;
    l2 ← tolower b2;
    if l1 =? l2 then
      if b1 =? 0 then Done (inr 0) else Done (inl (s1 + 1, s2 + 1))
    else Done (inr (l1 - l2))) (s1, s2).

Definition strcasecmp (m : mem) (s1 s2 : Z) : outcome Z := stricmp m s1 s2.

Definition strnicmp (m : mem) (s1 s2 n : Z) : outcome Z :=
  if n =? 0 then Done 0
  else
    loop (count_fuel n) (fun '(s1, s2, n) =>
      b1 ← load m s1;
      b2 ← load m s2;
      l1 ← tolower b1;
      l2 ← tolower b2;
      if negb (l1 =? l2) then Done (inr (l1 - l2))
      else if b1 =? 0 then Done (inr 0)
      else if n - 1 =? 0 then Done (inr 0)
      else Done (inl (s1 + 1, s2 + 1, n - 1))) (s1, s2, n).

Definition strncasecmp (m : mem) (s1 s2 n : Z) : outcome Z := strnicmp m s1 s2 n.

(** [for (i = 0; i < size; i++) { if (dst[i] == '\0') break; }] *)
Definition bounded_scan (m : mem) (dst size : Z) : outcome Z :=
  loop (count_fuel size) (fun i =>
    if i <? size then
      b ← load m (dst + i);
      if b =? 0 then Done (inr i) else Done (inl (i + 1))
    else Done (inr i)) 0.

Definition strlcat (m : mem) (dst src size : Z) : outcome (mem * Z) :=
  srclen ← strlen m src;
  i ← bounded_scan m dst size;
  if i =? size then Done (m, size + srclen)
  else
    let dstlen := i in
    if dstlen + srclen <? size then
      '(m, _) ← strcpy m (dst + dstlen) src;
      Done (m, dstlen + srclen)
    else
      '(m, _) ← memcpy m (dst + dstlen) src (size - dstlen - 1);
      m ← store m (dst + (size - 1)) 0;
      Done (m, dstlen + srclen).

Definition strlcpy (m : mem) (dst src size : Z) : outcome (mem * Z) :=
  srclen ← strlen m src;
  if size =? 0 then Done (m, srclen)
  else if srclen <? size then
    '(m, _) ← strcpy m dst src;
    Done (m, srclen)
  else
    '(m, _) ← memcpy m dst src (size - 1);
    m ← store m (dst + (size - 1)) 0;
    Done (m, srclen).

(** strlwr and strupr: the loop with the mapping it applies. *)
Definition map_case (f : Z -> outcome Z) (m : mem) (_s : Z) : outcome mem :=
  loop (scan_fuel m) (fun '(m, s) =>
    b ← load m s;
    if b =? 0 then Done (inr m)
    else
      c ← f b;
      m' ← store m s c;
      Done (inl (m', s + 1))) (m, _s).

Definition strlwr (m : mem) (_s : Z) : outcome (mem * Z) :=
  m ← map_case tolower m _s; Done (m, _s).

Definition strupr (m : mem) (_s : Z) : outcome (mem * Z) :=
  m ← map_case toupper m _s; Done (m, _s).

(** [*stringp] is passed and returned: [(memory, token, *stringp)]. *)
Definition strsep (m : mem) (stringp delim : Z) : outcome (mem * Z * Z) :=
  let s := stringp in
  if s =? 0 then Done (m, 0, stringp)
  else
    let tok := s in
    loop (scan_fuel m) (tok_scan_body m delim tok) s.

(** ** compat/bsd *)

Definition index (m : mem) (s c : Z) : outcome Z := strchr m s c.

Definition rindex (m : mem) (s c : Z) : outcome Z := strrchr m s c.

(** * Correctness *)

(** One round of a loop over a string: [Hc : cstr m p s] is taken apart along
    the case of [s], the first byte is loaded and tested against NUL. *)
Ltac str_round Hc Hf :=
  match goal with
  | |- context [loop ?fuel _ _] =>
      destruct fuel as [|?fuel]; [simpl in Hf; lia|]; rewrite loop_S; cbn beta iota
  end;
  first
    [ let Hp := fresh "Hp" in
      pose proof Hc as Hp; apply cstr_nil in Hp;
      rewrite (load_Some _ _ _ Hp), bind_Done; try rewrite Z.eqb_refl
    | let Hb := fresh "Hb" in let Hp := fresh "Hp" in
      apply cstr_cons in Hc as (Hb & Hp & Hc);
      rewrite (load_Some _ _ _ Hp), bind_Done;
      try rewrite (proj2 (Z.eqb_neq _ 0)) by lia ];
  cbn iota.

Lemma scan_nul_loop s : forall m p fuel,
  cstr m p s -> (length s < fuel)%nat ->
  loop fuel (fun s => b ← load m s;
    if b =? 0 then Done (inr s) else Done (inl (s + 1))) p =
  Done (p + Z.of_nat (length s)).
Proof.
  induction s as [|b s IH]; intros m p fuel Hc Hf; str_round Hc Hf.
  - by rewrite Z.add_0_r.
  - rewrite IH by (simpl in Hf; done || lia). f_equal. simpl. lia.
Qed.

Lemma scan_nul_spec m p s : cstr m p s -> scan_nul m p = Done (p + Z.of_nat (length s)).
Proof.
  intros Hc. apply scan_nul_loop; [done|]. apply cstr_fuel in Hc. lia.
Qed.

Lemma strlen_spec m p s : p <> 0 -> cstr m p s -> strlen m p = Done (Z.of_nat (length s)).
Proof.
  intros Hp Hc. unfold strlen. rewrite (proj2 (Z.eqb_neq p 0)) by done.
  rewrite (scan_nul_spec _ _ _ Hc), bind_Done. f_equal. lia.
Qed.

(** Membership of a byte in a list, as a test. *)
Definition memb (c : Z) (l : list Z) : bool := existsb (Z.eqb c) l.

Lemma span_do_loop s c : forall m p fuel,
  cstr m p s -> (length s < fuel)%nat ->
  loop fuel (fun p => sc ← load m p;
    if sc =? c then Done (inr true)
    else if sc =? 0 then Done (inr false) else Done (inl (p + 1))) p =
  Done (memb c (s ++ [0])).
Proof.
  induction s as [|b s IH]; intros m p fuel Hc Hf; str_round Hc Hf;
    simpl; rewrite (Z.eqb_sym c).
  - by destruct (0 =? c).
  - destruct (b =? c); [done|]. by rewrite IH by (simpl in Hf; done || lia).
Qed.

Lemma span_do_spec m p s c : cstr m p s -> span_do m p c = Done (memb c (s ++ [0])).
Proof. intros Hc. apply span_do_loop; [done|]. apply cstr_fuel in Hc. lia. Qed.

Lemma span_for_loop s c : forall m p fuel,
  cstr m p s -> (length s < fuel)%nat ->
  loop fuel (fun p => sc ← load m p;
    if sc =? 0 then Done (inr false)
    else if sc =? c then Done (inr true) else Done (inl (p + 1))) p =
  Done (memb c s).
Proof.
  induction s as [|b s IH]; intros m p fuel Hc Hf; str_round Hc Hf; simpl; [done|].
  rewrite (Z.eqb_sym c). destruct (b =? c); [done|].
  by rewrite IH by (simpl in Hf; done || lia).
Qed.

Lemma span_for_spec m p s c : cstr m p s -> span_for m p c = Done (memb c s).
Proof. intros Hc. apply span_for_loop; [done|]. apply cstr_fuel in Hc. lia. Qed.

Lemma memb_In c l : memb c l = true <-> c ∈ l.
Proof.
  unfold memb. rewrite existsb_exists. split.
  - intros (x & Hx & ->%Z.eqb_eq). by apply list_elem_of_In.
  - intros Hc. exists c. split; [by apply list_elem_of_In|apply Z.eqb_refl].
Qed.

(** ** Searching *)

(** The position of the last element equal to [c]. *)
Fixpoint last_index (c : Z) (l : list Z) : option nat :=
  match l with
  | [] => None
  | b :: l' =>
      match last_index c l' with
      | Some i => Some (S i)
      | None => if b =? c then Some O else None
      end
  end.

(** The pointer a search returns: NULL or an offset from the start. *)
Definition ptr_of (p : Z) (o : option nat) : Z :=
  match o with Some i => p + Z.of_nat i | None => 0 end.

Lemma ptr_of_S p o : ptr_of p (S <$> o) = ptr_of (p + 1) o.
Proof. destruct o; simpl; lia. Qed.

Lemma strchr_loop s cc : forall m p fuel,
  cstr m p s -> (length s < fuel)%nat ->
  loop fuel (fun s => b ← load m s;
    if b =? 0 then Done (inr (if cc =? 0 then s else 0))
    else if b =? cc then Done (inr s) else Done (inl (s + 1))) p =
  Done (ptr_of p (find_index (Z.eqb cc) (s ++ [0]))).
Proof.
  induction s as [|b s IH]; intros m p fuel Hc Hf; str_round Hc Hf; simpl.
  - destruct (cc =? 0); simpl; [f_equal; lia|done].
  - rewrite (Z.eqb_sym cc b). destruct (b =? cc); simpl; [f_equal; lia|].
    rewrite ptr_of_S. apply IH; [done|simpl in Hf; lia].
Qed.

Lemma strchr_spec m p s c :
  cstr m p s -> strchr m p c = Done (ptr_of p (find_index (Z.eqb (byte c)) (s ++ [0]))).
Proof. intros Hc. apply strchr_loop; [done|]. apply cstr_fuel in Hc. lia. Qed.

Lemma strrchr_loop s cc : forall m p sp fuel,
  cstr m p s -> (length s < fuel)%nat ->
  loop fuel (fun '(s, sp) => b ← load m s;
    if b =? 0 then Done (inr (if cc =? 0 then s else sp))
    else Done (inl (s + 1, if b =? cc then s else sp))) (p, sp) =
  Done (match last_index cc (s ++ [0]) with Some i => p + Z.of_nat i | None => sp end).
Proof.
  induction s as [|b s IH]; intros m p sp fuel Hc Hf; str_round Hc Hf; simpl.
  - rewrite (Z.eqb_sym cc 0). destruct (0 =? cc); [f_equal; lia|done].
  - rewrite IH by (simpl in Hf; done || lia).
    destruct (last_index cc (s ++ [0])); [f_equal; lia|].
    destruct (b =? cc); [f_equal; lia|done].
Qed.

Lemma strrchr_spec m p s c :
  cstr m p s -> strrchr m p c = Done (ptr_of p (last_index (byte c) (s ++ [0]))).
Proof.
  intros Hc. unfold strrchr. rewrite (strrchr_loop s); [done|done|].
  apply cstr_fuel in Hc. lia.
Qed.

(** The length of the longest prefix of [l] whose elements satisfy [P]. *)
Fixpoint span_len (P : Z -> bool) (l : list Z) : nat :=
  match l with
  | [] => O
  | b :: l' => if P b then S (span_len P l') else O
  end.

Lemma strspn_loop m s2 set s1 s : forall p fuel,
  cstr m s2 set -> cstr m p s -> (length s < fuel)%nat ->
  loop fuel (fun p => c ← load m p;
    let p := p + 1 in
    found ← span_for m s2 c;
    if found : bool then Done (inl p) else Done (inr (p - 1 - s1))) p =
  Done (p - s1 + Z.of_nat (span_len (fun b => memb b set) s)).
Proof.
  induction s as [|b s IH]; intros p fuel Hs2 Hc Hf; str_round Hc Hf;
    rewrite (span_for_spec _ _ _ _ Hs2), bind_Done.
  - destruct (memb 0 set) eqn:E; [|f_equal; simpl; lia].
    apply memb_In in E. destruct Hs2 as [_ Hok].
    apply (str_ok_elem _ _ Hok) in E. lia.
  - simpl. destruct (memb b set).
    + rewrite IH by (simpl in Hf; done || lia). f_equal. lia.
    + f_equal. lia.
Qed.

Lemma strspn_spec m p s s2 set :
  cstr m p s -> cstr m s2 set ->
  strspn m p s2 = Done (Z.of_nat (span_len (fun b => memb b set) s)).
Proof.
  intros Hc Hs2. unfold strspn. rewrite (strspn_loop m s2 set p s); [f_equal; lia|done|done|].
  apply cstr_fuel in Hc. lia.
Qed.

Lemma strcspn_loop m s2 set s1 s : forall p fuel,
  cstr m s2 set -> cstr m p s -> (length s < fuel)%nat ->
  loop fuel (fun p => c ← load m p;
    let p := p + 1 in
    found ← span_do m s2 c;
    if found : bool then Done (inr (p - 1 - s1)) else Done (inl p)) p =
  Done (p - s1 + Z.of_nat (span_len (fun b => negb (memb b set)) s)).
Proof.
  induction s as [|b s IH]; intros p fuel Hs2 Hc Hf; str_round Hc Hf;
    rewrite (span_do_spec _ _ _ _ Hs2), bind_Done.
  - replace (memb 0 (set ++ [0])) with true; [f_equal; simpl; lia|].
    symmetry. apply memb_In. set_solver.
  - replace (memb b (set ++ [0])) with (memb b set).
    2: { unfold memb. rewrite existsb_app. simpl.
         rewrite (proj2 (Z.eqb_neq b 0)) by lia. by rewrite !orb_false_r. }
    simpl. destruct (memb b set); simpl.
    + f_equal. lia.
    + rewrite IH by (simpl in Hf; done || lia). f_equal. lia.
Qed.

Lemma strcspn_spec m p s s2 set :
  cstr m p s -> cstr m s2 set ->
  strcspn m p s2 = Done (Z.of_nat (span_len (fun b => negb (memb b set)) s)).
Proof.
  intros Hc Hs2. unfold strcspn. rewrite (strcspn_loop m s2 set p s); [f_equal; lia|done|done|].
  apply cstr_fuel in Hc. lia.
Qed.

Lemma strpbrk_loop m s2 set s : forall p fuel,
  cstr m s2 set -> cstr m p s -> (length s < fuel)%nat ->
  loop fuel (fun s1 => c ← load m s1;
    let s1 := s1 + 1 in
    if c =? 0 then Done (inr 0)
    else
      found ← span_for m s2 c;
      if found : bool then Done (inr (s1 - 1)) else Done (inl s1)) p =
  Done (ptr_of p (find_index (fun b => memb b set) s)).
Proof.
  induction s as [|b s IH]; intros p fuel Hs2 Hc Hf; str_round Hc Hf; [done|].
  rewrite (span_for_spec _ _ _ _ Hs2), bind_Done. simpl.
  destruct (memb b set); simpl; [f_equal; lia|].
  rewrite ptr_of_S. apply IH; [done|done|simpl in Hf; lia].
Qed.

Lemma strpbrk_spec m p s s2 set :
  cstr m p s -> cstr m s2 set ->
  strpbrk m p s2 = Done (ptr_of p (find_index (fun b => memb b set) s)).
Proof.
  intros Hc Hs2. apply strpbrk_loop; [done|done|]. apply cstr_fuel in Hc. lia.
Qed.

(** ** Comparing *)

Lemma strcmp_loop s1 : forall s2 m p1 p2 fuel,
  cstr m p1 s1 -> cstr m p2 s2 -> (length s1 < fuel)%nat ->
  loop fuel (fun '(s1, s2) =>
    b1 ← load m s1;
    b2 ← load m s2;
    if b1 =? b2 then
      if b1 =? 0 then Done (inr 0) else Done (inl (s1 + 1, s2 + 1))
    else Done (inr (b1 - b2))) (p1, p2) =
  Done (first_diff (s1 ++ [0]) (s2 ++ [0])).
Proof.
  induction s1 as [|b1 s1 IH]; intros s2 m p1 p2 fuel H1 H2 Hf; str_round H1 Hf.
  - destruct s2 as [|b2 s2].
    + apply cstr_nil in H2. by rewrite (load_Some _ _ _ H2).
    + apply cstr_cons in H2 as (Hb2 & Hp2 & _).
      rewrite (load_Some _ _ _ Hp2), bind_Done. simpl.
      by rewrite (proj2 (Z.eqb_neq 0 b2)) by lia.
  - destruct s2 as [|b2 s2].
    + apply cstr_nil in H2. rewrite (load_Some _ _ _ H2), bind_Done. simpl.
      by rewrite (proj2 (Z.eqb_neq b1 0)) by lia.
    + apply cstr_cons in H2 as (Hb2 & Hp2 & H2).
      rewrite (load_Some _ _ _ Hp2), bind_Done. simpl.
      destruct (b1 =? b2); [|done].
      apply IH; [done|done|simpl in Hf; lia].
Qed.

Lemma strcmp_spec m p1 p2 s1 s2 :
  cstr m p1 s1 -> cstr m p2 s2 ->
  strcmp m p1 p2 = Done (first_diff (s1 ++ [0]) (s2 ++ [0])).
Proof. intros H1 H2. apply strcmp_loop; [done|done|]. apply cstr_fuel in H1. lia. Qed.

(** On terminated strings a zero difference is equality. *)
Lemma first_diff_nul s1 s2 :
  str_ok s1 -> str_ok s2 ->
  first_diff (s1 ++ [0]) (s2 ++ [0]) = 0 <-> s1 = s2.
Proof.
  revert s2. induction s1 as [|b1 s1 IH]; intros [|b2 s2] H1 H2;
    rewrite ?str_ok_cons in H1; rewrite ?str_ok_cons in H2; simpl; [done| | |].
  - rewrite (proj2 (Z.eqb_neq 0 b2)) by lia. split; [lia|done].
  - rewrite (proj2 (Z.eqb_neq b1 0)) by lia. split; [lia|done].
  - destruct (Z.eqb_spec b1 b2) as [->|Hne].
    + rewrite IH by tauto. split; [by intros ->|by intros [= ->]].
    + split; [lia|]. by intros [= -> _].
Qed.

(** The length of the common prefix. *)
Fixpoint common_len (s1 s2 : list Z) : nat :=
  match s1, s2 with
  | a :: s1', b :: s2' => if a =? b then S (common_len s1' s2') else O
  | _, _ => O
  end.

Lemma first_diff_common s1 s2 :
  first_diff (s1 ++ [0]) (s2 ++ [0]) =
  default 0 ((s1 ++ [0]) !! common_len s1 s2) - default 0 ((s2 ++ [0]) !! common_len s1 s2).
Proof.
  revert s2. induction s1 as [|b1 s1 IH]; intros [|b2 s2]; simpl; [done| | |].
  - destruct (Z.eqb_spec 0 b2) as [<-|]; [by destruct s2|done].
  - destruct (Z.eqb_spec b1 0) as [->|]; [by destruct s1|done].
  - destruct (Z.eqb_spec b1 b2) as [->|]; [apply IH|done].
Qed.

(** strcmp compares as unsigned bytes: on two terminated strings it reads only
    them, its result is the difference of the first two bytes that differ (the
    terminators included), and it is 0 exactly for equal strings. *)
Theorem strcmp_correct m p1 p2 s1 s2 :
  cstr m p1 s1 -> cstr m p2 s2 ->
  exists r, strcmp m p1 p2 = Done r /\
    (r = 0 <-> s1 = s2) /\
    r = default 0 ((s1 ++ [0]) !! common_len s1 s2)
        - default 0 ((s2 ++ [0]) !! common_len s1 s2).
Proof.
  intros H1 H2. eexists. split; [by apply strcmp_spec|]. split.
  - apply first_diff_nul; [apply H1|apply H2].
  - apply first_diff_common.
Qed.

Definition cmp_example : mem := write_bytes (mem_of 1 [97; 200; 0]) 8 [97; 98; 0].

Lemma strcmp_correct_witness : strcmp cmp_example 1 8 = Done 102.
Proof.
  destruct (strcmp_correct cmp_example 1 8 [97; 200] [97; 98]) as (r & E & _ & Hr);
    [by_eval|by_eval|].
  rewrite E, Hr. reflexivity.
Defined.

Lemma strncmp_spec n : forall s1 s2 m p1 p2,
  cstr m p1 s1 -> cstr m p2 s2 ->
  strncmp m p1 p2 (Z.of_nat n) =
  Done (first_diff (take n (s1 ++ [0])) (take n (s2 ++ [0]))).
Proof.
  unfold strncmp. induction n as [|n IH]; intros s1 s2 m p1 p2 H1 H2; [done|].
  rewrite of_nat_eqb_0, count_fuel_of_nat. simpl (_ =? _)%nat. cbn iota.
  rewrite loop_S. cbn beta iota.
  assert (Hnext : forall t1 t2, cstr m (p1 + 1) t1 -> cstr m (p2 + 1) t2 ->
    (if Z.of_nat n =? 0 then Done 0 else loop (S n) (fun '(s1, s2, n) =>
      b1 ← load m s1;
      b2 ← load m s2;
      if negb (b1 =? b2) then Done (inr (b1 - b2))
      else if b1 =? 0 then Done (inr 0)
      else if n - 1 =? 0 then Done (inr 0)
      else Done (inl (s1 + 1, s2 + 1, n - 1))) (p1 + 1, p2 + 1, Z.of_nat n)) =
    Done (first_diff (take n (t1 ++ [0])) (take n (t2 ++ [0])))).
  { intros t1 t2 Ht1 Ht2. specialize (IH t1 t2 m (p1 + 1) (p2 + 1) Ht1 Ht2).
    by rewrite count_fuel_of_nat in IH. }
  destruct s1 as [|b1 s1], s2 as [|b2 s2];
    rewrite ?cstr_nil, ?cstr_cons in H1; rewrite ?cstr_nil, ?cstr_cons in H2; simpl.
  - rewrite (load_Some _ _ _ H1), bind_Done, (load_Some _ _ _ H2), bind_Done.
    by rewrite Z.eqb_refl, take_nil.
  - destruct H2 as (Hb2 & Hp2 & _).
    rewrite (load_Some _ _ _ H1), bind_Done, (load_Some _ _ _ Hp2), bind_Done.
    by rewrite (proj2 (Z.eqb_neq 0 b2)) by lia.
  - destruct H1 as (Hb1 & Hp1 & _).
    rewrite (load_Some _ _ _ Hp1), bind_Done, (load_Some _ _ _ H2), bind_Done.
    by rewrite (proj2 (Z.eqb_neq b1 0)) by lia.
  - destruct H1 as (Hb1 & Hp1 & H1), H2 as (Hb2 & Hp2 & H2).
    rewrite (load_Some _ _ _ Hp1), bind_Done, (load_Some _ _ _ Hp2), bind_Done.
    destruct (b1 =? b2); cbn [negb]; [|done]. rewrite (proj2 (Z.eqb_neq b1 0)) by lia.
    rewrite of_nat_S_pred. rewrite <- (Hnext s1 s2 H1 H2). by destruct (Z.of_nat n =? 0).
Qed.

Lemma first_diff_prefix n h :
  str_ok n ->
  (first_diff (take (length n) (h ++ [0])) n =? 0) = prefixb n h.
Proof.
  revert h. induction n as [|b n IH]; intros [|c h] Hn; rewrite ?str_ok_cons in Hn;
    simpl; try done.
  - rewrite (proj2 (Z.eqb_neq 0 b)) by lia. apply Z.eqb_neq. lia.
  - rewrite (Z.eqb_sym c). destruct (Z.eqb_spec b c) as [->|]; simpl; [apply IH; tauto|].
    apply Z.eqb_neq. lia.
Qed.

Lemma strncmp_prefix m p q n h :
  cstr m p h -> cstr m q n ->
  exists r, strncmp m p q (Z.of_nat (length n)) = Done r /\ (r =? 0) = prefixb n h.
Proof.
  intros Hp Hq. eexists. split; [by apply strncmp_spec|].
  rewrite (take_app_le n [0]), (firstn_all n) by lia. apply first_diff_prefix. apply Hq.
Qed.

(** ** strstr *)

Lemma find_index_split c h i :
  find_index (Z.eqb c) h = Some i -> drop i h = c :: drop (S i) h.
Proof.
  revert i. induction h as [|b h IH]; intros i; simpl; [done|].
  destruct (Z.eqb_spec c b) as [->|]; [by intros [= <-]|].
  intros (k & Hk & ->)%fmap_Some. simpl. by rewrite (IH _ Hk).
Qed.

Lemma first_occ_skip c n h i :
  find_index (Z.eqb c) h = Some i ->
  first_occ (c :: n) h = Nat.add i <$> first_occ (c :: n) (drop i h).
Proof.
  revert i. induction h as [|b h IH]; intros i; [done|]. cbn [find_index].
  destruct (Z.eqb_spec c b) as [->|Hne].
  - intros [= <-]. simpl drop. by destruct (first_occ _ (b :: h)).
  - intros (k & Hk & ->)%fmap_Some. cbn [first_occ prefixb].
    rewrite (proj2 (Z.eqb_neq c b)) by done. cbn [andb drop].
    rewrite (IH _ Hk). by destruct (first_occ _ (drop k h)).
Qed.

Lemma first_occ_absent c n h :
  find_index (Z.eqb c) h = None -> first_occ (c :: n) h = None.
Proof.
  induction h as [|b h IH]; [done|]. cbn [find_index first_occ prefixb].
  destruct (c =? b); [done|]. intros H%fmap_None. simpl. by rewrite IH.
Qed.

(** The inner loop of strstr: one past the next occurrence of [c]. *)
Lemma strstr_inner c s : forall m p fuel,
  cstr m p s -> (length s < fuel)%nat ->
  loop fuel (fun s => sc ← load m s;
    let s := s + 1 in
    if sc =? 0 then Done (inr None)
    else if sc =? c then Done (inr (Some s)) else Done (inl s)) p =
  Done ((fun i => p + Z.of_nat i + 1) <$> find_index (Z.eqb c) s).
Proof.
  induction s as [|b s IH]; intros m p fuel Hc Hf; str_round Hc Hf; [done|].
  simpl. rewrite (Z.eqb_sym c b). destruct (b =? c); simpl; [do 2 f_equal; lia|].
  rewrite IH by (simpl in Hf; done || lia).
  destruct (find_index _ s); simpl; [|done]. do 2 f_equal. lia.
Qed.

Lemma cstr_drop m p s i :
  cstr m p s -> (i <= length s)%nat -> cstr m (p + Z.of_nat i) (drop i s).
Proof.
  intros [Hb Hok] Hi. rewrite <- (take_drop i s) in Hb, Hok.
  apply str_ok_app in Hok as [_ Hok]. rewrite <- app_assoc, bytes_at_app in Hb.
  destruct Hb as [_ Hb]. rewrite length_take, Nat.min_l in Hb by done. done.
Qed.

Lemma find_index_lt P s i : find_index P s = Some i -> (i < length s)%nat.
Proof.
  revert i. induction s as [|b s IH]; intros i; simpl; [done|].
  destruct (P b); [intros [= <-]; lia|]. intros (k & Hk & ->)%fmap_Some.
  specialize (IH _ Hk). lia.
Qed.

Lemma strstr_loop m c find n : forall fuel h p,
  cstr m find n -> cstr m p h -> (length h < fuel)%nat ->
  loop fuel (strstr_body m c find (Z.of_nat (length n))) p =
  Done (ptr_of p (first_occ (c :: n) h)).
Proof.
  induction fuel as [|fuel IH]; intros h p Hn Hc Hf; [lia|].
  rewrite loop_S. unfold strstr_body at 1.
  rewrite (strstr_inner c h) by (done || (apply cstr_fuel in Hc; lia)). rewrite bind_Done.
  destruct (find_index (Z.eqb c) h) as [i|] eqn:Ei; cbn [fmap option_fmap option_map].
  2: { by rewrite first_occ_absent. }
  pose proof (find_index_lt _ _ _ Ei).
  assert (Hr : cstr m (p + Z.of_nat i + 1) (drop (S i) h)).
  { replace (p + Z.of_nat i + 1) with (p + Z.of_nat (S i)) by lia. apply cstr_drop; [done|lia]. }
  rewrite (first_occ_skip _ _ _ _ Ei), (find_index_split _ _ _ Ei).
  destruct (strncmp_prefix _ _ _ _ _ Hr Hn) as (d & Ed & Hd).
  rewrite Ed, bind_Done, Hd. cbn [first_occ prefixb]. rewrite Z.eqb_refl. cbn [andb].
  destruct (prefixb n (drop (S i) h)); simpl.
  - f_equal. lia.
  - rewrite (IH (drop (S i) h)); [|done|done|rewrite length_drop; lia].
    destruct (first_occ (c :: n) (drop (S i) h)); simpl; [f_equal; lia|done].
Qed.

(** strstr finds the first occurrence: on two terminated strings the result is
    the address of the first place where [find] occurs in [s] ([s] itself for
    the empty string), NULL if it does not occur; only the two strings are read. *)
Theorem strstr_correct m p q s find :
  0 < q -> cstr m p s -> cstr m q find ->
  strstr m p q = Done (ptr_of p (first_occ find s)).
Proof.
  intros Hq0 Hp Hq. unfold strstr. destruct find as [|c n].
  - apply cstr_nil in Hq. rewrite (load_Some _ _ _ Hq), bind_Done.
    destruct s; simpl; f_equal; lia.
  - apply cstr_cons in Hq as (Hc & Hqc & Hq).
    rewrite (load_Some _ _ _ Hqc), bind_Done. rewrite (proj2 (Z.eqb_neq c 0)) by lia.
    rewrite (strlen_spec m (q + 1) n) by (done || lia). rewrite bind_Done.
    apply strstr_loop; [done|done|]. apply cstr_fuel in Hp. lia.
Qed.

Definition strstr_example : mem :=
  write_bytes (mem_of 1 [97; 97; 98; 97; 98; 99; 0]) 20 [97; 98; 99; 0].

Lemma strstr_correct_witness : strstr strstr_example 1 20 = Done 4.
Proof.
  rewrite (strstr_correct strstr_example 1 20 [97; 97; 98; 97; 98; 99] [97; 98; 99]);
    [reflexivity|lia|by_eval|by_eval].
Defined.

(** ** Copying *)

Lemma cstr_insert_out m p s a v :
  cstr m p s -> a < p \/ p + Z.of_nat (length s) < a -> cstr (<[a := v]> m) p s.
Proof.
  intros [Hb Hok] Ha. split; [|done]. apply bytes_at_insert_out; [done|].
  rewrite length_app. simpl. lia.
Qed.

Lemma cstr_write_out m p s p' l :
  cstr m p s -> p + Z.of_nat (length s) < p' \/ p' + Z.of_nat (length l) <= p ->
  cstr (write_bytes m p' l) p s.
Proof.
  intros [Hb Hok] Ha. split; [|done]. apply bytes_at_write_out; [done|].
  rewrite length_app. simpl. lia.
Qed.

Lemma cstr_write m p s : str_ok s -> cstr (write_bytes m p (s ++ [0])) p s.
Proof. intros. split; [apply bytes_at_write|done]. Qed.

Lemma str_bytes_ok s : str_ok s -> bytes_ok s.
Proof. intros H. eapply List.Forall_impl; [|exact H]. simpl. lia. Qed.

Lemma cstr_bytes m p s : cstr m p s -> bytes_at m p s /\ bytes_ok s.
Proof.
  intros [Hb Hok]. split; [by apply bytes_at_app in Hb as [? _]|by apply str_bytes_ok].
Qed.

Lemma copy_str_loop s : forall m d p fuel,
  cstr m p s -> (length s < fuel)%nat -> mapped m d (S (length s)) ->
  d <= p \/ p + Z.of_nat (length s) < d ->
  loop fuel (fun '(m, d, s) =>
    b ← load m s;
    m' ← store m d b;
    if b =? 0 then Done (inr (m', d)) else Done (inl (m', d + 1, s + 1)))
    (m, d, p) =
  Done (write_bytes m d (s ++ [0]), d + Z.of_nat (length s)).
Proof.
  induction s as [|b s IH]; intros m d p fuel Hc Hf Hd Hov; str_round Hc Hf;
    apply mapped_S in Hd as [H0 Hd];
    (rewrite store_byte by (done || lia)); rewrite bind_Done.
  - simpl. do 2 f_equal. lia.
  - rewrite IH.
    + simpl. do 2 f_equal. lia.
    + apply cstr_insert_out; [done|]. simpl in Hov. lia.
    + simpl in Hf. lia.
    + apply mapped_insert. done.
    + simpl in Hov. lia.
Qed.

Lemma copy_str_spec m d p s :
  cstr m p s -> mapped m d (S (length s)) -> d <= p \/ p + Z.of_nat (length s) < d ->
  copy_str m d p = Done (write_bytes m d (s ++ [0]), d + Z.of_nat (length s)).
Proof. intros Hc. apply copy_str_loop; [done|]. apply cstr_fuel in Hc. lia. Qed.

Lemma strcpy_spec m d p s :
  cstr m p s -> mapped m d (S (length s)) -> d <= p \/ p + Z.of_nat (length s) < d ->
  strcpy m d p = Done (write_bytes m d (s ++ [0]), d).
Proof. intros. unfold strcpy. by rewrite (copy_str_spec _ _ _ s). Qed.

Lemma strcat_spec m d p s1 s2 :
  cstr m d s1 -> cstr m p s2 -> mapped m d (S (length s1 + length s2)) ->
  d + Z.of_nat (length s1 + length s2) < p \/ p + Z.of_nat (length s2) < d ->
  strcat m d p = Done (write_bytes m (d + Z.of_nat (length s1)) (s2 ++ [0]), d).
Proof.
  intros H1 H2 Hm Hov. unfold strcat. rewrite (scan_nul_spec _ _ _ H1), bind_Done.
  rewrite (copy_str_spec _ _ _ s2); [done|done| |lia].
  rewrite plus_n_Sm in Hm. by apply mapped_app in Hm as [_ Hm].
Qed.

Lemma take_snoc_cstr m p s k :
  cstr m p s -> (k <= length s)%nat -> bytes_at m p (take k s) /\ bytes_ok (take k s).
Proof.
  intros Hc Hk. apply cstr_bytes in Hc as [Hb Hok].
  rewrite <- (take_drop k s) in Hb, Hok.
  apply bytes_at_app in Hb as [Hb _]. apply bytes_ok_app in Hok as [Hok _]. done.
Qed.

(** The truncating branch of strlcpy and strlcat. *)
Lemma memcpy_terminate m d p s k :
  cstr m p s -> (k <= length s)%nat -> mapped m d (S k) ->
  d + Z.of_nat k < p \/ p + Z.of_nat (length s) < d ->
  ('(m, _) ← memcpy m d p (Z.of_nat k); store m (d + Z.of_nat k) 0) =
  Done (write_bytes m d (take k s ++ [0])).
Proof.
  intros Hc Hk Hm Hov. destruct (take_snoc_cstr _ _ _ _ Hc Hk) as [Hb Hok].
  assert (Hl : length (take k s) = k) by (rewrite length_take; lia).
  pose proof (memcpy_spec m d p (take k s)) as E. rewrite Hl in E.
  rewrite E; [|done|done|by eapply mapped_le; [exact Hm|lia]|lia]. rewrite bind_Done.
  rewrite (store_mapped _ d (S k)) by (auto with dj64 || lia).
  by rewrite write_bytes_app, Hl.
Qed.

(** strlcpy never overruns: for a buffer of [size] bytes it writes the longest
    prefix of the source that fits, always NUL-terminated (nothing when [size]
    is 0), leaves every other byte alone and returns the source's length. *)
Theorem strlcpy_correct m dst src s size :
  0 < src -> cstr m src s -> mapped m dst size ->
  dst + Z.of_nat size <= src \/ src + Z.of_nat (length s) < dst ->
  strlcpy m dst src (Z.of_nat size) =
  Done (match size with
        | O => m
        | S k => write_bytes m dst (take k s ++ [0])
        end, Z.of_nat (length s)).
Proof.
  intros Hsrc Hc Hm Hov. unfold strlcpy.
  rewrite (strlen_spec _ _ s) by (done || lia). rewrite bind_Done, of_nat_eqb_0.
  destruct size as [|k]; [done|]. simpl (_ =? _)%nat. cbn iota.
  destruct (Z.ltb_spec (Z.of_nat (length s)) (Z.of_nat (S k))).
  - rewrite (strcpy_spec _ _ _ s); [|done|by eapply mapped_le; [exact Hm|lia]|lia].
    by rewrite take_ge by lia.
  - rewrite of_nat_S_pred. pose proof (memcpy_terminate m dst src s k Hc) as E.
    specialize (E ltac:(lia) Hm ltac:(lia)).
    revert E. destruct (memcpy m dst src (Z.of_nat k)) as [[m' ?]|]; [|done].
    rewrite !bind_Done. by intros ->.
Qed.

Definition lcpy_example : mem :=
  write_bytes (mem_of 1 (replicate 8 255)) 20 [97; 98; 99; 100; 0].

Lemma strlcpy_correct_witness :
  strlcpy lcpy_example 1 20 3 = Done (write_bytes lcpy_example 1 [97; 98; 0], 4).
Proof.
  apply (strlcpy_correct lcpy_example 1 20 [97; 98; 99; 100] 3);
    [lia|by_eval|by_eval|simpl; lia].
Defined.

Lemma bounded_scan_loop s : forall m d size i fuel,
  cstr m (d + i) s -> (length s < fuel)%nat -> i + Z.of_nat (length s) < size ->
  loop fuel (fun i =>
    if i <? size then
      b ← load m (d + i);
      if b =? 0 then Done (inr i) else Done (inl (i + 1))
    else Done (inr i)) i = Done (i + Z.of_nat (length s)).
Proof.
  induction s as [|b s IH]; intros m d size i fuel Hc Hf Hsz;
    (destruct fuel as [|fuel]; [simpl in Hf; lia|]); rewrite loop_S; cbn beta;
    rewrite (proj2 (Z.ltb_lt i size)) by (simpl in Hsz; lia).
  - apply cstr_nil in Hc. rewrite (load_Some _ _ _ Hc). simpl. f_equal. lia.
  - apply cstr_cons in Hc as (Hb & Hp & Hc). rewrite (load_Some _ _ _ Hp), bind_Done.
    rewrite (proj2 (Z.eqb_neq b 0)) by lia. rewrite IH.
    + f_equal. simpl. lia.
    + by replace (d + (i + 1)) with (d + i + 1) by lia.
    + simpl in Hf. lia.
    + simpl in Hsz. lia.
Qed.

(** strlcat never overruns: when the buffer of [size] bytes holds a terminated
    string [d], the result is [d] followed by the longest prefix of the source
    that fits, NUL-terminated, every other byte unchanged, and the returned
    value is the length the full concatenation would have. *)
Theorem strlcat_correct m dst src d s size :
  0 < src -> cstr m dst d -> cstr m src s -> (length d < size)%nat ->
  mapped m dst size ->
  dst + Z.of_nat size <= src \/ src + Z.of_nat (length s) < dst ->
  strlcat m dst src (Z.of_nat size) =
  Done (write_bytes m (dst + Z.of_nat (length d)) (take (size - length d - 1) s ++ [0]),
        Z.of_nat (length d) + Z.of_nat (length s)).
Proof.
  intros Hsrc Hd Hc Hlt Hm Hov. unfold strlcat.
  rewrite (strlen_spec _ _ s) by (done || lia). rewrite bind_Done.
  unfold bounded_scan. rewrite count_fuel_of_nat.
  rewrite (bounded_scan_loop d) by (rewrite ?Z.add_0_r; done || lia).
  rewrite bind_Done, Z.add_0_l.
  rewrite (proj2 (Z.eqb_neq _ (Z.of_nat size))) by lia.
  set (k := (size - length d - 1)%nat).
  assert (Hm' : mapped m (dst + Z.of_nat (length d)) (S k)).
  { replace size with (length d + S k)%nat in Hm by lia. by apply mapped_app in Hm as [_ ?]. }
  destruct (Z.ltb_spec (Z.of_nat (length d) + Z.of_nat (length s)) (Z.of_nat size)).
  - rewrite (strcpy_spec _ _ _ s); [|done|by eapply mapped_le; [exact Hm'|lia]|lia].
    by rewrite take_ge by lia.
  - replace (Z.of_nat size - Z.of_nat (length d) - 1) with (Z.of_nat k) by lia.
    replace (dst + (Z.of_nat size - 1)) with (dst + Z.of_nat (length d) + Z.of_nat k) by lia.
    pose proof (memcpy_terminate _ _ _ _ k Hc ltac:(lia) Hm' ltac:(lia)) as E.
    revert E. destruct (memcpy _ _ _ (Z.of_nat k)) as [[m' ?]|]; [|done].
    rewrite !bind_Done. by intros ->.
Qed.

Definition lcat_example : mem :=
  write_bytes (mem_of 1 [120; 0; 255; 255; 255]) 20 [97; 98; 99; 100; 0].

Lemma strlcat_correct_witness :
  strlcat lcat_example 1 20 4 = Done (write_bytes lcat_example 2 [97; 98; 0], 5).
Proof.
  apply (strlcat_correct lcat_example 1 20 [120] [97; 98; 99; 100] 4);
    [lia|by_eval|by_eval|simpl; lia|by_eval|simpl; lia].
Defined.
