(* ===== verification/StringProps.v ===== *)
(** * Strings: padding, transforming, bounded length, tokens

    Theorems about the functions of Strings.v that pad or truncate (strncpy,
    strxfrm), measure with a bound (strnlen), ignore case (stricmp) or cut a
    string into tokens (strtok_r). *)

From S2P Require Import Prelude Ctype MemFuns Strings.
From stdpp Require Import base gmap list numbers.
From Stdlib Require Import ZArith Lia.

Open Scope Z_scope.
Open Scope c_scope.

(** ** strncpy *)

(** The first [n] bytes of [s] continued with NULs for ever. *)
Fixpoint pad (n : nat) (s : list Z) : list Z :=
  match n with
  | O => []
  | S n' => match s with [] => 0 :: pad n' [] | b :: s' => b :: pad n' s' end
  end.

Lemma length_pad n s : length (pad n s) = n.
Proof. revert s. induction n as [|n IH]; intros [|b s]; simpl; auto. Qed.

Lemma zero_fill_spec n : forall m d,
  mapped m d n -> zero_fill m d (Z.of_nat (S n)) = Done (write_bytes m d (pad n [])).
Proof.
  unfold zero_fill. induction n as [|n IH]; intros m d Hm; [done|].
  rewrite count_fuel_of_nat, loop_S. cbn beta iota. rewrite of_nat_S_pred, of_nat_eqb_0.
  simpl (_ =? _)%nat. cbn iota. apply mapped_S in Hm as [H0 Hm].
  rewrite store_byte, bind_Done by (done || lia).
  specialize (IH (<[d:=0]> m) (d + 1) (mapped_insert _ _ _ _ _ Hm)).
  by rewrite count_fuel_of_nat in IH.
Qed.

Lemma strncpy_loop n : forall s m d p,
  cstr m p s -> mapped m d (S n) ->
  d + Z.of_nat n < p \/ p + Z.of_nat (length s) < d ->
  loop (S (S n)) (fun '(m, d, s, n) =>
    b ← load m s;
    m' ← store m d b;
    if b =? 0 then m'' ← zero_fill m' (d + 1) n; Done (inr m'')
    else if n - 1 =? 0 then Done (inr m')
    else Done (inl (m', d + 1, s + 1, n - 1))) (m, d, p, Z.of_nat (S n)) =
  Done (write_bytes m d (pad (S n) s)).
Proof.
  induction n as [|n IH]; intros s m d p Hc Hm Hov;
    rewrite loop_S; cbn beta iota; apply mapped_S in Hm as [H0 Hm];
    (destruct s as [|b s];
      [apply cstr_nil in Hc; rewrite (load_Some _ _ _ Hc), bind_Done, store_byte, bind_Done
         by (done || lia);
       change (0 =? 0) with true; cbn iota; by rewrite zero_fill_spec by auto with dj64|]);
    apply cstr_cons in Hc as (Hb & Hp & Hc);
    (rewrite (load_Some _ _ _ Hp), bind_Done, store_byte, bind_Done by (done || lia));
    (rewrite (proj2 (Z.eqb_neq b 0)) by lia); rewrite of_nat_S_pred, of_nat_eqb_0;
    simpl (_ =? _)%nat; cbn iota; [done|].
  rewrite (IH s); [done| |auto with dj64|simpl in Hov; lia].
  apply cstr_insert_out; [done|simpl in Hov; lia].
Qed.

(** strncpy writes exactly [n] bytes: the first [n] bytes of the source, padded
    with NULs once the source has ended; no terminator is added when the source
    has [n] bytes or more, and no other byte changes. *)
Theorem strncpy_correct m dst src s n :
  cstr m src s -> mapped m dst n ->
  dst + Z.of_nat n <= src \/ src + Z.of_nat (length s) < dst ->
  strncpy m dst src (Z.of_nat n) = Done (write_bytes m dst (pad n s), dst).
Proof.
  intros Hc Hm Hov. unfold strncpy. rewrite of_nat_eqb_0, count_fuel_of_nat.
  destruct n as [|n]; [done|]. simpl (_ =? _)%nat. cbn iota.
  by rewrite (strncpy_loop n s) by (done || lia).
Qed.

Lemma strncpy_correct_witness :
  strncpy lcpy_example 1 20 6 = Done (write_bytes lcpy_example 1 [97; 98; 99; 100; 0; 0], 1).
Proof.
  apply (strncpy_correct lcpy_example 1 20 [97; 98; 99; 100] 6);
    [by_eval|by_eval|simpl; lia].
Defined.

(** ** strxfrm *)

Lemma strxfrm_loop s : forall m d p n r fuel,
  cstr m p s -> mapped m d (S n) -> (length s < fuel)%nat ->
  d + Z.of_nat n < p \/ p + Z.of_nat (length s) < d ->
  loop fuel (fun '(m, dst, src, n, r) =>
    c ← load m src;
    let src := src + 1 in
    if c =? 0 then Done (inr (m, dst, r))
    else
      let r := r + 1 in
      if n - 1 =? 0 then
        e ← scan_nul m src;
        Done (inr (m, dst, r + (e - src)))
      else
        m' ← store m dst c;
        Done (inl (m', dst + 1, src, n - 1, r))) (m, d, p, Z.of_nat (S n), r) =
  Done (write_bytes m d (take n s), d + Z.of_nat (length (take n s)),
        r + Z.of_nat (length s)).
Proof.
  induction s as [|b s IH]; intros m d p n r fuel Hc Hm Hf Hov; str_round Hc Hf.
  - rewrite take_nil. simpl. do 2 f_equal; [f_equal; lia|lia].
  - rewrite of_nat_S_pred, of_nat_eqb_0. destruct n as [|n]; simpl (_ =? _)%nat; cbn iota zeta.
    + rewrite (scan_nul_spec _ _ _ Hc), bind_Done. simpl. do 2 f_equal; [f_equal; lia|lia].
    + apply mapped_S in Hm as [H0 Hm].
      rewrite store_byte, bind_Done by (done || lia). rewrite IH.
      * simpl. do 2 f_equal; [f_equal; lia|lia].
      * apply cstr_insert_out; [done|simpl in Hov; lia].
      * auto with dj64.
      * simpl in Hf. lia.
      * simpl in Hov. lia.
Qed.

(** strxfrm: with room for [n > 0] bytes it writes the longest prefix that fits,
    terminated, and returns the length of the whole transformed string; with
    [n = 0] it returns 0 whatever the string is, so it cannot be used to ask for
    the length needed. *)
Theorem strxfrm_correct m dst src s n :
  cstr m src s -> mapped m dst n ->
  dst + Z.of_nat n <= src \/ src + Z.of_nat (length s) < dst ->
  strxfrm m dst src (Z.of_nat n) =
  Done (match n with
        | O => (m, 0)
        | S k => (write_bytes m dst (take k s ++ [0]), Z.of_nat (length s))
        end).
Proof.
  intros Hc Hm Hov. unfold strxfrm. rewrite of_nat_eqb_0. destruct n as [|k]; [done|].
  simpl (_ =? _)%nat. cbn iota.
  rewrite (strxfrm_loop s);
    [|done|done|apply cstr_fuel in Hc; lia|lia].
  rewrite bind_Done.
  assert (length (take k s) <= k)%nat by (rewrite length_take; lia).
  rewrite (store_mapped _ dst (S k)) by (auto with dj64 || lia).
  rewrite bind_Done, write_bytes_app. do 2 f_equal.
Qed.

Lemma strxfrm_correct_witness :
  strxfrm lcpy_example 1 20 3 = Done (write_bytes lcpy_example 1 [97; 98; 0], 4) /\
  strxfrm lcpy_example 1 20 0 = Done (lcpy_example, 0).
Proof.
  split.
  - apply (strxfrm_correct lcpy_example 1 20 [97; 98; 99; 100] 3);
      [by_eval|by_eval|simpl; lia].
  - apply (strxfrm_correct lcpy_example 1 20 [97; 98; 99; 100] 0);
      [by_eval|by_eval|simpl; lia].
Defined.

(** ** strnlen *)

Lemma strnlen_loop m p l n : forall k i,
  bytes_at m (p + i) l -> Forall (fun b => b <> 0) l -> n = i + Z.of_nat (length l) ->
  m !! (p + n) = None -> (length l < k)%nat ->
  loop k (fun i => b ← load m (p + i);
    if negb (b =? 0) && (i <? n) then Done (inl (i + 1)) else Done (inr i)) i = Fail UB.
Proof.
  induction l as [|b l IH]; intros k i Hl Hnz Hn Hend Hk;
    (destruct k as [|k]; [simpl in Hk; lia|]); rewrite loop_S; cbn beta.
  - rewrite Z.add_0_r in Hn. subst n. by rewrite (load_None _ _ Hend).
  - apply bytes_at_cons in Hl as [Hb Hl]. apply Forall_cons_iff in Hnz as [Hb0 Hnz].
    simpl in Hn. rewrite (load_Some _ _ _ Hb), bind_Done.
    rewrite (proj2 (Z.eqb_neq b 0)) by done. rewrite (proj2 (Z.ltb_lt i n)) by lia. simpl.
    apply IH; [by rewrite Z.add_assoc|done|lia|done|simpl in Hk; lia].
Qed.

(** strnlen reads past its bound: when the [n > 0] bytes it may look at hold no
    NUL, it still reads the byte after them, so with a buffer that ends there
    (the case the bound exists for) the access is out of bounds. *)
Theorem strnlen_overreads m p l :
  l <> [] -> bytes_at m p l -> Forall (fun b => b <> 0) l ->
  m !! (p + Z.of_nat (length l)) = None ->
  strnlen m p (Z.of_nat (length l)) = Fail UB.
Proof.
  intros Hne Hl Hnz Hend. destruct l as [|b l]; [done|]. unfold strnlen.
  pose proof Hl as [Hb Hl']%bytes_at_cons. apply Forall_cons_iff in Hnz as [Hb0 Hnz].
  rewrite (load_Some _ _ _ Hb), bind_Done, (proj2 (Z.eqb_neq b 0)) by done.
  rewrite of_nat_eqb_0. simpl (_ || _). cbn iota. rewrite count_fuel_of_nat.
  apply (strnlen_loop m p l); [done|done|simpl; lia|done|simpl; lia].
Qed.

Lemma strnlen_overreads_witness : strnlen (mem_of 1 [97; 98]) 1 2 = Fail UB.
Proof.
  apply (strnlen_overreads _ 1 [97; 98]); [done|by_eval| |reflexivity].
  repeat constructor; lia.
Defined.

(** ** stricmp *)

(** The lower-case form of a byte. *)
Definition lc (b : Z) : Z := if upper_spec b then b + 32 else b.

Lemma lc_range b : 0 <= b < 256 -> 0 <= lc b < 256.
Proof. unfold lc, upper_spec, in_range. intros. case_match; bool_to_prop; lia. Qed.

Lemma lc_0 b : 0 <= b < 256 -> lc b = 0 <-> b = 0.
Proof. unfold lc, upper_spec, in_range. intros. case_match; bool_to_prop; lia. Qed.

Lemma tolower_lc b : 0 <= b < 256 -> tolower b = Done (lc b).
Proof. intros. by rewrite tolower_spec. Qed.

Lemma stricmp_loop s1 : forall s2 m p1 p2 fuel,
  cstr m p1 s1 -> cstr m p2 s2 -> (length s1 < fuel)%nat ->
  loop fuel (fun '(s1, s2) =>
    b1 ← load m s1;
    b2 ← load m s2;
    l1 ← tolower b1;
    l2 ← tolower b2;
    if l1 =? l2 then
      if b1 =? 0 then Done (inr 0) else Done (inl (s1 + 1, s2 + 1))
    else Done (inr (l1 - l2))) (p1, p2) =
  Done (first_diff (map lc s1 ++ [0]) (map lc s2 ++ [0])).
Proof.
  induction s1 as [|b1 s1 IH]; intros s2 m p1 p2 fuel H1 H2 Hf; str_round H1 Hf;
    (destruct s2 as [|b2 s2];
      [apply cstr_nil in H2; rewrite (load_Some _ _ _ H2), bind_Done
      |apply cstr_cons in H2 as (Hb2 & Hp2 & H2); rewrite (load_Some _ _ _ Hp2), bind_Done]);
    rewrite !tolower_lc, !bind_Done by lia; simpl; change (lc 0) with 0.
  - done.
  - rewrite (proj2 (Z.eqb_neq 0 (lc b2))); [done|]. pose proof (lc_0 b2). lia.
  - rewrite (proj2 (Z.eqb_neq (lc b1) 0)); [done|]. pose proof (lc_0 b1). lia.
  - destruct (lc b1 =? lc b2); [|done]. apply IH; [done|done|simpl in Hf; lia].
Qed.

Lemma str_ok_lc s : str_ok s -> str_ok (map lc s).
Proof.
  induction s as [|b s IH]; [done|]. intros [Hb Hs]%str_ok_cons. simpl.
  apply str_ok_cons. split; [|auto]. pose proof (lc_range b). pose proof (lc_0 b). lia.
Qed.

(** strcasecmp orders strings as strcmp orders their lower-case forms: 0 exactly
    for strings that differ only in the case of ASCII letters. *)
Theorem strcasecmp_correct m p1 p2 s1 s2 :
  cstr m p1 s1 -> cstr m p2 s2 ->
  exists r, strcasecmp m p1 p2 = Done r /\
    r = first_diff (map lc s1 ++ [0]) (map lc s2 ++ [0]) /\
    (r = 0 <-> map lc s1 = map lc s2).
Proof.
  intros H1 H2. eexists. split_and!; [|reflexivity|].
  - apply stricmp_loop; [done|done|]. apply cstr_fuel in H1. lia.
  - apply first_diff_nul; apply str_ok_lc; [apply H1|apply H2].
Qed.

Lemma strcasecmp_correct_witness :
  strcasecmp (write_bytes (mem_of 1 [65; 98; 0]) 8 [97; 66; 0]) 1 8 = Done 0.
Proof.
  destruct (strcasecmp_correct (write_bytes (mem_of 1 [65; 98; 0]) 8 [97; 66; 0])
    1 8 [65; 98] [97; 66]) as (r & E & -> & _); [by_eval|by_eval|]. exact E.
Defined.

(** ** strtok_r *)

Lemma span_len_le P s : (span_len P s <= length s)%nat.
Proof. induction s as [|b s IH]; simpl; [done|]. case_match; lia. Qed.

Lemma span_len_next P s :
  match drop (span_len P s) s with [] => True | b :: _ => P b = false end.
Proof. induction s as [|b s IH]; simpl; [done|]. destruct (P b) eqn:E; simpl; done. Qed.

Lemma memb_set_nul b set : b <> 0 -> memb b (set ++ [0]) = memb b set.
Proof.
  intros Hb. unfold memb. rewrite existsb_app. simpl.
  rewrite (proj2 (Z.eqb_neq b 0)) by done. by rewrite !orb_false_r.
Qed.

(** The loop that skips leading delimiters. *)
Lemma strtok_skip m delim set s : forall p fuel,
  cstr m delim set -> cstr m p s -> (length s < fuel)%nat ->
  loop fuel (tok_skip_body m delim) p =
  let i := span_len (fun b => memb b set) s in
  Done (hd 0 (drop i s), p + Z.of_nat i + 1).
Proof.
  induction s as [|b s IH]; intros p fuel Hd Hc Hf;
    (destruct fuel as [|fuel]; [simpl in Hf; lia|]); rewrite loop_S;
    (unfold tok_skip_body at 1 || unfold tok_scan_body at 1);
    [apply cstr_nil in Hc; rewrite (load_Some _ _ _ Hc), bind_Done
    |apply cstr_cons in Hc as (Hb & Hp & Hc); rewrite (load_Some _ _ _ Hp), bind_Done];
    cbn zeta; rewrite (span_for_spec _ _ _ _ Hd), bind_Done.
  - destruct (memb 0 set) eqn:E.
    { apply memb_In in E. destruct Hd as [_ Hok]. apply (str_ok_elem _ _ Hok) in E. lia. }
    simpl. do 2 f_equal. lia.
  - simpl. destruct (memb b set).
    + rewrite IH by (simpl in Hf; done || lia). simpl. do 2 f_equal. lia.
    + simpl. do 2 f_equal. lia.
Qed.

(** The loop that scans the token. *)
Lemma strtok_scan m delim set tok s : forall p fuel,
  cstr m delim set -> cstr m p s -> (length s < fuel)%nat ->
  loop fuel (tok_scan_body m delim tok) p =
  let k := span_len (fun b => negb (memb b set)) s in
  if (k =? length s)%nat then Done (m, tok, 0)
  else Done (<[p + Z.of_nat k := 0]> m, tok, p + Z.of_nat k + 1).
Proof.
  induction s as [|b s IH]; intros p fuel Hd Hc Hf;
    (destruct fuel as [|fuel]; [simpl in Hf; lia|]); rewrite loop_S;
    (unfold tok_skip_body at 1 || unfold tok_scan_body at 1);
    [apply cstr_nil in Hc; rewrite (load_Some _ _ _ Hc), bind_Done
    |apply cstr_cons in Hc as (Hb & Hp & Hc); rewrite (load_Some _ _ _ Hp), bind_Done];
    cbn zeta; rewrite (span_do_spec _ _ _ _ Hd), bind_Done.
  - replace (memb 0 (set ++ [0])) with true; [done|]. symmetry. apply memb_In. set_solver.
  - rewrite memb_set_nul by lia. simpl. destruct (memb b set); simpl.
    + rewrite (proj2 (Z.eqb_neq b 0)) by lia.
      replace (p + 1 - 1) with p by lia. rewrite store_Some by eauto.
      simpl. by rewrite Z.add_0_r.
    + rewrite IH by (simpl in Hf; done || lia). simpl.
      case_match; [done|]. by replace (p + Z.of_nat (S (span_len (λ b0, negb (memb b0 set)) s)))
        with (p + 1 + Z.of_nat (span_len (λ b0, negb (memb b0 set)) s)) by lia.
Qed.

(** A token cut out of the middle of a string leaves two strings. *)
Lemma cstr_cut m p s k :
  cstr m p s -> (k < length s)%nat ->
  cstr (<[p + Z.of_nat k := 0]> m) p (take k s) /\
  cstr (<[p + Z.of_nat k := 0]> m) (p + Z.of_nat k + 1) (drop (S k) s).
Proof.
  intros Hc Hk. split.
  - destruct (take_snoc_cstr _ _ _ k Hc ltac:(lia)) as [Hb _]. split.
    + assert (Hl : length (take k s) = k) by (rewrite length_take; lia).
      apply bytes_at_app. rewrite Hl. split.
      * apply bytes_at_insert_out; [done|lia].
      * apply bytes_at_cons. split; [apply lookup_insert_eq|apply bytes_at_nil].
    + destruct Hc as [_ Hok]. rewrite <- (take_drop k s) in Hok.
      by apply str_ok_app in Hok as [? _].
  - apply cstr_insert_out; [|lia].
    replace (p + Z.of_nat k + 1) with (p + Z.of_nat (S k)) by lia.
    apply cstr_drop; [done|lia].
Qed.

(** strtok_r cuts off one token: it skips the leading delimiters; if nothing is
    left it returns NULL and stores NULL for the next call; otherwise it returns
    the first maximal run of non-delimiters as a terminated string, overwriting
    only the delimiter after it, and leaves the rest of the string for the next
    call (NULL when the token was the last). *)
Theorem strtok_r_correct m s delim last str set :
  s <> 0 -> cstr m s str -> cstr m delim set ->
  let i := span_len (fun b => memb b set) str in
  let rest := drop i str in
  let k := span_len (fun b => negb (memb b set)) rest in
  let tok := s + Z.of_nat i in
  if (length rest =? 0)%nat then strtok_r m s delim last = Done (m, 0, 0)
  else if (k =? length rest)%nat then
    strtok_r m s delim last = Done (m, tok, 0) /\ cstr m tok rest
  else
    let m' := <[tok + Z.of_nat k := 0]> m in
    let next := tok + Z.of_nat k + 1 in
    strtok_r m s delim last = Done (m', tok, next) /\
    cstr m' tok (take k rest) /\ cstr m' next (drop (S k) rest).
Proof.
  intros Hs Hc Hd. cbn zeta. pose proof (span_len_le (fun b => memb b set) str) as Hi.
  pose proof (span_len_next (fun b => memb b set) str) as Hnext.
  unfold strtok_r. rewrite (proj2 (Z.eqb_neq s 0)) by done. cbn zeta iota.
  rewrite (proj2 (Z.eqb_neq s 0)) by done.
  rewrite (strtok_skip m delim set str) by (done || (apply cstr_fuel in Hc; lia)).
  cbn zeta. rewrite bind_Done. apply (cstr_drop _ _ _ _ Hc) in Hi.
  revert Hi Hnext. generalize (span_len (fun b => memb b set) str) as i. intros i Hr Hnext.
  destruct (drop i str) as [|b rest] eqn:Er; [done|]. simpl (length _ =? 0)%nat. cbn iota.
  pose proof Hr as (Hb & _ & Hr')%cstr_cons.
  cbn [hd]. rewrite (proj2 (Z.eqb_neq b 0)) by lia.
  replace (s + Z.of_nat i + 1 - 1) with (s + Z.of_nat i) by lia.
  rewrite (strtok_scan m delim set _ rest) by (done || (apply cstr_fuel in Hr'; lia)).
  cbn zeta. cbn [span_len]. rewrite Hnext. cbn [negb length].
  set (k := span_len _ rest). simpl (S k =? S _)%nat.
  destruct (k =? length rest)%nat eqn:Ek; [by split|]. apply Nat.eqb_neq in Ek.
  pose proof (span_len_le (fun b => negb (memb b set)) rest) as Hk. fold k in Hk.
  replace (s + Z.of_nat i + 1 + Z.of_nat k) with (s + Z.of_nat i + Z.of_nat (S k)) by lia.
  split; [done|]. apply cstr_cut; [done|]. simpl. lia.
Qed.

(** [strtok_r("/a/b", "/")] is ["a"], with ["b"] left for the next call. *)
Lemma strtok_r_correct_witness :
  let m := write_bytes (mem_of 1 [47; 97; 47; 98; 0]) 8 [47; 0] in
  strtok_r m 1 8 0 = Done (<[3 := 0]> m, 2, 4).
Proof.
  apply (strtok_r_correct (write_bytes (mem_of 1 [47; 97; 47; 98; 0]) 8 [47; 0])
    1 8 0 [47; 97; 47; 98] [47]); [lia|by_eval|by_eval].
Defined.
