(* ===== verification/ThunkState.v ===== *)
(** * The state of the dj64 thunk layer (src/libc/dj64/thunks.c)

    The heart of dj64: 64-bit C code is entered from DOS code through
    [dj64_call], calls back into it through [dj64_asm_call], and passes objects
    of the 64-bit side as copies in DOS memory ([dj64_obj_init] and
    [dj64_obj_done]). A call of either side may be nested in a call of the other;
    [dj64_asm_noret] and an aborted assembler call leave the C code by [longjmp].

    - The host (dosemu2's dj64api and the ELF loader's [elf_ops]) is not part of
      this repository: it is the type class [Dj64Api] and the record [elf_ops].
    - The C program behind [u->disp[libid]] and the DOS program behind
      [dj64api->asm_call] are arbitrary: trees of the requests they make
      ([client], [host]) over which the thunk layer is interpreted.
    - A [jmp_buf] is the number of the frame that called [setjmp]; [Jump] is a
      [longjmp] in flight, which unwinds to that frame.
    - The log output (djlogprintf, djloudprintf) is not modelled. *)

From stdpp Require Import base gmap list.
From Stdlib Require Import ZArith Lia.
From S2P Require Import Prelude.

Open Scope Z_scope.

Definition MAX_DISPS : Z := 5.
Definition MAX_OBJS : Z := 50.
Definition MAX_RECUR : Z := 10.
Definition MAX_HANDLES : Z := 10.
Definition MAX_CTX_HOOKS : Z := 100.
Definition MAX_INIT_HOOKS : Z := 10.

Definition ASM_NORET : Z := 1.
Definition ASM_ABORT : Z := 2.
Definition _TFLG_NORET : Z := 2.
Definition DJ64_DYNAPI_VER : Z := 2.
Definition DL_SET_SYMTAB : Z := 0.
Definition DL_ELFLOAD : Z := 1.
Definition DL_ELFLOAD_FD : Z := 2.
Definition DL_API_VER : Z := 1.
Definition SIFLG_SPLITPL : Z := 2 ^ 17.

(** (uint32_t)-1 *)
Definition NOT_FOUND : Z := 2 ^ 32 - 1.

(** The registers of [dpmi_regs] that thunks.c uses, and the others. *)
Record dpmi_regs := mk_regs {
  eax : Z; ebx : Z; ecx : Z; edx : Z; esi : Z; other_regs : list Z }.

Definition set_eax (r : dpmi_regs) (v : Z) : dpmi_regs :=
  mk_regs v (ebx r) (ecx r) (edx r) (esi r) (other_regs r).

(** struct athunks: [num] names of assembler symbols and the table of their
    addresses; an entry that was never assigned is [None]. *)
Record athunks := mk_athunks {
  at_at : list (list Z);
  at_num : Z;
  at_tab : option (list (option Z)) }.

(** A [struct athunks *]: the two tables in a [struct udisp], or one that a
    client library registered. *)
Inductive at_ptr :=
  | CoreAt (handle : Z)
  | CorePt (handle : Z)
  | UserAt (id : Z).

(** struct elf_ops, the ELF loader. [None] is a NULL result. [reloc] yields its
    return code, the entry point and the memory. *)
Record elf_ops := mk_elf_ops {
  eo_open : Z -> Z -> option Z;
  eo_open_dyn : Z -> Z -> option Z;
  eo_getsym : Z -> list Z -> Z;
  eo_elfparse64_h : Z -> option (Z * Z);
  eo_elfparse64 : Z -> option (Z * Z);
  eo_reloc : Z -> gmap Z Z -> Z -> Z -> Z -> Z * Z * gmap Z Z;
  eo_exec_self : Z;
  eo_exec64 : Z -> Z -> Z -> Z }.

(** What DOS code does while it runs: it writes memory, enters the 64-bit side
    through one of the two entries of [dops], and returns. *)
Inductive host :=
  | HRet (rc : Z) (regs : dpmi_regs)
  | HMem (f : gmap Z Z -> gmap Z Z) (k : host)
  | HCall (handle libid fn esi sp : Z) (regs : dpmi_regs) (k : Z -> dpmi_regs -> host)
  | HCtrl (handle libid fn esi : Z) (regs : dpmi_regs) (k : Z -> dpmi_regs -> host).

(** The host: djdev64/dj64init.h (constants) and struct dj64_api (functions),
    the DOS heap behind malloc32 and free32, and the thunk tables that the build
    generates from the sources' assembler symbols. *)
Class Dj64Api := {
  DJ64_RET_OK : Z;
  DJ64_RET_NORET : Z;
  DJ64_RET_ABORT : Z;
  ASM_CALL_OK : Z;
  ASM_CALL_ABORT : Z;
  DJ64_API_MIN_VER : Z;
  sizeof_regs : Z;
  djgpp_base_address : Z;
  addr2ptr : Z -> Z;
  addr2ptr2 : Z -> Z -> Z;
  ptr2addr : Z -> Z;
  is_dos_ptr : Z -> bool;
  (** the handle reported while a call of the given handle is being served *)
  get_handle : Z -> Z;
  asm_call : gmap Z Z -> dpmi_regs -> Z -> Z -> Z -> Z -> host;
  asm_noret : gmap Z Z -> dpmi_regs -> Z -> Z -> Z -> Z -> host;
  (** whether [dj64api->malloc] of that many bytes succeeds *)
  api_malloc : Z -> bool;
  api_elfload : Z -> Z -> Z -> Z;
  (** the address for a block of the given size, 0 when there is none, as malloc32 of
      nmalloc.c reports it, which is [NmHeap.malloc32] *)
  malloc32 : gset Z -> Z -> Z;
  asm_thunks : athunks;
  pthunks : athunks;
  ret_noret_ne : DJ64_RET_NORET <> DJ64_RET_OK;
  ret_abort_ne : DJ64_RET_ABORT <> DJ64_RET_OK;
  asm_call_ne : ASM_CALL_ABORT <> ASM_CALL_OK }.

Section Types.
Context (C : Type).

(** What the dispatched C code does: it works on its memory and on the libc's
    context, uses the thunk layer, and returns [res] with [*r_len = len]. *)
Inductive client :=
  | CRet (res len : Z)
  | CMem (f : gmap Z Z -> gmap Z Z) (k : client)
  | CCtx (f : C -> C) (k : client)
  | CObjInit (data len : Z) (is_out : bool) (k : Z -> client)
  | CObjDone (data fa len : Z) (k : client)
  | CRmObj (data fa : Z) (k : client)
  | CAsmCall (num sp len flags : Z) (k : Z -> client)
  | CAsmCallU (handle libid num sp len flags : Z) (k : Z -> client)
  | CAsmNoret (num sp len flags : Z)
  | CAsmNoretU (handle libid num sp len flags : Z).

Definition disp_t := Z -> Z -> client.

(** struct ctx_hooks: functions on the libc's context. *)
Record ctx_hooks := mk_hooks {
  ch_init : Z -> C -> outcome C;
  ch_deinit : C -> outcome C;
  ch_save : C -> outcome C;
  ch_restore : Z -> C -> outcome C }.

(** struct udisp *)
Record udisp := mk_udisp {
  u_disp : list (option disp_t);
  u_eops : option elf_ops;
  u_at : list (option at_ptr);
  u_pt : list (option at_ptr);
  u_core_at : athunks;
  u_core_pt : athunks;
  u_cs : Z;
  u_main : Z;
  u_full_init : Z;
  u_s_regs : dpmi_regs;
  u_recur_cnt : Z;
  u_objcnt : Z;
  u_noret_jmp : option nat;
  u_objs : list (list Z) }.

(** The static variables of thunks.c, and what they reach: the memory, the DOS
    heap, the libc's context, the open ELF handles. *)
Record world := mk_world {
  udisps : list udisp;
  dj64api : bool;
  dj64api_ver : Z;
  disp_fn : option disp_t;
  u_athunks : option at_ptr;
  u_pthunks : option at_ptr;
  u_handle_p : option Z;
  u_libid_p : option Z;
  fatalerr : Z;
  dynapi_mism : Z;
  req_da_ver : Z;
  chooks : list ctx_hooks;
  ihooks : list (C -> outcome C);
  w_thunks : gmap Z athunks;
  w_vars : gmap Z Z;
  w_startup_flags : Z;
  w_ctx : C;
  w_mem : gmap Z Z;
  w_heap : gset Z;
  w_elf : list Z;
  w_frames : nat }.

(** A call returns, or a [longjmp] to the frame [f] is under way, or the program
    was ended with [dj64api->exit]. *)
Inductive res (A : Type) :=
  | Ret (a : A)
  | Jump (f : nat) (code : Z)
  | Exit (status : Z).

End Types.

Arguments CRet {C}. Arguments CMem {C}. Arguments CCtx {C}. Arguments CObjInit {C}.
Arguments CObjDone {C}. Arguments CRmObj {C}. Arguments CAsmCall {C}.
Arguments CAsmCallU {C}. Arguments CAsmNoret {C}. Arguments CAsmNoretU {C}.
Arguments mk_hooks {C}. Arguments ch_init {C}. Arguments ch_deinit {C}.
Arguments ch_save {C}. Arguments ch_restore {C}. Arguments mk_udisp {C}.
Arguments mk_world {C}. Arguments u_disp {C}. Arguments u_eops {C}. Arguments
u_at {C}. Arguments u_pt {C}. Arguments u_core_at {C}. Arguments u_core_pt
{C}. Arguments u_cs {C}. Arguments u_main {C}. Arguments u_full_init {C}.
Arguments u_s_regs {C}. Arguments u_recur_cnt {C}. Arguments u_objcnt {C}.
Arguments u_noret_jmp {C}. Arguments u_objs {C}. Arguments udisps {C}.
Arguments dj64api {C}. Arguments dj64api_ver {C}. Arguments disp_fn {C}.
Arguments u_athunks {C}. Arguments u_pthunks {C}. Arguments u_handle_p {C}.
Arguments u_libid_p {C}. Arguments fatalerr {C}. Arguments dynapi_mism {C}.
Arguments req_da_ver {C}. Arguments chooks {C}. Arguments ihooks {C}.
Arguments w_thunks {C}. Arguments w_vars {C}. Arguments w_startup_flags {C}.
Arguments w_ctx {C}. Arguments w_mem {C}. Arguments w_heap {C}. Arguments
w_elf {C}. Arguments w_frames {C}.
Arguments Ret {A}. Arguments Jump {A}. Arguments Exit {A}.

Section Setters.
Context {C : Type}.

(** ** Assignments to the fields of the two records *)

Definition set_core_at (u : udisp C) v0 : udisp C :=
  mk_udisp (u_disp u) (u_eops u) (u_at u) (u_pt u) v0 (u_core_pt u) (u_cs u)
    (u_main u) (u_full_init u) (u_s_regs u) (u_recur_cnt u) (u_objcnt u)
    (u_noret_jmp u) (u_objs u).

Definition set_core_pt (u : udisp C) v0 : udisp C :=
  mk_udisp (u_disp u) (u_eops u) (u_at u) (u_pt u) (u_core_at u) v0 (u_cs u)
    (u_main u) (u_full_init u) (u_s_regs u) (u_recur_cnt u) (u_objcnt u)
    (u_noret_jmp u) (u_objs u).

Definition set_cs (u : udisp C) v0 : udisp C :=
  mk_udisp (u_disp u) (u_eops u) (u_at u) (u_pt u) (u_core_at u) (u_core_pt
    u) v0 (u_main u) (u_full_init u) (u_s_regs u) (u_recur_cnt u) (u_objcnt
    u) (u_noret_jmp u) (u_objs u).

Definition set_s_regs (u : udisp C) v0 : udisp C :=
  mk_udisp (u_disp u) (u_eops u) (u_at u) (u_pt u) (u_core_at u) (u_core_pt
    u) (u_cs u) (u_main u) (u_full_init u) v0 (u_recur_cnt u) (u_objcnt u)
    (u_noret_jmp u) (u_objs u).

Definition set_recur_cnt (u : udisp C) v0 : udisp C :=
  mk_udisp (u_disp u) (u_eops u) (u_at u) (u_pt u) (u_core_at u) (u_core_pt
    u) (u_cs u) (u_main u) (u_full_init u) (u_s_regs u) v0 (u_objcnt u)
    (u_noret_jmp u) (u_objs u).

Definition set_objs (u : udisp C) v0 v1 : udisp C :=
  mk_udisp (u_disp u) (u_eops u) (u_at u) (u_pt u) (u_core_at u) (u_core_pt
    u) (u_cs u) (u_main u) (u_full_init u) (u_s_regs u) (u_recur_cnt u) v0
    (u_noret_jmp u) v1.

Definition set_noret_jmp (u : udisp C) v0 : udisp C :=
  mk_udisp (u_disp u) (u_eops u) (u_at u) (u_pt u) (u_core_at u) (u_core_pt
    u) (u_cs u) (u_main u) (u_full_init u) (u_s_regs u) (u_recur_cnt u)
    (u_objcnt u) v0 (u_objs u).

Definition set_udisps (w : world C) v0 : world C :=
  mk_world v0 (dj64api w) (dj64api_ver w) (disp_fn w) (u_athunks w)
    (u_pthunks w) (u_handle_p w) (u_libid_p w) (fatalerr w) (dynapi_mism w)
    (req_da_ver w) (chooks w) (ihooks w) (w_thunks w) (w_vars w)
    (w_startup_flags w) (w_ctx w) (w_mem w) (w_heap w) (w_elf w) (w_frames
    w).

Definition set_thunks (w : world C) v0 : world C :=
  mk_world (udisps w) (dj64api w) (dj64api_ver w) (disp_fn w) (u_athunks w)
    (u_pthunks w) (u_handle_p w) (u_libid_p w) (fatalerr w) (dynapi_mism w)
    (req_da_ver w) (chooks w) (ihooks w) v0 (w_vars w) (w_startup_flags w)
    (w_ctx w) (w_mem w) (w_heap w) (w_elf w) (w_frames w).

Definition set_vars (w : world C) v0 : world C :=
  mk_world (udisps w) (dj64api w) (dj64api_ver w) (disp_fn w) (u_athunks w)
    (u_pthunks w) (u_handle_p w) (u_libid_p w) (fatalerr w) (dynapi_mism w)
    (req_da_ver w) (chooks w) (ihooks w) (w_thunks w) v0 (w_startup_flags w)
    (w_ctx w) (w_mem w) (w_heap w) (w_elf w) (w_frames w).

Definition set_ctx (w : world C) v0 : world C :=
  mk_world (udisps w) (dj64api w) (dj64api_ver w) (disp_fn w) (u_athunks w)
    (u_pthunks w) (u_handle_p w) (u_libid_p w) (fatalerr w) (dynapi_mism w)
    (req_da_ver w) (chooks w) (ihooks w) (w_thunks w) (w_vars w)
    (w_startup_flags w) v0 (w_mem w) (w_heap w) (w_elf w) (w_frames w).

Definition set_mem (w : world C) v0 : world C :=
  mk_world (udisps w) (dj64api w) (dj64api_ver w) (disp_fn w) (u_athunks w)
    (u_pthunks w) (u_handle_p w) (u_libid_p w) (fatalerr w) (dynapi_mism w)
    (req_da_ver w) (chooks w) (ihooks w) (w_thunks w) (w_vars w)
    (w_startup_flags w) (w_ctx w) v0 (w_heap w) (w_elf w) (w_frames w).

Definition set_heap (w : world C) v0 : world C :=
  mk_world (udisps w) (dj64api w) (dj64api_ver w) (disp_fn w) (u_athunks w)
    (u_pthunks w) (u_handle_p w) (u_libid_p w) (fatalerr w) (dynapi_mism w)
    (req_da_ver w) (chooks w) (ihooks w) (w_thunks w) (w_vars w)
    (w_startup_flags w) (w_ctx w) (w_mem w) v0 (w_elf w) (w_frames w).

Definition set_elf (w : world C) v0 : world C :=
  mk_world (udisps w) (dj64api w) (dj64api_ver w) (disp_fn w) (u_athunks w)
    (u_pthunks w) (u_handle_p w) (u_libid_p w) (fatalerr w) (dynapi_mism w)
    (req_da_ver w) (chooks w) (ihooks w) (w_thunks w) (w_vars w)
    (w_startup_flags w) (w_ctx w) (w_mem w) (w_heap w) v0 (w_frames w).

Definition set_frames (w : world C) v0 : world C :=
  mk_world (udisps w) (dj64api w) (dj64api_ver w) (disp_fn w) (u_athunks w)
    (u_pthunks w) (u_handle_p w) (u_libid_p w) (fatalerr w) (dynapi_mism w)
    (req_da_ver w) (chooks w) (ihooks w) (w_thunks w) (w_vars w)
    (w_startup_flags w) (w_ctx w) (w_mem w) (w_heap w) (w_elf w) v0.

Definition set_chooks (w : world C) v0 : world C :=
  mk_world (udisps w) (dj64api w) (dj64api_ver w) (disp_fn w) (u_athunks w)
    (u_pthunks w) (u_handle_p w) (u_libid_p w) (fatalerr w) (dynapi_mism w)
    (req_da_ver w) v0 (ihooks w) (w_thunks w) (w_vars w) (w_startup_flags w)
    (w_ctx w) (w_mem w) (w_heap w) (w_elf w) (w_frames w).

Definition set_ihooks (w : world C) v0 : world C :=
  mk_world (udisps w) (dj64api w) (dj64api_ver w) (disp_fn w) (u_athunks w)
    (u_pthunks w) (u_handle_p w) (u_libid_p w) (fatalerr w) (dynapi_mism w)
    (req_da_ver w) (chooks w) v0 (w_thunks w) (w_vars w) (w_startup_flags w)
    (w_ctx w) (w_mem w) (w_heap w) (w_elf w) (w_frames w).

Definition set_registered (w : world C) v0 v1 v2 v3 v4 : world C :=
  mk_world (udisps w) (dj64api w) (dj64api_ver w) v0 v1 v2 v3 v4 (fatalerr
    w) (dynapi_mism w) (req_da_ver w) (chooks w) (ihooks w) (w_thunks w)
    (w_vars w) (w_startup_flags w) (w_ctx w) (w_mem w) (w_heap w) (w_elf w)
    (w_frames w).

Definition set_mism (w : world C) v0 v1 v2 : world C :=
  mk_world (udisps w) (dj64api w) (dj64api_ver w) (disp_fn w) (u_athunks w)
    (u_pthunks w) (u_handle_p w) (u_libid_p w) v0 v1 v2 (chooks w) (ihooks
    w) (w_thunks w) (w_vars w) (w_startup_flags w) (w_ctx w) (w_mem w)
    (w_heap w) (w_elf w) (w_frames w).

Definition set_api (w : world C) v0 v1 : world C :=
  mk_world (udisps w) v0 v1 (disp_fn w) (u_athunks w) (u_pthunks w)
    (u_handle_p w) (u_libid_p w) (fatalerr w) (dynapi_mism w) (req_da_ver w)
    (chooks w) (ihooks w) (w_thunks w) (w_vars w) (w_startup_flags w) (w_ctx
    w) (w_mem w) (w_heap w) (w_elf w) (w_frames w).

End Setters.
