(* ===== verification/Thunks.v ===== *)
(** * The operations of the dj64 thunk layer (src/libc/dj64/thunks.c, dosobj.c)

    Every function of the two files that does more than log. The recursion
    through [disp] and [asm_call] is bounded by the code itself: [dj64_call]
    asserts [recur_cnt < MAX_RECUR]; the fuel of [dj64_call] is the depth of
    nested calls. *)

From Stdlib Require Import String.
From stdpp Require Import base gmap list.
From Stdlib Require Import ZArith Lia.
From S2P Require Import Prelude MemFuns ThunkState.

Open Scope Z_scope.
Open Scope c_scope.

(** [l[i]] of an array *)
Definition arr_get {A} (l : list A) (i : Z) : outcome A :=
  if i <? 0 then Fail UB
  else match l !! Z.to_nat i with Some a => Done a | None => Fail UB end.

(** [*p] for a pointer that may be NULL *)
Definition deref {A} (p : option A) : outcome A :=
  match p with Some a => Done a | None => Fail UB end.

(** The four bytes of a 32-bit value. *)
Definition le32 (v : Z) : list Z :=
  [byte v; byte (Z.shiftr v 8); byte (Z.shiftr v 16); byte (Z.shiftr v 24)].

(** ** Thunk tables *)

(** [at->tab[i]] *)
Definition tab_get (t : athunks) (i : Z) : outcome Z :=
  tab ← deref (at_tab t); e ← arr_get tab i; deref e.

(** [at->tab[i] = v] *)
Definition tab_set (t : athunks) (i v : Z) : outcome athunks :=
  tab ← deref (at_tab t);
  _ ← arr_get tab i;
  Done (mk_athunks (at_at t) (at_num t) (Some (<[Z.to_nat i := Some v]> tab))).

Definition process_athunks (t : athunks) (mem_base : Z) (eops : elf_ops) (eh : Z)
  : outcome (athunks * Z) :=
  loop (S (Z.to_nat (at_num t))) (fun '(t, i) =>
    if i <? at_num t then
      name ← arr_get (at_at t) i;
      let off := eo_getsym eops eh name in
      if negb (off =? 0) then
        t' ← tab_set t i (wrap_u 32 (mem_base + off));
        Done (inl (t', i + 1))
      else Done (inr (t, -1))
    else Done (inr (t, 0))) (t, 0).

Definition process_pthunks (t : athunks) (eops : elf_ops) (eh : Z)
  : outcome (athunks * Z) :=
  loop (S (Z.to_nat (at_num t))) (fun '(t, i) =>
    if i <? at_num t then
      name ← arr_get (at_at t) i;
      t' ← tab_set t i (eo_getsym eops eh name);
      v ← tab_get t' i;
      if v =? 0 then Done (inr (t', -1)) else Done (inl (t', i + 1))
    else Done (inr (t, 0))) (t, 0).

Definition do_thunk_get (t : athunks) (name : list Z) : outcome Z :=
  loop (S (Z.to_nat (at_num t))) (fun i =>
    if i <? at_num t then
      n ← arr_get (at_at t) i;
      if bool_decide (n = name) then v ← tab_get t i; Done (inr v)
      else Done (inl (i + 1))
    else Done (inr NOT_FOUND)) 0.

(** [find_oh]: the index of [addr] in the objects of the current level *)
Definition find_oh (addr : Z) (objs : list (list Z)) (recur_cnt : Z)
  : outcome (option nat) :=
  row ← arr_get objs (recur_cnt - 1);
  Done (find_index (fun o => o =? addr) row).

Section Ops.
Context {C : Type} {api : Dj64Api}.

(** ** The static arrays *)

(** [&udisps[handle]] *)
Definition get_udisp (w : world C) (handle : Z) : outcome (udisp C) :=
  arr_get (udisps w) handle.

Definition put_udisp (w : world C) (handle : Z) (u : udisp C) : world C :=
  set_udisps w (<[Z.to_nat handle := u]> (udisps w)).

Definition get_at (w : world C) (p : at_ptr) : outcome athunks :=
  match p with
  | CoreAt h => u ← get_udisp w h; Done (u_core_at u)
  | CorePt h => u ← get_udisp w h; Done (u_core_pt u)
  | UserAt id => deref (w_thunks w !! id)
  end.

Definition put_at (w : world C) (p : at_ptr) (t : athunks) : outcome (world C) :=
  match p with
  | CoreAt h => u ← get_udisp w h; Done (put_udisp w h (set_core_at u t))
  | CorePt h => u ← get_udisp w h; Done (put_udisp w h (set_core_pt u t))
  | UserAt id => Done (set_thunks w (<[id := t]> (w_thunks w)))
  end.

(** ** Context hooks *)

(** [for (i = 0; i < num_chooks; i++) chooks[i].f(...)] *)
Fixpoint run_hooks (f : ctx_hooks C -> C -> outcome C) (l : list (ctx_hooks C))
    (c : C) : outcome C :=
  match l with
  | [] => Done c
  | h :: l' => c' ← f h c; run_hooks f l' c'
  end.

Definition hooks_init (w : world C) (handle : Z) : outcome (world C) :=
  c ← run_hooks (fun h => ch_init h handle) (chooks w) (w_ctx w); Done (set_ctx w c).

Definition hooks_deinit (w : world C) : outcome (world C) :=
  c ← run_hooks ch_deinit (chooks w) (w_ctx w); Done (set_ctx w c).

Definition hooks_save (w : world C) : outcome (world C) :=
  c ← run_hooks ch_save (chooks w) (w_ctx w); Done (set_ctx w c).

Definition hooks_restore (w : world C) (handle : Z) : outcome (world C) :=
  c ← run_hooks (fun h => ch_restore h handle) (chooks w) (w_ctx w);
  Done (set_ctx w c).

Definition djregister_ctx_hooks (w : world C) (h : ctx_hooks C) : outcome (world C) :=
  _ ← c_assert (Z.of_nat (length (chooks w)) <? MAX_CTX_HOOKS);
  Done (set_chooks w (chooks w ++ [h])).

Definition djregister_init_hook (w : world C) (hook : C -> outcome C)
  : outcome (world C) :=
  _ ← c_assert (Z.of_nat (length (ihooks w)) <? MAX_INIT_HOOKS);
  Done (set_ihooks w (ihooks w ++ [hook])).

Definition djprocess_init_hooks (w : world C) : outcome (world C) :=
  c ← foldl (fun c h => c ≫= h) (Done (w_ctx w)) (ihooks w); Done (set_ctx w c).

(** ** Registration of a client library *)

(** A version other than DJ64_DYNAPI_VER is recorded as a fatal error. *)
Definition check_ver (w : world C) (ver : Z) : world C * bool :=
  if negb (ver =? DJ64_DYNAPI_VER) then
    (set_mism w (fatalerr w + 1) (dynapi_mism w + 1) ver, false)
  else (set_mism w (fatalerr w) (dynapi_mism w) ver, true).

Definition is_null {A} (p : option A) : bool :=
  match p with None => true | Some _ => false end.

Definition register_dispatch_fn (w : world C) (fn : disp_t C) (ver : Z)
  : outcome (world C) :=
  let '(w, ok) := check_ver w ver in
  if negb ok then Done w
  else
    _ ← c_assert (is_null (disp_fn w));
    Done (set_registered w (Some fn) (u_athunks w) (u_pthunks w) (u_handle_p w)
      (u_libid_p w)).

Definition register_athunks (w : world C) (t : at_ptr) (ver : Z) : outcome (world C) :=
  let '(w, ok) := check_ver w ver in
  if negb ok then Done w
  else
    _ ← c_assert (is_null (u_athunks w));
    Done (set_registered w (disp_fn w) (Some t) (u_pthunks w) (u_handle_p w)
      (u_libid_p w)).

Definition register_pthunks (w : world C) (pt : at_ptr) (handle_p libid_p : option Z)
    (ver : Z) : outcome (world C) :=
  let '(w, ok) := check_ver w ver in
  if negb ok then Done w
  else
    _ ← c_assert (is_null (u_pthunks w));
    Done (set_registered w (disp_fn w) (u_athunks w) (Some pt) handle_p libid_p).

(** [if (u_handle_p) *u_handle_p = handle; if (u_libid_p) *u_libid_p = id;] and
    the reset of the five variables. *)
Definition take_registered (w : world C) (handle disp_id : Z) : world C :=
  let set p v vars := match p with Some a => <[a := v]> vars | None => vars end in
  let vars := set (u_libid_p w) disp_id (set (u_handle_p w) handle (w_vars w)) in
  set_registered (set_vars w vars) None None None None None.

(** A copy of a thunk table with [tab] freshly allocated. *)
Definition with_new_tab (t : athunks) : athunks :=
  mk_athunks (at_at t) (at_num t)
    (if api_malloc (4 * at_num t) then Some (replicate (Z.to_nat (at_num t)) None)
     else None).

Definition DJ64_INIT_FN (dj64_thunk_call : disp_t C) (w : world C) (handle : Z)
    (ops : option elf_ops) (main full_init : Z) : outcome (world C) :=
  let disp_id := 1%nat in
  _ ← c_assert (handle <? MAX_HANDLES);
  u ← get_udisp w handle;
  let u1 := mk_udisp
    (<[disp_id := disp_fn w]> (<[0%nat := Some dj64_thunk_call]> (u_disp u)))
    ops
    (<[disp_id := u_athunks w]> (<[0%nat := Some (CoreAt handle)]> (u_at u)))
    (<[disp_id := u_pthunks w]> (<[0%nat := Some (CorePt handle)]> (u_pt u)))
    (u_core_at u) (u_core_pt u) (u_cs u) main full_init (u_s_regs u)
    (u_recur_cnt u) (u_objcnt u) (u_noret_jmp u) (u_objs u) in
  let w1 := take_registered (put_udisp w handle u1) handle (Z.of_nat disp_id) in
  w2 ← hooks_init w1 handle;
  Done (put_udisp w2 handle
    (set_core_pt (set_core_at u1 (with_new_tab asm_thunks)) (with_new_tab pthunks))).

Definition DJ64_INIT2_FN (w : world C) (handle disp_id : Z) : outcome (world C * Z) :=
  _ ← c_assert (handle <? MAX_HANDLES);
  _ ← c_assert ((1 <? disp_id) && (disp_id <? MAX_DISPS));
  u ← get_udisp w handle;
  d0 ← arr_get (u_disp u) 0;
  if is_null d0 then Done (w, -1)
  else
    let i := Z.to_nat disp_id in
    let u1 := mk_udisp (<[i := disp_fn w]> (u_disp u)) (u_eops u)
      (<[i := u_athunks w]> (u_at u)) (<[i := u_pthunks w]> (u_pt u))
      (u_core_at u) (u_core_pt u) (u_cs u) (u_main u) (u_full_init u) (u_s_regs u)
      (u_recur_cnt u) (u_objcnt u) (u_noret_jmp u) (u_objs u) in
    Done (take_registered (put_udisp w handle u1) handle disp_id, 0).

(** A freed [tab] must not be used: it is as good as NULL. *)
Definition DJ64_DONE_FN (w : world C) (handle : Z) : outcome (world C) :=
  w1 ← hooks_deinit w;
  _ ← c_assert (handle <? MAX_HANDLES);
  u ← get_udisp w1 handle;
  let free t := mk_athunks (at_at t) (at_num t) None in
  Done (put_udisp w1 handle
    (set_core_pt (set_core_at u (free (u_core_at u))) (free (u_core_pt u)))).

Definition DJ64_INIT_ONCE_FN (w : world C) (api_ver : Z) : world C * Z :=
  if api_ver <? DJ64_API_MIN_VER then (w, -1)
  else
    let ret := if negb (dj64api w) then 1 else 0 in
    let w1 := set_api w true api_ver in
    if negb (fatalerr w =? 0) then (w1, -1) else (w1, ret).

(** ** Addresses *)

Definition djaddr2ptr (addr : Z) : Z := addr2ptr addr.
Definition djaddr2ptr2 (addr len : Z) : Z := addr2ptr2 addr len.
Definition djptr2addr (ptr : Z) : Z := ptr2addr ptr.

(** The macros DATA_PTR and PTR_DATA of include/dpmi.h *)
Definition DATA_PTR (l : Z) : Z := djaddr2ptr (wrap_u 32 (djgpp_base_address + l)).
Definition PTR_DATA (p : Z) : Z := wrap_u 32 (djptr2addr p - djgpp_base_address).

(** The loop of djthunk_get_h over [u->at[i]], with [ret] its variable. *)
Fixpoint thunk_search (w : world C) (l : list (option at_ptr)) (name : list Z) (ret : Z)
  : outcome Z :=
  match l with
  | [] => Done ret
  | None :: l' => thunk_search w l' name ret
  | Some p :: l' =>
      t ← get_at w p;
      ret ← do_thunk_get t name;
      if negb (ret =? NOT_FOUND) then Done ret else thunk_search w l' name ret
  end.

Definition djthunk_get_h (w : world C) (handle : Z) (name : list Z) : outcome Z :=
  _ ← c_assert (handle <? MAX_HANDLES);
  u ← get_udisp w handle;
  ret ← thunk_search w (u_at u) name NOT_FOUND;
  _ ← c_assert (negb (ret =? NOT_FOUND));
  Done ret.

(** [cur] is the handle of the call being served. *)
Definition djthunk_get (w : world C) (cur : Z) (name : list Z) : outcome Z :=
  djthunk_get_h w (get_handle cur) name.

(** [*____crt0_startup_flags(handle) = _____crt0_startup_flags], through the
    macro ASMh of include/libc/asmobj.h. *)
Definition do_early_init (w : world C) (handle : Z) : outcome (world C) :=
  addr ← djthunk_get_h w handle (lit "__crt0_startup_flags");
  m ← store_bytes (w_mem w) (djaddr2ptr2 addr 4) (le32 (w_startup_flags w));
  Done (set_mem w m).

(** ** dj64_ctrl *)

(** The list without one occurrence of [a]. *)
Fixpoint remove_one (a : Z) (l : list Z) : list Z :=
  match l with
  | [] => []
  | b :: l' => if a =? b then l' else b :: remove_one a l'
  end.

Definition get_eops (w : world C) (handle : Z) : outcome elf_ops :=
  u ← get_udisp w handle; deref (u_eops u).

Definition elf_opened (w : world C) (eh : Z) : world C := set_elf w (eh :: w_elf w).
Definition elf_close (w : world C) (eh : Z) : world C :=
  set_elf w (remove_one eh (w_elf w)).

(** [ret = m; if (ret) goto err; k] *)
Definition or_err (m : outcome (world C * Z)) (k : world C -> outcome (world C * Z))
  : outcome (world C * Z) :=
  '(w, ret) ← m;
  if negb (ret =? 0) then Done (w, ret) else k w.

Definition load_at (w : world C) (p : at_ptr) (mem_base : Z) (eops : elf_ops) (eh : Z)
  : outcome (world C * Z) :=
  t ← get_at w p;
  '(t', ret) ← process_athunks t mem_base eops eh;
  w' ← put_at w p t';
  Done (w', ret).

Definition load_pt (w : world C) (p : at_ptr) (eops : elf_ops) (eh : Z)
  : outcome (world C * Z) :=
  t ← get_at w p;
  '(t', ret) ← process_pthunks t eops eh;
  w' ← put_at w p t';
  Done (w', ret).

(** process_athunks(&u->core_at, ...) and process_pthunks(&u->core_pt, ...) *)
Definition load_core (w : world C) (handle mem_base : Z) (eops : elf_ops) (eh : Z)
  : outcome (world C * Z) :=
  or_err (load_at w (CoreAt handle) mem_base eops eh) (fun w =>
    load_pt w (CorePt handle) eops eh).

(** The same for [u->at[libid]] and [u->pt[libid]], where they are set. *)
Definition load_user (w : world C) (handle libid mem_base : Z) (eops : elf_ops) (eh : Z)
  : outcome (world C * Z) :=
  u ← get_udisp w handle;
  a ← arr_get (u_at u) libid;
  or_err (match a with Some p => load_at w p mem_base eops eh | None => Done (w, 0) end)
    (fun w =>
       p ← arr_get (u_pt u) libid;
       match p with Some p => load_pt w p eops eh | None => Done (w, 0) end).

(** case DL_SET_SYMTAB *)
Definition ctrl_set_symtab (w : world C) (handle libid cs : Z) (regs : dpmi_regs)
  : outcome (world C * Z) :=
  let flags := eax regs in
  let have_core := negb (flags .& 0x4000 =? 0) in
  let split_pl := negb (flags .& SIFLG_SPLITPL =? 0) in
  let addr := ebx regs in
  let size := ecx regs in
  let mem_base := edx regs in
  let cpl_fd := wrap_s 32 (esi regs) in
  u ← get_udisp w handle;
  let w := put_udisp w handle (set_cs u cs) in
  (* the part under [if (addr)]; [None] is to go on after it *)
  '(w, r) ←
    (if negb (addr =? 0) then
       let have_upl := negb have_core || negb split_pl in
       eops ← get_eops w handle;
       match eo_open eops (djaddr2ptr addr) size with
       | None => Done (w, Some (-1))
       | Some eh =>
           '(w, ret) ← or_err
              (if have_core then load_core (elf_opened w eh) handle mem_base eops eh
               else Done (elf_opened w eh, 0))
              (fun w => if have_upl then load_user w handle libid mem_base eops eh
                        else Done (w, 0));
           let w := elf_close w eh in
           if negb (ret =? 0) then Done (w, Some (-1)) else Done (w, None)
       end
     else if have_core then Done (w, Some (-1))
     else Done (w, None));
  match r with
  | Some ret => Done (w, ret)
  | None =>
      or_err
        (if negb have_core then
           if cpl_fd =? -1 then Done (w, -1)
           else
             eops ← get_eops w handle;
             match eo_open_dyn eops handle cpl_fd with
             | None => Done (w, -1)
             | Some eh =>
                 '(w, ret) ← load_core (elf_opened w eh) handle mem_base eops eh;
                 let w := elf_close w eh in
                 if negb (ret =? 0) then Done (w, -1) else Done (w, 0)
             end
         else Done (w, 0))
        (fun w => w' ← do_early_init w handle; Done (w', 0))
  end.

(** case DL_ELFLOAD_FD, DL_ELFLOAD *)
Definition ctrl_elfload (w : world C) (handle libid fn : Z) (regs : dpmi_regs)
  : outcome (world C * Z * dpmi_regs) :=
  let addr := ebx regs in
  let size := ecx regs in
  let mem_base := edx regs in
  eops ← get_eops w handle;
  match (if fn =? DL_ELFLOAD then eo_elfparse64_h eops handle
         else eo_elfparse64 eops (eax regs)) with
  | None => Done (w, -1, regs)
  | Some (elf, esize) =>
      match eo_open eops elf esize with
      | None => Done (w, -1, regs)
      | Some eh =>
          let '(ret, entry, m) := eo_reloc eops eh (w_mem w)
            (djaddr2ptr2 (wrap_u 32 (mem_base + addr)) size) size addr in
          '(w, ret) ← or_err (Done (set_mem (elf_opened w eh) m, ret)) (fun w =>
            load_user w handle libid mem_base eops eh);
          let w := elf_close w eh in
          if negb (ret =? 0) then Done (w, -1, regs)
          else Done (w, 0, set_eax regs entry)
      end
  end.

Definition dj64_ctrl (w : world C) (handle libid fn cs : Z) (regs : dpmi_regs)
  : outcome (world C * res (Z * dpmi_regs)) :=
  let ver := Z.shiftr libid 8 in
  let libid := libid .& 0xff in
  _ ← c_assert (libid <? MAX_DISPS);
  _ ← c_assert (handle <? MAX_HANDLES);
  if negb (ver =? DL_API_VER) then
    if ver =? 0 then Done (w, Exit 1) else Done (w, Ret (-1, regs))
  else if fn =? DL_SET_SYMTAB then
    '(w, ret) ← ctrl_set_symtab w handle libid cs regs; Done (w, Ret (ret, regs))
  else if (fn =? DL_ELFLOAD_FD) || (fn =? DL_ELFLOAD) then
    '(w, ret, regs) ← ctrl_elfload w handle libid fn regs; Done (w, Ret (ret, regs))
  else Done (w, Ret (-1, regs)).

(** ** DOS objects (dosobj.c and do_obj_init .. dj64_rm_dosobj) *)

Definition mk_dosobj (w : world C) (len : Z) : world C * Z :=
  let fa := malloc32 (w_heap w) len in
  (if fa =? 0 then w else set_heap w ({[fa]} ∪ w_heap w), fa).

Definition pr_dosobj (w : world C) (fa data len : Z) : outcome (world C) :=
  '(m, _) ← memcpy (w_mem w) (DATA_PTR fa) data len; Done (set_mem w m).

Definition cp_dosobj (w : world C) (data fa len : Z) : outcome (world C) :=
  '(m, _) ← memcpy (w_mem w) data (DATA_PTR fa) len; Done (set_mem w m).

(** free32 of something that is not allocated is undefined. *)
Definition rm_dosobj (w : world C) (fa : Z) : outcome (world C) :=
  if decide (fa ∈ w_heap w) then Done (set_heap w (w_heap w ∖ {[fa]})) else Fail UB.

(** [*find_oh(addr, u->objs, u->recur_cnt) = v] with [u->objcnt += d] *)
Definition set_oh (u : udisp C) (addr v d : Z) : outcome (udisp C) :=
  i ← find_oh addr (u_objs u) (u_recur_cnt u);
  i ← deref i;
  row ← arr_get (u_objs u) (u_recur_cnt u - 1);
  Done (set_objs u (u_objcnt u + d)
    (<[Z.to_nat (u_recur_cnt u - 1) := <[i := v]> row]> (u_objs u))).

Definition do_obj_init (w : world C) (cur data len : Z) (is_out : bool)
  : outcome (world C * Z) :=
  if is_dos_ptr data then Done (w, PTR_DATA data)
  else
    let handle := get_handle cur in
    _ ← c_assert (handle <? MAX_HANDLES);
    u ← get_udisp w handle;
    let '(w, ret) := mk_dosobj w len in
    w ← (if negb is_out then pr_dosobj w ret data len else Done w);
    u ← set_oh u 0 ret 1;
    Done (put_udisp w handle u, ret).

Definition dj64_obj_init (w : world C) (cur data len : Z) : outcome (world C * Z) :=
  do_obj_init w cur data len false.

Definition dj64_obj_oinit (w : world C) (cur data len : Z) : outcome (world C * Z) :=
  do_obj_init w cur data len true.

Definition do_rm_dosobj (w : world C) (handle fa : Z) : outcome (world C) :=
  w ← rm_dosobj w fa;
  u ← get_udisp w handle;
  u ← set_oh u fa 0 (-1);
  Done (put_udisp w handle u).

Definition dj64_obj_done (w : world C) (cur data fa len : Z) : outcome (world C) :=
  if is_dos_ptr data then Done w
  else
    let handle := get_handle cur in
    _ ← c_assert (handle <? MAX_HANDLES);
    w ← cp_dosobj w data fa len;
    w ← rm_dosobj w fa;
    u ← get_udisp w handle;
    u ← set_oh u fa 0 (-1);
    Done (put_udisp w handle u).

Definition dj64_rm_dosobj (w : world C) (cur data fa : Z) : outcome (world C) :=
  if is_dos_ptr data then Done w
  else
    let handle := get_handle cur in
    _ ← c_assert (handle <? MAX_HANDLES);
    do_rm_dosobj w handle fa.

(** The loop that frees the objects a [longjmp] left behind: [i] counts the
    slots of the current level. *)
Definition gc_objs (w : world C) (handle : Z) : outcome (world C) :=
  loop (S (Z.to_nat MAX_OBJS)) (fun '(w, i) =>
    if i <? MAX_OBJS then
      u ← get_udisp w handle;
      row ← arr_get (u_objs u) (u_recur_cnt u - 1);
      o ← arr_get row i;
      if negb (o =? 0) then w' ← do_rm_dosobj w handle o; Done (inl (w', i + 1))
      else Done (inl (w, i + 1))
    else Done (inr w)) (w, 0).

(** ** Calls between the two sides *)

Definition longjmp {A} (w : world C) (handle code : Z) : outcome (world C * res A) :=
  u ← get_udisp w handle;
  f ← deref (u_noret_jmp u);
  Done (w, Jump f code).

(** Sequencing: a [longjmp] or an exit skips what follows. *)
Definition res_bind {A B} (m : outcome (world C * res A))
    (k : world C -> A -> outcome (world C * res B)) : outcome (world C * res B) :=
  '(w, r) ← m;
  match r with
  | Ret a => k w a
  | Jump f code => Done (w, Jump f code)
  | Exit status => Done (w, Exit status)
  end.

Section Calls.
(** The entry [dj64_call] for the calls nested in this one. *)
Context (call : world C -> Z -> Z -> Z -> Z -> Z -> dpmi_regs ->
                outcome (world C * res (Z * dpmi_regs))).

(** DOS code, run until it returns a code and registers. *)
Fixpoint run_host (h : host) (w : world C) : outcome (world C * res (Z * dpmi_regs)) :=
  match h with
  | HRet rc regs => Done (w, Ret (rc, regs))
  | HMem f k => run_host k (set_mem w (f (w_mem w)))
  | HCall handle libid fn cs sp regs k =>
      res_bind (call w handle libid fn cs sp regs) (fun w '(rc, regs) =>
        run_host (k rc regs) w)
  | HCtrl handle libid fn cs regs k =>
      res_bind (dj64_ctrl w handle libid fn cs regs) (fun w '(rc, regs) =>
        run_host (k rc regs) w)
  end.

(** The host gets [&u->s_regs] and leaves the registers there. *)
Definition put_s_regs (w : world C) (handle : Z) (regs : dpmi_regs)
  : outcome (world C) :=
  u ← get_udisp w handle; Done (put_udisp w handle (set_s_regs u regs)).

Definition do_asm_call (w : world C) (handle : Z) (pt : at_ptr) (cs num sp len flags : Z)
  : outcome (world C * res Z) :=
  t ← get_at w pt;
  _ ← c_assert (num <? at_num t);
  offset32 ← tab_get t num;
  _ ← c_assert (flags .& _TFLG_NORET =? 0);
  u ← get_udisp w handle;
  res_bind (run_host (asm_call (w_mem w) (u_s_regs u) cs offset32 sp len) w)
    (fun w '(rc, regs) =>
       w ← put_s_regs w handle regs;
       if rc =? ASM_CALL_ABORT then longjmp w handle ASM_ABORT
       else Done (w, Ret (eax regs .| Z.shiftl (edx regs) 32))).

Definition do_asm_noret (w : world C) (handle : Z) (pt : at_ptr) (cs num sp len : Z)
  : outcome (world C * res unit) :=
  t ← get_at w pt;
  _ ← c_assert (num <? at_num t);
  offset32 ← tab_get t num;
  u ← get_udisp w handle;
  res_bind (run_host (asm_noret (w_mem w) (u_s_regs u) cs offset32 sp len) w)
    (fun w '(_, regs) => w ← put_s_regs w handle regs; Done (w, Ret tt)).

(** [int ret = do_asm_call(...)] returned as [uint64_t] *)
Definition int_to_u64 (v : Z) : Z := wrap_u 64 (wrap_s 32 v).

Definition dj64_asm_call (w : world C) (cur num sp len flags : Z)
  : outcome (world C * res Z) :=
  let handle := get_handle cur in
  _ ← c_assert (handle <? MAX_HANDLES);
  w ← hooks_save w;
  u ← get_udisp w handle;
  res_bind (do_asm_call w handle (CorePt handle) (u_cs u) num sp len flags)
    (fun w v => w ← hooks_restore w handle; Done (w, Ret (int_to_u64 v))).

Definition dj64_asm_call_u (w : world C) (handle libid num sp len flags : Z)
  : outcome (world C * res Z) :=
  _ ← c_assert (handle <? MAX_HANDLES);
  u ← get_udisp w handle;
  pt ← arr_get (u_pt u) libid;
  match pt with
  | None => Done (w, Ret (wrap_u 64 ASM_CALL_ABORT))
  | Some pt =>
      w ← hooks_save w;
      res_bind (do_asm_call w handle pt (u_cs u) num sp len flags)
        (fun w v => w ← hooks_restore w handle; Done (w, Ret (int_to_u64 v)))
  end.

Definition dj64_asm_noret (w : world C) (cur num sp len flags : Z)
  : outcome (world C * res (Z * Z)) :=
  let handle := get_handle cur in
  _ ← c_assert (handle <? MAX_HANDLES);
  w ← hooks_save w;
  u ← get_udisp w handle;
  res_bind (do_asm_noret w handle (CorePt handle) (u_cs u) num sp len) (fun w _ =>
    w ← hooks_restore w handle;
    longjmp w handle ASM_NORET).

Definition dj64_asm_noret_u (w : world C) (handle libid num sp len flags : Z)
  : outcome (world C * res (Z * Z)) :=
  _ ← c_assert (handle <? MAX_HANDLES);
  u ← get_udisp w handle;
  pt ← arr_get (u_pt u) libid;
  match pt with
  | None => longjmp w handle ASM_ABORT
  | Some pt =>
      w ← hooks_save w;
      res_bind (do_asm_noret w handle pt (u_cs u) num sp len) (fun w _ =>
        w ← hooks_restore w handle;
        longjmp w handle ASM_NORET)
  end.

(** The dispatched C function, up to its result and [*r_len]. *)
Fixpoint run_client (cur : Z) (c : client C) (w : world C)
  : outcome (world C * res (Z * Z)) :=
  match c with
  | CRet res len => Done (w, Ret (res, len))
  | CMem f k => run_client cur k (set_mem w (f (w_mem w)))
  | CCtx f k => run_client cur k (set_ctx w (f (w_ctx w)))
  | CObjInit data len is_out k =>
      '(w, fa) ← (if is_out : bool then dj64_obj_oinit w cur data len
                  else dj64_obj_init w cur data len);
      run_client cur (k fa) w
  | CObjDone data fa len k => w ← dj64_obj_done w cur data fa len; run_client cur k w
  | CRmObj data fa k => w ← dj64_rm_dosobj w cur data fa; run_client cur k w
  | CAsmCall num sp len flags k =>
      res_bind (dj64_asm_call w cur num sp len flags) (fun w v => run_client cur (k v) w)
  | CAsmCallU handle libid num sp len flags k =>
      res_bind (dj64_asm_call_u w handle libid num sp len flags) (fun w v =>
        run_client cur (k v) w)
  | CAsmNoret num sp len flags => dj64_asm_noret w cur num sp len flags
  | CAsmNoretU handle libid num sp len flags =>
      dj64_asm_noret_u w handle libid num sp len flags
  end.

(** [_dj64_call]. The second part of a [Jump] to this frame is what follows the
    second return of [setjmp]; the registers of the caller are then untouched. *)
Definition _dj64_call (w : world C) (handle fn : Z) (regs : dpmi_regs) (sp : Z)
    (disp : option (disp_t C)) : outcome (world C * res (Z * dpmi_regs)) :=
  let noret := w_frames w in
  let w := set_frames w (S noret) in
  u ← get_udisp w handle;
  let w := put_udisp w handle (set_noret_jmp (set_s_regs u regs) (Some noret)) in
  disp ← deref disp;
  '(w, r) ← run_client handle (disp fn sp) w;
  match r with
  | Ret (res, len) =>
      u ← get_udisp w handle;
      let regs := u_s_regs u in
      if (len =? 1) || (len =? 2) || (len =? 4) then
        Done (w, Ret (DJ64_RET_OK, set_eax regs res))
      else Done (w, Ret (DJ64_RET_OK, regs))
  | Jump f rc =>
      if (f =? noret)%nat then
        w ← hooks_restore w handle;
        w ← gc_objs w handle;
        Done (w, Ret (if rc =? ASM_NORET then DJ64_RET_NORET else DJ64_RET_ABORT, regs))
      else Done (w, Jump f rc)
  | Exit status => Done (w, Exit status)
  end.

Definition dj64_call_body (w : world C) (handle libid fn cs sp : Z) (regs : dpmi_regs)
  : outcome (world C * res (Z * dpmi_regs)) :=
  let args := sp + sizeof_regs + 8 in
  _ ← c_assert (handle <? MAX_HANDLES);
  _ ← c_assert (libid <? MAX_DISPS);
  u ← get_udisp w handle;
  _ ← c_assert (u_recur_cnt u <? MAX_RECUR);
  let w := put_udisp w handle (set_recur_cnt u (u_recur_cnt u + 1)) in
  w ← hooks_restore w handle;
  u ← get_udisp w handle;
  let saved_noret := u_noret_jmp u in
  let last_objcnt := u_objcnt u in
  disp ← arr_get (u_disp u) libid;
  res_bind (_dj64_call w handle fn regs args disp) (fun w '(ret, regs) =>
    u ← get_udisp w handle;
    _ ← c_assert (u_objcnt u =? last_objcnt);
    let w := put_udisp w handle (set_noret_jmp u saved_noret) in
    w ← (if ret =? DJ64_RET_OK then hooks_save w else Done w);
    u ← get_udisp w handle;
    let w := put_udisp w handle (set_recur_cnt u (u_recur_cnt u - 1)) in
    Done (w, Ret (ret, regs))).

End Calls.

(** [dj64_call], with the calls nested in it. *)
Fixpoint dj64_call (fuel : nat) (w : world C) (handle libid fn cs sp : Z)
    (regs : dpmi_regs) : outcome (world C * res (Z * dpmi_regs)) :=
  match fuel with
  | O => Fail NoFuel
  | S fuel' => dj64_call_body (dj64_call fuel') w handle libid fn cs sp regs
  end.

(** ** The ELF entry points *)

Definition djelf_load (w : world C) (cur num libid : Z) : Z :=
  if dj64api_ver w <? 19 then -1 else api_elfload num (get_handle cur) libid.

Definition djelf_exec (w : world C) (cur : Z) : outcome Z :=
  if dj64api_ver w <? 22 then Done (-1)
  else eops ← get_eops w (get_handle cur); Done (eo_exec_self eops).

Definition djelf_run (w : world C) (cur eid argc argv : Z) : outcome Z :=
  eops ← get_eops w (get_handle cur); Done (eo_exec64 eops eid argc argv).

End Ops.
