(* ===== verification/ThunkProps.v ===== *)
(** * Correctness of the dj64 thunk layer

    The object accounting ([objcnt] and [objs]), the nesting of calls
    ([recur_cnt], [noret_jmp]) and the recovery after a [longjmp], for arbitrary
    C code on one side and arbitrary DOS code on the other. *)

From stdpp Require Import base gmap list numbers.
From Stdlib Require Import ZArith Lia.
From S2P Require Import Prelude MemFuns ThunkState Thunks.

Open Scope Z_scope.
Open Scope c_scope.

Section Props.
Context {C : Type} {api : Dj64Api}.

(** ** The invariant *)

(** The number of objects on record in one level, in all levels. *)
Definition live_row (row : list Z) : nat := length (filter (fun o => o <> 0) row).
Definition live_objs (objs : list (list Z)) : nat := sum_list_with live_row objs.

(** The objects that are counted and not on record: those for which malloc32 failed. *)
Definition unrecorded (u : udisp C) : Z := u_objcnt u - Z.of_nat (live_objs (u_objs u)).

(** Slot [j] of level [i] of handle [h]. *)
Definition slot (us : list (udisp C)) (h i j : nat) : option Z :=
  u ← us !! h; row ← u_objs u !! i; row !! j.

(** The library's thunks name their own handle, as the initialisation told them. *)
Fixpoint client_ok (h : Z) (c : client C) : Prop :=
  match c with
  | CRet _ _ | CAsmNoret _ _ _ _ => True
  | CMem _ k | CCtx _ k | CObjDone _ _ _ k | CRmObj _ _ k => client_ok h k
  | CObjInit _ _ _ k | CAsmCall _ _ _ _ k => forall v, client_ok h (k v)
  | CAsmCallU h' _ _ _ _ _ k => h' = h /\ forall v, client_ok h (k v)
  | CAsmNoretU h' _ _ _ _ _ => h' = h
  end.

Record udisp_ok (h : nat) (u : udisp C) : Prop := {
  uo_recur : 0 <= u_recur_cnt u <= MAX_RECUR;
  uo_levels : Z.of_nat (length (u_objs u)) = MAX_RECUR;
  uo_slots : forall i row, u_objs u !! i = Some row -> Z.of_nat (length row) = MAX_OBJS;
  uo_count : 0 <= unrecorded u;
  uo_unused : forall i row, u_objs u !! i = Some row -> u_recur_cnt u <= Z.of_nat i ->
    live_row row = 0%nat;
  uo_client : forall i d fn sp, u_disp u !! i = Some (Some d) ->
    client_ok (Z.of_nat h) (d fn sp) }.

(** Every object on record is allocated, and is on record once. *)
Record state_ok (us : list (udisp C)) (heap : gset Z) : Prop := {
  so_handles : Z.of_nat (length us) = MAX_HANDLES;
  so_udisp : forall h u, us !! h = Some u -> udisp_ok h u;
  so_null : 0 ∉ heap;
  so_heap : forall h i j a, slot us h i j = Some a -> a <> 0 -> a ∈ heap;
  so_once : forall h i j h' i' j' a, slot us h i j = Some a ->
    slot us h' i' j' = Some a -> a <> 0 -> h = h' /\ i = i' /\ j = j' }.

Definition world_ok (w : world C) : Prop := state_ok (udisps w) (w_heap w).

(** ** What a piece of code may change *)

(** [u'] is [u] but for its objects at the level [lvl], where malloc32 may have failed. *)
Record uframe (lvl : option Z) (u u' : udisp C) : Prop := {
  uf_recur : u_recur_cnt u' = u_recur_cnt u;
  uf_noret : u_noret_jmp u' = u_noret_jmp u;
  uf_disp : u_disp u' = u_disp u;
  uf_objs : forall i, Some (Z.of_nat i) <> lvl -> u_objs u' !! i = u_objs u !! i;
  uf_count : match lvl with
             | Some _ => unrecorded u <= unrecorded u'
             | None => u_objcnt u' = u_objcnt u
             end }.

(** Code running for the handle [h] may change the objects of [h]'s current
    level; [None] may change none. *)
Definition frame (h : option nat) (us us' : list (udisp C)) : Prop :=
  length us' = length us /\
  forall i u, us !! i = Some u -> exists u', us' !! i = Some u' /\
    uframe (if decide (h = Some i) then Some (u_recur_cnt u - 1) else None) u u'.

(** The nested calls that are still possible. *)
Definition room (us : list (udisp C)) : nat :=
  sum_list_with (fun u => Z.to_nat (MAX_RECUR - u_recur_cnt u)) us.

(** The result of code that runs for handle [h] from the world [w]. *)
Definition good {A} (h : option nat) (w : world C) (m : outcome (world C * res A)) : Prop :=
  match m with
  | Done (w', Ret _) => world_ok w' /\ frame h (udisps w) (udisps w')
  | Done (w', Jump f _) =>
      world_ok w' /\ frame h (udisps w) (udisps w') /\
      exists i u, h = Some i /\ udisps w !! i = Some u /\ u_noret_jmp u = Some f
  | Done (w', Exit _) => True
  | Fail _ => True
  end.

(** ** Lemmas on frames *)

Lemma uframe_refl lvl u : uframe lvl u u.
Proof. constructor; [done..|]. by destruct lvl. Qed.

Lemma uframe_trans lvl u1 u2 u3 : uframe lvl u1 u2 -> uframe lvl u2 u3 -> uframe lvl u1 u3.
Proof.
  intros [R1 N1 D1 O1 C1] [R2 N2 D2 O2 C2]. constructor; [congruence..| |].
  - intros i Hi. by rewrite O2, O1.
  - destruct lvl; [lia|congruence].
Qed.

Lemma uframe_weaken lvl u1 u2 : uframe None u1 u2 -> uframe lvl u1 u2.
Proof.
  intros [R N D O Ec]. constructor; [done..| |].
  - intros i _. eauto.
  - destruct lvl; [|done]. assert (E : u_objs u2 = u_objs u1) by (apply list_eq; intros i; by apply O).
    unfold unrecorded. by rewrite Ec, E.
Qed.

Lemma frame_refl h us : frame h us us.
Proof. split; [done|]. intros i u Hu. exists u. split; [done|]. apply uframe_refl. Qed.

Lemma frame_trans h us1 us2 us3 : frame h us1 us2 -> frame h us2 us3 -> frame h us1 us3.
Proof.
  intros [L1 F1] [L2 F2]. split; [congruence|]. intros i u Hu.
  destruct (F1 i u Hu) as (u2 & Hu2 & H2). destruct (F2 i u2 Hu2) as (u3 & Hu3 & H3).
  exists u3. split; [done|]. rewrite (uf_recur _ _ _ H2) in H3. by eapply uframe_trans.
Qed.

Lemma frame_weaken h us1 us2 : frame None us1 us2 -> frame h us1 us2.
Proof.
  intros [L F]. split; [done|]. intros i u Hu. destruct (F i u Hu) as (u' & Hu' & H).
  exists u'. split; [done|]. rewrite decide_False in H by done. by apply uframe_weaken.
Qed.

Lemma frame_insert h us i u u' :
  us !! i = Some u ->
  uframe (if decide (h = Some i) then Some (u_recur_cnt u - 1) else None) u u' ->
  frame h us (<[i := u']> us).
Proof.
  intros Hu Hf. split; [apply length_insert|]. intros k v Hv.
  destruct (decide (k = i)) as [->|Hne].
  - exists u'. split; [|by simplify_eq]. apply list_lookup_insert_eq.
    by eapply lookup_lt_Some.
  - exists v. rewrite list_lookup_insert_ne by done. split; [done|]. apply uframe_refl.
Qed.

Lemma frame_room h us us' : frame h us us' -> room us' = room us.
Proof.
  unfold room. revert h us'. induction us as [|u us IH]; intros h [|u' us'] [L F];
    simpl in *; try done.
  destruct (F 0%nat u eq_refl) as (v & [= ->] & Hv). rewrite (uf_recur _ _ _ Hv). f_equal.
  apply (IH (h ≫= fun n => match n with O => None | S n => Some n end)).
  split; [lia|]. intros i x Hx. destruct (F (S i) x Hx) as (x' & Hx' & H).
  exists x'. split; [done|]. revert H. destruct h as [[|n]|]; simpl;
    repeat case_decide; (done || congruence).
Qed.

(** ** Lemmas on the arrays *)

Lemma arr_get_Done {A} (l : list A) i a :
  arr_get l i = Done a <-> 0 <= i /\ l !! Z.to_nat i = Some a.
Proof.
  unfold arr_get. destruct (Z.ltb_spec i 0); [split; [done|lia]|].
  destruct (l !! Z.to_nat i); split; intros; destruct_and?; simplify_eq; auto.
Qed.

Lemma deref_Done {A} (p : option A) a : deref p = Done a <-> p = Some a.
Proof. destruct p; split; intros; by simplify_eq/=. Qed.

Lemma c_assert_Done b u : c_assert b = Done u -> b = true.
Proof. by destruct b. Qed.

(** Split a successful computation into its steps. *)
Ltac inv_bind :=
  repeat match goal with
  | H : Done _ = Done _ |- _ => apply (f_equal (fun o => match o with Done x => Some x | Fail _ => None end)) in H; simplify_eq/=
  | H : Fail _ = Done _ |- _ => discriminate H
  | H : (_ ≫= _) = Done _ |- _ => apply bind_inv in H as (? & ? & ?)
  | H : c_assert _ = Done _ |- _ => apply c_assert_Done in H
  | H : arr_get _ _ = Done _ |- _ => apply arr_get_Done in H as [? ?]
  | H : deref _ = Done _ |- _ => apply deref_Done in H
  | p : (_ * _)%type |- _ => destruct p
  end.

(** ** The objects of one level *)

Lemma live_row_insert row (j : nat) (o v : Z) :
  row !! j = Some o ->
  (live_row (<[j := v]> row) + (if decide (o = 0%Z) then 0 else 1) =
   live_row row + (if decide (v = 0%Z) then 0 else 1))%nat.
Proof.
  intros Hj. unfold live_row.
  rewrite <- (take_drop_middle row j o Hj) at 2.
  rewrite insert_take_drop by (by eapply lookup_lt_Some).
  rewrite !list.filter_app, !filter_cons, !length_app.
  repeat case_decide; simpl; lia.
Qed.

Lemma live_objs_insert objs i row row' :
  objs !! i = Some row ->
  (live_objs (<[i := row']> objs) + live_row row = live_objs objs + live_row row')%nat.
Proof.
  intros Hi. unfold live_objs.
  rewrite <- (take_drop_middle objs i row Hi) at 2.
  rewrite insert_take_drop by (by eapply lookup_lt_Some).
  rewrite !sum_list_with_app. simpl. lia.
Qed.

Lemma live_row_0 row : live_row row = 0%nat -> forall j o, row !! j = Some o -> o = 0.
Proof.
  unfold live_row. intros H j o Hj. destruct (decide (o = 0)) as [|Hne]; [done|].
  apply nil_length_inv in H. exfalso.
  eapply (filter_nil_not_elem_of _ _ o H Hne). by eapply list_elem_of_lookup_2.
Qed.

Lemma live_row_0_intro row : (forall j o, row !! j = Some o -> o = 0) -> live_row row = 0%nat.
Proof.
  unfold live_row. induction row as [|o row IH]; intros H; [done|].
  rewrite filter_cons_False by (intros Hne; by apply Hne, (H 0%nat)).
  apply IH. intros j. apply (H (S j)).
Qed.

Lemma find_index_Some P l i :
  find_index P l = Some i ->
  exists b, l !! i = Some b /\ P b = true.
Proof.
  revert i. induction l as [|b l IH]; intros i; simpl; [done|].
  destruct (P b) eqn:E; [intros [= <-]; simpl; eauto|].
  intros (k & Hk & ->)%fmap_Some. by apply IH.
Qed.

Lemma find_index_is_Some P l i b :
  l !! i = Some b -> P b = true -> is_Some (find_index P l).
Proof.
  revert i. induction l as [|c l IH]; intros i; [done|]. simpl.
  destruct (P c) eqn:E; [eauto|]. destruct i as [|i]; simpl.
  - intros [= ->]. congruence.
  - intros Hi Hb. rewrite fmap_is_Some. eauto.
Qed.

(** ** Updating one slot *)

Definition put_slot (u : udisp C) (r j : nat) (row : list Z) (v d : Z) : udisp C :=
  set_objs u (u_objcnt u + d) (<[r := <[j := v]> row]> (u_objs u)).

Lemma set_oh_Done u addr v d u' :
  set_oh u addr v d = Done u' ->
  exists r j row, u_recur_cnt u - 1 = Z.of_nat r /\ u_objs u !! r = Some row /\
    row !! j = Some addr /\ u' = put_slot u r j row v d.
Proof.
  intros H. unfold set_oh, find_oh in H. inv_bind.
  match goal with H : find_index _ _ = Some _ |- _ =>
    apply find_index_Some in H as (b & Hb & Eb) end.
  apply Z.eqb_eq in Eb. simplify_eq.
  eexists (Z.to_nat (u_recur_cnt u - 1)), _, _. split_and!; [lia|done|done|done].
Qed.

Lemma slot_insert us h u r j row v d h' i' j' a :
  us !! h = Some u -> u_objs u !! r = Some row -> row !! j = Some a ->
  slot (<[h := put_slot u r j row v d]> us) h' i' j' =
  if decide (h' = h /\ i' = r /\ j' = j) then Some v else slot us h' i' j'.
Proof.
  intros Hu Hr Hj. unfold slot.
  pose proof (lookup_lt_Some _ _ _ Hu). pose proof (lookup_lt_Some _ _ _ Hr).
  pose proof (lookup_lt_Some _ _ _ Hj).
  destruct (decide (h' = h)) as [->|Hh].
  - rewrite list_lookup_insert_eq, Hu by done. simpl.
    destruct (decide (i' = r)) as [->|Hi].
    + rewrite list_lookup_insert_eq, Hr by done. simpl.
      destruct (decide (j' = j)) as [->|Hj'].
      * rewrite list_lookup_insert_eq by done. by rewrite decide_True by done.
      * rewrite list_lookup_insert_ne by done. by rewrite decide_False by tauto.
    + rewrite list_lookup_insert_ne by done. by rewrite decide_False by tauto.
  - rewrite list_lookup_insert_ne by done. by rewrite decide_False by tauto.
Qed.

Lemma slot_of us h u r j row a :
  us !! h = Some u -> u_objs u !! r = Some row -> row !! j = Some a ->
  slot us h r j = Some a.
Proof. intros Hu Hr Hj. unfold slot. rewrite Hu. simpl. rewrite Hr. exact Hj. Qed.

Definition nz (v : Z) : Z := if decide (v = 0) then 0 else 1.

Lemma unrecorded_put_slot u r j row a v d :
  u_objs u !! r = Some row -> row !! j = Some a ->
  unrecorded (put_slot u r j row v d) = unrecorded u + d - (nz v - nz a).
Proof.
  intros Hr Hj. unfold unrecorded, put_slot. cbn [u_objcnt u_objs set_objs].
  pose proof (live_objs_insert _ _ _ (<[j := v]> row) Hr) as E1.
  pose proof (live_row_insert _ _ _ v Hj) as E2. unfold nz. repeat case_decide; lia.
Qed.

Lemma udisp_ok_put_slot h u r j row a v d :
  udisp_ok h u -> u_recur_cnt u - 1 = Z.of_nat r ->
  u_objs u !! r = Some row -> row !! j = Some a -> nz v - nz a <= d ->
  udisp_ok h (put_slot u r j row v d).
Proof.
  intros [Hrec Hlev Hslots Hcnt Hun Hcl] Er Hr Hj Hd.
  pose proof (lookup_lt_Some _ _ _ Hr) as Hlt.
  constructor; [done|simpl; by rewrite length_insert| | | |done].
  - intros i row' [(-> & <- & _)|[_ Hi]]%list_lookup_insert_Some; [|by eauto].
    rewrite length_insert. eauto.
  - rewrite (unrecorded_put_slot _ _ _ _ a) by done. lia.
  - simpl. intros i row' [(-> & <- & _)|[_ Hi]]%list_lookup_insert_Some; [lia|by eauto].
Qed.

(** Storing an object that is on record nowhere, or clearing a slot, keeps the
    invariant, where the heap gains the one and may lose the other. *)
Lemma state_ok_put_slot us heap heap' h u r j row a v d :
  state_ok us heap -> us !! h = Some u -> u_recur_cnt u - 1 = Z.of_nat r ->
  u_objs u !! r = Some row -> row !! j = Some a -> nz v - nz a <= d ->
  (v <> 0 -> v ∈ heap' /\ forall h' i' j', slot us h' i' j' <> Some v) ->
  (forall b, b ∈ heap -> b <> a -> b ∈ heap') -> 0 ∉ heap' ->
  state_ok (<[h := put_slot u r j row v d]> us) heap'.
Proof.
  intros [Hlen Hus Hnull Hheap Honce] Hu Er Hr Hj Hd Hv Hh' H0.
  pose proof (slot_of _ _ _ _ _ _ _ Hu Hr Hj) as Hs. constructor.
  - by rewrite length_insert.
  - intros h' u' [(-> & <- & _)|[_ Hi]]%list_lookup_insert_Some; [|by eauto].
    eapply udisp_ok_put_slot; eauto.
  - done.
  - intros h' i' j' b. rewrite (slot_insert _ _ _ _ _ _ _ _ _ _ _ _ Hu Hr Hj).
    case_decide as Hdec; [intros [= ->] Hb; by apply Hv|]. intros Hb Hne.
    apply Hh'; [eauto|]. intros ->. by destruct (Honce _ _ _ _ _ _ _ Hb Hs Hne) as (-> & -> & ->); eauto.
  - intros h1 i1 j1 h2 i2 j2 b.
    rewrite !(slot_insert _ _ _ _ _ _ _ _ _ _ _ _ Hu Hr Hj).
    repeat case_decide; destruct_and?; intros; simplify_eq; try (by eauto);
      exfalso; by eapply Hv.
Qed.

Lemma uframe_put_slot u r j row a v d :
  u_recur_cnt u - 1 = Z.of_nat r -> u_objs u !! r = Some row -> row !! j = Some a ->
  nz v - nz a <= d ->
  uframe (Some (u_recur_cnt u - 1)) u (put_slot u r j row v d).
Proof.
  intros Er Hr Hj Hd. constructor; [done..| |].
  - intros i Hi. simpl. apply list_lookup_insert_ne. intros ->. congruence.
  - rewrite (unrecorded_put_slot _ _ _ _ a) by done. lia.
Qed.

(** ** Objects *)

Lemma get_udisp_Done (w : world C) n u :
  get_udisp w (Z.of_nat n) = Done u <-> udisps w !! n = Some u.
Proof. unfold get_udisp. rewrite arr_get_Done, Nat2Z.id. split; [tauto|]. intros; split; [lia|done]. Qed.

Lemma udisps_put (w : world C) n u :
  udisps (put_udisp w (Z.of_nat n) u) = <[n := u]> (udisps w).
Proof. simpl. by rewrite Nat2Z.id. Qed.

(** The host serves one call at a time and knows its handle; the DOS heap gives
    out a block that is not in use, or 0. *)
Hypothesis get_handle_current : forall h, get_handle h = h.
Hypothesis malloc32_unused : forall heap len,
  malloc32 heap len = 0 \/ malloc32 heap len ∉ heap.

(** What an operation on the objects of [n] must establish. *)
Definition obj_step (n : nat) (w w' : world C) : Prop :=
  world_ok w' /\ frame (Some n) (udisps w) (udisps w').

Lemma set_oh_step us heap heap' n u a v d u' :
  state_ok us heap -> us !! n = Some u -> set_oh u a v d = Done u' -> nz v - nz a <= d ->
  (v <> 0 -> v ∈ heap' /\ forall h' i' j', slot us h' i' j' <> Some v) ->
  (forall b, b ∈ heap -> b <> a -> b ∈ heap') -> 0 ∉ heap' ->
  state_ok (<[n := u']> us) heap' /\ frame (Some n) us (<[n := u']> us).
Proof.
  intros Hok Hu (r & j & row & Er & Hr & Hj & ->)%set_oh_Done Hd Hv Hh H0. split.
  - by eapply state_ok_put_slot.
  - apply (frame_insert _ _ _ u); [done|]. rewrite decide_True by done.
    by eapply uframe_put_slot.
Qed.

Lemma pr_dosobj_udisps (w : world C) fa data len w' :
  pr_dosobj w fa data len = Done w' -> udisps w' = udisps w /\ w_heap w' = w_heap w.
Proof. unfold pr_dosobj. intros. by inv_bind. Qed.

Lemma do_obj_init_step w n data len is_out w' fa :
  world_ok w -> do_obj_init w (Z.of_nat n) data len is_out = Done (w', fa) ->
  obj_step n w w'.
Proof.
  unfold do_obj_init, obj_step, world_ok. rewrite get_handle_current. intros Hok H.
  destruct (is_dos_ptr data); [inv_bind; split; [done|apply frame_refl]|].
  apply bind_inv in H as (_ & _ & H). apply bind_inv in H as (u & Hu & H).
  apply get_udisp_Done in Hu. unfold mk_dosobj in H.
  pose proof (malloc32_unused (w_heap w) len) as Hm. set (a := malloc32 _ _) in *.
  pose proof (so_null _ _ Hok) as H0. assert (Hfresh : a ∉ w_heap w) by (by destruct Hm as [->|?]).
  apply bind_inv in H as (w1 & Hw1 & H).
  assert (Hus : udisps w1 = udisps w /\
    w_heap w1 = if a =? 0 then w_heap w else {[a]} ∪ w_heap w).
  { destruct is_out; simpl in Hw1.
    - injection Hw1 as <-. by destruct (a =? 0).
    - apply pr_dosobj_udisps in Hw1 as [-> ->]. by destruct (a =? 0). }
  apply bind_inv in H as (u' & Hu' & H). injection H as <- <-. rewrite udisps_put. simpl.
  destruct Hus as [-> ->].
  eapply (set_oh_step _ (w_heap w) _ _ _ 0 a); [done|done|exact Hu'| | | |].
  - unfold nz. repeat case_decide; lia.
  - intros Hne. rewrite (proj2 (Z.eqb_neq _ _) Hne). split; [set_solver|]. intros h i j Hs.
    by apply Hfresh, (so_heap _ _ Hok _ _ _ _ Hs).
  - destruct (a =? 0); set_solver.
  - destruct (Z.eqb_spec a 0); set_solver.
Qed.

Lemma do_rm_dosobj_step w n fa w' :
  world_ok w -> do_rm_dosobj w (Z.of_nat n) fa = Done w' ->
  obj_step n w w'.
Proof.
  unfold do_rm_dosobj, obj_step, world_ok, rm_dosobj. intros Hok H.
  case_decide; [|done]. pose proof (so_null _ _ Hok). assert (fa <> 0) by congruence.
  rewrite bind_Done in H.
  apply bind_inv in H as (u & Hu & H). apply bind_inv in H as (u' & Hu' & H).
  apply get_udisp_Done in Hu. injection H as <-. rewrite udisps_put. simpl.
  eapply (set_oh_step _ (w_heap w) _ _ _ fa 0); [done|done|exact Hu'| |done|set_solver|set_solver].
  unfold nz. by rewrite decide_True, decide_False by done.
Qed.

Lemma cp_dosobj_udisps (w : world C) data fa len w' :
  cp_dosobj w data fa len = Done w' -> udisps w' = udisps w /\ w_heap w' = w_heap w.
Proof. unfold cp_dosobj. intros. by inv_bind. Qed.

Lemma dj64_rm_dosobj_step w n data fa w' :
  world_ok w -> dj64_rm_dosobj w (Z.of_nat n) data fa = Done w' -> obj_step n w w'.
Proof.
  unfold dj64_rm_dosobj. rewrite get_handle_current. intros Hok H.
  destruct (is_dos_ptr data); [injection H as <-; split; [done|apply frame_refl]|].
  apply bind_inv in H as (_ & _ & H). by eapply do_rm_dosobj_step.
Qed.

Lemma dj64_obj_done_step w n data fa len w' :
  world_ok w -> dj64_obj_done w (Z.of_nat n) data fa len = Done w' -> obj_step n w w'.
Proof.
  unfold dj64_obj_done. rewrite get_handle_current. intros Hok H.
  destruct (is_dos_ptr data); [injection H as <-; split; [done|apply frame_refl]|].
  apply bind_inv in H as (_ & _ & H). apply bind_inv in H as (w1 & H1 & H).
  apply cp_dosobj_udisps in H1 as [E1 E2].
  assert (Hok1 : world_ok w1) by (unfold world_ok; by rewrite E1, E2).
  unfold obj_step. rewrite <- E1. by apply (do_rm_dosobj_step w1 n fa w' Hok1).
Qed.

(** ** Collecting the objects after a longjmp *)

(** An object of the current level can be removed, and its slot is cleared. *)
Lemma do_rm_dosobj_total w n u r row j o :
  world_ok w -> udisps w !! n = Some u -> u_recur_cnt u - 1 = Z.of_nat r ->
  u_objs u !! r = Some row -> row !! j = Some o -> o <> 0 ->
  do_rm_dosobj w (Z.of_nat n) o =
  Done (put_udisp (set_heap w (w_heap w ∖ {[o]})) (Z.of_nat n)
          (put_slot u r j row 0 (-1))).
Proof.
  intros Hok Hu Er Hr Hj Hne. pose proof (slot_of _ _ _ _ _ _ _ Hu Hr Hj) as Hs.
  unfold do_rm_dosobj, rm_dosobj.
  rewrite decide_True by exact (so_heap _ _ Hok _ _ _ _ Hs Hne).
  rewrite bind_Done. rewrite (proj2 (get_udisp_Done _ n u)) by done.
  rewrite bind_Done. unfold set_oh, find_oh.
  assert (Ea : arr_get (u_objs u) (u_recur_cnt u - 1) = Done row)
    by (apply arr_get_Done; rewrite Er, Nat2Z.id; split; [lia|done]).
  rewrite Ea, bind_Done, bind_Done.
  destruct (find_index_is_Some (fun x => x =? o) row j o Hj (Z.eqb_refl o)) as [k Hk].
  rewrite Hk. apply find_index_Some in Hk as (b & Hb & Eb). apply Z.eqb_eq in Eb as ->.
  pose proof (slot_of _ _ _ _ _ _ _ Hu Hr Hb) as Hs'.
  destruct (so_once _ _ Hok _ _ _ _ _ _ _ Hs' Hs Hne) as (_ & _ & ->).
  simpl. rewrite Er, Nat2Z.id. done.
Qed.

(** [row] is the current level of [n]. *)
Definition cur_row (us : list (udisp C)) (n : nat) (row : list Z) : Prop :=
  exists u r, us !! n = Some u /\ u_recur_cnt u - 1 = Z.of_nat r /\ u_objs u !! r = Some row.

Lemma cur_row_fun us n row1 row2 : cur_row us n row1 -> cur_row us n row2 -> row1 = row2.
Proof.
  intros (u & r & Hu & Er & Hr) (u' & r' & Hu' & Er' & Hr'). simplify_eq.
  assert (r' = r) as -> by lia. by simplify_eq.
Qed.

(** From the row [row0] and the heap [heap0] the objects of the slots below [i]
    are gone, from the record and from the heap. *)
Definition gc_inv (n : nat) (us : list (udisp C)) (heap0 : gset Z) (row0 : list Z)
    (s : world C * Z) : Prop :=
  let '(w, i) := s in
  obj_step n (set_udisps w us) w /\ 0 <= i <= MAX_OBJS /\
  (unrecorded <$> udisps w !! n) = (unrecorded <$> us !! n) /\
  w_heap w = heap0 ∖ list_to_set (take (Z.to_nat i) row0) /\
  exists row, cur_row (udisps w) n row /\ length row = length row0 /\
    (forall j, Z.of_nat j < i -> row !! j = Some 0) /\
    (forall j, i <= Z.of_nat j -> row !! j = row0 !! j).

Lemma heap_take (heap : gset Z) (row : list Z) i o :
  row !! i = Some o -> 
  heap ∖ list_to_set (take (S i) row) = heap ∖ list_to_set (take i row) ∖ {[o]}.
Proof.
  intros Hi. rewrite (take_S_r _ _ _ Hi), list_to_set_app_L. simpl. set_solver.
Qed.

Lemma gc_step n us heap0 row0 w i row o :
  gc_inv n us heap0 row0 (w, i) -> i < MAX_OBJS -> cur_row (udisps w) n row ->
  Z.of_nat (length row0) = MAX_OBJS ->
  row !! Z.to_nat i = Some o -> o <> 0 ->
  exists w', do_rm_dosobj w (Z.of_nat n) o = Done w' /\ gc_inv n us heap0 row0 (w', i + 1).
Proof.
  intros ([Hok Hf] & Hi & Hun & Hh & row' & Hrow' & Hlen & Hz & Hsame) Hlt Hrow Hl0 Ho Hne.
  assert (row' = row) as -> by (by eapply cur_row_fun).
  pose proof Hrow as (u & r & Hu & Er & Hr).
  pose proof (do_rm_dosobj_total _ _ _ _ _ _ _ Hok Hu Er Hr Ho Hne) as E.
  eexists. split; [exact E|].
  destruct (do_rm_dosobj_step _ _ _ _ Hok E) as [Hok' Hf'].
  split_and!; [split; [done|by eapply frame_trans]|lia..| | |].
  { rewrite udisps_put, list_lookup_insert_eq by (by eapply lookup_lt_Some).
    rewrite <- Hun, Hu. simpl. f_equal. rewrite (unrecorded_put_slot _ _ _ _ o) by done.
    unfold nz. rewrite decide_True, decide_False by done. lia. }
  { simpl. replace (Z.to_nat (i + 1)) with (S (Z.to_nat i)) by lia.
    rewrite (heap_take _ _ _ o), Hh; [done|]. rewrite <- Hsame by lia. done. }
  exists (<[Z.to_nat i := 0]> row). split_and!.
  - exists (put_slot u r (Z.to_nat i) row 0 (-1)), r. rewrite udisps_put.
    split_and!; [|done|].
    + apply list_lookup_insert_eq. by eapply lookup_lt_Some.
    + apply list_lookup_insert_eq. by eapply lookup_lt_Some.
  - by rewrite length_insert.
  - intros j Hj. destruct (decide (j = Z.to_nat i)) as [->|].
    + apply list_lookup_insert_eq. by eapply lookup_lt_Some.
    + rewrite list_lookup_insert_ne by done. apply Hz. lia.
  - intros j Hj. rewrite list_lookup_insert_ne by lia. apply Hsame. lia.
Qed.

Lemma gc_objs_spec w n row0 :
  world_ok w -> cur_row (udisps w) n row0 ->
  exists w' row, gc_objs w (Z.of_nat n) = Done w' /\ obj_step n w w' /\
    cur_row (udisps w') n row /\ live_row row = 0%nat /\
    w_heap w' = w_heap w ∖ list_to_set row0 /\
    (unrecorded <$> udisps w' !! n) = (unrecorded <$> udisps w !! n).
Proof.
  intros Hok Hrow0. unfold gc_objs.
  assert (Hlen0 : Z.of_nat (length row0) = MAX_OBJS).
  { destruct Hrow0 as (u & r & Hu & _ & Hr).
    by apply (uo_slots _ _ (so_udisp _ _ Hok _ _ Hu) _ _ Hr). }
  set (I := gc_inv n (udisps w) (w_heap w) row0).
  match goal with |- exists w' row, loop ?fl ?bd ?st = Done w' /\ _ =>
    destruct (loop_total I (fun w' => I (w', MAX_OBJS))
      (fun '(_, i) => Z.to_nat (MAX_OBJS - i)) bd) with (fuel := fl) (s := st)
      as (w' & -> & H) end.
  - intros [w1 i] Hinv. destruct (Z.ltb_spec i MAX_OBJS) as [Hlt|Hge].
    + pose proof Hinv as (Hst & Hi & Hun & Hh & row & Hrow & Hlen & Hz & Hsame).
      pose proof Hrow as (u & r & Hu & Er & Hr).
      rewrite (proj2 (get_udisp_Done _ n u)), bind_Done by done.
      rewrite (proj2 (arr_get_Done _ _ row)), bind_Done
        by (rewrite Er, Nat2Z.id; split; [lia|done]).
      destruct (lookup_lt_is_Some_2 row (Z.to_nat i)) as [o Ho]; [lia|].
      rewrite (proj2 (arr_get_Done _ _ o)), bind_Done by (split; [lia|done]).
      destruct (Z.eqb_spec o 0) as [->|Hne]; simpl.
      * split; [|lia]. split_and!; [done|lia..|done| |].
        { replace (Z.to_nat (i + 1)) with (S (Z.to_nat i)) by lia.
          rewrite (heap_take _ _ _ 0), Hh by (rewrite <- Hsame by lia; done).
          pose proof (so_null _ _ Hok). set_solver. }
        exists row. split_and!; [done|done| |intros j Hj; apply Hsame; lia]. intros j Hj.
        destruct (decide (j = Z.to_nat i)) as [->|]; [done|]. apply Hz. lia.
      * destruct (gc_step _ _ _ _ _ _ _ _ Hinv Hlt Hrow Hlen0 Ho Hne) as (w' & -> & Hw').
        simpl. split; [done|lia].
    + pose proof Hinv as (_ & Hi & _). by assert (i = MAX_OBJS) as -> by lia.
  - split_and!; [split; [done|apply frame_refl]|done..|simpl; set_solver|]. exists row0.
    split_and!; [done|done| |done]. intros; lia.
  - simpl. lia.
  - destruct H as (Hstep & _ & Hun & Hh & row & Hrow & Hlen & Hz & _). exists w', row.
    split_and!; [done|done|done| | |done].
    + apply live_row_0_intro. intros j o Hj.
      rewrite Hz in Hj by (apply lookup_lt_Some in Hj; lia). congruence.
    + by rewrite Hh, take_ge by lia.
Qed.

(** ** Code that leaves objects and calls alone *)

Record ukeep (u u' : udisp C) : Prop := {
  uk_recur : u_recur_cnt u' = u_recur_cnt u;
  uk_noret : u_noret_jmp u' = u_noret_jmp u;
  uk_disp : u_disp u' = u_disp u;
  uk_objcnt : u_objcnt u' = u_objcnt u;
  uk_objs : u_objs u' = u_objs u }.

Definition keep (w w' : world C) : Prop :=
  w_heap w' = w_heap w /\ Forall2 ukeep (udisps w) (udisps w').

Instance ukeep_preorder : PreOrder ukeep.
Proof.
  split; [by constructor|]. intros u1 u2 u3 [] []. constructor; congruence.
Qed.

Instance keep_preorder : PreOrder keep.
Proof.
  split.
  - intros w. split; [done|]. reflexivity.
  - intros w1 w2 w3 [H1 F1] [H2 F2]. split; [congruence|]. by etrans.
Qed.

Lemma keep_same w w' :
  udisps w' = udisps w -> w_heap w' = w_heap w -> keep w w'.
Proof. intros E1 E2. split; [done|]. rewrite E1. reflexivity. Qed.

Lemma keep_put (w : world C) n u u' :
  udisps w !! n = Some u -> ukeep u u' -> keep w (put_udisp w (Z.of_nat n) u').
Proof.
  intros Hu Hk. split; [done|]. rewrite udisps_put.
  rewrite <- (list_insert_id (udisps w) n u Hu) at 1.
  apply Forall2_insert; [reflexivity|done].
Qed.

Lemma keep_slot w w' h i j : keep w w' -> slot (udisps w') h i j = slot (udisps w) h i j.
Proof.
  intros [_ F]. unfold slot. destruct (udisps w' !! h) as [u'|] eqn:E.
  - eapply Forall2_lookup_r in F as (u & -> & Hu); [|done]. simpl. by rewrite (uk_objs _ _ Hu).
  - apply lookup_ge_None in E. rewrite <- (Forall2_length F) in E.
    apply lookup_ge_None in E. by rewrite E.
Qed.

Lemma keep_ok w w' : keep w w' -> world_ok w -> world_ok w'.
Proof.
  intros Hk [Hlen Hus Hnull Hheap Honce]. pose proof Hk as [Eh F]. constructor.
  - by rewrite <- (Forall2_length F).
  - intros h u' Hu'. eapply Forall2_lookup_r in F as (u & Hu & [R _ D N O]); [|done].
    destruct (Hus _ _ Hu). constructor; unfold unrecorded in *; rewrite ?R, ?D, ?N, ?O; done.
  - by rewrite Eh.
  - intros h i j a. rewrite Eh, (keep_slot _ _ _ _ _ Hk). eauto.
  - intros *. rewrite !(keep_slot _ _ _ _ _ Hk). eauto.
Qed.

Lemma keep_frame h w w' : keep w w' -> frame h (udisps w) (udisps w').
Proof.
  intros [_ F]. apply frame_weaken. split; [symmetry; exact (Forall2_length F)|].
  intros i u Hu. eapply Forall2_lookup_l in F as (u' & Hu' & []); [|done].
  exists u'. split; [done|]. rewrite decide_False by done. constructor; intros; congruence.
Qed.

Lemma keep_good {A} h w w' (a : A) :
  world_ok w -> keep w w' -> good h w (Done (w', Ret a)).
Proof. intros. split; [by eapply keep_ok|by apply keep_frame]. Qed.

Lemma hooks_save_keep (w w' : world C) : hooks_save w = Done w' -> keep w w'.
Proof. unfold hooks_save. intros. inv_bind. by apply keep_same. Qed.

Lemma hooks_restore_keep (w w' : world C) h : hooks_restore w h = Done w' -> keep w w'.
Proof. unfold hooks_restore. intros. inv_bind. by apply keep_same. Qed.

Lemma put_s_regs_keep (w w' : world C) n regs :
  put_s_regs w (Z.of_nat n) regs = Done w' -> keep w w'.
Proof.
  unfold put_s_regs. intros H. apply bind_inv in H as (u & Hu & H). injection H as <-.
  apply get_udisp_Done in Hu. by eapply keep_put.
Qed.

Lemma get_udisp_nat (w : world C) h u :
  get_udisp w h = Done u -> exists n, h = Z.of_nat n /\ udisps w !! n = Some u.
Proof.
  unfold get_udisp. intros [? ?]%arr_get_Done. exists (Z.to_nat h). split; [lia|done].
Qed.

Lemma put_at_keep (w w' : world C) p t : put_at w p t = Done w' -> keep w w'.
Proof.
  destruct p; simpl; intros H.
  3: injection H as <-; by apply keep_same.
  all: apply bind_inv in H as (u & Hu & H); injection H as <-;
    apply get_udisp_nat in Hu as (n & -> & Hu);
    eapply keep_put; [exact Hu|by constructor].
Qed.

Lemma or_err_keep (w : world C) m k w' r :
  (forall w1 r1, m = Done (w1, r1) -> keep w w1) ->
  (forall w1 w2 r2, keep w w1 -> k w1 = Done (w2, r2) -> keep w w2) ->
  or_err m k = Done (w', r) -> keep w w'.
Proof.
  intros Hm Hk H. unfold or_err in H. apply bind_inv in H as ([w1 r1] & E & H).
  destruct (negb (r1 =? 0)); [injection H as <- <-; by eapply Hm|].
  eapply Hk; [by eapply Hm|done].
Qed.

Lemma load_at_keep (w : world C) p mem_base eops eh w' r :
  load_at w p mem_base eops eh = Done (w', r) -> keep w w'.
Proof.
  unfold load_at. intros H. apply bind_inv in H as (t & _ & H).
  apply bind_inv in H as ([t' r'] & _ & H). apply bind_inv in H as (w1 & Hp & H).
  injection H as <- <-. by eapply put_at_keep.
Qed.

Lemma load_pt_keep (w : world C) p eops eh w' r :
  load_pt w p eops eh = Done (w', r) -> keep w w'.
Proof.
  unfold load_pt. intros H. apply bind_inv in H as (t & _ & H).
  apply bind_inv in H as ([t' r'] & _ & H). apply bind_inv in H as (w1 & Hp & H).
  injection H as <- <-. by eapply put_at_keep.
Qed.

Lemma load_core_keep (w : world C) h mem_base eops eh w' r :
  load_core w h mem_base eops eh = Done (w', r) -> keep w w'.
Proof.
  apply or_err_keep; [intros *; apply load_at_keep|].
  intros w1 w2 r2 Hk H. transitivity w1; [done|by eapply load_pt_keep].
Qed.

Lemma load_user_keep (w : world C) h libid mem_base eops eh w' r :
  load_user w h libid mem_base eops eh = Done (w', r) -> keep w w'.
Proof.
  unfold load_user. intros H. apply bind_inv in H as (u & _ & H).
  apply bind_inv in H as (a & _ & H). revert H. apply or_err_keep.
  - intros w1 r1. destruct a; [apply load_at_keep|]. by intros [= <- <-].
  - intros w1 w2 r2 Hk H. transitivity w1; [done|].
    apply bind_inv in H as (p & _ & H). destruct p; [by eapply load_pt_keep|].
    by injection H as <- <-.
Qed.

Lemma do_early_init_keep (w w' : world C) h : do_early_init w h = Done w' -> keep w w'.
Proof. unfold do_early_init. intros. inv_bind. by apply keep_same. Qed.

Lemma elf_opened_keep (w : world C) eh : keep w (elf_opened w eh).
Proof. by apply keep_same. Qed.

Lemma elf_close_keep (w w' : world C) eh : keep w w' -> keep w (elf_close w' eh).
Proof. intros Hk. transitivity w'; [done|]. by apply keep_same. Qed.

Lemma ctrl_set_symtab_keep (w : world C) h libid cs regs w' r :
  ctrl_set_symtab w h libid cs regs = Done (w', r) -> keep w w'.
Proof.
  unfold ctrl_set_symtab. intros H. apply bind_inv in H as (u & Hu & H).
  apply get_udisp_nat in Hu as (n & -> & Hu).
  pose proof (keep_put w n u (set_cs u cs) Hu ltac:(by constructor)) as Hk0. revert H.
  generalize dependent (put_udisp w (Z.of_nat n) (set_cs u cs)). clear u Hu.
  intros w0 Hk0 H. apply bind_inv in H as ([w1 r1] & H1 & H).
  assert (Hk1 : keep w w1).
  { transitivity w0; [done|]. clear H. revert H1.
    destruct (negb (ebx regs =? 0)); [|destruct (negb _); intros; (simplify_eq; reflexivity)].
    intros H1. apply bind_inv in H1 as (eops & _ & H1).
    destruct (eo_open _ _ _) as [eh|]; [|(simplify_eq; reflexivity)].
    apply bind_inv in H1 as ([w2 r2] & H2 & H1).
    assert (Hk2 : keep w0 w2).
    { revert H2. apply or_err_keep.
      - intros w3 r3. clear H1. destruct (negb (eax _ .& _ =? 0)); [|intros; simplify_eq; apply elf_opened_keep].
        intros H3%load_core_keep.
        transitivity (elf_opened w0 eh); [apply elf_opened_keep|done].
      - intros w3 w4 r4 Hk3 H4. etrans; [exact Hk3|]. destruct (negb _ || negb _).
        + by eapply load_user_keep.
        + (simplify_eq; reflexivity). }
    destruct (negb (r2 =? 0)); simplify_eq; by apply elf_close_keep. }
  destruct r1 as [r1|]; [by simplify_eq|]. clear H1.
  etrans; [exact Hk1|]. revert H. apply or_err_keep.
  - intros w2 r2 H. destruct (negb (negb _)); [|(simplify_eq; reflexivity)].
    destruct (_ =? -1); [(simplify_eq; reflexivity)|].
    apply bind_inv in H as (eops & _ & H). destruct (eo_open_dyn _ _ _) as [eh|];
      [|(simplify_eq; reflexivity)].
    apply bind_inv in H as ([w3 r3] & H3%load_core_keep & H).
    assert (keep w1 w3)
      by (transitivity (elf_opened w1 eh); [apply elf_opened_keep|done]).
    destruct (negb (r3 =? 0)); simplify_eq; by apply elf_close_keep.
  - intros w2 w3 r3 Hk2 H. apply bind_inv in H as (w4 & H4%do_early_init_keep & H).
    simplify_eq. by etrans.
Qed.

Lemma ctrl_elfload_keep (w : world C) h libid fn regs w' r regs' :
  ctrl_elfload w h libid fn regs = Done (w', r, regs') -> keep w w'.
Proof.
  unfold ctrl_elfload. intros H. apply bind_inv in H as (eops & _ & H).
  destruct (if fn =? DL_ELFLOAD then _ else _) as [[elf esize]|];
    [|simplify_eq; reflexivity].
  destruct (eo_open _ _ _) as [eh|]; [|simplify_eq; reflexivity].
  destruct (eo_reloc _ _ _ _ _ _) as [[ret entry] m].
  apply bind_inv in H as ([w2 r2] & H2 & H).
  assert (keep w w2).
  { revert H2. apply or_err_keep.
    - intros. simplify_eq. by apply keep_same.
    - intros w3 w4 r4 Hk H4. etrans; [exact Hk|]. by eapply load_user_keep. }
  destruct (negb (r2 =? 0)); simplify_eq; by apply elf_close_keep.
Qed.

Lemma dj64_ctrl_good h (w : world C) handle libid fn cs regs :
  world_ok w -> good h w (dj64_ctrl w handle libid fn cs regs).
Proof.
  intros Hok. unfold dj64_ctrl.
  destruct (c_assert (_ <? MAX_DISPS)); [|exact I]. rewrite bind_Done.
  destruct (c_assert (_ <? MAX_HANDLES)); [|exact I]. rewrite bind_Done.
  destruct (negb (_ =? DL_API_VER)).
  { destruct (_ =? 0); [exact I|]. apply keep_good; [done|reflexivity]. }
  destruct (fn =? DL_SET_SYMTAB).
  { destruct (ctrl_set_symtab _ _ _ _ _) as [[w' r]|] eqn:E; [|exact I].
    apply keep_good; [done|]. by eapply ctrl_set_symtab_keep. }
  destruct (_ || _); [|apply keep_good; [done|reflexivity]].
  destruct (ctrl_elfload _ _ _ _ _) as [[[w' r] regs']|] eqn:E; [|exact I].
  apply keep_good; [done|]. by eapply ctrl_elfload_keep.
Qed.

(** ** Calls *)

Lemma frame_noret h us us' i u :
  frame h us us' -> us !! i = Some u ->
  exists u', us' !! i = Some u' /\ u_noret_jmp u' = u_noret_jmp u.
Proof. intros [_ F] Hu. destruct (F i u Hu) as (u' & ? & []). eauto. Qed.

Lemma good_weaken {A} n (w : world C) (m : outcome (world C * res A)) :
  good None w m -> good (Some n) w m.
Proof.
  destruct m as [[w' [a|f c|s]]|]; simpl; [| |done|done].
  - intros [? ?]. split; [done|by apply frame_weaken].
  - intros (_ & _ & i & u & ? & _). done.
Qed.

(** Code that runs after other code. *)
Lemma good_bind {A B} h (w : world C) (m : outcome (world C * res A))
    (k : world C -> A -> outcome (world C * res B)) :
  good h w m ->
  (forall w' a, m = Done (w', Ret a) -> world_ok w' -> good h w' (k w' a)) ->
  good h w (res_bind m k).
Proof.
  intros Hm Hk. unfold res_bind. destruct m as [[w1 [a|f c|s]]|]; simpl in *; try done.
  destruct Hm as [Hok1 Hf1]. specialize (Hk w1 a eq_refl Hok1).
  destruct (k w1 a) as [[w2 [b|f c|s]]|]; simpl in *; try done.
  - destruct Hk. split; [done|by eapply frame_trans].
  - destruct Hk as (? & Hf2 & i & u1 & -> & Hu1 & Hn).
    split_and!; [done|by eapply frame_trans|].
    assert (exists u, udisps w !! i = Some u) as [u Hu].
    { apply lookup_lt_is_Some_2. destruct Hf1 as [<- _]. by eapply lookup_lt_Some. }
    exists i, u. split_and!; [done..|].
    destruct (frame_noret _ _ _ _ _ Hf1 Hu) as (u1' & ? & <-). by simplify_eq.
Qed.

(** The same after code that leaves objects and calls alone. *)
Lemma good_keep {A B} h (w : world C) (m : outcome (A)) (f : A -> world C)
    (k : A -> outcome (world C * res B)) :
  world_ok w ->
  (forall a, m = Done a -> keep w (f a)) ->
  (forall a, m = Done a -> world_ok (f a) -> good h (f a) (k a)) ->
  good h w (m ≫= k).
Proof.
  intros Hok Hm Hk. destruct m as [a|]; [|exact I]. rewrite bind_Done.
  specialize (Hm a eq_refl). specialize (Hk a eq_refl (keep_ok _ _ Hm Hok)).
  change (k a) with (res_bind (Done (f a, Ret a)) (fun _ _ => k a)).
  apply good_bind; [by apply keep_good|]. intros w' a' [= <- <-] _. exact Hk.
Qed.

Lemma longjmp_good {A} n (w : world C) code :
  world_ok w -> good (Some n) w (longjmp (A := A) w (Z.of_nat n) code).
Proof.
  intros Hok. unfold longjmp. destruct (get_udisp w _) as [u|] eqn:Hu; [|exact I].
  apply get_udisp_Done in Hu. rewrite bind_Done.
  destruct (u_noret_jmp u) as [f|] eqn:E; [|exact I].
  split_and!; [done|apply frame_refl|eauto].
Qed.

Ltac pure_step w :=
  apply (good_keep _ _ _ (fun _ => w)); [assumption|reflexivity|intros ? _ _].
Ltac keep_step lem w' :=
  apply (good_keep _ _ _ (fun w => w)); [assumption|intros ?; apply lem|intros w' _ ?].

Section Call.
Context (call : world C -> Z -> Z -> Z -> Z -> Z -> dpmi_regs ->
                outcome (world C * res (Z * dpmi_regs))).
Hypothesis call_good : forall w handle libid fn cs sp regs,
  world_ok w -> good None w (call w handle libid fn cs sp regs).

Lemma run_host_good h : forall w, world_ok w -> good None w (run_host call h w).
Proof.
  induction h as [rc regs|f k IH|hd libid fn cs sp regs k IH|hd libid fn cs regs k IH];
    intros w Hok; cbn [run_host].
  - apply keep_good; [done|reflexivity].
  - exact (IH (set_mem w (f (w_mem w))) Hok).
  - apply good_bind; [by apply call_good|]. intros w' [rc regs'] _ Hok'. by apply IH.
  - apply good_bind; [by apply dj64_ctrl_good|]. intros w' [rc regs'] _ Hok'. by apply IH.
Qed.

Lemma do_asm_call_good n w pt cs num sp len flags :
  world_ok w ->
  good (Some n) w (do_asm_call call w (Z.of_nat n) pt cs num sp len flags).
Proof.
  intros Hok. unfold do_asm_call. do 5 pure_step w.
  apply good_bind; [by apply good_weaken, run_host_good|].
  intros w1 [rc regs] _ Hok1. keep_step put_s_regs_keep w2.
  destruct (rc =? _); [by apply longjmp_good|]. apply keep_good; [done|reflexivity].
Qed.

Lemma do_asm_noret_good n w pt cs num sp len :
  world_ok w -> good (Some n) w (do_asm_noret call w (Z.of_nat n) pt cs num sp len).
Proof.
  intros Hok. unfold do_asm_noret. do 4 pure_step w.
  apply good_bind; [by apply good_weaken, run_host_good|].
  intros w1 [rc regs] _ Hok1. keep_step put_s_regs_keep w2.
  apply keep_good; [done|reflexivity].
Qed.

Lemma dj64_asm_call_good n w num sp len flags :
  world_ok w -> good (Some n) w (dj64_asm_call call w (Z.of_nat n) num sp len flags).
Proof.
  intros Hok. unfold dj64_asm_call. rewrite get_handle_current. pure_step w.
  keep_step hooks_save_keep w0. pure_step w0. apply good_bind; [by apply do_asm_call_good|].
  intros w1 v _ Hok1. keep_step hooks_restore_keep w2. apply keep_good; [done|reflexivity].
Qed.

Lemma dj64_asm_call_u_good n w libid num sp len flags :
  world_ok w ->
  good (Some n) w (dj64_asm_call_u call w (Z.of_nat n) libid num sp len flags).
Proof.
  intros Hok. unfold dj64_asm_call_u. do 2 pure_step w.
  apply (good_keep _ _ _ (fun _ => w)); [assumption|reflexivity|intros pt _ _].
  destruct pt; [|apply keep_good; [done|reflexivity]].
  keep_step hooks_save_keep w0. apply good_bind; [by apply do_asm_call_good|].
  intros w1 v _ Hok1. keep_step hooks_restore_keep w2. apply keep_good; [done|reflexivity].
Qed.

Lemma dj64_asm_noret_good n w num sp len flags :
  world_ok w -> good (Some n) w (dj64_asm_noret call w (Z.of_nat n) num sp len flags).
Proof.
  intros Hok. unfold dj64_asm_noret. rewrite get_handle_current. pure_step w.
  keep_step hooks_save_keep w0. pure_step w0. apply good_bind; [by apply do_asm_noret_good|].
  intros w1 v _ Hok1. keep_step hooks_restore_keep w2. by apply longjmp_good.
Qed.

Lemma dj64_asm_noret_u_good n w libid num sp len flags :
  world_ok w ->
  good (Some n) w (dj64_asm_noret_u call w (Z.of_nat n) libid num sp len flags).
Proof.
  intros Hok. unfold dj64_asm_noret_u. do 2 pure_step w.
  apply (good_keep _ _ _ (fun _ => w)); [assumption|reflexivity|intros pt _ _].
  destruct pt; [|by apply longjmp_good].
  keep_step hooks_save_keep w0. apply good_bind; [by apply do_asm_noret_good|].
  intros w1 v _ Hok1. keep_step hooks_restore_keep w2. by apply longjmp_good.
Qed.

(** After an operation on the objects. *)
Lemma good_obj {A B} n w (m : outcome A) (f : A -> world C)
    (k : A -> outcome (world C * res B)) :
  (forall a, m = Done a -> obj_step n w (f a)) ->
  (forall a, world_ok (f a) -> good (Some n) (f a) (k a)) ->
  good (Some n) w (m ≫= k).
Proof.
  intros Hm Hk. destruct m as [a|]; [|exact I]. rewrite bind_Done.
  destruct (Hm a eq_refl) as [Hok Hf].
  change (k a) with (res_bind (Done (f a, Ret a)) (fun _ _ => k a)).
  apply good_bind; [by split|]. intros w' a' [= <- <-] _. by apply Hk.
Qed.

Lemma run_client_good n c : forall w,
  client_ok (Z.of_nat n) c -> world_ok w ->
  good (Some n) w (run_client call (Z.of_nat n) c w).
Proof.
  induction c as [r l|f k IH|f k IH|data len io k IH|data fa len k IH|data fa k IH
    |num sp len fl k IH|h libid num sp len fl k IH|num sp len fl|h libid num sp len fl];
    intros w Hc Hok; cbn [run_client client_ok] in *.
  - apply keep_good; [done|reflexivity].
  - exact (IH (set_mem w (f (w_mem w))) Hc Hok).
  - exact (IH (set_ctx w (f (w_ctx w))) Hc Hok).
  - apply (good_obj _ _ _ fst).
    + intros [w' fa]. destruct io; by apply do_obj_init_step.
    + intros [w' fa] Hok'. by apply IH.
  - apply (good_obj _ _ _ id); [|by intros; apply IH].
    intros w'. by apply dj64_obj_done_step.
  - apply (good_obj _ _ _ id); [|by intros; apply IH].
    intros w'. by apply dj64_rm_dosobj_step.
  - apply good_bind; [by apply dj64_asm_call_good|]. intros w' v _ Hok'. by apply IH.
  - destruct Hc as [-> Hc].
    apply good_bind; [by apply dj64_asm_call_u_good|]. intros w' v _ Hok'. by apply IH.
  - by apply dj64_asm_noret_good.
  - subst h. by apply dj64_asm_noret_u_good.
Qed.

(** The [struct udisp] as it is while the dispatched function runs. *)
Definition enter (u : udisp C) (regs : dpmi_regs) (noret : nat) : udisp C :=
  set_noret_jmp (set_s_regs u regs) (Some noret).

Lemma state_ok_insert_disp us heap n u u' :
  state_ok us heap -> us !! n = Some u ->
  u_objs u' = u_objs u -> u_objcnt u' = u_objcnt u ->
  (forall i d fn sp, u_disp u' !! i = Some (Some d) -> client_ok (Z.of_nat n) (d fn sp)) ->
  0 <= u_recur_cnt u' <= MAX_RECUR ->
  (forall i row, u_objs u !! i = Some row -> u_recur_cnt u' <= Z.of_nat i ->
     live_row row = 0%nat) ->
  state_ok (<[n := u']> us) heap.
Proof.
  intros [Hlen Hus Hnull Hheap Honce] Hu Eo Ec Ed Hr Hun.
  assert (Hs : forall h i j, slot (<[n := u']> us) h i j = slot us h i j).
  { intros h i j. unfold slot. destruct (decide (h = n)) as [->|].
    - rewrite list_lookup_insert_eq, Hu by (by eapply lookup_lt_Some). simpl. by rewrite Eo.
    - by rewrite list_lookup_insert_ne by done. }
  constructor; [by rewrite length_insert| |done| |].
  - intros h v [(-> & <- & _)|[_ Hi]]%list_lookup_insert_Some; [|by eauto].
    destruct (Hus _ _ Hu). constructor; unfold unrecorded in *; rewrite ?Eo, ?Ec; done.
  - intros *. rewrite Hs. eauto.
  - intros *. rewrite !Hs. eauto.
Qed.

Lemma state_ok_insert us heap n u u' :
  state_ok us heap -> us !! n = Some u ->
  u_objs u' = u_objs u -> u_objcnt u' = u_objcnt u -> u_disp u' = u_disp u ->
  0 <= u_recur_cnt u' <= MAX_RECUR ->
  (forall i row, u_objs u !! i = Some row -> u_recur_cnt u' <= Z.of_nat i ->
     live_row row = 0%nat) ->
  state_ok (<[n := u']> us) heap.
Proof.
  intros Hok Hu Eo Ec Ed. apply (state_ok_insert_disp _ _ _ u); [done..|].
  rewrite Ed. apply (uo_client _ _ (so_udisp _ _ Hok _ _ Hu)).
Qed.

Lemma enter_ok us heap n u regs noret :
  state_ok us heap -> us !! n = Some u -> state_ok (<[n := enter u regs noret]> us) heap.
Proof.
  intros Hok Hu. pose proof (so_udisp _ _ Hok _ _ Hu) as [].
  by apply (state_ok_insert _ _ _ u).
Qed.

(** When a call is left with as many objects as it was entered with, the objects
    on record are the same. *)
Lemma objs_restored n u u3 :
  udisp_ok n u -> udisp_ok n u3 -> u_recur_cnt u3 = u_recur_cnt u + 1 ->
  (forall i, Z.of_nat i <> u_recur_cnt u -> u_objs u3 !! i = u_objs u !! i) ->
  u_objcnt u3 = u_objcnt u -> unrecorded u <= unrecorded u3 -> u_objs u3 = u_objs u.
Proof.
  intros Hu H3 Er Ho Ec Hle. pose proof (uo_recur _ _ Hu) as Hr. pose proof (uo_recur _ _ H3) as Hr3.
  pose proof (uo_levels _ _ Hu) as Hl. pose proof (uo_levels _ _ H3) as Hl3.
  set (r := Z.to_nat (u_recur_cnt u)).
  destruct (lookup_lt_is_Some_2 (u_objs u) r) as [row Hrow]; [lia|].
  destruct (lookup_lt_is_Some_2 (u_objs u3) r) as [row3 Hrow3]; [lia|].
  assert (E : u_objs u3 = <[r := row3]> (u_objs u)).
  { apply list_eq. intros i. destruct (decide (i = r)) as [->|].
    - rewrite Hrow3, list_lookup_insert_eq; [done|lia].
    - rewrite list_lookup_insert_ne by done. apply Ho. lia. }
  pose proof (live_objs_insert _ _ _ row3 Hrow) as El. rewrite <- E in El.
  unfold unrecorded in Hle. rewrite Ec in Hle.
  pose proof (uo_unused _ _ Hu r row Hrow ltac:(lia)) as Hz.
  pose proof (uo_slots _ _ Hu _ _ Hrow) as Hn. pose proof (uo_slots _ _ H3 _ _ Hrow3) as Hn3.
  rewrite E. apply list_insert_id. rewrite Hrow. f_equal. apply list_eq_same_length with 50%nat;
    [unfold MAX_OBJS in *; lia..|].
  intros j x y _ Hx Hy. apply (live_row_0 _ Hz) in Hx.
  assert (Hz3 : live_row row3 = 0%nat) by lia. apply (live_row_0 _ Hz3) in Hy. congruence.
Qed.

Lemma frame_cur_row h n us us' row :
  frame h us us' -> cur_row us n row ->
  (forall u', us' !! n = Some u' -> Z.of_nat (length (u_objs u')) = MAX_RECUR) ->
  (forall u, us !! n = Some u -> u_recur_cnt u <= MAX_RECUR) ->
  exists row', cur_row us' n row'.
Proof.
  intros [_ F] (u & r & Hu & Er & Hr) Hl Hle.
  destruct (F n u Hu) as (u' & Hu' & Hf). specialize (Hl u' Hu'). specialize (Hle u Hu).
  destruct (lookup_lt_is_Some_2 (u_objs u') r) as [row' Hrow']; [lia|].
  exists row', u', r. by rewrite (uf_recur _ _ _ Hf).
Qed.

Lemma _dj64_call_good n w u row regs fn sp disp :
  world_ok w -> udisps w !! n = Some u -> cur_row (udisps w) n row ->
  (forall d, disp = Some d -> client_ok (Z.of_nat n) (d fn sp)) ->
  match _dj64_call call w (Z.of_nat n) fn regs sp disp with
  | Done (w', Ret _) =>
      world_ok w' /\ frame (Some n) (<[n := enter u regs (w_frames w)]> (udisps w)) (udisps w')
  | Done (w', Jump _ _) => False
  | _ => True
  end.
Proof.
  intros Hok Hu Hrow Hc. unfold _dj64_call.
  rewrite (proj2 (get_udisp_Done _ n u)) by done. rewrite bind_Done.
  destruct disp as [d|]; [|exact I]. cbn [deref]. rewrite bind_Done.
  set (us2 := <[n := enter u regs (w_frames w)]> (udisps w)).
  set (w2 := put_udisp _ _ _).
  assert (E2 : udisps w2 = us2) by apply udisps_put.
  assert (Hok2 : world_ok w2) by (unfold world_ok; rewrite E2; by apply enter_ok).
  assert (Hu2 : us2 !! n = Some (enter u regs (w_frames w)))
    by (apply list_lookup_insert_eq; by eapply lookup_lt_Some).
  pose proof (run_client_good n (d fn sp) w2 (Hc d eq_refl) Hok2) as Hrun.
  destruct (run_client _ _ _ _) as [[w3 [[res len]|f rc|s]]|]; [| |exact I|exact I];
    cbn [good] in Hrun; rewrite bind_Done.
  - destruct Hrun as [Hok3 Hf3]. rewrite E2 in Hf3.
    destruct (get_udisp w3 _) as [u3|]; [|exact I]. rewrite bind_Done.
    by destruct (_ || _ || _).
  - destruct Hrun as (Hok3 & Hf3 & i & u' & [= <-] & Hu' & Hn). rewrite E2 in *.
    rewrite Hu2 in Hu'. injection Hu' as <-. injection Hn as <-.
    rewrite Nat.eqb_refl. destruct (hooks_restore w3 _) as [w4|] eqn:E4; [|exact I].
    apply hooks_restore_keep in E4. rewrite bind_Done.
    assert (Hf4 : frame (Some n) us2 (udisps w4))
      by (eapply frame_trans; [exact Hf3|by apply keep_frame]).
    apply keep_ok in E4; [|done].
    destruct (frame_cur_row (Some n) n us2 (udisps w4) row) as [row' Hrow']; [done| | | |].
    + destruct Hrow as (u0 & r & Hu0 & Er & Hr). simplify_eq.
      by exists (enter u regs (w_frames w)), r.
    + intros u' Hu'. by apply (uo_levels _ _ (so_udisp _ _ E4 _ _ Hu')).
    + intros u' Hu'. rewrite Hu2 in Hu'. injection Hu' as <-. simpl.
      apply (uo_recur _ _ (so_udisp _ _ Hok _ _ Hu)).
    + destruct (gc_objs_spec w4 n row' E4 Hrow') as (w5 & row5 & -> & [Hok5 Hf5] & _).
      rewrite bind_Done. split; [done|]. by eapply frame_trans.
Qed.

(** The end of a call undoes its beginning. *)
Lemma call_leave w n u w2 u2 regs f w3 u3 w4 u4 :
  world_ok w -> udisps w !! n = Some u ->
  keep (put_udisp w (Z.of_nat n) (set_recur_cnt u (u_recur_cnt u + 1))) w2 ->
  udisps w2 !! n = Some u2 -> world_ok w3 ->
  frame (Some n) (<[n := enter u2 regs f]> (udisps w2)) (udisps w3) ->
  udisps w3 !! n = Some u3 -> u_objcnt u3 = u_objcnt u2 ->
  keep (put_udisp w3 (Z.of_nat n) (set_noret_jmp u3 (u_noret_jmp u2))) w4 ->
  udisps w4 !! n = Some u4 ->
  let w5 := put_udisp w4 (Z.of_nat n) (set_recur_cnt u4 (u_recur_cnt u4 - 1)) in
  world_ok w5 /\ frame None (udisps w) (udisps w5).
Proof.
  intros Hok Hu [H2 F2] Hu2 Hok3 [L3 F3] Hu3 Ec Hk4 Hu4 w5. pose proof Hk4 as [H4 F4].
  rewrite udisps_put in F2, F4. assert (H5 : w_heap w5 = w_heap w4) by done.
  pose proof (udisps_put w4 n (set_recur_cnt u4 (u_recur_cnt u4 - 1))) as E5. fold w5 in E5.
  clearbody w5.
  pose proof (lookup_lt_Some _ _ _ Hu) as Hn. pose proof (lookup_lt_Some _ _ _ Hu2) as Hn2.
  pose proof (lookup_lt_Some _ _ _ Hu3) as Hn3. pose proof (lookup_lt_Some _ _ _ Hu4) as Hn4.
  assert (K2 : ukeep (set_recur_cnt u (u_recur_cnt u + 1)) u2).
  { eapply Forall2_lookup_l in F2 as (v & Hv & Hkv);
      [|by apply list_lookup_insert_eq]. by simplify_eq. }
  assert (K3 : uframe (Some (u_recur_cnt u)) (enter u2 regs f) u3).
  { destruct (F3 n (enter u2 regs f)) as (v & Hv & Hfv); [by apply list_lookup_insert_eq|].
    rewrite decide_True in Hfv by done. simplify_eq. destruct K2 as [R2 _ _ _ _].
    simpl in *. rewrite R2 in Hfv. by replace (u_recur_cnt u + 1 - 1) with (u_recur_cnt u) in Hfv by lia. }
  assert (K4 : ukeep (set_noret_jmp u3 (u_noret_jmp u2)) u4).
  { eapply Forall2_lookup_l in F4 as (v & Hv & Hkv);
      [|by apply list_lookup_insert_eq]. by simplify_eq. }
  assert (Hobjs : u_objs u3 = u_objs u).
  { destruct K2 as [R2 _ _ C2 O2], K3 as [R3 _ _ O3 Hle]. simpl in *.
    apply (objs_restored n); [by apply (so_udisp _ _ Hok)|by apply (so_udisp _ _ Hok3)
      |congruence| |congruence|].
    - intros i Hi. rewrite O3 by congruence. by rewrite O2.
    - unfold unrecorded in *. simpl in Hle. by rewrite C2, O2 in Hle. }
  assert (Hok4 : world_ok w4).
  { eapply keep_ok; [exact Hk4|]. unfold world_ok. rewrite udisps_put.
    pose proof (so_udisp _ _ Hok3 _ _ Hu3) as []. by apply (state_ok_insert _ _ _ u3). }
  pose proof (so_udisp _ _ Hok _ _ Hu) as Huok.
  destruct K2 as [R2 N2 D2 C2 O2], K3 as [R3 N3 D3 O3 _], K4 as [R4 N4 D4 C4 O4]; simpl in *.
  split.
  - unfold world_ok. rewrite E5, H5.
    apply (state_ok_insert _ _ _ u4); [done..| |]; destruct Huok; simpl.
    + rewrite R4, R3, R2. lia.
    + rewrite O4, Hobjs, R4, R3, R2. intros i row Hi Hle. apply (uo_unused0 i); [done|lia].
  - rewrite E5. rewrite length_insert in L3. apply Forall2_length in F2 as L2. apply Forall2_length in F4 as L4.
    rewrite length_insert in L2, L4. split; [rewrite length_insert; congruence|].
    intros i v Hv. rewrite decide_False by done. destruct (decide (i = n)) as [->|Hne].
    + rewrite list_lookup_insert_eq by done. eexists. split; [done|]. simplify_eq.
      constructor; simpl; [lia|congruence|congruence| |congruence]. intros k _. congruence.
    + rewrite list_lookup_insert_ne by done.
      eapply (Forall2_lookup_l _ _ _ i v) in F2 as (v2 & Hv2 & [R N D Ecn O]);
        [|by rewrite list_lookup_insert_ne by done].
      destruct (F3 i v2) as (v3 & Hv3 & [R' N' D' O' Ecn']); [by rewrite list_lookup_insert_ne by done|].
      rewrite decide_False in O', Ecn' by congruence.
      eapply (Forall2_lookup_l _ _ _ i v3) in F4 as (v4 & Hv4 & [R'' N'' D'' Ecn'' O'']);
        [|by rewrite list_lookup_insert_ne by done].
      exists v4. split; [done|]. constructor; [congruence..| |congruence].
      intros k _. rewrite O'', O' by done. congruence.
Qed.

Lemma dj64_call_body_good w handle libid fn cs sp regs :
  world_ok w -> good None w (dj64_call_body call w handle libid fn cs sp regs).
Proof.
  intros Hok. unfold dj64_call_body.
  destruct (c_assert (handle <? MAX_HANDLES)); [rewrite bind_Done|exact I].
  destruct (c_assert (libid <? MAX_DISPS)); [rewrite bind_Done|exact I].
  destruct (get_udisp w handle) as [u|] eqn:Hu; [rewrite bind_Done|exact I].
  apply get_udisp_nat in Hu as (n & -> & Hu).
  destruct (Z.ltb_spec (u_recur_cnt u) MAX_RECUR) as [Hlt|];
    [cbn [c_assert]; rewrite bind_Done|exact I].
  pose proof (so_udisp _ _ Hok _ _ Hu) as Huok.
  destruct (hooks_restore _ _) as [w2|] eqn:E2; [rewrite bind_Done|exact I].
  apply hooks_restore_keep in E2.
  assert (Hok2 : world_ok w2).
  { eapply keep_ok; [exact E2|]. unfold world_ok. rewrite udisps_put. destruct Huok.
    apply (state_ok_insert _ _ _ u); [done..|simpl; lia|].
    simpl. intros; eapply uo_unused0; [done|lia]. }
  destruct (get_udisp w2 _) as [u2|] eqn:Hu2; [rewrite bind_Done|exact I].
  apply get_udisp_Done in Hu2.
  destruct (arr_get (u_disp u2) libid) as [disp|] eqn:Ed; [rewrite bind_Done|exact I].
  assert (Hrow : exists row, cur_row (udisps w2) n row).
  { destruct E2 as [_ F]. rewrite udisps_put in F.
    eapply Forall2_lookup_r in F as (v & Hv & [R _ _ _ O]); [|exact Hu2].
    rewrite list_lookup_insert_eq in Hv by (by eapply lookup_lt_Some). injection Hv as <-.
    simpl in *. destruct Huok.
    destruct (lookup_lt_is_Some_2 (u_objs u) (Z.to_nat (u_recur_cnt u))) as [row Hr]; [lia|].
    exists row, u2, (Z.to_nat (u_recur_cnt u)). rewrite R, O. split_and!; [done|lia|done]. }
  destruct Hrow as [row Hrow].
  pose proof (_dj64_call_good n w2 u2 row regs fn (sp + sizeof_regs + 8) disp Hok2 Hu2 Hrow) as Hcall.
  assert (Hc : forall d, disp = Some d ->
    client_ok (Z.of_nat n) (d fn (sp + sizeof_regs + 8))).
  { intros d ->. apply arr_get_Done in Ed as [_ Ed].
    by eapply (uo_client _ _ (so_udisp _ _ Hok2 _ _ Hu2)). }
  specialize (Hcall Hc).
  destruct (_dj64_call _ _ _ _ _ _ _) as [[w3 [[ret regs']|f c|s]]|];
    [|done|exact I|exact I]. destruct Hcall as [Hok3 Hf3].
  unfold res_bind. rewrite bind_Done.
  destruct (get_udisp w3 _) as [u3|] eqn:Hu3; [rewrite bind_Done|exact I].
  apply get_udisp_Done in Hu3.
  destruct (Z.eqb_spec (u_objcnt u3) (u_objcnt u2)) as [Ec|];
    [cbn [c_assert]; rewrite bind_Done|exact I].
  set (w3' := put_udisp w3 _ _).
  destruct (if ret =? DJ64_RET_OK then hooks_save w3' else Done w3') as [w4|] eqn:E4;
    [rewrite bind_Done|exact I].
  assert (K4 : keep w3' w4)
    by (destruct (ret =? _); [by apply hooks_save_keep|simplify_eq; reflexivity]).
  destruct (get_udisp w4 _) as [u4|] eqn:Hu4; [rewrite bind_Done|exact I].
  apply get_udisp_Done in Hu4. by eapply call_leave.
Qed.

End Call.

Lemma dj64_call_good fuel : forall w handle libid fn cs sp regs,
  world_ok w -> good None w (dj64_call fuel w handle libid fn cs sp regs).
Proof.
  induction fuel as [|fuel IH]; intros; [exact I|]. by apply dj64_call_body_good.
Qed.

(** ** The depth of nested calls *)

Lemma bind_ext {A B} (m : outcome A) (k1 k2 : A -> outcome B) :
  (forall a, m = Done a -> k1 a = k2 a) -> (m ≫= k1) = (m ≫= k2).
Proof. destruct m; intros H; [by apply H|done]. Qed.

Lemma res_bind_ext {A B} (m1 m2 : outcome (world C * res A))
    (k1 k2 : world C -> A -> outcome (world C * res B)) :
  m1 = m2 -> (forall w a, m1 = Done (w, Ret a) -> k1 w a = k2 w a) ->
  res_bind m1 k1 = res_bind m2 k2.
Proof. intros <- H. unfold res_bind. destruct m1 as [[w [a| |]]|]; [by apply H|done..]. Qed.

Definition within (k : nat) (w : world C) : Prop := world_ok w /\ (room (udisps w) < k)%nat.

Lemma within_keep k w w' : keep w w' -> within k w -> within k w'.
Proof.
  intros Hk [Hok Hr]. split; [by eapply keep_ok|].
  by rewrite (frame_room None _ _ (keep_frame _ _ _ Hk)).
Qed.

Lemma within_good {A} h k w w' (a : A) : good h w (Done (w', Ret a)) -> within k w -> within k w'.
Proof. intros [Hok' Hf] [_ Hr]. split; [done|]. by rewrite (frame_room _ _ _ Hf). Qed.

Lemma within_obj n k w w' : obj_step n w w' -> within k w -> within k w'.
Proof. intros [Hok Hf]. by apply (within_good (Some n) k w w' tt). Qed.

Section Agree.
Context (call1 call2 : world C -> Z -> Z -> Z -> Z -> Z -> dpmi_regs ->
                       outcome (world C * res (Z * dpmi_regs))) (k : nat).
Hypothesis call1_good : forall w handle libid fn cs sp regs,
  world_ok w -> good None w (call1 w handle libid fn cs sp regs).
Hypothesis agree : forall w handle libid fn cs sp regs, within k w ->
  call1 w handle libid fn cs sp regs = call2 w handle libid fn cs sp regs.

Lemma run_host_agree h : forall w, within k w -> run_host call1 h w = run_host call2 h w.
Proof.
  induction h as [rc regs|f h IH|hd libid fn cs sp regs h IH|hd libid fn cs regs h IH];
    intros w Hw; cbn [run_host].
  - done.
  - by apply IH.
  - apply res_bind_ext; [by apply agree|]. intros w' [rc regs'] E. apply IH.
    eapply within_good; [|exact Hw]. rewrite <- E. apply call1_good, Hw.
  - apply res_bind_ext; [done|]. intros w' [rc regs'] E. apply IH.
    eapply (within_good None); [|exact Hw]. rewrite <- E. apply dj64_ctrl_good, Hw.
Qed.

Lemma do_asm_call_agree w n pt cs num sp len flags : within k w ->
  do_asm_call call1 w n pt cs num sp len flags = do_asm_call call2 w n pt cs num sp len flags.
Proof.
  intros Hw. unfold do_asm_call. do 5 (apply bind_ext; intros ? _).
  apply res_bind_ext; [by apply run_host_agree|done].
Qed.

Lemma do_asm_noret_agree w n pt cs num sp len : within k w ->
  do_asm_noret call1 w n pt cs num sp len = do_asm_noret call2 w n pt cs num sp len.
Proof.
  intros Hw. unfold do_asm_noret. do 4 (apply bind_ext; intros ? _).
  apply res_bind_ext; [by apply run_host_agree|done].
Qed.

Lemma asm_call_agree w n num sp len flags : within k w ->
  dj64_asm_call call1 w n num sp len flags = dj64_asm_call call2 w n num sp len flags.
Proof.
  intros Hw. unfold dj64_asm_call. apply bind_ext; intros ? _.
  apply bind_ext. intros w' Hk%hooks_save_keep. apply bind_ext; intros ? _.
  apply res_bind_ext; [apply do_asm_call_agree; by eapply within_keep|done].
Qed.

Lemma asm_noret_agree w n num sp len flags : within k w ->
  dj64_asm_noret call1 w n num sp len flags = dj64_asm_noret call2 w n num sp len flags.
Proof.
  intros Hw. unfold dj64_asm_noret. apply bind_ext; intros ? _.
  apply bind_ext. intros w' Hk%hooks_save_keep. apply bind_ext; intros ? _.
  apply res_bind_ext; [apply do_asm_noret_agree; by eapply within_keep|done].
Qed.

Lemma asm_call_u_agree w n libid num sp len flags : within k w ->
  dj64_asm_call_u call1 w n libid num sp len flags =
  dj64_asm_call_u call2 w n libid num sp len flags.
Proof.
  intros Hw. unfold dj64_asm_call_u. do 2 (apply bind_ext; intros ? _).
  apply bind_ext. intros [pt|] _; [|done]. apply bind_ext. intros w' Hk%hooks_save_keep.
  apply res_bind_ext; [apply do_asm_call_agree; by eapply within_keep|done].
Qed.

Lemma asm_noret_u_agree w n libid num sp len flags : within k w ->
  dj64_asm_noret_u call1 w n libid num sp len flags =
  dj64_asm_noret_u call2 w n libid num sp len flags.
Proof.
  intros Hw. unfold dj64_asm_noret_u. do 2 (apply bind_ext; intros ? _).
  apply bind_ext. intros [pt|] _; [|done]. apply bind_ext. intros w' Hk%hooks_save_keep.
  apply res_bind_ext; [apply do_asm_noret_agree; by eapply within_keep|done].
Qed.

Lemma run_client_agree n c : forall w, client_ok (Z.of_nat n) c -> within k w ->
  run_client call1 (Z.of_nat n) c w = run_client call2 (Z.of_nat n) c w.
Proof.
  induction c as [r l|f c IH|f c IH|data len io c IH|data fa len c IH|data fa c IH
    |num sp len fl c IH|h libid num sp len fl c IH|num sp len fl|h libid num sp len fl];
    intros w Hc Hw; cbn [run_client client_ok] in *; pose proof Hw as [Hok _].
  - done.
  - exact (IH (set_mem w (f (w_mem w))) Hc Hw).
  - exact (IH (set_ctx w (f (w_ctx w))) Hc Hw).
  - apply bind_ext. intros [w' fa] E. apply IH; [done|]. eapply (within_obj n); [|exact Hw].
    destruct io; by eapply do_obj_init_step.
  - apply bind_ext. intros w' E. apply IH; [done|]. eapply (within_obj n); [|exact Hw].
    by eapply dj64_obj_done_step.
  - apply bind_ext. intros w' E. apply IH; [done|]. eapply (within_obj n); [|exact Hw].
    by eapply dj64_rm_dosobj_step.
  - apply res_bind_ext; [by apply asm_call_agree|]. intros w' v E. apply IH; [done|].
    eapply (within_good (Some n)); [|exact Hw]. rewrite <- E. by apply dj64_asm_call_good.
  - destruct Hc as [-> Hc].
    apply res_bind_ext; [by apply asm_call_u_agree|]. intros w' v E. apply IH; [done|].
    eapply (within_good (Some n)); [|exact Hw]. rewrite <- E. by apply dj64_asm_call_u_good.
  - by apply asm_noret_agree.
  - by apply asm_noret_u_agree.
Qed.

End Agree.

Lemma room_insert us (n : nat) (u u' : udisp C) :
  us !! n = Some u ->
  (room (<[n := u']> us) + Z.to_nat (MAX_RECUR - u_recur_cnt u) =
   room us + Z.to_nat (MAX_RECUR - u_recur_cnt u'))%nat.
Proof.
  intros Hn. unfold room. rewrite <- (take_drop_middle us n u Hn) at 2.
  rewrite insert_take_drop by (by eapply lookup_lt_Some).
  rewrite !sum_list_with_app. simpl. lia.
Qed.

(** Entering a call uses up one level. *)
Lemma within_enter k w n u w2 u2 regs f :
  world_ok w -> (room (udisps w) <= k)%nat -> udisps w !! n = Some u ->
  u_recur_cnt u < MAX_RECUR ->
  keep (put_udisp w (Z.of_nat n) (set_recur_cnt u (u_recur_cnt u + 1))) w2 ->
  udisps w2 !! n = Some u2 ->
  world_ok w2 /\
  within k (put_udisp (set_frames w2 (S f)) (Z.of_nat n) (enter u2 regs f)).
Proof.
  intros Hok Hr Hu Hlt Hk Hu2. pose proof (so_udisp _ _ Hok _ _ Hu) as Huok.
  assert (Hok1 : world_ok (put_udisp w (Z.of_nat n) (set_recur_cnt u (u_recur_cnt u + 1)))).
  { unfold world_ok. rewrite udisps_put. destruct Huok.
    apply (state_ok_insert _ _ _ u); [done..|simpl; lia|].
    simpl. intros; eapply uo_unused0; [done|lia]. }
  pose proof (keep_ok _ _ Hk Hok1) as Hok2. split; [done|]. split.
  - unfold world_ok. rewrite udisps_put. by apply enter_ok.
  - rewrite udisps_put. pose proof (room_insert (udisps w2) n u2 (enter u2 regs f) Hu2) as E2.
    pose proof (room_insert (udisps w) n u (set_recur_cnt u (u_recur_cnt u + 1)) Hu) as E1.
    pose proof (frame_room None _ _ (keep_frame _ _ _ Hk)) as E. rewrite udisps_put in E.
    simpl in *. destruct Huok. lia.
Qed.

Lemma dj64_call_body_agree call1 call2 k w handle libid fn cs sp regs :
  (forall w handle libid fn cs sp regs,
     world_ok w -> good None w (call1 w handle libid fn cs sp regs)) ->
  (forall w handle libid fn cs sp regs, within k w ->
     call1 w handle libid fn cs sp regs = call2 w handle libid fn cs sp regs) ->
  world_ok w -> (room (udisps w) <= k)%nat ->
  dj64_call_body call1 w handle libid fn cs sp regs =
  dj64_call_body call2 w handle libid fn cs sp regs.
Proof.
  intros Hgood Hagree Hok Hr. unfold dj64_call_body. do 2 (apply bind_ext; intros ? _).
  apply bind_ext. intros u (n & -> & Hu)%get_udisp_nat.
  apply bind_ext. intros ? Hlt%c_assert_Done%Z.ltb_lt.
  apply bind_ext. intros w2 Hk%hooks_restore_keep.
  apply bind_ext. intros u2 Hu2%get_udisp_Done.
  apply bind_ext. intros disp [_ Ed]%arr_get_Done.
  apply res_bind_ext; [|done]. unfold _dj64_call.
  rewrite (proj2 (get_udisp_Done (set_frames w2 _) n u2)), !bind_Done by done.
  apply bind_ext. intros d ->%deref_Done.
  destruct (within_enter k w n u w2 u2 regs (w_frames w2) Hok Hr Hu Hlt Hk Hu2) as [Hok2 Hw].
  f_equal. apply (run_client_agree _ _ k); [done|done| |done].
  by eapply (uo_client _ _ (so_udisp _ _ Hok2 _ _ Hu2)).
Qed.

Lemma dj64_call_fuel fuel : forall w handle libid fn cs sp regs,
  world_ok w -> (room (udisps w) < fuel)%nat ->
  dj64_call fuel w handle libid fn cs sp regs = dj64_call (S fuel) w handle libid fn cs sp regs.
Proof.
  induction fuel as [|fuel IH]; intros * Hok Hr; [lia|].
  change (dj64_call_body (dj64_call fuel) w handle libid fn cs sp regs =
          dj64_call_body (dj64_call (S fuel)) w handle libid fn cs sp regs).
  apply (dj64_call_body_agree _ _ fuel); [apply dj64_call_good| |done|lia].
  intros * [Hok' Hr']. by apply IH.
Qed.

Lemma room_max us heap : state_ok us heap -> (room us <= 100)%nat.
Proof.
  intros Hok. assert (H : (room us <= 10 * length us)%nat).
  { pose proof (so_udisp _ _ Hok) as Hus. clear Hok. revert Hus.
    assert (G : forall k, (forall h u, us !! h = Some u -> udisp_ok (k + h) u) ->
      (room us <= 10 * length us)%nat); [|apply (G 0%nat)].
    unfold room. induction us as [|u us IH]; intros k Hus; [done|]. simpl.
    pose proof (Hus 0%nat u eq_refl) as []. unfold MAX_RECUR in *.
    specialize (IH (S k)). assert (forall h v, us !! h = Some v -> udisp_ok (S k + h) v)
      by (intros h v Hv; replace (S k + h)%nat with (k + S h)%nat by lia; by apply Hus).
    specialize (IH H). lia. }
  pose proof (so_handles _ _ Hok). unfold MAX_HANDLES in *. lia.
Qed.

(** ** Recovery after a longjmp *)

Lemma live_after_gc us us' n u u' row row' heap heap' :
  state_ok us heap -> state_ok us' heap' -> us !! n = Some u -> us' !! n = Some u' ->
  uframe (Some (u_recur_cnt u - 1)) u u' ->
  cur_row us n row -> live_row row = 0%nat ->
  cur_row us' n row' -> live_row row' = 0%nat ->
  u_objcnt u' - u_objcnt u = unrecorded u' - unrecorded u.
Proof.
  intros Hok Hok' Hu Hu' [R _ _ O _] (v & r & Hv & Er & Hr) Hl (v' & r' & Hv' & Er' & Hr') Hl'.
  rewrite Hu in Hv. rewrite Hu' in Hv'. simplify_eq. rewrite R in Er'.
  assert (r' = r) as -> by lia.
  pose proof (so_udisp _ _ Hok _ _ Hu) as []. pose proof (so_udisp _ _ Hok' _ _ Hu') as [].
  assert (E : u_objs v' = <[r := row']> (u_objs v)).
  { apply list_eq. intros i. destruct (decide (i = r)) as [->|].
    - rewrite Hr', list_lookup_insert_eq; [done|by eapply lookup_lt_Some].
    - rewrite list_lookup_insert_ne by done. apply O. rewrite Er. intros [= ?]. lia. }
  pose proof (live_objs_insert _ _ _ row' Hr) as El. rewrite <- E in El.
  unfold unrecorded. lia.
Qed.

Lemma _dj64_call_recovers call n w u row regs fn sp d w2 f rc w3 :
  (forall w handle libid fn cs sp regs,
     world_ok w -> good None w (call w handle libid fn cs sp regs)) ->
  world_ok w -> udisps w !! n = Some u -> cur_row (udisps w) n row -> live_row row = 0%nat ->
  client_ok (Z.of_nat n) (d fn sp) ->
  run_client call (Z.of_nat n) (d fn sp)
    (put_udisp (set_frames w (S (w_frames w))) (Z.of_nat n) (enter u regs (w_frames w))) =
    Done (w2, Jump f rc) ->
  hooks_restore w2 (Z.of_nat n) = Done w3 ->
  exists w4 row2 u2 u4,
    _dj64_call call w (Z.of_nat n) fn regs sp (Some d) =
      Done (w4, Ret (if rc =? ASM_NORET then DJ64_RET_NORET else DJ64_RET_ABORT, regs)) /\
    cur_row (udisps w2) n row2 /\ w_heap w4 = w_heap w2 ∖ list_to_set row2 /\
    udisps w2 !! n = Some u2 /\ udisps w4 !! n = Some u4 /\
    u_objcnt u4 - u_objcnt u = unrecorded u2 - unrecorded u.
Proof.
  intros Hgood Hok Hu Hrow Hlive Hc Hrun Hres.
  set (us1 := <[n := enter u regs (w_frames w)]> (udisps w)).
  assert (Hu1 : us1 !! n = Some (enter u regs (w_frames w)))
    by (apply list_lookup_insert_eq; by eapply lookup_lt_Some).
  set (w1 := put_udisp _ _ _) in Hrun. assert (E1 : udisps w1 = us1) by apply udisps_put.
  assert (Hok1 : world_ok w1) by (unfold world_ok; rewrite E1; by apply enter_ok).
  assert (Hrow1 : cur_row us1 n row).
  { destruct Hrow as (v & r & Hv & Er & Hr). simplify_eq. by eexists _, r. }
  pose proof (run_client_good call Hgood n (d fn sp) w1 Hc Hok1) as G. rewrite Hrun in G.
  destruct G as (Hok2 & Hf2 & i & v & [= <-] & Hv & Hn). rewrite E1 in Hf2, Hv.
  rewrite Hu1 in Hv. injection Hv as <-. injection Hn as <-.
  pose proof (hooks_restore_keep _ _ _ Hres) as Hk3. pose proof (keep_ok _ _ Hk3 Hok2) as Hok3.
  pose proof Hf2 as [_ F2]. destruct (F2 _ _ Hu1) as (u2 & Hu2 & Hfu2).
  destruct (frame_cur_row (Some n) n us1 (udisps w2) row) as [row2 Hrow2]; [done..| | |].
  { intros v Hv. apply (uo_levels _ _ (so_udisp _ _ Hok2 _ _ Hv)). }
  { intros v Hv. rewrite Hu1 in Hv. injection Hv as <-.
    apply (uo_recur _ _ (so_udisp _ _ Hok _ _ Hu)). }
  assert (Hrow3 : cur_row (udisps w3) n row2).
  { destruct Hrow2 as (v & r & Hv & Er & Hr). pose proof Hk3 as [_ F3].
    eapply Forall2_lookup_l in F3 as (v3 & Hv3 & [R _ _ _ O]); [|exact Hv].
    exists v3, r. by rewrite R, O. }
  destruct (gc_objs_spec w3 n row2 Hok3 Hrow3) as (w4 & row4 & Hgc & [Hok4 Hf4] & Hrow4 & Hl4 & Hh4 & Hun4).
  assert (Hf14 : frame (Some n) us1 (udisps w4)).
  { eapply frame_trans; [exact Hf2|]. eapply frame_trans; [by apply keep_frame|exact Hf4]. }
  destruct Hf14 as [_ F14]. destruct (F14 _ _ Hu1) as (u4 & Hu4 & Hfu4).
  rewrite decide_True in Hfu4 by done. exists w4, row2, u2, u4. split_and!; [|done| |done|done|].
  - unfold _dj64_call. rewrite (proj2 (get_udisp_Done (set_frames w _) n u)), bind_Done by done.
    cbn [deref]. rewrite bind_Done. fold (enter u regs (w_frames w)). fold w1. rewrite Hrun, bind_Done.
    rewrite Nat.eqb_refl, Hres, bind_Done, Hgc. done.
  - destruct Hk3 as [<- _]. done.
  - pose proof (live_after_gc us1 (udisps w4) n (enter u regs (w_frames w)) u4 row row4 (w_heap w) (w_heap w4)
      ltac:(by apply enter_ok) Hok4 Hu1 Hu4 Hfu4 Hrow1 Hlive Hrow4 Hl4) as El.
    assert (E4 : unrecorded u4 = unrecorded u2).
    { rewrite Hu4 in Hun4. pose proof Hk3 as [_ F3].
      eapply Forall2_lookup_l in F3 as (v3 & Hv3 & [_ _ _ Ec Eo]); [|exact Hu2]. rewrite Hv3 in Hun4.
      injection Hun4 as ->. unfold unrecorded. by rewrite Ec, Eo. }
    rewrite E4 in El. exact El.
Qed.

End Props.
