(* ===== verification/ThunkThms.v ===== *)
(** * The dj64 thunk layer: theorems

    The claims about src/libc/dj64/thunks.c, with a small host on which their
    hypotheses hold. *)

From Stdlib Require Import String.
From stdpp Require Import base gmap list numbers.
From Stdlib Require Import ZArith Lia.
From S2P Require Import Prelude MemFuns ThunkState Thunks ThunkProps.

Open Scope Z_scope.
Open Scope c_scope.

(** ** The state at program start *)

(** [static struct udisp udisps[]] as the C implementation clears it, but for
    the dispatch table and the process' own tables. *)
Record udisp_zero {C} (h : nat) (u : udisp C) : Prop := {
  uz_recur : u_recur_cnt u = 0;
  uz_objcnt : u_objcnt u = 0;
  uz_objs : u_objs u = replicate 10 (replicate 50 0);
  uz_client : forall i d fn sp, u_disp u !! i = Some (Some d) ->
    client_ok (Z.of_nat h) (d fn sp) }.

Lemma live_row_zero n : live_row (replicate n 0) = 0%nat.
Proof. apply live_row_0_intro. intros j o. rewrite lookup_replicate. by intros [-> _]. Qed.

Lemma slot_zero {C} (us : list (udisp C)) h i j a :
  (forall h u, us !! h = Some u -> udisp_zero h u) -> slot us h i j = Some a -> a = 0.
Proof.
  intros Hz. unfold slot. destruct (us !! h) as [u|] eqn:Hu; [|done]. simpl.
  destruct (Hz _ _ Hu) as [_ _ Ho _]. rewrite Ho.
  destruct (replicate 10 (replicate 50 0) !! i) as [row|] eqn:Hi; [|done]. simpl.
  apply lookup_replicate in Hi as [-> _]. rewrite lookup_replicate. by intros [-> _].
Qed.

Lemma zero_world_ok {C} (w : world C) :
  length (udisps w) = 10%nat -> 0 ∉ w_heap w ->
  (forall h u, udisps w !! h = Some u -> udisp_zero h u) -> world_ok w.
Proof.
  intros Hlen H0 Hz. constructor; [by rewrite Hlen| |done| |].
  - intros h u Hu. destruct (Hz h u Hu) as [Hr Hc Ho Hcl].
    constructor; unfold unrecorded; rewrite ?Hr, ?Hc, ?Ho;
      [done|done| |by vm_compute| |done].
    + intros i row [-> _]%lookup_replicate. by rewrite length_replicate.
    + intros i row [-> _]%lookup_replicate _. apply live_row_zero.
  - intros h i j a Ha Hne. by apply slot_zero in Ha.
  - intros h i j h' i' j' a Ha _ Hne. by apply slot_zero in Ha.
Qed.

(** ** A small host *)

(** The first address above the blocks in use. *)
Definition next_free (heap : gset Z) : Z := 1 + foldr Z.max 0 (elements heap).

(** ... as long as it is one of 32 bits *)
Definition free_32 (heap : gset Z) : Z := if next_free heap <? 2 ^ 32 then next_free heap else 0.

Lemma foldr_max_ge l a : a ∈ l -> a <= foldr Z.max 0 l.
Proof. induction l as [|b l IH]; [by intros ?%not_elem_of_nil|]. simpl. set_solver by lia. Qed.

Lemma next_free_fresh heap : next_free heap <> 0 /\ next_free heap ∉ heap.
Proof.
  unfold next_free. split.
  - assert (0 <= foldr Z.max 0 (elements heap)); [|lia].
    induction (elements heap) as [|b l IH]; simpl; lia.
  - intros H. apply elem_of_elements in H. apply foldr_max_ge in H. lia.
Qed.

Lemma free_32_unused heap : free_32 heap = 0 \/ free_32 heap ∉ heap.
Proof. unfold free_32. case_match; [right; apply next_free_fresh|by left]. Qed.

(** Assembler code at offset 7 aborts, all other code returns at once with
    [edx] set. *)
Definition demo_call (m : gmap Z Z) (regs : dpmi_regs) (cs off sp len : Z) : host :=
  HRet (if off =? 7 then 1 else 0)
    (mk_regs 0xffffffff (ebx regs) (ecx regs) 5 (esi regs) (other_regs regs)).

Definition demo_api : Dj64Api := {|
  DJ64_RET_OK := 0; DJ64_RET_NORET := 1; DJ64_RET_ABORT := 2;
  ASM_CALL_OK := 0; ASM_CALL_ABORT := 1; DJ64_API_MIN_VER := 10;
  sizeof_regs := 52; djgpp_base_address := 0;
  addr2ptr := fun a => 1000 + a; addr2ptr2 := fun a _ => 1000 + a;
  ptr2addr := fun p => p - 1000; is_dos_ptr := fun p => 1000 <=? p;
  get_handle := fun h => h; asm_call := demo_call; asm_noret := demo_call;
  api_malloc := fun _ => true; api_elfload := fun _ _ _ => 0;
  malloc32 := fun heap _ => free_32 heap;
  asm_thunks := mk_athunks [lit "__crt0_startup_flags"] 1 None;
  pthunks := mk_athunks [lit "_exit"] 1 None;
  ret_noret_ne := ltac:(discriminate); ret_abort_ne := ltac:(discriminate);
  asm_call_ne := ltac:(discriminate) |}.

(** A program whose function 0 makes a DOS object and enters aborting code;
    function 1 leaves it by a call that does not return. *)
Definition demo_disp (fn sp : Z) : client unit :=
  if fn =? 0 then CObjInit 100 4 true (fun _ => CAsmCall 0 0 0 0 (fun v => CRet v 4))
  else if fn =? 1 then CObjInit 100 4 false (fun _ => CAsmNoret 1 0 0 0)
  else CObjInit 100 2 false (fun fa => CAsmCall 1 0 0 0 (fun v => CObjDone 100 fa 2 (CRet v 4))).

Definition demo_udisp : udisp unit :=
  mk_udisp [Some demo_disp; None; None; None; None] None
    [Some (CoreAt 0); None; None; None; None] [Some (CorePt 0); None; None; None; None]
    (mk_athunks [] 0 None) (mk_athunks [lit "_a"; lit "_b"] 2 (Some [Some 7; Some 8]))
    0 0 0 (mk_regs 0 0 0 0 0 []) 0 0 None (replicate 10 (replicate 50 0)).

Definition no_udisp : udisp unit :=
  mk_udisp (replicate 5 None) None (replicate 5 None) (replicate 5 None)
    (mk_athunks [] 0 None) (mk_athunks [] 0 None) 0 0 0 (mk_regs 0 0 0 0 0 []) 0 0 None
    (replicate 10 (replicate 50 0)).

Definition demo_world : world unit :=
  mk_world (demo_udisp :: replicate 9 no_udisp) true 20 None None None None None 0 0 0
    [] [] ∅ ∅ 0 tt (write_bytes (mem_of 100 [1; 2; 3; 4]) 1000 (replicate 16 0)) ∅ [] 0.

Lemma demo_world_ok : world_ok demo_world.
Proof.
  apply zero_world_ok; [done|done|]. intros [|h] u; simpl.
  - intros [= <-]. constructor; [done..|]. intros [|i] d fn sp; simpl.
    + intros [= <-]. unfold demo_disp. by repeat case_match.
    + by destruct i as [|[|[|[|i]]]].
  - intros [-> _]%(lookup_replicate_1 9). constructor; [done..|].
    intros i d fn sp. by destruct i as [|[|[|[|[|i]]]]].
Qed.

(** ** Nested calls *)

Section Thms.
Context {C : Type} {api : Dj64Api}.

(** The host tells the handle of the call it is serving, and malloc32 gives out a block
    that is not in use, or 0 when it has none. *)
Hypothesis get_handle_current : forall h, get_handle h = h.
Hypothesis malloc32_unused : forall heap len,
  malloc32 heap len = 0 \/ malloc32 heap len ∉ heap.

(** C1. Whatever the called C code and the DOS code it calls do, whether malloc32 gives
    memory or fails, a call of dj64_call that returns to DOS leaves every handle as it
    found it: the nesting count, the jump buffer, the objects on record and [objcnt] of
    all ten handles are unchanged, every object on record is allocated and recorded
    once, and [objcnt] is not below their number. A longjmp never escapes from the call
    that it was meant for. The C code is code that names its own handle to the thunks of
    its library, the host reports the handle of the call that it serves, and malloc32
    returns 0 or a block that is not in use. *)
Theorem dj64_call_balanced fuel (w : world C) handle libid fn cs sp regs :
  world_ok w ->
  match dj64_call fuel w handle libid fn cs sp regs with
  | Done (w', Ret _) => world_ok w' /\ frame None (udisps w) (udisps w')
  | Done (_, Jump _ _) => False
  | _ => True
  end.
Proof.
  intros Hok.
  pose proof (dj64_call_good get_handle_current malloc32_unused fuel w handle libid fn cs
    sp regs Hok) as H.
  destruct (dj64_call _ _ _ _ _ _ _ _) as [[w' [a|f c|s]]|]; [done| |done|done].
  by destruct H as (_ & _ & i & u & ? & _).
Qed.

(** C4. Nested calls are at most 100 deep (ten for each of the ten handles, where the
    code asserts [recur_cnt < MAX_RECUR]): with 101 levels the model of dj64_call
    gives the result that it gives with any greater number. The conditions on the C
    code, the host and malloc32, which may fail, are those of [dj64_call_balanced]. *)
Theorem dj64_call_depth fuel (w : world C) handle libid fn cs sp regs :
  world_ok w -> (101 <= fuel)%nat ->
  dj64_call fuel w handle libid fn cs sp regs = dj64_call 101 w handle libid fn cs sp regs.
Proof.
  intros Hok Hf. pose proof (room_max _ _ Hok) as Hr.
  induction Hf as [|fuel Hf IH]; [done|]. rewrite <- IH. symmetry.
  apply dj64_call_fuel; [done..|lia].
Qed.

(** A call whose C code comes back with [ret] returns it, where no object leaks. *)
Lemma call_body_returns call (w : world C) (n libid : nat) u fn cs sp regs d w1 u1 w4 u4 ret :
  world_ok w -> Z.of_nat libid < MAX_DISPS -> udisps w !! n = Some u ->
  u_recur_cnt u < MAX_RECUR ->
  hooks_restore (put_udisp w (Z.of_nat n) (set_recur_cnt u (u_recur_cnt u + 1)))
    (Z.of_nat n) = Done w1 ->
  udisps w1 !! n = Some u1 -> u_disp u1 !! libid = Some (Some d) ->
  _dj64_call call w1 (Z.of_nat n) fn regs (sp + sizeof_regs + 8) (Some d) =
    Done (w4, Ret (ret, regs)) ->
  udisps w4 !! n = Some u4 -> ret <> DJ64_RET_OK ->
  exists w', dj64_call_body call w (Z.of_nat n) (Z.of_nat libid) fn cs sp regs =
    (_ ← c_assert (u_objcnt u4 =? u_objcnt u1); Done (w', Ret (ret, regs))) /\
    w_heap w' = w_heap w4.
Proof.
  intros Hok Hlib Hu Hlt Hres1 Hu1 Hd Hcall Hu4 Hret. unfold dj64_call_body.
  rewrite (proj2 (Z.ltb_lt (Z.of_nat n) MAX_HANDLES))
    by (rewrite <- (so_handles _ _ Hok); apply Nat2Z.inj_lt; by eapply lookup_lt_Some).
  rewrite (proj2 (Z.ltb_lt (Z.of_nat libid) MAX_DISPS)) by done. cbn [c_assert].
  rewrite !bind_Done, (proj2 (get_udisp_Done w n u)), bind_Done by done.
  rewrite (proj2 (Z.ltb_lt _ _) Hlt). cbn [c_assert]. rewrite bind_Done, Hres1, bind_Done.
  rewrite (proj2 (get_udisp_Done w1 n u1)), bind_Done by done.
  rewrite (proj2 (arr_get_Done _ _ (Some d))), bind_Done
    by (rewrite Nat2Z.id; split; [lia|done]).
  rewrite Hcall. unfold res_bind. rewrite bind_Done.
  rewrite (proj2 (get_udisp_Done w4 n u4)), bind_Done by done.
  rewrite (proj2 (Z.eqb_neq _ _) Hret), bind_Done.
  rewrite (proj2 (get_udisp_Done _ n (set_noret_jmp u4 (u_noret_jmp u1)))), bind_Done.
  - eexists. split; [reflexivity|done].
  - rewrite udisps_put. apply list_lookup_insert_eq. by eapply lookup_lt_Some.
Qed.

(** C2. When the C code is left by a longjmp (an aborted assembler call, or one that
    does not return) and the contexts are restored, dj64_call returns to DOS all the
    same, where no malloc32 for a DOS object has failed since the call began: with the
    code for the kind of jump, the caller's registers untouched, the invariant intact
    and every DOS object that the abandoned code had on record at its level freed, so
    that the assertion against leaks holds. Where a malloc32 has failed, and an object
    is counted that is not on record, that assertion ends the program. *)
Theorem dj64_call_recovers fuel (w : world C) (n libid : nat) u fn cs sp regs d
    w1 u1 w2 f rc w3 :
  world_ok w -> udisps w !! n = Some u ->
  u_recur_cnt u < MAX_RECUR -> Z.of_nat libid < MAX_DISPS ->
  u_disp u !! libid = Some (Some d) ->
  hooks_restore (put_udisp w (Z.of_nat n) (set_recur_cnt u (u_recur_cnt u + 1)))
    (Z.of_nat n) = Done w1 ->
  udisps w1 !! n = Some u1 ->
  run_client (dj64_call fuel) (Z.of_nat n) (d fn (sp + sizeof_regs + 8))
    (put_udisp (set_frames w1 (S (w_frames w1))) (Z.of_nat n)
      (enter u1 regs (w_frames w1))) = Done (w2, Jump f rc) ->
  hooks_restore w2 (Z.of_nat n) = Done w3 ->
  exists u2 row, udisps w2 !! n = Some u2 /\ cur_row (udisps w2) n row /\
    (unrecorded u2 = unrecorded u -> exists w',
      dj64_call (S fuel) w (Z.of_nat n) (Z.of_nat libid) fn cs sp regs =
        Done (w', Ret (if rc =? ASM_NORET then DJ64_RET_NORET else DJ64_RET_ABORT, regs)) /\
      world_ok w' /\ frame None (udisps w) (udisps w') /\
      w_heap w' = w_heap w2 ∖ list_to_set row) /\
    (unrecorded u2 <> unrecorded u ->
      dj64_call (S fuel) w (Z.of_nat n) (Z.of_nat libid) fn cs sp regs = Fail AssertFailed).
Proof.
  intros Hok Hu Hlt Hlib Hd Hres1 Hu1 Hrun Hres3.
  pose proof (hooks_restore_keep _ _ _ Hres1) as Hk1.
  destruct (within_enter 100 w n u w1 u1 regs (w_frames w1) Hok (room_max _ _ Hok) Hu Hlt
    Hk1 Hu1) as [Hok1 _].
  pose proof Hk1 as [_ F]. rewrite udisps_put in F.
  eapply Forall2_lookup_r in F as (v & Hv & [R N D Oc O]); [|exact Hu1].
  rewrite list_lookup_insert_eq in Hv by (by eapply lookup_lt_Some). injection Hv as <-.
  simpl in *. pose proof (so_udisp _ _ Hok _ _ Hu) as Huok.
  destruct (lookup_lt_is_Some_2 (u_objs u) (Z.to_nat (u_recur_cnt u))) as [row Hr];
    [destruct Huok; lia|].
  assert (Hcl : client_ok (Z.of_nat n) (d fn (sp + sizeof_regs + 8)))
    by (by eapply (uo_client _ _ Huok)).
  destruct (_dj64_call_recovers get_handle_current malloc32_unused (dj64_call fuel) n w1 u1 row
    regs fn (sp + sizeof_regs + 8) d w2 f rc w3) as (w4 & row2 & u2 & u4 & Hcall & Hrow2 & Hh & Hu2 & Hu4 & Ec);
    try done.
  { by apply dj64_call_good. }
  { exists u1, (Z.to_nat (u_recur_cnt u)). rewrite R, O. split_and!; [done| |done].
    destruct Huok; lia. }
  { destruct Huok. eapply uo_unused; [done|lia]. }
  set (ret := if rc =? ASM_NORET then DJ64_RET_NORET else DJ64_RET_ABORT) in *.
  assert (Hret : ret <> DJ64_RET_OK)
    by (unfold ret; destruct (rc =? _); [apply ret_noret_ne|apply ret_abort_ne]).
  destruct (call_body_returns (dj64_call fuel) w n libid u fn cs sp regs d w1 u1 w4 u4 ret)
    as (w' & E & Eh); try done; [by rewrite D|]. exists u2, row2.
  assert (E1 : unrecorded u1 = unrecorded u) by (unfold unrecorded; by rewrite Oc, O).
  pose proof (dj64_call_good get_handle_current malloc32_unused (S fuel) w (Z.of_nat n)
    (Z.of_nat libid) fn cs sp regs Hok) as G. cbn [dj64_call] in *. rewrite E in G |- *.
  split_and!; [done|done|intros Eu|intros Eu].
  - replace (u_objcnt u4 =? u_objcnt u1) with true in G |- * by (symmetry; apply Z.eqb_eq; lia).
    cbn [c_assert] in G |- *. rewrite bind_Done in G |- *. destruct G. exists w'.
    split_and!; [done..|]. by rewrite Eh.
  - by replace (u_objcnt u4 =? u_objcnt u1) with false by (symmetry; apply Z.eqb_neq; lia).
Qed.

End Thms.

Definition demo_regs : dpmi_regs := mk_regs 1 2 3 4 5 [].

Lemma dj64_call_balanced_witness :
  match dj64_call (api := demo_api) 101 demo_world 0 0 1 0 0 demo_regs with
  | Done (w', Ret _) => world_ok w' /\ frame None (udisps demo_world) (udisps w')
  | Done (_, Jump _ _) => False
  | _ => True
  end.
Proof.
  apply (dj64_call_balanced (api := demo_api)); [done| |exact demo_world_ok].
  intros heap len. apply free_32_unused.
Defined.

Lemma dj64_call_depth_witness :
  dj64_call (api := demo_api) 110 demo_world 0 0 2 0 0 demo_regs =
  dj64_call (api := demo_api) 101 demo_world 0 0 2 0 0 demo_regs.
Proof.
  apply (dj64_call_depth (api := demo_api)); [done| |exact demo_world_ok|lia].
  intros heap len. apply free_32_unused.
Defined.

(** The world in which the aborted function of the demo program was left. *)
Definition demo_w1 : world unit :=
  put_udisp demo_world 0 (set_recur_cnt demo_udisp 1).

Definition demo_w2 : world unit :=
  match run_client (api := demo_api) (dj64_call (api := demo_api) 5) 0 (demo_disp 0 60)
    (put_udisp (set_frames demo_w1 1) 0 (enter (set_recur_cnt demo_udisp 1) demo_regs 0))
  with Done (w, _) => w | Fail _ => demo_world end.

Lemma demo_w2_recorded u2 : udisps demo_w2 !! 0%nat = Some u2 -> unrecorded u2 = unrecorded demo_udisp.
Proof.
  assert (E : (unrecorded <$> udisps demo_w2 !! 0%nat) = Some (unrecorded demo_udisp)) by (vm_compute; reflexivity).
  intros H. rewrite H in E. by injection E.
Qed.

Lemma dj64_call_recovers_witness : exists w' row,
  dj64_call (api := demo_api) 6 demo_world 0 0 0 0 0 demo_regs =
    Done (w', Ret (2, demo_regs)) /\
  world_ok w' /\ frame None (udisps demo_world) (udisps w') /\
  cur_row (udisps demo_w2) 0 row /\ w_heap w' = w_heap demo_w2 ∖ list_to_set row.
Proof.
  destruct (dj64_call_recovers (api := demo_api) (fun _ => eq_refl)
    (fun heap _ => free_32_unused heap) 5 demo_world 0 0 demo_udisp 0 0 0 demo_regs demo_disp
    demo_w1 (set_recur_cnt demo_udisp 1) demo_w2 0 ASM_ABORT demo_w2)
    as (u2 & row & Hu2 & Hrow & Hyes & _);
    [exact demo_world_ok|vm_compute; reflexivity..|].
  destruct (Hyes (demo_w2_recorded u2 Hu2)) as (w' & Hc & Hok & Hf & Hh).
  exists w', row. split; [exact Hc|]. split; [exact Hok|]. split; [exact Hf|]. by split.
Defined.
