(* ===== verification/ThunkObjs.v ===== *)
(** * DOS objects: the round trip of data through DOS memory

    dj64_obj_init and dj64_obj_done (src/libc/dj64/thunks.c, dosobj.c). *)

From stdpp Require Import base gmap list numbers.
From Stdlib Require Import ZArith Lia.
From S2P Require Import Prelude MemFuns ThunkState Thunks ThunkProps ThunkThms.

Open Scope Z_scope.
Open Scope c_scope.

Lemma find_index_insert (row : list Z) (j : nat) (a b : Z) :
  find_index (fun o => o =? a) row = Some j -> b ∉ row ->
  find_index (fun o => o =? b) (<[j := b]> row) = Some j.
Proof.
  revert j. induction row as [|c row IH]; intros j; simpl; [done|].
  rewrite not_elem_of_cons. intros Hj [Hne Hb]. destruct (c =? a).
  - injection Hj as <-. simpl. by rewrite Z.eqb_refl.
  - apply fmap_Some in Hj as (k & Hk & ->). simpl.
    rewrite (proj2 (Z.eqb_neq c b)) by done. by rewrite IH.
Qed.

Section Objs.
Context {C : Type} {api : Dj64Api}.

(** Where [set_oh] finds its slot, it stores there. *)
Lemma set_oh_at (u : udisp C) r j row a v d :
  u_recur_cnt u - 1 = Z.of_nat r -> u_objs u !! r = Some row ->
  find_index (fun o => o =? a) row = Some j ->
  set_oh u a v d = Done (put_slot u r j row v d).
Proof.
  intros Er Hr Hj. unfold set_oh, find_oh.
  rewrite (proj2 (arr_get_Done (u_objs u) _ row)), !bind_Done
    by (rewrite Er, Nat2Z.id; split; [lia|done]).
  rewrite Hj. cbn [deref]. rewrite bind_Done.
  rewrite Er, Nat2Z.id. done.
Qed.

(** Recording an object and forgetting it again changes nothing. *)
Lemma put_slot_undo (u : udisp C) r j row fa :
  u_objs u !! r = Some row -> row !! j = Some 0 ->
  put_slot (put_slot u r j row fa 1) r j (<[j := fa]> row) 0 (-1) = u.
Proof.
  intros Hr Hj. destruct u. unfold put_slot, set_objs. simpl in *. f_equal; [lia|].
  rewrite list_insert_insert_eq, list_insert_insert_eq.
  rewrite (list_insert_id row j 0 Hj). by apply list_insert_id.
Qed.

Lemma put_udisp_put (w : world C) n u u' us :
  udisps w = us -> us !! n = Some u ->
  udisps (put_udisp (put_udisp w (Z.of_nat n) u') (Z.of_nat n) u) = us.
Proof.
  intros <- Hu. rewrite !udisps_put, list_insert_insert_eq. by apply list_insert_id.
Qed.

(** The setting of the round trip: C code of handle [n] at the level of [row],
    which has a free slot, passes the block [l] at [data]; [fa] is the DOS block
    that the heap gives out. *)
Context (w : world C) (n : nat) (u : udisp C) (r : nat) (row : list Z) (j : nat).
Context (data : Z) (l : list Z).
Hypothesis get_handle_current : get_handle (Z.of_nat n) = Z.of_nat n.
Hypothesis w_ok : world_ok w.
Hypothesis u_at_n : udisps w !! n = Some u.
Hypothesis level : u_recur_cnt u - 1 = Z.of_nat r.
Hypothesis row_at_r : u_objs u !! r = Some row.
Hypothesis free_slot : find_index (fun o => o =? 0) row = Some j.
Hypothesis foreign : is_dos_ptr data = false.
Hypothesis l_ok : bytes_ok l.
Hypothesis l_at : bytes_at (w_mem w) data l.
Abbreviation len := (Z.of_nat (length l)).
Abbreviation fa := (malloc32 (w_heap w) len).
Abbreviation dos := (DATA_PTR fa).
Hypothesis fa_nonzero : fa <> 0.
Hypothesis fa_free : fa ∉ w_heap w.
Hypothesis dos_mapped : mapped (w_mem w) dos (length l).
Hypothesis apart : data + len <= dos \/ dos + len <= data.

Let w1 : world C :=
  put_udisp (set_mem (set_heap w ({[fa]} ∪ w_heap w)) (write_bytes (w_mem w) dos l))
    (Z.of_nat n) (put_slot u r j row fa 1).

Lemma n_handle : (Z.of_nat n <? MAX_HANDLES) = true.
Proof.
  apply Z.ltb_lt. rewrite <- (so_handles _ _ w_ok). apply Nat2Z.inj_lt.
  by eapply lookup_lt_Some.
Qed.

Lemma row_j : row !! j = Some 0.
Proof.
  destruct (find_index_Some _ _ _ free_slot) as (b & Hb & E). apply Z.eqb_eq in E as ->. done.
Qed.

Lemma obj_init_spec : dj64_obj_init w (Z.of_nat n) data len = Done (w1, fa).
Proof.
  unfold dj64_obj_init, do_obj_init. rewrite foreign, get_handle_current, n_handle.
  cbn [c_assert]. rewrite bind_Done, (proj2 (get_udisp_Done w n u)), bind_Done by done.
  unfold mk_dosobj. rewrite (proj2 (Z.eqb_neq fa 0) fa_nonzero). cbn [negb].
  unfold pr_dosobj. cbn [w_mem set_heap]. rewrite memcpy_spec by (done || lia).
  rewrite bind_Done. cbn beta iota. rewrite bind_Done.
  rewrite (set_oh_at u r j row) by done. done.
Qed.

Lemma obj_done_spec l' :
  length l' = length l -> bytes_ok l' ->
  exists w3,
    dj64_obj_done (set_mem w1 (write_bytes (w_mem w1) dos l')) (Z.of_nat n) data fa len =
      Done w3 /\
    w_mem w3 = write_bytes (write_bytes (write_bytes (w_mem w) dos l) dos l') data l' /\
    w_heap w3 = w_heap w /\ udisps w3 = udisps w.
Proof.
  intros Hl Hok'. unfold dj64_obj_done. rewrite foreign, get_handle_current, n_handle.
  cbn [c_assert]. rewrite bind_Done. unfold cp_dosobj. cbn [w_mem set_mem].
  set (m := write_bytes (w_mem w1) dos l').
  assert (Ec : memcpy m data dos len = Done (write_bytes m data l', data)).
  { rewrite <- Hl at 2. apply memcpy_spec; [done|apply bytes_at_write| |rewrite Hl; lia].
    rewrite Hl. do 2 apply mapped_write. by apply bytes_at_mapped. }
  rewrite Ec, bind_Done. cbn beta iota. rewrite bind_Done. unfold rm_dosobj.
  rewrite decide_True by (simpl; set_solver). rewrite bind_Done.
  assert (Hn : udisps w1 !! n = Some (put_slot u r j row fa 1)).
  { unfold w1. rewrite udisps_put. apply list_lookup_insert_eq. by eapply lookup_lt_Some. }
  match goal with |- context [get_udisp ?x _] =>
    rewrite (proj2 (get_udisp_Done x n (put_slot u r j row fa 1))), bind_Done by exact Hn end.
  assert (Hfa : fa ∉ row).
  { intros [k Hk]%list_elem_of_lookup. apply fa_free.
    eapply (so_heap _ _ w_ok); [|exact fa_nonzero]. by eapply slot_of. }
  rewrite (set_oh_at _ r j (<[j := fa]> row)); [|done| |by apply (find_index_insert _ _ 0)].
  2: { simpl. apply list_lookup_insert_eq. by eapply lookup_lt_Some. }
  rewrite bind_Done, put_slot_undo by (done || apply row_j).
  eexists. split; [reflexivity|]. split_and!; [done|simpl; set_solver|].
  apply (put_udisp_put w n u (put_slot u r j row fa 1)); done.
Qed.

(** C15. Passing a block of the C side to DOS code and taking it back is a round trip:
    dj64_obj_init copies the [len] bytes at [data] to a new DOS block; whatever
    bytes [l'] the DOS code leaves there, dj64_obj_done copies them back to
    [data], frees the block, and the objects on record, the DOS heap and all other
    state of the handles are as before. *)
Theorem obj_roundtrip l' :
  length l' = length l -> bytes_ok l' ->
  exists w1 w3,
    dj64_obj_init w (Z.of_nat n) data len = Done (w1, fa) /\
    bytes_at (w_mem w1) dos l /\
    dj64_obj_done (set_mem w1 (write_bytes (w_mem w1) dos l')) (Z.of_nat n) data fa len =
      Done w3 /\
    bytes_at (w_mem w3) data l' /\ w_heap w3 = w_heap w /\ udisps w3 = udisps w.
Proof.
  intros Hl Hok'. destruct (obj_done_spec l' Hl Hok') as (w3 & E3 & Em & Eh & Eu).
  exists w1, w3. split_and!; [apply obj_init_spec|apply bytes_at_write|done| |done|done].
  rewrite Em. apply bytes_at_write.
Qed.

End Objs.

Lemma demo_w1_ok : world_ok demo_w1.
Proof.
  apply (state_ok_insert (udisps demo_world) _ 0 demo_udisp); [exact demo_world_ok|done..|].
  intros i row [-> _]%lookup_replicate _. apply live_row_zero.
Qed.

Lemma obj_roundtrip_witness : exists w1 w3,
  dj64_obj_init (api := demo_api) demo_w1 0 100 4 = Done (w1, 1) /\
  bytes_at (w_mem w1) 1001 [1; 2; 3; 4] /\
  dj64_obj_done (api := demo_api)
    (set_mem w1 (write_bytes (w_mem w1) 1001 [9; 8; 7; 6])) 0 100 1 4 = Done w3 /\
  bytes_at (w_mem w3) 100 [9; 8; 7; 6] /\ w_heap w3 = w_heap demo_w1 /\
  udisps w3 = udisps demo_w1.
Proof.
  apply (obj_roundtrip (api := demo_api) demo_w1 0 (set_recur_cnt demo_udisp 1) 0
    (replicate 50 0) 0 100 [1; 2; 3; 4] eq_refl demo_w1_ok eq_refl eq_refl eq_refl eq_refl
    eq_refl); [by_eval|by_eval|done|set_solver|by_eval|left; vm_compute; discriminate|done|by_eval].
Defined.

(** ** When the DOS heap is exhausted *)

(** If malloc32 fails, dj64_obj_oinit still counts an object, but records none: it
    returns 0 and leaves [objcnt] one above the number of objects on record, which
    the assertion against leaks at the end of the call then meets. *)
Theorem obj_init_exhausted {C} {api : Dj64Api} (w : world C) (n : nat) u r row j data len :
  get_handle (Z.of_nat n) = Z.of_nat n -> world_ok w -> udisps w !! n = Some u ->
  u_recur_cnt u - 1 = Z.of_nat r -> u_objs u !! r = Some row ->
  find_index (fun o => o =? 0) row = Some j ->
  is_dos_ptr data = false -> malloc32 (w_heap w) len = 0 ->
  exists w' u', dj64_obj_oinit w (Z.of_nat n) data len = Done (w', 0) /\
    udisps w' !! n = Some u' /\ u_objs u' = u_objs u /\ u_objcnt u' = u_objcnt u + 1 /\
    unrecorded u' = unrecorded u + 1.
Proof.
  intros Hh Hok Hu Er Hr Hj Hd Hm.
  assert (Hrj : row !! j = Some 0).
  { destruct (find_index_Some _ _ _ Hj) as (b & Hb & E). apply Z.eqb_eq in E as ->. done. }
  assert (Ho : u_objs (put_slot u r j row 0 1) = u_objs u).
  { simpl. rewrite (list_insert_id row j 0 Hrj). by apply list_insert_id. }
  exists (put_udisp w (Z.of_nat n) (put_slot u r j row 0 1)), (put_slot u r j row 0 1).
  assert (Hn : udisps (put_udisp w (Z.of_nat n) (put_slot u r j row 0 1)) !! n =
    Some (put_slot u r j row 0 1))
    by (rewrite udisps_put; apply list_lookup_insert_eq; by eapply lookup_lt_Some).
  split_and!; [|done|done|done|].
  - unfold dj64_obj_oinit, do_obj_init. rewrite Hd, Hh, (n_handle w n u Hok Hu).
    cbn [c_assert]. rewrite bind_Done, (proj2 (get_udisp_Done w n u)), bind_Done by done.
    unfold mk_dosobj. rewrite Hm, Z.eqb_refl. cbn [negb]. rewrite bind_Done.
    by rewrite (set_oh_at u r j row) by done.
  - unfold unrecorded. rewrite Ho. simpl. lia.
Qed.

(** The demo host with a full DOS heap. *)
Definition full_api : Dj64Api := {|
  DJ64_RET_OK := 0; DJ64_RET_NORET := 1; DJ64_RET_ABORT := 2;
  ASM_CALL_OK := 0; ASM_CALL_ABORT := 1; DJ64_API_MIN_VER := 10;
  sizeof_regs := 52; djgpp_base_address := 0;
  addr2ptr := fun a => 1000 + a; addr2ptr2 := fun a _ => 1000 + a;
  ptr2addr := fun p => p - 1000; is_dos_ptr := fun p => 1000 <=? p;
  get_handle := fun h => h; asm_call := demo_call; asm_noret := demo_call;
  api_malloc := fun _ => true; api_elfload := fun _ _ _ => 0;
  malloc32 := fun _ _ => 0;
  asm_thunks := mk_athunks [] 0 None; pthunks := mk_athunks [] 0 None;
  ret_noret_ne := ltac:(discriminate); ret_abort_ne := ltac:(discriminate);
  asm_call_ne := ltac:(discriminate) |}.

(** An aborted call that had asked for an object then fails its assertion. *)
Lemma obj_init_exhausted_witness :
  dj64_call (api := full_api) 5 demo_world 0 0 0 0 0 demo_regs = Fail AssertFailed /\
  exists w' u', dj64_obj_oinit (api := full_api) demo_w1 0 100 4 = Done (w', 0) /\
    udisps w' !! 0%nat = Some u' /\ u_objs u' = u_objs demo_udisp /\ u_objcnt u' = 1 /\
    unrecorded u' = 1.
Proof.
  split; [vm_compute; reflexivity|].
  apply (obj_init_exhausted (api := full_api) demo_w1 0 (set_recur_cnt demo_udisp 1) 0
    (replicate 50 0) 0 100 4 eq_refl demo_w1_ok); reflexivity.
Defined.
