(* ===== verification/ThunkCtrl.v ===== *)
(** * Loading a program: symbol tables and ELF handles

    process_athunks, do_thunk_get and dj64_ctrl of src/libc/dj64/thunks.c. *)

From Stdlib Require Import String.
From stdpp Require Import base gmap list numbers.
From Stdlib Require Import ZArith Lia.
From S2P Require Import Prelude MemFuns ThunkState Thunks ThunkProps ThunkThms.

Open Scope Z_scope.
Open Scope c_scope.

(** ** Symbol resolution *)

Section Resolve.
Context (mem_base : Z) (eops : elf_ops) (eh : Z).

(** The address of an assembler symbol in the loaded image. *)
Definition sym_addr (name : list Z) : Z := wrap_u 32 (mem_base + eo_getsym eops eh name).

Definition sym_defined (name : list Z) : bool := negb (eo_getsym eops eh name =? 0).

(** The table of [names] with the entries of [done] assigned. *)
Definition partial_tab (names done : list (list Z)) (rest : list (option Z)) : athunks :=
  mk_athunks names (Z.of_nat (length names)) (Some (map (fun n => Some (sym_addr n)) done ++ rest)).

Lemma tab_set_partial names done e rest v :
  tab_set (partial_tab names done (e :: rest)) (Z.of_nat (length done)) v =
  Done (mk_athunks names (Z.of_nat (length names))
    (Some (map (fun n => Some (sym_addr n)) done ++ Some v :: rest))).
Proof.
  unfold tab_set, partial_tab. cbn [at_tab deref]. rewrite bind_Done.
  rewrite (proj2 (arr_get_Done _ _ e)), bind_Done, Nat2Z.id.
  - rewrite <- (length_map (fun n => Some (sym_addr n)) done) at 1.
    by rewrite insert_app_r_alt, Nat.sub_diag by done.
  - split; [lia|]. rewrite Nat2Z.id.
    rewrite <- (length_map (fun n => Some (sym_addr n)) done) at 1.
    by rewrite lookup_app_r, Nat.sub_diag by done.
Qed.

(** The loop of process_athunks from the entry after [done] on: it assigns the entries of
    [pre] and stops at the first symbol that is not defined. *)
Lemma process_athunks_loop todo : forall done rest,
  length rest = length todo ->
  exists pre post, todo = pre ++ post /\ forallb sym_defined pre = true /\
  (forall name post', post = name :: post' -> sym_defined name = false) /\
  loop (S (length todo)) (fun '(t, i) =>
    if i <? at_num t then
      name ← arr_get (at_at t) i;
      let off := eo_getsym eops eh name in
      if negb (off =? 0) then
        t' ← tab_set t i (wrap_u 32 (mem_base + off)); Done (inl (t', i + 1))
      else Done (inr (t, -1))
    else Done (inr (t, 0)))
    (partial_tab (done ++ todo) done rest, Z.of_nat (length done)) =
  Done (partial_tab (done ++ todo) (done ++ pre) (drop (length pre) rest),
        match post with [] => 0 | _ => -1 end).
Proof.
  induction todo as [|nm todo IH]; intros dn rest Hl; rewrite loop_S; cbn [at_num partial_tab].
  - exists [], []. rewrite (proj2 (Z.ltb_ge _ _)) by (rewrite length_app; simpl; lia).
    split_and!; [done..|]. by rewrite app_nil_r.
  - rewrite (proj2 (Z.ltb_lt _ _)) by (rewrite length_app; simpl; lia).
    cbn [at_at partial_tab].
    rewrite (proj2 (arr_get_Done _ _ nm)), bind_Done
      by (split; [lia|]; rewrite Nat2Z.id, lookup_app_r, Nat.sub_diag by done; done).
    cbn zeta. fold (sym_defined nm).
    destruct (sym_defined nm) eqn:E.
    2: { exists [], (nm :: todo). split_and!; [done|done|by intros ? ? [= <- _]|]. by rewrite app_nil_r. }
    destruct rest as [|e rest]; [done|]. fold (sym_addr nm).
    fold (partial_tab (dn ++ nm :: todo) dn (e :: rest)).
    rewrite tab_set_partial, bind_Done. simpl in Hl.
    destruct (IH (dn ++ [nm]) rest ltac:(lia)) as (pre & post & -> & Hpre & Hpost & Hloop).
    exists (nm :: pre), post. split_and!; [done|cbn [forallb]; by rewrite E|done|].
    rewrite <- !app_assoc in Hloop. etransitivity; [|exact Hloop]. f_equal. unfold partial_tab.
    rewrite map_app, <- app_assoc. f_equal. rewrite length_app. simpl. lia.
Qed.

Lemma process_athunks_spec names tab :
  length tab = length names ->
  exists pre post, names = pre ++ post /\ forallb sym_defined pre = true /\
  (forall name post', post = name :: post' -> sym_defined name = false) /\
  process_athunks (mk_athunks names (Z.of_nat (length names)) (Some tab)) mem_base eops eh =
    Done (partial_tab names pre (drop (length pre) tab), match post with [] => 0 | _ => -1 end).
Proof.
  intros Hl. unfold process_athunks. cbn [at_num]. rewrite Nat2Z.id.
  exact (process_athunks_loop names [] tab Hl).
Qed.

(** Looking a name up in the resolved table. *)
Lemma do_thunk_get_loop names name todo : forall done,
  names = done ++ todo -> name ∈ todo ->
  loop (S (length todo)) (fun i =>
    if i <? at_num (partial_tab names names []) then
      n ← arr_get (at_at (partial_tab names names [])) i;
      if bool_decide (n = name) then
        v ← tab_get (partial_tab names names []) i; Done (inr v)
      else Done (inl (i + 1))
    else Done (inr NOT_FOUND)) (Z.of_nat (length done)) = Done (sym_addr name).
Proof.
  induction todo as [|nm todo IH]; intros dn Hn Hin; [by apply not_elem_of_nil in Hin|].
  rewrite loop_S. cbn [at_num at_at partial_tab].
  assert (Hnm : names !! length dn = Some nm)
    by (rewrite Hn, lookup_app_r, Nat.sub_diag by done; done).
  pose proof (lookup_lt_Some _ _ _ Hnm). rewrite (proj2 (Z.ltb_lt _ _)) by lia.
  rewrite (proj2 (arr_get_Done _ _ nm)), bind_Done by (rewrite Nat2Z.id; split; [lia|done]).
  case_bool_decide as E.
  - subst nm. unfold tab_get. cbn [at_tab partial_tab deref]. rewrite bind_Done.
    rewrite (proj2 (arr_get_Done _ _ (Some (sym_addr name)))); [done|].
    rewrite app_nil_r, Nat2Z.id. split; [lia|].
    by rewrite list_lookup_fmap, Hnm.
  - replace (Z.of_nat (length dn) + 1) with (Z.of_nat (length (dn ++ [nm])))
      by (rewrite length_app; simpl; lia).
    apply IH; [by rewrite <- app_assoc|]. by apply elem_of_cons in Hin as [->|].
Qed.

Lemma do_thunk_get_spec names name :
  name ∈ names -> do_thunk_get (partial_tab names names []) name = Done (sym_addr name).
Proof.
  intros Hin. unfold do_thunk_get. cbn [at_num partial_tab]. rewrite Nat2Z.id.
  by apply (do_thunk_get_loop names name names []).
Qed.

(** C17. The thunk table is resolved against the loaded image in its order, up to the first
    symbol that the image does not define: the entries before it hold [mem_base] plus the
    offset of their symbol (modulo 2^32), the entries from it on are left as they were, and
    process_athunks returns -1. If every symbol of the table is defined, it returns 0, and
    every name of the table is then found at that address. *)
Theorem thunk_resolution names tab :
  length tab = length names ->
  exists pre post t r, names = pre ++ post /\ forallb sym_defined pre = true /\
  process_athunks (mk_athunks names (Z.of_nat (length names)) (Some tab)) mem_base eops eh =
    Done (t, r) /\
  at_tab t = Some (map (fun name => Some (sym_addr name)) pre ++ drop (length pre) tab) /\
  match post with
  | [] => r = 0 /\ forall name, name ∈ names -> do_thunk_get t name = Done (sym_addr name)
  | name :: _ => r = -1 /\ sym_defined name = false
  end.
Proof.
  intros Hl. destruct (process_athunks_spec names tab Hl) as (pre & post & En & Hpre & Hpost & E).
  eexists pre, post, _, _. split_and!; [done|done|exact E|done|]. destruct post as [|name post].
  - rewrite app_nil_r in En. subst pre. rewrite drop_ge by lia. split; [done|]. intros.
    by apply do_thunk_get_spec.
  - split; [done|]. by apply (Hpost name post).
Qed.

End Resolve.

(** A loader that knows two symbols. *)
Definition demo_eops : elf_ops :=
  mk_elf_ops (fun _ _ => Some 3) (fun _ _ => None)
    (fun _ name => if bool_decide (name = lit "_a") then 16
                   else if bool_decide (name = lit "_b") then 32 else 0)
    (fun _ => Some (1, 2)) (fun _ => None) (fun _ m _ _ _ => (0, 77, m)) 0 (fun _ _ _ => 0).

Lemma thunk_resolution_witness :
  exists pre post t r, [lit "_a"; lit "_b"; lit "_c"] = pre ++ post /\
  forallb (sym_defined demo_eops 3) pre = true /\
  process_athunks (mk_athunks [lit "_a"; lit "_b"; lit "_c"] 3 (Some [None; None; Some 5]))
    4096 demo_eops 3 = Done (t, r) /\
  at_tab t = Some (map (fun name => Some (sym_addr 4096 demo_eops 3 name)) pre ++
    drop (length pre) [None; None; Some 5]) /\
  match post with
  | [] => r = 0 /\ forall name, name ∈ [lit "_a"; lit "_b"; lit "_c"] ->
      do_thunk_get t name = Done (sym_addr 4096 demo_eops 3 name)
  | name :: _ => r = -1 /\ sym_defined demo_eops 3 name = false
  end.
Proof.
  apply (thunk_resolution 4096 demo_eops 3 [lit "_a"; lit "_b"; lit "_c"]
    [None; None; Some 5] eq_refl).
Defined.

(** ** ELF handles *)

Section Handles.
Context {C : Type} {api : Dj64Api}.

Lemma put_at_elf (w w' : world C) p t : put_at w p t = Done w' -> w_elf w' = w_elf w.
Proof.
  destruct p; simpl; intros H.
  3: by injection H as <-.
  all: apply bind_inv in H as (u & _ & H); by injection H as <-.
Qed.

Lemma load_at_elf (w : world C) p mb eops eh w' r :
  load_at w p mb eops eh = Done (w', r) -> w_elf w' = w_elf w.
Proof.
  unfold load_at. intros H. apply bind_inv in H as (t & _ & H).
  apply bind_inv in H as ([t' r'] & _ & H). apply bind_inv in H as (w1 & Hp & H).
  injection H as <- <-. by eapply put_at_elf.
Qed.

Lemma load_pt_elf (w : world C) p eops eh w' r :
  load_pt w p eops eh = Done (w', r) -> w_elf w' = w_elf w.
Proof.
  unfold load_pt. intros H. apply bind_inv in H as (t & _ & H).
  apply bind_inv in H as ([t' r'] & _ & H). apply bind_inv in H as (w1 & Hp & H).
  injection H as <- <-. by eapply put_at_elf.
Qed.

Lemma or_err_elf l m (k : world C -> outcome (world C * Z)) w' r :
  (forall w1 r1, m = Done (w1, r1) -> w_elf w1 = l) ->
  (forall w1 w2 r2, w_elf w1 = l -> k w1 = Done (w2, r2) -> w_elf w2 = l) ->
  or_err m k = Done (w', r) -> w_elf w' = l.
Proof.
  intros Hm Hk H. unfold or_err in H. apply bind_inv in H as ([w1 r1] & E & H).
  destruct (negb (r1 =? 0)); [injection H as <- <-; by eapply Hm|].
  eapply Hk; [by eapply Hm|done].
Qed.

Lemma load_core_elf (w : world C) h mb eops eh w' r :
  load_core w h mb eops eh = Done (w', r) -> w_elf w' = w_elf w.
Proof.
  apply or_err_elf; [intros *; apply load_at_elf|].
  intros w1 w2 r2 <- H. by eapply load_pt_elf.
Qed.

Lemma load_user_elf (w : world C) h libid mb eops eh w' r :
  load_user w h libid mb eops eh = Done (w', r) -> w_elf w' = w_elf w.
Proof.
  unfold load_user. intros H. apply bind_inv in H as (u & _ & H).
  apply bind_inv in H as (a & _ & H). revert H. apply or_err_elf.
  - intros w1 r1. destruct a; [apply load_at_elf|]. by intros [= <- <-].
  - intros w1 w2 r2 <- H. apply bind_inv in H as (p & _ & H).
    destruct p; [by eapply load_pt_elf|]. by injection H as <- <-.
Qed.

Lemma elf_close_elf (w w0 : world C) eh :
  w_elf w = w_elf (elf_opened w0 eh) -> w_elf (elf_close w eh) = w_elf w0.
Proof. simpl. intros ->. simpl. by rewrite Z.eqb_refl. Qed.

(** The part of DL_SET_SYMTAB that opens the image at [addr]. *)
Lemma symtab_open_elf (w0 : world C) h libid mb eops eh (core user : bool) w2 r2 :
  or_err (if core then load_core (elf_opened w0 eh) h mb eops eh
          else Done (elf_opened w0 eh, 0))
    (fun w => if user then load_user w h libid mb eops eh else Done (w, 0)) = Done (w2, r2) ->
  w_elf w2 = w_elf (elf_opened w0 eh).
Proof.
  apply or_err_elf.
  - intros w3 r3. destruct core; [apply load_core_elf|]. by intros [= <- <-].
  - intros w3 w4 r4 <- H. destruct user; [by eapply load_user_elf|]. by injection H as <- <-.
Qed.

Lemma ctrl_set_symtab_elf (w : world C) h libid cs regs w' r :
  ctrl_set_symtab w h libid cs regs = Done (w', r) -> w_elf w' = w_elf w.
Proof.
  unfold ctrl_set_symtab. intros H. apply bind_inv in H as (u & _ & H).
  set (w0 := put_udisp _ _ _) in H. change (w_elf w) with (w_elf w0). clearbody w0. clear w u.
  apply bind_inv in H as ([w1 r1] & H1 & H).
  assert (E1 : w_elf w1 = w_elf w0).
  { clear H. revert H1. set (core := negb (eax regs .& _ =? 0)).
    set (user := negb core || _). clearbody core user.
    destruct (negb (ebx regs =? 0)); [|destruct core; by intros [= <- _]].
    intros H1. apply bind_inv in H1 as (eops & _ & H1).
    destruct (eo_open _ _ _) as [eh|]; [|by injection H1 as <- _].
    apply bind_inv in H1 as ([w2 r2] & H2%symtab_open_elf & H1).
    apply elf_close_elf in H2. destruct (negb (r2 =? 0)); by injection H1 as <- _. }
  rewrite <- E1. clear H1 E1. destruct r1 as [r1|]; [by injection H as <- _|]. revert H.
  apply or_err_elf.
  - intros w2 r2. destruct (negb (negb _)); [|by intros [= <- _]].
    destruct (_ =? -1); [by intros [= <- _]|].
    intros H. apply bind_inv in H as (eops & _ & H).
    destruct (eo_open_dyn _ _ _) as [eh|]; [|by injection H as <- _].
    apply bind_inv in H as ([w3 r3] & H3%load_core_elf & H).
    apply elf_close_elf in H3. destruct (negb (r3 =? 0)); by injection H as <- _.
  - intros w2 w3 r3 <- H. apply bind_inv in H as (w4 & H4 & H). injection H as <- _.
    unfold do_early_init in H4. apply bind_inv in H4 as (a & _ & H4).
    apply bind_inv in H4 as (m & _ & H4). by injection H4 as <-.
Qed.

Lemma ctrl_elfload_elf (w : world C) h libid fn regs w' r regs' :
  ctrl_elfload w h libid fn regs = Done (w', r, regs') -> w_elf w' = w_elf w.
Proof.
  unfold ctrl_elfload. intros H. apply bind_inv in H as (eops & _ & H).
  destruct (if fn =? DL_ELFLOAD then _ else _) as [[elf esize]|]; [|by injection H as <- _].
  destruct (eo_open _ _ _) as [eh|]; [|by injection H as <- _].
  destruct (eo_reloc _ _ _ _ _ _) as [[ret entry] m].
  apply bind_inv in H as ([w2 r2] & H2 & H).
  assert (E2 : w_elf w2 = w_elf (elf_opened w eh)).
  { revert H2. apply or_err_elf; [by intros w3 r3 [= <- _]|].
    intros w3 w4 r4 <- H4. by eapply load_user_elf. }
  apply elf_close_elf in E2. destruct (negb (r2 =? 0)); by injection H as <- _ _.
Qed.

(** C18. dj64_ctrl closes every ELF handle that it opens, on every path: whether it
    succeeds, meets an unresolved symbol, or fails to relocate, the handles that
    are open when it returns are those that were open before. *)
Theorem dj64_ctrl_closes (w : world C) handle libid fn cs regs w' ret regs' :
  dj64_ctrl w handle libid fn cs regs = Done (w', Ret (ret, regs')) ->
  w_elf w' = w_elf w.
Proof.
  unfold dj64_ctrl. intros H. do 2 apply bind_inv in H as (_ & _ & H).
  destruct (negb (_ =? DL_API_VER)); [destruct (_ =? 0); by simplify_eq|].
  destruct (fn =? DL_SET_SYMTAB).
  { apply bind_inv in H as ([w1 r1] & E%ctrl_set_symtab_elf & H). by simplify_eq. }
  destruct (_ || _); [|by simplify_eq].
  apply bind_inv in H as ([[w1 r1] regs1] & E%ctrl_elfload_elf & H). by simplify_eq.
Qed.

End Handles.

(** A world in which library 1 of handle 0 has two thunks to resolve. *)
Definition ctrl_world : world unit :=
  put_udisp (set_thunks demo_world
      {[ 5 := mk_athunks [lit "_a"; lit "_b"] 2 (Some [None; None]) ]}) 0
    (mk_udisp (u_disp demo_udisp) (Some demo_eops) [None; Some (UserAt 5)] [None; None]
      (u_core_at demo_udisp) (u_core_pt demo_udisp) 0 0 0 demo_regs 0 0 None
      (u_objs demo_udisp)).

Lemma dj64_ctrl_closes_witness :
  exists w', dj64_ctrl (api := demo_api) ctrl_world 0 257 DL_ELFLOAD 0 demo_regs =
    Done (w', Ret (0, set_eax demo_regs 77)) /\ w_elf w' = [] /\
    w_thunks w' !! 5 = Some (mk_athunks [lit "_a"; lit "_b"] 2 (Some [Some 20; Some 36])).
Proof.
  destruct (dj64_ctrl (api := demo_api) ctrl_world 0 257 DL_ELFLOAD 0 demo_regs)
    as [[w' [[r regs]|f c|s]]|] eqn:E; try (vm_compute in E; discriminate E).
  exists w'. pose proof (dj64_ctrl_closes (api := demo_api) ctrl_world 0 257 DL_ELFLOAD 0
    demo_regs w' r regs E) as H.
  vm_compute in E. injection E as <- <- <-. split_and!; [reflexivity|exact H|reflexivity].
Defined.

(** ** The result of an assembler call *)

Section AsmCall.
Context {C : Type} {api : Dj64Api}.

Lemma int_to_u64_val a d :
  0 <= a < 2 ^ 32 -> 0 <= d ->
  int_to_u64 (a .| Z.shiftl d 32) = if a <? 2 ^ 31 then a else a + (2 ^ 64 - 2 ^ 32).
Proof.
  intros Ha Hd. rewrite lor_shiftl_add by (done || lia). unfold int_to_u64, wrap_s, wrap_u.
  change (2 ^ (32 - 1)) with (2 ^ 31).
  replace (a + d * 2 ^ 32 + 2 ^ 31) with (a + 2 ^ 31 + d * 2 ^ 32) by lia.
  rewrite Z.mod_add by lia. destruct (Z.ltb_spec a (2 ^ 31)).
  - rewrite (Z.mod_small (a + 2 ^ 31)) by lia.
    replace (a + 2 ^ 31 - 2 ^ 31) with a by lia. apply Z.mod_small. lia.
  - replace (a + 2 ^ 31) with (a - 2 ^ 31 + 1 * 2 ^ 32) by lia.
    rewrite Z.mod_add, (Z.mod_small (a - 2 ^ 31)) by lia.
    replace (a - 2 ^ 31 - 2 ^ 31) with (a + (2 ^ 64 - 2 ^ 32) + (-1) * 2 ^ 64) by lia.
    rewrite Z.mod_add by lia. apply Z.mod_small. lia.
Qed.

(** dj64_asm_call is declared to return the 64-bit value EDX:EAX, which do_asm_call
    computes, but keeps it in an [int]: its result is EAX alone, sign-extended to
    64 bits; EDX is lost and the upper half is all ones when bit 31 of EAX is set. *)
Theorem dj64_asm_call_truncates call (w w0 w1 : world C) (n : nat) u num sp len flags off
    rc regs :
  get_handle (Z.of_nat n) = Z.of_nat n -> Z.of_nat n < MAX_HANDLES ->
  hooks_save w = Done w0 -> udisps w0 !! n = Some u ->
  num < at_num (u_core_pt u) -> tab_get (u_core_pt u) num = Done off ->
  flags .& _TFLG_NORET = 0 ->
  asm_call (w_mem w0) (u_s_regs u) (u_cs u) off sp len = HRet rc regs ->
  rc <> ASM_CALL_ABORT ->
  0 <= eax regs < 2 ^ 32 -> 0 <= edx regs < 2 ^ 32 ->
  hooks_restore (put_udisp w0 (Z.of_nat n) (set_s_regs u regs)) (Z.of_nat n) = Done w1 ->
  dj64_asm_call call w (Z.of_nat n) num sp len flags =
  Done (w1, Ret (if eax regs <? 2 ^ 31 then eax regs else eax regs + (2 ^ 64 - 2 ^ 32))).
Proof.
  intros Hh Hn Hs Hu Hnum Hoff Hfl Hasm Hrc Ha Hd Hr. unfold dj64_asm_call.
  rewrite Hh, (proj2 (Z.ltb_lt _ _) Hn). cbn [c_assert]. rewrite bind_Done, Hs, bind_Done.
  rewrite (proj2 (get_udisp_Done w0 n u)), bind_Done by done.
  unfold do_asm_call. cbn [get_at].
  rewrite (proj2 (get_udisp_Done w0 n u)), !bind_Done by done.
  rewrite (proj2 (Z.ltb_lt _ _) Hnum). cbn [c_assert]. rewrite bind_Done, Hoff, bind_Done.
  rewrite Hfl. cbn [c_assert]. rewrite Z.eqb_refl, !bind_Done, Hasm. cbn [run_host].
  unfold res_bind. rewrite bind_Done. unfold put_s_regs.
  rewrite (proj2 (get_udisp_Done w0 n u)), !bind_Done by done.
  rewrite (proj2 (Z.eqb_neq _ _) Hrc). cbn beta iota. simpl. rewrite Hr. simpl.
  rewrite int_to_u64_val by lia. done.
Qed.

End AsmCall.

(** EDX:EAX = 0x5ffffffff comes back as 0xffffffffffffffff. *)
Lemma dj64_asm_call_truncates_witness :
  exists w1, dj64_asm_call (api := demo_api) (dj64_call (api := demo_api) 5) demo_world 0 1 0 0 0 =
    Done (w1, Ret 0xffffffffffffffff).
Proof.
  eexists.
  apply (dj64_asm_call_truncates (api := demo_api) (dj64_call (api := demo_api) 5) demo_world
    demo_world _ 0 demo_udisp 1 0 0 0 8 0
    (mk_regs 0xffffffff 0 0 5 0 [])); try (vm_compute; reflexivity); simpl; lia.
Defined.
