(* ===== verification/ThunkInit.v ===== *)
(** * Start-up of a dj64 program

    The registration functions and DJ64_INIT_FN, DJ64_INIT_ONCE_FN of
    src/libc/dj64/thunks.c. *)

From stdpp Require Import base gmap list numbers.
From Stdlib Require Import ZArith Lia.
From S2P Require Import Prelude MemFuns ThunkState Thunks ThunkProps ThunkThms.

Open Scope Z_scope.
Open Scope c_scope.

Section Init.
Context {C : Type} {api : Dj64Api}.

(** No library waits for its initialisation. *)
Definition unregistered (w : world C) : Prop :=
  disp_fn w = None /\ u_athunks w = None /\ u_pthunks w = None /\
  u_handle_p w = None /\ u_libid_p w = None.

(** What a library does when it is loaded: its constructors register the dispatch
    function and the two thunk tables, all built for version [ver]. *)
Definition register_all (w : world C) (fn : disp_t C) (at_ pt : at_ptr) (hp lp : Z)
    (ver : Z) : outcome (world C) :=
  w1 ← register_dispatch_fn w fn ver;
  w2 ← register_athunks w1 at_ ver;
  register_pthunks w2 pt (Some hp) (Some lp) ver.

Lemma register_all_spec w fn at_ pt hp lp :
  unregistered w ->
  register_all w fn at_ pt hp lp DJ64_DYNAPI_VER =
  Done (set_registered (set_mism w (fatalerr w) (dynapi_mism w) DJ64_DYNAPI_VER)
    (Some fn) (Some at_) (Some pt) (Some hp) (Some lp)).
Proof.
  intros (Hd & Ha & Hp & _ & _). destruct w; simpl in *. subst.
  reflexivity.
Qed.

Lemma hooks_init_keep (w w' : world C) h :
  hooks_init w h = Done w' -> w' = set_ctx w (w_ctx w').
Proof. unfold hooks_init. intros H. apply bind_inv in H as (c & _ & H). by injection H as <-. Qed.

Lemma lookup_two {A} (l : list A) a b :
  length l = 5%nat ->
  <[1%nat := b]> (<[0%nat := a]> l) !! 0%nat = Some a /\
  <[1%nat := b]> (<[0%nat := a]> l) !! 1%nat = Some b.
Proof. by destruct l as [|x [|y l]]. Qed.

(** C14. Loading a library for the handle [n] with registration and DJ64_INIT_FN
    connects it: its dispatch function and tables become number 1 of the handle,
    next to the core's as number 0, the library learns its handle and its number,
    the core's thunk tables get fresh address tables, the invariant of the thunk
    layer is kept, and the registration is free again for the next library. *)
Theorem init_connects w core fn at_ pt hp lp (n : nat) u ops main full_init w' :
  world_ok w -> unregistered w -> udisps w !! n = Some u -> hp <> lp ->
  length (u_disp u) = 5%nat -> length (u_at u) = 5%nat -> length (u_pt u) = 5%nat ->
  (forall f sp, client_ok (Z.of_nat n) (fn f sp)) ->
  (forall f sp, client_ok (Z.of_nat n) (core f sp)) ->
  (register_all w fn at_ pt hp lp DJ64_DYNAPI_VER ≫= fun w1 =>
   DJ64_INIT_FN core w1 (Z.of_nat n) ops main full_init) = Done w' ->
  world_ok w' /\ unregistered w' /\
  w_vars w' !! hp = Some (Z.of_nat n) /\ w_vars w' !! lp = Some 1 /\
  exists u', udisps w' !! n = Some u' /\
    u_disp u' !! 0%nat = Some (Some core) /\ u_disp u' !! 1%nat = Some (Some fn) /\
    u_at u' !! 1%nat = Some (Some at_) /\ u_pt u' !! 1%nat = Some (Some pt) /\
    u_core_at u' = with_new_tab asm_thunks /\ u_core_pt u' = with_new_tab pthunks.
Proof.
  intros Hok Hun Hu Hne Hld Hla Hlp Hfn Hcore H.
  rewrite register_all_spec, bind_Done in H by done. unfold DJ64_INIT_FN in H.
  apply bind_inv in H as (_ & _ & H). apply bind_inv in H as (u0 & Hu0 & H).
  apply get_udisp_Done in Hu0. simpl in Hu0. assert (u0 = u) as -> by congruence.
  apply bind_inv in H as (w2 & H2 & H). apply hooks_init_keep in H2. rewrite H2 in H.
  injection H as <-. pose proof (so_udisp _ _ Hok _ _ Hu) as Huok.
  pose proof (lookup_lt_Some _ _ _ Hu) as Hn.
  set (u' := set_core_pt _ _). set (wf := put_udisp _ _ _).
  assert (Eu : udisps wf = <[n := u']> (udisps w)).
  { unfold wf. rewrite udisps_put. cbn [set_ctx udisps]. 
    change (udisps (take_registered ?x _ _)) with (udisps x). rewrite udisps_put.
    apply list_insert_insert_eq. }
  split_and!; [|done|simpl; by rewrite lookup_insert_ne, lookup_insert_eq by done
              |simpl; by rewrite lookup_insert_eq|].
  - unfold world_ok. rewrite Eu. change (w_heap wf) with (w_heap w).
    apply (state_ok_insert_disp _ _ _ u); [done..| | |]; destruct Huok; [|done..].
    simpl. intros i d f sp.
    intros [(<- & Hd & _)|[_ [(<- & Hd & _)|[_ Hi]]%list_lookup_insert_Some]]%list_lookup_insert_Some;
      [by simplify_eq..|eauto].
  - exists u'. rewrite Eu. split; [by apply list_lookup_insert_eq|].
    split_and!; [exact (proj1 (lookup_two _ _ _ Hld))|exact (proj2 (lookup_two _ _ _ Hld))
      |exact (proj2 (lookup_two _ _ _ Hla))|exact (proj2 (lookup_two _ _ _ Hlp))|done|done].
Qed.

(** A library built for another version of the dynamic API is refused: once one
    of the three registrations has seen another version number, DJ64_INIT_ONCE_FN
    returns -1, whatever else happened to the registration. *)
Theorem version_mismatch_refused (w : world C) fn at_ pt hp lp ver w1 w2 w3 api_ver :
  0 <= fatalerr w -> ver <> DJ64_DYNAPI_VER ->
  register_dispatch_fn w fn ver = Done w1 ->
  register_athunks w at_ ver = Done w2 ->
  register_pthunks w pt hp lp ver = Done w3 ->
  snd (DJ64_INIT_ONCE_FN w1 api_ver) = -1 /\ snd (DJ64_INIT_ONCE_FN w2 api_ver) = -1 /\
  snd (DJ64_INIT_ONCE_FN w3 api_ver) = -1.
Proof.
  intros Hf Hv H1 H2 H3.
  unfold register_dispatch_fn, register_athunks, register_pthunks, check_ver in *.
  rewrite (proj2 (Z.eqb_neq _ _) Hv) in *. simpl in *. simplify_eq.
  unfold DJ64_INIT_ONCE_FN. simpl.
  rewrite (proj2 (Z.eqb_neq (fatalerr w + 1) 0)) by lia. by destruct (_ <? _).
Qed.

End Init.

(** Handle 3 of the demo world, before its library is loaded. *)
Lemma init_connects_witness : exists w',
  (register_all demo_world demo_disp (UserAt 1) (UserAt 2) 500 504 DJ64_DYNAPI_VER ≫= fun w1 =>
   DJ64_INIT_FN (api := demo_api) (fun _ _ => CRet 0 0) w1 3 None 0 1) = Done w' /\
  world_ok w' /\ unregistered w' /\ w_vars w' !! 500 = Some 3.
Proof.
  match goal with |- exists w', ?m = Done w' /\ _ => destruct m as [w'|] eqn:E end;
    [|vm_compute in E; discriminate E].
  exists w'. split; [reflexivity|].
  destruct (init_connects (api := demo_api) demo_world (fun _ _ => CRet 0 0) demo_disp
    (UserAt 1) (UserAt 2) 500 504 3 no_udisp None 0 1 w') as (H1 & H2 & H3 & _);
    [exact demo_world_ok|done|done|lia|done..| |done|exact E|by split_and!].
  intros f sp. unfold demo_disp. by repeat case_match.
Defined.

Lemma version_mismatch_refused_witness :
  snd (DJ64_INIT_ONCE_FN (api := demo_api)
    (set_mism demo_world 1 1 1) 20) = -1.
Proof.
  eapply (version_mismatch_refused (api := demo_api) demo_world demo_disp (UserAt 1) (UserAt 2)
    None None 1); [simpl; lia|discriminate|reflexivity..].
Defined.
