(* ===== verification/Strto.v ===== *)
(** * Numbers from strings, and integer arithmetic

    strtol, strtoul, strtoll, strtoull, atoi, atol, atoll, abs, labs, llabs, div,
    ldiv, lldiv, rand, srand and bsearch of src/src/libc/ansi/stdlib. This is the
    64-bit build: [long] and [long long] have 64 bits, while LONG_MAX and its
    kin are what include/limits.h says, which is 32 bits.

    A conversion returns the number, the pointer that it stores through [endptr]
    (where that is not NULL), and whether it sets [errno] to ERANGE. *)

From S2P Require Import Prelude Ctype.
From stdpp Require Import base gmap list numbers.
From Stdlib Require Import ZArith Lia.

Open Scope Z_scope.
Open Scope c_scope.

Definition INT_MIN : Z := - 2 ^ 31.
Definition INT_MAX : Z := 2 ^ 31 - 1.
Definition LONG_MAX : Z := 2147483647.
Definition LONG_MIN : Z := -2147483647 - 1.
Definition ULONG_MAX : Z := 4294967295.
Definition LLONG_MAX : Z := 9223372036854775807.
Definition LLONG_MIN : Z := - LLONG_MAX - 1.
Definition ULLONG_MAX : Z := 18446744073709551615.
Definition RAND_MAX : Z := 2147483647.

(** [do c = *s++; while (isspace(c));] *)
Definition skip_space (m : mem) (s : Z) : outcome (Z * Z) :=
  loop (scan_fuel m) (fun s =>
    c ← load m s;
    sp ← isspace c;
    if negb (sp =? 0) then Done (inl (s + 1)) else Done (inr (c, s + 1))) s.

(** White space, sign and base: [c], [s], [neg] and [base] before the digits. *)
Definition num_start (m : mem) (nptr base : Z) : outcome (Z * Z * bool * Z) :=
  '(c, s) ← skip_space m nptr;
  '(c, s, neg) ←
    (if c =? 45 then c' ← load m s; Done (c', s + 1, true)
     else if c =? 43 then c' ← load m s; Done (c', s + 1, false)
     else Done (c, s, false));
  '(c, s, base) ←
    (if ((base =? 0) || (base =? 16)) && (c =? 48) then
       x ← load m s;
       if (x =? 120) || (x =? 88) then c' ← load m (s + 1); Done (c', s + 2, 16)
       else Done (c, s, base)
     else Done (c, s, base));
  let base := if base =? 0 then (if c =? 48 then 8 else 10) else base in
  Done (c, s, neg, base).

(** [c] as a digit, as an [unsigned char]; [None] leaves the loop. *)
Definition digit_val (c : Z) : outcome (option Z) :=
  d ← isdigit c;
  if negb (d =? 0) then Done (Some (byte (c - 48)))
  else
    a ← isalpha c;
    if negb (a =? 0) then
      u ← isupper c;
      Done (Some (byte (c - (if negb (u =? 0) then 65 - 10 else 97 - 10))))
    else Done None.

(** The body of the loop over the digits: [acc], [any], [c], [s]. *)
Definition digit_step (m : mem) (base cutoff cutlim : Z) (st : Z * Z * Z * Z)
  : outcome (Z * Z * Z * Z + Z * Z * Z) :=
  let '(acc, any, c, s) := st in
  dv ← digit_val c;
  match dv with
  | None => Done (inr (acc, any, s))
  | Some d =>
      if base <=? d then Done (inr (acc, any, s))
      else
        let '(acc, any) :=
          if (any <? 0) || (cutoff <? acc) || ((acc =? cutoff) && (cutlim <? d))
          then (acc, -1)
          else (wrap_u 64 (wrap_u 64 (acc * base) + d), 1) in
        c' ← load m s;
        Done (inl (acc, any, c', s + 1))
  end.

Definition digit_loop (m : mem) (base cutoff cutlim c s : Z) : outcome (Z * Z * Z) :=
  loop (scan_fuel m) (digit_step m base cutoff cutlim) (0, 0, c, s).

(** [*endptr = any ? s - 1 : nptr] *)
Definition end_ptr (nptr any s : Z) : Z := if negb (any =? 0) then s - 1 else nptr.

Definition strtol (m : mem) (nptr base : Z) : outcome (Z * Z * bool) :=
  '(c, s, neg, base) ← num_start m nptr base;
  let cutoff := if neg : bool then wrap_u 64 (- wrap_u 64 LONG_MIN) else LONG_MAX in
  let ubase := wrap_u 64 base in
  let cutlim := wrap_s 32 (cutoff mod ubase) in
  let cutoff := cutoff / ubase in
  '(acc, any, s) ← digit_loop m base cutoff cutlim c s;
  let acc :=
    if any <? 0 then wrap_u 64 (if neg then LONG_MIN else LONG_MAX)
    else if neg then wrap_u 64 (- acc) else acc in
  Done (wrap_s 64 acc, end_ptr nptr any s, any <? 0).

Definition strtoul (m : mem) (nptr base : Z) : outcome (Z * Z * bool) :=
  '(c, s, neg, base) ← num_start m nptr base;
  let ubase := wrap_u 64 base in
  let cutoff := ULONG_MAX / ubase in
  let cutlim := wrap_s 32 (ULONG_MAX mod ubase) in
  '(acc, any, s) ← digit_loop m base cutoff cutlim c s;
  let acc :=
    if any <? 0 then ULONG_MAX
    else if neg : bool then wrap_u 64 (- acc) else acc in
  Done (acc, end_ptr nptr any s, any <? 0).

Definition strtoll (m : mem) (nptr base : Z) : outcome (Z * Z * bool) :=
  '(c, s, neg, base) ← num_start m nptr base;
  let cutoff := if neg : bool then - (LLONG_MIN + 1) else LLONG_MAX - 1 in
  let ubase := wrap_u 64 base in
  let cutlim := wrap_s 32 (cutoff mod ubase) in
  let cutoff := cutoff / ubase in
  let cutlim := cutlim + 1 in
  let '(cutlim, cutoff) := if cutlim =? base then (0, cutoff + 1) else (cutlim, cutoff) in
  '(acc, any, s) ← digit_loop m base cutoff cutlim c s;
  let acc :=
    if any <? 0 then wrap_u 64 (if neg then LLONG_MIN else LLONG_MAX)
    else if neg then wrap_u 64 (- acc) else acc in
  Done (wrap_s 64 acc, end_ptr nptr any s, any <? 0).

Definition strtoull (m : mem) (nptr base : Z) : outcome (Z * Z * bool) :=
  '(c, s, neg, base) ← num_start m nptr base;
  let ubase := wrap_u 64 base in
  let cutoff := ULLONG_MAX / ubase in
  let cutlim := wrap_s 32 (ULLONG_MAX mod ubase) in
  '(acc, any, s) ← digit_loop m base cutoff cutlim c s;
  let acc :=
    if any <? 0 then ULLONG_MAX
    else if neg : bool then wrap_u 64 (- acc) else acc in
  Done (acc, end_ptr nptr any s, any <? 0).

Definition atoi (m : mem) (str : Z) : outcome Z :=
  '(v, _, _) ← strtol m str 10; Done (wrap_s 32 v).

Definition atol (m : mem) (str : Z) : outcome Z :=
  '(v, _, _) ← strtol m str 10; Done v.

Definition atoll (m : mem) (str : Z) : outcome Z :=
  '(v, _, _) ← strtoll m str 10; Done v.

(** Negation of a signed number of [w] bits; the least one has no negative. *)
Definition neg_s (w j : Z) : outcome Z :=
  if j =? - 2 ^ (w - 1) then Fail UB else Done (- j).

Definition abs (j : Z) : outcome Z := if j <? 0 then neg_s 32 j else Done j.
Definition labs (j : Z) : outcome Z := if j <? 0 then neg_s 64 j else Done j.
Definition llabs (j : Z) : outcome Z := if j <? 0 then neg_s 64 j else Done j.

(** [num % denom] and [num / denom]: C's division truncates; dividing by 0 or the
    least number by -1 is undefined. *)
Definition div_s (w num denom : Z) : outcome (Z * Z) :=
  if (denom =? 0) || ((num =? - 2 ^ (w - 1)) && (denom =? -1)) then Fail UB
  else
    let rem := Z.rem num denom in
    let quot := Z.quot num denom in
    Done (quot, rem).

Definition div (num denom : Z) : outcome (Z * Z) := div_s 32 num denom.
Definition ldiv (num denom : Z) : outcome (Z * Z) := div_s 64 num denom.
Definition lldiv (num denom : Z) : outcome (Z * Z) := div_s 64 num denom.

(** [next] is the state of the generator. *)
Definition rand (next : Z) : Z * Z :=
  let next := wrap_u 64 (wrap_u 64 (next * 6364136223846793005) + 1) in
  (next, wrap_s 32 (Z.shiftr next 32 .& RAND_MAX)).

Definition srand (seed : Z) : Z := seed.

(** [cmp p] is the sign of the comparison of the key with the element at [p]. *)
Definition bsearch (cmp : Z -> Z) (base nelem size : Z) : outcome Z :=
  loop (S (Z.to_nat (wrap_s 32 nelem))) (fun '(base, lim) =>
    if lim =? 0 then Done (inr 0)
    else
      let p := base + Z.shiftr lim 1 * size in
      let cmpval := cmp p in
      if cmpval =? 0 then Done (inr p)
      else if 0 <? cmpval then Done (inl (p + size, Z.shiftr (lim - 1) 1))
      else Done (inl (base, Z.shiftr lim 1))) (base, wrap_s 32 nelem).

(** * What a number is, without machine arithmetic *)

Definition digit_of (c : Z) : option Z :=
  if digit_spec c then Some (c - 48)
  else if upper_spec c then Some (c - 55)
  else if lower_spec c then Some (c - 87)
  else None.

(** The values of the digits in [base] that [s] starts with. *)
Fixpoint digits (base : Z) (s : list Z) : list Z :=
  match s with
  | [] => []
  | c :: s' =>
      match digit_of c with
      | Some d => if d <? base then d :: digits base s' else []
      | None => []
      end
  end.

Definition horner (base acc : Z) (ds : list Z) : Z := foldl (fun a d => a * base + d) acc ds.

Fixpoint spaces (s : list Z) : nat :=
  match s with
  | c :: s' => if space_spec c then S (spaces s') else O
  | [] => O
  end.

(** The sign, as negative or not, and its length. *)
Definition sign_of (s : list Z) : bool * nat :=
  match s with
  | c :: _ => if c =? 45 then (true, 1%nat) else if c =? 43 then (false, 1%nat) else (false, O)
  | [] => (false, O)
  end.

(** The base that is meant, and the length of the prefix that says so. *)
Definition base_of (base : Z) (s : list Z) : Z * nat :=
  match s with
  | c :: x :: _ =>
      if ((base =? 0) || (base =? 16)) && (c =? 48) && ((x =? 120) || (x =? 88)) then (16, 2%nat)
      else (if base =? 0 then (if c =? 48 then 8 else 10) else base, O)
  | [c] => (if base =? 0 then (if c =? 48 then 8 else 10) else base, O)
  | [] => (if base =? 0 then 10 else base, O)
  end.

(** The sign, base and digits of the number at the start of [s], and the number of
    characters in front of the digits. *)
Definition parse_num (base : Z) (s : list Z) : bool * Z * list Z * nat :=
  let i := spaces s in
  let '(neg, j) := sign_of (drop i s) in
  let '(b, k) := base_of base (drop (i + j) s) in
  (neg, b, digits b (drop (i + j + k) s), i + j + k)%nat.

(** * Proofs *)

(** The variables [c] and [s] stand at the string [rest]: [c] is its first
    character (or the terminator), [s] points behind that. *)
Definition stands (m : mem) (c s : Z) (rest : list Z) : Prop :=
  cstr m (s - 1) rest /\ c = hd 0 rest.

Lemma stands_next m c s b rest :
  stands m c s (b :: rest) -> load m s = Done (hd 0 rest) /\ stands m (hd 0 rest) (s + 1) rest.
Proof.
  intros [Hc _]. apply cstr_cons in Hc as (_ & _ & Hc).
  replace (s - 1 + 1) with s in Hc by lia. split.
  - apply load_Some. destruct rest as [|b' rest].
    + by apply cstr_nil in Hc.
    + by apply cstr_cons in Hc as (_ & ? & _).
  - split; [|done]. by replace (s + 1 - 1) with s by lia.
Qed.

Lemma stands_char m c s rest : stands m c s rest -> 0 <= c < 256.
Proof.
  intros [Hc ->]. destruct rest as [|b rest]; simpl; [lia|].
  apply cstr_cons in Hc as (? & _). lia.
Qed.

Lemma stands_nonzero m c s rest : stands m c s rest -> c <> 0 -> exists rest', rest = c :: rest'.
Proof. intros [_ ->]. destruct rest; simpl; [done|eauto]. Qed.

Lemma skip_space_spec m s str :
  cstr m s str ->
  exists c, skip_space m s = Done (c, s + Z.of_nat (spaces str) + 1) /\
    stands m c (s + Z.of_nat (spaces str) + 1) (drop (spaces str) str).
Proof.
  intros Hc. pose proof (cstr_fuel _ _ _ Hc) as Hf. unfold skip_space.
  revert s Hc Hf. generalize (scan_fuel m) as fuel. induction str as [|b str IH];
    intros fuel s Hc Hf; (destruct fuel as [|fuel]; [simpl in Hf; lia|]); rewrite loop_S; simpl.
  - pose proof (proj1 (cstr_nil _ _) Hc) as H0. rewrite (load_Some _ _ _ H0), bind_Done.
    rewrite isspace_spec, bind_Done by lia. exists 0. rewrite Z.add_0_r. split; [done|].
    split; [|done]. by replace (s + 1 - 1) with s by lia.
  - pose proof Hc as (Hb & H0 & Hc')%cstr_cons. rewrite (load_Some _ _ _ H0), bind_Done.
    rewrite isspace_spec, bind_Done by lia. destruct (space_spec b); simpl.
    + destruct (IH fuel (s + 1) Hc' ltac:(simpl in Hf; lia)) as (c & E & Hst).
      exists c. rewrite E. replace (s + Z.of_nat (S (spaces str)) + 1)
        with (s + 1 + Z.of_nat (spaces str) + 1) by lia. done.
    + exists b. rewrite Z.add_0_r. split; [done|]. split; [|done].
      by replace (s + 1 - 1) with s by lia.
Qed.

Lemma sign_spec m c s rest :
  stands m c s rest ->
  exists c',
  (if c =? 45 then c' ← load m s; Done (c', s + 1, true)
   else if c =? 43 then c' ← load m s; Done (c', s + 1, false)
   else Done (c, s, false)) =
    Done (c', s + Z.of_nat (snd (sign_of rest)), fst (sign_of rest)) /\
  stands m c' (s + Z.of_nat (snd (sign_of rest))) (drop (snd (sign_of rest)) rest).
Proof.
  intros Hst. destruct rest as [|b rest]; simpl.
  - pose proof Hst as [_ ->]. simpl. exists 0. by rewrite Z.add_0_r.
  - pose proof Hst as [_ ->]. simpl. pose proof (stands_next _ _ _ _ _ Hst) as [Hl Hn].
    destruct (b =? 45); [|destruct (b =? 43)]; simpl.
    + rewrite Hl. eauto.
    + rewrite Hl. eauto.
    + exists b. by rewrite Z.add_0_r.
Qed.

Lemma base_spec m c s base rest :
  stands m c s rest ->
  exists c',
  ('(c, s, base) ←
    (if ((base =? 0) || (base =? 16)) && (c =? 48) then
       x ← load m s;
       if (x =? 120) || (x =? 88) then c' ← load m (s + 1); Done (c', s + 2, 16)
       else Done (c, s, base)
     else Done (c, s, base));
   let base := if base =? 0 then (if c =? 48 then 8 else 10) else base in
   Done (c, s, base)) =
    Done (c', s + Z.of_nat (snd (base_of base rest)), fst (base_of base rest)) /\
  stands m c' (s + Z.of_nat (snd (base_of base rest))) (drop (snd (base_of base rest)) rest).
Proof.
  intros Hst. destruct rest as [|b rest].
  { pose proof Hst as [_ ->]. simpl. rewrite andb_false_r. exists 0.
    rewrite bind_Done, Z.add_0_r. done. }
  pose proof Hst as [_ ->]. cbn [hd]. pose proof (stands_next _ _ _ _ _ Hst) as [Hl Hn].
  assert (Hx : hd 0 rest = 120 \/ hd 0 rest = 88 -> exists rest', rest = hd 0 rest :: rest')
    by (destruct rest; simpl; [lia|eauto]).
  destruct (((base =? 0) || (base =? 16)) && (b =? 48)) eqn:E.
  - rewrite Hl, bind_Done. destruct ((hd 0 rest =? 120) || (hd 0 rest =? 88)) eqn:Ex.
    + destruct Hx as [rest' Hr]; [apply orb_true_iff in Ex as [?|?]; bool_to_prop; auto|].
      destruct rest as [|x rest]; [done|]. cbn [hd] in *. clear Hr rest'.
      destruct (stands_next _ _ _ _ _ Hn) as [Hl2 Hn2]. rewrite Hl2, !bind_Done.
      simpl. rewrite E, Ex. simpl. exists (hd 0 rest).
      replace (s + Z.of_nat 2) with (s + 1 + 1) by lia. split; [|done]. do 3 f_equal. lia.
    + rewrite bind_Done. exists b. destruct rest as [|x rest]; simpl in *.
      * by rewrite Z.add_0_r.
      * rewrite E, Ex. simpl. by rewrite Z.add_0_r.
  - rewrite bind_Done. exists b. destruct rest as [|x rest]; simpl in *.
    + by rewrite Z.add_0_r.
    + rewrite E. simpl. by rewrite Z.add_0_r.
Qed.

Lemma num_start_spec m p base str :
  cstr m p str ->
  let '(neg, b, _, k) := parse_num base str in
  exists c, num_start m p base = Done (c, p + Z.of_nat k + 1, neg, b) /\
    stands m c (p + Z.of_nat k + 1) (drop k str).
Proof.
  intros Hc. unfold parse_num, num_start.
  destruct (skip_space_spec m p str Hc) as (c & -> & Hst). rewrite bind_Done.
  destruct (sign_spec _ _ _ _ Hst) as (c1 & E1 & Hst1). rewrite E1, bind_Done.
  destruct (sign_of (drop (spaces str) str)) as [neg j]. simpl in Hst1 |- *.
  rewrite drop_drop in Hst1.
  destruct (base_spec _ _ _ base _ Hst1) as (c2 & E2 & Hst2).
  destruct (base_of base (drop (spaces str + j) str)) as [b k]. simpl in *.
  rewrite drop_drop in Hst2. exists c2.
  replace (p + Z.of_nat (spaces str + j + k) + 1)
    with (p + Z.of_nat (spaces str) + 1 + Z.of_nat j + Z.of_nat k) by lia.
  split; [|done].
  match type of E2 with (?x ≫= _) = _ => destruct x as [[[c3 s3] b3]|]; [|done] end.
  rewrite bind_Done in *. by injection E2 as -> -> ->.
Qed.

Lemma digit_of_range c d : digit_of c = Some d -> 0 <= d < 36.
Proof.
  unfold digit_of, digit_spec, upper_spec, lower_spec, in_range. intros H.
  repeat case_match; simplify_eq; bool_to_prop; lia.
Qed.

Lemma digit_val_spec c : 0 <= c < 256 -> digit_val c = Done (digit_of c).
Proof.
  intros Hc. unfold digit_val, digit_of. rewrite isdigit_spec, bind_Done by lia.
  destruct (digit_spec c) eqn:Ed; simpl.
  { unfold digit_spec, in_range in Ed. bool_to_prop. by rewrite byte_small by lia. }
  rewrite isalpha_spec, bind_Done by lia. unfold alpha_spec.
  destruct (upper_spec c) eqn:Eu; simpl.
  - rewrite isupper_spec, bind_Done, Eu by lia. simpl.
    unfold upper_spec, in_range in Eu. bool_to_prop. by rewrite byte_small by lia.
  - destruct (lower_spec c) eqn:El; simpl; [|done].
    rewrite isupper_spec, bind_Done, Eu by lia. simpl.
    unfold lower_spec, in_range in El. bool_to_prop. by rewrite byte_small by lia.
Qed.

(** The test against [cutoff] and [cutlim] is the test for overflow of [M]. *)
Lemma cutoff_test M base acc d :
  0 < base -> 0 <= d < base ->
  ((M / base <? acc) || ((acc =? M / base) && (M mod base <? d))) = (M <? acc * base + d).
Proof.
  intros Hb Hd. pose proof (Z.div_mod M base ltac:(lia)) as E.
  pose proof (Z.mod_pos_bound M base Hb) as Hr.
  set (q := M / base) in *. set (r := M mod base) in *.
  destruct (Z.ltb_spec q acc); simpl.
  - symmetry. apply Z.ltb_lt. nia.
  - destruct (Z.eqb_spec acc q); simpl.
    + subst acc. destruct (Z.ltb_spec r d); symmetry; [apply Z.ltb_lt|apply Z.ltb_ge]; lia.
    + symmetry. apply Z.ltb_ge. nia.
Qed.

(** [any] and [acc] after digits of the value [t]. *)
Definition num_state (M t acc any : Z) : Prop :=
  0 <= t /\ ((any = -1 /\ M < t) \/ (acc = t /\ t <= M /\ (any = 0 \/ any = 1))).

Lemma digit_loop_spec m base M rest :
  2 <= base <= 36 -> 0 <= M < 2 ^ 64 ->
  forall fuel t acc any c s,
  stands m c s rest -> (length rest < fuel)%nat -> num_state M t acc any ->
  exists acc' any',
  loop fuel (digit_step m base (M / base) (M mod base)) (acc, any, c, s) =
    Done (acc', any', s + Z.of_nat (length (digits base rest))) /\
  num_state M (horner base t (digits base rest)) acc' any' /\
  (digits base rest = [] -> any' = any) /\ (digits base rest <> [] -> any' <> 0).
Proof.
  intros Hb HM. induction rest as [|b rest IH]; intros fuel t acc any c s Hst Hf Hn;
    (destruct fuel as [|fuel]; [simpl in Hf; lia|]); rewrite loop_S; cbn [digit_step digits];
    rewrite digit_val_spec, bind_Done by (by eapply stands_char); destruct Hst as [Hc ->];
    cbn [hd].
  - exists acc, any. rewrite Z.add_0_r. done.
  - destruct (digit_of b) as [d|] eqn:Ed; [|exists acc, any; by rewrite Z.add_0_r].
    pose proof (digit_of_range _ _ Ed). destruct (Z.leb_spec base d).
    { rewrite (proj2 (Z.ltb_ge d base)) by lia. exists acc, any. by rewrite Z.add_0_r. }
    rewrite (proj2 (Z.ltb_lt d base)) by lia.
    destruct (stands_next m b s b rest) as [Hl Hst']; [by split|].
    set (p := if (any <? 0) || _ || _ then _ else _).
    assert (Hp : num_state M (t * base + d) p.1 p.2 /\ p.2 <> 0).
    { destruct Hn as [Ht Hn]. unfold p. rewrite <- orb_assoc, cutoff_test by lia.
      destruct Hn as [[-> Hlt]|(-> & Hle & Hany)].
      - simpl. split; [|lia]. split; [nia|]. left. split; [done|nia].
      - rewrite (proj2 (Z.ltb_ge any 0)) by lia. simpl.
        destruct (Z.ltb_spec M (t * base + d)); simpl.
        + split; [|lia]. split; [nia|]. by left.
        + rewrite (wrap_u_small 64 (t * base)) by nia. rewrite wrap_u_small by nia.
          split; [|lia]. split; [nia|]. right. auto. }
    destruct p as [acc1 any1]. simpl in Hp. destruct Hp as [Hp Hany1].
    rewrite Hl, bind_Done.
    destruct (IH fuel (t * base + d) acc1 any1 (hd 0 rest) (s + 1)) as (acc' & any' & E & H1 & H2 & H3);
      [done|simpl in Hf; lia|done|].
    exists acc', any'. rewrite E. cbn [length]. split_and!.
    + do 2 f_equal. lia.
    + done.
    + done.
    + intros _. destruct (digits base rest); [by rewrite H2|by apply H3].
Qed.

(** The digits of the number at [p], and the value that they have. *)
Lemma digits_spec m p str base neg b ds k c M :
  cstr m p str -> base = 0 \/ 2 <= base <= 36 ->
  parse_num base str = (neg, b, ds, k) ->
  stands m c (p + Z.of_nat k + 1) (drop k str) -> 0 <= M < 2 ^ 64 ->
  2 <= b <= 36 /\
  exists acc any,
  digit_loop m b (M / b) (M mod b) c (p + Z.of_nat k + 1) =
    Done (acc, any, p + Z.of_nat k + 1 + Z.of_nat (length ds)) /\
  (any <? 0) = (M <? horner b 0 ds) /\
  ((M <? horner b 0 ds) = false -> acc = horner b 0 ds) /\
  0 <= horner b 0 ds /\
  end_ptr p any (p + Z.of_nat k + 1 + Z.of_nat (length ds)) =
    (if (length ds =? 0)%nat then p else p + Z.of_nat (k + length ds)).
Proof.
  intros Hc Hbase Hp Hst HM.
  assert (Hb : 2 <= b <= 36).
  { unfold parse_num in Hp. destruct (sign_of _) as [neg' j].
    destruct (base_of _ _) as [b' k'] eqn:E. simplify_eq. clear -E Hbase.
    unfold base_of in E. repeat case_match; simplify_eq; bool_to_prop; lia. }
  split; [done|]. assert (Hds : digits b (drop k str) = ds).
  { unfold parse_num in Hp. destruct (sign_of _) as [neg' j].
    destruct (base_of _ _) as [b' k']. by simplify_eq. }
  unfold digit_loop.
  destruct (digit_loop_spec m b M (drop k str) Hb HM (scan_fuel m) 0 0 0 c _ Hst)
    as (acc & any & E & [Ht Hn] & H0 & H1).
  { apply cstr_fuel in Hc. rewrite length_drop. lia. }
  { split; [lia|]. right. split_and!; [done|lia|by left]. }
  rewrite Hds in *. exists acc, any. split; [exact E|].
  destruct Hn as [[-> Hlt]|(-> & Hle & Hany)].
  - rewrite (proj2 (Z.ltb_lt M _)) by done. split_and!; [done|done|done|].
    destruct ds as [|d ds]; [simpl in Hlt; lia|]. unfold end_ptr. simpl. lia.
  - rewrite (proj2 (Z.ltb_ge M _)) by done. split_and!; [apply Z.ltb_ge; lia|done|done|].
    unfold end_ptr. destruct ds as [|d ds]; simpl.
    + by rewrite H0.
    + rewrite (proj2 (Z.eqb_neq any 0)) by (by apply H1). simpl. lia.
Qed.

Lemma wrap_s_mod M b : 2 <= b <= 36 -> wrap_s 32 (M mod b) = M mod b.
Proof.
  intros Hb. apply wrap_s_small; [lia|]. pose proof (Z.mod_pos_bound M b ltac:(lia)). lia.
Qed.

Lemma wrap_s_neg v : 0 <= v <= 2 ^ 63 -> wrap_s 64 (wrap_u 64 (- v)) = - v.
Proof.
  intros Hv. unfold wrap_s, wrap_u. change (64 - 1) with 63.
  rewrite Z.add_mod_idemp_l by lia. rewrite Z.mod_small; lia.
Qed.

(** The cutoff that strtoll computes from the limit less one. *)
Lemma strtoll_cutoff M b :
  2 <= b <= 36 -> 0 < M ->
  (if (M - 1) mod b + 1 =? b then (0, (M - 1) / b + 1) else ((M - 1) mod b + 1, (M - 1) / b)) =
  (M mod b, M / b).
Proof.
  intros Hb HM. pose proof (Z.div_mod (M - 1) b ltac:(lia)) as E.
  pose proof (Z.mod_pos_bound (M - 1) b ltac:(lia)) as Hr.
  set (q := (M - 1) / b) in *. set (r := (M - 1) mod b) in *.
  destruct (Z.eqb_spec (r + 1) b).
  - f_equal; [apply (Z.mod_unique _ _ (q + 1))|apply (Z.div_unique _ _ _ 0)]; lia.
  - f_equal; [apply (Z.mod_unique _ _ q)|apply (Z.div_unique _ _ _ (r + 1))]; lia.
Qed.

(** The common part of the four conversions, for the limits [M]. *)
Lemma strto_spec m p str base (M : bool -> Z) :
  cstr m p str -> base = 0 \/ 2 <= base <= 36 -> (forall neg, 0 <= M neg < 2 ^ 64) ->
  let '(neg, b, ds, k) := parse_num base str in
  let v := horner b 0 ds in
  2 <= b <= 36 /\ exists c s acc any s',
  num_start m p base = Done (c, s, neg, b) /\
  digit_loop m b (M neg / b) (M neg mod b) c s = Done (acc, any, s') /\
  (any <? 0) = (M neg <? v) /\ ((M neg <? v) = false -> acc = v) /\ 0 <= v /\
  end_ptr p any s' = (if (length ds =? 0)%nat then p else p + Z.of_nat (k + length ds)).
Proof.
  intros Hc Hbase HM. pose proof (num_start_spec m p base str Hc) as Hs.
  destruct (parse_num base str) as [[[neg b] ds] k] eqn:Ep. intros v.
  destruct Hs as (c & Hs & Hst).
  destruct (digits_spec m p str base neg b ds k c (M neg) Hc Hbase Ep Hst (HM neg))
    as (Hb & acc & any & Hloop & Hrest).
  split; [done|]. exists c, (p + Z.of_nat k + 1), acc, any.
  by exists (p + Z.of_nat k + 1 + Z.of_nat (length ds)).
Qed.

(** C39. strtol computes the number written in the string: the optional sign, base
    prefix and the longest run of digits give the value [v]; the result is [v]
    limited to the range of LONG_MIN to LONG_MAX, with ERANGE exactly when the
    limit was exceeded, and the end pointer is after the last digit, or at the
    start of the string when there is no digit. *)
Theorem strtol_correct m p str base :
  cstr m p str -> base = 0 \/ 2 <= base <= 36 ->
  let '(neg, b, ds, k) := parse_num base str in
  let v := horner b 0 ds in
  strtol m p base =
  Done (if neg then Z.max LONG_MIN (- v) else Z.min LONG_MAX v,
        if (length ds =? 0)%nat then p else p + Z.of_nat (k + length ds),
        if neg then - v <? LONG_MIN else LONG_MAX <? v).
Proof.
  intros Hc Hbase. pose proof (strto_spec m p str base (fun neg : bool => if neg then 2147483648 else 2147483647) Hc Hbase) as Hs.
  destruct (parse_num base str) as [[[neg b] ds] k]. intros v.
  destruct Hs as (Hb & c & s & acc & any & s' & Hstart & Hloop & Hany & Hacc & Hv & Hend);
    [by intros []|]. fold v in Hany, Hacc, Hv. cbn beta in Hloop, Hany, Hacc.
  unfold strtol. rewrite Hstart, bind_Done. cbn beta iota zeta.
  replace (if neg then wrap_u 64 (- wrap_u 64 LONG_MIN) else LONG_MAX)
    with (if neg then 2147483648 else 2147483647) by (by destruct neg).
  rewrite (wrap_u_small 64 b), wrap_s_mod, Hloop, bind_Done by (destruct neg; lia).
  cbn beta iota zeta. rewrite Hend, Hany. clear Hend Hloop. unfold LONG_MIN, LONG_MAX.
  destruct neg; match goal with |- context [?M <? v] => destruct (Z.ltb_spec M v) as [Hlt|Hle] end.
  - rewrite Z.max_l by lia. by rewrite (proj2 (Z.ltb_lt _ _)) by lia.
  - rewrite Hacc, wrap_s_neg, Z.max_r by (done || lia). by rewrite (proj2 (Z.ltb_ge _ _)) by lia.
  - by rewrite Z.min_l by lia.
  - rewrite Hacc, wrap_s_small, Z.min_r by (done || lia). done.
Qed.

(** [strtol("-0x1Fz", 0)] is -31 and stops at the [z]. *)
Lemma strtol_correct_witness :
  strtol (mem_of 1 [45; 48; 120; 49; 70; 122; 0]) 1 0 = Done (-31, 6, false).
Proof.
  apply (strtol_correct (mem_of 1 [45; 48; 120; 49; 70; 122; 0]) 1
    [45; 48; 120; 49; 70; 122] 0); [by_eval|lia].
Defined.

(** strtoll computes the number written in the string, limited to the 64-bit range,
    although it derives its cutoff from the limit less one. *)
Theorem strtoll_correct m p str base :
  cstr m p str -> base = 0 \/ 2 <= base <= 36 ->
  let '(neg, b, ds, k) := parse_num base str in
  let v := horner b 0 ds in
  strtoll m p base =
  Done (if neg then Z.max LLONG_MIN (- v) else Z.min LLONG_MAX v,
        if (length ds =? 0)%nat then p else p + Z.of_nat (k + length ds),
        if neg then - v <? LLONG_MIN else LLONG_MAX <? v).
Proof.
  intros Hc Hbase.
  pose proof (strto_spec m p str base (fun neg : bool => if neg then 9223372036854775808 else 9223372036854775807) Hc Hbase) as Hs.
  destruct (parse_num base str) as [[[neg b] ds] k]. intros v.
  destruct Hs as (Hb & c & s & acc & any & s' & Hstart & Hloop & Hany & Hacc & Hv & Hend);
    [by intros []|]. fold v in Hany, Hacc, Hv. cbn beta in Hloop, Hany, Hacc.
  unfold strtoll. rewrite Hstart, bind_Done. cbn beta iota zeta.
  replace (if neg then - (LLONG_MIN + 1) else LLONG_MAX - 1)
    with ((if neg then 9223372036854775808 else 9223372036854775807) - 1) by (by destruct neg).
  rewrite (wrap_u_small 64 b), wrap_s_mod, strtoll_cutoff by (destruct neg; lia).
  rewrite Hloop, bind_Done. cbn beta iota zeta. rewrite Hend, Hany. clear Hend Hloop.
  unfold LLONG_MIN, LLONG_MAX.
  destruct neg; match goal with |- context [?M <? v] => destruct (Z.ltb_spec M v) as [Hlt|Hle] end.
  - rewrite Z.max_l by lia. by rewrite (proj2 (Z.ltb_lt _ _)) by lia.
  - rewrite Hacc, wrap_s_neg, Z.max_r by (done || lia). by rewrite (proj2 (Z.ltb_ge _ _)) by lia.
  - by rewrite Z.min_l by lia.
  - rewrite Hacc, wrap_s_small, Z.min_r by (done || lia). done.
Qed.

(** [strtoll("-9223372036854775809", 10)] is LLONG_MIN, out of range. *)
Lemma strtoll_correct_witness :
  strtoll (mem_of 1 [45; 57; 50; 50; 51; 51; 55; 50; 48; 51; 54; 56; 53; 52; 55; 55; 53; 56;
    48; 57; 0]) 1 10 = Done (-9223372036854775808, 21, true).
Proof.
  apply (strtoll_correct (mem_of 1 [45; 57; 50; 50; 51; 51; 55; 50; 48; 51; 54; 56; 53; 52;
    55; 55; 53; 56; 48; 57; 0]) 1 [45; 57; 50; 50; 51; 51; 55; 50; 48; 51; 54; 56; 53; 52;
    55; 55; 53; 56; 48; 57] 10); [by_eval|lia].
Defined.

(** The unsigned conversions: strtoull limits the number to 64 bits and negates it
    modulo 2^64. strtoul has [unsigned long] of 64 bits but limits with ULONG_MAX of
    32 bits: numbers above 2^32-1 are reported as out of range, and yet the negative
    of a number in range comes out modulo 2^64, above ULONG_MAX. *)
Theorem strtoul_correct m p str base :
  cstr m p str -> base = 0 \/ 2 <= base <= 36 ->
  let '(neg, b, ds, k) := parse_num base str in
  let v := horner b 0 ds in
  let stop := if (length ds =? 0)%nat then p else p + Z.of_nat (k + length ds) in
  strtoul m p base =
    Done (if ULONG_MAX <? v then ULONG_MAX else if neg then (- v) mod 2 ^ 64 else v,
          stop, ULONG_MAX <? v) /\
  strtoull m p base =
    Done (if ULLONG_MAX <? v then ULLONG_MAX else if neg then (- v) mod 2 ^ 64 else v,
          stop, ULLONG_MAX <? v).
Proof.
  intros Hc Hbase.
  pose proof (strto_spec m p str base (fun _ => ULONG_MAX) Hc Hbase) as Hs.
  pose proof (strto_spec m p str base (fun _ => ULLONG_MAX) Hc Hbase) as Hs'.
  destruct (parse_num base str) as [[[neg b] ds] k]. intros v stop. split.
  - destruct Hs as (Hb & c & s & acc & any & s' & Hstart & Hloop & Hany & Hacc & Hv & Hend);
      [done|]. fold v in Hany, Hacc, Hv. unfold strtoul.
    rewrite Hstart, bind_Done. cbn beta iota zeta.
    rewrite (wrap_u_small 64 b), wrap_s_mod, Hloop, bind_Done by lia. cbn beta iota zeta.
    rewrite Hend, Hany. destruct (ULONG_MAX <? v); [done|]. by rewrite Hacc.
  - destruct Hs' as (Hb & c & s & acc & any & s' & Hstart & Hloop & Hany & Hacc & Hv & Hend);
      [done|]. fold v in Hany, Hacc, Hv. unfold strtoull.
    rewrite Hstart, bind_Done. cbn beta iota zeta.
    rewrite (wrap_u_small 64 b), wrap_s_mod, Hloop, bind_Done by lia. cbn beta iota zeta.
    rewrite Hend, Hany. destruct (ULLONG_MAX <? v); [done|]. by rewrite Hacc.
Qed.

(** [strtoul("-1", 10)] is 2^64 - 1. *)
Lemma strtoul_correct_witness :
  strtoul (mem_of 1 [45; 49; 0]) 1 10 = Done (18446744073709551615, 3, false).
Proof. apply (strtoul_correct (mem_of 1 [45; 49; 0]) 1 [45; 49] 10); [by_eval|lia]. Defined.

(** ** bsearch *)

(** The key's place among the [nelem] elements from [base] on does not go down:
    once it is not above an element, it is not above the later ones. *)
Definition sorted_for (cmp : Z -> Z) (base nelem size : Z) : Prop :=
  forall i j, 0 <= i < j -> j < nelem ->
    (cmp (base + i * size) <= 0 -> cmp (base + j * size) <= 0) /\
    (cmp (base + i * size) < 0 -> cmp (base + j * size) < 0).

Definition bsearch_inv (cmp : Z -> Z) (base nelem size : Z) (st : Z * Z) : Prop :=
  let '(b, lim) := st in
  exists lo, b = base + lo * size /\ 0 <= lo /\ 0 <= lim /\ lo + lim <= nelem /\
    forall i, 0 <= i < nelem -> cmp (base + i * size) = 0 -> lo <= i < lo + lim.

Lemma shiftr_1 n : Z.shiftr n 1 = n / 2.
Proof. apply Z.shiftr_div_pow2. lia. Qed.

(** bsearch on a sorted array always returns: an element equal to the key if there
    is one, NULL if there is none; it compares the key with elements of the array
    only. *)
Theorem bsearch_correct cmp base nelem size :
  0 <= nelem < 2 ^ 31 -> sorted_for cmp base nelem size ->
  exists r, bsearch cmp base nelem size = Done r /\
    ((exists i, 0 <= i < nelem /\ r = base + i * size /\ cmp r = 0) \/
     (r = 0 /\ forall i, 0 <= i < nelem -> cmp (base + i * size) <> 0)).
Proof.
  intros Hn Hsort. unfold bsearch. rewrite wrap_s_small by lia.
  apply (loop_total (bsearch_inv cmp base nelem size) _ (fun st => Z.to_nat st.2)).
  - intros [b lim] (lo & -> & Hlo & Hlim & Hle & Hin). simpl.
    destruct (Z.eqb_spec lim 0) as [->|Hne].
    { right. split; [done|]. intros i Hi E. specialize (Hin i Hi E). lia. }
    rewrite !shiftr_1. pose proof (Z.div_mod lim 2 ltac:(lia)).
    pose proof (Z.mod_pos_bound lim 2 ltac:(lia)).
    pose proof (Z.div_mod (lim - 1) 2 ltac:(lia)).
    pose proof (Z.mod_pos_bound (lim - 1) 2 ltac:(lia)).
    replace (base + lo * size + lim / 2 * size) with (base + (lo + lim / 2) * size) by lia.
    set (k := lo + lim / 2) in *.
    destruct (Z.eqb_spec (cmp (base + k * size)) 0) as [E|E].
    { left. exists k. split_and!; [lia|lia|done|done]. }
    destruct (Z.ltb_spec 0 (cmp (base + k * size))) as [Hgt|Hlt]; simpl.
    + split; [|lia]. exists (k + 1). split_and!; [lia|lia|lia|lia|].
      intros i Hi Ei. specialize (Hin i Hi Ei). split; [|lia].
      destruct (Z.le_gt_cases i k) as [Hik|]; [|lia].
      destruct (Z.eq_dec i k) as [->|]; [congruence|].
      destruct (Hsort i k ltac:(lia) ltac:(lia)) as [Hs _]. lia.
    + split; [|lia]. exists lo. split_and!; [lia|lia|lia|lia|].
      intros i Hi Ei. specialize (Hin i Hi Ei). split; [lia|].
      destruct (Z.le_gt_cases k i) as [Hik|]; [|lia].
      destruct (Z.eq_dec i k) as [->|]; [congruence|].
      destruct (Hsort k i ltac:(lia) ltac:(lia)) as [_ Hs]. lia.
  - exists 0. split_and!; [lia..|]. intros. lia.
  - simpl. lia.
Qed.

(** The key 30 in the array of ten numbers 0, 10, .., 90 of four bytes each. *)
Lemma bsearch_correct_witness :
  exists r, bsearch (fun p => 30 - (p - 1000) / 4 * 10) 1000 10 4 = Done r /\
    ((exists i, 0 <= i < 10 /\ r = 1000 + i * 4 /\ 30 - (r - 1000) / 4 * 10 = 0) \/
     (r = 0 /\ forall i, 0 <= i < 10 -> 30 - (1000 + i * 4 - 1000) / 4 * 10 <> 0)).
Proof.
  apply (bsearch_correct (fun p => 30 - (p - 1000) / 4 * 10) 1000 10 4); [lia|].
  intros i j Hij Hj.
  replace (1000 + i * 4 - 1000) with (i * 4) by lia.
  replace (1000 + j * 4 - 1000) with (j * 4) by lia.
  rewrite !Z.div_mul by lia. lia.
Defined.
