(* ===== verification/FnMatch.v ===== *)
(** * File name patterns (src/src/libc/posix/fnmatch/fnmatch.c)

    A string is the list of its characters without the terminator, as unsigned
    values; a pointer into it is the suffix that it points to. Reading the element
    after the last is reading the terminator, reading further is undefined. *)

From S2P Require Import Prelude Ctype.
From stdpp Require Import base list sets numbers.
From Stdlib Require Import ZArith Lia.

Open Scope Z_scope.
Open Scope c_scope.

Definition FNM_NOESCAPE : Z := 0x01.
Definition FNM_PATHNAME : Z := 0x02.
Definition FNM_NOMATCH : Z := 1.
Definition FNM_NOCASE : Z := 0x08.

Definition isslash (c : Z) : bool := (c =? 92) || (c =? 47).

(** [flags & f] *)
Definition has_flag (flags f : Z) : bool := negb (flags .& f =? 0).

(** [p[i]] *)
Definition peek (p : list Z) (i : nat) : outcome Z :=
  match p !! i with
  | Some c => Done c
  | None => if (i =? length p)%nat then Done 0 else Fail UB
  end.

(** A [char], which is signed. *)
Definition schar (c : Z) : Z := wrap_s 8 c.

Fixpoint find_slash (s : list Z) : option (list Z) :=
  match s with
  | [] => None
  | c :: s' => if isslash c then Some s else find_slash s'
  end.

(** The case-insensitive tests of rangematch. *)
Definition nocase_between (c test c2 : Z) : outcome bool :=
  uc ← toupper c; ut ← toupper test;
  if uc <=? ut then ut' ← toupper test; uc2 ← toupper c2; Done (ut' <=? uc2) else Done false.

Definition nocase_eq (c test : Z) : outcome bool :=
  uc ← toupper c; ut ← toupper test; Done (uc =? ut).

(** The loop of rangematch: [ok] and the pattern after the bracket, or [None] for
    an illegal pattern. *)
Fixpoint range_loop (p : list Z) (test : Z) (nocase ok : bool)
  : outcome (option (bool * list Z)) :=
  match p with
  | [] => Done None
  | c :: p1 =>
      if c =? 93 then Done (Some (ok, p1))
      else
        let single (_ : unit) :=
          if c =? test then range_loop p1 test nocase true
          else
            e ← (if nocase then nocase_eq c test else Done false);
            range_loop p1 test nocase (if e : bool then true else ok) in
        match p1 with
        | d :: c2 :: p2 =>
            if (d =? 45) && negb (c2 =? 0) && negb (c2 =? 93) then
              let ok := if (schar c <=? schar test) && (schar test <=? schar c2) then true
                        else ok in
              e ← (if nocase then nocase_between c test c2 else Done false);
              range_loop p2 test nocase (if e : bool then true else ok)
            else single tt
        | _ => single tt
        end
  end.

(** The pattern after the bracket, where [test] matches it. *)
Definition rangematch (p : list Z) (test : Z) (nocase : bool) : outcome (option (list Z)) :=
  let negate := hd 0 p =? 33 in
  let p := if negate then tl p else p in
  r ← range_loop p test nocase false;
  match r with
  | None => Done None
  | Some (ok, p') => Done (if Bool.eqb ok negate then None else Some p')
  end.

(** [while (c == '*') c = *++pattern;] *)
Fixpoint skip_stars (p : list Z) : list Z :=
  match p with
  | c :: p' => if c =? 42 then skip_stars p' else p
  | [] => []
  end.

(** [while ((test = *string) != 0) ...]: try [f] at each position. *)
Fixpoint star_loop (f : list Z -> outcome Z) (s : list Z) (flags : Z) : outcome Z :=
  match s with
  | [] => Done FNM_NOMATCH
  | test :: s' =>
      r ← f s;
      if r =? 0 then Done 0
      else if isslash test && has_flag flags FNM_PATHNAME then Done FNM_NOMATCH
      else star_loop f s' flags
  end.

(** [fuel] bounds the length of the pattern, which each round shortens. *)
Fixpoint fnmatch_go (fuel : nat) (pattern s : list Z) (flags : Z) : outcome Z :=
  match fuel with
  | O => Fail NoFuel
  | S fuel' =>
      match pattern with
      | [] => Done (if hd 0 s =? 0 then 0 else FNM_NOMATCH)
      | c :: p =>
          let test := hd 0 s in
          let default (_ : unit) :=
            if isslash c && isslash test then fnmatch_go fuel' p (tl s) flags
            else
              same ← (if has_flag flags FNM_NOCASE then nocase_eq c test
                      else Done (c =? test));
              if negb (same : bool) then Done FNM_NOMATCH else fnmatch_go fuel' p (tl s) flags in
          if c =? 63 then
            if (test =? 0) || (isslash test && has_flag flags FNM_PATHNAME)
            then Done FNM_NOMATCH else fnmatch_go fuel' p (tl s) flags
          else if c =? 42 then
            let p := skip_stars p in
            let c := hd 0 p in
            if c =? 0 then
              if has_flag flags FNM_PATHNAME then
                Done (match find_slash s with Some _ => FNM_NOMATCH | None => 0 end)
              else Done 0
            else if isslash c && has_flag flags FNM_PATHNAME then
              match find_slash s with
              | None => Done FNM_NOMATCH
              | Some s' => fnmatch_go fuel' p s' flags
              end
            else star_loop (fun s => fnmatch_go fuel' p s flags) s flags
          else if c =? 91 then
            if (test =? 0) || (isslash test && has_flag flags FNM_PATHNAME)
            then Done FNM_NOMATCH
            else
              r ← rangematch p test (has_flag flags FNM_NOCASE);
              match r with
              | None => Done FNM_NOMATCH
              | Some p' => fnmatch_go fuel' p' (tl s) flags
              end
          else if c =? 92 then
            if negb (has_flag flags FNM_NOESCAPE) then
              c1 ← peek p 1;
              if negb (c1 =? 0) && existsb (Z.eqb c1) [42; 63; 91; 92] then
                c0 ← peek p 0;
                let '(c, p) := if c0 =? 0 then (92, p) else (c0, tl p) in
                if negb (c =? test) then Done FNM_NOMATCH else fnmatch_go fuel' p (tl s) flags
              else default tt
            else default tt
          else default tt
      end
  end.

Definition fnmatch (pattern s : list Z) (flags : Z) : outcome Z :=
  fnmatch_go (S (length pattern)) pattern s flags.

(** * What a pattern matches *)

Definition upcase (c : Z) : Z := if lower_spec c then c - 32 else c.

(** Two characters are the same: slashes of either kind are, and with FNM_NOCASE
    letters that differ in case. *)
Definition same_char (flags c t : Z) : bool :=
  (isslash c && isslash t) ||
  (if has_flag flags FNM_NOCASE then upcase c =? upcase t else c =? t).

(** [t] may be matched by a wildcard. *)
Definition wild_char (flags t : Z) : bool := negb (isslash t && has_flag flags FNM_PATHNAME).

(** What stands between brackets: single characters and ranges. *)
Inductive set_item :=
  | SI_char (c : Z)
  | SI_range (lo hi : Z).

(** [set_body p its p']: [p] is the elements [its], the closing bracket and [p']. A
    character, a minus and a character other than the closing bracket are a range. *)
Inductive set_body : list Z -> list set_item -> list Z -> Prop :=
  | SB_end p' : set_body (93 :: p') [] p'
  | SB_range lo hi p its p' :
      lo <> 93 -> hi <> 93 -> set_body p its p' ->
      set_body (lo :: 45 :: hi :: p) (SI_range lo hi :: its) p'
  | SB_char c p its p' :
      c <> 93 -> (forall hi q, p = 45 :: hi :: q -> hi = 93) -> set_body p its p' ->
      set_body (c :: p) (SI_char c :: its) p'.

(** [t] is a character of the element: itself, or between the ends of the range, in
    the order of [char]; with FNM_NOCASE also in upper case. *)
Definition in_item (nocase : bool) (t : Z) (it : set_item) : Prop :=
  match it with
  | SI_char c => t = c \/ nocase = true /\ upcase t = upcase c
  | SI_range lo hi =>
      schar lo <= schar t <= schar hi \/
      nocase = true /\ upcase lo <= upcase t <= upcase hi
  end.

(** [bracket nocase p t p']: the bracket expression whose text behind the opening
    bracket is [p], and in which [p'] is what follows it, stands for [t]: some
    element has it, or none where it starts with an exclamation mark. *)
Inductive bracket (nocase : bool) : list Z -> Z -> list Z -> Prop :=
  | B_in p its t p' :
      hd 0 p <> 33 -> set_body p its p' -> Exists (in_item nocase t) its ->
      bracket nocase p t p'
  | B_out p its t p' :
      set_body p its p' -> ~ Exists (in_item nocase t) its -> bracket nocase (33 :: p) t p'.

(** [matches flags pattern s], with [\ ] an ordinary character. *)
Inductive matches (flags : Z) : list Z -> list Z -> Prop :=
  | M_end : matches flags [] []
  | M_any t p s :
      wild_char flags t = true -> matches flags p s -> matches flags (63 :: p) (t :: s)
  | M_star s1 s2 p :
      Forall (fun t => wild_char flags t = true) s1 -> matches flags p s2 ->
      matches flags (42 :: p) (s1 ++ s2)
  | M_set t p p' s :
      wild_char flags t = true -> bracket (has_flag flags FNM_NOCASE) p t p' ->
      matches flags p' s -> matches flags (91 :: p) (t :: s)
  | M_char c t p s :
      c <> 63 -> c <> 42 -> c <> 91 -> same_char flags c t = true ->
      matches flags p s -> matches flags (c :: p) (t :: s).

(** * Proofs *)

Lemma toupper_up c : 0 <= c < 256 -> toupper c = Done (upcase c).
Proof. intros. by rewrite toupper_spec. Qed.

Lemma nocase_eq_spec c t :
  0 <= c < 256 -> 0 <= t < 256 -> nocase_eq c t = Done (upcase c =? upcase t).
Proof. intros. unfold nocase_eq. by rewrite !toupper_up. Qed.

Lemma nocase_between_spec c t c2 :
  0 <= c < 256 -> 0 <= t < 256 -> 0 <= c2 < 256 ->
  nocase_between c t c2 = Done ((upcase c <=? upcase t) && (upcase t <=? upcase c2)).
Proof.
  intros. unfold nocase_between. rewrite !toupper_up, !bind_Done by done. by case_match.
Qed.

(** [in_item] as the loop of rangematch decides it. *)
Definition in_itemb (nocase : bool) (t : Z) (it : set_item) : bool :=
  match it with
  | SI_char c => (c =? t) || nocase && (upcase c =? upcase t)
  | SI_range lo hi =>
      (schar lo <=? schar t) && (schar t <=? schar hi) ||
      nocase && ((upcase lo <=? upcase t) && (upcase t <=? upcase hi))
  end.

Lemma in_itemb_spec nocase t it : in_itemb nocase t it = true <-> in_item nocase t it.
Proof.
  destruct it; simpl; rewrite orb_true_iff, !andb_true_iff, ?Z.eqb_eq, ?Z.leb_le; intuition congruence.
Qed.

Lemma existsb_in_item nocase t its :
  existsb (in_itemb nocase t) its = true <-> Exists (in_item nocase t) its.
Proof.
  rewrite existsb_exists, List.Exists_exists. by setoid_rewrite in_itemb_spec.
Qed.

(** A text is read as elements in one way only. *)
Lemma set_body_det p its p' its2 p2 :
  set_body p its p' -> set_body p its2 p2 -> its = its2 /\ p' = p2.
Proof.
  intros H. revert its2 p2. induction H as [|lo hi p its p' ? ? ? IH|c p its p' ? Hn ? IH];
    intros its2 p2 H2; inversion H2; subst; try done; try naive_solver;
    match goal with H : set_body _ _ _ |- _ => destruct (IH _ _ H) as [-> ->] end; done.
Qed.

Lemma set_body_suffix p its p' : set_body p its p' -> exists k, p' = drop (S k) p.
Proof.
  induction 1 as [p'|lo hi p its p' _ _ _ [k ->]|c p its p' _ _ _ [k ->]].
  - by exists 0%nat.
  - by exists (3 + k)%nat.
  - by exists (S k).
Qed.

(** range_loop reads the elements and asks whether one of them has the character, or
    there is no closing bracket. *)
Definition range_post (p : list Z) (t : Z) (nocase ok : bool)
    (r : outcome (option (bool * list Z))) : Prop :=
  (r = Done None /\ forall its p', ~ set_body p its p') \/
  (exists its p', set_body p its p' /\
    r = Done (Some (ok || existsb (in_itemb nocase t) its, p'))).

Lemma range_post_char c p t nocase ok r :
  c <> 93 -> (forall hi q, p = 45 :: hi :: q -> hi = 93) ->
  range_post p t nocase (ok || in_itemb nocase t (SI_char c)) r ->
  range_post (c :: p) t nocase ok r.
Proof.
  intros Hc Hn [[-> Hno]|(its & p' & H & ->)].
  - left. split; [done|]. intros its p' H. inversion H; subst; try done; naive_solver.
  - right. exists (SI_char c :: its), p'. split; [by constructor|]. cbn [existsb].
    by rewrite orb_assoc.
Qed.

Lemma range_post_range lo hi p t nocase ok r :
  lo <> 93 -> hi <> 93 ->
  range_post p t nocase (ok || in_itemb nocase t (SI_range lo hi)) r ->
  range_post (lo :: 45 :: hi :: p) t nocase ok r.
Proof.
  intros Hlo Hhi [[-> Hno]|(its & p' & H & ->)].
  - left. split; [done|]. intros its p' H. inversion H; subst; try done; naive_solver.
  - right. exists (SI_range lo hi :: its), p'. split; [by constructor|]. cbn [existsb].
    by rewrite orb_assoc.
Qed.

(** The branch of a single character. *)
Lemma range_single c p t nocase ok :
  0 <= c < 256 -> 0 <= t < 256 ->
  (if c =? t then range_loop p t nocase true
   else e ← (if nocase then nocase_eq c t else Done false);
        range_loop p t nocase (if e : bool then true else ok)) =
  range_loop p t nocase (ok || in_itemb nocase t (SI_char c)).
Proof.
  intros. cbn [in_itemb]. rewrite nocase_eq_spec by done.
  destruct (c =? t); [by rewrite orb_true_r|].
  destruct nocase; rewrite bind_Done; destruct ok; simpl; try done; by case_match.
Qed.

Lemma range_loop_spec n : forall p t nocase ok,
  (length p <= n)%nat -> str_ok p -> 0 <= t < 256 ->
  range_post p t nocase ok (range_loop p t nocase ok).
Proof.
  induction n as [|n IH]; intros p t nocase ok Hl Hp Ht.
  { destruct p; [|simpl in Hl; lia]. left. split; [done|]. intros ? ? H. inversion H. }
  destruct p as [|c p1].
  { left. split; [done|]. intros ? ? H. inversion H. }
  apply str_ok_cons in Hp as [Hc Hp]. cbn [range_loop].
  destruct (Z.eqb_spec c 93) as [->|Hc93].
  { right. exists [], p1. split; [constructor|]. by rewrite orb_false_r. }
  cbn zeta. rewrite range_single by lia.
  assert (Hsingle : (forall hi q, p1 = 45 :: hi :: q -> hi = 93) ->
    range_post (c :: p1) t nocase ok
      (range_loop p1 t nocase (ok || in_itemb nocase t (SI_char c)))).
  { intros Hn. apply range_post_char; [done|done|]. apply IH; [simpl in Hl; lia|done|done]. }
  destruct p1 as [|d [|c2 p2]]; [by apply Hsingle|by apply Hsingle|].
  apply str_ok_cons in Hp as [_ Hp]. apply str_ok_cons in Hp as [Hc2 Hp].
  rewrite (proj2 (Z.eqb_neq c2 0)) by lia.
  destruct (Z.eqb_spec d 45) as [->|Hd]; [|apply Hsingle; congruence].
  destruct (Z.eqb_spec c2 93) as [->|Hc293]; [apply Hsingle; congruence|]. simpl.
  apply range_post_range; [done|done|]. rewrite nocase_between_spec by lia.
  assert (E : forall b, (e ← (if nocase then Done b else Done false);
      range_loop p2 t nocase (if e : bool then true else
        if (schar c <=? schar t) && (schar t <=? schar c2) then true else ok)) =
    range_loop p2 t nocase (ok || ((schar c <=? schar t) && (schar t <=? schar c2) || nocase && b))).
  { intros b. destruct nocase; rewrite bind_Done; f_equal; by destruct b, ok, (_ && _). }
  rewrite E. apply IH; [simpl in Hl; lia|done|done].
Qed.

Lemma range_loop_iff p t nocase its p' :
  str_ok p -> 0 <= t < 256 -> set_body p its p' ->
  range_loop p t nocase false = Done (Some (existsb (in_itemb nocase t) its, p')).
Proof.
  intros Hp Ht Hb.
  destruct (range_loop_spec (length p) p t nocase false) as [[_ Hno]|(its2 & p2 & H & ->)];
    [done|done|done|by destruct (Hno _ _ Hb)|].
  by destruct (set_body_det _ _ _ _ _ Hb H) as [-> ->].
Qed.

(** rangematch decides what a bracket expression stands for. *)
Lemma rangematch_spec p t nocase :
  str_ok p -> 0 <= t < 256 ->
  exists r, rangematch p t nocase = Done r /\ (forall p', r = Some p' <-> bracket nocase p t p').
Proof.
  intros Hp Ht. unfold rangematch.
  set (q := if hd 0 p =? 33 then tl p else p).
  assert (Hq : str_ok q).
  { subst q. destruct p as [|c p]; [done|]. simpl. apply str_ok_cons in Hp as Hp2.
    case_match; [by destruct Hp2|done]. }
  assert (Hpq : (hd 0 p = 33 /\ p = 33 :: q) \/ (hd 0 p <> 33 /\ p = q)).
  { subst q. destruct p as [|c p]; simpl; [right; done|].
    destruct (Z.eqb_spec c 33) as [->|]; [by left|by right]. }
  clearbody q.
  destruct (range_loop_spec (length q) q t nocase false)
    as [[-> Hno]|(its & p2 & Hb & ->)]; [done|done|done| |].
  - exists None. split; [done|]. intros p'. split; [done|]. intros H.
    destruct Hpq as [[E ->]|[E ->]]; inversion H; subst; simpl in *; naive_solver.
  - rewrite bind_Done. eexists. split; [done|]. intros p'. cbn [orb].
    destruct Hpq as [[E ->]|[E ->]].
    + change (hd 0 (33 :: q) =? 33) with true.
      destruct (existsb _ its) eqn:Ex; simpl.
      * split; [done|]. intros H. inversion H; subst; [done|].
        destruct (set_body_det q its p2 its0 p') as [-> ->]; [done..|].
        by rewrite existsb_in_item in Ex.
      * rewrite <- not_true_iff_false, existsb_in_item in Ex. split.
        -- intros [= <-]. by econstructor.
        -- intros H. inversion H; subst; [done|].
           by destruct (set_body_det q its p2 its0 p') as [-> ->].
    + rewrite (proj2 (Z.eqb_neq _ _) E). destruct (existsb _ its) eqn:Ex; simpl.
      * rewrite existsb_in_item in Ex. split.
        -- intros [= <-]. by econstructor.
        -- intros H. inversion H; subst; [|done].
           by destruct (set_body_det q its p2 its0 p') as [-> ->].
      * split; [done|]. intros H. inversion H; subst; [|done].
        destruct (set_body_det q its p2 its0 p') as [-> ->]; [done..|].
        rewrite <- existsb_in_item in *. congruence.
Qed.

Lemma bracket_suffix nocase p t p' : bracket nocase p t p' -> exists k, p' = drop (S k) p.
Proof.
  intros [? ? ? ? _ [k ->]%set_body_suffix _|? ? ? ? [k ->]%set_body_suffix _];
    [by exists k|by exists (S k)].
Qed.

Lemma matches_star flags p s :
  matches flags (42 :: p) s <->
  exists s1 s2, s = s1 ++ s2 /\ Forall (fun t => wild_char flags t = true) s1 /\ matches flags p s2.
Proof.
  split.
  - intros H. inversion H; subst; [by eexists _, _|congruence].
  - intros (s1 & s2 & -> & H1 & H2). by constructor.
Qed.

Lemma matches_star_star flags p s :
  matches flags (42 :: 42 :: p) s <-> matches flags (42 :: p) s.
Proof.
  rewrite (matches_star _ (42 :: p)), (matches_star _ p). split.
  - intros (s1 & s2 & -> & H1 & (s3 & s4 & -> & H3 & H4)%matches_star).
    exists (s1 ++ s3), s4. rewrite app_assoc. split_and!; [done| |done]. by apply Forall_app.
  - intros (s1 & s2 & -> & H1 & H2). exists s1, s2. split_and!; [done|done|].
    apply matches_star. exists [], s2. by split_and!.
Qed.

Lemma matches_skip flags p s :
  matches flags (42 :: skip_stars p) s <-> matches flags (42 :: p) s.
Proof.
  induction p as [|c p IH]; [done|]. simpl. destruct (Z.eqb_spec c 42) as [->|]; [|done].
  by rewrite matches_star_star.
Qed.

(** Everything but a star takes a character. *)
Lemma matches_nil flags c p : c <> 42 -> ~ matches flags (c :: p) [].
Proof. intros Hc H. inversion H; subst; done. Qed.

Lemma skip_stars_hd p : hd 0 (skip_stars p) <> 42.
Proof. induction p as [|c p IH]; [done|]. simpl. by destruct (Z.eqb_spec c 42). Qed.

(** [r] is the answer to whether [P]. *)
Definition answers (r : outcome Z) (P : Prop) : Prop :=
  exists v, r = Done v /\ (v = 0 \/ v = FNM_NOMATCH) /\ (v = 0 <-> P).

Lemma answers_iff r P Q : answers r P -> (P <-> Q) -> answers r Q.
Proof. intros (v & H1 & H2 & H3) HPQ. exists v. by rewrite <- HPQ. Qed.

Lemma answers_no (P : Prop) : ~ P -> answers (Done FNM_NOMATCH) P.
Proof. intros. exists FNM_NOMATCH. split_and!; [done|by right|done]. Qed.

Lemma star_loop_spec flags f c p s :
  c <> 42 -> (forall s', (exists k, s' = drop k s) -> answers (f s') (matches flags (c :: p) s')) ->
  answers (star_loop f s flags) (matches flags (42 :: c :: p) s).
Proof.
  intros Hc. induction s as [|t s IH]; intros Hf; simpl.
  - apply answers_no. rewrite matches_star. intros (s1 & s2 & E & _ & H).
    symmetry in E. apply app_nil in E as [-> ->]. by eapply matches_nil.
  - destruct (Hf (t :: s)) as (v & -> & Hv & Hiff); [by exists 0%nat|]. rewrite bind_Done.
    destruct (Z.eqb_spec v 0) as [->|Hne].
    + exists 0. split_and!; [done|by left|]. split; [|done]. intros _. apply matches_star.
      exists [], (t :: s). split_and!; [done|done|by apply Hiff].
    + assert (Hno : ~ matches flags (c :: p) (t :: s)) by (intros H; by apply Hne, Hiff).
      destruct (isslash t && has_flag flags FNM_PATHNAME) eqn:E.
      * apply answers_no. rewrite matches_star. intros ([|t' s1] & s2 & E2 & H1 & H2).
        { simpl in E2. by subst s2. }
        simplify_eq/=. apply Forall_cons_iff in H1 as [H1 _]. unfold wild_char in H1.
        by rewrite E in H1.
      * eapply answers_iff; [apply IH|].
        { intros s' [k ->]. apply Hf. by exists (S k). }
        rewrite !matches_star. split.
        -- intros (s1 & s2 & -> & H1 & H2). exists (t :: s1), s2. split_and!; [done| |done].
           constructor; [|done]. unfold wild_char. by rewrite E.
        -- intros (s1 & s2 & E2 & H1 & H2).
           destruct s1 as [|t' s1]; simpl in E2; [by subst s2|]. injection E2 as <- ->.
           apply Forall_cons_iff in H1 as [_ H1]. by exists s1, s2.
Qed.

Lemma find_slash_None s : find_slash s = None <-> Forall (fun t => isslash t = false) s.
Proof.
  induction s as [|t s IH]; simpl; [done|]. rewrite Forall_cons_iff, <- IH.
  destruct (isslash t); naive_solver.
Qed.

Lemma find_slash_Some s s' :
  find_slash s = Some s' ->
  exists s1 t s2, s = s1 ++ s' /\ s' = t :: s2 /\ isslash t = true /\
    Forall (fun t => isslash t = false) s1.
Proof.
  induction s as [|t s IH]; simpl; [done|]. destruct (isslash t) eqn:E.
  - intros [= <-]. by exists [], t, s.
  - intros H. destruct (IH H) as (s1 & t' & s2 & -> & -> & ? & ?).
    exists (t :: s1), t', s2. split_and!; [done|done|done|by constructor].
Qed.

(** Inversions of [matches], one for each kind of pattern character. *)
Lemma matches_char_inv flags c p t s :
  c <> 63 -> c <> 42 -> c <> 91 ->
  matches flags (c :: p) (t :: s) <-> same_char flags c t = true /\ matches flags p s.
Proof.
  intros H1 H2 H3. split.
  - intros H. inversion H; subst; done.
  - intros []. by constructor.
Qed.

Lemma matches_any_inv flags p t s :
  matches flags (63 :: p) (t :: s) <-> wild_char flags t = true /\ matches flags p s.
Proof. split; [intros H; inversion H; subst; done|intros []; by constructor]. Qed.

Lemma matches_set_inv flags p t s :
  matches flags (91 :: p) (t :: s) <->
  wild_char flags t = true /\
  exists p', bracket (has_flag flags FNM_NOCASE) p t p' /\ matches flags p' s.
Proof.
  split.
  - intros H. inversion H; subst; [|done]. split; [done|]. by exists p'.
  - intros (Hw & p' & Hb & Hm). by econstructor.
Qed.

Lemma upcase_pos c : 0 < c -> 0 < upcase c.
Proof. unfold upcase, lower_spec, in_range. intros. case_match; bool_to_prop; lia. Qed.

Lemma same_char_slash flags c t :
  isslash c = true -> same_char flags c t = true -> isslash t = true.
Proof.
  intros Hc. unfold same_char. rewrite Hc. destruct (isslash t) eqn:E; [done|]. simpl.
  unfold upcase, lower_spec, in_range, isslash in *. intros H.
  apply orb_true_iff in Hc as [Hc|Hc]; apply orb_false_iff in E as [? ?];
    apply Z.eqb_eq in Hc as ->; repeat case_match; bool_to_prop; simpl in *; try done; lia.
Qed.

Lemma find_slash_app s1 t s2 :
  Forall (fun t => isslash t = false) s1 -> isslash t = true ->
  find_slash (s1 ++ t :: s2) = Some (t :: s2).
Proof.
  intros H Ht. induction H as [|t' s1 Ht' H IH]; simpl; [by rewrite Ht|]. by rewrite Ht'.
Qed.

(** With FNM_PATHNAME, a star before a slash goes up to the first slash. *)
Lemma matches_star_slash flags c p s :
  isslash c = true -> has_flag flags FNM_PATHNAME = true -> c <> 63 -> c <> 42 -> c <> 91 ->
  matches flags (42 :: c :: p) s <->
  match find_slash s with Some s' => matches flags (c :: p) s' | None => False end.
Proof.
  intros Hc Hf H1 H2 H3.
  assert (Hw : forall t, wild_char flags t = negb (isslash t))
    by (intros t; unfold wild_char; by rewrite Hf, andb_true_r).
  rewrite matches_star. split.
  - intros (s1 & [|t s2] & -> & Hs1 & Hm); [by apply matches_nil in Hm|].
    assert (Ht : isslash t = true)
      by (apply matches_char_inv in Hm as [? _]; [by eapply same_char_slash|done..]).
    rewrite find_slash_app; [done| |done]. eapply List.Forall_impl; [|exact Hs1].
    intros t'. cbn beta. rewrite Hw. by destruct (isslash t').
  - destruct (find_slash s) as [s'|] eqn:E; [|done]. intros Hm.
    destruct (find_slash_Some _ _ E) as (s1 & t & s2 & -> & -> & Ht & Hs1).
    exists s1, (t :: s2). split_and!; [done| |done]. eapply List.Forall_impl; [|exact Hs1].
    intros t'. cbn beta. rewrite Hw. by intros ->.
Qed.

Section Fnmatch.
Context (flags : Z) (fuel : nat).
Hypothesis IH : forall p s, (length p < fuel)%nat -> str_ok p -> str_ok s ->
  has_flag flags FNM_NOESCAPE = true \/ 92 ∉ p ->
  answers (fnmatch_go fuel p s flags) (matches flags p s).

Lemma default_spec c p s :
  (length p < fuel)%nat -> str_ok (c :: p) -> str_ok s ->
  has_flag flags FNM_NOESCAPE = true \/ 92 ∉ p -> c <> 63 -> c <> 42 -> c <> 91 ->
  answers
    (if isslash c && isslash (hd 0 s) then fnmatch_go fuel p (tl s) flags
     else
       same ← (if has_flag flags FNM_NOCASE then nocase_eq c (hd 0 s) else Done (c =? hd 0 s));
       if negb (same : bool) then Done FNM_NOMATCH else fnmatch_go fuel p (tl s) flags)
    (matches flags (c :: p) s).
Proof.
  intros Hl Hp Hs He H1 H2 H3. apply str_ok_cons in Hp as [Hc Hp].
  destruct s as [|t s]; simpl.
  - rewrite andb_false_r, nocase_eq_spec by lia.
    assert (E : (if has_flag flags FNM_NOCASE then Done (upcase c =? upcase 0)
                 else Done (c =? 0)) = Done false).
    { pose proof (upcase_pos c). change (upcase 0) with 0.
      destruct (has_flag flags FNM_NOCASE); f_equal; apply Z.eqb_neq; lia. }
    rewrite E, bind_Done. simpl. apply answers_no. by apply matches_nil.
  - apply str_ok_cons in Hs as [Ht Hs]. rewrite nocase_eq_spec by lia.
    eapply answers_iff; [|symmetry; by apply matches_char_inv]. unfold same_char.
    destruct (isslash c && isslash t); simpl.
    + eapply answers_iff; [by apply IH|]. tauto.
    + destruct (has_flag flags FNM_NOCASE); rewrite bind_Done;
        (destruct (_ =? _); simpl; [|apply answers_no; naive_solver];
         eapply answers_iff; [by apply IH|tauto]).
Qed.

Lemma star_spec p s :
  (length p < fuel)%nat -> str_ok p -> str_ok s ->
  has_flag flags FNM_NOESCAPE = true \/ 92 ∉ p -> hd 0 p <> 42 ->
  answers
    (if hd 0 p =? 0 then
       if has_flag flags FNM_PATHNAME then
         Done (match find_slash s with Some _ => FNM_NOMATCH | None => 0 end)
       else Done 0
     else if isslash (hd 0 p) && has_flag flags FNM_PATHNAME then
       match find_slash s with
       | None => Done FNM_NOMATCH
       | Some s' => fnmatch_go fuel p s' flags
       end
     else star_loop (fun s => fnmatch_go fuel p s flags) s flags)
    (matches flags (42 :: p) s).
Proof.
  intros Hl Hp Hs He Hh. destruct p as [|c p]; simpl in *.
  - assert (E : matches flags [42] s <-> Forall (fun t => wild_char flags t = true) s).
    { rewrite matches_star. split.
      - intros (s1 & s2 & -> & H1 & H2). inversion H2; subst. by rewrite app_nil_r.
      - intros H. exists s, []. rewrite app_nil_r. split_and!; [done|done|constructor]. }
    eapply answers_iff; [|symmetry; exact E]. clear E. unfold wild_char.
    destruct (has_flag flags FNM_PATHNAME).
    + destruct (find_slash s) eqn:E.
      * apply answers_no. intros H. assert (Hn : find_slash s = None); [|congruence].
        apply find_slash_None. eapply List.Forall_impl; [|exact H]. intros t. cbn beta.
        rewrite andb_true_r. by destruct (isslash t).
      * exists 0. split_and!; [done|by left|]. split; [|done]. intros _.
        apply find_slash_None in E. eapply List.Forall_impl; [|exact E]. intros t. cbn beta.
        by intros ->.
    + exists 0. split_and!; [done|by left|]. split; [|done]. intros _.
      apply List.Forall_forall. intros t _. by rewrite andb_false_r.
  - pose proof Hp as [Hc _]%str_ok_cons. rewrite (proj2 (Z.eqb_neq c 0)) by lia.
    destruct (isslash c && has_flag flags FNM_PATHNAME) eqn:E.
    + apply andb_true_iff in E as [Ec Ep].
      assert (Hcs : c <> 63 /\ c <> 91)
        by (unfold isslash in Ec; apply orb_true_iff in Ec as [?|?]; bool_to_prop; lia).
      destruct Hcs as [H63 H91]. eapply answers_iff; [|symmetry; by apply matches_star_slash].
      destruct (find_slash s) as [s'|] eqn:Es; [|apply answers_no; intros []].
      apply IH; [done|done| |done].
      destruct (find_slash_Some _ _ Es) as (s1 & t & s2 & -> & _).
      by apply str_ok_app in Hs as [_ ?].
    + apply star_loop_spec; [done|]. intros s' [k ->]. apply IH; [done|done| |done].
      unfold str_ok in *. by apply Forall_drop.
Qed.

End Fnmatch.

Lemma skip_stars_suffix p : exists k, skip_stars p = drop k p.
Proof.
  induction p as [|c p [k IH]]; [by exists 0%nat|]. simpl.
  destruct (c =? 42); [exists (S k); done|by exists 0%nat].
Qed.

Lemma fnmatch_go_spec flags fuel : forall p s,
  (length p < fuel)%nat -> str_ok p -> str_ok s ->
  has_flag flags FNM_NOESCAPE = true \/ 92 ∉ p ->
  answers (fnmatch_go fuel p s flags) (matches flags p s).
Proof.
  induction fuel as [|fuel IH]; intros p s Hl Hp Hs He; [lia|].
  destruct p as [|c p]; cbn [fnmatch_go].
  { destruct s as [|t s]; simpl.
    - exists 0. split_and!; [done|by left|]. split; [constructor|done].
    - apply str_ok_cons in Hs as [Ht _]. rewrite (proj2 (Z.eqb_neq t 0)) by lia.
      apply answers_no. intros H. inversion H. }
  assert (Hl' : (length p < fuel)%nat) by (simpl in Hl; lia).
  pose proof Hp as [Hc Hp']%str_ok_cons.
  assert (He' : has_flag flags FNM_NOESCAPE = true \/ 92 ∉ p) by set_solver.
  assert (Hsuf : forall k, str_ok (drop k p) /\ (length (drop k p) < fuel)%nat /\
    (has_flag flags FNM_NOESCAPE = true \/ 92 ∉ drop k p)).
  { intros k. split_and!; [by apply Forall_drop|rewrite length_drop; lia|].
    destruct He' as [?|Hn]; [by left|right]. intros Hin. apply Hn.
    rewrite <- (take_drop k p). set_solver. }
  destruct (Z.eqb_spec c 63) as [->|H63].
  { destruct s as [|t s]; simpl; [apply answers_no; by apply matches_nil|].
    apply str_ok_cons in Hs as [Ht Hs]. rewrite (proj2 (Z.eqb_neq t 0)) by lia. simpl.
    eapply answers_iff; [|symmetry; by apply matches_any_inv]. unfold wild_char.
    destruct (isslash t && _); simpl; [apply answers_no; naive_solver|].
    eapply answers_iff; [by apply IH|naive_solver]. }
  destruct (Z.eqb_spec c 42) as [->|H42].
  { eapply answers_iff; [|apply matches_skip].
    destruct (skip_stars_suffix p) as [k Ek]. pose proof (skip_stars_hd p) as Hh.
    rewrite Ek in *. destruct (Hsuf k) as (? & ? & ?). by apply star_spec. }
  destruct (Z.eqb_spec c 91) as [->|H91].
  { destruct s as [|t s]; simpl; [apply answers_no; by apply matches_nil|].
    apply str_ok_cons in Hs as [Ht Hs]. rewrite (proj2 (Z.eqb_neq t 0)) by lia. simpl.
    destruct (rangematch_spec p t (has_flag flags FNM_NOCASE) Hp' ltac:(lia)) as (r & Er & Hr).
    eapply answers_iff; [|symmetry; by apply matches_set_inv]. unfold wild_char.
    destruct (isslash t && _); simpl; [apply answers_no; naive_solver|].
    rewrite Er, bind_Done.
    destruct r as [p'|]; [|apply answers_no; intros (_ & p' & Hb & _); by apply Hr in Hb].
    pose proof (proj1 (Hr p') eq_refl) as Hb. destruct (bracket_suffix _ _ _ _ Hb) as [k Hk].
    rewrite Hk in *. destruct (Hsuf (S k)) as (? & ? & ?).
    eapply answers_iff; [by apply IH|]. split; [by eauto|].
    intros (_ & p2 & Hb2 & Hm). apply Hr in Hb2. by simplify_eq. }
  destruct (Z.eqb_spec c 92) as [->|H92]; [|by apply default_spec].
  destruct He as [He|He]; [|set_solver]. rewrite He. by apply default_spec.
Qed.

(** C36. fnmatch decides whether a name matches a pattern: for every pattern in which
    the backslash is not an escape character (with FNM_NOESCAPE, or where there is
    none), it returns 0 exactly when the pattern matches the name, FNM_NOMATCH
    otherwise, and always returns. What a bracket expression stands for is given by its
    elements, single characters and ranges, and the exclamation mark in front. Patterns
    with escapes are left out: see [fnmatch_escape_defect]. *)
Theorem fnmatch_correct p s flags :
  str_ok p -> str_ok s -> has_flag flags FNM_NOESCAPE = true \/ 92 ∉ p ->
  exists r, fnmatch p s flags = Done r /\ (r = 0 \/ r = FNM_NOMATCH) /\
    (r = 0 <-> matches flags p s).
Proof. intros. apply fnmatch_go_spec; [lia|done..]. Qed.

(** [a*[0-9]] matches [ab7]. *)
Lemma fnmatch_correct_witness :
  exists r, fnmatch [97; 42; 91; 48; 45; 57; 93] [97; 98; 55] 0 = Done r /\
    (r = 0 \/ r = FNM_NOMATCH) /\ (r = 0 <-> matches 0 [97; 42; 91; 48; 45; 57; 93] [97; 98; 55]).
Proof.
  apply (fnmatch_correct [97; 42; 91; 48; 45; 57; 93] [97; 98; 55] 0);
    [by_eval|by_eval|right; set_solver].
Defined.

(** The escape in a pattern is recognised by the character after the escaped one:
    [\x] at the end of a pattern does not match [x], for no special character [x];
    and a pattern that ends in a backslash makes fnmatch read past its terminator. *)
Theorem fnmatch_escape_defect x s :
  x = 42 \/ x = 63 \/ x = 91 ->
  fnmatch [92; x] [x] 0 = Done FNM_NOMATCH /\ fnmatch [92] s 0 = Fail UB.
Proof. by intros [-> | [-> | ->]]. Qed.

Lemma fnmatch_escape_defect_witness :
  fnmatch [92; 42] [42] 0 = Done FNM_NOMATCH /\ fnmatch [92] [97] 0 = Fail UB.
Proof. apply (fnmatch_escape_defect 42 [97]). by left. Defined.
