(* ===== verification/Paths.v ===== *)
(** * File names

    fnsplit, fnmerge (src/src/libc/dos/dir), basename, dirname
    (src/src/libc/compat/unistd), _is_DOS83 and _lfn_gen_short_fname
    (src/src/libc/dos/lfn). A string is the list of its characters without the
    terminator; [peek] reads the terminator after it and nothing further. *)

From Stdlib Require Import String.
From S2P Require Import Prelude Ctype Strings FnMatch.
From stdpp Require Import base list sets numbers.
From Stdlib Require Import ZArith Lia.

Open Scope Z_scope.
Open Scope c_scope.

Definition WILDCARDS : Z := 0x01.
Definition EXTENSION : Z := 0x02.
Definition FILENAME : Z := 0x04.
Definition DIRECTORY : Z := 0x08.
Definition DRIVE : Z := 0x10.

(** The greater of two positions, where NULL is below all. *)
Definition max_ptr (p1 p2 : option nat) : option nat :=
  match p1, p2 with
  | Some i, Some j => Some (if (j <? i)%nat then i else j)
  | Some i, None => Some i
  | None, _ => p2
  end.

(** The number of leading dots. *)
Fixpoint dots (s : list Z) : nat :=
  match s with
  | c :: s' => if c =? 46 then S (dots s') else O
  | [] => O
  end.

(** [if (isalpha( *pp) || strchr("[\\]^_`", *pp)) && pp[1] == ':'] *)
Definition has_drive (path : list Z) : outcome bool :=
  c ← peek path 0;
  a ← isalpha c;
  if negb (a =? 0) || existsb (Z.eqb c) [91; 92; 93; 94; 95; 96; 0] then
    c1 ← peek path 1; Done (c1 =? 58)
  else Done false.

(** The part of fnsplit after the directory: [flags], [name] and [ext]. *)
Definition fnsplit_name (flags : Z) (pp : list Z) : Z * list Z * list Z :=
  let n := dots pp in
  let '(flags, name) := if (0 <? n)%nat then (flags .| FILENAME, take n pp) else (flags, []) in
  let pp := drop n pp in
  let '(flags, ext, len) :=
    match last_index 46 pp with
    | Some i => (flags .| EXTENSION, drop i pp, i)
    | None => (flags, [], length pp)
    end in
  if negb (len =? 0)%nat then (flags .| FILENAME, name ++ take len pp, ext)
  else (flags, name, ext).

(** The flags and the contents of [drive], [dir], [name] and [ext]. *)
Definition fnsplit (path : list Z) : outcome (Z * list Z * list Z * list Z * list Z) :=
  d ← has_drive path;
  let '(flags, drive, pp) :=
    if d : bool then (DRIVE, take 2 path, drop 2 path) else (0, [], path) in
  let '(flags, dir, pp) :=
    match max_ptr (last_index 92 pp) (last_index 47 pp) with
    | Some i => (flags .| DIRECTORY, take (S i) pp, drop (S i) pp)
    | None => (flags, [], pp)
    end in
  let '(flags, name, ext) := fnsplit_name flags pp in
  let flags :=
    if existsb (fun c => existsb (Z.eqb c) [42; 63; 91]) path then flags .| WILDCARDS
    else flags in
  Done (flags, drive, dir, name, ext).

Definition fnmerge (drive dir name ext : list Z) : list Z :=
  let path := match drive with d :: _ => [d; 58] | [] => [] end in
  let path :=
    match dir with
    | [] => path
    | _ :: _ =>
        let last_dir_char := List.last dir 0 in
        path ++ dir ++
        (if negb (last_dir_char =? 47) && negb (last_dir_char =? 92)
         then (if existsb (Z.eqb 92) dir then [92] else [47]) else [])
    end in
  let path := path ++ name in
  match ext with
  | [] => path
  | e :: _ => path ++ (if negb (e =? 46) then [46] else []) ++ ext
  end.

(** The loop of basename: [base] is the suffix it points to. *)
Fixpoint base_loop (fname base : list Z) : list Z :=
  match fname with
  | [] => base
  | c :: fname' =>
      base_loop fname' (if (c =? 92) || (c =? 47) then fname' else base)
  end.

Definition basename (fname : list Z) : outcome (list Z) :=
  match fname with
  | [] => Done fname
  | _ :: _ =>
      c1 ← peek fname 1;
      let fname := if c1 =? 58 then drop 2 fname else fname in
      Done (base_loop fname fname)
  end.

(** A buffer from malloc: the bytes that were never written are [None]. *)
Definition buffer := list (option Z).

(** The string in a buffer, if it is terminated. *)
Fixpoint buf_str (b : buffer) : option (list Z) :=
  match b with
  | [] => None
  | None :: _ => None
  | Some c :: b' => if c =? 0 then Some [] else cons c <$> buf_str b'
  end.

(** strlcpy of [s] into a new buffer of [n + 1] bytes. *)
Definition copy_buf (s : list Z) (n : nat) : buffer :=
  let l := map Some (take n s ++ [0]) in
  l ++ replicate (S n - length l) None.

(** [while (slash > fname && (slash[-1] is a slash)) slash--;] *)
Fixpoint strip_slashes (fname : list Z) (slash : nat) : nat :=
  match slash with
  | O => O
  | S k => match fname !! k with
           | Some c => if (c =? 47) || (c =? 92) then strip_slashes fname k else slash
           | None => slash
           end
  end.

(** dirname, with malloc succeeding. *)
Definition dirname (fname : list Z) : outcome buffer :=
  c1 ← (if negb (hd 0 fname =? 0) then peek fname 1 else Done 0);
  let drv := c1 =? 58 in
  let p := if drv then 2%nat else 0%nat in
  let slash :=
    match max_ptr (last_index 47 (drop p fname)) (last_index 92 (drop p fname)) with
    | Some i => Some (p + i)%nat
    | None => if drv then Some 1%nat else None
    end in
  match slash with
  | None => Done (copy_buf [46] 1)
  | Some slash =>
      let slash := strip_slashes fname slash in
      let at_colon (k : nat) := match fname !! k with Some c => c =? 58 | None => false end in
      let dirlen := (slash + (if (slash =? 0)%nat || at_colon (slash - 1)%nat then 1 else 0))%nat in
      let dirlen := if at_colon slash && (dirlen =? 1)%nat then (dirlen + 2)%nat else dirlen in
      let b := copy_buf fname dirlen in
      Done (if at_colon slash && (dirlen =? 3)%nat then <[2%nat := Some 46]> b else b)
  end.

(** The loop of _is_DOS83: [room] is [e - s] before the next character. *)
Fixpoint dos83_loop (s : list Z) (room : Z) (period_seen : bool) : Z :=
  match s with
  | [] => 1
  | c :: s' =>
      if c =? 46 then
        if period_seen then 0 else dos83_loop s' 3 true
      else if room <? 1 then 0
      else if (97 <=? schar c) && (schar c <=? 122) then 0
      else if existsb (Z.eqb c) [43; 44; 59; 32; 61; 91; 93] then 0
      else dos83_loop s' (room - 1) period_seen
  end.

Definition _is_DOS83 (fname : list Z) : Z :=
  if hd 0 fname =? 46 then
    match fname with
    | [_] => 1
    | [_; c] => if c =? 46 then 1 else 0
    | _ => 0
    end
  else dos83_loop fname 8 false.

Definition msdos_toupper_fname (c : Z) : outcome Z :=
  if (97 <=? c) && (c <=? 122) then toupper c else Done c.

(** Copy characters of the FCB name from [i] on while below [stop] and neither
    the end nor a blank. *)
Fixpoint fcb_copy (buf : list Z) (i stop : nat) (fuel : nat) : list Z * nat :=
  match fuel with
  | O => ([], i)
  | S fuel' =>
      match buf !! i with
      | Some c =>
          if (i <? stop)%nat && negb (c =? 0) && negb (c =? 32) then
            let '(l, j) := fcb_copy buf (S i) stop fuel' in (c :: l, j)
          else ([], i)
      | None => ([], i)
      end
  end.

Fixpoint fcb_blanks (buf : list Z) (i : nat) (fuel : nat) : nat :=
  match fuel with
  | O => i
  | S fuel' =>
      match buf !! i with
      | Some c => if (i <? 8)%nat && negb (c =? 0) && (c =? 32) then fcb_blanks buf (S i) fuel'
                  else i
      | None => i
      end
  end.

(** [while (( *d++ = msdos_toupper_fname( *s++))) if (d - short_fname >= 12) ...] *)
Fixpoint short_copy (s : list Z) (d : nat) : outcome (list Z) :=
  match s with
  | [] => Done []
  | c :: s' =>
      u ← msdos_toupper_fname c;
      if u =? 0 then Done []
      else if (12 <=? S d)%nat then Done [u]
      else l ← short_copy s' (S d); Done (u :: l)
  end.

(** [dos] is what DOS function 71A8h answers: the 13 bytes of the name in FCB
    format, or [None] when it fails or long names are not in use. *)
Definition _lfn_gen_short_fname (dos : list Z -> option (list Z)) (long_fname : list Z)
  : outcome (list Z) :=
  match dos long_fname with
  | Some buf =>
      let '(name, i) := fcb_copy buf 0 8 8 in
      let i := fcb_blanks buf i 8 in
      Done (match buf !! i with
            | Some c => if negb (c =? 32) then name ++ [46] ++ (fcb_copy buf i 11 11).1
                        else name
            | None => name
            end)
  | None => short_copy long_fname 0
  end.

(** * Proofs *)

Lemma last_index_Some c l i :
  last_index c l = Some i -> (l !! i = Some c) /\ (c ∉ drop (S i) l).
Proof.
  revert i. induction l as [|b l IH]; intros i; simpl; [done|].
  destruct (last_index c l) as [k|] eqn:E.
  - intros [= <-]. by apply IH.
  - destruct (Z.eqb_spec b c) as [->|]; [|done]. intros [= <-]. split; [done|].
    rewrite drop_0. clear IH. induction l as [|x l IH]; [apply not_elem_of_nil|]. simpl in E.
    destruct (last_index c l); [done|]. destruct (Z.eqb_spec x c); [done|].
    apply not_elem_of_cons. auto.
Qed.

Lemma last_index_None c l : last_index c l = None -> c ∉ l.
Proof.
  induction l as [|b l IH]; simpl; [intros _; apply not_elem_of_nil|].
  destruct (last_index c l); [done|]. destruct (Z.eqb_spec b c); [done|]. intros _.
  apply not_elem_of_cons. auto.
Qed.

(** No slash of either kind. *)
Definition no_slash (l : list Z) : Prop := (92 ∉ l) /\ (47 ∉ l).

Lemma no_slash_drop k l : no_slash l -> no_slash (drop k l).
Proof.
  intros [H1 H2]. split; intros H; [apply H1|apply H2];
    rewrite <- (take_drop k l); apply elem_of_app; by right.
Qed.

Lemma no_slash_take k l : no_slash l -> no_slash (take k l).
Proof.
  intros [H1 H2]. split; intros H; [apply H1|apply H2];
    rewrite <- (take_drop k l); apply elem_of_app; by left.
Qed.

(** The position of the last slash. *)
Lemma last_slash l :
  match max_ptr (last_index 92 l) (last_index 47 l) with
  | Some i => (l !! i = Some 92 \/ l !! i = Some 47) /\ no_slash (drop (S i) l)
  | None => no_slash l
  end.
Proof.
  destruct (last_index 92 l) as [i|] eqn:Ei, (last_index 47 l) as [j|] eqn:Ej; simpl.
  - apply last_index_Some in Ei as [Hi Ni], Ej as [Hj Nj].
    assert (Hmono : forall c (a b : nat), (a <= b)%nat -> c ∉ drop (S a) l -> c ∉ drop (S b) l).
    { intros c a b Hab Hn Hin. apply Hn.
      replace (S b) with (S a + (b - a))%nat in Hin by lia.
      rewrite <- drop_drop in Hin. rewrite <- (take_drop (b - a) (drop (S a) l)).
      apply elem_of_app. by right. }
    destruct (Nat.ltb_spec j i); (split; [auto|split]); try done;
      (eapply Hmono; [|eassumption]; lia).
  - apply last_index_Some in Ei as [Hi Ni]. apply last_index_None in Ej.
    split; [auto|]. split; [done|]. intros Hin. apply Ej.
    rewrite <- (take_drop (S i) l). apply elem_of_app. by right.
  - apply last_index_Some in Ej as [Hj Nj]. apply last_index_None in Ei.
    split; [auto|]. split; [|done]. intros Hin. apply Ei.
    rewrite <- (take_drop (S j) l). apply elem_of_app. by right.
  - apply last_index_None in Ei, Ej. by split.
Qed.

Lemma last_take l i c : l !! i = Some c -> List.last (take (S i) l) 0 = c.
Proof. intros H. rewrite (take_S_r _ _ _ H). apply List.last_last. Qed.

Lemma take_dots l : take (dots l) l = replicate (dots l) 46.
Proof.
  induction l as [|c l IH]; [done|]. simpl. destruct (Z.eqb_spec c 46) as [->|]; [|done].
  simpl. by rewrite IH.
Qed.

(** Name and extension as fnsplit cuts them out of the part without slashes. *)
Definition split_name (pp : list Z) : list Z * list Z :=
  let n := dots pp in
  let rest := drop n pp in
  match last_index 46 rest with
  | Some i => (take n pp ++ take i rest, drop i rest)
  | None => (take n pp ++ rest, [])
  end.

Lemma split_name_app pp : (split_name pp).1 ++ (split_name pp).2 = pp.
Proof.
  unfold split_name. destruct (last_index 46 _); simpl.
  - by rewrite <- app_assoc, !take_drop.
  - by rewrite app_nil_r, take_drop.
Qed.

Lemma split_name_parts pp :
  no_slash pp ->
  no_slash (split_name pp).1 /\ no_slash (split_name pp).2 /\
  ((split_name pp).2 = [] \/ exists e, (split_name pp).2 = 46 :: e /\ 46 ∉ e).
Proof.
  intros Hn. pose proof (split_name_app pp) as E. split_and!.
  - rewrite <- E in Hn. destruct Hn as [H1 H2]. split; intros H; [apply H1|apply H2];
      apply elem_of_app; by left.
  - rewrite <- E in Hn. destruct Hn as [H1 H2]. split; intros H; [apply H1|apply H2];
      apply elem_of_app; by right.
  - unfold split_name. destruct (last_index 46 _) as [i|] eqn:Ei; [right|by left].
    apply last_index_Some in Ei as [Hi Hn']. simpl.
    exists (drop (S i) (drop (dots pp) pp)). split; [|done]. by apply drop_S.
Qed.

Lemma fnsplit_name_spec flags pp :
  exists flags', fnsplit_name flags pp = (flags', (split_name pp).1, (split_name pp).2).
Proof.
  unfold fnsplit_name, split_name.
  assert (E : exists f', (if (0 <? dots pp)%nat then (flags .| FILENAME, take (dots pp) pp)
    else (flags, [])) = (f', take (dots pp) pp)).
  { destruct (Nat.ltb_spec 0 (dots pp)); [eauto|].
    replace (dots pp) with 0%nat by lia. rewrite take_0. eauto. }
  destruct E as [f' ->]. destruct (last_index 46 _) as [k|]; simpl.
  - destruct (Nat.eqb_spec k 0) as [->|]; simpl; [|eauto]. rewrite app_nil_r. eauto.
  - destruct (Nat.eqb_spec (length (drop (dots pp) pp)) 0) as [E|]; simpl.
    + apply nil_length_inv in E. rewrite E, app_nil_r. eauto.
    + rewrite firstn_all. eauto.
Qed.

(** fnsplit in terms of its parts. *)
Lemma fnsplit_spec path b :
  has_drive path = Done b ->
  let pp := if b : bool then drop 2 path else path in
  let drive := if b then take 2 path else [] in
  let '(dir, rest) :=
    match max_ptr (last_index 92 pp) (last_index 47 pp) with
    | Some i => (take (S i) pp, drop (S i) pp)
    | None => ([], pp)
    end in
  exists flags, fnsplit path = Done (flags, drive, dir, (split_name rest).1, (split_name rest).2).
Proof.
  intros Hd. cbn zeta. unfold fnsplit. rewrite Hd, bind_Done.
  destruct b; (destruct (max_ptr _ _) as [i|]; cbn beta iota;
    match goal with |- context [fnsplit_name ?f ?pp] =>
      destruct (fnsplit_name_spec f pp) as [f' ->] end; eauto).
Qed.

Lemma has_drive_spec path :
  str_ok path -> path <> [] ->
  exists b : bool, has_drive path = Done b /\
    (b = true -> exists d rest, path = d :: 58 :: rest).
Proof.
  intros Hp Hne. destruct path as [|d path]; [done|]. apply str_ok_cons in Hp as [Hd Hp].
  unfold has_drive. cbn [peek lookup]. change (peek (d :: path) 0) with (Done d).
  rewrite bind_Done, isalpha_spec, bind_Done by lia.
  destruct (_ || _); [|by eexists]. destruct path as [|c path].
  - change (peek [d] 1) with (Done 0). by eexists.
  - change (peek (d :: c :: path) 1) with (Done c). rewrite bind_Done. eexists. split; [done|].
    intros ->%Z.eqb_eq. eauto.
Qed.

(** fnmerge adds nothing where the parts come with their separators. *)
Lemma fnmerge_parts drive dir name ext :
  (dir = [] \/ List.last dir 0 = 92 \/ List.last dir 0 = 47) ->
  (ext = [] \/ exists e, ext = 46 :: e /\ 46 ∉ e) ->
  fnmerge drive dir name ext =
  match drive with d :: _ => [d; 58] | [] => [] end ++ dir ++ name ++ ext.
Proof.
  intros Hd He. unfold fnmerge. cbn zeta.
  set (dr := match drive with d :: _ => _ | [] => _ end).
  assert (Edir : match dir with [] => dr | _ :: _ => dr ++ dir ++
      (if negb (List.last dir 0 =? 47) && negb (List.last dir 0 =? 92)
       then (if existsb (Z.eqb 92) dir then [92] else [47]) else []) end = dr ++ dir).
  { destruct Hd as [->|Hd]; [by rewrite app_nil_r|].
    destruct dir as [|x dir]; [simpl in Hd; lia|].
    destruct Hd as [-> | ->]; simpl; by rewrite app_nil_r. }
  rewrite Edir. destruct He as [->|(e & -> & _)]; simpl; by rewrite ?app_nil_r, <- !app_assoc.
Qed.

(** Splitting a file name and merging the parts gives the name back, for every
    non-empty name; the directory part is empty or ends in a slash, name and
    extension have no slash, and the extension is empty or starts with its only
    dot. *)
Theorem fnsplit_roundtrip path :
  str_ok path -> path <> [] ->
  exists flags drive dir name ext,
    fnsplit path = Done (flags, drive, dir, name, ext) /\
    fnmerge drive dir name ext = path /\
    (dir = [] \/ List.last dir 0 = 92 \/ List.last dir 0 = 47) /\
    no_slash name /\ no_slash ext /\ (ext = [] \/ exists e, ext = 46 :: e /\ 46 ∉ e).
Proof.
  intros Hp Hne. destruct (has_drive_spec path Hp Hne) as (b & Hb & Hdrv).
  pose proof (fnsplit_spec path b Hb) as H. cbn zeta in H.
  set (pp := if b then drop 2 path else path) in *.
  set (drive := if b then take 2 path else []) in *.
  assert (Hpath : (match drive with d :: _ => [d; 58] | [] => [] end) ++ pp = path).
  { subst pp drive. destruct b; [|done]. by destruct (Hdrv eq_refl) as (d & rest & ->). }
  pose proof (last_slash pp) as Hs.
  destruct (max_ptr _ _) as [i|]; destruct H as [flags H].
  - destruct Hs as [Hi Hn]. destruct (split_name_parts _ Hn) as (N1 & N2 & N3).
    assert (Hl : List.last (take (S i) pp) 0 = 92 \/ List.last (take (S i) pp) 0 = 47)
      by (destruct Hi as [Hi|Hi]; rewrite (last_take _ _ _ Hi); auto).
    eexists flags, drive, (take (S i) pp), _, _.
    split_and!; [exact H| |by right|done|done|done].
    rewrite fnmerge_parts by (auto || done). by rewrite split_name_app, take_drop.
  - destruct (split_name_parts _ Hs) as (N1 & N2 & N3).
    eexists flags, drive, [], _, _. split_and!; [exact H| |by left|done|done|done].
    rewrite fnmerge_parts by (auto || done). by rewrite split_name_app.
Qed.

(** [c:/d.x/.ab.txt] *)
Lemma fnsplit_roundtrip_witness : exists flags drive dir name ext,
  fnsplit (lit "c:/d.x/.ab.txt") = Done (flags, drive, dir, name, ext) /\
  fnmerge drive dir name ext = lit "c:/d.x/.ab.txt" /\
  (dir = [] \/ List.last dir 0 = 92 \/ List.last dir 0 = 47) /\
  no_slash name /\ no_slash ext /\ (ext = [] \/ exists e, ext = 46 :: e /\ 46 ∉ e).
Proof. apply (fnsplit_roundtrip (lit "c:/d.x/.ab.txt")); [by_eval|discriminate]. Defined.

(** For the empty name fnsplit takes the terminator for one of the characters that
    may name a drive, since strchr finds it, and reads the byte after it. *)
Theorem fnsplit_empty : fnsplit [] = Fail UB.
Proof. reflexivity. Qed.

(** ** basename *)

Lemma base_loop_spec l : forall base,
  exists pre, (base_loop l base = base /\ no_slash l) \/
    (l = pre ++ base_loop l base /\ no_slash (base_loop l base) /\
     (List.last pre 0 = 92 \/ List.last pre 0 = 47)).
Proof.
  induction l as [|c l IH]; intros base; simpl.
  { exists []. left. split; [done|]. split; apply not_elem_of_nil. }
  destruct (IH (if (c =? 92) || (c =? 47) then l else base)) as [pre [[E H]|(E & H & Hl)]].
  - rewrite E. destruct ((c =? 92) || (c =? 47)) eqn:Ec.
    + exists [c]. right. split_and!; [done|done|].
      apply orb_true_iff in Ec as [Ec|Ec]; apply Z.eqb_eq in Ec; auto.
    + exists []. left. split; [done|]. apply orb_false_iff in Ec as [E1 E2].
      apply Z.eqb_neq in E1, E2. destruct H. split; apply not_elem_of_cons; auto.
  - exists (c :: pre). right. split_and!; [simpl; by rewrite <- E|done|].
    destruct pre; [simpl in Hl; lia|exact Hl].
Qed.

(** basename returns the part of the name after the last slash, or after the drive
    where there is no slash: a suffix of the name without a slash, and what is
    before it ends in a slash, or is the drive, or nothing. *)
Theorem basename_correct fname :
  str_ok fname -> fname <> [] ->
  exists pre base, basename fname = Done base /\ fname = pre ++ base /\ no_slash base /\
    (pre = [] \/ (exists d, pre = [d; 58]) \/ List.last pre 0 = 92 \/ List.last pre 0 = 47).
Proof.
  intros Hok Hne. destruct fname as [|d [|c l]]; [done| |].
  - change (basename [d]) with (Done (base_loop [d] [d])).
    destruct (base_loop_spec [d] [d]) as [pre [[E H]|(E & H & Hl)]].
    + exists [], [d]. rewrite E. split_and!; auto.
    + exists pre, (base_loop [d] [d]). split_and!; auto.
  - unfold basename. change (peek (d :: c :: l) 1) with (Done c). rewrite bind_Done.
    destruct (Z.eqb_spec c 58) as [->|Hc]; cbn [drop].
    + destruct (base_loop_spec l l) as [pre [[E H]|(E & H & Hl)]]; rewrite drop_0.
      * exists [d; 58], l. rewrite E. split_and!; [done|done|done|].
        right. left. by exists d.
      * exists (d :: 58 :: pre), (base_loop l l). split_and!; [done|simpl; by rewrite <- E|done|].
        destruct pre; [simpl in Hl; lia|]. by right; right.
    + destruct (base_loop_spec (d :: c :: l) (d :: c :: l)) as [pre [[E H]|(E & H & Hl)]].
      * exists [], (d :: c :: l). rewrite E. split_and!; auto.
      * exists pre, (base_loop (d :: c :: l) (d :: c :: l)). split_and!; auto.
Qed.

Lemma basename_correct_witness : exists pre base,
  basename (lit "c:a/b.c") = Done base /\ lit "c:a/b.c" = pre ++ base /\ no_slash base /\
  (pre = [] \/ (exists d, pre = [d; 58]) \/ List.last pre 0 = 92 \/ List.last pre 0 = 47).
Proof. apply (basename_correct (lit "c:a/b.c")); [by_eval|discriminate]. Defined.

(** dirname of a bare drive [x:] returns a buffer without a terminator: the fourth
    byte of the four it allocates is never written. Behind a drive with a relative
    name the result is the terminated string [x:.]. *)
Theorem dirname_drive d c rest :
  0 < d < 256 -> d <> 47 -> d <> 92 -> d <> 58 -> 0 < c < 256 -> no_slash (c :: rest) ->
  (exists b, dirname [d; 58] = Done b /\ buf_str b = None) /\
  (exists b, dirname (d :: 58 :: c :: rest) = Done b /\ buf_str b = Some [d; 58; 46]).
Proof.
  intros Hd H47 H92 H58 Hc Hn.
  assert (E0 : (d =? 0) = false) by (apply Z.eqb_neq; lia).
  assert (E1 : (d =? 47) = false) by (by apply Z.eqb_neq).
  assert (E2 : (d =? 92) = false) by (by apply Z.eqb_neq).
  assert (E3 : (d =? 58) = false) by (by apply Z.eqb_neq).
  assert (Hnone : forall x, x ∉ c :: rest -> last_index x (c :: rest) = None).
  { intros x Hx. destruct (last_index x (c :: rest)) eqn:E; [|done].
    apply last_index_Some in E as [E _]. by apply list_elem_of_lookup_2 in E. }
  split; unfold dirname; cbn [hd]; rewrite E0; cbn [negb].
  - change (peek [d; 58] 1) with (Done 58). rewrite bind_Done. simpl.
    rewrite E1, E2. simpl. rewrite E3. simpl. eexists. split; [done|]. simpl. by rewrite E0.
  - change (peek (d :: 58 :: c :: rest) 1) with (Done 58). rewrite bind_Done.
    change (58 =? 58) with true. cbn iota. cbn [drop].
    destruct Hn as [N92 N47]. rewrite (Hnone 47), (Hnone 92) by done. cbn [max_ptr]. simpl.
    rewrite E1, E2. simpl. rewrite E3. simpl. eexists. split; [done|]. simpl. by rewrite E0.
Qed.

Lemma dirname_drive_witness :
  (exists b, dirname (lit "x:") = Done b /\ buf_str b = None) /\
  (exists b, dirname (lit "x:f") = Done b /\ buf_str b = Some (lit "x:.")).
Proof.
  apply (dirname_drive 120 102 []); [lia|lia|lia|lia|lia|].
  split; apply not_elem_of_cons; (split; [lia|apply not_elem_of_nil]).
Defined.

(** ** _is_DOS83 *)

(** A character of an 8.3 name. *)
Definition dos83_char (c : Z) : bool :=
  negb (c =? 46) && negb ((97 <=? c) && (c <=? 122)) &&
  negb (existsb (Z.eqb c) [43; 44; 59; 32; 61; 91; 93]).

(** A name part of at most [n] such characters. *)
Definition dos83_part (n : nat) (l : list Z) : Prop :=
  (length l <= n)%nat /\ forallb dos83_char l = true.

(** A name that DOS takes as it is: [.], [..], or a base of up to eight characters
    and an extension of up to three, the dot only between them. *)
Definition dos83_name (f : list Z) : Prop :=
  f = [46] \/ f = [46; 46] \/
  (hd 0 f <> 46 /\
   (dos83_part 8 f \/ exists b e, f = b ++ 46 :: e /\ dos83_part 8 b /\ dos83_part 3 e)).

Lemma schar_lower c : 0 < c < 256 ->
  ((97 <=? schar c) && (schar c <=? 122)) = ((97 <=? c) && (c <=? 122)).
Proof.
  intros Hc. unfold schar, wrap_s. change (2 ^ (8 - 1)) with 128. change (2 ^ 8) with 256.
  destruct (Z.lt_ge_cases c 128).
  - rewrite Z.mod_small by lia. by replace (c + 128 - 128) with c by lia.
  - replace ((c + 128) mod 256) with (c - 128).
    + rewrite (proj2 (Z.leb_gt 97 (c - 128 - 128))) by lia.
      rewrite (proj2 (Z.leb_gt c 122)) by lia. by rewrite andb_false_r.
    + apply (Z.mod_unique _ _ 1); lia.
Qed.

(** One more character in a part. *)
Lemma dos83_part_cons n c l :
  dos83_part (S n) (c :: l) <-> dos83_char c = true /\ dos83_part n l.
Proof.
  unfold dos83_part. simpl. rewrite andb_true_iff. split; intros; destruct_and?; split_and!;
    (done || lia).
Qed.

Lemma dos83_step c l room seen :
  0 < c < 256 -> c <> 46 -> 
  dos83_loop (c :: l) (Z.of_nat room) seen =
  match room with
  | O => 0
  | S n => if dos83_char c then dos83_loop l (Z.of_nat n) seen else 0
  end.
Proof.
  intros Hc Hne. cbn [dos83_loop]. unfold dos83_char. rewrite schar_lower by done.
  rewrite (proj2 (Z.eqb_neq c 46)) by done. destruct room as [|n]; [done|].
  rewrite (proj2 (Z.ltb_ge (Z.of_nat (S n)) 1)) by lia. cbn [negb andb].
  destruct ((97 <=? c) && (c <=? 122)); [done|]. destruct (existsb _ _); [done|]. simpl.
  f_equal. lia.
Qed.

Lemma dos83_loop_range l : forall room seen, dos83_loop l room seen = 1 \/ dos83_loop l room seen = 0.
Proof.
  induction l as [|c l IH]; intros room seen; simpl; [by left|].
  repeat (case_match; try (by right)); apply IH.
Qed.

Lemma dos83_ext l : forall n,
  str_ok l -> dos83_loop l (Z.of_nat n) true = 1 <-> dos83_part n l.
Proof.
  induction l as [|c l IH]; intros n Hok.
  { split; [|done]. intros _. split; [simpl; lia|done]. }
  apply str_ok_cons in Hok as [Hc Hok]. destruct (decide (c = 46)) as [->|Hne].
  { split; [done|]. by intros [_ H]. }
  rewrite dos83_step by done. destruct n as [|n].
  - split; [done|]. intros [H _]. simpl in H. lia.
  - rewrite dos83_part_cons. destruct (dos83_char c).
    + rewrite IH by done. naive_solver.
    + naive_solver.
Qed.

Lemma dos83_base l : forall n,
  str_ok l ->
  dos83_loop l (Z.of_nat n) false = 1 <->
  dos83_part n l \/ exists b e, l = b ++ 46 :: e /\ dos83_part n b /\ dos83_part 3 e.
Proof.
  induction l as [|c l IH]; intros n Hok.
  { split; [|done]. intros _. left. split; [simpl; lia|done]. }
  apply str_ok_cons in Hok as [Hc Hok]. destruct (decide (c = 46)) as [->|Hne].
  { change (dos83_loop (46 :: l) (Z.of_nat n) false) with (dos83_loop l (Z.of_nat 3) true).
    rewrite dos83_ext by done. split.
    - intros H. right. exists [], l. split_and!; [done|split; simpl; (done || lia)|done].
    - intros [[_ H]|(b & e & E & [_ Hb] & He)]; [done|].
      destruct b as [|x b]; simpl in *; by simplify_eq. }
  rewrite dos83_step by done. destruct n as [|n].
  - split; [done|]. intros [[H _]|(b & e & E & [H _] & _)]; [simpl in H; lia|].
    destruct b; simpl in *; [by simplify_eq|lia].
  - rewrite dos83_part_cons. destruct (dos83_char c) eqn:Ec; [rewrite IH by done|]; split.
    + intros [H|(b & e & -> & Hb & He)]; [by left|]. right. exists (c :: b), e.
      split_and!; [done|by apply dos83_part_cons|done].
    + intros [[_ H]|(b & e & E & Hb & He)]; [by left|]. right.
      destruct b as [|x b]; simpl in E; simplify_eq.
      apply dos83_part_cons in Hb as [_ Hb]. eauto.
    + done.
    + intros [[? _]|(b & e & E & Hb & He)]; [done|].
      destruct b as [|x b]; simpl in E; simplify_eq.
      apply dos83_part_cons in Hb as [Hx _]. congruence.
Qed.

(** _is_DOS83 recognises the names that fit DOS's 8.3 format: it returns 1 for
    exactly these, 0 for all others. *)
Theorem is_DOS83_correct f :
  str_ok f -> (_is_DOS83 f = 1 <-> dos83_name f) /\ (_is_DOS83 f = 1 \/ _is_DOS83 f = 0).
Proof.
  intros Hok. unfold _is_DOS83, dos83_name. destruct (Z.eqb_spec (hd 0 f) 46) as [E|E].
  - destruct f as [|c [|c' [|c'' f]]]; simpl in E; [done|subst c..].
    + split; [|by left]. split; [by left|done].
    + destruct (Z.eqb_spec c' 46) as [->|Hne]; (split; [|auto]).
      * split; [by right; left|done].
      * split; [done|]. intros [?|[?|[? _]]]; [done|congruence|done].
    + split; [|by right]. split; [done|]. intros [?|[?|[? _]]]; done.
  - split; [|apply dos83_loop_range]. change 8 with (Z.of_nat 8). rewrite dos83_base by done.
    split; [by auto|]. intros [->|[->|[_ ?]]]; done.
Qed.

Lemma is_DOS83_correct_witness :
  (_is_DOS83 (lit "README.TXT") = 1 <-> dos83_name (lit "README.TXT")) /\
  (_is_DOS83 (lit "README.TXT") = 1 \/ _is_DOS83 (lit "README.TXT") = 0).
Proof. apply (is_DOS83_correct (lit "README.TXT")). by_eval. Defined.
