(* ===== verification/FsExt.v ===== *)
(** * File system extensions (src/src/libc/fsext/fsext.c)

    The table that gives a file descriptor the function and the data of the
    extension that serves it. A function pointer is its address, 0 for none. *)

From stdpp Require Import base list numbers.
From Stdlib Require Import ZArith Lia.
From S2P Require Import Prelude.

Open Scope Z_scope.
Open Scope c_scope.

(** struct __FSEXT_entry *)
Record fsext_entry := mk_entry { fe_function : Z; fe_data : Z }.

(** struct fsext_state, the static variables of [init] and [__FSEXT_alloc_fd], and
    the hook that exit calls. [fsext_list] is [None] where it is NULL. *)
Record fsext_state := mk_fsext {
  num_fds : Z;
  fsext_list : option (list fsext_entry);
  init_count : Z;
  null_dev_fd : Z;
  exit_hook : bool }.

Definition no_entry : fsext_entry := mk_entry 0 0.

(** [init], with [bss] the value of [__bss_count]; whether it did anything. *)
Definition init (bss : Z) (st : fsext_state) : fsext_state * bool :=
  if init_count st =? bss then (st, false)
  else (mk_fsext 0 None bss (null_dev_fd st) true, true).

Definition chunk_sz : Z := 256.

(** [grow_table]; [ok] tells whether realloc succeeds. The result is 1 for
    failure. *)
Definition grow_table (bss : Z) (ok : bool) (st : fsext_state) (fd : Z)
  : outcome (fsext_state * Z) :=
  let '(st, _) := init bss st in
  if fd <? 0 then Done (st, 1)
  else if num_fds st <=? fd then
    if 2 ^ 31 <=? fd + chunk_sz then Fail UB
    else
      let n := (fd + chunk_sz) .& Z.lnot (chunk_sz - 1) in
      if ok then
        let old := match fsext_list st with Some l => l | None => [] end in
        let old_fds := num_fds st in
        let l := take (Z.to_nat old_fds) old ++ replicate (Z.to_nat (n - old_fds)) no_entry in
        Done (mk_fsext n (Some l) (init_count st) (null_dev_fd st) (exit_hook st), 0)
      else Done (st, 1)
  else Done (st, 0).

(** [fsext_list[fd]] *)
Definition entry_get (st : fsext_state) (fd : Z) : outcome fsext_entry :=
  match fsext_list st with
  | None => Fail UB
  | Some l => match l !! Z.to_nat fd with Some e => Done e | None => Fail UB end
  end.

Definition entry_set (st : fsext_state) (fd : Z) (e : fsext_entry) : outcome fsext_state :=
  match fsext_list st with
  | None => Fail UB
  | Some l =>
      match l !! Z.to_nat fd with
      | Some _ => Done (mk_fsext (num_fds st) (Some (<[Z.to_nat fd := e]> l)) (init_count st)
                          (null_dev_fd st) (exit_hook st))
      | None => Fail UB
      end
  end.

Definition __FSEXT_set_function (bss : Z) (ok : bool) (st : fsext_state) (fd f : Z)
  : outcome (fsext_state * Z) :=
  '(st, r) ← grow_table bss ok st fd;
  if negb (r =? 0) then Done (st, 1)
  else
    e ← entry_get st fd;
    st ← entry_set st fd (mk_entry f (fe_data e));
    Done (st, 0).

Definition __FSEXT_get_function (bss : Z) (st : fsext_state) (fd : Z)
  : outcome (fsext_state * Z) :=
  let '(st, _) := init bss st in
  if (fd <? 0) || (num_fds st <=? fd) then Done (st, 0)
  else e ← entry_get st fd; Done (st, fe_function e).

Definition __FSEXT_set_data (bss : Z) (ok : bool) (st : fsext_state) (fd d : Z)
  : outcome (fsext_state * Z) :=
  '(st, r) ← grow_table bss ok st fd;
  if negb (r =? 0) then Done (st, 0)
  else
    e ← entry_get st fd;
    st ← entry_set st fd (mk_entry (fe_function e) d);
    Done (st, d).

Definition __FSEXT_get_data (bss : Z) (st : fsext_state) (fd : Z)
  : outcome (fsext_state * Z) :=
  let '(st, _) := init bss st in
  if (fd <? 0) || (num_fds st <=? fd) then Done (st, 0)
  else e ← entry_get st fd; Done (st, fe_data e).

(** [__FSEXT_alloc_fd]; [nul] is the handle of the NUL device or nothing, [dup] is
    the duplicate of a handle, or the DOS error, that DOS gives. The result is the
    descriptor or -1. The mode of the handle ([__file_handle_set]) is not part of
    this state. *)
Definition __FSEXT_alloc_fd (bss : Z) (ok : bool) (nul : option Z) (dup : Z -> Z + Z)
    (st : fsext_state) (f : Z) : outcome (fsext_state * Z) :=
  let '(st, first) := init bss st in
  let st :=
    if first || (null_dev_fd st =? -1) then
      mk_fsext (num_fds st) (fsext_list st) (init_count st)
        (match nul with Some h => h | None => -1 end) (exit_hook st)
    else st in
  if negb (null_dev_fd st =? -1) then
    match dup (null_dev_fd st) with
    | inr _ => Done (st, -1)
    | inl fd => '(st, _) ← __FSEXT_set_function bss ok st fd f; Done (st, fd)
    end
  else Done (st, -1).

(** ** The table as a map *)

(** The invariant: the table has [num_fds] entries, in whole chunks. *)
Record fsext_ok (st : fsext_state) : Prop := {
  fo_len : match fsext_list st with Some l => Z.of_nat (length l) | None => 0 end = num_fds st;
  fo_chunk : num_fds st mod chunk_sz = 0 }.

(** The entry of a descriptor; none is all zeros. *)
Definition entry_of (st : fsext_state) (fd : Z) : fsext_entry :=
  if fd <? 0 then no_entry
  else default no_entry (fsext_list st ≫= fun l => l !! Z.to_nat fd).

Lemma land_chunk fd : (fd + chunk_sz) .& Z.lnot (chunk_sz - 1) = (fd / 256 + 1) * 256.
Proof.
  change (chunk_sz - 1) with (Z.ones 8). rewrite <- Z.ldiff_land, Z.ldiff_ones_r by lia.
  rewrite Z.shiftl_mul_pow2, Z.shiftr_div_pow2 by lia. change (2 ^ 8) with 256.
  unfold chunk_sz. f_equal. replace (fd + 256) with (fd + 1 * 256) by lia.
  by rewrite Z.div_add by lia.
Qed.

(** What every access to an initialised table may assume of [grow_table]. *)
Lemma grow_table_spec bss st fd :
  init_count st = bss -> fsext_ok st -> 0 <= fd -> fd + chunk_sz < 2 ^ 31 ->
  exists st', grow_table bss true st fd = Done (st', 0) /\ fsext_ok st' /\
    init_count st' = bss /\ fd < num_fds st' /\ (forall d, entry_of st' d = entry_of st d).
Proof.
  intros Hi Hok Hfd Hmax. unfold grow_table, init. rewrite Hi, Z.eqb_refl.
  rewrite (proj2 (Z.ltb_ge fd 0)) by lia. destruct (Z.leb_spec (num_fds st) fd) as [Hle|Hlt].
  2: { exists st. by split_and!. }
  rewrite (proj2 (Z.leb_gt _ _)) by lia. rewrite land_chunk.
  destruct Hok as [Hlen Hchunk]. set (n := (fd / 256 + 1) * 256).
  set (old := match fsext_list st with Some l => l | None => [] end).
  assert (Hold : Z.of_nat (length old) = num_fds st) by (subst old; by destruct (fsext_list st)).
  assert (Hn : fd < n) by (pose proof (Z.div_mod fd 256 ltac:(lia));
    pose proof (Z.mod_pos_bound fd 256 ltac:(lia)); lia).
  rewrite take_ge by lia. eexists. split; [reflexivity|]. split_and!; simpl; [|done|done|].
  - constructor; simpl.
    + rewrite length_app, length_replicate. lia.
    + unfold n, chunk_sz. by rewrite Z.mod_mul by lia.
  - intros d. unfold entry_of. simpl. destruct (Z.ltb_spec d 0); [done|].
    assert (Eold : default no_entry (fsext_list st ≫= (λ l, l !! Z.to_nat d)) =
      default no_entry (old !! Z.to_nat d)) by (subst old; by destruct (fsext_list st)).
    rewrite Eold. destruct (decide (Z.to_nat d < length old)%nat) as [Hd|Hd].
    + by rewrite lookup_app_l.
    + rewrite lookup_app_r by lia. rewrite (lookup_ge_None_2 old) by lia.
      destruct (replicate _ _ !! _) as [e|] eqn:E; [|done].
      by apply lookup_replicate in E as [-> _].
Qed.

Lemma entry_in st fd :
  fsext_ok st -> 0 <= fd < num_fds st ->
  entry_get st fd = Done (entry_of st fd) /\
  forall e, exists st', entry_set st fd e = Done st' /\ fsext_ok st' /\
    init_count st' = init_count st /\ num_fds st' = num_fds st /\
    forall d, entry_of st' d = if decide (d = fd) then e else entry_of st d.
Proof.
  intros [Hlen Hchunk] Hfd. unfold entry_get, entry_set, entry_of.
  destruct (fsext_list st) as [l|] eqn:El; [|lia].
  destruct (lookup_lt_is_Some_2 l (Z.to_nat fd)) as [x Hx]; [lia|]. simpl. rewrite Hx.
  rewrite (proj2 (Z.ltb_ge fd 0)) by lia. split; [done|]. intros e. eexists.
  split; [reflexivity|]. split_and!; simpl; [|done|done|].
  - constructor; simpl; [by rewrite length_insert|done].
  - intros d. case_decide as Hd.
    + subst d. rewrite (proj2 (Z.ltb_ge fd 0)) by lia.
      by rewrite list_lookup_insert_eq by (by eapply lookup_lt_Some).
    + destruct (Z.ltb_spec d 0); [done|]. by rewrite list_lookup_insert_ne by lia.
Qed.

(** The table of extensions behaves as a map from descriptors: setting the function
    or the data of a descriptor succeeds (where memory can be had), changes that
    entry alone, whatever the growth of the table, keeps the invariant, and is what
    the next lookup of the descriptor returns. *)
Theorem fsext_map bss st fd v :
  init_count st = bss -> fsext_ok st -> 0 <= fd -> fd + chunk_sz < 2 ^ 31 ->
  (exists st', __FSEXT_set_function bss true st fd v = Done (st', 0) /\ fsext_ok st' /\
     (forall d, entry_of st' d =
        if decide (d = fd) then mk_entry v (fe_data (entry_of st fd)) else entry_of st d) /\
     __FSEXT_get_function bss st' fd = Done (st', v)) /\
  (exists st', __FSEXT_set_data bss true st fd v = Done (st', v) /\ fsext_ok st' /\
     (forall d, entry_of st' d =
        if decide (d = fd) then mk_entry (fe_function (entry_of st fd)) v else entry_of st d) /\
     __FSEXT_get_data bss st' fd = Done (st', v)).
Proof.
  intros Hi Hok Hfd Hmax.
  destruct (grow_table_spec bss st fd Hi Hok Hfd Hmax) as (st1 & Hg & Hok1 & Hi1 & Hn & He).
  destruct (entry_in st1 fd Hok1 ltac:(lia)) as [Hget Hset].
  split.
  - destruct (Hset (mk_entry v (fe_data (entry_of st1 fd)))) as (st2 & Hs & Hok2 & Hi2 & Hn2 & He2).
    exists st2. split_and!; [|done| |].
    + unfold __FSEXT_set_function. by rewrite Hg, bind_Done, Hget, bind_Done, Hs.
    + intros d. rewrite He2. case_decide; [by rewrite He|apply He].
    + unfold __FSEXT_get_function, init. rewrite Hi2, Hi1, Z.eqb_refl.
      rewrite (proj2 (Z.ltb_ge fd 0)), (proj2 (Z.leb_gt (num_fds st2) fd)) by lia.
      destruct (entry_in st2 fd Hok2 ltac:(lia)) as [-> _]. rewrite bind_Done, He2.
      by rewrite decide_True by done.
  - destruct (Hset (mk_entry (fe_function (entry_of st1 fd)) v)) as (st2 & Hs & Hok2 & Hi2 & Hn2 & He2).
    exists st2. split_and!; [|done| |].
    + unfold __FSEXT_set_data. by rewrite Hg, bind_Done, Hget, bind_Done, Hs.
    + intros d. rewrite He2. case_decide; [by rewrite He|apply He].
    + unfold __FSEXT_get_data, init. rewrite Hi2, Hi1, Z.eqb_refl.
      rewrite (proj2 (Z.ltb_ge fd 0)), (proj2 (Z.leb_gt (num_fds st2) fd)) by lia.
      destruct (entry_in st2 fd Hok2 ltac:(lia)) as [-> _]. rewrite bind_Done, He2.
      by rewrite decide_True by done.
Qed.

Lemma fsext_map_witness :
  exists st', __FSEXT_set_function 0 true (mk_fsext 0 None 0 (-1) true) 300 77 = Done (st', 0) /\
    __FSEXT_get_function 0 st' 300 = Done (st', 77).
Proof.
  destruct (fsext_map 0 (mk_fsext 0 None 0 (-1) true) 300 77) as [(st' & H1 & _ & _ & H2) _];
    [done|done|lia|vm_compute; done|]. by exists st'.
Defined.
