(* ===== verification/FdProps.v ===== *)
(** * File descriptor properties (src/src/libc/dos/io/fd_props.c)

    The objects that remember a descriptor's file name and flags, shared by
    duplicated descriptors, kept in two linked lists: those in use and those to be
    used again. Objects are cells of a store; a pointer is an address, [None] is
    NULL. *)

From stdpp Require Import base gmap list numbers.
From Stdlib Require Import ZArith Lia.
From S2P Require Import Prelude Ctype StringProps.

Open Scope Z_scope.
Open Scope c_scope.

Definition FILE_DESC_TEMPORARY : Z := 0x01.
Definition FILE_DESC_APPEND : Z := 0x10.
Definition O_TEMPORARY : Z := 0x10000.
Definition O_APPEND : Z := 0x1000.

(** struct fd_properties; [ref_count] is an [unsigned char]. *)
Record fd_properties := mk_props {
  ref_count : Z;
  filename : option (list Z);
  pflags : Z;
  prev : option Z;
  next : option Z }.

(** The static variables, the store of objects, and the files that were removed
    with [remove]. *)
Record fds := mk_fds {
  fd_tab : option (list (option Z));
  active_fds : option Z;
  cached_fds : option Z;
  old_bss_count : Z;
  objs : gmap Z fd_properties;
  removed : list (list Z) }.

Definition set_tab (s : fds) t :=
  mk_fds t (active_fds s) (cached_fds s) (old_bss_count s) (objs s) (removed s).
Definition set_obj (s : fds) (a : Z) (o : fd_properties) :=
  mk_fds (fd_tab s) (active_fds s) (cached_fds s) (old_bss_count s) (<[a := o]> (objs s))
    (removed s).
Definition set_removed (s : fds) r :=
  mk_fds (fd_tab s) (active_fds s) (cached_fds s) (old_bss_count s) (objs s) r.

Definition set_next (o : fd_properties) n :=
  mk_props (ref_count o) (filename o) (pflags o) (prev o) n.
Definition set_prev (o : fd_properties) p :=
  mk_props (ref_count o) (filename o) (pflags o) p (next o).
Definition set_flags (o : fd_properties) f :=
  mk_props (ref_count o) (filename o) f (prev o) (next o).
Definition set_count (o : fd_properties) c :=
  mk_props c (filename o) (pflags o) (prev o) (next o).
Definition set_name (o : fd_properties) n :=
  mk_props (ref_count o) n (pflags o) (prev o) (next o).

(** [*p] *)
Definition obj (s : fds) (p : Z) : outcome fd_properties :=
  match objs s !! p with Some o => Done o | None => Fail UB end.

(** Which of the two list heads a function is given. *)
Inductive head := Active | Cached.

Definition get_head (s : fds) (h : head) : option Z :=
  match h with Active => active_fds s | Cached => cached_fds s end.

Definition put_head (s : fds) (h : head) (p : option Z) : fds :=
  match h with
  | Active => mk_fds (fd_tab s) p (cached_fds s) (old_bss_count s) (objs s) (removed s)
  | Cached => mk_fds (fd_tab s) (active_fds s) p (old_bss_count s) (objs s) (removed s)
  end.

Definition insert_list (s : fds) (h : head) (item : Z) : outcome fds :=
  let hd := get_head s h in
  o ← obj s item;
  let s := set_obj s item (set_prev (set_next o hd) None) in
  s ← (match hd with
       | Some p => o ← obj s p; Done (set_obj s p (set_prev o (Some item)))
       | None => Done s
       end);
  Done (put_head s h (Some item)).

(** The three parts of [remove_list]: the two neighbours, then the head. *)
Definition unlink_prev (s : fds) (item : Z) : outcome fds :=
  o ← obj s item;
  match prev o with
  | Some p =>
      op ← obj s p;
      let s := set_obj s p (set_next op (next o)) in
      o ← obj s item;
      Done (set_obj s item (set_prev o None))
  | None => Done s
  end.

Definition unlink_next (s : fds) (item : Z) : outcome fds :=
  o ← obj s item;
  match next o with
  | Some n =>
      on ← obj s n;
      let s := set_obj s n (set_prev on (prev o)) in
      o ← obj s item;
      Done (set_obj s item (set_next o None))
  | None => Done s
  end.

Definition head_without (s : fds) (hd : option Z) (item : Z) : outcome (option Z) :=
  match hd with
  | Some p => if p =? item then o ← obj s p; Done (next o) else Done (Some p)
  | None => Done None
  end.

Definition remove_list (s : fds) (h : head) (item : Z) : outcome fds :=
  let hd := get_head s h in
  s ← unlink_prev s item;
  s ← unlink_next s item;
  hd ← head_without s hd item;
  Done (put_head s h hd).

(** [stricmp(a, b) == 0]; a NULL name is undefined. *)
Definition same_name (a b : option (list Z)) : outcome bool :=
  match a, b with
  | Some a, Some b => Done (bool_decide (map lc a = map lc b))
  | _, _ => Fail UB
  end.

Definition find_eq_filename (s : fds) (fd : Z) : outcome (option Z) :=
  loop (S (size (objs s))) (fun ptr =>
    match ptr with
    | None => Done (inr None)
    | Some p =>
        o ← obj s p;
        same ← (if negb (p =? fd) then ofd ← obj s fd; same_name (filename ofd) (filename o)
                else Done false);
        if same : bool then Done (inr (Some p)) else Done (inl (next o))
    end) (active_fds s).

(** [new] is the address that malloc gives, if it gives one. *)
Definition alloc_fd_properties (new : option Z) (s : fds) : outcome (fds * option Z) :=
  match cached_fds s with
  | None =>
      match new with
      | None => Done (s, None)
      | Some p => Done (set_obj s p (mk_props 1 None 0 None None), Some p)
      end
  | Some p =>
      s ← remove_list s Cached p;
      o ← obj s p;
      Done (set_obj s p (set_count (set_next (set_prev o None) None) 1), Some p)
  end.

Definition free_fd_properties (s : fds) (fd : Z) : outcome fds :=
  s ← remove_list s Active fd;
  insert_list s Cached fd.

Definition open_fd (s : fds) (p open_flags : Z) : outcome fds :=
  o ← obj s p;
  let f := 0 in
  let f := if bool_decide (is_Some (filename o)) && negb (open_flags .& O_TEMPORARY =? 0)
           then f .| FILE_DESC_TEMPORARY else f in
  let f := if negb (open_flags .& O_APPEND =? 0) then f .| FILE_DESC_APPEND else f in
  Done (set_obj s p (set_flags o f)).

Definition close_fd (s : fds) (p : Z) : outcome fds :=
  o ← obj s p;
  if negb (pflags o .& FILE_DESC_TEMPORARY =? 0) then
    q ← find_eq_filename s p;
    match q with
    | Some q => oq ← obj s q; Done (set_obj s q (set_flags oq (pflags oq .| FILE_DESC_TEMPORARY)))
    | None => match filename o with
              | Some f => Done (set_removed s (removed s ++ [f]))
              | None => Fail UB
              end
    end
  else Done s.

(** [__fd_properties[fd]] *)
Definition tab_at (s : fds) (fd : Z) : outcome (option Z) :=
  match fd_tab s with
  | None => Fail UB
  | Some t => if fd <? 0 then Fail UB
              else match t !! Z.to_nat fd with Some p => Done p | None => Fail UB end
  end.

Definition put_at_tab (s : fds) (fd : Z) (p : option Z) : fds :=
  set_tab s (fmap (fun t => <[Z.to_nat fd := p]> t) (fd_tab s)).

(** The table after [memset]. *)
Definition empty_tab : list (option Z) := replicate 255 None.

(** [bss] is [__bss_count], [tab_ok] and [new] what the two mallocs give, [truename]
    what DOS's name resolution gives. *)
Definition __set_fd_properties (truename : list Z -> option (list Z)) (bss : Z)
    (tab_ok : bool) (new : option Z) (s : fds) (fd : Z) (file : list Z) (open_flags : Z)
  : outcome (fds * Z) :=
  let '(s, ok) :=
    if negb (old_bss_count s =? bss) then
      (mk_fds (if tab_ok then Some empty_tab else None) None None bss (objs s)
         (removed s), tab_ok)
    else (s, true) in
  if negb ok then Done (s, -1)
  else
    p ← tab_at s fd;
    match p with
    | Some p => s ← open_fd s p open_flags; Done (s, 0)
    | None =>
        '(s, p) ← alloc_fd_properties new s;
        let s := put_at_tab s fd p in
        match p with
        | None => Done (s, -1)
        | Some p =>
            o ← obj s p;
            let s := set_obj s p (set_name (set_count o 1) (truename file)) in
            s ← insert_list s Active p;
            s ← open_fd s p open_flags;
            Done (s, 0)
        end
    end.

Definition __dup_fd_properties (s : fds) (from to : Z) : outcome fds :=
  p ← tab_at s from;
  match p with
  | None => Done s
  | Some p =>
      _ ← tab_at s to;
      let s := put_at_tab s to (Some p) in
      o ← obj s p;
      Done (set_obj s p (set_count o (wrap_u 8 (ref_count o + 1))))
  end.

Definition __clear_fd_properties (s : fds) (fd : Z) : outcome (fds * Z) :=
  p ← tab_at s fd;
  match p with
  | None => Done (s, -1)
  | Some p =>
      o ← obj s p;
      let c := wrap_u 8 (ref_count o - 1) in
      let s := set_obj s p (set_count o c) in
      s ← (if c =? 0 then
             s ← close_fd s p;
             o ← obj s p;
             let s := set_obj s p (set_name o None) in
             free_fd_properties s p
           else Done s);
      Done (put_at_tab s fd None, 0)
  end.

(** [__has_fd_properties(fd)] of libc/fd_props.h *)
Definition __has_fd_properties (s : fds) (fd : Z) : outcome bool :=
  if (fd <? 0) || negb (bool_decide (is_Some (fd_tab s))) then Done false
  else p ← tab_at s fd; Done (bool_decide (is_Some p)).

(** ** What the operations on the lists leave alone *)

(** The reference count of the object at [p]. *)
Definition count_of (s : fds) (p : Z) : option Z := ref_count <$> objs s !! p.

(** Same table, same objects, same reference counts. *)
Record same_refs (s s' : fds) : Prop := {
  sr_tab : fd_tab s' = fd_tab s;
  sr_bss : old_bss_count s' = old_bss_count s;
  sr_counts : forall p, count_of s' p = count_of s p }.

#[export] Instance same_refs_po : PreOrder same_refs.
Proof.
  split.
  - intros s. by constructor.
  - intros s1 s2 s3 [H1 H2 H3] [H4 H5 H6]. constructor; [congruence|congruence|].
    intros p. by rewrite H6.
Qed.

Create HintDb refs.

Lemma obj_Done s p o : obj s p = Done o -> objs s !! p = Some o.
Proof. unfold obj. destruct (objs s !! p); [by intros [= ->]|done]. Qed.

Lemma set_obj_refs s p o o' :
  obj s p = Done o -> ref_count o' = ref_count o -> same_refs s (set_obj s p o').
Proof.
  intros H%obj_Done Hc. constructor; [done|done|]. intros q. unfold count_of. simpl.
  destruct (decide (q = p)) as [->|]; [|by rewrite lookup_insert_ne].
  rewrite lookup_insert_eq, H. simpl. by rewrite Hc.
Qed.

Lemma put_head_refs s h p : same_refs s (put_head s h p).
Proof. by destruct h; constructor. Qed.

Lemma insert_list_refs s h p s' :
  insert_list s h p = Done s' ->
  same_refs s s' /\ get_head s' h = Some p /\
  (forall h', h' <> h -> get_head s' h' = get_head s h').
Proof.
  unfold insert_list. intros H. inv_done H. inv_done H. injection H as <-. split; [|split].
  - etrans; [|apply put_head_refs]. etrans; [exact (set_obj_refs s p r (set_prev (set_next r (get_head s h)) None) E eq_refl)|].
    destruct (get_head s h); [|injection E0 as <-; reflexivity].
    inv_done E0. injection E0 as <-. by eapply set_obj_refs.
  - by destruct h.
  - intros h' Hh. destruct (get_head s h) as [q|].
    + inv_done E0. injection E0 as <-. by destruct h, h'.
    + injection E0 as <-. by destruct h, h'.
Qed.

Lemma unlink_prev_refs s p s' :
  unlink_prev s p = Done s' -> same_refs s s' /\ forall h, get_head s' h = get_head s h.
Proof.
  unfold unlink_prev. intros H. inv_done H. destruct (prev r) as [q|].
  - inv_done H. inv_done H. injection H as <-. split; [|by intros []].
    transitivity (set_obj s q (set_next r0 (next r))); by eapply set_obj_refs.
  - injection H as <-. split; [reflexivity|done].
Qed.

Lemma unlink_next_refs s p s' :
  unlink_next s p = Done s' ->
  same_refs s s' /\ (forall h, get_head s' h = get_head s h) /\
  forall o, obj s' p = Done o -> next o = None.
Proof.
  unfold unlink_next. intros H. inv_done H. destruct (next r) as [q|] eqn:En.
  - inv_done H. inv_done H. injection H as <-. split; [|split; [by intros []|]].
    + transitivity (set_obj s q (set_prev r0 (prev r))); by eapply set_obj_refs.
    + intros o Ho%obj_Done. simpl in Ho. rewrite lookup_insert_eq in Ho. by injection Ho as <-.
  - injection H as <-. split; [reflexivity|]. split; [done|]. intros o Ho. congruence.
Qed.

Lemma remove_list_refs s h p s' :
  remove_list s h p = Done s' ->
  same_refs s s' /\
  (forall h', h' <> h -> get_head s' h' = get_head s h') /\
  (get_head s h = Some p -> get_head s' h = None).
Proof.
  unfold remove_list. intros H. inv_done H. apply unlink_prev_refs in E as [H1 Hh1].
  inv_done H. apply unlink_next_refs in E as (H2 & Hh2 & Hn).
  inv_done H. injection H as <-. split; [|split].
  - etrans; [exact H1|]. etrans; [exact H2|]. apply put_head_refs.
  - intros h' Hne. rewrite <- Hh1, <- Hh2. destruct h, h'; simpl; try done; by destruct Hne.
  - intros Hp. unfold head_without in E. rewrite Hp, Z.eqb_refl in E. inv_done E.
    injection E as <-. rewrite (Hn _ E0). by destruct h.
Qed.

Lemma close_fd_refs s p s' :
  close_fd s p = Done s' -> same_refs s s' /\ forall h, get_head s' h = get_head s h.
Proof.
  unfold close_fd. intros H. inv_done H. destruct (negb _).
  - inv_done H. destruct r0 as [q|].
    + inv_done H. injection H as <-. split; [by eapply set_obj_refs|by intros []].
    + destruct (filename r); [|done]. injection H as <-. split; [by constructor|by intros []].
  - injection H as <-. split; [reflexivity|done].
Qed.

Lemma open_fd_refs s p fl s' :
  open_fd s p fl = Done s' -> same_refs s s' /\ forall h, get_head s' h = get_head s h.
Proof.
  unfold open_fd. intros H. inv_done H. injection H as <-.
  split; [by eapply set_obj_refs|by intros []].
Qed.

Lemma free_fd_properties_refs s p s' :
  free_fd_properties s p = Done s' ->
  same_refs s s' /\ cached_fds s' = Some p /\ (active_fds s = Some p -> active_fds s' = None).
Proof.
  unfold free_fd_properties. intros H. inv_done H.
  apply remove_list_refs in E as (H1 & _ & Ha). apply insert_list_refs in H as (H2 & H3 & Hh).
  split; [by transitivity r|]. split; [exact H3|]. intros Hp. rewrite <- (Ha Hp).
  by apply (Hh Active).
Qed.

(** ** Reference counts *)

(** How many descriptors point at the object [p]. *)
Definition slots (t : list (option Z)) (p : Z) : Z :=
  Z.of_nat (length (filter (fun x => x = Some p) t)).

(** The invariant: the count of every object in use is the number of descriptors
    that use it, and an object that waits to be used again is used by none. *)
Definition refs_ok (s : fds) : Prop :=
  forall t, fd_tab s = Some t ->
  length t = 255%nat /\
  (forall p, Some p ∈ t -> count_of s p = Some (slots t p)) /\
  (forall p, cached_fds s = Some p -> Some p ∉ t).

Definition one_if (b : bool) : Z := if b then 1 else 0.

Lemma slots_insert t i x y p :
  t !! i = Some x ->
  slots (<[i := y]> t) p =
  slots t p - one_if (bool_decide (x = Some p)) + one_if (bool_decide (y = Some p)).
Proof.
  unfold slots, one_if. revert i. induction t as [|z t IH]; intros [|i] Hx; [done|done| |].
  - injection Hx as ->. change (<[0%nat := y]> (x :: t)) with (y :: t). rewrite !filter_cons. repeat case_bool_decide; repeat case_decide;
      simpl; try done; lia.
  - specialize (IH i Hx). change (<[S i := y]> (z :: t)) with (z :: <[i := y]> t).
    rewrite !filter_cons. destruct (decide (z = Some p)); [|exact IH].
    rewrite !length_cons, !Nat2Z.inj_succ. lia.
Qed.

Lemma slots_bound t p : 0 <= slots t p <= Z.of_nat (length t).
Proof. unfold slots. pose proof (length_filter (fun x => x = Some p) t). lia. Qed.

Lemma slots_pos t p : Some p ∈ t <-> 0 < slots t p.
Proof.
  unfold slots. split.
  - intros H. assert (Hf : Some p ∈ filter (fun x => x = Some p) t)
      by (by apply list_elem_of_filter).
    destruct (filter _ t); [by apply elem_of_nil in Hf|]. simpl. lia.
  - intros H. destruct (filter _ t) as [|x l] eqn:E; simpl in H; [lia|].
    assert (Hx : x ∈ filter (fun x => x = Some p) t) by (rewrite E; constructor).
    apply list_elem_of_filter in Hx as [-> Hx]. done.
Qed.

Lemma tab_at_Some s fd x :
  tab_at s fd = Done x -> exists t, fd_tab s = Some t /\ 0 <= fd /\ t !! Z.to_nat fd = Some x.
Proof.
  unfold tab_at. destruct (fd_tab s) as [t|]; [|done]. destruct (Z.ltb_spec fd 0); [done|].
  destruct (t !! Z.to_nat fd) eqn:E; [|done]. intros [= ->]. by eexists.
Qed.

Lemma refs_ok_same s s' :
  same_refs s s' -> (forall p, cached_fds s' = Some p -> cached_fds s = Some p) ->
  refs_ok s -> refs_ok s'.
Proof.
  intros [H1 H2 H3] Hc H t Ht. rewrite H1 in Ht. destruct (H t Ht) as (Hl & Hp & Hq).
  split_and!; [done| |].
  - intros p Hin. rewrite H3. by apply Hp.
  - intros p Hcp. apply Hq. by apply Hc.
Qed.

(** Changing one entry of the table and the count of the object that enters or
    leaves it keeps the invariant. *)
Lemma refs_ok_slot s s' t fd x y :
  refs_ok s -> fd_tab s = Some t -> 0 <= fd -> t !! Z.to_nat fd = Some x ->
  fd_tab s' = Some (<[Z.to_nat fd := y]> t) ->
  (forall p, (Some p ∈ t \/ y = Some p) -> 0 < slots (<[Z.to_nat fd := y]> t) p ->
     count_of s' p = Some (slots (<[Z.to_nat fd := y]> t) p)) ->
  (forall p, cached_fds s' = Some p -> slots (<[Z.to_nat fd := y]> t) p = 0) ->
  refs_ok s'.
Proof.
  intros Hok Ht Hfd Hx Ht' Hcnt Hcache t' Et'. rewrite Ht' in Et'. injection Et' as <-.
  destruct (Hok t Ht) as (Hl & _ & _). split_and!; [by rewrite length_insert| |].
  - intros p Hin. apply Hcnt; [|by apply slots_pos].
    apply list_elem_of_lookup in Hin as [i Hi].
    destruct (decide (i = Z.to_nat fd)) as [->|].
    + rewrite list_lookup_insert_eq in Hi by (by eapply lookup_lt_Some). right. congruence.
    + rewrite list_lookup_insert_ne in Hi by done. left. by eapply list_elem_of_lookup_2.
  - intros p Hp Hin%slots_pos. rewrite Hcache in Hin by done. lia.
Qed.

Lemma alloc_refs new s s' x :
  (forall p, new = Some p -> objs s !! p = None) ->
  refs_ok s -> alloc_fd_properties new s = Done (s', x) ->
  match x with
  | None => s' = s
  | Some p =>
      fd_tab s' = fd_tab s /\ cached_fds s' = None /\ count_of s' p = Some 1 /\
      (forall q, q <> p -> count_of s' q = count_of s q) /\
      (forall t, fd_tab s = Some t -> slots t p = 0)
  end.
Proof.
  intros Hnew Hok. unfold alloc_fd_properties. destruct (cached_fds s) as [c|] eqn:Ec.
  - intros H. inv_done H. apply remove_list_refs in E as ([T1 T2 T3] & _ & Hh).
    inv_done H. injection H as <- <-. split_and!; simpl; [done|by apply Hh| | |].
    + unfold count_of. simpl. by rewrite lookup_insert_eq.
    + intros q Hq. rewrite <- T3. unfold count_of. simpl. by rewrite lookup_insert_ne.
    + intros t Ht. destruct (Hok t Ht) as (_ & _ & Hc). specialize (Hc c Ec).
      rewrite slots_pos in Hc. pose proof (slots_bound t c). lia.
  - destruct new as [p|]; intros [= <- <-]; [|done]. split_and!; simpl; [done|done| | |].
    + unfold count_of. simpl. by rewrite lookup_insert_eq.
    + intros q Hq. unfold count_of. simpl. by rewrite lookup_insert_ne.
    + intros t Ht. destruct (Hok t Ht) as (_ & Hcnt & _). specialize (Hcnt p).
      rewrite slots_pos in Hcnt. pose proof (slots_bound t p).
      destruct (decide (0 < slots t p)) as [Hpos|]; [|lia].
      specialize (Hcnt Hpos). unfold count_of in Hcnt. by rewrite (Hnew p eq_refl) in Hcnt.
Qed.

Lemma refs_ok_reset s b ok :
  refs_ok (mk_fds (if ok : bool then Some empty_tab else None) None None b (objs s)
    (removed s)).
Proof.
  intros t Ht. simpl in Ht. destruct ok; [|done]. injection Ht as <-.
  split_and!; [apply length_replicate| |done]. intros p Hin. by apply elem_of_replicate in Hin as [? _].
Qed.

Lemma set_refs_ok tn bss ok new s fd file fl s' r :
  (forall p, new = Some p -> objs s !! p = None) ->
  refs_ok s -> __set_fd_properties tn bss ok new s fd file fl = Done (s', r) -> refs_ok s'.
Proof.
  intros Hnew Hok. unfold __set_fd_properties.
  match goal with |- context [let '(_, _) := ?e in _] => set (e0 := e) end.
  assert (He : refs_ok e0.1 /\ objs e0.1 = objs s).
  { unfold e0. destruct (negb (old_bss_count s =? bss)); [|done].
    split; [apply refs_ok_reset|done]. }
  destruct e0 as [s1 b]. destruct He as [Hok1 Ho]. simpl in Hok1, Ho.
  assert (Hnew1 : forall p, new = Some p -> objs s1 !! p = None) by (by rewrite Ho).
  clear Ho Hnew Hok s. destruct b; simpl; [|by intros [= <- _]].
  intros H. inv_done H. apply tab_at_Some in E as (t & Ht & Hfd & Hx). destruct r0 as [p|].
  - inv_done H. injection H as <- _. apply open_fd_refs in E as [Hs Hh].
    eapply refs_ok_same; [exact Hs| |exact Hok1]. intros q Hq. pose proof (Hh Cached) as Ec.
    simpl in Ec. congruence.
  - inv_done H. destruct r0 as [s2 [p|]].
    + destruct (alloc_refs _ _ _ _ Hnew1 Hok1 E) as (T1 & T2 & T3 & T4 & T5).
      inv_done H. rename r0 into o, E0 into Eo. apply obj_Done in Eo. simpl in Eo.
      inv_done H. rename r0 into s3, E0 into E3. inv_done H. injection H as <- _.
      rename r0 into s4, E0 into E4.
      apply insert_list_refs in E3 as (H3 & _ & Hh3). apply open_fd_refs in E4 as [H4 Hh4].
      set (sm := set_obj (put_at_tab s2 fd (Some p)) p (set_name (set_count o 1) (tn file))) in *.
      assert (Hm : forall q, count_of sm q = count_of s2 q).
      { intros q. unfold count_of, sm. simpl. destruct (decide (q = p)) as [->|].
        - rewrite lookup_insert_eq. unfold count_of in T3. by rewrite T3.
        - by rewrite lookup_insert_ne. }
      assert (H5 : same_refs sm s4) by (by transitivity s3). destruct H5 as [U1 _ U3].
      eapply (refs_ok_slot s1 s4 t fd None (Some p)); [done|done|done|done| | |].
      * rewrite U1. unfold sm. simpl. by rewrite T1, Ht.
      * intros q Hq Hpos. rewrite U3, Hm, (slots_insert _ _ _ _ _ Hx).
        rewrite bool_decide_eq_false_2 by done. destruct (decide (q = p)) as [->|Hne].
        -- rewrite T3, (T5 t Ht), bool_decide_eq_true_2; done.
        -- rewrite bool_decide_eq_false_2 by congruence. simpl. rewrite T4 by done.
           destruct Hq as [Hq|]; [|congruence]. destruct (Hok1 t Ht) as (_ & Hc & _).
           rewrite Hc by done. f_equal. lia.
      * intros q Hq. pose proof (Hh4 Cached) as E1. pose proof (Hh3 Cached ltac:(done)) as E2.
        simpl in E1, E2. rewrite T2 in E2. congruence.
    + injection H as <- _. pose proof (alloc_refs _ _ _ _ Hnew1 Hok1 E) as ->.
      eapply (refs_ok_slot s1 _ t fd None None); [done|done|done|done|simpl; by rewrite Ht| |].
      * intros q [Hq|] Hpos; [|done]. destruct (Hok1 t Ht) as (_ & Hc & _).
        rewrite list_insert_id by done. by apply Hc.
      * intros q Hq. rewrite list_insert_id by done. destruct (Hok1 t Ht) as (_ & _ & Hc).
        specialize (Hc q Hq). rewrite slots_pos in Hc. pose proof (slots_bound t q). lia.
Qed.

(** The count of the object at a descriptor, and what it is. *)
Lemma refs_ok_at s fd p :
  refs_ok s -> tab_at s fd = Done (Some p) ->
  exists t o, fd_tab s = Some t /\ 0 <= fd /\ t !! Z.to_nat fd = Some (Some p) /\
    objs s !! p = Some o /\ ref_count o = slots t p /\ 1 <= slots t p <= 255.
Proof.
  intros Hok H. apply tab_at_Some in H as (t & Ht & Hfd & Hx).
  destruct (Hok t Ht) as (Hl & Hc & _).
  assert (Hin : Some p ∈ t) by (by eapply list_elem_of_lookup_2).
  specialize (Hc p Hin). unfold count_of in Hc.
  destruct (objs s !! p) as [o|] eqn:Eo; [|done]. injection Hc as Hc.
  apply slots_pos in Hin. pose proof (slots_bound t p). rewrite Hl in H.
  exists t, o. split_and!; try done; lia.
Qed.

Lemma dup_refs_ok s from to s' :
  refs_ok s -> tab_at s to = Done None -> __dup_fd_properties s from to = Done s' -> refs_ok s'.
Proof.
  intros Hok Hto. unfold __dup_fd_properties. intros H. inv_done H.
  destruct r as [p|]; [|by injection H as <-]. rewrite Hto, bind_Done in H.
  destruct (refs_ok_at _ _ _ Hok E) as (t & o & Ht & _ & Hp & Ho & Hc & Hr).
  apply tab_at_Some in Hto as (t0 & Ht0 & Hfd & Hx). assert (t0 = t) as -> by congruence.
  inv_done H. apply obj_Done in E0. simpl in E0. assert (r = o) as -> by congruence.
  injection H as <-. destruct (Hok t Ht) as (Hl & Hcnt & Hca).
  assert (Hs : slots (<[Z.to_nat to := Some p]> t) p = slots t p + 1).
  { rewrite (slots_insert _ _ _ _ _ Hx), bool_decide_eq_false_2, bool_decide_eq_true_2 by done.
    simpl. lia. }
  pose proof (slots_bound (<[Z.to_nat to := Some p]> t) p) as Hb.
  rewrite length_insert, Hl, Hs in Hb.
  eapply (refs_ok_slot s _ t to None (Some p)); [done|done|done|done|simpl; by rewrite Ht| |].
  - intros q Hq Hpos. unfold count_of. simpl. destruct (decide (q = p)) as [->|Hne].
    + rewrite lookup_insert_eq. simpl. rewrite Hs, Hc, wrap_u_small; [done|lia].
    + rewrite lookup_insert_ne by done. rewrite (slots_insert _ _ _ _ _ Hx).
      rewrite !bool_decide_eq_false_2 by congruence. destruct Hq as [Hq|]; [|congruence].
      simpl. specialize (Hcnt q Hq). unfold count_of in Hcnt. rewrite Hcnt. f_equal. lia.
  - intros q Hq. simpl in Hq. specialize (Hca q Hq). rewrite slots_pos in Hca.
    rewrite (slots_insert _ _ _ _ _ Hx). pose proof (slots_bound t q).
    rewrite !bool_decide_eq_false_2; [simpl; lia| |done].
    intros [= ->]. apply Hca. lia.
Qed.

(** What is left of the last close of an object. *)
Lemma last_close_refs s p o s1 s2 :
  close_fd s p = Done s1 -> objs s1 !! p = Some o ->
  free_fd_properties (set_obj s1 p (set_name o None)) p = Done s2 ->
  same_refs s s2 /\ cached_fds s2 = Some p /\ (active_fds s = Some p -> active_fds s2 = None).
Proof.
  intros H1 Ho H2. apply close_fd_refs in H1 as [H1 Hh].
  apply free_fd_properties_refs in H2 as (H2 & Hc & Ha). split; [|split; [done|]].
  2: { intros Hp. apply Ha. rewrite <- Hp. exact (Hh Active). }
  etrans; [exact H1|]. etrans; [|exact H2]. apply (set_obj_refs _ _ o); [|done].
  unfold obj. by rewrite Ho.
Qed.

Lemma clear_refs_ok s fd s' r :
  refs_ok s -> __clear_fd_properties s fd = Done (s', r) -> refs_ok s'.
Proof.
  intros Hok. unfold __clear_fd_properties. intros H. inv_done H.
  destruct r0 as [p|]; [|by injection H as <- _].
  destruct (refs_ok_at _ _ _ Hok E) as (t & o & Ht & Hfd & Hp & Ho & Hc & Hr).
  inv_done H. apply obj_Done in E0. assert (r0 = o) as -> by congruence.
  inv_done H. rename r0 into s2, E1 into E2. injection H as <- _.
  rewrite wrap_u_small in E2 by lia. destruct (Hok t Ht) as (Hl & Hcnt & Hca).
  set (sm := set_obj s p (set_count o (ref_count o - 1))) in *.
  assert (H2 : same_refs sm s2 /\
    (cached_fds s2 = cached_fds s \/ (ref_count o = 1 /\ cached_fds s2 = Some p))).
  { destruct (Z.eqb_spec (ref_count o - 1) 0) as [Hz|Hz].
    - inv_done E2. rename E1 into E3. inv_done E2. apply obj_Done in E1.
      destruct (last_close_refs _ _ _ _ _ E3 E1 E2) as (Hs & Hc2 & _). split; [done|right].
      split; [lia|done].
    - injection E2 as <-. split; [reflexivity|by left]. }
  destruct H2 as [[T1 _ T3] Hcache].
  assert (Hs : forall q, slots (<[Z.to_nat fd := None]> t) q =
    slots t q - one_if (bool_decide (Some p = Some q))).
  { intros q. rewrite (slots_insert _ _ _ _ _ Hp).
    rewrite (bool_decide_eq_false_2 (None = Some q)) by done. simpl. lia. }
  eapply (refs_ok_slot s _ t fd (Some p) None); [done|done|done|done| | |].
  - simpl. rewrite T1. simpl. by rewrite Ht.
  - intros q [Hq|] Hpos; [|done]. change (count_of s2 q = Some (slots (<[Z.to_nat fd:=None]> t) q)).
    rewrite T3, Hs. unfold count_of, sm. simpl. destruct (decide (q = p)) as [->|Hne].
    + rewrite lookup_insert_eq. simpl. rewrite bool_decide_eq_true_2 by done. simpl. congruence.
    + rewrite lookup_insert_ne by done. rewrite bool_decide_eq_false_2 by congruence.
      simpl. rewrite Z.sub_0_r. by apply Hcnt.
  - intros q Hq. simpl in Hq. rewrite Hs. destruct Hcache as [Hcq|[H1 Hcq]].
    + rewrite Hcq in Hq. specialize (Hca q Hq). rewrite slots_pos in Hca.
      pose proof (slots_bound t q). rewrite bool_decide_eq_false_2; [simpl; lia|].
      intros [= ->]. apply Hca. lia.
    + assert (q = p) as -> by congruence. rewrite bool_decide_eq_true_2 by done. simpl. lia.
Qed.

(** ** Links *)

Definition live (s : fds) (x : option Z) : Prop := forall p, x = Some p -> is_Some (objs s !! p).

(** No link of a list leaves the objects that were allocated. *)
Record closed (s : fds) : Prop := {
  cl_heads : forall h, live s (get_head s h);
  cl_links : forall p o, objs s !! p = Some o -> live s (prev o) /\ live s (next o) }.

Lemma live_mono s s' x : dom (objs s) ⊆ dom (objs s') -> live s x -> live s' x.
Proof. intros Hd H p Hp. apply elem_of_dom, Hd, elem_of_dom. by apply H. Qed.

Lemma live_None s : live s None.
Proof. by intros p. Qed.

Lemma live_Some s p o : objs s !! p = Some o -> live s (Some p).
Proof. intros H q [= <-]. by eexists. Qed.

#[export] Hint Resolve live_None live_Some : refs.

Lemma obj_live s p : live s (Some p) -> exists o, obj s p = Done o /\ objs s !! p = Some o.
Proof. intros H. destruct (H p eq_refl) as [o Ho]. exists o. unfold obj. by rewrite Ho. Qed.

Lemma set_obj_closed s p o :
  closed s -> live s (Some p) -> live s (prev o) -> live s (next o) ->
  closed (set_obj s p o) /\ dom (objs (set_obj s p o)) = dom (objs s).
Proof.
  intros [H1 H2] Hp Hpr Hn.
  assert (Hd : dom (objs (set_obj s p o)) = dom (objs s)).
  { simpl. apply dom_insert_lookup_L. by apply Hp. }
  assert (Hm : forall x, live s x -> live (set_obj s p o) x)
    by (intros x; apply live_mono; by rewrite Hd).
  split; [|done]. constructor.
  - intros h. apply Hm. destruct h; [apply (H1 Active)|apply (H1 Cached)].
  - intros q oq Hq. simpl in Hq. destruct (decide (q = p)) as [->|].
    + rewrite lookup_insert_eq in Hq. injection Hq as <-. auto.
    + rewrite lookup_insert_ne in Hq by done. destruct (H2 q oq Hq). auto.
Qed.

Lemma put_head_closed s h x : closed s -> live s x -> closed (put_head s h x).
Proof.
  intros [H1 H2] Hx. constructor.
  - intros h'. destruct h, h'; try exact Hx; [apply (H1 Cached)|apply (H1 Active)].
  - intros p o Ho. destruct h; apply (H2 p o Ho).
Qed.

(** The two operations on a list never fault. *)
Lemma insert_list_total s h p :
  closed s -> live s (Some p) ->
  exists s', insert_list s h p = Done s' /\ closed s' /\ dom (objs s') = dom (objs s).
Proof.
  intros Hc Hp. unfold insert_list. destruct (obj_live s p Hp) as (o & -> & Ho).
  rewrite bind_Done. pose proof (cl_heads s Hc h) as Hh.
  set (o1 := set_prev (set_next o (get_head s h)) None).
  destruct (set_obj_closed s p o1 Hc Hp (live_None s) Hh) as [Hc1 Hd1].
  assert (Hm : forall x, live s x -> live (set_obj s p o1) x)
    by (intros x; apply live_mono; by rewrite Hd1).
  destruct (get_head s h) as [q|] eqn:Eh.
  - destruct (obj_live _ q (Hm _ Hh)) as (oq & E & Hoq). rewrite E. cbn beta iota.
    rewrite !bind_Done. destruct (cl_links _ Hc1 _ _ Hoq) as [Hpq Hnq].
    destruct (set_obj_closed _ q (set_prev oq (Some p)) Hc1 (Hm _ Hh)) as [Hc2 Hd2];
      [by apply Hm|done|]. rewrite Hd1 in Hd2. eexists. split; [reflexivity|]. split.
    + apply put_head_closed; [done|]. eapply live_mono; [|exact Hp]. by rewrite Hd2.
    + by destruct h.
  - rewrite bind_Done. eexists. split; [reflexivity|]. split; [|by destruct h].
    apply put_head_closed; [done|by apply Hm].
Qed.

(** One link of an item is undone: the neighbour [x] of [p] gets new links, then [p]
    does. *)
Lemma unlink_closed s p x (f g : fd_properties -> fd_properties) :
  closed s -> live s (Some p) -> live s (Some x) ->
  (forall o, objs s !! x = Some o -> live s (prev (f o)) /\ live s (next (f o))) ->
  (forall s' o, closed s' -> objs s' !! p = Some o ->
     live s' (prev (g o)) /\ live s' (next (g o))) ->
  exists ox o1, obj s x = Done ox /\ obj (set_obj s x (f ox)) p = Done o1 /\
    closed (set_obj (set_obj s x (f ox)) p (g o1)) /\
    dom (objs (set_obj (set_obj s x (f ox)) p (g o1))) = dom (objs s).
Proof.
  intros Hc Hp Hx Hf Hg. destruct (obj_live s x Hx) as (ox & Eox & Hox).
  destruct (Hf ox Hox) as [Hf1 Hf2].
  destruct (set_obj_closed s x (f ox) Hc Hx Hf1 Hf2) as [Hc1 Hd1].
  assert (Hp1 : live (set_obj s x (f ox)) (Some p)).
  { eapply live_mono; [|exact Hp]. by rewrite Hd1. }
  destruct (obj_live _ _ Hp1) as (o1 & Eo1 & Ho1). destruct (Hg _ _ Hc1 Ho1) as [Hg1 Hg2].
  destruct (set_obj_closed _ p (g o1) Hc1 Hp1 Hg1 Hg2) as [Hc2 Hd2].
  exists ox, o1. rewrite Hd1 in Hd2. done.
Qed.

Lemma unlink_prev_total s p :
  closed s -> live s (Some p) ->
  exists s', unlink_prev s p = Done s' /\ closed s' /\ dom (objs s') = dom (objs s).
Proof.
  intros Hc Hp. unfold unlink_prev. destruct (obj_live s p Hp) as (o & -> & Ho).
  rewrite bind_Done. destruct (cl_links s Hc p o Ho) as [Hpr Hnx].
  destruct (prev o) as [q|]; [|by exists s].
  destruct (unlink_closed s p q (fun x => set_next x (next o)) (fun x => set_prev x None))
    as (oq & o1 & E1 & E2 & Hc1 & Hd1); [done|done|done| | |].
  - intros oq Hoq. destruct (cl_links s Hc q oq Hoq). done.
  - intros s' o' Hc' Ho'. destruct (cl_links s' Hc' p o' Ho'). split; [apply live_None|done].
  - rewrite E1, bind_Done. cbn zeta. rewrite E2, bind_Done. by eexists.
Qed.

Lemma unlink_next_total s p :
  closed s -> live s (Some p) ->
  exists s', unlink_next s p = Done s' /\ closed s' /\ dom (objs s') = dom (objs s).
Proof.
  intros Hc Hp. unfold unlink_next. destruct (obj_live s p Hp) as (o & -> & Ho).
  rewrite bind_Done. destruct (cl_links s Hc p o Ho) as [Hpr Hnx].
  destruct (next o) as [q|]; [|by exists s].
  destruct (unlink_closed s p q (fun x => set_prev x (prev o)) (fun x => set_next x None))
    as (oq & o1 & E1 & E2 & Hc1 & Hd1); [done|done|done| | |].
  - intros oq Hoq. destruct (cl_links s Hc q oq Hoq). done.
  - intros s' o' Hc' Ho'. destruct (cl_links s' Hc' p o' Ho'). split; [done|apply live_None].
  - rewrite E1, bind_Done. cbn zeta. rewrite E2, bind_Done. by eexists.
Qed.

Lemma remove_list_total s h p :
  closed s -> live s (Some p) ->
  exists s', remove_list s h p = Done s' /\ closed s' /\ dom (objs s') = dom (objs s).
Proof.
  intros Hc Hp. unfold remove_list.
  destruct (unlink_prev_total s p Hc Hp) as (s1 & -> & Hc1 & Hd1). rewrite bind_Done.
  assert (Hp1 : live s1 (Some p)) by (eapply live_mono; [|exact Hp]; by rewrite Hd1).
  destruct (unlink_next_total s1 p Hc1 Hp1) as (s2 & -> & Hc2 & Hd2). rewrite bind_Done.
  assert (Hh : live s2 (get_head s h)).
  { eapply live_mono; [|exact (cl_heads s Hc h)]. by rewrite Hd2, Hd1. }
  assert (H3 : exists x, head_without s2 (get_head s h) p = Done x /\ live s2 x).
  { unfold head_without. destruct (get_head s h) as [q|]; [|exists None; auto with refs].
    destruct (q =? p); [|by exists (Some q)].
    destruct (obj_live s2 q Hh) as (oq & -> & Hoq). rewrite bind_Done. exists (next oq).
    split; [done|]. by destruct (cl_links s2 Hc2 q oq Hoq). }
  destruct H3 as (x & -> & Hx). rewrite bind_Done. eexists. split; [reflexivity|]. split.
  - by apply put_head_closed.
  - rewrite <- Hd1, <- Hd2. by destruct h.
Qed.

(** Only the objects and the heads matter. *)
Lemma closed_ext s s' :
  objs s' = objs s -> (forall h, live s (get_head s' h)) -> closed s -> closed s'.
Proof.
  intros Ho Hh [_ H2]. constructor.
  - intros h p Hp. rewrite Ho. by apply (Hh h).
  - intros p o. rewrite Ho. intros Hp. destruct (H2 p o Hp) as [Ha Hb].
    split; intros q Hq; rewrite Ho; [by apply Ha|by apply Hb].
Qed.

Lemma put_at_tab_closed s fd x : closed s -> closed (put_at_tab s fd x).
Proof.
  intros Hc. apply (closed_ext s); [done| |done].
  intros h. destruct h; [apply (cl_heads s Hc Active)|apply (cl_heads s Hc Cached)].
Qed.

(** Changing the fields of an object other than its links. *)
Lemma set_fields_closed s p o o' :
  closed s -> objs s !! p = Some o -> prev o' = prev o -> next o' = next o ->
  closed (set_obj s p o') /\ dom (objs (set_obj s p o')) = dom (objs s).
Proof.
  intros Hc Ho Hp Hn. destruct (cl_links s Hc p o Ho).
  apply set_obj_closed; [done|eauto with refs|by rewrite Hp|by rewrite Hn].
Qed.

Lemma open_fd_total s p fl :
  closed s -> live s (Some p) ->
  exists s', open_fd s p fl = Done s' /\ closed s' /\ dom (objs s') = dom (objs s).
Proof.
  intros Hc Hp. unfold open_fd. destruct (obj_live s p Hp) as (o & -> & Ho).
  rewrite bind_Done. eexists. split; [reflexivity|]. by eapply set_fields_closed.
Qed.

Lemma close_fd_closed s p s' :
  closed s -> close_fd s p = Done s' -> closed s' /\ dom (objs s') = dom (objs s).
Proof.
  unfold close_fd. intros Hc H. inv_done H. destruct (negb _).
  - inv_done H. destruct r0 as [q|].
    + inv_done H. injection H as <-. apply obj_Done in E1. by eapply set_fields_closed.
    + destruct (filename r); [|done]. injection H as <-. split; [|done].
      apply (closed_ext s); [done| |done].
      intros h. destruct h; [apply (cl_heads s Hc Active)|apply (cl_heads s Hc Cached)].
  - by injection H as <-.
Qed.

Lemma free_fd_properties_total s p :
  closed s -> live s (Some p) ->
  exists s', free_fd_properties s p = Done s' /\ closed s' /\ dom (objs s') = dom (objs s).
Proof.
  intros Hc Hp. unfold free_fd_properties.
  destruct (remove_list_total s Active p Hc Hp) as (s1 & -> & Hc1 & Hd1). rewrite bind_Done.
  destruct (insert_list_total s1 Cached p Hc1) as (s2 & -> & Hc2 & Hd2).
  { eapply live_mono; [|exact Hp]. by rewrite Hd1. }
  exists s2. rewrite Hd1 in Hd2. done.
Qed.

Lemma alloc_closed new s s' x :
  (forall p, new = Some p -> objs s !! p = None) ->
  closed s -> alloc_fd_properties new s = Done (s', x) ->
  closed s' /\ dom (objs s) ⊆ dom (objs s') /\ live s' x.
Proof.
  intros Hnew Hc. unfold alloc_fd_properties. destruct (cached_fds s) as [c|] eqn:Ec.
  - intros H. pose proof (cl_heads s Hc Cached) as Hl. simpl in Hl. rewrite Ec in Hl.
    destruct (remove_list_total s Cached c Hc Hl) as (s1 & E & Hc1 & Hd1).
    rewrite E, bind_Done in H. inv_done H. apply obj_Done in E0. injection H as <- <-.
    destruct (set_obj_closed s1 c (set_count (set_next (set_prev r None) None) 1)) as [Hc2 Hd2];
      [done|eauto with refs|apply live_None|apply live_None|].
    split; [done|]. rewrite Hd2, Hd1. split; [done|].
    intros q [= <-]. apply elem_of_dom. rewrite Hd2. apply elem_of_dom. by eexists.
  - destruct new as [p|]; intros [= <- <-]; [|split; [done|split; [done|apply live_None]]].
    set (s1 := set_obj s p _). assert (Hd : dom (objs s) ⊆ dom (objs s1)).
    { unfold s1. simpl. rewrite dom_insert_L. apply union_subseteq_r. }
    split; [|split; [done|]].
    + constructor.
      * intros h. apply (live_mono s); [done|].
        destruct h; [apply (cl_heads s Hc Active)|apply (cl_heads s Hc Cached)].
      * intros q o Hq. unfold s1 in Hq. simpl in Hq. destruct (decide (q = p)) as [->|].
        -- rewrite lookup_insert_eq in Hq. injection Hq as <-. split; apply live_None.
        -- rewrite lookup_insert_ne in Hq by done. destruct (cl_links s Hc q o Hq).
           split; by apply (live_mono s).
    + intros q [= <-]. unfold s1. simpl. rewrite lookup_insert_eq. by eexists.
Qed.

(** ** Every state that the operations reach *)

Definition fds_ok (s : fds) : Prop := refs_ok s /\ closed s.

Lemma slot_live s fd p : refs_ok s -> tab_at s fd = Done (Some p) -> live s (Some p).
Proof.
  intros Hok H. destruct (refs_ok_at s fd p Hok H) as (t & o & _ & _ & _ & Ho & _).
  eauto with refs.
Qed.

(** An object enters the table and the list of those in use. *)
Lemma enter_closed s fd p o s2 s3 name fl :
  closed s -> obj (put_at_tab s fd (Some p)) p = Done o ->
  insert_list (set_obj (put_at_tab s fd (Some p)) p (set_name (set_count o 1) name)) Active p
    = Done s2 ->
  open_fd s2 p fl = Done s3 -> closed s3.
Proof.
  intros Hc Ho%obj_Done Hi Hf.
  destruct (set_fields_closed _ p o (set_name (set_count o 1) name)
    (put_at_tab_closed s fd (Some p) Hc) Ho) as [Hc1 Hd1]; [done|done|].
  assert (Hl : live (set_obj (put_at_tab s fd (Some p)) p (set_name (set_count o 1) name))
    (Some p)).
  { intros q [= <-]. simpl. rewrite lookup_insert_eq. by eexists. }
  destruct (insert_list_total _ Active p Hc1 Hl) as (s2' & E2 & Hc2 & Hd2).
  assert (s2' = s2) as -> by congruence.
  destruct (open_fd_total s2 p fl Hc2) as (s3' & E3 & Hc3 & _); [|congruence].
  eapply live_mono; [|exact Hl]. by rewrite Hd2.
Qed.

Lemma set_closed tn bss ok new s fd file fl s' r :
  (forall p, new = Some p -> objs s !! p = None) ->
  fds_ok s -> __set_fd_properties tn bss ok new s fd file fl = Done (s', r) -> closed s'.
Proof.
  intros Hnew [Hok Hc]. unfold __set_fd_properties.
  match goal with |- context [let '(_, _) := ?e in _] => set (e0 := e) end.
  assert (He : refs_ok e0.1 /\ closed e0.1 /\ objs e0.1 = objs s).
  { unfold e0. destruct (negb (old_bss_count s =? bss)); [|done].
    split_and!; [apply refs_ok_reset| |done].
    apply (closed_ext s); [done|by intros []|done]. }
  destruct e0 as [s1 b]. destruct He as (Hok1 & Hc1 & Ho). simpl in Hok1, Hc1, Ho.
  assert (Hnew1 : forall p, new = Some p -> objs s1 !! p = None) by (by rewrite Ho).
  destruct b; simpl; [|by intros [= <- _]]. intros H. inv_done H. destruct r0 as [p|].
  - inv_done H. injection H as <- _.
    destruct (open_fd_total s1 p fl Hc1) as (s2 & E2 & Hc2 & _); [by eapply slot_live|].
    congruence.
  - inv_done H. destruct r0 as [s2 x].
    destruct (alloc_closed _ _ _ _ Hnew1 Hc1 E0) as (Hc2 & _ & _). destruct x as [p|].
    + inv_done H. inv_done H. inv_done H. injection H as <- _. by eapply enter_closed.
    + injection H as <- _. by apply put_at_tab_closed.
Qed.

Lemma dup_closed s from to s' :
  fds_ok s -> __dup_fd_properties s from to = Done s' -> closed s'.
Proof.
  intros [Hok Hc]. unfold __dup_fd_properties. intros H. inv_done H.
  destruct r as [p|]; [|by injection H as <-]. inv_done H. inv_done H. injection H as <-.
  apply obj_Done in E1. eapply set_fields_closed; [by apply put_at_tab_closed|exact E1|done|done].
Qed.

Lemma clear_closed s fd s' r :
  fds_ok s -> __clear_fd_properties s fd = Done (s', r) -> closed s'.
Proof.
  intros [Hok Hc]. unfold __clear_fd_properties. intros H. inv_done H.
  destruct r0 as [p|]; [|by injection H as <- _]. inv_done H. apply obj_Done in E0.
  inv_done H. injection H as <- _. apply put_at_tab_closed. set (c := wrap_u 8 _) in *.
  destruct (set_fields_closed s p r0 (set_count r0 c) Hc E0) as [Hc1 Hd1]; [done|done|].
  destruct (c =? 0); [|by injection E1 as <-].
  inv_done E1. apply close_fd_closed in E2 as [Hc2 Hd2]; [|done].
  inv_done E1. apply obj_Done in E2.
  destruct (set_fields_closed _ p r3 (set_name r3 None) Hc2 E2) as [Hc3 Hd3]; [done|done|].
  destruct (free_fd_properties_total _ p Hc3) as (s4 & E4 & Hc4 & _); [|congruence].
  intros q [= <-]. simpl. rewrite lookup_insert_eq. by eexists.
Qed.

(** The operations, as the callers use them: [malloc] gives addresses that are not in
    use, and a descriptor is duplicated onto one without properties (a new one for
    dup, one that was just cleared for dup2). *)
Inductive fd_step (s : fds) : fds -> Prop :=
  | step_set tn bss ok new fd file fl s' r :
      (forall p, new = Some p -> objs s !! p = None) ->
      __set_fd_properties tn bss ok new s fd file fl = Done (s', r) -> fd_step s s'
  | step_dup from to s' :
      tab_at s to = Done None -> __dup_fd_properties s from to = Done s' -> fd_step s s'
  | step_clear fd s' r :
      __clear_fd_properties s fd = Done (s', r) -> fd_step s s'.

(** The static variables when the program starts. *)
Definition fds_start : fds := mk_fds None None None 0 ∅ [].

Lemma fds_ok_start : fds_ok fds_start.
Proof.
  split; [by intros t|]. constructor.
  - intros []; apply live_None.
  - intros p o H. simpl in H. by rewrite lookup_empty in H.
Qed.

Lemma fd_step_ok s s' : fd_step s s' -> fds_ok s -> fds_ok s'.
Proof.
  intros [] Hok; pose proof Hok as [Hr Hc].
  - split; [by eapply set_refs_ok|by eapply set_closed].
  - split; [by eapply dup_refs_ok|by eapply dup_closed].
  - split; [by eapply clear_refs_ok|by eapply clear_closed].
Qed.

Lemma fds_ok_reach s s' : rtc fd_step s s' -> fds_ok s -> fds_ok s'.
Proof. induction 1; [done|]. intros. eauto using fd_step_ok. Qed.

Lemma obj_eq s p o : objs s !! p = Some o -> obj s p = Done o.
Proof. unfold obj. by intros ->. Qed.

Lemma clear_keeps s fd p o :
  tab_at s fd = Done (Some p) -> objs s !! p = Some o -> 1 < ref_count o <= 255 ->
  __clear_fd_properties s fd =
  Done (put_at_tab (set_obj s p (set_count o (ref_count o - 1))) fd None, 0).
Proof.
  intros E Ho Hr. unfold __clear_fd_properties. 
  rewrite E, bind_Done, (obj_eq _ _ _ Ho), bind_Done, wrap_u_small by lia. cbn zeta.
  rewrite (proj2 (Z.eqb_neq _ _)) by lia. by rewrite bind_Done.
Qed.

Lemma clear_last s fd p o :
  closed s -> tab_at s fd = Done (Some p) -> objs s !! p = Some o -> ref_count o = 1 ->
  pflags o .& FILE_DESC_TEMPORARY = 0 ->
  exists s', __clear_fd_properties s fd = Done (put_at_tab s' fd None, 0) /\
    fd_tab s' = fd_tab s /\ cached_fds s' = Some p /\ count_of s' p = Some 0 /\
    (forall q, q <> p -> count_of s' q = count_of s q) /\
    (active_fds s = Some p -> active_fds s' = None).
Proof.
  intros Hc E Ho Hr Hf. unfold __clear_fd_properties. 
  rewrite E, bind_Done, (obj_eq _ _ _ Ho), bind_Done, Hr. change (wrap_u 8 (1 - 1)) with 0. cbn zeta.
  rewrite Z.eqb_refl. set (s1 := set_obj s p (set_count o 0)).
  assert (E1 : close_fd s1 p = Done s1).
  { unfold close_fd, obj, s1. simpl. rewrite lookup_insert_eq, bind_Done. simpl.
    by rewrite Hf, Z.eqb_refl. }
  assert (Ho1 : objs s1 !! p = Some (set_count o 0)) by apply lookup_insert_eq.
  rewrite E1, bind_Done, (obj_eq _ _ _ Ho1), bind_Done. cbn zeta.
  destruct (set_fields_closed s p o (set_count o 0) Hc Ho) as [Hc1 _]; [done|done|].
  destruct (set_fields_closed s1 p _ (set_name (set_count o 0) None) Hc1 Ho1) as [Hc2 _];
    [done|done|].
  destruct (free_fd_properties_total _ p Hc2) as (s2 & E2 & _ & _).
  { intros q [= <-]. simpl. rewrite lookup_insert_eq. by eexists. }
  destruct (last_close_refs s1 p _ s1 s2 E1 Ho1 E2) as ([T1 _ T3] & Hcache & Ha).
  rewrite E2, bind_Done. exists s2. split_and!; [done|done|done| | |exact Ha].
  - rewrite T3. unfold count_of. by rewrite Ho1.
  - intros q Hq. rewrite T3. unfold count_of, s1. simpl. by rewrite lookup_insert_ne.
Qed.

(** C20. However files are opened, duplicated and closed, the reference count of the
    properties of a descriptor is the number of descriptors that share them (its
    eight bits never overflow), and closing the descriptor does what the count says:
    while others share them the count drops by one and nothing else changes; the
    last close (of a file that is not temporary) succeeds and hands the object to
    the cache with the count 0, all other counts unchanged. *)
Theorem fd_refcounts s t fd p :
  rtc fd_step fds_start s -> fd_tab s = Some t -> t !! Z.to_nat fd = Some (Some p) -> 0 <= fd ->
  exists o, objs s !! p = Some o /\ ref_count o = slots t p /\ 1 <= ref_count o <= 255 /\
    (1 < slots t p -> __clear_fd_properties s fd =
       Done (put_at_tab (set_obj s p (set_count o (slots t p - 1))) fd None, 0)) /\
    (slots t p = 1 -> pflags o .& FILE_DESC_TEMPORARY = 0 ->
       exists s', __clear_fd_properties s fd = Done (put_at_tab s' fd None, 0) /\
         fd_tab s' = fd_tab s /\ cached_fds s' = Some p /\ count_of s' p = Some 0 /\
         (forall q, q <> p -> count_of s' q = count_of s q)).
Proof.
  intros Hr Ht Hp Hfd. destruct (fds_ok_reach _ _ Hr fds_ok_start) as [Hok Hc].
  assert (E : tab_at s fd = Done (Some p)).
  { unfold tab_at. rewrite Ht, (proj2 (Z.ltb_ge fd 0)), Hp by lia. done. }
  destruct (refs_ok_at s fd p Hok E) as (t' & o & Ht' & _ & _ & Ho & Hcnt & Hb).
  assert (t' = t) as -> by congruence. exists o. rewrite <- Hcnt in *.
  split_and!; [done|done|lia|lia| |].
  - intros Hgt. apply clear_keeps; [done|done|lia].
  - intros H1 Hf. destruct (clear_last s fd p o) as (s' & ? & ? & ? & ? & ? & _); [done..|by exists s'].
Qed.

(** Two files are opened, the first is duplicated, the second closed. *)
Definition demo_fds : outcome fds :=
  '(s, _) ← __set_fd_properties Some 1 true (Some 100) fds_start 5 [97] 0;
  '(s, _) ← __set_fd_properties Some 1 true (Some 200) s 6 [98] O_TEMPORARY;
  s ← __dup_fd_properties s 5 7;
  '(s, _) ← __clear_fd_properties s 6;
  Done s.

Lemma fd_refcounts_witness :
  exists s t o, demo_fds = Done s /\ fd_tab s = Some t /\ objs s !! 100 = Some o /\
    ref_count o = 2 /\
    __clear_fd_properties s 7 =
      Done (put_at_tab (set_obj s 100 (set_count o (2 - 1))) 7 None, 0).
Proof.
  destruct demo_fds as [s|] eqn:E; [|vm_compute in E; discriminate].
  assert (Ht : exists t, fd_tab s = Some t /\ t !! Z.to_nat 7 = Some (Some 100) /\
    slots t 100 = 2).
  { assert (Hx : (s ← demo_fds; Done (match fd_tab s with
      | Some t => bool_decide (t !! Z.to_nat 7 = Some (Some 100) /\ slots t 100 = 2)
      | None => false end)) = Done true) by (vm_compute; reflexivity).
    rewrite E, bind_Done in Hx. destruct (fd_tab s) as [t|]; [|discriminate].
    injection Hx as Hx. apply bool_decide_eq_true_1 in Hx. by exists t. }
  destruct Ht as (t & Ht & Hp & Hs).
  assert (Hr : rtc fd_step fds_start s).
  { unfold demo_fds in E. inv_done E. destruct r as [s1 r1]. inv_done E. destruct r as [s2 r2].
    inv_done E. inv_done E. destruct r0 as [s4 r4]. injection E as <-.
    eapply rtc_l; [eapply (step_set _ Some 1 true (Some 100)); [|exact E0]; by intros p [= <-]|].
    eapply rtc_l; [eapply (step_set _ Some 1 true (Some 200)); [|exact E1]|].
    - intros p [= <-]. vm_compute in E0. by injection E0 as <- <-.
    - eapply rtc_l; [eapply (step_dup _ 5 7); [|exact E2]|].
      + vm_compute in E0. injection E0 as <- <-. vm_compute in E1. by injection E1 as <- <-.
      + apply rtc_once. by eapply step_clear. }
  destruct (fd_refcounts s t 7 100 Hr Ht Hp ltac:(lia)) as (o & Ho & Hc & _ & Hgt & _).
  exists s, t, o. rewrite Hs in *. split_and!; [done|done|done|done|]. apply Hgt. lia.
Defined.
