(* ===== verification/FileClose.v ===== *)
(** * Closing descriptors (src/src/libc/dos/io/_close.c and its users)

    [_close] brings the table of extensions and the properties of descriptors
    together; the two cleanups that run at exit, [exit_cleanup] of fd_props.c and
    [__FSEXT_close_all] of fsext.c, are loops over it. *)

From stdpp Require Import base gmap list numbers.
From Stdlib Require Import ZArith Lia.
From S2P Require Import Prelude FsExt FdProps.

Open Scope Z_scope.
Open Scope c_scope.

Definition EBADF : Z := 6.

(** What the functions of this file share. *)
Record io := mk_io { io_fsext : fsext_state; io_fds : fds; io_errno : Z }.

Section Close.
(** [__bss_count]; what an extension does with a close request (its function, the
    descriptor; the result where it handled the request); whether DOS closes a
    handle. *)
Context (bss : Z) (ext : io -> Z -> Z -> io * option Z) (dos_close : Z -> bool).

(** [__FSEXT_set_function(handle, 0)], whose result [_close] ignores. *)
Definition drop_function (s : io) (handle : Z) : outcome io :=
  '(fx, _) ← __FSEXT_set_function bss true (io_fsext s) handle 0;
  Done (mk_io fx (io_fds s) (io_errno s)).

Definition _close (s : io) (handle : Z) : outcome (io * Z) :=
  '(fx, func) ← __FSEXT_get_function bss (io_fsext s) handle;
  let s := mk_io fx (io_fds s) (io_errno s) in
  '(s, done) ← (if negb (func =? 0) then
      let '(s, rv) := ext s func handle in
      s ← drop_function s handle;
      Done (s, rv)
    else Done (s, None));
  match done with
  | Some rv => Done (s, rv)
  | None =>
      if negb (dos_close handle) then Done (mk_io (io_fsext s) (io_fds s) EBADF, -1)
      else
        has ← __has_fd_properties (io_fds s) handle;
        if has : bool then
          '(f, _) ← __clear_fd_properties (io_fds s) handle;
          Done (mk_io (io_fsext s) f (io_errno s), 0)
        else Done (s, 0)
  end.

Definition exit_cleanup (s : io) : outcome io :=
  match fd_tab (io_fds s), active_fds (io_fds s) with
  | None, _ | _, None => Done s
  | Some _, Some _ =>
      loop 256 (fun '(s, fd) =>
        if fd <? 255 then
          p ← tab_at (io_fds s) fd;
          match p with
          | Some _ => '(s, _) ← _close s fd; Done (inl (s, fd + 1))
          | None => Done (inl (s, fd + 1))
          end
        else Done (inr s)) (s, 0)
  end.

Definition set_fsext (s : io) (fx : fsext_state) : io := mk_io fx (io_fds s) (io_errno s).

Definition __FSEXT_close_all (s : io) : outcome io :=
  let fx := io_fsext s in
  match fsext_list fx with
  | None => Done s
  | Some _ =>
      let s := set_fsext s (mk_fsext (num_fds fx) (fsext_list fx) (init_count fx)
                              (null_dev_fd fx) false) in
      s ← loop (S (Z.to_nat (num_fds fx))) (fun '(s, i) =>
            if i <? num_fds (io_fsext s) then
              e ← entry_get (io_fsext s) i;
              if negb (fe_function e =? 0) then
                '(s, _) ← _close s i; Done (inl (s, i + 1))
              else Done (inl (s, i + 1))
            else Done (inr s)) (s, 0);
      let fx := io_fsext s in
      Done (set_fsext s (mk_fsext (num_fds fx) None (init_count fx) (null_dev_fd fx)
                           (exit_hook fx)))
  end.
End Close.

(** ** Theorems *)

(** A close of a descriptor that no extension serves. *)
Lemma close_plain bss ext dos s fd :
  __FSEXT_get_function bss (io_fsext s) fd = Done (io_fsext s, 0) -> dos fd = true ->
  __has_fd_properties (io_fds s) fd = Done true ->
  _close bss ext dos s fd =
  ('(f, _) ← __clear_fd_properties (io_fds s) fd;
   Done (mk_io (io_fsext s) f (io_errno s), 0)).
Proof.
  intros H1 H2 H3. unfold _close. rewrite H1, bind_Done. simpl. rewrite H2. simpl.
  by rewrite H3, bind_Done.
Qed.

(** A descriptor of an extension that answers the close request: the answer is the
    result, the entry of the table is reset, DOS is not asked. *)
Theorem close_extension bss ext dos s fd rv f :
  init_count (io_fsext s) = bss -> fsext_ok (io_fsext s) -> 0 <= fd < num_fds (io_fsext s) ->
  fe_function (entry_of (io_fsext s) fd) = f -> f <> 0 -> ext s f fd = (s, Some rv) ->
  exists s', _close bss ext dos s fd = Done (s', rv) /\
    io_fds s' = io_fds s /\ fsext_ok (io_fsext s') /\
    (forall d, entry_of (io_fsext s') d =
       if decide (d = fd) then mk_entry 0 (fe_data (entry_of (io_fsext s) fd))
       else entry_of (io_fsext s) d) /\
    __FSEXT_get_function bss (io_fsext s') fd = Done (io_fsext s', 0).
Proof.
  intros Hi Hok Hfd Hf Hnz Hext. destruct s as [fx fp er]. simpl in *.
  destruct (entry_in fx fd Hok Hfd) as [Hget Hset].
  destruct (Hset (mk_entry 0 (fe_data (entry_of fx fd)))) as (fx' & Es & Hok' & Hi' & Hn' & He').
  assert (Eg : forall st, init_count st = bss -> num_fds st = num_fds fx ->
    __FSEXT_get_function bss st fd = (e ← entry_get st fd; Done (st, fe_function e))).
  { intros st Hst Hnum. unfold __FSEXT_get_function, init. rewrite Hst, Z.eqb_refl, Hnum.
    by rewrite (proj2 (Z.ltb_ge fd 0)), (proj2 (Z.leb_gt _ fd)) by lia. }
  assert (Ed : drop_function bss (mk_io fx fp er) fd = Done (mk_io fx' fp er)).
  { unfold drop_function, __FSEXT_set_function, grow_table, init. simpl.
    rewrite Hi, Z.eqb_refl, (proj2 (Z.ltb_ge fd 0)), (proj2 (Z.leb_gt _ fd)) by lia.
    rewrite bind_Done. simpl. by rewrite Hget, bind_Done, Es. }
  exists (mk_io fx' fp er). simpl. split_and!; [|done|done|done|].
  - unfold _close. simpl. rewrite Eg by done. rewrite Hget, !bind_Done. cbn beta iota.
    rewrite Hf, (proj2 (Z.eqb_neq f 0) Hnz). cbn [negb io_fds io_errno]. rewrite Hext, Ed.
    by rewrite bind_Done.
  - rewrite Eg by (congruence || done). destruct (entry_in fx' fd Hok') as [-> _]; [lia|].
    rewrite bind_Done, He'. by rewrite decide_True.
Qed.

(** An extension that answers every close with 7. *)
Definition demo_ext (s : io) (f handle : Z) : io * option Z := (s, Some 7).

Definition demo_io : io :=
  mk_io (mk_fsext 256 (Some (<[5%nat := mk_entry 77 3]> (replicate 256 no_entry))) 0 (-1) true)
    fds_start 0.

Lemma close_extension_witness :
  exists s', _close 0 demo_ext (fun _ => false) demo_io 5 = Done (s', 7) /\
    __FSEXT_get_function 0 (io_fsext s') 5 = Done (io_fsext s', 0).
Proof.
  destruct (close_extension 0 demo_ext (fun _ => false) demo_io 5 7 77)
    as (s' & H1 & _ & _ & _ & H2);
    [done|by constructor|done|done|done|done|by exists s'].
Defined.

(** The list of objects in use does not survive the close of the file that was opened
    last: [remove_list] reads the successor of the head after it has cleared it. So
    the list is empty while other descriptors still have their properties, and the
    cleanup at exit returns at once: temporary files that are still open are not
    removed. *)
Theorem close_newest_forgets bss ext dos s fd p o :
  rtc fd_step fds_start (io_fds s) ->
  tab_at (io_fds s) fd = Done (Some p) -> objs (io_fds s) !! p = Some o -> ref_count o = 1 ->
  pflags o .& FILE_DESC_TEMPORARY = 0 -> active_fds (io_fds s) = Some p ->
  __FSEXT_get_function bss (io_fsext s) fd = Done (io_fsext s, 0) -> dos fd = true ->
  exists s', _close bss ext dos s fd = Done (s', 0) /\ active_fds (io_fds s') = None /\
    fd_tab (io_fds s') = (fun t => <[Z.to_nat fd := None]> t) <$> fd_tab (io_fds s) /\
    exit_cleanup bss ext dos s' = Done s'.
Proof.
  intros Hr Et Ho Hc Hf Ha Hg Hd. destruct (fds_ok_reach _ _ Hr fds_ok_start) as [Hok Hcl].
  destruct (clear_last _ fd p o Hcl Et Ho Hc Hf) as (f' & Ec & Ht & _ & _ & _ & Ha').
  rewrite close_plain; [|done|done|].
  - rewrite Ec, bind_Done. eexists. split; [reflexivity|]. simpl. rewrite Ht.
    split_and!; [by apply Ha'|done|]. unfold exit_cleanup. simpl. rewrite (Ha' Ha).
    by destruct (fmap _ _).
  - destruct (tab_at_Some _ _ _ Et) as (t & Ht0 & Hfd & _). unfold __has_fd_properties.
    rewrite Ht0, (proj2 (Z.ltb_ge fd 0)) by lia. simpl. by rewrite Et.
Qed.

(** A temporary file is opened as 5, then a file as 6, which is closed again. *)
Definition two_open : outcome fds :=
  '(s, _) ← __set_fd_properties Some 1 true (Some 100) fds_start 5 [97] O_TEMPORARY;
  '(s, _) ← __set_fd_properties Some 1 true (Some 200) s 6 [98] 0;
  Done s.

Lemma two_open_reach s : two_open = Done s -> rtc fd_step fds_start s.
Proof.
  unfold two_open. intros E. inv_done E. destruct r as [s1 r1]. inv_done E.
  destruct r as [s2 r2]. injection E as <-.
  eapply rtc_l; [eapply (step_set _ Some 1 true (Some 100)); [|exact E0]; by intros p [= <-]|].
  apply rtc_once. eapply (step_set _ Some 1 true (Some 200)); [|exact E1].
  intros p [= <-]. unfold fds_start in E0. vm_compute in E0. by injection E0 as <- <-.
Qed.

(** What [two_open] gives, as far as the theorem asks. *)
Lemma two_open_state :
  exists s o, two_open = Done s /\ tab_at s 6 = Done (Some 200) /\ tab_at s 5 = Done (Some 100) /\
    objs s !! 200 = Some o /\ ref_count o = 1 /\ pflags o .& FILE_DESC_TEMPORARY = 0 /\
    active_fds s = Some 200 /\ removed s = [].
Proof.
  destruct two_open as [s|] eqn:E; [|vm_compute in E; discriminate].
  vm_compute in E. injection E as <-. eexists _, _. split; [reflexivity|].
  by split_and!.
Qed.

Lemma close_newest_forgets_witness :
  exists s s', two_open = Done (io_fds s) /\ io_errno s = 0 /\
    _close 0 demo_ext (fun _ => true) s 6 = Done (s', 0) /\
    exit_cleanup 0 demo_ext (fun _ => true) s' = Done s'.
Proof.
  destruct two_open_state as (f & o & E & H6 & _ & Ho & Hc & Hf & Ha & _).
  set (s := mk_io (mk_fsext 0 None 0 (-1) true) f 0).
  destruct (close_newest_forgets 0 demo_ext (fun _ => true) s 6 200 o)
    as (s' & H1 & _ & _ & H2); [by apply two_open_reach|done|done|done|done|done|done|done|].
  by exists s, s'.
Defined.

(** After the cleanup of the extensions [fsext_list] is NULL and [num_fds] still the
    size of the table that was freed: the next lookup of such a descriptor
    dereferences NULL. *)
Theorem close_all_dangles bss ext dos s s' fd :
  is_Some (fsext_list (io_fsext s)) ->
  __FSEXT_close_all bss ext dos s = Done s' -> init_count (io_fsext s') = bss ->
  0 <= fd < num_fds (io_fsext s') ->
  __FSEXT_get_function bss (io_fsext s') fd = Fail UB.
Proof.
  intros [l Hl] H Hi Hfd. unfold __FSEXT_close_all in H. rewrite Hl in H.
  inv_done H. injection H as <-. simpl in Hi, Hfd.
  unfold __FSEXT_get_function, init. simpl. rewrite Hi, Z.eqb_refl. simpl.
  by rewrite (proj2 (Z.ltb_ge fd 0)), (proj2 (Z.leb_gt _ fd)) by lia.
Qed.

Lemma close_all_dangles_witness :
  exists s', __FSEXT_close_all 0 demo_ext (fun _ => true) demo_io = Done s' /\
    __FSEXT_get_function 0 (io_fsext s') 5 = Fail UB.
Proof.
  destruct (__FSEXT_close_all 0 demo_ext (fun _ => true) demo_io) as [s'|] eqn:E;
    [|vm_compute in E; discriminate].
  assert (H : init_count (io_fsext s') = 0 /\ num_fds (io_fsext s') = 256).
  { vm_compute in E. by injection E as <-. }
  destruct H as [H1 H2]. exists s'. split; [done|].
  apply (close_all_dangles 0 demo_ext (fun _ => true) demo_io); [by eexists|done|done|].
  rewrite H2. lia.
Defined.
