(* ===== verification/GetOpt.v ===== *)
(** * Command line options (src/src/libc/posix/unistd/getopt.c)

    [getopt] walks over the arguments; a pointer into an argument is the rest of its
    characters, [place] is the rest of the cluster of options that is being read. *)

From stdpp Require Import base gmap list numbers.
From Stdlib Require Import ZArith Lia.
From S2P Require Import Prelude.

Open Scope Z_scope.

Definition BADOPT : Z := 63.
Definition BADARG : Z := 58.
Definition dash : Z := 45.
Definition colon : Z := 58.

(** What is printed on stderr: the program's name and the option. *)
Inductive complaint :=
  | IllegalOption (name : list Z) (opt : Z)
  | NeedsArgument (name : list Z) (opt : Z).

(** The variables of the interface, the static [place], and stderr. *)
Record optstate := mk_opt {
  opterr : Z; optind : Z; optopt : Z; optarg : option (list Z);
  place : list Z; stderr : list complaint }.

(** [*s] and [s[0]] for a string without its terminator. *)
Definition first (s : list Z) : Z := match s with c :: _ => c | [] => 0 end.

(** The program's name without its directories: [strrchr] of [nargv[0]]. *)
Fixpoint after_slash (s : list Z) : option (list Z) :=
  match s with
  | [] => None
  | c :: s' => match after_slash s' with
               | Some r => Some r
               | None => if c =? 47 then Some s' else None
               end
  end.
Definition prog_name (nargv : list (list Z)) : outcome (list Z) :=
  match nargv with
  | [] => Fail UB
  | n :: _ => Done (default n (after_slash n))
  end.

Definition arg (nargv : list (list Z)) (i : Z) : outcome (list Z) :=
  if i <? 0 then Fail UB
  else match nargv !! Z.to_nat i with Some s => Done s | None => Fail UB end.

Definition set_place (st : optstate) (i : Z) (p : list Z) : optstate :=
  mk_opt (opterr st) i (optopt st) (optarg st) p (stderr st).

(** The first block: where [place] is at the end of an argument, go to the next one.
    [inr] is an early return of -1. *)
Definition next_cluster (nargc : Z) (nargv : list (list Z)) (st : optstate)
  : outcome (optstate + optstate) :=
  match place st with
  | _ :: _ => Done (inl st)
  | [] =>
      if nargc <=? optind st then Done (inr (set_place st (optind st) []))
      else
        s ← arg nargv (optind st);
        if negb (first s =? dash) then Done (inr (set_place st (optind st) []))
        else match tail s with
             | [] => Done (inl (set_place st (optind st) s))
             | c :: _ =>
                 if c =? dash then Done (inr (set_place st (optind st + 1) []))
                 else Done (inl (set_place st (optind st) (tail s)))
             end
  end.

(** An option that is not in the list. *)
Definition bad_option (nargv : list (list Z)) (ostr : list Z) (st : optstate)
  : outcome (optstate * Z) :=
  if optopt st =? dash then Done (st, -1)
  else
    let i := match place st with [] => optind st + 1 | _ => optind st end in
    if negb (opterr st =? 0) && negb (first ostr =? colon) then
      p ← prog_name nargv;
      Done (mk_opt (opterr st) i (optopt st) (optarg st) (place st)
              (stderr st ++ [IllegalOption p (optopt st)]), BADOPT)
    else Done (mk_opt (opterr st) i (optopt st) (optarg st) (place st) (stderr st), BADOPT).

(** An option that has an argument. *)
Definition with_argument (nargc : Z) (nargv : list (list Z)) (ostr : list Z) (st : optstate)
  : outcome (optstate * Z) :=
  match place st with
  | _ :: _ =>
      Done (mk_opt (opterr st) (optind st + 1) (optopt st) (Some (place st)) [] (stderr st),
            optopt st)
  | [] =>
      let i := optind st + 1 in
      if nargc <=? i then
        p ← prog_name nargv;
        let err := if negb (opterr st =? 0) && negb (first ostr =? colon)
                   then [NeedsArgument p (optopt st)] else [] in
        Done (mk_opt (opterr st) i (optopt st) (optarg st) [] (stderr st ++ err),
              if first ostr =? colon then BADARG else BADOPT)
      else
        a ← arg nargv i;
        Done (mk_opt (opterr st) (i + 1) (optopt st) (Some a) [] (stderr st), optopt st)
  end.

(** [optopt] is an [int], the characters are signed. *)
Definition getopt (nargc : Z) (nargv : list (list Z)) (ostr : list Z) (st : optstate)
  : outcome (optstate * Z) :=
  r ← next_cluster nargc nargv st;
  match r with
  | inr st => Done (st, -1)
  | inl st =>
      match place st with
      | [] => Fail UB
      | c :: rest =>
          let st := mk_opt (opterr st) (optind st) (wrap_s 8 c) (optarg st) rest (stderr st) in
          let oli := find_index (Z.eqb c) ostr in
          match (if c =? colon then None else oli) with
          | None => bad_option nargv ostr st
          | Some i =>
              if negb (default 0 (ostr !! S i) =? colon) then
                let i := match rest with [] => optind st + 1 | _ => optind st end in
                Done (mk_opt (opterr st) i (optopt st) None rest (stderr st), optopt st)
              else with_argument nargc nargv ostr st
          end
      end
  end.

(** The loop that programs write around it, [while ((c = getopt(...)) != -1)]: the
    options with their arguments, and the state at the end. *)
Fixpoint getopt_all (fuel : nat) (nargc : Z) (nargv : list (list Z)) (ostr : list Z)
    (st : optstate) : outcome (list (Z * option (list Z)) * optstate) :=
  match fuel with
  | O => Fail NoFuel
  | S fuel =>
      '(st, c) ← getopt nargc nargv ostr st;
      if c =? -1 then Done ([], st)
      else
        '(l, st') ← getopt_all fuel nargc nargv ostr st;
        Done ((c, optarg st) :: l, st')
  end.

(** The variables when a program starts. *)
Definition opt_start : optstate := mk_opt 1 1 0 None [] [].

(** ** The loop ends *)

Fixpoint sizes (l : list (list Z)) : nat :=
  match l with [] => O | s :: l => S (length s + sizes l) end.

(** What is still to be read. *)
Definition unread (nargv : list (list Z)) (st : optstate) : nat :=
  match place st with
  | [] => sizes (drop (Z.to_nat (optind st)) nargv)
  | p => length p + sizes (drop (S (Z.to_nat (optind st))) nargv)
  end.

Lemma sizes_drop i s nargv :
  nargv !! i = Some s -> sizes (drop i nargv) = S (length s + sizes (drop (S i) nargv)).
Proof. intros H. by rewrite (drop_S _ _ _ H). Qed.

Lemma sizes_drop_le i j nargv : (i <= j)%nat -> (sizes (drop j nargv) <= sizes (drop i nargv))%nat.
Proof.
  intros Hij. replace (drop j nargv) with (drop (j - i) (drop i nargv)).
  - generalize (drop i nargv) as l. generalize (j - i)%nat as k. clear.
    intros k l. revert k. induction l as [|s l IH]; intros [|k]; simpl; [lia|lia|lia|].
    specialize (IH k). lia.
  - rewrite drop_drop. f_equal. lia.
Qed.

Lemma arg_Done nargv i : 0 <= i < Z.of_nat (length nargv) ->
  exists s, arg nargv i = Done s /\ nargv !! Z.to_nat i = Some s.
Proof.
  intros Hi. destruct (lookup_lt_is_Some_2 nargv (Z.to_nat i)) as [s Hs]; [lia|].
  exists s. unfold arg. by rewrite (proj2 (Z.ltb_ge i 0)), Hs by lia.
Qed.

(** The first block finds a cluster, which is not empty and shrinks what is unread,
    or the end. *)
Lemma next_cluster_spec nargv st :
  0 <= optind st ->
  match next_cluster (Z.of_nat (length nargv)) nargv st with
  | Done (inl st') => exists c rest, place st' = c :: rest /\ optind st' = optind st /\
      (unread nargv st' <= unread nargv st)%nat
  | Done (inr st') => 0 <= optind st'
  | Fail _ => False
  end.
Proof.
  intros Hi. unfold next_cluster. destruct (place st) as [|c rest] eqn:Ep; [|eauto].
  destruct (Z.leb_spec (Z.of_nat (length nargv)) (optind st)) as [|Hlt]; [done|].
  destruct (arg_Done nargv (optind st)) as (s & -> & Hs); [lia|]. rewrite bind_Done.
  pose proof (sizes_drop _ _ _ Hs) as Hd.
  destruct s as [|c s]; [done|]. simpl. destruct (Z.eqb_spec c dash) as [->|]; [|done]. simpl.
  destruct s as [|c s].
  - exists dash, []. split_and!; [done|done|]. unfold unread. simpl. rewrite Ep, Hd.
    simpl. lia.
  - destruct (c =? dash); [simpl; lia|]. exists c, s. split_and!; [done|done|].
    unfold unread. simpl. rewrite Ep, Hd. simpl. lia.
Qed.

(** Every call returns, and reads something or ends the loop. *)
Lemma getopt_step nargv ostr st :
  nargv <> [] -> 0 <= optind st ->
  exists st' c, getopt (Z.of_nat (length nargv)) nargv ostr st = Done (st', c) /\
    0 <= optind st' /\ (c = -1 \/ (unread nargv st' < unread nargv st)%nat).
Proof.
  intros Hne Hi. unfold getopt. pose proof (next_cluster_spec nargv st Hi) as Hn.
  destruct (next_cluster _ nargv st) as [[st1|st1]|]; [|by eauto 10|done].
  destruct Hn as (c & rest & Hp & Ho & Hu). rewrite bind_Done, Hp.
  assert (Hprog : exists p, prog_name nargv = Done p) by (destruct nargv; [done|by eexists]).
  destruct Hprog as [p Hprog].
  assert (Hu1 : (S (length rest) + sizes (drop (S (Z.to_nat (optind st))) nargv)
    <= unread nargv st)%nat).
  { etrans; [|exact Hu]. unfold unread. rewrite Hp, Ho. done. }
  clear Hu. revert Hu1. generalize (unread nargv st) as u. intros u Hu1.
  assert (Hnext : forall er oo oa se, let st' := mk_opt er
      (match rest with [] => optind st1 + 1 | _ => optind st1 end) oo oa rest se in
    0 <= optind st' /\ (unread nargv st' < u)%nat).
  { intros er oo oa se. simpl. unfold unread. destruct rest; simpl in *; split; try lia.
    - rewrite Ho. replace (Z.to_nat (optind st + 1)) with (S (Z.to_nat (optind st))) by lia. lia.
    - rewrite Ho. lia. }
  cbn zeta. destruct (if c =? colon then None else _) as [i|].
  - destruct (negb (default 0 (ostr !! S i) =? colon)).
    + simpl. destruct (Hnext (opterr st1) (wrap_s 8 c) None (stderr st1)).
      eexists _, _. split; [reflexivity|]. by split; [|right].
    + unfold with_argument. simpl. destruct rest as [|d rest].
      * destruct (Z.leb_spec (Z.of_nat (length nargv)) (optind st1 + 1)) as [|Hlt].
        -- rewrite Hprog, bind_Done. eexists _, _. split; [reflexivity|]. simpl.
           split; [lia|right]. unfold unread. simpl. simpl in Hu1. rewrite Ho.
           replace (Z.to_nat (optind st + 1)) with (S (Z.to_nat (optind st))) by lia. lia.
        -- destruct (arg_Done nargv (optind st1 + 1)) as (a & -> & _); [lia|].
           rewrite bind_Done. eexists _, _. split; [reflexivity|]. simpl.
           split; [lia|right]. unfold unread. simpl. simpl in Hu1. rewrite Ho.
           pose proof (sizes_drop_le (S (Z.to_nat (optind st))) (Z.to_nat (optind st + 1 + 1)) nargv).
           lia.
      * eexists _, _. split; [reflexivity|]. simpl. split; [lia|right]. unfold unread.
        simpl. simpl in Hu1. rewrite Ho.
        replace (Z.to_nat (optind st + 1)) with (S (Z.to_nat (optind st))) by lia. lia.
  - unfold bad_option. simpl. destruct (wrap_s 8 c =? dash).
    + eexists _, _. split; [reflexivity|]. simpl. split; [lia|by left].
    + destruct (negb (opterr st1 =? 0) && negb (first ostr =? colon)).
      * rewrite Hprog, bind_Done.
        destruct (Hnext (opterr st1) (wrap_s 8 c) (optarg st1)
          (stderr st1 ++ [IllegalOption p (wrap_s 8 c)])).
        eexists _, _. split; [reflexivity|]. by split; [|right].
      * destruct (Hnext (opterr st1) (wrap_s 8 c) (optarg st1) (stderr st1)).
        eexists _, _. split; [reflexivity|]. by split; [|right].
Qed.

Lemma getopt_all_total nargv ostr st fuel :
  nargv <> [] -> 0 <= optind st -> (unread nargv st < fuel)%nat ->
  exists l st', getopt_all fuel (Z.of_nat (length nargv)) nargv ostr st = Done (l, st').
Proof.
  intros Hne. revert st. induction fuel as [|fuel IH]; intros st Hi Hlt; [lia|]. simpl.
  destruct (getopt_step nargv ostr st Hne Hi) as (st1 & c & -> & Hi1 & Hc).
  rewrite bind_Done. destruct (Z.eqb_spec c (-1)) as [->|Hc1]; [by eauto|].
  destruct Hc as [|Hc]; [done|]. destruct (IH st1) as (l & st2 & ->); [done|lia|].
  rewrite bind_Done. by eauto.
Qed.

(** ** What a well formed command line means *)

(** An option without an argument and one with an argument, in the list [ostr]. *)
Definition listed (ostr : list Z) (c : Z) (with_arg : bool) : Prop :=
  0 < c < 128 /\ c <> dash /\ c <> colon /\
  exists i, find_index (Z.eqb c) ostr = Some i /\
    (default 0 (ostr !! S i) =? colon) = with_arg.

(** A cluster of options; one that ends with an option and its argument; one whose
    last option has its argument in the next word. *)
Inductive item :=
  | Flags (cs : list Z) (c : Z)
  | Attached (cs : list Z) (c : Z) (a : list Z)
  | Separate (cs : list Z) (c : Z) (a : list Z).

Definition render (it : item) : list (list Z) :=
  match it with
  | Flags cs c => [dash :: cs ++ [c]]
  | Attached cs c a => [dash :: cs ++ c :: a]
  | Separate cs c a => [dash :: cs ++ [c]; a]
  end.

Definition meaning (it : item) : list (Z * option (list Z)) :=
  match it with
  | Flags cs c => map (fun c => (c, None)) cs ++ [(c, None)]
  | Attached cs c a | Separate cs c a => map (fun c => (c, None)) cs ++ [(c, Some a)]
  end.

Definition item_ok (ostr : list Z) (it : item) : Prop :=
  match it with
  | Flags cs c => Forall (fun c => listed ostr c false) (cs ++ [c])
  | Attached cs c a =>
      Forall (fun c => listed ostr c false) cs /\ listed ostr c true /\ a <> []
  | Separate cs c a => Forall (fun c => listed ostr c false) cs /\ listed ostr c true
  end.

(** The words after the options: nothing, the word --, or a word that is not an
    option; how many words belong to the options. *)
Definition rest_ok (rest : list (list Z)) (n : Z) : Prop :=
  (n = 0 /\ match rest with [] => True | s :: _ => first s <> dash end) \/
  (n = 1 /\ exists ops, rest = [dash; dash] :: ops).

Section Calls.
Context (nargv : list (list Z)) (ostr : list Z).
Let nargc := Z.of_nat (length nargv).

(** Calls that return options. *)
Inductive calls : optstate -> list (Z * option (list Z)) -> optstate -> Prop :=
  | calls_nil st : calls st [] st
  | calls_cons st st1 c l st2 :
      getopt nargc nargv ostr st = Done (st1, c) -> c <> -1 -> calls st1 l st2 ->
      calls st ((c, optarg st1) :: l) st2.

Lemma calls_app st1 l1 st2 l2 st3 :
  calls st1 l1 st2 -> calls st2 l2 st3 -> calls st1 (l1 ++ l2) st3.
Proof. induction 1; intros; simpl; [done|econstructor; eauto]. Qed.

Lemma calls_all st l st1 st2 fuel l' st' :
  calls st l st1 -> getopt nargc nargv ostr st1 = Done (st2, -1) ->
  getopt_all fuel nargc nargv ostr st = Done (l', st') -> l' = l /\ st' = st2.
Proof.
  intros Hc He. revert fuel l'. induction Hc as [st|st st1' c l st3 Hg Hne Hc IH];
    intros [|fuel] l'; simpl; try done.
  - rewrite He, bind_Done. simpl. by intros [= <- <-].
  - rewrite Hg, bind_Done, (proj2 (Z.eqb_neq _ _) Hne).
    destruct (getopt_all fuel nargc nargv ostr st1') as [[l2 st4]|] eqn:E; [|done].
    rewrite bind_Done. intros [= <- <-]. destruct (IH He fuel l2 E) as [-> ->]. done.
Qed.

Lemma listed_char c b :
  listed ostr c b -> wrap_s 8 c = c /\ (c =? colon) = false /\ c <> -1.
Proof.
  intros (Hr & _ & Hc & _). split; [|split; [by apply Z.eqb_neq|lia]].
  apply wrap_s_small; [done|]. change (2 ^ (8 - 1)) with 128. lia.
Qed.

(** An option without argument inside a cluster. *)
Lemma flag_step st c rest :
  place st = c :: rest -> listed ostr c false ->
  exists st', getopt nargc nargv ostr st = Done (st', c) /\ optarg st' = None /\
    place st' = rest /\
    optind st' = match rest with [] => optind st + 1 | _ => optind st end.
Proof.
  intros Hp Hl. destruct (listed_char c false Hl) as (Hw & Hcol & _).
  destruct Hl as (_ & _ & _ & i & Hi & Hn). unfold getopt, next_cluster. rewrite Hp, bind_Done, Hp.
  cbn zeta. rewrite Hcol, Hi, Hn. simpl. rewrite Hw. eexists. by split_and!.
Qed.

Lemma flags_calls st cs rest :
  Forall (fun c => listed ostr c false) cs -> place st = cs ++ rest -> rest <> [] ->
  exists st', calls st (map (fun c => (c, None)) cs) st' /\ place st' = rest /\
    optind st' = optind st.
Proof.
  intros Hcs. revert st. induction Hcs as [|c cs Hc Hcs IH]; intros st Hp Hr.
  - exists st. split; [constructor|done].
  - destruct (flag_step st c (cs ++ rest) Hp Hc) as (st1 & Hg & Ha & Hp1 & Ho1).
    destruct (IH st1 Hp1 Hr) as (st2 & Hcalls & Hp2 & Ho2). exists st2. split_and!; [|done|].
    + simpl. replace (c, None) with (c, optarg st1) by (by rewrite Ha).
      econstructor; [done| |done]. by destruct (listed_char c false Hc) as (_ & _ & ?).
    + rewrite Ho2, Ho1. destruct (cs ++ rest) eqn:E; [|done].
      by apply app_eq_nil in E as [_ ->].
Qed.

(** An option with its argument. *)
Lemma arg_step st c rest a :
  place st = c :: rest -> listed ostr c true -> 0 <= optind st ->
  (rest <> [] /\ a = rest \/ rest = [] /\ nargv !! Z.to_nat (optind st + 1) = Some a) ->
  exists st', getopt nargc nargv ostr st = Done (st', c) /\ optarg st' = Some a /\
    place st' = [] /\ optind st' = match rest with [] => optind st + 2 | _ => optind st + 1 end.
Proof.
  intros Hp Hl Hi0 Ha. destruct (listed_char c true Hl) as (Hw & Hcol & _).
  destruct Hl as (_ & _ & _ & i & Hi & Hn). unfold getopt, next_cluster. rewrite Hp, bind_Done, Hp.
  cbn zeta. rewrite Hcol, Hi, Hn. cbn [negb]. unfold with_argument. cbn [place optind].
  destruct rest as [|d rest].
  - destruct Ha as [[? _]|[_ Ha]]; [done|]. pose proof (lookup_lt_Some _ _ _ Ha).
    rewrite (proj2 (Z.leb_gt _ _)) by (unfold nargc; lia). unfold arg.
    rewrite (proj2 (Z.ltb_ge _ _)), Ha, bind_Done by lia. simpl. rewrite Hw.
    eexists. split_and!; [done|done|done|simpl; lia].
  - destruct Ha as [[_ ->]|[? _]]; [|done]. simpl. rewrite Hw. eexists. by split_and!.
Qed.

(** The first call on a new cluster. *)
Lemma calls_open st c rest e l st' :
  place st = [] -> 0 <= optind st -> c <> dash ->
  nargv !! Z.to_nat (optind st) = Some (dash :: c :: rest) ->
  calls (set_place st (optind st) (c :: rest)) (e :: l) st' -> calls st (e :: l) st'.
Proof.
  intros Hp Hi Hc Hn H. inversion H as [|? st1 ? ? ? Hg Hne Hcalls]; subst.
  econstructor; [|done|done]. rewrite <- Hg. unfold getopt. f_equal. unfold next_cluster.
  rewrite Hp. pose proof (lookup_lt_Some _ _ _ Hn).
  rewrite (proj2 (Z.leb_gt _ _)) by (unfold nargc; lia). unfold arg.
  rewrite (proj2 (Z.ltb_ge _ _)), Hn, bind_Done by lia. simpl.
  by rewrite (proj2 (Z.eqb_neq _ _) Hc).
Qed.

Lemma cluster_calls st cs c rest l e st' :
  place st = [] -> 0 <= optind st -> Forall (fun c => listed ostr c false) cs ->
  (exists b, listed ostr c b) ->
  nargv !! Z.to_nat (optind st) = Some (dash :: cs ++ c :: rest) ->
  calls (set_place st (optind st) (cs ++ c :: rest)) (l ++ [e]) st' -> calls st (l ++ [e]) st'.
Proof.
  intros Hp Hi Hcs [b Hc] Hs Hcalls.
  assert (Hf : exists d r, cs ++ c :: rest = d :: r /\ d <> dash).
  { destruct Hcs as [|d cs (_ & Hd' & _) _]; [|by eexists _, _].
    destruct Hc as (_ & Hd' & _). by eexists _, _. }
  destruct Hf as (d & r & Ef & Hd'). rewrite Ef in *.
  destruct (l ++ [e]) as [|e' l'] eqn:El; [by apply app_nil in El as [_ ?]|].
  by eapply calls_open.
Qed.

Lemma calls_one st1 st2 c b x :
  getopt nargc nargv ostr st1 = Done (st2, c) -> listed ostr c b -> optarg st2 = x ->
  calls st1 [(c, x)] st2.
Proof.
  intros Hg Hb <-. econstructor; [done| |constructor].
  by destruct (listed_char c b Hb) as (_ & _ & ?).
Qed.

(** One item of the command line. *)
Lemma item_calls st it :
  place st = [] -> 0 <= optind st -> item_ok ostr it ->
  (exists tl, drop (Z.to_nat (optind st)) nargv = render it ++ tl) ->
  exists st', calls st (meaning it) st' /\ place st' = [] /\
    optind st' = optind st + Z.of_nat (length (render it)).
Proof.
  intros Hp Hi Hok [tl Hd].
  assert (Hn : forall k s, (render it ++ tl) !! k = Some s ->
    nargv !! (Z.to_nat (optind st) + k)%nat = Some s).
  { intros k s Hk. by rewrite <- lookup_drop, Hd. }
  destruct it as [cs c|cs c a|cs c a]; simpl in *.
  - apply Forall_app in Hok as [Hcs Hc]. apply Forall_cons_1 in Hc as [Hc _].
    destruct (flags_calls (set_place st (optind st) (cs ++ [c])) cs [c] Hcs eq_refl)
      as (st1 & H1 & Hp1 & Ho1); [done|].
    destruct (flag_step st1 c [] Hp1 Hc) as (st2 & Hg & Ha & Hp2 & Ho2). simpl in Ho1.
    exists st2. split_and!; [|done|rewrite Ho2, Ho1; lia].
    eapply (cluster_calls st cs c []); [done|done|done|by eexists| |
      eapply calls_app; [exact H1|by eapply calls_one]].
    by rewrite <- (Nat.add_0_r (Z.to_nat (optind st))); apply Hn.
  - destruct Hok as (Hcs & Hc & Hne).
    destruct (flags_calls (set_place st (optind st) (cs ++ c :: a)) cs (c :: a) Hcs eq_refl)
      as (st1 & H1 & Hp1 & Ho1); [done|]. simpl in Ho1.
    destruct (arg_step st1 c a a Hp1 Hc) as (st2 & Hg & Ha & Hp2 & Ho2); [lia|by left|].
    exists st2. split_and!; [|done|rewrite Ho2, Ho1; destruct a; [done|lia]].
    eapply (cluster_calls st cs c a); [done|done|done|by eexists| |
      eapply calls_app; [exact H1|by eapply calls_one]].
    by rewrite <- (Nat.add_0_r (Z.to_nat (optind st))); apply Hn.
  - destruct Hok as (Hcs & Hc).
    destruct (flags_calls (set_place st (optind st) (cs ++ [c])) cs [c] Hcs eq_refl)
      as (st1 & H1 & Hp1 & Ho1); [done|]. simpl in Ho1.
    destruct (arg_step st1 c [] a Hp1 Hc) as (st2 & Hg & Ha & Hp2 & Ho2); [lia| |].
    { right. split; [done|]. rewrite Ho1. specialize (Hn 1%nat a eq_refl).
      by replace (Z.to_nat (optind st + 1)) with (Z.to_nat (optind st) + 1)%nat by lia. }
    exists st2. split_and!; [|done|rewrite Ho2, Ho1; lia].
    eapply (cluster_calls st cs c []); [done|done|done|by eexists| |
      eapply calls_app; [exact H1|by eapply calls_one]].
    by rewrite <- (Nat.add_0_r (Z.to_nat (optind st))); apply Hn.
Qed.

Lemma items_calls st its rest :
  place st = [] -> 0 <= optind st -> Forall (item_ok ostr) its ->
  drop (Z.to_nat (optind st)) nargv = mjoin (map render its) ++ rest ->
  exists st', calls st (mjoin (map meaning its)) st' /\ place st' = [] /\
    optind st' = optind st + Z.of_nat (length (mjoin (map render its))).
Proof.
  intros Hp Hi Hok. revert st Hp Hi. induction Hok as [|it its Hit Hits IH]; intros st Hp Hi Hd.
  - exists st. split_and!; [constructor|done|simpl; lia].
  - simpl in Hd. rewrite <- app_assoc in Hd.
    destruct (item_calls st it Hp Hi Hit) as (st1 & H1 & Hp1 & Ho1); [by eexists|].
    destruct (IH st1 Hp1) as (st2 & H2 & Hp2 & Ho2); [lia| |].
    { rewrite Ho1. replace (Z.to_nat _) with (Z.to_nat (optind st) + length (render it))%nat by lia.
      by rewrite <- drop_drop, Hd, drop_app_length. }
    exists st2. simpl. rewrite length_app. split_and!; [by eapply calls_app|done|lia].
Qed.

(** The call that finds the end of the options. *)
Lemma end_step st rest n :
  place st = [] -> 0 <= optind st -> drop (Z.to_nat (optind st)) nargv = rest -> rest_ok rest n ->
  exists st', getopt nargc nargv ostr st = Done (st', -1) /\ optind st' = optind st + n.
Proof.
  intros Hp Hi Hd Hr. unfold getopt, next_cluster. rewrite Hp.
  destruct (Z.leb_spec nargc (optind st)) as [Hle|Hlt].
  - rewrite drop_ge in Hd by (unfold nargc in Hle; lia).
    destruct Hr as [[-> _]|(_ & ops & ->)]; [|done]. eexists. split; [reflexivity|]. simpl. lia.
  - destruct (arg_Done nargv (optind st)) as (s & -> & Hs); [unfold nargc in Hlt; lia|].
    rewrite bind_Done. rewrite (drop_S _ _ _ Hs) in Hd.
    destruct Hr as [[-> Hr]|(-> & ops & ->)].
    + subst rest. rewrite (proj2 (Z.eqb_neq _ _) Hr). eexists. split; [reflexivity|]. simpl. lia.
    + injection Hd as -> _. simpl. eexists. split; [reflexivity|]. done.
Qed.
End Calls.

(** C37. A command line of clusters of options, arguments in the same or the next word, and
    other words after them is read back: the loop around [getopt] gives exactly the
    options and arguments in their order, ends (with as much fuel as there are characters), and leaves [optind] at the first
    word after the options, past a [--]. *)
Theorem getopt_roundtrip prog its rest n ostr :
  Forall (item_ok ostr) its -> rest_ok rest n ->
  let nargv := prog :: mjoin (map render its) ++ rest in
  exists st', getopt_all (S (sizes nargv)) (Z.of_nat (length nargv)) nargv ostr opt_start =
    Done (mjoin (map meaning its), st') /\
    optind st' = 1 + Z.of_nat (length (mjoin (map render its))) + n.
Proof.
  intros Hits Hr nargv.
  destruct (getopt_all_total nargv ostr opt_start (S (sizes nargv))) as (l & st' & E);
    [done|done| |].
  { change (unread nargv opt_start) with (sizes (drop 1 nargv)).
    pose proof (sizes_drop_le 0 1 nargv). rewrite drop_0 in *. lia. }
  destruct (items_calls nargv ostr opt_start its rest) as (st1 & Hc & Hp & Ho); [done|done|done|done|].
  destruct (end_step nargv ostr st1 rest n Hp) as (st2 & He & Ho2); [rewrite Ho; simpl; lia| |done|].
  { rewrite Ho. simpl. replace (Z.to_nat _) with (S (length (mjoin (map render its)))) by lia.
    unfold nargv. simpl. by rewrite drop_app_length. }
  destruct (calls_all _ _ _ _ _ _ _ _ _ Hc He E) as [-> ->]. exists st2. split; [done|].
  rewrite Ho2, Ho. simpl. lia.
Qed.

(** [prog -v -ofile -x -n 5 -- y] with the list vxo:n: *)
Definition demo_items : list item :=
  [Flags [] 118; Attached [] 111 [102]; Separate [120] 110 [53]].
Definition demo_ostr : list Z := [118; 120; 111; 58; 110; 58].

Lemma getopt_roundtrip_witness :
  exists st', getopt_all 40 6 [[112]; [45; 118]; [45; 111; 102]; [45; 120; 110]; [53]; [121]]
      demo_ostr opt_start =
    Done ([(118, None); (111, Some [102]); (120, None); (110, Some [53])], st') /\ optind st' = 5.
Proof.
  destruct (getopt_roundtrip [112] demo_items [[121]] 0 demo_ostr) as (st' & E & Ho).
  - repeat constructor; try (by eexists); try done; by eexists.
  - left. done.
  - exists st'. split; [|exact Ho]. vm_compute in E. injection E as <-. reflexivity.
Defined.

(** The loop around [getopt] ends after at most as many calls as the command line has
    characters and words, whatever the command line, the list of options and the
    state it starts in, and no call faults. *)
Theorem getopt_terminates nargv ostr st :
  nargv <> [] -> 0 <= optind st ->
  exists l st', getopt_all (S (unread nargv st)) (Z.of_nat (length nargv)) nargv ostr st =
    Done (l, st').
Proof. intros Hne Hi. apply getopt_all_total; [done|done|lia]. Qed.

Lemma getopt_terminates_witness :
  exists l st', getopt_all (S (unread [[112]; [45; 113; 45]] opt_start)) 2 [[112]; [45; 113; 45]]
    demo_ostr opt_start = Done (l, st').
Proof. apply (getopt_terminates [[112]; [45; 113; 45]] demo_ostr opt_start); done. Defined.
