(* ===== verification/Env.v ===== *)
(** * The environment

    src/src/libc/ansi/stdlib/getenv.c, src/src/libc/compat/stdlib/putenv.c,
    src/src/libc/compat/v1/setenv.c, src/src/libc/posix/stdlib/unsetenv.c: the array
    of strings NAME=value that [_environ] points at, grown in steps of ten. *)

From Stdlib Require Import String.
From stdpp Require Import base gmap list numbers.
From Stdlib Require Import ZArith Lia.
From S2P Require Import Prelude.

Open Scope Z_scope.

Definition ENOMEM : Z := 25.
Definition EINVAL : Z := 14.
Definition eq_sign : Z := 61.

(** An element of the array: NULL, not yet written, or a string. *)
Inductive cell := Null | Junk | Str (s : list Z).

#[export] Instance cell_eq_dec : EqDecision cell.
Proof. solve_decision. Defined.

(** [_environ] with its address, the static variables of putenv.c, and errno. *)
Record envs := mk_env {
  environ : option (Z * list cell);
  prev_environ : option Z;
  ecount : Z;
  emax : Z;
  putenv_bss_count : Z;
  environ_changed : Z;
  env_errno : Z }.

(** *** getenv *)

(** The walk over one entry; what follows the equals sign if the name is the
    entry's. *)
Fixpoint entry_value (ep np : list Z) : option (list Z) :=
  match np with
  | [] => match ep with c :: v => if c =? eq_sign then Some v else None | [] => None end
  | n :: np' =>
      match ep with
      | e :: ep' => if (e =? n) && negb (n =? eq_sign) then entry_value ep' np' else None
      | [] => None
      end
  end.

Fixpoint getenv_from (cells : list cell) (name : list Z) : outcome (option (list Z)) :=
  match cells with
  | Null :: _ => Done None
  | Str ep :: cells' =>
      match entry_value ep name with
      | Some v => Done (Some v)
      | None => getenv_from cells' name
      end
  | Junk :: _ | [] => Fail UB
  end.

Definition getenv (st : envs) (name : list Z) : outcome (option (list Z)) :=
  match environ st with None => Done None | Some (_, cells) => getenv_from cells name end.

(** *** putenv *)

(** [for (ecount=0; _environ[ecount]; ecount++);] *)
Fixpoint count_cells (cells : list cell) : outcome Z :=
  match cells with
  | Null :: _ => Done 0
  | Str _ :: cells' => n ← count_cells cells'; Done (n + 1)
  | Junk :: _ | [] => Fail UB
  end.

Definition bump (st : envs) : Z := wrap_u 32 (environ_changed st + 1).

(** The static counters are computed again after an unexec or where [_environ] was set
    to another array. *)
Definition recount (bss : Z) (st : envs) : outcome envs :=
  match environ st with
  | None => Fail UB
  | Some (id, cells) =>
      if negb (putenv_bss_count st =? bss) || negb (bool_decide (prev_environ st = Some id)) then
        n ← count_cells cells;
        let reset := negb (putenv_bss_count st =? bss) in
        Done (mk_env (environ st) (if reset then Some id else prev_environ st) n n
                (if reset then bss else putenv_bss_count st) (bump st) (env_errno st))
      else Done st
  end.

(** The entry that [val] is about: its first [nlen] characters agree, and where [val]
    has no equals sign ([whole]) an equals sign follows. *)
Fixpoint find_entry (cells : list cell) (name : list Z) (whole : bool)
  : outcome (option (nat * list Z)) :=
  match cells with
  | Null :: _ => Done None
  | Str e :: cells' =>
      if prefixb name e
         && (negb whole || bool_decide (e !! length name = Some eq_sign))
      then Done (Some (O, e))
      else r ← find_entry cells' name whole;
           Done (match r with Some (i, e) => Some (S i, e) | None => None end)
  | Junk :: _ | [] => Fail UB
  end.

(** [_environ[i] = c] *)
Definition put_cell (cells : list cell) (i : Z) (c : cell) : outcome (list cell) :=
  if (0 <=? i) && (i <? Z.of_nat (length cells)) then Done (<[Z.to_nat i := c]> cells)
  else Fail UB.

Definition set_cells (st : envs) (id : Z) (cells : list cell) (n changed : Z) : envs :=
  mk_env (Some (id, cells)) (prev_environ st) n (emax st) (putenv_bss_count st) changed
    (env_errno st).

Definition no_memory (st : envs) : envs :=
  mk_env (environ st) (prev_environ st) (ecount st) (emax st) (putenv_bss_count st)
    (environ_changed st) ENOMEM.

(** Delete the entry: the last one takes its place. *)
Definition delete_entry (st : envs) (id : Z) (cells : list cell) (i : nat) : outcome envs :=
  last ← (match cells !! Z.to_nat (ecount st - 1) with
          | Some c => if 0 <=? ecount st - 1 then Done c else Fail UB
          | None => Fail UB
          end);
  cells ← put_cell cells (Z.of_nat i) last;
  cells ← put_cell cells (ecount st - 1) Null;
  Done (set_cells st id cells (ecount st - 1) (bump st)).

(** Make room; [inr] is the early return. [m_arr] is what malloc gives. *)
Definition grow_environ (m_arr : option Z) (st : envs) (id : Z) (cells : list cell)
  : envs * Z * list cell + envs :=
  if emax st <=? ecount st then
    let st := mk_env (environ st) (prev_environ st) (ecount st) (emax st + 10)
                (putenv_bss_count st) (environ_changed st) (env_errno st) in
    match m_arr with
    | None => inr (no_memory st)
    | Some a =>
        let n := Z.to_nat (ecount st) in
        let enew := take n cells ++ replicate (Z.to_nat (emax st + 1) - n) Junk in
        inl (mk_env (Some (a, enew)) (Some a) (ecount st) (emax st) (putenv_bss_count st)
               (environ_changed st) (env_errno st), a, enew)
    end
  else inl (st, id, cells).

(** Create a new entry. *)
Definition new_entry (m_str : bool) (st : envs) (id : Z) (cells : list cell) (val : list Z)
  : outcome (envs * Z) :=
  if negb m_str then
    cells ← put_cell cells (ecount st) Null;
    Done (no_memory (set_cells st id cells (ecount st) (environ_changed st)), -1)
  else
    cells ← put_cell cells (ecount st) (Str val);
    cells ← put_cell cells (ecount st + 1) Null;
    Done (set_cells st id cells (ecount st + 1) (bump st), 0).

(** [putenv]; [m_str] tells whether the allocation of a string succeeds. *)
Definition putenv (bss : Z) (m_str : bool) (m_arr : option Z) (st : envs) (val : list Z)
  : outcome (envs * Z) :=
  let vlen := length val in
  let epos := find_index (Z.eqb eq_sign) val in
  let nlen := match epos with Some i => S i | None => vlen end in
  let whole := match epos with Some _ => false | None => true end in
  st ← recount bss st;
  match environ st with
  | None => Fail UB
  | Some (id, cells) =>
      hit ← find_entry cells (take nlen val) whole;
      match hit with
      | Some (i, oval) =>
          if whole then st ← delete_entry st id cells i; Done (st, 0)
          else if bool_decide (drop nlen oval = drop nlen val) then Done (st, 0)
          else if negb (bool_decide (vlen = length oval)) && negb m_str then
            Done (no_memory st, -1)
          else
            cells ← put_cell cells (Z.of_nat i) (Str val);
            Done (set_cells st id cells (ecount st) (bump st), 0)
      | None =>
          if whole then Done (st, 0)
          else match grow_environ m_arr st id cells with
               | inr st => Done (st, -1)
               | inl (st, id, cells) => new_entry m_str st id cells val
               end
      end
  end.

(** *** setenv and unsetenv *)

Definition set_errno (st : envs) (e : Z) : envs :=
  mk_env (environ st) (prev_environ st) (ecount st) (emax st) (putenv_bss_count st)
    (environ_changed st) e.

(** The string that [setenv] builds. *)
Definition envstr (var val : list Z) : list Z :=
  let val := match val with c :: val' => if c =? eq_sign then val' else val | [] => val end in
  let l_var := match find_index (Z.eqb eq_sign) var with Some i => i | None => length var end in
  take l_var var ++ eq_sign :: val.

Definition setenv (bss : Z) (m_str : bool) (m_arr : option Z) (st : envs)
    (var val : option (list Z)) (replace : bool) : outcome (envs * Z) :=
  let st := set_errno st 0 in
  match var, val with
  | Some var, Some val =>
      prev ← getenv st var;
      if bool_decide (is_Some prev) && negb replace then Done (st, 0)
      else putenv bss m_str m_arr st (envstr var val)
  | _, _ => Done (set_errno st EINVAL, -1)
  end.

Definition unsetenv (bss : Z) (m_str : bool) (m_arr : option Z) (st : envs)
    (name : option (list Z)) : outcome (envs * Z) :=
  match environ st with
  | None => Done (st, 0)
  | Some _ =>
      match name with
      | None => Done (set_errno st EINVAL, -1)
      | Some n =>
          if bool_decide (n = []) || bool_decide (is_Some (find_index (Z.eqb eq_sign) n))
          then Done (set_errno st EINVAL, -1)
          else '(st, _) ← putenv bss m_str m_arr st n; Done (st, 0)
      end
  end.

(** ** The environment as a map *)

Definition entry (x : list Z * list Z) : list Z := x.1 ++ eq_sign :: x.2.

(** The state holds the bindings [l], in this order; the counters, where they are
    going to be trusted, are right. *)
Record env_holds (bss : Z) (st : envs) (l : list (list Z * list Z)) : Prop := {
  eh_cells : exists id tl,
    environ st = Some (id, map (Str ∘ entry) l ++ Null :: tl) /\
    (putenv_bss_count st = bss -> prev_environ st = Some id ->
       ecount st = Z.of_nat (length l) /\ ecount st <= emax st /\
       emax st <= Z.of_nat (length l + length tl));
  eh_nodup : NoDup l.*1;
  eh_names : Forall (fun n => eq_sign ∉ n) l.*1 }.

(** The map that the state stands for. *)
Definition env_map (l : list (list Z * list Z)) : gmap (list Z) (list Z) := list_to_map l.

Lemma entry_value_spec n v m :
  eq_sign ∉ n -> entry_value (entry (n, v)) m = if decide (m = n) then Some v else None.
Proof.
  unfold entry. simpl. revert m. induction n as [|c n IH]; intros m Hn.
  - destruct m as [|d m]; cbn [app entry_value]; [by rewrite decide_True|].
    rewrite decide_False by done. destruct (Z.eqb_spec eq_sign d) as [<-|]; done.
  - apply not_elem_of_cons in Hn as [Hc Hn]. destruct m as [|d m]; cbn [app entry_value].
    + rewrite decide_False by done. by rewrite (proj2 (Z.eqb_neq c eq_sign)) by done.
    + destruct (Z.eqb_spec c d) as [<-|Hcd]; cbn [andb].
      * rewrite (proj2 (Z.eqb_neq c eq_sign)) by done. cbn [negb]. rewrite IH by done.
        repeat case_decide; congruence.
      * by rewrite decide_False by congruence.
Qed.

Lemma getenv_from_spec l tl m :
  Forall (fun n => eq_sign ∉ n) l.*1 ->
  getenv_from (map (Str ∘ entry) l ++ Null :: tl) m = Done (env_map l !! m).
Proof.
  intros Hl. induction l as [|[n v] l IH]; simpl; [by rewrite lookup_empty|].
  apply Forall_cons_1 in Hl as [Hn Hl]. rewrite entry_value_spec by done.
  unfold env_map. simpl. case_decide as Hm.
  - subst m. by rewrite lookup_insert_eq.
  - rewrite lookup_insert_ne by done. by apply IH.
Qed.

Lemma getenv_holds bss st l m :
  env_holds bss st l -> getenv st m = Done (env_map l !! m).
Proof.
  intros [(id & tl & E & _) _ Hn]. unfold getenv. rewrite E. by apply getenv_from_spec.
Qed.

Lemma count_cells_spec l tl :
  count_cells (map (Str ∘ entry) l ++ Null :: tl) = Done (Z.of_nat (length l)).
Proof.
  induction l as [|x l IH]; simpl; [done|]. rewrite IH, bind_Done. f_equal. lia.
Qed.

(** After the recount the counters can be trusted. *)
Lemma recount_spec bss st l :
  env_holds bss st l ->
  exists st' id tl, recount bss st = Done st' /\
    environ st' = Some (id, map (Str ∘ entry) l ++ Null :: tl) /\
    ecount st' = Z.of_nat (length l) /\ ecount st' <= emax st' /\
    emax st' <= Z.of_nat (length l + length tl) /\ env_holds bss st' l.
Proof.
  intros Hh. destruct Hh as [(id & tl & E & Hc) Hnd Hnm] eqn:Eh. unfold recount. rewrite E.
  destruct (Z.eqb_spec (putenv_bss_count st) bss) as [Hb|Hb]; simpl.
  - case_bool_decide as Hp; simpl.
    + exists st, id, tl. destruct (Hc Hb Hp) as (H1 & H2 & H3). by split_and!.
    + rewrite count_cells_spec, bind_Done. eexists _, id, tl. split; [reflexivity|]. simpl.
      split_and!; [done|done|done|lia|]. constructor; [|done|done].
      exists id, tl. simpl. split; [done|]. intros. split_and!; lia.
  - rewrite count_cells_spec, bind_Done. eexists _, id, tl. split; [reflexivity|]. simpl.
    split_and!; [done|done|done|lia|]. constructor; [|done|done].
    exists id, tl. simpl. split; [done|]. intros. split_and!; lia.
Qed.

Lemma prefixb_snoc n c e :
  prefixb (n ++ [c]) e = prefixb n e && bool_decide (e !! length n = Some c).
Proof.
  revert e. induction n as [|d n IH]; intros [|x e]; cbn [prefixb app length lookup list_lookup];
    [done| |done|].
  - rewrite andb_true_r. destruct (Z.eqb_spec c x) as [<-|Hne]; symmetry.
    + by apply bool_decide_eq_true_2.
    + apply bool_decide_eq_false_2. simpl. congruence.
  - rewrite IH. by rewrite andb_assoc.
Qed.

Lemma prefixb_entry n n' v :
  eq_sign ∉ n -> eq_sign ∉ n' ->
  prefixb (n ++ [eq_sign]) (entry (n', v)) = bool_decide (n' = n).
Proof.
  unfold entry. cbn [fst snd]. revert n'. induction n as [|c n IH]; intros n' Hn Hn'.
  - destruct n' as [|d n']; cbn [app prefixb]; [done|].
    apply not_elem_of_cons in Hn' as [Hd _].
    rewrite (proj2 (Z.eqb_neq eq_sign d)) by done. by rewrite bool_decide_eq_false_2.
  - apply not_elem_of_cons in Hn as [Hc Hn]. destruct n' as [|d n']; cbn [app prefixb].
    + rewrite (proj2 (Z.eqb_neq c eq_sign)) by done. by rewrite bool_decide_eq_false_2.
    + apply not_elem_of_cons in Hn' as [Hd Hn']. rewrite IH by done.
      destruct (Z.eqb_spec c d) as [<-|Hcd]; simpl.
      * repeat case_bool_decide; congruence.
      * by rewrite bool_decide_eq_false_2 by congruence.
Qed.

(** What the search of [putenv] finds for the name [n], given with or without its
    equals sign. *)
Lemma find_entry_spec l tl n (whole : bool) :
  eq_sign ∉ n -> Forall (fun n => eq_sign ∉ n) l.*1 ->
  exists r, find_entry (map (Str ∘ entry) l ++ Null :: tl)
    (if whole then n else n ++ [eq_sign]) whole = Done r /\
    match r with
    | Some (i, e) => exists v, l !! i = Some (n, v) /\ e = entry (n, v)
    | None => n ∉ l.*1
    end.
Proof.
  intros Hn Hl. induction l as [|[n' v] l IH]; simpl.
  - exists None. split; [done|]. apply not_elem_of_nil.
  - apply Forall_cons_1 in Hl as [Hn' Hl].
    assert (Hhit : prefixb (if whole then n else n ++ [eq_sign]) (entry (n', v)) &&
      (negb whole || bool_decide (entry (n', v) !! length (if whole then n else n ++ [eq_sign])
         = Some eq_sign)) = bool_decide (n' = n)).
    { destruct whole; cbn [negb orb].
      - by rewrite <- prefixb_snoc, prefixb_entry.
      - by rewrite andb_true_r, prefixb_entry. }
    rewrite Hhit. destruct (decide (n' = n)) as [->|Hnn];
      [rewrite bool_decide_eq_true_2 by done|rewrite bool_decide_eq_false_2 by done].
    + eexists. split; [reflexivity|]. by exists v.
    + destruct (IH Hl) as (r & -> & Hr). rewrite bind_Done. eexists. split; [reflexivity|].
      destruct r as [[i e]|]; [done|]. by apply not_elem_of_cons.
Qed.

(** *** The maps after a change *)

Lemma env_map_insert l i n v v' :
  NoDup l.*1 -> l !! i = Some (n, v) ->
  env_map (<[i := (n, v')]> l) = <[n := v']> (env_map l) /\ (<[i := (n, v')]> l).*1 = l.*1.
Proof.
  intros Hnd Hi. assert (Hf : (<[i := (n, v')]> l).*1 = l.*1).
  { rewrite list_fmap_insert. apply list_insert_id. by rewrite list_lookup_fmap, Hi. }
  split; [|done]. unfold env_map. assert (Hlt := lookup_lt_Some _ _ _ Hi).
  assert (H1 : <[i := (n, v')]> l ≡ₚ (n, v') :: take i l ++ drop (S i) l).
  { rewrite insert_take_drop by done. by rewrite Permutation_middle. }
  assert (H2 : l ≡ₚ (n, v) :: take i l ++ drop (S i) l).
  { rewrite <- (take_drop_middle l i (n, v) Hi) at 1. by rewrite Permutation_middle. }
  rewrite (list_to_map_proper _ _ ltac:(by rewrite Hf) H1).
  rewrite (list_to_map_proper _ _ Hnd H2). simpl. by rewrite insert_insert_eq.
Qed.

Lemma env_map_snoc l n v :
  n ∉ l.*1 -> env_map (l ++ [(n, v)]) = <[n := v]> (env_map l).
Proof.
  intros Hn. unfold env_map. rewrite list_to_map_snoc by done. done.
Qed.

Lemma env_map_delete l l' n v :
  NoDup l.*1 -> l ≡ₚ (n, v) :: l' -> env_map l' = delete n (env_map l) /\ NoDup l'.*1.
Proof.
  intros Hnd Hp. unfold env_map. rewrite (list_to_map_proper _ _ Hnd Hp).
  assert (Hnd' : NoDup ((n, v) :: l').*1) by (by rewrite <- Hp).
  inversion Hnd' as [|? ? Hn Hnd1]; subst. split; [|done]. simpl.
  rewrite delete_insert_id; [done|]. by apply not_elem_of_list_to_map_1.
Qed.

(** *** The steps of putenv on a state that holds bindings *)

Lemma find_eq_entry n v :
  eq_sign ∉ n -> find_index (Z.eqb eq_sign) (entry (n, v)) = Some (length n).
Proof.
  unfold entry. cbn [fst snd]. induction n as [|c n IH]; intros Hn; [done|].
  apply not_elem_of_cons in Hn as [Hc Hn]. cbn [find_index app].
  rewrite (proj2 (Z.eqb_neq eq_sign c)) by done. by rewrite IH.
Qed.

Lemma find_eq_none n : eq_sign ∉ n -> find_index (Z.eqb eq_sign) n = None.
Proof.
  induction n as [|c n IH]; intros Hn; [done|]. apply not_elem_of_cons in Hn as [Hc Hn].
  cbn [find_index]. rewrite (proj2 (Z.eqb_neq eq_sign c)) by done. by rewrite IH.
Qed.

Lemma split_entry n v :
  take (S (length n)) (entry (n, v)) = n ++ [eq_sign] /\ drop (S (length n)) (entry (n, v)) = v.
Proof.
  unfold entry. cbn [fst snd]. replace (n ++ eq_sign :: v) with ((n ++ [eq_sign]) ++ v)
    by (by rewrite <- app_assoc).
  replace (S (length n)) with (length (n ++ [eq_sign])) by (rewrite length_app; simpl; lia).
  by rewrite take_app_length, drop_app_length.
Qed.

Lemma put_cell_Done cells i c :
  (i < length cells)%nat -> put_cell cells (Z.of_nat i) c = Done (<[i := c]> cells).
Proof.
  intros Hi. unfold put_cell. rewrite (proj2 (Z.leb_le _ _)), (proj2 (Z.ltb_lt _ _)) by lia.
  by rewrite Nat2Z.id.
Qed.

(** Overwriting the entry of [n] in place. *)
Lemma change_entry bss st id l tl i n v v' :
  env_holds bss st l -> environ st = Some (id, map (Str ∘ entry) l ++ Null :: tl) ->
  ecount st = Z.of_nat (length l) -> ecount st <= emax st ->
  emax st <= Z.of_nat (length l + length tl) -> l !! i = Some (n, v) ->
  put_cell (map (Str ∘ entry) l ++ Null :: tl) (Z.of_nat i) (Str (entry (n, v'))) =
    Done (map (Str ∘ entry) (<[i := (n, v')]> l) ++ Null :: tl) /\
  env_holds bss (set_cells st id (map (Str ∘ entry) (<[i := (n, v')]> l) ++ Null :: tl)
    (ecount st) (bump st)) (<[i := (n, v')]> l).
Proof.
  intros [_ Hnd Hnm] E H1 H2 H3 Hi. pose proof (lookup_lt_Some _ _ _ Hi) as Hlt. split.
  - rewrite put_cell_Done by (rewrite length_app, length_map; lia).
    rewrite insert_app_l by (by rewrite length_map). do 2 f_equal.
    symmetry. apply (list_fmap_insert (Str ∘ entry)).
  - destruct (env_map_insert l i n v v' Hnd Hi) as [_ Hf]. constructor.
    + exists id, tl. split; [done|]. intros _ _. simpl. rewrite length_insert. by split_and!.
    + by rewrite Hf.
    + by rewrite Hf.
Qed.

(** Adding an entry where there is room. *)
Lemma add_entry bss st id l c1 c2 tl n v :
  NoDup l.*1 -> Forall (fun n => eq_sign ∉ n) l.*1 ->
  ecount st = Z.of_nat (length l) -> n ∉ l.*1 -> eq_sign ∉ n ->
  ecount st < emax st -> emax st <= Z.of_nat (S (length l + length tl)) ->
  exists st', new_entry true st id (map (Str ∘ entry) l ++ c1 :: c2 :: tl) (entry (n, v)) =
    Done (st', 0) /\ env_holds bss st' (l ++ [(n, v)]).
Proof.
  intros Hnd Hnm H1 Hn Hq H2 H3. unfold new_entry. cbn [negb]. rewrite H1.
  rewrite put_cell_Done by (rewrite length_app, length_map; simpl; lia). rewrite bind_Done.
  replace (Z.of_nat (length l) + 1) with (Z.of_nat (S (length l))) by lia.
  rewrite put_cell_Done by (rewrite length_insert, length_app, length_map; simpl; lia).
  rewrite bind_Done. eexists. split; [reflexivity|].
  replace (<[S (length l) := Null]> (<[length l := Str (entry (n, v))]>
      (map (Str ∘ entry) l ++ c1 :: c2 :: tl)))
    with (map (Str ∘ entry) (l ++ [(n, v)]) ++ Null :: tl).
  - constructor.
    + exists id, tl. split; [done|]. intros _ _. simpl. rewrite length_app. simpl.
      split_and!; lia.
    + rewrite fmap_app. apply list.NoDup_app. split_and!; [done| |apply NoDup_singleton].
      intros x Hx. simpl. rewrite list_elem_of_singleton. congruence.
    + rewrite fmap_app. apply Forall_app. split; [done|]. by constructor.
  - rewrite <- (length_map (Str ∘ entry) l).
    rewrite (insert_app_r_alt _ _ (length _)) by lia. rewrite Nat.sub_diag. simpl.
    rewrite (insert_app_r_alt _ _ (S (length _))) by lia.
    rewrite Nat.sub_succ_l, Nat.sub_diag by lia. simpl. rewrite map_app, <- app_assoc. done.
Qed.

(** Taking an entry out: the last one takes its place. *)
Lemma drop_entry bss st id l tl i n v :
  env_holds bss st l -> ecount st = Z.of_nat (length l) -> ecount st <= emax st ->
  emax st <= Z.of_nat (length l + length tl) -> l !! i = Some (n, v) ->
  exists st' l', delete_entry st id (map (Str ∘ entry) l ++ Null :: tl) i = Done st' /\
    env_holds bss st' l' /\ l ≡ₚ (n, v) :: l'.
Proof.
  intros [_ Hnd Hnm] H1 H2 H3 Hi. pose proof (lookup_lt_Some _ _ _ Hi) as Hlt.
  destruct l as [|x l0 _] using rev_ind; [done|]. rewrite length_app in *. simpl in *.
  set (l' := if decide (i = length l0) then l0 else <[i := x]> l0).
  assert (Hl' : length l' = length l0).
  { unfold l'. case_decide; [done|]. apply length_insert. }
  assert (Hp : l0 ++ [x] ≡ₚ (n, v) :: l').
  { unfold l'. case_decide as Hd.
    - subst i. rewrite list_lookup_middle in Hi by done. injection Hi as ->.
      symmetry. apply Permutation_cons_append.
    - rewrite lookup_app_l in Hi by lia. rewrite insert_take_drop by lia.
      rewrite <- (take_drop_middle l0 i (n, v) Hi) at 1.
      solve_Permutation. }
  unfold delete_entry. rewrite H1.
  replace (Z.of_nat (length l0 + 1) - 1) with (Z.of_nat (length l0)) by lia. rewrite Nat2Z.id.
  rewrite (proj2 (Z.leb_le 0 _)) by lia. rewrite map_app, <- app_assoc. cbn [map app].
  rewrite list_lookup_middle by (by rewrite length_map). rewrite bind_Done.
  rewrite put_cell_Done by (rewrite length_app, length_map; simpl; lia). rewrite bind_Done.
  rewrite put_cell_Done by (rewrite length_insert, length_app, length_map; simpl; lia).
  rewrite bind_Done. eexists _, l'. split; [reflexivity|]. split; [|done].
  replace (<[length l0 := Null]> (<[i := (Str ∘ entry) x]>
      (map (Str ∘ entry) l0 ++ (Str ∘ entry) x :: Null :: tl)))
    with (map (Str ∘ entry) l' ++ Null :: Null :: tl).
  - constructor.
    + exists id, (Null :: tl). split; [done|]. intros _ _. simpl. rewrite Hl'.
      split_and!; lia.
    + by apply (env_map_delete _ _ n v Hnd Hp).
    + rewrite Hp in Hnm. by apply Forall_cons_1 in Hnm as [_ Hnm].
  - unfold l'. rewrite <- (length_map (Str ∘ entry) l0). case_decide as Hd.
    + subst i. rewrite list_insert_insert_eq.
      by rewrite (insert_app_r_alt _ _ (length _)), Nat.sub_diag by lia.
    + rewrite insert_app_l by (rewrite length_map in *; lia).
      rewrite (insert_app_r_alt _ _ (length _)) by (rewrite length_insert; lia).
      rewrite length_insert, Nat.sub_diag. simpl. f_equal. apply (list_fmap_insert (Str ∘ entry)).
Qed.

(** [putenv] of NAME=value binds the name. *)
Lemma putenv_binds bss a st l n v :
  env_holds bss st l -> eq_sign ∉ n ->
  exists st' l', putenv bss true (Some a) st (entry (n, v)) = Done (st', 0) /\
    env_holds bss st' l' /\ env_map l' = <[n := v]> (env_map l).
Proof.
  intros Hh Hn. destruct (recount_spec bss st l Hh) as (st1 & id & tl & Er & E & H1 & H2 & H3 & Hh1).
  unfold putenv. cbn zeta. rewrite (find_eq_entry n v Hn), Er, bind_Done, E.
  destruct (split_entry n v) as [-> Hdrop].
  destruct (find_entry_spec l tl n false Hn (eh_names _ _ _ Hh1)) as (r & -> & Hr).
  rewrite bind_Done. destruct r as [[i e]|].
  - destruct Hr as (v0 & Hi & ->). rewrite Hdrop. destruct (split_entry n v0) as [_ ->].
    destruct (env_map_insert l i n v0 v (eh_nodup _ _ _ Hh1) Hi) as [Hm Hf].
    case_bool_decide as Hv.
    + subst v0. exists st1, l. split_and!; [done|done|]. rewrite <- Hm. by rewrite list_insert_id.
    + rewrite andb_false_r. destruct (change_entry bss st1 id l tl i n v0 v) as [-> Hh2];
        [done..|]. rewrite bind_Done. by eexists _, _.
  - assert (Hg : exists st2 id2 c1 c2 tl2, grow_environ (Some a) st1 id
        (map (Str ∘ entry) l ++ Null :: tl) = inl (st2, id2, map (Str ∘ entry) l ++ c1 :: c2 :: tl2)
        /\ ecount st2 = Z.of_nat (length l) /\ ecount st2 < emax st2 /\
        emax st2 <= Z.of_nat (S (length l + length tl2))).
    { unfold grow_environ. destruct (Z.leb_spec (emax st1) (ecount st1)) as [Hle|Hlt].
      - cbn [ecount emax]. rewrite H1, Nat2Z.id.
        rewrite <- (length_map (Str ∘ entry) l), take_app_length, length_map.
        replace (Z.to_nat (emax st1 + 10 + 1) - length l)%nat with (S (S 9)) by lia.
        exists (mk_env (Some (a, map (Str ∘ entry) l ++ replicate 11 Junk)) (Some a)
          (Z.of_nat (length l)) (emax st1 + 10) (putenv_bss_count st1) (environ_changed st1)
          (env_errno st1)), a, Junk, Junk, (replicate 9 Junk).
        split_and!; [done|done|simpl; lia|simpl; lia].
      - destruct tl as [|c2 tl]; [simpl in H3; lia|]. exists st1, id, Null, c2, tl.
        split_and!; [done|done|done|]. simpl in H3. lia. }
    destruct Hg as (st2 & id2 & c1 & c2 & tl2 & -> & G1 & G2 & G3).
    destruct (add_entry bss st2 id2 l c1 c2 tl2 n v) as (st3 & E3 & Hh3);
      [apply Hh1|apply Hh1|done..|].
    exists st3, (l ++ [(n, v)]). split_and!; [done|done|]. by apply env_map_snoc.
Qed.

(** [putenv] of a bare name unbinds it. *)
Lemma putenv_unbinds bss m_str m_arr st l n :
  env_holds bss st l -> eq_sign ∉ n ->
  exists st' l', putenv bss m_str m_arr st n = Done (st', 0) /\
    env_holds bss st' l' /\ env_map l' = delete n (env_map l).
Proof.
  intros Hh Hn. destruct (recount_spec bss st l Hh) as (st1 & id & tl & Er & E & H1 & H2 & H3 & Hh1).
  unfold putenv. cbn zeta. rewrite (find_eq_none n Hn), Er, bind_Done, E, take_ge by lia.
  destruct (find_entry_spec l tl n true Hn (eh_names _ _ _ Hh1)) as (r & -> & Hr).
  rewrite bind_Done. destruct r as [[i e]|].
  - destruct Hr as (v0 & Hi & ->).
    destruct (drop_entry bss st1 id l tl i n v0) as (st2 & l2 & -> & Hh2 & Hp); [done..|].
    rewrite bind_Done. exists st2, l2. split_and!; [done|done|].
    by apply (env_map_delete l l2 n v0 (eh_nodup _ _ _ Hh1) Hp).
  - exists st1, l. split_and!; [done|done|]. symmetry. apply delete_id.
    by apply not_elem_of_list_to_map_1.
Qed.

(** C24. The environment is a map from names to values: [getenv] looks a name up, [putenv]
    of NAME=value binds the name (where memory can be had), [putenv] of a bare name
    unbinds it, whatever the array's order, size and growth; bindings of other names
    are untouched. *)
Theorem env_is_map bss a st l :
  env_holds bss st l ->
  (forall n, getenv st n = Done (env_map l !! n)) /\
  (forall n v, eq_sign ∉ n ->
     exists st' l', putenv bss true (Some a) st (n ++ eq_sign :: v) = Done (st', 0) /\
       env_holds bss st' l' /\ env_map l' = <[n := v]> (env_map l)) /\
  (forall n, eq_sign ∉ n ->
     exists st' l', putenv bss true (Some a) st n = Done (st', 0) /\
       env_holds bss st' l' /\ env_map l' = delete n (env_map l)).
Proof.
  intros Hh. split_and!.
  - intros n. by eapply getenv_holds.
  - intros n v Hn. by apply putenv_binds.
  - intros n Hn. by apply putenv_unbinds.
Qed.

(** The environment at the start of a program with two variables. *)
Definition demo_env : envs :=
  mk_env (Some (100, map Str [lit "HOME=/"; lit "X=1"] ++ [Null])) None (-1) (-1) (-1) 1 0.

Lemma demo_env_holds :
  env_holds 1 demo_env [(lit "HOME", lit "/"); (lit "X", lit "1")].
Proof.
  constructor; [|apply (bool_decide_unpack _); reflexivity..].
  exists 100, []. by split.
Qed.

Lemma env_is_map_witness :
  exists st' l', putenv 1 true (Some 200) demo_env (lit "PATH" ++ eq_sign :: lit "C:") =
      Done (st', 0) /\ env_holds 1 st' l' /\ getenv st' (lit "PATH") = Done (Some (lit "C:")) /\
    getenv st' (lit "X") = Done (Some (lit "1")).
Proof.
  destruct (env_is_map 1 200 demo_env _ demo_env_holds) as (_ & Hp & _).
  destruct (Hp (lit "PATH") (lit "C:")) as (st' & l' & E & Hh & Hm);
    [apply (bool_decide_unpack _); reflexivity|].
  exists st', l'. split_and!; [exact E|exact Hh| |].
  - destruct (env_is_map 1 200 st' l' Hh) as (Hg & _ & _). by rewrite Hg, Hm, lookup_insert_eq.
  - destruct (env_is_map 1 200 st' l' Hh) as (Hg & _ & _).
    by rewrite Hg, Hm, lookup_insert_ne.
Defined.

Lemma set_errno_holds bss st l e : env_holds bss st l -> env_holds bss (set_errno st e) l.
Proof. intros [H1 H2 H3]. by constructor. Qed.

Lemma envstr_entry n v :
  eq_sign ∉ n -> head v <> Some eq_sign -> envstr n v = entry (n, v).
Proof.
  intros Hn Hv. unfold envstr. rewrite (find_eq_none n Hn). cbn zeta. rewrite take_ge by lia.
  destruct v as [|c v]; [done|]. rewrite (proj2 (Z.eqb_neq c eq_sign)); [done|].
  intros ->. by destruct Hv.
Qed.

(** [setenv] binds a name that has no equals sign, and leaves a bound name alone unless
    it is told to replace; [unsetenv] unbinds it; both refuse a NULL, and [unsetenv] an
    empty name or one with an equals sign, with EINVAL and the environment as it was. *)
Theorem setenv_unsetenv_correct bss a st l n v replace :
  env_holds bss st l -> eq_sign ∉ n -> n <> [] -> head v <> Some eq_sign ->
  (exists st' l', setenv bss true (Some a) st (Some n) (Some v) replace = Done (st', 0) /\
     env_holds bss st' l' /\
     env_map l' = if bool_decide (is_Some (env_map l !! n)) && negb replace then env_map l
                  else <[n := v]> (env_map l)) /\
  (exists st' l', unsetenv bss true (Some a) st (Some n) = Done (st', 0) /\
     env_holds bss st' l' /\ env_map l' = delete n (env_map l)) /\
  (forall x y, x = None \/ y = None ->
     setenv bss true (Some a) st x y replace = Done (set_errno (set_errno st 0) EINVAL, -1)) /\
  (forall x, x = None \/ x = Some [] \/ (exists p q, x = Some (p ++ eq_sign :: q)) ->
     unsetenv bss true (Some a) st x = Done (set_errno st EINVAL, -1)).
Proof.
  intros Hh Hn Hne Hv. assert (He : exists id cells, environ st = Some (id, cells)).
  { destruct Hh as [(id & tl & E & _) _ _]. by eexists _, _. }
  destruct He as (id & cells & He). split_and!.
  - unfold setenv. pose proof (set_errno_holds bss st l 0 Hh) as Hh0.
    rewrite (getenv_holds _ _ _ n Hh0), bind_Done, envstr_entry by done.
    destruct (bool_decide _ && negb replace); [by exists (set_errno st 0), l|].
    by apply putenv_binds.
  - unfold unsetenv. rewrite He, bool_decide_eq_false_2, (find_eq_none n Hn) by done. simpl.
    destruct (putenv_unbinds bss true (Some a) st l n Hh Hn) as (st' & l' & -> & Hh' & Hm).
    by exists st', l'.
  - intros x y [-> | ->]; [done|]. by destruct x.
  - intros x Hx. unfold unsetenv. rewrite He. destruct Hx as [-> | [-> | (p & q & ->)]]; [done..|].
    assert (Hs : is_Some (find_index (Z.eqb eq_sign) (p ++ eq_sign :: q))).
    { clear. induction p as [|c p IH]; [by eexists|]. cbn [app find_index].
      destruct (eq_sign =? c); [by eexists|]. destruct IH as [i ->]. by eexists. }
    rewrite (bool_decide_eq_true_2 _ Hs). by rewrite orb_true_r.
Qed.

Lemma setenv_unsetenv_correct_witness :
  exists st' l', setenv 1 true (Some 200) demo_env (Some (lit "X")) (Some (lit "2")) true =
    Done (st', 0) /\ env_holds 1 st' l' /\ env_map l' !! lit "X" = Some (lit "2").
Proof.
  destruct (setenv_unsetenv_correct 1 200 demo_env _ (lit "X") (lit "2") true demo_env_holds)
    as [(st' & l' & E & Hh & Hm) _]; [apply (bool_decide_unpack _); reflexivity|done|done|].
  exists st', l'. split_and!; [exact E|exact Hh|]. rewrite Hm, andb_false_r.
  apply lookup_insert_eq.
Defined.

(** Where the array is full and the larger one cannot be had, [putenv] fails but has
    already raised [emax]: the next [putenv] of a new variable believes in room that
    is not there and writes past the end of the array. *)
Theorem putenv_overruns bss m_str a st id l n1 v1 n2 v2 :
  env_holds bss st l -> environ st = Some (id, map (Str ∘ entry) l ++ [Null]) ->
  putenv_bss_count st = bss -> prev_environ st = Some id ->
  eq_sign ∉ n1 -> eq_sign ∉ n2 -> n1 ∉ l.*1 -> n2 ∉ l.*1 ->
  exists st', putenv bss m_str None st (n1 ++ eq_sign :: v1) = Done (st', -1) /\
    environ st' = environ st /\ putenv bss true (Some a) st' (n2 ++ eq_sign :: v2) = Fail UB.
Proof.
  intros Hh E Hb Hp Hn1 Hn2 Hl1 Hl2.
  assert (Hcnt : ecount st = Z.of_nat (length l) /\ emax st = Z.of_nat (length l)).
  { destruct Hh as [(id' & tl & E' & Hc) _ _]. rewrite E in E'. injection E' as <- Etl.
    apply app_inv_head in Etl. injection Etl as <-. destruct (Hc Hb Hp) as (H1 & H2 & H3).
    simpl in H3. lia. }
  destruct Hcnt as [H1 H2].
  assert (Hrec : forall st', environ st' = environ st -> putenv_bss_count st' = bss ->
    prev_environ st' = Some id -> recount bss st' = Done st').
  { intros st' E1 E2 E3. unfold recount. rewrite E1, E, E2, E3, Z.eqb_refl.
    by rewrite bool_decide_eq_true_2. }
  assert (Hmiss : forall n, eq_sign ∉ n -> n ∉ l.*1 ->
    find_entry (map (Str ∘ entry) l ++ [Null]) (n ++ [eq_sign]) false = Done None).
  { intros n Hn Hl. destruct (find_entry_spec l [] n false Hn (eh_names _ _ _ Hh)) as (r & -> & Hr).
    destruct r as [[i e]|]; [|done]. destruct Hr as (v & Hi & _). destruct Hl.
    apply list_elem_of_fmap. exists (n, v). split; [done|]. by eapply list_elem_of_lookup_2. }
  change (n1 ++ eq_sign :: v1) with (entry (n1, v1)).
  change (n2 ++ eq_sign :: v2) with (entry (n2, v2)). unfold putenv at 1. cbn zeta.
  rewrite (find_eq_entry n1 v1 Hn1), (Hrec st) by done. rewrite bind_Done, E.
  destruct (split_entry n1 v1) as [-> _]. rewrite (Hmiss n1 Hn1 Hl1), bind_Done.
  unfold grow_environ. rewrite H1, H2, Z.leb_refl. eexists. split; [reflexivity|].
  split; [done|]. set (st1 := no_memory _). unfold putenv. cbn zeta.
  rewrite (find_eq_entry n2 v2 Hn2), (Hrec st1) by done. rewrite bind_Done.
  change (environ st1) with (environ st). rewrite E.
  destruct (split_entry n2 v2) as [-> _]. rewrite (Hmiss n2 Hn2 Hl2), bind_Done.
  unfold grow_environ. cbn [st1 no_memory emax ecount].
  rewrite (proj2 (Z.leb_gt _ _)) by lia. unfold new_entry. cbn [negb st1 no_memory ecount].
  rewrite put_cell_Done by (rewrite length_app, length_map; simpl; lia). rewrite bind_Done.
  unfold put_cell. rewrite length_insert, length_app, length_map. simpl.
  by rewrite (proj2 (Z.ltb_ge _ _)), andb_false_r by lia.
Qed.

(** The environment of [demo_env] once [putenv] has looked at it. *)
Definition demo_env1 : envs :=
  mk_env (Some (100, map Str [lit "HOME=/"; lit "X=1"] ++ [Null])) (Some 100) 2 2 1 2 0.

Lemma putenv_overruns_witness :
  exists st', putenv 1 true None demo_env1 (lit "A" ++ eq_sign :: lit "1") = Done (st', -1) /\
    putenv 1 true (Some 200) st' (lit "B" ++ eq_sign :: lit "2") = Fail UB.
Proof.
  assert (Hh : env_holds 1 demo_env1 [(lit "HOME", lit "/"); (lit "X", lit "1")]).
  { constructor; [|apply (bool_decide_unpack _); reflexivity..].
    exists 100, []. split; [done|]. simpl. lia. }
  destruct (putenv_overruns 1 true 200 demo_env1 100 _ (lit "A") (lit "1") (lit "B") (lit "2") Hh)
    as (st' & E & _ & F); [reflexivity|done|done|
      apply (bool_decide_unpack _); reflexivity..|by exists st'].
Defined.
