(* ===== verification/TSearch.v ===== *)
(** * Binary search trees (src/src/libc/posix/search/tsearch_avl.c)

    tsearch, tfind, tdelete and twalk on AVL trees. A node has an address, which the
    functions return; the nodes of a tree are reachable only through it, so that a
    tree of nodes with their addresses is the whole state. The caller's comparison is
    a function of two keys. *)

From stdpp Require Import base list numbers relations.
From Stdlib Require Import ZArith Lia.
From S2P Require Import Prelude.

Open Scope Z_scope.

(** struct node; [Leaf] is NULL. *)
Inductive tree :=
  | Leaf
  | Node (addr key : Z) (left right : tree) (height : Z).

(** [n ? n->height : 0] *)
Definition ht (t : tree) : Z := match t with Leaf => 0 | Node _ _ _ _ h => h end.

Definition delta (n : tree) : outcome Z :=
  match n with
  | Leaf => Fail UB
  | Node _ _ l r _ => Done (ht l - ht r)
  end.

Definition updateheight (n : tree) : outcome tree :=
  match n with
  | Leaf => Fail UB
  | Node a k l r _ =>
      let h := 0 in
      let h := match l with Node _ _ _ _ hl => if h <? hl then hl else h | Leaf => h end in
      let h := match r with Node _ _ _ _ hr => if h <? hr then hr else h | Leaf => h end in
      Done (Node a k l r (h + 1))
  end.

Definition rotl (n : tree) : outcome tree :=
  match n with
  | Node a k l (Node ra rk rl rr rh) h =>
      n ← updateheight (Node a k l rl h);
      updateheight (Node ra rk n rr rh)
  | _ => Fail UB
  end.

Definition rotr (n : tree) : outcome tree :=
  match n with
  | Node a k (Node la lk ll lr lh) r h =>
      n ← updateheight (Node a k lr r h);
      updateheight (Node la lk ll n lh)
  | _ => Fail UB
  end.

Definition balance (n : tree) : outcome tree :=
  d ← delta n;
  match n with
  | Leaf => Fail UB
  | Node a k l r h =>
      if d <? -1 then
        dr ← delta r;
        r ← (if 0 <? dr then rotr r else Done r);
        rotl (Node a k l r h)
      else if 1 <? d then
        dl ← delta l;
        l ← (if dl <? 0 then rotl l else Done l);
        rotr (Node a k l r h)
      else updateheight n
  end.

Section Cmp.
Context (cmp : Z -> Z -> Z).

(** The address of the node, if there is one. *)
Fixpoint find (n : tree) (k : Z) : option Z :=
  match n with
  | Leaf => None
  | Node a key l r _ =>
      let c := cmp k key in
      if c =? 0 then Some a
      else if c <? 0 then find l k else find r k
  end.

(** [insert]: the new subtree, [None] where there is nothing to update, and the node
    that was found or made. [new] is what malloc gives. *)
Fixpoint insert (new : option Z) (n : tree) (k : Z) : outcome (option tree * option Z) :=
  match n with
  | Leaf =>
      match new with
      | Some a => Done (Some (Node a k Leaf Leaf 1), Some a)
      | None => Done (None, None)
      end
  | Node a key l r h =>
      let c := cmp k key in
      if c =? 0 then Done (None, Some a)
      else
        '(x, found) ← insert new (if c <? 0 then l else r) k;
        match x with
        | Some x =>
            n ← balance (if c <? 0 then Node a key x r h else Node a key l x h);
            Done (Some n, found)
        | None => Done (None, found)
        end
  end.

(** The rightmost node is taken out; its address and key. *)
Fixpoint remove_rightmost (n : tree) : outcome (tree * (Z * Z)) :=
  match n with
  | Leaf => Fail UB
  | Node a k l Leaf h => Done (l, (a, k))
  | Node a k l r h =>
      '(r, m) ← remove_rightmost r;
      n ← balance (Node a k l r h);
      Done (n, m)
  end.

(** [remove]: the tree that is left, and the parent of the node that was removed. The
    height that the rightmost node brings along is computed anew by [balance]. *)
Fixpoint remove (n : tree) (k : Z) (parent : option Z) : outcome (tree * option Z) :=
  match n with
  | Leaf => Done (Leaf, None)
  | Node a key l r h =>
      let c := cmp k key in
      if c =? 0 then
        match l with
        | Node _ _ _ _ _ =>
            '(l, (ma, mk)) ← remove_rightmost l;
            n ← balance (Node ma mk l r h);
            Done (n, parent)
        | Leaf => Done (r, parent)
        end
      else
        '(n, parent) ←
          (if c <? 0 then '(l, p) ← remove l k (Some a); Done (Node a key l r h, p)
           else '(r, p) ← remove r k (Some a); Done (Node a key l r h, p));
        match parent with
        | Some _ => n ← balance n; Done (n, parent)
        | None => Done (n, parent)
        end
  end.

Definition addr_of (n : tree) : option Z :=
  match n with Leaf => None | Node a _ _ _ _ => Some a end.

(** The three functions of the interface; the root pointer is a variable of the
    caller, [None] where the pointer to it is NULL. *)
Definition tdelete (key : Z) (rootp : option tree) : outcome (option tree * option Z) :=
  match rootp with
  | None => Done (None, None)
  | Some n => '(n, ret) ← remove n key (addr_of n); Done (Some n, ret)
  end.

Definition tfind (key : Z) (rootp : option tree) : option Z :=
  match rootp with None => None | Some n => find n key end.

Definition tsearch (new : option Z) (key : Z) (rootp : option tree)
  : outcome (option tree * option Z) :=
  match rootp with
  | None => Done (None, None)
  | Some n =>
      '(update, ret) ← insert new n key;
      Done (Some (default n update), ret)
  end.
End Cmp.

Inductive VISIT := preorder | postorder | endorder | leaf.

(** The calls of the action: node, kind of visit, depth. *)
Fixpoint walk (r : tree) (d : Z) : list (Z * VISIT * Z) :=
  match r with
  | Leaf => []
  | Node a _ Leaf Leaf _ => [(a, leaf, d)]
  | Node a _ l r _ =>
      (a, preorder, d) :: walk l (d + 1) ++ (a, postorder, d) :: walk r (d + 1) ++
        [(a, endorder, d)]
  end.

Definition twalk (root : tree) : list (Z * VISIT * Z) := walk root 0.

(** ** Balance *)

(** Every node has its height, and its subtrees differ by at most one. *)
Fixpoint avl (t : tree) : Prop :=
  match t with
  | Leaf => True
  | Node _ _ l r h =>
      avl l /\ avl r /\ h = Z.max (ht l) (ht r) + 1 /\ -1 <= ht l - ht r <= 1
  end.

(** The nodes in order. *)
Fixpoint nodes (t : tree) : list (Z * Z) :=
  match t with
  | Leaf => []
  | Node a k l r _ => nodes l ++ (a, k) :: nodes r
  end.

Lemma avl_ht t : avl t -> 0 <= ht t /\ (t <> Leaf -> 1 <= ht t).
Proof.
  induction t as [|a k l IHl r IHr h]; simpl; [intros _; split; [lia|done]|].
  intros (Hl & Hr & -> & _). specialize (IHl Hl). specialize (IHr Hr). lia.
Qed.

Lemma updateheight_spec a k l r h :
  0 <= ht l -> 0 <= ht r ->
  updateheight (Node a k l r h) = Done (Node a k l r (Z.max (ht l) (ht r) + 1)).
Proof.
  intros Hl Hr. unfold updateheight. cbn zeta.
  assert (E1 : (match l with Node _ _ _ _ hl => if 0 <? hl then hl else 0 | Leaf => 0 end)
    = ht l).
  { destruct l; simpl in *; [done|]. destruct (Z.ltb_spec 0 height); [done|lia]. }
  rewrite E1. destruct r as [|ra rk rl rr rh]; cbn [ht] in *; [do 2 f_equal; lia|].
  destruct (Z.ltb_spec (ht l) rh); do 2 f_equal; lia.
Qed.

(** What [balance] promises for subtrees whose heights differ by at most two. *)
Definition balanced_from (l r : tree) (ak : Z * Z) (t : tree) : Prop :=
  avl t /\ nodes t = nodes l ++ ak :: nodes r /\
  Z.max (ht l) (ht r) <= ht t <= Z.max (ht l) (ht r) + 1 /\
  (-1 <= ht l - ht r <= 1 -> ht t = Z.max (ht l) (ht r) + 1).

(** The heights of trees in the context are not negative. *)
Ltac heights :=
  repeat match goal with
  | H : avl ?t |- _ =>
      lazymatch goal with
      | _ : 0 <= ht t /\ _ |- _ => fail
      | _ => pose proof (avl_ht t H)
      end
  end.

(** Equal sequences, up to associativity. *)
Ltac nodes_eq := cbn [app]; repeat (rewrite <- app_assoc; cbn [app]); reflexivity.

Lemma balance_right a k l r h :
  avl l -> avl r -> ht l - ht r = -2 ->
  exists t, balance (Node a k l r h) = Done t /\ balanced_from l r (a, k) t.
Proof.
  intros Hl Hr Hd. unfold balance. cbn [delta]. rewrite bind_Done.
  rewrite (proj2 (Z.ltb_lt _ _)) by lia.
  destruct r as [|ra rk rl rr rh]; [heights; simpl in *; lia|]. cbn [delta]. rewrite bind_Done.
  destruct Hr as (Hrl & Hrr & Hrh & Hrd). cbn [ht] in Hd. heights.
  destruct (Z.ltb_spec 0 (ht rl - ht rr)) as [Hpos|Hneg].
  - destruct rl as [|ma mk ml mr mh]; [simpl in *; lia|]. cbn [rotr].
    destruct Hrl as (Hml & Hmr & Hmh & Hmd). cbn [ht] in *. heights.
    rewrite updateheight_spec, bind_Done by lia. rewrite updateheight_spec, bind_Done by (simpl; lia).
    cbn [rotl]. rewrite updateheight_spec, bind_Done by lia.
    rewrite updateheight_spec by (simpl; lia). eexists. split; [reflexivity|].
    unfold balanced_from. cbn [avl ht nodes]. split_and!; try done; try lia.
    nodes_eq.
  - rewrite bind_Done. cbn [rotl]. rewrite updateheight_spec, bind_Done by lia.
    rewrite updateheight_spec by (simpl; lia). eexists. split; [reflexivity|].
    unfold balanced_from. cbn [avl ht nodes]. split_and!; try done; try lia.
    nodes_eq.
Qed.

Lemma balance_left a k l r h :
  avl l -> avl r -> ht l - ht r = 2 ->
  exists t, balance (Node a k l r h) = Done t /\ balanced_from l r (a, k) t.
Proof.
  intros Hl Hr Hd. unfold balance. cbn [delta]. rewrite bind_Done.
  rewrite (proj2 (Z.ltb_ge _ _)), (proj2 (Z.ltb_lt _ _)) by lia.
  destruct l as [|la lk ll lr lh]; [heights; simpl in *; lia|]. cbn [delta]. rewrite bind_Done.
  destruct Hl as (Hll & Hlr & Hlh & Hld). cbn [ht] in Hd. heights.
  destruct (Z.ltb_spec (ht ll - ht lr) 0) as [Hneg|Hpos].
  - destruct lr as [|ma mk ml mr mh]; [simpl in *; lia|]. cbn [rotl].
    destruct Hlr as (Hml & Hmr & Hmh & Hmd). cbn [ht] in *. heights.
    rewrite updateheight_spec, bind_Done by lia. rewrite updateheight_spec, bind_Done by (simpl; lia).
    cbn [rotr]. rewrite updateheight_spec, bind_Done by lia.
    rewrite updateheight_spec by (simpl; lia). eexists. split; [reflexivity|].
    unfold balanced_from. cbn [avl ht nodes]. split_and!; try done; try lia.
    nodes_eq.
  - rewrite bind_Done. cbn [rotr]. rewrite updateheight_spec, bind_Done by lia.
    rewrite updateheight_spec by (simpl; lia). eexists. split; [reflexivity|].
    unfold balanced_from. cbn [avl ht nodes]. split_and!; try done; try lia.
    nodes_eq.
Qed.

Lemma balance_spec a k l r h :
  avl l -> avl r -> -2 <= ht l - ht r <= 2 ->
  exists t, balance (Node a k l r h) = Done t /\ balanced_from l r (a, k) t.
Proof.
  intros Hl Hr Hd. destruct (decide (ht l - ht r = -2)); [by apply balance_right|].
  destruct (decide (ht l - ht r = 2)); [by apply balance_left|]. heights.
  unfold balance. cbn [delta]. rewrite bind_Done.
  rewrite !(proj2 (Z.ltb_ge _ _)) by lia. rewrite updateheight_spec by lia.
  eexists. split; [reflexivity|]. unfold balanced_from. cbn [avl ht nodes].
  split_and!; try done; lia.
Qed.

(** ** Order *)

(** What the functions ask of the caller's comparison: that it orders the keys. *)
Class Comparator (cmp : Z -> Z -> Z) : Prop := {
  cmp_sym : forall a b, cmp a b < 0 <-> 0 < cmp b a;
  cmp_trans : forall a b c, cmp a b <= 0 -> cmp b c <= 0 -> cmp a c <= 0 }.

#[export] Instance sub_comparator : Comparator Z.sub.
Proof. constructor; intros; lia. Qed.

Section Order.
Context (cmp : Z -> Z -> Z) `{Hcmp : !Comparator cmp}.

Definition below (x y : Z * Z) : Prop := cmp x.2 y.2 < 0.

Fixpoint sorted (l : list (Z * Z)) : Prop :=
  match l with [] => True | x :: l => Forall (below x) l /\ sorted l end.

(** The address of the node with a key that compares equal. *)
Fixpoint look (k : Z) (l : list (Z * Z)) : option Z :=
  match l with
  | [] => None
  | (a, key) :: l => if cmp k key =? 0 then Some a else look k l
  end.

Lemma cmp_lt_trans a b c : cmp a b < 0 -> cmp b c <= 0 -> cmp a c < 0.
Proof.
  intros H1 H2. destruct (Z.lt_trichotomy (cmp a c) 0) as [|[H0|H0]]; [done| |].
  - assert (H3 : cmp c a <= 0).
    { destruct (Z_lt_le_dec 0 (cmp c a)) as [H3|]; [|done]. apply cmp_sym in H3. lia. }
    pose proof (cmp_trans b c a H2 H3). apply cmp_sym in H1. lia.
  - pose proof (cmp_trans a b c). lia.
Qed.

Lemma cmp_le_lt_trans a b c : cmp a b <= 0 -> cmp b c < 0 -> cmp a c < 0.
Proof.
  intros H1 H2. destruct (Z.lt_trichotomy (cmp a c) 0) as [|[H0|H0]]; [done| |].
  - assert (H3 : cmp c a <= 0).
    { destruct (Z_lt_le_dec 0 (cmp c a)) as [H3|]; [|done]. apply cmp_sym in H3. lia. }
    pose proof (cmp_trans c a b H3 H1). apply cmp_sym in H2. lia.
  - pose proof (cmp_trans a b c). lia.
Qed.

Lemma sorted_mid l1 x l2 :
  sorted (l1 ++ x :: l2) <->
  sorted l1 /\ sorted l2 /\ Forall (fun y => below y x) l1 /\ Forall (below x) l2.
Proof.
  induction l1 as [|y l1 IH]; simpl; [by split; [intros []|intros (_ & ? & _ & ?)]|].
  rewrite IH, Forall_app, !Forall_cons_iff. split; [tauto|].
  intros ((Hy & Hs1) & Hs2 & (Hyx & H1) & H2). split_and!; try done.
  eapply List.Forall_impl; [|exact H2]. intros z Hz. unfold below in *.
  eapply cmp_lt_trans; [exact Hyx|lia].
Qed.

Lemma look_app k l1 l2 :
  look k (l1 ++ l2) = match look k l1 with Some a => Some a | None => look k l2 end.
Proof.
  induction l1 as [|[a key] l1 IH]; simpl; [done|]. by destruct (cmp k key =? 0).
Qed.

Lemma look_none k l : Forall (fun x => cmp k x.2 <> 0) l -> look k l = None.
Proof.
  induction 1 as [|[a key] l H _ IH]; simpl in *; [done|]. by rewrite (proj2 (Z.eqb_neq _ _) H).
Qed.

(** Keys on the other side of a node do not compare equal. *)
Lemma right_differs k x l :
  cmp k x.2 < 0 -> Forall (below x) l -> Forall (fun y => cmp k y.2 < 0) l.
Proof.
  intros Hk Hl. eapply List.Forall_impl; [|exact Hl]. intros y Hy. unfold below in Hy.
  eapply cmp_lt_trans; [exact Hk|lia].
Qed.

Lemma left_differs k x l :
  0 < cmp k x.2 -> Forall (fun y => below y x) l -> Forall (fun y => cmp y.2 k < 0) l.
Proof.
  intros Hk%cmp_sym Hl. eapply List.Forall_impl; [|exact Hl]. intros y Hy. unfold below in Hy.
  eapply cmp_lt_trans; [exact Hy|lia].
Qed.

Lemma find_look t k : sorted (nodes t) -> find cmp t k = look k (nodes t).
Proof.
  induction t as [|a key l IHl r IHr h]; [done|]. cbn [find nodes].
  intros (Hl & Hr & Hbl & Hbr)%sorted_mid. rewrite look_app. cbn [look].
  destruct (Z.eqb_spec (cmp k key) 0) as [H0|H0].
  - rewrite look_none; [done|]. eapply List.Forall_impl; [|exact Hbl]. intros y Hy E.
    unfold below in Hy. simpl in Hy.
    assert (cmp k y.2 <= 0) by lia. pose proof (cmp_le_lt_trans k y.2 key ltac:(lia) Hy). lia.
  - destruct (Z.ltb_spec (cmp k key) 0) as [Hlt|Hge].
    + rewrite IHl by done. rewrite (look_none k (nodes r)); [by destruct (look k (nodes l))|].
      eapply List.Forall_impl; [|exact (right_differs k (a, key) _ Hlt Hbr)]. simpl. lia.
    + rewrite IHr by done. rewrite (look_none k (nodes l)); [done|].
      eapply List.Forall_impl; [|exact (left_differs k (a, key) _ ltac:(simpl; lia) Hbl)].
      intros y Hy%cmp_sym. lia.
Qed.

(** *** Insertion *)

(** [l'] is [l] with the node [x] at the place where its key belongs. *)
Definition inserted (x : Z * Z) (l l' : list (Z * Z)) : Prop :=
  exists l1 l2, l = l1 ++ l2 /\ l' = l1 ++ x :: l2 /\
    Forall (fun y => below y x) l1 /\ Forall (below x) l2.

Lemma insert_found new t k a :
  sorted (nodes t) -> look k (nodes t) = Some a -> insert cmp new t k = Done (None, Some a).
Proof.
  intros Hs. rewrite <- find_look by done. clear Hs.
  induction t as [|b key l IHl r IHr h]; [done|]. cbn [find insert].
  destruct (cmp k key =? 0); [by intros [= ->]|].
  destruct (cmp k key <? 0); intros Hf; [rewrite (IHl Hf)|rewrite (IHr Hf)]; done.
Qed.

Lemma insert_full t k :
  sorted (nodes t) -> look k (nodes t) = None -> insert cmp None t k = Done (None, None).
Proof.
  intros Hs. rewrite <- find_look by done. clear Hs.
  induction t as [|b key l IHl r IHr h]; [done|]. cbn [find insert].
  destruct (cmp k key =? 0); [done|].
  destruct (cmp k key <? 0); intros Hf; [rewrite (IHl Hf)|rewrite (IHr Hf)]; done.
Qed.

Lemma insert_new a t k :
  avl t -> sorted (nodes t) -> look k (nodes t) = None ->
  exists t', insert cmp (Some a) t k = Done (Some t', Some a) /\ avl t' /\
    inserted (a, k) (nodes t) (nodes t') /\ ht t <= ht t' <= ht t + 1.
Proof.
  intros Ha Hs. rewrite <- find_look by done. revert Ha Hs.
  induction t as [|b key l IHl r IHr h]; cbn [find insert].
  - intros _ _ _. eexists. split; [reflexivity|]. cbn [avl ht nodes].
    split_and!; try done; try lia. exists [], []. by split_and!.
  - cbn [avl]. intros (Hl & Hr & -> & Hd) (Hsl & Hsr & Hbl & Hbr)%sorted_mid.
    destruct (Z.eqb_spec (cmp k key) 0) as [|H0]; [done|].
    destruct (Z.ltb_spec (cmp k key) 0) as [Hlt|Hge]; intros Hf.
    + destruct (IHl Hl Hsl Hf) as (x & -> & Hx & (l1 & l2 & E1 & E2 & H1 & H2) & Hh).
      rewrite bind_Done.
      destruct (balance_spec b key x r (Z.max (ht l) (ht r) + 1) Hx Hr) as
        (t' & -> & Ht' & En & Hb & Hb'); [lia|].
      rewrite bind_Done. exists t'. split_and!; [done|done| |simpl; lia|simpl; lia].
      exists l1, (l2 ++ (b, key) :: nodes r). cbn [nodes]. rewrite En, E1, E2.
      split_and!; [nodes_eq|nodes_eq|done|]. apply Forall_app. split; [done|].
      constructor; [done|]. exact (right_differs k (b, key) _ Hlt Hbr).
    + destruct (IHr Hr Hsr Hf) as (x & -> & Hx & (l1 & l2 & E1 & E2 & H1 & H2) & Hh).
      rewrite bind_Done.
      destruct (balance_spec b key l x (Z.max (ht l) (ht r) + 1) Hl Hx) as
        (t' & -> & Ht' & En & Hb & Hb'); [lia|].
      rewrite bind_Done. exists t'. split_and!; [done|done| |simpl; lia|simpl; lia].
      assert (Hkey : 0 < cmp k key) by lia.
      exists (nodes l ++ (b, key) :: l1), l2. cbn [nodes]. rewrite En, E1, E2.
      split_and!; [nodes_eq|nodes_eq| |done]. apply Forall_app. split.
      * exact (left_differs k (b, key) _ Hkey Hbl).
      * constructor; [|done]. unfold below. simpl. by apply cmp_sym.
Qed.

Lemma inserted_sorted x l l' : sorted l -> inserted x l l' -> sorted l'.
Proof.
  intros Hs (l1 & l2 & -> & -> & H1 & H2). apply sorted_mid. split_and!; [| |done|done].
  - clear H1 H2. induction l1 as [|y l1 IH]; simpl in *; [done|].
    destruct Hs as [Hy Hs]. apply Forall_app in Hy as [Hy _]. auto.
  - clear H1 H2. induction l1 as [|y l1 IH]; simpl in *; [done|]. destruct Hs as [_ Hs]. auto.
Qed.

(** *** Removal *)

Lemma remove_rightmost_spec t :
  avl t -> t <> Leaf ->
  exists t' m, remove_rightmost t = Done (t', m) /\ avl t' /\ nodes t = nodes t' ++ [m] /\
    ht t - 1 <= ht t' <= ht t.
Proof.
  induction t as [|a k l _ r IHr h]; [done|]. cbn [avl]. intros (Hl & Hr & -> & Hd) _. heights.
  destruct r as [|ra rk rl rr rh].
  - cbn [remove_rightmost nodes]. exists l, (a, k). cbn [ht] in *. split_and!; try done; lia.
  - destruct (IHr Hr ltac:(done)) as (r' & m & E & Hr' & En & Hh).
    cbn [remove_rightmost] in E |- *. rewrite E, bind_Done.
    set (r0 := Node ra rk rl rr rh) in *.
    destruct (balance_spec a k l r' (Z.max (ht l) (ht r0) + 1) Hl Hr') as
      (t' & -> & Ht' & Et & Hb & Hb'); [lia|].
    rewrite bind_Done. exists t', m. cbn [nodes]. rewrite Et, En.
    split_and!; [done|done|nodes_eq|cbn [ht]; lia|cbn [ht]; lia].
Qed.

(** [l'] is [l] without the node at [b], whose key compares equal to [k]. *)
Definition removed_from (k b : Z) (l l' : list (Z * Z)) : Prop :=
  exists l1 key l2, l = l1 ++ (b, key) :: l2 /\ cmp k key = 0 /\ l' = l1 ++ l2.

Lemma remove_absent t k parent :
  find cmp t k = None -> remove cmp t k parent = Done (t, None).
Proof.
  revert parent. induction t as [|a key l IHl r IHr h]; intros parent; [done|].
  cbn [find remove]. destruct (cmp k key =? 0); [done|].
  destruct (cmp k key <? 0); intros Hf; [rewrite (IHl _ Hf)|rewrite (IHr _ Hf)]; done.
Qed.

Lemma remove_root a key l r k parent :
  avl l -> avl r -> -1 <= ht l - ht r <= 1 -> cmp k key = 0 ->
  exists t', remove cmp (Node a key l r (Z.max (ht l) (ht r) + 1)) k parent = Done (t', parent) /\
    avl t' /\ nodes t' = nodes l ++ nodes r /\
    Z.max (ht l) (ht r) <= ht t' <= Z.max (ht l) (ht r) + 1.
Proof.
  intros Hl Hr Hd Hk. cbn [remove]. rewrite Hk, Z.eqb_refl. heights.
  destruct l as [|la lk ll lr lh]; [exists r; simpl in *; split_and!; done || lia|].
  set (l0 := Node la lk ll lr lh) in *.
  destruct (remove_rightmost_spec l0 Hl ltac:(done)) as (l' & [ma mk] & -> & Hl' & En & Hh).
  rewrite bind_Done.
  destruct (balance_spec ma mk l' r (Z.max (ht l0) (ht r) + 1) Hl' Hr) as
    (t' & -> & Ht' & Et & Hb & Hb'); [lia|].
  rewrite bind_Done. exists t'. rewrite Et, En. split_and!; [done|done|nodes_eq|lia|lia].
Qed.

Lemma remove_present t k parent b :
  avl t -> find cmp t k = Some b ->
  exists t' ret, remove cmp t k parent = Done (t', ret) /\ avl t' /\
    removed_from k b (nodes t) (nodes t') /\ ht t - 1 <= ht t' <= ht t /\
    (is_Some parent -> is_Some ret).
Proof.
  revert parent. induction t as [|a key l IHl r IHr h]; intros parent; [done|].
  cbn [avl]. intros (Hl & Hr & -> & Hd). cbn [find].
  destruct (Z.eqb_spec (cmp k key) 0) as [H0|H0].
  - intros [= <-]. destruct (remove_root a key l r k parent Hl Hr Hd H0) as (t' & E & Ht' & En & Hh).
    exists t', parent. split_and!; [done|done| |simpl; lia|simpl; lia|done].
    exists (nodes l), key, (nodes r). by rewrite En.
  - cbn [remove]. rewrite (proj2 (Z.eqb_neq _ _) H0).
    destruct (cmp k key <? 0); intros Hf.
    + destruct (IHl (Some a) Hl Hf) as (x & ret & -> & Hx & (l1 & ky & l2 & E1 & Ek & E2) & Hh & Hret).
      rewrite !bind_Done. destruct (Hret (mk_is_Some _ _ eq_refl)) as [q ->].
      destruct (balance_spec a key x r (Z.max (ht l) (ht r) + 1) Hx Hr) as
        (t' & -> & Ht' & En & Hb & Hb'); [lia|].
      rewrite bind_Done. exists t', (Some q). split_and!; [done|done| |simpl; lia|simpl; lia|done].
      exists l1, ky, (l2 ++ (a, key) :: nodes r). cbn [nodes]. rewrite En, E1, E2.
      split_and!; [nodes_eq|done|nodes_eq].
    + destruct (IHr (Some a) Hr Hf) as (x & ret & -> & Hx & (l1 & ky & l2 & E1 & Ek & E2) & Hh & Hret).
      rewrite !bind_Done. destruct (Hret (mk_is_Some _ _ eq_refl)) as [q ->].
      destruct (balance_spec a key l x (Z.max (ht l) (ht r) + 1) Hl Hx) as
        (t' & -> & Ht' & En & Hb & Hb'); [lia|].
      rewrite bind_Done. exists t', (Some q). split_and!; [done|done| |simpl; lia|simpl; lia|done].
      exists (nodes l ++ (a, key) :: l1), ky, l2. cbn [nodes]. rewrite En, E1, E2.
      split_and!; [nodes_eq|done|nodes_eq].
Qed.

Lemma removed_sorted k b l l' : sorted l -> removed_from k b l l' -> sorted l'.
Proof.
  intros Hs (l1 & key & l2 & -> & _ & ->). induction l1 as [|y l1 IH]; simpl in *; [tauto|].
  destruct Hs as [Hy Hs]. split; [|by apply IH].
  apply Forall_app in Hy as [H1 H2]. apply Forall_app. split; [done|].
  by apply Forall_cons_iff in H2 as [_ H2].
Qed.
End Order.

(** ** The trees of a program *)

(** A call of tsearch or tdelete, with whatever malloc gives. *)
Inductive tree_step (cmp : Z -> Z -> Z) (t : tree) : tree -> Prop :=
  | step_search new k t' ret :
      tsearch cmp new k (Some t) = Done (Some t', ret) -> tree_step cmp t t'
  | step_delete k t' ret :
      tdelete cmp k (Some t) = Done (Some t', ret) -> tree_step cmp t t'.

Definition tree_ok (cmp : Z -> Z -> Z) (t : tree) : Prop := avl t /\ sorted cmp (nodes t).

Section Laws.
Context (cmp : Z -> Z -> Z) `{Hcmp : !Comparator cmp}.

Lemma tsearch_cases new k t :
  tree_ok cmp t ->
  match look cmp k (nodes t), new with
  | Some b, _ => tsearch cmp new k (Some t) = Done (Some t, Some b)
  | None, None => tsearch cmp new k (Some t) = Done (Some t, None)
  | None, Some a => exists t', tsearch cmp new k (Some t) = Done (Some t', Some a) /\
      tree_ok cmp t' /\ inserted cmp (a, k) (nodes t) (nodes t')
  end.
Proof.
  intros [Ha Hs]. unfold tsearch. destruct (look cmp k (nodes t)) as [b|] eqn:El.
  - by rewrite (insert_found cmp new t k b Hs El).
  - destruct new as [a|].
    + destruct (insert_new cmp a t k Ha Hs El) as (t' & -> & Ha' & Hi & _). rewrite bind_Done.
      exists t'. split_and!; [done| |done]. split; [done|]. by eapply inserted_sorted.
    + by rewrite (insert_full cmp t k Hs El).
Qed.

Lemma tdelete_cases k t :
  tree_ok cmp t ->
  match look cmp k (nodes t) with
  | Some b => exists t' ret, tdelete cmp k (Some t) = Done (Some t', Some ret) /\
      tree_ok cmp t' /\ removed_from cmp k b (nodes t) (nodes t')
  | None => tdelete cmp k (Some t) = Done (Some t, None)
  end.
Proof.
  intros [Ha Hs]. rewrite <- (find_look cmp t k Hs). unfold tdelete.
  destruct (find cmp t k) as [b|] eqn:Ef.
  - destruct (remove_present cmp t k (addr_of t) b Ha Ef) as (t' & ret & -> & Ha' & Hr & _ & Hp).
    rewrite bind_Done. destruct Hp as [q ->]; [destruct t; [done|by eexists]|].
    exists t', q. split_and!; [done| |done]. split; [done|]. by eapply removed_sorted.
  - by rewrite (remove_absent cmp t k _ Ef).
Qed.

Lemma tree_step_ok t t' : tree_step cmp t t' -> tree_ok cmp t -> tree_ok cmp t'.
Proof.
  intros [new k t1 ret E|k t1 ret E] Hok.
  - pose proof (tsearch_cases new k t Hok) as H. destruct (look cmp k (nodes t)).
    + rewrite H in E. by injection E as <- _.
    + destruct new; [|rewrite H in E; by injection E as <- _].
      destruct H as (t2 & E2 & Hok2 & _). rewrite E2 in E. by injection E as <- _.
  - pose proof (tdelete_cases k t Hok) as H. destruct (look cmp k (nodes t)).
    + destruct H as (t2 & q & E2 & Hok2 & _). rewrite E2 in E. by injection E as <- _.
    + rewrite H in E. by injection E as <- _.
Qed.

Lemma tree_reach_ok t : rtc (tree_step cmp) Leaf t -> tree_ok cmp t.
Proof.
  assert (H : forall s, rtc (tree_step cmp) s t -> tree_ok cmp s -> tree_ok cmp t).
  { induction 1; eauto using tree_step_ok. }
  intros Hr. by apply (H Leaf).
Qed.
End Laws.

(** *** How high a tree can be *)

(** The fewest nodes of a tree of height [n] and of height [n + 1]. *)
Fixpoint fewest (n : nat) : Z * Z :=
  match n with O => (0, 1) | S n => let '(a, b) := fewest n in (b, a + b + 1) end.

Lemma fewest_S n : (fewest (S n)).1 = (fewest n).2.
Proof. simpl. by destruct (fewest n). Qed.

Lemma fewest_SS n : (fewest (S (S n))).1 = (fewest n).1 + (fewest (S n)).1 + 1.
Proof. rewrite fewest_S. simpl. by destruct (fewest n). Qed.

Lemma fewest_mono n m : (n <= m)%nat -> 0 <= (fewest n).1 <= (fewest m).1.
Proof.
  assert (Hpos : forall i, 0 <= (fewest i).1 /\ (fewest i).1 <= (fewest (S i)).1).
  { induction i as [|i [IH1 IH2]]; [done|]. rewrite fewest_SS. lia. }
  induction 1 as [|m _ IH]; [destruct (Hpos n); lia|]. destruct (Hpos m). lia.
Qed.

Lemma avl_fewest t : avl t -> (fewest (Z.to_nat (ht t))).1 <= Z.of_nat (length (nodes t)).
Proof.
  induction t as [|a k l IHl r IHr h]; [done|]. cbn [avl ht nodes].
  intros (Hl & Hr & -> & Hd). specialize (IHl Hl). specialize (IHr Hr). heights.
  rewrite length_app. simpl.
  set (n := Z.to_nat (Z.min (ht l) (ht r))).
  assert (H1 : (fewest n).1 <= Z.min (Z.of_nat (length (nodes l))) (Z.of_nat (length (nodes r)))).
  { pose proof (fewest_mono n (Z.to_nat (ht l)) ltac:(lia)).
    pose proof (fewest_mono n (Z.to_nat (ht r)) ltac:(lia)). lia. }
  assert (H2 : (fewest (Z.to_nat (Z.max (ht l) (ht r)))).1 <=
    Z.max (Z.of_nat (length (nodes l))) (Z.of_nat (length (nodes r)))).
  { destruct (Z.max_spec (ht l) (ht r)) as [[_ ->]|[_ ->]]; lia. }
  assert (H3 : (fewest n).1 + (fewest (Z.to_nat (Z.max (ht l) (ht r)))).1 <=
    Z.of_nat (length (nodes l)) + Z.of_nat (length (nodes r))).
  { unfold n in *. destruct (Z.le_ge_cases (ht l) (ht r)).
    - rewrite Z.min_l, Z.max_r in * by lia. lia.
    - rewrite Z.min_r, Z.max_l in * by lia. lia. }
  assert (H4 : (fewest (Z.to_nat (Z.max (ht l) (ht r) + 1))).1 <=
    (fewest n).1 + (fewest (Z.to_nat (Z.max (ht l) (ht r)))).1 + 1).
  { destruct (decide (ht l = ht r)) as [He|He].
    - rewrite He, Z.max_id in *. replace n with (Z.to_nat (ht r)) by (unfold n; lia).
      destruct (Z.to_nat (ht r)) as [|m] eqn:Em.
      + replace (Z.to_nat (ht r + 1)) with 1%nat by lia. done.
      + replace (Z.to_nat (ht r + 1)) with (S (S m)) by lia. rewrite fewest_SS.
        pose proof (fewest_mono m (S m) ltac:(lia)). lia.
    - replace (Z.to_nat (Z.max (ht l) (ht r) + 1)) with (S (S n)) by lia.
      replace (Z.to_nat (Z.max (ht l) (ht r))) with (S n) by lia. rewrite fewest_SS. lia. }
  lia.
Qed.

(** ** Theorems *)

(** C32. tsearch on any tree that tsearch and tdelete have built: a key that compares equal
    to one in the tree gives its node and changes nothing; a new key gives a new node,
    in its place in the order, all other nodes kept, and the tree sorted and balanced;
    without memory the tree is unchanged and the result NULL. tfind gives the node of
    the key before and after. *)
Theorem tsearch_correct cmp (Hcmp : Comparator cmp) t new k :
  rtc (tree_step cmp) Leaf t ->
  tfind cmp k (Some t) = look cmp k (nodes t) /\
  match look cmp k (nodes t), new with
  | Some b, _ => tsearch cmp new k (Some t) = Done (Some t, Some b)
  | None, None => tsearch cmp new k (Some t) = Done (Some t, None)
  | None, Some a => exists t', tsearch cmp new k (Some t) = Done (Some t', Some a) /\
      tree_ok cmp t' /\ inserted cmp (a, k) (nodes t) (nodes t') /\
      tfind cmp k (Some t') = look cmp k (nodes t')
  end.
Proof.
  intros Hr%tree_reach_ok; [|done]. pose proof (tsearch_cases cmp new k t Hr) as H.
  split; [by apply find_look, Hr|]. destruct (look cmp k (nodes t)); [done|].
  destruct new as [a|]; [|done]. destruct H as (t' & E & Hok & Hi). exists t'.
  split_and!; [done|done|done|]. by apply find_look, Hok.
Qed.

(** C33. tdelete on any such tree takes out the one node whose key compares equal, keeps
    all others in order, keeps the tree sorted and balanced, and returns a non-NULL
    node; without such a node it changes nothing and returns NULL. *)
Theorem tdelete_correct cmp (Hcmp : Comparator cmp) t k :
  rtc (tree_step cmp) Leaf t ->
  match look cmp k (nodes t) with
  | Some b => exists t' ret, tdelete cmp k (Some t) = Done (Some t', Some ret) /\
      tree_ok cmp t' /\ removed_from cmp k b (nodes t) (nodes t') /\
      tfind cmp k (Some t') = look cmp k (nodes t')
  | None => tdelete cmp k (Some t) = Done (Some t, None)
  end.
Proof.
  intros Hr%tree_reach_ok; [|done]. pose proof (tdelete_cases cmp k t Hr) as H.
  destruct (look cmp k (nodes t)); [|done]. destruct H as (t' & ret & E & Hok & Hi).
  exists t', ret. split_and!; [done|done|done|]. by apply find_look, Hok.
Qed.

(** The bound that the comment in the source gives: a tree of up to 2^32 nodes that the
    functions have built is at most 45 high, so that no recursion is deeper. *)
Theorem tree_height_bound cmp (Hcmp : Comparator cmp) t :
  rtc (tree_step cmp) Leaf t -> Z.of_nat (length (nodes t)) <= 2 ^ 32 -> ht t <= 45.
Proof.
  intros [Ha _]%tree_reach_ok Hn; [|done]. apply avl_fewest in Ha.
  destruct (Z_le_gt_dec (ht t) 45) as [|Hgt]; [done|].
  pose proof (fewest_mono 46 (Z.to_nat (ht t)) ltac:(lia)) as Hm.
  assert (H46 : 2 ^ 32 < (fewest 46).1) by (vm_compute; done). lia.
Qed.

(** twalk calls the action in order: the leaf and postorder visits, which every node
    has exactly once, are the nodes in the order of their keys. *)
Theorem twalk_in_order t :
  omap (fun '(a, v, _) => match v with postorder | leaf => Some a | _ => None end) (twalk t)
  = (nodes t).*1.
Proof.
  unfold twalk. generalize 0 as d.
  induction t as [|a k l IHl r IHr h]; intros d; [done|].
  assert (Hgen : omap (fun '(a, v, _) => match v with postorder | leaf => Some a | _ => None end)
    ((a, preorder, d) :: walk l (d + 1) ++ (a, postorder, d) :: walk r (d + 1) ++
      [(a, endorder, d)]) = (nodes l).*1 ++ a :: (nodes r).*1).
  { cbn [omap list_omap]. rewrite omap_app. f_equal; [apply IHl|].
    cbn [omap list_omap]. f_equal. rewrite omap_app, IHr. simpl. by rewrite app_nil_r. }
  cbn [nodes]. rewrite fmap_app. cbn [fmap list_fmap fst].
  destruct l, r; [done|exact Hgen|exact Hgen|exact Hgen].
Qed.

(** A tree with the keys 1, 2 and 3, which took a rotation to build. *)
Definition demo_tree : tree := Node 200 2 (Node 100 1 Leaf Leaf 1) (Node 300 3 Leaf Leaf 1) 2.

Lemma demo_tree_reach : rtc (tree_step Z.sub) Leaf demo_tree.
Proof.
  eapply rtc_l; [by eapply (step_search _ _ (Some 100) 1)|].
  eapply rtc_l; [by eapply (step_search _ _ (Some 200) 2)|].
  apply rtc_once. by eapply (step_search _ _ (Some 300) 3).
Qed.

Lemma tsearch_correct_witness :
  exists t', tsearch Z.sub (Some 400) 4 (Some demo_tree) = Done (Some t', Some 400) /\
    inserted Z.sub (400, 4) (nodes demo_tree) (nodes t').
Proof.
  destruct (tsearch_correct Z.sub sub_comparator demo_tree (Some 400) 4 demo_tree_reach)
    as [_ (t' & E & _ & Hi & _)]. by exists t'.
Defined.

Lemma tdelete_correct_witness :
  exists t' ret, tdelete Z.sub 2 (Some demo_tree) = Done (Some t', Some ret) /\
    removed_from Z.sub 2 200 (nodes demo_tree) (nodes t').
Proof.
  destruct (tdelete_correct Z.sub sub_comparator demo_tree 2 demo_tree_reach)
    as (t' & ret & E & _ & Hi & _). by exists t', ret.
Defined.

Lemma tree_height_bound_witness : ht demo_tree <= 45.
Proof.
  apply (tree_height_bound Z.sub sub_comparator demo_tree demo_tree_reach). vm_compute. done.
Defined.
