(* ===== verification/Rand48.v ===== *)
(** * The 48-bit random numbers (src/src/libc/compat/stdlib/rand48.c)

    A linear congruential generator on three 16-bit limbs. The limbs are multiplied as
    [int], where a product of two of them may overflow. *)

From stdpp Require Import base list numbers.
From Stdlib Require Import ZArith Lia.
From S2P Require Import Prelude.

Open Scope Z_scope.
Open Scope c_scope.

Definition RAND48_MULT0 : Z := 0xe66d.
Definition RAND48_MULT1 : Z := 0xdeec.
Definition RAND48_MULT2 : Z := 0x5.
Definition RAND48_ADD : Z := 0xb.

(** An [unsigned short[3]]. *)
Record limbs := mk_limbs { s0 : Z; s1 : Z; s2 : Z }.

(** The static variables. *)
Record rand48 := mk_rand48 {
  internal_state : limbs;
  multiplier0 : Z; multiplier1 : Z; multiplier2 : Z; additiver : Z }.

(** The product of two [unsigned short], an [int]. *)
Definition mul_int (a b : Z) : outcome Z :=
  if a * b <? 2 ^ 31 then Done (a * b) else Fail UB.

(** The sum of two [int]s. *)
Definition add_int (a b : Z) : outcome Z :=
  if a + b <? 2 ^ 31 then Done (a + b) else Fail UB.

(** [next]; [tmp] has 64 bits. The [int] products are evaluated before they are
    converted. *)
Definition next (r : rand48) (st : limbs) : outcome limbs :=
  p00 ← mul_int (s0 st) (multiplier0 r);
  tmp ← add_int p00 (additiver r);
  let n0 := tmp .& 0xffff in
  p01 ← mul_int (s0 st) (multiplier1 r);
  p10 ← mul_int (s1 st) (multiplier0 r);
  let tmp := wrap_u 64 (Z.shiftr tmp 16 + p01 + p10) in
  let n1 := tmp .& 0xffff in
  p02 ← mul_int (s0 st) (multiplier2 r);
  p11 ← mul_int (s1 st) (multiplier1 r);
  p20 ← mul_int (s2 st) (multiplier0 r);
  let tmp := wrap_u 64 (Z.shiftr tmp 16 + p02 + p11 + p20) in
  let n2 := tmp .& 0xffff in
  Done (mk_limbs n0 n1 n2).

(** [erand48]: the numerator of the fraction of 2^48 that is returned. *)
Definition erand48 (r : rand48) (st : limbs) : outcome (limbs * Z) :=
  st ← next r st;
  Done (st, s0 st .| Z.shiftl (s1 st) 16 .| Z.shiftl (s2 st) 32).

Definition nrand48 (r : rand48) (st : limbs) : outcome (limbs * Z) :=
  st ← next r st;
  Done (st, s2 st * 0x8000 + Z.shiftr (s1 st) 1).

(** [jrand48]; the arithmetic with doubles is exact for these numbers. *)
Definition jrand48 (r : rand48) (st : limbs) : outcome (limbs * Z) :=
  st ← next r st;
  Done (st, if negb (s2 st .& 0x8000 =? 0) then - ((s2 st .& 0x7fff) * 0x10000) + s1 st
            else (s2 st .& 0x7fff) * 0x10000 + s1 st).

Definition set_internal (r : rand48) (st : limbs) : rand48 :=
  mk_rand48 st (multiplier0 r) (multiplier1 r) (multiplier2 r) (additiver r).

(** The variants on [internal_state]. *)
Definition drand48 (r : rand48) : outcome (rand48 * Z) :=
  '(st, v) ← erand48 r (internal_state r); Done (set_internal r st, v).
Definition lrand48 (r : rand48) : outcome (rand48 * Z) :=
  '(st, v) ← nrand48 r (internal_state r); Done (set_internal r st, v).
Definition mrand48 (r : rand48) : outcome (rand48 * Z) :=
  '(st, v) ← jrand48 r (internal_state r); Done (set_internal r st, v).

(** The default multipliers, with the state [st]. *)
Definition default_params (st : limbs) : rand48 :=
  mk_rand48 st RAND48_MULT0 RAND48_MULT1 RAND48_MULT2 RAND48_ADD.

(** The variables when a program starts. *)
Definition rand48_start : rand48 := default_params (mk_limbs 1 0 0).

Definition srand48 (r : rand48) (seedval : Z) : rand48 :=
  default_params (mk_limbs 0x330e (seedval .& 0xffff) (Z.shiftr seedval 16 .& 0xffff)).

(** [seed48] returns the old state. *)
Definition seed48 (r : rand48) (seed : limbs) : rand48 * limbs :=
  (default_params seed, internal_state r).

(** [lcong48]; an array of fewer than seven elements is read out of bounds. *)
Definition lcong48 (r : rand48) (param : list Z) : outcome rand48 :=
  match param with
  | p0 :: p1 :: p2 :: p3 :: p4 :: p5 :: p6 :: _ =>
      Done (mk_rand48 (mk_limbs p0 p1 p2) p3 p4 p5 p6)
  | _ => Fail UB
  end.

(** ** Theorems *)

Definition ushort (x : Z) : Prop := 0 <= x < 2 ^ 16.

(** The number that three limbs stand for. *)
Definition value (st : limbs) : Z := s0 st + s1 st * 2 ^ 16 + s2 st * 2 ^ 32.

Definition limbs_ok (st : limbs) : Prop := ushort (s0 st) /\ ushort (s1 st) /\ ushort (s2 st).

Definition params_ok (r : rand48) : Prop :=
  ushort (multiplier0 r) /\ ushort (multiplier1 r) /\ ushort (multiplier2 r) /\
  ushort (additiver r).

Definition multiplier (r : rand48) : Z :=
  multiplier0 r + multiplier1 r * 2 ^ 16 + multiplier2 r * 2 ^ 32.

(** No product of two limbs that [next] forms has 32 bits. *)
Definition no_overflow (r : rand48) (st : limbs) : Prop :=
  s0 st * multiplier0 r + additiver r < 2 ^ 31 /\ s0 st * multiplier1 r < 2 ^ 31 /\
  s1 st * multiplier0 r < 2 ^ 31 /\ s0 st * multiplier2 r < 2 ^ 31 /\
  s1 st * multiplier1 r < 2 ^ 31 /\ s2 st * multiplier0 r < 2 ^ 31.

Lemma land_ffff x : x .& 0xffff = x mod 2 ^ 16.
Proof. exact (Z.land_ones x 16 ltac:(lia)). Qed.

Lemma mul_int_Done a b : a * b < 2 ^ 31 -> mul_int a b = Done (a * b).
Proof. intros H. unfold mul_int. by rewrite (proj2 (Z.ltb_lt _ _) H). Qed.

(** The carries of the limb-wise product. *)
Lemma limbs_mod t0 t1 t2 x y z :
  t0 = x -> t1 = t0 / 2 ^ 16 + y -> t2 = t1 / 2 ^ 16 + z ->
  t0 mod 2 ^ 16 + (t1 mod 2 ^ 16) * 2 ^ 16 + (t2 mod 2 ^ 16) * 2 ^ 32 =
  (x + y * 2 ^ 16 + z * 2 ^ 32) mod 2 ^ 48.
Proof.
  intros -> E1 E2. pose proof (Z.div_mod x (2 ^ 16) ltac:(lia)).
  pose proof (Z.div_mod t1 (2 ^ 16) ltac:(lia)). pose proof (Z.div_mod t2 (2 ^ 16) ltac:(lia)).
  pose proof (Z.mod_pos_bound x (2 ^ 16) ltac:(lia)).
  pose proof (Z.mod_pos_bound t1 (2 ^ 16) ltac:(lia)).
  pose proof (Z.mod_pos_bound t2 (2 ^ 16) ltac:(lia)).
  apply (Z.mod_unique_pos _ _ (t2 / 2 ^ 16)); lia.
Qed.

Lemma next_spec r st :
  params_ok r -> limbs_ok st -> no_overflow r st ->
  exists st', next r st = Done st' /\ limbs_ok st' /\
    value st' = (value st * multiplier r + additiver r) mod 2 ^ 48.
Proof.
  intros (M0 & M1 & M2 & Ma) (S0 & S1 & S2) (O0 & O1 & O2 & O3 & O4 & O5). unfold ushort in *.
  unfold next. rewrite !mul_int_Done by lia. cbn [mbind outcome_bind]. unfold add_int.
  rewrite (proj2 (Z.ltb_lt _ _) O0). cbn [mbind outcome_bind]. rewrite !land_ffff.
  rewrite !Z.shiftr_div_pow2 by lia.
  set (x := s0 st * multiplier0 r + additiver r) in *.
  set (y := s0 st * multiplier1 r + s1 st * multiplier0 r).
  set (z := s0 st * multiplier2 r + s1 st * multiplier1 r + s2 st * multiplier0 r).
  assert (Hx : 0 <= x) by (unfold x; nia). assert (Hy : 0 <= y < 2 ^ 32) by (unfold y; nia).
  assert (Hz : 0 <= z < 2 ^ 33) by (unfold z; nia).
  assert (Hc : 0 <= x / 2 ^ 16 < 2 ^ 16).
  { split; [apply Z.div_pos; lia|apply Z.div_lt_upper_bound; lia]. }
  replace (wrap_u 64 (x / 2 ^ 16 + s0 st * multiplier1 r + s1 st * multiplier0 r))
    with (x / 2 ^ 16 + y) by (rewrite wrap_u_small; unfold y in *; lia).
  set (t1 := x / 2 ^ 16 + y).
  assert (Hc1 : 0 <= t1 / 2 ^ 16 < 2 ^ 17).
  { unfold t1. split; [apply Z.div_pos; lia|apply Z.div_lt_upper_bound; lia]. }
  replace (wrap_u 64 (t1 / 2 ^ 16 + s0 st * multiplier2 r + s1 st * multiplier1 r +
    s2 st * multiplier0 r)) with (t1 / 2 ^ 16 + z) by (rewrite wrap_u_small; unfold z in *; lia).
  eexists. split; [reflexivity|]. split.
  - unfold limbs_ok, ushort. simpl. split_and!; apply Z.mod_pos_bound; lia.
  - unfold value at 1. cbn [s0 s1 s2].
    rewrite (limbs_mod x t1 (t1 / 2 ^ 16 + z) x y z) by done.
    rewrite <- (Z.mod_add _ (s1 st * multiplier2 r + s2 st * multiplier1 r +
      s2 st * multiplier2 r * 2 ^ 16) (2 ^ 48)) by lia.
    f_equal. unfold value, multiplier, x, y, z. lia.
Qed.

Lemma lor_limbs st :
  limbs_ok st -> s0 st .| Z.shiftl (s1 st) 16 .| Z.shiftl (s2 st) 32 = value st.
Proof.
  intros (S0 & S1 & S2). unfold ushort, value in *.
  rewrite (lor_shiftl_add 16) by lia. by rewrite lor_shiftl_add by lia.
Qed.

(** Where no product of limbs overflows, [next] is the linear congruential step modulo
    2^48 on the number that the limbs stand for; drand48 gives it as the fraction of
    2^48, lrand48 its upper 31 bits. *)
Theorem rand48_is_lcg r st :
  params_ok r -> limbs_ok st -> no_overflow r st ->
  exists st', next r st = Done st' /\ limbs_ok st' /\
    value st' = (value st * multiplier r + additiver r) mod 2 ^ 48 /\
    erand48 r st = Done (st', value st') /\ nrand48 r st = Done (st', value st' / 2 ^ 17) /\
    0 <= value st' / 2 ^ 17 < 2 ^ 31.
Proof.
  intros Hp Hs Ho. destruct (next_spec r st Hp Hs Ho) as (st' & E & Hs' & Hv).
  exists st'. unfold erand48, nrand48. rewrite E, !bind_Done, lor_limbs by done.
  assert (Hq : value st' / 2 ^ 17 = s2 st' * 0x8000 + s1 st' / 2).
  { destruct Hs' as (S0 & S1 & S2). unfold ushort, value in *.
    symmetry. pose proof (Z.div_mod (s1 st') 2 ltac:(lia)).
    pose proof (Z.mod_pos_bound (s1 st') 2 ltac:(lia)).
    apply (Z.div_unique_pos _ _ _ (s0 st' + (s1 st' mod 2) * 2 ^ 16)); lia. }
  split_and!; try done.
  - rewrite Z.shiftr_div_pow2 by lia. by rewrite Hq.
  - rewrite Hv. apply Z.div_pos; [|lia]. apply Z.mod_pos_bound. lia.
  - apply Z.div_lt_upper_bound; [lia|]. rewrite Hv. apply Z.mod_pos_bound. lia.
Qed.

(** The product of the first limbs overflows an [int] for nearly half of the states
    that the default multiplier meets. *)
Theorem rand48_overflows st :
  36405 <= s0 st < 2 ^ 16 -> next (default_params st) st = Fail UB.
Proof.
  intros H. unfold next. change (multiplier0 (default_params st)) with 58989.
  assert (E : mul_int (s0 st) 58989 = Fail UB).
  { unfold mul_int. rewrite (proj2 (Z.ltb_ge (s0 st * 58989) (2 ^ 31))); [done|].
    change (2 ^ 31) with 2147483648. lia. }
  by rewrite E.
Qed.

(** The signed number of jrand48 is the one that the upper 32 bits stand for exactly
    where they are not negative (or, by coincidence, where the upper limb is 0xC000):
    a negative one is computed from its magnitude bits as if they were not in two's
    complement. *)
Theorem jrand48_sign r st st' :
  next r st = Done st' -> limbs_ok st' ->
  exists v, jrand48 r st = Done (st', v) /\
    (v = wrap_s 32 (s2 st' * 2 ^ 16 + s1 st') <-> s2 st' < 0x8000 \/ s2 st' = 0xC000).
Proof.
  intros E (_ & S1 & S2). unfold ushort in *. unfold jrand48. rewrite E, bind_Done.
  eexists. split; [reflexivity|].
  assert (H7 : s2 st' .& 0x7fff = s2 st' mod 2 ^ 15) by exact (Z.land_ones _ 15 ltac:(lia)).
  assert (H8 : (s2 st' .& 0x8000 =? 0) = (s2 st' <? 0x8000)).
  { change 0x8000 with (2 ^ 15) at 1. rewrite <- (Z.shiftl_1_l 15).
    destruct (Z.ltb_spec (s2 st') 0x8000) as [Hlt|Hge].
    - apply Z.eqb_eq. apply Z.bits_inj'. intros i Hi. rewrite Z.land_spec, Z.bits_0.
      destruct (decide (i = 15)) as [->|].
      + destruct (decide (s2 st' = 0)) as [->|]; [by rewrite Z.bits_0|].
        rewrite (Z.bits_above_log2 (s2 st')); [done|lia|]. apply Z.log2_lt_pow2; lia.
      + rewrite Z.shiftl_1_l, Z.pow2_bits_false by done. apply andb_false_r.
    - apply Z.eqb_neq. intros E0. assert (Hb : Z.testbit (s2 st' .& Z.shiftl 1 15) 15 = false)
        by (by rewrite E0, Z.bits_0).
      rewrite Z.land_spec, Z.shiftl_1_l, Z.pow2_bits_true, andb_true_r in Hb by lia.
      rewrite Z.testbit_true in Hb || apply Z.testbit_false in Hb; [|lia].
      assert (Hq : s2 st' / 2 ^ 15 = 1)
        by (symmetry; apply (Z.div_unique_pos _ _ _ (s2 st' - 2 ^ 15)); lia).
      rewrite Hq in Hb. done. }
  rewrite H7, H8. unfold wrap_s. change (2 ^ (32 - 1)) with (2 ^ 31).
  destruct (Z.ltb_spec (s2 st') 0x8000) as [Hlt|Hge]; cbn [negb].
  - rewrite Z.mod_small, (Z.mod_small (_ + 2 ^ 31)) by lia. lia.
  - replace (s2 st' mod 2 ^ 15) with (s2 st' - 2 ^ 15)
      by (apply (Z.mod_unique_pos _ _ 1); lia).
    replace ((s2 st' * 2 ^ 16 + s1 st' + 2 ^ 31) mod 2 ^ 32)
      with (s2 st' * 2 ^ 16 + s1 st' + 2 ^ 31 - 2 ^ 32) by (apply (Z.mod_unique_pos _ _ 1); lia).
    lia.
Qed.

Lemma rand48_is_lcg_witness :
  exists st', next rand48_start (internal_state rand48_start) = Done st' /\
    value st' = (1 * 0x5deece66d + 11) mod 2 ^ 48.
Proof.
  destruct (rand48_is_lcg rand48_start (internal_state rand48_start)) as (st' & E & _ & Hv & _);
    [by repeat split|by repeat split|by repeat split|]. by exists st'.
Defined.

(** The state after the first number. *)
Definition demo_limbs : limbs := mk_limbs 0xe678 0xdeec 5.

Lemma rand48_overflows_witness :
  lrand48 rand48_start = Done (default_params demo_limbs, value demo_limbs / 2 ^ 17) /\
  next (default_params demo_limbs) demo_limbs = Fail UB.
Proof.
  split; [vm_compute; reflexivity|]. apply (rand48_overflows demo_limbs). simpl. lia.
Defined.

(** A state whose successor is negative: the step with multiplier 1 and no addition. *)
Definition demo_negative : limbs := mk_limbs 0 0 0x8000.

Lemma jrand48_sign_witness :
  exists v, jrand48 (mk_rand48 demo_negative 1 0 0 0) demo_negative = Done (demo_negative, v) /\
    v <> wrap_s 32 (0x8000 * 2 ^ 16 + 0).
Proof.
  destruct (jrand48_sign (mk_rand48 demo_negative 1 0 0 0) demo_negative demo_negative)
    as (v & E & H); [vm_compute; reflexivity|by repeat split|].
  exists v. split; [exact E|]. simpl in H. lia.
Defined.
