(* ===== verification/LSearch.v ===== *)
(** * Linear search and queues

    src/src/libc/posix/search/lfind.c (lfind, lsearch) over byte memory, and
    src/src/libc/compat/search/insque.c, remque.c over a store of queue elements. *)

From stdpp Require Import base gmap list numbers.
From Stdlib Require Import ZArith Lia.
From S2P Require Import Prelude MemFuns.

Open Scope Z_scope.

(** ** lfind and lsearch *)

(** The comparison of the element at an address with the key is a parameter. The
    results are the memory, [*nelp] and the returned pointer. *)
Definition l_general (compar : Z -> Z) (m : mem) (key base nelp width : Z) (add : bool)
  : outcome (mem * Z * Z) :=
  '(base, i) ← loop (S (Z.to_nat nelp)) (fun '(base, i) =>
      if (i <? nelp) && negb (compar base =? 0) then Done (inl (base + width, i + 1))
      else Done (inr (base, i))) (base, 0);
  if i <? nelp then Done (m, nelp, base)
  else if add then
    '(m, _) ← memcpy m base key width;
    Done (m, nelp + 1, base)
  else Done (m, nelp, 0).

Definition lfind (compar : Z -> Z) (m : mem) (key base nelp width : Z) : outcome (mem * Z * Z) :=
  l_general compar m key base nelp width false.

Definition lsearch (compar : Z -> Z) (m : mem) (key base nelp width : Z)
  : outcome (mem * Z * Z) :=
  l_general compar m key base nelp width true.

(** ** insque and remque *)

(** struct qelem: the links. 0 is NULL. *)
Record qelem := mk_q { q_forw : Z; q_back : Z }.

Definition q_get (s : gmap Z qelem) (p : Z) : outcome qelem :=
  match s !! p with Some q => Done q | None => Fail UB end.

Definition insque (s : gmap Z qelem) (e p : Z) : outcome (gmap Z qelem) :=
  if (e =? 0) || (p =? 0) then Done s
  else
    qe ← q_get s e;
    let s := <[e := mk_q (q_forw qe) p]> s in
    qp ← q_get s p;
    qe ← q_get s e;
    let s := <[e := mk_q (q_forw qp) (q_back qe)]> s in
    qp ← q_get s p;
    s ← (if negb (q_forw qp =? 0) then
           qf ← q_get s (q_forw qp);
           Done (<[q_forw qp := mk_q (q_forw qf) e]> s)
         else Done s);
    qp ← q_get s p;
    Done (<[p := mk_q e (q_back qp)]> s).

Definition remque (s : gmap Z qelem) (e : Z) : outcome (gmap Z qelem) :=
  if e =? 0 then Done s
  else
    qe ← q_get s e;
    s ← (if negb (q_forw qe =? 0) then
           qf ← q_get s (q_forw qe);
           Done (<[q_forw qe := mk_q (q_forw qf) (q_back qe)]> s)
         else Done s);
    qe ← q_get s e;
    if negb (q_back qe =? 0) then
      qb ← q_get s (q_back qe);
      Done (<[q_back qe := mk_q (q_forw qe) (q_back qb)]> s)
    else Done s.

(** ** Theorems *)

(** Where the loop of the search stops. *)
Lemma l_loop_spec compar base nelp width :
  0 <= nelp ->
  exists i, 0 <= i <= nelp /\
    loop (S (Z.to_nat nelp)) (fun '(b, i) =>
      if (i <? nelp) && negb (compar b =? 0) then Done (inl (b + width, i + 1))
      else Done (inr (b, i))) (base, 0) = Done (base + i * width, i) /\
    (forall j, 0 <= j < i -> compar (base + j * width) <> 0) /\
    (i < nelp -> compar (base + i * width) = 0).
Proof.
  intros Hn.
  destruct (loop_total
    (fun '(b, i) => 0 <= i <= nelp /\ b = base + i * width /\
       forall j, 0 <= j < i -> compar (base + j * width) <> 0)
    (fun '(b, i) => 0 <= i <= nelp /\ b = base + i * width /\
       (forall j, 0 <= j < i -> compar (base + j * width) <> 0) /\
       (i < nelp -> compar (base + i * width) = 0))
    (fun '(_, i) => Z.to_nat (nelp - i))
    (fun '(b, i) =>
      if (i <? nelp) && negb (compar b =? 0) then Done (inl (b + width, i + 1))
      else Done (inr (b, i)))) with (fuel := S (Z.to_nat nelp)) (s := (base, 0))
    as ([b i] & E & Hi & -> & H1 & H2).
  - intros [b i] (Hi & -> & Hj). destruct (Z.ltb_spec i nelp) as [Hlt|Hge]; cbn [andb].
    + destruct (Z.eqb_spec (compar (base + i * width)) 0) as [E|E]; cbn [negb].
      * split_and!; try done; lia.
      * split; [|lia]. split_and!; [lia|lia|lia|]. intros j Hj'.
        destruct (decide (j = i)) as [->|]; [done|]. apply Hj. lia.
    + split_and!; [lia|lia|done|done|lia].
  - split_and!; [lia|lia|lia|]. intros j Hj. lia.
  - simpl. lia.
  - exists i. split_and!; try done; lia.
Qed.

(** lfind and lsearch return the first element that compares equal and change nothing;
    without one lfind returns NULL, and lsearch appends a copy of the key, counts it,
    and returns its address. *)
Theorem lsearch_correct compar m key base nelp width l :
  0 <= nelp -> bytes_at m key l -> bytes_ok l -> width = Z.of_nat (length l) ->
  mapped m (base + nelp * width) (length l) ->
  key + width <= base + nelp * width \/ base + nelp * width + width <= key ->
  (exists i, 0 <= i < nelp /\ compar (base + i * width) = 0 /\
     (forall j, 0 <= j < i -> compar (base + j * width) <> 0) /\
     lfind compar m key base nelp width = Done (m, nelp, base + i * width) /\
     lsearch compar m key base nelp width = Done (m, nelp, base + i * width)) \/
  ((forall j, 0 <= j < nelp -> compar (base + j * width) <> 0) /\
   lfind compar m key base nelp width = Done (m, nelp, 0) /\
   lsearch compar m key base nelp width =
     Done (write_bytes m (base + nelp * width) l, nelp + 1, base + nelp * width)).
Proof.
  intros Hn Hk Hok Hw Hm Hd. unfold lfind, lsearch, l_general.
  destruct (l_loop_spec compar base nelp width Hn) as (i & Hi & -> & H1 & H2).
  rewrite !bind_Done. destruct (Z.ltb_spec i nelp) as [Hlt|Hge].
  - left. exists i. split_and!; try done; [lia|by apply H2].
  - right. assert (i = nelp) as -> by lia. split_and!; [done|done|].
    rewrite Hw, memcpy_spec; [by rewrite bind_Done|done|done| |]; rewrite <- Hw; [done|lia].
Qed.

(** One element of two bytes, room for a second one, and the key behind it. *)
Lemma lsearch_correct_witness :
  let m := mem_of 90 [1; 2; 3; 4; 5; 6] in
  lfind (fun _ => 1) m 94 90 1 2 = Done (m, 1, 0) /\
  lsearch (fun _ => 1) m 94 90 1 2 = Done (write_bytes m 92 [5; 6], 2, 92).
Proof.
  intros m. destruct (lsearch_correct (fun _ => 1) m 94 90 1 2 [5; 6])
    as [(i & _ & E & _)|(_ & E1 & E2)];
    [lia|by apply bytes_at_b_iff|by repeat constructor|done|by apply mapped_b_iff|simpl; lia| |].
  - discriminate.
  - by split.
Defined.

(** *** Queues *)

(** The elements [l] are linked one after the other, between [prev] and [nxt]. *)
Fixpoint seg (s : gmap Z qelem) (prev : Z) (l : list Z) (nxt : Z) : Prop :=
  match l with
  | [] => True
  | a :: l' => s !! a = Some (mk_q (hd nxt l') prev) /\ seg s a l' nxt
  end.

(** The last element, [prev] if there is none. *)
Fixpoint last_of (prev : Z) (l : list Z) : Z :=
  match l with [] => prev | a :: l' => last_of a l' end.

Lemma seg_app s prev l1 a l2 nxt :
  seg s prev (l1 ++ a :: l2) nxt <-> seg s prev l1 a /\ seg s (last_of prev l1) (a :: l2) nxt.
Proof.
  revert prev. induction l1 as [|b l1 IH]; intros prev; [simpl; tauto|].
  cbn [app seg last_of]. rewrite IH. cbn [seg]. replace (hd nxt (l1 ++ a :: l2)) with (hd a l1); [tauto|].
  by destruct l1.
Qed.

Lemma seg_insert s prev l nxt a q : a ∉ l -> seg s prev l nxt -> seg (<[a := q]> s) prev l nxt.
Proof.
  revert prev. induction l as [|b l IH]; intros prev Ha; [done|].
  apply not_elem_of_cons in Ha as [Hne Ha]. cbn [seg]. intros [H1 H2].
  split; [by rewrite lookup_insert_ne|by apply IH].
Qed.

Lemma q_get_Some s p q : s !! p = Some q -> q_get s p = Done q.
Proof. unfold q_get. by intros ->. Qed.

(** The last element of a segment links to what follows. *)
Lemma seg_last s prev l a nxt :
  seg s prev (l ++ [a]) nxt <-> seg s prev l a /\ s !! a = Some (mk_q nxt (last_of prev l)).
Proof. rewrite seg_app. simpl. tauto. Qed.

(** Evaluate the lookups of a function on queues. *)
Ltac q_eval :=
  repeat first [rewrite bind_Done | rewrite Z.eqb_refl | progress simplify_map_eq
               | progress cbn [negb q_forw q_back]].

(** A segment that no write has touched. *)
Ltac q_frame := repeat (apply seg_insert; [done|]); done.

(** All addresses of a list, and the element that enters it, differ. *)
Section Queue.
Context (l1 : list Z) (p : Z) (l2 : list Z) (e : Z).
Hypothesis Hnd : NoDup (e :: l1 ++ p :: l2).
Hypothesis H0 : 0 ∉ e :: l1 ++ p :: l2.

Lemma apart :
  (e <> 0 /\ p <> 0 /\ p <> e) /\ ((e ∉ l1) /\ (e ∉ l2) /\ (p ∉ l1) /\ (p ∉ l2)) /\
  (forall b l, l2 = b :: l -> b <> 0 /\ b <> e /\ b <> p /\ (b ∉ l1) /\ (b ∉ l)).
Proof.
  pose proof Hnd as Hn. inversion Hn as [|? ? Hel Hnd1]; subst.
  apply not_elem_of_app in Hel as [Hel1 Hel2]. apply not_elem_of_cons in Hel2 as [Hep Hel2].
  apply list.NoDup_app in Hnd1 as (_ & Hdis & Hnd2). inversion Hnd2 as [|? ? Hpl2 Hnd3]; subst.
  apply not_elem_of_cons in H0 as [H0e H0']. apply not_elem_of_app in H0' as [_ H0'].
  apply not_elem_of_cons in H0' as [H0p H02].
  split_and!; try done; [intros Hin; apply (Hdis p Hin); constructor|].
  intros b l ->. apply not_elem_of_cons in H02 as [H0b _].
  apply not_elem_of_cons in Hel2 as [Heb _]. apply not_elem_of_cons in Hpl2 as [Hpb _].
  inversion Hnd3 as [|? ? Hbl _]; subst. split_and!; try done.
  intros Hin. apply (Hdis b Hin), elem_of_cons. right. constructor.
Qed.

Lemma insque_links s :
  seg s 0 (l1 ++ p :: l2) 0 -> is_Some (s !! e) ->
  exists s', insque s e p = Done s' /\ seg s' 0 (l1 ++ p :: e :: l2) 0.
Proof.
  intros Hs [qe He]. apply seg_app in Hs as [Hs1 [Hp Hs2]].
  destruct apart as ((? & ? & ?) & (? & ? & ? & ?) & Hb).
  unfold insque, q_get. rewrite (proj2 (Z.eqb_neq e 0)), (proj2 (Z.eqb_neq p 0)) by done.
  cbn [orb]. q_eval. destruct l2 as [|b l]; cbn [hd] in *; q_eval.
  - eexists. split; [reflexivity|]. apply seg_app. split; [q_frame|]. cbn [seg hd]. by q_eval.
  - destruct (Hb b l eq_refl) as (? & ? & ? & ? & ?). destruct Hs2 as [Hbl Hs2].
    repeat match goal with H : _ ∉ _ :: _ |- _ => apply not_elem_of_cons in H as [_ H] end.
    rewrite (proj2 (Z.eqb_neq b 0)) by done. q_eval. eexists. split; [reflexivity|].
    apply seg_app. split; [q_frame|]. cbn [seg hd]. q_eval. split_and!; try done. q_frame.
Qed.

Lemma remque_links s :
  seg s 0 (l1 ++ p :: e :: l2) 0 ->
  exists s', remque s e = Done s' /\ seg s' 0 (l1 ++ p :: l2) 0.
Proof.
  intros Hs. apply seg_app in Hs as [Hs1 (Hp & He & Hs2)]. cbn [hd] in Hp.
  destruct apart as ((? & ? & ?) & (? & ? & ? & ?) & Hb).
  unfold remque, q_get. rewrite (proj2 (Z.eqb_neq e 0)) by done. q_eval.
  destruct l2 as [|b l]; cbn [hd] in *; q_eval.
  - rewrite (proj2 (Z.eqb_neq p 0)) by done. q_eval. eexists. split; [reflexivity|].
    apply seg_app. split; [q_frame|]. cbn [seg hd]. by q_eval.
  - destruct (Hb b l eq_refl) as (? & ? & ? & ? & ?). destruct Hs2 as [Hbl Hs2].
    repeat match goal with H : _ ∉ _ :: _ |- _ => apply not_elem_of_cons in H as [_ H] end.
    rewrite (proj2 (Z.eqb_neq b 0)) by done. q_eval.
    rewrite (proj2 (Z.eqb_neq p 0)) by done. q_eval. eexists. split; [reflexivity|].
    apply seg_app. split; [q_frame|]. cbn [seg hd]. q_eval. split_and!; try done. q_frame.
Qed.
End Queue.

(** insque puts an element behind another one of a list that ends with NULL on both
    sides, and remque takes it out again: the links of the list are what they were. *)
Theorem insque_remque s l1 p l2 e :
  seg s 0 (l1 ++ p :: l2) 0 -> NoDup (e :: l1 ++ p :: l2) -> 0 ∉ e :: l1 ++ p :: l2 ->
  is_Some (s !! e) ->
  exists s' s'', insque s e p = Done s' /\ seg s' 0 (l1 ++ p :: e :: l2) 0 /\
    remque s' e = Done s'' /\ seg s'' 0 (l1 ++ p :: l2) 0.
Proof.
  intros Hs Hnd H0 He. destruct (insque_links l1 p l2 e Hnd H0 s Hs He) as (s' & E & Hs').
  destruct (remque_links l1 p l2 e Hnd H0 s' Hs') as (s'' & E' & Hs''). by exists s', s''.
Qed.

(** 10 <-> 20 <-> 30, and 40 is put behind 20. *)
Definition demo_queue : gmap Z qelem :=
  <[10 := mk_q 20 0]> (<[20 := mk_q 30 10]> (<[30 := mk_q 0 20]> (<[40 := mk_q 0 0]> ∅))).

Lemma insque_remque_witness :
  exists s' s'', insque demo_queue 40 20 = Done s' /\ seg s' 0 [10; 20; 40; 30] 0 /\
    remque s' 40 = Done s'' /\ seg s'' 0 [10; 20; 30] 0.
Proof.
  apply (insque_remque demo_queue [10] 20 [30] 40).
  - vm_compute. by split_and!.
  - apply (bool_decide_unpack _). vm_compute. exact I.
  - apply (bool_decide_unpack _). vm_compute. exact I.
  - vm_compute. by eexists.
Defined.
