(* ===== verification/SwapCtx.v ===== *)
(** * Swappable contexts

    include/libc/djctx.h: the libc keeps the static state of a file once per
    dj64 handle. The macro DJ64_DEFINE_SWAPPABLE_CONTEXT3(t, c, init, pre, post,
    cinit) makes an array of [struct t], one entry for each handle, with a
    pointer [c] to the current one, and four functions that the thunk layer calls
    as its context hooks. [pre] copies global variables into [*c] before another
    handle may run, [post] copies them back.

    The four functions are defined over any [struct t]; the last part composes
    them with the hooks of the thunk layer and shows that the calls of one handle
    leave the private state of every other handle alone. *)

From stdpp Require Import base gmap list numbers.
From Stdlib Require Import ZArith Lia.
From S2P Require Import Prelude ThunkState Thunks ThunkProps.

Open Scope Z_scope.
Open Scope c_scope.

Definition SW_CTX_MAX : Z := 100.

(** The arguments of the macro: [T] is [struct t], [G] the global variables that
    [pre] and [post] copy. An absent [pre] does not look at [c]. *)
Record swdef (T G : Type) := mk_swdef {
  d_init : T;
  d_cinit : nat -> T -> T;
  d_pre : option (G -> T -> T);
  d_post : T -> G -> G }.
Arguments mk_swdef {T G}. Arguments d_init {T G}. Arguments d_cinit {T G}.
Arguments d_pre {T G}. Arguments d_post {T G}.

(** The array [t_contexts], the pointer [c] and the global variables. *)
Record swctx (T G : Type) := mk_sw {
  sw_contexts : list T;
  sw_cur : option nat;
  sw_glob : G }.
Arguments mk_sw {T G}. Arguments sw_contexts {T G}. Arguments sw_cur {T G}.
Arguments sw_glob {T G}.

Section Macro.
Context {T G : Type} (d : swdef T G).
Implicit Types s : swctx T G.

(** [&t_contexts[idx]]: only an element of the array has an address. *)
Definition ctx_at (idx : Z) : outcome nat :=
  if (0 <=? idx) && (idx <? SW_CTX_MAX) then Done (Z.to_nat idx) else Fail UB.

Definition t_init (idx : Z) s : outcome (swctx T G) :=
  x ← ctx_at idx;
  _ ← c_assert (negb (bool_decide (sw_cur s = Some x)));
  Done (mk_sw (<[x := d_cinit d x (d_init d)]> (sw_contexts s)) (sw_cur s) (sw_glob s)).

Definition t_deinit s : outcome (swctx T G) :=
  Done (mk_sw (sw_contexts s) None (sw_glob s)).

Definition t_save s : outcome (swctx T G) :=
  match d_pre d with
  | None => Done s
  | Some pre =>
      x ← deref (sw_cur s);
      v ← deref (sw_contexts s !! x);
      Done (mk_sw (<[x := pre (sw_glob s) v]> (sw_contexts s)) (sw_cur s) (sw_glob s))
  end.

Definition t_restore (idx : Z) s : outcome (swctx T G) :=
  x ← ctx_at idx;
  if bool_decide (sw_cur s = Some x) then Done s
  else
    v ← deref (sw_contexts s !! x);
    Done (mk_sw (sw_contexts s) (Some x) (d_post d v (sw_glob s))).

(** What [pre] and [post] of every use of the macro satisfy: they copy the same
    fields. *)
Definition pre_fn (g : G) (t : T) : T :=
  match d_pre d with Some pre => pre g t | None => t end.

Class SwLaws := {
  pre_post : forall t g, pre_fn (d_post d t g) t = t;
  pre_pre : forall g t, pre_fn g (pre_fn g t) = pre_fn g t;
  post_pre : forall g t g', d_post d (pre_fn g t) g' = g }.

(** ** The private state of a handle *)

(** What handle [h] owns: the element of the array, with the global variables
    where they are its own at the moment. *)
Definition private s (h : nat) : option T :=
  if decide (sw_cur s = Some h) then pre_fn (sw_glob s) <$> sw_contexts s !! h
  else sw_contexts s !! h.

(** The copy of the current handle is up to date. *)
Definition settled s : Prop :=
  forall h, sw_cur s = Some h -> private s h = sw_contexts s !! h.

Lemma ctx_at_Done idx x : ctx_at idx = Done x -> idx = Z.of_nat x.
Proof. unfold ctx_at. destruct (_ && _) eqn:E; [|done]. intros [= <-]. lia. Qed.

Context {laws : SwLaws}.

Lemma t_save_private s s' :
  t_save s = Done s' ->
  settled s' /\ sw_cur s' = sw_cur s /\ sw_glob s' = sw_glob s /\
  forall h, private s' h = private s h.
Proof.
  unfold t_save, settled, private. pose proof pre_pre as Hpp. unfold pre_fn in *.
  destruct (d_pre d) as [pre|]; intros H.
  - apply bind_inv in H as (x & Hx%deref_Done & H).
    apply bind_inv in H as (v & Hv%deref_Done & [= <-]). cbn [sw_cur sw_glob sw_contexts].
    rewrite Hx. assert (Hl := lookup_lt_Some _ _ _ Hv). split_and!; [|done..|].
    + intros h [= <-]. rewrite decide_True, list_lookup_insert_eq by done. simpl.
      by rewrite Hpp.
    + intros h. case_decide as Hh; [injection Hh as <-|].
      * rewrite list_lookup_insert_eq, Hv by done. simpl. by rewrite Hpp.
      * by rewrite list_lookup_insert_ne by congruence.
  - injection H as <-. split_and!; [|done..]. intros h ->. rewrite decide_True by done.
    by destruct (_ !! h).
Qed.

(** A switch from a settled state loses nothing, and the handle that is switched
    to finds its variables as it left them. *)
Lemma t_restore_private s s' (x : nat) :
  settled s -> t_restore (Z.of_nat x) s = Done s' ->
  settled s' /\ sw_cur s' = Some x /\ forall h, private s' h = private s h.
Proof.
  unfold t_restore. intros Hs H. apply bind_inv in H as (y & Hy%ctx_at_Done & H).
  assert (y = x) as -> by lia. case_bool_decide as Hc; [by injection H as <-|].
  apply bind_inv in H as (v & Hv%deref_Done & [= <-]). unfold settled, private.
  cbn [sw_cur sw_glob sw_contexts]. split_and!; [|done|].
  - intros h [= <-]. rewrite decide_True, Hv by done. simpl. by rewrite pre_post.
  - intros h. case_decide as Hh; [injection Hh as <-|].
    + rewrite Hv. simpl. by rewrite pre_post, decide_False by done.
    + case_decide as Hh2; [|done]. specialize (Hs h Hh2). unfold private in Hs.
      by rewrite decide_True in Hs by done.
Qed.

Lemma t_restore_glob s s' (x : nat) g t :
  settled s -> sw_cur s <> Some x -> private s x = Some (pre_fn g t) ->
  t_restore (Z.of_nat x) s = Done s' -> sw_glob s' = g.
Proof.
  unfold t_restore. intros Hs Hne Hp H. apply bind_inv in H as (y & Hy%ctx_at_Done & H).
  assert (y = x) as -> by lia. rewrite bool_decide_eq_false_2 in H by done.
  apply bind_inv in H as (v & Hv%deref_Done & [= <-]). unfold private in Hp.
  rewrite decide_False, Hv in Hp by done. injection Hp as ->. simpl. apply post_pre.
Qed.

End Macro.

(** ** Contexts as hooks of the thunk layer *)

(** One use of the macro, as a part of the whole libc's static state [C]. *)
Record swinst (C : Type) := mk_swinst {
  si_T : Type;
  si_G : Type;
  si_def : swdef si_T si_G;
  si_get : C -> swctx si_T si_G;
  si_put : swctx si_T si_G -> C -> C }.
Arguments mk_swinst {C}. Arguments si_T {C}. Arguments si_G {C}. Arguments si_def {C}.
Arguments si_get {C}. Arguments si_put {C}.

Section Hooks.
Context {C : Type}.
Implicit Types i : swinst C.

Definition on_inst i (f : swctx (si_T i) (si_G i) -> outcome (swctx (si_T i) (si_G i)))
    (c : C) : outcome C :=
  s ← f (si_get i c); Done (si_put i s c).

(** djregister_ctx_hooks(t_init, t_deinit, t_save, t_restore) in the macro's
    constructor function. *)
Definition hooks_of i : ctx_hooks C :=
  mk_hooks (fun idx => on_inst i (t_init (si_def i) idx)) (on_inst i t_deinit)
    (on_inst i (t_save (si_def i))) (fun idx => on_inst i (t_restore (si_def i) idx)).

(** The uses of the macro are separate variables. *)
Class SwInsts (insts : list (swinst C)) := {
  si_laws : forall i, i ∈ insts -> SwLaws (si_def i);
  si_get_put : forall i, i ∈ insts -> forall s c, si_get i (si_put i s c) = s;
  si_apart : forall a b i j, insts !! a = Some i -> insts !! b = Some j -> a <> b ->
    forall s c, si_get j (si_put i s c) = si_get j c }.

Lemma SwInsts_tail i insts : SwInsts (i :: insts) -> SwInsts insts.
Proof.
  intros [L P A]. split.
  - intros j Hj. apply L. by right.
  - intros j Hj. apply P. by right.
  - intros a b j k Ha Hb Hab. apply (A (S a) (S b) j k); [done..|congruence].
Qed.

Section Each.
Context (f : ctx_hooks C -> C -> outcome C)
  (op : forall i, swctx (si_T i) (si_G i) -> outcome (swctx (si_T i) (si_G i))).
Hypothesis f_op : forall i, f (hooks_of i) = on_inst i (op i).

Lemma run_hooks_other i insts : forall c c',
  (forall k, k ∈ insts -> forall s c, si_get i (si_put k s c) = si_get i c) ->
  run_hooks f (hooks_of <$> insts) c = Done c' -> si_get i c' = si_get i c.
Proof.
  induction insts as [|k l IH]; intros c c' Hl H; [by injection H as <-|].
  cbn in H. rewrite f_op in H. apply bind_inv in H as (c1 & H1 & H2).
  apply bind_inv in H1 as (s & _ & [= <-]).
  rewrite (IH _ _ (fun k Hk => Hl k (list_elem_of_further _ _ _ Hk)) H2).
  apply Hl. by left.
Qed.

(** Running a hook of every context runs the operation on each of them. *)
Lemma run_hooks_each insts : SwInsts insts -> forall c c',
  run_hooks f (hooks_of <$> insts) c = Done c' ->
  forall i, i ∈ insts -> op i (si_get i c) = Done (si_get i c').
Proof.
  induction insts as [|i insts IH]; intros HS c c' H j Hj; [by apply not_elem_of_nil in Hj|].
  cbn in H. rewrite f_op in H. apply bind_inv in H as (c1 & H1 & H2).
  apply bind_inv in H1 as (s & Hs & [= <-]).
  apply elem_of_cons in Hj as [->|Hj].
  - rewrite Hs. f_equal. apply run_hooks_other with (i := i) in H2.
    + rewrite H2. symmetry. apply si_get_put. by left.
    + intros k [b Hb]%list_elem_of_lookup. by apply (si_apart (S b) O k i).
  - rewrite <- (IH (SwInsts_tail _ _ HS) _ _ H2 j Hj). f_equal. symmetry.
    apply list_elem_of_lookup in Hj as [b Hb]. by apply (si_apart O (S b) i j).
Qed.

End Each.

Context (insts : list (swinst C)) {HS : SwInsts insts}.

Lemma hooks_save_each (w w' : world C) :
  chooks w = hooks_of <$> insts -> hooks_save w = Done w' ->
  exists c', w' = set_ctx w c' /\
  forall i, i ∈ insts -> t_save (si_def i) (si_get i (w_ctx w)) = Done (si_get i c').
Proof.
  unfold hooks_save. intros E H. rewrite E in H. apply bind_inv in H as (c' & H & [= <-]).
  exists c'. split; [done|].
  exact (run_hooks_each _ (fun i => t_save (si_def i)) (fun _ => eq_refl) insts HS _ _ H).
Qed.

Lemma hooks_restore_each (w w' : world C) h :
  chooks w = hooks_of <$> insts -> hooks_restore w h = Done w' ->
  exists c', w' = set_ctx w c' /\
  forall i, i ∈ insts -> t_restore (si_def i) h (si_get i (w_ctx w)) = Done (si_get i c').
Proof.
  unfold hooks_restore. intros E H. rewrite E in H. apply bind_inv in H as (c' & H & [= <-]).
  exists c'. split; [done|].
  exact (run_hooks_each _ (fun i => t_restore (si_def i) h) (fun _ => eq_refl) insts HS _ _ H).
Qed.

End Hooks.
