(* ===== verification/CtxIso.v ===== *)
(** * Isolation of handles

    The swappable contexts of include/libc/djctx.h under the thunk layer of
    src/libc/dj64/thunks.c: which parts of the libc's static state a call from DOS
    can change, for any client code, any DOS code it calls, and any nesting. *)

From stdpp Require Import base gmap list numbers.
From Stdlib Require Import ZArith Lia.
From S2P Require Import Prelude MemFuns ThunkState Thunks ThunkProps SwapCtx.

Open Scope Z_scope.
Open Scope c_scope.

(** ** Code that leaves the contexts alone *)

Section Same.
Context {C : Type} {api : Dj64Api}.

Record ctxsame (w w' : world C) : Prop := {
  cs_hooks : chooks w' = chooks w;
  cs_ctx : w_ctx w' = w_ctx w;
  cs_disp : u_disp <$> udisps w' = u_disp <$> udisps w }.

#[export] Instance ctxsame_preorder : PreOrder ctxsame.
Proof. split; [by constructor|]. intros w1 w2 w3 [] []. constructor; congruence. Qed.

Lemma ctxsame_put (w : world C) n u u' :
  get_udisp w n = Done u -> u_disp u' = u_disp u -> ctxsame w (put_udisp w n u').
Proof.
  intros (k & -> & Hu)%get_udisp_nat E. constructor; [done..|]. rewrite udisps_put.
  rewrite list_fmap_insert, E. apply list_insert_id. rewrite list_lookup_fmap. by rewrite Hu.
Qed.

(** [inv_world H] runs through a computation that returned. *)
Ltac inv_world :=
  repeat match goal with
  | H : (_ ≫= _) = Done _ |- _ => apply bind_inv in H as (? & ? & H)
  | H : Done _ = Done _ |- _ => injection H; clear H; intros; subst
  | H : (let '(_, _) := ?x in _) = Done _ |- _ => destruct x eqn:?
  | H : (if ?b then _ else _) = Done _ |- _ => destruct b eqn:?
  | H : match ?x with _ => _ end = Done _ |- _ => destruct x eqn:?
  | H : Fail _ = Done _ |- _ => discriminate H
  end.

Lemma put_at_same (w w' : world C) p t : put_at w p t = Done w' -> ctxsame w w'.
Proof.
  destruct p; simpl; intros H; inv_world; [by eapply ctxsame_put..|by constructor].
Qed.

Lemma or_err_same (w : world C) m k w' r :
  (forall w1 r1, m = Done (w1, r1) -> ctxsame w w1) ->
  (forall w1 w2 r2, k w1 = Done (w2, r2) -> ctxsame w1 w2) ->
  or_err m k = Done (w', r) -> ctxsame w w'.
Proof.
  intros Hm Hk H. unfold or_err in H. apply bind_inv in H as ([w1 r1] & E & H).
  destruct (negb (r1 =? 0)); [injection H as <- <-; by eapply Hm|].
  etrans; [by eapply Hm|by eapply Hk].
Qed.

Lemma load_at_same (w : world C) p mem_base eops eh w' r :
  load_at w p mem_base eops eh = Done (w', r) -> ctxsame w w'.
Proof. unfold load_at. intros H. inv_world. by eapply put_at_same. Qed.

Lemma load_pt_same (w : world C) p eops eh w' r :
  load_pt w p eops eh = Done (w', r) -> ctxsame w w'.
Proof. unfold load_pt. intros H. inv_world. by eapply put_at_same. Qed.

Lemma load_core_same (w : world C) h mem_base eops eh w' r :
  load_core w h mem_base eops eh = Done (w', r) -> ctxsame w w'.
Proof. apply or_err_same; intros *; [apply load_at_same|apply load_pt_same]. Qed.

Lemma load_user_same (w : world C) h libid mem_base eops eh w' r :
  load_user w h libid mem_base eops eh = Done (w', r) -> ctxsame w w'.
Proof.
  unfold load_user. intros H. do 2 apply bind_inv in H as (? & ? & H). revert H.
  apply or_err_same; intros * H.
  - case_match; [by eapply load_at_same|]. by injection H as <- <-.
  - apply bind_inv in H as (? & ? & H). case_match; [by eapply load_pt_same|].
    by injection H as <- <-.
Qed.

Lemma opened_same (w w' : world C) eh : ctxsame (elf_opened w eh) w' -> ctxsame w (elf_close w' eh).
Proof. intros []. by constructor. Qed.

Lemma ctrl_set_symtab_same (w : world C) h libid cs regs w' r :
  ctrl_set_symtab w h libid cs regs = Done (w', r) -> ctxsame w w'.
Proof.
  unfold ctrl_set_symtab. intros H. apply bind_inv in H as (u & Hu & H).
  etrans; [by apply (ctxsame_put w h u (set_cs u cs))|]. revert H.
  generalize (put_udisp w h (set_cs u cs)). clear w u Hu. intros w0 H.
  set (core := negb (eax regs .& _ =? 0)) in H. set (user := negb core || _) in H.
  clearbody core user. apply bind_inv in H as ([w1 r1] & H1 & H).
  assert (Hk1 : ctxsame w0 w1).
  { clear H. destruct (negb (ebx regs =? 0)); [|destruct core; by injection H1 as <- _].
    apply bind_inv in H1 as (eops & _ & H1).
    destruct (eo_open _ _ _) as [eh|]; [|by injection H1 as <- _].
    apply bind_inv in H1 as ([w2 r2] & H2 & H1).
    assert (ctxsame w0 (elf_close w2 eh)).
    { apply opened_same. revert H2. clear H1. apply or_err_same; intros * H.
      - destruct core; [by eapply load_core_same|by injection H as <- <-].
      - destruct user; [by eapply load_user_same|by injection H as <- <-]. }
    destruct (negb (r2 =? 0)); by injection H1 as <- _. }
  clear H1. etrans; [exact Hk1|]. destruct r1 as [r1|]; [by injection H as <- _|]. revert H.
  apply or_err_same; intros * H.
  - destruct (negb core); [|by injection H as <- _]. destruct (_ =? -1); [by injection H as <- _|].
    apply bind_inv in H as (eops & _ & H).
    destruct (eo_open_dyn _ _ _) as [eh|]; [|by injection H as <- _].
    apply bind_inv in H as ([w3 r3] & H3%load_core_same%opened_same & H).
    destruct (negb (r3 =? 0)); by injection H as <- _.
  - unfold do_early_init in H. inv_world. by constructor.
Qed.

Lemma ctrl_elfload_same (w : world C) h libid fn regs w' r regs' :
  ctrl_elfload w h libid fn regs = Done (w', r, regs') -> ctxsame w w'.
Proof.
  unfold ctrl_elfload. intros H. apply bind_inv in H as (eops & _ & H).
  destruct (if fn =? DL_ELFLOAD then _ else _) as [[elf esize]|]; [|by injection H as <- _].
  destruct (eo_open _ _ _) as [eh|]; [|by injection H as <- _].
  destruct (eo_reloc _ _ _ _ _ _) as [[ret entry] m].
  apply bind_inv in H as ([w2 r2] & H2 & H).
  assert (ctxsame w (elf_close w2 eh)).
  { apply opened_same. revert H2. apply or_err_same; intros * H2.
    - injection H2 as <- _. by constructor.
    - by eapply load_user_same. }
  destruct (negb (r2 =? 0)); by injection H as <- _ _.
Qed.

Lemma dj64_ctrl_same (w : world C) handle libid fn cs regs w' r :
  dj64_ctrl w handle libid fn cs regs = Done (w', r) -> ctxsame w w'.
Proof.
  unfold dj64_ctrl. intros H. do 2 apply bind_inv in H as (_ & _ & H).
  destruct (negb (_ =? DL_API_VER)); [destruct (_ =? 0); by injection H as <- _|].
  destruct (fn =? DL_SET_SYMTAB).
  { apply bind_inv in H as ([w1 r1] & E%ctrl_set_symtab_same & H). by injection H as <- _. }
  destruct (_ || _); [|by injection H as <- _].
  apply bind_inv in H as ([[w1 r1] regs1] & E%ctrl_elfload_same & H). by injection H as <- _.
Qed.

(** ** DOS objects *)

Lemma set_oh_disp (u u' : udisp C) addr v d : set_oh u addr v d = Done u' -> u_disp u' = u_disp u.
Proof. unfold set_oh. intros H. inv_world. done. Qed.

Lemma do_rm_dosobj_same (w w' : world C) h fa : do_rm_dosobj w h fa = Done w' -> ctxsame w w'.
Proof.
  unfold do_rm_dosobj, rm_dosobj. intros H. apply bind_inv in H as (w1 & H1 & H).
  case_decide; [|done]. injection H1 as <-. apply bind_inv in H as (u & Hu & H).
  apply bind_inv in H as (u' & E%set_oh_disp & H). injection H as <-.
  transitivity (set_heap w (w_heap w ∖ {[fa]})); [by constructor|]. by apply (ctxsame_put _ h u).
Qed.

Lemma do_obj_init_same (w w' : world C) cur data len is_out fa :
  do_obj_init w cur data len is_out = Done (w', fa) -> ctxsame w w'.
Proof.
  unfold do_obj_init, mk_dosobj. destruct (is_dos_ptr data); [by intros [= <- _]|]. intros H.
  apply bind_inv in H as (_ & _ & H). apply bind_inv in H as (u & Hu & H).
  apply bind_inv in H as (w1 & H1 & H). apply bind_inv in H as (u' & E%set_oh_disp & [= <- _]).
  set (w0 := if malloc32 _ _ =? 0 then _ else _) in H1.
  assert (Hu1 : get_udisp w1 (get_handle cur) = Done u /\ ctxsame w w1).
  { assert (get_udisp w0 (get_handle cur) = Done u /\ ctxsame w w0) as [Hu0 K0]
      by (unfold w0; destruct (malloc32 _ _ =? 0); (split; [exact Hu|by constructor])).
    clearbody w0. destruct (negb is_out); [|by injection H1 as <-].
    unfold pr_dosobj in H1. inv_world. split; [done|]. destruct K0. by constructor. }
  destruct Hu1 as [Hu1 K1]. etrans; [exact K1|]. by apply (ctxsame_put w1 _ u).
Qed.

Lemma dj64_obj_done_same (w w' : world C) cur data fa len :
  dj64_obj_done w cur data fa len = Done w' -> ctxsame w w'.
Proof.
  unfold dj64_obj_done, cp_dosobj, rm_dosobj.
  destruct (is_dos_ptr data); [by intros [= <-]|]. intros H.
  apply bind_inv in H as (_ & _ & H). apply bind_inv in H as (w1 & H1 & H).
  apply bind_inv in H1 as ([m p] & _ & [= <-]). apply bind_inv in H as (w2 & H2 & H).
  case_decide; [|done]. injection H2 as <-. apply bind_inv in H as (u & Hu & H).
  apply bind_inv in H as (u' & E%set_oh_disp & [= <-]).
  transitivity (set_heap (set_mem w m) (w_heap w ∖ {[fa]})); [by constructor|].
  by apply (ctxsame_put _ _ u).
Qed.

Lemma dj64_rm_dosobj_same (w w' : world C) cur data fa :
  dj64_rm_dosobj w cur data fa = Done w' -> ctxsame w w'.
Proof.
  unfold dj64_rm_dosobj. destruct (is_dos_ptr data); [by intros [= <-]|]. intros H.
  apply bind_inv in H as (_ & _ & H). by eapply do_rm_dosobj_same.
Qed.

Lemma gc_objs_same (w w' : world C) h : gc_objs w h = Done w' -> ctxsame w w'.
Proof.
  apply (loop_inv (fun s => ctxsame w s.1) (ctxsame w)); [|by constructor].
  intros [w1 i] K; cbn [fst] in K. destruct (i <? MAX_OBJS); [|done].
  destruct (get_udisp w1 h) as [u|]; [|done]. rewrite bind_Done.
  destruct (arr_get (u_objs u) _) as [row|]; [|done]. rewrite bind_Done.
  destruct (arr_get row i) as [o|]; [|done]. rewrite bind_Done.
  destruct (negb (o =? 0)); [|done].
  destruct (do_rm_dosobj w1 h o) as [w2|] eqn:E; [|done]. rewrite bind_Done.
  etrans; [exact K|by eapply do_rm_dosobj_same].
Qed.

End Same.

(** ** Isolation *)

Section Iso.
Context {C : Type} {api : Dj64Api} (insts : list (swinst C)) {HS : SwInsts insts}.
Hypothesis get_handle_current : forall h, get_handle h = h.

(** The handles that take part, as clients or as callees of DOS code. *)
Context (H : gset nat).

(** Code of handle [n] changes global variables, its own element of each array,
    and whatever is not a swappable context. *)
Definition ctx_local (n : nat) (f : C -> C) : Prop :=
  forall c, (forall i, i ∈ insts -> sw_cur (si_get i c) = Some n) ->
  forall i, i ∈ insts -> sw_cur (si_get i (f c)) = Some n /\
    forall h, h <> n -> sw_contexts (si_get i (f c)) !! h = sw_contexts (si_get i c) !! h.

Fixpoint client_local (n : nat) (c : client C) : Prop :=
  match c with
  | CRet _ _ | CAsmNoret _ _ _ _ => True
  | CCtx f k => ctx_local n f /\ client_local n k
  | CMem _ k | CObjDone _ _ _ k | CRmObj _ _ k => client_local n k
  | CObjInit _ _ _ k | CAsmCall _ _ _ _ k => forall v, client_local n (k v)
  | CAsmCallU h _ _ _ _ _ k => h = Z.of_nat n /\ forall v, client_local n (k v)
  | CAsmNoretU h _ _ _ _ _ => h = Z.of_nat n
  end.

(** DOS code that enters only handles of [H]. *)
Fixpoint host_within (h : host) : Prop :=
  match h with
  | HRet _ _ => True
  | HMem _ k => host_within k
  | HCall handle _ _ _ _ _ k =>
      (exists n, handle = Z.of_nat n /\ n ∈ H) /\ forall rc regs, host_within (k rc regs)
  | HCtrl _ _ _ _ _ k => forall rc regs, host_within (k rc regs)
  end.

Hypothesis asm_call_within : forall m regs cs off sp len,
  host_within (asm_call m regs cs off sp len).
Hypothesis asm_noret_within : forall m regs cs off sp len,
  host_within (asm_noret m regs cs off sp len).

Definition clients_local (ds : list (list (option (disp_t C)))) : Prop :=
  forall n l j d fn sp, n ∈ H -> ds !! n = Some l -> l !! j = Some (Some d) ->
  client_local n (d fn sp).

(** What the handles outside [H] own. *)
Context (P : forall i : swinst C, nat -> option (si_T i)).

Definition kept (c : C) : Prop :=
  forall i, i ∈ insts -> forall h, h ∉ H ->
  sw_contexts (si_get i c) !! h = P i h /\ private (si_def i) (si_get i c) h = P i h.

Record iso (w : world C) : Prop := {
  is_hooks : chooks w = hooks_of <$> insts;
  is_local : clients_local (u_disp <$> udisps w);
  is_kept : kept (w_ctx w) }.

Definition current (n : nat) (w : world C) : Prop :=
  forall i, i ∈ insts -> sw_cur (si_get i (w_ctx w)) = Some n.

Lemma iso_same w w' : ctxsame w w' -> iso w -> iso w'.
Proof. intros [E1 E2 E3] []. constructor; rewrite ?E1, ?E2, ?E3; done. Qed.

Lemma current_same n w w' : ctxsame w w' -> current n w -> current n w'.
Proof. intros [_ E _]. unfold current. by rewrite E. Qed.

Lemma iso_save w w' : iso w -> hooks_save w = Done w' -> iso w'.
Proof.
  intros [E L K] S. apply (hooks_save_each insts) in S as (c' & -> & Hs); [|done].
  constructor; [done..|]. intros i Hi h Hh. specialize (Hs i Hi).
  destruct (K i Hi h Hh) as [K1 K2]. pose proof (si_laws i Hi).
  destruct (t_save_private _ _ _ Hs) as (St & Ec & Eg & Hp). cbn [w_ctx set_ctx].
  rewrite Hp. split; [|done]. rewrite <- K2, <- Hp. unfold private.
  case_decide as Hd; [|done]. specialize (St h Hd). unfold private in St.
  by rewrite decide_True in St by done.
Qed.

Lemma current_save n w w' : iso w -> current n w -> hooks_save w = Done w' -> current n w'.
Proof.
  intros [E _ _] Hc S. apply (hooks_save_each insts) in S as (c' & -> & Hs); [|done].
  intros i Hi. pose proof (si_laws i Hi). cbn [w_ctx set_ctx].
  destruct (t_save_private _ _ _ (Hs i Hi)) as (_ & -> & _). by apply Hc.
Qed.

Lemma iso_restore w w' n : n ∈ H -> iso w -> hooks_restore w (Z.of_nat n) = Done w' ->
  iso w' /\ current n w'.
Proof.
  intros Hn [E L K] S. apply (hooks_restore_each insts) in S as (c' & -> & Hs); [|done].
  assert (R : forall i, i ∈ insts -> sw_cur (si_get i c') = Some n /\
    sw_contexts (si_get i c') = sw_contexts (si_get i (w_ctx w))).
  { intros i Hi. specialize (Hs i Hi). unfold t_restore in Hs.
    apply bind_inv in Hs as (x & Hx%ctx_at_Done & Hs). assert (x = n) as -> by lia.
    case_bool_decide as Hc; [by injection Hs as <-|].
    apply bind_inv in Hs as (v & _ & [= <-]). done. }
  split; [|intros i Hi; apply (R i Hi)]. constructor; [done..|].
  intros i Hi h Hh. destruct (R i Hi) as [Ec Ex], (K i Hi h Hh) as [K1 _].
  cbn [w_ctx set_ctx]. unfold private. rewrite Ec, decide_False, Ex by set_solver. done.
Qed.

(** Results of code for which [Q] holds when it returns normally. *)
Definition isok {A} (Q : world C -> Prop) (m : outcome (world C * res A)) : Prop :=
  match m with
  | Done (w', Ret _) => iso w' /\ Q w'
  | Done (w', _) => iso w'
  | Fail _ => True
  end.

Lemma isok_bind {A B} (Q R : world C -> Prop) (m : outcome (world C * res A))
    (k : world C -> A -> outcome (world C * res B)) :
  isok Q m -> (forall w a, iso w -> Q w -> isok R (k w a)) -> isok R (res_bind m k).
Proof.
  intros Hm Hk. unfold res_bind. destruct m as [[w [a|f c|s]]|]; [|done..].
  destruct Hm. by apply Hk.
Qed.

Lemma isok_step {A B} (Q : world C -> Prop) (m : outcome A) (k : A -> outcome (world C * res B)) :
  (forall a, m = Done a -> isok Q (k a)) -> isok Q (m ≫= k).
Proof. intros Hk. destruct m as [a|]; [|exact I]. by apply Hk. Qed.

Lemma isok_longjmp {A} Q (w : world C) h code : iso w -> isok Q (longjmp (A := A) w h code).
Proof. intros Hw. unfold longjmp. apply isok_step; intros u _. by apply isok_step. Qed.

(** Code for a handle of [H] starts and ends with its own contexts in place. *)
Section Call.
Context (call : world C -> Z -> Z -> Z -> Z -> Z -> dpmi_regs ->
                outcome (world C * res (Z * dpmi_regs))).
Hypothesis call_isok : forall w n libid fn cs sp regs,
  n ∈ H -> iso w -> isok (current n) (call w (Z.of_nat n) libid fn cs sp regs).

Lemma run_host_isok h : forall w, host_within h -> iso w ->
  isok (fun _ => True) (run_host call h w).
Proof.
  induction h as [rc regs|f k IH|hd libid fn cs sp regs k IH|hd libid fn cs regs k IH];
    intros w Hh Hw; cbn [run_host host_within] in *.
  - done.
  - apply IH; [done|]. by apply (iso_same w).
  - destruct Hh as [(n & -> & Hn) Hk]. eapply isok_bind; [by apply call_isok|].
    intros w' [rc regs'] Hw' _. by apply IH.
  - apply (isok_bind (fun _ => True)).
    + destruct (dj64_ctrl _ _ _ _ _ _) as [[w' r]|] eqn:E; [|done].
      apply dj64_ctrl_same in E. pose proof (iso_same _ _ E Hw). by destruct r.
    + intros w' [rc regs'] Hw' _. by apply IH.
Qed.

Lemma put_s_regs_same (w w' : world C) h regs : put_s_regs w h regs = Done w' -> ctxsame w w'.
Proof.
  unfold put_s_regs. intros E. apply bind_inv in E as (u & Hu & [= <-]).
  by apply (ctxsame_put w h u).
Qed.

Lemma do_asm_call_isok w h pt cs num sp len flags : iso w ->
  isok (fun _ => True) (do_asm_call call w h pt cs num sp len flags).
Proof.
  intros Hw. unfold do_asm_call. do 5 (apply isok_step; intros ? _).
  eapply isok_bind; [by apply run_host_isok|]. intros w1 [rc regs] Hw1 _.
  apply isok_step; intros w2 K%put_s_regs_same. pose proof (iso_same _ _ K Hw1).
  destruct (rc =? _); [by apply isok_longjmp|done].
Qed.

Lemma do_asm_noret_isok w h pt cs num sp len : iso w ->
  isok (fun _ => True) (do_asm_noret call w h pt cs num sp len).
Proof.
  intros Hw. unfold do_asm_noret. do 4 (apply isok_step; intros ? _).
  eapply isok_bind; [by apply run_host_isok|]. intros w1 [rc regs] Hw1 _.
  apply isok_step; intros w2 K%put_s_regs_same. by pose proof (iso_same _ _ K Hw1).
Qed.

(** [restore(handle)] after a call into DOS *)
Lemma restore_isok {A} (n : nat) (a : A) (w : world C) : n ∈ H -> iso w ->
  isok (current n) (w' ← hooks_restore w (Z.of_nat n); Done (w', Ret a)).
Proof. intros Hn Hw. apply isok_step; intros w' R. by eapply iso_restore. Qed.

Lemma restore_jump_isok {A} Q (n : nat) code (w : world C) : n ∈ H -> iso w ->
  isok Q (w' ← hooks_restore w (Z.of_nat n); longjmp (A := A) w' (Z.of_nat n) code).
Proof.
  intros Hn Hw. apply isok_step; intros w' R. apply isok_longjmp. by eapply iso_restore.
Qed.

Lemma asm_call_isok n w num sp len flags : n ∈ H -> iso w ->
  isok (current n) (dj64_asm_call call w (Z.of_nat n) num sp len flags).
Proof.
  intros Hn Hw. unfold dj64_asm_call. rewrite get_handle_current.
  apply isok_step; intros _ _. apply isok_step; intros w1 S%iso_save; [|done].
  apply isok_step; intros u _. eapply isok_bind; [by apply do_asm_call_isok|].
  intros w2 v Hw2 _. by apply restore_isok.
Qed.

Lemma asm_call_u_isok n w libid num sp len flags : n ∈ H -> iso w -> current n w ->
  isok (current n) (dj64_asm_call_u call w (Z.of_nat n) libid num sp len flags).
Proof.
  intros Hn Hw Hc. unfold dj64_asm_call_u. do 2 (apply isok_step; intros ? _).
  apply isok_step; intros [pt|] _; [|done]. apply isok_step; intros w1 S%iso_save; [|done].
  eapply isok_bind; [by apply do_asm_call_isok|]. intros w2 v Hw2 _. by apply restore_isok.
Qed.

Lemma asm_noret_isok Q n w num sp len flags : n ∈ H -> iso w ->
  isok Q (dj64_asm_noret call w (Z.of_nat n) num sp len flags).
Proof.
  intros Hn Hw. unfold dj64_asm_noret. rewrite get_handle_current.
  apply isok_step; intros _ _. apply isok_step; intros w1 S%iso_save; [|done].
  apply isok_step; intros u _. eapply isok_bind; [by apply do_asm_noret_isok|].
  intros w2 v Hw2 _. by apply restore_jump_isok.
Qed.

Lemma asm_noret_u_isok Q n w libid num sp len flags : n ∈ H -> iso w ->
  isok Q (dj64_asm_noret_u call w (Z.of_nat n) libid num sp len flags).
Proof.
  intros Hn Hw. unfold dj64_asm_noret_u. do 2 (apply isok_step; intros ? _).
  apply isok_step; intros [pt|] _; [|by apply isok_longjmp].
  apply isok_step; intros w1 S%iso_save; [|done].
  eapply isok_bind; [by apply do_asm_noret_isok|]. intros w2 v Hw2 _.
  by apply restore_jump_isok.
Qed.

Lemma iso_client n f w : n ∈ H -> ctx_local n f -> iso w -> current n w ->
  iso (set_ctx w (f (w_ctx w))) /\ current n (set_ctx w (f (w_ctx w))).
Proof.
  intros Hn Hf [E L K] Hc. specialize (Hf (w_ctx w) Hc).
  split; [constructor; [done..|]|intros i Hi; apply (Hf i Hi)].
  intros i Hi h Hh. destruct (Hf i Hi) as [Ec Ex], (K i Hi h Hh) as [K1 _].
  cbn [w_ctx set_ctx]. unfold private.
  rewrite Ec, decide_False, Ex by (intros [= ->]; done || congruence). done.
Qed.

Lemma run_client_isok n c : n ∈ H -> forall w, client_local n c -> iso w -> current n w ->
  isok (current n) (run_client call (Z.of_nat n) c w).
Proof.
  intros Hn. induction c as [r l|f k IH|f k IH|data len io k IH|data fa len k IH|data fa k IH
    |num sp len fl k IH|h libid num sp len fl k IH|num sp len fl|h libid num sp len fl];
    intros w Hl Hw Hc; cbn [run_client client_local] in *.
  - done.
  - apply IH; [done|by apply (iso_same w)|done].
  - destruct Hl as [Hf Hl]. destruct (iso_client n f w) as [? ?]; [done..|]. by apply IH.
  - apply isok_step; intros [w' fa] E.
    assert (ctxsame w w') by (destruct io; by eapply do_obj_init_same).
    apply IH; [done|by eapply iso_same|by eapply current_same].
  - apply isok_step; intros w' E%dj64_obj_done_same.
    apply IH; [done|by eapply iso_same|by eapply current_same].
  - apply isok_step; intros w' E%dj64_rm_dosobj_same.
    apply IH; [done|by eapply iso_same|by eapply current_same].
  - eapply isok_bind; [by apply asm_call_isok|]. intros w' v Hw' Hc'. by apply IH.
  - destruct Hl as [-> Hl]. eapply isok_bind; [by apply asm_call_u_isok|].
    intros w' v Hw' Hc'. by apply IH.
  - by apply asm_noret_isok.
  - subst h. by apply asm_noret_u_isok.
Qed.

Lemma _dj64_call_isok w n fn regs sp disp : n ∈ H -> iso w -> current n w ->
  (forall d, disp = Some d -> client_local n (d fn sp)) ->
  isok (current n) (_dj64_call call w (Z.of_nat n) fn regs sp disp).
Proof.
  intros Hn Hw Hc Hd. unfold _dj64_call. apply isok_step; intros u Hu.
  apply isok_step; intros d ->%deref_Done. set (w1 := put_udisp _ _ _).
  assert (K : ctxsame w w1).
  { transitivity (set_frames w (S (w_frames w))); [by constructor|].
    by apply (ctxsame_put _ _ u). }
  clearbody w1. pose proof (run_client_isok n (d fn sp) Hn w1 (Hd d eq_refl)
    (iso_same _ _ K Hw) (current_same _ _ _ K Hc)) as R.
  destruct (run_client _ _ _ _) as [[w2 [[rs len]|f rc|s]]|]; [| |done|done]; cbn [isok] in R.
  - rewrite bind_Done. destruct R. apply isok_step; intros u2 _. by destruct (_ || _ || _).
  - rewrite bind_Done. destruct (f =? _)%nat; [|done].
    apply isok_step; intros w3 R3. apply iso_restore in R3 as [R3 C3]; [|done..].
    apply isok_step; intros w4 K4%gc_objs_same.
    split; [by eapply iso_same|by eapply current_same].
Qed.

Lemma dj64_call_body_isok w n libid fn cs sp regs : n ∈ H -> iso w ->
  isok (current n) (dj64_call_body call w (Z.of_nat n) libid fn cs sp regs).
Proof.
  intros Hn Hw. unfold dj64_call_body. do 2 (apply isok_step; intros _ _).
  apply isok_step; intros u Hu. apply isok_step; intros _ _.
  apply isok_step; intros w1 R.
  apply iso_restore in R as [Hw1 Hc1];
    [|done|by eapply iso_same, Hw; apply (ctxsame_put _ _ u)].
  apply isok_step; intros u1 Hu1. apply isok_step; intros disp [_ Hd]%arr_get_Done.
  eapply isok_bind.
  { apply _dj64_call_isok; [done..|]. intros d ->.
    apply get_udisp_Done in Hu1. eapply (is_local _ Hw1); [done| |done].
    rewrite list_lookup_fmap. by rewrite Hu1. }
  intros w2 [ret regs'] Hw2 Hc2. apply isok_step; intros u2 Hu2. apply isok_step; intros _ _.
  assert (K2 : ctxsame w2 (put_udisp w2 (Z.of_nat n) (set_noret_jmp u2 (u_noret_jmp u1))))
    by (by apply (ctxsame_put _ _ u2)).
  apply isok_step; intros w3 S3.
  apply (iso_same _ _ K2) in Hw2. apply (current_same _ _ _ K2) in Hc2.
  assert (iso w3 /\ current n w3) as [Hw3 Hc3].
  { destruct (ret =? _); [|by injection S3 as <-]. split; [by eapply iso_save|].
    by eapply current_save. }
  apply isok_step; intros u3 Hu3.
  assert (K3 : ctxsame w3 (put_udisp w3 (Z.of_nat n) (set_recur_cnt u3 (u_recur_cnt u3 - 1))))
    by (by apply (ctxsame_put _ _ u3)).
  split; [by eapply iso_same|by eapply current_same].
Qed.

End Call.

Lemma dj64_call_isok fuel : forall w n libid fn cs sp regs, n ∈ H -> iso w ->
  isok (current n) (dj64_call fuel w (Z.of_nat n) libid fn cs sp regs).
Proof.
  induction fuel as [|fuel IH]; intros; [exact I|]. by apply dj64_call_body_isok.
Qed.

End Iso.

(** ** Theorems *)

Section Thms.
Context {C : Type} {api : Dj64Api} (insts : list (swinst C)) {HS : SwInsts insts}.
Hypothesis get_handle_current : forall h, get_handle h = h.

(** The conditions on the code that runs: the handles that take part are in [H]. *)
Record confined (H : gset nat) (w : world C) : Prop := {
  cf_hooks : chooks w = hooks_of <$> insts;
  cf_clients : clients_local insts H (u_disp <$> udisps w);
  cf_call : forall m regs cs off sp len, host_within H (asm_call m regs cs off sp len);
  cf_noret : forall m regs cs off sp len, host_within H (asm_noret m regs cs off sp len) }.

Definition all_settled (w : world C) : Prop :=
  forall i, i ∈ insts -> settled (si_def i) (si_get i (w_ctx w)).

Definition owns (w : world C) (i : swinst C) (h : nat) : option (si_T i) :=
  private (si_def i) (si_get i (w_ctx w)) h.

Lemma settled_iso H w : confined H w -> all_settled w -> iso insts H (owns w) w.
Proof.
  intros [] St. constructor; [done..|]. intros i Hi h Hh. split; [|done].
  unfold owns. specialize (St i Hi h). destruct (decide (sw_cur (si_get i (w_ctx w)) = Some h)) as [E|E].
  - by rewrite (St E).
  - unfold private. by rewrite decide_False by done.
Qed.

Lemma iso_owns H P w i h : iso insts H P w -> i ∈ insts -> h ∉ H -> owns w i h = P i h.
Proof. intros [_ _ K] Hi Hh. apply (K i Hi h Hh). Qed.

(** C3. A call from DOS to one handle, with all that it makes DOS call, leaves what every
    handle outside of [H] owns in every swappable context as it was: its element of each
    array and its values of the global variables. [H] has the handles that may be
    entered, the called one among them; what the clients of [H] do to the libc's state is
    bounded only by reaching it through the current pointers and the global variables.
    The call starts in a settled state: where a handle is current, its element holds the
    global variables. A call that ends by DJ64_RET_ABORT does not leave one
    ([LibcCtx.abort_loses_variables]). It holds however the call ends: by a return, a
    jump or an exit. *)
Theorem ctx_isolation H fuel (w w' : world C) n libid fn cs sp regs r i h :
  confined H w -> all_settled w -> n ∈ H ->
  dj64_call fuel w (Z.of_nat n) libid fn cs sp regs = Done (w', r) ->
  i ∈ insts -> h ∉ H -> owns w' i h = owns w i h.
Proof.
  intros Hc St Hn E Hi Hh. pose proof (settled_iso H w Hc St) as Hw. destruct Hc.
  pose proof (dj64_call_isok insts get_handle_current H cf_call0 cf_noret0 (owns w) fuel w n
    libid fn cs sp regs Hn Hw) as R.
  rewrite E in R. destruct r; [destruct R as [R _]|..]; by eapply iso_owns.
Qed.

(** A call that returns DJ64_RET_OK has put its variables away. *)
Lemma call_ok_settles H fuel (w w' : world C) n libid fn cs sp regs regs' :
  confined H w -> all_settled w -> n ∈ H ->
  dj64_call fuel w (Z.of_nat n) libid fn cs sp regs = Done (w', Ret (DJ64_RET_OK, regs')) ->
  current insts n w' /\ all_settled w'.
Proof.
  intros Hc St Hn E. pose proof (settled_iso H w Hc St) as Hw. destruct Hc.
  pose proof (dj64_call_isok insts get_handle_current H cf_call0 cf_noret0 (owns w) fuel w n
    libid fn cs sp regs Hn Hw) as R.
  rewrite E in R. destruct R as [[Hk _ _] Hcur]. split; [done|].
  destruct fuel as [|fuel]; [done|]. cbn in E.
  unfold dj64_call_body in E. do 2 apply bind_inv in E as (_ & _ & E).
  apply bind_inv in E as (u & _ & E). apply bind_inv in E as (_ & _ & E).
  apply bind_inv in E as (w1 & _ & E). apply bind_inv in E as (u1 & _ & E).
  apply bind_inv in E as (d & _ & E). unfold res_bind in E.
  apply bind_inv in E as ([w2 [[ret rg]|f c|s]] & _ & E); [|done..].
  apply bind_inv in E as (u2 & _ & E). apply bind_inv in E as (_ & _ & E).
  apply bind_inv in E as (w3 & S & E). apply bind_inv in E as (u3 & _ & E).
  injection E as <- -> ->. rewrite Z.eqb_refl in S. intros i Hi.
  assert (Hk2 : chooks (put_udisp w2 (Z.of_nat n) (set_noret_jmp u2 (u_noret_jmp u1))) =
    hooks_of <$> insts).
  { unfold hooks_save in S. apply bind_inv in S as (c' & _ & [= <-]). exact Hk. }
  apply (hooks_save_each insts) in S as (c' & -> & Hs); [|exact Hk2].
  pose proof (si_laws i Hi). by destruct (t_save_private _ _ _ (Hs i Hi)) as [? _].
Qed.

(** A restore after which the handle owns what it owned in a settled state. *)
Lemma restore_gives_back i n s1 s2 s3 :
  i ∈ insts -> sw_cur s1 = Some n -> settled (si_def i) s1 -> is_Some (sw_contexts s1 !! n) ->
  sw_contexts s2 !! n = private (si_def i) s1 n ->
  private (si_def i) s2 n = private (si_def i) s1 n ->
  t_restore (si_def i) (Z.of_nat n) s2 = Done s3 ->
  sw_cur s3 = Some n /\ sw_glob s3 = sw_glob s1 /\ sw_contexts s3 !! n = sw_contexts s1 !! n.
Proof.
  intros Hi Hc St [t Ht] K1 K2 Hr. pose proof (si_laws i Hi). rewrite <- (St n Hc), <- K1.
  unfold private in K1, K2. rewrite (decide_True _ _ Hc), Ht in K1, K2. simpl in K1, K2.
  unfold t_restore in Hr. apply bind_inv in Hr as (x & Hx%ctx_at_Done & Hr).
  assert (x = n) as -> by lia. case_bool_decide as Hs.
  - injection Hr as <-. split_and!; [done| |done].
    rewrite decide_True, K1 in K2 by done. injection K2 as K2.
    rewrite <- (post_pre (si_def i) (sw_glob s2) (pre_fn (si_def i) (sw_glob s1) t) (sw_glob s1)), K2.
    by apply post_pre.
  - apply bind_inv in Hr as (v & Hv%deref_Done & [= <-]). split_and!; [done| |done].
    rewrite Hv in K1. injection K1 as ->. by apply post_pre.
Qed.

(** C16. A handle whose call has returned DJ64_RET_OK finds its variables as it left
    them: whatever DOS then runs, as long as it enters only other handles, the
    restore at the next call of the handle gives back every global variable and
    leaves the handle's element of each array as it was. The call starts in a settled
    state, as in [ctx_isolation]. *)
Theorem ctx_resumes H1 H fuel fuel2 (w w1 w2 w3 : world C) n libid fn cs sp regs regs' h r i :
  confined H1 w -> all_settled w -> n ∈ H1 ->
  dj64_call fuel w (Z.of_nat n) libid fn cs sp regs = Done (w1, Ret (DJ64_RET_OK, regs')) ->
  confined H w1 -> n ∉ H -> host_within H h ->
  run_host (dj64_call fuel2) h w1 = Done (w2, r) ->
  hooks_restore w2 (Z.of_nat n) = Done w3 ->
  i ∈ insts -> is_Some (sw_contexts (si_get i (w_ctx w1)) !! n) ->
  sw_cur (si_get i (w_ctx w3)) = Some n /\
  sw_glob (si_get i (w_ctx w3)) = sw_glob (si_get i (w_ctx w1)) /\
  sw_contexts (si_get i (w_ctx w3)) !! n = sw_contexts (si_get i (w_ctx w1)) !! n.
Proof.
  intros Hc St Hn1 E1 Hc1 Hn Hh E2 E3 Hi Hsome.
  destruct (call_ok_settles _ _ _ _ _ _ _ _ _ _ _ Hc St Hn1 E1) as [Hcur St1].
  pose proof (settled_iso H w1 Hc1 St1) as Hw1. destruct Hc1.
  pose proof (run_host_isok insts H (owns w1) (dj64_call fuel2)
    (dj64_call_isok insts get_handle_current H cf_call0 cf_noret0 (owns w1) fuel2) h w1 Hh Hw1) as R.
  rewrite E2 in R.
  assert (Hw2 : iso insts H (owns w1) w2) by (destruct r; [by destruct R|done..]). clear R.
  pose proof (is_kept _ _ _ _ Hw2 i Hi n Hn) as [K1 K2].
  apply (hooks_restore_each insts) in E3 as (c3 & -> & Hr); [|apply Hw2].
  exact (restore_gives_back i n _ _ _ Hi (Hcur i Hi) (St1 i Hi) Hsome K1 K2 (Hr i Hi)).
Qed.

End Thms.
