(* ===== verification/LibcCtx.v ===== *)
(** * The libc's swapped state

    Three uses of DJ64_DEFINE_SWAPPABLE_CONTEXT, with the functions that work on
    them: the modes of DOS handles (src/libc/dos/io/dosio.c), the table of file
    system extensions (src/libc/fsext/fsext.c, its functions are in [FsExt]), and
    the state of exit (src/libc/ansi/stdlib/exit.c, atexit.c). [__bss_count] of
    crt1.c, the static variables inside functions and the heap are shared by all
    handles. *)

From stdpp Require Import base gmap list numbers.
From Stdlib Require Import ZArith Lia.
From S2P Require Import Prelude ThunkState Thunks ThunkProps SwapCtx CtxIso FsExt.

Open Scope Z_scope.
Open Scope c_scope.

(** ** dosio.c *)

Definition O_BINARY : Z := 4.
Definition O_TEXT : Z := 8.

(** init_fh, filled up to 20 *)
Definition init_fh : list Z :=
  [O_TEXT; O_TEXT; O_TEXT; O_BINARY; O_BINARY] ++ replicate 15 0.

(** The values of [__file_handle_modes]: the static table, the table inside the
    context of a handle, a block of the heap. *)
Inductive modes_ptr := PNull | PStatic | PInit (x : nat) | PHeap (b : nat).

(** struct fh_state *)
Record fh_state := mk_fh {
  init_file_handle_modes : list Z;
  dosio_bss_count : Z;
  fh_count : Z;
  fh_modes : modes_ptr }.

Definition fhinit : fh_state := mk_fh init_fh (-1) 20 PNull.

Definition fhs_pre (g : modes_ptr) (st : fh_state) : fh_state :=
  mk_fh (init_file_handle_modes st) (dosio_bss_count st) (fh_count st) g.

Definition fhs_post (st : fh_state) (g : modes_ptr) : modes_ptr := fh_modes st.

(** [st->__file_handle_modes = st->init_file_handle_modes] *)
Definition fhs_init (x : nat) (st : fh_state) : fh_state := fhs_pre (PInit x) st.

Definition fh_def : swdef fh_state modes_ptr := mk_swdef fhinit fhs_init (Some fhs_pre) fhs_post.

#[export] Instance fh_laws : SwLaws fh_def.
Proof. by split; try intros []. Qed.

(** ** fsext.c *)

(** struct fsext_state: [num_fds] and [fsext_list] *)
Record fsx := mk_fsx { x_num_fds : Z; x_fsext_list : option (list fsext_entry) }.

Definition fsx_def : swdef fsx unit := mk_swdef (mk_fsx 0 None) (fun _ t => t) None (fun _ g => g).

#[export] Instance fsx_laws : SwLaws fsx_def.
Proof. split; [done..|]. by intros [] ? []. Qed.

(** ** exit.c *)

(** The variables that [est_pre] and [est_post] copy: the list at [__atexit_ptr]
    as the functions on it, first the newest; whether the two hooks are set. *)
Record exit_glob := mk_eg {
  __atexit_ptr : list Z;
  __FSEXT_exit_hook : bool;
  __fd_properties_cleanup_hook : bool }.

(** struct exit_state; a function that is NULL is 0. *)
Record exit_state := mk_es { es_glob : exit_glob; atexit2_hook : Z; atexit2_arg : Z }.

Definition est_pre (g : exit_glob) (st : exit_state) : exit_state :=
  mk_es g (atexit2_hook st) (atexit2_arg st).
Definition est_post (st : exit_state) (g : exit_glob) : exit_glob := es_glob st.

Definition exit_def : swdef exit_state exit_glob :=
  mk_swdef (mk_es (mk_eg [] false false) 0 0) (fun _ t => t) (Some est_pre) est_post.

#[export] Instance exit_laws : SwLaws exit_def.
Proof. by split; try intros []. Qed.

(** ** The state as a whole *)

Record libc := mk_libc {
  l_fh : swctx fh_state modes_ptr;
  l_fsext : swctx fsx unit;
  l_exit : swctx exit_state exit_glob;
  l_init_count : Z;               (* static in init of fsext.c *)
  l_null_dev_fd : Z;              (* static in __FSEXT_alloc_fd *)
  l_static_modes : list Z;        (* init_file_handle_mo *)
  l_blocks : gmap nat (list Z);   (* mode tables on the heap *)
  l_bss_count : Z }.

Definition set_fh (s : swctx fh_state modes_ptr) (l : libc) : libc :=
  mk_libc s (l_fsext l) (l_exit l) (l_init_count l) (l_null_dev_fd l) (l_static_modes l)
    (l_blocks l) (l_bss_count l).
Definition set_fsx (s : swctx fsx unit) (l : libc) : libc :=
  mk_libc (l_fh l) s (l_exit l) (l_init_count l) (l_null_dev_fd l) (l_static_modes l)
    (l_blocks l) (l_bss_count l).
Definition set_exit (s : swctx exit_state exit_glob) (l : libc) : libc :=
  mk_libc (l_fh l) (l_fsext l) s (l_init_count l) (l_null_dev_fd l) (l_static_modes l)
    (l_blocks l) (l_bss_count l).
Definition set_statics (ic nd : Z) (l : libc) : libc :=
  mk_libc (l_fh l) (l_fsext l) (l_exit l) ic nd (l_static_modes l) (l_blocks l) (l_bss_count l).
Definition set_tables (sm : list Z) (bl : gmap nat (list Z)) (l : libc) : libc :=
  mk_libc (l_fh l) (l_fsext l) (l_exit l) (l_init_count l) (l_null_dev_fd l) sm bl
    (l_bss_count l).

(** [__bss_count ++] of [__crt1_startup] *)
Definition bss_start (l : libc) : libc :=
  mk_libc (l_fh l) (l_fsext l) (l_exit l) (l_init_count l) (l_null_dev_fd l)
    (l_static_modes l) (l_blocks l) (l_bss_count l + 1).

Definition fh_inst : swinst libc := mk_swinst _ _ fh_def l_fh set_fh.
Definition fsx_inst : swinst libc := mk_swinst _ _ fsx_def l_fsext set_fsx.
Definition exit_inst : swinst libc := mk_swinst _ _ exit_def l_exit set_exit.

Definition libc_insts : list (swinst libc) := [fh_inst; fsx_inst; exit_inst].

#[export] Instance libc_insts_ok : SwInsts libc_insts.
Proof.
  split.
  - intros i Hi. repeat (apply elem_of_cons in Hi as [->|Hi]; [apply _|]).
    by apply not_elem_of_nil in Hi.
  - intros i Hi. repeat (apply elem_of_cons in Hi as [->|Hi]; [done|]).
    by apply not_elem_of_nil in Hi.
  - intros [|[|[|a]]] [|[|[|b]]] i j; cbn; intros; simplify_eq; done.
Qed.

(** ** Tables of modes *)

Definition table_at (l : libc) (p : modes_ptr) : option (list Z) :=
  match p with
  | PNull => None
  | PStatic => Some (l_static_modes l)
  | PInit x => init_file_handle_modes <$> sw_contexts (l_fh l) !! x
  | PHeap b => l_blocks l !! b
  end.

Definition set_ctx_table (st : fh_state) (t : list Z) : fh_state :=
  mk_fh t (dosio_bss_count st) (fh_count st) (fh_modes st).

Definition put_table (l : libc) (p : modes_ptr) (t : list Z) : libc :=
  match p with
  | PNull => l
  | PStatic => set_tables t (l_blocks l) l
  | PInit x =>
      set_fh (mk_sw (alter (fun st => set_ctx_table st t) x (sw_contexts (l_fh l)))
        (sw_cur (l_fh l)) (sw_glob (l_fh l))) l
  | PHeap b => set_tables (l_static_modes l) (<[b := t]> (l_blocks l)) l
  end.

(** [__file_handle_modes[fd] = mode]; a [char] is 8 bits. *)
Definition table_set (l : libc) (p : modes_ptr) (fd mode : Z) : outcome libc :=
  t ← deref (table_at l p);
  if (0 <=? fd) && (fd <? Z.of_nat (length t)) then
    Done (put_table l p (<[Z.to_nat fd := wrap_s 8 mode]> t))
  else Fail UB.

(** [__file_handle_modes[fd]] *)
Definition mode_get (l : libc) (fd : Z) : outcome Z :=
  t ← deref (table_at l (sw_glob (l_fh l)));
  if fd <? 0 then Fail UB else deref (t !! Z.to_nat fd).

(** memcpy or memset over part of an array *)
Definition overlay (t : list Z) (off : nat) (v : list Z) : list Z :=
  take off t ++ v ++ drop (off + length v) t.

(** The element of the current handle, through [fhs]. *)
Definition cur_fh (l : libc) : outcome (nat * fh_state) :=
  x ← deref (sw_cur (l_fh l)); st ← deref (sw_contexts (l_fh l) !! x); Done (x, st).

Definition put_fh (l : libc) (x : nat) (st : fh_state) (g : modes_ptr) : libc :=
  set_fh (mk_sw (<[x := st]> (sw_contexts (l_fh l))) (sw_cur (l_fh l)) g) l.

Section FileHandles.
(** malloc(255): the block it gives and the bytes found there, or NULL *)
Context (malloc : gmap nat (list Z) -> option (nat * list Z)).

(** The table is made larger: count becomes 255. *)
Definition expand_tables (l : libc) (x : nat) (st : fh_state) : outcome libc :=
  let oldcount := wrap_s 32 (fh_count st) in
  '(b, junk) ← deref (malloc (l_blocks l));
  let t := overlay junk 0 (init_file_handle_modes st) in
  if oldcount <? 0 then Fail UB
  else
    let t := overlay t (Z.to_nat oldcount) (replicate (Z.to_nat (255 - oldcount)) 0) in
    let st := mk_fh (init_file_handle_modes st) (dosio_bss_count st) 255 (fh_modes st) in
    Done (set_tables (l_static_modes l) (<[b := t]> (l_blocks l)) (put_fh l x st (PHeap b))).

(** The call of DOS function 67h changes nothing of this state. *)
Definition __file_handle_set (l : libc) (fd mode : Z) : outcome libc :=
  '(x, st) ← cur_fh l;
  let st :=
    if negb (dosio_bss_count st =? l_bss_count l) then
      mk_fh (init_file_handle_modes st) (l_bss_count l) 20 (fh_modes st)
    else st in
  let l := put_fh l x st (sw_glob (l_fh l)) in
  if fd <? 0 then Done l
  else
    l ← (if (wrap_u 64 (fh_count st - 1) <=? fd) && (fh_count st <? 255)
         then expand_tables l x st else Done l);
    table_set l (sw_glob (l_fh l)) fd mode.

End FileHandles.

(** ** The functions of fsext.c on the current handle *)

Definition fs_load (l : libc) (t : fsx) : fsext_state :=
  mk_fsext (x_num_fds t) (x_fsext_list t) (l_init_count l) (l_null_dev_fd l)
    (__FSEXT_exit_hook (sw_glob (l_exit l))).

Definition fs_store (l : libc) (x : nat) (fs : fsext_state) : libc :=
  let g := sw_glob (l_exit l) in
  set_exit (mk_sw (sw_contexts (l_exit l)) (sw_cur (l_exit l))
      (mk_eg (__atexit_ptr g) (exit_hook fs) (__fd_properties_cleanup_hook g)))
    (set_statics (init_count fs) (null_dev_fd fs)
      (set_fsx (mk_sw (<[x := mk_fsx (num_fds fs) (fsext_list fs)]> (sw_contexts (l_fsext l)))
        (sw_cur (l_fsext l)) tt) l)).

Definition with_fsext {A} (op : Z -> fsext_state -> outcome (fsext_state * A)) (l : libc)
  : outcome (libc * A) :=
  x ← deref (sw_cur (l_fsext l));
  t ← deref (sw_contexts (l_fsext l) !! x);
  '(fs, a) ← op (l_bss_count l) (fs_load l t);
  Done (fs_store l x fs, a).

(** ** atexit.c, exit.c *)

Definition set_eglob (g : exit_glob) (l : libc) : libc :=
  set_exit (mk_sw (sw_contexts (l_exit l)) (sw_cur (l_exit l)) g) l.

(** [ok]: malloc succeeds *)
Definition atexit (ok : bool) (l : libc) (a : Z) : libc * Z :=
  if a =? 0 then (l, -1)
  else if negb ok then (l, -1)
  else
    let g := sw_glob (l_exit l) in
    (set_eglob (mk_eg (a :: __atexit_ptr g) (__FSEXT_exit_hook g)
       (__fd_properties_cleanup_hook g)) l, 0).

Definition cur_exit (l : libc) : outcome (nat * exit_state) :=
  x ← deref (sw_cur (l_exit l)); st ← deref (sw_contexts (l_exit l) !! x); Done (x, st).

Definition atexit2 (l : libc) (function arg : Z) : outcome (libc * Z) :=
  '(x, st) ← cur_exit l;
  if negb (atexit2_hook st =? 0) && negb (function =? 0) then Done (l, -1)
  else
    Done (set_exit (mk_sw (<[x := mk_es (es_glob st) function arg]> (sw_contexts (l_exit l)))
            (sw_cur (l_exit l)) (sw_glob (l_exit l))) l, 0).

(** What exit runs, in order. *)
Inductive exit_event :=
  | EvFunction (a : Z)
  | EvStdio
  | EvFdProperties
  | EvFsext
  | EvSetmode
  | EvSignalSetup
  | EvAtexit2 (function arg status : Z)
  | EvExit (status : Z).

Section Exit.
(** What the registered functions, the cleanups and setmode do to the state;
    [__stdio_cleanup_hook] is set (stdiohk.c) or not. *)
Context (code : exit_event -> libc -> libc) (stdio_hook : bool).

Fixpoint run_list (a : list Z) (l : libc) : libc * list exit_event :=
  match a with
  | [] => (l, [])
  | f :: a' =>
      let '(l, ev) := run_list a' (code (EvFunction f) l) in (l, EvFunction f :: ev)
  end.

Definition run_if (b : bool) (e : exit_event) (s : libc * list exit_event)
  : libc * list exit_event :=
  if b then (code e s.1, s.2 ++ [e]) else s.

Definition exit (l : libc) (status : Z) : outcome (libc * list exit_event) :=
  let g := sw_glob (l_exit l) in
  let l := set_eglob (mk_eg [] (__FSEXT_exit_hook g) (__fd_properties_cleanup_hook g)) l in
  let s := run_list (__atexit_ptr g) l in
  let s := run_if stdio_hook EvStdio s in
  let s := run_if (__fd_properties_cleanup_hook (sw_glob (l_exit s.1))) EvFdProperties s in
  let s := run_if (__FSEXT_exit_hook (sw_glob (l_exit s.1))) EvFsext s in
  let s := run_if true EvSetmode s in
  let s := run_if true EvSignalSetup s in
  '(_, st) ← cur_exit s.1;
  let s := run_if (negb (atexit2_hook st =? 0))
             (EvAtexit2 (atexit2_hook st) (atexit2_arg st) status) s in
  Done (s.1, s.2 ++ [EvExit status]).

End Exit.

(** ** The modes of DOS handles *)

(** The current handle [x] has the table [t]: its own small one, or a large one on
    the heap that was made since the last program start. *)
Record fh_inv (l : libc) (x : nat) (st : fh_state) (t : list Z) : Prop := {
  fi_cur : sw_cur (l_fh l) = Some x;
  fi_st : sw_contexts (l_fh l) !! x = Some st;
  fi_tab : table_at l (sw_glob (l_fh l)) = Some t;
  fi_kind : (sw_glob (l_fh l) = PInit x /\ fh_count st = 20 /\ length t = 20%nat) \/
    (exists b, sw_glob (l_fh l) = PHeap b /\ fh_count st = 255 /\ length t = 255%nat /\
       dosio_bss_count st = l_bss_count l) }.

Lemma table_set_Done l p t fd mode :
  table_at l p = Some t -> 0 <= fd < Z.of_nat (length t) ->
  table_set l p fd mode = Done (put_table l p (<[Z.to_nat fd := wrap_s 8 mode]> t)).
Proof.
  intros Ht Hfd. unfold table_set. rewrite Ht. cbn [deref]. rewrite bind_Done.
  rewrite (proj2 (Z.leb_le _ _)), (proj2 (Z.ltb_lt _ _)) by lia. done.
Qed.

Lemma overlay_lookup t off v k : (off + length v <= length t)%nat ->
  overlay t off v !! k =
  if decide (off <= k < off + length v)%nat then v !! (k - off)%nat else t !! k.
Proof.
  intros Hl. unfold overlay. destruct (decide (k < off)%nat).
  - rewrite decide_False by lia. rewrite lookup_app_l by (rewrite length_take; lia).
    by rewrite lookup_take_lt.
  - rewrite lookup_app_r, length_take by (rewrite length_take; lia).
    replace (k - off `min` length t)%nat with (k - off)%nat by lia. case_decide.
    + by rewrite lookup_app_l by lia.
    + rewrite lookup_app_r by lia. rewrite lookup_drop. f_equal. lia.
Qed.

Lemma length_overlay t off v : (off + length v <= length t)%nat ->
  length (overlay t off v) = length t.
Proof. intros. unfold overlay. rewrite !length_app, length_take, length_drop. lia. Qed.

(** The table that [expand_tables] makes. *)
Definition expanded (junk init : list Z) : list Z :=
  overlay (overlay junk 0 init) 20 (replicate 235 0).

Lemma expanded_spec junk init : length junk = 255%nat -> length init = 20%nat ->
  length (expanded junk init) = 255%nat /\
  (forall k, (k < 20)%nat -> expanded junk init !! k = init !! k) /\
  (forall k, (20 <= k < 255)%nat -> expanded junk init !! k = Some 0).
Proof.
  intros Hj Hi. unfold expanded.
  assert (L1 : length (overlay junk 0 init) = 255%nat) by (rewrite length_overlay; lia).
  split_and!.
  - rewrite length_overlay; rewrite ?length_replicate; lia.
  - intros k Hk. rewrite overlay_lookup by (rewrite length_replicate; lia).
    rewrite decide_False, overlay_lookup, decide_True by lia. f_equal. lia.
  - intros k Hk. rewrite overlay_lookup by (rewrite length_replicate; lia).
    rewrite decide_True by (rewrite length_replicate; lia). apply lookup_replicate_2. lia.
Qed.

Section FileHandleSet.
Context (malloc : gmap nat (list Z) -> option (nat * list Z)).
Hypothesis malloc_ok : forall bl, exists b junk,
  malloc bl = Some (b, junk) /\ bl !! b = None /\ length junk = 255%nat.

Lemma expand_tables_Done l x st :
  sw_contexts (l_fh l) !! x = Some st -> sw_cur (l_fh l) = Some x -> fh_count st = 20 ->
  length (init_file_handle_modes st) = 20%nat ->
  exists b junk, l_blocks l !! b = None /\ length junk = 255%nat /\
  expand_tables malloc l x st =
  Done (set_tables (l_static_modes l)
    (<[b := expanded junk (init_file_handle_modes st)]> (l_blocks l))
    (put_fh l x (mk_fh (init_file_handle_modes st) (dosio_bss_count st) 255 (fh_modes st))
       (PHeap b))).
Proof.
  intros Hst Hcur Hc Hi. destruct (malloc_ok (l_blocks l)) as (b & junk & Hm & Hb & Hj).
  exists b, junk. split_and!; [done..|]. unfold expand_tables. rewrite Hm. cbn [deref].
  rewrite bind_Done, Hc. done.
Qed.

(** What is to hold of the state after the mode of [fd] was recorded. *)
Definition fh_recorded (l : libc) (x : nat) (t : list Z) (fd mode : Z) (l' : libc) : Prop :=
  exists st' t', fh_inv l' x st' t' /\ t' !! Z.to_nat fd = Some mode /\
    (forall k, k <> Z.to_nat fd -> (k < length t)%nat -> t' !! k = t !! k) /\
    (forall k, k <> Z.to_nat fd -> (length t <= k < length t')%nat -> t' !! k = Some 0) /\
    (forall p u, p <> sw_glob (l_fh l) -> table_at l p = Some u -> table_at l' p = Some u).

(** The beginning of the function: the element after the check of [__bss_count]. *)
Definition refreshed (l : libc) (st : fh_state) : fh_state :=
  if negb (dosio_bss_count st =? l_bss_count l)
  then mk_fh (init_file_handle_modes st) (l_bss_count l) 20 (fh_modes st) else st.

Lemma refreshed_bss l st : dosio_bss_count (refreshed l st) = l_bss_count l.
Proof. unfold refreshed. by destruct (Z.eqb_spec (dosio_bss_count st) (l_bss_count l)). Qed.

Lemma file_handle_set_eq l x st fd mode :
  sw_cur (l_fh l) = Some x -> sw_contexts (l_fh l) !! x = Some st -> 0 <= fd ->
  let st1 := refreshed l st in
  let l1 := put_fh l x st1 (sw_glob (l_fh l)) in
  __file_handle_set malloc l fd mode =
  (l2 ← (if (wrap_u 64 (fh_count st1 - 1) <=? fd) && (fh_count st1 <? 255)
         then expand_tables malloc l1 x st1 else Done l1);
   table_set l2 (sw_glob (l_fh l2)) fd mode).
Proof.
  intros Hc Hs Hfd. unfold __file_handle_set, cur_fh. rewrite Hc. cbn [deref].
  rewrite bind_Done, Hs. cbn [deref]. rewrite !bind_Done, (proj2 (Z.ltb_ge fd 0)) by lia.
  done.
Qed.

Lemma fh_set_grow l x st t fd mode :
  fh_inv l x st t -> sw_glob (l_fh l) = PInit x -> fh_count st = 20 -> length t = 20%nat ->
  19 <= fd < 255 -> wrap_s 8 mode = mode ->
  exists l', __file_handle_set malloc l fd mode = Done l' /\ fh_recorded l x t fd mode l'.
Proof.
  intros [Hcur Hst Htab _] Hg Hc Hlen Hfd Hw. assert (Hx := lookup_lt_Some _ _ _ Hst).
  rewrite (file_handle_set_eq l x st) by (done || lia).
  pose proof (refreshed_bss l st) as Eb. set (st1 := refreshed l st) in *.
  assert (fh_count st1 = 20 /\ init_file_handle_modes st1 = t) as [Ec Ei].
  { rewrite Hg in Htab. cbn [table_at] in Htab. rewrite Hst in Htab. injection Htab as <-.
    unfold st1, refreshed. by destruct (negb _). }
  clearbody st1. rewrite Ec. change (wrap_u 64 (20 - 1)) with 19.
  rewrite (proj2 (Z.leb_le _ _)) by lia. cbn [andb Z.ltb].
  change (20 <? 255) with true. cbn [andb].
  destruct (expand_tables_Done (put_fh l x st1 (sw_glob (l_fh l))) x st1) as
    (b & junk & Hb & Hj & ->); [by apply list_lookup_insert_eq|done|done|by rewrite Ei|].
  rewrite bind_Done, Ei. destruct (expanded_spec junk t Hj Hlen) as (L & Hlow & Hhigh).
  rewrite (table_set_Done _ _ (expanded junk t)); [|by cbn; rewrite lookup_insert_eq|lia].
  eexists. split; [reflexivity|]. do 2 eexists. split_and!.
  - constructor; [done| |by cbn; rewrite lookup_insert_eq|].
    + cbn. apply list_lookup_insert_eq. by rewrite length_insert.
    + right. exists b. rewrite length_insert. by cbn.
  - rewrite list_lookup_insert_eq, Hw by lia. done.
  - intros k Hne Hlt. rewrite list_lookup_insert_ne by done. apply Hlow. lia.
  - intros k Hne. rewrite length_insert. intros. rewrite list_lookup_insert_ne by done.
    apply Hhigh. lia.
  - intros p u Hp Hu. destruct p as [| |y|b']; [done|done| |]; cbn in *.
    + by rewrite !list_lookup_insert_ne by congruence.
    + rewrite !lookup_insert_ne; [done|intros ->; congruence..].
Qed.

Lemma fh_set_small l x st t fd mode :
  fh_inv l x st t -> sw_glob (l_fh l) = PInit x -> fh_count st = 20 -> length t = 20%nat ->
  0 <= fd < 19 -> wrap_s 8 mode = mode ->
  exists l', __file_handle_set malloc l fd mode = Done l' /\ fh_recorded l x t fd mode l'.
Proof.
  intros [Hcur Hst Htab _] Hg Hc Hlen Hfd Hw. assert (Hx := lookup_lt_Some _ _ _ Hst).
  rewrite (file_handle_set_eq l x st) by (done || lia). set (st1 := refreshed l st).
  assert (fh_count st1 = 20 /\ init_file_handle_modes st1 = t) as [Ec Ei].
  { rewrite Hg in Htab. cbn [table_at] in Htab. rewrite Hst in Htab. injection Htab as <-.
    unfold st1, refreshed. by destruct (negb _). }
  clearbody st1. rewrite Ec. change (wrap_u 64 (20 - 1)) with 19.
  rewrite (proj2 (Z.leb_gt _ _)) by lia. cbn [andb]. rewrite bind_Done. cbn [l_fh put_fh set_fh sw_glob]. rewrite Hg.
  rewrite (table_set_Done _ _ t); [|cbn; rewrite list_lookup_insert_eq by done; by rewrite <- Ei|lia].
  set (t' := <[Z.to_nat fd := wrap_s 8 mode]> t).
  eexists. split; [reflexivity|]. exists (set_ctx_table st1 t'), t'. unfold t'. split_and!.
  - constructor; [done| | |].
    + cbn. by rewrite list_lookup_alter_eq, list_lookup_insert_eq by done.
    + cbn. rewrite list_lookup_alter_eq, list_lookup_insert_eq by done. reflexivity.
    + left. rewrite length_insert. by cbn.
  - rewrite list_lookup_insert_eq, Hw by lia. done.
  - intros k Hne Hlt. by rewrite list_lookup_insert_ne by done.
  - intros k Hne. rewrite length_insert. lia.
  - intros p u Hp Hu. destruct p as [| |y|b']; [done|done| |done]; cbn in *.
    by rewrite list_lookup_alter_ne, list_lookup_insert_ne by congruence.
Qed.

Lemma fh_set_large l x st t b fd mode :
  fh_inv l x st t -> sw_glob (l_fh l) = PHeap b -> fh_count st = 255 -> length t = 255%nat ->
  dosio_bss_count st = l_bss_count l -> 0 <= fd < 255 -> wrap_s 8 mode = mode ->
  exists l', __file_handle_set malloc l fd mode = Done l' /\ fh_recorded l x t fd mode l'.
Proof.
  intros [Hcur Hst Htab _] Hg Hc Hlen Hbss Hfd Hw. assert (Hx := lookup_lt_Some _ _ _ Hst).
  rewrite (file_handle_set_eq l x st) by (done || lia).
  replace (refreshed l st) with st by (unfold refreshed; by rewrite Hbss, Z.eqb_refl).
  rewrite Hc. change (255 <? 255) with false. rewrite andb_false_r, bind_Done.
  cbn [l_fh put_fh set_fh sw_glob]. rewrite Hg in *.
  rewrite (table_set_Done _ _ t); [|exact Htab|lia].
  eexists. split; [reflexivity|]. do 2 eexists. split_and!.
  - constructor; [done| |by cbn; rewrite lookup_insert_eq|].
    + cbn. by apply list_lookup_insert_eq.
    + right. exists b. rewrite length_insert. by cbn.
  - rewrite list_lookup_insert_eq, Hw by lia. done.
  - intros k Hne Hlt. by rewrite list_lookup_insert_ne by done.
  - intros k Hne. rewrite length_insert. lia.
  - intros p u Hp Hu. rewrite Hg in Hp. destruct p as [| |y|b']; [done|done| |]; cbn in *.
    + destruct (decide (x = y)) as [<-|Hne].
      * rewrite list_lookup_insert_eq by done. by rewrite Hst in Hu.
      * by rewrite list_lookup_insert_ne by done.
    + rewrite lookup_insert_ne by congruence. done.
Qed.

(** __file_handle_set records the mode of a handle below 255. The table grows to
    255 entries when handle 19 or a larger one is first used, the handles keep
    their modes and the new ones are 0; the tables of all other handles of dj64
    stay as they are. *)
Theorem file_handle_set_correct l x st t fd mode :
  fh_inv l x st t -> 0 <= fd < 255 -> -128 <= mode < 128 ->
  exists l', __file_handle_set malloc l fd mode = Done l' /\ fh_recorded l x t fd mode l'.
Proof.
  intros Hi Hfd Hmode. assert (wrap_s 8 mode = mode) by (apply wrap_s_small; lia).
  pose proof (fi_kind _ _ _ _ Hi) as [(Hg & Hc & Hl)|(b & Hg & Hc & Hl & Hb)].
  - destruct (Z.lt_ge_cases fd 19);
      [eapply fh_set_small|eapply fh_set_grow]; done || lia.
  - by eapply fh_set_large.
Qed.

(** [__bss_count] is one variable for all programs, and the start of any program
    counts it up. A program with a large table that then records the mode of a
    handle from 19 on has its table made anew: the modes of all other handles from
    20 on become 0, those below 20 go back to what they were when the table first
    grew. *)
Theorem file_handle_modes_lost l x st t b fd mode :
  fh_inv l x st t -> sw_glob (l_fh l) = PHeap b ->
  length (init_file_handle_modes st) = 20%nat -> 19 <= fd < 255 -> -128 <= mode < 128 ->
  exists l' t', __file_handle_set malloc (bss_start l) fd mode = Done l' /\
    table_at l' (sw_glob (l_fh l')) = Some t' /\
    (forall k, k <> Z.to_nat fd -> (20 <= k < 255)%nat -> t' !! k = Some 0) /\
    (forall k, k <> Z.to_nat fd -> (k < 20)%nat -> t' !! k = init_file_handle_modes st !! k).
Proof.
  intros [Hcur Hst Htab Hk] Hg Hi Hfd Hmode. assert (Hx := lookup_lt_Some _ _ _ Hst).
  destruct Hk as [(Hg' & _)|(b' & _ & Hc & Hlen & Hbss)]; [congruence|].
  rewrite (file_handle_set_eq (bss_start l) x st) by (done || lia). unfold refreshed.
  cbn [l_bss_count bss_start]. rewrite (proj2 (Z.eqb_neq _ _)) by lia. cbn [negb fh_count].
  change (wrap_u 64 (20 - 1)) with 19. rewrite (proj2 (Z.leb_le _ _)) by lia.
  change (20 <? 255) with true. cbn [andb].
  destruct (expand_tables_Done
    (put_fh (bss_start l) x (mk_fh (init_file_handle_modes st) (l_bss_count l + 1) 20
       (fh_modes st)) (sw_glob (l_fh (bss_start l)))) x
    (mk_fh (init_file_handle_modes st) (l_bss_count l + 1) 20 (fh_modes st)))
    as (b2 & junk & Hb & Hj & ->); [by apply list_lookup_insert_eq|done..|].
  rewrite bind_Done. cbn [init_file_handle_modes].
  destruct (expanded_spec junk _ Hj Hi) as (L & Hlow & Hhigh).
  rewrite (table_set_Done _ _ (expanded junk (init_file_handle_modes st)));
    [|by cbn; rewrite lookup_insert_eq|lia].
  do 2 eexists. split; [reflexivity|]. split; [by cbn; rewrite lookup_insert_eq|].
  split; intros k Hne Hlt; rewrite list_lookup_insert_ne by done; auto.
Qed.

(** A handle number from 255 on is written outside of the table. *)
Theorem file_handle_set_overruns l x st t fd mode :
  fh_inv l x st t -> 255 <= fd < 2 ^ 31 ->
  __file_handle_set malloc l fd mode = Fail UB.
Proof.
  intros Hi Hfd. pose proof Hi as [Hcur Hst Htab Hk].
  rewrite (file_handle_set_eq l x st) by (done || lia). set (st1 := refreshed l st).
  assert (Hx := lookup_lt_Some _ _ _ Hst).
  assert (Hout : forall l p t, table_at l p = Some t -> (length t <= 255)%nat ->
    table_set l p fd mode = Fail UB).
  { intros l0 p t0 Ht0 Hl0. unfold table_set. rewrite Ht0. cbn [deref]. rewrite bind_Done.
    rewrite (proj2 (Z.ltb_ge fd _)) by lia. by rewrite andb_false_r. }
  destruct Hk as [(Hg & Hc & Hl)|(b & Hg & Hc & Hl & Hb)].
  - assert (fh_count st1 = 20 /\ init_file_handle_modes st1 = t) as [Ec Ei].
    { rewrite Hg in Htab. cbn [table_at] in Htab. rewrite Hst in Htab. injection Htab as <-.
      unfold st1, refreshed. by destruct (negb _). }
    clearbody st1. rewrite Ec. change (wrap_u 64 (20 - 1)) with 19.
    rewrite (proj2 (Z.leb_le _ _)) by lia. change (20 <? 255) with true. cbn [andb].
    destruct (expand_tables_Done (put_fh l x st1 (sw_glob (l_fh l))) x st1) as
      (b & junk & Hb & Hj & ->); [by apply list_lookup_insert_eq|done|done|by rewrite Ei|].
    rewrite bind_Done, Ei. destruct (expanded_spec junk t Hj Hl) as (L & _).
    eapply Hout; [by cbn; rewrite lookup_insert_eq|lia].
  - unfold st1, refreshed. rewrite Hb, Z.eqb_refl. cbn [negb]. rewrite Hc.
    change (255 <? 255) with false. rewrite andb_false_r, bind_Done.
    cbn [l_fh put_fh set_fh sw_glob]. rewrite Hg in *. eapply Hout; [exact Htab|lia].
Qed.

End FileHandleSet.

(** ** Extensions of two programs *)

(** The table of extensions is one per handle, but [init_count], which tells
    whether it is set up, is one for all, and so is [__bss_count]. When a second
    program starts after the first has used its table, the next access of the first
    program finds the two counts different and clears its table: its extensions
    are forgotten, and its descriptor is a plain DOS handle from then on. *)
Theorem fsext_lost l x n lst fd :
  sw_cur (l_fsext l) = Some x -> sw_contexts (l_fsext l) !! x = Some (mk_fsx n (Some lst)) ->
  l_init_count l = l_bss_count l -> 0 <= fd ->
  exists l', with_fsext (fun bss fs => __FSEXT_get_function bss fs fd) (bss_start l) =
    Done (l', 0) /\ sw_contexts (l_fsext l') !! x = Some (mk_fsx 0 None).
Proof.
  intros Hc Hx Hi Hfd. unfold with_fsext, bss_start. cbn [l_fsext l_bss_count].
  rewrite Hc. cbn [deref]. rewrite bind_Done. cbn beta. rewrite Hx. cbn [deref]. rewrite bind_Done.
  unfold __FSEXT_get_function, init. cbn [fs_load init_count l_init_count].
  rewrite (proj2 (Z.eqb_neq _ _)) by lia. cbn [num_fds].
  rewrite (proj2 (Z.leb_le 0 fd)), orb_true_r, bind_Done by done.
  eexists. split; [reflexivity|]. cbn. apply list_lookup_insert_eq.
  by eapply lookup_lt_Some.
Qed.

(** Where the second program is the first to use extensions, the first program is
    taken to be set up already: it gets a table, but [__FSEXT_exit_hook] is not set
    for it, and its exit does not close what it has open. *)
Theorem fsext_hook_missing l x fd f l' r :
  sw_cur (l_fsext l) = Some x -> sw_contexts (l_fsext l) !! x = Some (mk_fsx 0 None) ->
  l_init_count l = l_bss_count l -> __FSEXT_exit_hook (sw_glob (l_exit l)) = false ->
  with_fsext (fun bss fs => __FSEXT_set_function bss true fs fd f) l = Done (l', r) ->
  __FSEXT_exit_hook (sw_glob (l_exit l')) = false.
Proof.
  intros Hc Hx Hi Hh H. unfold with_fsext in H. rewrite Hc in H. cbn [deref] in H.
  rewrite bind_Done in H. cbn beta in H. rewrite Hx in H. cbn [deref] in H. rewrite bind_Done in H.
  apply bind_inv in H as ([fs a] & H & [= <- <-]). cbn.
  assert (Hg : forall st' r', grow_table (l_bss_count l) true (fs_load l (mk_fsx 0 None)) fd =
    Done (st', r') -> exit_hook st' = false).
  { unfold grow_table, init. cbn [fs_load init_count]. rewrite Hi, Z.eqb_refl. intros st' r'.
    repeat case_match; intros; simplify_eq; done. }
  unfold __FSEXT_set_function in H. apply bind_inv in H as ([st r'] & E & H).
  apply Hg in E. destruct (negb (r' =? 0)); [by injection H as <- _|].
  apply bind_inv in H as (e & _ & H). apply bind_inv in H as (st2 & H2 & [= <- _]).
  unfold entry_set in H2. by repeat case_match; simplify_eq.
Qed.

(** ** exit *)

Definition is_function (e : exit_event) : option Z :=
  match e with EvFunction a => Some a | _ => None end.

Section ExitThms.
Context (code : exit_event -> libc -> libc) (stdio_hook : bool).

Lemma run_list_events a : forall l, (run_list code a l).2 = map EvFunction a.
Proof.
  induction a as [|f a IH]; intros l; [done|]. cbn. specialize (IH (code (EvFunction f) l)).
  destruct (run_list _ _ _) as [l' ev]. cbn in *. by rewrite IH.
Qed.

Lemma run_if_events b e s : (run_if code b e s).2 = s.2 ++ (if b then [e] else []).
Proof. destruct b; cbn; [done|by rewrite app_nil_r]. Qed.

(** exit runs the functions registered with atexit, the newest first, then the
    cleanup of stdio, of the descriptors with properties and of the extensions,
    each where its hook is set, resets the mode of descriptor 0 and the signals, calls the
    function of atexit2 with the status if there is one, and ends the program, in
    this order, whatever all that code does. A function that is registered while
    exit runs is not among them. *)
Theorem exit_order l status l' ev :
  exit code stdio_hook l status = Done (l', ev) ->
  exists props fsext hook,
    ev = map EvFunction (__atexit_ptr (sw_glob (l_exit l))) ++
      (if stdio_hook then [EvStdio] else []) ++
      (if props : bool then [EvFdProperties] else []) ++
      (if fsext : bool then [EvFsext] else []) ++ [EvSetmode; EvSignalSetup] ++
      match hook with Some (f, arg) => [EvAtexit2 f arg status] | None => [] end ++
      [EvExit status].
Proof.
  unfold exit. intros H. apply bind_inv in H as ([x st] & _ & [= _ <-]).
  rewrite !run_if_events, run_list_events. do 2 eexists.
  exists (if negb (atexit2_hook st =? 0) then Some (atexit2_hook st, atexit2_arg st) else None).
  cbn [snd]. rewrite <- !app_assoc. destruct (negb (atexit2_hook st =? 0)); cbn [snd];
    rewrite <- ?app_assoc; reflexivity.
Qed.

End ExitThms.

(** Functions registered one after the other, without failure. *)
Fixpoint atexit_all (l : libc) (a : list Z) : libc :=
  match a with
  | [] => l
  | f :: a' => atexit_all (atexit true l f).1 a'
  end.

Lemma atexit_all_ptr a : forall l, Forall (fun f => f <> 0) a ->
  __atexit_ptr (sw_glob (l_exit (atexit_all l a))) =
  rev a ++ __atexit_ptr (sw_glob (l_exit l)).
Proof.
  induction a as [|f a IH]; intros l Ha; [done|]. inversion Ha as [|?? Hf Ha']; subst.
  cbn [atexit_all]. rewrite IH by done. unfold atexit.
  rewrite (proj2 (Z.eqb_neq _ _)) by done. cbn. by rewrite <- app_assoc.
Qed.

(** The functions given to atexit are called by exit exactly once each, in reverse
    order of their registration. *)
Theorem atexit_lifo code hook l a status l' ev :
  Forall (fun f => f <> 0) a -> __atexit_ptr (sw_glob (l_exit l)) = [] ->
  exit code hook (atexit_all l a) status = Done (l', ev) ->
  omap is_function ev = rev a.
Proof.
  unfold exit. intros Ha Hl H. apply bind_inv in H as ([x st] & _ & [= _ <-]).
  rewrite !run_if_events, run_list_events, atexit_all_ptr, Hl, app_nil_r by done.
  set (b1 := __fd_properties_cleanup_hook _). set (b2 := __FSEXT_exit_hook _).
  clearbody b1 b2. destruct (negb (atexit2_hook st =? 0)); cbn [snd]; rewrite !omap_app.
  all: assert (E : forall f : list Z, omap is_function (map EvFunction f) = f)
    by (induction f; cbn; [done|congruence]).
  all: rewrite E; repeat match goal with |- context [if ?b then _ else _] => destruct b end;
    cbn; by rewrite ?app_nil_r.
Qed.

(** ** The libc's functions keep to the current handle *)

(** A function of the libc as a step of client code. *)
Definition as_step {A} (op : libc -> outcome (libc * A)) (l : libc) : libc :=
  match op l with Done (l', _) => l' | Fail _ => l end.

Lemma libc_local_intro n f :
  (forall l, sw_cur (l_fh l) = Some n -> sw_cur (l_fsext l) = Some n ->
     sw_cur (l_exit l) = Some n ->
     (sw_cur (l_fh (f l)) = Some n /\
      forall h, h <> n -> sw_contexts (l_fh (f l)) !! h = sw_contexts (l_fh l) !! h) /\
     (sw_cur (l_fsext (f l)) = Some n /\
      forall h, h <> n -> sw_contexts (l_fsext (f l)) !! h = sw_contexts (l_fsext l) !! h) /\
     (sw_cur (l_exit (f l)) = Some n /\
      forall h, h <> n -> sw_contexts (l_exit (f l)) !! h = sw_contexts (l_exit l) !! h)) ->
  ctx_local libc_insts n f.
Proof.
  intros Hf l Hl i Hi. destruct (Hf l) as (H1 & H2 & H3);
    [apply (Hl fh_inst)|apply (Hl fsx_inst)|apply (Hl exit_inst)|]; [set_solver..|].
  repeat (apply elem_of_cons in Hi as [->|Hi]; [done|]). by apply not_elem_of_nil in Hi.
Qed.

Lemma with_fsext_local {A} n (op : Z -> fsext_state -> outcome (fsext_state * A)) :
  ctx_local libc_insts n (as_step (with_fsext op)).
Proof.
  apply libc_local_intro. intros l H1 H2 H3. unfold as_step, with_fsext. rewrite H2.
  cbn [deref]. rewrite bind_Done. cbn beta.
  destruct (sw_contexts (l_fsext l) !! n) as [t|]; [|done]. cbn [deref]. rewrite bind_Done.
  destruct (op _ _) as [[fs a]|]; [|done]. rewrite bind_Done. cbn.
  split_and!; [done..| |done|done]. intros h Hh. by apply list_lookup_insert_ne.
Qed.

Lemma atexit_local n ok a : ctx_local libc_insts n (fun l => (atexit ok l a).1).
Proof.
  apply libc_local_intro. intros l H1 H2 H3. unfold atexit.
  destruct (a =? 0); [done|]. by destruct ok.
Qed.

Lemma atexit2_local n f a : ctx_local libc_insts n (as_step (fun l => atexit2 l f a)).
Proof.
  apply libc_local_intro. intros l H1 H2 H3. unfold as_step, atexit2, cur_exit. rewrite H3.
  cbn [deref]. rewrite bind_Done. cbn beta.
  destruct (sw_contexts (l_exit l) !! n) as [st|]; [|done]. cbn [deref]. rewrite !bind_Done.
  destruct (_ && _); [done|]. cbn. split_and!; [done..|]. intros h Hh.
  by apply list_lookup_insert_ne.
Qed.

(** A handle whose pointer leads to its own table or to the heap *)
Definition own_modes (n : nat) (p : modes_ptr) : Prop :=
  match p with PInit x => x = n | _ => True end.

Lemma put_table_glob l p t : sw_glob (l_fh (put_table l p t)) = sw_glob (l_fh l).
Proof. by destruct p. Qed.

Lemma table_set_local n l p fd mode l' :
  own_modes n p -> sw_cur (l_fh l) = Some n -> table_set l p fd mode = Done l' ->
  sw_cur (l_fh l') = Some n /\ l_fsext l' = l_fsext l /\ l_exit l' = l_exit l /\
  forall h, h <> n -> sw_contexts (l_fh l') !! h = sw_contexts (l_fh l) !! h.
Proof.
  intros Hp Hc H. unfold table_set in H. apply bind_inv in H as (t & _ & H).
  destruct (_ && _); [|done]. injection H as <-. destruct p; cbn in *; try done.
  split_and!; [done..|]. intros h Hh. apply list_lookup_alter_ne. congruence.
Qed.

(** The functions of dosio.c, fsext.c, atexit.c and exit.c reach only the current
    handle's elements of the arrays, so that a client made of them satisfies the
    premise of the isolation theorem. *)
Theorem libc_keeps_to_handle malloc l n fd mode l' :
  sw_cur (l_fh l) = Some n -> own_modes n (sw_glob (l_fh l)) ->
  __file_handle_set malloc l fd mode = Done l' ->
  sw_cur (l_fh l') = Some n /\ l_fsext l' = l_fsext l /\ l_exit l' = l_exit l /\
  own_modes n (sw_glob (l_fh l')) /\
  forall h, h <> n -> sw_contexts (l_fh l') !! h = sw_contexts (l_fh l) !! h.
Proof.
  intros Hc Hp H. unfold __file_handle_set, cur_fh in H. rewrite Hc in H. cbn [deref] in H.
  rewrite bind_Done in H. destruct (sw_contexts (l_fh l) !! n) as [st|] eqn:Hst; [|done].
  cbn [deref] in H. rewrite !bind_Done in H. set (st1 := if negb _ then _ else _) in H.
  clearbody st1. destruct (fd <? 0).
  { injection H as <-. cbn. split_and!; try done. intros h Hh. by apply list_lookup_insert_ne. }
  apply bind_inv in H as (l2 & H2 & H).
  assert (E2 : sw_cur (l_fh l2) = Some n /\ l_fsext l2 = l_fsext l /\ l_exit l2 = l_exit l /\
    own_modes n (sw_glob (l_fh l2)) /\
    forall h, h <> n -> sw_contexts (l_fh l2) !! h = sw_contexts (l_fh l) !! h).
  { destruct (_ && _); [|injection H2 as <-; cbn; split_and!; try done; intros h Hh;
      by apply list_lookup_insert_ne].
    unfold expand_tables in H2. apply bind_inv in H2 as ([b junk] & _ & H2).
    destruct (_ <? 0); [done|]. injection H2 as <-. cbn. split_and!; try done.
    intros h Hh. by rewrite !list_lookup_insert_ne. }
  clear H2. destruct E2 as (C2 & F2 & X2 & P2 & S2).
  assert (Hg : sw_glob (l_fh l') = sw_glob (l_fh l2)).
  { unfold table_set in H. apply bind_inv in H as (t & _ & H). destruct (_ && _); [|done].
    injection H as <-. apply put_table_glob. }
  apply (table_set_local n) in H as (C3 & F3 & X3 & S3); [|done..].
  split_and!; [done|congruence..|]. intros h Hh. by rewrite S3, S2.
Qed.

(** ** Two programs *)

(** DOS code that enters handle 1. *)
Definition enter_one (m : gmap Z Z) (regs : dpmi_regs) (cs off sp len : Z) : host :=
  HCall 1 0 0 0 0 regs (fun rc regs => HRet 0 regs).

Definition two_api : Dj64Api := {|
  DJ64_RET_OK := 0; DJ64_RET_NORET := 1; DJ64_RET_ABORT := 2;
  ASM_CALL_OK := 0; ASM_CALL_ABORT := 1; DJ64_API_MIN_VER := 10;
  sizeof_regs := 52; djgpp_base_address := 0;
  addr2ptr := fun a => 1000 + a; addr2ptr2 := fun a _ => 1000 + a;
  ptr2addr := fun p => p - 1000; is_dos_ptr := fun p => 1000 <=? p;
  get_handle := fun h => h; asm_call := enter_one; asm_noret := enter_one;
  api_malloc := fun _ => true; api_elfload := fun _ _ _ => 0;
  malloc32 := fun _ _ => 0;
  asm_thunks := mk_athunks [] 0 None; pthunks := mk_athunks [] 0 None;
  ret_noret_ne := ltac:(discriminate); ret_abort_ne := ltac:(discriminate);
  asm_call_ne := ltac:(discriminate) |}.

(** Program 0 registers a function and enters DOS; program 1 registers one. *)
Definition disp0 (fn sp : Z) : client libc :=
  CCtx (fun l => (atexit true l 77).1) (CAsmCall 0 0 0 0 (fun v => CRet v 4)).
Definition disp1 (fn sp : Z) : client libc :=
  CCtx (fun l => (atexit true l 88).1) (CRet 5 4).

Definition two_regs : dpmi_regs := mk_regs 0 0 0 0 0 [].

Definition udisp_with (d : option (disp_t libc)) : udisp libc :=
  mk_udisp [d; None; None; None; None] None (replicate 5 None) (replicate 5 None)
    (mk_athunks [] 0 None) (mk_athunks [] 1 (Some [Some 8])) 0 0 0 two_regs 0 0 None
    (replicate 10 (replicate 50 0)).

Definition libc0 : libc :=
  mk_libc (mk_sw (map (fun x => fhs_init x fhinit) (seq 0 100)) None PStatic)
    (mk_sw (replicate 100 (d_init fsx_def)) None tt)
    (mk_sw (replicate 100 (d_init exit_def)) None (mk_eg [] false false))
    (-1) (-1) init_fh ∅ 2.

Definition two_world : world libc :=
  mk_world (udisp_with (Some disp0) :: udisp_with (Some disp1) :: replicate 8 (udisp_with None))
    true 20 None None None None None 0 0 0 (hooks_of <$> libc_insts) [] ∅ ∅ 0 libc0 ∅ ∅ [] 0.

Lemma two_clients H (us : list (udisp libc)) :
  u_disp <$> us = [Some disp0; None; None; None; None] :: [Some disp1; None; None; None; None] ::
    replicate 8 [None; None; None; None; None] ->
  clients_local libc_insts H (u_disp <$> us).
Proof.
  intros -> n ds j d fn sp _ Hn Hj. destruct n as [|[|n]]; cbn in Hn.
  - injection Hn as <-. destruct j as [|j]; [injection Hj as <-|].
    + cbn. split; [apply atexit_local|done].
    + by destruct j as [|[|[|[|j]]]].
  - injection Hn as <-. destruct j as [|j]; [injection Hj as <-|].
    + cbn. split; [apply atexit_local|done].
    + by destruct j as [|[|[|[|j]]]].
  - apply (lookup_replicate_1 8) in Hn as [-> _]. by destruct j as [|[|[|[|[|j]]]]].
Qed.

Lemma two_settled : all_settled libc_insts two_world.
Proof.
  intros i Hi h Hh. exfalso. revert Hh.
  repeat (apply elem_of_cons in Hi as [->|Hi]; [done|]). by apply not_elem_of_nil in Hi.
Qed.

Lemma two_confined H (w : world libc) : 1%nat ∈ H -> chooks w = hooks_of <$> libc_insts ->
  u_disp <$> udisps w = u_disp <$> udisps two_world ->
  confined (api := two_api) libc_insts H w.
Proof.
  intros H1 Hw1 Hw2. constructor; [done|by apply two_clients|..];
    intros; (split; [by exists 1%nat|done]).
Qed.

Lemma exit_listed : exit_inst ∈ libc_insts.
Proof. right. right. left. Qed.

(** The world in which a computation returned. *)
Definition end_world {A} (m : outcome (world libc * res A)) : world libc :=
  match m with Done (w, _) => w | Fail _ => two_world end.

Lemma end_world_eq {A} (m : outcome (world libc * res A)) a :
  match m with Done (_, Ret b) => Some b | _ => None end = Some a ->
  m = Done (end_world m, Ret a).
Proof. destruct m as [[w [b| |]]|]; intros [= <-]. done. Qed.

Definition hook_world (m : outcome (world libc)) : world libc :=
  match m with Done w => w | Fail _ => two_world end.

Lemma hook_world_eq (m : outcome (world libc)) :
  match m with Done _ => true | Fail _ => false end = true -> m = Done (hook_world m).
Proof. by destruct m. Qed.

Definition after_zero : world libc :=
  end_world (dj64_call (api := two_api) 5 two_world 0 0 0 0 0 two_regs).

Lemma after_zero_eq : dj64_call (api := two_api) 5 two_world 0 0 0 0 0 two_regs =
  Done (after_zero, Ret (0, mk_regs 5 0 0 0 0 [])).
Proof. unfold after_zero. apply end_world_eq. vm_compute. reflexivity. Qed.

Lemma ctx_isolation_witness :
  exists w', dj64_call (api := two_api) 5 two_world 0 0 0 0 0 two_regs =
      Done (w', Ret (0, mk_regs 5 0 0 0 0 [])) /\
    owns w' exit_inst 2 = Some (mk_es (mk_eg [] false false) 0 0) /\
    owns w' exit_inst 0 = Some (mk_es (mk_eg [77] false false) 0 0) /\
    owns w' exit_inst 1 = Some (mk_es (mk_eg [88] false false) 0 0).
Proof.
  exists after_zero. split; [exact after_zero_eq|]. split.
  - rewrite (ctx_isolation (api := two_api) libc_insts (fun _ => eq_refl) {[0%nat; 1%nat]} 5
      two_world after_zero 0 0 0 0 0 two_regs _ exit_inst 2
      (two_confined {[0%nat; 1%nat]} two_world ltac:(by_eval) eq_refl eq_refl) two_settled
      ltac:(by_eval) after_zero_eq exit_listed ltac:(by_eval)).
    vm_compute. reflexivity.
  - split; vm_compute; reflexivity.
Defined.

(** Between two calls of program 0, DOS calls program 1. *)
Definition call_one : host := HCall 1 0 0 0 0 two_regs (fun rc regs => HRet 0 regs).

Lemma call_one_within : host_within {[1%nat]} call_one.
Proof. split; [|done]. exists 1%nat. split; [done|]. by_eval. Qed.

Definition after_one (w : world libc) : world libc :=
  end_world (run_host (api := two_api) (dj64_call (api := two_api) 5) call_one w).

Lemma same_exit_glob (w w' : world libc) :
  sw_glob (si_get exit_inst (w_ctx w)) = sw_glob (si_get exit_inst (w_ctx w')) ->
  sw_glob (l_exit (w_ctx w)) = sw_glob (l_exit (w_ctx w')).
Proof. done. Qed.

Lemma ctx_resumes_witness :
  exists w1 w2 w3, dj64_call (api := two_api) 5 two_world 0 0 0 0 0 two_regs =
      Done (w1, Ret (0, mk_regs 5 0 0 0 0 [])) /\
    run_host (api := two_api) (dj64_call (api := two_api) 5) call_one w1 =
      Done (w2, Ret (0, mk_regs 5 0 0 0 0 [])) /\
    hooks_restore w2 0 = Done w3 /\
    sw_glob (l_exit (w_ctx w2)) = mk_eg [88; 88] false false /\
    sw_glob (l_exit (w_ctx w3)) = mk_eg [77] false false.
Proof.
  assert (E2 : run_host (api := two_api) (dj64_call (api := two_api) 5) call_one after_zero =
    Done (after_one after_zero, Ret (0, mk_regs 5 0 0 0 0 [])))
    by (unfold after_one; apply end_world_eq; vm_compute; reflexivity).
  assert (E3 : hooks_restore (after_one after_zero) 0 =
    Done (hook_world (hooks_restore (after_one after_zero) 0)))
    by (apply hook_world_eq; vm_compute; reflexivity).
  pose proof (ctx_resumes (api := two_api) libc_insts (fun _ => eq_refl) {[0%nat; 1%nat]}
    {[1%nat]} 5 5 two_world after_zero _ _ 0 0 0 0 0 two_regs _ call_one _ exit_inst
    (two_confined {[0%nat; 1%nat]} two_world ltac:(by_eval) eq_refl eq_refl) two_settled
    ltac:(by_eval) after_zero_eq
    (two_confined {[1%nat]} after_zero ltac:(by_eval) ltac:(vm_compute; reflexivity)
      ltac:(vm_compute; reflexivity)) ltac:(by_eval) call_one_within E2 E3 exit_listed
    ltac:(eexists; vm_compute; reflexivity)) as (_ & T & _).
  do 3 eexists. split; [exact after_zero_eq|]. split; [exact E2|]. split; [exact E3|].
  split; [vm_compute; reflexivity|]. rewrite (same_exit_glob _ _ T).
  vm_compute. reflexivity.
Defined.

(** dj64_asm_noret_u leaves by a jump without a save when the library has no
    thunks, and neither the code after setjmp nor dj64_call saves on the way out.
    What the program changed in the copied variables is lost as soon as another
    handle runs: here the function that program 0 registered. *)
Definition disp_abort (fn sp : Z) : client libc :=
  CCtx (fun l => (atexit true l 77).1) (CAsmNoretU 0 1 0 0 0 0).

Definition abort_world : world libc :=
  put_udisp two_world 0 (udisp_with (Some disp_abort)).

Theorem abort_loses_variables :
  exists w1 w2 w3, dj64_call (api := two_api) 5 abort_world 0 0 0 0 0 two_regs =
      Done (w1, Ret (2, two_regs)) /\
    sw_glob (l_exit (w_ctx w1)) = mk_eg [77] false false /\
    run_host (api := two_api) (dj64_call (api := two_api) 5) call_one w1 =
      Done (w2, Ret (0, mk_regs 5 0 0 0 0 [])) /\
    hooks_restore w2 0 = Done w3 /\
    sw_glob (l_exit (w_ctx w3)) = mk_eg [] false false.
Proof.
  do 3 eexists. split; [apply end_world_eq; vm_compute; reflexivity|].
  split; [vm_compute; reflexivity|].
  split; [apply end_world_eq; vm_compute; reflexivity|].
  split; [apply hook_world_eq; vm_compute; reflexivity|]. vm_compute. reflexivity.
Qed.

(** ** The functions on concrete states *)

Definition demo_malloc (bl : gmap nat (list Z)) : option (nat * list Z) :=
  Some (fresh (dom bl), replicate 255 (-1)).

Lemma demo_malloc_ok bl : exists b junk,
  demo_malloc bl = Some (b, junk) /\ bl !! b = None /\ length junk = 255%nat.
Proof.
  eexists _, _. split; [reflexivity|]. split; [|by rewrite length_replicate].
  apply not_elem_of_dom, is_fresh.
Qed.

(** Handle 3 runs, with its small table. *)
Definition libc3 : libc :=
  mk_libc (mk_sw (sw_contexts (l_fh libc0)) (Some 3%nat) (PInit 3))
    (mk_sw (sw_contexts (l_fsext libc0)) (Some 3%nat) tt)
    (mk_sw (sw_contexts (l_exit libc0)) (Some 3%nat) (mk_eg [] false false)) (-1) (-1) init_fh ∅ 2.

Definition fh3 : fh_state := mk_fh init_fh (-1) 20 (PInit 3).

Lemma libc3_inv : fh_inv libc3 3 fh3 init_fh.
Proof. constructor; [done..|]. by left. Qed.

Lemma file_handle_set_correct_witness :
  exists l', __file_handle_set demo_malloc libc3 30 O_BINARY = Done l' /\
    fh_recorded libc3 3 init_fh 30 O_BINARY l'.
Proof.
  apply (file_handle_set_correct demo_malloc demo_malloc_ok libc3 3 fh3);
    [exact libc3_inv|lia|unfold O_BINARY; lia].
Defined.

(** The same handle with a large table, in which descriptor 40 is binary. *)
Definition large_table : list Z := <[40%nat := O_BINARY]> (init_fh ++ replicate 235 0).
Definition fh3_large : fh_state := mk_fh init_fh 2 255 (PInit 3).
Definition libc3_large : libc :=
  set_tables init_fh {[ 7%nat := large_table ]} (put_fh libc3 3 fh3_large (PHeap 7)).

Lemma libc3_large_inv : fh_inv libc3_large 3 fh3_large large_table.
Proof. constructor; [done..|]. right. by exists 7%nat. Qed.

Lemma file_handle_modes_lost_witness :
  large_table !! 40%nat = Some O_BINARY /\
  exists l' t', __file_handle_set demo_malloc (bss_start libc3_large) 50 O_TEXT = Done l' /\
    table_at l' (sw_glob (l_fh l')) = Some t' /\ t' !! 40%nat = Some 0.
Proof.
  split; [reflexivity|].
  destruct (file_handle_modes_lost demo_malloc demo_malloc_ok libc3_large 3 fh3_large large_table
    7 50 O_TEXT libc3_large_inv eq_refl eq_refl ltac:(lia) ltac:(unfold O_TEXT; lia))
    as (l' & t' & E & Ht & Hz & _).
  exists l', t'. split; [exact E|]. split; [exact Ht|]. apply Hz; lia.
Defined.

Lemma file_handle_set_overruns_witness :
  __file_handle_set demo_malloc libc3 255 O_TEXT = Fail UB.
Proof.
  apply (file_handle_set_overruns demo_malloc demo_malloc_ok libc3 3 fh3 init_fh);
    [exact libc3_inv|lia].
Defined.

(** Handle 3 with an extension on descriptor 5 *)
Definition libc3_ext : libc :=
  match with_fsext (fun bss fs => __FSEXT_set_function bss true fs 5 1234) libc3 with
  | Done (l, _) => l
  | Fail _ => libc3
  end.

Lemma fsext_lost_witness :
  (exists l1, with_fsext (fun bss fs => __FSEXT_get_function bss fs 5) libc3_ext =
     Done (l1, 1234)) /\
  exists l2, with_fsext (fun bss fs => __FSEXT_get_function bss fs 5) (bss_start libc3_ext) =
    Done (l2, 0).
Proof.
  split; [eexists; vm_compute; reflexivity|].
  destruct (fsext_lost libc3_ext 3 256 (<[5%nat := mk_entry 1234 0]> (replicate 256 no_entry)) 5) as (l' & E & _);
    [vm_compute; reflexivity..|lia|]. exists l'. exact E.
Defined.

(** Handle 4 has set up the extensions; handle 3 is the next to use them. *)
Definition libc3_late : libc := set_statics 2 9 libc3.

Lemma fsext_hook_missing_witness :
  exists l', with_fsext (fun bss fs => __FSEXT_set_function bss true fs 5 1234) libc3_late =
      Done (l', 0) /\ __FSEXT_exit_hook (sw_glob (l_exit l')) = false.
Proof.
  destruct (with_fsext (fun bss fs => __FSEXT_set_function bss true fs 5 1234) libc3_late)
    as [[l' r]|] eqn:E; [|vm_compute in E; discriminate E].
  exists l'. pose proof (fsext_hook_missing libc3_late 3 5 1234 l' r eq_refl eq_refl eq_refl
    eq_refl E) as T.
  split; [vm_compute in E; injection E as <- <-; reflexivity|exact T].
Defined.

(** Functions 10 and 20 are registered; function 20 registers 30 when it runs. *)
Definition exit_code (e : exit_event) (l : libc) : libc :=
  match e with EvFunction 20 => (atexit true l 30).1 | _ => l end.

Definition exit_events (m : outcome (libc * list exit_event)) : option (list exit_event) :=
  match m with Done (_, ev) => Some ev | Fail _ => None end.

Lemma exit_order_witness :
  exists l' ev, exit exit_code true (atexit_all libc3 [10; 20]) 1 = Done (l', ev) /\
    ev = [EvFunction 20; EvFunction 10; EvStdio; EvSetmode; EvSignalSetup; EvExit 1].
Proof.
  destruct (exit exit_code true (atexit_all libc3 [10; 20]) 1) as [[l' ev]|] eqn:E;
    [|vm_compute in E; discriminate E].
  exists l', ev. split; [reflexivity|].
  destruct (exit_order _ _ _ _ _ _ E) as (props & fsext & hook & ->).
  apply (f_equal exit_events) in E. vm_compute in E.
  destruct props, fsext, hook as [[f arg]|]; vm_compute in E; try discriminate E. reflexivity.
Defined.

Lemma atexit_lifo_witness :
  exists l' ev, exit exit_code true (atexit_all libc3 [10; 20]) 1 = Done (l', ev) /\
    omap is_function ev = [20; 10].
Proof.
  destruct (exit exit_code true (atexit_all libc3 [10; 20]) 1) as [[l' ev]|] eqn:E;
    [|vm_compute in E; discriminate E].
  exists l', ev. split; [reflexivity|].
  apply (atexit_lifo exit_code true libc3 [10; 20] 1 l' ev); [repeat constructor; lia|done|exact E].
Defined.

Lemma libc_keeps_to_handle_witness :
  exists l', __file_handle_set demo_malloc libc3 30 O_BINARY = Done l' /\
    sw_contexts (l_fh l') !! 2%nat = sw_contexts (l_fh libc3) !! 2%nat.
Proof.
  destruct (__file_handle_set demo_malloc libc3 30 O_BINARY) as [l'|] eqn:E;
    [|vm_compute in E; discriminate E].
  exists l'. split; [reflexivity|].
  by apply (libc_keeps_to_handle demo_malloc libc3 3 30 O_BINARY l' eq_refl eq_refl E).
Defined.
