(* ===== verification/QSort.v ===== *)
(** * qsort (src/src/libc/ansi/stdlib/qsort.c)

    Quicksort with a fat pivot. The sorting functions see the array through the
    comparison and through [Swap] only; they are defined over any state that has
    these two, and verified against an interface ([SortArray]) that says what the
    two do. The byte memory with the comparison function of the caller and the
    [Swap] of the file is one implementation of it. Positions count from 1, as in
    the code. *)

From stdpp Require Import base gmap list numbers.
From Stdlib Require Import ZArith Lia.
From S2P Require Import Prelude MemFuns.

Open Scope Z_scope.
Open Scope c_scope.

Definition QMIN : Z := 9.
Definition MAX_SWAP : Z := 256.

(** Arithmetic of ULONG *)
Definition u64 (x : Z) : Z := wrap_u 64 x.

Section Sort.
(** [CMPR(a, b)] and [SWAP(a, b)] *)
Context {S : Type} (CMPR : S -> Z -> Z -> outcome Z) (SWAP : S -> Z -> Z -> outcome S).
Context (DataWidth MyBase : Z).

Definition BASE (i : Z) : Z := MyBase + u64 (u64 (i - 1) * DataWidth).

Definition GET_PIVOT_ADDR (s : S) (First Mid Last : Z) : outcome Z :=
  c ← CMPR s Mid First;
  if 0 <? c then
    c ← CMPR s First Last;
    if 0 <=? c then Done First
    else c ← CMPR s Last Mid; Done (if 0 <=? c then Mid else Last)
  else
    c ← CMPR s Last First;
    if 0 <? c then Done First
    else c ← CMPR s Mid Last; Done (if 0 <? c then Mid else Last).

(** The inner loop of InsertionSort, with the fuel of the outer one. *)
Definition insert_loop (fuel : nat) (s : S) (StartIdx PrevAdr : Z) : outcome S :=
  loop fuel (fun '(s, NextIdx, PrevAdr) =>
    if 1 <? NextIdx then
      let NextAdr := PrevAdr in
      let PrevAdr := PrevAdr - DataWidth in
      c ← CMPR s PrevAdr NextAdr;
      if c <=? 0 then Done (inr s)
      else s ← SWAP s PrevAdr NextAdr; Done (inl (s, u64 (NextIdx - 1), PrevAdr))
    else Done (inr s)) (s, StartIdx, PrevAdr).

Definition InsertionSort (s : S) (First Last : Z) : outcome S :=
  let fuel := Z.to_nat (Last + 2) in
  loop fuel (fun '(s, StartIdx, StartAdr) =>
    if StartIdx <=? Last then
      s ← insert_loop fuel s StartIdx StartAdr;
      Done (inl (s, u64 (StartIdx + 1), StartAdr + DataWidth))
    else Done (inr s)) (s, u64 (First + 1), BASE (u64 (First + 1))).

(** [for (; Left <= Right; ++Left, INC(LeftAddr))]; the result has CmprLeft. *)
Definition scan_left (fuel : nat) (s : S) (PivotAddr Left LeftAddr Right CmprLeft : Z)
  : outcome (Z * Z * Z) :=
  loop fuel (fun '(Left, LeftAddr, CmprLeft) =>
    if Left <=? Right then
      CmprLeft ← CMPR s LeftAddr PivotAddr;
      if 0 <=? CmprLeft then Done (inr (Left, LeftAddr, CmprLeft))
      else Done (inl (u64 (Left + 1), LeftAddr + DataWidth, CmprLeft))
    else Done (inr (Left, LeftAddr, CmprLeft))) (Left, LeftAddr, CmprLeft).

(** The variables HiFatPvt, HiFatPvtAddr and FatPvtCtr *)
Record fat := mk_fat { HiFatPvt : bool; HiFatPvtAddr : Z; FatPvtCtr : Z }.

(** An item greater than the pivot is at [RightAddr]. *)
Definition put_greater (s : S) (f : fat) (RightAddr : Z) : outcome (S * fat) :=
  if HiFatPvt f then
    s ← SWAP s (HiFatPvtAddr f) RightAddr;
    Done (s, mk_fat true (HiFatPvtAddr f - DataWidth) (FatPvtCtr f))
  else Done (s, f).

(** An item equal to the pivot is at [RightAddr]. *)
Definition put_equal (f : fat) (RightAddr : Z) : fat :=
  mk_fat true (if HiFatPvt f then HiFatPvtAddr f else RightAddr) (FatPvtCtr f + 1).

(** [for (; Right >= Left; --Right, DEC(RightAddr))] *)
Definition scan_right (fuel : nat) (s : S) (PivotAddr Left Right RightAddr : Z) (f : fat)
  : outcome (S * Z * Z * fat) :=
  loop fuel (fun '(s, Right, RightAddr, f) =>
    if Left <=? Right then
      CmprRight ← CMPR s RightAddr PivotAddr;
      if CmprRight <? 0 then Done (inr (s, Right, RightAddr, f))
      else
        '(s, f) ← (if 0 <? CmprRight then put_greater s f RightAddr
                   else Done (s, put_equal f RightAddr));
        Done (inl (s, u64 (Right - 1), RightAddr - DataWidth, f))
    else Done (inr (s, Right, RightAddr, f))) (s, Right, RightAddr, f).

(** The body of [while (Left <= Right)], over the state, Left, LeftAddr, Right,
    RightAddr, CmprLeft and the fat pivot. *)
Definition partition_loop (fuel : nat) (s : S) (PivotAddr Left LeftAddr Right RightAddr : Z)
    (CmprLeft : Z) (f : fat) : outcome (S * Z * Z * fat) :=
  loop fuel (fun '(s, Left, LeftAddr, Right, RightAddr, CmprLeft, f) =>
    if Left <=? Right then
      '(Left, LeftAddr, CmprLeft) ← scan_left fuel s PivotAddr Left LeftAddr Right CmprLeft;
      '(s, Right, RightAddr, f) ← scan_right fuel s PivotAddr Left Right RightAddr f;
      if Left <? Right then
        s ← SWAP s LeftAddr RightAddr;
        '(s, f) ← (if 0 <? CmprLeft then put_greater s f RightAddr
                   else Done (s, put_equal f RightAddr));
        Done (inl (s, u64 (Left + 1), LeftAddr + DataWidth, u64 (Right - 1),
                   RightAddr - DataWidth, CmprLeft, f))
      else Done (inr (s, Right, RightAddr, f))
    else Done (inr (s, Right, RightAddr, f)))
    (s, Left, LeftAddr, Right, RightAddr, CmprLeft, f).

(** The result is the state, LeftPivot and RightPivot. *)
Definition Partition3 (s : S) (First Last : Z) : outcome (S * Z * Z) :=
  let fuel := Z.to_nat (Last - First + 2) in
  let Mid := Z.shiftr (u64 (First + Last + 1)) 1 in
  let LeftAddr := BASE (Z.shiftr (u64 (First + Mid)) 1) in
  let RightAddr := BASE (Z.shiftr (u64 (Mid + Last)) 1) in
  let MidAddr := BASE Mid in
  let FirstAddr := BASE First in
  PivotAddr ← GET_PIVOT_ADDR s LeftAddr MidAddr RightAddr;
  s ← (if negb (FirstAddr =? PivotAddr) then SWAP s FirstAddr PivotAddr else Done s);
  let PivotAddr := FirstAddr in
  let Left := u64 (First + 1) in
  '(s, Right, RightAddr, f) ←
    partition_loop fuel s PivotAddr Left (BASE Left) Last (BASE Last) 0 (mk_fat false 0 1);
  let LeftPivot := Right in
  let RightPivot := u64 (Right + (FatPvtCtr f - 1)) in
  s ← (if negb (PivotAddr =? RightAddr) then SWAP s PivotAddr RightAddr else Done s);
  Done (s, LeftPivot, RightPivot).

(** The loop stands for the tail recursion, the fuel bounds both. *)
Fixpoint QuickSort (fuel : nat) (s : S) (First Last : Z) : outcome S :=
  match fuel with
  | O => Fail NoFuel
  | Datatypes.S fuel' =>
      loop fuel (fun '(s, First, Last) =>
        if First <? Last then
          if u64 (Last - First) <? QMIN then
            s ← InsertionSort s First Last; Done (inr s)
          else
            '(s, LeftPivot, RightPivot) ← Partition3 s First Last;
            if u64 (LeftPivot - First) <? u64 (Last - RightPivot) then
              s ← QuickSort fuel' s First (u64 (LeftPivot - 1));
              Done (inl (s, u64 (RightPivot + 1), Last))
            else
              s ← QuickSort fuel' s (u64 (RightPivot + 1)) Last;
              Done (inl (s, First, u64 (LeftPivot - 1)))
        else Done (inr s)) (s, First, Last)
  end.

End Sort.

(** ** On memory *)

Definition sizeof_long : nat := 8.

(** [T t = *(T * )Elem1; *(T * )Elem1 = *(T * )Elem2; *(T * )Elem2 = t;] for a type
    [T] of [n] bytes *)
Definition swap_scalar (n : nat) (m : mem) (Elem1 Elem2 : Z) : outcome mem :=
  t ← load_bytes m Elem1 n;
  v ← load_bytes m Elem2 n;
  m ← store_bytes m Elem1 v;
  store_bytes m Elem2 t.

(** The default case, in pieces of at most 256 bytes through TempBuf. *)
Definition swap_chunks (DataWidth : Z) (m : mem) (Elem1 Elem2 : Z) : outcome mem :=
  loop (S (Z.to_nat DataWidth)) (fun '(m, Elem1, Elem2, XferSize) =>
    if 0 <? XferSize then
      let CopySize := if XferSize <? MAX_SWAP then XferSize else MAX_SWAP in
      TempBuf ← load_bytes m Elem1 (Z.to_nat CopySize);
      '(m, _) ← memcpy m Elem1 Elem2 CopySize;
      m ← store_bytes m Elem2 TempBuf;
      Done (inl (m, Elem1 + CopySize, Elem2 + CopySize, XferSize - CopySize))
    else Done (inr m)) (m, Elem1, Elem2, DataWidth).

Definition Swap (DataWidth : Z) (m : mem) (Elem1 Elem2 : Z) : outcome mem :=
  match wrap_s 32 DataWidth with
  | 1 => swap_scalar 1 m Elem1 Elem2
  | 2 => swap_scalar 2 m Elem1 Elem2
  | 4 => swap_scalar sizeof_long m Elem1 Elem2
  | _ => swap_chunks DataWidth m Elem1 Elem2
  end.

Definition qsort (m : mem) (Base Num Width : Z) (Compare : mem -> Z -> Z -> outcome Z)
  : outcome mem :=
  QuickSort Compare (Swap Width) Width Base (S (Z.to_nat (Num + 1))) m 1 Num.
