(* ===== verification/QSortProps.v ===== *)
(** * qsort sorts

    The functions of [QSort] proved against the interface [SortArray]: whatever
    implements the comparison and the exchange of two elements, QuickSort ends with
    the elements in order and the same elements as before. *)

From stdpp Require Import base gmap list numbers.
From Stdlib Require Import ZArith Lia Permutation.
From S2P Require Import Prelude MemFuns QSort.

Open Scope Z_scope.
Open Scope c_scope.

(** A comparison function as qsort expects it: a total preorder. *)
Class TotalCmp {E} (cmp : E -> E -> Z) : Prop := {
  cmp_flip : forall a b, 0 < cmp a b <-> cmp b a < 0;
  cmp_trans : forall a b c, cmp a b <= 0 -> cmp b c <= 0 -> cmp a c <= 0 }.

(** What the sorting functions rely on: an array of [n] elements [el s 1] to
    [el s n] in states that satisfy [R]. *)
Class SortArray {S E} (CMPR : S -> Z -> Z -> outcome Z) (SWAP : S -> Z -> Z -> outcome S)
    (DataWidth MyBase n : Z) (R : S -> Prop) (el : S -> Z -> E) (cmp : E -> E -> Z) : Prop := {
  sa_width : 0 < DataWidth;
  sa_size : 0 <= n /\ n * DataWidth < 2 ^ 62;
  sa_cmp : forall s i j, R s -> 1 <= i <= n -> 1 <= j <= n ->
    CMPR s (MyBase + (i - 1) * DataWidth) (MyBase + (j - 1) * DataWidth) =
    Done (cmp (el s i) (el s j));
  sa_swap : forall s i j, R s -> 1 <= i <= n -> 1 <= j <= n -> i <> j -> exists s',
    SWAP s (MyBase + (i - 1) * DataWidth) (MyBase + (j - 1) * DataWidth) = Done s' /\ R s' /\
    el s' i = el s j /\ el s' j = el s i /\
    forall k, 1 <= k <= n -> k <> i -> k <> j -> el s' k = el s k }.

Lemma u64_small x : 0 <= x < 2 ^ 64 -> u64 x = x.
Proof. apply wrap_u_small. Qed.

Section Sort.
Context {S E : Type} {CMPR : S -> Z -> Z -> outcome Z} {SWAP : S -> Z -> Z -> outcome S}.
Context {w base n : Z} {R : S -> Prop} {el : S -> Z -> E} {cmp : E -> E -> Z}.
Context {SA : SortArray CMPR SWAP w base n R el cmp} {TC : TotalCmp cmp}.

Abbreviation pos i := (base + (i - 1) * w).
Abbreviation le a b := (cmp a b <= 0).

(** ** Order *)

Lemma cmp_refl a : cmp a a = 0.
Proof. pose proof (cmp_flip a a). lia. Qed.

Lemma le_total a b : 0 < cmp a b -> le b a.
Proof. rewrite cmp_flip. lia. Qed.

Lemma lt_ge a p : cmp a p < 0 -> 0 < cmp p a.
Proof. by rewrite cmp_flip. Qed.

Lemma eq_sym_cmp a b : cmp a b = 0 -> cmp b a = 0.
Proof. pose proof (cmp_flip a b). pose proof (cmp_flip b a). lia. Qed.

(** ** Bounds *)

Lemma n_bound : 0 <= n < 2 ^ 62.
Proof. pose proof sa_width. pose proof sa_size. nia. Qed.

Lemma BASE_pos i : 1 <= i <= n -> BASE w base i = pos i.
Proof.
  pose proof sa_width as Hw. pose proof sa_size as Hs. pose proof n_bound. intros Hi.
  unfold BASE. rewrite (u64_small (i - 1)) by lia. rewrite u64_small; [done|].
  split; [nia|]. assert ((i - 1) * w <= n * w) by nia. lia.
Qed.

Lemma pos_inj i j : pos i = pos j -> i = j.
Proof. pose proof sa_width. nia. Qed.

(** ** What a piece of the sort does to the array *)

Definition elems (s : S) : list E := map (fun k => el s (Z.of_nat k)) (seq 1 (Z.to_nat n)).

(** Only positions from [a] to [b] change, and what is there afterwards was there
    before. *)
Record within (a b : Z) (s s' : S) : Prop := {
  wi_valid : R s';
  wi_out : forall k, 1 <= k <= n -> ~ (a <= k <= b) -> el s' k = el s k;
  wi_in : forall k, a <= k <= b -> exists k', a <= k' <= b /\ el s' k = el s k';
  wi_perm : Permutation (elems s) (elems s') }.

Lemma within_refl a b s : R s -> within a b s s.
Proof. intros. constructor; [done|done| |done]. by eauto. Qed.

Lemma within_trans a b s1 s2 s3 : within a b s1 s2 -> within a b s2 s3 -> within a b s1 s3.
Proof.
  intros [V1 O1 I1 P1] [V2 O2 I2 P2]. constructor; [done| | |by etrans].
  - intros k Hk Ho. by rewrite O2, O1.
  - intros k Hk. destruct (I2 k Hk) as (k2 & Hk2 & ->). destruct (I1 k2 Hk2) as (k1 & ? & ->). eauto.
Qed.

Lemma within_mono a b a' b' s s' : 1 <= a' -> b' <= n -> a' <= a -> b <= b' ->
  within a b s s' -> within a' b' s s'.
Proof.
  intros ? ? ? ? [V O I P]. constructor; [done| | |done].
  - intros k Hk Ho. apply O; lia.
  - intros k Hk. destruct (decide (a <= k <= b)) as [Hi|Hi].
    + destruct (I k Hi) as (k' & ? & ?). exists k'. split; [lia|done].
    + exists k. split; [done|]. apply O; lia.
Qed.

(** An exchange of two elements of a list is a permutation. *)
Lemma swap_list_perm (f g : Z -> E) (l : list Z) i j :
  NoDup l -> i ∈ l -> j ∈ l -> i <> j -> g i = f j -> g j = f i ->
  (forall k, k ∈ l -> k <> i -> k <> j -> g k = f k) ->
  Permutation (map f l) (map g l).
Proof.
  intros Hnd Hi Hj Hij Gi Gj Gk.
  apply elem_of_Permutation in Hi as [l1 Hl1].
  assert (Hj1 : j ∈ l1) by (rewrite Hl1 in Hj; set_solver).
  apply elem_of_Permutation in Hj1 as [l2 Hl2].
  assert (Hl : l ≡ₚ i :: j :: l2) by (by rewrite Hl1, Hl2).
  assert (Hn2 : (i ∉ l2) /\ (j ∉ l2)).
  { rewrite Hl in Hnd. inversion Hnd as [|? ? H1 H2]; subst. inversion H2; subst. set_solver. }
  rewrite (Permutation_map f Hl), (Permutation_map g Hl). cbn. rewrite Gi, Gj.
  rewrite (map_ext_in g f l2); [apply perm_swap|].
  intros k Hk. apply Gk; [rewrite Hl; apply list_elem_of_In in Hk; set_solver| |];
    intros ->; apply list_elem_of_In in Hk; set_solver.
Qed.

Lemma elems_seq s : elems s = map (el s) (map Z.of_nat (seq 1 (Z.to_nat n))).
Proof. unfold elems. by rewrite map_map. Qed.

Lemma swap_within a b s i j : R s -> 1 <= a -> b <= n -> a <= i <= b -> a <= j <= b -> i <> j ->
  exists s', SWAP s (pos i) (pos j) = Done s' /\ within a b s s' /\
    el s' i = el s j /\ el s' j = el s i /\
    forall k, 1 <= k <= n -> k <> i -> k <> j -> el s' k = el s k.
Proof.
  intros Hs Ha Hb Hi Hj Hij. destruct (sa_swap s i j) as (s' & E' & R' & Ei & Ej & Ek);
    [done|lia|lia|done|].
  exists s'. split; [done|]. split; [|done]. constructor; [done| | |].
  - intros k Hk Ho. apply Ek; [done|lia|lia].
  - intros k Hk. destruct (decide (k = i)) as [->|]; [by exists j|].
    destruct (decide (k = j)) as [->|]; [by exists i|]. exists k. split; [done|]. apply Ek; lia.
  - rewrite !elems_seq.
    assert (Hin : forall k, k ∈ map Z.of_nat (seq 1 (Z.to_nat n)) <-> 1 <= k <= n).
    { intros k. rewrite list_elem_of_In, in_map_iff. split.
      - intros (x & <- & Hx%in_seq). lia.
      - intros Hk. exists (Z.to_nat k). split; [lia|]. apply in_seq. lia. }
    apply (swap_list_perm _ _ _ i j); [|by apply Hin; lia|by apply Hin; lia|done|done|done|].
    + apply (NoDup_fmap_2 Z.of_nat), NoDup_seq.
    + intros k Hk%Hin ? ?. by apply Ek.
Qed.

(** ** InsertionSort *)

Definition sorted (a b : Z) (s : S) : Prop :=
  forall i j, a <= i -> i <= j -> j <= b -> le (el s i) (el s j).

(** Everything before [a] is at most everything from [a] to [b]. *)
Definition low (a b : Z) (s : S) : Prop :=
  forall i j, 1 <= i < a -> a <= j <= b -> le (el s i) (el s j).

Lemma low_within a b s s' : 1 <= a -> b <= n -> low a b s -> within a b s s' -> low a b s'.
Proof.
  intros Ha Hb Hl [V O I P] i j Hi Hj. destruct (I j Hj) as (j' & Hj' & ->).
  rewrite O by lia. by apply Hl.
Qed.

Lemma cmp_at s i j : R s -> 1 <= i <= n -> 1 <= j <= n ->
  CMPR s (pos i) (pos j) = Done (cmp (el s i) (el s j)).
Proof. apply sa_cmp. Qed.

(** The array is in order from [a] to [k] but for position [j], which fits with
    what is after it. *)
Definition nearly (a k j : Z) (s : S) : Prop :=
  (forall x y, a <= x -> x <= y -> y <= k -> x <> j -> y <> j -> le (el s x) (el s y)) /\
  (forall y, j < y -> y <= k -> le (el s j) (el s y)).

Lemma nearly_swap a k j s s' : 1 <= a -> a < j -> j <= k -> k <= n -> nearly a k j s ->
  0 < cmp (el s (j - 1)) (el s j) -> el s' (j - 1) = el s j -> el s' j = el s (j - 1) ->
  (forall x, 1 <= x <= n -> x <> j - 1 -> x <> j -> el s' x = el s x) ->
  nearly a k (j - 1) s'.
Proof.
  intros Ha Haj Hjk Hk [H1 H2] Hc E1 E2 E3. split.
  - intros x y Hx Hxy Hy Hxj Hyj. destruct (decide (x = j)) as [->|Hxj'].
    + destruct (decide (y = j)) as [->|]; [by rewrite cmp_refl|].
      rewrite E2, (E3 y) by lia. apply H1; lia.
    + destruct (decide (y = j)) as [->|].
      * rewrite E2, E3 by lia. apply H1; lia.
      * rewrite !E3 by lia. apply H1; lia.
  - intros y Hy Hyk. rewrite E1. destruct (decide (y = j)) as [->|].
    + rewrite E2. by apply le_total.
    + rewrite E3 by lia. apply H2; lia.
Qed.

Lemma nearly_done a k j s : 1 <= a -> a <= j -> nearly a k j s ->
  (a < j -> le (el s (j - 1)) (el s j)) -> sorted a k s.
Proof.
  intros Ha Hj [H1 H2] Hp x y Hx Hxy Hy. destruct (decide (x = j)) as [->|Hxj].
  - destruct (decide (y = j)) as [->|]; [by rewrite cmp_refl|]. apply H2; lia.
  - destruct (decide (y = j)) as [->|]; [|by apply H1].
    apply (cmp_trans _ (el s (j - 1))); [|apply Hp; lia].
    destruct (decide (x = j - 1)) as [->|]; [by rewrite cmp_refl|]. apply H1; lia.
Qed.

Lemma insert_loop_spec fuel a b k s :
  R s -> 1 <= a -> a < k -> k <= b -> b <= n -> low a b s -> sorted a (k - 1) s ->
  (Z.to_nat k < fuel)%nat ->
  exists s', insert_loop CMPR SWAP w fuel s k (pos k) = Done s' /\ within a b s s' /\
    sorted a k s'.
Proof.
  intros HR Ha Hak Hkb Hb Hlow Hs Hf. pose proof n_bound.
  apply (loop_total (fun '(s1, j, adr) => within a b s s1 /\ a <= j <= k /\ adr = pos j /\
      nearly a k j s1) (fun s1 => within a b s s1 /\ sorted a k s1)
    (fun '(_, j, _) => Z.to_nat j)); [|split_and!|lia].
  - intros [[s1 j] adr] (Hw & Hj & -> & Hn). pose proof (wi_valid _ _ _ _ Hw) as R1.
    destruct (Z.ltb_spec 1 j).
    + cbv zeta. replace (pos j - w) with (pos (j - 1)) by lia. rewrite cmp_at by (done || lia).
      rewrite bind_Done. destruct (Z.leb_spec (cmp (el s1 (j - 1)) (el s1 j)) 0).
      * split; [done|]. apply (nearly_done a k j); done || lia.
      * assert (a < j).
        { apply Z.nle_gt. intros Hja. assert (j = a) as -> by lia.
          pose proof (low_within a b s s1 Ha Hb Hlow Hw (a - 1) a). lia. }
        destruct (swap_within a b s1 (j - 1) j) as (s2 & -> & W2 & E1 & E2 & E3); [done|lia..|].
        rewrite bind_Done, u64_small by lia. split_and!; [by eapply within_trans|lia|lia|done| |lia].
        apply (nearly_swap a k j s1); done || lia.
    + split; [done|]. apply (nearly_done a k j); [lia..|done|lia].
  - by apply within_refl.
  - lia.
  - lia.
  - done.
  - split; [|lia]. intros x y Hx Hxy Hy Hxk Hyk. apply Hs; lia.
Qed.

Lemma InsertionSort_spec a b s :
  R s -> 1 <= a -> a < b -> b <= n -> low a b s ->
  exists s', InsertionSort CMPR SWAP w base s a b = Done s' /\ within a b s s' /\ sorted a b s'.
Proof.
  intros HR Ha Hab Hb Hlow. pose proof n_bound. unfold InsertionSort.
  rewrite u64_small, BASE_pos by lia.
  apply (loop_total (fun '(s1, k, adr) => within a b s s1 /\ a < k <= b + 1 /\ adr = pos k /\
      sorted a (k - 1) s1) (fun s1 => within a b s s1 /\ sorted a b s1)
    (fun '(_, k, _) => Z.to_nat (b + 1 - k))); [|split_and!|lia].
  - intros [[s1 k] adr] (Hw & Hk & -> & Hs). destruct (Z.leb_spec k b).
    + destruct (insert_loop_spec (Z.to_nat (b + 2)) a b k s1) as (s2 & -> & W2 & S2);
        [by apply Hw|lia..|by eapply low_within|done|lia|].
      rewrite bind_Done, u64_small by lia.
      split_and!; [by eapply within_trans|lia|lia|lia| |lia].
      by replace (k + 1 - 1) with k by lia.
    + split; [done|]. by replace b with (k - 1) by lia.
  - by apply within_refl.
  - lia.
  - lia.
  - done.
  - intros i j Hi Hij Hj. assert (i = j) as -> by lia. by rewrite cmp_refl.
Qed.

(** ** Partition3 *)

(** The part right of [r]: the pivot is at [a]; after [r] come the items equal to it,
    [FatPvtCtr f - 1] of them, the last at HiFatPvtAddr; then the greater ones. *)
Record right_of (a b : Z) (p : E) (s : S) (r : Z) (f : fat) : Prop := {
  ro_pivot : el s a = p;
  ro_r : a <= r <= b;
  ro_ctr : 1 <= FatPvtCtr f /\ r + FatPvtCtr f - 1 <= b;
  ro_flag : HiFatPvt f = (1 <? FatPvtCtr f);
  ro_addr : HiFatPvt f = true -> HiFatPvtAddr f = pos (r + FatPvtCtr f - 1);
  ro_eq : forall k, r < k -> k <= r + FatPvtCtr f - 1 -> cmp (el s k) p = 0;
  ro_gt : forall k, r + FatPvtCtr f <= k -> k <= b -> 0 < cmp (el s k) p }.

Definition left_of (a : Z) (p : E) (s : S) (l : Z) : Prop :=
  forall k, a < k -> k < l -> cmp (el s k) p < 0.

Lemma put_equal_right a b p s r f : a < r -> right_of a b p s r f -> cmp (el s r) p = 0 ->
  right_of a b p s (r - 1) (put_equal f (pos r)).
Proof.
  intros Har [Hp Hr Hc Hf Ha He Hg] Hz. unfold put_equal.
  constructor; cbn [HiFatPvt HiFatPvtAddr FatPvtCtr]; [done|lia|lia| | | |].
  - symmetry. apply Z.ltb_lt. lia.
  - intros _. rewrite Hf in *. destruct (Z.ltb_spec 1 (FatPvtCtr f)).
    + rewrite Ha by done. f_equal. f_equal. lia.
    + f_equal. f_equal. lia.
  - intros k Hk1 Hk2. destruct (decide (k = r)) as [->|]; [done|]. apply He; lia.
  - intros k Hk1 Hk2. apply Hg; lia.
Qed.

Lemma put_greater_right a b p s r f :
  R s -> 1 <= a -> b <= n -> a < r -> right_of a b p s r f -> 0 < cmp (el s r) p ->
  exists s' f', put_greater SWAP w s f (pos r) = Done (s', f') /\ within a b s s' /\
    right_of a b p s' (r - 1) f' /\ forall k, 1 <= k < r -> el s' k = el s k.
Proof.
  intros HR Ha Hb Har [Hp Hr Hc Hf Hadr He Hg] Hz. unfold put_greater.
  rewrite Hf in *. destruct (Z.ltb_spec 1 (FatPvtCtr f)) as [Hc1|Hc1].
  - rewrite Hadr by done. set (q := r + FatPvtCtr f - 1) in *.
    destruct (swap_within a b s q r) as (s' & -> & W & E1 & E2 & E3); [done|lia..|].
    rewrite bind_Done. do 2 eexists. split; [reflexivity|]. split; [done|]. split;
      [|intros k Hk; apply E3; lia].
    constructor; cbn [HiFatPvt HiFatPvtAddr FatPvtCtr]; [|lia|lia| | | |].
    + rewrite E3 by lia. done.
    + symmetry. by apply Z.ltb_lt.
    + intros _. unfold q. lia.
    + intros k Hk1 Hk2. destruct (decide (k = r)) as [->|].
      * rewrite E2. apply He; lia.
      * rewrite E3 by lia. apply He; lia.
    + intros k Hk1 Hk2. destruct (decide (k = q)) as [->|].
      * by rewrite E1.
      * rewrite E3 by lia. apply Hg; lia.
  - do 2 eexists. split; [reflexivity|]. split; [by apply within_refl|]. split; [|done].
    constructor; [done|lia|lia| | | |].
    + rewrite Hf. symmetry. apply Z.ltb_ge. lia.
    + rewrite Hf. done.
    + intros k Hk1 Hk2. lia.
    + intros k Hk1 Hk2. destruct (decide (k = r)) as [->|]; [done|]. apply Hg; lia.
Qed.

(** The item at [r] joins the right part, whatever it is. *)
Lemma put_right a b p s r f c :
  R s -> 1 <= a -> b <= n -> a < r -> right_of a b p s r f -> cmp (el s r) p = c -> 0 <= c ->
  exists s' f', (if 0 <? c then put_greater SWAP w s f (pos r)
                 else Done (s, put_equal f (pos r))) = Done (s', f') /\ within a b s s' /\
    right_of a b p s' (r - 1) f' /\ forall k, 1 <= k < r -> el s' k = el s k.
Proof.
  intros HR Ha Hb Har Hro <- Hc. destruct (Z.ltb_spec 0 (cmp (el s r) p)).
  - by apply put_greater_right.
  - do 2 eexists. split; [reflexivity|]. split; [by apply within_refl|]. split; [|done].
    apply put_equal_right; [done|done|lia].
Qed.

Lemma scan_left_spec fuel a p s l r c :
  R s -> 1 <= a -> a < l -> l <= r + 1 -> r <= n -> el s a = p -> left_of a p s l ->
  (Z.to_nat (r + 1 - l) < fuel)%nat ->
  exists res, scan_left CMPR w fuel s (pos a) l (pos l) r c = Done res /\
    exists l' c', res = (l', pos l', c') /\ l <= l' <= r + 1 /\ left_of a p s l' /\
      (l' <= r -> c' = cmp (el s l') p /\ 0 <= c').
Proof.
  intros HR Ha Hal Hlr Hr Hp Hl Hf. pose proof n_bound.
  apply (loop_total (fun '(x, adr, _) => l <= x <= r + 1 /\ adr = pos x /\ left_of a p s x)
    (fun res => exists l' c', res = (l', pos l', c') /\ l <= l' <= r + 1 /\ left_of a p s l' /\
      (l' <= r -> c' = cmp (el s l') p /\ 0 <= c')) (fun '(x, _, _) => Z.to_nat (r + 1 - x)));
    [|split_and!; try done; lia|lia].
  intros [[x adr] c0] (Hx & -> & Hlx). destruct (Z.leb_spec x r).
  - rewrite cmp_at, bind_Done, Hp by (done || lia). destruct (Z.leb_spec 0 (cmp (el s x) p)).
    + do 2 eexists. split; [reflexivity|]. split_and!; [lia..|done|done].
    + rewrite u64_small by lia. split_and!; [lia..| |lia].
      intros k Hk1 Hk2. destruct (decide (k = x)) as [->|]; [done|]. apply Hlx; lia.
  - do 2 eexists. split; [reflexivity|]. split_and!; [lia..|done|lia].
Qed.

Lemma scan_right_spec fuel a b p s l r f :
  R s -> 1 <= a -> b <= n -> a < l -> l <= r + 1 -> right_of a b p s r f ->
  (Z.to_nat (r + 1 - l) < fuel)%nat ->
  exists res, scan_right CMPR SWAP w fuel s (pos a) l r (pos r) f = Done res /\
    exists s' r' f', res = (s', r', pos r', f') /\ within a b s s' /\ right_of a b p s' r' f' /\
      l - 1 <= r' <= r /\ (forall k, 1 <= k <= r' -> el s' k = el s k) /\
      (l <= r' -> cmp (el s' r') p < 0).
Proof.
  intros HR Ha Hb Hal Hlr Hro Hf. pose proof n_bound.
  apply (loop_total (fun '(s1, x, adr, f1) => within a b s s1 /\ right_of a b p s1 x f1 /\
      adr = pos x /\ l - 1 <= x <= r /\ (forall k, 1 <= k <= x -> el s1 k = el s k))
    (fun res => exists s' r' f', res = (s', r', pos r', f') /\ within a b s s' /\
      right_of a b p s' r' f' /\ l - 1 <= r' <= r /\ (forall k, 1 <= k <= r' -> el s' k = el s k) /\
      (l <= r' -> cmp (el s' r') p < 0)) (fun '(_, x, _, _) => Z.to_nat (x + 1 - l)));
    [|split_and!; [by apply within_refl|done|done|lia..|done]|lia].
  intros [[[s1 x] adr] f1] (W1 & Ro1 & -> & Hx & Ek). pose proof (ro_r _ _ _ _ _ _ Ro1).
  pose proof (wi_valid _ _ _ _ W1) as R1. destruct (Z.leb_spec l x).
  - rewrite cmp_at, bind_Done, (ro_pivot _ _ _ _ _ _ Ro1) by (done || lia).
    destruct (Z.ltb_spec (cmp (el s1 x) p) 0).
    + do 3 eexists. split; [reflexivity|]. split_and!; [done|done|lia|lia|done|done].
    + destruct (put_right a b p s1 x f1 _ R1 Ha Hb ltac:(lia) Ro1 eq_refl ltac:(lia))
        as (s2 & f2 & -> & W2 & Ro2 & E2).
      rewrite bind_Done, u64_small by lia.
      split_and!; [by eapply within_trans|done|lia|lia|lia| |lia].
      intros k Hk. rewrite E2 by lia. apply Ek. lia.
  - do 3 eexists. split; [reflexivity|]. split_and!; [done|done|lia|lia|done|lia].
Qed.

Lemma right_of_swap a b p s s' l r f : 1 <= a -> b <= n -> a < l -> l < r ->
  right_of a b p s r f -> el s' r = el s l ->
  (forall k, 1 <= k <= n -> k <> l -> k <> r -> el s' k = el s k) -> right_of a b p s' r f.
Proof.
  intros Ha Hb Hl Hlr [Hp Hr Hc Hf Hadr He Hg] E1 E3. constructor; [|done..| |].
  - by rewrite E3 by lia.
  - intros k Hk1 Hk2. rewrite E3 by lia. by apply He.
  - intros k Hk1 Hk2. rewrite E3 by lia. by apply Hg.
Qed.

(** The state of the loop of Partition3. *)
Record splitting (a b : Z) (p : E) (s0 s : S) (l r : Z) (f : fat) : Prop := {
  sp_within : within a b s0 s;
  sp_right : right_of a b p s r f;
  sp_left : left_of a p s l;
  sp_lr : a < l <= r + 1 }.

(** The exchange of the items at [l] and [r] in the loop. *)
Lemma exchange_spec a b p s0 s l r f c :
  1 <= a -> b <= n -> l < r -> splitting a b p s0 s l r f ->
  c = cmp (el s l) p -> 0 <= c -> cmp (el s r) p < 0 ->
  exists s2 s3 f3, SWAP s (pos l) (pos r) = Done s2 /\
    (if 0 <? c then put_greater SWAP w s2 f (pos r) else Done (s2, put_equal f (pos r))) =
      Done (s3, f3) /\
    splitting a b p s0 s3 (l + 1) (r - 1) f3.
Proof.
  intros Ha Hb Hlr [W Ro Hl Hb1] Hc Hc0 Hcr. pose proof (ro_r _ _ _ _ _ _ Ro).
  destruct (swap_within a b s l r) as (s2 & -> & W2 & E1 & E2 & E3);
    [by apply W|lia..|].
  assert (Ro2 : right_of a b p s2 r f)
    by (apply (right_of_swap a b p s s2 l r f); done || lia).
  destruct (put_right a b p s2 r f c) as (s3 & f3 & E4 & W3 & Ro3 & Ek);
    [by apply W2|done|done|lia|done|by rewrite E2|done|].
  exists s2, s3, f3. split; [done|]. split; [done|]. constructor; [|done| |lia].
  - eapply within_trans; [exact W|]. by eapply within_trans.
  - intros k Hk1 Hk2. rewrite Ek by lia. destruct (decide (k = l)) as [->|].
    + by rewrite E1.
    + rewrite E3 by lia. apply Hl; lia.
Qed.

(** One round of the loop of Partition3. *)
Lemma partition_loop_spec fuel a b p s c f l r :
  1 <= a -> b <= n -> splitting a b p s s l r f -> (Z.to_nat (r + 1 - l) < fuel)%nat ->
  exists res, partition_loop CMPR SWAP w fuel s (pos a) l (pos l) r (pos r) c f = Done res /\
    exists s' r' f', res = (s', r', pos r', f') /\ splitting a b p s s' (r' + 1) r' f'.
Proof.
  intros Ha Hb Hsp Hf. pose proof n_bound.
  apply (loop_total (fun '(s1, x, xa, y, ya, _, f1) => splitting a b p s s1 x y f1 /\
      xa = pos x /\ ya = pos y /\ y + 1 - x <= r + 1 - l)
    (fun res => exists s' r' f', res = (s', r', pos r', f') /\ splitting a b p s s' (r' + 1) r' f')
    (fun '(_, x, _, y, _, _, _) => Z.to_nat (y + 1 - x))); [|split_and!; (done || lia)|lia].
  intros [[[[[[s1 x] xa] y] ya] c1] f1] (Sp & -> & -> & Hm). pose proof Sp as [W Ro Hl Hxy].
  pose proof (ro_r _ _ _ _ _ _ Ro). pose proof (wi_valid _ _ _ _ W) as R1.
  destruct (Z.leb_spec x y) as [Hle|Hgt].
  - destruct (scan_left_spec fuel a p s1 x y c1) as (res1 & -> & l' & c' & -> & Hl' & Hleft & Hc');
      [done|lia..|by apply Ro|done|lia|]. rewrite bind_Done.
    destruct (scan_right_spec fuel a b p s1 l' y f1)
      as (res2 & -> & s2 & r' & f2 & -> & W2 & Ro2 & Hr' & Ek & Hcr);
      [done|lia..|done|lia|]. rewrite bind_Done.
    assert (Sp2 : splitting a b p s s2 l' r' f2).
    { constructor; [by eapply within_trans|done| |lia]. intros k Hk1 Hk2.
      rewrite Ek by lia. apply Hleft; lia. }
    destruct (Z.ltb_spec l' r') as [Hlt|Hnlt].
    + destruct Hc' as [Ec Hc0]; [lia|]. rewrite <- (Ek l') in Ec by lia.
      destruct (exchange_spec a b p s s2 l' r' f2 c') as (s3 & s4 & f4 & -> & E4 & Sp4);
        [done|done|done|done|done|done|apply Hcr; lia|].
      rewrite bind_Done, E4, bind_Done, !u64_small by lia. split_and!; [done|lia..].
    + assert (l' = r' + 1) as ->.
      { destruct (decide (l' = r')) as [->|]; [|lia]. exfalso.
        destruct Hc' as [Ec Hc0]; [lia|]. specialize (Hcr ltac:(lia)). rewrite Ek in Hcr by lia. lia. }
      eauto 10.
  - assert (x = y + 1) as -> by lia. eauto 10.
Qed.

Lemma shiftr_half x : Z.shiftr x 1 = x / 2.
Proof. by rewrite Z.shiftr_div_pow2 by lia. Qed.

Lemma GET_PIVOT_ADDR_spec s i j k : R s -> 1 <= i <= n -> 1 <= j <= n -> 1 <= k <= n ->
  exists x, GET_PIVOT_ADDR CMPR s (pos i) (pos j) (pos k) = Done (pos x) /\
    (x = i \/ x = j \/ x = k).
Proof.
  intros HR Hi Hj Hk. unfold GET_PIVOT_ADDR. rewrite !cmp_at, !bind_Done by done.
  destruct (0 <? _).
  - destruct (0 <=? _); [by eauto|]. destruct (0 <=? _); by eauto.
  - destruct (0 <? _); [by eauto|]. destruct (0 <? _); by eauto.
Qed.

(** The exchanges at both ends: [if (a1 != a2) SWAP(a1, a2)] *)
Lemma swap_unless a b s i j : R s -> 1 <= a -> b <= n -> a <= i <= b -> a <= j <= b ->
  exists s', (if negb (pos i =? pos j) then SWAP s (pos i) (pos j) else Done s) = Done s' /\
    within a b s s' /\ el s' i = el s j /\ el s' j = el s i /\
    forall k, 1 <= k <= n -> k <> i -> k <> j -> el s' k = el s k.
Proof.
  intros HR Ha Hb Hi Hj. destruct (Z.eqb_spec (pos i) (pos j)) as [E1|E1].
  - apply pos_inj in E1 as ->. exists s. split; [done|]. by split; [apply within_refl|].
  - apply swap_within; try done. by intros ->.
Qed.

Lemma Partition3_spec a b s :
  R s -> 1 <= a -> a < b -> b <= n ->
  exists s' x y p, Partition3 CMPR SWAP w base s a b = Done (s', x, y) /\ within a b s s' /\
    a <= x /\ x <= y /\ y <= b /\ (forall k, a <= k -> k < x -> cmp (el s' k) p < 0) /\
    (forall k, x <= k -> k <= y -> cmp (el s' k) p = 0) /\
    (forall k, y < k -> k <= b -> 0 < cmp (el s' k) p).
Proof.
  intros HR Ha Hab Hb. pose proof n_bound. unfold Partition3. rewrite !shiftr_half.
  set (mid := u64 (a + b + 1) / 2).
  assert (Hmid : mid = (a + b + 1) / 2) by (unfold mid; by rewrite u64_small by lia).
  clearbody mid. assert (a <= mid <= b) by (Z.to_euclidean_division_equations; lia).
  rewrite !u64_small by lia.
  assert (a <= (a + mid) / 2 <= b) by (Z.to_euclidean_division_equations; lia).
  assert (a <= (mid + b) / 2 <= b) by (Z.to_euclidean_division_equations; lia).
  rewrite !BASE_pos by lia.
  destruct (GET_PIVOT_ADDR_spec s ((a + mid) / 2) mid ((mid + b) / 2)) as (x & -> & Hx);
    [done|lia..|]. rewrite bind_Done.
  destruct (swap_unless a b s a x) as (s1 & -> & W1 & _ & _ & _); [done|lia..|].
  rewrite bind_Done.
  destruct (partition_loop_spec (Z.to_nat (b - a + 2)) a b (el s1 a) s1 0 (mk_fat false 0 1)
    (a + 1) b) as (res & -> & s2 & r & f & -> & [W2 Ro Hl _]); [done|done| |lia|].
  { pose proof (wi_valid _ _ _ _ W1) as R1. constructor; [by apply within_refl| | |lia].
    - constructor; cbn [HiFatPvt HiFatPvtAddr FatPvtCtr]; intros; done || lia.
    - intros k. lia. }
  rewrite bind_Done. destruct Ro as [Hp Hr Hc _ _ He Hg].
  destruct (swap_unless a b s2 a r) as (s3 & -> & W3 & E1 & E2 & E3);
    [by apply W2|lia..|]. rewrite bind_Done, u64_small by lia.
  exists s3, r, (r + (FatPvtCtr f - 1)), (el s1 a). split; [done|].
  split; [eapply within_trans; [exact W1|]; by eapply within_trans|]. split_and!; [lia..| | |].
  - intros k Hk1 Hk2. destruct (decide (k = a)) as [->|].
    + rewrite E1. apply Hl; lia.
    + rewrite E3 by lia. apply Hl; lia.
  - intros k Hk1 Hk2. destruct (decide (k = r)) as [->|].
    + rewrite E2, Hp. apply cmp_refl.
    + rewrite E3 by lia. apply He; lia.
  - intros k Hk1 Hk2. rewrite E3 by lia. apply Hg; lia.
Qed.

(** ** QuickSort *)

(** All pairs of positions from [a] to [b] are in order, but for those with both
    positions from [x] to [y]. *)
Definition outside (a b x y : Z) (s : S) : Prop :=
  forall i j, a <= i -> i <= j -> j <= b -> ~ (x <= i /\ j <= y) -> le (el s i) (el s j).

(** The three parts that Partition3 makes. *)
Record parts (a x y b : Z) (p : E) (s : S) : Prop := {
  pa_lt : forall k, a <= k -> k < x -> cmp (el s k) p < 0;
  pa_eq : forall k, x <= k -> k <= y -> cmp (el s k) p = 0;
  pa_gt : forall k, y < k -> k <= b -> 0 < cmp (el s k) p }.

Lemma ge_le p e : 0 <= cmp e p -> le p e.
Proof. intros. apply Z.nlt_ge. rewrite cmp_flip. lia. Qed.

Lemma outside_within a b x y s s' : 1 <= a -> b <= n -> a <= x -> y <= b ->
  outside a b x y s -> within x y s s' -> outside a b x y s'.
Proof.
  intros Ha Hb Hax Hyb Ho [V O I P] i j Hi Hij Hj Hn.
  assert (Hpos : forall k, a <= k <= b -> exists k', el s' k = el s k' /\
    (k' = k /\ ~ (x <= k <= y) \/ x <= k <= y /\ x <= k' <= y)).
  { intros k Hk. destruct (decide (x <= k <= y)) as [Hin|Hin].
    - destruct (I k Hin) as (k' & ? & ?). by eauto 10.
    - exists k. split; [|by left]. apply O; lia. }
  destruct (Hpos i) as (i' & -> & Hi'); [lia|]. destruct (Hpos j) as (j' & -> & Hj'); [lia|].
  apply Ho; lia.
Qed.

Lemma outside_done a b x y s : outside a b x y s -> sorted x y s -> sorted a b s.
Proof.
  intros Ho Hs i j Hi Hij Hj. destruct (decide (x <= i /\ j <= y)) as [[Hx Hy]|Hn].
  - by apply Hs.
  - by apply Ho.
Qed.

Lemma parts_within_left a x y b p s s' : 1 <= a -> b <= n -> a <= x -> x <= y -> y <= b ->
  parts a x y b p s -> within a (x - 1) s s' -> parts a x y b p s'.
Proof.
  intros Ha Hb Hax Hxy Hyb [H1 H2 H3] [V O I P]. constructor; intros k Hk1 Hk2.
  - destruct (I k) as (k' & ? & ->); [lia|]. apply H1; lia.
  - rewrite O by lia. by apply H2.
  - rewrite O by lia. by apply H3.
Qed.

Lemma parts_within_right a x y b p s s' : 1 <= a -> b <= n -> a <= x -> x <= y -> y <= b ->
  parts a x y b p s -> within (y + 1) b s s' -> parts a x y b p s'.
Proof.
  intros Ha Hb Hax Hxy Hyb [H1 H2 H3] [V O I P]. constructor; intros k Hk1 Hk2.
  - rewrite O by lia. by apply H1.
  - rewrite O by lia. by apply H2.
  - destruct (I k) as (k' & ? & ->); [lia|]. apply H3; lia.
Qed.

(** In the three parts, positions of different parts are in order. *)
Lemma parts_order a x y b p s i j : x <= y -> parts a x y b p s -> a <= i -> i <= j -> j <= b ->
  (x <= i \/ x <= j) -> (i <= y \/ j <= y) -> le (el s i) (el s j).
Proof.
  intros Hxy [H1 H2 H3] Hi Hij Hj Hx Hy. apply (cmp_trans _ p).
  - destruct (decide (i < x)); [pose proof (H1 i); lia|]. pose proof (H2 i). lia.
  - apply ge_le. destruct (decide (j <= y)); [pose proof (H2 j); lia|]. pose proof (H3 j). lia.
Qed.

Lemma outside_left a b x px py y p s : x <= px -> px <= py -> py <= y -> a <= x -> y <= b ->
  outside a b x y s -> parts x px py y p s -> sorted x (px - 1) s -> outside a b (py + 1) y s.
Proof.
  intros ? ? ? ? ? Ho Hp Hs i j Hi Hij Hj Hn.
  destruct (decide (x <= i /\ j <= y)) as [[Hx Hy]|]; [|by apply Ho].
  destruct (decide (j < px)); [apply Hs; lia|]. apply (parts_order x px py y p); done || lia.
Qed.

Lemma outside_right a b x px py y p s : x <= px -> px <= py -> py <= y -> a <= x -> y <= b ->
  outside a b x y s -> parts x px py y p s -> sorted (py + 1) y s -> outside a b x (px - 1) s.
Proof.
  intros ? ? ? ? ? Ho Hp Hs i j Hi Hij Hj Hn.
  destruct (decide (x <= i /\ j <= y)) as [[Hx Hy]|]; [|by apply Ho].
  destruct (decide (py < i)); [apply Hs; lia|]. apply (parts_order x px py y p); done || lia.
Qed.

Lemma low_sub a b a' b' s : a <= a' -> b' <= b -> low a b s ->
  (forall i j, a <= i -> i < a' -> a' <= j -> j <= b' -> le (el s i) (el s j)) -> low a' b' s.
Proof.
  intros Ha Hb Hl Ho i j Hi Hj. destruct (decide (i < a)); [apply Hl; lia|]. apply Ho; lia.
Qed.

(** The state of the loop in QuickSort. *)
Record sorting (a b : Z) (s0 s : S) (x y : Z) : Prop := {
  so_within : within a b s0 s;
  so_out : outside a b x y s;
  so_range : a <= x /\ x <= y + 1 /\ y <= b }.

(** The sub-range of a [sorting] state may be sorted by itself. *)
Lemma sorting_low a b s0 s x y : 1 <= a -> b <= n -> low a b s0 -> sorting a b s0 s x y ->
  low x y s.
Proof.
  intros Ha Hb Hl [W Ho Hr]. apply (low_sub a b); [lia|lia|by eapply low_within|].
  intros i j ? ? ? ?. apply Ho; lia.
Qed.

(** After Partition3, which leaves the order outside of the range. *)
Lemma sorting_part a b s0 s x y s1 : 1 <= a -> b <= n -> sorting a b s0 s x y ->
  within x y s s1 -> sorting a b s0 s1 x y.
Proof.
  intros Ha Hb [W Ho Hr] W1. constructor; [|apply (outside_within a b x y s s1); done || lia|done].
  eapply within_trans; [exact W|]. apply (within_mono x y); done || lia.
Qed.

Section Step.
Context (qs : S -> Z -> Z -> outcome S) (size : Z).
Hypothesis qs_spec : forall a b s, R s -> 1 <= a -> a <= b + 1 -> b <= n -> b + 1 - a < size ->
  low a b s -> exists s', qs s a b = Done s' /\ within a b s s' /\ sorted a b s'.

Lemma sort_left a b s0 s x px py y p :
  1 <= a -> b <= n -> y + 1 - x <= size -> low a b s0 -> sorting a b s0 s x y ->
  x <= px -> px <= py -> py <= y -> parts x px py y p s ->
  exists s', qs s x (px - 1) = Done s' /\ sorting a b s0 s' (py + 1) y.
Proof.
  intros Ha Hb Hsz Hl So Hx Hxy Hy Hp. pose proof (so_range _ _ _ _ _ _ So).
  destruct (qs_spec x (px - 1) s) as (s1 & -> & W1 & S1);
    [by apply So|lia..| |].
  { apply (low_sub x y); [lia|lia|by eapply sorting_low|]. lia. }
  exists s1. split; [done|].
  assert (W1' : within x y s s1) by (apply (within_mono x (px - 1)); done || lia).
  pose proof (sorting_part a b s0 s x y s1 Ha Hb So W1') as [W2 O2 _].
  constructor; [done| |lia]. apply (outside_left a b x px py y p); try (done || lia).
  apply (parts_within_left _ _ _ _ _ s); done || lia.
Qed.

Lemma sort_right a b s0 s x px py y p :
  1 <= a -> b <= n -> y + 1 - x <= size -> low a b s0 -> sorting a b s0 s x y ->
  x <= px -> px <= py -> py <= y -> parts x px py y p s ->
  exists s', qs s (py + 1) y = Done s' /\ sorting a b s0 s' x (px - 1).
Proof.
  intros Ha Hb Hsz Hl So Hx Hxy Hy Hp. pose proof (so_range _ _ _ _ _ _ So).
  destruct (qs_spec (py + 1) y s) as (s1 & -> & W1 & S1);
    [by apply So|lia..| |].
  { apply (low_sub x y); [lia|lia|by eapply sorting_low|].
    intros i j ? ? ? ?. apply (parts_order x px py y p); done || lia. }
  exists s1. split; [done|].
  assert (W1' : within x y s s1) by (apply (within_mono (py + 1) y); done || lia).
  pose proof (sorting_part a b s0 s x y s1 Ha Hb So W1') as [W2 O2 _].
  constructor; [done| |lia]. apply (outside_right a b x px py y p); try (done || lia).
  apply (parts_within_right _ _ _ _ _ s); done || lia.
Qed.

End Step.

Lemma QuickSort_spec fuel : forall a b s,
  R s -> 1 <= a -> a <= b + 1 -> b <= n -> b + 1 - a < Z.of_nat fuel -> low a b s ->
  exists s', QuickSort CMPR SWAP w base fuel s a b = Done s' /\ within a b s s' /\ sorted a b s'.
Proof.
  pose proof n_bound. induction fuel as [|fuel IH]; intros a b s HR Ha Hab Hb Hf Hl; [lia|].
  cbn [QuickSort].
  apply (loop_total (fun '(s1, x, y) => sorting a b s s1 x y)
    (fun s1 => within a b s s1 /\ sorted a b s1) (fun '(_, x, y) => Z.to_nat (y + 1 - x))); [| |lia].
  2: { constructor; [by apply within_refl| |lia]. intros i j ? ? ? []. lia. }
  intros [[s1 x] y] So. pose proof So as [W Ho Hr]. pose proof (wi_valid _ _ _ _ W) as R1.
  pose proof (sorting_low _ _ _ _ _ _ Ha Hb Hl So) as Hl1. destruct (Z.ltb_spec x y) as [Hxy|Hxy].
  - rewrite (u64_small (y - x)) by lia. destruct (y - x <? QMIN).
    + destruct (InsertionSort_spec x y s1) as (s2 & -> & W2 & S2); [done|lia..|done|].
      rewrite bind_Done. destruct (sorting_part a b s s1 x y s2 Ha Hb So W2) as [W3 O3 _].
      split; [done|]. by eapply outside_done.
    + destruct (Partition3_spec x y s1) as (s2 & px & py & p & -> & W2 & H1 & H2 & H3 & L & E' & G);
        [done|lia..|]. rewrite bind_Done.
      pose proof (sorting_part a b s s1 x y s2 Ha Hb So W2) as So2.
      assert (Hp : parts x px py y p s2) by done.
      rewrite !u64_small by lia. destruct (px - x <? y - py).
      * destruct (sort_left _ _ IH a b s s2 x px py y p) as (s3 & -> & So3); [done|lia|lia|done..|].
        rewrite bind_Done. split; [done|lia].
      * destruct (sort_right _ _ IH a b s s2 x px py y p) as (s3 & -> & So3); [done|lia|lia|done..|].
        rewrite bind_Done. split; [done|lia].
  - split; [done|]. eapply outside_done; [exact Ho|]. intros i j ? ? ?.
    assert (i = j) as -> by lia. by rewrite cmp_refl.
Qed.

End Sort.

(** ** Swap *)

(** Two blocks that do not overlap exchange their contents. *)
Lemma swap_scalar_spec m e1 e2 x y :
  length x = length y -> bytes_ok x -> bytes_ok y -> bytes_at m e1 x -> bytes_at m e2 y ->
  swap_scalar (length x) m e1 e2 = Done (write_bytes (write_bytes m e1 y) e2 x).
Proof.
  intros Hl Hx Hy H1 H2. unfold swap_scalar. rewrite (load_bytes_spec _ _ _ H1), bind_Done.
  rewrite Hl, (load_bytes_spec _ _ _ H2), bind_Done.
  rewrite store_bytes_spec, bind_Done; [|done|rewrite <- Hl; by eapply bytes_at_mapped].
  apply store_bytes_spec; [done|]. apply mapped_write. rewrite Hl. by eapply bytes_at_mapped.
Qed.

Definition apart (e1 e2 : Z) (n : nat) : Prop := e1 + Z.of_nat n <= e2 \/ e2 + Z.of_nat n <= e1.

(** One piece of the default case. *)
Lemma swap_piece m e1 e2 x y :
  length x = length y -> apart e1 e2 (length x) -> bytes_ok x -> bytes_ok y ->
  bytes_at m e1 x -> bytes_at m e2 y ->
  (t ← load_bytes m e1 (length x);
   '(m, _) ← memcpy m e1 e2 (Z.of_nat (length x));
   store_bytes m e2 t) = Done (write_bytes (write_bytes m e1 y) e2 x).
Proof.
  intros Hl Ha Hx Hy H1 H2. rewrite (load_bytes_spec _ _ _ H1), bind_Done.
  rewrite Hl, memcpy_spec, bind_Done; [|done|done|rewrite <- Hl; by eapply bytes_at_mapped|].
  - apply store_bytes_spec; [done|]. apply mapped_write. rewrite Hl. by eapply bytes_at_mapped.
  - unfold apart in Ha. lia.
Qed.

Lemma swap_chunks_spec fuel : forall m e1 e2 x y,
  length x = length y -> apart e1 e2 (length x) -> bytes_ok x -> bytes_ok y ->
  bytes_at m e1 x -> bytes_at m e2 y -> (length x < fuel)%nat ->
  loop fuel (fun '(m, Elem1, Elem2, XferSize) =>
    if 0 <? XferSize then
      let CopySize := if XferSize <? MAX_SWAP then XferSize else MAX_SWAP in
      TempBuf ← load_bytes m Elem1 (Z.to_nat CopySize);
      '(m, _) ← memcpy m Elem1 Elem2 CopySize;
      m ← store_bytes m Elem2 TempBuf;
      Done (inl (m, Elem1 + CopySize, Elem2 + CopySize, XferSize - CopySize))
    else Done (inr m)) (m, e1, e2, Z.of_nat (length x)) =
  Done (write_bytes (write_bytes m e1 y) e2 x).
Proof.
  induction fuel as [|fuel IH]; intros m e1 e2 x y Hl Ha Hx Hy H1 H2 Hf; [lia|].
  rewrite loop_S. destruct (Z.ltb_spec 0 (Z.of_nat (length x))) as [Hpos|H0].
  2: { destruct x; [|done]. by destruct y. }
  set (c := if Z.of_nat (length x) <? MAX_SWAP then _ else _).
  assert (Hc : 0 < c <= Z.of_nat (length x))
    by (unfold c, MAX_SWAP; destruct (Z.ltb_spec (Z.of_nat (length x)) 256); lia).
  clearbody c. cbv zeta. unfold apart in Ha.
  rewrite <- (take_drop (Z.to_nat c) x) in *. rewrite <- (take_drop (Z.to_nat c) y) in *.
  assert (Lx : length (take (Z.to_nat c) x) = Z.to_nat c)
    by (rewrite length_take; rewrite take_drop in Hc; lia).
  assert (Ly : length (take (Z.to_nat c) y) = Z.to_nat c)
    by (rewrite length_take; rewrite !take_drop in *; lia).
  revert Hl Ha Hx Hy H1 H2 Hf Hc Hpos Lx Ly.
  generalize (take (Z.to_nat c) x) as x1, (take (Z.to_nat c) y) as y1,
    (drop (Z.to_nat c) x) as x2, (drop (Z.to_nat c) y) as y2. clear x y.
  intros x1 y1 x2 y2 Hl Ha Hx Hy H1 H2 Hf Hc Hpos Lx Ly. rewrite !length_app in *.
  apply bytes_ok_app in Hx as [Hx1 Hx2], Hy as [Hy1 Hy2].
  apply bytes_at_app in H1 as [H11 H12], H2 as [H21 H22].
  pose proof (swap_piece m e1 e2 x1 y1 ltac:(lia) ltac:(unfold apart; lia) Hx1 Hy1 H11 H21) as E.
  rewrite Lx in E. rewrite Z2Nat.id in E by lia.
  destruct (load_bytes m e1 (Z.to_nat c)) as [t|]; [|done].
  destruct (memcpy m e1 e2 c) as [[m1 r]|]; [|done].
  rewrite !bind_Done in E. rewrite !bind_Done, E, bind_Done.
  replace (Z.of_nat (length x1 + length x2) - c) with (Z.of_nat (length x2)) by lia.
  rewrite (IH _ _ _ x2 y2); [|lia|unfold apart; lia|done|done| | |lia].
  - f_equal. rewrite !write_bytes_app, Lx, Ly, Z2Nat.id by lia. f_equal.
    rewrite (write_bytes_comm _ e2 x1); [done|lia].
  - rewrite Lx, Z2Nat.id in H12 by lia. do 2 (apply bytes_at_write_out; [|lia]). done.
  - rewrite Ly, Z2Nat.id in H22 by lia. do 2 (apply bytes_at_write_out; [|lia]). done.
Qed.

(** Swap exchanges two elements of any width but 4. *)
Lemma Swap_spec m e1 e2 x y :
  length x = length y -> length x <> 4%nat -> Z.of_nat (length x) < 2 ^ 31 ->
  apart e1 e2 (length x) -> bytes_ok x -> bytes_ok y -> bytes_at m e1 x -> bytes_at m e2 y ->
  Swap (Z.of_nat (length x)) m e1 e2 = Done (write_bytes (write_bytes m e1 y) e2 x).
Proof.
  intros Hl H4 Hb Ha Hx Hy H1 H2. unfold Swap. rewrite wrap_s_small by lia.
  assert (Hd : swap_chunks (Z.of_nat (length x)) m e1 e2 =
    Done (write_bytes (write_bytes m e1 y) e2 x)).
  { unfold swap_chunks. apply swap_chunks_spec; try done. lia. }
  assert (Hs : swap_scalar (length x) m e1 e2 = Done (write_bytes (write_bytes m e1 y) e2 x))
    by (by apply swap_scalar_spec).
  destruct (Z.of_nat (length x)) as [|[q|[q|[q|q|]|]|]|] eqn:E; try done; try lia.
  - by replace 2%nat with (length x) by lia.
  - by replace 1%nat with (length x) by lia.
Qed.

(** ** The byte memory implements the interface *)

Section Memory.
Context (base n : Z) (w : nat) (m0 : gmap Z Z) (cmp : list Z -> list Z -> Z).
Context (Compare : gmap Z Z -> Z -> Z -> outcome Z).
Hypothesis w_pos : (0 < w)%nat.
Hypothesis w_int : Z.of_nat w < 2 ^ 31.
Hypothesis w_not_4 : w <> 4%nat.
Hypothesis n_size : 0 <= n /\ n * Z.of_nat w < 2 ^ 62.
Hypothesis Compare_spec : forall m a b x y, bytes_at m a x -> bytes_at m b y ->
  length x = w -> length y = w -> Compare m a b = Done (cmp x y).

Abbreviation pos i := (base + (i - 1) * Z.of_nat w).

Definition elem_at (m : gmap Z Z) (i : Z) : list Z :=
  match load_bytes m (pos i) w with Done l => l | Fail _ => [] end.

(** The array is there, and all else is as in [m0]. *)
Record mem_array (m : gmap Z Z) : Prop := {
  ma_elem : forall i, 1 <= i <= n -> bytes_at m (pos i) (elem_at m i) /\
    length (elem_at m i) = w /\ bytes_ok (elem_at m i);
  ma_rest : forall a, a < base \/ base + n * Z.of_nat w <= a -> m !! a = m0 !! a }.

Lemma elem_at_eq m i l : bytes_at m (pos i) l -> length l = w -> elem_at m i = l.
Proof.
  intros Hl Hw. unfold elem_at. pose proof (load_bytes_spec l m _ Hl) as E.
  rewrite Hw in E. by rewrite E.
Qed.

Lemma pos_apart i j : i <> j -> apart (pos i) (pos j) w.
Proof. unfold apart. nia. Qed.

Lemma mem_swap m i j : mem_array m -> 1 <= i <= n -> 1 <= j <= n -> i <> j -> exists m',
  Swap (Z.of_nat w) m (pos i) (pos j) = Done m' /\ mem_array m' /\
  elem_at m' i = elem_at m j /\ elem_at m' j = elem_at m i /\
  forall k, 1 <= k <= n -> k <> i -> k <> j -> elem_at m' k = elem_at m k.
Proof.
  intros [He Ho] Hi Hj Hij. destruct (He i Hi) as (Bi & Li & Oi), (He j Hj) as (Bj & Lj & Oj).
  set (x := elem_at m i) in *. set (y := elem_at m j) in *.
  set (m' := write_bytes (write_bytes m (pos i) y) (pos j) x).
  pose proof (pos_apart i j Hij) as Hap. unfold apart in Hap.
  assert (Ai : bytes_at m' (pos i) y)
    by (apply bytes_at_write_out; [apply bytes_at_write|lia]).
  assert (Aj : bytes_at m' (pos j) x) by apply bytes_at_write.
  assert (Ak : forall k, 1 <= k <= n -> k <> i -> k <> j -> bytes_at m' (pos k) (elem_at m k)).
  { intros k Hk Hki Hkj. destruct (He k Hk) as (Bk & Lk & _).
    pose proof (pos_apart k i Hki). pose proof (pos_apart k j Hkj). unfold apart in *.
    do 2 (apply bytes_at_write_out; [|lia]). done. }
  assert (Ei : elem_at m' i = y) by (by apply elem_at_eq).
  assert (Ej : elem_at m' j = x) by (by apply elem_at_eq).
  assert (Ek : forall k, 1 <= k <= n -> k <> i -> k <> j -> elem_at m' k = elem_at m k)
    by (intros k Hk ? ?; apply elem_at_eq; [by apply Ak|by apply He]).
  pose proof (Swap_spec m (pos i) (pos j) x y) as Sw. rewrite Li in Sw.
  exists m'. split; [apply Sw; try done; by rewrite Lj|].
  split; [|done]. constructor.
  - intros k Hk. destruct (decide (k = i)) as [->|Hki]; [by rewrite Ei|].
    destruct (decide (k = j)) as [->|Hkj]; [by rewrite Ej|].
    rewrite Ek by done. split; [by apply Ak|by apply He].
  - intros a Ha. unfold m'. rewrite !lookup_write_bytes_out; [by apply Ho|nia..].
Qed.

#[local] Instance mem_sort_array :
  SortArray Compare (Swap (Z.of_nat w)) (Z.of_nat w) base n mem_array elem_at cmp.
Proof using All.
  constructor; [lia|done| |intros; by apply mem_swap].
  intros m i j [He Ho] Hi Hj. destruct (He i Hi) as (Bi & Li & Oi), (He j Hj) as (Bj & Lj & Oj).
  by apply Compare_spec.
Qed.

Lemma qsort_array m : TotalCmp cmp -> mem_array m ->
  exists m', qsort m base n (Z.of_nat w) Compare = Done m' /\ mem_array m' /\
    Permutation (elems (n := n) (el := elem_at) m) (elems (n := n) (el := elem_at) m') /\
    forall i j, 1 <= i -> i <= j -> j <= n -> cmp (elem_at m' i) (elem_at m' j) <= 0.
Proof using All.
  intros TC Hm. destruct (QuickSort_spec (SA := mem_sort_array) (S (Z.to_nat (n + 1))) 1 n m)
    as (m' & E & W & Hs); [done|lia..| |].
  { intros i j. lia. }
  exists m'. split; [exact E|]. split; [apply W|]. split; [apply W|]. exact Hs.
Qed.

End Memory.

(** An array of elements of [w] bytes lies in memory element by element. *)
Lemma bytes_at_concat w m l : Forall (fun x => length x = w) l -> forall p,
  bytes_at m p (concat l) <->
  forall i x, l !! i = Some x -> bytes_at m (p + Z.of_nat i * Z.of_nat w) x.
Proof.
  induction 1 as [|x l Hx Hl IH]; intros p; cbn [concat].
  - split; [by intros _ []|]. intros _. apply bytes_at_nil.
  - rewrite bytes_at_app, Hx, IH. split.
    + intros [H1 H2] [|i] y; cbn; [intros [= <-]|intros Hy].
      * by replace (p + Z.of_nat 0 * Z.of_nat w) with p by lia.
      * specialize (H2 i y Hy).
        by replace (p + Z.of_nat (S i) * Z.of_nat w) with
          (p + Z.of_nat w + Z.of_nat i * Z.of_nat w) by lia.
    + intros H. split.
      * specialize (H 0%nat x eq_refl).
        by replace (p + Z.of_nat 0 * Z.of_nat w) with p in H by lia.
      * intros i y Hy. specialize (H (S i) y Hy).
        by replace (p + Z.of_nat (S i) * Z.of_nat w) with
          (p + Z.of_nat w + Z.of_nat i * Z.of_nat w) in H by lia.
Qed.

Lemma elems_lookup {S E} (el : S -> Z -> E) (num : nat) (s : S) i :
  elems (n := Z.of_nat num) (el := el) s !! i =
  if decide (i < num)%nat then Some (el s (Z.of_nat i + 1)) else None.
Proof.
  unfold elems. rewrite Nat2Z.id. rewrite (list_lookup_fmap _ (seq 1 num)). case_decide.
  - rewrite lookup_seq_lt by done. cbn. do 2 f_equal. lia.
  - by rewrite lookup_seq_ge by lia.
Qed.

(** C31. qsort sorts: for an array of [Num] elements of [Width] bytes, and a comparison
    that is a total preorder of their contents, it returns; the array then holds a
    permutation of its elements in ascending order, and no other byte of memory has
    changed. [Width] is anything but 4. *)
Theorem qsort_correct (m : gmap Z Z) base (w : nat) l cmp Compare :
  TotalCmp cmp -> (0 < w)%nat -> w <> 4%nat -> Z.of_nat w < 2 ^ 31 ->
  Z.of_nat (length l) * Z.of_nat w < 2 ^ 62 ->
  Forall (fun x => length x = w /\ bytes_ok x) l -> bytes_at m base (concat l) ->
  (forall m a b x y, bytes_at m a x -> bytes_at m b y -> length x = w -> length y = w ->
     Compare m a b = Done (cmp x y)) ->
  exists m' l', qsort m base (Z.of_nat (length l)) (Z.of_nat w) Compare = Done m' /\
    Permutation l l' /\
    (forall i j x y, l' !! i = Some x -> l' !! j = Some y -> (i <= j)%nat -> cmp x y <= 0) /\
    bytes_at m' base (concat l') /\
    (forall a, a < base \/ base + Z.of_nat (length l) * Z.of_nat w <= a -> m' !! a = m !! a).
Proof.
  intros TC Hw H4 Hi Hsz Hl Hm Hc. set (n := Z.of_nat (length l)) in *.
  assert (Hlen : Forall (fun x => length x = w) l) by (eapply List.Forall_impl; [|exact Hl]; by intros x []).
  rewrite (bytes_at_concat w) in Hm by done.
  assert (Hel : forall i x, l !! i = Some x -> elem_at base w m (Z.of_nat i + 1) = x /\
    bytes_at m (base + (Z.of_nat i + 1 - 1) * Z.of_nat w) x /\ length x = w /\ bytes_ok x).
  { intros i x Hx. specialize (Hm i x Hx). rewrite Z.add_simpl_r.
    pose proof (proj1 (list.Forall_lookup _ _) Hl i x Hx) as [Lx Ox]. split; [|done].
    apply elem_at_eq; [by rewrite Z.add_simpl_r|done]. }
  assert (Hma : mem_array base n w m m).
  { constructor; [|done]. intros i Hi'.
    destruct (lookup_lt_is_Some_2 l (Z.to_nat (i - 1))) as [x Hx]; [unfold n in *; lia|].
    destruct (Hel _ _ Hx) as (E & B & L & O).
    replace (Z.of_nat (Z.to_nat (i - 1)) + 1) with i in * by lia. by rewrite E. }
  destruct (qsort_array base n w m cmp Compare Hw Hi H4 ltac:(unfold n; lia) Hc m TC Hma)
    as (m' & E & [He Ho] & P & Hs).
  exists m', (elems (n := n) (el := elem_at base w) m'). split; [exact E|].
  assert (E0 : elems (n := n) (el := elem_at base w) m = l).
  { apply list_eq. intros i. unfold n. rewrite elems_lookup. case_decide as Hd.
    - destruct (lookup_lt_is_Some_2 l i Hd) as [x Hx]. rewrite Hx. f_equal. by apply Hel.
    - symmetry. apply lookup_ge_None. lia. }
  rewrite E0 in P. split; [done|]. split; [|split; [|done]].
  - intros i j x y. unfold n. rewrite !elems_lookup.
    repeat case_decide; try done. intros [= <-] [= <-] Hij. apply Hs; unfold n; lia.
  - apply (bytes_at_concat w).
    + apply list.Forall_lookup. intros i x. unfold n. rewrite elems_lookup. case_decide; [|done].
      intros [= <-]. apply He. unfold n. lia.
    + intros i x. unfold n. rewrite elems_lookup. case_decide; [|done]. intros [= <-].
      destruct (He (Z.of_nat i + 1)) as (B & _); [unfold n; lia|]. by rewrite Z.add_simpl_r in B.
Qed.

(** For elements of 4 bytes Swap uses [long], which has 8 bytes on the 64-bit side.
    An exchange of two neighbours [x] and [y] overwrites the element after them: it
    is lost, and [y] is there twice. *)
Theorem swap_width4_corrupts m e x y z :
  length x = 4%nat -> length y = 4%nat -> length z = 4%nat ->
  bytes_ok x -> bytes_ok y -> bytes_ok z -> bytes_at m e (x ++ y ++ z) ->
  exists m', Swap 4 m e (e + 4) = Done m' /\ bytes_at m' e (y ++ x ++ y).
Proof.
  intros Lx Ly Lz Hx Hy Hz Hm. unfold Swap. change (wrap_s 32 4) with 4.
  change sizeof_long with 8%nat.
  assert (H1 : bytes_at m e (x ++ y))
    by (rewrite app_assoc in Hm; by apply bytes_at_app in Hm as [? _]).
  assert (H2 : bytes_at m (e + 4) (y ++ z)).
  { apply bytes_at_app in Hm as [_ Hm]. by rewrite Lx in Hm. }
  replace 8%nat with (length (x ++ y)) by (rewrite length_app; lia).
  rewrite (swap_scalar_spec _ _ _ (x ++ y) (y ++ z)); [|rewrite !length_app; lia|
    by apply bytes_ok_app|by apply bytes_ok_app|done|done].
  eexists. split; [reflexivity|]. apply bytes_at_app. rewrite Ly. split.
  - apply bytes_at_write_out; [|lia]. pose proof (bytes_at_write m e (y ++ z)) as H.
    by apply bytes_at_app in H as [? _].
  - apply bytes_at_write.
Qed.

(** ** Concrete arrays *)

(** Elements compared by their first byte *)
Definition first_byte (x y : list Z) : Z := hd 0 x - hd 0 y.

Definition cmp_first (m : gmap Z Z) (a b : Z) : outcome Z :=
  x ← load m a; y ← load m b; Done (x - y).

#[export] Instance first_byte_total : TotalCmp first_byte.
Proof. split; unfold first_byte; intros; lia. Qed.

Lemma cmp_first_spec m a b x y : bytes_at m a x -> bytes_at m b y ->
  length x = 2%nat -> length y = 2%nat -> cmp_first m a b = Done (first_byte x y).
Proof.
  intros Hx Hy Lx Ly. destruct x as [|x0 x]; [done|]. destruct y as [|y0 y]; [done|].
  apply bytes_at_cons in Hx as [Hx _], Hy as [Hy _]. unfold cmp_first.
  by rewrite (load_Some _ _ _ Hx), bind_Done, (load_Some _ _ _ Hy), bind_Done.
Qed.

Definition sample : list (list Z) :=
  map (fun b => [b; 0]) [9; 4; 200; 4; 7; 1; 0; 4; 33; 12; 4; 8; 7; 5].

Lemma qsort_correct_witness :
  exists m' l', qsort (mem_of 100 (concat sample)) 100 14 2 cmp_first = Done m' /\
    Permutation sample l' /\
    (forall i j x y, l' !! i = Some x -> l' !! j = Some y -> (i <= j)%nat ->
       first_byte x y <= 0) /\
    bytes_at m' 100 (concat l').
Proof.
  destruct (qsort_correct (mem_of 100 (concat sample)) 100 2 sample first_byte cmp_first)
    as (m' & l' & E & P & Hs & B & _).
  - apply _.
  - lia.
  - lia.
  - lia.
  - vm_compute. reflexivity.
  - repeat constructor; lia.
  - apply bytes_at_b_iff. vm_compute. reflexivity.
  - exact cmp_first_spec.
  - exists m', l'. split; [exact E|]. split; [exact P|]. split; [exact Hs|exact B].
Defined.

Lemma swap_width4_corrupts_witness :
  exists m', Swap 4 (mem_of 100 [3; 0; 0; 0; 2; 0; 0; 0; 1; 0; 0; 0]) 100 104 = Done m' /\
    bytes_at m' 100 [2; 0; 0; 0; 3; 0; 0; 0; 2; 0; 0; 0].
Proof.
  apply (swap_width4_corrupts _ 100 [3; 0; 0; 0] [2; 0; 0; 0] [1; 0; 0; 0]);
    [done..|repeat constructor; lia|repeat constructor; lia|repeat constructor; lia|].
  apply bytes_at_b_iff. vm_compute. reflexivity.
Defined.
