(* ===== verification/Calendar.v ===== *)
(** * Broken-down time (src/src/libc/ansi/time/ctime.c)

    leaps_thru_end_of, timesub, gmtsub, gmtime, increment_overflow and
    normalize_overflow, against the Gregorian calendar. [time_t] is an unsigned
    32-bit integer here, and SECSPERDAY a [long]. *)

From stdpp Require Import base gmap list numbers.
From Stdlib Require Import ZArith Lia.
From S2P Require Import Prelude.

Open Scope Z_scope.
Open Scope c_scope.

Definition SECSPERMIN : Z := 60.
Definition MINSPERHOUR : Z := 60.
Definition HOURSPERDAY : Z := 24.
Definition DAYSPERWEEK : Z := 7.
Definition DAYSPERNYEAR : Z := 365.
Definition DAYSPERLYEAR : Z := 366.
Definition SECSPERHOUR : Z := 3600.
Definition SECSPERDAY : Z := 86400.
Definition MONSPERYEAR : Z := 12.
Definition TM_YEAR_BASE : Z := 1900.
Definition EPOCH_YEAR : Z := 1970.
Definition EPOCH_WDAY : Z := 4.
Definition INT_MAX : Z := 2 ^ 31 - 1.
Definition INT_MIN : Z := - 2 ^ 31.

Definition isleap (y : Z) : bool :=
  ((Z.rem y 4 =? 0) && negb (Z.rem y 100 =? 0)) || (Z.rem y 400 =? 0).

Definition year_lengths (leap : bool) : Z := if leap then DAYSPERLYEAR else DAYSPERNYEAR.

Definition mon_lengths (leap : bool) : list Z :=
  [31; if leap then 29 else 28; 31; 30; 31; 30; 31; 31; 30; 31; 30; 31].

(** The abbreviations a [tm_zone] may point to: wildabbr, or an index of [chars]. *)
Inductive zone := ZWild | ZChars (i : Z).

(** struct tm *)
Record tm := mk_tm {
  tm_sec : Z; tm_min : Z; tm_hour : Z; tm_mday : Z; tm_mon : Z; tm_year : Z;
  tm_wday : Z; tm_yday : Z; tm_isdst : Z; tm_gmtoff : Z; tm_zone : zone }.

Definition set_year (t : tm) (y : Z) : tm :=
  mk_tm (tm_sec t) (tm_min t) (tm_hour t) (tm_mday t) (tm_mon t) y (tm_wday t) (tm_yday t)
    (tm_isdst t) (tm_gmtoff t) (tm_zone t).

Definition set_zone (t : tm) (z : zone) : tm :=
  mk_tm (tm_sec t) (tm_min t) (tm_hour t) (tm_mday t) (tm_mon t) (tm_year t) (tm_wday t)
    (tm_yday t) (tm_isdst t) (tm_gmtoff t) z.

(** The new value of [*ip], and whether the sum overflows. *)
Definition increment_overflow (i j : Z) : Z * bool :=
  if (if 0 <=? i then INT_MAX - i <? j else j <? INT_MIN - i) then (i, true)
  else (i + j, false).

(** [*tensptr], [*unitsptr], overflow *)
Definition normalize_overflow (tens units base : Z) : Z * Z * bool :=
  let tensdelta :=
    if 0 <=? units then Z.quot units base else -1 - Z.quot (-1 - units) base in
  let units := units - tensdelta * base in
  let '(tens, over) := increment_overflow tens tensdelta in
  (tens, units, over).

Definition leaps_pos (y : Z) : Z := Z.quot y 4 - Z.quot y 100 + Z.quot y 400.

Definition leaps_thru_end_of (y : Z) : Z :=
  if 0 <=? y then leaps_pos y else - (leaps_pos (- (y + 1)) + 1).

(** ** Leap seconds *)

(** struct lsinfo *)
Record lsinfo := mk_ls { ls_trans : Z; ls_corr : Z }.

Definition lsi_at (lsis : list lsinfo) (i : Z) : outcome lsinfo :=
  if i <? 0 then Fail UB
  else match lsis !! Z.to_nat i with Some l => Done l | None => Fail UB end.

(** The inner loop, with [i] and [hit]. *)
Definition count_hits (lsis : list lsinfo) (i : Z) : outcome Z :=
  loop (S (Z.to_nat i)) (fun '(i, hit) =>
    if 0 <? i then
      a ← lsi_at lsis i;
      b ← lsi_at lsis (i - 1);
      if (ls_trans a =? wrap_u 32 (ls_trans b + 1)) && (ls_corr a =? ls_corr b + 1)
      then Done (inl (i - 1, hit + 1)) else Done (inr hit)
    else Done (inr hit)) (i, 1).

(** [corr] and [hit]. For [i = 0] the element before the first may be read. *)
Definition leap_scan (lsis : list lsinfo) (t : Z) : outcome (Z * Z) :=
  loop (S (length lsis)) (fun i =>
    let i := i - 1 in
    if -1 <? i then
      lp ← lsi_at lsis i;
      if ls_trans lp <=? t then
        if t =? ls_trans lp then
          hit ← (if (i =? 0) && (0 <? ls_corr lp) then Done true
                 else b ← lsi_at lsis (i - 1); Done (ls_corr b <? ls_corr lp));
          n ← (if hit : bool then count_hits lsis i else Done 0);
          Done (inr (ls_corr lp, n))
        else Done (inr (ls_corr lp, 0))
      else Done (inl i)
    else Done (inr (0, 0))) (Z.of_nat (length lsis)).

(** ** timesub *)

(** An integer converted to [float]: 24 significant bits, to nearest, ties to even. *)
Definition round24 (n : Z) : Z :=
  let e := Z.max 0 (Z.log2 n - 23) in
  let q := n / 2 ^ e in
  let r := n mod 2 ^ e in
  (if (2 ^ e <? 2 * r) || ((2 * r =? 2 ^ e) && Z.odd q && (0 <? e)) then q + 1 else q) * 2 ^ e.

(** [(int)(x + 0.5f)] for an integer [x] from 0 on, counted in halves *)
Definition float_plus_half (x : Z) : Z := round24 (2 * round24 x + 1) / 2.

(** The first loop: the year, and the days since its beginning. [None] is NULL. *)
Definition year_loop (tdays : Z) : outcome (option (Z * Z)) :=
  loop (S (Z.to_nat tdays)) (fun '(y, tdays) =>
    if year_lengths (isleap y) <=? tdays then
      let tdelta := Z.quot tdays DAYSPERLYEAR in
      let idelta := wrap_s 32 tdelta in
      if (1 <=? wrap_u 32 (tdelta - idelta)) || (1 <=? wrap_u 32 (idelta - tdelta)) then
        Done (inr None)
      else
        let idelta := if idelta =? 0 then 1 else idelta in
        let '(newy, over) := increment_overflow y idelta in
        if over : bool then Done (inr None)
        else
          let leapdays := leaps_thru_end_of (newy - 1) - leaps_thru_end_of (y - 1) in
          let tdays := wrap_u 32 (tdays - wrap_u 32 ((newy - y) * DAYSPERNYEAR)) in
          let tdays := wrap_u 32 (tdays - leapdays) in
          Done (inl (newy, tdays))
    else Done (inr (Some (y, tdays)))) (EPOCH_YEAR, tdays).

(** The two loops that bring [rem] into a day. *)
Definition rem_loops (rem idays : Z) : outcome (Z * Z) :=
  '(rem, idays) ← loop (S (S (Z.to_nat (Z.abs rem / SECSPERDAY)))) (fun '(rem, idays) =>
      if rem <? 0 then Done (inl (rem + SECSPERDAY, idays - 1)) else Done (inr (rem, idays)))
    (rem, idays);
  loop (S (S (Z.to_nat (Z.abs rem / SECSPERDAY)))) (fun '(rem, idays) =>
      if SECSPERDAY <=? rem then Done (inl (rem - SECSPERDAY, idays + 1))
      else Done (inr (rem, idays)))
    (rem, idays).

(** The two loops that bring [idays] into the year [y]. *)
Definition day_loops (y idays : Z) : outcome (option (Z * Z)) :=
  r ← loop (S (Z.to_nat (- idays))) (fun '(y, idays) =>
      if idays <? 0 then
        let '(y, over) := increment_overflow y (-1) in
        if over : bool then Done (inr None)
        else Done (inl (y, idays + year_lengths (isleap y)))
      else Done (inr (Some (y, idays))))
    (y, idays);
  match r with
  | None => Done None
  | Some (y, idays) =>
      loop (S (Z.to_nat idays)) (fun '(y, idays) =>
        if year_lengths (isleap y) <=? idays then
          let idays := idays - year_lengths (isleap y) in
          let '(y, over) := increment_overflow y 1 in
          if over : bool then Done (inr None) else Done (inl (y, idays))
        else Done (inr (Some (y, idays)))) (y, idays)
  end.

Definition wday_of (y idays : Z) : Z :=
  let d := EPOCH_WDAY + Z.rem (y - EPOCH_YEAR) DAYSPERWEEK * (Z.rem DAYSPERNYEAR DAYSPERWEEK) +
           leaps_thru_end_of (y - 1) - leaps_thru_end_of (EPOCH_YEAR - 1) + idays in
  let d := Z.rem d DAYSPERWEEK in
  if d <? 0 then d + DAYSPERWEEK else d.

(** [for (tm_mon = 0; idays >= ip[tm_mon]; ++tm_mon) idays -= ip[tm_mon]]: the
    month and the day in it, from 0 *)
Fixpoint mon_loop (ip : list Z) (mon idays : Z) : outcome (Z * Z) :=
  match ip with
  | [] => Fail UB
  | len :: ip' => if len <=? idays then mon_loop ip' (mon + 1) (idays - len)
                  else Done (mon, idays)
  end.

(** The fields from [y], [idays] and [rem] on; the [bool] is a result that is not
    NULL. *)
Definition fill_tm (tmp : tm) (y idays rem hit offset : Z) : outcome (tm * bool) :=
  let '(year, over) := increment_overflow y (- TM_YEAR_BASE) in
  if over : bool then Done (set_year tmp year, false)
  else
    let hour := Z.quot rem SECSPERHOUR in
    let r := Z.rem rem SECSPERHOUR in
    '(mon, mday) ← mon_loop (mon_lengths (isleap y)) 0 idays;
    Done (mk_tm (Z.rem r SECSPERMIN + hit) (Z.quot r SECSPERMIN) hour (mday + 1) mon year
            (wday_of y idays) idays 0 offset (tm_zone tmp), true).

Definition timesub (timep offset : Z) (lsis : list lsinfo) (tmp : tm) : outcome (tm * bool) :=
  '(corr, hit) ← leap_scan lsis timep;
  let tdays := Z.quot timep SECSPERDAY in
  let rem := timep - tdays * SECSPERDAY in
  r ← year_loop tdays;
  match r with
  | None => Done (tmp, false)
  | Some (y, tdays) =>
      let seconds := float_plus_half (tdays * SECSPERDAY) in
      let tdays := Z.quot seconds SECSPERDAY in
      let rem := rem + (seconds - tdays * SECSPERDAY) in
      '(rem, idays) ← rem_loops (rem + (offset - corr)) tdays;
      r ← day_loops y idays;
      match r with
      | None => Done (tmp, false)
      | Some (y, idays) => fill_tm tmp y idays rem hit offset
      end
  end.

(** gmtsub from the call of timesub on: [gmtptr] has been loaded, and [lsis] are its leap
    seconds. The test of [gmt_is_set] and the load before it are in
    [TzLoad.gmtsub_load], which is the whole function. *)
Definition gmtsub (lsis : list lsinfo) (timep offset : Z) (tmp : tm) : outcome (tm * bool) :=
  '(tmp, ok) ← timesub timep offset lsis tmp;
  Done (set_zone tmp (if negb (offset =? 0) then ZWild else ZChars 0), ok).

Definition gmtime_r (lsis : list lsinfo) (timep : Z) (t : tm) : outcome (tm * bool) :=
  gmtsub lsis timep 0 t.

Definition tm_zero : tm := mk_tm 0 0 0 0 0 0 0 0 0 0 ZWild.

(** [static struct tm tm] starts as zeros. *)
Definition gmtime (lsis : list lsinfo) (timep : Z) : outcome (tm * bool) :=
  gmtime_r lsis timep tm_zero.

(** ** The Gregorian calendar *)

(** Days from 1 January 1970 to 1 January of the year [y] *)
Definition days_before (y : Z) : Z :=
  365 * (y - 1970) + ((y - 1) / 4 - (y - 1) / 100 + (y - 1) / 400) - 477.

(** Days of the year before the month [mon], counted from 0 *)
Definition month_start (leap : bool) (mon : Z) : Z :=
  foldr Z.add 0 (take (Z.to_nat mon) (mon_lengths leap)).

(** The day of a broken-down time, and its second, both from the epoch *)
Definition days_of (t : tm) : Z :=
  let y := TM_YEAR_BASE + tm_year t in
  days_before y + month_start (isleap y) (tm_mon t) + tm_mday t - 1.

Definition seconds_of (t : tm) : Z :=
  days_of t * 86400 + tm_hour t * 3600 + tm_min t * 60 + tm_sec t.

(** A date and time of the calendar, with its day of the week and of the year *)
Record valid_tm (t : tm) : Prop := {
  va_sec : 0 <= tm_sec t < 60;
  va_min : 0 <= tm_min t < 60;
  va_hour : 0 <= tm_hour t < 24;
  va_mon : 0 <= tm_mon t < 12;
  va_mday : exists len, mon_lengths (isleap (TM_YEAR_BASE + tm_year t)) !! Z.to_nat (tm_mon t) =
    Some len /\ 1 <= tm_mday t <= len;
  va_wday : tm_wday t = (days_of t + 4) mod 7;
  va_yday : tm_yday t = days_of t - days_before (TM_YEAR_BASE + tm_year t) }.

Ltac divs := Z.to_euclidean_division_equations; lia.

Lemma isleap_spec y :
  isleap y = true <-> (y mod 4 = 0 /\ y mod 100 <> 0) \/ y mod 400 = 0.
Proof.
  unfold isleap. rewrite orb_true_iff, andb_true_iff, negb_true_iff, !Z.eqb_eq, Z.eqb_neq.
  rewrite !Z.rem_divide, <- !Z.mod_divide by lia. done.
Qed.

Lemma leaps_floor y : leaps_thru_end_of y = y / 4 - y / 100 + y / 400.
Proof.
  unfold leaps_thru_end_of, leaps_pos. destruct (Z.leb_spec 0 y).
  - by rewrite !Z.quot_div_nonneg by lia.
  - divs.
Qed.

Lemma leaps_S y : leaps_thru_end_of y = leaps_thru_end_of (y - 1) + (if isleap y then 1 else 0).
Proof.
  rewrite !leaps_floor. pose proof (isleap_spec y) as H.
  destruct (isleap y).
  - destruct (proj1 H eq_refl) as [[H1 H2]|H1]; divs.
  - assert (~ ((y mod 4 = 0 /\ y mod 100 <> 0) \/ y mod 400 = 0)) by (intros ?%H; done). divs.
Qed.

(** The calendar year by year: the length of each year. *)
Lemma days_before_1970 : days_before 1970 = 0.
Proof. reflexivity. Qed.

Lemma days_before_leaps y : days_before y =
  365 * (y - 1970) + (leaps_thru_end_of (y - 1) - leaps_thru_end_of 1969).
Proof. unfold days_before. rewrite leaps_floor. change (leaps_thru_end_of 1969) with 477. lia. Qed.

Lemma days_before_S y : days_before (y + 1) = days_before y + year_lengths (isleap y).
Proof.
  rewrite !days_before_leaps, Z.add_simpl_r, (leaps_S y).
  unfold year_lengths, DAYSPERLYEAR, DAYSPERNYEAR. destruct (isleap y); lia.
Qed.

Lemma leaps_step y k : 0 <= k -> 0 <= leaps_thru_end_of (y + k) - leaps_thru_end_of y <= k.
Proof.
  revert k. apply natlike_ind; [by rewrite Z.add_0_r; lia|]. intros k Hk IH.
  rewrite (leaps_S (y + Z.succ k)). replace (y + Z.succ k - 1) with (y + k) by lia.
  destruct (isleap _); lia.
Qed.

Lemma days_before_mono y k : 0 <= k ->
  days_before y + 365 * k <= days_before (y + k) <= days_before y + 366 * k.
Proof.
  intros Hk. rewrite !days_before_leaps.
  pose proof (leaps_step (y - 1) k Hk). replace (y + k - 1) with (y - 1 + k) by lia. lia.
Qed.

Lemma year_length_bounds b : 365 <= year_lengths b <= 366.
Proof. destruct b; unfold year_lengths, DAYSPERLYEAR, DAYSPERNYEAR; lia. Qed.

(** ** timesub *)

Lemma increment_ok i j : INT_MIN <= i + j <= INT_MAX -> increment_overflow i j = (i + j, false).
Proof.
  intros H. unfold increment_overflow. destruct (Z.leb_spec 0 i).
  - by rewrite (proj2 (Z.ltb_ge _ _)) by lia.
  - by rewrite (proj2 (Z.ltb_ge _ _)) by lia.
Qed.

(** One round of the first loop. *)
Lemma year_skip y d k :
  year_lengths (isleap y) <= d -> k = (if Z.quot d 366 =? 0 then 1 else Z.quot d 366) ->
  1 <= k /\ k <= d /\
  days_before (y + k) - days_before y =
    365 * k + (leaps_thru_end_of (y + k - 1) - leaps_thru_end_of (y - 1)) /\
  0 <= leaps_thru_end_of (y + k - 1) - leaps_thru_end_of (y - 1) <= k /\
  days_before (y + k) - days_before y <= d.
Proof.
  intros Hd Hk. pose proof (year_length_bounds (isleap y)).
  assert (Hk1 : 1 <= k) by (subst k; destruct (Z.eqb_spec (Z.quot d 366) 0); divs).
  assert (E : days_before (y + k) - days_before y =
    365 * k + (leaps_thru_end_of (y + k - 1) - leaps_thru_end_of (y - 1)))
    by (rewrite !days_before_leaps; lia).
  pose proof (leaps_step (y - 1) k ltac:(lia)) as Hl.
  replace (y - 1 + k) with (y + k - 1) in Hl by lia.
  split_and!; [done| |done|lia|lia|].
  - subst k. destruct (Z.eqb_spec (Z.quot d 366) 0); divs.
  - destruct (Z.eqb_spec (Z.quot d 366) 0) as [Hz|Hz].
    + subst k. rewrite days_before_S. lia.
    + rewrite E. subst k. divs.
Qed.

Lemma year_loop_spec d : 0 <= d < 2 ^ 20 -> exists r, year_loop d = Done r /\
  exists y d', r = Some (y, d') /\ days_before y + d' = d /\ 0 <= d' /\
    d' < year_lengths (isleap y) /\ 1970 <= y /\ y <= 1970 + d.
Proof.
  intros Hd.
  apply (loop_total (fun '(y, x) => days_before y + x = d /\ 0 <= x /\ 1970 <= y)
    (fun r => exists y d', r = Some (y, d') /\ days_before y + d' = d /\ 0 <= d' /\
      d' < year_lengths (isleap y) /\ 1970 <= y /\ y <= 1970 + d)
    (fun '(_, x) => Z.to_nat x)); [|unfold EPOCH_YEAR; rewrite days_before_1970; lia|lia].
  intros [y x] (E & Hx & Hy).
  assert (Hyb : y - 1970 <= d).
  { pose proof (days_before_mono 1970 (y - 1970) ltac:(lia)) as M.
    replace (1970 + (y - 1970)) with y in M by lia. rewrite days_before_1970 in M. lia. }
  destruct (Z.leb_spec (year_lengths (isleap y)) x) as [Hge|Hlt].
  - assert (Hq : 0 <= Z.quot x DAYSPERLYEAR <= x) by (unfold DAYSPERLYEAR; divs).
    assert (x <= d).
    { pose proof (days_before_mono 1970 (y - 1970) ltac:(lia)) as M.
      replace (1970 + (y - 1970)) with y in M by lia. rewrite days_before_1970 in M. lia. }
    cbv zeta. rewrite (wrap_s_small 32 (Z.quot x DAYSPERLYEAR)) by lia.
    rewrite Z.sub_diag. change (wrap_u 32 0) with 0. cbn [orb].
    change (1 <=? 0) with false. cbn [orb].
    set (k := if Z.quot x DAYSPERLYEAR =? 0 then 1 else Z.quot x DAYSPERLYEAR).
    destruct (year_skip y x k Hge eq_refl) as (K1 & K2 & E2 & L & Hle).
    rewrite increment_ok by (unfold INT_MIN, INT_MAX; lia).
    set (ld := leaps_thru_end_of (y + k - 1) - leaps_thru_end_of (y - 1)) in *.
    replace (y + k - y) with k by lia. unfold DAYSPERNYEAR.
    rewrite (wrap_u_small 32 (k * 365)) by lia.
    rewrite (wrap_u_small 32 (x - k * 365)) by lia. rewrite wrap_u_small by lia.
    split_and!; lia.
  - exists y, x. split_and!; [done|lia..].
Qed.

(** Every number of days in a year survives the excursion to [float]. *)
Lemma float_exact d : 0 <= d < 366 -> float_plus_half (d * SECSPERDAY) = d * SECSPERDAY.
Proof.
  intros Hd.
  assert (H : forallb (fun k => float_plus_half (Z.of_nat k * SECSPERDAY) =?
    Z.of_nat k * SECSPERDAY) (seq 0 366) = true) by (vm_compute; reflexivity).
  rewrite forallb_forall in H. specialize (H (Z.to_nat d)).
  rewrite Z2Nat.id in H by lia. apply Z.eqb_eq, H, in_seq. lia.
Qed.

Lemma rem_loops_spec rem i : exists p, rem_loops rem i = Done p /\
  0 <= p.1 < SECSPERDAY /\ p.1 + p.2 * SECSPERDAY = rem + i * SECSPERDAY.
Proof.
  unfold rem_loops, SECSPERDAY.
  destruct (loop_total (fun '(r, j) => r + j * 86400 = rem + i * 86400 /\
      (rem < 0 -> r < 86400) /\ (0 <= rem -> r = rem))
    (fun '(r, j) => r + j * 86400 = rem + i * 86400 /\ 0 <= r /\ (rem < 0 -> r < 86400) /\
      (0 <= rem -> r = rem))
    (fun '(r, _) => Z.to_nat ((- r + 86399) / 86400))
    (fun '(rem, idays) => if rem <? 0 then Done (inl (rem + 86400, idays - 1))
      else Done (inr (rem, idays)))) with (fuel := S (S (Z.to_nat (Z.abs rem / 86400)))) (s := (rem, i))
    as ([r j] & -> & E1 & R1 & R2 & R3).
  - intros [r j] (E & H1 & H2). destruct (Z.ltb_spec r 0); [|split_and!; lia].
    split; [lia|]. divs.
  - split_and!; lia.
  - divs.
  - rewrite bind_Done.
    destruct (loop_total (fun '(r', j') => r' + j' * 86400 = rem + i * 86400 /\ 0 <= r')
      (fun '(r', j') => r' + j' * 86400 = rem + i * 86400 /\ 0 <= r' < 86400)
      (fun '(r', _) => Z.to_nat (r' / 86400))
      (fun '(rem, idays) => if 86400 <=? rem then Done (inl (rem - 86400, idays + 1))
        else Done (inr (rem, idays)))) with (fuel := S (S (Z.to_nat (Z.abs r / 86400)))) (s := (r, j))
      as ([r2 j2] & -> & E2 & R4).
    + intros [r' j'] (E & H1). destruct (Z.leb_spec 86400 r'); [|split_and!; lia].
      split; [lia|]. divs.
    + lia.
    + divs.
    + exists (r2, j2). cbn. split_and!; [done|lia..].
Qed.

Lemma day_loops_spec y i : - 2 ^ 20 < y < 2 ^ 20 -> - 2 ^ 20 < i < 2 ^ 20 ->
  exists r, day_loops y i = Done r /\
  exists y' i', r = Some (y', i') /\ days_before y' + i' = days_before y + i /\
    0 <= i' < year_lengths (isleap y') /\ - 2 ^ 22 < y' < 2 ^ 22.
Proof.
  intros Hy Hi. unfold day_loops. pose proof (fun b => year_length_bounds b) as Hb.
  destruct (loop_total (fun '(a, x) => days_before a + x = days_before y + i /\
      y - a <= x - i /\ a <= y /\ (x < 366 \/ x <= i))
    (fun r => exists a x, r = Some (a, x) /\ days_before a + x = days_before y + i /\ 0 <= x /\
      y - a <= x - i /\ a <= y /\ (x < 366 \/ x <= i)) (fun '(_, x) => Z.to_nat (- x))
    (fun '(y, idays) =>
      if idays <? 0 then
        let '(y, over) := increment_overflow y (-1) in
        if over : bool then Done (inr None)
        else Done (inl (y, idays + year_lengths (isleap y)))
      else Done (inr (Some (y, idays))))) with (fuel := S (Z.to_nat (- i))) (s := (y, i))
    as (r & -> & a & x & -> & E & Hx & Hax & Hay & Hx2).
  - intros [a x] (E & H1 & H2 & H3). destruct (Z.ltb_spec x 0).
    + rewrite increment_ok by (unfold INT_MIN, INT_MAX; lia).
      pose proof (days_before_S (a + -1)) as Ds. replace (a + -1 + 1) with a in Ds by lia.
      specialize (Hb (isleap (a + -1))). split_and!; lia.
    + exists a, x. split_and!; [done|lia..].
  - split_and!; lia.
  - lia.
  - rewrite bind_Done.
    apply (loop_total (fun '(b, z) => days_before b + z = days_before y + i /\ 0 <= z /\
        a <= b /\ b - a <= x - z)
      (fun r => exists y' i', r = Some (y', i') /\ days_before y' + i' = days_before y + i /\
        0 <= i' < year_lengths (isleap y') /\ - 2 ^ 22 < y' < 2 ^ 22)
      (fun '(_, z) => Z.to_nat z)); [|split_and!; lia|lia].
    intros [b z] (E2 & Hz & H1 & H2). specialize (Hb (isleap b)).
    destruct (Z.leb_spec (year_lengths (isleap b)) z).
    + cbv zeta. rewrite increment_ok by (unfold INT_MIN, INT_MAX; lia).
      rewrite days_before_S. split_and!; lia.
    + exists b, z. split_and!; [done|lia..].
Qed.

Lemma mon_loop_spec ip : forall m d, 0 <= d < foldr Z.add 0 ip ->
  exists k len, mon_loop ip m d = Done (m + Z.of_nat k, d - foldr Z.add 0 (take k ip)) /\
    ip !! k = Some len /\ 0 <= d - foldr Z.add 0 (take k ip) < len.
Proof.
  induction ip as [|l ip IH]; cbn [foldr mon_loop]; intros m d Hd; [lia|].
  destruct (Z.leb_spec l d).
  - destruct (IH (m + 1) (d - l)) as (k & len & -> & Hk & Hr); [lia|].
    exists (S k), len. cbn [take foldr]. split; [|split; [done|lia]]. do 2 f_equal; lia.
  - exists O, l. cbn [take foldr]. split; [|split; [done|lia]]. do 2 f_equal; lia.
Qed.

Lemma mon_lengths_total leap : foldr Z.add 0 (mon_lengths leap) = year_lengths leap.
Proof. by destruct leap. Qed.

Lemma wday_spec y i : 0 <= i -> wday_of y i = (days_before y + i + 4) mod 7.
Proof.
  intros Hi. unfold wday_of, EPOCH_WDAY, EPOCH_YEAR, DAYSPERWEEK, DAYSPERNYEAR.
  change (Z.rem 365 7) with 1. rewrite days_before_leaps. change (1970 - 1) with 1969.
  generalize (leaps_thru_end_of (y - 1)) as a, (leaps_thru_end_of 1969) as b. intros a b.
  set (d := 4 + _ + _ - _ + _). assert (E : (if Z.rem d 7 <? 0 then Z.rem d 7 + 7 else Z.rem d 7) = d mod 7)
    by (destruct (Z.ltb_spec (Z.rem d 7) 0); divs).
  rewrite E. unfold d.
  assert (Er : exists q, y - 1970 = 7 * q + Z.rem (y - 1970) 7)
    by (exists (Z.quot (y - 1970) 7); apply Z.quot_rem; lia).
  destruct Er as [q Er].
  replace (365 * (y - 1970) + (a - b) + i + 4)
    with (4 + Z.rem (y - 1970) 7 * 1 + a - b + i + (52 * (y - 1970) + q) * 7) by lia.
  by rewrite Z.mod_add by lia.
Qed.

Lemma fill_tm_spec tmp y i rem offset :
  - 2 ^ 22 < y < 2 ^ 22 -> 0 <= i < year_lengths (isleap y) -> 0 <= rem < SECSPERDAY ->
  exists t, fill_tm tmp y i rem 0 offset = Done (t, true) /\ valid_tm t /\
    tm_year t = y - 1900 /\ days_of t = days_before y + i /\
    seconds_of t = (days_before y + i) * 86400 + rem /\
    tm_isdst t = 0 /\ tm_gmtoff t = offset /\ tm_zone t = tm_zone tmp.
Proof.
  intros Hy Hi Hr. unfold fill_tm, SECSPERDAY in *. rewrite increment_ok
    by (unfold INT_MIN, INT_MAX, TM_YEAR_BASE; lia).
  destruct (mon_loop_spec (mon_lengths (isleap y)) 0 i) as (k & len & -> & Hk & Hd);
    [by rewrite mon_lengths_total|]. rewrite bind_Done, Z.add_0_l.
  assert (Hk12 : (k < 12)%nat) by (by apply lookup_lt_Some in Hk).
  eexists. split; [reflexivity|].
  assert (Ey : TM_YEAR_BASE + (y + - TM_YEAR_BASE) = y) by lia.
  match goal with |- valid_tm ?t0 /\ _ => set (t := t0) end.
  assert (Ed : days_of t = days_before y + i).
  { unfold days_of, month_start. cbn [t tm_year tm_mon tm_mday]. rewrite Ey, Nat2Z.id. lia. }
  assert (Et : 0 <= Z.quot rem 3600 < 24 /\ 0 <= Z.quot (Z.rem rem 3600) 60 < 60 /\
    0 <= Z.rem (Z.rem rem 3600) 60 < 60 /\
    rem = Z.quot rem 3600 * 3600 + Z.quot (Z.rem rem 3600) 60 * 60 + Z.rem (Z.rem rem 3600) 60)
    by divs.
  split_and!; [|cbn; unfold TM_YEAR_BASE; lia|done| |done|done|done].
  - constructor; rewrite ?Ed; cbn [t tm_sec tm_min tm_hour tm_mday tm_mon tm_year tm_wday tm_yday];
      rewrite ?Ey; unfold SECSPERHOUR, SECSPERMIN; [lia..| | |lia].
    + exists len. rewrite Nat2Z.id. split; [done|lia].
    + apply wday_spec. lia.
  - unfold seconds_of. rewrite Ed. cbn [t tm_sec tm_min tm_hour].
    unfold SECSPERHOUR, SECSPERMIN. lia.
Qed.

(** Without leap seconds, the broken-down time is the date and time of day of the
    calendar [offset] seconds from the given one. *)
Lemma timesub_spec t offset tmp : 0 <= t < 2 ^ 32 -> - 2 ^ 31 <= offset < 2 ^ 31 ->
  exists r, timesub t offset [] tmp = Done (r, true) /\ valid_tm r /\
    seconds_of r = t + offset /\ tm_isdst r = 0 /\ tm_gmtoff r = offset /\
    tm_zone r = tm_zone tmp /\ - 2 ^ 23 < tm_year r < 2 ^ 23.
Proof.
  intros Ht Ho. unfold timesub. change (leap_scan [] t) with (Done (0, 0)). rewrite bind_Done.
  assert (Hd : 0 <= Z.quot t SECSPERDAY < 2 ^ 16 /\
    0 <= t - Z.quot t SECSPERDAY * SECSPERDAY < SECSPERDAY) by (unfold SECSPERDAY; divs).
  set (d := Z.quot t SECSPERDAY) in *. clearbody d.
  destruct (year_loop_spec d) as (r0 & -> & y & d' & -> & E1 & D1 & D2 & Y1 & Y2); [lia|].
  rewrite bind_Done. pose proof (year_length_bounds (isleap y)).
  rewrite float_exact by lia. unfold SECSPERDAY in *.
  assert (Eq : Z.quot (d' * 86400) 86400 = d') by (by rewrite Z.quot_mul).
  rewrite Eq. replace (t - d * 86400 + (d' * 86400 - d' * 86400) + (offset - 0))
    with (t - d * 86400 + offset) by lia.
  destruct (rem_loops_spec (t - d * 86400 + offset) d') as ([rm i] & -> & Hr & E2).
  rewrite bind_Done. unfold SECSPERDAY in *. cbn [fst snd] in Hr, E2.
  destruct (day_loops_spec y i) as (r1 & -> & y' & i' & -> & E3 & I1 & Y3); [lia|lia|].
  rewrite bind_Done.
  destruct (fill_tm_spec tmp y' i' rm offset) as (tm' & -> & V & Hy & Dd & Ss & ? & ? & ?);
    [done|done|done|].
  exists tm'. split_and!; [done|done|lia|done..|lia|lia].
Qed.
