(* ===== verification/MkTime.v ===== *)
(** * Local time and its inverse (src/src/libc/ansi/time/ctime.c)

    localsub, localtime, tmcomp, time2sub, time2, time1 and mktime. The tables of a
    time zone ([struct state]) are data here; what fills them from TZ is in
    [TzRules]. *)

From stdpp Require Import base gmap list numbers.
From Stdlib Require Import ZArith Lia.
From S2P Require Import Prelude Calendar.

Open Scope Z_scope.
Open Scope c_scope.

Definition AVGSECSPERYEAR : Z := 31556952.
Definition YEARSPERREPEAT : Z := 400.
Definition WRONG : Z := 2 ^ 32 - 1.        (* (time_t) -1 *)
Definition EINVAL_time : Z := 14.

(** struct ttinfo *)
Record ttinfo := mk_tt {
  tt_gmtoff : Z; tt_isdst : Z; tt_abbrind : Z; tt_ttisstd : Z; tt_ttisgmt : Z }.

(** struct state; the arrays are as long as they are declared, and keep what they had
    past the counts. *)
Record state := mk_state {
  leapcnt : Z; timecnt : Z; typecnt : Z; charcnt : Z; goback : bool; goahead : bool;
  ats : list Z; types : list Z; ttis : list ttinfo; chars : list Z;
  lsis : list lsinfo; defaulttype : Z }.

(** The static variables: lclmem, gmtmem and tzname *)
Record tzvars := mk_tz { lclptr : state; gmtptr : state; tzname : list zone }.

Definition at_index {A} (l : list A) (i : Z) : outcome A :=
  if i <? 0 then Fail UB
  else match l !! Z.to_nat i with Some a => Done a | None => Fail UB end.

Definition set_isdst (t : tm) (d : Z) : tm :=
  mk_tm (tm_sec t) (tm_min t) (tm_hour t) (tm_mday t) (tm_mon t) (tm_year t) (tm_wday t)
    (tm_yday t) d (tm_gmtoff t) (tm_zone t).

Definition set_tzname (v : tzvars) (i : Z) (z : zone) : outcome tzvars :=
  _ ← at_index (tzname v) i;
  Done (mk_tz (lclptr v) (gmtptr v) (<[Z.to_nat i := z]> (tzname v))).

(** ** localsub *)

(** The binary search for the transition at or before [t] *)
Definition find_transition (sp : state) (t : Z) : outcome Z :=
  loop (S (Z.to_nat (timecnt sp))) (fun '(lo, hi) =>
    if lo <? hi then
      let mid := Z.shiftr (lo + hi) 1 in
      a ← at_index (ats sp) mid;
      if t <? a then Done (inl (lo, mid)) else Done (inl (mid + 1, hi))
    else Done (inr lo)) (1, timecnt sp).

(** The index of the time type at [t] *)
Definition type_at (sp : state) (t : Z) : outcome Z :=
  early ← (if timecnt sp =? 0 then Done true
           else a ← at_index (ats sp) 0; Done (t <? a));
  if early : bool then Done (defaulttype sp)
  else lo ← find_transition sp t; at_index (types sp) (lo - 1).

(** The part of localsub after the shift by whole cycles of 400 years. *)
Definition localsub_here (v : tzvars) (t : Z) (tmp : tm) : outcome (tzvars * tm * bool) :=
  let sp := lclptr v in
  i ← type_at sp t;
  ttisp ← at_index (ttis sp) i;
  '(tmp, ok) ← timesub t (tt_gmtoff ttisp)
    (take (Z.to_nat (leapcnt sp)) (lsis sp)) tmp;
  let tmp := set_isdst tmp (tt_isdst ttisp) in
  v ← set_tzname v (tm_isdst tmp) (ZChars (tt_abbrind ttisp));
  Done (v, set_zone tmp (ZChars (tt_abbrind ttisp)), ok).

(** Whether [t] is outside of the transitions, in a zone that repeats. *)
Definition beyond (sp : state) (t : Z) : outcome bool :=
  back ← (if goback sp then a ← at_index (ats sp) 0; Done (t <? a) else Done false);
  if back : bool then Done true
  else if goahead sp then a ← at_index (ats sp) (timecnt sp - 1); Done (a <? t)
  else Done false.

(** [offset] is not used. The calls nest once: the shifted time is not beyond the
    transitions. *)
Fixpoint localsub_rec (fuel : nat) (v : tzvars) (t : Z) (tmp : tm)
  : outcome (tzvars * tm * bool) :=
  match fuel with
  | O => Fail NoFuel
  | S fuel' =>
      let sp := lclptr v in
      far ← beyond sp t;
      if far : bool then
        first ← at_index (ats sp) 0;
        last ← at_index (ats sp) (timecnt sp - 1);
        let seconds := wrap_u 32 ((if t <? first then first - t else t - last) - 1) in
        let icycles := wrap_u 32 (seconds / YEARSPERREPEAT / AVGSECSPERYEAR + 1) in
        let seconds := wrap_u 32 (wrap_u 32 (icycles * YEARSPERREPEAT) * AVGSECSPERYEAR) in
        let newt := wrap_u 32 (if t <? first then t + seconds else t - seconds) in
        if (newt <? first) || (last <? newt) then Done (v, tmp, false)
        else
          '(v, tmp, ok) ← localsub_rec fuel' v newt tmp;
          if ok : bool then
            let newy := wrap_u 32 (tm_year tmp) in
            let newy := wrap_u 32 (if t <? first then newy - icycles * YEARSPERREPEAT
                                   else newy + icycles * YEARSPERREPEAT) in
            Done (v, set_year tmp (wrap_s 32 newy), true)
          else Done (v, tmp, false)
      else localsub_here v t tmp
  end.

Definition localsub (v : tzvars) (t offset : Z) (tmp : tm) : outcome (tzvars * tm * bool) :=
  localsub_rec 2 v t tmp.

(** ** mktime *)

(** The value of a signed expression; an overflow is undefined. *)
Definition int_ok (x : Z) : outcome Z :=
  if (INT_MIN <=? x) && (x <=? INT_MAX) then Done x else Fail UB.

Fixpoint first_nonzero (l : list Z) : outcome Z :=
  match l with
  | [] => Done 0
  | x :: l' => x ← int_ok x; if negb (x =? 0) then Done x else first_nonzero l'
  end.

Definition tmcomp (a b : tm) : outcome Z :=
  first_nonzero [tm_year a - tm_year b; tm_mon a - tm_mon b; tm_mday a - tm_mday b;
    tm_hour a - tm_hour b; tm_min a - tm_min b; tm_sec a - tm_sec b].

Definition set_clock (t : tm) (sec min hour mday mon : Z) : tm :=
  mk_tm sec min hour mday mon (tm_year t) (tm_wday t) (tm_yday t) (tm_isdst t) (tm_gmtoff t)
    (tm_zone t).

(** [while (yourtm.tm_mday <= 0)] and [while (yourtm.tm_mday > DAYSPERLYEAR)]: the
    year and the day; [None] is [return WRONG]. int_fast32_t is [int]. *)
Definition mday_up (y mon mday : Z) : outcome (option (Z * Z)) :=
  loop (S (Z.to_nat (1 - mday))) (fun '(y, mday) =>
    if mday <=? 0 then
      let '(y, over) := increment_overflow y (-1) in
      if over : bool then Done (inr None)
      else
        let li := y + (if 1 <? mon then 1 else 0) in
        Done (inl (y, mday + year_lengths (isleap li)))
    else Done (inr (Some (y, mday)))) (y, mday).

Definition mday_down (y mon mday : Z) : outcome (option (Z * Z)) :=
  loop (S (Z.to_nat mday)) (fun '(y, mday) =>
    if DAYSPERLYEAR <? mday then
      let li := y + (if 1 <? mon then 1 else 0) in
      let mday := mday - year_lengths (isleap li) in
      let '(y, over) := increment_overflow y 1 in
      if over : bool then Done (inr None) else Done (inl (y, mday))
    else Done (inr (Some (y, mday)))) (y, mday).

(** The loop over the months: year, month and day *)
Definition month_down (y mon mday : Z) : outcome (option (Z * Z * Z)) :=
  loop (S (Z.to_nat mday)) (fun '(y, mon, mday) =>
    i ← at_index (mon_lengths (isleap y)) mon;
    if mday <=? i then Done (inr (Some (y, mon, mday)))
    else
      let mday := mday - i in
      let mon := mon + 1 in
      if MONSPERYEAR <=? mon then
        let '(y, over) := increment_overflow y 1 in
        if over : bool then Done (inr None) else Done (inl (y, 0, mday))
      else Done (inl (y, mon, mday))) (y, mon, mday).

(** [None] for [return WRONG] *)
Definition or_wrong {A B} (m : outcome (option A)) (k : A -> outcome (option B))
  : outcome (option B) :=
  r ← m; match r with None => Done None | Some a => k a end.

Definition over_wrong {A} (over : bool) (k : outcome (option A)) : outcome (option A) :=
  if over then Done None else k.

Definition your_tm (t : tm) (sec min hour mday mon y saved : Z) : outcome (option (tm * Z)) :=
  Done (Some (set_year (set_clock t sec min hour mday mon) y, saved)).

(** The normalisation: yourtm and saved_seconds. *)
Definition normalize_tm (t : tm) (do_norm_secs : bool) : outcome (option (tm * Z)) :=
  let '(min, sec, o0) :=
    if do_norm_secs then normalize_overflow (tm_min t) (tm_sec t) SECSPERMIN
    else (tm_min t, tm_sec t, false) in
  over_wrong o0 (
  let '(hour, min, o1) := normalize_overflow (tm_hour t) min MINSPERHOUR in
  over_wrong o1 (
  let '(mday, hour, o2) := normalize_overflow (tm_mday t) hour HOURSPERDAY in
  over_wrong o2 (
  let '(y, mon, o3) := normalize_overflow (tm_year t) (tm_mon t) MONSPERYEAR in
  over_wrong o3 (
  let '(y, o4) := increment_overflow y TM_YEAR_BASE in
  over_wrong o4 (
  or_wrong (mday_up y mon mday) (fun '(y, mday) =>
  or_wrong (mday_down y mon mday) (fun '(y, mday) =>
  or_wrong (month_down y mon mday) (fun '(y, mon, mday) =>
  let '(y, o5) := increment_overflow y (- TM_YEAR_BASE) in
  over_wrong o5 (
  let fin sec saved := your_tm t sec min hour mday mon y saved in
  if (0 <=? sec) && (sec <? SECSPERMIN) then fin sec 0
  else if y + TM_YEAR_BASE <? EPOCH_YEAR then
    let '(sec, o6) := increment_overflow sec (1 - SECSPERMIN) in
    over_wrong o6 (fin (SECSPERMIN - 1) sec)
  else fin 0 sec))))))))).

Section Time.
(** The function that breaks a time down, localsub or gmtsub, and its tables *)
Context (funcp : tzvars -> Z -> Z -> tm -> outcome (tzvars * tm * bool)) (local : bool).
Context (offset : Z).

Definition table_of (v : tzvars) : state := if local then lclptr v else gmtptr v.

(** One round of the binary search; [dir] is not 0. The new [lo] and [hi]. *)
Definition narrow (t lo hi dir : Z) : option (Z * Z) :=
  let pick t lo hi :=
    if hi <? lo then None else if 0 <? dir then Some (lo, t) else Some (t, hi) in
  if t =? lo then
    let t' := wrap_u 32 (t + 1) in
    if t' <=? lo then None else pick t' (wrap_u 32 (lo + 1)) hi
  else if t =? hi then
    let t' := wrap_u 32 (t - 1) in
    if hi <=? t' then None else pick t' lo (wrap_u 32 (hi - 1))
  else pick t lo hi.

(** The hunt for a time of the wanted type: all pairs [(i, j)], last first. *)
Fixpoint hunt (pairs : list (ttinfo * ttinfo)) (v : tzvars) (t : Z) (yourtm : tm)
  : outcome (tzvars * option Z) :=
  match pairs with
  | [] => Done (v, None)
  | (a, b) :: rest =>
      if negb (tt_isdst a =? tm_isdst yourtm) || (tt_isdst b =? tm_isdst yourtm) then
        hunt rest v t yourtm
      else
        let newt := wrap_u 32 (t + tt_gmtoff b - tt_gmtoff a) in
        '(v, mytm, ok) ← funcp v newt offset tm_zero;
        if negb ok then hunt rest v t yourtm
        else
          c ← tmcomp mytm yourtm;
          if negb (c =? 0) || negb (tm_isdst mytm =? tm_isdst yourtm)
          then hunt rest v t yourtm else Done (v, Some newt)
  end.

Definition all_pairs (sp : state) : list (ttinfo * ttinfo) :=
  let l := rev (take (Z.to_nat (typecnt sp)) (ttis sp)) in a ← l; b ← l; [(a, b)].

(** The loop around the binary search: the time found. *)
Definition search (v : tzvars) (yourtm : tm) : outcome (tzvars * option Z) :=
  loop 40 (fun '(v, lo, hi) =>
    let t := lo / 2 + hi / 2 in
    let t := if t <? lo then lo else if hi <? t then hi else t in
    '(v, mytm, ok) ← funcp v t offset tm_zero;
    dir ← (if ok : bool then tmcomp mytm yourtm else Done (if 0 <? t then 1 else -1));
    if negb (dir =? 0) then
      match narrow t lo hi dir with
      | None => Done (inr (v, None))
      | Some (lo, hi) => Done (inl (v, lo, hi))
      end
    else if (tm_isdst yourtm <? 0) || (tm_isdst mytm =? tm_isdst yourtm) then
      Done (inr (v, Some t))
    else
      '(v, r) ← hunt (all_pairs (table_of v)) v t yourtm; Done (inr (v, r)))
    (v, 0, 2 ^ 32 - 1).

(** The variables, [*tmp], the result and [*okayp]. *)
Definition time2sub (v : tzvars) (tmp : tm) (do_norm_secs : bool)
  : outcome (tzvars * tm * Z * bool) :=
  n ← normalize_tm tmp do_norm_secs;
  match n with
  | None => Done (v, tmp, WRONG, false)
  | Some (yourtm, saved_seconds) =>
      '(v, r) ← search v yourtm;
      match r with
      | None => Done (v, tmp, WRONG, false)
      | Some t =>
          let newt := wrap_u 32 (t + saved_seconds) in
          if negb (Bool.eqb (newt <? t) (saved_seconds <? 0)) then Done (v, tmp, WRONG, false)
          else '(v, tmp, ok) ← funcp v newt offset tmp; Done (v, tmp, newt, ok)
      end
  end.

Definition time2 (v : tzvars) (tmp : tm) : outcome (tzvars * tm * Z * bool) :=
  '(v, tmp, t, okay) ← time2sub v tmp false;
  if okay : bool then Done (v, tmp, t, true) else time2sub v tmp true.

(** The types that occur in transitions, last first, each once *)
Definition seen_types (sp : state) : list Z :=
  foldr (fun ty acc => if bool_decide (ty ∈ acc) then acc else acc ++ [ty]) []
    (take (Z.to_nat (timecnt sp)) (types sp)).

Definition set_sec (t : tm) (s : Z) : tm :=
  set_clock t s (tm_min t) (tm_hour t) (tm_mday t) (tm_mon t).

Definition not (d : Z) : Z := if d =? 0 then 1 else 0.

(** The inner loop: the attempts with the seconds shifted by the difference of the
    type [same] and another one. The last part is the time, where it is found. *)
Fixpoint divine_with (same : ttinfo) (others : list Z) (v : tzvars) (tmp : tm)
  : outcome (tzvars * tm * option Z) :=
  match others with
  | [] => Done (v, tmp, None)
  | otheri :: rest =>
      other ← at_index (ttis (table_of v)) otheri;
      if tt_isdst other =? tm_isdst tmp then divine_with same rest v tmp
      else
        let delta := tt_gmtoff other - tt_gmtoff same in
        sec ← int_ok (tm_sec tmp + delta);
        '(v, tmp, t, okay) ← time2 v (set_isdst (set_sec tmp sec) (not (tm_isdst tmp)));
        if okay : bool then Done (v, tmp, Some t)
        else
          sec ← int_ok (tm_sec tmp - delta);
          divine_with same rest v (set_isdst (set_sec tmp sec) (not (tm_isdst tmp)))
  end.

(** The outer loop *)
Fixpoint divine (seen same : list Z) (v : tzvars) (tmp : tm) : outcome (tzvars * tm * Z) :=
  match same with
  | [] => Done (v, tmp, WRONG)
  | samei :: rest =>
      s ← at_index (ttis (table_of v)) samei;
      if negb (tt_isdst s =? tm_isdst tmp) then divine seen rest v tmp
      else
        '(v, tmp, r) ← divine_with s seen v tmp;
        match r with
        | Some t => Done (v, tmp, t)
        | None => divine seen rest v tmp
        end
  end.

(** [None] for a null pointer; the result has errno where it is set. *)
Definition time1 (v : tzvars) (tmp : option tm) : outcome (tzvars * option tm * Z * option Z) :=
  match tmp with
  | None => Done (v, None, WRONG, Some EINVAL_time)
  | Some tmp =>
      let tmp := if 1 <? tm_isdst tmp then set_isdst tmp 1 else tmp in
      '(v, tmp, t, okay) ← time2 v tmp;
      if okay || (tm_isdst tmp <? 0) then Done (v, Some tmp, t, None)
      else
        let l := seen_types (table_of v) in
        '(v, tmp, t) ← divine l l v tmp;
        Done (v, Some tmp, t, None)
  end.

End Time.

(** mktime after its call of tzset (the whole is [TzLoad.mktime]) *)
Definition mktime_set (v : tzvars) (tmp : option tm) : outcome (tzvars * option tm * Z * option Z) :=
  time1 localsub true 0 v tmp.

Definition localtime_r (v : tzvars) (timep : Z) (t : tm) : outcome (tzvars * tm * bool) :=
  localsub v timep 0 t.

(** ** Normalisation *)

(** The second that a struct tm denotes, for any values of its fields *)
Definition linear_seconds (t : tm) : Z :=
  let y := TM_YEAR_BASE + tm_year t + tm_mon t / 12 in
  (days_before y + month_start (isleap y) (tm_mon t mod 12) + tm_mday t - 1) * 86400 +
  tm_hour t * 3600 + tm_min t * 60 + tm_sec t.

(** The fields are those of a date and time. *)
Record valid_date (t : tm) : Prop := {
  vd_sec : 0 <= tm_sec t < 60;
  vd_min : 0 <= tm_min t < 60;
  vd_hour : 0 <= tm_hour t < 24;
  vd_mon : 0 <= tm_mon t < 12;
  vd_mday : exists len, mon_lengths (isleap (TM_YEAR_BASE + tm_year t)) !! Z.to_nat (tm_mon t) =
    Some len /\ 1 <= tm_mday t <= len }.

Lemma valid_tm_date t : valid_tm t -> valid_date t.
Proof. by intros []. Qed.

Lemma normalize_overflow_spec tens units base :
  0 < base -> INT_MIN <= tens + units / base <= INT_MAX ->
  normalize_overflow tens units base = (tens + units / base, units mod base, false).
Proof.
  intros Hb H. unfold normalize_overflow.
  assert (E : (if 0 <=? units then Z.quot units base else -1 - Z.quot (-1 - units) base) =
    units / base).
  { destruct (Z.leb_spec 0 units); [apply Z.quot_div_nonneg; lia|].
    rewrite Z.quot_div_nonneg by lia. pose proof (Z.div_mod units base ltac:(lia)).
    pose proof (Z.mod_pos_bound units base Hb).
    assert ((-1 - units) / base = -1 - units / base); [|lia].
    symmetry. apply (Z.div_unique_pos _ _ _ (base - 1 - units mod base)); nia. }
  rewrite E, increment_ok by done. do 2 f_equal. pose proof (Z.div_mod units base ltac:(lia)). lia.
Qed.

(** The first day of a month of a year *)
Definition month_day (y mon : Z) : Z := days_before y + month_start (isleap y) mon.

Lemma mon_cases mon : 0 <= mon < 12 ->
  mon = 0 \/ mon = 1 \/ mon = 2 \/ mon = 3 \/ mon = 4 \/ mon = 5 \/ mon = 6 \/ mon = 7 \/
  mon = 8 \/ mon = 9 \/ mon = 10 \/ mon = 11.
Proof. lia. Qed.

(** A year later in the same month: the leap day is between where it is after it. *)
Lemma month_day_next y mon : 0 <= mon < 12 ->
  month_day (y + 1) mon = month_day y mon + year_lengths (isleap (y + (if 1 <? mon then 1 else 0))).
Proof.
  intros Hm. unfold month_day. rewrite days_before_S.
  assert (E : forall l, month_start l mon =
    month_start false mon + (if l then if 1 <? mon then 1 else 0 else 0)).
  { intros l. apply mon_cases in Hm. by repeat destruct Hm as [->|Hm]; [destruct l..|subst; destruct l]. }
  rewrite (E (isleap (y + 1))), (E (isleap y)).
  destruct (1 <? mon); rewrite ?Z.add_0_r; unfold year_lengths, DAYSPERLYEAR, DAYSPERNYEAR;
    destruct (isleap y), (isleap (y + 1)); lia.
Qed.

Lemma month_start_step leap mon len : mon_lengths leap !! Z.to_nat mon = Some len ->
  0 <= mon < 12 -> month_start leap (mon + 1) = month_start leap mon + len.
Proof.
  intros Hl Hm. apply mon_cases in Hm.
  by repeat destruct Hm as [->|Hm]; [destruct leap; injection Hl as <-..|
    subst; destruct leap; injection Hl as <-].
Qed.

Lemma month_start_12 leap : month_start leap 12 = year_lengths leap.
Proof. by destruct leap. Qed.

Lemma mday_up_spec y mon mday : 0 <= mon < 12 -> - 2 ^ 30 < mday < 2 ^ 30 ->
  - 2 ^ 30 < y < 2 ^ 30 -> exists r, mday_up y mon mday = Done r /\
  exists y' d', r = Some (y', d') /\ month_day y' mon + d' = month_day y mon + mday /\ 1 <= d' /\
    (d' <= mday \/ d' <= 366) /\ y - Z.max 0 (366 - mday) <= y' <= y.
Proof.
  intros Hm Hd Hy. unfold mday_up. pose proof (fun b => year_length_bounds b) as Hb.
  apply (loop_total (fun '(a, d) => month_day a mon + d = month_day y mon + mday /\
      y - a <= d - mday /\ a <= y /\ (d <= mday \/ d <= 366))
    (fun r => exists y' d', r = Some (y', d') /\ month_day y' mon + d' = month_day y mon + mday /\
      1 <= d' /\ (d' <= mday \/ d' <= 366) /\ y - Z.max 0 (366 - mday) <= y' <= y)
    (fun '(_, d) => Z.to_nat (1 - d))); [|split_and!; lia|lia].
  intros [a d] (E & H1 & H2 & H3). destruct (Z.leb_spec d 0).
  - rewrite increment_ok by (unfold INT_MIN, INT_MAX; lia). cbv zeta.
    pose proof (month_day_next (a + -1) mon Hm) as Ds. replace (a + -1 + 1) with a in Ds by lia.
    specialize (Hb (isleap (a + -1 + (if 1 <? mon then 1 else 0)))). split_and!; lia.
  - exists a, d. split_and!; [done|lia..].
Qed.

Lemma mday_down_spec y mon mday : 0 <= mon < 12 -> 1 <= mday < 2 ^ 30 ->
  - 2 ^ 31 < y < 2 ^ 30 -> exists r, mday_down y mon mday = Done r /\
  exists y' d', r = Some (y', d') /\ month_day y' mon + d' = month_day y mon + mday /\
    1 <= d' <= 366 /\ y <= y' <= y + mday.
Proof.
  intros Hm Hd Hy. unfold mday_down. pose proof (fun b => year_length_bounds b) as Hb.
  apply (loop_total (fun '(a, d) => month_day a mon + d = month_day y mon + mday /\
      a - y <= mday - d /\ y <= a /\ 1 <= d)
    (fun r => exists y' d', r = Some (y', d') /\ month_day y' mon + d' = month_day y mon + mday /\
      1 <= d' <= 366 /\ y <= y' <= y + mday)
    (fun '(_, d) => Z.to_nat d)); [|split_and!; lia|lia].
  intros [a d] (E & H1 & H2 & H3). unfold DAYSPERLYEAR. destruct (Z.ltb_spec 366 d).
  - cbv zeta. rewrite increment_ok by (unfold INT_MIN, INT_MAX; lia).
    pose proof (month_day_next a mon Hm) as Ds.
    specialize (Hb (isleap (a + (if 1 <? mon then 1 else 0)))). split_and!; lia.
  - exists a, d. split_and!; [done|lia..].
Qed.

Lemma at_index_Done {A} (l : list A) i a : 0 <= i -> l !! Z.to_nat i = Some a ->
  at_index l i = Done a.
Proof. intros Hi Hl. unfold at_index. by rewrite (proj2 (Z.ltb_ge _ _)), Hl by lia. Qed.

Lemma mon_length_bounds leap mon : 0 <= mon < 12 ->
  exists len, mon_lengths leap !! Z.to_nat mon = Some len /\ 28 <= len <= 31.
Proof.
  intros Hm. apply mon_cases in Hm.
  repeat destruct Hm as [->|Hm]; [..|subst]; destruct leap; eexists; (split; [reflexivity|lia]).
Qed.

Lemma month_down_spec y mon mday : 0 <= mon < 12 -> 1 <= mday <= 366 ->
  - 2 ^ 31 < y < 2 ^ 31 - 400 -> exists r, month_down y mon mday = Done r /\
  exists y' m' d' len, r = Some (y', m', d') /\ month_day y' m' + d' = month_day y mon + mday /\
    0 <= m' < 12 /\ mon_lengths (isleap y') !! Z.to_nat m' = Some len /\ 1 <= d' <= len /\
    y <= y' <= y + 366.
Proof.
  intros Hm Hd Hy. unfold month_down.
  apply (loop_total (fun '(a, m, d) => month_day a m + d = month_day y mon + mday /\
      0 <= m < 12 /\ 1 <= d <= mday /\ y <= a /\ a - y <= mday - d)
    (fun r => exists y' m' d' len, r = Some (y', m', d') /\
      month_day y' m' + d' = month_day y mon + mday /\ 0 <= m' < 12 /\
      mon_lengths (isleap y') !! Z.to_nat m' = Some len /\ 1 <= d' <= len /\ y <= y' <= y + 366)
    (fun '(_, _, d) => Z.to_nat d)); [|split_and!; lia|lia].
  intros [[a m] d] (E & H1 & H2 & H3 & H4).
  destruct (mon_length_bounds (isleap a) m H1) as (len & Hl & Hb).
  rewrite (at_index_Done _ _ _ (proj1 H1) Hl), bind_Done. destruct (Z.leb_spec d len).
  - exists a, m, d, len. split_and!; [done|lia..|done|lia|lia|lia|lia].
  - pose proof (month_start_step _ _ _ Hl H1) as Es. cbv zeta. unfold MONSPERYEAR.
    destruct (Z.leb_spec 12 (m + 1)).
    + rewrite increment_ok by (unfold INT_MIN, INT_MAX; lia).
      assert (m = 11) as -> by lia. unfold month_day in *. rewrite days_before_S.
      change (11 + 1) with 12 in Es. rewrite month_start_12 in Es.
      change (month_start (isleap (a + 1)) 0) with 0. split_and!; lia.
    + unfold month_day in *. rewrite Es. split_and!; lia.
Qed.

(** Fields far from the limits of [int] *)
Definition moderate (t : tm) : Prop :=
  - 2 ^ 27 < tm_sec t < 2 ^ 27 /\ - 2 ^ 27 < tm_min t < 2 ^ 27 /\
  - 2 ^ 27 < tm_hour t < 2 ^ 27 /\ - 2 ^ 27 < tm_mday t < 2 ^ 27 /\
  - 2 ^ 27 < tm_mon t < 2 ^ 27 /\ - 2 ^ 27 < tm_year t < 2 ^ 27.

Lemma norm_step tens units base : 2 <= base -> - 2 ^ 28 < units < 2 ^ 28 ->
  - 2 ^ 28 < tens < 2 ^ 28 ->
  normalize_overflow tens units base = (tens + units / base, units mod base, false) /\
  - 2 ^ 27 <= units / base < 2 ^ 27 /\ 0 <= units mod base < base /\
  units = base * (units / base) + units mod base.
Proof.
  intros Hb Hu Ht. pose proof (Z.div_mod units base ltac:(lia)).
  pose proof (Z.mod_pos_bound units base ltac:(lia)).
  assert (- 2 ^ 27 <= units / base < 2 ^ 27).
  { split; [apply Z.div_le_lower_bound|apply Z.div_lt_upper_bound]; nia. }
  split_and!; [|lia..]. apply normalize_overflow_spec; [lia|]. unfold INT_MIN, INT_MAX. lia.
Qed.

(** The part of the normalisation after the clock fields. *)
Lemma date_spec y0 mon0 mday : - 2 ^ 28 < y0 < 2 ^ 28 -> 0 <= mon0 < 12 ->
  - 2 ^ 29 < mday < 2 ^ 29 -> forall (k : Z * Z * Z -> outcome (option (tm * Z))),
  exists y m d len, or_wrong (mday_up y0 mon0 mday) (fun '(y, mday) =>
    or_wrong (mday_down y mon0 mday) (fun '(y, mday) => or_wrong (month_down y mon0 mday) k)) =
    k (y, m, d) /\
  month_day y m + d = month_day y0 mon0 + mday /\ 0 <= m < 12 /\
  mon_lengths (isleap y) !! Z.to_nat m = Some len /\ 1 <= d <= len /\ - 2 ^ 30 < y < 2 ^ 30.
Proof.
  intros Hy Hm Hd k. unfold or_wrong.
  destruct (mday_up_spec y0 mon0 mday) as (r1 & -> & y1 & d1 & -> & E1 & D1 & D1' & Y1); [lia..|].
  rewrite bind_Done.
  destruct (mday_down_spec y1 mon0 d1) as (r2 & -> & y2 & d2 & -> & E2 & D2 & Y2); [lia..|].
  rewrite bind_Done.
  destruct (month_down_spec y2 mon0 d2) as (r3 & -> & y3 & m3 & d3 & len & -> & E3 & M3 & L3 & D3 & Y3);
    [lia..|]. rewrite bind_Done.
  exists y3, m3, d3, len. split_and!; try (done || lia).
Qed.

Lemma normalize_tm_spec t b : moderate t ->
  exists n saved, normalize_tm t b = Done (Some (n, saved)) /\ valid_date n /\
    seconds_of n + saved = linear_seconds t /\ - 2 ^ 28 < saved < 2 ^ 28 /\
    (b = true -> saved = 0) /\ tm_isdst n = tm_isdst t /\ - 2 ^ 30 - 2000 < tm_year n < 2 ^ 30.
Proof.
  intros Hm. unfold moderate in Hm.
  unfold normalize_tm, SECSPERMIN, MINSPERHOUR, HOURSPERDAY, MONSPERYEAR.
  destruct (norm_step (tm_min t) (tm_sec t) 60) as (N0 & B0 & M0 & E0); [lia..|].
  set (p0 := if b then _ else _).
  assert (P0 : exists min sec, p0 = (min, sec, false) /\
    min * 60 + sec = tm_min t * 60 + tm_sec t /\ - 2 ^ 28 < min < 2 ^ 28 /\
    - 2 ^ 27 < sec < 2 ^ 27 /\ (b = true -> 0 <= sec < 60)).
  { unfold p0. destruct b; [rewrite N0|]; eexists _, _; (split; [reflexivity|]);
      split_and!; intros; done || lia. }
  destruct P0 as (min & sec & -> & Es & Bm & Bs & Hsec). unfold over_wrong at 1.
  destruct (norm_step (tm_hour t) min 60) as (-> & B1 & M1 & E1); [lia..|]. unfold over_wrong at 1.
  set (hour := tm_hour t + min / 60) in *.
  destruct (norm_step (tm_mday t) hour 24) as (-> & B2 & M2 & E2); [lia..|]. unfold over_wrong at 1.
  set (mday := tm_mday t + hour / 24) in *.
  destruct (norm_step (tm_year t) (tm_mon t) 12) as (-> & B3 & M3 & E3); [lia..|].
  unfold over_wrong at 1. set (y := tm_year t + tm_mon t / 12) in *.
  rewrite increment_ok by (unfold INT_MIN, INT_MAX, TM_YEAR_BASE; lia). unfold over_wrong at 1.
  match goal with |- context [or_wrong (month_down _ _ _) ?k] =>
    destruct (date_spec (y + TM_YEAR_BASE) (tm_mon t mod 12) mday ltac:(unfold TM_YEAR_BASE; lia)
      M3 ltac:(lia) k) as (y2 & m2 & d2 & len & -> & E4 & M4 & L4 & D4 & Y4) end.
  rewrite increment_ok by (unfold INT_MIN, INT_MAX, TM_YEAR_BASE; lia). unfold over_wrong at 1.
  cbv zeta.
  assert (Fin : forall s sv, 0 <= s < 60 -> s + sv = sec -> - 2 ^ 28 < sv < 2 ^ 28 ->
    (b = true -> sv = 0) -> exists n saved,
    your_tm t s (min mod 60) (hour mod 24) d2 m2 (y2 + - TM_YEAR_BASE) sv =
      Done (Some (n, saved)) /\ valid_date n /\
    seconds_of n + saved = linear_seconds t /\ - 2 ^ 28 < saved < 2 ^ 28 /\
    (b = true -> saved = 0) /\ tm_isdst n = tm_isdst t /\ - 2 ^ 30 - 2000 < tm_year n < 2 ^ 30).
  { intros s sv Hs Hsv Hbd Hb. eexists _, sv. split; [reflexivity|].
    assert (Ey : TM_YEAR_BASE + (y2 + - TM_YEAR_BASE) = y2) by lia.
    split; [|split; [|split_and!; cbn; unfold TM_YEAR_BASE; try done; lia]].
    - constructor; cbn [set_year set_clock tm_sec tm_min tm_hour tm_mday tm_mon tm_year]; try done.
      rewrite Ey. by exists len.
    - unfold seconds_of, days_of, linear_seconds. cbn [set_year set_clock tm_sec tm_min tm_hour
        tm_mday tm_mon tm_year]. rewrite Ey. fold (month_day y2 m2).
      replace (TM_YEAR_BASE + tm_year t + tm_mon t / 12) with (y + TM_YEAR_BASE) by lia.
      fold (month_day (y + TM_YEAR_BASE) (tm_mon t mod 12)). lia. }
  destruct (Z.leb_spec 0 sec), (Z.ltb_spec sec 60); cbn [andb].
  1: { apply Fin; intros; lia. }
  all: destruct (y2 + - TM_YEAR_BASE + TM_YEAR_BASE <? EPOCH_YEAR);
    [rewrite increment_ok by (unfold INT_MIN, INT_MAX; lia); unfold over_wrong|]; apply Fin; intros;
    try specialize (Hsec ltac:(assumption)); lia.
Qed.

(** ** The order of broken-down times *)

Lemma month_start_mono leap m1 m2 len : 0 <= m1 -> m1 < m2 -> m2 < 12 ->
  mon_lengths leap !! Z.to_nat m1 = Some len -> month_start leap m1 + len <= month_start leap m2.
Proof.
  intros H1 H2 H3 Hl.
  assert (G : forall k, 0 <= k -> m1 + 1 + k <= 12 ->
    month_start leap (m1 + 1) <= month_start leap (m1 + 1 + k)).
  { apply (natlike_ind (fun k => m1 + 1 + k <= 12 -> _)); [by rewrite Z.add_0_r|].
    intros k Hk IH Hb. destruct (mon_length_bounds leap (m1 + 1 + k)) as (l2 & Hl2 & Hb2); [lia|].
    replace (m1 + 1 + Z.succ k) with (m1 + 1 + k + 1) by lia.
    rewrite (month_start_step _ _ _ Hl2) by lia. specialize (IH ltac:(lia)). lia. }
  specialize (G (m2 - (m1 + 1)) ltac:(lia) ltac:(lia)).
  replace (m1 + 1 + (m2 - (m1 + 1))) with m2 in G by lia.
  rewrite (month_start_step _ _ _ Hl) in G by lia. lia.
Qed.

Lemma month_start_nonneg leap mon : 0 <= mon < 12 -> 0 <= month_start leap mon.
Proof.
  intros Hm. destruct (mon_length_bounds leap 0) as (len & Hl & Hb); [lia|].
  destruct (decide (mon = 0)) as [->|]; [done|].
  pose proof (month_start_mono leap 0 mon len ltac:(lia) ltac:(lia) ltac:(lia) Hl).
  change (month_start leap 0) with 0 in *. lia.
Qed.

Lemma days_of_range t : valid_date t ->
  let y := TM_YEAR_BASE + tm_year t in days_before y <= days_of t < days_before (y + 1).
Proof.
  intros [_ _ _ Hm (len & Hl & Hd)] y. unfold days_of. fold y in Hl |- *. cbv zeta.
  pose proof (month_start_nonneg (isleap y) _ Hm). rewrite days_before_S.
  split; [lia|]. rewrite <- month_start_12.
  pose proof (month_start_step _ _ _ Hl Hm) as E.
  destruct (decide (tm_mon t = 11)) as [E11|].
  - rewrite E11 in *. change (11 + 1) with 12 in E. lia.
  - destruct (mon_length_bounds (isleap y) 11) as (l2 & Hl2 & Hb2); [lia|].
    pose proof (month_start_step _ _ _ Hl2 ltac:(lia)) as E2. change (11 + 1) with 12 in E2.
    pose proof (month_start_mono (isleap y) (tm_mon t) 11 len ltac:(lia) ltac:(lia) ltac:(lia) Hl).
    lia.
Qed.

Lemma year_order a b : valid_date a -> valid_date b -> tm_year a < tm_year b ->
  days_of a < days_of b.
Proof.
  intros Ha Hb Hlt. pose proof (days_of_range a Ha). pose proof (days_of_range b Hb).
  cbv zeta in *. set (ya := TM_YEAR_BASE + tm_year a) in *.
  pose proof (days_before_mono (ya + 1) (tm_year b - tm_year a - 1) ltac:(lia)) as M.
  replace (ya + 1 + (tm_year b - tm_year a - 1)) with (TM_YEAR_BASE + tm_year b) in M by lia. lia.
Qed.

Lemma month_order a b : valid_date a -> valid_date b -> tm_year a = tm_year b ->
  tm_mon a < tm_mon b -> days_of a < days_of b.
Proof.
  intros [_ _ _ Ma (la & La & Da)] [_ _ _ Mb (lb & Lb & Db)] E Hlt. unfold days_of.
  rewrite E in *. cbv zeta.
  pose proof (month_start_mono _ (tm_mon a) (tm_mon b) la ltac:(lia) Hlt ltac:(lia) La). lia.
Qed.

Lemma days_seconds a b : valid_date a -> valid_date b -> days_of a < days_of b ->
  seconds_of a < seconds_of b.
Proof. intros [] [] Hd. unfold seconds_of. lia. Qed.

Lemma int_ok_small x : - 2 ^ 31 <= x < 2 ^ 31 -> int_ok x = Done x.
Proof.
  intros. unfold int_ok, INT_MIN, INT_MAX.
  by rewrite (proj2 (Z.leb_le _ _)), (proj2 (Z.leb_le x _)) by lia.
Qed.

(** tmcomp compares the seconds. *)
Lemma tmcomp_spec a b : valid_date a -> valid_date b ->
  - 2 ^ 31 <= tm_year a - tm_year b < 2 ^ 31 ->
  exists c, tmcomp a b = Done c /\ (c < 0 <-> seconds_of a < seconds_of b) /\
    (c = 0 <-> seconds_of a = seconds_of b).
Proof.
  intros Ha Hb Hy. pose proof Ha as [Sa Ma Ua Oa (la & La & Da)].
  pose proof Hb as [Sb Mb Ub Ob (lb & Lb & Db)]. unfold tmcomp. cbn [first_nonzero].
  assert (Hl : la <= 31 /\ lb <= 31).
  { destruct (mon_length_bounds (isleap (TM_YEAR_BASE + tm_year a)) (tm_mon a) Oa) as (l1 & H1 & ?).
    destruct (mon_length_bounds (isleap (TM_YEAR_BASE + tm_year b)) (tm_mon b) Ob) as (l2 & H2 & ?).
    simplify_eq. lia. }
  rewrite !int_ok_small by lia. rewrite !bind_Done.
  destruct (Z.eqb_spec (tm_year a - tm_year b) 0) as [Ey|Ey]; cbn [negb].
  2: { exists (tm_year a - tm_year b). split; [done|].
       destruct (Z.lt_ge_cases (tm_year a) (tm_year b)).
       - pose proof (days_seconds a b Ha Hb (year_order a b Ha Hb ltac:(lia))). lia.
       - pose proof (days_seconds b a Hb Ha (year_order b a Hb Ha ltac:(lia))). lia. }
  destruct (Z.eqb_spec (tm_mon a - tm_mon b) 0) as [Em|Em]; cbn [negb].
  2: { exists (tm_mon a - tm_mon b). split; [done|].
       destruct (Z.lt_ge_cases (tm_mon a) (tm_mon b)).
       - pose proof (days_seconds a b Ha Hb (month_order a b Ha Hb ltac:(lia) ltac:(lia))). lia.
       - pose proof (days_seconds b a Hb Ha (month_order b a Hb Ha ltac:(lia) ltac:(lia))). lia. }
  assert (Ed : days_of a - days_of b = tm_mday a - tm_mday b).
  { unfold days_of. replace (tm_year b) with (tm_year a) by lia.
    replace (tm_mon b) with (tm_mon a) by lia. lia. }
  unfold seconds_of.
  destruct (Z.eqb_spec (tm_mday a - tm_mday b) 0); cbn [negb]; [|eexists; split; [done|]; lia].
  destruct (Z.eqb_spec (tm_hour a - tm_hour b) 0); cbn [negb]; [|eexists; split; [done|]; lia].
  destruct (Z.eqb_spec (tm_min a - tm_min b) 0); cbn [negb]; [|eexists; split; [done|]; lia].
  destruct (Z.eqb_spec (tm_sec a - tm_sec b) 0); cbn [negb]; (eexists; split; [done|]; lia).
Qed.

(** Two dates with the same second are the same. *)
Lemma seconds_inj a b : valid_date a -> valid_date b -> seconds_of a = seconds_of b ->
  tm_year a = tm_year b /\ tm_mon a = tm_mon b /\ tm_mday a = tm_mday b /\
  tm_hour a = tm_hour b /\ tm_min a = tm_min b /\ tm_sec a = tm_sec b.
Proof.
  intros Ha Hb E.
  assert (Hd : days_of a = days_of b) by (destruct Ha, Hb; unfold seconds_of in E; lia).
  assert (Ey : tm_year a = tm_year b).
  { destruct (Z.lt_trichotomy (tm_year a) (tm_year b)) as [H|[H|H]]; [|done|].
    - pose proof (year_order a b Ha Hb H). lia.
    - pose proof (year_order b a Hb Ha H). lia. }
  assert (Em : tm_mon a = tm_mon b).
  { destruct (Z.lt_trichotomy (tm_mon a) (tm_mon b)) as [H|[H|H]]; [|done|].
    - pose proof (month_order a b Ha Hb Ey H). lia.
    - pose proof (month_order b a Hb Ha (eq_sym Ey) H). lia. }
  assert (tm_mday a = tm_mday b) by (unfold days_of in Hd; rewrite Ey, Em in Hd; lia).
  destruct Ha, Hb. unfold seconds_of in E. split_and!; lia.
Qed.

(** ** A zone without daylight saving time *)

Record fixed_zone (off dst : Z) (v : tzvars) : Prop := {
  fz_back : goback (lclptr v) = false;
  fz_ahead : goahead (lclptr v) = false;
  fz_times : timecnt (lclptr v) = 0;
  fz_leaps : leapcnt (lclptr v) = 0;
  fz_tt : exists tt, at_index (ttis (lclptr v)) (defaulttype (lclptr v)) = Done tt /\
    tt_gmtoff tt = off /\ tt_isdst tt = dst;
  fz_dst : 0 <= dst <= 1;
  fz_off : - 2 ^ 31 <= off < 2 ^ 31;
  fz_names : length (tzname v) = 2%nat }.

Lemma localsub_fixed off dst v t o tmp : fixed_zone off dst v -> 0 <= t < 2 ^ 32 ->
  exists v' r, localsub v t o tmp = Done (v', r, true) /\ fixed_zone off dst v' /\
    valid_tm r /\ seconds_of r = t + off /\ tm_isdst r = dst /\ tm_gmtoff r = off /\
    - 2 ^ 23 < tm_year r < 2 ^ 23.
Proof.
  intros [Hb Ha Hats Hls (tt & Htt & Ho & Hd) Hdst Hoff Hn] Ht. unfold localsub.
  cbn [localsub_rec]. unfold beyond. rewrite Hb, bind_Done, Ha, bind_Done.
  unfold localsub_here, type_at. rewrite Hats, Hls. change (0 =? 0) with true.
  cbv iota. rewrite !bind_Done. cbv iota. rewrite ?bind_Done, Htt, bind_Done, Ho, Hd.
  change (take (Z.to_nat 0) (lsis (lclptr v))) with (@nil lsinfo).
  destruct (timesub_spec t off tmp Ht Hoff) as (r & -> & Hv & Hs & _ & Hg & _ & Hy).
  rewrite bind_Done. unfold set_tzname.
  destruct (lookup_lt_is_Some_2 (tzname v) (Z.to_nat dst)) as [z Hz]; [lia|].
  cbn [tm_isdst set_isdst]. rewrite (at_index_Done _ _ z) by (done || lia). rewrite !bind_Done.
  eexists _, _. split; [reflexivity|]. split_and!; try done.
  - constructor; cbn; try done. { exists tt. done. } by rewrite length_insert.
  - by destruct Hv.
  - cbn. lia.
  - cbn. lia.
Qed.

(** ** The binary search *)

(** A bound on the rounds that an interval of the given length needs *)
Definition rounds (g : Z) : nat := Z.to_nat (if g <=? 2 then g else Z.log2 (g - 2) + 4).

Lemma rounds_lt g g' : 0 <= g' -> g' < g -> g' <= g / 2 + 1 -> (rounds g' < rounds g)%nat.
Proof.
  intros H0 H1 H2. unfold rounds. destruct (Z.leb_spec g 2); destruct (Z.leb_spec g' 2); try lia.
  - pose proof (Z.log2_nonneg (g - 2)). lia.
  - assert (Hh : g' - 2 <= (g - 2) / 2) by divs.
    pose proof (Z.log2_le_mono _ _ Hh) as Hm.
    assert (Hs : Z.log2 ((g - 2) / 2) = Z.log2 (g - 2) - 1).
    { replace ((g - 2) / 2) with (Z.shiftr (g - 2) 1) by (by rewrite Z.shiftr_div_pow2).
      rewrite Z.log2_shiftr by lia. apply Z.max_r.
      assert (1 <= Z.log2 (g - 2)); [|lia]. apply (Z.log2_le_pow2 (g - 2) 1); lia. }
    pose proof (Z.log2_nonneg (g' - 2)). lia.
Qed.

Definition middle (lo hi : Z) : Z :=
  let t := lo / 2 + hi / 2 in if t <? lo then lo else if hi <? t then hi else t.

Lemma middle_spec lo hi : 0 <= lo <= hi -> lo <= middle lo hi <= hi /\
  middle lo hi - lo <= (hi - lo) / 2 + 1 /\ hi - middle lo hi <= (hi - lo) / 2 + 1.
Proof.
  intros H. unfold middle. cbv zeta.
  destruct (Z.ltb_spec (lo / 2 + hi / 2) lo); [divs|].
  destruct (Z.ltb_spec hi (lo / 2 + hi / 2)); divs.
Qed.

(** The new interval is shorter, and still has a target that is not where [dir]
    says it is not. *)
Lemma narrow_spec lo hi dir : 0 <= lo <= hi -> hi < 2 ^ 32 -> dir <> 0 ->
  match narrow (middle lo hi) lo hi dir with
  | None => forall x, lo <= x <= hi -> (dir < 0 -> x > middle lo hi) ->
      (0 < dir -> x < middle lo hi) -> False
  | Some (lo', hi') => 0 <= lo' /\ lo' <= hi' /\ hi' < 2 ^ 32 /\ hi' - lo' < hi - lo /\
      hi' - lo' <= (hi - lo) / 2 + 1 /\
      forall x, lo <= x <= hi -> (dir < 0 -> x > middle lo hi) ->
        (0 < dir -> x < middle lo hi) -> lo' <= x <= hi'
  end.
Proof.
  intros Hl Hh Hd. destruct (middle_spec lo hi Hl) as (M1 & M2 & M3).
  set (t := middle lo hi) in *. clearbody t. unfold narrow. cbv zeta.
  destruct (Z.eqb_spec t lo) as [->|].
  - destruct (decide (lo = 2 ^ 32 - 1)) as [->|].
    + change (wrap_u 32 (2 ^ 32 - 1 + 1)) with 0. change (0 <=? 2 ^ 32 - 1) with true. cbv iota. intros. lia.
    + rewrite (wrap_u_small 32) by lia. rewrite (proj2 (Z.leb_gt _ _)) by lia.
      destruct (Z.ltb_spec hi (lo + 1)); [intros; lia|].
      destruct (Z.ltb_spec 0 dir); split_and!; intros; lia.
  - destruct (Z.eqb_spec t hi) as [->|].
    + rewrite (wrap_u_small 32) by lia. rewrite (proj2 (Z.leb_gt _ _)) by lia.
      destruct (Z.ltb_spec (hi - 1) lo); [intros; lia|].
      destruct (Z.ltb_spec 0 dir); split_and!; intros; lia.
    + destruct (Z.ltb_spec hi lo); [lia|].
      destruct (Z.ltb_spec 0 dir); split_and!; intros; lia.
Qed.

Definition is_time (x : Z) : bool := (0 <=? x) && (x <? 2 ^ 32).

Lemma is_time_iff x : is_time x = true <-> 0 <= x < 2 ^ 32.
Proof. unfold is_time. lia. Qed.

(** A broken-down time as the search expects it, in a zone whose tm_isdst is [dst] *)
Definition target (dst : Z) (n : tm) : Prop :=
  valid_date n /\ - 2 ^ 30 - 2000 < tm_year n < 2 ^ 30 /\
  (tm_isdst n < 0 \/ tm_isdst n = dst).

Lemma search_spec off dst v n : fixed_zone off dst v -> target dst n ->
  exists v', fixed_zone off dst v' /\
    search localsub true 0 v n =
      Done (v', if is_time (seconds_of n - off) then Some (seconds_of n - off) else None).
Proof.
  intros Hf (Hn & Hy & Hd). set (T := seconds_of n - off). unfold search.
  destruct (loop_total
    (fun '(v, lo, hi) => fixed_zone off dst v /\ 0 <= lo <= hi /\ hi < 2 ^ 32 /\
       (0 <= T < 2 ^ 32 -> lo <= T <= hi))
    (fun '(v, r) => fixed_zone off dst v /\ r = if is_time T then Some T else None)
    (fun '(v, lo, hi) => rounds (hi - lo))
    (fun '(v, lo, hi) => 
    let t := lo / 2 + hi / 2 in
    let t := if t <? lo then lo else if hi <? t then hi else t in
    '(v, mytm, ok) ← localsub v t 0 tm_zero;
    dir ← (if ok : bool then tmcomp mytm n else Done (if 0 <? t then 1 else -1));
    if negb (dir =? 0) then
      match narrow t lo hi dir with
      | None => Done (inr (v, None))
      | Some (lo, hi) => Done (inl (v, lo, hi))
      end
    else if (tm_isdst n <? 0) || (tm_isdst mytm =? tm_isdst n) then
      Done (inr (v, Some t))
    else
      '(v, r) ← hunt localsub 0 (all_pairs (table_of true v)) v t n; Done (inr (v, r)))) 
    with (fuel := 40%nat) (s := (v, 0, 2 ^ 32 - 1)) as ([v' r] & E & Hv & Hr).
  - intros [[v1 lo] hi] (Hv & Hl & Hh & HT). cbv zeta. fold (middle lo hi).
    destruct (middle_spec lo hi Hl) as (M1 & _).
    destruct (localsub_fixed off dst v1 (middle lo hi) 0 tm_zero Hv ltac:(lia))
      as (v2 & m & -> & Hv2 & Hm & Es & Ed & _ & Hmy).
    rewrite bind_Done.
    destruct (tmcomp_spec m n (valid_tm_date _ Hm) Hn ltac:(lia)) as (c & -> & Hlt & Heq).
    rewrite bind_Done. destruct (Z.eqb_spec c 0) as [E0|E0]; cbn [negb].
    + assert (middle lo hi = T) as -> by (unfold T; lia).
      rewrite (proj2 (orb_true_iff _ _)) by (destruct Hd; [left|right]; lia).
      split; [done|]. rewrite (proj2 (is_time_iff T)) by lia. done.
    + pose proof (narrow_spec lo hi c Hl Hh E0) as N.
      destruct (narrow (middle lo hi) lo hi c) as [[lo' hi']|].
      * destruct N as (N1 & N2 & N3 & N4 & N5 & N6). split; [|apply rounds_lt; lia].
        split; [done|]. split; [lia|]. split; [done|]. intros R. apply N6; [by apply HT| |]; unfold T; lia.
      * split; [done|]. destruct (is_time T) eqn:R; [|done]. apply is_time_iff in R.
        exfalso. apply (N T); [by apply HT| |]; unfold T; lia.
  - split; [done|]. lia.
  - by vm_compute; lia.
  - exists v'. subst r. split; [done|]. exact E.
Qed.

(** The result for a time [T], and whether it is a time at all. *)
Lemma time2sub_spec off dst v t b : fixed_zone off dst v -> moderate t ->
  tm_isdst t < 0 \/ tm_isdst t = dst ->
  exists n saved, seconds_of n + saved = linear_seconds t /\ (b = true -> saved = 0) /\
  let T := linear_seconds t - off in
  exists v', fixed_zone off dst v' /\
  (is_time (seconds_of n - off) = true -> is_time T = true ->
   exists r, time2sub localsub true 0 v t b = Done (v', r, T, true) /\ valid_tm r /\
     seconds_of r = linear_seconds t /\ tm_isdst r = dst) /\
  (is_time (seconds_of n - off) = false \/ is_time T = false ->
   time2sub localsub true 0 v t b = Done (v', t, WRONG, false)).
Proof.
  intros Hf Hm Hd. destruct (normalize_tm_spec t b Hm) as (n & saved & E & Hn & Es & Bs & Hb & Ed & Hy).
  exists n, saved. split; [done|]. split; [done|]. cbv zeta.
  destruct (search_spec off dst v n Hf) as (v1 & Hv1 & Esr).
  { split; [done|]. split; [done|]. by rewrite Ed. }
  unfold time2sub. rewrite E, bind_Done, Esr, bind_Done.
  set (T1 := seconds_of n - off) in *. set (T := linear_seconds t - off) in *.
  assert (ET : T = T1 + saved) by (unfold T, T1; lia).
  destruct (is_time T1) eqn:R1; [|exists v1; split; [done|]; split; [done|by intros _]].
  apply is_time_iff in R1. destruct (is_time T) eqn:R; [apply is_time_iff in R|].
  - destruct (localsub_fixed off dst v1 T 0 t Hv1 R) as (v2 & r & El & Hv2 & Hr & Er & Edr & _).
    exists v2. split; [done|]. split; [|intros [?|?]; done]. intros _ _. exists r.
    rewrite <- ET, (wrap_u_small 32) by lia.
    assert (Bool.eqb (T <? T1) (saved <? 0) = true) as -> by (apply eqb_true_iff; lia).
    cbn [negb]. rewrite El, bind_Done. split_and!; try done. unfold T in Er. lia.
  - exists v1. split; [done|]. split; [done|]. intros _.
    assert (Hout : T < 0 \/ 2 ^ 32 <= T) by (unfold is_time in R; lia).
    rewrite <- ET. assert (Bool.eqb (wrap_u 32 T <? T1) (saved <? 0) = false) as ->; [|done].
    apply eqb_false_iff. unfold wrap_u. intros Eq.
    destruct Hout.
    + rewrite <- (Z.mod_add T 1 (2 ^ 32)) in Eq by lia. rewrite Z.mod_small in Eq by lia. lia.
    + rewrite <- (Z.mod_add T (-1) (2 ^ 32)) in Eq by lia. rewrite Z.mod_small in Eq by lia. lia.
Qed.

Lemma time2_spec off dst v t : fixed_zone off dst v -> moderate t ->
  tm_isdst t < 0 \/ tm_isdst t = dst ->
  let T := linear_seconds t - off in
  exists v', fixed_zone off dst v' /\
  if is_time T then
    exists r, time2 localsub true 0 v t = Done (v', r, T, true) /\ valid_tm r /\
      seconds_of r = linear_seconds t /\ tm_isdst r = dst
  else time2 localsub true 0 v t = Done (v', t, WRONG, false).
Proof.
  intros Hf Hm Hd T. unfold time2.
  destruct (time2sub_spec off dst v t false Hf Hm Hd) as (n & s & _ & _ & v1 & Hv1 & Yes & No).
  fold T in Yes, No. destruct (is_time (seconds_of n - off)) eqn:R1, (is_time T) eqn:R.
  1: { destruct (Yes eq_refl eq_refl) as (r & -> & Hr). exists v1. split; [done|]. by exists r. }
  all: rewrite No, bind_Done by auto;
    destruct (time2sub_spec off dst v1 t true Hv1 Hm Hd) as (n' & s' & E & Hs & v2 & Hv2 & Yes' & No');
    fold T in Yes', No'; exists v2; (split; [done|]).
  - by apply No'; right.
  - apply Yes'; [|done]. rewrite (Hs eq_refl) in E. replace (seconds_of n') with (linear_seconds t) by lia. done.
  - by apply No'; right.
Qed.

Lemma time1_spec off dst v t : fixed_zone off dst v -> moderate t ->
  tm_isdst t < 0 \/ tm_isdst t = dst ->
  let T := linear_seconds t - off in
  exists v', fixed_zone off dst v' /\
  if is_time T then
    exists r, mktime_set v (Some t) = Done (v', Some r, T, None) /\ valid_tm r /\
      seconds_of r = linear_seconds t /\ tm_isdst r = dst
  else mktime_set v (Some t) = Done (v', Some t, WRONG, None).
Proof.
  intros Hf Hm Hd T. unfold mktime_set, time1.
  assert ((1 <? tm_isdst t) = false) as -> by (destruct (fz_dst _ _ _ Hf); lia).
  destruct (time2_spec off dst v t Hf Hm Hd) as (v1 & Hv1 & H). fold T in H.
  exists v1. split; [done|]. destruct (is_time T).
  - destruct H as (r & -> & Hr). exists r. done.
  - rewrite H, bind_Done. cbn [orb]. destruct (tm_isdst t <? 0); [done|].
    unfold table_of, seen_types. rewrite (fz_times _ _ _ Hv1). done.
Qed.

Lemma seconds_linear t : valid_date t -> linear_seconds t = seconds_of t.
Proof.
  intros [_ _ _ Hm _]. unfold linear_seconds, seconds_of, days_of.
  rewrite (Z.div_small (tm_mon t)), (Z.mod_small (tm_mon t)) by lia. rewrite Z.add_0_r. lia.
Qed.

Lemma valid_moderate t : valid_date t -> - 2 ^ 23 < tm_year t < 2 ^ 23 -> moderate t.
Proof.
  intros [Hs Hm Hh Ho (len & Hl & Hd)] Hy. unfold moderate.
  destruct (mon_length_bounds (isleap (TM_YEAR_BASE + tm_year t)) (tm_mon t) Ho) as (l & Hl' & Hb).
  simplify_eq. lia.
Qed.

(** C35. With a table for GMT without leap seconds gmtime breaks any time down into the date and
    time of its second since 1970, with the day of the week and of the year, and no other
    date and time has that second. *)
Theorem gmtime_correct t tmp : 0 <= t < 2 ^ 32 ->
  exists r, gmtime_r [] t tmp = Done (r, true) /\ valid_tm r /\ seconds_of r = t /\
    tm_isdst r = 0 /\ tm_gmtoff r = 0 /\
    (forall d, valid_date d -> seconds_of d = t ->
      tm_year d = tm_year r /\ tm_mon d = tm_mon r /\ tm_mday d = tm_mday r /\
      tm_hour d = tm_hour r /\ tm_min d = tm_min r /\ tm_sec d = tm_sec r).
Proof.
  intros Ht. destruct (timesub_spec t 0 tmp Ht ltac:(lia)) as (r & E & Hv & Hs & Hi & Hg & _).
  exists (set_zone r (ZChars 0)). unfold gmtime_r, gmtsub. rewrite E, bind_Done.
  rewrite Z.add_0_r in Hs. split_and!; try done. { by destruct Hv. }
  intros d Hd Ed. apply (seconds_inj d r); [done|by apply valid_tm_date|congruence].
Qed.

Lemma gmtime_correct_witness : exists r, gmtime_r [] 1709210096 tm_zero = Done (r, true) /\
  valid_tm r /\ seconds_of r = 1709210096 /\ tm_isdst r = 0 /\ tm_gmtoff r = 0 /\
  (forall d, valid_date d -> seconds_of d = 1709210096 ->
    tm_year d = tm_year r /\ tm_mon d = tm_mon r /\ tm_mday d = tm_mday r /\
    tm_hour d = tm_hour r /\ tm_min d = tm_min r /\ tm_sec d = tm_sec r).
Proof. apply gmtime_correct. lia. Defined.

(** C34. In a zone with one offset, without transitions and leap seconds, mktime gives, for fields
    of any moderate size with tm_isdst negative or that of the zone, the second that they
    denote and normalises them to its date and time; where that second is not a time_t it
    gives -1 and leaves the fields as they are. The binary search ends. *)
Theorem mktime_correct off dst v t : fixed_zone off dst v -> moderate t ->
  tm_isdst t < 0 \/ tm_isdst t = dst ->
  let T := linear_seconds t - off in
  exists v', fixed_zone off dst v' /\
  if is_time T then
    exists r, mktime_set v (Some t) = Done (v', Some r, T, None) /\ valid_tm r /\
      seconds_of r = linear_seconds t /\ tm_isdst r = dst
  else mktime_set v (Some t) = Done (v', Some t, WRONG, None).
Proof. apply time1_spec. Qed.

(** A zone two hours to the east, and 31 June 2024, 25:61:-1 *)
Definition demo_zone : tzvars :=
  mk_tz (mk_state 0 0 1 4 false false [] [] [mk_tt 7200 0 0 0 0] [69; 69; 84; 0] [] 0)
    (mk_state 0 0 1 4 false false [] [] [mk_tt 0 0 0 0 0] [71; 77; 84; 0] [] 0) [ZWild; ZWild].

Definition demo_tm : tm := mk_tm (-1) 61 25 31 5 124 0 0 (-1) 0 ZWild.

Lemma demo_fixed : fixed_zone 7200 0 demo_zone.
Proof. split; try done. eexists. done. Qed.

Lemma mktime_correct_witness : exists v', fixed_zone 7200 0 v' /\
  exists r, mktime_set demo_zone (Some demo_tm) = Done (v', Some r, 1719878459, None) /\ valid_tm r /\
    seconds_of r = linear_seconds demo_tm /\ tm_isdst r = 0.
Proof.
  apply (mktime_correct 7200 0 demo_zone demo_tm demo_fixed); [by vm_compute|by left].
Defined.

(** C40. In a zone with one offset, without transitions and leap seconds, breaking a time down and
    putting it together again gives it back, and the same date and time. *)
Theorem mktime_localtime off dst v t tmp : fixed_zone off dst v -> 0 <= t < 2 ^ 32 ->
  exists v1 d, localtime_r v t tmp = Done (v1, d, true) /\
  exists v2 d', mktime_set v1 (Some d) = Done (v2, Some d', t, None) /\
    tm_year d' = tm_year d /\ tm_mon d' = tm_mon d /\ tm_mday d' = tm_mday d /\
    tm_hour d' = tm_hour d /\ tm_min d' = tm_min d /\ tm_sec d' = tm_sec d.
Proof.
  intros Hf Ht. unfold localtime_r.
  destruct (localsub_fixed off dst v t 0 tmp Hf Ht) as (v1 & d & E & Hv1 & Hd & Es & Ed & _ & Hy).
  pose proof (valid_tm_date _ Hd) as Hd'. exists v1, d. split; [done|].
  destruct (time1_spec off dst v1 d Hv1 (valid_moderate _ Hd' Hy) (or_intror Ed)) as (v2 & _ & H).
  rewrite (seconds_linear d Hd'), Es in H. replace (t + off - off) with t in H by lia.
  rewrite (proj2 (is_time_iff t)) in H by done. destruct H as (d' & -> & Hv' & Es' & _).
  exists v2, d'. split; [done|]. apply seconds_inj; [by apply valid_tm_date|done|lia].
Qed.

Lemma mktime_localtime_witness : exists v1 d,
  localtime_r demo_zone (2 ^ 32 - 1) tm_zero = Done (v1, d, true) /\
  exists v2 d', mktime_set v1 (Some d) = Done (v2, Some d', 2 ^ 32 - 1, None) /\
    tm_year d' = tm_year d /\ tm_mon d' = tm_mon d /\ tm_mday d' = tm_mday d /\
    tm_hour d' = tm_hour d /\ tm_min d' = tm_min d /\ tm_sec d' = tm_sec d.
Proof. apply (mktime_localtime 7200 0 demo_zone); [apply demo_fixed|lia]. Defined.
