(* ===== verification/TzRules.v ===== *)
(** * POSIX rules of time zones (src/src/libc/ansi/time/ctime.c)

    The scanners of a TZ string, getzname, getqzname, getnum, getsecs, getoffset and
    getrule, and transtime, which gives the time at which a rule takes effect in a
    year. A pointer into a string is what is left of it. *)

From stdpp Require Import base gmap list numbers.
From Stdlib Require Import ZArith Lia.
From S2P Require Import Prelude Calendar MkTime.

Open Scope Z_scope.
Open Scope c_scope.

(** [*strp] *)
Definition cur_char (strp : list Z) : Z := match strp with [] => 0 | c :: _ => c end.

Definition is_digit (c : Z) : bool := wrap_u 32 (c - 48) <=? 9.

(** ** The scanners *)

Fixpoint getzname (strp : list Z) : list Z :=
  match strp with
  | [] => []
  | c :: rest =>
      if negb (is_digit c) && negb (c =? 44) && negb (c =? 45) && negb (c =? 43)
      then getzname rest else strp
  end.

Fixpoint getqzname (strp : list Z) (delim : Z) : list Z :=
  match strp with
  | [] => []
  | c :: rest => if negb (c =? delim) then getqzname rest delim else strp
  end.

Fixpoint getnum_loop (strp : list Z) (num min max : Z) : option (Z * list Z) :=
  match strp with
  | [] => if num <? min then None else Some (num, [])
  | c :: rest =>
      if is_digit c then
        let num := num * 10 + (c - 48) in
        if max <? num then None else getnum_loop rest num min max
      else if num <? min then None else Some (num, strp)
  end.

(** [None] for a null pointer, else [*nump] and the result *)
Definition getnum (strp : list Z) (min max : Z) : option (Z * list Z) :=
  if negb (is_digit (cur_char strp)) then None else getnum_loop strp 0 min max.

Definition getsecs (strp : list Z) : option (Z * list Z) :=
  '(hours, strp) ← getnum strp 0 (HOURSPERDAY * DAYSPERWEEK - 1);
  let secs := hours * SECSPERHOUR in
  if cur_char strp =? 58 then
    '(mins, strp) ← getnum (tail strp) 0 (MINSPERHOUR - 1);
    let secs := secs + mins * SECSPERMIN in
    if cur_char strp =? 58 then
      '(s, strp) ← getnum (tail strp) 0 SECSPERMIN;
      Some (secs + s, strp)
    else Some (secs, strp)
  else Some (secs, strp).

Definition getoffset (strp : list Z) : option (Z * list Z) :=
  let neg := cur_char strp =? 45 in
  let strp := if neg || (cur_char strp =? 43) then tail strp else strp in
  '(offset, strp) ← getsecs strp;
  Some (if neg then - offset else offset, strp).

(** The r_type of a rule, with the numbers that it has *)
Inductive rule_day :=
  | JULIAN_DAY (r_day : Z)
  | DAY_OF_YEAR (r_day : Z)
  | MONTH_NTH_DAY_OF_WEEK (r_mon r_week r_day : Z).

Record rule := mk_rule { r_date : rule_day; r_time : Z }.

Definition getdate (strp : list Z) : option (rule_day * list Z) :=
  if cur_char strp =? 74 then
    '(day, strp) ← getnum (tail strp) 1 DAYSPERNYEAR;
    Some (JULIAN_DAY day, strp)
  else if cur_char strp =? 77 then
    '(mon, strp) ← getnum (tail strp) 1 MONSPERYEAR;
    if negb (cur_char strp =? 46) then None
    else
      '(week, strp) ← getnum (tail strp) 1 5;
      if negb (cur_char strp =? 46) then None
      else
        '(day, strp) ← getnum (tail strp) 0 (DAYSPERWEEK - 1);
        Some (MONTH_NTH_DAY_OF_WEEK mon week day, strp)
  else if is_digit (cur_char strp) then
    '(day, strp) ← getnum strp 0 (DAYSPERLYEAR - 1);
    Some (DAY_OF_YEAR day, strp)
  else None.

Definition getrule (strp : list Z) : option (rule * list Z) :=
  '(date, strp) ← getdate strp;
  if cur_char strp =? 47 then
    '(secs, strp) ← getsecs (tail strp);
    Some (mk_rule date secs, strp)
  else Some (mk_rule date (2 * SECSPERHOUR), strp).

(** ** transtime *)

(** The day of the week of the first of a month, by Zeller's congruence *)
Definition zeller (year mon : Z) : Z :=
  let m1 := Z.rem (mon + 9) 12 + 1 in
  let yy0 := if mon <=? 2 then year - 1 else year in
  let yy1 := Z.quot yy0 100 in
  let yy2 := Z.rem yy0 100 in
  let dow := Z.rem (Z.quot (26 * m1 - 2) 10 + 1 + yy2 + Z.quot yy2 4 + Z.quot yy1 4 - 2 * yy1) 7 in
  if dow <? 0 then dow + DAYSPERWEEK else dow.

(** [for (i = 1; i < r_week; ++i)] *)
Fixpoint add_weeks (n : nat) (d len : Z) : Z :=
  match n with
  | O => d
  | S n' => if len <=? d + DAYSPERWEEK then d else add_weeks n' (d + DAYSPERWEEK) len
  end.

(** The sum over the months before is kept in a [time_t]. *)
Definition add_months (janfirst : Z) (leapyear : bool) (n : nat) : Z :=
  foldl (fun value len => wrap_u 32 (value + len * SECSPERDAY)) janfirst
    (take n (mon_lengths leapyear)).

Definition transtime (janfirst year : Z) (r : rule) (offset : Z) : outcome Z :=
  let leapyear := isleap year in
  value ← match r_date r with
  | JULIAN_DAY day =>
      let value := wrap_u 32 (janfirst + (day - 1) * SECSPERDAY) in
      Done (if leapyear && (60 <=? day) then wrap_u 32 (value + SECSPERDAY) else value)
  | DAY_OF_YEAR day => Done (wrap_u 32 (janfirst + day * SECSPERDAY))
  | MONTH_NTH_DAY_OF_WEEK mon week day =>
      let value := add_months janfirst leapyear (Z.to_nat (mon - 1)) in
      let d := day - zeller year mon in
      let d := if d <? 0 then d + DAYSPERWEEK else d in
      len ← at_index (mon_lengths leapyear) (mon - 1);
      let d := add_weeks (Z.to_nat (week - 1)) d len in
      Done (wrap_u 32 (value + d * SECSPERDAY))
  end;
  Done (wrap_u 32 (wrap_u 32 (value + r_time r) + offset)).

(** ** The days of rules *)

(** The day of the year, from 0, of a rule: the last possible one of the days that are
    1, 8, 15, ... days after the first with the right name *)
Definition weekday (n : Z) : Z := (n + 4) mod 7.

Definition rule_day_ok (y : Z) (date : rule_day) (d : Z) : Prop :=
  match date with
  | JULIAN_DAY day => d = day - 1 + (if isleap y && (60 <=? day) then 1 else 0)
  | DAY_OF_YEAR day => d = day
  | MONTH_NTH_DAY_OF_WEEK mon week day =>
      exists mday len, d = month_start (isleap y) (mon - 1) + mday /\
        mon_lengths (isleap y) !! Z.to_nat (mon - 1) = Some len /\ 0 <= mday < len /\
        weekday (days_before y + d) = day /\
        (mday / 7 = week - 1 \/ (mday / 7 < week - 1 /\ len <= mday + 7))
  end.

Definition rule_ok (r : rule) : Prop :=
  match r_date r with
  | JULIAN_DAY day => 1 <= day <= 365
  | DAY_OF_YEAR day => 0 <= day <= 365
  | MONTH_NTH_DAY_OF_WEEK mon week day => 1 <= mon <= 12 /\ 1 <= week <= 5 /\ 0 <= day <= 6
  end.

(** ** transtime is correct *)

Lemma days_after_february y mon : 3 <= mon <= 12 ->
  days_before y + month_start (isleap y) (mon - 1) =
  days_before (y + 1) - (365 - month_start false (mon - 1)).
Proof.
  intros Hm. rewrite days_before_S.
  assert (E : month_start (isleap y) (mon - 1) =
    month_start false (mon - 1) + (year_lengths (isleap y) - 365)); [|lia].
  assert (Hc : mon = 3 \/ mon = 4 \/ mon = 5 \/ mon = 6 \/ mon = 7 \/ mon = 8 \/ mon = 9 \/
    mon = 10 \/ mon = 11 \/ mon = 12) by lia.
  by destruct (isleap y); repeat destruct Hc as [->|Hc]; try (subst mon).
Qed.

(** A day number in terms of the centuries and the years of the century before it *)
Lemma days_before_century y : 0 <= y ->
  days_before (y + 1) mod 7 =
  (y mod 100 + y mod 100 / 4 + y / 100 / 4 - 2 * (y / 100) + 4) mod 7.
Proof. intros Hy. unfold days_before. divs. Qed.

Lemma rem_mod x : (if Z.rem x 7 <? 0 then Z.rem x 7 + 7 else Z.rem x 7) = x mod 7.
Proof. destruct (Z.ltb_spec (Z.rem x 7) 0); divs. Qed.

Lemma quot_rem_century y : 0 <= y -> Z.quot y 100 = y / 100 /\ Z.rem y 100 = y mod 100 /\
  Z.quot (Z.rem y 100) 4 = y mod 100 / 4 /\ Z.quot (Z.quot y 100) 4 = y / 100 / 4.
Proof. intros Hy. split_and!; divs. Qed.

Lemma zeller_spec y mon : 1 <= y -> 1 <= mon <= 12 ->
  zeller y mon = weekday (days_before y + month_start (isleap y) (mon - 1)).
Proof.
  intros Hy Hm. unfold zeller, weekday, DAYSPERWEEK. cbv zeta. rewrite rem_mod.
  set (yy0 := if mon <=? 2 then y - 1 else y).
  destruct (quot_rem_century yy0) as (-> & E & E4 & ->); [unfold yy0; destruct (mon <=? 2); lia|].
  rewrite E4, E. clear E E4.
  assert (D : (days_before (yy0 + 1)) mod 7 = _) by
    (apply days_before_century; unfold yy0; destruct (mon <=? 2); lia).
  set (X := yy0 mod 100 + yy0 mod 100 / 4 + yy0 / 100 / 4 - 2 * (yy0 / 100)) in *.
  assert (G : exists c, days_before y + month_start (isleap y) (mon - 1) =
      days_before (yy0 + 1) + c /\ (c + 8) mod 7 =
      (Z.quot (26 * (Z.rem (mon + 9) 12 + 1) - 2) 10 + 1) mod 7).
  { unfold yy0. destruct (Z.leb_spec mon 2).
    - replace (y - 1 + 1) with y by lia. eexists. split; [reflexivity|].
      assert (mon = 1 \/ mon = 2) as [-> | ->] by lia; by destruct (isleap y).
    - rewrite days_after_february by lia. eexists. split; [apply Z.add_opp_r|].
      assert (Hc : mon = 3 \/ mon = 4 \/ mon = 5 \/ mon = 6 \/ mon = 7 \/ mon = 8 \/ mon = 9 \/
        mon = 10 \/ mon = 11 \/ mon = 12) by lia.
      by repeat destruct Hc as [->|Hc]; try (subst mon). }
  destruct G as (c & -> & Ec).
  replace (Z.quot (26 * (Z.rem (mon + 9) 12 + 1) - 2) 10 + 1 + yy0 mod 100 + yy0 mod 100 / 4 +
    yy0 / 100 / 4 - 2 * (yy0 / 100)) with (Z.quot (26 * (Z.rem (mon + 9) 12 + 1) - 2) 10 + 1 + X)
    by (unfold X; lia).
  set (M := Z.quot (26 * (Z.rem (mon + 9) 12 + 1) - 2) 10 + 1) in *. clearbody M X.
  clear -D Ec. divs.
Qed.

(** The position in the month after the weeks are added *)
Lemma add_weeks_spec n d len : 0 <= d -> d / 7 = 0 -> d < len ->
  let d' := add_weeks n d len in
  d' mod 7 = d mod 7 /\ 0 <= d' < len /\
  (d' / 7 = Z.of_nat n \/ (d' / 7 < Z.of_nat n /\ len <= d' + 7)).
Proof.
  intros H0 H7 Hl. cbv zeta.
  assert (G : forall n d k, 0 <= d -> d / 7 = k -> d < len ->
    add_weeks n d len mod 7 = d mod 7 /\ 0 <= add_weeks n d len < len /\
    (add_weeks n d len / 7 = k + Z.of_nat n \/
     (add_weeks n d len / 7 < k + Z.of_nat n /\ len <= add_weeks n d len + 7))).
  { clear. induction n as [|n IH]; intros d k H0 Hk Hl; cbn [add_weeks]; [split_and!; lia|].
    unfold DAYSPERWEEK. destruct (Z.leb_spec len (d + 7)); [split_and!; lia|].
    destruct (IH (d + 7) (k + 1)) as (M & B & D); [lia|divs|lia|]. rewrite M.
    split; [divs|]. split; [done|]. destruct D; [left|right]; lia. }
  apply (G n d 0); lia.
Qed.

Lemma wrap_add a b : wrap_u 32 (wrap_u 32 a + b) = wrap_u 32 (a + b).
Proof. unfold wrap_u. by rewrite Zplus_mod_idemp_l. Qed.

Lemma add_months_spec leap n j : 
  add_months (wrap_u 32 j) leap n = wrap_u 32 (j + month_start leap (Z.of_nat n) * SECSPERDAY).
Proof.
  unfold add_months, month_start. rewrite Nat2Z.id. generalize (take n (mon_lengths leap)) as l.
  intros l. revert j. induction l as [|x l IH]; intros j; cbn [foldl foldr]; [by rewrite Z.add_0_r|].
  rewrite wrap_add, IH. f_equal. lia.
Qed.

(** The day of a rule is determined. *)
Lemma rule_day_unique y date d1 d2 : rule_day_ok y date d1 -> rule_day_ok y date d2 -> d1 = d2.
Proof.
  destruct date as [day|day|mon week day]; cbn; [congruence..|].
  intros (m1 & len & -> & Hl & B1 & W1 & C1) (m2 & len' & -> & Hl' & B2 & W2 & C2). simplify_eq.
  unfold weekday in *. divs.
Qed.

(** transtime gives the second at which a rule takes effect in a year: the second of its
    day, plus the time of the day, minus the offset from UTC (which is positive to the
    west), as a time_t; [janfirst] is the first second of the year. *)
Theorem transtime_correct y r offset : 1 <= y -> rule_ok r ->
  exists d, rule_day_ok y (r_date r) d /\ (forall d', rule_day_ok y (r_date r) d' -> d' = d) /\
    transtime (wrap_u 32 (days_before y * SECSPERDAY)) y r offset =
      Done (wrap_u 32 ((days_before y + d) * SECSPERDAY + r_time r + offset)).
Proof.
  intros Hy Hr. unfold transtime, rule_ok in *.
  assert (Fin : forall d v, rule_day_ok y (r_date r) d -> 
    v = wrap_u 32 ((days_before y + d) * SECSPERDAY) -> exists d, rule_day_ok y (r_date r) d /\
    (forall d', rule_day_ok y (r_date r) d' -> d' = d) /\
    (value ← Done v; Done (wrap_u 32 (wrap_u 32 (value + r_time r) + offset))) =
      Done (wrap_u 32 ((days_before y + d) * SECSPERDAY + r_time r + offset))).
  { intros d v Hd ->. exists d. split; [done|]. split; [intros; by eapply rule_day_unique|].
    rewrite bind_Done, wrap_add, <- !Z.add_assoc, wrap_add. done. }
  destruct (r_date r) as [day|day|mon week day] eqn:Er.
  - eapply Fin; [reflexivity|].
    destruct (isleap y && (60 <=? day)); rewrite ?wrap_add, <- ?Z.add_assoc, ?wrap_add; f_equal; lia.
  - eapply Fin; [reflexivity|]. rewrite wrap_add. f_equal. lia.
  - destruct Hr as (Hm & Hw & Hd). 
    destruct (mon_length_bounds (isleap y) (mon - 1) ltac:(lia)) as (len & Hl & Hb).
    rewrite (at_index_Done _ _ len) by (done || lia). rewrite bind_Done, zeller_spec by lia.
    set (w := weekday (days_before y + month_start (isleap y) (mon - 1))).
    assert (Hw7 : 0 <= w < 7) by (apply Z.mod_pos_bound; lia).
    set (d0 := if day - w <? 0 then day - w + DAYSPERWEEK else day - w).
    assert (H0 : 0 <= d0 < 7 /\ (w + d0) mod 7 = day).
    { unfold d0, DAYSPERWEEK. destruct (Z.ltb_spec (day - w) 0); (split; [lia|]); divs. }
    destruct (add_weeks_spec (Z.to_nat (week - 1)) d0 len) as (M & B & C); [lia|divs|lia|].
    set (d := add_weeks _ _ _) in *. clearbody d d0.
    eapply Fin; [exists d, len; split; [reflexivity|]|].
    + split; [done|]. split; [done|]. split; [|lia].
      unfold w, weekday in *. clear -M H0. divs.
    + rewrite add_months_spec, wrap_add. f_equal. rewrite Z2Nat.id by lia. lia.
Qed.

(** The last Sunday of October 2024, at 3 o'clock in the zone one hour to the east *)
Lemma transtime_correct_witness : exists d, rule_day_ok 2024 (MONTH_NTH_DAY_OF_WEEK 10 5 0) d /\
  (forall d', rule_day_ok 2024 (MONTH_NTH_DAY_OF_WEEK 10 5 0) d' -> d' = d) /\
  transtime (wrap_u 32 (days_before 2024 * SECSPERDAY)) 2024
    (mk_rule (MONTH_NTH_DAY_OF_WEEK 10 5 0) 10800) (-7200) =
    Done (wrap_u 32 ((days_before 2024 + d) * SECSPERDAY + 10800 + -7200)).
Proof.
  apply (transtime_correct 2024 (mk_rule (MONTH_NTH_DAY_OF_WEEK 10 5 0) 10800) (-7200)).
  - lia.
  - cbn. lia.
Defined.
