(* ===== verification/TzLoad.v ===== *)
(** * Loading time zones (src/src/libc/ansi/time/ctime.c)

    tzload, tzparse, gmtload, settzname, tzsetwall and tzset: the tables of a zone from
    a file or from the TZ string. Files are an argument, [files], from the name to the
    bytes (open, read and close); the environment is what getenv returns ([Env] shows
    that). The built-in rules are the bytes of posixrul.h. *)

From Stdlib Require Import String.
From stdpp Require Import base gmap list numbers.
From Stdlib Require Import ZArith Lia.
From S2P Require Import Prelude Calendar MkTime TzRules.

Open Scope Z_scope.
Open Scope c_scope.

Definition TZ_MAX_TIMES : Z := 1200.
Definition TZ_MAX_TYPES : Z := 10.
Definition TZ_MAX_CHARS : Z := 50.
Definition TZ_MAX_LEAPS : Z := 50.
Definition FILENAME_MAX : Z := 260.
Definition TZ_ABBR_MAX_LEN : Z := 16.
Definition TZ_STRLEN_MAX : Z := 255.
Definition sizeof_chars : Z := 51.
Definition sizeof_tzhead : Z := 44.

(** 6 counts, ats, types, ttis, chars and lsis, as the ABI lays them out *)
Definition sizeof_state : Z := 24 + 1200 * 4 + 1200 + 10 * 20 + 51 + 5 + 50 * 16 + 8.
Definition sizeof_buf : Z := sizeof_tzhead + sizeof_state + 2 * TZ_MAX_TIMES.

Definition TZDEFAULT : list Z := lit "/dev/env/DJDIR/etc/localtime".
Definition TZDEFRULES : list Z := lit "posixrules".
Definition TZDEFRULESTRING : list Z := lit ",M4.1.0,M10.5.0".
Definition gmt : list Z := lit "GMT".
Definition GRANDPARENTED : list Z := lit "Local time zone must be set--see zic manual page".
Definition TZ_ABBR_CHAR_SET : list Z :=
  lit "abcdefghijklmnopqrstuvwxyzABCDEFGHIJKLMNOPQRSTUVWXYZ0123456789 :+-._".

(** posixrul.h *)
Definition posixrules_data : list Z :=
  [84; 90; 105; 102; 0; 0; 0; 0; 0; 0; 0; 0; 0; 0; 0; 0; 0; 0; 0; 0; 0; 0; 0; 4; 0; 0; 0; 4; 0;
   0; 0; 0; 0; 0; 0; 235; 0; 0; 0; 4; 0; 0; 0; 16; 158; 166; 30; 112; 159; 186; 235; 96; 160;
   134; 0; 112; 161; 154; 205; 96; 162; 101; 226; 112; 163; 131; 233; 224; 164; 106; 174; 112;
   165; 53; 167; 96; 166; 83; 202; 240; 167; 21; 137; 96; 168; 51; 172; 240; 168; 254; 165; 224;
   170; 19; 142; 240; 170; 222; 135; 224; 171; 243; 112; 240; 172; 190; 105; 224; 173; 211; 82;
   240; 174; 158; 75; 224; 175; 179; 52; 240; 176; 126; 45; 224; 177; 156; 81; 112; 178; 103; 74;
   96; 179; 124; 51; 112; 180; 71; 44; 96; 181; 92; 21; 112; 182; 39; 14; 96; 183; 59; 247; 112;
   184; 6; 240; 96; 185; 27; 217; 112; 185; 230; 210; 96; 187; 4; 245; 240; 187; 198; 180; 96;
   188; 228; 215; 240; 189; 175; 208; 224; 190; 196; 185; 240; 191; 143; 178; 224; 192; 164; 155;
   240; 193; 111; 148; 224; 194; 132; 125; 240; 195; 79; 118; 224; 196; 100; 95; 240; 197; 47;
   88; 224; 198; 77; 124; 112; 199; 15; 58; 224; 200; 45; 94; 112; 200; 248; 87; 96; 202; 13; 64;
   112; 202; 216; 57; 96; 203; 136; 240; 112; 210; 35; 244; 112; 210; 96; 251; 224; 211; 117;
   228; 240; 212; 64; 221; 224; 213; 85; 198; 240; 214; 32; 191; 224; 215; 53; 168; 240; 216; 0;
   161; 224; 217; 21; 138; 240; 217; 224; 131; 224; 218; 254; 167; 112; 219; 192; 101; 224; 220;
   222; 137; 112; 221; 169; 130; 96; 222; 190; 107; 112; 223; 137; 100; 96; 224; 158; 77; 112;
   225; 105; 70; 96; 226; 126; 47; 112; 227; 73; 40; 96; 228; 94; 17; 112; 229; 87; 46; 224; 230;
   71; 45; 240; 231; 55; 16; 224; 232; 39; 15; 240; 233; 22; 242; 224; 234; 6; 241; 240; 234;
   246; 212; 224; 235; 230; 211; 240; 236; 214; 182; 224; 237; 198; 181; 240; 238; 191; 211; 96;
   239; 175; 210; 112; 240; 159; 181; 96; 241; 143; 180; 112; 242; 127; 151; 96; 243; 111; 150;
   112; 244; 95; 121; 96; 245; 79; 120; 112; 246; 63; 91; 96; 247; 47; 90; 112; 248; 40; 119;
   224; 249; 15; 60; 112; 250; 8; 89; 224; 250; 248; 88; 240; 251; 232; 59; 224; 252; 216; 58;
   240; 253; 200; 29; 224; 254; 184; 28; 240; 255; 167; 255; 224; 0; 151; 254; 240; 1; 135; 225;
   224; 2; 119; 224; 240; 3; 112; 254; 96; 4; 96; 253; 112; 5; 80; 224; 96; 6; 64; 223; 112; 7;
   48; 194; 96; 7; 141; 25; 112; 9; 16; 164; 96; 9; 173; 148; 240; 10; 240; 134; 96; 11; 224;
   133; 112; 12; 217; 162; 224; 13; 192; 103; 112; 14; 185; 132; 224; 15; 169; 131; 240; 16; 153;
   102; 224; 17; 137; 101; 240; 18; 121; 72; 224; 19; 105; 71; 240; 20; 89; 42; 224; 21; 73; 41;
   240; 22; 57; 12; 224; 23; 41; 11; 240; 24; 34; 41; 96; 25; 8; 237; 240; 26; 2; 11; 96; 26;
   242; 10; 112; 27; 225; 237; 96; 28; 209; 236; 112; 29; 193; 207; 96; 30; 177; 206; 112; 31;
   161; 177; 96; 32; 118; 0; 240; 33; 129; 147; 96; 34; 85; 226; 240; 35; 106; 175; 224; 36; 53;
   196; 240; 37; 74; 145; 224; 38; 21; 166; 240; 39; 42; 115; 224; 39; 254; 195; 112; 41; 10; 85;
   224; 41; 222; 165; 112; 42; 234; 55; 224; 43; 190; 135; 112; 44; 211; 84; 96; 45; 158; 105;
   112; 46; 179; 54; 96; 47; 126; 75; 112; 48; 147; 24; 96; 49; 103; 103; 240; 50; 114; 250; 96;
   51; 71; 73; 240; 52; 82; 220; 96; 53; 39; 43; 240; 54; 50; 190; 96; 55; 7; 13; 240; 56; 27;
   218; 224; 56; 230; 239; 240; 57; 251; 188; 224; 58; 198; 209; 240; 59; 219; 158; 224; 60; 175;
   238; 112; 61; 187; 128; 224; 62; 143; 208; 112; 63; 155; 98; 224; 64; 111; 178; 112; 65; 132;
   127; 96; 66; 79; 148; 112; 67; 100; 97; 96; 68; 47; 118; 112; 69; 68; 67; 96; 69; 243; 168;
   240; 71; 45; 95; 224; 71; 211; 138; 240; 73; 13; 65; 224; 73; 179; 108; 240; 74; 237; 35; 224;
   75; 156; 137; 112; 76; 214; 64; 96; 77; 124; 107; 112; 78; 182; 34; 96; 79; 92; 77; 112; 80;
   150; 4; 96; 81; 60; 47; 112; 82; 117; 230; 96; 83; 28; 17; 112; 84; 85; 200; 96; 84; 251; 243;
   112; 86; 53; 170; 96; 86; 229; 15; 240; 88; 30; 198; 224; 88; 196; 241; 240; 89; 254; 168;
   224; 90; 164; 211; 240; 91; 222; 138; 224; 92; 132; 181; 240; 93; 190; 108; 224; 94; 100; 151;
   240; 95; 158; 78; 224; 96; 77; 180; 112; 97; 135; 107; 96; 98; 45; 150; 112; 99; 103; 77; 96;
   100; 13; 120; 112; 101; 71; 47; 96; 101; 237; 90; 112; 103; 39; 17; 96; 103; 205; 60; 112;
   105; 6; 243; 96; 105; 173; 30; 112; 106; 230; 213; 96; 107; 150; 58; 240; 108; 207; 241; 224;
   109; 118; 28; 240; 110; 175; 211; 224; 111; 85; 254; 240; 112; 143; 181; 224; 113; 53; 224;
   240; 114; 111; 151; 224; 115; 21; 194; 240; 116; 79; 121; 224; 116; 254; 223; 112; 118; 56;
   150; 96; 118; 222; 193; 112; 120; 24; 120; 96; 120; 190; 163; 112; 121; 248; 90; 96; 122; 158;
   133; 112; 123; 216; 60; 96; 124; 126; 103; 112; 125; 184; 30; 96; 126; 94; 73; 112; 127; 152;
   0; 96; 0; 1; 0; 1; 0; 1; 0; 1; 0; 1; 0; 1; 0; 1; 0; 1; 0; 1; 0; 1; 0; 1; 0; 1; 0; 1; 0; 1; 0;
   1; 0; 1; 0; 1; 0; 1; 0; 1; 0; 1; 0; 1; 0; 1; 0; 1; 0; 1; 2; 3; 1; 0; 1; 0; 1; 0; 1; 0; 1; 0;
   1; 0; 1; 0; 1; 0; 1; 0; 1; 0; 1; 0; 1; 0; 1; 0; 1; 0; 1; 0; 1; 0; 1; 0; 1; 0; 1; 0; 1; 0; 1;
   0; 1; 0; 1; 0; 1; 0; 1; 0; 1; 0; 1; 0; 1; 0; 1; 0; 1; 0; 1; 0; 1; 0; 1; 0; 1; 0; 1; 0; 1; 0;
   1; 0; 1; 0; 1; 0; 1; 0; 1; 0; 1; 0; 1; 0; 1; 0; 1; 0; 1; 0; 1; 0; 1; 0; 1; 0; 1; 0; 1; 0; 1;
   0; 1; 0; 1; 0; 1; 0; 1; 0; 1; 0; 1; 0; 1; 0; 1; 0; 1; 0; 1; 0; 1; 0; 1; 0; 1; 0; 1; 0; 1; 0;
   1; 0; 1; 0; 1; 0; 1; 0; 1; 0; 1; 0; 1; 0; 1; 0; 1; 0; 1; 0; 1; 0; 1; 0; 1; 0; 1; 0; 1; 0; 1;
   0; 1; 0; 1; 0; 1; 0; 1; 0; 1; 0; 1; 0; 1; 0; 1; 0; 1; 0; 1; 255; 255; 199; 192; 1; 0; 255;
   255; 185; 176; 0; 4; 255; 255; 199; 192; 1; 8; 255; 255; 199; 192; 1; 12; 69; 68; 84; 0; 69;
   83; 84; 0; 69; 87; 84; 0; 69; 80; 84; 0; 0; 0; 0; 1; 0; 0; 0; 1].

(** ** Statements of the loader

    They change the table [*sp] and the cached directory; [None] is [return -1]. *)

(** [static char dir] and tzdir_bss_count *)
Record dircache := mk_dir { dir : list Z; tzdir_bss_count : Z }.

Definition tzio : Type := state * dircache.
Definition T (A : Type) : Type := tzio -> outcome (tzio * option A).

#[export] Instance T_ret : MRet T := fun A a s => Done (s, Some a).
#[export] Instance T_bind : MBind T := fun A B k m s =>
  '(s, r) ← m s; match r with None => Done (s, None) | Some a => k a s end.

Definition fail {A} : T A := fun s => Done (s, None).
Definition check (b : bool) : T unit := if b then mret () else fail.
Definition lift {A} (o : outcome A) : T A := fun s => a ← o; Done (s, Some a).
Definition from_option {A} (o : option A) : T A := match o with Some a => mret a | None => fail end.
Definition get : T state := fun s => Done (s, Some (fst s)).
Definition put (sp : state) : T unit := fun s => Done ((sp, snd s), Some ()).
Definition modify (f : state -> state) : T unit := fun s => Done ((f (fst s), snd s), Some ()).

(** Whether the call gives 0 *)
Definition attempt (m : T unit) : T bool := fun s =>
  '(s, r) ← m s; Done (s, Some (match r with Some _ => true | None => false end)).

(** [l[i] = a] *)
Definition put_index {A} (l : list A) (i : Z) (a : A) : outcome (list A) :=
  _ ← at_index l i; Done (<[Z.to_nat i := a]> l).

Definition set_counts (sp : state) (leap time type char : Z) : state :=
  mk_state leap time type char (goback sp) (goahead sp) (ats sp) (types sp) (ttis sp) (chars sp)
    (lsis sp) (defaulttype sp).

Definition set_timecnt (sp : state) (n : Z) : state :=
  set_counts sp (leapcnt sp) n (typecnt sp) (charcnt sp).
Definition set_typecnt (sp : state) (n : Z) : state :=
  set_counts sp (leapcnt sp) (timecnt sp) n (charcnt sp).
Definition set_charcnt (sp : state) (n : Z) : state :=
  set_counts sp (leapcnt sp) (timecnt sp) (typecnt sp) n.
Definition set_leapcnt (sp : state) (n : Z) : state :=
  set_counts sp n (timecnt sp) (typecnt sp) (charcnt sp).

Definition set_going (sp : state) (back ahead : bool) : state :=
  mk_state (leapcnt sp) (timecnt sp) (typecnt sp) (charcnt sp) back ahead (ats sp) (types sp)
    (ttis sp) (chars sp) (lsis sp) (defaulttype sp).

Definition set_arrays (sp : state) (a ty : list Z) (tt : list ttinfo) (ch : list Z)
    (ls : list lsinfo) : state :=
  mk_state (leapcnt sp) (timecnt sp) (typecnt sp) (charcnt sp) (goback sp) (goahead sp) a ty tt ch
    ls (defaulttype sp).

Definition set_defaulttype (sp : state) (i : Z) : state :=
  mk_state (leapcnt sp) (timecnt sp) (typecnt sp) (charcnt sp) (goback sp) (goahead sp) (ats sp)
    (types sp) (ttis sp) (chars sp) (lsis sp) i.

Definition put_time (i v : Z) : T unit :=
  sp ← get; l ← lift (put_index (ats sp) i v);
  put (set_arrays sp l (types sp) (ttis sp) (chars sp) (lsis sp)).
Definition put_type (i v : Z) : T unit :=
  sp ← get; l ← lift (put_index (types sp) i v);
  put (set_arrays sp (ats sp) l (ttis sp) (chars sp) (lsis sp)).
Definition put_tti (i : Z) (v : ttinfo) : T unit :=
  sp ← get; l ← lift (put_index (ttis sp) i v);
  put (set_arrays sp (ats sp) (types sp) l (chars sp) (lsis sp)).
Definition put_char (i v : Z) : T unit :=
  sp ← get; l ← lift (put_index (chars sp) i v);
  put (set_arrays sp (ats sp) (types sp) (ttis sp) l (lsis sp)).
Definition put_lsi (i : Z) (v : lsinfo) : T unit :=
  sp ← get; l ← lift (put_index (lsis sp) i v);
  put (set_arrays sp (ats sp) (types sp) (ttis sp) (chars sp) l).

Definition at_of (i : Z) : T Z := sp ← get; lift (at_index (ats sp) i).
Definition type_of (i : Z) : T Z := sp ← get; lift (at_index (types sp) i).
Definition tti_of (i : Z) : T ttinfo := sp ← get; lift (at_index (ttis sp) i).

(** [for (k = i; k < i + n; ++k) p = step(k, p)], with [p] the bytes that are left *)
Fixpoint for_each {P} (n : nat) (i : Z) (step : Z -> P -> T P) (p : P) : T P :=
  match n with
  | O => mret p
  | S n' => p ← step i p; for_each n' (i + 1) step p
  end.

(** ** The bytes of a file *)

(** [*p++]; the bytes past the end of what was read are not defined. *)
Definition next_byte (p : list Z) : T (Z * list Z) :=
  match p with [] => lift (Fail UB) | c :: p' => mret (c, p') end.

Definition detzcode (codep : list Z) : Z :=
  foldl (fun result c => wrap_s 32 (Z.lor (Z.shiftl result 8) (Z.land c 255)))
    (if Z.testbit (cur_char codep) 7 then -1 else 0) (take 4 codep).

(** detzcode of the next four bytes *)
Definition code (p : list Z) : T (Z * list Z) :=
  if Z.of_nat (length p) <? 4 then lift (Fail UB) else mret (detzcode p, drop 4 p).

Definition header (buf : list Z) (off : nat) : Z := detzcode (drop off buf).

Definition load_time (i : Z) (p : list Z) : T (list Z) :=
  '(v, p) ← code p; _ ← put_time i (wrap_u 32 v); mret p.

Definition load_type (i : Z) (p : list Z) : T (list Z) :=
  '(v, p) ← next_byte p; _ ← put_type i v; sp ← get;
  _ ← check (v <? typecnt sp); mret p.

Definition load_tti (i : Z) (p : list Z) : T (list Z) :=
  tt ← tti_of i;
  '(off, p) ← code p;
  '(isdst, p) ← next_byte p;
  _ ← put_tti i (mk_tt off isdst (tt_abbrind tt) (tt_ttisstd tt) (tt_ttisgmt tt));
  _ ← check ((isdst =? 0) || (isdst =? 1));
  '(abbrind, p) ← next_byte p;
  _ ← put_tti i (mk_tt off isdst abbrind (tt_ttisstd tt) (tt_ttisgmt tt));
  sp ← get;
  _ ← check (negb ((abbrind <? 0) || (charcnt sp <? abbrind))); mret p.

Definition load_char (i : Z) (p : list Z) : T (list Z) :=
  '(c, p) ← next_byte p; _ ← put_char i c; mret p.

Definition load_lsi (i : Z) (p : list Z) : T (list Z) :=
  '(trans, p) ← code p; '(corr, p) ← code p;
  _ ← put_lsi i (mk_ls (wrap_u 32 trans) corr); mret p.

(** A flag of a type: tt_ttisstd, or tt_ttisgmt if [g] is set *)
Definition load_flag (g : bool) (cnt i : Z) (p : list Z) : T (list Z) :=
  tt ← tti_of i;
  let set v := put_tti i (if g then mk_tt (tt_gmtoff tt) (tt_isdst tt) (tt_abbrind tt) (tt_ttisstd tt) v
    else mk_tt (tt_gmtoff tt) (tt_isdst tt) (tt_abbrind tt) v (tt_ttisgmt tt)) in
  if cnt =? 0 then _ ← set 0; mret p
  else
    '(c, p) ← next_byte p;
    _ ← set (wrap_s 8 c);
    _ ← check ((wrap_s 8 c =? 1) || (wrap_s 8 c =? 0)); mret p.

(** The index of the first transition that is out of order, or past INT32_MAX and last *)
Fixpoint out_of_sort (n : nat) (i : Z) : T (option Z) :=
  match n with
  | O => mret None
  | S n' =>
      sp ← get;
      a ← at_of i;
      bad ← (if i <? timecnt sp - 1 then b ← at_of (i + 1); mret (b <? a) else mret (2 ^ 31 - 1 <? a));
      if bad : bool then mret (Some i) else out_of_sort n' (i + 1)
  end.

(** Ignore the transitions before [i], and let [i] start with the epoch. *)
Definition ignore_beginning (i : Z) : T unit :=
  sp ← get;
  _ ← put_time i 0;
  let cnt := timecnt sp - i in
  _ ← for_each (Z.to_nat cnt) 0 (fun j _ =>
    a ← at_of (j + i); _ ← put_time j a; ty ← type_of (j + i); put_type j ty) ();
  modify (fun sp => set_timecnt sp cnt).

(** ** The type for early times *)

(** A time_t has less than SECSPERREPEAT_BITS bits. *)
Definition differ_by_repeat (t1 t0 : Z) : bool :=
  if 32 - 0 <? 34 then false else t1 - t0 =? YEARSPERREPEAT * AVGSECSPERYEAR.

(** The string at an index of [chars] *)
Fixpoint until_nul (l : list Z) : outcome (list Z) :=
  match l with
  | [] => Fail UB
  | c :: l' => if c =? 0 then Done [] else r ← until_nul l'; Done (c :: r)
  end.

Definition abbr_at (sp : state) (i : Z) : outcome (list Z) :=
  if (i <? 0) || (Z.of_nat (length (chars sp)) <? i) then Fail UB
  else until_nul (drop (Z.to_nat i) (chars sp)).

Definition typesequiv (a b : Z) : T bool :=
  sp ← get;
  if (a <? 0) || (typecnt sp <=? a) || (b <? 0) || (typecnt sp <=? b) then mret false
  else
    ap ← tti_of a; bp ← tti_of b;
    if (tt_gmtoff ap =? tt_gmtoff bp) && (tt_isdst ap =? tt_isdst bp) &&
       (tt_ttisstd ap =? tt_ttisstd bp) && (tt_ttisgmt ap =? tt_ttisgmt bp) then
      x ← lift (abbr_at sp (tt_abbrind ap)); y ← lift (abbr_at sp (tt_abbrind bp));
      mret (bool_decide (x = y))
    else mret false.

(** Whether a transition in the list is a repetition of the one at [k] *)
Fixpoint repeats (k : Z) (later : bool) (l : list Z) : T bool :=
  match l with
  | [] => mret false
  | i :: rest =>
      ti ← type_of i; tk ← type_of k;
      same ← (if later then typesequiv ti tk else typesequiv tk ti);
      if same : bool then
        ai ← at_of i; ak ← at_of k;
        if (if later then differ_by_repeat ai ak else differ_by_repeat ak ai) then mret true
        else repeats k later rest
      else repeats k later rest
  end.

Definition range (from to : Z) : list Z := (fun k => from + Z.of_nat k) <$> seq 0 (Z.to_nat (to - from)).

Definition find_cycles : T unit :=
  sp ← get;
  if 1 <? timecnt sp then
    back ← repeats 0 true (range 1 (timecnt sp));
    _ ← modify (fun sp => set_going sp (back || goback sp) (goahead sp));
    ahead ← repeats (timecnt sp - 1) false (rev (range 0 (timecnt sp - 1)));
    modify (fun sp => set_going sp (goback sp) (ahead || goahead sp))
  else mret ().

(** [for (i = 0; i < sp->typecnt; ++i) if (sp->types[i] == 0) break;] *)
Fixpoint type0_used (n : nat) (i : Z) : T bool :=
  match n with
  | O => mret false
  | S n' => ty ← type_of i; if ty =? 0 then mret true else type0_used n' (i + 1)
  end.

(** [while (--i > -1)]: the standard type before [i], or -1 *)
Fixpoint std_before (n : nat) : T Z :=
  match n with
  | O => mret (-1)
  | S n' => tt ← tti_of (Z.of_nat n'); if tt_isdst tt =? 0 then mret (Z.of_nat n') else std_before n'
  end.

(** The first standard type, or 0 *)
Fixpoint first_std (n : nat) (i cnt : Z) : T Z :=
  match n with
  | O => mret 0
  | S n' =>
      tt ← tti_of i;
      if tt_isdst tt =? 0 then mret i
      else if cnt <=? i + 1 then mret 0 else first_std n' (i + 1) cnt
  end.

Definition early_type : T unit :=
  sp ← get;
  used ← type0_used (Z.to_nat (typecnt sp)) 0;
  let i := if used : bool then -1 else 0 in
  i ← (if (i <? 0) && (0 <? timecnt sp) then
         t0 ← type_of 0; tt ← tti_of t0;
         if negb (tt_isdst tt =? 0) then std_before (Z.to_nat t0) else mret i
       else mret i);
  i ← (if i <? 0 then first_std (Z.to_nat (typecnt sp)) 0 (typecnt sp) else mret i);
  modify (fun sp => set_defaulttype sp i).

(** ** tzload *)

Section Load.
(** What a file of that name has in it, where it can be opened; what getenv gives for
    a name; [__bss_count]; and the automatic variable [ts], which has no initial value *)
Context (files : list Z -> option (list Z)) (env : list Z -> option (list Z)).
Context (bss_count : Z) (ts0 : state).

(** strcpy into [dir] of FILENAME_MAX + 1 bytes *)
Definition fits (s : list Z) : outcome (list Z) :=
  if Z.of_nat (length s) <? FILENAME_MAX + 1 then Done s else Fail UB.

Definition tzdir : T (list Z) := fun '(sp, d) =>
  let cur := if negb (tzdir_bss_count d =? bss_count) then [] else dir d in
  r ← (if bool_decide (cur = []) then
         match env (lit "TZDIR") with
         | Some cp => fits cp
         | None =>
             match env (lit "DJDIR") with
             | Some cp => _ ← fits cp; fits (cp ++ lit "/zoneinfo")
             | None => fits (lit "./")
             end
         end
       else Done cur);
  Done ((sp, mk_dir r bss_count), Some r).

(** name[0] and name[1] *)
Definition IS_ABSOLUTE (name : list Z) : bool :=
  (cur_char name =? 47) || (cur_char name =? 92) || (cur_char (tail name) =? 58).

(** The name of the file *)
Definition full_name (name : list Z) : T (list Z) :=
  let name := if cur_char name =? 58 then tail name else name in
  if negb (cur_char name =? 0) && negb (IS_ABSOLUTE name) then
    p ← tzdir;
    if FILENAME_MAX + 1 <=? Z.of_nat (length p) + Z.of_nat (length name) + 1 then fail
    else mret (p ++ 47 :: name)
  else mret name.

(** What follows the last byte that satisfies [f], if there is one *)
Fixpoint after_last (f : Z -> bool) (l : list Z) : option (list Z) :=
  match l with
  | [] => None
  | c :: l' => match after_last f l' with Some r => Some r | None => if f c then Some l' else None end
  end.

Definition base_of (name : list Z) : list Z :=
  match after_last (fun c => (c =? 47) || (c =? 92)) name with
  | Some r => r
  | None => if cur_char (tail name) =? 58 then tail (tail name) else name
  end.

(** The bytes read, as many as fit in [buf] *)
Definition read_file (name : list Z) : T (list Z) :=
  match files name with
  | None =>
      if bool_decide (base_of name = lit "posixrules") then mret posixrules_data else fail
  | Some bytes =>
      let buf := take (Z.to_nat sizeof_buf) bytes in
      if Z.of_nat (length buf) <? sizeof_tzhead then fail else mret buf
  end.

(** The arrays, with leapcnt, timecnt, typecnt, charcnt, ttisstdcnt and ttisgmtcnt *)
Definition load_arrays (nl nt ny nc std g : Z) (p : list Z) : T unit :=
  p ← for_each (Z.to_nat nt) 0 load_time p;
  p ← for_each (Z.to_nat nt) 0 load_type p;
  p ← for_each (Z.to_nat ny) 0 load_tti p;
  p ← for_each (Z.to_nat nc) 0 load_char p;
  _ ← put_char nc 0;
  p ← for_each (Z.to_nat nl) 0 load_lsi p;
  p ← for_each (Z.to_nat ny) 0 (load_flag false std) p;
  _ ← for_each (Z.to_nat ny) 0 (load_flag true g) p;
  mret ().

Definition counts_ok (sp : state) (ttisstdcnt ttisgmtcnt : Z) : bool :=
  negb ((leapcnt sp <? 0) || (TZ_MAX_LEAPS <? leapcnt sp) ||
        (typecnt sp <=? 0) || (TZ_MAX_TYPES <? typecnt sp) ||
        (timecnt sp <? 0) || (TZ_MAX_TIMES <? timecnt sp) ||
        (charcnt sp <? 0) || (TZ_MAX_CHARS <? charcnt sp) ||
        (negb (ttisstdcnt =? typecnt sp) && negb (ttisstdcnt =? 0)) ||
        (negb (ttisgmtcnt =? typecnt sp) && negb (ttisgmtcnt =? 0))).

Definition enough (nread : Z) (sp : state) (ttisstdcnt ttisgmtcnt : Z) : bool :=
  negb (nread <? sizeof_tzhead + timecnt sp * 4 + timecnt sp + typecnt sp * (4 + 2) +
        charcnt sp + leapcnt sp * 2 * 4 + ttisstdcnt + ttisgmtcnt).

(** The counts of the header, and the arrays *)
Definition load_tables (buf : list Z) : T unit :=
  let ttisgmtcnt := header buf 20 in
  let ttisstdcnt := header buf 24 in
  _ ← modify (fun sp => set_counts sp (header buf 28) (header buf 32) (header buf 36) (header buf 40));
  sp ← get;
  _ ← check (counts_ok sp ttisstdcnt ttisgmtcnt);
  _ ← check (enough (Z.of_nat (length buf)) sp ttisstdcnt ttisgmtcnt);
  _ ← load_arrays (leapcnt sp) (timecnt sp) (typecnt sp) (charcnt sp) ttisstdcnt ttisgmtcnt
    (drop (Z.to_nat sizeof_tzhead) buf);
  bad ← out_of_sort (Z.to_nat (timecnt sp)) 0;
  match bad with Some i => ignore_beginning i | None => mret () end.

(** [extend] stands for the part under [doextend]. *)
Definition tzload_with (extend : list Z -> T unit) (name : option (list Z)) : T unit :=
  _ ← modify (fun sp => set_going sp false false);
  name ← full_name (match name with Some n => n | None => TZDEFAULT end);
  buf ← read_file name;
  _ ← load_tables buf;
  _ ← extend buf;
  _ ← find_cycles;
  early_type.

(** ** tzparse *)

(** The zone name at [name]: the name and what follows it *)
Definition zone_name (name : list Z) : option (list Z * list Z) :=
  if cur_char name =? 60 then
    let stdname := tail name in
    let name := getqzname stdname 62 in
    if negb (cur_char name =? 62) then None
    else Some (take (length stdname - length name) stdname, tail name)
  else
    let rest := getzname name in
    Some (take (length name - length rest) name, rest).

Definition zttinfo (gmtoff isdst abbrind : Z) : ttinfo := mk_tt gmtoff isdst abbrind 0 0.

(** One year of [for (year = EPOCH_YEAR; ...)] *)
Definition add_year (start stop : rule) (stdoffset dstoffset year janfirst : Z) : T unit :=
  sp ← get;
  starttime ← lift (transtime janfirst year start stdoffset);
  endtime ← lift (transtime janfirst year stop dstoffset);
  let n := timecnt sp in
  _ ← (if endtime <? starttime then
         _ ← put_time n endtime; _ ← put_type n 1; _ ← put_time (n + 1) starttime; put_type (n + 1) 0
       else
         _ ← put_time n starttime; _ ← put_type n 0; _ ← put_time (n + 1) endtime; put_type (n + 1) 1);
  modify (fun sp => set_timecnt sp (n + 2)).

Fixpoint add_years (fuel : nat) (start stop : rule) (stdoffset dstoffset year janfirst : Z) : T unit :=
  match fuel with
  | O => lift (Fail NoFuel)
  | S fuel' =>
      sp ← get;
      if timecnt sp + 2 <=? TZ_MAX_TIMES then
        _ ← add_year start stop stdoffset dstoffset year janfirst;
        let newfirst := wrap_u 32 (janfirst + year_lengths (isleap year) * SECSPERDAY) in
        if newfirst <=? janfirst then mret ()
        else add_years fuel' start stop stdoffset dstoffset (year + 1) newfirst
      else mret ()
  end.

(** The rules after the comma *)
Definition parse_rules (name : list Z) (stdoffset dstoffset stdlen : Z) : T unit :=
  '(start, name) ← from_option (getrule name);
  _ ← check (cur_char name =? 44);
  '(stop, name) ← from_option (getrule (tail name));
  _ ← check (cur_char name =? 0);
  _ ← modify (fun sp => set_typecnt sp 2);
  _ ← put_tti 0 (zttinfo (- dstoffset) 1 (stdlen + 1));
  _ ← put_tti 1 (zttinfo (- stdoffset) 0 0);
  _ ← modify (fun sp => set_timecnt sp 0);
  add_years (Z.to_nat TZ_MAX_TIMES) start stop stdoffset dstoffset EPOCH_YEAR 0.

(** The offset of the first transition to a type with the given tt_isdst, or 0 *)
Fixpoint their_offset (dst : bool) (n : nat) (i : Z) : T Z :=
  match n with
  | O => mret 0
  | S n' =>
      j ← type_of i; tt ← tti_of j;
      if Bool.eqb (negb (tt_isdst tt =? 0)) dst then mret (- tt_gmtoff tt)
      else their_offset dst n' (i + 1)
  end.

(** One round of the loop that moves the transitions; [isdst] stays FALSE. *)
Definition move_transition (stdoffset dstoffset i : Z) (theirs : Z * Z) : T (Z * Z) :=
  let '(theirstdoffset, theirdstoffset) := theirs in
  let isdst := false in
  j ← type_of i;
  tt ← tti_of j;
  _ ← put_type i (wrap_u 8 (tt_isdst tt));
  _ ← (if negb (tt_ttisgmt tt =? 0) then mret ()
       else
         a ← at_of i;
         put_time i (wrap_u 32 (a + (if isdst && (tt_ttisstd tt =? 0) then dstoffset - theirdstoffset
                                   else stdoffset - theirstdoffset))));
  let theiroffset := - tt_gmtoff tt in
  if negb (tt_isdst tt =? 0) then mret (theirstdoffset, theiroffset)
  else mret (theiroffset, theirdstoffset).

Definition move_transitions (stdoffset dstoffset stdlen : Z) : T unit :=
  sp ← get;
  let n := Z.to_nat (timecnt sp) in
  theirstdoffset ← their_offset false n 0;
  theirdstoffset ← their_offset true n 0;
  _ ← for_each n 0 (move_transition stdoffset dstoffset) (theirstdoffset, theirdstoffset);
  _ ← put_tti 0 (zttinfo (- stdoffset) 0 0);
  _ ← put_tti 1 (zttinfo (- dstoffset) 1 (stdlen + 1));
  modify (fun sp => set_typecnt sp 2).

(** The daylight saving time at [name]; the name of that zone *)
Definition parse_dst (loaded : bool) (name : list Z) (stdoffset stdlen : Z) : T (list Z) :=
  '(dstname, name) ← from_option (zone_name name);
  '(dstoffset, name) ←
    (if negb (cur_char name =? 0) && negb (cur_char name =? 44) && negb (cur_char name =? 59) then
       from_option (getoffset name)
     else mret (stdoffset - SECSPERHOUR, name));
  let name := if (cur_char name =? 0) && negb loaded then TZDEFRULESTRING else name in
  _ ← (if (cur_char name =? 44) || (cur_char name =? 59) then
         parse_rules (tail name) stdoffset dstoffset stdlen
       else
         _ ← check (cur_char name =? 0); move_transitions stdoffset dstoffset stdlen);
  mret dstname.

Definition only_std (stdoffset : Z) : T (list Z) :=
  _ ← modify (fun sp => set_timecnt (set_typecnt sp 1) 0);
  tt ← tti_of 0;
  _ ← put_tti 0 (mk_tt (- stdoffset) 0 0 (tt_ttisstd tt) (tt_ttisgmt tt));
  _ ← modify (fun sp => set_defaulttype sp 0);
  mret [].

(** Copy a name and a null byte to [chars], from the index [i] on. *)
Definition put_name (i : Z) (name : list Z) : T unit :=
  _ ← for_each (length name) i (fun k p => '(c, p) ← next_byte p; _ ← put_char k c; mret p) name;
  put_char (i + Z.of_nat (length name)) 0.

Definition put_names (stdname dstname : list Z) : T unit :=
  let stdlen := Z.of_nat (length stdname) in
  let dstlen := Z.of_nat (length dstname) in
  let charcnt := stdlen + 1 + (if negb (dstlen =? 0) then dstlen + 1 else 0) in
  _ ← modify (fun sp => set_charcnt sp charcnt);
  _ ← check (negb (sizeof_chars <? charcnt));
  _ ← put_name 0 stdname;
  if negb (dstlen =? 0) then put_name (stdlen + 1) dstname else mret ().

(** The standard zone: its name, its offset and what follows *)
Definition parse_std (name : list Z) (lastditch : bool) : option (list Z * Z * list Z) :=
  if lastditch then Some (take (Z.to_nat (sizeof_chars - 1)) name, 0, [])
  else
    '(stdname, name) ← zone_name name;
    if cur_char name =? 0 then None
    else '(stdoffset, name) ← getoffset name; Some (stdname, stdoffset, name).

Definition tzparse (name : list Z) (lastditch : bool) : T unit :=
  '(stdname, stdoffset, name) ← from_option (parse_std name lastditch);
  loaded ← attempt (tzload_with (fun _ => mret ()) (Some TZDEFRULES));
  _ ← (if loaded : bool then mret () else modify (fun sp => set_leapcnt sp 0));
  dstname ← (if negb (cur_char name =? 0) then
               parse_dst loaded name stdoffset (Z.of_nat (length stdname))
             else only_std stdoffset);
  put_names stdname dstname.

(** ** The extension of a file's transitions *)

Fixpoint append_chars (l : list Z) : T unit :=
  match l with
  | [] => mret ()
  | c :: l' =>
      sp ← get;
      _ ← put_char (charcnt sp) c;
      _ ← modify (fun sp => set_charcnt sp (charcnt sp + 1));
      append_chars l'
  end.

(** The transitions of [ts], those up to the last one of [*sp] left out *)
Fixpoint append_times (l : list (Z * Z)) (skip : bool) : T unit :=
  match l with
  | [] => mret ()
  | (a, ty) :: l' =>
      sp ← get;
      later ← (if skip then last ← at_of (timecnt sp - 1); mret (last <? a) else mret true);
      if later : bool then
        if timecnt sp <? TZ_MAX_TIMES then
          _ ← put_time (timecnt sp) a;
          _ ← put_type (timecnt sp) (wrap_u 8 (typecnt sp + ty));
          _ ← modify (fun sp => set_timecnt sp (timecnt sp + 1));
          append_times l' false
        else mret ()
      else append_times l' skip
  end.

Definition append_tti (tt : ttinfo) (shift : Z) : T unit :=
  sp ← get;
  _ ← put_tti (typecnt sp) (mk_tt (tt_gmtoff tt) (tt_isdst tt) (tt_abbrind tt + shift)
    (tt_ttisstd tt) (tt_ttisgmt tt));
  modify (fun sp => set_typecnt sp (typecnt sp + 1)).

(** Run on the table [ts]: the result, and the new cache. *)
Definition on_table (ts : state) (m : T unit) : T (option state) := fun s =>
  '((ts, d), r) ← m (ts, snd s);
  Done ((fst s, d), Some (match r with Some _ => Some ts | None => None end)).

Definition cut_nul (l : list Z) : list Z := take (length l - length (getqzname l 0)) l.

Definition extend_file (buf : list Z) : T unit :=
  sp ← get;
  if (2 <? Z.of_nat (length buf)) && (cur_char buf =? 10) &&
     (List.last buf 0 =? 10) && (typecnt sp + 2 <=? TZ_MAX_TYPES) then
    r ← on_table ts0 (tzparse (cut_nul (removelast (tail buf))) false);
    match r with
    | Some ts =>
        if (typecnt ts =? 2) && (charcnt sp + charcnt ts <=? TZ_MAX_CHARS) then
          tt0 ← lift (at_index (ttis ts) 0);
          tt1 ← lift (at_index (ttis ts) 1);
          let n := Z.to_nat (timecnt ts) in
          _ ← append_chars (take (Z.to_nat (charcnt ts)) (chars ts));
          _ ← append_times (zip (take n (ats ts)) (take n (types ts))) true;
          _ ← append_tti tt0 (charcnt sp);
          append_tti tt1 (charcnt sp)
        else mret ()
    | None => mret ()
    end
  else mret ().

Definition tzload (name : option (list Z)) (doextend : bool) : T unit :=
  tzload_with (if doextend then extend_file else fun _ => mret ()) name.

Definition gmtload : T unit :=
  ok ← attempt (tzload (Some gmt) true);
  if ok : bool then mret ()
  else _ ← attempt (tzparse gmt true); mret ().

(** ** settzname *)

(** tzname[tt_isdst] for the types in the list *)
Fixpoint name_types (sp : state) (l : list Z) (names : list zone) : outcome (list zone) :=
  match l with
  | [] => Done names
  | i :: l' =>
      tt ← at_index (ttis sp) i;
      names ← put_index names (tt_isdst tt) (ZChars (tt_abbrind tt));
      name_types sp l' names
  end.

Definition scrub_char (c : Z) : Z :=
  if bool_decide (c = 0) || bool_decide (c ∈ TZ_ABBR_CHAR_SET) then c else 95.

(** The abbreviations of the types, cut after TZ_ABBR_MAX_LEN characters *)
Fixpoint truncate_abbrs (tts : list ttinfo) (sp : state) : outcome state :=
  match tts with
  | [] => Done sp
  | ti :: tts' =>
      cp ← abbr_at sp (tt_abbrind ti);
      if (TZ_ABBR_MAX_LEN <? Z.of_nat (length cp)) && negb (bool_decide (cp = GRANDPARENTED)) then
        ch ← put_index (chars sp) (tt_abbrind ti + TZ_ABBR_MAX_LEN) 0;
        truncate_abbrs tts' (set_arrays sp (ats sp) (types sp) (ttis sp) ch (lsis sp))
      else truncate_abbrs tts' sp
  end.

Definition settzname (sp : state) : outcome (state * list zone) :=
  let times := take (Z.to_nat (timecnt sp)) (types sp) in
  names ← name_types sp (range 0 (typecnt sp)) [ZWild; ZWild];
  names ← name_types sp times names;
  let n := Z.to_nat (charcnt sp) in
  let ch := (scrub_char <$> take n (chars sp)) ++ drop n (chars sp) in
  let sp := set_arrays sp (ats sp) (types sp) (ttis sp) ch (lsis sp) in
  sp ← truncate_abbrs (take (Z.to_nat (typecnt sp)) (ttis sp)) sp;
  Done (sp, names).

(** ** The static variables and tzset *)

Record tzstatics := mk_statics {
  vars : tzvars; cache : dircache;
  lcl_TZname : list Z; lcl_is_set : Z; gmt_is_set : bool; last_env_changed : Z }.

(** Fill the table of the local zone, and then tzname. *)
Definition set_lcl (st : tzstatics) (m : T unit) : outcome tzstatics :=
  '((sp, d), _) ← m (lclptr (vars st), cache st);
  '(sp, names) ← settzname sp;
  Done (mk_statics (mk_tz sp (gmtptr (vars st)) names) d (lcl_TZname st) (lcl_is_set st)
    (gmt_is_set st) (last_env_changed st)).

Definition set_is_set (st : tzstatics) (n : Z) : tzstatics :=
  mk_statics (vars st) (cache st) (lcl_TZname st) n (gmt_is_set st) (last_env_changed st).

Definition tzsetwall (st : tzstatics) : outcome tzstatics :=
  if lcl_is_set st =? -1 then Done st
  else
    set_lcl (set_is_set st (-1)) (
      ok ← attempt (tzload None true);
      if ok : bool then mret () else gmtload).

(** [*name == '\0'] *)
Definition fast_gmt : T unit :=
  _ ← modify (fun sp => set_timecnt (set_leapcnt sp 0) 0);
  tt ← tti_of 0;
  _ ← put_tti 0 (mk_tt 0 0 0 (tt_ttisstd tt) (tt_ttisgmt tt));
  put_name 0 gmt.

Definition load_or_parse (name : list Z) : T unit :=
  ok ← attempt (tzload (Some name) true);
  if ok : bool then mret ()
  else
    ok ← (if cur_char name =? 58 then mret false else attempt (tzparse name false));
    if ok : bool then mret () else gmtload.

Definition lower (c : Z) : Z := if (65 <=? c) && (c <=? 90) then c + 32 else c.

Definition tzset (environ_changed : Z) (st : tzstatics) : outcome tzstatics :=
  if (0 <? lcl_is_set st) && (environ_changed =? last_env_changed st) then Done st
  else
    let st := mk_statics (vars st) (cache st) (lcl_TZname st) (lcl_is_set st) (gmt_is_set st)
      environ_changed in
    match env (lit "TZ") with
    | None =>
        if 0 <? lcl_is_set st then Done st
        else st ← tzsetwall st; Done (set_is_set st 1)
    | Some name =>
        if (0 <? lcl_is_set st) && bool_decide (lower <$> name = lower <$> lcl_TZname st) then Done st
        else
          let short := Z.of_nat (length name) <? TZ_STRLEN_MAX + 1 in
          let st := mk_statics (vars st) (cache st) (if short then name else lcl_TZname st)
            (if short then 1 else 0) (gmt_is_set st) (last_env_changed st) in
          set_lcl st (if cur_char name =? 0 then fast_gmt else load_or_parse name)
    end.

Definition with_vars (st : tzstatics) (v : tzvars) : tzstatics :=
  mk_statics v (cache st) (lcl_TZname st) (lcl_is_set st) (gmt_is_set st) (last_env_changed st).

(** localtime; [t] is its [static struct tm]. *)
Definition localtime (environ_changed : Z) (st : tzstatics) (timep : Z) (t : tm)
  : outcome (tzstatics * tm * bool) :=
  st ← tzset environ_changed st;
  '(v, t, ok) ← localtime_r (vars st) timep t;
  Done (with_vars st v, t, ok).

Definition mktime (environ_changed : Z) (st : tzstatics) (tmp : option tm)
  : outcome (tzstatics * option tm * Z * option Z) :=
  st ← tzset environ_changed st;
  '(v, t, r, errno) ← mktime_set (vars st) tmp;
  Done (with_vars st v, t, r, errno).

(** gmtsub with its table *)
Definition gmtsub_load (st : tzstatics) (timep offset : Z) (tmp : tm)
  : outcome (tzstatics * tm * bool) :=
  st ← (if gmt_is_set st then Done st
        else
          '((sp, d), _) ← gmtload (gmtptr (vars st), cache st);
          Done (mk_statics (mk_tz (lclptr (vars st)) sp (tzname (vars st))) d (lcl_TZname st)
            (lcl_is_set st) true (last_env_changed st)));
  let sp := gmtptr (vars st) in
  '(tmp, ok) ← gmtsub (take (Z.to_nat (leapcnt sp)) (lsis sp)) timep offset tmp;
  Done (st, tmp, ok).

End Load.

(** The variables as a program starts with them *)
Definition zero_state : state :=
  mk_state 0 0 0 0 false false (replicate (Z.to_nat TZ_MAX_TIMES) 0)
    (replicate (Z.to_nat TZ_MAX_TIMES) 0) (replicate (Z.to_nat TZ_MAX_TYPES) (mk_tt 0 0 0 0 0))
    (replicate (Z.to_nat sizeof_chars) 0) (replicate (Z.to_nat TZ_MAX_LEAPS) (mk_ls 0 0)) 0.

Definition statics0 : tzstatics :=
  mk_statics (mk_tz zero_state zero_state [ZWild; ZWild]) (mk_dir [] (-1)) [] 0 false 0.
