(* ===== verification/TzSafe.v ===== *)
(** * Loading a time zone is safe

    Whatever the TZ string, the environment and the bytes of the files, tzset reads and
    writes inside its buffers and leaves tables whose indices are in range, so that
    localtime is defined. Weakest preconditions of the loader's statements carry the
    proofs; the property itself is an invariant of the calls a program can make. *)

From Stdlib Require Import String.
From stdpp Require Import base gmap list numbers.
From Stdlib Require Import ZArith Lia.
From S2P Require Import Prelude Calendar MkTime TzRules TzLoad.

Open Scope Z_scope.
Open Scope c_scope.

(** ** Weakest preconditions *)

Definition wp {A} (m : T A) (Q : tzio -> option A -> Prop) (s : tzio) : Prop :=
  match m s with Done (s', r) => Q s' r | Fail _ => False end.

(** The postcondition [Q] for a result, [F] for [return -1] *)
Definition post {A} (F : tzio -> Prop) (Q : A -> tzio -> Prop) (s : tzio) (r : option A) : Prop :=
  match r with Some a => Q a s | None => F s end.

Lemma wp_Done {A} (m : T A) Q s : wp m Q s -> exists s' r, m s = Done (s', r) /\ Q s' r.
Proof. unfold wp. destruct (m s) as [[s' r]|]; [eauto|done]. Qed.

Lemma wp_conseq {A} (m : T A) (Q Q' : tzio -> option A -> Prop) s :
  wp m Q s -> (forall s r, Q s r -> Q' s r) -> wp m Q' s.
Proof. unfold wp. destruct (m s) as [[s' r]|]; auto. Qed.

Lemma wp_eqn {A} (m : T A) Q s : wp m Q s -> wp m (fun s' r => m s = Done (s', r) /\ Q s' r) s.
Proof. unfold wp. by destruct (m s) as [[s' r]|]. Qed.

Lemma wp_ret {A} (a : A) Q s : Q s (Some a) -> wp (mret a) Q s.
Proof. done. Qed.

Lemma wp_bind {A B} (m : T A) (k : A -> T B) Q s :
  wp m (fun s' r => match r with Some a => wp (k a) Q s' | None => Q s' None end) s ->
  wp (m ≫= k) Q s.
Proof.
  unfold wp, mbind at 1, T_bind. destruct (m s) as [[s' [a|]]|]; [|done..].
  rewrite bind_Done. done.
Qed.

(** A statement that gives a result is followed by the rest. *)
Lemma wp_then {A B} (m : T A) (k : A -> T B) F (R : A -> tzio -> Prop) Q s :
  wp m (post F R) s -> (forall s, F s -> Q s None) -> (forall a s, R a s -> wp (k a) Q s) ->
  wp (m ≫= k) Q s.
Proof. intros H HF HR. apply wp_bind. eapply wp_conseq; [exact H|]. intros s' [a|]; cbn; auto. Qed.

Lemma wp_lift {A} (o : outcome A) a Q s : o = Done a -> Q s (Some a) -> wp (lift o) Q s.
Proof. unfold wp, lift. by intros ->. Qed.

Lemma wp_get Q s : Q s (Some (fst s)) -> wp get Q s.
Proof. done. Qed.

Lemma wp_modify f Q s : Q (f (fst s), snd s) (Some ()) -> wp (modify f) Q s.
Proof. done. Qed.

Lemma wp_put sp Q s : Q (sp, snd s) (Some ()) -> wp (put sp) Q s.
Proof. done. Qed.

Lemma wp_check b Q s : (b = true -> Q s (Some ())) -> (b = false -> Q s None) -> wp (check b) Q s.
Proof. destruct b; [intros H _|intros _ H]; by apply H. Qed.

Lemma wp_attempt m Q s :
  wp m (fun s r => Q s (Some (match r with Some _ => true | None => false end))) s ->
  wp (attempt m) Q s.
Proof. unfold wp, attempt. by destruct (m s) as [[s' [a|]]|]. Qed.

Lemma wp_for_each {P} F (I : Z -> P -> tzio -> Prop) n i step p s :
  (forall k p s, i <= k < i + Z.of_nat n -> I k p s -> wp (step k p) (post F (I (k + 1))) s) ->
  I i p s -> wp (for_each n i step p) (post F (I (i + Z.of_nat n))) s.
Proof.
  revert i p s. induction n as [|n IH]; intros i p s Hstep Hi; cbn [for_each].
  - apply wp_ret. cbn. by replace (i + Z.of_nat 0) with i by lia.
  - eapply wp_then; [apply Hstep; [lia|exact Hi]|done|]. intros p' s' Hi'.
    replace (i + Z.of_nat (S n)) with (i + 1 + Z.of_nat n) by lia.
    apply IH; [|done]. intros. apply Hstep; [lia|done].
Qed.

(** ** Arrays *)

Lemma at_index_in {A} (l : list A) i : 0 <= i < Z.of_nat (length l) ->
  exists a, l !! Z.to_nat i = Some a /\ at_index l i = Done a.
Proof.
  intros Hi. destruct (lookup_lt_is_Some_2 l (Z.to_nat i)) as [a Ha]; [lia|].
  exists a. split; [done|]. apply at_index_Done; [lia|done].
Qed.

Lemma put_index_in {A} (l : list A) i a : 0 <= i < Z.of_nat (length l) ->
  put_index l i a = Done (<[Z.to_nat i := a]> l).
Proof. intros Hi. destruct (at_index_in l i Hi) as (x & _ & E). unfold put_index. by rewrite E. Qed.

(** The arrays have their sizes, the last abbreviation ends, and no zone repeats. *)
Record shape (sp : state) : Prop := {
  sh_ats : Z.of_nat (length (ats sp)) = TZ_MAX_TIMES;
  sh_types : Z.of_nat (length (types sp)) = TZ_MAX_TIMES;
  sh_ttis : Z.of_nat (length (ttis sp)) = TZ_MAX_TYPES;
  sh_chars : Z.of_nat (length (chars sp)) = sizeof_chars;
  sh_lsis : Z.of_nat (length (lsis sp)) = TZ_MAX_LEAPS;
  sh_nul : chars sp !! 50%nat = Some 0;
  sh_back : goback sp = false;
  sh_ahead : goahead sp = false }.

(** What the entries up to the counts satisfy *)
Definition good_tti (t : ttinfo) : Prop :=
  (tt_isdst t = 0 \/ tt_isdst t = 1) /\ 0 <= tt_abbrind t <= 50 /\
  - 2 ^ 31 <= tt_gmtoff t < 2 ^ 31.

Definition types_upto (n cnt : Z) (l : list Z) : Prop :=
  forall i ty, 0 <= i < n -> l !! Z.to_nat i = Some ty -> 0 <= ty < cnt.

Definition ttis_upto (n : Z) (l : list ttinfo) : Prop :=
  forall i t, 0 <= i < n -> l !! Z.to_nat i = Some t -> good_tti t.

Lemma insert_upto {A} (P : A -> Prop) (l : list A) n k a :
  0 <= k -> (forall i x, 0 <= i < n -> l !! Z.to_nat i = Some x -> P x) -> P a ->
  forall i x, 0 <= i < n -> <[Z.to_nat k := a]> l !! Z.to_nat i = Some x -> P x.
Proof.
  intros Hk Hl Ha i x Hi Hx. destruct (decide (i = k)) as [->|].
  - apply list_lookup_insert_Some in Hx as [(_ & <- & _)|(? & _)]; done.
  - rewrite list_lookup_insert_ne in Hx by lia. by eapply Hl.
Qed.

(** One more entry is good. *)
Lemma insert_next {A} (P : A -> Prop) (l : list A) n a :
  0 <= n -> (forall i x, 0 <= i < n -> l !! Z.to_nat i = Some x -> P x) -> P a ->
  forall i x, 0 <= i < n + 1 -> <[Z.to_nat n := a]> l !! Z.to_nat i = Some x -> P x.
Proof.
  intros Hn Hl Ha i x Hi Hx. destruct (decide (i = n)) as [->|].
  - apply list_lookup_insert_Some in Hx as [(_ & <- & _)|(? & _)]; done.
  - rewrite list_lookup_insert_ne in Hx by lia. eapply Hl; [|done]. lia.
Qed.

Lemma shape_insert sp a ty tt ch ls : shape sp -> length a = length (ats sp) ->
  length ty = length (types sp) -> length tt = length (ttis sp) -> length ch = length (chars sp) ->
  length ls = length (lsis sp) -> ch !! 50%nat = Some 0 -> shape (set_arrays sp a ty tt ch ls).
Proof. intros [] ? ? ? ? ? ?. split; cbn; congruence. Qed.

Lemma shape_counts sp l t y c : shape sp -> shape (set_counts sp l t y c).
Proof. by intros []. Qed.

#[export] Hint Resolve shape_counts : core.

(** ** Statements that access the arrays *)

Lemma wp_at_of i Q s : shape (fst s) -> 0 <= i < TZ_MAX_TIMES ->
  (forall a, ats (fst s) !! Z.to_nat i = Some a -> Q s (Some a)) -> wp (at_of i) Q s.
Proof.
  intros Hs Hi HQ. apply wp_bind, wp_get.
  destruct (at_index_in (ats (fst s)) i) as (a & Ha & E); [by rewrite (sh_ats _ Hs)|].
  eapply wp_lift; [exact E|]. by apply HQ.
Qed.

Lemma wp_type_of i Q s : shape (fst s) -> 0 <= i < TZ_MAX_TIMES ->
  (forall a, types (fst s) !! Z.to_nat i = Some a -> Q s (Some a)) -> wp (type_of i) Q s.
Proof.
  intros Hs Hi HQ. apply wp_bind, wp_get.
  destruct (at_index_in (types (fst s)) i) as (a & Ha & E); [by rewrite (sh_types _ Hs)|].
  eapply wp_lift; [exact E|]. by apply HQ.
Qed.

Lemma wp_tti_of i Q s : shape (fst s) -> 0 <= i < TZ_MAX_TYPES ->
  (forall a, ttis (fst s) !! Z.to_nat i = Some a -> Q s (Some a)) -> wp (tti_of i) Q s.
Proof.
  intros Hs Hi HQ. apply wp_bind, wp_get.
  destruct (at_index_in (ttis (fst s)) i) as (a & Ha & E); [by rewrite (sh_ttis _ Hs)|].
  eapply wp_lift; [exact E|]. by apply HQ.
Qed.

(** The table after an assignment to one of the arrays *)
Definition with_at sp i v := set_arrays sp (<[Z.to_nat i := v]> (ats sp)) (types sp) (ttis sp) (chars sp) (lsis sp).
Definition with_type sp i v := set_arrays sp (ats sp) (<[Z.to_nat i := v]> (types sp)) (ttis sp) (chars sp) (lsis sp).
Definition with_tti sp i v := set_arrays sp (ats sp) (types sp) (<[Z.to_nat i := v]> (ttis sp)) (chars sp) (lsis sp).
Definition with_char sp i v := set_arrays sp (ats sp) (types sp) (ttis sp) (<[Z.to_nat i := v]> (chars sp)) (lsis sp).
Definition with_lsi sp i v := set_arrays sp (ats sp) (types sp) (ttis sp) (chars sp) (<[Z.to_nat i := v]> (lsis sp)).

Lemma with_shape sp : shape sp ->
  (forall i v, shape (with_at sp i v)) /\ (forall i v, shape (with_type sp i v)) /\
  (forall i v, shape (with_tti sp i v)) /\ (forall i v, shape (with_lsi sp i v)).
Proof.
  intros Hs. pose proof (sh_nul _ Hs).
  split_and!; intros; apply shape_insert; by rewrite ?length_insert.
Qed.

Lemma with_char_shape sp i v : shape sp -> 0 <= i < sizeof_chars -> i <> 50 \/ v = 0 ->
  shape (with_char sp i v).
Proof.
  intros Hs Hi Hv. apply shape_insert; rewrite ?length_insert; try done.
  destruct (decide (i = 50)) as [->|].
  - destruct Hv as [| ->]; [done|]. apply list_lookup_insert_eq. pose proof (sh_chars _ Hs).
    unfold sizeof_chars in *. lia.
  - rewrite list_lookup_insert_ne by lia. apply Hs.
Qed.

Ltac put_wp Hs := apply wp_bind, wp_get, wp_bind; eapply wp_lift;
  [apply put_index_in; rewrite Hs; assumption|]; apply wp_put; assumption.

Lemma wp_put_time i v Q s : shape (fst s) -> 0 <= i < TZ_MAX_TIMES ->
  Q (with_at (fst s) i v, snd s) (Some ()) -> wp (put_time i v) Q s.
Proof. intros Hs Hi HQ. put_wp (sh_ats _ Hs). Qed.

Lemma wp_put_type i v Q s : shape (fst s) -> 0 <= i < TZ_MAX_TIMES ->
  Q (with_type (fst s) i v, snd s) (Some ()) -> wp (put_type i v) Q s.
Proof. intros Hs Hi HQ. put_wp (sh_types _ Hs). Qed.

Lemma wp_put_tti i v Q s : shape (fst s) -> 0 <= i < TZ_MAX_TYPES ->
  Q (with_tti (fst s) i v, snd s) (Some ()) -> wp (put_tti i v) Q s.
Proof. intros Hs Hi HQ. put_wp (sh_ttis _ Hs). Qed.

Lemma wp_put_char i v Q s : shape (fst s) -> 0 <= i < sizeof_chars ->
  Q (with_char (fst s) i v, snd s) (Some ()) -> wp (put_char i v) Q s.
Proof. intros Hs Hi HQ. put_wp (sh_chars _ Hs). Qed.

Lemma wp_put_lsi i v Q s : shape (fst s) -> 0 <= i < TZ_MAX_LEAPS ->
  Q (with_lsi (fst s) i v, snd s) (Some ()) -> wp (put_lsi i v) Q s.
Proof. intros Hs Hi HQ. put_wp (sh_lsis _ Hs). Qed.

(** ** The bytes that are left *)

Definition bytes (p : list Z) : Prop := Forall (fun c => 0 <= c < 256) p.

(** At least [n] bytes *)
Definition left (n : Z) (p : list Z) : Prop := bytes p /\ n <= Z.of_nat (length p).

Lemma wp_next_byte n p Q s : left (n + 1) p -> 0 <= n ->
  (forall c p', 0 <= c < 256 -> left n p' -> Q s (Some (c, p'))) -> wp (next_byte p) Q s.
Proof.
  intros [Hb Hl] Hn HQ. destruct p as [|c p']; [cbn in Hl; lia|].
  apply wp_ret, HQ; [by apply (Forall_inv Hb)|]. split; [by apply (Forall_inv_tail Hb)|].
  rewrite length_cons in Hl. lia.
Qed.

Lemma wrap_s_range x : - 2 ^ 31 <= wrap_s 32 x < 2 ^ 31.
Proof. unfold wrap_s. change (32 - 1) with 31. pose proof (Z.mod_pos_bound (x + 2 ^ 31) (2 ^ 32)). lia. Qed.

Lemma detzcode_range p : - 2 ^ 31 <= detzcode p < 2 ^ 31.
Proof.
  unfold detzcode. generalize (take 4 p) as l. intros l.
  assert (G : forall x, - 2 ^ 31 <= x < 2 ^ 31 -> - 2 ^ 31 <= foldl (fun result c =>
    wrap_s 32 (Z.lor (Z.shiftl result 8) (Z.land c 255))) x l < 2 ^ 31).
  { induction l as [|c l IH]; intros x Hx; cbn [foldl]; [done|]. apply IH, wrap_s_range. }
  apply G. destruct (Z.testbit _ _); lia.
Qed.

Lemma wp_code n p Q s : left (n + 4) p -> 0 <= n ->
  (forall v p', - 2 ^ 31 <= v < 2 ^ 31 -> left n p' -> Q s (Some (v, p'))) -> wp (code p) Q s.
Proof.
  intros [Hb Hl] Hn HQ. unfold code. rewrite (proj2 (Z.ltb_ge _ _)) by lia.
  apply wp_ret, HQ; [apply detzcode_range|]. split; [by apply Forall_drop|].
  rewrite length_drop. lia.
Qed.

(** ** The tables while they are loaded *)

Section Loading.
(** leapcnt, timecnt, typecnt and charcnt *)
Context (nl nt ny nc : Z).
Context (Hnl : 0 <= nl <= TZ_MAX_LEAPS) (Hnt : 0 <= nt <= TZ_MAX_TIMES).
Context (Hny : 1 <= ny <= TZ_MAX_TYPES) (Hnc : 0 <= nc <= TZ_MAX_CHARS).

(** The first [kt] transitions and the first [ki] types are good. *)
Record loading (kt ki : Z) (sp : state) : Prop := {
  ld_shape : shape sp;
  ld_leap : leapcnt sp = nl;
  ld_time : timecnt sp = nt;
  ld_type : typecnt sp = ny;
  ld_char : charcnt sp = nc;
  ld_types : types_upto kt ny (types sp);
  ld_ttis : ttis_upto ki (ttis sp) }.

Definition failed (s : tzio) : Prop := shape (fst s).

(** The state of a loop over the bytes of an array *)
Definition at_byte (n kt ki : Z) (p : list Z) (s : tzio) : Prop :=
  left n p /\ loading kt ki (fst s).

Ltac consts := unfold TZ_MAX_TIMES, TZ_MAX_TYPES, TZ_MAX_CHARS, TZ_MAX_LEAPS, sizeof_chars in *.

Lemma load_time_wp i n kt ki p s : 0 <= n -> 0 <= i < nt -> at_byte (n + 4) kt ki p s ->
  wp (load_time i p) (post failed (at_byte n kt ki)) s.
Proof.
  intros Hn Hi [Hp H]. apply wp_bind. eapply wp_code; [done..|]. intros v p' Hv Hp'.
  apply wp_bind, wp_put_time; [apply H|consts; lia|]. apply wp_ret. split; [done|].
  destruct H as [Hs]. split; try done. by apply with_shape.
Qed.

Lemma load_type_wp i n ki p s : 0 <= n -> 0 <= i < nt -> at_byte (n + 1) i ki p s ->
  wp (load_type i p) (post failed (at_byte n (i + 1) ki)) s.
Proof.
  intros Hn Hi [Hp H]. apply wp_bind. eapply wp_next_byte; [done..|]. intros c p' Hc Hp'.
  apply wp_bind, wp_put_type; [apply H|consts; lia|]. apply wp_bind, wp_get.
  destruct H as [Hs H1 H2 H3 H4 H5 H6]. cbn [fst snd typecnt with_type set_arrays]. rewrite H3.
  apply wp_bind, wp_check; intros Hlt.
  - apply wp_ret. split; [done|]. split; try done; [by apply with_shape|].
    unfold types_upto. apply (insert_next (fun x => 0 <= x < ny)); [lia|exact H5|lia].
  - by apply with_shape.
Qed.

Lemma load_tti_wp i n kt p s : 0 <= n -> 0 <= i < ny -> at_byte (n + 6) kt i p s ->
  wp (load_tti i p) (post failed (at_byte n kt (i + 1))) s.
Proof.
  intros Hn Hi [Hp H]. apply wp_bind, wp_tti_of; [apply H|consts; lia|]. intros t _.
  apply wp_bind. apply (wp_code (n + 2)); [by replace (n + 2 + 4) with (n + 6) by lia|lia|].
  intros off p1 Hoff Hp1. apply wp_bind.
  apply (wp_next_byte (n + 1)); [by replace (n + 1 + 1) with (n + 2) by lia|lia|].
  intros isdst p2 _ Hp2. destruct H as [Hs H1 H2 H3 H4 H5 H6].
  apply wp_bind, wp_put_tti; [done|consts; lia|]. set (t1 := mk_tt _ _ _ _ _).
  assert (Hs1 : shape (with_tti (fst s) i t1)) by by apply with_shape.
  apply wp_bind, wp_check; intros Hd; [|done].
  apply wp_bind. apply (wp_next_byte n); [done..|]. intros ab p3 Hab Hp3.
  apply wp_bind, wp_put_tti; [done|consts; lia|]. cbn [fst snd]. set (t2 := mk_tt _ _ _ _ _).
  assert (Hs2 : shape (with_tti (with_tti (fst s) i t1) i t2)) by by apply with_shape.
  apply wp_bind, wp_get, wp_bind, wp_check; intros Hc; [|done].
  apply wp_ret. split; [done|]. split; try done.
  unfold ttis_upto. cbn [fst ttis with_tti set_arrays]. rewrite list_insert_insert_eq.
  apply (insert_next good_tti); [lia|exact H6|].
  cbn [fst charcnt with_tti set_arrays] in Hc. rewrite H4 in Hc.
  unfold good_tti; cbn. consts. lia.
Qed.

Lemma load_char_wp i n kt ki p s : 0 <= n -> 0 <= i < nc -> at_byte (n + 1) kt ki p s ->
  wp (load_char i p) (post failed (at_byte n kt ki)) s.
Proof.
  intros Hn Hi [Hp H]. apply wp_bind. eapply wp_next_byte; [done..|]. intros c p' Hc Hp'.
  apply wp_bind, wp_put_char; [apply H|consts; lia|]. apply wp_ret. split; [done|].
  destruct H as [Hs]. split; try done. apply with_char_shape; [done|consts; lia..].
Qed.

Lemma load_lsi_wp i n kt ki p s : 0 <= n -> 0 <= i < nl -> at_byte (n + 8) kt ki p s ->
  wp (load_lsi i p) (post failed (at_byte n kt ki)) s.
Proof.
  intros Hn Hi [Hp H]. apply wp_bind.
  apply (wp_code (n + 4)); [by replace (n + 4 + 4) with (n + 8) by lia|lia|]. intros v p1 _ Hp1.
  apply wp_bind, (wp_code n); [done..|]. intros w p2 _ Hp2.
  apply wp_bind, wp_put_lsi; [apply H|consts; lia|]. apply wp_ret. split; [done|].
  destruct H as [Hs]. split; try done. by apply with_shape.
Qed.

(** A change of the flags of a type keeps it good. *)
Lemma flag_loading kt sp i t std g : loading kt ny sp -> 0 <= i < ny ->
  ttis sp !! Z.to_nat i = Some t ->
  loading kt ny (with_tti sp i (mk_tt (tt_gmtoff t) (tt_isdst t) (tt_abbrind t) std g)).
Proof.
  intros [Hs H1 H2 H3 H4 H5 H6] Hi Ht. split; try done; [by apply with_shape|].
  unfold ttis_upto. apply (insert_upto good_tti); [lia|exact H6|].
  destruct (H6 i t Hi Ht) as (? & ? & ?). done.
Qed.

Lemma load_flag_wp g cnt i n kt p s : 0 <= n -> 0 <= i < ny ->
  at_byte (n + if cnt =? 0 then 0 else 1) kt ny p s ->
  wp (load_flag g cnt i p) (post failed (at_byte n kt ny)) s.
Proof.
  intros Hn Hi [Hp H]. apply wp_bind, wp_tti_of; [apply H|consts; lia|]. intros t Ht.
  pose proof (fun std g => flag_loading kt (fst s) i t std g H Hi Ht) as Hf.
  pose proof (ld_shape _ _ _ H) as Hs.
  destruct (cnt =? 0).
  - rewrite Z.add_0_r in Hp. apply wp_bind, wp_put_tti; [done|consts; lia|].
    apply wp_ret. split; [done|]. destruct g; apply Hf.
  - apply wp_bind, (wp_next_byte n); [done..|]. intros c p' _ Hp'.
    apply wp_bind, wp_put_tti; [done|consts; lia|].
    apply wp_bind, wp_check; intros _; [apply wp_ret; split; [done|]|cbn; unfold failed; cbn];
      destruct g; try apply Hf; by apply (Hf _ _).
Qed.

(** ** The order of the transitions *)

Lemma out_of_sort_wp n i kt ki s : loading kt ki (fst s) -> 0 <= i ->
  i + Z.of_nat n <= nt ->
  wp (out_of_sort n i) (fun s' r => s' = s /\
    match r with Some (Some k) => 0 <= k < nt | Some None => True | None => False end) s.
Proof.
  revert i. induction n as [|n IH]; intros i H Hi Hn; cbn [out_of_sort]; [by apply wp_ret|].
  apply wp_bind, wp_get, wp_bind, wp_at_of; [apply H|consts; lia|]. intros a _.
  apply wp_bind. rewrite (ld_time _ _ _ H).
  destruct (Z.ltb_spec i (nt - 1)).
  - apply wp_bind, wp_at_of; [apply H|consts; lia|]. intros b _. apply wp_ret.
    destruct (b <? a); [apply wp_ret; split; [done|lia]|]. apply IH; [done|lia..].
  - apply wp_ret. destruct (_ <? a); [apply wp_ret; split; [done|lia]|]. apply IH; [done|lia..].
Qed.

Lemma move_down_wp i j s : 0 <= i -> 0 <= j < nt - i -> loading nt ny (fst s) ->
  wp (a ← at_of (j + i); _ ← put_time j a; ty ← type_of (j + i); put_type j ty)
    (post (fun _ => False) (fun _ s => loading nt ny (fst s))) s.
Proof.
  intros Hi Hj H. pose proof (ld_shape _ _ _ H) as Hs.
  apply wp_bind, wp_at_of; [done|consts; lia|]. intros a _.
  apply wp_bind, wp_put_time; [done|consts; lia|].
  assert (Hs1 : shape (with_at (fst s) j a)) by by apply with_shape.
  apply wp_bind, wp_type_of; [done|consts; lia|]. intros ty Hty.
  apply wp_put_type; [done|consts; lia|]. cbn [fst snd].
  destruct H as [_ H1 H2 H3 H4 H5 H6]. split; try done; [by apply with_shape|].
  unfold types_upto. apply (insert_upto (fun x => 0 <= x < ny)); [lia|exact H5|].
  eapply H5; [|exact Hty]. lia.
Qed.

Lemma ignore_beginning_wp i s : 0 <= i < nt -> loading nt ny (fst s) ->
  wp (ignore_beginning i) (post (fun _ => False) (fun _ s' => exists sp,
    loading nt ny sp /\ fst s' = set_timecnt sp (nt - i))) s.
Proof.
  intros Hi H. apply wp_bind, wp_get, wp_bind, wp_put_time; [apply H|consts; lia|].
  rewrite (ld_time _ _ _ H). cbv zeta. eapply wp_then.
  - apply (wp_for_each (fun _ => False) (fun _ (_ : unit) s => loading nt ny (fst s))).
    + intros k u s' Hk Hl. apply (move_down_wp i k s'); [lia..|done].
    + destruct H as [Hs]. split; try done. by apply with_shape.
  - done.
  - intros u s' Hl. apply wp_modify. by exists (fst s').
Qed.
End Loading.

(** ** The tables of a zone *)

Record tables (sp : state) : Prop := {
  ta_shape : shape sp;
  ta_leap : 0 <= leapcnt sp <= TZ_MAX_LEAPS;
  ta_time : 0 <= timecnt sp <= TZ_MAX_TIMES;
  ta_type : 1 <= typecnt sp <= TZ_MAX_TYPES;
  ta_char : 0 <= charcnt sp <= sizeof_chars;
  ta_types : types_upto (timecnt sp) (typecnt sp) (types sp);
  ta_ttis : ttis_upto (typecnt sp) (ttis sp) }.

Lemma loading_tables nl nt ny nc k sp :
  0 <= nl <= TZ_MAX_LEAPS -> 0 <= nt <= TZ_MAX_TIMES -> 1 <= ny <= TZ_MAX_TYPES ->
  0 <= nc <= TZ_MAX_CHARS -> 0 <= k <= nt ->
  loading nl nt ny nc nt ny sp -> tables (set_timecnt sp k) /\ leapcnt sp = nl.
Proof.
  intros Hl Ht Hy Hc Hk [Hs H1 H2 H3 H4 H5 H6]. split; [|done].
  split; cbn [set_timecnt set_counts leapcnt timecnt typecnt charcnt types ttis];
    rewrite ?H1, ?H3, ?H4; try done; try (unfold TZ_MAX_CHARS, sizeof_chars in *; lia).
  - by apply shape_counts.
  - intros i ty Hi. apply H5. lia.
Qed.

Lemma set_timecnt_same sp : set_timecnt sp (timecnt sp) = sp.
Proof. by destruct sp. Qed.

Lemma left_drop n buf : bytes buf -> 44 + n <= Z.of_nat (length buf) ->
  left n (drop (Z.to_nat sizeof_tzhead) buf).
Proof.
  intros Hb Hl. split; [by apply Forall_drop|]. rewrite length_drop.
  change (Z.to_nat sizeof_tzhead) with 44%nat. lia.
Qed.

(** A loop over an array whose entries take [w] bytes *)
Lemma wp_entries nl nt ny nc (w cnt rest n : Z) (kt ki : Z -> Z) step p s :
  0 <= w -> 0 <= cnt -> 0 <= rest -> n = rest + cnt * w ->
  (forall i n p s, 0 <= n -> 0 <= i < cnt -> at_byte nl nt ny nc (n + w) (kt i) (ki i) p s ->
     wp (step i p) (post failed (at_byte nl nt ny nc n (kt (i + 1)) (ki (i + 1)))) s) ->
  at_byte nl nt ny nc n (kt 0) (ki 0) p s ->
  wp (for_each (Z.to_nat cnt) 0 step p)
    (post failed (at_byte nl nt ny nc rest (kt cnt) (ki cnt))) s.
Proof.
  intros Hw Hc Hr -> Hstep H0. eapply wp_conseq.
  - apply (wp_for_each failed (fun i => at_byte nl nt ny nc (rest + (cnt - i) * w) (kt i) (ki i))).
    + intros k p' s' Hk Hb. apply Hstep; [nia|lia|].
      by replace (rest + (cnt - (k + 1)) * w + w) with (rest + (cnt - k) * w) by lia.
    + by replace (cnt - 0) with cnt by lia.
  - intros s' r. rewrite Z2Nat.id by lia. cbn [Z.add].
    destruct r; [|done]. cbn. rewrite Z.sub_diag, Z.mul_0_l, !Z.add_0_r. done.
Qed.

Definition flag_width (cnt : Z) : Z := if cnt =? 0 then 0 else 1.

Ltac array_loop w rest kt ki lem :=
  eapply wp_then;
  [match goal with H : at_byte ?nl ?nt ?ny ?nc ?n _ _ ?p ?s |- wp (for_each (Z.to_nat ?cnt) _ _ _) _ _ =>
     apply (wp_entries nl nt ny nc w cnt rest n kt ki);
     [lia|lia|lia|lia|intros ? ? ? ? ? ?; by apply lem|exact H]
   end|done|];
  match goal with H : at_byte _ _ _ _ _ _ _ ?p ?s |- _ =>
    clear H; try clear p; clear s; intros p s H end.

Lemma load_arrays_wp nl nt ny nc std g p s :
  0 <= nl <= TZ_MAX_LEAPS -> 0 <= nt <= TZ_MAX_TIMES -> 1 <= ny <= TZ_MAX_TYPES ->
  0 <= nc <= TZ_MAX_CHARS ->
  at_byte nl nt ny nc (nt * 4 + nt + ny * 6 + nc + nl * 8 + ny * flag_width std + ny * flag_width g)
    0 0 p s ->
  wp (load_arrays nl nt ny nc std g p) (post failed (fun _ s => loading nl nt ny nc nt ny (fst s))) s.
Proof.
  intros Hl Ht Hy Hc H. unfold load_arrays.
  assert (Hw : forall x, 0 <= flag_width x <= 1) by (intros x; unfold flag_width; destruct (x =? 0); lia).
  set (F1 := ny * flag_width g) in *. set (F2 := ny * flag_width std) in *.
  assert (B : 0 <= F1 /\ 0 <= F2) by (pose proof (Hw std); pose proof (Hw g); unfold F1, F2; nia).
  assert (E1 : F1 = 0 + ny * flag_width g) by (unfold F1; lia).
  assert (E2 : F2 + F1 = F1 + ny * flag_width std) by (unfold F2; lia).
  pose proof (Hw std) as Wa. pose proof (Hw g) as Wb.
  array_loop 4 (nt + ny * 6 + nc + nl * 8 + F2 + F1) (fun _ : Z => 0) (fun _ : Z => 0) load_time_wp.
  array_loop 1 (ny * 6 + nc + nl * 8 + F2 + F1) (fun i : Z => i) (fun _ : Z => 0) load_type_wp.
  array_loop 6 (nc + nl * 8 + F2 + F1) (fun _ : Z => nt) (fun i : Z => i) load_tti_wp.
  array_loop 1 (nl * 8 + F2 + F1) (fun _ : Z => nt) (fun _ : Z => ny) load_char_wp.
  destruct H as [Hp [Hs H1 H2 H3 H4 H5 H6]].
  apply wp_bind, wp_put_char; [done|unfold TZ_MAX_CHARS, sizeof_chars in *; lia|].
  assert (H : at_byte nl nt ny nc (nl * 8 + F2 + F1) nt ny p (with_char (fst s) nc 0, snd s)).
  { split; [done|]. split; try done. apply with_char_shape; [done| |by right].
    unfold TZ_MAX_CHARS, sizeof_chars in *; lia. }
  revert H. generalize (with_char (fst s) nc 0, snd s). clear Hs H1 H2 H3 H4 H5 H6 s Hp.
  intros s H.
  array_loop 8 (F2 + F1) (fun _ : Z => nt) (fun _ : Z => ny) load_lsi_wp.
  array_loop (flag_width std) F1 (fun _ : Z => nt) (fun _ : Z => ny) load_flag_wp.
  array_loop (flag_width g) 0 (fun _ : Z => nt) (fun _ : Z => ny) load_flag_wp.
  apply wp_ret. by destruct H.
Qed.

(** The counts that pass the checks, and the arrays after them *)
Definition counts_range (sp : state) : Prop :=
  0 <= leapcnt sp <= TZ_MAX_LEAPS /\ 0 <= timecnt sp <= TZ_MAX_TIMES /\
  1 <= typecnt sp <= TZ_MAX_TYPES /\ 0 <= charcnt sp <= TZ_MAX_CHARS.

Lemma load_checked_wp buf s std g : bytes buf -> shape (fst s) ->
  counts_ok (fst s) std g = true -> enough (Z.of_nat (length buf)) (fst s) std g = true ->
  let sp := fst s in
  counts_range sp /\
  wp (load_arrays (leapcnt sp) (timecnt sp) (typecnt sp) (charcnt sp) std g
        (drop (Z.to_nat sizeof_tzhead) buf))
    (post failed (fun _ s => loading (leapcnt sp) (timecnt sp) (typecnt sp) (charcnt sp) (timecnt sp)
      (typecnt sp) (fst s))) s.
Proof.
  intros Hb Hs Hc He. cbv zeta. unfold counts_ok, enough in *.
  assert (Hr : counts_range (fst s)) by (unfold counts_range; lia). split; [done|].
  destruct Hr as (Hl & Ht & Hy & Hn).
  assert (E : forall x, x = typecnt (fst s) \/ x = 0 -> typecnt (fst s) * flag_width x = x).
  { intros x Hx. unfold flag_width. destruct (Z.eqb_spec x 0), Hx; lia. }
  apply load_arrays_wp; try done. rewrite (E std), (E g) by lia.
  split; [apply left_drop; [done|]; unfold sizeof_tzhead in *; lia|].
  split; try done; intros i x Hi; lia.
Qed.

(** The order of the transitions is repaired. *)
Lemma repair_wp nl nt ny nc s :
  0 <= nl <= TZ_MAX_LEAPS -> 0 <= nt <= TZ_MAX_TIMES -> 1 <= ny <= TZ_MAX_TYPES ->
  0 <= nc <= TZ_MAX_CHARS -> loading nl nt ny nc nt ny (fst s) ->
  wp (bad ← out_of_sort (Z.to_nat nt) 0;
      match bad with Some i => ignore_beginning i | None => mret () end)
    (post (fun _ => False) (fun _ s => tables (fst s) /\ leapcnt (fst s) = nl)) s.
Proof.
  intros Hl Ht Hy Hn H. apply wp_bind. eapply wp_conseq.
  - eapply out_of_sort_wp; [done..|exact H|done|lia].
  - intros s2 r [-> Hr]. destruct r as [[i|]|]; [| |done].
    + eapply wp_conseq; [by eapply ignore_beginning_wp|]. intros s2 [u|]; [|done].
      intros (sp2 & H2 & E). cbn. rewrite E.
      by destruct (loading_tables nl nt ny nc (nt - i) sp2) as [? ?]; [done..|lia|done|].
    + apply wp_ret. cbn.
      destruct (loading_tables nl nt ny nc nt (fst s)) as [Ht2 El]; [done..|lia|done|].
      rewrite <- (ld_time _ _ _ _ _ _ _ H), set_timecnt_same in Ht2. done.
Qed.

Lemma load_tables_wp buf s : bytes buf -> shape (fst s) ->
  wp (load_tables buf) (post failed (fun _ s => tables (fst s) /\ leapcnt (fst s) = header buf 28)) s.
Proof.
  intros Hb Hs. apply wp_bind, wp_modify, wp_bind, wp_get, wp_bind. cbn [fst snd].
  set (sp := set_counts _ _ _ _ _). assert (Hsp : shape sp) by by apply shape_counts.
  apply wp_check; intros Hc; [|done]. apply wp_bind, wp_check; intros He; [|done].
  destruct (load_checked_wp buf (sp, snd s) _ _ Hb Hsp Hc He) as [(Hl & Ht & Hy & Hn) Ha].
  eapply wp_then; [exact Ha|done|]. intros u s' H.
  eapply wp_conseq; [by apply (repair_wp (leapcnt sp) (timecnt sp) (typecnt sp) (charcnt sp) s')|]. by intros s2 [?|].
Qed.

(** ** Repetitions and the type for early times *)

Lemma until_nul_Done l k : l !! k = Some 0 ->
  exists r, until_nul l = Done r /\ (length r <= k)%nat.
Proof.
  revert k. induction l as [|c l IH]; intros [|k] H; cbn in *; try done.
  - injection H as ->. by eexists.
  - destruct (c =? 0); [eexists; split; [done|cbn; lia]|]. destruct (IH k H) as (r & -> & Hr).
    eexists. split; [done|]. cbn. lia.
Qed.

Lemma abbr_at_Done sp i : shape sp -> 0 <= i <= 50 ->
  exists r, abbr_at sp i = Done r /\ i + Z.of_nat (length r) <= 50.
Proof.
  intros Hs Hi. unfold abbr_at. rewrite (sh_chars _ Hs). unfold sizeof_chars.
  rewrite (proj2 (orb_false_iff _ _)) by lia.
  destruct (until_nul_Done (drop (Z.to_nat i) (chars sp)) (50 - Z.to_nat i)) as (r & E & Hr).
  - rewrite lookup_drop, <- (sh_nul _ Hs). f_equal. lia.
  - exists r. split; [done|]. lia.
Qed.

Definition unchanged {A} (s : tzio) (R : A -> Prop) (s' : tzio) (r : option A) : Prop :=
  s' = s /\ exists a, r = Some a /\ R a.

Lemma typesequiv_wp a b s : tables (fst s) -> wp (typesequiv a b) (unchanged s (fun _ => True)) s.
Proof.
  intros H. pose proof (ta_type _ H) as Ht. apply wp_bind, wp_get.
  destruct (_ || _) eqn:E; [apply wp_ret; split; [done|by eexists]|].
  apply wp_bind, wp_tti_of; [apply H|unfold TZ_MAX_TYPES in *; lia|]. intros ta Ha.
  apply wp_bind, wp_tti_of; [apply H|unfold TZ_MAX_TYPES in *; lia|]. intros tb Hb.
  destruct (ta_ttis _ H a ta ltac:(lia) Ha) as (_ & Hga & _).
  destruct (ta_ttis _ H b tb ltac:(lia) Hb) as (_ & Hgb & _).
  destruct (_ && _); [|apply wp_ret; split; [done|by eexists]].
  destruct (abbr_at_Done (fst s) (tt_abbrind ta) (ta_shape _ H) Hga) as (x & Hx & _).
  destruct (abbr_at_Done (fst s) (tt_abbrind tb) (ta_shape _ H) Hgb) as (y & Hy & _).
  apply wp_bind. eapply wp_lift; [exact Hx|]. apply wp_bind. eapply wp_lift; [exact Hy|].
  apply wp_ret. split; [done|by eexists].
Qed.

(** A time_t of 32 bits cannot differ by 400 years. *)
Lemma repeats_wp k later l s : tables (fst s) -> 0 <= k < timecnt (fst s) ->
  Forall (fun i => 0 <= i < timecnt (fst s)) l ->
  wp (repeats k later l) (unchanged s (fun r => r = false)) s.
Proof.
  intros H Hk. pose proof (ta_time _ H) as Ht. induction l as [|i l IH]; intros Hl; cbn [repeats].
  { apply wp_ret. split; [done|by eexists]. }
  pose proof (Forall_inv Hl) as Hi. specialize (IH (Forall_inv_tail Hl)). cbn in Hi.
  apply wp_bind, wp_type_of; [apply H|lia|]. intros ti _.
  apply wp_bind, wp_type_of; [apply H|lia|]. intros tk _.
  apply wp_bind. apply (wp_conseq _ (unchanged s (fun _ => True))).
  { destruct later; by apply typesequiv_wp. }
  intros s' r (-> & b & -> & _). destruct b; [|done].
  apply wp_bind, wp_at_of; [apply H|lia|]. intros ai _.
  apply wp_bind, wp_at_of; [apply H|lia|]. intros ak _. by destruct later.
Qed.

Lemma range_in from to : Forall (fun i => from <= i < to) (range from to).
Proof.
  unfold range. apply Forall_fmap, Forall_forall. intros k Hk%List.in_seq. cbn. lia.
Qed.

Lemma find_cycles_wp s : tables (fst s) -> wp find_cycles (unchanged s (fun _ => True)) s.
Proof.
  intros H. apply wp_bind, wp_get. pose proof (ta_shape _ H) as Hs.
  assert (Same : set_going (fst s) (false || goback (fst s)) (goahead (fst s)) = fst s /\
    set_going (fst s) (goback (fst s)) (false || goahead (fst s)) = fst s)
    by (by destruct s as [[]]). destruct Same as [G1 G2].
  destruct (Z.ltb_spec 1 (timecnt (fst s))) as [Ht|]; [|apply wp_ret; split; [done|by eexists]].
  apply wp_bind. eapply wp_conseq.
  { apply repeats_wp; [done|lia|]. eapply Forall_impl; [|apply range_in]. cbn. lia. }
  intros s' r (-> & b & -> & ->). apply wp_bind, wp_modify.
  rewrite G1, <- surjective_pairing.
  apply wp_bind. eapply wp_conseq.
  { apply repeats_wp; [done|lia|]. apply Forall_rev. eapply Forall_impl; [|apply range_in]. cbn. lia. }
  intros s' r (-> & b & -> & ->). apply wp_modify.
  rewrite G2, <- surjective_pairing. split; [done|by eexists].
Qed.

Lemma type0_used_wp n i s : shape (fst s) -> 0 <= i -> i + Z.of_nat n <= TZ_MAX_TIMES ->
  wp (type0_used n i) (unchanged s (fun _ => True)) s.
Proof.
  intros Hs. revert i. induction n as [|n IH]; intros i Hi Hn; cbn [type0_used].
  { apply wp_ret. split; [done|by eexists]. }
  apply wp_bind, wp_type_of; [done|lia|]. intros ty _.
  destruct (ty =? 0); [apply wp_ret; split; [done|by eexists]|]. apply IH; lia.
Qed.

Lemma std_before_wp n s : shape (fst s) -> Z.of_nat n <= TZ_MAX_TYPES ->
  wp (std_before n) (unchanged s (fun i => -1 <= i < Z.of_nat n)) s.
Proof.
  intros Hs. induction n as [|n IH]; intros Hn; cbn [std_before].
  { apply wp_ret. split; [done|]. eexists. split; [done|]. lia. }
  apply wp_bind, wp_tti_of; [done|lia|]. intros t _.
  destruct (tt_isdst t =? 0).
  - apply wp_ret. split; [done|]. eexists. split; [done|]. lia.
  - eapply wp_conseq; [apply IH; lia|]. intros s' r (-> & i & -> & Hi). split; [done|].
    eexists. split; [done|]. lia.
Qed.

Lemma first_std_wp n i cnt s : shape (fst s) -> 0 <= i < cnt -> cnt <= TZ_MAX_TYPES ->
  wp (first_std n i cnt) (unchanged s (fun i => 0 <= i < cnt)) s.
Proof.
  intros Hs. revert i. induction n as [|n IH]; intros i Hi Hc; cbn [first_std].
  { apply wp_ret. split; [done|]. eexists. split; [done|]. lia. }
  apply wp_bind, wp_tti_of; [done|lia|]. intros t _.
  destruct (tt_isdst t =? 0); [apply wp_ret; split; [done|]; eexists; split; [done|]; lia|].
  destruct (Z.leb_spec cnt (i + 1)); [apply wp_ret; split; [done|]; eexists; split; [done|]; lia|].
  apply IH; lia.
Qed.

(** The tables of a zone that localtime can use *)
Definition wf (sp : state) : Prop := tables sp /\ 0 <= defaulttype sp < typecnt sp.

Lemma wf_default sp i : tables sp -> 0 <= i < typecnt sp -> wf (set_defaulttype sp i).
Proof. intros [[]] Hi. split; [|done]. by split. Qed.

Lemma early_type_wp s : tables (fst s) -> 
  wp early_type (fun s' r => is_Some r /\ wf (fst s') /\ leapcnt (fst s') = leapcnt (fst s)) s.
Proof.
  intros H. pose proof (ta_type _ H) as Ht. pose proof (ta_time _ H) as Hn.
  pose proof (ta_shape _ H) as Hs. unfold TZ_MAX_TYPES, TZ_MAX_TIMES in *.
  apply wp_bind, wp_get, wp_bind. eapply wp_conseq; [apply type0_used_wp; [done|lia|]|].
  { unfold TZ_MAX_TIMES. lia. }
  intros s1 r (-> & used & -> & _). apply wp_bind.
  apply (wp_conseq _ (unchanged s (fun i => -1 <= i < typecnt (fst s)))).
  { set (i := if used then -1 else 0).
    assert (Hi : -1 <= i < typecnt (fst s)) by (unfold i; destruct used; lia).
    destruct (Z.ltb_spec i 0), (Z.ltb_spec 0 (timecnt (fst s))); cbn [andb];
      try (apply wp_ret; split; [done|]; eexists; by split).
    apply wp_bind, wp_type_of; [done|unfold TZ_MAX_TIMES; lia|]. intros t0 Ht0.
    pose proof (ta_types _ H 0 t0 ltac:(lia) Ht0) as B.
    apply wp_bind, wp_tti_of; [done|unfold TZ_MAX_TYPES; lia|]. intros tt0 _.
    destruct (negb _); [|apply wp_ret; split; [done|]; eexists; by split].
    eapply wp_conseq; [apply std_before_wp; [done|unfold TZ_MAX_TYPES; lia]|].
    intros s2 r (-> & k & -> & Hk). split; [done|]. eexists. split; [done|]. lia. }
  intros s1 r (-> & i & -> & Hi). apply wp_bind.
  apply (wp_conseq _ (unchanged s (fun i => 0 <= i < typecnt (fst s)))).
  { destruct (Z.ltb_spec i 0).
    - apply first_std_wp; [done|lia|unfold TZ_MAX_TYPES; lia].
    - apply wp_ret. split; [done|]. eexists. split; [done|]. lia. }
  intros s1 r (-> & k & -> & Hk). apply wp_modify. split; [by eexists|]. split; [|done].
  by apply wf_default.
Qed.

(** ** What statements do not change *)

Section Preserves.
Context (R : tzio -> tzio -> Prop) `{!PreOrder R}.

Definition preserves {A} (m : T A) : Prop := forall s s' r, m s = Done (s', r) -> R s s'.

Lemma wp_preserves {A} (m : T A) Q s : preserves m -> wp m Q s ->
  wp m (fun s' r => Q s' r /\ R s s') s.
Proof.
  intros Hk. unfold wp. destruct (m s) as [[s' r]|] eqn:E; [|done]. intros HQ. split; [done|].
  by eapply Hk.
Qed.

Lemma preserves_bind {A B} (m : T A) (k : A -> T B) :
  preserves m -> (forall a, preserves (k a)) -> preserves (m ≫= k).
Proof.
  intros Hm Hk s s' r. unfold mbind, T_bind. destruct (m s) as [[t [a|]]|] eqn:E; [..|done];
    rewrite bind_Done; apply Hm in E.
  - intros H. apply Hk in H. by etrans.
  - by intros [= <- <-].
Qed.

Lemma preserves_ret {A} (a : A) : preserves (mret a).
Proof. by intros s s' r [= <- <-]. Qed.

Lemma preserves_check b : preserves (check b).
Proof. destruct b; by intros s s' r [= <- <-]. Qed.

Lemma preserves_lift {A} (o : outcome A) : preserves (lift o).
Proof. intros s s' r. unfold lift. destruct o; [|done]. by intros [= <- <-]. Qed.

Lemma preserves_get : preserves get.
Proof. by intros s s' r [= <- <-]. Qed.

Lemma preserves_for_each {P} n i (f : Z -> P -> T P) p :
  (forall i p, preserves (f i p)) -> preserves (for_each n i f p).
Proof.
  intros Hf. revert i p. induction n as [|n IH]; intros i p; cbn [for_each]; [apply preserves_ret|].
  apply preserves_bind; [apply Hf|intros; apply IH].
Qed.
End Preserves.

Ltac preserves_step := first
  [ apply preserves_ret; exact _ | apply preserves_check; exact _ | apply preserves_lift; exact _
  | apply preserves_get; exact _ | apply preserves_for_each; [exact _|intros]
  | apply preserves_bind; [exact _| |intros]
  | match goal with |- preserves _ (let '(_, _) := ?x in _) => destruct x
    | |- preserves _ (if ?c then _ else _) => destruct c
    | |- preserves _ (match ?x with _ => _ end) => destruct x end
  | progress cbv zeta ].

Ltac preserves := repeat preserves_step.

(** The cached directory *)
Definition same_dir (s s' : tzio) : Prop := snd s' = snd s.

#[export] Instance same_dir_preorder : PreOrder same_dir.
Proof. split; [done|]. intros x y z. unfold same_dir. congruence. Qed.

Abbreviation keeps := (preserves same_dir).

Lemma keeps_put sp : keeps (put sp).
Proof. by intros s s' r [= <- <-]. Qed.

Lemma keeps_modify f : keeps (modify f).
Proof. by intros s s' r [= <- <-]. Qed.

Ltac keeps := repeat first
  [ progress preserves | apply keeps_put | apply keeps_modify
  | progress unfold put_time, put_type, put_tti, put_char, put_lsi, at_of, type_of, tti_of, next_byte, code ].

Lemma keeps_out_of_sort n i : keeps (out_of_sort n i).
Proof. revert i. induction n as [|n IH]; intros i; cbn [out_of_sort]; keeps; apply IH. Qed.

Lemma keeps_load_tables buf : keeps (load_tables buf).
Proof.
  unfold load_tables, load_arrays, load_time, load_type, load_tti, load_char, load_lsi, load_flag,
    ignore_beginning.
  keeps; apply keeps_out_of_sort.
Qed.

Lemma keeps_first_std n i cnt : keeps (first_std n i cnt).
Proof. revert i. induction n as [|n IH]; intros i; cbn [first_std]; keeps; apply IH. Qed.

Lemma keeps_std_before n : keeps (std_before n).
Proof. induction n as [|n IH]; cbn [std_before]; keeps; apply IH. Qed.

Lemma keeps_type0_used n i : keeps (type0_used n i).
Proof. revert i. induction n as [|n IH]; intros i; cbn [type0_used]; keeps; apply IH. Qed.

Lemma keeps_early_type : keeps early_type.
Proof.
  unfold early_type. keeps; auto using keeps_first_std, keeps_std_before, keeps_type0_used.
Qed.
