(* ===== verification/TzInv.v ===== *)
(** * tzset keeps the tables of the local zone usable

    Whether a file loads depends on its bytes only; tzparse leaves usable tables; so
    does every call of tzset, and localtime is defined after any sequence of them. *)

From Stdlib Require Import String.
From stdpp Require Import base gmap list numbers.
From Stdlib Require Import ZArith Lia.
From S2P Require Import Prelude Calendar MkTime TzRules TzLoad TzSafe.

Open Scope Z_scope.
Open Scope c_scope.

(** ** Loading from different tables *)

(** The same counts, and arrays of the same lengths *)
Definition alike (s1 s2 : tzio) : Prop :=
  let a := fst s1 in let b := fst s2 in
  leapcnt a = leapcnt b /\ timecnt a = timecnt b /\ typecnt a = typecnt b /\
  charcnt a = charcnt b /\ length (ats a) = length (ats b) /\
  length (types a) = length (types b) /\ length (ttis a) = length (ttis b) /\
  length (chars a) = length (chars b) /\ length (lsis a) = length (lsis b).

(** The runs of two statements from such tables both fail, both return -1, or give
    related results. *)
Definition rel {A} (R : A -> A -> Prop) (m1 m2 : T A) : Prop :=
  forall s1 s2, alike s1 s2 ->
  match m1 s1, m2 s2 with
  | Done (t1, Some a), Done (t2, Some b) => alike t1 t2 /\ R a b
  | Done (t1, None), Done (t2, None) => alike t1 t2
  | Fail _, Fail _ => True
  | _, _ => False
  end.

Lemma rel_bind {A B} (R : A -> A -> Prop) (R' : B -> B -> Prop) m1 m2 (k1 k2 : A -> T B) :
  rel R m1 m2 -> (forall a b, R a b -> rel R' (k1 a) (k2 b)) -> rel R' (m1 ≫= k1) (m2 ≫= k2).
Proof.
  intros Hm Hk s1 s2 Hs. unfold mbind, T_bind. specialize (Hm s1 s2 Hs).
  destruct (m1 s1) as [[t1 [a|]]|], (m2 s2) as [[t2 [b|]]|]; try done.
  rewrite !bind_Done. destruct Hm as [Ht Hr]. by apply Hk.
Qed.

Lemma rel_ret {A} (R : A -> A -> Prop) a b : R a b -> rel R (mret a) (mret b).
Proof. intros H s1 s2 Hs. by split. Qed.

Lemma rel_check b : rel eq (check b) (check b).
Proof. intros s1 s2 Hs. by destruct b. Qed.

(** Accesses of an array at the same index *)
Lemma at_index_alike {A} (l1 l2 : list A) i : length l1 = length l2 ->
  match at_index l1 i, at_index l2 i with Done _, Done _ | Fail _, Fail _ => True | _, _ => False end.
Proof.
  intros Hl. unfold at_index. destruct (i <? 0); [done|].
  destruct (l1 !! Z.to_nat i) eqn:E1, (l2 !! Z.to_nat i) eqn:E2; try done.
  - apply lookup_lt_Some in E1. apply lookup_ge_None in E2. lia.
  - apply lookup_lt_Some in E2. apply lookup_ge_None in E1. lia.
Qed.

Lemma rel_tti_of i : rel (fun _ _ => True) (tti_of i) (tti_of i).
Proof.
  intros [a d1] [b d2] Hs. unfold tti_of, mbind, T_bind, get, lift. cbn [fst]. rewrite !bind_Done.
  pose proof (at_index_alike (ttis a) (ttis b) i ltac:(unfold alike in Hs; cbn in Hs; tauto)).
  by destruct (at_index (ttis a) i), (at_index (ttis b) i).
Qed.

Ltac rel_put arr :=
  intros [a d1] [b d2] Hs; unfold mbind, T_bind, get, lift, put; cbn [fst snd]; rewrite !bind_Done;
  unfold put_index;
  match goal with |- context [at_index (arr a) ?i] =>
    pose proof (at_index_alike (arr a) (arr b) i ltac:(unfold alike in Hs; cbn in Hs; tauto));
    destruct (at_index (arr a) i), (at_index (arr b) i); try done end;
  rewrite !bind_Done; (split; [|done]); unfold alike in *; cbn in *; rewrite !length_insert; tauto.

Lemma rel_put_time i v w : rel eq (put_time i v) (put_time i w).
Proof. unfold put_time. rel_put ats. Qed.
Lemma rel_put_type i v w : rel eq (put_type i v) (put_type i w).
Proof. unfold put_type. rel_put types. Qed.
Lemma rel_put_tti i v w : rel eq (put_tti i v) (put_tti i w).
Proof. unfold put_tti. rel_put ttis. Qed.
Lemma rel_put_char i v w : rel eq (put_char i v) (put_char i w).
Proof. unfold put_char. rel_put chars. Qed.
Lemma rel_put_lsi i v w : rel eq (put_lsi i v) (put_lsi i w).
Proof. unfold put_lsi. rel_put lsis. Qed.

Lemma rel_get : rel (fun a b => typecnt a = typecnt b /\ charcnt a = charcnt b) get get.
Proof. intros [a d1] [b d2] Hs. split; [done|]. unfold alike in Hs. cbn in *. tauto. Qed.

Lemma rel_next_byte p : rel eq (next_byte p) (next_byte p).
Proof. intros s1 s2 Hs. by destruct p. Qed.

Lemma rel_code p : rel eq (code p) (code p).
Proof. intros s1 s2 Hs. unfold code. by destruct (_ <? _). Qed.

Lemma rel_for_each {P} n i (f : Z -> P -> T P) p :
  (forall i p, rel eq (f i p) (f i p)) -> rel eq (for_each n i f p) (for_each n i f p).
Proof.
  intros Hf. revert i p. induction n as [|n IH]; intros i p; cbn [for_each]; [by apply rel_ret|].
  eapply rel_bind; [apply Hf|]. intros a b ->. apply IH.
Qed.

Create HintDb rel discriminated.
#[export] Hint Resolve rel_check rel_tti_of rel_put_time rel_put_type rel_put_tti rel_put_char
  rel_put_lsi rel_get rel_next_byte rel_code : rel.

Ltac rel_auto := repeat first
  [ by apply rel_ret
  | eapply rel_bind; [solve [eauto with rel]|cbv beta]
  | match goal with |- forall a b : Z * list Z, a = b -> _ => intros ? [? ?] -> end
  | match goal with |- forall a b : unit, a = b -> _ => intros ? ? -> end
  | match goal with |- forall a b : ttinfo, True -> _ => intros ? ? _ end
  | match goal with |- forall a b : state, _ -> _ => intros ? ? [Et Ec]; rewrite ?Et, ?Ec end ].

Lemma rel_load_time i p : rel eq (load_time i p) (load_time i p).
Proof. unfold load_time. rel_auto. Qed.
Lemma rel_load_type i p : rel eq (load_type i p) (load_type i p).
Proof. unfold load_type. rel_auto. Qed.
Lemma rel_load_tti i p : rel eq (load_tti i p) (load_tti i p).
Proof. unfold load_tti. rel_auto. Qed.
Lemma rel_load_char i p : rel eq (load_char i p) (load_char i p).
Proof. unfold load_char. rel_auto. Qed.
Lemma rel_load_lsi i p : rel eq (load_lsi i p) (load_lsi i p).
Proof. unfold load_lsi. rel_auto. Qed.
Lemma rel_load_flag g cnt i p : rel eq (load_flag g cnt i p) (load_flag g cnt i p).
Proof. unfold load_flag. destruct g, (cnt =? 0); rel_auto. Qed.

#[export] Hint Resolve rel_for_each rel_load_time rel_load_type rel_load_tti rel_load_char
  rel_load_lsi rel_load_flag : rel.

Lemma rel_load_arrays nl nt ny nc std g p :
  rel eq (load_arrays nl nt ny nc std g p) (load_arrays nl nt ny nc std g p).
Proof.
  unfold load_arrays.
  repeat first [by apply rel_ret | eapply rel_bind; [solve [eauto with rel]|cbv beta; intros ? ? ->]].
Qed.

Lemma run_some {A B} (m : T A) (k : A -> T B) s s' a : m s = Done (s', Some a) -> (m ≫= k) s = k a s'.
Proof. unfold mbind at 1, T_bind. by intros ->. Qed.

Lemma run_none {A B} (m : T A) (k : A -> T B) s s' : m s = Done (s', None) -> (m ≫= k) s = Done (s', None).
Proof. unfold mbind at 1, T_bind. by intros ->. Qed.

Lemma shape_alike s1 s2 l t y c : shape (fst s1) -> shape (fst s2) ->
  alike (set_counts (fst s1) l t y c, snd s1) (set_counts (fst s2) l t y c, snd s2).
Proof. intros [] []. unfold alike. cbn. split_and!; done || lia. Qed.

(** A file that cannot be loaded into some tables cannot be loaded into any. *)
Lemma load_tables_none buf s1 s2 : bytes buf -> shape (fst s1) -> shape (fst s2) ->
  wp (load_tables buf) (fun _ r => r = None -> exists t, load_tables buf s2 = Done (t, None)) s1.
Proof.
  intros Hb H1 H2. unfold load_tables.
  pose proof (shape_alike s1 s2 (header buf 28) (header buf 32) (header buf 36) (header buf 40) H1 H2) as Ha.
  apply wp_bind, wp_modify, wp_bind, wp_get, wp_bind.
  erewrite (run_some _ _ s2) by done. erewrite (run_some get) by done.
  set (t1 := set_counts (fst s1) _ _ _ _) in *. set (t2 := set_counts (fst s2) _ _ _ _) in *.
  cbn [fst snd]. change (leapcnt t2) with (leapcnt t1). change (timecnt t2) with (timecnt t1).
  change (typecnt t2) with (typecnt t1). change (charcnt t2) with (charcnt t1).
  change (counts_ok t2) with (counts_ok t1).
  change (enough (Z.of_nat (length buf)) t2) with (enough (Z.of_nat (length buf)) t1).
  assert (Hs1 : shape t1) by by apply shape_counts.
  apply wp_check; intros Hc; rewrite Hc.
  2: { intros _. eexists. by apply run_none. }
  erewrite (run_some (check true)) by done.
  apply wp_bind, wp_check; intros Hlen; rewrite Hlen.
  2: { intros _. eexists. by apply run_none. }
  erewrite (run_some (check true)) by done.
  destruct (load_checked_wp buf (t1, snd s1) _ _ Hb Hs1 Hc Hlen) as [(Hl & Ht & Hy & Hn) Hw].
  cbn [fst] in *.
  pose proof (rel_load_arrays (leapcnt t1) (timecnt t1) (typecnt t1) (charcnt t1) (header buf 24)
    (header buf 20) (drop (Z.to_nat sizeof_tzhead) buf) _ _ Ha) as Hr.
  apply wp_bind. eapply wp_conseq; [apply wp_eqn, Hw|]. intros s' [u|] [E Q].
  - eapply wp_conseq; [by apply (repair_wp (leapcnt t1) (timecnt t1) (typecnt t1) (charcnt t1) s')|]. by intros s3 [?|].
  - intros _. rewrite E in Hr.
    destruct (load_arrays _ _ _ _ _ _ _ (t2, snd s2)) as [[t [?|]]|] eqn:E2; try done.
    exists t. by apply run_none.
Qed.

(** Whether the bytes load *)
Definition loads (buf : list Z) : bool :=
  match load_tables buf (zero_state, mk_dir [] 0) with Done (_, Some _) => true | _ => false end.

Lemma zero_shape : shape zero_state.
Proof. by split. Qed.

Lemma loads_wp buf s : bytes buf -> shape (fst s) -> loads buf = true ->
  wp (load_tables buf) (post (fun _ => False)
    (fun _ s => tables (fst s) /\ leapcnt (fst s) = header buf 28)) s.
Proof.
  intros Hb Hs Hl. unfold loads in Hl.
  destruct (wp_Done _ _ _ (load_tables_wp buf s Hb Hs)) as (s' & r & E & Q).
  destruct (wp_Done _ _ _ (load_tables_none buf s (zero_state, mk_dir [] 0) Hb Hs zero_shape))
    as (s2 & r2 & E2 & Q2). rewrite E in E2. injection E2 as <- <-.
  unfold wp. rewrite E. destruct r as [u|]; [done|].
  destruct (Q2 eq_refl) as [t Et]. by rewrite Et in Hl.
Qed.

Lemma posixrules_bytes : bytes posixrules_data.
Proof. unfold bytes. apply (bool_decide_unpack _). by vm_compute. Qed.

Lemma posixrules_loads : loads posixrules_data = true.
Proof. by vm_compute. Qed.

(** ** Usable tables *)

(** What localtime needs: also the entry for early times is good, even where its index
    is not below typecnt. *)
Record usable (sp : state) : Prop := {
  us_shape : shape sp;
  us_leap : leapcnt sp = 0;
  us_time : 0 <= timecnt sp <= TZ_MAX_TIMES;
  us_type : 0 <= typecnt sp <= TZ_MAX_TYPES;
  us_char : 0 <= charcnt sp <= sizeof_chars;
  us_types : types_upto (timecnt sp) (typecnt sp) (types sp);
  us_ttis : ttis_upto (typecnt sp) (ttis sp);
  us_default : 0 <= defaulttype sp < TZ_MAX_TYPES;
  us_early : forall t, ttis sp !! Z.to_nat (defaulttype sp) = Some t -> good_tti t }.

Lemma wf_usable sp : wf sp -> leapcnt sp = 0 -> usable sp.
Proof.
  intros [H Hd] Hl. pose proof (ta_ttis _ H) as Htt. destruct H. split; try done; try lia.
  intros t Ht. by eapply Htt.
Qed.

(** A good type is stored. *)
Lemma usable_tti sp i t : usable sp -> 0 <= i -> good_tti t -> usable (with_tti sp i t).
Proof.
  intros [] Hi Hg. split; try done; [by apply with_shape| |].
  - unfold ttis_upto. by apply (insert_upto good_tti).
  - intros x. cbn. intros Hx%list_lookup_insert_Some. destruct Hx as [(_ & <- & _)|(_ & Hx)]; auto.
Qed.

Lemma usable_chars sp i v : usable sp -> 0 <= i < sizeof_chars -> i <> 50 \/ v = 0 ->
  usable (with_char sp i v).
Proof. intros [] Hi Hv. split; try done. by apply with_char_shape. Qed.

Lemma usable_charcnt sp n : usable sp -> 0 <= n <= sizeof_chars -> usable (set_charcnt sp n).
Proof. intros [] Hn. by split; try apply shape_counts. Qed.

Lemma usable_no_times sp n : usable sp -> 0 <= n <= typecnt sp -> usable (set_timecnt (set_typecnt sp n) 0).
Proof.
  intros H Hn. pose proof (us_ttis _ H) as Htt. pose proof (us_type _ H). destruct H.
  unfold TZ_MAX_TIMES, TZ_MAX_TYPES in *.
  split; unfold TZ_MAX_TIMES, TZ_MAX_TYPES; try done; try (cbn; lia).
  - by do 2 apply shape_counts.
  - intros i ty Hi. cbn in Hi. lia.
  - intros i t Hi. apply Htt. cbn in Hi. lia.
Qed.

(** ** The numbers of a TZ string *)

Lemma getnum_loop_range strp num min max n rest : getnum_loop strp num min max = Some (n, rest) ->
  num <= max -> min <= n <= max.
Proof.
  revert num. induction strp as [|c strp IH]; intros num; cbn.
  - destruct (Z.ltb_spec num min); [done|]. intros E ?. simplify_eq. lia.
  - destruct (is_digit c).
    + destruct (Z.ltb_spec max (num * 10 + (c - 48))); [done|]. intros E _. eapply IH; [exact E|lia].
    + destruct (Z.ltb_spec num min); [done|]. intros E ?. simplify_eq. lia.
Qed.

Lemma getnum_range strp min max n rest : getnum strp min max = Some (n, rest) -> 0 <= max ->
  min <= n <= max.
Proof. unfold getnum. destruct (negb _); [done|]. intros. by eapply getnum_loop_range. Qed.

(** Peel the scanners off an equation about their result. *)
Ltac scan := repeat match goal with
  | H : context [getnum ?s ?a ?b] |- _ =>
      let E := fresh "E" in destruct (getnum s a b) as [[? ?]|] eqn:E; [|done]; cbn [mbind option_bind] in H;
      apply getnum_range in E;
      [|unfold HOURSPERDAY, DAYSPERWEEK, MINSPERHOUR, SECSPERMIN, DAYSPERNYEAR, DAYSPERLYEAR, MONSPERYEAR; lia]
  | H : (if ?c then _ else _) = Some _ |- _ => destruct c; try done
  end.

Lemma getsecs_range strp n rest : getsecs strp = Some (n, rest) -> 0 <= n <= 604860.
Proof.
  unfold getsecs. intros H. scan; simplify_eq;
    unfold HOURSPERDAY, DAYSPERWEEK, MINSPERHOUR, SECSPERMIN, SECSPERHOUR in *; lia.
Qed.

Lemma getoffset_range strp n rest : getoffset strp = Some (n, rest) -> - 604860 <= n <= 604860.
Proof.
  unfold getoffset. cbv zeta.
  match goal with |- context [getsecs ?s] => destruct (getsecs s) as [[o r]|] eqn:E; [|done] end.
  apply getsecs_range in E. cbn.
  intros [= <- <-]. destruct (cur_char strp =? 45); lia.
Qed.

Lemma getrule_ok strp r rest : getrule strp = Some (r, rest) -> rule_ok r.
Proof.
  unfold getrule. intros H. destruct (getdate strp) as [[d s]|] eqn:E; [|done]. cbn in H.
  assert (Er : r_date r = d).
  { destruct (cur_char s =? 47); [destruct (getsecs _) as [[? ?]|]; [|done]|]; cbn in H; by simplify_eq. }
  unfold rule_ok. rewrite Er. clear H Er r rest. unfold getdate in E. scan; simplify_eq;
    unfold MONSPERYEAR, DAYSPERNYEAR, DAYSPERLYEAR, DAYSPERWEEK in *; lia.
Qed.

Lemma transtime_Done janfirst year r offset : rule_ok r ->
  exists v, transtime janfirst year r offset = Done v.
Proof.
  intros Hr. unfold transtime, rule_ok in *. destruct (r_date r) as [d|d|m w d]; try by eexists.
  destruct (mon_length_bounds (isleap year) (m - 1) ltac:(lia)) as (len & Hl & _).
  rewrite (at_index_Done _ _ len) by (done || lia). by eexists.
Qed.

(** ** tzload *)

Definition dir_ok (d : dircache) : Prop := Z.of_nat (length (dir d)) <= 249.

(** The first bytes of a file, as read *)
Definition first_bytes (b : list Z) : list Z := take (Z.to_nat sizeof_buf) b.

(** Files have bytes, do not start with the line feed of a version 2 footer and have no
    leap seconds; a file with the default rules can be loaded. *)
Record files_ok (files : list Z -> option (list Z)) : Prop := {
  fi_bytes : forall name b, files name = Some b -> bytes b;
  fi_magic : forall name b, files name = Some b -> cur_char b <> 10;
  fi_leaps : forall name b, files name = Some b -> header (first_bytes b) 28 = 0;
  fi_rules : forall name b, files name = Some b -> base_of name = lit "posixrules" ->
    sizeof_tzhead <= Z.of_nat (length (first_bytes b)) /\ loads (first_bytes b) = true }.

Record env_ok (env : list Z -> option (list Z)) : Prop := {
  en_tzdir : forall cp, env (lit "TZDIR") = Some cp -> Z.of_nat (length cp) <= 249;
  en_djdir : forall cp, env (lit "DJDIR") = Some cp -> Z.of_nat (length cp) <= 240 }.

Section Inv.
Context (files env : list Z -> option (list Z)) (bss_count : Z) (ts0 : state).
Context (Hfiles : files_ok files) (Henv : env_ok env).

Abbreviation tzdir := (tzdir env bss_count).
Abbreviation full_name := (full_name env bss_count).
Abbreviation read_file := (read_file files).
Abbreviation tzload_with := (tzload_with files env bss_count).
Abbreviation tzparse := (tzparse files env bss_count).
Abbreviation tzload := (tzload files env bss_count ts0).
Abbreviation gmtload := (gmtload files env bss_count ts0).

(** The tables have their shape, and the cached directory is short. *)
Definition sound (s : tzio) : Prop := shape (fst s) /\ dir_ok (snd s).

Lemma fits_Done l : Z.of_nat (length l) <= 260 -> fits l = Done l.
Proof. intros H. unfold fits, FILENAME_MAX. by rewrite (proj2 (Z.ltb_lt _ _)) by lia. Qed.

Lemma tzdir_wp s : dir_ok (snd s) ->
  wp tzdir (fun s' r => fst s' = fst s /\ dir_ok (snd s') /\
    exists p, r = Some p /\ Z.of_nat (length p) <= 249) s.
Proof.
  destruct s as [sp d]. cbn. intros Hd. unfold wp, TzLoad.tzdir.
  set (cur := if negb _ then _ else _).
  assert (Hc : Z.of_nat (length cur) <= 249) by (unfold cur; destruct (negb _); [done|exact Hd]).
  assert (G : exists r, (if bool_decide (cur = []) then
       match env (lit "TZDIR") with
       | Some cp => fits cp
       | None => match env (lit "DJDIR") with
                 | Some cp => _ ← fits cp; fits (cp ++ lit "/zoneinfo")
                 | None => fits (lit "./")
                 end
       end else Done cur) = Done r /\ Z.of_nat (length r) <= 249).
  { destruct (bool_decide _); [|by exists cur].
    destruct (env (lit "TZDIR")) as [cp|] eqn:E1.
    - apply (en_tzdir _ Henv) in E1. exists cp. by rewrite fits_Done by lia.
    - destruct (env (lit "DJDIR")) as [cp|] eqn:E2; [|by exists (lit "./")].
      apply (en_djdir _ Henv) in E2. rewrite (fits_Done cp), bind_Done by lia.
      assert (L : Z.of_nat (length (cp ++ lit "/zoneinfo")) <= 249).
      { rewrite length_app. change (length (lit "/zoneinfo")) with 9%nat. lia. }
      eexists. by rewrite fits_Done by lia. }
  destruct G as (r & -> & Hr). rewrite bind_Done. split; [done|]. split; [done|]. by exists r.
Qed.

Lemma full_name_wp name s : dir_ok (snd s) ->
  wp (full_name name) (fun s' r => fst s' = fst s /\ dir_ok (snd s')) s.
Proof.
  intros Hd. unfold TzLoad.full_name. cbv zeta. destruct (negb _ && negb _); [|by apply wp_ret].
  apply wp_bind. eapply wp_conseq; [by apply tzdir_wp|].
  intros s' r (E & Hd' & p & -> & Hp). by destruct (_ <=? _).
Qed.

Lemma basename_after p : after_last (fun c => (c =? 47) || (c =? 92)) (p ++ 47 :: lit "posixrules") =
  Some (lit "posixrules").
Proof. induction p as [|c p IH]; [by vm_compute|]. cbn [app after_last]. by rewrite IH. Qed.

(** The default rules are found in the directory, or built in. *)
Lemma rules_name_wp s : dir_ok (snd s) ->
  wp (full_name TZDEFRULES) (fun s' r => fst s' = fst s /\ dir_ok (snd s') /\
    exists name, r = Some name /\ base_of name = lit "posixrules") s.
Proof.
  intros Hd. unfold TzLoad.full_name. cbv zeta.
  change (cur_char TZDEFRULES =? 58) with false. cbv iota.
  change (negb (cur_char TZDEFRULES =? 0) && negb (IS_ABSOLUTE TZDEFRULES)) with true. cbv iota.
  apply wp_bind. eapply wp_conseq; [by apply tzdir_wp|].
  intros s' r (E & Hd' & p & -> & Hp). change (length TZDEFRULES) with 10%nat.
  unfold FILENAME_MAX. rewrite (proj2 (Z.leb_gt _ _)) by lia. apply wp_ret.
  split; [done|]. split; [done|]. eexists. split; [done|]. unfold base_of. by rewrite basename_after.
Qed.

(** What a buffer that was read satisfies *)
Definition good_buf (buf : list Z) : Prop := bytes buf /\ cur_char buf <> 10 /\ header buf 28 = 0.

Lemma first_bytes_good name b : files name = Some b -> good_buf (first_bytes b).
Proof.
  intros E. split; [|split].
  - apply Forall_take. by eapply fi_bytes.
  - pose proof (fi_magic _ Hfiles _ _ E). unfold first_bytes.
    change (Z.to_nat sizeof_buf) with (S (Z.to_nat (sizeof_buf - 1))). by destruct b.
  - by eapply fi_leaps.
Qed.

Lemma posixrules_good : good_buf posixrules_data.
Proof. split; [apply posixrules_bytes|]. by vm_compute. Qed.

Lemma read_file_wp name s :
  wp (read_file name) (fun s' r => s' = s /\ forall buf, r = Some buf -> good_buf buf) s.
Proof.
  unfold TzLoad.read_file. destruct (files name) as [b|] eqn:E.
  - cbv zeta. fold (first_bytes b). destruct (_ <? _); [done|]. apply wp_ret. split; [done|].
    intros buf [= <-]. by eapply first_bytes_good.
  - destruct (bool_decide _); [|done]. apply wp_ret. split; [done|].
    intros buf [= <-]. apply posixrules_good.
Qed.

Lemma read_rules_wp name s : base_of name = lit "posixrules" ->
  wp (read_file name) (fun s' r => s' = s /\ exists buf, r = Some buf /\ good_buf buf /\
    loads buf = true) s.
Proof.
  intros Hn. unfold TzLoad.read_file. destruct (files name) as [b|] eqn:E.
  - destruct (fi_rules _ Hfiles _ _ E Hn) as [Hl Ho]. cbv zeta. fold (first_bytes b).
    rewrite (proj2 (Z.ltb_ge _ _)) by lia. apply wp_ret. split; [done|].
    eexists. split; [done|]. split; [by eapply first_bytes_good|done].
  - rewrite bool_decide_eq_true_2 by done. apply wp_ret. split; [done|].
    eexists. split; [done|]. split; [apply posixrules_good|apply posixrules_loads].
Qed.

(** The part after the tables are read *)
Lemma finish_wp (s : tzio) : tables (fst s) -> leapcnt (fst s) = 0 -> dir_ok (snd s) ->
  wp (_ ← find_cycles; early_type) (fun s' r => is_Some r /\ sound s' /\ usable (fst s') /\
    wf (fst s')) s.
Proof.
  intros H Hl Hd. apply wp_bind. eapply wp_conseq; [by apply find_cycles_wp|].
  intros s' r (-> & u & -> & _). eapply wp_conseq; [apply wp_preserves; [apply keeps_early_type|by apply early_type_wp]|].
  intros s2 r ((? & Hw & E) & Ek). assert (leapcnt (fst s2) = 0) by congruence.
  split; [done|]. split; [|split; [by apply wf_usable|done]].
  split; [apply Hw|]. by rewrite Ek.
Qed.

(** What a load does: it may give -1, and leaves usable tables where it does not. *)
Definition loaded (s : tzio) (r : option unit) : Prop :=
  sound s /\ (is_Some r -> usable (fst s) /\ wf (fst s)).

Lemma going_shape sp : shape sp -> shape (set_going sp false false).
Proof. by intros []. Qed.

Section Ext.
Context (extend : list Z -> T unit).
Context (Hext : forall buf s, good_buf buf -> wp (extend buf) (unchanged s (fun _ => True)) s).

Lemma load_buf_wp buf s (P : option unit -> Prop) : good_buf buf -> sound s ->
  wp (load_tables buf) (post (fun s => failed s /\ P None)
    (fun _ s => tables (fst s) /\ leapcnt (fst s) = header buf 28)) s ->
  (forall u, P (Some u)) ->
  wp (_ ← load_tables buf; _ ← extend buf; _ ← find_cycles; early_type)
    (fun s' r => loaded s' r /\ P r) s.
Proof.
  intros Hb [Hs Hd] Hl HP. apply wp_bind. eapply wp_conseq.
  { apply wp_preserves; [apply keeps_load_tables|exact Hl]. }
  intros s1 [u|] [H1 E1]; cbn in H1.
  - destruct H1 as [Ht El]. apply wp_bind. eapply wp_conseq; [by apply Hext|].
    intros s2 r (-> & v & -> & _). eapply wp_conseq; [apply finish_wp; [done| |by rewrite E1]|].
    { rewrite El. apply Hb. }
    intros s2 r ([w ->] & ? & ? & ?). split; [|apply HP]. split; [done|]. by intros _.
  - destruct H1 as [Hf Hp]. split; [|done]. split; [split; [done|by rewrite E1]|]. by intros [? ?].
Qed.

Lemma tzload_with_wp name s : sound s -> wp (tzload_with extend name) loaded s.
Proof.
  intros [Hs Hd]. apply wp_bind, wp_modify, wp_bind.
  eapply wp_conseq; [by apply full_name_wp|]. intros s1 r [E1 Hd1]. cbn [fst] in E1.
  assert (Hs1 : shape (fst s1)) by (rewrite E1; by apply going_shape).
  destruct r as [n|]; [|by split; [split|intros [? ?]]].
  apply wp_bind. eapply wp_conseq; [apply read_file_wp|]. intros s2 r [-> Hr].
  destruct r as [buf|]; [|by split; [split|intros [? ?]]].
  eapply wp_conseq; [apply (load_buf_wp buf s1 (fun _ => True)); [by apply Hr|done| |done]|].
  - eapply wp_conseq; [apply load_tables_wp; [by apply Hr|done]|]. by intros s2 [u|].
  - by intros s2 r [? _].
Qed.

Lemma rules_wp s : sound s ->
  wp (tzload_with extend (Some TZDEFRULES)) (fun s' r => loaded s' r /\ is_Some r) s.
Proof.
  intros [Hs Hd]. apply wp_bind, wp_modify, wp_bind.
  eapply wp_conseq; [by apply rules_name_wp|]. intros s1 r (E1 & Hd1 & n & -> & Hn). cbn [fst] in E1.
  assert (Hs1 : shape (fst s1)) by (rewrite E1; by apply going_shape).
  apply wp_bind. eapply wp_conseq; [by apply read_rules_wp|].
  intros s2 r (-> & buf & -> & Hb & Hl).
  apply (load_buf_wp buf s1 is_Some); [done|done| |by eexists].
  eapply wp_conseq; [apply loads_wp; [apply Hb|done|done]|]. by intros s2 [u|].
Qed.
End Ext.

Lemma no_extend_wp buf s : good_buf buf -> wp (mret () : T unit) (unchanged s (fun _ => True)) s.
Proof. intros _. apply wp_ret. split; [done|by eexists]. Qed.

Lemma extend_file_wp buf s : good_buf buf ->
  wp (extend_file files env bss_count ts0 buf) (unchanged s (fun _ => True)) s.
Proof.
  intros (_ & Hm & _). apply wp_bind, wp_get. rewrite (proj2 (Z.eqb_neq _ _) Hm).
  rewrite andb_false_r. cbn [andb]. apply wp_ret. split; [done|by eexists].
Qed.

Lemma tzload_wp name s : sound s -> wp (tzload name true) loaded s.
Proof. intros Hs. apply tzload_with_wp; [apply extend_file_wp|done]. Qed.

(** ** tzparse *)

(** Usable tables, or -1 *)
Definition parsed (s : tzio) (r : option unit) : Prop :=
  sound s /\ (is_Some r -> usable (fst s)).

Definition ready (s : tzio) : Prop := usable (fst s) /\ dir_ok (snd s).

Lemma ready_sound s : ready s -> sound s.
Proof. intros [[] ?]. by split. Qed.

(** The name of a zone is stored where the last byte of the array is not overwritten by
    a character. *)
Lemma put_name_wp i name s : ready s -> 0 <= i -> i + Z.of_nat (length name) <= 50 ->
  wp (put_name i name) (post (fun _ => False) (fun _ => ready)) s.
Proof.
  intros Hr Hi Hl. apply (wp_then _ _ (fun _ => False)
    (fun (p : list Z) s => ready s)); [|done|].
  - eapply wp_conseq.
    + apply (wp_for_each (fun _ => False) (fun k p s => ready s /\
        Z.of_nat (length p) = i + Z.of_nat (length name) - k)).
      * intros k p s' Hk [[Hu Hd] Hp]. destruct p as [|c p]; [cbn in Hp; lia|].
        apply wp_bind, wp_ret, wp_bind, wp_put_char; [apply Hu|unfold sizeof_chars; lia|].
        apply wp_ret. split; [split; [|done]|rewrite length_cons in Hp; lia].
        apply usable_chars; [done|unfold sizeof_chars; lia|lia].
      * split; [done|]. lia.
    + intros s' [p|]; [|done]. by intros [? _].
  - intros p s' [Hu Hd]. apply wp_put_char; [apply Hu|unfold sizeof_chars; lia|].
    split; [|done]. apply usable_chars; [done|unfold sizeof_chars; lia|by right].
Qed.

(** charcnt for the names of a zone *)
Definition names_len (stdname dstname : list Z) : Z :=
  let dstlen := Z.of_nat (length dstname) in
  Z.of_nat (length stdname) + 1 + (if negb (dstlen =? 0) then dstlen + 1 else 0).

Lemma put_names_ok stdname dstname s : ready s -> names_len stdname dstname <= sizeof_chars ->
  wp (put_names stdname dstname) (post (fun _ => False) (fun _ => ready)) s.
Proof.
  intros [Hu Hd] Hn. unfold put_names. cbv zeta. fold (names_len stdname dstname).
  apply wp_bind, wp_modify, wp_bind. rewrite (proj2 (Z.ltb_ge _ _)) by done. apply wp_ret.
  assert (Hb : 0 <= names_len stdname dstname <= sizeof_chars).
  { split; [unfold names_len; destruct (negb _); lia|lia]. }
  unfold sizeof_chars, names_len in Hb, Hn.
  eapply wp_then; [apply put_name_wp|done|].
  { split; [by apply usable_charcnt|done]. }
  { done. }
  { destruct (negb _); lia. }
  intros u s' Hr. destruct (Z.eqb_spec (Z.of_nat (length dstname)) 0) as [|Hz]; cbn [negb] in *.
  - by apply wp_ret.
  - apply put_name_wp; [done|lia..].
Qed.

Lemma put_names_wp stdname dstname s : ready s -> wp (put_names stdname dstname) parsed s.
Proof.
  intros Hr. destruct (Z.leb_spec (names_len stdname dstname) sizeof_chars) as [Hn|Hn].
  - eapply wp_conseq; [by apply put_names_ok|]. intros s' [u|]; [|done].
    intros H. split; [by apply ready_sound|]. intros _. by destruct H.
  - unfold put_names. cbv zeta. fold (names_len stdname dstname).
    apply wp_bind, wp_modify, wp_bind. rewrite (proj2 (Z.ltb_lt _ _)) by done.
    destruct Hr as [Hu Hd]. split; [|by intros [? ?]]. split; [by apply shape_counts, Hu|done].
Qed.

Lemma only_std_wp off s : ready s -> wf (fst s) -> - 604860 <= off <= 604860 ->
  wp (only_std off) (post (fun _ => False) (fun _ => ready)) s.
Proof.
  intros [Hu Hd] [Ht _] Ho. pose proof (ta_type _ Ht).
  pose proof (usable_no_times _ 1 Hu ltac:(lia)) as Hu1.
  apply wp_bind, wp_modify, wp_bind, wp_tti_of; [apply Hu1|unfold TZ_MAX_TYPES; lia|]. intros t _.
  apply wp_bind, wp_put_tti; [apply Hu1|unfold TZ_MAX_TYPES; lia|]. cbn [fst snd].
  set (t1 := mk_tt _ _ _ _ _).
  assert (Hg : good_tti t1) by (unfold good_tti; cbn; lia).
  pose proof (usable_tti _ 0 t1 Hu1 ltac:(lia) Hg) as Hu2.
  apply wp_bind, wp_modify, wp_ret. split; [|done]. cbn [fst].
  pose proof (us_ttis _ Hu2) as Htt. destruct Hu2 as [[]]. split; try done.
  intros x Hx. eapply (Htt 0); [cbn; lia|exact Hx].
Qed.

(** ** The rules of daylight saving time *)

Definition dst_ready (s : tzio) : Prop := ready s /\ typecnt (fst s) = 2.

Lemma usable_times sp n : usable sp -> types_upto n (typecnt sp) (types sp) ->
  0 <= n <= TZ_MAX_TIMES -> usable (set_timecnt sp n).
Proof. intros [[]] Ht Hn. by split. Qed.

Lemma usable_at sp i v : usable sp -> usable (with_at sp i v).
Proof. intros []. split; try done. by apply with_shape. Qed.

Lemma usable_type sp i v : usable sp -> 0 <= i -> 0 <= v < typecnt sp -> usable (with_type sp i v).
Proof.
  intros H Hi Hv. pose proof (us_types _ H) as Ht. destruct H. split; try done; [by apply with_shape|].
  unfold types_upto. by apply (insert_upto (fun x => 0 <= x < typecnt sp)).
Qed.

(** Two transitions are appended. *)
Definition pair_state (sp : state) (a t b u : Z) : state :=
  let n := timecnt sp in
  set_timecnt (with_type (with_at (with_type (with_at sp n a) n t) (n + 1) b) (n + 1) u) (n + 2).

Lemma pair_usable sp a t b u : usable sp -> timecnt sp + 2 <= TZ_MAX_TIMES ->
  0 <= t < typecnt sp -> 0 <= u < typecnt sp -> usable (pair_state sp a t b u).
Proof.
  intros H Hn Ht Hu. unfold pair_state. cbv zeta.
  pose proof (us_time _ H). pose proof (us_types _ H) as Hty.
  pose proof (usable_at sp (timecnt sp) a H) as H1.
  pose proof (usable_type _ (timecnt sp) t H1 ltac:(lia) Ht) as H2.
  pose proof (usable_at _ (timecnt sp + 1) b H2) as H3.
  pose proof (usable_type _ (timecnt sp + 1) u H3 ltac:(lia) Hu) as H4.
  apply usable_times; [done| |lia]. cbn [types with_type with_at set_arrays typecnt].
  replace (timecnt sp + 2) with (timecnt sp + 1 + 1) by lia. unfold types_upto in *.
  refine (insert_next (fun x => 0 <= x < typecnt sp) _ _ _ _ _ Hu); [lia|].
  refine (insert_next (fun x => 0 <= x < typecnt sp) _ _ _ _ Hty Ht). lia.
Qed.

Lemma add_year_exact start stop so do year jan v1 v2 s : shape (fst s) ->
  0 <= timecnt (fst s) -> timecnt (fst s) + 2 <= TZ_MAX_TIMES ->
  transtime jan year start so = Done v1 -> transtime jan year stop do = Done v2 ->
  wp (add_year start stop so do year jan) (fun s' r => r = Some () /\
    s' = (if v2 <? v1 then pair_state (fst s) v2 1 v1 0 else pair_state (fst s) v1 0 v2 1, snd s)) s.
Proof.
  intros Hs H0 Hn E1 E2. apply wp_bind, wp_get, wp_bind. eapply wp_lift; [exact E1|].
  apply wp_bind. eapply wp_lift; [exact E2|]. cbv zeta. set (n := timecnt (fst s)) in *.
  assert (G : forall a t b u,
    wp (_ ← (_ ← put_time n a; _ ← put_type n t; _ ← put_time (n + 1) b; put_type (n + 1) u);
        modify (fun sp => set_timecnt sp (n + 2)))
      (fun s' r => r = Some () /\ s' = (pair_state (fst s) a t b u, snd s)) s).
  { intros a t b u. apply wp_bind, wp_bind, wp_put_time; [done|lia|].
    assert (S1 : shape (with_at (fst s) n a)) by by apply with_shape.
    apply wp_bind, wp_put_type; [done|lia|]. cbn [fst snd].
    assert (S2 : shape (with_type (with_at (fst s) n a) n t)) by by apply with_shape.
    apply wp_bind, wp_put_time; [done|lia|]. cbn [fst snd].
    assert (S3 : shape (with_at (with_type (with_at (fst s) n a) n t) (n + 1) b)) by by apply with_shape.
    apply wp_put_type; [done|lia|]. by apply wp_modify. }
  destruct (v2 <? v1); apply G.
Qed.

Lemma add_year_wp start stop so do year jan s : dst_ready s -> rule_ok start -> rule_ok stop ->
  timecnt (fst s) + 2 <= TZ_MAX_TIMES ->
  wp (add_year start stop so do year jan) (post (fun _ => False)
    (fun _ s' => dst_ready s' /\ timecnt (fst s') = timecnt (fst s) + 2)) s.
Proof.
  intros [[Hu Hd] Ht] Hs He Hn. pose proof (us_time _ Hu) as Hb.
  destruct (transtime_Done jan year start so Hs) as [v1 E1].
  destruct (transtime_Done jan year stop do He) as [v2 E2].
  eapply wp_conseq; [by apply (add_year_exact _ _ _ _ _ _ v1 v2); [apply Hu|lia|..]|].
  intros s' r [-> ->]. cbn.
  assert (G : forall a t b u, 0 <= t < 2 -> 0 <= u < 2 -> dst_ready (pair_state (fst s) a t b u, snd s)).
  { intros a t b u ? ?. split; [|done]. split; [|done]. apply pair_usable; [done|done|lia..]. }
  destruct (v2 <? v1); (split; [apply G; lia|done]).
Qed.

Lemma add_years_wp fuel start stop so do year jan s : dst_ready s -> rule_ok start -> rule_ok stop ->
  TZ_MAX_TIMES - timecnt (fst s) < 2 * Z.of_nat fuel ->
  wp (add_years fuel start stop so do year jan) (post (fun _ => False) (fun _ => dst_ready)) s.
Proof.
  intros Hs Hr1 Hr2. revert year jan s Hs.
  induction fuel as [|fuel IH]; intros year jan s Hs Hf; cbn [add_years].
  - pose proof (us_time _ (proj1 (proj1 Hs))). lia.
  - apply wp_bind, wp_get. destruct (Z.leb_spec (timecnt (fst s) + 2) TZ_MAX_TIMES); [|by apply wp_ret].
    eapply wp_then; [by apply add_year_wp|done|]. intros u s' [Hs' Hn']. cbv zeta.
    destruct (_ <=? jan); [by apply wp_ret|]. apply IH; [done|lia].
Qed.

(** The two types of a zone with daylight saving time are stored. *)
Definition two_types (sp : state) (t0 t1 : ttinfo) (n : Z) : state :=
  set_counts (with_tti (with_tti sp 0 t0) 1 t1) (leapcnt sp) n 2 (charcnt sp).

Lemma two_types_usable sp t0 t1 n : usable sp -> good_tti t0 -> good_tti t1 ->
  types_upto n 2 (types sp) -> 0 <= n <= TZ_MAX_TIMES -> usable (two_types sp t0 t1 n).
Proof.
  intros Hu H0 H1 Ht Hn.
  pose proof (usable_tti _ 1 t1 (usable_tti sp 0 t0 Hu ltac:(lia) H0) ltac:(lia) H1) as Hu2.
  pose proof (us_early _ Hu2). destruct Hu2. split; try done; [by apply shape_counts|].
  intros i t Hi Hl. cbn in Hi, Hl. assert (i = 0 \/ i = 1) as [-> | ->] by lia.
  - rewrite list_lookup_insert_ne in Hl by lia.
    apply list_lookup_insert_Some in Hl as [(_ & <- & _)|(? & _)]; done.
  - apply list_lookup_insert_Some in Hl as [(_ & <- & _)|(? & _)]; done.
Qed.

Lemma zttinfo_good off isdst ab : isdst = 0 \/ isdst = 1 -> 0 <= ab <= 50 ->
  - 2 ^ 30 <= off <= 2 ^ 30 -> good_tti (zttinfo off isdst ab).
Proof. intros ? ? ?. unfold good_tti. cbn. lia. Qed.

Lemma parse_rules_wp name so do len s : ready s -> 0 <= len < 50 ->
  - 2 ^ 30 <= so <= 2 ^ 30 -> - 2 ^ 30 <= do <= 2 ^ 30 ->
  wp (parse_rules name so do len) (post sound (fun _ => ready)) s.
Proof.
  intros Hr Hl Hso Hdo. pose proof (ready_sound _ Hr) as Hs. pose proof Hr as [Hu Hd].
  unfold parse_rules. apply wp_bind. destruct (getrule name) as [[start n1]|] eqn:E1; [|done].
  apply wp_ret, wp_bind, wp_check; intros _; [|done].
  apply wp_bind. destruct (getrule (tail n1)) as [[stop n2]|] eqn:E2; [|done].
  apply wp_ret, wp_bind, wp_check; intros _; [|done].
  apply getrule_ok in E1. apply getrule_ok in E2.
  apply wp_bind, wp_modify, wp_bind. pose proof (us_shape _ Hu) as Hsh.
  apply wp_put_tti; [by apply shape_counts|unfold TZ_MAX_TYPES; lia|]. cbn [fst snd].
  apply wp_bind, wp_put_tti; [by apply with_shape, shape_counts|unfold TZ_MAX_TYPES; lia|]. cbn [fst snd].
  apply wp_bind, wp_modify. cbn [fst snd]. set (t0 := zttinfo (- do) 1 (len + 1)).
  set (t1 := zttinfo (- so) 0 0).
  eapply wp_conseq; [apply add_years_wp; [|done|done|cbn; unfold TZ_MAX_TIMES; lia]|].
  - split; [|done]. split; [|done]. apply (two_types_usable (fst s) t0 t1 0); [done|..].
    + apply zttinfo_good; [by right|lia..].
    + apply zttinfo_good; [by left|lia..].
    + intros i ty Hi. lia.
    + unfold TZ_MAX_TIMES. lia.
  - intros s' [u|]; [|done]. by intros [? _].
Qed.

(** The rules of the file are moved. While they are, the types of the transitions before
    [k] are 0 or 1. *)
Record moving (sp0 : state) (k : Z) (s : tzio) : Prop := {
  mv_dir : dir_ok (snd s);
  mv_rest : forall sp, sp = fst s ->
    usable (set_arrays sp (ats sp) (types sp0) (ttis sp) (chars sp) (lsis sp)) /\
    timecnt sp = timecnt sp0 /\ typecnt sp = typecnt sp0;
  mv_len : length (types (fst s)) = length (types sp0);
  mv_done : types_upto k 2 (types (fst s));
  mv_todo : forall i, k <= i -> types (fst s) !! Z.to_nat i = types sp0 !! Z.to_nat i }.

Lemma moving_shape sp0 k s : moving sp0 k s -> shape (fst s).
Proof.
  intros H. destruct (mv_rest _ _ _ H (fst s) eq_refl) as [Hu _]. pose proof (mv_len _ _ _ H) as Hl.
  destruct (us_shape _ Hu). split; try done. cbn in *. congruence.
Qed.

Lemma their_offset_wp dst n i s : ready s -> 0 <= i -> i + Z.of_nat n <= timecnt (fst s) ->
  wp (their_offset dst n i) (unchanged s (fun _ => True)) s.
Proof.
  intros [Hu Hd]. pose proof (us_time _ Hu) as Ht. pose proof (us_type _ Hu) as Hy.
  revert i. induction n as [|n IH]; intros i Hi Hn; cbn [their_offset].
  { apply wp_ret. split; [done|by eexists]. }
  apply wp_bind, wp_type_of; [apply Hu|lia|]. intros j Hj.
  apply (us_types _ Hu) in Hj; [|lia].
  apply wp_bind, wp_tti_of; [apply Hu|lia|]. intros t _.
  destruct (Bool.eqb _ _); [apply wp_ret; split; [done|by eexists]|]. apply IH; lia.
Qed.

Lemma move_transition_wp so do sp0 i th s : moving sp0 i s -> 0 <= i < timecnt sp0 ->
  wp (move_transition so do i th) (post (fun _ => False) (fun _ => moving sp0 (i + 1))) s.
Proof.
  intros H Hi. pose proof (moving_shape _ _ _ H) as Hs.
  destruct (mv_rest _ _ _ H (fst s) eq_refl) as (Hu & Et & Ey).
  pose proof (us_time _ Hu) as Bt. pose proof (us_type _ Hu) as By. cbn in Bt, By. rewrite Et in Bt.
  destruct th as [a b]. unfold move_transition. cbv zeta.
  apply wp_bind, wp_type_of; [done|lia|]. intros j Hj. rewrite (mv_todo _ _ _ H i) in Hj by lia.
  pose proof (us_types _ Hu i j ltac:(cbn; lia) Hj) as Bj. cbn in Bj.
  apply wp_bind, wp_tti_of; [done|lia|]. intros t Htt.
  destruct (us_ttis _ Hu j t ltac:(cbn; lia) Htt) as (Hd & _).
  apply wp_bind, wp_put_type; [done|lia|]. rewrite (wrap_u_small 8) by (destruct Hd as [-> | ->]; lia).
  assert (M : moving sp0 (i + 1) (with_type (fst s) i (tt_isdst t), snd s)).
  { split; [apply H| | | |].
    - intros sp ->. done.
    - cbn. rewrite length_insert. apply H.
    - cbn. unfold types_upto. refine (insert_next (fun x => 0 <= x < 2) _ _ _ _ (mv_done _ _ _ H) _); [lia|].
      destruct Hd as [-> | ->]; lia.
    - intros k Hk. cbn. rewrite list_lookup_insert_ne by lia. apply H. lia. }
  assert (Fin : forall s' c, moving sp0 (i + 1) s' ->
    wp (if negb (tt_isdst t =? 0) then mret (a, c) else mret (c, b)) (post (fun _ => False)
      (fun _ : Z * Z => moving sp0 (i + 1))) s').
  { intros s' c Hm. by destruct (negb _); apply wp_ret. }
  apply wp_bind. destruct (negb (tt_ttisgmt t =? 0)); [apply wp_ret; by apply Fin|].
  pose proof (moving_shape _ _ _ M) as Hs2.
  apply wp_bind, wp_at_of; [done|lia|]. intros v _. apply wp_put_time; [done|lia|]. apply Fin.
  destruct M as [M1 M2 M3 M4 M5]. split; try done.
  intros sp ->. destruct (M2 _ eq_refl) as (Hx & ? & ?). split; [|done]. exact (usable_at _ i _ Hx).
Qed.

Lemma move_transitions_wp so do len s : ready s -> 0 <= len < 50 ->
  - 2 ^ 30 <= so <= 2 ^ 30 -> - 2 ^ 30 <= do <= 2 ^ 30 ->
  wp (move_transitions so do len) (post (fun _ => False) (fun _ => ready)) s.
Proof.
  intros Hr Hl Hso Hdo. pose proof Hr as [Hu Hd]. pose proof (us_time _ Hu) as Ht.
  apply wp_bind, wp_get. cbv zeta.
  apply wp_bind. eapply wp_conseq; [apply their_offset_wp; [done|lia..]|].
  intros s1 r (-> & x & -> & _).
  apply wp_bind. eapply wp_conseq; [apply their_offset_wp; [done|lia..]|].
  intros s1 r (-> & y & -> & _).
  eapply wp_then; [apply (wp_for_each (fun _ => False) (fun k _ s' => moving (fst s) k s'))|done|].
  { intros k p s' Hk Hm. by apply move_transition_wp; [|lia]. }
  { split; try done. - intros sp ->. split; [|done]. by destruct (fst s).
    - intros i ty Hi. lia. }
  intros p s' H. rewrite Z2Nat.id, Z.add_0_l in H by lia.
  pose proof (moving_shape _ _ _ H) as Hs.
  destruct (mv_rest _ _ _ H (fst s') eq_refl) as (Hu' & Et & Ey).
  apply wp_bind, wp_put_tti; [done|unfold TZ_MAX_TYPES; lia|].
  apply wp_bind, wp_put_tti; [by apply with_shape|unfold TZ_MAX_TYPES; lia|].
  apply wp_modify. split; [|apply H]. cbn [fst snd].
  set (t0 := zttinfo (- so) 0 0). set (t1 := zttinfo (- do) 1 (len + 1)).
  assert (H0 : good_tti t0) by (apply zttinfo_good; [by left|lia..]).
  assert (H1 : good_tti t1) by (apply zttinfo_good; [by right|lia..]).
  pose proof (two_types_usable _ t0 t1 0 Hu' H0 H1 ltac:(intros i ty Hi; lia)
    ltac:(unfold TZ_MAX_TIMES; lia)) as [].
  split; try done; [by apply shape_counts, with_shape, with_shape|cbn; by rewrite Et|].
  cbn. rewrite Et. apply H.
Qed.

Lemma parse_dst_wp ld name so len s : ready s -> 0 <= len < 50 -> - 604860 <= so <= 604860 ->
  wp (parse_dst ld name so len) (post sound (fun _ => ready)) s.
Proof.
  intros Hr Hl Ho. pose proof (ready_sound _ Hr) as Hs. unfold parse_dst.
  apply wp_bind. destruct (zone_name name) as [[dn n1]|]; [|done]. apply wp_ret.
  apply (wp_then _ _ sound (fun '(do, n2) s' => s' = s /\ - 2 ^ 30 <= do <= 2 ^ 30)).
  { destruct (_ && _).
    - destruct (getoffset n1) as [[o r]|] eqn:E; [|done]. apply getoffset_range in E.
      apply wp_ret. split; [done|]. lia.
    - apply wp_ret. split; [done|]. unfold SECSPERHOUR. lia. }
  { done. }
  intros [do n2] s' [-> Hdo]. cbv zeta. set (n3 := if _ && _ then _ else _).
  apply (wp_then _ _ sound (fun _ => ready)); [|done|].
  - destruct (_ || _); [apply parse_rules_wp; [done..|lia|done]|].
    apply wp_bind, wp_check; intros _; [|done].
    eapply wp_conseq; [apply move_transitions_wp; [done..|lia|done]|]. by intros s' [u|].
  - intros u s' Hr'. by apply wp_ret.
Qed.

(** The name of the standard zone leaves room for another one. *)
Definition tz_fits (name : list Z) (lastditch : bool) : Prop :=
  forall n o r, parse_std name lastditch = Some (n, o, r) -> Z.of_nat (length n) < 50.

Lemma parse_std_range name ld n o r : parse_std name ld = Some (n, o, r) -> - 604860 <= o <= 604860.
Proof.
  unfold parse_std. destruct ld; [intros; simplify_eq; lia|].
  destruct (zone_name name) as [[n1 r1]|]; [|done]. cbn. destruct (cur_char r1 =? 0); [done|].
  destruct (getoffset r1) as [[o1 r2]|] eqn:E; [|done]. cbn. apply getoffset_range in E.
  intros. by simplify_eq.
Qed.

(** The tables before the zone's own rules are stored *)
Lemma tzparse_load_wp (k : bool -> T unit) Q s : sound s ->
  (forall s, ready s -> wf (fst s) -> wp (k true) Q s) ->
  wp (loaded ← attempt (tzload_with (fun _ => mret ()) (Some TZDEFRULES));
      _ ← (if loaded : bool then mret () else modify (fun sp => set_leapcnt sp 0)); k loaded) Q s.
Proof.
  intros Hs Hk. apply wp_bind, wp_attempt.
  eapply wp_conseq; [apply rules_wp; [apply no_extend_wp|done]|].
  intros s' r [[Hs' Hl] [u ->]]. destruct (Hl ltac:(by eexists)) as [Hu Hw].
  apply wp_bind, wp_ret. apply Hk; [|done]. split; [done|apply Hs'].
Qed.

Lemma tzparse_wp name ld s : sound s -> tz_fits name ld -> wp (tzparse name ld) parsed s.
Proof.
  intros Hs Hf. unfold TzLoad.tzparse. apply wp_bind.
  destruct (parse_std name ld) as [[[n o] r]|] eqn:E; [|by split; [|intros [? ?]]].
  pose proof (Hf _ _ _ E) as Hn. apply parse_std_range in E. apply wp_ret.
  apply tzparse_load_wp; [done|]. intros s' Hr Hw.
  apply (wp_then _ _ sound (fun _ => ready)).
  - destruct (negb _); [apply parse_dst_wp; [done|lia|lia]|].
    eapply wp_conseq; [by apply only_std_wp|]. by intros s2 [u|].
  - intros s2 H2. by split; [|intros [? ?]].
  - intros dn s2 H2. by apply put_names_wp.
Qed.

(** The last resort cannot fail. *)
Lemma gmt_parse_wp s : sound s -> wp (tzparse gmt true) (post (fun _ => False) (fun _ => ready)) s.
Proof.
  intros Hs. unfold TzLoad.tzparse. apply wp_bind, wp_ret.
  apply tzparse_load_wp; [done|]. intros s' Hr Hw. cbv iota.
  change (negb (cur_char [] =? 0)) with false. cbv iota.
  apply (wp_then _ _ (fun _ => False) (fun dn s2 => dn = [] /\ ready s2)); [|done|].
  - eapply wp_conseq; [apply wp_eqn, only_std_wp; [done|done|lia]|].
    intros s2 [dn|] [E H2]; [|done]. split; [|done].
    unfold only_std, mbind, T_bind, modify in E. rewrite bind_Done in E.
    destruct (tti_of 0 _) as [[s3 [t|]]|]; try done. rewrite bind_Done in E.
    destruct (put_tti 0 _ s3) as [[s4 [v|]]|]; try done. rewrite !bind_Done in E.
    by injection E.
  - intros dn s2 [-> H2]. by apply put_names_ok.
Qed.

Lemma gmtload_wp s : sound s -> wp gmtload (post (fun _ => False) (fun _ => ready)) s.
Proof.
  intros Hs. apply wp_bind, wp_attempt. eapply wp_conseq; [by apply tzload_wp|].
  intros s' [u|] [H1 H2].
  - apply wp_ret. destruct (H2 ltac:(by eexists)). split; [done|apply H1].
  - apply wp_bind, wp_attempt. eapply wp_conseq; [by apply gmt_parse_wp|].
    intros s2 [v|]; [|done]. intros H. by apply wp_ret.
Qed.

Lemma load_or_parse_wp name s : sound s -> tz_fits name false ->
  wp (load_or_parse files env bss_count ts0 name) (post (fun _ => False) (fun _ => ready)) s.
Proof.
  intros Hs Hf. apply wp_bind, wp_attempt. eapply wp_conseq; [by apply tzload_wp|].
  intros s' [u|] [H1 H2].
  { apply wp_ret. destruct (H2 ltac:(by eexists)). split; [done|apply H1]. }
  apply (wp_then _ _ (fun _ => False) (fun ok s => sound s /\ (ok = true -> ready s))); [|done|].
  - destruct (cur_char name =? 58); [by apply wp_ret|]. apply wp_attempt.
    eapply wp_conseq; [by apply tzparse_wp|]. intros s2 [v|] [H3 H4]; split; try done.
    intros _. split; [apply H4; by eexists|apply H3].
  - intros ok s2 [H3 H4]. destruct ok; [apply wp_ret; by apply H4|by apply gmtload_wp].
Qed.

Lemma fast_gmt_wp s : ready s -> wp fast_gmt (post (fun _ => False) (fun _ => ready)) s.
Proof.
  intros [Hu Hd].
  assert (H1 : usable (set_timecnt (set_leapcnt (fst s) 0) 0)).
  { pose proof (us_early _ Hu). destruct Hu. split; try done; [by do 2 apply shape_counts|].
    intros i ty Hi. cbn in Hi. lia. }
  apply wp_bind, wp_modify, wp_bind, wp_tti_of; [apply H1|unfold TZ_MAX_TYPES; lia|]. intros t _.
  apply wp_bind, wp_put_tti; [apply H1|unfold TZ_MAX_TYPES; lia|].
  apply put_name_wp; [|lia|by vm_compute]. split; [|done].
  apply usable_tti; [done|lia|]. unfold good_tti. cbn. lia.
Qed.

End Inv.
