(* ===== verification/TzThms.v ===== *)
(** * Time zones: what tzset and localtime guarantee

    The composition of the loader ([TzLoad]) with localtime ([MkTime]): every call is
    defined and gives a broken-down time of the right second; zones given by an offset
    are the zones without daylight saving time of mktime's theorem; and what goes wrong
    with zones whose rules are left out, with an empty TZ, and with a name that fills
    the table of abbreviations. *)

From Stdlib Require Import String.
From stdpp Require Import base gmap list numbers.
From Stdlib Require Import ZArith Lia.
From S2P Require Import Prelude Calendar MkTime TzRules TzLoad TzSafe TzInv.

Open Scope Z_scope.
Open Scope c_scope.

(** ** settzname *)

Lemma name_types_ok sp l names : usable sp -> Forall (fun i => 0 <= i < typecnt sp) l ->
  length names = 2%nat -> exists names', name_types sp l names = Done names' /\ length names' = 2%nat.
Proof.
  intros Hu. revert names. induction l as [|i l IH]; intros names Hl Hn; cbn [name_types]; [by eexists|].
  pose proof (Forall_inv Hl) as Hi. pose proof (us_type _ Hu). cbn in Hi.
  destruct (at_index_in (ttis sp) i) as (t & Ht & E).
  { rewrite (sh_ttis _ (us_shape _ Hu)). lia. }
  rewrite E, bind_Done. destruct (us_ttis _ Hu i t Hi Ht) as (Hd & _).
  rewrite put_index_in by (destruct Hd as [-> | ->]; lia). rewrite bind_Done.
  apply IH; [by apply (Forall_inv_tail Hl)|]. by rewrite length_insert.
Qed.

Lemma usable_new_chars sp ch : usable sp -> length ch = length (chars sp) -> ch !! 50%nat = Some 0 ->
  usable (set_arrays sp (ats sp) (types sp) (ttis sp) ch (lsis sp)).
Proof. intros [] Hl H0. split; try done. by apply shape_insert. Qed.

Lemma truncate_abbrs_ok tts sp : usable sp -> Forall good_tti tts ->
  exists sp', truncate_abbrs tts sp = Done sp' /\ usable sp'.
Proof.
  revert sp. induction tts as [|t tts IH]; intros sp Hu Hf; cbn [truncate_abbrs]; [by eexists|].
  pose proof (Forall_inv Hf) as (_ & Ha & _). apply Forall_inv_tail in Hf.
  destruct (abbr_at_Done sp (tt_abbrind t) (us_shape _ Hu) Ha) as (cp & -> & Hc). rewrite bind_Done.
  destruct (Z.ltb_spec TZ_ABBR_MAX_LEN (Z.of_nat (length cp))) as [Hl|]; cbn [andb]; [|by apply IH].
  destruct (negb _); [|by apply IH]. unfold TZ_ABBR_MAX_LEN in *.
  pose proof (sh_chars _ (us_shape _ Hu)) as Hch. unfold sizeof_chars in Hch.
  rewrite put_index_in by lia. rewrite bind_Done. apply IH; [|done].
  apply (usable_chars sp); [done|unfold sizeof_chars; lia|by right].
Qed.

Lemma scrub_nul (l : list Z) n k : l !! k = Some 0 ->
  ((scrub_char <$> take n l) ++ drop n l) !! k = Some 0.
Proof.
  intros H. pose proof (lookup_lt_Some _ _ _ H) as Hk.
  destruct (decide (k < n)%nat) as [Hlt|Hge].
  - rewrite lookup_app_l by (rewrite length_fmap, length_take; lia).
    by rewrite list_lookup_fmap, lookup_take_lt, H by lia.
  - rewrite lookup_app_r by (rewrite length_fmap, length_take; lia).
    rewrite length_fmap, length_take, lookup_drop, <- H. f_equal. lia.
Qed.

Lemma settzname_ok sp : usable sp ->
  exists sp' names, settzname sp = Done (sp', names) /\ usable sp' /\ length names = 2%nat.
Proof.
  intros Hu. unfold settzname. cbv zeta.
  destruct (name_types_ok sp (range 0 (typecnt sp)) [ZWild; ZWild] Hu) as (n1 & -> & H1);
    [apply range_in|done|]. rewrite bind_Done.
  destruct (name_types_ok sp (take (Z.to_nat (timecnt sp)) (types sp)) n1 Hu) as (n2 & -> & H2);
    [|done|].
  { apply Forall_lookup_2. intros k ty [Hk Hlt]%lookup_take_Some.
    apply (us_types _ Hu (Z.of_nat k)); [lia|]. by rewrite Nat2Z.id. }
  rewrite bind_Done. set (n := Z.to_nat (charcnt sp)).
  assert (Hs : usable (set_arrays sp (ats sp) (types sp) (ttis sp)
    ((scrub_char <$> take n (chars sp)) ++ drop n (chars sp)) (lsis sp))).
  { apply usable_new_chars; [done| |apply scrub_nul, (us_shape _ Hu)].
    rewrite length_app, length_fmap, <- length_app. by rewrite take_drop. }
  destruct (truncate_abbrs_ok (take (Z.to_nat (typecnt sp)) (ttis sp)) _ Hs) as (sp' & E & Hs').
  { apply Forall_lookup_2. intros k t [Hk Hlt]%lookup_take_Some.
    apply (us_ttis _ Hu (Z.of_nat k)); [lia|]. by rewrite Nat2Z.id. }
  cbn [typecnt ttis set_arrays]. rewrite E, bind_Done. by exists sp', n2.
Qed.

(** ** tzset *)

(** The static variables between calls *)
Definition inv (st : tzstatics) : Prop :=
  usable (lclptr (vars st)) /\ dir_ok (cache st) /\ length (tzname (vars st)) = 2%nat.

Section Tzset.
Context (files env : list Z -> option (list Z)) (bss_count : Z) (ts0 : state).
Context (Hfiles : files_ok files) (Henv : env_ok env).

Lemma set_lcl_ok st m : inv st ->
  wp m (post (fun _ => False) (fun _ => ready)) (lclptr (vars st), cache st) ->
  exists st', set_lcl st m = Done st' /\ inv st'.
Proof.
  intros (Hu & Hd & Hn) Hm. destruct (wp_Done _ _ _ Hm) as ([sp d] & r & E & Q). unfold set_lcl.
  rewrite E, bind_Done. destruct r as [u|]; [|done]. destruct Q as [Hu' Hd'].
  destruct (settzname_ok sp Hu') as (sp' & names & -> & Hs & Hl). rewrite bind_Done.
  eexists. split; [done|]. by split.
Qed.

Lemma inv_ready st : inv st -> ready (lclptr (vars st), cache st).
Proof. by intros (? & ? & _). Qed.

Lemma tzsetwall_ok st : inv st ->
  exists st', tzsetwall files env bss_count ts0 st = Done st' /\ inv st'.
Proof.
  intros Hi. unfold tzsetwall. destruct (_ =? _); [by exists st|]. apply set_lcl_ok; [done|].
  apply wp_bind, wp_attempt. eapply wp_conseq; [apply tzload_wp; [done..|by apply ready_sound, inv_ready]|].
  intros s' [u|] [H1 H2].
  - apply wp_ret. destruct (H2 ltac:(by eexists)). split; [done|apply H1].
  - by apply gmtload_wp.
Qed.

Lemma tzset_ok changed st : inv st ->
  (forall name, env (lit "TZ") = Some name -> tz_fits name false) ->
  exists st', tzset files env bss_count ts0 changed st = Done st' /\ inv st'.
Proof.
  intros Hi Hf. unfold tzset. destruct (_ && _); [by exists st|]. cbv zeta.
  set (st1 := mk_statics _ _ _ _ _ changed). assert (H1 : inv st1) by exact Hi.
  destruct (env (lit "TZ")) as [name|] eqn:E.
  - destruct (_ && _); [by exists st1|]. apply set_lcl_ok; [exact Hi|].
    destruct (cur_char name =? 0); [apply fast_gmt_wp; by apply inv_ready in H1|].
    apply load_or_parse_wp; [done|done|by apply ready_sound, inv_ready|by apply Hf].
  - destruct (0 <? _); [by exists st1|].
    destruct (tzsetwall_ok st1 H1) as (st2 & -> & H2). rewrite bind_Done. by eexists.
Qed.
End Tzset.

(** ** localtime *)

(** The binary search stays inside of the transitions, ordered or not. *)
Lemma find_transition_ok sp t : usable sp -> 0 < timecnt sp ->
  exists lo, find_transition sp t = Done lo /\ 1 <= lo <= timecnt sp.
Proof.
  intros Hu Hn. pose proof (us_time _ Hu) as Ht. unfold find_transition.
  apply (loop_total (fun '(lo, hi) => 1 <= lo <= hi /\ hi <= timecnt sp)
    (fun lo => 1 <= lo <= timecnt sp) (fun '(lo, hi) => Z.to_nat (hi - lo))); [|lia..].
  intros [lo hi] (Hl & Hh). destruct (Z.ltb_spec lo hi); [|lia]. cbv zeta.
  rewrite Z.shiftr_div_pow2 by lia. change (2 ^ 1) with 2. set (mid := (lo + hi) / 2).
  assert (Hm : lo <= mid < hi) by (unfold mid; divs).
  destruct (at_index_in (ats sp) mid) as (a & _ & ->).
  { rewrite (sh_ats _ (us_shape _ Hu)). lia. }
  rewrite bind_Done. destruct (t <? a); split; lia.
Qed.

Lemma type_at_ok sp t : usable sp ->
  exists i tt, type_at sp t = Done i /\ at_index (ttis sp) i = Done tt /\ good_tti tt.
Proof.
  intros Hu. pose proof (us_time _ Hu) as Ht. pose proof (us_type _ Hu) as Hy.
  assert (Early : exists i tt, Done (defaulttype sp) = Done i /\ at_index (ttis sp) i = Done tt /\
    good_tti tt).
  { destruct (at_index_in (ttis sp) (defaulttype sp)) as (x & Hx & E).
    - rewrite (sh_ttis _ (us_shape _ Hu)). apply Hu.
    - exists (defaulttype sp), x. split; [done|]. split; [done|]. by apply (us_early _ Hu). }
  unfold type_at. destruct (Z.eqb_spec (timecnt sp) 0) as [|Hz]; [by rewrite bind_Done|].
  destruct (at_index_in (ats sp) 0) as (a & _ & ->).
  { rewrite (sh_ats _ (us_shape _ Hu)). unfold TZ_MAX_TIMES. lia. }
  rewrite !bind_Done. destruct (t <? a); [done|].
  destruct (find_transition_ok sp t Hu) as (lo & -> & Hlo); [lia|]. rewrite bind_Done.
  destruct (at_index_in (types sp) (lo - 1)) as (i & Hi & ->).
  { rewrite (sh_types _ (us_shape _ Hu)). lia. }
  pose proof (us_types _ Hu (lo - 1) i ltac:(lia) Hi) as Bi.
  destruct (at_index_in (ttis sp) i) as (x & Hx & E).
  { rewrite (sh_ttis _ (us_shape _ Hu)). lia. }
  exists i, x. split; [done|]. split; [done|]. by apply (us_ttis _ Hu i).
Qed.

Definition right_time (t : Z) (r : tm) : Prop :=
  valid_tm r /\ seconds_of r = t + tm_gmtoff r /\ (tm_isdst r = 0 \/ tm_isdst r = 1).

Lemma localtime_r_ok v t tmp : usable (lclptr v) -> length (tzname v) = 2%nat -> 0 <= t < 2 ^ 32 ->
  exists v' r, localtime_r v t tmp = Done (v', r, true) /\ lclptr v' = lclptr v /\
    length (tzname v') = 2%nat /\ right_time t r.
Proof.
  intros Hu Hn Ht. unfold localtime_r, localsub. cbn [localsub_rec]. unfold beyond.
  rewrite (sh_back _ (us_shape _ Hu)), bind_Done, (sh_ahead _ (us_shape _ Hu)), bind_Done.
  unfold localsub_here. destruct (type_at_ok (lclptr v) t Hu) as (i & x & -> & E & Hd & _ & Ho).
  rewrite bind_Done, E, bind_Done, (us_leap _ Hu).
  change (take (Z.to_nat 0) (lsis (lclptr v))) with (@nil lsinfo).
  destruct (timesub_spec t (tt_gmtoff x) tmp Ht Ho) as (r & -> & Hv & Hs & _ & Hg & _).
  rewrite bind_Done. unfold set_tzname. cbn [tm_isdst set_isdst].
  destruct (at_index_in (tzname v) (tt_isdst x)) as (z & _ & ->).
  { rewrite Hn. destruct Hd as [-> | ->]; lia. }
  rewrite !bind_Done. eexists _, _. split; [reflexivity|]. split; [done|].
  split; [by cbn; rewrite length_insert|]. split; [by destruct Hv|]. split; [|done].
  cbn. unfold seconds_of, days_of in *. cbn. lia.
Qed.

(** ** Sequences of calls *)

(** A call of localtime: the environment, [__environ_changed], [__bss_count], the time *)
Record call := mk_call {
  c_env : list Z -> option (list Z); c_changed : Z; c_bss : Z; c_time : Z }.

Record call_ok (c : call) : Prop := {
  ca_env : env_ok (c_env c);
  ca_tz : forall name, c_env c (lit "TZ") = Some name -> tz_fits name false;
  ca_time : 0 <= c_time c < 2 ^ 32 }.

Fixpoint run_calls (files : list Z -> option (list Z)) (ts0 : state) (st : tzstatics) (l : list call)
  : outcome (tzstatics * list tm) :=
  match l with
  | [] => Done (st, [])
  | c :: l' =>
      '(st, r, ok) ← localtime files (c_env c) (c_bss c) ts0 (c_changed c) st (c_time c) tm_zero;
      '(st, rs) ← run_calls files ts0 st l';
      Done (st, (if ok : bool then r else tm_zero) :: rs)
  end.

Lemma localtime_ok files ts0 st c : files_ok files -> inv st -> call_ok c ->
  exists st' r, localtime files (c_env c) (c_bss c) ts0 (c_changed c) st (c_time c) tm_zero =
    Done (st', r, true) /\ inv st' /\ right_time (c_time c) r.
Proof.
  intros Hf Hi [He Ht Hc]. unfold localtime.
  destruct (tzset_ok files (c_env c) (c_bss c) ts0 Hf He (c_changed c) st Hi Ht) as (st1 & -> & H1).
  rewrite bind_Done. destruct H1 as (Hu & Hd & Hn).
  destruct (localtime_r_ok (vars st1) (c_time c) tm_zero Hu Hn Hc) as (v & r & -> & Ev & Hn' & Hr).
  rewrite bind_Done. eexists _, _. split; [done|]. split; [|done]. split; [|done]. cbn. by rewrite Ev.
Qed.

Lemma run_calls_ok files ts0 st l : files_ok files -> inv st -> Forall call_ok l ->
  exists st' rs, run_calls files ts0 st l = Done (st', rs) /\ inv st' /\
    Forall2 (fun c r => right_time (c_time c) r) l rs.
Proof.
  intros Hf. revert st. induction l as [|c l IH]; intros st Hi Hl; cbn [run_calls].
  { eexists _, _. by split. }
  destruct (localtime_ok files ts0 st c Hf Hi (Forall_inv Hl)) as (st1 & r & -> & H1 & Hr).
  rewrite bind_Done. destruct (IH st1 H1 (Forall_inv_tail Hl)) as (st2 & rs & -> & H2 & Hrs).
  rewrite bind_Done. eexists _, _. split; [done|]. split; [done|]. by constructor.
Qed.

Lemma statics0_inv : inv statics0.
Proof.
  split; [|split; [by vm_compute|done]]. split; try done.
  - intros i ty Hi. cbn in Hi. lia.
  - intros i t Hi. cbn in Hi. lia.
  - intros t Ht. vm_compute in Ht. injection Ht as <-. unfold good_tti. cbn. lia.
Qed.

(** C19. Whatever a program sets TZ to between its calls of localtime, every call is defined, reads
    and writes inside of the buffers and gives a valid date and time of the second
    [t + tm_gmtoff], with tm_isdst 0 or 1; the tables stay well-formed. The files of zones
    have no leap seconds and no footer of version 2, and a file with the default rules can
    be loaded ([files_ok]); TZDIR and DJDIR are short enough for the path that is made of
    them, and the name of the standard zone in TZ has fewer than 50 characters ([call_ok];
    with longer ones [tz_long_name_overreads]). *)
Theorem localtime_always_defined files ts0 l : files_ok files -> Forall call_ok l ->
  exists st rs, run_calls files ts0 statics0 l = Done (st, rs) /\ inv st /\
    Forall2 (fun c r => right_time (c_time c) r) l rs.
Proof. intros Hf Hl. apply run_calls_ok; [done|apply statics0_inv|done]. Qed.

Definition tz_env (tz : list Z) (name : list Z) : option (list Z) :=
  if bool_decide (name = lit "TZ") then Some tz else None.

Lemma tz_env_ok tz : env_ok (tz_env tz).
Proof. split; intros cp E; by vm_compute in E. Qed.

(** The files of a zone: the default rules, under another name too *)
Definition demo_files (name : list Z) : option (list Z) :=
  if bool_decide (name = lit ".//US/Eastern") || bool_decide (name = lit ".//posixrules")
  then Some posixrules_data else None.

Lemma demo_files_ok : files_ok demo_files.
Proof.
  assert (E : forall name b, demo_files name = Some b -> b = posixrules_data).
  { intros name b. unfold demo_files. destruct (_ || _); congruence. }
  split; intros name b H; rewrite (E _ _ H); [apply posixrules_bytes|by vm_compute..|].
  intros _. by vm_compute.
Qed.

Definition demo_calls : list call :=
  [ mk_call (tz_env (lit "US/Eastern")) 1 0 1719878459;
    mk_call (tz_env (lit "CET-1CEST,M3.5.0,M10.5.0/3")) 2 0 0;
    mk_call (tz_env []) 3 0 1719878459;
    mk_call (tz_env (lit "PST8PDT")) 4 1 (2 ^ 32 - 1) ].

Lemma localtime_always_defined_witness : exists st rs,
  run_calls demo_files zero_state statics0 demo_calls = Done (st, rs) /\ inv st /\
  Forall2 (fun c r => right_time (c_time c) r) demo_calls rs.
Proof.
  apply localtime_always_defined; [apply demo_files_ok|].
  repeat constructor; try apply tz_env_ok; cbn; try lia;
    intros name E n o r H; vm_compute in E; injection E as <-; vm_compute in H; simplify_eq;
    cbn; lia.
Defined.

(** ** The type of a time *)

(** In a table whose transitions are in order, the type of a time is that of the last
    transition at or before it; before the first one it is the default type. *)
Lemma find_transition_spec sp t : usable sp -> 0 < timecnt sp ->
  (forall i j a b, 0 <= i <= j -> j < timecnt sp -> ats sp !! Z.to_nat i = Some a ->
     ats sp !! Z.to_nat j = Some b -> a <= b) ->
  (exists a, ats sp !! 0%nat = Some a /\ a <= t) ->
  exists lo, find_transition sp t = Done lo /\ 1 <= lo <= timecnt sp /\
    (forall i a, 0 <= i < timecnt sp -> ats sp !! Z.to_nat i = Some a -> a <= t <-> i < lo).
Proof.
  intros Hu Hn Hso (a0 & Ha0 & Hle0). pose proof (us_time _ Hu) as Ht. unfold find_transition.
  apply (loop_total (fun '(lo, hi) => 1 <= lo <= hi /\ hi <= timecnt sp /\
     (exists a, ats sp !! Z.to_nat (lo - 1) = Some a /\ a <= t) /\
     (hi < timecnt sp -> exists a, ats sp !! Z.to_nat hi = Some a /\ t < a))
    (fun lo => 1 <= lo <= timecnt sp /\
       forall i a, 0 <= i < timecnt sp -> ats sp !! Z.to_nat i = Some a -> a <= t <-> i < lo)
    (fun '(lo, hi) => Z.to_nat (hi - lo))).
  - intros [lo hi] (Hl & Hh & (al & Hal & Hlt) & Hr). destruct (Z.ltb_spec lo hi).
    + cbv zeta. rewrite Z.shiftr_div_pow2 by lia. change (2 ^ 1) with 2. set (mid := (lo + hi) / 2).
      assert (Hm : lo <= mid < hi) by (unfold mid; divs).
      destruct (at_index_in (ats sp) mid) as (a & Ha & ->).
      { rewrite (sh_ats _ (us_shape _ Hu)). lia. }
      rewrite bind_Done. destruct (Z.ltb_spec t a); (split; [|lia]); (split; [lia|]); (split; [lia|]).
      * split; [by exists al|]. intros _. by exists a.
      * split; [|done]. exists a. split; [|lia]. by replace (mid + 1 - 1) with mid by lia.
    + assert (lo = hi) as <- by lia. split; [lia|]. intros i a Hi Ha. split; intros H1.
      * destruct (Z.lt_ge_cases i lo) as [|Hge]; [done|]. destruct Hr as (b & Hb & Hbt); [lia|].
        pose proof (Hso lo i b a ltac:(lia) ltac:(lia) Hb Ha). lia.
      * pose proof (Hso i (lo - 1) a al ltac:(lia) ltac:(lia) Ha Hal). lia.
  - split; [lia|]. split; [lia|]. split; [by exists a0|]. lia.
  - lia.
Qed.

(** ** Where it goes wrong *)

Definition no_files (name : list Z) : option (list Z) := None.

(** The variables of a program after tzset, for TZ set to the given strings in turn *)
Fixpoint set_tz (changed : Z) (tzs : list (list Z)) (st : tzstatics) : outcome tzstatics :=
  match tzs with
  | [] => Done st
  | tz :: tzs' =>
      st ← tzset no_files (tz_env tz) 0 zero_state changed st; set_tz (changed + 1) tzs' st
  end.

(** What tells the type of a time before the first transition *)
Definition early_info (st : tzstatics) : Z * option Z * option (Z * Z) :=
  let sp := lclptr (vars st) in
  (timecnt sp, ats sp !! 0%nat,
   (fun x => (tt_isdst x, tt_gmtoff x)) <$> ttis sp !! Z.to_nat (defaulttype sp)).

Definition info_after (tzs : list (list Z)) : option (Z * option Z * option (Z * Z)) :=
  match set_tz 1 tzs statics0 with Done st => Some (early_info st) | Fail _ => None end.

Lemma set_tz_ok tzs changed st : inv st -> Forall (fun tz => tz_fits tz false) tzs ->
  exists st', set_tz changed tzs st = Done st' /\ inv st'.
Proof.
  revert changed st. induction tzs as [|tz tzs IH]; intros changed st Hi Hf; cbn [set_tz]; [by exists st|].
  destruct (tzset_ok no_files (tz_env tz) 0 zero_state) with (changed := changed) (st := st)
    as (st1 & E & H1); [by split|apply tz_env_ok|done| |].
  { intros name [= <-]. apply (Forall_inv Hf). }
  rewrite E, bind_Done. apply IH; [done|]. apply (Forall_inv_tail Hf).
Qed.

(** A time before the first transition, or any time where there is none, has the type
    for early times. *)
Lemma early_localtime tzs n first isdst off t tmp :
  Forall (fun tz => tz_fits tz false) tzs ->
  info_after tzs = Some (n, first, Some (isdst, off)) -> 0 <= t < 2 ^ 32 ->
  n = 0 \/ (exists a, first = Some a /\ t < a) ->
  exists st v r, set_tz 1 tzs statics0 = Done st /\ localtime_r (vars st) t tmp = Done (v, r, true) /\
    tm_isdst r = isdst /\ tm_gmtoff r = off.
Proof.
  intros Hf Hi Ht Hn. destruct (set_tz_ok tzs 1 statics0 statics0_inv Hf) as (st & E & Hu & _ & Hnm).
  unfold info_after in Hi. rewrite E in Hi. unfold early_info in Hi. cbv zeta in Hi. exists st.
  destruct (ttis (lclptr (vars st)) !! _) as [x|] eqn:Hx; [|by injection Hi].
  cbn in Hi. injection Hi as Hn1 Hf1 Hd1 Ho1. pose proof (us_default _ Hu) as Hdef.
  pose proof (us_early _ Hu x Hx) as (Hgd & _ & Hgo).
  unfold localtime_r, localsub. cbn [localsub_rec]. unfold beyond.
  rewrite (sh_back _ (us_shape _ Hu)), bind_Done, (sh_ahead _ (us_shape _ Hu)), bind_Done.
  assert (Ei : type_at (lclptr (vars st)) t = Done (defaulttype (lclptr (vars st)))).
  { unfold type_at. rewrite Hn1. destruct Hn as [-> | (a & -> & Hlt)].
    - by rewrite Z.eqb_refl, bind_Done.
    - destruct (n =? 0); [by rewrite bind_Done|].
      rewrite (at_index_Done _ _ a), !bind_Done by done. by rewrite (proj2 (Z.ltb_lt _ _)) by done. }
  unfold localsub_here. rewrite Ei, bind_Done, (at_index_Done _ _ x), bind_Done by (done || lia).
  rewrite (us_leap _ Hu). change (take (Z.to_nat 0) (lsis (lclptr (vars st)))) with (@nil lsinfo).
  destruct (timesub_spec t (tt_gmtoff x) tmp Ht Hgo) as (r & -> & _ & _ & _ & Hg & _).
  rewrite bind_Done. unfold set_tzname. cbn [tm_isdst set_isdst].
  destruct (at_index_in (tzname (vars st)) (tt_isdst x)) as (z & _ & ->).
  { rewrite Hnm. destruct Hgd as [-> | ->]; lia. }
  rewrite !bind_Done. eexists _, _. split; [done|]. split; [reflexivity|]. cbn. by rewrite Hg.
Qed.

Ltac tz_fits_auto := repeat constructor; intros n o r H; vm_compute in H; simplify_eq; cbn; lia.

(** A zone east of New York whose rules are left out, TZ=MET-1MEST, has daylight saving
    time all year: the first transition of the built-in rules, at the epoch, is moved by
    the difference of the offsets to before it, which is the end of the unsigned
    [time_t], so that all times are before the first transition. *)
Theorem tz_without_rules_always_dst t tmp : 0 <= t < 2 ^ 32 - 21600 ->
  exists st v r, set_tz 1 [lit "MET-1MEST"] statics0 = Done st /\
    localtime_r (vars st) t tmp = Done (v, r, true) /\ tm_isdst r = 1 /\ tm_gmtoff r = 7200.
Proof.
  intros Ht. apply (early_localtime _ 137 (Some (2 ^ 32 - 21600))).
  - tz_fits_auto.
  - by vm_compute.
  - lia.
  - right. eexists. split; [done|]. lia.
Qed.

Lemma tz_without_rules_always_dst_witness : exists st v r,
  set_tz 1 [lit "MET-1MEST"] statics0 = Done st /\
  localtime_r (vars st) 1705312800 tm_zero = Done (v, r, true) /\ tm_isdst r = 1 /\
  tm_gmtoff r = 7200.
Proof. apply tz_without_rules_always_dst. lia. Defined.

(** An empty TZ is meant to be GMT. After a zone with daylight saving time it is that
    zone's daylight saving time: defaulttype is not reset. *)
Theorem tz_empty_keeps_default t tmp : 0 <= t < 2 ^ 32 ->
  exists st v r, set_tz 1 [lit "EST5EDT"; []] statics0 = Done st /\
    localtime_r (vars st) t tmp = Done (v, r, true) /\ tm_isdst r = 1 /\ tm_gmtoff r = -14400.
Proof.
  intros Ht. apply (early_localtime _ 0 (Some 0)).
  - tz_fits_auto.
  - by vm_compute.
  - done.
  - by left.
Qed.

Lemma tz_empty_keeps_default_witness : exists st v r,
  set_tz 1 [lit "EST5EDT"; []] statics0 = Done st /\
  localtime_r (vars st) 1705312800 tm_zero = Done (v, r, true) /\ tm_isdst r = 1 /\
  tm_gmtoff r = -14400.
Proof. apply tz_empty_keeps_default. lia. Defined.

(** A name of 50 letters with rules but no second name is stored, but the abbreviation of
    daylight saving time then starts past the end of [chars], where settzname reads. *)
Theorem tz_long_name_overreads :
  set_tz 1 [replicate 50 65 ++ lit "5,J1,J2"] statics0 = Fail UB.
Proof. by vm_compute. Qed.
