(* ===== verification/TzZone.v ===== *)
(** * Zones from the TZ string

    A TZ string with a name and an offset gives a zone without daylight saving time, so
    that mktime is correct in it; one with rules gives the transitions that the rules
    prescribe for every year. *)

From Stdlib Require Import String.
From stdpp Require Import base gmap list numbers.
From Stdlib Require Import ZArith Lia.
From S2P Require Import Prelude Calendar MkTime TzRules TzLoad TzSafe TzInv TzThms.

Open Scope Z_scope.
Open Scope c_scope.

(** ** Everything but the abbreviations *)

Definition same_zone (a b : state) : Prop :=
  leapcnt a = leapcnt b /\ timecnt a = timecnt b /\ typecnt a = typecnt b /\
  goback a = goback b /\ goahead a = goahead b /\ ats a = ats b /\ types a = types b /\
  ttis a = ttis b /\ lsis a = lsis b /\ defaulttype a = defaulttype b.

Definition chars_only (s s' : tzio) : Prop := same_zone (fst s) (fst s').

#[export] Instance same_zone_preorder : PreOrder same_zone.
Proof.
  split; [by intros a|]. unfold same_zone. intros a b c Hab Hbc. destruct_and?.
  split_and!; congruence.
Qed.

#[export] Instance chars_only_preorder : PreOrder chars_only.
Proof. split; [by intros a|]. intros a b c. unfold chars_only. by etrans. Qed.

Lemma put_char_only i v : preserves chars_only (put_char i v).
Proof.
  intros s s' r. unfold put_char, mbind, T_bind, get, lift, put. rewrite bind_Done.
  destruct (put_index _ _ _); [|done]. rewrite !bind_Done. by intros [= <- <-].
Qed.

Lemma charcnt_only n : preserves chars_only (modify (fun sp => set_charcnt sp n)).
Proof. by intros s s' r [= <- <-]. Qed.

Lemma put_names_only a b : preserves chars_only (put_names a b).
Proof.
  unfold put_names, put_name.
  repeat first [apply put_char_only | apply charcnt_only | preserves_step | progress unfold next_byte].
Qed.

Lemma truncate_abbrs_only tts sp sp' : truncate_abbrs tts sp = Done sp' -> same_zone sp sp'.
Proof.
  revert sp. induction tts as [|t tts IH]; intros sp; cbn [truncate_abbrs]; [by intros [= <-]|].
  destruct (abbr_at _ _); [|done]. rewrite bind_Done. destruct (_ && _); [|apply IH].
  destruct (put_index _ _ _); [|done]. rewrite bind_Done. intros H%IH. exact H.
Qed.

Lemma settzname_only sp sp' names : settzname sp = Done (sp', names) -> same_zone sp sp'.
Proof.
  unfold settzname. cbv zeta. destruct (name_types _ _ _) as [n1|]; [|done]. rewrite bind_Done.
  destruct (name_types _ _ _) as [n2|]; [|done]. rewrite bind_Done.
  match goal with |- context [truncate_abbrs ?l ?s] => destruct (truncate_abbrs l s) eqn:E end; [|done].
  rewrite bind_Done. intros [= <- <-]. apply truncate_abbrs_only in E. exact E.
Qed.

(** ** A zone without daylight saving time *)

(** The table of a zone with the offset [- off] from UTC *)
Definition std_zone (off : Z) (sp : state) : Prop :=
  timecnt sp = 0 /\ leapcnt sp = 0 /\ defaulttype sp = 0 /\
  exists t, ttis sp !! 0%nat = Some t /\ tt_gmtoff t = - off /\ tt_isdst t = 0.

Lemma std_zone_same off a b : std_zone off a -> same_zone a b -> std_zone off b.
Proof.
  intros (H1 & H2 & H3 & H4) (E1 & E2 & _ & _ & _ & _ & _ & E3 & _ & E4). unfold std_zone.
  rewrite <- E1, <- E2, <- E3, <- E4. done.
Qed.

Lemma only_std_zone off s : ready s -> wf (fst s) -> - 604860 <= off <= 604860 ->
  wp (only_std off) (post (fun _ => False) (fun dn s => ready s /\ std_zone off (fst s) /\ dn = [])) s.
Proof.
  intros Hr Hw Ho. pose proof (only_std_wp off s Hr Hw Ho) as H. apply wp_eqn in H.
  eapply wp_conseq; [exact H|]. intros s' [dn|] [E Hq]; [|done]. split; [done|].
  destruct Hr as [Hu _]. revert E. unfold only_std.
  pose proof (us_leap _ Hu) as Hl. set (sp1 := set_timecnt (set_typecnt (fst s) 1) 0).
  rewrite (run_some _ _ s (sp1, snd s) ()) by done.
  assert (Hs1 : shape sp1) by (do 2 apply shape_counts; apply Hu).
  destruct (at_index_in (ttis sp1) 0) as (t & Ht & Ea).
  { rewrite (sh_ttis _ Hs1). done. }
  assert (Et : tti_of 0 (sp1, snd s) = Done ((sp1, snd s), Some t)).
  { unfold tti_of. erewrite run_some by done. unfold lift. cbn [fst]. by rewrite Ea. }
  erewrite run_some by exact Et. set (t1 := mk_tt _ _ _ _ _).
  assert (Ep : put_tti 0 t1 (sp1, snd s) = Done ((with_tti sp1 0 t1, snd s), Some ())).
  { unfold put_tti. erewrite run_some by done. unfold lift. cbn [fst].
    erewrite run_some by (rewrite put_index_in by (rewrite (sh_ttis _ Hs1); done); by rewrite bind_Done).
    done. }
  erewrite run_some by exact Ep. erewrite run_some by done. intros [= <- <-].
  split; [|done]. split; [done|]. split; [done|]. split; [done|].
  exists t1. split; [|done]. cbn. apply list_lookup_insert_eq.
  apply lookup_lt_Some in Ht. exact Ht.
Qed.

Section Zone.
Context (env : list Z -> option (list Z)) (bss_count : Z) (ts0 : state).
Context (Henv : env_ok env).

Lemma no_files_ok : files_ok no_files.
Proof. by split. Qed.

(** A plain name: not absolute, and not in a directory *)
Definition plain (name : list Z) : Prop :=
  Forall (fun c => c <> 47 /\ c <> 92 /\ c <> 58 /\ c <> 0) name /\ name <> [].

Lemma after_last_plain p name : plain name ->
  after_last (fun c => (c =? 47) || (c =? 92)) (p ++ 47 :: name) = Some name.
Proof.
  intros [Hf _]. assert (Hn : after_last (fun c => (c =? 47) || (c =? 92)) name = None).
  { induction name as [|c l IH]; [done|]. cbn. pose proof (Forall_inv Hf) as (? & ? & ? & ?).
    rewrite IH by (apply (Forall_inv_tail Hf)).
    by rewrite (proj2 (Z.eqb_neq c 47)), (proj2 (Z.eqb_neq c 92)) by done. }
  induction p as [|c p IH]; cbn [app after_last]; [by rewrite Hn|]. by rewrite IH.
Qed.

(** Without files a plain name is not loaded. *)
Lemma tzload_plain name s : plain name -> name <> lit "posixrules" -> sound s ->
  wp (tzload no_files env bss_count ts0 (Some name) true)
    (fun s' r => r = None /\ sound s') s.
Proof.
  intros Hp Hn [Hs Hd]. apply wp_bind, wp_modify, wp_bind. unfold full_name.
  assert (Hc : forall c l, name = c :: l -> c <> 47 /\ c <> 92 /\ c <> 58 /\ c <> 0).
  { intros c l ->. apply (Forall_inv (proj1 Hp)). }
  assert (Ha : cur_char name <> 58 /\ cur_char name <> 47 /\ cur_char name <> 92 /\ cur_char (tail name) <> 58).
  { destruct Hp as [Hf Hne]. destruct name as [|c l]; [done|]. destruct (Hc c l eq_refl) as (? & ? & ? & ?).
    split_and!; try done. destruct l as [|d l]; [done|].
    by destruct (Forall_inv (Forall_inv_tail Hf)) as (? & ? & ? & ?). }
  destruct Ha as (A1 & A2 & A3 & A4). rewrite (proj2 (Z.eqb_neq _ _) A1). cbv zeta.
  unfold IS_ABSOLUTE. rewrite (proj2 (Z.eqb_neq _ _) A2), (proj2 (Z.eqb_neq _ _) A3),
    (proj2 (Z.eqb_neq _ _) A4). cbn [orb negb]. rewrite andb_true_r.
  assert (Fin : forall n s1, sound s1 -> base_of n <> lit "posixrules" ->
    wp (read_file no_files n ≫= (fun buf => _ ← load_tables buf;
      _ ← extend_file no_files env bss_count ts0 buf; _ ← find_cycles; early_type))
      (fun s' r => r = None /\ sound s') s1).
  { intros n s1 H1 H2. apply wp_bind. unfold read_file, no_files at 1.
    by rewrite bool_decide_eq_false_2 by done. }
  destruct (Z.eqb_spec (cur_char name) 0) as [Ez|]; cbn [negb].
  - apply wp_ret, Fin; [split; [by apply going_shape|done]|]. unfold base_of.
    assert (after_last (fun c => (c =? 47) || (c =? 92)) name = None) as ->; [|by rewrite (proj2 (Z.eqb_neq _ _) A4)].
    clear -Hp. destruct Hp as [Hf _]. induction name as [|c l IH]; [done|]. cbn.
    pose proof (Forall_inv Hf) as (? & ? & ? & ?). rewrite IH by (apply (Forall_inv_tail Hf)).
    by rewrite (proj2 (Z.eqb_neq c 47)), (proj2 (Z.eqb_neq c 92)) by done.
  - apply wp_bind. eapply wp_conseq; [by apply tzdir_wp|].
    intros s1 r (E1 & Hd1 & p & -> & Hl). cbn [fst] in E1.
    assert (Hs1 : sound s1) by (split; [rewrite E1; by apply going_shape|done]).
    destruct (_ <=? _); [done|]. apply wp_ret, Fin; [done|].
    unfold base_of. by rewrite after_last_plain.
Qed.

Lemma tzparse_std name n o s : sound s -> parse_std name false = Some (n, o, []) ->
  Z.of_nat (length n) < 50 ->
  wp (tzparse no_files env bss_count name false) (post (fun _ => False)
    (fun _ s => ready s /\ std_zone o (fst s))) s.
Proof.
  intros Hs E Hn. unfold tzparse. rewrite E. apply wp_bind, wp_ret.
  apply parse_std_range in E. apply tzparse_load_wp; [apply no_files_ok|done|done|].
  intros s' Hr Hw. change (negb (cur_char [] =? 0)) with false. cbv iota.
  eapply wp_then; [by apply only_std_zone|done|]. intros dn s2 (H2 & Hz & ->).
  eapply wp_conseq; [apply wp_preserves; [apply put_names_only|apply put_names_ok; [done|]]|].
  - unfold names_len, sizeof_chars. cbv zeta. change (Z.of_nat (length (@nil Z)) =? 0) with true. cbn [negb]. lia.
  - intros s3 [u|] [H3 E3]; [|done]. split; [done|]. by eapply std_zone_same.
Qed.

(** TZ is a plain name and an offset. *)
Lemma tzset_std changed name n o st : inv st -> lcl_is_set st = 0 ->
  env (lit "TZ") = Some name -> plain name -> parse_std name false = Some (n, o, []) ->
  Z.of_nat (length n) < 50 ->
  exists st', tzset no_files env bss_count ts0 changed st = Done st' /\
    fixed_zone (- o) 0 (vars st').
Proof.
  intros (Hu & Hd & Hnm) Hset Ht Hp E Hn. unfold tzset. rewrite Hset. cbn [andb].
  change (0 <? 0) with false. cbn [andb]. cbv zeta. rewrite Ht. cbn [lcl_is_set]. rewrite ?Hset.
  change (0 <? 0) with false. cbn [andb].
  assert (Hne : cur_char name <> 0).
  { destruct Hp as [Hf ?]. destruct name; [done|]. apply (Forall_inv Hf). }
  rewrite (proj2 (Z.eqb_neq _ _) Hne). unfold set_lcl. cbn [vars cache].
  assert (W : wp (load_or_parse no_files env bss_count ts0 name)
    (post (fun _ => False) (fun _ s => ready s /\ std_zone o (fst s))) (lclptr (vars st), cache st)).
  { apply wp_bind, wp_attempt. eapply wp_conseq.
    - apply tzload_plain; [done| |]; [|by split; [apply Hu|]].
      intros ->. by vm_compute in E.
    - intros s1 r [-> Hs1]. cbv iota. apply wp_bind.
      assert (cur_char name <> 58) as Hc.
      { destruct Hp as [Hf ?]. destruct name; [done|]. apply (Forall_inv Hf). }
      rewrite (proj2 (Z.eqb_neq _ _) Hc). apply wp_attempt.
      eapply wp_conseq; [by eapply tzparse_std|]. intros s2 [u|]; [|done]. intros H2. by apply wp_ret. }
  destruct (wp_Done _ _ _ W) as ([sp d] & r & -> & Q). rewrite bind_Done.
  destruct r as [u|]; [|done]. destruct Q as [[Hu2 _] Hz].
  destruct (settzname_ok sp Hu2) as (sp' & names & Es & Hu3 & Hl). rewrite Es, bind_Done.
  eexists. split; [done|]. apply settzname_only in Es.
  destruct (std_zone_same _ _ _ Hz Es) as (Z1 & Z2 & Z3 & t & Z4 & Z5 & Z6).
  pose proof (us_shape _ Hu3) as Hs3. apply parse_std_range in E.
  split; cbn; try done; try (apply Hs3); try lia.
  exists t. rewrite Z3. split; [|done]. by apply at_index_Done.
Qed.
End Zone.

(** A program whose TZ is the name of a zone and its offset from UTC, with no files of
    zones: its first mktime gives the second that the fields denote in that zone, and
    the fields of that second, or -1 where the second is not a time_t. *)
Theorem tz_offset_mktime env bss_count ts0 changed name n o t :
  env_ok env -> env (lit "TZ") = Some name -> plain name ->
  parse_std name false = Some (n, o, []) -> Z.of_nat (length n) < 50 ->
  moderate t -> tm_isdst t <= 0 ->
  let T := linear_seconds t + o in
  exists st, if is_time T then
    exists r, mktime no_files env bss_count ts0 changed statics0 (Some t) = Done (st, Some r, T, None) /\
      valid_tm r /\ seconds_of r = linear_seconds t
  else mktime no_files env bss_count ts0 changed statics0 (Some t) = Done (st, Some t, WRONG, None).
Proof.
  intros He Ht Hp E Hn Hm Hd T. unfold mktime.
  destruct (tzset_std env bss_count ts0 He changed name n o statics0 statics0_inv eq_refl Ht Hp E Hn)
    as (st & -> & Hf). rewrite bind_Done.
  destruct (time1_spec (- o) 0 (vars st) t Hf Hm ltac:(lia)) as (v & _ & H).
  replace (linear_seconds t - - o) with T in H by (unfold T; lia). exists (with_vars st v).
  destruct (is_time T).
  - destruct H as (r & -> & Hv & Hs & _). exists r. by rewrite bind_Done.
  - by rewrite H, bind_Done.
Qed.

(** The zone two hours to the east *)
Lemma tz_offset_mktime_witness : exists st,
  exists r, mktime no_files (tz_env (lit "EET-2")) 0 zero_state 1 statics0 (Some demo_tm) =
    Done (st, Some r, 1719878459, None) /\ valid_tm r /\ seconds_of r = linear_seconds demo_tm.
Proof.
  apply (tz_offset_mktime (tz_env (lit "EET-2")) 0 zero_state 1 (lit "EET-2") (lit "EET") (-7200) demo_tm).
  - apply tz_env_ok.
  - done.
  - split; [by repeat constructor|done].
  - by vm_compute.
  - by vm_compute.
  - by vm_compute.
  - done.
Defined.

(** ** The transitions of a zone with rules *)

Section Rules.
Context (start stop : rule) (so do : Z).
Context (Hstart : rule_ok start) (Hstop : rule_ok stop).
Context (tts : list ttinfo).

(** The first second of a year *)
Definition janfirst (y : Z) : Z := days_before y * SECSPERDAY.

(** The two transitions of a year, in order *)
Definition year_entries (sp : state) (y : Z) : Prop :=
  let k := 2 * (y - EPOCH_YEAR) in
  exists v1 v2,
    transtime (janfirst y) y start so = Done v1 /\ transtime (janfirst y) y stop do = Done v2 /\
    ats sp !! Z.to_nat k = Some (Z.min v1 v2) /\ ats sp !! Z.to_nat (k + 1) = Some (Z.max v1 v2) /\
    types sp !! Z.to_nat k = Some (if v2 <? v1 then 1 else 0) /\
    types sp !! Z.to_nat (k + 1) = Some (if v2 <? v1 then 0 else 1).

(** The table has the years up to [y]. *)
Definition table_upto (y : Z) (s : tzio) : Prop :=
  dst_ready s /\ timecnt (fst s) = 2 * (y - EPOCH_YEAR) /\ ttis (fst s) = tts /\
  forall y', EPOCH_YEAR <= y' < y -> year_entries (fst s) y'.

Lemma year_entries_keep sp sp' y n : year_entries sp y -> EPOCH_YEAR <= y ->
  2 * (y - EPOCH_YEAR) + 2 <= n ->
  (forall i, 0 <= i < n -> ats sp' !! Z.to_nat i = ats sp !! Z.to_nat i /\
     types sp' !! Z.to_nat i = types sp !! Z.to_nat i) -> year_entries sp' y.
Proof.
  intros (v1 & v2 & E1 & E2 & A & B & C & D) Hy Hn Hk. exists v1, v2.
  set (k := 2 * (y - EPOCH_YEAR)) in *. split; [done|]. split; [done|].
  destruct (Hk k) as [-> ->]; [lia|]. destruct (Hk (k + 1)) as [-> ->]; [lia|]. done.
Qed.

(** The entries of a pair *)
Lemma pair_entries sp a t b u : shape sp -> 0 <= timecnt sp -> timecnt sp + 2 <= TZ_MAX_TIMES ->
  let k := timecnt sp in let sp' := pair_state sp a t b u in
  (ats sp' !! Z.to_nat k = Some a /\ ats sp' !! Z.to_nat (k + 1) = Some b /\
   types sp' !! Z.to_nat k = Some t /\ types sp' !! Z.to_nat (k + 1) = Some u) /\
  forall i, 0 <= i < k -> ats sp' !! Z.to_nat i = ats sp !! Z.to_nat i /\
    types sp' !! Z.to_nat i = types sp !! Z.to_nat i.
Proof.
  intros Hs H0 Hn. cbv zeta. pose proof (sh_ats _ Hs) as La. pose proof (sh_types _ Hs) as Lt.
  unfold pair_state, TZ_MAX_TIMES in *. cbn. split; [split_and!|].
  - rewrite list_lookup_insert_ne by lia. apply list_lookup_insert_eq. lia.
  - apply list_lookup_insert_eq. rewrite length_insert. lia.
  - rewrite list_lookup_insert_ne by lia. apply list_lookup_insert_eq. lia.
  - apply list_lookup_insert_eq. rewrite length_insert. lia.
  - intros i Hi. by rewrite !list_lookup_insert_ne by lia.
Qed.

Lemma add_year_table y s : table_upto y s -> EPOCH_YEAR <= y <= 2106 ->
  wp (add_year start stop so do y (janfirst y)) (post (fun _ => False) (fun _ => table_upto (y + 1))) s.
Proof.
  intros (Hr & Hn & Htt & Ht) Hy.
  assert (Hb : 0 <= timecnt (fst s) /\ timecnt (fst s) + 2 <= TZ_MAX_TIMES).
  { rewrite Hn. unfold EPOCH_YEAR, TZ_MAX_TIMES in *. lia. }
  destruct (transtime_Done (janfirst y) y start so Hstart) as [v1 E1].
  destruct (transtime_Done (janfirst y) y stop do Hstop) as [v2 E2].
  pose proof Hr as [[Hu _] _]. pose proof (us_shape _ Hu) as Hs.
  pose proof (add_year_wp start stop so do y (janfirst y) s Hr Hstart Hstop (proj2 Hb)) as W1.
  pose proof (add_year_exact start stop so do y (janfirst y) v1 v2 s Hs (proj1 Hb) (proj2 Hb) E1 E2) as W2.
  apply wp_Done in W2 as (s' & r & E & -> & Es). unfold wp in W1. rewrite E in W1. destruct W1 as [Hr' Hn'].
  unfold wp. rewrite E. split; [done|]. split; [lia|]. rewrite Es. cbn [fst].
  split; [by destruct (v2 <? v1)|].
  destruct (pair_entries (fst s) v2 1 v1 0 Hs (proj1 Hb) (proj2 Hb)) as [P1 Q1].
  destruct (pair_entries (fst s) v1 0 v2 1 Hs (proj1 Hb) (proj2 Hb)) as [P2 Q2].
  intros y' Hy'. destruct (decide (y' = y)) as [->|].
  - exists v1, v2. split; [done|]. split; [done|]. rewrite <- Hn.
    destruct (Z.ltb_spec v2 v1); [rewrite Z.min_r, Z.max_l by lia|rewrite Z.min_l, Z.max_r by lia]; done.
  - apply (year_entries_keep (fst s) _ y' (timecnt (fst s))); [apply Ht; lia|lia| |].
    + rewrite Hn. lia.
    + destruct (v2 <? v1); done.
Qed.

Lemma janfirst_next y : EPOCH_YEAR <= y <= 2105 ->
  wrap_u 32 (janfirst y + year_lengths (isleap y) * SECSPERDAY) = janfirst (y + 1) /\
  janfirst y < janfirst (y + 1).
Proof.
  intros Hy. unfold janfirst. rewrite days_before_S.
  assert (B : 0 <= days_before y /\ days_before y + year_lengths (isleap y) <= 49673).
  { rewrite <- days_before_S. unfold EPOCH_YEAR in Hy. unfold days_before. divs. }
  assert (365 <= year_lengths (isleap y)) by (by destruct (isleap y)).
  unfold SECSPERDAY. rewrite wrap_u_small by lia. split; lia.
Qed.

Lemma add_years_table y s : table_upto y s -> EPOCH_YEAR <= y <= 2106 ->
  forall fuel, 2106 - y < Z.of_nat fuel ->
  wp (add_years fuel start stop so do y (janfirst y)) (post (fun _ => False) (fun _ => table_upto 2107)) s.
Proof.
  intros Ht Hy fuel. revert y s Ht Hy. induction fuel as [|fuel IH]; intros y s Ht Hy Hf; [lia|].
  cbn [add_years]. apply wp_bind, wp_get. pose proof Ht as (_ & Hn & _).
  rewrite (proj2 (Z.leb_le _ _)) by (rewrite Hn; unfold EPOCH_YEAR, TZ_MAX_TIMES in *; lia).
  eapply wp_then; [by apply add_year_table|done|]. intros u s' Ht'. cbv zeta.
  destruct (decide (y = 2106)) as [->|].
  - change (wrap_u 32 _ <=? janfirst 2106) with true. by apply wp_ret.
  - destruct (janfirst_next y) as [-> Hlt]; [lia|]. rewrite (proj2 (Z.leb_gt _ _)) by done.
    apply IH; [done|unfold EPOCH_YEAR in *; lia..].
Qed.
End Rules.

(** The table for two rules, with the types [tt0] and [tt1] *)
Definition rules_loaded (start stop : rule) (so do : Z) (tt0 tt1 : ttinfo) (s : tzio) : Prop :=
  exists l, table_upto start stop so do l 2107 s /\ l !! 0%nat = Some tt0 /\ l !! 1%nat = Some tt1.

Lemma parse_rules_table name so do len start r3 stop s : ready s -> 0 <= len < 50 ->
  - 2 ^ 30 <= so <= 2 ^ 30 -> - 2 ^ 30 <= do <= 2 ^ 30 ->
  getrule name = Some (start, r3) -> cur_char r3 = 44 -> getrule (tail r3) = Some (stop, []) ->
  wp (parse_rules name so do len) (post (fun _ => False) (fun _ =>
    rules_loaded start stop so do (zttinfo (- do) 1 (len + 1)) (zttinfo (- so) 0 0))) s.
Proof.
  intros [Hu Hd] Hlen Hso Hdo E1 H3 E2. pose proof (us_shape _ Hu) as Hsh.
  unfold parse_rules. apply wp_bind. rewrite E1. apply wp_ret. rewrite H3.
  change (44 =? 44) with true. apply wp_bind, wp_ret, wp_bind. rewrite E2. apply wp_ret.
  apply wp_bind, wp_ret, wp_bind, wp_modify, wp_bind.
  apply wp_put_tti; [by apply shape_counts|unfold TZ_MAX_TYPES; lia|]. cbn [fst snd].
  apply wp_bind, wp_put_tti; [by apply with_shape, shape_counts|unfold TZ_MAX_TYPES; lia|].
  cbn [fst snd]. apply wp_bind, wp_modify. cbn [fst snd].
  set (tt0 := zttinfo (- do) 1 (len + 1)). set (tt1 := zttinfo (- so) 0 0).
  change (add_years _ _ _ _ _ EPOCH_YEAR 0) with
    (add_years (Z.to_nat TZ_MAX_TIMES) start stop so do EPOCH_YEAR (janfirst EPOCH_YEAR)).
  set (tts := ttis (two_types (fst s) tt0 tt1 0)).
  eapply wp_conseq; [apply (add_years_table start stop so do (getrule_ok _ _ _ E1) (getrule_ok _ _ _ E2) tts)|].
  - split; [|split; [done|split; [done|unfold EPOCH_YEAR; lia]]]. split; [|done]. split; [|done].
    apply (two_types_usable (fst s) tt0 tt1 0); [done|..]; [| |intros i ty Hi; lia|done];
      apply zttinfo_good; auto; lia.
  - unfold EPOCH_YEAR. lia.
  - unfold EPOCH_YEAR, TZ_MAX_TIMES. lia.
  - intros s2 [u|]; [|done]. intros Ht. exists tts. split; [done|].
    pose proof (sh_ttis _ Hsh) as L. unfold TZ_MAX_TYPES in L. unfold tts. cbn. split.
    + rewrite list_lookup_insert_ne by lia. apply list_lookup_insert_eq. lia.
    + apply list_lookup_insert_eq. rewrite length_insert. lia.
Qed.

(** tzparse of a name, an offset, the name for daylight saving time and two rules, with no
    file of default rules that fails to load: it succeeds, and the table has for each year
    from 1970 to 2106 the times at which the two rules take effect, in order, with the
    types they start: 0, daylight saving time, at the first rule and 1 at the second. *)
Theorem tz_rules_table env bss_count name n so r dn r2 start r3 stop s :
  env_ok env -> sound s -> parse_std name false = Some (n, so, r) -> Z.of_nat (length n) < 50 ->
  cur_char r <> 0 -> zone_name r = Some (dn, r2) -> cur_char r2 = 44 ->
  getrule (tail r2) = Some (start, r3) -> cur_char r3 = 44 ->
  getrule (tail r3) = Some (stop, []) -> names_len n dn <= sizeof_chars ->
  exists s', tzparse no_files env bss_count name false s = Done (s', Some ()) /\
    usable (fst s') /\ timecnt (fst s') = 274 /\
    ttis (fst s') !! 0%nat = Some (zttinfo (3600 - so) 1 (Z.of_nat (length n) + 1)) /\
    ttis (fst s') !! 1%nat = Some (zttinfo (- so) 0 0) /\
    forall y, 1970 <= y <= 2106 -> year_entries start stop so (so - 3600) (fst s') y.
Proof.
  intros He Hs E Hn Hr Ez H2 E1 H3 E2 Hl.
  assert (Hso : - 604860 <= so <= 604860) by (by eapply parse_std_range).
  set (tt0 := zttinfo (3600 - so) 1 (Z.of_nat (length n) + 1)). set (tt1 := zttinfo (- so) 0 0).
  assert (W : wp (tzparse no_files env bss_count name false) (post (fun _ => False)
    (fun _ s' => usable (fst s') /\ timecnt (fst s') = 274 /\
       (ttis (fst s') !! 0%nat = Some tt0 /\ ttis (fst s') !! 1%nat = Some tt1) /\
       forall y, 1970 <= y <= 2106 -> year_entries start stop so (so - 3600) (fst s') y)) s).
  2: { destruct (wp_Done _ _ _ W) as (s' & [[]|] & Es & Q); [|done].
       destruct Q as (? & ? & [? ?] & ?). by exists s'. }
  unfold tzparse. rewrite E. apply wp_bind, wp_ret.
  apply tzparse_load_wp; [apply no_files_ok|done|done|]. intros s1 Hr1 Hw1.
  rewrite (proj2 (Z.eqb_neq _ _) Hr). cbn [negb].
  eapply (wp_then _ _ (fun _ => False) (fun d s2 => d = dn /\ ready s2 /\
    rules_loaded start stop so (so - 3600) tt0 tt1 s2)); [|done|].
  - unfold parse_dst. apply wp_bind. rewrite Ez. apply wp_ret. rewrite H2.
    change (44 =? 0) with false. change (44 =? 44) with true. cbn [negb andb].
    apply wp_bind, wp_ret. rewrite H2. cbv zeta. change (44 =? 0) with false. cbn [andb].
    rewrite H2. change (44 =? 44) with true. cbn [orb].
    eapply wp_then; [eapply parse_rules_table; [done|lia|lia|unfold SECSPERHOUR; lia|done..]|done|].
    intros u s2 Ht. change SECSPERHOUR with 3600 in Ht.
    replace (- (so - 3600)) with (3600 - so) in Ht by lia. apply wp_ret. split; [done|].
    split; [|exact Ht]. by destruct Ht as (l & [[? ?] ?] & ?).
  - intros d s2 (-> & Hr2 & l & (_ & Hcnt & Htt & Hyr) & L0 & L1).
    eapply wp_conseq; [apply wp_preserves; [apply put_names_only|by apply put_names_ok]|].
    intros s3 [u|] [H4 Hsame]; [|done].
    destruct Hsame as (_ & S2 & _ & _ & _ & S6 & S7 & S8 & _). cbn. split; [apply H4|].
    split; [by rewrite <- S2, Hcnt|]. split; [by rewrite <- S8, Htt|].
    intros y Hy. specialize (Hyr y ltac:(unfold EPOCH_YEAR; lia)).
    unfold year_entries in *. by rewrite <- S6, <- S7.
Qed.

(** Central European time *)
Lemma tz_rules_table_witness : exists s',
  tzparse no_files (tz_env []) 0 (lit "CET-1CEST,M3.5.0,M10.5.0/3") false (zero_state, mk_dir [] 0) =
    Done (s', Some ()) /\
  usable (fst s') /\ timecnt (fst s') = 274 /\
  ttis (fst s') !! 0%nat = Some (zttinfo 7200 1 4) /\ ttis (fst s') !! 1%nat = Some (zttinfo 3600 0 0) /\
  forall y, 1970 <= y <= 2106 -> year_entries (mk_rule (MONTH_NTH_DAY_OF_WEEK 3 5 0) 7200)
    (mk_rule (MONTH_NTH_DAY_OF_WEEK 10 5 0) 10800) (-3600) (-7200) (fst s') y.
Proof.
  apply (tz_rules_table (tz_env []) 0 (lit "CET-1CEST,M3.5.0,M10.5.0/3") (lit "CET") (-3600)
    (lit "CEST,M3.5.0,M10.5.0/3") (lit "CEST") (lit ",M3.5.0,M10.5.0/3")
    (mk_rule (MONTH_NTH_DAY_OF_WEEK 3 5 0) 7200) (lit ",M10.5.0/3")
    (mk_rule (MONTH_NTH_DAY_OF_WEEK 10 5 0) 10800)); try by vm_compute.
Defined.
