(* ===== verification/NMalloc.v ===== *)
(** * The allocator

    src/libc/ansi/stdlib/nmalloc.inc and nmalcdef.h, the allocator behind malloc
    (malloc.c, on top of the host's memory) and malloc32 (nmalloc.c, on top of the
    DOS program's memory). Both files include nmalloc.inc and differ in [sbrk] only,
    which is the class [SbrkApi] here.

    Memory is byte memory: a [struct memblock] is 32 bytes of header (prev, next, sz,
    nextfree) in front of the storage, and prevfree lies in the storage, as SAVEMEMORY
    has it. The static data is [struct nm_state]: the heads of the free lists, with
    [lastsbrk] in element 0, and the list of the bases that sbrk gave. The hooks of
    [struct nm_state] are NULL: the function that sets them is compiled out. The
    debug print-outs are compiled out as well. *)

From stdpp Require Import base gmap list numbers.
From Stdlib Require Import ZArith Lia.
From S2P Require Import Prelude MemFuns.

Open Scope Z_scope.
Open Scope c_scope.

(** ** Little-endian numbers in memory *)

Fixpoint le_val (l : list Z) : Z :=
  match l with [] => 0 | b :: l' => b + 256 * le_val l' end.

Fixpoint le_bytes (n : nat) (v : Z) : list Z :=
  match n with O => [] | S n' => v mod 256 :: le_bytes n' (v / 256) end.

Definition ld (n : nat) (m : mem) (a : Z) : outcome Z :=
  l ← load_bytes m a n; Done (le_val l).

Definition st (n : nat) (m : mem) (a v : Z) : outcome mem :=
  store_bytes m a (le_bytes n v).

(** ** Constants *)

Definition ALIGN : Z := 16.
Definition ALIGNMASK : Z := ALIGN - 1.
(** offsetof(memblock, prevfree): two pointers, an unsigned int with its padding,
    and a pointer *)
Definition DATAOFFSET : Z := 32.
Definition MINSAVE : Z := ALIGN + DATAOFFSET.
Definition NFLISTS : Z := 64.
Definition MINSBRK : Z := 1024.
Definition MAXSBRKS : Z := 100.
Definition INT_MAX : Z := 2 ^ 31 - 1.

Definition MEMBLKp (p : Z) : Z := p - DATAOFFSET.
Definition PTR (m : Z) : Z := m + DATAOFFSET.

(** The result is converted to [ulong], which is [unsigned int]. *)
Definition roundup (sz : Z) : Z :=
  wrap_u 32 (wrap_u 64 (Z.land (wrap_u 64 (sz + ALIGNMASK)) (wrap_u 64 (Z.lnot ALIGNMASK)) + DATAOFFSET)).

(** ** sbrk

    [sbrk_st] is what the system keeps; a call may map memory. *)
Class SbrkApi := {
  sbrk_st : Type;
  sbrk : Z -> sbrk_st -> mem -> Z * sbrk_st * mem }.

(** [(void * )-1] *)
Definition SBRK_ERR : Z := 2 ^ 64 - 1.

Section Allocator.
Context {SA : SbrkApi}.

(** [struct nm_state] with memory and the system's state *)
Record nmst := mk_nm {
  n_mem : mem;
  freehdrs : list Z;
  lastsbrkbgn : Z;
  sbrkbgn : list Z;
  n_sys : sbrk_st }.

Definition nm_init (m : mem) (sys : sbrk_st) : nmst :=
  mk_nm m (replicate (Z.to_nat NFLISTS) 0) 0 (replicate (Z.to_nat MAXSBRKS) 0) sys.

Definition with_mem (s : nmst) (m : mem) : nmst :=
  mk_nm m (freehdrs s) (lastsbrkbgn s) (sbrkbgn s) (n_sys s).
Definition with_freehdrs (s : nmst) (l : list Z) : nmst :=
  mk_nm (n_mem s) l (lastsbrkbgn s) (sbrkbgn s) (n_sys s).

(** *** Statements: functions of the state that may fail *)

Definition N (A : Type) : Type := nmst -> outcome (A * nmst).
#[export] Instance N_ret : MRet N := fun A a s => Done (a, s).
#[export] Instance N_bind : MBind N := fun A B k m s => '(a, s) ← m s; k a s.

Definition rd (n : nat) (a : Z) : N Z := fun s => v ← ld n (n_mem s) a; Done (v, s).
Definition wr (n : nat) (a v : Z) : N unit := fun s =>
  m ← st n (n_mem s) a v; Done (tt, with_mem s m).

(** [m->field] and [m->field = v] *)
Definition prev_ (m : Z) : N Z := rd 8 m.
Definition next_ (m : Z) : N Z := rd 8 (m + 8).
Definition sz_ (m : Z) : N Z := rd 4 (m + 16).
Definition nextfree (m : Z) : N Z := rd 8 (m + 24).
Definition prevfree (m : Z) : N Z := rd 8 (m + 32).
Definition set_prev (m v : Z) : N unit := wr 8 m v.
Definition set_next (m v : Z) : N unit := wr 8 (m + 8) v.
Definition set_sz (m v : Z) : N unit := wr 4 (m + 16) v.
Definition set_nextfree (m v : Z) : N unit := wr 8 (m + 24) v.
Definition set_prevfree (m v : Z) : N unit := wr 8 (m + 32) v.

Definition hdr (b : Z) : N Z := fun s =>
  if b <? 0 then Fail UB
  else match freehdrs s !! Z.to_nat b with Some v => Done (v, s) | None => Fail UB end.

Definition set_hdr (b v : Z) : N unit := fun s =>
  if (0 <=? b) && (b <? Z.of_nat (length (freehdrs s)))
  then Done (tt, with_freehdrs s (<[Z.to_nat b := v]> (freehdrs s)))
  else Fail UB.

Definition lastsbrk : N Z := hdr 0.
Definition set_lastsbrk (v : Z) : N unit := set_hdr 0 v.

Definition memop (f : mem -> outcome (mem * Z)) : N unit := fun s =>
  '(m, _) ← f (n_mem s); Done (tt, with_mem s m).

(** [trapped]: the program handles SIGABRT and its handler returns *)
Context (trapped : bool).

Definition badcallabort : N unit := fun s =>
  if trapped then Done (tt, s) else Fail AssertFailed.

(** exit(EXIT_FAILURE) *)
Definition die {A} : N A := fun _ => Fail AssertFailed.

(** [if (b) { badcallabort(...); exit(EXIT_FAILURE); }] *)
Definition foul (b : bool) : N unit := if b then badcallabort ≫= fun _ => die else mret tt.

(** [&freehdrs[1]], in the static data *)
Context (NONE : Z).

(** *** The list of bases *)

Definition recordnewsbrk (bk : Z) : N unit := fun s =>
  if lastsbrkbgn s <? MAXSBRKS - 1 then
    if bool_decide (bk ∈ take (Z.to_nat (lastsbrkbgn s)) (sbrkbgn s)) then Done (tt, s)
    else Done (tt, mk_nm (n_mem s) (freehdrs s) (lastsbrkbgn s + 1)
                     (<[Z.to_nat (lastsbrkbgn s) := bk]> (sbrkbgn s)) (n_sys s))
  else Done (tt, s).

(** [for (b = 0; sz; sz >>= 1, b++) continue;]: 32 rounds shift an [unsigned int] out *)
Fixpoint size2bucket_loop (fuel : nat) (sz b : Z) : Z :=
  match fuel with
  | O => b
  | S fuel' => if sz =? 0 then b else size2bucket_loop fuel' (Z.shiftr sz 1) (b + 1)
  end.

Definition size2bucket (sz : Z) : Z := size2bucket_loop 32 sz 0.

(** *** Blocks *)

Definition ISFREE (m : Z) : N bool :=
  if (m =? 0) || (m =? NONE) then mret false
  else
    nf ← nextfree m;
    if nf =? 0 then mret false
    else pf ← prevfree m; mret (negb (pf =? 0)).

Definition FOULED (m : Z) : N bool :=
  l ← lastsbrk;
  if l =? 0 then mret true else nf ← nextfree m; mret (negb (nf =? 0)).

Definition extractfree (m : Z) : N unit :=
  if m =? 0 then mret tt
  else
    sz ← sz_ m;
    let b := size2bucket sz in
    mnxtf ← nextfree m;
    _ ← (if NONE =? mnxtf then set_nextfree m 0 else mret tt);
    mprvf ← prevfree m;
    _ ← (if NONE =? mprvf then set_prevfree m 0 else mret tt);
    nf ← nextfree m;
    _ ← (if nf =? 0 then mret tt else set_prevfree nf mprvf);
    pf ← prevfree m;
    _ ← (if negb (pf =? 0) then set_nextfree pf mnxtf
         else if negb (nf =? 0) then set_hdr b mnxtf
         else set_hdr b 0);
    _ ← set_prevfree m 0;
    set_nextfree m 0.

Definition combinelo (m : Z) : N Z :=
  p ← prev_ m;
  f ← ISFREE p;
  if f : bool then
    n ← next_ p;
    _ ← foul (negb (n =? m));
    _ ← extractfree p;
    mn ← next_ m;
    _ ← set_next p mn;
    _ ← (if mn =? 0 then mret tt else set_prev mn p);
    sz1 ← sz_ p;
    sz ← sz_ m;
    _ ← set_sz p (wrap_u 32 (sz1 + sz));
    mret p
  else mret m.

Definition combinehi (m : Z) : N Z :=
  if m =? 0 then mret m
  else
    m1 ← next_ m;
    if m1 =? 0 then mret m
    else
      p ← prev_ m1;
      _ ← foul (negb (p =? m));
      l ← lastsbrk;
      _ ← (if m1 =? l then mret tt else extractfree m1);
      n1 ← next_ m;
      nn ← next_ n1;
      _ ← set_next m nn;
      _ ← (if nn =? 0 then mret tt else set_prev nn m);
      sz ← sz_ m;
      sz1 ← sz_ m1;
      _ ← set_sz m (wrap_u 32 (sz + sz1));
      mret m.

(** The last part of mv2freelist: [m] becomes the head of list [b]. *)
Definition push (m b : Z) : N unit :=
  h ← hdr b;
  _ ← (if h =? 0 then set_nextfree m NONE else _ ← set_nextfree m h; set_prevfree h m);
  _ ← set_prevfree m NONE;
  h ← hdr b;
  _ ← (if h =? 0 then mret tt else set_prevfree h m);
  set_hdr b m.

(** mv2freelist from [b = size2bucket(m->sz)] on *)
Definition list_or_last (m : Z) : N unit :=
  sz ← sz_ m;
  let b := size2bucket sz in
  l ← lastsbrk;
  n ← next_ m;
  if negb (l =? 0) && (n =? l) then
    m' ← combinehi m;
    _ ← set_lastsbrk m';
    _ ← set_prevfree m' 0;
    set_nextfree m' 0
  else push m b.

Definition mv2freelist (m : Z) : N unit :=
  if m =? 0 then mret tt
  else
    n ← next_ m;
    f ← ISFREE n;
    m ← (if f : bool then combinehi m else mret m);
    list_or_last m.

Definition rmvfromfree (m : Z) : N unit :=
  if m =? 0 then mret tt
  else
    sz ← sz_ m;
    let b := size2bucket sz in
    h ← hdr b;
    _ ← foul (negb (m =? h));
    nf ← nextfree m;
    _ ← (if NONE =? nf then set_hdr b 0
         else _ ← set_hdr b nf; set_prevfree nf NONE);
    set_nextfree m 0.

(** [do b++; while (b < NFLISTS && !freehdrs[b]);] *)
Fixpoint searchfree_loop (fuel : nat) (b : Z) : N Z :=
  match fuel with
  | O => fun _ => Fail NoFuel
  | S fuel' =>
      let b := b + 1 in
      if b <? NFLISTS then h ← hdr b; if h =? 0 then searchfree_loop fuel' b else mret b
      else mret b
  end.

Definition searchfree (szneed : Z) : N Z :=
  let b := size2bucket szneed in
  h ← hdr b;
  small ← (if h =? 0 then mret true else sz ← sz_ h; mret (sz <? szneed));
  b ← (if small : bool then searchfree_loop (Z.to_nat NFLISTS) b else mret b);
  mret (if b <? NFLISTS then b else 0).

(** The higher portion, which the caller stores in [*mp], comes first. *)
Definition __nmalloc_split (m sz : Z) : N (Z * Z) :=
  let m1 := m + sz in
  msz ← sz_ m;
  _ ← foul (msz <? sz + DATAOFFSET);
  _ ← memop (fun mem => memcpy mem m1 m DATAOFFSET);
  _ ← set_prev m1 m;
  _ ← set_sz m1 (wrap_u 32 (msz - sz));
  _ ← set_next m m1;
  _ ← set_sz m sz;
  _ ← set_nextfree m 0;
  n ← next_ m1;
  _ ← (if n =? 0 then mret tt
       else
         np ← prev_ n;
         _ ← foul (negb (np =? m));
         set_prev n m1);
  mret (m1, m).

(** *** Memory from the system *)

Definition call_sbrk (delta : Z) : N Z := fun s =>
  let '(r, sys, m) := sbrk delta (n_sys s) (n_mem s) in
  Done (r, mk_nm m (freehdrs s) (lastsbrkbgn s) (sbrkbgn s) sys).

(** How much extendsbrk asks for *)
Definition sbrk_size (szxtra expected : Z) : Z :=
  let szxtra := wrap_u 32 (szxtra + (2 * ALIGN + DATAOFFSET)) in
  let szxtra := if szxtra <? MINSBRK then MINSBRK else szxtra in
  let aligndelta := expected .& ALIGNMASK in
  if aligndelta =? 0 then szxtra else wrap_u 32 (szxtra + (ALIGN - aligndelta)).

Definition extendsbrk (szxtra : Z) : N Z :=
  l ← lastsbrk;
  expected ← (if l =? 0 then mret 0 else sz ← sz_ l; mret (l + sz));
  let szxtra := sbrk_size szxtra expected in
  m ← call_sbrk (wrap_s 32 szxtra);
  if m =? SBRK_ERR then mret 0
  else if m =? expected then
    sz ← sz_ l;
    _ ← set_sz l (wrap_u 32 (sz + szxtra));
    mret l
  else
    let alignerr := ALIGNMASK .& m in
    let aligndelta := if alignerr =? 0 then 0 else ALIGN - alignerr in
    let m := m + aligndelta in
    _ ← set_sz m (wrap_u 32 (szxtra - aligndelta));
    _ ← set_next m 0;
    _ ← set_prev m 0;
    _ ← set_nextfree m 0;
    _ ← mv2freelist l;
    _ ← set_lastsbrk m;
    _ ← recordnewsbrk m;
    mret m.

(** *** The operations *)

(** [rmvfromfree(m1 = freehdrs[b])], and what is too much of it goes back *)
Definition take_from_list (b szneed : Z) : N Z :=
  m1 ← hdr b;
  _ ← rmvfromfree m1;
  sz ← sz_ m1;
  if sz <? szneed + MINSAVE then mret m1
  else
    '(m1, m) ← __nmalloc_split m1 szneed;
    _ ← mv2freelist m1;
    mret m.

(** [m = __nmalloc_split(&lastsbrk, szneed);] *)
Definition split_last (szneed : Z) : N Z :=
  l ← lastsbrk;
  '(m1, m) ← __nmalloc_split l szneed;
  _ ← set_lastsbrk m1;
  mret m.

Definition nmalloc (size : Z) : N Z :=
  let sz := if size =? 0 then size + 1 else size in
  let szneed := roundup sz in
  if szneed <? INT_MAX - 65536 then
    b ← searchfree szneed;
    m ← (if negb (b =? 0) then take_from_list b szneed
         else
           l ← lastsbrk;
           enough ← (if l =? 0 then mret false
                     else lsz ← sz_ l; mret (szneed + DATAOFFSET <=? lsz));
           if enough : bool then split_last szneed
           else
             m1 ← extendsbrk szneed;
             if m1 =? 0 then mret 0
             else
               sz1 ← sz_ m1;
               if sz1 <? szneed + MINSAVE then mret m1 else split_last szneed);
    mret (if m =? 0 then 0 else PTR m)
  else mret 0.

Definition dofree (m : Z) : N unit :=
  _ ← set_prevfree m NONE;
  _ ← set_nextfree m NONE;
  n ← next_ m;
  f ← ISFREE n;
  m ← (if f : bool then combinehi m else mret m);
  p ← prev_ m;
  f ← ISFREE p;
  m ← (if f : bool then combinelo m else mret m);
  l ← lastsbrk;
  p ← prev_ m;
  if negb (l =? 0) && (l =? p) then mret tt else mv2freelist m.

Definition nfree (ptr : Z) : N unit :=
  if ptr =? 0 then mret tt
  else
    let m := MEMBLKp ptr in
    f ← ISFREE m;
    bad ← (if f : bool then mret true else FOULED m);
    if bad : bool then badcallabort else dofree m.

Definition mv2lastsbrk (m szneed : Z) : N Z :=
  m1 ← split_last szneed;
  sz ← sz_ m;
  _ ← memop (fun mem => memcpy mem (PTR m1) (PTR m) (sz - DATAOFFSET));
  _ ← dofree m;
  mret m1.

(** [if ((m->sz - szneed) >= MINSAVE) { m = __nmalloc_split(&m1, szneed);
    mv2freelist(m1); }] *)
Definition trim (m szneed : Z) : N Z :=
  sz ← sz_ m;
  if MINSAVE <=? wrap_u 32 (sz - szneed) then
    '(m1, m) ← __nmalloc_split m szneed;
    _ ← mv2freelist m1;
    mret m
  else mret m.

(** [m = m1 = combinehi(m); m = __nmalloc_split(&m1, szneed); lastsbrk = m1;] *)
Definition grow_into_last (m szneed : Z) : N Z :=
  m1 ← combinehi m;
  '(m1, m) ← __nmalloc_split m1 szneed;
  _ ← set_lastsbrk m1;
  mret m.

(** the previous block is free: absorb it and move the data down *)
Definition grow_down (m szneed : Z) : N Z :=
  m1 ← prev_ m;
  _ ← extractfree m1;
  sz1 ← sz_ m1;
  sz ← sz_ m;
  _ ← set_sz m1 (wrap_u 32 (sz1 + sz));
  n ← next_ m;
  _ ← set_next m1 n;
  _ ← (if n =? 0 then mret tt else set_prev n m1);
  sz ← sz_ m;
  _ ← memop (fun mem => memmove mem (PTR m1) (PTR m) (sz - DATAOFFSET));
  trim m1 szneed.

(** an adequate free block elsewhere: copy over, free the old block *)
Definition grow_by_copy (m b szneed : Z) : N Z :=
  m2 ← take_from_list b szneed;
  sz ← sz_ m;
  _ ← memop (fun mem => memcpy mem (PTR m2) (PTR m) (sz - DATAOFFSET));
  _ ← dofree m;
  mret m2.

(** ISFREE(x) && szneed <= m->sz + x->sz *)
Definition adequate (m x szneed : Z) : N bool :=
  f ← ISFREE x;
  if f : bool then sz ← sz_ m; szx ← sz_ x; mret (szneed <=? wrap_u 32 (sz + szx))
  else mret false.

Definition nrealloc (ptr size : Z) : N Z :=
  if ptr =? 0 then nmalloc size
  else
    let m := MEMBLKp ptr in
    let sz := if size =? 0 then size + 1 else size in
    let szneed := roundup sz in
    f ← ISFREE m;
    bad ← (if f : bool then mret true else FOULED m);
    if bad : bool then _ ← badcallabort; mret 0
    else
      msz ← sz_ m;
      r ← (if szneed <=? msz then trim m szneed
           else if INT_MAX - 65536 <? szneed then mret 0
           else
             n ← next_ m;
             hi ← adequate m n szneed;
             if hi : bool then m ← combinehi m; trim m szneed
             else
               l ← lastsbrk;
               fit ← (if l =? n then lsz ← sz_ l;
                        mret (szneed + MINSAVE <=? wrap_u 32 (msz + lsz))
                      else mret false);
               if fit : bool then grow_into_last m szneed
               else
                 p ← prev_ m;
                 lo ← adequate m p szneed;
                 if lo : bool then grow_down m szneed
                 else
                   b ← searchfree szneed;
                   if negb (b =? 0) then grow_by_copy m b szneed
                   else
                     room ← (if l =? 0 then mret false
                             else lsz ← sz_ l; mret (szneed + MINSAVE <=? lsz));
                     if room : bool then mv2lastsbrk m szneed
                     else
                       m1 ← extendsbrk szneed;
                       if m1 =? 0 then mret 0
                       else
                         l ← lastsbrk;
                         n ← next_ m;
                         if l =? n then grow_into_last m szneed
                         else mv2lastsbrk m szneed);
      mret (if r =? 0 then 0 else PTR r).

Definition ncalloc (n s : Z) : N Z :=
  if (n =? 0) || (s <? (2 ^ 64 - 1) / n) then
    let sz := wrap_u 64 (n * s) in
    result ← nmalloc sz;
    _ ← (if result =? 0 then mret tt else memop (fun mem => memset mem result 0 sz));
    mret result
  else mret 0.

End Allocator.
