(* ===== verification/NmRep.v ===== *)
(** * The allocator: blocks in byte memory

    The logical view of the heap is a map [H] from addresses to blocks, with the
    values of the header's fields, the extent of the block and what its storage holds:
    the client's data, the field prevfree of a free block, or nothing in particular.
    [rep m H] relates it to the bytes. Below are the rules for the reads and writes of
    [NMalloc] on this view, and for the changes of view: carving a block in two, merging
    two neighbours, giving storage to the client and taking it back. *)

From stdpp Require Import base gmap list numbers.
From Stdlib Require Import ZArith Lia.
From S2P Require Import Prelude MemFuns NMalloc.

Open Scope Z_scope.

(** ** Numbers in memory *)

Lemma length_le_bytes n v : length (le_bytes n v) = n.
Proof. revert v. induction n; intros; simpl; auto. Qed.

Lemma le_bytes_ok n v : bytes_ok (le_bytes n v).
Proof.
  revert v. induction n as [|n IH]; intros v; simpl; [by constructor|].
  apply bytes_ok_cons. split; [apply Z.mod_pos_bound; lia|apply IH].
Qed.

Lemma le_val_bytes n v : 0 <= v < 256 ^ Z.of_nat n -> le_val (le_bytes n v) = v.
Proof.
  revert v. induction n as [|n IH]; intros v Hv.
  - simpl in *. change (256 ^ Z.of_nat 0) with 1 in Hv. lia.
  - rewrite Nat2Z.inj_succ, Z.pow_succ_r in Hv by lia. cbn [le_val le_bytes].
    rewrite IH; [pose proof (Z.div_mod v 256); lia|].
    split; [apply Z.div_pos; lia|apply Z.div_lt_upper_bound; lia].
Qed.

Lemma le_val_range l : bytes_ok l -> 0 <= le_val l < 256 ^ Z.of_nat (length l).
Proof.
  induction l as [|b l IH]; intros H; [done|].
  apply bytes_ok_cons in H as [Hb H]. specialize (IH H). cbn [le_val length].
  rewrite Nat2Z.inj_succ, Z.pow_succ_r by lia. lia.
Qed.

Lemma le_bytes_val l : bytes_ok l -> le_bytes (length l) (le_val l) = l.
Proof.
  induction l as [|b l IH]; intros H; [done|].
  apply bytes_ok_cons in H as [Hb H]. cbn [le_val length le_bytes].
  rewrite Z.mul_comm, Z_mod_plus_full, Z.mod_small by lia.
  rewrite Z.div_add, Z.div_small by lia. by rewrite Z.add_0_l, IH.
Qed.

(** The number [v] of [n] bytes is stored at [a]. *)
Definition at_ (n : nat) (m : mem) (a v : Z) : Prop :=
  bytes_at m a (le_bytes n v) /\ 0 <= v < 256 ^ Z.of_nat n.

Lemma ld_at n m a v : at_ n m a v -> ld n m a = Done v.
Proof.
  intros [Hb Hv]. unfold ld. pose proof (load_bytes_spec _ _ _ Hb) as E.
  rewrite length_le_bytes in E. by rewrite E, bind_Done, le_val_bytes.
Qed.

Definition rng (m : mem) (a n : Z) : Prop := forall x, a <= x < a + n -> is_Some (m !! x).

Lemma rng_mapped m a n : rng m a (Z.of_nat n) -> mapped m a n.
Proof. intros H i Hi. apply H. lia. Qed.

Lemma mapped_rng m a n : mapped m a n -> rng m a (Z.of_nat n).
Proof. intros H x Hx. apply (mapped_Some m a n); [done|lia]. Qed.

Lemma st_write n m a v :
  rng m a (Z.of_nat n) -> st n m a v = Done (write_bytes m a (le_bytes n v)).
Proof.
  intros H. apply store_bytes_spec; [apply le_bytes_ok|].
  rewrite length_le_bytes. by apply rng_mapped.
Qed.

Lemma at_write n m a v :
  0 <= v < 256 ^ Z.of_nat n -> at_ n (write_bytes m a (le_bytes n v)) a v.
Proof. intros. split; [apply bytes_at_write|done]. Qed.

Lemma at_frame n m m' a v :
  at_ n m a v -> (forall x, a <= x < a + Z.of_nat n -> m' !! x = m !! x) -> at_ n m' a v.
Proof.
  intros [Hb Hv] E. split; [|done]. intros i b Hi. rewrite E; [by apply Hb|].
  apply lookup_lt_Some in Hi. rewrite length_le_bytes in Hi. lia.
Qed.

Lemma bytes_at_frame m m' a l :
  bytes_at m a l -> (forall x, a <= x < a + Z.of_nat (length l) -> m' !! x = m !! x) ->
  bytes_at m' a l.
Proof.
  intros Hb E i b Hi. rewrite E; [by apply Hb|]. apply lookup_lt_Some in Hi. lia.
Qed.

(** Every byte of memory is an [unsigned char]. *)
Definition mem_bytes (m : mem) : Prop := map_Forall (fun _ b => 0 <= b < 256) m.

(** What is mapped can be read. *)
Lemma read_bytes m a n :
  mem_bytes m -> rng m a (Z.of_nat n) ->
  exists l, length l = n /\ bytes_ok l /\ bytes_at m a l.
Proof.
  intros Hm. revert a. induction n as [|n IH]; intros a Ha.
  - exists []. split_and!; [done|constructor|apply bytes_at_nil].
  - destruct (Ha a) as [b Hb]; [lia|].
    destruct (IH (a + 1)) as (l & Hl & Hok & Hat); [intros x Hx; apply Ha; lia|].
    exists (b :: l). split_and!; [by rewrite <- Hl| |].
    + apply bytes_ok_cons. split; [by apply (Hm a)|done].
    + by apply bytes_at_cons.
Qed.

Lemma read_at n m a :
  mem_bytes m -> rng m a (Z.of_nat n) -> exists v, at_ n m a v.
Proof.
  intros Hm Ha. destruct (read_bytes m a n Hm Ha) as (l & <- & Hok & Hat).
  exists (le_val l). split; [by rewrite le_bytes_val|by apply le_val_range].
Qed.

Lemma is_Some_write m p l x :
  rng m p (Z.of_nat (length l)) -> is_Some (write_bytes m p l !! x) <-> is_Some (m !! x).
Proof.
  intros H. rewrite lookup_write_bytes. case_decide as Hx; [|done].
  split; intros _.
  - apply H; lia.
  - apply lookup_lt_is_Some. lia.
Qed.

Lemma mem_bytes_write m p l : mem_bytes m -> bytes_ok l -> mem_bytes (write_bytes m p l).
Proof.
  intros Hm Hl x b. rewrite lookup_write_bytes. case_decide; [|apply Hm].
  intros Hb. by apply (Forall_lookup_1 _ _ _ _ Hl Hb).
Qed.

(** ** Blocks *)

Inductive payload :=
  | Data (d : list Z)
  | Pf (v : Z)
  | Junk.

Record blk := mk_blk {
  b_len : Z; b_prev : Z; b_next : Z; b_sz : Z; b_nf : Z; b_pay : payload }.

Definition up_len (v : Z) (b : blk) := mk_blk v (b_prev b) (b_next b) (b_sz b) (b_nf b) (b_pay b).
Definition up_prev (v : Z) (b : blk) := mk_blk (b_len b) v (b_next b) (b_sz b) (b_nf b) (b_pay b).
Definition up_next (v : Z) (b : blk) := mk_blk (b_len b) (b_prev b) v (b_sz b) (b_nf b) (b_pay b).
Definition up_sz (v : Z) (b : blk) := mk_blk (b_len b) (b_prev b) (b_next b) v (b_nf b) (b_pay b).
Definition up_nf (v : Z) (b : blk) := mk_blk (b_len b) (b_prev b) (b_next b) (b_sz b) v (b_pay b).
Definition up_pay (v : payload) (b : blk) :=
  mk_blk (b_len b) (b_prev b) (b_next b) (b_sz b) (b_nf b) v.

Definition pay_at (m : mem) (a len : Z) (p : payload) : Prop :=
  match p with
  | Data d => Z.of_nat (length d) = len - 32 /\ bytes_at m (a + 32) d
  | Pf v => 40 <= len /\ at_ 8 m (a + 32) v
  | Junk => True
  end.

Record blk_at (m : mem) (a : Z) (b : blk) : Prop := {
  ba_al : a mod 16 = 0;
  ba_pos : 0 < a;
  ba_min : 32 <= b_len b;
  ba_top : a + b_len b < 2 ^ 64;
  ba_rng : rng m a (b_len b);
  ba_prev : at_ 8 m a (b_prev b);
  ba_next : at_ 8 m (a + 8) (b_next b);
  ba_sz : at_ 4 m (a + 16) (b_sz b);
  ba_nf : at_ 8 m (a + 24) (b_nf b);
  ba_pay : pay_at m a (b_len b) (b_pay b) }.

(** No 4 GB of memory are mapped in one piece. *)
Definition runs_ok (m : mem) : Prop := forall a n, rng m a n -> n < 2 ^ 32.

Section Rep.
Context (NONE : Z).

Record rep (m : mem) (H : gmap Z blk) : Prop := {
  rep_bytes : mem_bytes m;
  rep_runs : runs_ok m;
  rep_none : m !! NONE = None;
  rep_blk : forall a b, H !! a = Some b -> blk_at m a b;
  rep_disj : forall a b a' b', H !! a = Some b -> H !! a' = Some b' -> a <> a' ->
    a + b_len b <= a' \/ a' + b_len b' <= a }.

(** A block keeps what it has when memory outside of it changes. *)
Lemma pay_at_frame m m' a len p :
  pay_at m a len p -> (forall x, a + 32 <= x < a + len -> m' !! x = m !! x) ->
  pay_at m' a len p.
Proof.
  destruct p as [d|v|]; simpl; [| |done].
  - intros [Hl Hd] E. split; [done|]. apply (bytes_at_frame _ _ _ _ Hd).
    intros x Hx. apply E. lia.
  - intros [Hl Hv] E. split; [done|]. apply (at_frame _ _ _ _ _ Hv).
    intros x Hx. apply E. lia.
Qed.

Lemma blk_at_frame m m' a b :
  blk_at m a b -> (forall x, a <= x < a + b_len b -> m' !! x = m !! x) -> blk_at m' a b.
Proof.
  intros [] E. split; try done.
  - intros x Hx. rewrite E by lia. auto.
  - apply (at_frame _ _ _ _ _ ba_prev0). intros; apply E; lia.
  - apply (at_frame _ _ _ _ _ ba_next0). intros; apply E; lia.
  - apply (at_frame _ _ _ _ _ ba_sz0). intros; apply E; lia.
  - apply (at_frame _ _ _ _ _ ba_nf0). intros; apply E; lia.
  - apply (pay_at_frame _ _ _ _ _ ba_pay0). intros; apply E; lia.
Qed.

(** A write inside one block, which then holds [b']. *)
Lemma rep_write m H a b b' p l :
  rep m H -> H !! a = Some b -> a <= p -> p + Z.of_nat (length l) <= a + b_len b ->
  bytes_ok l -> b_len b' = b_len b -> blk_at (write_bytes m p l) a b' ->
  rep (write_bytes m p l) (<[a := b']> H).
Proof.
  intros [] Ha Hp1 Hp2 Hl Hlen Hb'. pose proof (rep_blk0 a b Ha) as Hb.
  assert (Hr : rng m p (Z.of_nat (length l))) by (intros x Hx; apply Hb; lia). split.
  - by apply mem_bytes_write.
  - intros c n Hc. apply (rep_runs0 c n). intros x Hx.
    apply (is_Some_write m p l); [done|]. auto.
  - rewrite lookup_write_bytes_out; [done|].
    destruct (decide (NONE < p)), (decide (p + Z.of_nat (length l) <= NONE)); try lia.
    destruct (Hr NONE) as [? E]; [lia|]. by rewrite rep_none0 in E.
  - intros x c. rewrite lookup_insert. case_decide; [intros [= <-]; by subst|].
    intros Hc. apply (blk_at_frame m); [auto|]. intros y Hy.
    apply lookup_write_bytes_out.
    destruct (rep_disj0 a b x c); [done..|lia|lia].
  - intros x c x' c'. rewrite !lookup_insert. do 2 case_decide; subst; try done;
      intros Hc Hc'; simplify_eq; rewrite ?Hlen; eauto.
Qed.

(** ** Two numbers in one block *)

Lemma write_out n m p v x :
  x < p \/ p + Z.of_nat n <= x -> write_bytes m p (le_bytes n v) !! x = m !! x.
Proof. intros. apply lookup_write_bytes_out. rewrite length_le_bytes. lia. Qed.

Lemma rng_write m p l a n :
  rng m p (Z.of_nat (length l)) -> rng m a n -> rng (write_bytes m p l) a n.
Proof. intros Hp H x Hx. apply is_Some_write; auto. Qed.

End Rep.

(** A write of one field: the other fields are elsewhere in the block. *)
Ltac at_other := first
  [ eapply at_frame; [eassumption|intros; apply write_out; lia]
  | eapply pay_at_frame; [eassumption|intros; apply write_out; lia] ].

Ltac set_field Hr Ha :=
  destruct (rep_blk _ _ _ Hr _ _ Ha) as [? ? ? ? ba_rng0 ? ? ? ? ?];
  rewrite st_write by (intros x Hx; apply ba_rng0; lia); eexists; split; [done|];
  eapply rep_write; try done; rewrite ?length_le_bytes; try lia; [apply le_bytes_ok|];
  split; unfold up_prev, up_next, up_sz, up_nf, up_pay;
  cbn [b_len b_prev b_next b_sz b_nf b_pay pay_at]; try done; try at_other;
  first [ by apply at_write
        | by split; [|apply at_write]
        | apply rng_write; [|done]; rewrite length_le_bytes; intros x Hx; apply ba_rng0; lia ].

Section Fields.
Context (NONE : Z).
Abbreviation rep := (rep NONE).

Lemma rep_set_prev m H a b v :
  rep m H -> H !! a = Some b -> 0 <= v < 2 ^ 64 ->
  exists m', st 8 m a v = Done m' /\ rep m' (<[a := up_prev v b]> H).
Proof. intros Hr Ha Hv. set_field Hr Ha. Qed.

Lemma rep_set_next m H a b v :
  rep m H -> H !! a = Some b -> 0 <= v < 2 ^ 64 ->
  exists m', st 8 m (a + 8) v = Done m' /\ rep m' (<[a := up_next v b]> H).
Proof. intros Hr Ha Hv. set_field Hr Ha. Qed.

Lemma rep_set_sz m H a b v :
  rep m H -> H !! a = Some b -> 0 <= v < 2 ^ 32 ->
  exists m', st 4 m (a + 16) v = Done m' /\ rep m' (<[a := up_sz v b]> H).
Proof. intros Hr Ha Hv. set_field Hr Ha. Qed.

Lemma rep_set_nf m H a b v :
  rep m H -> H !! a = Some b -> 0 <= v < 2 ^ 64 ->
  exists m', st 8 m (a + 24) v = Done m' /\ rep m' (<[a := up_nf v b]> H).
Proof. intros Hr Ha Hv. set_field Hr Ha. Qed.

Lemma rep_set_pf m H a b v :
  rep m H -> H !! a = Some b -> 40 <= b_len b -> 0 <= v < 2 ^ 64 ->
  exists m', st 8 m (a + 32) v = Done m' /\ rep m' (<[a := up_pay (Pf v) b]> H).
Proof. intros Hr Ha Hl Hv. set_field Hr Ha. Qed.

End Fields.

(** ** Changes of view *)

Section Views.
Context (NONE : Z).
Abbreviation rep := (rep NONE).

Lemma rep_len m H a b : rep m H -> H !! a = Some b -> b_len b < 2 ^ 32.
Proof. intros Hr Ha. apply (rep_runs _ _ _ Hr a), (rep_blk _ _ _ Hr _ _ Ha). Qed.

Lemma rep_not_none m H b : rep m H -> H !! NONE = Some b -> False.
Proof.
  intros Hr Ha. destruct (rep_blk _ _ _ Hr _ _ Ha).
  destruct (ba_rng0 NONE) as [x E]; [lia|]. by rewrite (rep_none _ _ _ Hr) in E.
Qed.

(** Another view of one block, over the same bytes and the same extent. *)
Lemma rep_view m H a b b' :
  rep m H -> H !! a = Some b -> b_len b' = b_len b -> blk_at m a b' ->
  rep m (<[a := b']> H).
Proof.
  intros Hr Ha Hl Hb. eapply (rep_write NONE m H a b b' a []); try done; simpl; try lia.
  - pose proof (ba_min _ _ _ (rep_blk _ _ _ Hr _ _ Ha)). lia.
  - by constructor.
Qed.

Lemma rep_junk m H a b :
  rep m H -> H !! a = Some b -> rep m (<[a := up_pay Junk b]> H).
Proof.
  intros Hr Ha. apply (rep_view _ _ _ b); try done.
  by destruct (rep_blk _ _ _ Hr _ _ Ha).
Qed.

Lemma rep_data m H a b :
  rep m H -> H !! a = Some b ->
  exists d, bytes_ok d /\ Z.of_nat (length d) = b_len b - 32 /\
    rep m (<[a := up_pay (Data d) b]> H).
Proof.
  intros Hr Ha. pose proof (rep_blk _ _ _ Hr _ _ Ha) as []. 
  destruct (read_bytes m (a + 32) (Z.to_nat (b_len b - 32))) as (d & Hl & Hok & Hd).
  - apply Hr.
  - intros x Hx. apply ba_rng0. lia.
  - exists d. split_and!; [done|lia|]. apply (rep_view _ _ _ b); try done.
    split; try done. simpl. split; [lia|done].
Qed.

(** The bytes of a block's data are bytes. *)
Lemma rep_data_ok m H a b d :
  rep m H -> H !! a = Some b -> b_pay b = Data d -> bytes_ok d.
Proof.
  intros Hr Ha Hd. pose proof (ba_pay _ _ _ (rep_blk _ _ _ Hr _ _ Ha)) as Hp.
  rewrite Hd in Hp. destruct Hp as [_ Hp]. apply Forall_lookup_2. intros i x Hx.
  by apply (rep_bytes _ _ _ Hr _ _ (Hp _ _ Hx)).
Qed.

(** What the lower part of a block keeps. *)
Definition cut (sz : Z) (p : payload) : payload :=
  match p with Data d => Data (take (Z.to_nat (sz - 32)) d) | _ => Junk end.

Lemma header_bytes m a b :
  blk_at m a b -> mem_bytes m ->
  exists l, length l = 32%nat /\ bytes_ok l /\ bytes_at m a l /\
    forall m' a', bytes_at m' a' l ->
      at_ 8 m' a' (b_prev b) /\ at_ 8 m' (a' + 8) (b_next b) /\
      at_ 4 m' (a' + 16) (b_sz b) /\ at_ 8 m' (a' + 24) (b_nf b).
Proof.
  intros [] Hm. destruct (read_bytes m a 32 Hm) as (l & Hl & Hok & Hat).
  { intros x Hx. apply ba_rng0. lia. }
  exists l. split_and!; try done. intros m' a' Hat'.
  assert (E : forall x, 0 <= x < 32 -> m' !! (a' + x) = m !! (a + x)).
  { intros x Hx. destruct (lookup_lt_is_Some_2 l (Z.to_nat x)) as [v Hv]; [lia|].
    specialize (Hat _ _ Hv). specialize (Hat' _ _ Hv).
    rewrite Z2Nat.id in Hat, Hat' by lia. congruence. }
  assert (T : forall n k v, 0 <= k -> k + Z.of_nat n <= 32 ->
    at_ n m (a + k) v -> at_ n m' (a' + k) v).
  { intros n k v Hk Hn [Hb Hv]. split; [|done]. intros i x Hi.
    assert (i < n)%nat by (apply lookup_lt_Some in Hi; by rewrite length_le_bytes in Hi).
    specialize (Hb _ _ Hi). rewrite <- Z.add_assoc in *. rewrite E; [done|lia]. }
  rewrite <- (Z.add_0_r a) in ba_prev0. pose proof (T 8%nat 0 _ ltac:(lia) ltac:(lia) ba_prev0).
  rewrite Z.add_0_r in *. split_and!; [done| | |]; apply T; (done || lia).
Qed.

(** A block whose header is untouched, with another extent and storage. *)
Lemma blk_at_header m m' a b len p :
  blk_at m a b -> (forall x, a <= x < a + 32 -> m' !! x = m !! x) ->
  32 <= len -> a + len < 2 ^ 64 -> rng m' a len -> pay_at m' a len p ->
  blk_at m' a (up_len len (up_pay p b)).
Proof.
  intros [] E Hl Ht Hr Hp. split; unfold up_len, up_pay; cbn [b_len b_prev b_next b_sz b_nf b_pay];
    try done; try lia; (eapply at_frame; [eassumption|intros; apply E; lia]).
Qed.

(** memcpy(m1, m, DATAOFFSET) makes the upper part of a block a block. *)
Lemma rep_carve m H a b sz :
  rep m H -> H !! a = Some b -> sz mod 16 = 0 -> 32 <= sz -> sz + 32 <= b_len b ->
  exists m', memcpy m (a + sz) a DATAOFFSET = Done (m', a + sz) /\
    rep m' (<[a + sz := mk_blk (b_len b - sz) (b_prev b) (b_next b) (b_sz b) (b_nf b) Junk]>
             (<[a := up_len sz (up_pay (cut sz (b_pay b)) b)]> H)).
Proof.
  intros Hr Ha Hal Hs1 Hs2. pose proof (rep_blk _ _ _ Hr _ _ Ha) as Hb.
  destruct (header_bytes _ _ _ Hb (rep_bytes _ _ _ Hr)) as (l & Hl & Hok & Hat & Hhd).
  pose proof (ba_rng _ _ _ Hb) as Hrg.
  assert (Hin : forall x, a + sz <= x < a + sz + 32 -> is_Some (m !! x)) by (intros; apply Hrg; lia).
  exists (write_bytes m (a + sz) l). split.
  { replace DATAOFFSET with (Z.of_nat (length l)) by (by rewrite Hl).
    apply memcpy_spec; try done; [|rewrite Hl; lia].
    rewrite Hl. by apply rng_mapped. }
  assert (Hout : forall x, x < a + sz -> write_bytes m (a + sz) l !! x = m !! x).
  { intros. apply lookup_write_bytes_out. lia. }
  assert (Hnew : blk_at (write_bytes m (a + sz) l) (a + sz)
    (mk_blk (b_len b - sz) (b_prev b) (b_next b) (b_sz b) (b_nf b) Junk)).
  { destruct (Hhd _ _ (bytes_at_write m (a + sz) l)) as (? & ? & ? & ?).
    destruct Hb. split; cbn [b_len b_prev b_next b_sz b_nf b_pay]; try done; try lia.
    - rewrite Z.add_mod, ba_al0, Hal by lia. done.
    - apply rng_write; [by rewrite Hl|]. intros x Hx. apply ba_rng0. lia. }
  assert (Hlow : blk_at (write_bytes m (a + sz) l) a (up_len sz (up_pay (cut sz (b_pay b)) b))).
  { pose proof (ba_top _ _ _ Hb). pose proof (ba_pay _ _ _ Hb) as Hp.
    apply (blk_at_header m); try done; try lia.
    - intros x Hx. apply Hout. lia.
    - intros x Hx. rewrite Hout by lia. apply Hrg. lia.
    - destruct (b_pay b) as [d| |]; simpl in *; [|done..]. destruct Hp as [Hd1 Hd2].
      split; [rewrite length_take; lia|]. intros i x Hx. rewrite Hout.
      + apply lookup_take_Some in Hx as [Hx _]. auto.
      + apply lookup_lt_Some in Hx. rewrite length_take in Hx. lia. }
  assert (Hr' : rep (write_bytes m (a + sz) l) (<[a := up_pay Junk b]> H)).
  { apply (rep_write NONE m H a b); try done; rewrite ?Hl; try lia.
    destruct Hb. change (up_pay Junk b) with (up_len (b_len b) (up_pay Junk b)).
    apply (blk_at_header m); try done.
    - intros x Hx. apply Hout. lia.
    - apply rng_write; [by rewrite Hl|done]. }
  split; try apply Hr'.
  - intros x c. rewrite lookup_insert. case_decide; [intros [= <-]; by subst|].
    rewrite lookup_insert. case_decide; [intros [= <-]; by subst|].
    intros Hc. apply (rep_blk _ _ _ Hr'). by rewrite lookup_insert_ne.
  - intros x c x' c'. rewrite !lookup_insert.
    assert (Hd : forall y e, y <> a -> H !! y = Some e -> y + b_len e <= a \/ a + b_len b <= y).
    { intros y e Hy He. destruct (rep_disj _ _ _ Hr _ _ _ _ He Ha Hy); lia. }
    repeat case_decide; intros Hc Hc' Hne; simplify_eq;
      unfold up_len, up_pay; cbn [b_len]; try lia;
      try (by eapply (rep_disj _ _ _ Hr));
      repeat match goal with
      | K : H !! ?y = Some ?e |- _ =>
          let Q := fresh in pose proof (Hd y e ltac:(congruence) K) as Q;
          let R := fresh in pose proof (ba_min _ _ _ (rep_blk _ _ _ Hr _ _ K)) as R; clear K
      end; lia.
Qed.

(** Two neighbours become one block [b'], possibly after a write inside of them. *)
Lemma rep_join m m' H a b n c b' :
  rep m H -> H !! a = Some b -> H !! n = Some c -> n = a + b_len b ->
  b_len b' = b_len b + b_len c -> blk_at m' a b' -> mem_bytes m' ->
  (forall x, x < a \/ a + b_len b' <= x -> m' !! x = m !! x) ->
  (forall x, is_Some (m' !! x) <-> is_Some (m !! x)) ->
  rep m' (<[a := b']> (delete n H)).
Proof.
  intros Hr Ha Hn -> Hl Hb' Hm Hout Hdom.
  pose proof (ba_min _ _ _ (rep_blk _ _ _ Hr _ _ Ha)).
  pose proof (ba_min _ _ _ (rep_blk _ _ _ Hr _ _ Hn)).
  assert (Hd : forall y e, y <> a -> y <> a + b_len b -> H !! y = Some e ->
    y + b_len e <= a \/ a + b_len b' <= y).
  { intros y e Hy1 Hy2 He. pose proof (ba_min _ _ _ (rep_blk _ _ _ Hr _ _ He)).
    destruct (rep_disj _ _ _ Hr _ _ _ _ He Ha Hy1), (rep_disj _ _ _ Hr _ _ _ _ He Hn Hy2); lia. }
  split; try done.
  - intros x k Hx. apply (rep_runs _ _ _ Hr x). intros y Hy. apply Hdom. auto.
  - pose proof (rep_none _ _ _ Hr) as E. destruct (m' !! NONE) eqn:E'; [|done].
    destruct (proj1 (Hdom NONE)) as [? E2]; [by rewrite E'|]. congruence.
  - intros x e. rewrite lookup_insert. case_decide; [intros [= <-]; by subst|].
    intros [Hx He]%lookup_delete_Some. apply (blk_at_frame m); [by apply (rep_blk _ _ _ Hr)|].
    intros y Hy. apply Hout. destruct (Hd x e); [done..|lia|lia].
  - intros x e x' e'. rewrite !lookup_insert, !lookup_delete.
    repeat case_decide; intros He He' Hne; simplify_eq; subst; try done.
    + destruct (Hd x' e'); [done..|lia|lia].
    + destruct (Hd x e); [done..|lia|lia].
    + by apply (rep_disj _ _ _ Hr x e x' e').
Qed.

Lemma rep_merge m H a b n c :
  rep m H -> H !! a = Some b -> H !! n = Some c -> n = a + b_len b -> b_pay b = Junk ->
  rep m (<[a := up_len (b_len b + b_len c) b]> (delete n H)).
Proof.
  intros Hr Ha Hn -> Hj. pose proof (rep_blk _ _ _ Hr _ _ Ha) as Hb.
  pose proof (rep_blk _ _ _ Hr _ _ Hn) as [].
  eapply rep_join; try done; [|apply Hr].
  destruct b as [len pv nx z nf pay]; simpl in *; subst.
  apply (blk_at_header _ _ _ _ (len + b_len c) Junk Hb); simpl; try done; try lia.
  - destruct Hb. simpl in *. lia.
  - intros x Hx. destruct (decide (x < a + len)); [apply Hb; simpl; lia|apply ba_rng0; lia].
Qed.

Lemma rep_merge_data m H a b n c d :
  rep m H -> H !! a = Some b -> H !! n = Some c -> n = a + b_len b -> b_pay b = Data d ->
  exists x, Z.of_nat (length x) = b_len c /\
    rep m (<[a := up_len (b_len b + b_len c) (up_pay (Data (d ++ x)) b)]> (delete n H)).
Proof.
  intros Hr Ha Hn -> Hj. pose proof (rep_blk _ _ _ Hr _ _ Ha) as Hb.
  pose proof (rep_blk _ _ _ Hr _ _ Hn) as [].
  destruct (read_bytes m (a + b_len b) (Z.to_nat (b_len c))) as (x & Hx & _ & Hat);
    [apply Hr|intros y Hy; apply ba_rng0; lia|].
  exists x. split; [lia|]. eapply rep_join; try done; [|apply Hr].
  pose proof (ba_min _ _ _ Hb). pose proof (ba_pay _ _ _ Hb) as Hp. rewrite Hj in Hp.
  destruct Hp as [Hd1 Hd2].
  apply (blk_at_header m); try done; try lia.
  - intros y Hy. destruct (decide (y < a + b_len b)); [apply Hb; lia|apply ba_rng0; lia].
  - simpl. rewrite length_app. split; [lia|]. apply bytes_at_app. split; [done|].
    by replace (a + 32 + Z.of_nat (length d)) with (a + b_len b) by lia.
Qed.

(** memmove(PTR(p), PTR(a), ...) down into the block in front. *)
Lemma rep_move_down m H p bp a b d :
  rep m H -> H !! p = Some bp -> H !! a = Some b -> a = p + b_len bp -> b_pay b = Data d ->
  exists m' x, memmove m (p + 32) (a + 32) (Z.of_nat (length d)) = Done (m', p + 32) /\
    Z.of_nat (length x) = b_len bp /\
    rep m' (<[p := up_len (b_len bp + b_len b) (up_pay (Data (d ++ x)) bp)]> (delete a H)).
Proof.
  intros Hr Hp Ha -> Hd. pose proof (rep_blk _ _ _ Hr _ _ Hp) as Hbp.
  pose proof (rep_blk _ _ _ Hr _ _ Ha) as Hb. pose proof (rep_data_ok _ _ _ _ _ Hr Ha Hd) as Hok.
  pose proof (ba_pay _ _ _ Hb) as Hd2. rewrite Hd in Hd2. destruct Hd2 as [Hl Hd2].
  pose proof (ba_min _ _ _ Hbp). pose proof (ba_min _ _ _ Hb). pose proof (ba_top _ _ _ Hb).
  assert (Hrg : rng m p (b_len bp + b_len b)).
  { intros x Hx. destruct (decide (x < p + b_len bp)); [apply Hbp; lia|apply Hb; lia]. }
  assert (Hr1 : rng m (p + 32) (Z.of_nat (length d))) by (intros x Hx; apply Hrg; lia).
  set (m' := write_bytes m (p + 32) d).
  assert (Hm' : mem_bytes m') by (apply mem_bytes_write; [apply Hr|done]).
  destruct (read_bytes m' (p + 32 + Z.of_nat (length d)) (Z.to_nat (b_len bp)))
    as (x & Hx & _ & Hat); [done|apply rng_write; [done|intros x Hx; apply Hrg; lia]|].
  exists m', x. split_and!; [|lia|].
  - apply memmove_spec; try done. by apply rng_mapped.
  - eapply rep_join; try done.
    + apply (blk_at_header m); try done; try lia.
      * intros y Hy. apply lookup_write_bytes_out. lia.
      * by apply rng_write.
      * simpl. rewrite length_app. split; [lia|]. apply bytes_at_app.
        split; [apply bytes_at_write|done].
    + unfold up_len, up_pay. cbn [b_len]. intros y Hy. apply lookup_write_bytes_out. lia.
    + intros y. by apply is_Some_write.
Qed.

(** memcpy of one block's data into another block. *)
Lemma rep_copy m H a b d a2 b2 d2 :
  rep m H -> H !! a = Some b -> b_pay b = Data d -> H !! a2 = Some b2 -> b_pay b2 = Data d2 ->
  a <> a2 -> (length d <= length d2)%nat ->
  exists m', memcpy m (a2 + 32) (a + 32) (Z.of_nat (length d)) = Done (m', a2 + 32) /\
    rep m' (<[a2 := up_pay (Data (d ++ drop (length d) d2)) b2]> H).
Proof.
  intros Hr Ha Hd Ha2 Hd2 Hne Hle. pose proof (rep_blk _ _ _ Hr _ _ Ha) as Hb.
  pose proof (rep_blk _ _ _ Hr _ _ Ha2) as Hb2. pose proof (rep_data_ok _ _ _ _ _ Hr Ha Hd) as Hok.
  pose proof (ba_pay _ _ _ Hb) as Hp. rewrite Hd in Hp. destruct Hp as [Hl Hat].
  pose proof (ba_pay _ _ _ Hb2) as Hp2. rewrite Hd2 in Hp2. destruct Hp2 as [Hl2 Hat2].
  pose proof (ba_min _ _ _ Hb). pose proof (ba_min _ _ _ Hb2). pose proof (ba_rng _ _ _ Hb2) as Hrg.
  assert (Hr1 : rng m (a2 + 32) (Z.of_nat (length d))) by (intros x Hx; apply Hrg; lia).
  eexists. split.
  { apply memcpy_spec; try done; [by apply rng_mapped|].
    destruct (rep_disj _ _ _ Hr _ _ _ _ Ha Ha2 Hne); lia. }
  apply (rep_write NONE m H a2 b2); try done; try lia.
  change (up_pay ?p b2) with (up_len (b_len b2) (up_pay p b2)).
  apply (blk_at_header m); try done.
  - intros y Hy. apply lookup_write_bytes_out. lia.
  - apply Hb2.
  - by apply rng_write.
  - simpl. rewrite length_app, length_drop. split; [lia|]. apply bytes_at_app.
    split; [apply bytes_at_write|]. intros i x Hx. rewrite lookup_drop in Hx.
    rewrite lookup_write_bytes_out by lia. rewrite <- (Hat2 _ _ Hx). f_equal. lia.
Qed.

(** memset of a block's data. *)
Lemma rep_fill m H a b d n :
  rep m H -> H !! a = Some b -> b_pay b = Data d -> (n <= length d)%nat ->
  exists m', memset m (a + 32) 0 (Z.of_nat n) = Done (m', a + 32) /\
    rep m' (<[a := up_pay (Data (replicate n 0 ++ drop n d)) b]> H).
Proof.
  intros Hr Ha Hd Hle. pose proof (rep_blk _ _ _ Hr _ _ Ha) as Hb.
  pose proof (ba_pay _ _ _ Hb) as Hp. rewrite Hd in Hp. destruct Hp as [Hl Hat].
  pose proof (ba_min _ _ _ Hb). pose proof (ba_rng _ _ _ Hb) as Hrg.
  eexists. split.
  { apply memset_correct. apply rng_mapped. intros x Hx. apply Hrg. lia. }
  change (byte 0) with 0. apply (rep_write NONE m H a b); rewrite ?length_replicate; try done; try lia.
  { apply Forall_replicate. lia. }
  change (up_pay ?p b) with (up_len (b_len b) (up_pay p b)).
  apply (blk_at_header m); try done.
  - intros y Hy. apply lookup_write_bytes_out. lia.
  - apply Hb.
  - apply rng_write; [|done]. rewrite length_replicate. intros x Hx. apply Hrg. lia.
  - simpl. rewrite length_app, length_drop, length_replicate. split; [lia|]. apply bytes_at_app.
    split; [apply bytes_at_write|]. rewrite length_replicate. intros i x Hx.
    rewrite lookup_drop in Hx. rewrite lookup_write_bytes_out by (rewrite length_replicate; lia).
    rewrite <- (Hat _ _ Hx). f_equal. lia.
Qed.

(** ** Memory from sbrk *)

Definition fresh_at (m : mem) (r d : Z) : Prop := forall x, r <= x < r + d -> m !! x = None.

(** What is mapped is apart from what is not. *)
Lemma rng_fresh m a n r d : rng m a n -> fresh_at m r d -> 0 < n -> 0 < d -> a + n <= r \/ r + d <= a.
Proof.
  intros Hr Hf Hn Hd. destruct (decide (a + n <= r)); [by left|].
  destruct (decide (r + d <= a)); [by right|].
  destruct (Hr (Z.max a r)) as [v Hv]; [lia|]. rewrite Hf in Hv by lia. done.
Qed.

Lemma rep_grow m H r l :
  rep m H -> fresh_at m r (Z.of_nat (length l)) -> bytes_ok l ->
  runs_ok (write_bytes m r l) -> NONE < r \/ r + Z.of_nat (length l) <= NONE ->
  rep (write_bytes m r l) H.
Proof.
  intros Hr Hf Hl Hru Hn. split.
  - apply mem_bytes_write; [apply Hr|done].
  - done.
  - rewrite lookup_write_bytes_out by lia. apply Hr.
  - intros a b Ha. pose proof (rep_blk _ _ _ Hr _ _ Ha) as Hb.
    apply (blk_at_frame m); [done|]. intros x Hx. apply lookup_write_bytes_out.
    pose proof (ba_min _ _ _ Hb). destruct l; [simpl; lia|].
    destruct (rng_fresh _ _ _ _ _ (ba_rng _ _ _ Hb) Hf); simpl in *; lia.
  - apply Hr.
Qed.

Lemma rep_add m H a len :
  rep m H -> rng m a len -> (forall x b, H !! x = Some b -> x + b_len b <= a \/ a + len <= x) ->
  a mod 16 = 0 -> 0 < a -> 32 <= len -> a + len < 2 ^ 64 ->
  H !! a = None /\
  exists p n s f, rep m (<[a := mk_blk len p n s f Junk]> H).
Proof.
  intros Hr Hrg Hd Hal Hpos Hmin Htop. split.
  { destruct (H !! a) as [b|] eqn:E; [|done]. pose proof (ba_min _ _ _ (rep_blk _ _ _ Hr _ _ E)).
    destruct (Hd _ _ E); lia. }
  pose proof (rep_bytes _ _ _ Hr) as Hm.
  destruct (read_at 8 m a Hm) as [p Hp]; [intros x Hx; apply Hrg; lia|].
  destruct (read_at 8 m (a + 8) Hm) as [n Hn]; [intros x Hx; apply Hrg; lia|].
  destruct (read_at 4 m (a + 16) Hm) as [s Hs]; [intros x Hx; apply Hrg; lia|].
  destruct (read_at 8 m (a + 24) Hm) as [f Hf]; [intros x Hx; apply Hrg; lia|].
  exists p, n, s, f. split; try apply Hr.
  - intros x b. rewrite lookup_insert. case_decide; [intros [= <-]; by subst|]. apply Hr.
  - intros x b x' b'. rewrite !lookup_insert. repeat case_decide; intros Hb Hb' Hne; simplify_eq; simpl.
    + destruct (Hd x' b' Hb'); lia.
    + destruct (Hd x b Hb); lia.
    + by apply (rep_disj _ _ _ Hr x b x' b').
Qed.

Lemma rep_extend m H a b d :
  rep m H -> H !! a = Some b -> b_pay b = Junk -> rng m (a + b_len b) d -> 0 <= d ->
  (forall x c, H !! x = Some c -> x + b_len c <= a + b_len b \/ a + b_len b + d <= x) ->
  a + b_len b + d < 2 ^ 64 ->
  rep m (<[a := up_len (b_len b + d) b]> H).
Proof.
  intros Hr Ha Hj Hrg Hd Hdis Htop. pose proof (rep_blk _ _ _ Hr _ _ Ha) as Hb.
  split; try apply Hr.
  - intros x c. rewrite lookup_insert. case_decide; [|apply Hr]. intros [= <-]. subst x.
    pose proof (ba_min _ _ _ Hb). destruct b as [len pv nx z nf pay]; simpl in *; subst.
    apply (blk_at_header m m a (mk_blk len pv nx z nf Junk) (len + d) Junk Hb); try done; try lia.
    intros x Hx. destruct (decide (x < a + len)); [apply Hb; simpl; lia|apply Hrg; lia].
  - assert (Hq : forall x c, H !! x = Some c -> x <> a -> x + b_len c <= a \/ a + b_len b + d <= x).
    { intros x c Hx Hne. destruct (rep_disj _ _ _ Hr _ _ _ _ Hx Ha Hne), (Hdis _ _ Hx); try lia.
      pose proof (ba_min _ _ _ (rep_blk _ _ _ Hr _ _ Hx)). lia. }
    intros x c x' c'. rewrite !lookup_insert.
    repeat case_decide; intros Hc Hc' Hne; simplify_eq; unfold up_len; cbn [b_len].
    + destruct (Hq x' c'); [done..|lia|lia].
    + destruct (Hq x c); [done..|lia|lia].
    + by apply (rep_disj _ _ _ Hr x c x' c').
Qed.

End Views.
