(* ===== verification/NmInv.v ===== *)
(** * The allocator: its invariant and the free lists

    The invariant of the heap on the view of [NmRep]: neighbours are linked ([links]), a
    free block is on the doubly linked list of its bucket and on no other ([lists]), two
    free blocks are never neighbours ([coal]), and every other block is the client's, the
    remainder [lastsbrk], or at hand in the operation that runs ([kinds]). Statements of
    the allocator are verified with a weakest precondition [wp], which excludes every kind
    of failure. Here are the rules for reads and writes, and the operations on the free
    lists. *)

From stdpp Require Import base gmap list numbers sets.
From Stdlib Require Import ZArith Lia.
From S2P Require Import Prelude MemFuns NMalloc NmRep.

Open Scope Z_scope.

(** ** Buckets *)

Lemma size2bucket_loop_spec fuel : forall sz b,
  0 <= sz < 2 ^ Z.of_nat fuel ->
  size2bucket_loop fuel sz b = b + (if sz =? 0 then 0 else Z.log2 sz + 1).
Proof.
  induction fuel as [|fuel IH]; intros sz b Hsz; cbn [size2bucket_loop].
  - rewrite Z.pow_0_r in Hsz. assert (sz = 0) as -> by lia. rewrite Z.eqb_refl. cbn iota. lia.
  - destruct (Z.eqb_spec sz 0) as [->|Hne]; [lia|].
    rewrite Nat2Z.inj_succ, Z.pow_succ_r in Hsz by lia.
    rewrite IH; rewrite Z.shiftr_div_pow2 by lia; change (2 ^ 1) with 2.
    2: { split; [apply Z.div_pos; lia|apply Z.div_lt_upper_bound; lia]. }
    destruct (Z.eqb_spec (sz / 2) 0) as [E|E].
    + assert (sz = 1) as -> by (pose proof (Z.div_mod sz 2); pose proof (Z.mod_pos_bound sz 2); lia). change (Z.log2 1) with 0. lia.
    + assert (2 <= sz) by (destruct (decide (sz = 1)) as [->|]; [done|lia]).
      pose proof (Z.div_mod sz 2 ltac:(lia)). pose proof (Z.mod_pos_bound sz 2 ltac:(lia)).
      assert (0 < sz / 2) by lia. set (h := sz / 2) in *.
      assert (Z.log2 sz = Z.succ (Z.log2 h)); [|lia].
      destruct (decide (sz mod 2 = 0)).
      * replace sz with (2 * h) by lia. by rewrite Z.log2_double.
      * replace sz with (2 * h + 1) by lia. by rewrite Z.log2_succ_double.
Qed.

Lemma size2bucket_log sz : 0 < sz < 2 ^ 32 -> size2bucket sz = Z.log2 sz + 1.
Proof.
  intros. unfold size2bucket. rewrite size2bucket_loop_spec by (change (Z.of_nat 32) with 32; lia).
  destruct (Z.eqb_spec sz 0); lia.
Qed.

Lemma size2bucket_range sz : 0 < sz < 2 ^ 32 -> 1 <= size2bucket sz <= 32.
Proof.
  intros H. rewrite size2bucket_log by done. pose proof (Z.log2_nonneg sz).
  assert (Z.log2 sz < 32) by (apply Z.log2_lt_pow2; lia). lia.
Qed.

Lemma size2bucket_lt x y :
  0 < x < 2 ^ 32 -> 0 < y < 2 ^ 32 -> size2bucket x < size2bucket y -> x < y.
Proof.
  intros Hx Hy. rewrite !size2bucket_log by done. intros H.
  destruct (Z.lt_ge_cases x y); [done|]. pose proof (Z.log2_le_mono y x). lia.
Qed.

(** ** Weakest preconditions *)

Section Wp.
Context {SA : SbrkApi}.

Definition wp {A} (c : N A) (Q : A -> nmst -> Prop) (s : nmst) : Prop :=
  match c s with Done (a, s') => Q a s' | Fail _ => False end.

Lemma nwp_bind {A B} (c : N A) (k : A -> N B) Q s :
  wp c (fun a s' => wp (k a) Q s') s -> wp (c ≫= k) Q s.
Proof.
  unfold wp, mbind, N_bind. destruct (c s) as [[a s']|]; [|done]. by rewrite bind_Done.
Qed.

(** Three statements as one *)
Lemma wp_bind3 {A B C D} (c1 : N A) (c2 : A -> N B) (c3 : A -> B -> N C) (k : C -> N D) Q s :
  wp (a ← c1; b ← c2 a; c3 a b) (fun x s' => wp (k x) Q s') s ->
  wp (a ← c1; b ← c2 a; x ← c3 a b; k x) Q s.
Proof.
  unfold wp, mbind, N_bind. destruct (c1 s) as [[a s1]|]; [|done]. rewrite !bind_Done.
  destruct (c2 a s1) as [[b s2]|]; [|done]. rewrite !bind_Done.
  destruct (c3 a b s2) as [[x s3]|]; [|done]. by rewrite bind_Done.
Qed.

Lemma nwp_ret {A} (a : A) (Q : A -> nmst -> Prop) s : Q a s -> wp (mret a) Q s.
Proof. done. Qed.

Lemma wp_mono {A} (c : N A) (Q Q' : A -> nmst -> Prop) s :
  wp c Q s -> (forall a s', Q a s' -> Q' a s') -> wp c Q' s.
Proof. unfold wp. destruct (c s) as [[a s']|]; [|done]. auto. Qed.

Lemma nwp_Done {A} (c : N A) (Q : A -> nmst -> Prop) s :
  wp c Q s -> exists a s', c s = Done (a, s') /\ Q a s'.
Proof. unfold wp. destruct (c s) as [[a s']|]; [|done]. eauto. Qed.

Context (NONE : Z).

(** The state holds the heap [H], the heads of the free lists [F] and [lastsbrk]. *)
Record SR (s : nmst) (H : gmap Z blk) (F : Z -> list Z) (last : Z)
    (o : Z * list Z * sbrk_st) : Prop := {
  sr_rep : rep NONE (n_mem s) H;
  sr_len : length (freehdrs s) = 64%nat;
  sr_last : freehdrs s !! 0%nat = Some last;
  sr_hd : forall b, 1 <= b < 64 -> freehdrs s !! Z.to_nat b = Some (hd 0 (F b));
  sr_rest : (lastsbrkbgn s, sbrkbgn s, n_sys s) = o }.

Section Rules.
Context (s : nmst) (H : gmap Z blk) (F : Z -> list Z) (last : Z) (o : Z * list Z * sbrk_st).
Hypothesis Hs : SR s H F last o.

Lemma SR_blk a b : H !! a = Some b -> blk_at (n_mem s) a b.
Proof. apply (rep_blk _ _ _ (sr_rep _ _ _ _ _ Hs)). Qed.

Lemma wp_rd n a v (Q : Z -> nmst -> Prop) : at_ n (n_mem s) a v -> Q v s -> wp (rd n a) Q s.
Proof. intros Ha HQ. unfold wp, rd. by rewrite (ld_at _ _ _ _ Ha), bind_Done. Qed.

Lemma wp_prev a b (Q : Z -> nmst -> Prop) : H !! a = Some b -> Q (b_prev b) s -> wp (prev_ a) Q s.
Proof. intros Ha. apply wp_rd, (SR_blk a b Ha). Qed.

Lemma wp_next a b (Q : Z -> nmst -> Prop) : H !! a = Some b -> Q (b_next b) s -> wp (next_ a) Q s.
Proof. intros Ha. apply wp_rd, (SR_blk a b Ha). Qed.

Lemma wp_sz a b (Q : Z -> nmst -> Prop) : H !! a = Some b -> Q (b_sz b) s -> wp (sz_ a) Q s.
Proof. intros Ha. apply wp_rd, (SR_blk a b Ha). Qed.

Lemma wp_nextfree a b (Q : Z -> nmst -> Prop) :
  H !! a = Some b -> Q (b_nf b) s -> wp (nextfree a) Q s.
Proof. intros Ha. apply wp_rd, (SR_blk a b Ha). Qed.

Lemma wp_prevfree a b v (Q : Z -> nmst -> Prop) :
  H !! a = Some b -> b_pay b = Pf v -> Q v s -> wp (prevfree a) Q s.
Proof.
  intros Ha Hp. pose proof (ba_pay _ _ _ (SR_blk a b Ha)) as Hb. rewrite Hp in Hb.
  apply wp_rd, Hb.
Qed.

Lemma SR_with_mem m' H' : rep NONE m' H' -> SR (with_mem s m') H' F last o.
Proof. intros Hr. destruct Hs. by split. Qed.

Lemma wp_wr n a v m' H' (Q : unit -> nmst -> Prop) :
  st n (n_mem s) a v = Done m' -> rep NONE m' H' ->
  (forall s', SR s' H' F last o -> Q tt s') -> wp (wr n a v) Q s.
Proof. intros E Hr HQ. unfold wp, wr. rewrite E, bind_Done. by apply HQ, SR_with_mem. Qed.

Lemma wp_set_prev a b v (Q : unit -> nmst -> Prop) :
  H !! a = Some b -> 0 <= v < 2 ^ 64 ->
  (forall s', SR s' (<[a := up_prev v b]> H) F last o -> Q tt s') -> wp (set_prev a v) Q s.
Proof.
  intros Ha Hv. edestruct (rep_set_prev NONE (n_mem s) H a b v) as (m' & E & Hr);
    [apply Hs|done..|]. by apply (wp_wr _ _ _ m').
Qed.

Lemma wp_set_next a b v (Q : unit -> nmst -> Prop) :
  H !! a = Some b -> 0 <= v < 2 ^ 64 ->
  (forall s', SR s' (<[a := up_next v b]> H) F last o -> Q tt s') -> wp (set_next a v) Q s.
Proof.
  intros Ha Hv. edestruct (rep_set_next NONE (n_mem s) H a b v) as (m' & E & Hr);
    [apply Hs|done..|]. by apply (wp_wr _ _ _ m').
Qed.

Lemma wp_set_sz a b v (Q : unit -> nmst -> Prop) :
  H !! a = Some b -> 0 <= v < 2 ^ 32 ->
  (forall s', SR s' (<[a := up_sz v b]> H) F last o -> Q tt s') -> wp (set_sz a v) Q s.
Proof.
  intros Ha Hv. edestruct (rep_set_sz NONE (n_mem s) H a b v) as (m' & E & Hr);
    [apply Hs|done..|]. by apply (wp_wr _ _ _ m').
Qed.

Lemma wp_set_nextfree a b v (Q : unit -> nmst -> Prop) :
  H !! a = Some b -> 0 <= v < 2 ^ 64 ->
  (forall s', SR s' (<[a := up_nf v b]> H) F last o -> Q tt s') -> wp (set_nextfree a v) Q s.
Proof.
  intros Ha Hv. edestruct (rep_set_nf NONE (n_mem s) H a b v) as (m' & E & Hr);
    [apply Hs|done..|]. by apply (wp_wr _ _ _ m').
Qed.

Lemma wp_set_prevfree a b v (Q : unit -> nmst -> Prop) :
  H !! a = Some b -> 40 <= b_len b -> 0 <= v < 2 ^ 64 ->
  (forall s', SR s' (<[a := up_pay (Pf v) b]> H) F last o -> Q tt s') ->
  wp (set_prevfree a v) Q s.
Proof.
  intros Ha Hl Hv. edestruct (rep_set_pf NONE (n_mem s) H a b v) as (m' & E & Hr);
    [apply Hs|done..|]. by apply (wp_wr _ _ _ m').
Qed.

Lemma wp_memop f m' r H' (Q : unit -> nmst -> Prop) :
  f (n_mem s) = Done (m', r) -> rep NONE m' H' ->
  (forall s', SR s' H' F last o -> Q tt s') -> wp (memop f) Q s.
Proof. intros E Hr HQ. unfold wp, memop. rewrite E, bind_Done. by apply HQ, SR_with_mem. Qed.

Lemma wp_hdr b (Q : Z -> nmst -> Prop) : 1 <= b < 64 -> Q (hd 0 (F b)) s -> wp (hdr b) Q s.
Proof.
  intros Hb HQ. unfold wp, hdr. replace (b <? 0) with false by lia.
  by rewrite (sr_hd _ _ _ _ _ Hs b Hb).
Qed.

Lemma wp_lastsbrk (Q : Z -> nmst -> Prop) : Q last s -> wp lastsbrk Q s.
Proof.
  intros HQ. unfold wp, lastsbrk, hdr. change (0 <? 0) with false.
  change (Z.to_nat 0) with 0%nat. cbn iota. by rewrite (sr_last _ _ _ _ _ Hs).
Qed.

Lemma wp_set_hdr b v F' (Q : unit -> nmst -> Prop) :
  1 <= b < 64 -> hd 0 (F' b) = v -> (forall i, i <> b -> F' i = F i) ->
  (forall s', SR s' H F' last o -> Q tt s') -> wp (set_hdr b v) Q s.
Proof.
  intros Hb Hv HF HQ. unfold wp, set_hdr. destruct Hs.
  rewrite sr_len0, (proj2 (andb_true_iff _ _)) by (change (Z.of_nat 64) with 64; lia).
  apply HQ. split; try done; cbn [freehdrs with_freehdrs].
  - by rewrite length_insert.
  - by rewrite list_lookup_insert_ne by lia.
  - intros i Hi. destruct (decide (i = b)) as [->|Hne].
    + rewrite list_lookup_insert_eq by lia. by rewrite Hv.
    + rewrite list_lookup_insert_ne by lia. rewrite HF by done. auto.
Qed.

Lemma wp_set_lastsbrk v (Q : unit -> nmst -> Prop) :
  (forall s', SR s' H F v o -> Q tt s') -> wp (set_lastsbrk v) Q s.
Proof.
  intros HQ. unfold wp, set_lastsbrk, set_hdr. destruct Hs.
  rewrite sr_len0, (proj2 (andb_true_iff _ _)) by (change (Z.of_nat 64) with 64; lia).
  apply HQ. split; try done; cbn [freehdrs with_freehdrs]; change (Z.to_nat 0) with 0%nat.
  - by rewrite length_insert.
  - rewrite list_lookup_insert_eq by lia. done.
  - intros i Hi. rewrite list_lookup_insert_ne by lia. auto.
Qed.

(** Another view of the same state *)
Lemma SR_view H' : rep NONE (n_mem s) H' -> SR s H' F last o.
Proof. intros Hr. destruct Hs. by split. Qed.

Lemma SR_heads F' : (forall i, hd 0 (F' i) = hd 0 (F i)) -> SR s H F' last o.
Proof. intros E. destruct Hs. split; try done. intros b Hb. rewrite E. auto. Qed.

Lemma SR_addr a b : H !! a = Some b -> 0 < a < 2 ^ 64.
Proof. intros Ha. destruct (SR_blk a b Ha). lia. Qed.

Lemma SR_fields a b : H !! a = Some b ->
  0 <= b_prev b < 2 ^ 64 /\ 0 <= b_next b < 2 ^ 64 /\ 0 <= b_nf b < 2 ^ 64 /\
  0 < b_len b < 2 ^ 32.
Proof.
  intros Ha. pose proof (rep_len _ _ _ _ _ (sr_rep _ _ _ _ _ Hs) Ha).
  destruct (SR_blk a b Ha) as [? ? ? ? ? [_ ?] [_ ?] _ [_ ?] _].
  change (256 ^ Z.of_nat 8) with (2 ^ 64) in *. lia.
Qed.

Lemma SR_not_none a b : H !! a = Some b -> a <> NONE.
Proof. intros Ha ->. by eapply rep_not_none; [apply Hs|]. Qed.

End Rules.

(** ** The invariant *)

Definition shape (b : blk) : Z * Z * Z * Z := (b_len b, b_prev b, b_next b, b_sz b).

Record links (H : gmap Z blk) : Prop := {
  l_sz : forall a b, H !! a = Some b -> b_sz b = b_len b;
  l_next : forall a b, H !! a = Some b -> b_next b = 0 \/
    b_next b = a + b_len b /\ exists n, H !! b_next b = Some n /\ b_prev n = a;
  l_prev : forall a b, H !! a = Some b -> b_prev b = 0 \/
    exists p, H !! b_prev b = Some p /\ b_next p = a }.

(** A doubly linked list: [p] is in front of it, [q] ends it. *)
Fixpoint flseg (H : gmap Z blk) (i p : Z) (l : list Z) (q : Z) : Prop :=
  match l with
  | [] => True
  | x :: l' =>
      (exists b, H !! x = Some b /\ b_pay b = Pf p /\ b_nf b = hd q l' /\
        size2bucket (b_len b) = i) /\
      flseg H i x l' q
  end.

Record lists (H : gmap Z blk) (F : Z -> list Z) : Prop := {
  ls_seg : forall i, flseg H i NONE (F i) NONE;
  ls_nd : forall i, NoDup (F i);
  ls_in : forall a b v, H !! a = Some b -> b_pay b = Pf v -> a ∈ F (size2bucket (b_len b)) }.

Record kinds (H : gmap Z blk) (J : gset Z) : Prop := {
  k_data : forall a b d, H !! a = Some b -> b_pay b = Data d -> b_nf b = 0 /\ 48 <= b_len b;
  k_junk : forall a b, H !! a = Some b -> b_pay b = Junk -> a ∈ J;
  k_J : forall a, a ∈ J -> exists b, H !! a = Some b /\ b_pay b = Junk }.

Definition is_free (b : blk) : bool := match b_pay b with Pf _ => true | _ => false end.

(** Two free blocks are not neighbours, and none is in front of [lastsbrk]. *)
Definition coal (H : gmap Z blk) (last : Z) : Prop :=
  forall a b, H !! a = Some b -> is_free b = true ->
    (forall n, H !! b_next b = Some n -> is_free n = false) /\ (last <> 0 -> b_next b <> last).

Record wf (H : gmap Z blk) (F : Z -> list Z) (J : gset Z) (last : Z) : Prop := {
  wf_links : links H; wf_lists : lists H F; wf_kinds : kinds H J; wf_coal : coal H last }.

(** [lastsbrk] is the end of its chain. *)
Definition last_ok (H : gmap Z blk) (last : Z) : Prop :=
  last = 0 \/ exists b, H !! last = Some b /\ b_pay b = Junk /\ b_next b = 0 /\ b_nf b = 0.

(** Between operations only [lastsbrk] is neither free nor the client's. *)
Definition only_last (last : Z) : gset Z := if decide (last = 0) then ∅ else {[last]}.

Record inv (s : nmst) (H : gmap Z blk) (F : Z -> list Z) (last : Z)
    (o : Z * list Z * sbrk_st) : Prop := {
  inv_SR : SR s H F last o; inv_wf : wf H F (only_last last) last; inv_last : last_ok H last;
  inv_nz : last = 0 -> H = ∅ }.

(** In an operation there may be one more, the block [m] at hand. *)
Record hand (s : nmst) (H : gmap Z blk) (F : Z -> list Z) (last : Z)
    (o : Z * list Z * sbrk_st) (m : Z) (b : blk) : Prop := {
  hand_SR : SR s H F last o;
  hand_wf : wf H F (only_last last ∪ {[m]}) last;
  hand_last : last_ok H last;
  hand_at : H !! m = Some b;
  hand_pay : b_pay b = Junk;
  hand_ne : m <> last;
  hand_nz : last <> 0 }.

End Wp.

#[global] Arguments wp : simpl never.
