(* ===== verification/NmLists.v ===== *)
(** * The allocator: the free lists

    extractfree, rmvfromfree, ISFREE and the insertion at the head of a list, on the
    doubly linked lists of the invariant. *)

From stdpp Require Import base gmap list numbers sets.
From Stdlib Require Import ZArith Lia.
From S2P Require Import Prelude MemFuns NMalloc NmRep NmInv.

Open Scope Z_scope.

Lemma wp_foul {SA : SbrkApi} trapped b (Q : unit -> nmst -> Prop) s :
  b = false -> Q tt s -> wp (foul trapped b) Q s.
Proof. by intros ->. Qed.

(** ** Tactics: one statement of the allocator at a time *)

Ltac hne := first [assumption | congruence | lia].

(** A lookup in a heap after updates *)
Ltac hl :=
  repeat first [rewrite lookup_insert_eq | rewrite lookup_insert_ne by hne];
  first [eassumption | reflexivity].

Ltac fields := cbn [negb andb orb b_len b_prev b_next b_sz b_nf b_pay up_len up_prev up_next up_sz up_nf up_pay].

Ltac rg := fields; first [assumption | lia].

Ltac upd lem :=
  eapply lem; [eassumption|hl|rg|];
  let s' := fresh "s" in let Hs' := fresh "Hs" in intros s' Hs'.

Ltac go1 :=
  lazymatch goal with
  | |- wp (prev_ _) _ _ => eapply wp_prev; [eassumption|hl|]
  | |- wp (next_ _) _ _ => eapply wp_next; [eassumption|hl|]
  | |- wp (sz_ _) _ _ => eapply wp_sz; [eassumption|hl|]
  | |- wp (nextfree _) _ _ => eapply wp_nextfree; [eassumption|hl|]
  | |- wp (prevfree _) _ _ => eapply wp_prevfree; [eassumption|hl|fields; first [eassumption|reflexivity]|]
  | |- wp (set_prev _ _) _ _ => upd wp_set_prev
  | |- wp (set_next _ _) _ _ => upd wp_set_next
  | |- wp (set_sz _ _) _ _ => upd wp_set_sz
  | |- wp (set_nextfree _ _) _ _ => upd wp_set_nextfree
  | |- wp (set_prevfree _ _) _ _ => eapply wp_set_prevfree; [eassumption|hl|rg|rg|];
      let s' := fresh "s" in let Hs' := fresh "Hs" in intros s' Hs'
  | |- wp lastsbrk _ _ => eapply wp_lastsbrk; [eassumption|]
  | |- wp (mret _) _ _ => apply nwp_ret
  | |- wp (foul _ _) _ _ => apply wp_foul; [try lia|]
  end; cbv beta; fields.

Ltac go :=
  cbv zeta beta; fields;
  lazymatch goal with
  | |- wp (_ ≫= _) _ _ => apply nwp_bind
  | _ => idtac
  end; go1.

(** Two heaps that agree at each address *)
Ltac heap_eq :=
  apply map_eq; let z := fresh "z" in intros z;
  rewrite !lookup_insert, ?lookup_alter; repeat case_decide; simplify_eq; try done;
  repeat match goal with E : (?H !! ?a) = Some _ |- context [(?H !! ?a)] => rewrite E end; done.

(** ** Segments *)

Lemma last_cons_default (x : Z) l d : List.last (x :: l) d = List.last l x.
Proof.
  revert x d. induction l as [|y l IH]; intros x d; [done|].
  change (List.last (y :: l) d = List.last (y :: l) x). by rewrite !IH.
Qed.

Section Lists.
Context {SA : SbrkApi}.
Context (NONE : Z).
Hypothesis NONE_range : 0 < NONE < 2 ^ 64.

Implicit Types (H : gmap Z blk) (F : Z -> list Z) (i p q : Z).

Lemma flseg_app H i p l1 l2 q :
  flseg H i p (l1 ++ l2) q <-> flseg H i p l1 (hd q l2) /\ flseg H i (List.last l1 p) l2 q.
Proof.
  revert p. induction l1 as [|x l1 IH]; intros p; [simpl; tauto|].
  rewrite last_cons_default. simpl. rewrite IH.
  replace (hd q (l1 ++ l2)) with (hd (hd q l2) l1) by (by destruct l1). tauto.
Qed.

Lemma flseg_ext H H' i p l q :
  (forall x, x ∈ l -> H' !! x = H !! x) -> flseg H i p l q -> flseg H' i p l q.
Proof.
  revert p. induction l as [|x l IH]; intros p E; [done|]. intros [(b & Hb & ?) Hl].
  split; [exists b; rewrite E by set_solver; done|]. apply IH; [|done]. set_solver.
Qed.

Lemma flseg_other H i p l q x b : x ∉ l -> flseg H i p l q -> flseg (<[x := b]> H) i p l q.
Proof. intros Hx. apply flseg_ext. intros y Hy. rewrite lookup_insert_ne; [done|]. by intros ->. Qed.

Lemma flseg_start H i p p' y l q b :
  flseg H i p (y :: l) q -> y ∉ l -> H !! y = Some b ->
  flseg (<[y := up_pay (Pf p') b]> H) i p' (y :: l) q.
Proof.
  intros [(c & Hc & ? & ? & ?) Hl] Hy Hb. split; [|by apply flseg_other].
  rewrite Hc in Hb. injection Hb as ->. exists (up_pay (Pf p') b). by rewrite lookup_insert_eq.
Qed.

Lemma flseg_end H i p l x e e' b :
  flseg H i p (l ++ [x]) e -> NoDup (l ++ [x]) -> H !! x = Some b ->
  flseg (<[x := up_nf e' b]> H) i p (l ++ [x]) e'.
Proof.
  intros [Hl (Hx & _)]%flseg_app Hnd Hb. destruct Hx as (c & Hc & ? & ? & ?).
  apply NoDup_app in Hnd as (_ & Hnd & _). apply flseg_app. split.
  - apply flseg_other; [set_solver|done].
  - split; [|done]. rewrite Hc in Hb. injection Hb as ->. exists (up_nf e' b).
    by rewrite lookup_insert_eq.
Qed.

Lemma flseg_elem H i p l q x :
  flseg H i p l q -> x ∈ l ->
  exists b v, H !! x = Some b /\ b_pay b = Pf v /\ size2bucket (b_len b) = i /\
    (v = p \/ v ∈ l) /\ (b_nf b = q \/ b_nf b ∈ l).
Proof.
  revert p. induction l as [|y l IH]; intros p; [set_solver|].
  intros [(b & Hb & Hp & Hnf & Hi) Hl] [->|Hx]%elem_of_cons.
  - exists b, p. split_and!; try done; [by left|]. destruct l; simpl in *; set_solver.
  - destruct (IH y Hl Hx) as (c & v & ? & ? & ? & Hv & Hnf'). exists c, v. set_solver.
Qed.

(** ** One list of all *)

Definition fset F i (l : list Z) : Z -> list Z := fun j => if decide (j = i) then l else F j.

Lemma fset_eq F i l : fset F i l i = l.
Proof. unfold fset. by rewrite decide_True. Qed.

Lemma fset_ne F i l j : j <> i -> fset F i l j = F j.
Proof. unfold fset. intros. by rewrite decide_False. Qed.

Lemma lists_elem H F i x :
  lists NONE H F -> x ∈ F i ->
  exists b v, H !! x = Some b /\ b_pay b = Pf v /\ size2bucket (b_len b) = i /\
    (v = NONE \/ v ∈ F i) /\ (b_nf b = NONE \/ b_nf b ∈ F i).
Proof. intros HL. apply flseg_elem, HL. Qed.

Lemma lists_other H F i j x : lists NONE H F -> x ∈ F i -> j <> i -> x ∉ F j.
Proof.
  intros HL Hi Hj Hj'. destruct (lists_elem _ _ _ _ HL Hi) as (b & ? & Hb & ? & ? & _).
  destruct (lists_elem _ _ _ _ HL Hj') as (b' & ? & Hb' & ? & ? & _). congruence.
Qed.

(** The list of one bucket changes. *)
Lemma lists_set H H' F i l :
  lists NONE H F -> (forall x j, j <> i -> x ∈ F j -> H' !! x = H !! x) ->
  flseg H' i NONE l NONE -> NoDup l ->
  (forall x b v, H' !! x = Some b -> b_pay b = Pf v -> x ∈ l \/ H !! x = Some b /\ x ∉ F i) ->
  lists NONE H' (fset F i l).
Proof.
  intros HL Hout Hl Hnd Hin. split.
  - intros j. destruct (decide (j = i)) as [->|Hj]; [by rewrite fset_eq|].
    rewrite fset_ne by done. apply (flseg_ext H); [|apply HL]. eauto.
  - intros j. destruct (decide (j = i)) as [->|Hj]; [by rewrite fset_eq|].
    rewrite fset_ne by done. apply HL.
  - intros x b v Hx Hv. destruct (Hin x b v Hx Hv) as [Hx'|[Hx' Hni]].
    + destruct (flseg_elem _ _ _ _ _ _ Hl Hx') as (b' & v' & Hb' & _ & Hi & _).
      rewrite Hx in Hb'. injection Hb' as <-. by rewrite Hi, fset_eq.
    + pose proof (ls_in _ _ _ HL x b v Hx' Hv) as Hin'.
      rewrite fset_ne; [done|]. intros E. by rewrite E in Hin'.
Qed.

(** Only the links of free lists differ. *)
Definition lkeq (b b' : blk) : Prop :=
  shape b = shape b' /\
  match b_pay b, b_pay b' with Pf _, Pf _ => True | _, _ => b = b' end.

Definition lk_same H H' (a : Z) : Prop :=
  forall x, x <> a -> option_Forall2 lkeq (H !! x) (H' !! x).

Lemma lkeq_refl b : lkeq b b.
Proof. split; [done|]. by destruct (b_pay b). Qed.

Lemma lkeq_opt_refl (o : option blk) : option_Forall2 lkeq o o.
Proof. destruct o; constructor. apply lkeq_refl. Qed.

(** ** extractfree *)

Lemma alter_as_insert (f : blk -> blk) x H b : H !! x = Some b -> alter f x H = <[x := f b]> H.
Proof.
  intros Hx. apply map_eq. intros z. rewrite lookup_alter, lookup_insert.
  case_decide; [subst; by rewrite Hx|done].
Qed.

(** The neighbours of a removed element are linked to each other. *)
Definition relink H (l1 l2 : list Z) : gmap Z blk :=
  let H1 := match l2 with (y :: _)%list => alter (up_pay (Pf (List.last l1 NONE))) y H | [] => H end in
  match last l1 with Some x => alter (up_nf (hd NONE l2)) x H1 | None => H1 end.

Lemma relink_seg H i l1 a l2 :
  flseg H i NONE (l1 ++ a :: l2) NONE -> NoDup (l1 ++ a :: l2) ->
  flseg (relink H l1 l2) i NONE (l1 ++ l2) NONE.
Proof.
  intros [Hl1 [_ Hl2]]%flseg_app Hnd. simpl in Hl1. apply NoDup_app in Hnd as (Hn1 & Hn2 & Hn3).
  apply NoDup_cons in Hn3 as [Ha Hn3]. unfold relink.
  assert (S2 : forall y l2', l2 = y :: l2' -> exists c,
    H !! y = Some c /\ alter (up_pay (Pf (List.last l1 NONE))) y H =
      <[y := up_pay (Pf (List.last l1 NONE)) c]> H).
  { intros y l2' ->. destruct Hl2 as [(c & Hc & _) _]. exists c. split; [done|].
    by apply alter_as_insert. }
  set (H1 := match l2 with y :: _ => _ | [] => H end).
  assert (K2 : flseg H1 i (List.last l1 NONE) l2 NONE).
  { unfold H1. destruct l2 as [|y l2]; [done|]. destruct (S2 y l2 eq_refl) as (c & Hc & ->).
    apply (flseg_start _ _ a); [done|apply NoDup_cons in Hn3; tauto|done]. }
  assert (K1 : flseg H1 i NONE l1 a).
  { unfold H1. destruct l2 as [|y l2]; [done|]. destruct (S2 y l2 eq_refl) as (c & Hc & ->).
    apply flseg_other; [|done]. intros Hy. apply (Hn2 y Hy). set_solver. }
  destruct l1 as [|x l1 _] using rev_ind; [done|]. rewrite last_snoc.
  assert (Hx : exists e, H1 !! x = Some e).
  { apply flseg_app in K1 as [_ [(e & He & _) _]]. eauto. }
  destruct Hx as [e He]. rewrite (alter_as_insert _ _ _ _ He). apply flseg_app. split.
  - by eapply flseg_end.
  - apply flseg_other; [|done]. intros Hx. apply (Hn2 x); set_solver.
Qed.

Lemma relink_lk H l1 l2 z :
  Forall (fun x => exists b v, H !! x = Some b /\ b_pay b = Pf v) (l1 ++ l2) ->
  option_Forall2 lkeq (H !! z) (relink H l1 l2 !! z).
Proof.
  intros [Hl1 Hl2]%Forall_app. unfold relink.
  assert (E : option_Forall2 lkeq (H !! z)
    (match l2 with y :: _ => alter (up_pay (Pf (List.last l1 NONE))) y H | [] => H end !! z)).
  { destruct l2 as [|y l2]; [apply lkeq_opt_refl|]. apply Forall_inv in Hl2 as (c & v & Hc & Hv).
    rewrite lookup_alter. case_decide; [subst z|apply lkeq_opt_refl]. rewrite Hc.
    constructor. split; [done|]. by rewrite Hv. }
  destruct (last l1) as [x|] eqn:El; [|done]. rewrite lookup_alter.
  case_decide; [subst z|done]. apply last_Some_elem_of in El.
  apply list_elem_of_lookup_1 in El as [k Hk].
  destruct (Forall_lookup_1 _ _ _ _ Hl1 Hk) as (b & v & Hb & Hv).
  rewrite Hb in E |- *. inversion E as [? b' [Es Ep] Eq|]; subst. constructor. split; [done|].
  rewrite Hv in Ep |- *. fields. by destruct (b_pay b') eqn:E'; [congruence| |congruence].
Qed.

Lemma relink_out H l1 l2 z : z ∉ l1 -> z ∉ l2 -> relink H l1 l2 !! z = H !! z.
Proof.
  intros Hz1 Hz2. unfold relink.
  assert (E : match l2 with y :: _ => alter (up_pay (Pf (List.last l1 NONE))) y H | [] => H end !! z =
    H !! z).
  { destruct l2 as [|y l2]; [done|]. apply lookup_alter_ne. set_solver. }
  destruct (last l1) as [x|] eqn:El; [|done]. rewrite lookup_alter_ne; [done|].
  intros ->. by apply last_Some_elem_of in El.
Qed.

(** A free block off its list. *)
Definition unlisted H (l1 : list Z) (a : Z) (l2 : list Z) (b : blk) : gmap Z blk :=
  <[a := up_nf 0 (up_pay Junk b)]> (relink H l1 l2).

Lemma unlisted_lists H F l1 a l2 b i :
  lists NONE H F -> H !! a = Some b -> F i = l1 ++ a :: l2 ->
  lists NONE (unlisted H l1 a l2 b) (fset F i (l1 ++ l2)).
Proof.
  intros HL Ha HF. pose proof (ls_nd _ _ _ HL i) as Hnd. pose proof (ls_seg _ _ _ HL i) as Hseg.
  rewrite HF in Hnd, Hseg. pose proof Hnd as Hnd'. apply NoDup_app in Hnd' as (? & Hd & Hn).
  apply NoDup_cons in Hn as [Hn ?].
  assert (Ha1 : a ∉ l1) by (intros Hx; apply (Hd a Hx); set_solver).
  assert (Hout : forall x, x ∉ F i -> unlisted H l1 a l2 b !! x = H !! x).
  { intros x Hx. rewrite HF in Hx. unfold unlisted. rewrite lookup_insert_ne by set_solver.
    apply relink_out; set_solver. }
  apply lists_set with H; [done|..].
  - intros x j Hj Hx. apply Hout. intros Hx'. by apply (lists_other _ _ _ j x HL Hx').
  - apply flseg_other; [set_solver|]. by apply (relink_seg _ _ _ a).
  - apply NoDup_app. split_and!; [done| |done]. intros x Hx Hx'. apply (Hd x Hx). set_solver.
  - intros x c v. destruct (decide (x ∈ F i)) as [Hx|Hx].
    + unfold unlisted. rewrite lookup_insert. case_decide; [by intros [= <-]|].
      left. rewrite HF in Hx. set_solver.
    + rewrite Hout by done. tauto.
Qed.

Lemma unlisted_same H F l1 a l2 b i :
  lists NONE H F -> F i = l1 ++ a :: l2 -> lk_same H (unlisted H l1 a l2 b) a.
Proof.
  intros HL HF x Hx. unfold unlisted. rewrite lookup_insert_ne by done. apply relink_lk.
  apply Forall_lookup. intros k z Hz. apply list_elem_of_lookup_2 in Hz.
  assert (Hz' : z ∈ F i) by (rewrite HF; set_solver).
  destruct (lists_elem _ _ _ _ HL Hz') as (c & v & ? & ? & _). eauto.
Qed.

(** Where a free block is on its list, and the values of its links *)
Lemma lists_split H F a b v :
  lists NONE H F -> H !! a = Some b -> b_pay b = Pf v ->
  exists l1 l2, F (size2bucket (b_len b)) = l1 ++ a :: l2 /\
    v = List.last l1 NONE /\ b_nf b = hd NONE l2 /\
    (a ∉ l1) /\ (a ∉ l2) /\ (forall x, x ∈ l1 -> x ∉ l2) /\
    (forall x, x ∈ l1 ++ l2 -> exists c w, H !! x = Some c /\ b_pay c = Pf w).
Proof.
  intros HL Ha Hv. pose proof (ls_in _ _ _ HL a b v Ha Hv) as Hin.
  set (i := size2bucket (b_len b)) in *. apply list_elem_of_split in Hin as (l1 & l2 & HF).
  exists l1, l2. pose proof (ls_nd _ _ _ HL i) as Hnd. pose proof (ls_seg _ _ _ HL i) as Hseg.
  rewrite HF in Hnd, Hseg. apply NoDup_app in Hnd as (? & Hd & Hn).
  apply NoDup_cons in Hn as [Hn ?]. apply flseg_app in Hseg as [_ [(c & Hc & Hp & Hnf & _) _]].
  rewrite Ha in Hc. injection Hc as <-. split_and!; try done; try congruence.
  - intros Hx. apply (Hd a Hx). set_solver.
  - intros x Hx Hx'. apply (Hd x Hx). set_solver.
  - intros x Hx. assert (Hx' : x ∈ F i) by (rewrite HF; set_solver).
    destruct (lists_elem _ _ _ _ HL Hx') as (c & w & ? & ? & _). eauto.
Qed.

(** The block's last view is that of a block at hand. *)
Lemma SR_off s H H' F F' last o a b :
  SR NONE s H F last o -> H !! a = Some b -> <[a := up_pay Junk b]> H = H' ->
  (forall i, hd 0 (F' i) = hd 0 (F i)) -> SR NONE s H' F' last o.
Proof.
  intros Hs Ha <- HF. eapply SR_heads; [|done]. eapply SR_view; [done|].
  by apply rep_junk; [apply Hs|].
Qed.

Lemma SR_eq s H H' F last o : SR NONE s H F last o -> H = H' -> SR NONE s H' F last o.
Proof. by intros ? <-. Qed.

Lemma extractfree_exec s H F last o a b v l1 l2 :
  SR NONE s H F last o -> H !! a = Some b -> b_pay b = Pf v -> b_sz b = b_len b ->
  F (size2bucket (b_len b)) = l1 ++ a :: l2 -> v = List.last l1 NONE -> b_nf b = hd NONE l2 ->
  a ∉ l1 -> a ∉ l2 -> (forall x, x ∈ l1 -> x ∉ l2) ->
  (forall x, x ∈ l1 ++ l2 -> exists c w, H !! x = Some c /\ b_pay c = Pf w) ->
  wp (extractfree NONE a) (fun _ s' =>
    SR NONE s' (unlisted H l1 a l2 b) (fset F (size2bucket (b_len b)) (l1 ++ l2)) last o) s.
Proof.
  intros Hs Ha Hv Hsz HF -> Hnf Ha1 Ha2 Hd Hel. unfold extractfree.
  pose proof (SR_addr _ _ _ _ _ _ Hs a b Ha) as Har.
  pose proof (SR_fields _ _ _ _ _ _ Hs a b Ha) as (? & ? & ? & ?).
  assert (Hb : 1 <= size2bucket (b_len b) < 64).
  { pose proof (size2bucket_range (b_len b)). lia. }
  pose proof (ba_pay _ _ _ (SR_blk _ _ _ _ _ _ Hs a b Ha)) as Hpay. rewrite Hv in Hpay.
  destruct Hpay as [Hlen [_ Hvr]]. change (256 ^ Z.of_nat 8) with (2 ^ 64) in Hvr.
  replace (a =? 0) with false by lia. go. rewrite Hsz. go.
  assert (Hx : forall x, x ∈ l1 ++ l2 -> exists c w, H !! x = Some c /\ b_pay c = Pf w /\
    40 <= b_len c /\ 0 < x < 2 ^ 64 /\ x <> NONE).
  { intros x Hx. destruct (Hel x Hx) as (c & w & Hc & Hw). exists c, w.
    pose proof (ba_pay _ _ _ (SR_blk _ _ _ _ _ _ Hs x c Hc)) as Hp. rewrite Hw in Hp.
    split_and!; try done; [apply Hp|by eapply SR_addr|by eapply SR_addr|by eapply SR_not_none]. }
  clear Hel. set (i := size2bucket (b_len b)) in *. rewrite Hnf.
  unfold unlisted, relink. destruct l2 as [|y l2]; cbn [hd].
  - rewrite Z.eqb_refl. destruct l1 as [|x l1 _] using rev_ind.
    + simpl List.last in *. go. go. rewrite Z.eqb_refl. go. go. rewrite Z.eqb_refl. go. go.
      rewrite Z.eqb_refl. apply nwp_bind.
      eapply (wp_set_hdr _ _ _ _ _ _ ltac:(eassumption) i 0 (fset F i []));
        [done|by rewrite fset_eq|intros; by rewrite fset_ne|]. intros s' Hs'. go. go.
      eapply SR_off; [eassumption|hl| |done]. heap_eq.
    + destruct (Hx x) as (c & w & Hc & Hw & Hcl & Hxr & Hxn); [set_solver|].
      assert (x <> a) by set_solver.
      rewrite List.last_last in *. rewrite last_snoc. go. go.
      replace (NONE =? x) with false by lia. go. go. rewrite Z.eqb_refl. go. go.
      replace (x =? 0) with false by lia. go. go. go.
      eapply SR_off; [eassumption|hl| |].
      * heap_eq.
      * intros j. unfold fset. case_decide; [|done]. subst j. rewrite HF, app_nil_r. by destruct l1.
  - destruct (Hx y) as (c & w & Hc & Hw & Hcl & Hxr & Hxn); [set_solver|].
    assert (y <> a) by set_solver. replace (NONE =? y) with false by lia. go.
    destruct l1 as [|x l1 _] using rev_ind.
    + simpl List.last in *. change (list.last []) with (@None Z). go. rewrite Z.eqb_refl. go. go. rewrite Hnf. cbn [hd].
      replace (y =? 0) with false by lia. go. go. rewrite Z.eqb_refl. 
      apply nwp_bind.
      eapply (wp_set_hdr _ _ _ _ _ _ ltac:(eassumption) i y (fset F i (y :: l2)));
        [done|by rewrite fset_eq|intros; by rewrite fset_ne|]. intros s' Hs'. go. go.
      eapply SR_off; [eassumption|hl| |done]. heap_eq.
    + destruct (Hx x) as (e & w' & He & Hw' & Hel & Hyr & Hyn); [set_solver|].
      assert (x <> a) by set_solver. assert (x <> y) by set_solver.
      rewrite List.last_last in *. rewrite last_snoc. go.
      replace (NONE =? x) with false by lia. go. go. rewrite Hnf. cbn [hd].
      replace (y =? 0) with false by lia. go. go. 
      replace (x =? 0) with false by lia. go. go. go.
      eapply SR_off; [eassumption|hl| |].
      * heap_eq.
      * intros j. unfold fset. case_decide; [|done]. subst j. rewrite HF. by destruct l1.
Qed.

Lemma extractfree_spec s H F last o a b v :
  SR NONE s H F last o -> lists NONE H F -> H !! a = Some b -> b_pay b = Pf v ->
  b_sz b = b_len b ->
  wp (extractfree NONE a) (fun _ s' => exists H' F',
    SR NONE s' H' F' last o /\ lists NONE H' F' /\
    H' !! a = Some (up_nf 0 (up_pay Junk b)) /\ lk_same H H' a) s.
Proof.
  intros Hs HL Ha Hv Hsz. destruct (lists_split _ _ _ _ _ HL Ha Hv)
    as (l1 & l2 & HF & E1 & E2 & Ha1 & Ha2 & Hd & Hel).
  eapply wp_mono; [by eapply extractfree_exec|]. intros [] s' Hs'.
  exists (unlisted H l1 a l2 b), (fset F (size2bucket (b_len b)) (l1 ++ l2)).
  split_and!; [done|by apply unlisted_lists|apply lookup_insert_eq|by eapply unlisted_same].
Qed.

(** ** rmvfromfree *)

Lemma rmvfromfree_spec trapped s H F last o i a l :
  SR NONE s H F last o -> lists NONE H F -> F i = a :: l ->
  (forall x b, H !! x = Some b -> b_sz b = b_len b) ->
  wp (rmvfromfree trapped NONE a) (fun _ s' => exists H' F' b v,
    SR NONE s' H' F' last o /\ lists NONE H' F' /\ H !! a = Some b /\ b_pay b = Pf v /\
    size2bucket (b_len b) = i /\
    H' !! a = Some (up_nf 0 (up_pay Junk b)) /\ lk_same H H' a) s.
Proof.
  intros Hs HL HF Hszs. destruct (lists_elem H F i a HL) as (b & v & Ha & Hv & Hi & _);
    [rewrite HF; set_solver|].
  pose proof (SR_addr _ _ _ _ _ _ Hs a b Ha) as Har.
  pose proof (SR_fields _ _ _ _ _ _ Hs a b Ha) as (? & ? & ? & ?).
  assert (Hb : 1 <= i < 64) by (pose proof (size2bucket_range (b_len b)); lia).
  pose proof (ls_nd _ _ _ HL i) as Hnd. pose proof (ls_seg _ _ _ HL i) as Hseg.
  rewrite HF in Hnd, Hseg. apply NoDup_cons in Hnd as [Hal _].
  destruct Hseg as [(b' & Hb' & Hp & Hnf & _) _]. rewrite Ha in Hb'. injection Hb' as <-.
  eapply wp_mono with (Q := fun _ s' => SR NONE s' (unlisted H [] a l b) (fset F i l) last o).
  2: { intros [] s' Hs'. exists (unlisted H [] a l b), (fset F i l), b, v.
       split_and!; try done; [by apply (unlisted_lists _ _ [])|apply lookup_insert_eq|].
       by eapply (unlisted_same _ _ []). }
  unfold rmvfromfree. replace (a =? 0) with false by lia. go. rewrite (Hszs _ _ Ha), Hi.
  apply nwp_bind. eapply wp_hdr; [eassumption|done|]. rewrite HF. cbn [hd].
  go. go. rewrite Hnf. unfold unlisted, relink. change (list.last []) with (@None Z). cbn iota.
  destruct l as [|y l]; cbn [hd].
  - rewrite Z.eqb_refl. apply nwp_bind.
    eapply (wp_set_hdr _ _ _ _ _ _ ltac:(eassumption) i 0 (fset F i []));
      [done|by rewrite fset_eq|intros; by rewrite fset_ne|]. intros s' Hs'. go.
    eapply SR_off; [eassumption|hl| |done]. heap_eq.
  - destruct (lists_elem H F i y HL) as (c & w & Hc & Hw & _); [rewrite HF; set_solver|].
    pose proof (SR_addr _ _ _ _ _ _ Hs y c Hc). pose proof (SR_not_none _ _ _ _ _ _ Hs y c Hc).
    pose proof (ba_pay _ _ _ (SR_blk _ _ _ _ _ _ Hs y c Hc)) as Hp'. rewrite Hw in Hp'.
    destruct Hp' as [Hyl _]. assert (y <> a) by set_solver.
    replace (NONE =? y) with false by lia. apply nwp_bind, nwp_bind.
    eapply (wp_set_hdr _ _ _ _ _ _ ltac:(eassumption) i y (fset F i (y :: l)));
      [done|by rewrite fset_eq|intros; by rewrite fset_ne|]. intros s' Hs'. go. go.
    eapply SR_off; [eassumption|hl| |done]. simpl List.last. heap_eq.
Qed.

(** ** Insertion at the head *)

Definition pushed H (l : list Z) (a : Z) (b : blk) : gmap Z blk :=
  <[a := up_nf (hd NONE l) (up_pay (Pf NONE) b)]>
    (match l with (y :: _)%list => alter (up_pay (Pf a)) y H | [] => H end).

Lemma not_listed H F i a b :
  lists NONE H F -> H !! a = Some b -> is_free b = false -> a ∉ F i.
Proof.
  intros HL Ha Hf Hin. destruct (lists_elem _ _ _ _ HL Hin) as (c & v & Hc & Hv & _).
  rewrite Ha in Hc. injection Hc as <-. unfold is_free in Hf. by rewrite Hv in Hf.
Qed.

Lemma pushed_lists H F a b i :
  lists NONE H F -> H !! a = Some b -> is_free b = false -> size2bucket (b_len b) = i ->
  lists NONE (pushed H (F i) a b) (fset F i (a :: F i)).
Proof.
  intros HL Ha Hf Hi. assert (Hni : forall j, a ∉ F j) by (intros; by eapply not_listed).
  assert (Hout : forall x, x <> a -> x ∉ F i -> pushed H (F i) a b !! x = H !! x).
  { intros x Hx Hxi. unfold pushed. rewrite lookup_insert_ne by done.
    destruct (F i) as [|y l]; [done|]. rewrite lookup_alter_ne; [done|]. set_solver. }
  apply lists_set with H; [done|..].
  - intros x j Hj Hx. apply Hout; [intros ->; by apply (Hni j)|].
    intros Hx'. by apply (lists_other _ _ _ j x HL Hx').
  - unfold pushed. pose proof (ls_seg _ _ _ HL i) as Hseg. pose proof (ls_nd _ _ _ HL i) as Hnd.
    specialize (Hni i). split.
    + exists (up_nf (hd NONE (F i)) (up_pay (Pf NONE) b)). by rewrite lookup_insert_eq.
    + apply flseg_other; [done|]. destruct (F i) as [|y l]; [done|].
      destruct Hseg as [(c & Hc & Hp & Hnf & Hci) Hl]. rewrite (alter_as_insert _ _ _ _ Hc).
      apply NoDup_cons in Hnd as [Hnd _].
      apply (flseg_start _ _ NONE); [|done|done]. split; [by exists c|done].
  - apply NoDup_cons. split; [apply Hni|apply HL].
  - intros x c v Hx Hv. destruct (decide (x = a)) as [->|Hxa]; [set_solver|].
    destruct (decide (x ∈ F i)); [set_solver|]. rewrite Hout in Hx by done. by right.
Qed.

Lemma pushed_same H F a b i :
  lists NONE H F -> lk_same H (pushed H (F i) a b) a.
Proof.
  intros HL x Hx. unfold pushed. rewrite lookup_insert_ne by done.
  destruct (F i) as [|y l] eqn:HF; [apply lkeq_opt_refl|]. rewrite lookup_alter.
  case_decide; [subst x|apply lkeq_opt_refl].
  destruct (lists_elem H F i y HL) as (c & v & Hc & Hv & _); [rewrite HF; set_solver|].
  rewrite Hc. constructor. split; [done|]. by rewrite Hv.
Qed.

Lemma push_spec s H F last o a b i :
  SR NONE s H F last o -> lists NONE H F -> H !! a = Some b -> is_free b = false ->
  40 <= b_len b -> size2bucket (b_len b) = i ->
  wp (push NONE a i) (fun _ s' => exists H' F',
    SR NONE s' H' F' last o /\ lists NONE H' F' /\ lk_same H H' a /\
    exists nf v, H' !! a = Some (up_nf nf (up_pay (Pf v) b))) s.
Proof.
  intros Hs HL Ha Hf Hl Hi. pose proof (SR_addr _ _ _ _ _ _ Hs a b Ha).
  pose proof (SR_fields _ _ _ _ _ _ Hs a b Ha) as (? & ? & ? & ?).
  assert (Hb : 1 <= i < 64) by (pose proof (size2bucket_range (b_len b)); lia).
  eapply wp_mono with (Q := fun _ s' =>
    SR NONE s' (pushed H (F i) a b) (fset F i (a :: F i)) last o).
  2: { intros [] s' Hs'. eexists _, _. split_and!; [done|by apply pushed_lists|by apply pushed_same|].
       eexists _, _. apply lookup_insert_eq. }
  unfold push, pushed. apply nwp_bind. eapply wp_hdr; [eassumption|done|].
  destruct (F i) as [|y l] eqn:HF; cbn [hd].
  - rewrite Z.eqb_refl. go. go. apply nwp_bind. eapply wp_hdr; [eassumption|done|]. rewrite HF.
    cbn [hd]. rewrite Z.eqb_refl. go.
    eapply (wp_set_hdr _ _ _ _ _ _ ltac:(eassumption) i a (fset F i [a]));
      [done|by rewrite fset_eq|intros; by rewrite fset_ne|]. intros s' Hs'.
    eapply SR_eq; [eassumption|]. heap_eq.
  - assert (Hy : y ∈ F i) by (rewrite HF; set_solver).
    assert (y <> a) by (intros ->; by apply (not_listed _ _ _ _ _ HL Ha Hf Hy)).
    destruct (lists_elem _ _ _ _ HL Hy) as (c & w & Hc & Hw & _).
    pose proof (SR_addr _ _ _ _ _ _ Hs y c Hc).
    pose proof (ba_pay _ _ _ (SR_blk _ _ _ _ _ _ Hs y c Hc)) as Hp'. rewrite Hw in Hp'.
    destruct Hp' as [Hyl _]. replace (y =? 0) with false by lia. apply nwp_bind. go. go. go.
    apply nwp_bind. eapply wp_hdr; [eassumption|done|]. rewrite HF.
    cbn [hd]. replace (y =? 0) with false by lia. go.
    eapply (wp_set_hdr _ _ _ _ _ _ ltac:(eassumption) i a (fset F i (a :: y :: l)));
      [done|by rewrite fset_eq|intros; by rewrite fset_ne|]. intros s' Hs'.
    eapply SR_eq; [eassumption|]. heap_eq.
Qed.

(** ** ISFREE *)

Lemma ISFREE_spec s H F last o a b (Q : bool -> nmst -> Prop) :
  SR NONE s H F last o -> lists NONE H F -> H !! a = Some b ->
  (is_free b = false -> b_nf b = 0) -> Q (is_free b) s -> wp (ISFREE NONE a) Q s.
Proof.
  intros Hs HL Ha Hnf HQ. pose proof (SR_addr _ _ _ _ _ _ Hs a b Ha).
  pose proof (SR_not_none _ _ _ _ _ _ Hs a b Ha). unfold ISFREE.
  replace (a =? 0) with false by lia. replace (a =? NONE) with false by lia. go.
  unfold is_free in *. destruct (b_pay b) as [d|v|] eqn:Hp;
    [rewrite Hnf, Z.eqb_refl by done; by go| |rewrite Hnf, Z.eqb_refl by done; by go].
  pose proof (ls_in _ _ _ HL a b v Ha Hp) as Hin.
  destruct (lists_elem _ _ _ _ HL Hin) as (b' & v' & Hb' & Hv' & _ & Hv & Hn).
  rewrite Ha in Hb'. injection Hb' as <-. rewrite Hp in Hv'. injection Hv' as <-.
  assert (Hpos : forall x, x = NONE \/ x ∈ F (size2bucket (b_len b)) -> x <> 0).
  { intros x [->|Hx]; [lia|]. destruct (lists_elem _ _ _ _ HL Hx) as (c & ? & Hc & _).
    pose proof (SR_addr _ _ _ _ _ _ Hs x c Hc). lia. }
  apply Hpos in Hv, Hn. replace (b_nf b =? 0) with false by lia. go.
  replace (v =? 0) with false by lia. go. done.
Qed.

Lemma ISFREE_0 s (Q : bool -> nmst -> Prop) : Q false s -> wp (ISFREE NONE 0) Q s.
Proof. done. Qed.

End Lists.
