(* ===== verification/NmOps.v ===== *)
(** * The allocator: splitting and combining blocks

    What __nmalloc_split, combinehi, combinelo, mv2freelist and dofree do to the heap:
    each keeps the invariant and the data of every block of the client. *)

From stdpp Require Import base gmap list numbers sets.
From Stdlib Require Import ZArith Lia.
From S2P Require Import Prelude MemFuns NMalloc NmRep NmInv NmLists.

Open Scope Z_scope.

Lemma only_last_nz last : last <> 0 -> only_last last = {[last]}.
Proof. intros. unfold only_last. by rewrite decide_False. Qed.

Lemma only_last_sub last x : x ∈ only_last last -> x = last /\ last <> 0.
Proof. unfold only_last. case_decide; set_solver. Qed.

Lemma is_free_junk b : b_pay b = Junk -> is_free b = false.
Proof. unfold is_free. by intros ->. Qed.

Section Ops.
Context {SA : SbrkApi}.
Context (trapped : bool) (NONE : Z).
Hypothesis NONE_range : 0 < NONE < 2 ^ 64.

Abbreviation SR := (SR NONE).
Abbreviation lists := (lists NONE).
Abbreviation wf := (wf NONE).
Implicit Types (H : gmap Z blk) (F : Z -> list Z) (J : gset Z).

(** ** The data of the client's blocks *)

Definition dat H (x : Z) : option (list Z) :=
  match H !! x with
  | Some b => match b_pay b with Data d => Some d | _ => None end
  | None => None
  end.

Lemma dat_Some H x d : dat H x = Some d <-> exists b, H !! x = Some b /\ b_pay b = Data d.
Proof.
  unfold dat. destruct (H !! x) as [b|].
  - split; [|by intros (? & [= <-] & ->)]. destruct (b_pay b) eqn:E; intros [= <-]. eauto.
  - split; [done|]. by intros (? & ? & _).
Qed.

Lemma dat_insert H x y b :
  dat (<[y := b]> H) x =
  if decide (y = x) then match b_pay b with Data d => Some d | _ => None end else dat H x.
Proof. unfold dat. rewrite lookup_insert. by case_decide. Qed.

(** ** Changes that keep parts of the invariant *)

Lemma links_ext H H' : (forall x, shape <$> H' !! x = shape <$> H !! x) -> links H -> links H'.
Proof.
  intros E [Ls Ln Lp].
  assert (B : forall x b', H' !! x = Some b' -> exists b, H !! x = Some b /\ shape b' = shape b).
  { intros x b' Hx. specialize (E x). rewrite Hx in E. destruct (H !! x) as [b|]; [|done].
    apply (inj Some) in E. eauto. }
  assert (B' : forall x b, H !! x = Some b -> exists b', H' !! x = Some b' /\ shape b' = shape b).
  { intros x b Hx. specialize (E x). rewrite Hx in E. destruct (H' !! x) as [b'|]; [|done].
    apply (inj Some) in E. eauto. }
  split; intros a b' Hb'; destruct (B _ _ Hb') as (b & Hb & [= E1 E2 E3 E4]); rewrite ?E1, ?E2, ?E3, ?E4.
  - eauto.
  - destruct (Ln _ _ Hb) as [?|(? & n & Hn & ?)]; [by left|right; split; [done|]].
    destruct (B' _ _ Hn) as (n' & ? & [= ? ? ? ?]). exists n'. split; [done|congruence].
  - destruct (Lp _ _ Hb) as [?|(n & Hn & ?)]; [by left|right].
    destruct (B' _ _ Hn) as (n' & ? & [= ? ? ? ?]). exists n'. split; [done|congruence].
Qed.

(** What the free lists see of a block *)
Definition fview (b : blk) : option (Z * Z * Z) :=
  match b_pay b with Pf v => Some (v, b_nf b, b_len b) | _ => None end.

Lemma lists_ext H H' F :
  (forall x, (H' !! x ≫= fview) = (H !! x ≫= fview)) -> lists H F -> lists H' F.
Proof.
  intros E [Hs Hn Hi].
  assert (B : forall x b v, H !! x = Some b -> b_pay b = Pf v -> exists b', H' !! x = Some b' /\
    b_pay b' = Pf v /\ b_nf b' = b_nf b /\ b_len b' = b_len b).
  { intros x b v Hx Hv. specialize (E x). rewrite Hx in E. simpl in E. unfold fview in E.
    rewrite Hv in E. destruct (H' !! x) as [b'|]; [|done]. simpl in E.
    destruct (b_pay b') eqn:E'; simplify_eq. eauto. }
  split; [|done|].
  - intros i. specialize (Hs i). revert Hs. generalize NONE at 1 3.
    induction (F i) as [|x l IH]; intros p; [done|]. intros [(b & Hb & Hp & Hnf & Hbi) Hl].
    split; [|auto]. destruct (B _ _ _ Hb Hp) as (b' & Hb' & ? & ? & Hl'). exists b'.
    by rewrite Hl'; split_and!; try congruence.
  - intros a b v Ha Hv. specialize (E a). rewrite Ha in E. simpl in E. unfold fview in E.
    rewrite Hv in E. destruct (H !! a) as [b'|] eqn:Hb'; [|done]. simpl in E.
    destruct (b_pay b') eqn:E'; simplify_eq. replace (b_len b) with (b_len b') by congruence. eauto.
Qed.

(** A block goes off or on a list. *)
Lemma lk_shape H H' a b b' x :
  lk_same H H' a -> H !! a = Some b -> H' !! a = Some b' -> shape b = shape b' ->
  shape <$> H' !! x = shape <$> H !! x.
Proof.
  intros E Ha Ha' Es. destruct (decide (x = a)) as [->|Hx].
  - rewrite Ha, Ha'. simpl. by rewrite Es.
  - destruct (E x Hx) as [c c' [E1 _]|]; [|done]. simpl. by rewrite E1.
Qed.

Lemma lk_inv H H' a x b' :
  lk_same H H' a -> x <> a -> H' !! x = Some b' ->
  exists b, H !! x = Some b /\ shape b = shape b' /\ is_free b = is_free b' /\
    (is_free b = false -> b = b').
Proof.
  intros E Hx Hb'. specialize (E x Hx). rewrite Hb' in E. inversion E as [c c' [E1 E2] Eq|]; subst.
  exists c. split_and!; [done|done| |].
  - unfold is_free. destruct (b_pay c) eqn:?, (b_pay b') eqn:?; congruence.
  - unfold is_free. intros Hf. by destruct (b_pay c); [|done|].
Qed.

Lemma lk_inv' H H' a x b :
  lk_same H H' a -> x <> a -> H !! x = Some b ->
  exists b', H' !! x = Some b' /\ shape b = shape b' /\ is_free b = is_free b' /\
    (is_free b = false -> b = b').
Proof.
  intros E Hx Hb. pose proof (E x Hx) as Ex. rewrite Hb in Ex. inversion Ex as [c c' _ Eq1 Eq2|]; subst.
  symmetry in Eq2. destruct (lk_inv _ _ _ _ _ E Hx Eq2) as (c2 & Hc2 & ?). exists c'.
  rewrite Hb in Hc2. injection Hc2 as <-. done.
Qed.

Lemma lk_dat H H' a b b' x :
  lk_same H H' a -> H !! a = Some b -> H' !! a = Some b' ->
  match b_pay b, b_pay b' with Data _, _ | _, Data _ => False | _, _ => True end ->
  dat H' x = dat H x.
Proof.
  intros E Ha Ha' Hp. unfold dat. destruct (decide (x = a)) as [->|Hx].
  - rewrite Ha, Ha'. by destruct (b_pay b), (b_pay b').
  - destruct (E x Hx) as [c c' [_ Ec]|]; [|done].
    by destruct (b_pay c) eqn:?, (b_pay c') eqn:?; subst; try congruence.
Qed.

Lemma wf_off H F J last H' F' a b :
  wf H F J last -> H !! a = Some b -> is_free b = true ->
  H' !! a = Some (up_nf 0 (up_pay Junk b)) -> lists H' F' -> lk_same H H' a ->
  wf H' F' (J ∪ {[a]}) last.
Proof.
  intros [WL _ WK WC] Ha Hf Ha' HL' E. split; [|done|..].
  - apply (links_ext H); [|done]. intros x. by apply (lk_shape _ _ a b _ x E Ha Ha').
  - split.
    + intros x c d Hx Hd. destruct (decide (x = a)) as [->|Hxa]; [simplify_eq/=|].
      destruct (lk_inv _ _ _ _ _ E Hxa Hx) as (c0 & Hc0 & _ & Hfc & Heq).
      assert (c0 = c) as -> by (apply Heq; rewrite Hfc; unfold is_free; by rewrite Hd).
      by eapply WK.
    + intros x c Hx Hc. destruct (decide (x = a)) as [->|Hxa]; [set_solver|].
      destruct (lk_inv _ _ _ _ _ E Hxa Hx) as (c0 & Hc0 & _ & Hfc & Heq).
      assert (c0 = c) as -> by (apply Heq; rewrite Hfc; unfold is_free; by rewrite Hc).
      pose proof (k_junk _ _ WK x c Hc0 Hc). set_solver.
    + intros x Hx. destruct (decide (x = a)) as [->|Hxa]; [eauto|].
      destruct (k_J _ _ WK x) as (c & Hc & Hj); [set_solver|].
      destruct (lk_inv' _ _ _ _ _ E Hxa Hc) as (c' & Hc' & _ & _ & Heq).
      assert (c = c') as <- by (apply Heq; unfold is_free; by rewrite Hj). eauto.
  - intros x c Hx Hfx. destruct (decide (x = a)) as [->|Hxa]; [simplify_eq/=|].
    destruct (lk_inv _ _ _ _ _ E Hxa Hx) as (c0 & Hc0 & [= _ _ En _] & Hfc & _).
    rewrite <- Hfc in Hfx. destruct (WC _ _ Hc0 Hfx) as [W1 W2]. rewrite <- En. split; [|done].
    intros n Hn. destruct (decide (b_next c0 = a)) as [Hna|Hna]; [rewrite Hna in Hn; simplify_eq/=; done|].
    destruct (lk_inv _ _ _ _ _ E Hna Hn) as (n0 & Hn0 & _ & Hfn & _). rewrite <- Hfn. eauto.
Qed.

(** ** Two neighbours become one *)

Definition samekind (p q : payload) : Prop :=
  match p, q with Data _, Data _ | Junk, Junk => True | _, _ => False end.

Definition positive H : Prop := forall x b, H !! x = Some b -> 0 < x /\ 0 < b_len b.

Lemma SR_positive s H F last o : SR s H F last o -> positive H.
Proof.
  intros Hs x b Hx. pose proof (SR_addr _ _ _ _ _ _ Hs x b Hx).
  pose proof (SR_fields _ _ _ _ _ _ Hs x b Hx). lia.
Qed.

Lemma positive_insert H a b : positive H -> 0 < a -> 0 < b_len b -> positive (<[a := b]> H).
Proof. intros Hp Ha Hb x e. rewrite lookup_insert. case_decide; [intros [= <-]; by subst|apply Hp]. Qed.

Definition joined (b c : blk) (p : payload) : blk :=
  mk_blk (b_len b + b_len c) (b_prev b) (b_next c) (b_len b + b_len c) (b_nf b) p.

Definition merged H (a : Z) (b : blk) (n : Z) (c : blk) (p : payload) : gmap Z blk :=
  <[a := joined b c p]> (delete n (alter (up_prev a) (b_next c) H)).

Section Merge.
Context (H : gmap Z blk) (a : Z) (b : blk) (n : Z) (c : blk) (p : payload).
Hypothesis (Hpos : positive H) (Hl : links H) (Ha : H !! a = Some b) (Hn : H !! n = Some c)
  (Hab : b_next b = n).

Lemma merge_pos : 0 < a /\ 0 < b_len b /\ n = a + b_len b /\ 0 < b_len c /\ b_prev c = a /\
  (b_next c = 0 \/ b_next c = n + b_len c).
Proof.
  destruct (Hpos _ _ Ha), (Hpos _ _ Hn). 
  destruct (l_next _ Hl _ _ Ha) as [?|(E & c' & Hc' & ?)]; [lia|].
  rewrite Hab in *. rewrite Hn in Hc'. injection Hc' as <-.
  destruct (l_next _ Hl _ _ Hn) as [?|(? & _)]; tauto.
Qed.

Lemma lookup_merged x :
  merged H a b n c p !! x =
  if decide (x = a) then Some (joined b c p)
  else if decide (x = n) then None
  else if decide (x = b_next c) then up_prev a <$> H !! x else H !! x.
Proof.
  unfold merged. rewrite lookup_insert, lookup_delete, lookup_alter.
  repeat case_decide; try congruence; done.
Qed.

Lemma merged_other x e' :
  x <> a -> merged H a b n c p !! x = Some e' ->
  x <> n /\ exists e, H !! x = Some e /\ e' = (if decide (x = b_next c) then up_prev a e else e).
Proof.
  intros Hx. rewrite lookup_merged, decide_False by done. case_decide; [done|].
  case_decide; [|by eauto]. destruct (H !! x) eqn:E; [|done]. intros [= <-]. eauto.
Qed.

Lemma merged_lookup x e :
  x <> a -> x <> n -> H !! x = Some e ->
  merged H a b n c p !! x = Some (if decide (x = b_next c) then up_prev a e else e).
Proof.
  intros Hxa Hxn He. rewrite lookup_merged, !decide_False, He by done. by case_decide.
Qed.

Lemma links_merged : links (merged H a b n c p).
Proof.
  destruct merge_pos as (? & ? & En & ? & Ep & Enn).
  assert (Ea : merged H a b n c p !! a = Some (joined b c p))
    by (rewrite lookup_merged; by rewrite decide_True).
  split.
  - intros x e' He'. destruct (decide (x = a)) as [->|Hx]; [by simplify_eq|].
    destruct (merged_other _ _ Hx He') as (_ & e & He & ->); clear He'. pose proof (l_sz _ Hl _ _ He).
    by case_decide.
  - intros x e' He'. destruct (decide (x = a)) as [->|Hx].
    + rewrite Ea in He'. injection He' as <-. unfold joined; fields.
      destruct (l_next _ Hl _ _ Hn) as [?|(E & f & Hf & Hfp)]; [by left|right].
      split; [lia|]. rewrite E in *. eexists. split; [apply merged_lookup; [lia|lia|done]|].
      rewrite decide_True by done. done.
    + destruct (merged_other _ _ Hx He') as (Hxn & e & He & ->); clear He'.
      assert (b_next e <> n).
      { intros E. destruct (l_next _ Hl _ _ He) as [?|(_ & f & Hf & Hfp)]; [lia|].
        rewrite E, Hn in Hf. injection Hf as <-. congruence. }
      destruct (l_next _ Hl _ _ He) as [E|(E & f & Hf & Hfp)].
      { left. by case_decide. }
      right. replace (b_next (if decide _ then _ else _)) with (b_next e) by (by case_decide).
      replace (b_len (if decide _ then _ else _)) with (b_len e) by (by case_decide).
      split; [done|]. destruct (decide (b_next e = a)) as [Ena|Hna].
      * rewrite Ena. eexists. split; [exact Ea|]. rewrite Ena, Ha in Hf. by simplify_eq/=.
      * eexists. split; [by apply merged_lookup|]. case_decide; [|done].
        exfalso. destruct (Hpos _ _ He). destruct (l_next _ Hl _ _ Hn) as [?|(_ & g & Hg & Hgp)]; [lia|].
        congruence.
  - intros x e' He'. destruct (decide (x = a)) as [->|Hx].
    + rewrite Ea in He'. injection He' as <-. unfold joined; fields.
      destruct (l_prev _ Hl _ _ Ha) as [?|(f & Hf & Hfn)]; [by left|right].
      assert (b_prev b <> a) by (intros E; rewrite E, Ha in Hf; simplify_eq; lia).
      assert (b_prev b <> n).
      { intros E. rewrite E, Hn in Hf. simplify_eq. destruct Enn; lia. }
      eexists. split; [by apply merged_lookup|]. by case_decide.
    + destruct (merged_other _ _ Hx He') as (Hxn & e & He & ->); clear He'. case_decide as Hd.
      * right. subst x. fields. eexists. split; [exact Ea|]. done.
      * destruct (l_prev _ Hl _ _ He) as [?|(f & Hf & Hfn)]; [by left|right].
        assert (b_prev e <> n) by (intros E; rewrite E, Hn in Hf; simplify_eq; done).
        assert (b_prev e <> a) by (intros E; rewrite E, Ha in Hf; simplify_eq; congruence).
        eexists. split; [by apply merged_lookup|]. by case_decide.
Qed.

Lemma merged_wf F J last :
  wf H F J last -> samekind (b_pay b) p -> b_pay c = Junk ->
  wf (merged H a b n c p) F (J ∖ {[n]}) last.
Proof.
  intros [_ WL WK WC] Hk Hc. destruct merge_pos as (? & ? & En & ? & Ep & Enn).
  assert (Ea : merged H a b n c p !! a = Some (joined b c p))
    by (rewrite lookup_merged; by rewrite decide_True).
  assert (Hfb : forall e, is_free (up_prev a e) = is_free e) by done.
  split; [apply links_merged|..].
  - apply (lists_ext H); [|done]. intros x. rewrite lookup_merged. repeat case_decide.
    + subst x. rewrite Ha. simpl. unfold fview. simpl. by destruct (b_pay b), p.
    + subst x. rewrite Hn. simpl. unfold fview. by rewrite Hc.
    + by destruct (H !! x).
    + done.
  - split.
    + intros x e' d He' Hd. destruct (decide (x = a)) as [->|Hx].
      * rewrite Ea in He'. injection He' as <-. unfold joined in *; cbn [b_pay b_nf b_len] in *.
        subst p. destruct (b_pay b) as [d'| |] eqn:Eb; try done.
        destruct (k_data _ _ WK _ _ _ Ha Eb). lia.
      * destruct (merged_other _ _ Hx He') as (_ & e & He & ->); clear He'.
        assert (b_pay e = Data d) by (by case_decide).
        destruct (k_data _ _ WK _ _ _ He H3). by case_decide.
    + intros x e' He' Hj. destruct (decide (x = a)) as [->|Hx].
      * rewrite Ea in He'. injection He' as <-. unfold joined in *; cbn [b_pay b_nf b_len] in *.
        subst p. destruct (b_pay b) as [d'| |] eqn:Eb; try done.
        pose proof (k_junk _ _ WK _ _ Ha Eb). assert (a <> n) by lia. set_solver.
      * destruct (merged_other _ _ Hx He') as (Hxn & e & He & ->); clear He'.
        assert (b_pay e = Junk) as Hj' by (by case_decide).
        pose proof (k_junk _ _ WK _ _ He Hj'). set_solver.
    + intros x [Hx Hxn]%elem_of_difference. destruct (k_J _ _ WK x Hx) as (e & He & Hj).
      destruct (decide (x = a)) as [->|Hxa].
      * eexists. split; [exact Ea|]. rewrite Ha in He. injection He as <-. rewrite Hj in Hk.
        simpl. by destruct p.
      * eexists. split; [apply merged_lookup; [done|set_solver|done]|]. by case_decide.
  - intros x e' He' Hf. destruct (decide (x = a)) as [->|Hx].
    + rewrite Ea in He'. injection He' as <-. unfold is_free, joined in Hf. simpl in Hf.
      by destruct (b_pay b), p.
    + destruct (merged_other _ _ Hx He') as (Hxn & e & He & ->); clear He'.
      assert (Hfe : is_free e = true) by (by case_decide). destruct (WC _ _ He Hfe) as [W1 W2].
      replace (b_next (if decide _ then _ else _)) with (b_next e) by (by case_decide).
      split; [|done]. intros m Hm. destruct (decide (b_next e = a)) as [Ena|Hna].
      * rewrite Ena, Ea in Hm. injection Hm as <-. unfold is_free, joined. simpl.
        by destruct (b_pay b), p.
      * destruct (merged_other _ _ Hna Hm) as (_ & m0 & Hm0 & ->). specialize (W1 _ Hm0).
        by case_decide.
Qed.

Lemma merged_dat x : is_free c = false -> b_pay c = Junk -> x <> a -> dat (merged H a b n c p) x = dat H x.
Proof.
  intros Hf Hc Hx. unfold dat. rewrite lookup_merged, decide_False by done. case_decide.
  - subst x. rewrite Hn. by rewrite Hc.
  - case_decide; [|done]. by destruct (H !! x).
Qed.

End Merge.

(** What operations on [a] leave of the other blocks *)
Definition kept H H' (a : Z) : Prop := forall x e', x <> a -> H' !! x = Some e' ->
  exists e, H !! x = Some e /\ is_free e' = is_free e /\ b_len e' = b_len e /\
    b_next e' = b_next e /\ (is_free e = false -> b_nf e' = b_nf e /\ b_pay e' = b_pay e).

Lemma kept_lk H H' a : lk_same H H' a -> kept H H' a.
Proof.
  intros E x e' Hx He'. destruct (lk_inv _ _ _ _ _ E Hx He') as (e & He & [= ? ? ? ?] & Hf & Heq).
  exists e. split_and!; try done. intros Hfe. by rewrite Heq.
Qed.

Lemma kept_trans H H' H'' a : kept H H' a -> kept H' H'' a -> kept H H'' a.
Proof.
  intros K1 K2 x e'' Hx He''. destruct (K2 x e'' Hx He'') as (e' & He' & Hf' & ? & ? & Hp').
  destruct (K1 x e' Hx He') as (e & He & Hf & ? & ? & Hp). exists e.
  split_and!; try congruence. intros Hfe. destruct (Hp Hfe), (Hp' ltac:(congruence)).
  split; congruence.
Qed.

Lemma kept_merged H a b n c p : kept H (merged H a b n c p) a.
Proof.
  intros x e' Hx He'. destruct (merged_other _ _ _ _ _ _ x e' Hx He') as (_ & e & He & ->).
  exists e. by case_decide.
Qed.

Lemma kept_weaken H H' a n : kept H H' a -> H' !! a = None -> kept H H' n.
Proof.
  intros K Ha x e' Hx He'. destruct (decide (x = a)) as [->|Hxa]; [congruence|]. by apply K.
Qed.

(** The storage of a block that has taken in its neighbour *)
Definition grown (p : payload) (len : Z) (p' : payload) : Prop :=
  match p with
  | Data d => exists x, p' = Data (d ++ x) /\ Z.of_nat (length x) = len
  | _ => p' = Junk
  end.

(** The links are set and [n] is forgotten. *)
Lemma SR_merge s H F last o a b n c H' :
  SR s H' F last o -> positive H -> links H -> H !! a = Some b -> H !! n = Some c ->
  b_next b = n -> is_free b = false ->
  H' = <[a := up_sz (b_len b + b_len c) (up_next (b_next c) b)]>
         (alter (up_prev a) (b_next c) H) ->
  exists p', grown (b_pay b) (b_len c) p' /\ SR s (merged H a b n c p') F last o.
Proof.
  intros Hs Hpos Hl Ha Hn Hab Hf ->.
  destruct (merge_pos _ _ _ _ _ Hpos Hl Ha Hn Hab) as (? & ? & En & ? & Ep & Enn).
  set (b1 := up_sz (b_len b + b_len c) (up_next (b_next c) b)) in *.
  set (Hm := <[a := b1]> (alter (up_prev a) (b_next c) H)) in *.
  assert (Ha1 : Hm !! a = Some b1) by (unfold Hm; hl).
  assert (Hn1 : Hm !! n = Some c).
  { unfold Hm. rewrite lookup_insert_ne, lookup_alter_ne by lia. done. }
  assert (Em : forall p', merged H a b n c p' =
    <[a := up_len (b_len b1 + b_len c) (up_pay p' b1)]> (delete n Hm)).
  { intros p'. apply map_eq. intros z. unfold merged, Hm.
    rewrite !lookup_insert, !lookup_delete, lookup_insert. by repeat case_decide. }
  pose proof (sr_rep _ _ _ _ _ _ Hs) as Hr. unfold grown. destruct (b_pay b) as [d| |] eqn:Hp.
  - destruct (rep_merge_data NONE _ _ _ _ _ _ d Hr Ha1 Hn1 En Hp) as (x & Hx & Hr').
    exists (Data (d ++ x)). split; [by exists x|]. rewrite Em. eapply SR_view; [done|done].
  - unfold is_free in Hf. by rewrite Hp in Hf.
  - exists Junk. split; [done|]. rewrite Em. eapply SR_view; [done|].
    replace (up_pay Junk b1) with b1 by (unfold b1, up_sz, up_next, up_pay; simpl; by rewrite Hp).
    by apply rep_merge.
Qed.

(** A free block is taken off its list. *)
Lemma extractfree_wf s H F J last o n c :
  SR s H F last o -> wf H F J last -> H !! n = Some c -> is_free c = true ->
  wp (extractfree NONE n) (fun _ s' => exists H' F',
    SR s' H' F' last o /\ wf H' F' (J ∪ {[n]}) last /\
    H' !! n = Some (up_nf 0 (up_pay Junk c)) /\ kept H H' n /\
    (forall x b, x <> n -> H !! x = Some b -> is_free b = false -> H' !! x = Some b) /\
    (forall x, dat H' x = dat H x)) s.
Proof.
  intros Hs Hw Hn Hf. assert (exists v, b_pay c = Pf v) as [v Hv].
  { unfold is_free in Hf. destruct (b_pay c); naive_solver. }
  eapply wp_mono; [apply (extractfree_spec NONE NONE_range _ _ _ _ _ _ _ _ Hs (wf_lists _ _ _ _ _ Hw) Hn Hv)|].
  { apply (l_sz _ (wf_links _ _ _ _ _ Hw) _ _ Hn). }
  intros [] s' (H' & F' & Hs' & HL' & Hn' & E). exists H', F'. split_and!; try done.
  - by eapply wf_off.
  - by apply kept_lk.
  - intros x b Hx Hb Hfb. destruct (lk_inv' _ _ _ _ _ E Hx Hb) as (b' & Hb' & _ & _ & Heq).
    by rewrite <- Heq in Hb'.
  - intros x. eapply lk_dat; try done. simpl. by rewrite Hv.
Qed.

(** [n] is made a block of its own, free or [lastsbrk] before. *)
Lemma detach s H F J last o a b n c :
  SR s H F last o -> wf H F J last -> H !! a = Some b -> is_free b = false ->
  a <> n -> H !! n = Some c ->
  is_free c = true /\ n <> last \/ n = last /\ b_pay c = Junk ->
  wp (if n =? last then mret tt else extractfree NONE n) (fun _ s' => exists H' F' c',
    SR s' H' F' last o /\ wf H' F' (J ∪ {[n]}) last /\ H' !! a = Some b /\
    H' !! n = Some c' /\ shape c' = shape c /\ b_pay c' = Junk /\ kept H H' n /\
    (forall x, dat H' x = dat H x)) s.
Proof.
  intros Hs Hw Ha Hf Hne Hn [[Hc Hl]|[-> Hc]].
  - replace (n =? last) with false by lia.
    eapply wp_mono; [by eapply extractfree_wf|].
    intros [] s' (H' & F' & ? & ? & ? & ? & Hsame & ?).
    exists H', F', (up_nf 0 (up_pay Junk c)). split_and!; try done. eauto.
  - rewrite Z.eqb_refl. apply nwp_ret. exists H, F, c. split_and!; try done.
    + pose proof (k_junk _ _ (wf_kinds _ _ _ _ _ Hw) _ _ Hn Hc).
      by replace (J ∪ {[last]}) with J by set_solver.
    + by apply kept_lk; intros x _; apply lkeq_opt_refl.
Qed.

(** What combining [a] with its neighbour [n] gives *)
Definition combined H J last o a b n c s' : Prop := exists H' F' p',
  SR s' H' F' last o /\ wf H' F' (J ∖ {[n]}) last /\ H' !! n = None /\
  H' !! a = Some (joined b c p') /\ grown (b_pay b) (b_len c) p' /\ kept H H' a /\
  (forall x, x <> a -> dat H' x = dat H x).

(** The links of two neighbours, the upper one detached *)
Lemma combined_intro s' H H1 F1 J last o a b n c c1 H2 :
  SR s' H2 F1 last o -> wf H1 F1 (J ∪ {[n]}) last -> positive H1 ->
  H1 !! a = Some b -> H1 !! n = Some c1 -> shape c1 = shape c -> b_pay c1 = Junk ->
  b_next b = n -> is_free b = false -> kept H H1 n -> (forall x, dat H1 x = dat H x) ->
  H2 = <[a := up_sz (b_len b + b_len c) (up_next (b_next c) b)]>
         (alter (up_prev a) (b_next c) H1) ->
  combined H J last o a b n c s'.
Proof.
  intros Hs Hw Hpos Ha Hn Hc Hj Hab Hf K Hd E. pose proof (wf_links _ _ _ _ _ Hw) as HL.
  injection Hc as Hc1 Hc2 Hc3 Hc4. rewrite <- Hc1, <- Hc3 in E.
  destruct (SR_merge _ _ _ _ _ _ _ _ _ _ Hs Hpos HL Ha Hn Hab Hf E) as (p' & Hg & Hs').
  exists (merged H1 a b n c1 p'), F1, p'.
  destruct (merge_pos _ _ _ _ _ Hpos HL Ha Hn Hab) as (? & ? & En & ? & Ep & Enn).
  assert (Hk : samekind (b_pay b) p').
  { unfold grown in Hg. unfold is_free in Hf. destruct (b_pay b); simplify_eq; try done.
    by destruct Hg as (? & -> & _). }
  assert (Hnone : merged H1 a b n c1 p' !! n = None).
  { rewrite lookup_merged, decide_False, decide_True by lia. done. }
  split_and!; [done| |done| |by rewrite <- Hc1| |].
  - replace (J ∖ {[n]}) with ((J ∪ {[n]}) ∖ {[n]}) by set_solver. by apply merged_wf.
  - rewrite lookup_merged, decide_True by done. unfold joined. by rewrite Hc1, Hc3.
  - intros x e' Hx He'. destruct (kept_merged _ _ _ _ _ _ x e' Hx He') as (e & He & ? & ? & ? & Hp).
    assert (Hxn : x <> n) by congruence.
    destruct (K x e Hxn He) as (e0 & He0 & ? & ? & ? & Hp0). exists e0. split_and!; try congruence.
    intros Hfe. destruct (Hp0 Hfe), (Hp ltac:(congruence)). split; congruence.
  - intros x Hx. rewrite <- Hd. apply merged_dat; try done. unfold is_free. by rewrite Hj.
Qed.

(** The block after [n], where there is one *)
Lemma after_neighbour H a b n c :
  positive H -> links H -> H !! a = Some b -> H !! n = Some c -> b_next b = n -> b_next c <> 0 ->
  exists e, H !! b_next c = Some e /\ b_next c <> a /\ b_next c <> n.
Proof.
  intros Hpos HL Ha Hn Hab Hne.
  destruct (merge_pos _ _ _ _ _ Hpos HL Ha Hn Hab) as (? & ? & ? & ? & ? & [?|?]); [done|].
  destruct (l_next _ HL _ _ Hn) as [?|(? & e & He & _)]; [done|]. exists e. split_and!; [done|lia|lia].
Qed.

Lemma not_in_zero H : positive H -> H !! 0 = None.
Proof. intros Hp. destruct (H !! 0) eqn:E; [|done]. apply Hp in E. lia. Qed.

Lemma SR_sum s H F last o a b n c :
  SR s H F last o -> H !! a = Some b -> H !! n = Some c -> n = a + b_len b ->
  0 < b_len b + b_len c < 2 ^ 32 /\ wrap_u 32 (b_len b + b_len c) = b_len b + b_len c.
Proof.
  intros Hs Ha Hn ->. pose proof (SR_fields _ _ _ _ _ _ Hs _ _ Ha) as (_ & _ & _ & ?).
  pose proof (SR_fields _ _ _ _ _ _ Hs _ _ Hn) as (_ & _ & _ & ?).
  assert (b_len b + b_len c < 2 ^ 32).
  { apply (rep_runs _ _ _ (sr_rep _ _ _ _ _ _ Hs) a). intros x Hx.
    destruct (decide (x < a + b_len b)); [apply (ba_rng _ _ _ (SR_blk _ _ _ _ _ _ Hs _ _ Ha)); lia|].
    apply (ba_rng _ _ _ (SR_blk _ _ _ _ _ _ Hs _ _ Hn)); lia. }
  split; [lia|]. apply wrap_u_small. lia.
Qed.

Lemma combinehi_spec s H F J last o a b n c :
  SR s H F last o -> wf H F J last -> H !! a = Some b -> is_free b = false ->
  b_next b = n -> H !! n = Some c ->
  is_free c = true /\ n <> last \/ n = last /\ b_pay c = Junk ->
  wp (combinehi trapped NONE a) (fun r s' => r = a /\ combined H J last o a b n c s') s.
Proof.
  intros Hs Hw Ha Hf Hab Hn Hc. pose proof (SR_positive _ _ _ _ _ Hs) as Hpos.
  pose proof (wf_links _ _ _ _ _ Hw) as HL.
  destruct (merge_pos _ _ _ _ _ Hpos HL Ha Hn Hab) as (? & ? & En & ? & Ep & Enn).
  unfold combinehi. replace (a =? 0) with false by lia. go. rewrite Hab.
  replace (n =? 0) with false by lia. go. rewrite Ep. go. go. apply nwp_bind.
  eapply wp_mono; [eapply (detach s H F J last o a b n c); try done; lia|]. cbv beta.
  intros [] s1 (G & F1 & c1 & Hs1 & Hw1 & Ha1 & Hn1 & Hsh & Hj & K & Hd).
  pose proof (SR_positive _ _ _ _ _ Hs1) as Hpos1. pose proof (wf_links _ _ _ _ _ Hw1) as HL1.
  destruct (SR_sum _ _ _ _ _ _ _ _ _ Hs1 Ha1 Hn1 En) as [Hsum Hwr].
  pose proof (SR_fields _ _ _ _ _ _ Hs1 _ _ Hn1) as (_ & ? & _ & _).
  pose proof (SR_addr _ _ _ _ _ _ Hs _ _ Ha).
  pose proof (after_neighbour _ _ _ _ _ Hpos1 HL1 Ha1 Hn1 Hab) as Haft.
  pose proof (l_sz _ HL1 _ _ Ha1) as Ezb. pose proof (l_sz _ HL1 _ _ Hn1) as Ezc.
  pose proof Hsh as [= Hc1 Hc2 Hc3 Hc4].
  go. rewrite Hab. go. go. destruct (Z.eqb_spec (b_next c1) 0) as [Ez|Enz].
  - go. go. go. rewrite Ezb, Ezc, Hwr. go. go. split; [done|].
    eapply combined_intro; try eassumption. rewrite <- Hc1, <- Hc3, Ez.
    apply map_eq. intros z. rewrite !lookup_insert, lookup_alter.
    repeat case_decide; simplify_eq; try done. by rewrite not_in_zero.
  - destruct (Haft Enz) as (e & He & Hea & Hen). go. go. go. rewrite Ezb, Ezc, Hwr. go. go.
    split; [done|]. eapply combined_intro; try eassumption. rewrite <- Hc1, <- Hc3. heap_eq.
Qed.

(** The free block [p] in front of [m] takes [m] in. *)
Lemma combinelo_spec s H F J last o m b p c :
  SR s H F last o -> wf H F J last -> H !! m = Some b -> is_free b = false -> b_pay b = Junk ->
  b_prev b = p -> H !! p = Some c -> is_free c = true ->
  wp (combinelo trapped NONE m) (fun r s' => r = p /\ exists G,
    combined G (J ∪ {[p]}) last o p (up_nf 0 (up_pay Junk c)) m b s' /\ kept H G p /\
    forall x, dat G x = dat H x) s.
Proof.
  intros Hs Hw Hm Hfm Hjm Hp Hc Hf. pose proof (SR_positive _ _ _ _ _ Hs) as Hpos.
  pose proof (wf_links _ _ _ _ _ Hw) as HL.
  assert (b_next c = m) as Hcm.
  { destruct (l_prev _ HL _ _ Hm) as [E|(c' & Hc' & E)]; [destruct (Hpos _ _ Hc); lia|].
    rewrite Hp, Hc in Hc'. by injection Hc' as ->. }
  destruct (merge_pos _ _ _ _ _ Hpos HL Hc Hm Hcm) as (? & ? & En & ? & Ep & Enn).
  unfold combinelo. go. rewrite Hp. apply nwp_bind.
  eapply ISFREE_spec; [done|done|apply Hw|done|by rewrite Hf|]. rewrite Hf.
  go. rewrite Hcm. go. apply nwp_bind.
  eapply wp_mono; [by eapply extractfree_wf|]. cbv beta.
  intros [] s1 (G & F1 & Hs1 & Hw1 & Hp1 & K & Hsame & Hd).
  assert (Hm1 : G !! m = Some b) by (apply Hsame; [lia|done|done]).
  pose proof (SR_positive _ _ _ _ _ Hs1) as Hpos1. pose proof (wf_links _ _ _ _ _ Hw1) as HL1.
  destruct (SR_sum _ _ _ _ _ _ _ _ _ Hs1 Hp1 Hm1 En) as [Hsum Hwr].
  pose proof (SR_fields _ _ _ _ _ _ Hs1 _ _ Hm1) as (_ & ? & _ & _).
  pose proof (SR_addr _ _ _ _ _ _ Hs _ _ Hc).
  pose proof (after_neighbour _ _ _ _ _ Hpos1 HL1 Hp1 Hm1 Hcm) as Haft.
  pose proof (l_sz _ HL1 _ _ Hp1) as Ezb. pose proof (l_sz _ HL1 _ _ Hm1) as Ezc.
  cbn [b_sz b_len up_nf up_pay] in Ezb, Hsum, Hwr.
  assert (HJ : J ∪ {[p]} = J ∪ {[p]} ∪ {[m]}).
  { pose proof (k_junk _ _ (wf_kinds _ _ _ _ _ Hw) _ _ Hm Hjm). set_solver. }
  rewrite HJ in Hw1.
  assert (Hkk : kept G G m) by (apply kept_lk; intros x _; apply lkeq_opt_refl).
  go. go. destruct (Z.eqb_spec (b_next b) 0) as [Ez|Enz].
  - go. go. go. rewrite Ezb, Ezc, Hwr. go. go. split; [done|]. exists G. split_and!; [|done|done].
    eapply combined_intro; try eassumption; try done. rewrite Ez.
    apply map_eq. intros z. rewrite !lookup_insert, lookup_alter.
    repeat case_decide; simplify_eq; try done. by rewrite not_in_zero.
  - destruct (Haft Enz) as (e & He & Hea & Hen). go. go. go. rewrite Ezb, Ezc, Hwr. go. go.
    split; [done|]. exists G. split_and!; [|done|done].
    eapply combined_intro; try eassumption; try done. heap_eq.
Qed.

(** ** mv2freelist *)

(** The block in front of [b] is not free. *)
Definition no_free_before H (b : blk) : Prop :=
  forall p, H !! b_prev b = Some p -> is_free p = false.

Lemma no_free_next H a b x e :
  links H -> positive H -> H !! a = Some b -> no_free_before H b ->
  H !! x = Some e -> is_free e = true -> b_next e <> a.
Proof.
  intros HL Hpos Ha Hb Hx Hf E. destruct (Hpos _ _ Ha).
  destruct (l_next _ HL _ _ Hx) as [?|(_ & n & Hn & Hp)]; [lia|].
  rewrite E, Ha in Hn. injection Hn as <-. rewrite <- Hp in Hx. apply Hb in Hx. congruence.
Qed.

Lemma wf_on H F J last H' F' a b nf v :
  wf H F J last -> positive H -> H !! a = Some b -> b_pay b = Junk ->
  lists H' F' -> lk_same H H' a -> H' !! a = Some (up_nf nf (up_pay (Pf v) b)) ->
  (forall n, H !! b_next b = Some n -> is_free n = false) -> (last <> 0 -> b_next b <> last) ->
  no_free_before H b ->
  wf H' F' (J ∖ {[a]}) last.
Proof.
  intros [WL _ WK WC] Hpos Ha Hj HL' E Ha' Hnx Hnl Hpv. split; [|done|..].
  - apply (links_ext H); [|done]. intros x. by apply (lk_shape _ _ a b _ x E Ha Ha').
  - split.
    + intros x c d Hx Hd. destruct (decide (x = a)) as [->|Hxa]; [simplify_eq/=|].
      destruct (lk_inv _ _ _ _ _ E Hxa Hx) as (c0 & Hc0 & _ & Hfc & Heq).
      assert (c0 = c) as -> by (apply Heq; rewrite Hfc; unfold is_free; by rewrite Hd).
      by eapply WK.
    + intros x c Hx Hc. destruct (decide (x = a)) as [->|Hxa]; [simplify_eq/=|].
      destruct (lk_inv _ _ _ _ _ E Hxa Hx) as (c0 & Hc0 & _ & Hfc & Heq).
      assert (c0 = c) as -> by (apply Heq; rewrite Hfc; unfold is_free; by rewrite Hc).
      pose proof (k_junk _ _ WK x c Hc0 Hc). set_solver.
    + intros x [Hx Hxa]%elem_of_difference.
      destruct (k_J _ _ WK x) as (c & Hc & Hjc); [done|].
      destruct (lk_inv' _ _ _ x c E) as (c' & Hc' & _ & _ & Heq); [set_solver|done|].
      assert (c = c') as <- by (apply Heq; unfold is_free; by rewrite Hjc). eauto.
  - intros x c Hx Hfx. destruct (decide (x = a)) as [->|Hxa].
    + simplify_eq. fields. split; [|done]. intros n Hn. destruct (decide (b_next b = a)) as [En|En].
      { rewrite En in Hn. destruct (Hpos _ _ Ha).
        destruct (l_next _ WL _ _ Ha) as [?|[? _]]; lia. }
      destruct (lk_inv _ _ _ _ _ E En Hn) as (n0 & Hn0 & _ & Hfn & _). rewrite <- Hfn. eauto.
    + destruct (lk_inv _ _ _ _ _ E Hxa Hx) as (c0 & Hc0 & [= _ _ En _] & Hfc & _).
      rewrite <- Hfc in Hfx. destruct (WC _ _ Hc0 Hfx) as [W1 W2]. rewrite <- En. split; [|done].
      assert (b_next c0 <> a) as Hna by (by apply (no_free_next H a b x c0)).
      intros n Hn. destruct (lk_inv _ _ _ _ _ E Hna Hn) as (n0 & Hn0 & _ & Hfn & _).
      rewrite <- Hfn. eauto.
Qed.

(** The link nextfree of a block at hand does not matter. *)
Lemma wf_nf H F J last a b v :
  wf H F J last -> H !! a = Some b -> b_pay b = Junk -> wf (<[a := up_nf v b]> H) F J last.
Proof.
  intros [WL WF WK WC] Ha Hj.
  assert (Hsh : forall x, shape <$> <[a := up_nf v b]> H !! x = shape <$> H !! x).
  { intros x. rewrite lookup_insert. case_decide; [subst; by rewrite Ha|done]. }
  assert (B : forall x e, <[a := up_nf v b]> H !! x = Some e -> exists e0, H !! x = Some e0 /\
    b_pay e = b_pay e0 /\ b_len e = b_len e0 /\ b_next e = b_next e0 /\ (x <> a -> e = e0)).
  { intros x e. rewrite lookup_insert. case_decide; [|naive_solver].
    intros [= <-]. subst. exists b. naive_solver. }
  split.
  - by apply (links_ext H).
  - apply (lists_ext H); [|done]. intros x. rewrite lookup_insert. case_decide; [|done].
    subst. rewrite Ha. simpl. unfold fview. simpl. by rewrite Hj.
  - split.
    + intros x e d He Hd. destruct (decide (x = a)) as [->|Hx].
      * rewrite lookup_insert_eq in He. simplify_eq. simpl in Hd. congruence.
      * rewrite lookup_insert_ne in He by done. by eapply WK.
    + intros x e He Hp. destruct (B _ _ He) as (e0 & He0 & E & _). apply (k_junk _ _ WK x e0); congruence.
    + intros x Hx. destruct (k_J _ _ WK x Hx) as (e & He & Hp).
      destruct (decide (x = a)) as [->|Hxa]; [exists (up_nf v b)|exists e].
      * rewrite lookup_insert_eq. by simplify_eq.
      * by rewrite lookup_insert_ne.
  - intros x e He Hf. destruct (B _ _ He) as (e0 & He0 & Ep & _ & En & _).
    assert (Hf0 : is_free e0 = true) by (unfold is_free in *; by rewrite <- Ep).
    destruct (WC _ _ He0 Hf0) as [W1 W2]. rewrite En. split; [|done]. intros n Hn.
    destruct (B _ _ Hn) as (n0 & Hn0 & Epn & _). specialize (W1 _ Hn0). unfold is_free in *.
    by rewrite Epn.
Qed.

(** Another block becomes [lastsbrk]. *)
Lemma wf_last H F J last last' b :
  wf H F J last -> positive H -> H !! last' = Some b -> no_free_before H b -> wf H F J last'.
Proof.
  intros [WL WF WK WC] Hpos Hb Hn. split; try done. intros x e He Hf.
  destruct (WC _ _ He Hf) as [W1 _]. split; [done|]. intros _.
  by apply (no_free_next H last' b x e).
Qed.

Lemma wf_J H F J J' last : wf H F J last -> J = J' -> wf H F J' last.
Proof. by intros ? <-. Qed.

(** What an operation that gives a block back leaves *)
Definition back H o s' : Prop := exists H' F' last',
  inv NONE s' H' F' last' o /\ forall x, dat H' x = dat H x.

Lemma list_or_last_spec s H F last o m b :
  hand NONE s H F last o m b -> 40 <= b_len b -> no_free_before H b ->
  (forall n, H !! b_next b = Some n -> is_free n = false) ->
  wp (list_or_last trapped NONE m) (fun _ s' => back H o s') s.
Proof.
  intros [Hs Hw Hl Hm Hj Hne Hnz] Hlen Hpv Hnx. pose proof (SR_positive _ _ _ _ _ Hs) as Hpos.
  pose proof (wf_links _ _ _ _ _ Hw) as HL. destruct (Hpos _ _ Hm) as [Hm0 _].
  pose proof (SR_fields _ _ _ _ _ _ Hs _ _ Hm) as (_ & _ & _ & Hlr).
  unfold list_or_last. go. go. go. rewrite (l_sz _ HL _ _ Hm).
  destruct (negb (last =? 0) && (b_next b =? last)) eqn:Hc.
  - bool_to_prop. destruct Hl as [?|(bl & Hbl & Hjl & Hnl & Hfl)]; [lia|]. apply nwp_bind.
    eapply wp_mono; [apply (combinehi_spec s H F _ last o m b last bl Hs Hw Hm); try done;
      [by apply is_free_junk|by right]|].
    cbv beta. intros r s1 (-> & G & Fg & p & Hs1 & Hw1 & Hn1 & Hm1 & Hg & K & Hd).
    rewrite Hj in Hg. simpl in Hg. subst p.
    pose proof (SR_positive _ _ _ _ _ Hs1) as Hpos1. destruct (Hpos _ _ Hbl).
    apply nwp_bind. eapply wp_set_lastsbrk; [done|]. intros s2 Hs2.
    set (j := joined b bl Junk) in *. assert (40 <= b_len j) by (unfold j, joined; simpl; lia).
    go. go. exists (<[m := up_nf 0 j]> G), Fg, m. split; [split|].
    + eapply SR_off; [eassumption|hl| |done]. heap_eq.
    + assert (Hpj : no_free_before (<[m := up_nf 0 j]> G) (up_nf 0 j)).
      { intros q. unfold j. fields. unfold joined. fields. rewrite lookup_insert.
        case_decide; [by intros [= <-]|]. intros Hq. destruct (K _ _ ltac:(done) Hq) as (q0 & Hq0 & -> & _).
        by apply Hpv. }
      apply (wf_last _ _ _ last _ (up_nf 0 j)); [|apply positive_insert; [done|lia|simpl; lia]|by hl|done].
      apply wf_nf; [|done|done]. apply (wf_J _ _ _ _ _ Hw1).
      rewrite !only_last_nz by lia. set_solver.
    + right. exists (up_nf 0 j). split_and!; [by hl|done|done|done].
    + lia.
    + intros x. rewrite dat_insert. case_decide; [|by apply Hd]. subst x. simpl.
      unfold dat. by rewrite Hm, Hj.
  - assert (Hnl : last <> 0 -> b_next b <> last) by (intros; destruct (Z.eqb_spec last 0); simpl in Hc; lia).
    eapply wp_mono; [eapply push_spec; try done; [apply Hw|by apply is_free_junk]|].
    cbv beta. intros [] s1 (G & Fg & Hs1 & HLg & Hlk & nf & v & Hm1).
    exists G, Fg, last. split; [split|].
    + done.
    + assert (Hw' : wf G Fg ((only_last last ∪ {[m]}) ∖ {[m]}) last) by (by eapply wf_on).
      apply (wf_J _ _ _ _ _ Hw'). apply leibniz_equiv. intros x.
      pose proof (only_last_sub last x). set_solver.
    + destruct Hl as [->|(bl & Hbl & Hjl & Hnl' & Hfl)]; [by left|right].
      destruct (lk_inv' _ _ _ _ _ Hlk (not_eq_sym Hne) Hbl) as (bl' & Hbl' & _ & _ & Heq).
      rewrite <- Heq in Hbl' by (by apply is_free_junk). eauto.
    + done.
    + intros x. eapply lk_dat; try done. simpl. by rewrite Hj.
Qed.

(** Every block but the one at hand shows whether it is free. *)
Lemma ISFREE_other s H F last o m b x (Q : bool -> nmst -> Prop) :
  hand NONE s H F last o m b -> x <> m -> x = 0 \/ is_Some (H !! x) ->
  Q (match H !! x with Some e => is_free e | None => false end) s -> wp (ISFREE NONE x) Q s.
Proof.
  intros [Hs Hw Hl Hm Hj Hne Hnz] Hx Hin HQ. pose proof (SR_positive _ _ _ _ _ Hs) as Hpos.
  destruct Hin as [->|[e He]].
  { rewrite not_in_zero in HQ by done. by apply ISFREE_0. }
  rewrite He in HQ. eapply ISFREE_spec; [done|done|apply Hw|done| |done].
  intros Hf. destruct (b_pay e) as [d| |] eqn:Hp.
  - by eapply (k_data _ _ (wf_kinds _ _ _ _ _ Hw)).
  - unfold is_free in Hf. by rewrite Hp in Hf.
  - pose proof (k_junk _ _ (wf_kinds _ _ _ _ _ Hw) _ _ He Hp) as Hin.
    assert (x ∈ only_last last) as [-> Hl0]%only_last_sub by set_solver.
    destruct Hl as [?|(bl & Hbl & _ & _ & Hfl)]; [done|]. congruence.
Qed.

Lemma next_in H a b : links H -> H !! a = Some b -> b_next b = 0 \/ is_Some (H !! b_next b).
Proof. intros HL Ha. destruct (l_next _ HL _ _ Ha) as [?|(_ & n & Hn & _)]; eauto. Qed.

Lemma prev_in H a b : links H -> H !! a = Some b -> b_prev b = 0 \/ is_Some (H !! b_prev b).
Proof. intros HL Ha. destruct (l_prev _ HL _ _ Ha) as [?|(n & Hn & _)]; eauto. Qed.

Lemma last_ok_kept H H' J a last :
  last_ok H last -> kept H H' a -> a <> last -> kinds H' J -> (last <> 0 -> last ∈ J) ->
  last_ok H' last.
Proof.
  intros [->|(bl & Hbl & Hjl & Hnl & Hfl)] K Hne HK Hin; [by left|].
  destruct (decide (last = 0)) as [->|Hl0]; [by left|right].
  destruct (k_J _ _ HK last (Hin Hl0)) as (bl' & Hbl' & Hjl').
  destruct (K _ _ (not_eq_sym Hne) Hbl') as (bl0 & Hbl0 & _ & _ & Hnx & Hp).
  rewrite Hbl in Hbl0. injection Hbl0 as <-. destruct Hp as [Hp1 Hp2]; [by apply is_free_junk|].
  exists bl'. split_and!; congruence.
Qed.

(** The block at hand after it has been combined with the free block above *)
Lemma combined_hand s s' H F last o m b n c :
  hand NONE s H F last o m b -> H !! n = Some c -> is_free c = true ->
  combined H (only_last last ∪ {[m]}) last o m b n c s' ->
  exists G Fg, hand NONE s' G Fg last o m (joined b c Junk) /\ kept H G m /\
    (forall x, dat G x = dat H x).
Proof.
  intros [Hs Hw Hl Hm Hj Hne Hnz] Hn Hf (G & Fg & p & Hs1 & Hw1 & Hn1 & Hm1 & Hg & K & Hd).
  rewrite Hj in Hg. simpl in Hg. subst p. exists G, Fg.
  assert (Hnm : n <> m) by (intros ->; rewrite Hm in Hn; injection Hn as <-; by rewrite is_free_junk in Hf).
  assert (Hnl : n <> last).
  { intros ->. destruct Hl as [->|(bl & Hbl & Hjl & _)].
    - rewrite not_in_zero in Hn; [done|by eapply SR_positive].
    - rewrite Hbl in Hn. injection Hn as ->. by rewrite is_free_junk in Hf. }
  split_and!; [split; try done| |].
  - apply (wf_J _ _ _ _ _ Hw1). apply leibniz_equiv. intros x.
    pose proof (only_last_sub last x). set_solver.
  - eapply last_ok_kept; try done; [apply Hw1|]. intros Hl0. rewrite only_last_nz by done. set_solver.
  - done.
  - intros x. destruct (decide (x = m)) as [->|Hx]; [|by apply Hd].
    unfold dat. by rewrite Hm1, Hm, Hj.
Qed.

(** [if (ISFREE(m->next)) m = combinehi(m);] *)
Lemma combine_next s H F last o m b :
  hand NONE s H F last o m b ->
  wp (n ← next_ m; f ← ISFREE NONE n;
      if f : bool then combinehi trapped NONE m else mret m)
    (fun r s' => r = m /\ exists G Fg b', hand NONE s' G Fg last o m b' /\ kept H G m /\
      (forall x, dat G x = dat H x) /\ b_prev b' = b_prev b /\ b_len b <= b_len b' /\
      forall n, G !! b_next b' = Some n -> is_free n = false) s.
Proof.
  intros Hh. pose proof Hh as [Hs Hw Hl Hm Hj Hne Hnz].
  pose proof (SR_positive _ _ _ _ _ Hs) as Hpos. pose proof (wf_links _ _ _ _ _ Hw) as HL.
  assert (Hmn : b_next b <> m).
  { destruct (Hpos _ _ Hm), (l_next _ HL _ _ Hm) as [?|[? _]]; lia. }
  go. apply nwp_bind. eapply ISFREE_other; [done|done|by eapply next_in|].
  destruct (H !! b_next b) as [n|] eqn:Hn; [destruct (is_free n) eqn:Hfn|].
  - eapply wp_mono.
    { apply (combinehi_spec s H F _ last o m b (b_next b) n Hs Hw Hm); try done;
        [by apply is_free_junk|left; split; [done|]].
      intros E. destruct Hl as [?|(bl & Hbl & Hjl & _)]; [destruct (Hpos _ _ Hn); lia|].
      rewrite E, Hbl in Hn. injection Hn as ->. by rewrite is_free_junk in Hfn. }
    cbv beta. intros r s1 (-> & Hcomb). split; [done|].
    destruct (combined_hand _ _ _ _ _ _ _ _ _ _ Hh Hn Hfn Hcomb) as (G & Fg & Hg & K & Hd).
    exists G, Fg, (joined b n Junk). split_and!; try done.
    + unfold joined. fields. destruct (Hpos _ _ Hn). lia.
    + unfold joined. fields. intros q Hq. destruct (wf_coal _ _ _ _ _ Hw _ _ Hn Hfn) as [W1 _].
      destruct (decide (b_next n = m)) as [E|E].
      * rewrite E, (hand_at _ _ _ _ _ _ _ _ Hg) in Hq. by injection Hq as <-.
      * destruct (K _ _ E Hq) as (q0 & Hq0 & -> & _). by apply W1.
  - go. split; [done|]. exists H, F, b. split_and!; try done; [|naive_solver].
    by apply kept_lk; intros x _; apply lkeq_opt_refl.
  - go. split; [done|]. exists H, F, b. split_and!; try done; [|naive_solver].
    by apply kept_lk; intros x _; apply lkeq_opt_refl.
Qed.

Lemma no_free_before_kept H G m b b' :
  kept H G m -> no_free_before H b -> b_prev b' = b_prev b -> b_prev b <> m ->
  no_free_before G b'.
Proof.
  intros K Hb E Hne q Hq. rewrite E in Hq.
  destruct (K _ _ Hne Hq) as (q0 & Hq0 & -> & _). by apply Hb.
Qed.

Lemma prev_ne H a b : links H -> positive H -> H !! a = Some b -> b_prev b <> a.
Proof.
  intros HL Hpos Ha E. destruct (Hpos _ _ Ha).
  destruct (l_prev _ HL _ _ Ha) as [?|(p & Hp & Hn)]; [lia|]. rewrite E, Ha in Hp.
  injection Hp as <-. destruct (l_next _ HL _ _ Ha) as [?|[? _]]; lia.
Qed.

Lemma mv2freelist_spec s H F last o m b :
  hand NONE s H F last o m b -> 40 <= b_len b -> no_free_before H b ->
  wp (mv2freelist trapped NONE m) (fun _ s' => back H o s') s.
Proof.
  intros Hh Hlen Hpv. pose proof Hh as [Hs Hw Hl Hm Hj Hne Hnz].
  pose proof (SR_positive _ _ _ _ _ Hs) as Hpos. destruct (Hpos _ _ Hm) as [Hm0 _].
  unfold mv2freelist. replace (m =? 0) with false by lia. apply wp_bind3.
  eapply wp_mono; [by eapply combine_next|]. cbv beta.
  intros r s1 (-> & G & Fg & b' & Hg & K & Hd & Hp & Hlb & Hnx).
  eapply wp_mono; [eapply list_or_last_spec; [done|lia| |done]|].
  - eapply no_free_before_kept; try done. eapply prev_ne; [apply Hw|done|done].
  - intros [] s2 (H2 & F2 & l2 & Hi & Hd2). exists H2, F2, l2. split; [done|].
    intros x. by rewrite Hd2.
Qed.

End Ops.
