(* ===== verification/NmSplit.v ===== *)
(** * The allocator: splitting, and giving blocks back

    __nmalloc_split, and on top of the operations of [NmOps]: the remainder that gives way
    to a new [lastsbrk], and dofree. *)

From stdpp Require Import base gmap list numbers sets.
From Stdlib Require Import ZArith Lia.
From S2P Require Import Prelude MemFuns NMalloc NmRep NmInv NmLists NmOps.

Open Scope Z_scope.

Section Split.
Context {SA : SbrkApi}.
Context (trapped : bool) (NONE : Z).
Hypothesis NONE_range : 0 < NONE < 2 ^ 64.

Abbreviation SR := (SR NONE).
Abbreviation lists := (lists NONE).
Abbreviation wf := (wf NONE).
Implicit Types (H : gmap Z blk) (F : Z -> list Z) (J : gset Z).

(** ** The heap after a split *)

Definition upper (m : Z) (b : blk) (sz : Z) : blk :=
  mk_blk (b_len b - sz) m (b_next b) (b_len b - sz) (b_nf b) Junk.
Definition lower (m : Z) (b : blk) (sz : Z) : blk :=
  mk_blk sz (b_prev b) (m + sz) sz 0 (cut sz (b_pay b)).

Definition carved H (m : Z) (b : blk) (sz : Z) : gmap Z blk :=
  <[m + sz := upper m b sz]> (<[m := lower m b sz]> (alter (up_prev (m + sz)) (b_next b) H)).

Section Carve.
Context (H : gmap Z blk) (m : Z) (b : blk) (sz : Z).
Hypothesis (Hpos : positive H) (Hl : links H) (Hm : H !! m = Some b) (Hf : is_free b = false)
  (Hsz : 48 <= sz) (Hlen : sz + 32 <= b_len b) (Hnew : H !! (m + sz) = None).

Lemma lookup_carved x :
  carved H m b sz !! x =
  if decide (x = m + sz) then Some (upper m b sz)
  else if decide (x = m) then Some (lower m b sz)
  else if decide (x = b_next b) then up_prev (m + sz) <$> H !! x else H !! x.
Proof.
  unfold carved. rewrite !lookup_insert, lookup_alter. repeat case_decide; try congruence; done.
Qed.

Lemma carved_other x e' :
  x <> m -> x <> m + sz -> carved H m b sz !! x = Some e' ->
  exists e, H !! x = Some e /\ e' = (if decide (x = b_next b) then up_prev (m + sz) e else e).
Proof.
  intros Hx Hx1. rewrite lookup_carved, !decide_False by done.
  case_decide; [|by eauto]. destruct (H !! x) eqn:E; [|done]. intros [= <-]. eauto.
Qed.

Lemma carved_lookup x e :
  x <> m -> H !! x = Some e ->
  carved H m b sz !! x = Some (if decide (x = b_next b) then up_prev (m + sz) e else e).
Proof.
  intros Hx He. rewrite lookup_carved, (decide_False (P := x = m + sz)) by (intros ->; congruence).
  rewrite decide_False, He by done. by case_decide.
Qed.

Lemma carved_m : carved H m b sz !! m = Some (lower m b sz).
Proof. rewrite lookup_carved, decide_False, decide_True by lia. done. Qed.

Lemma carved_m1 : carved H m b sz !! (m + sz) = Some (upper m b sz).
Proof. by rewrite lookup_carved, decide_True. Qed.

Lemma carved_next_links x e :
  carved H m b sz !! x = Some e -> b_next e = 0 \/
  b_next e = x + b_len e /\ exists n, carved H m b sz !! b_next e = Some n /\ b_prev n = x.
Proof.
  destruct (Hpos _ _ Hm). intros He. destruct (decide (x = m + sz)) as [->|Hx1].
  { rewrite carved_m1 in He. injection He as <-. unfold upper; fields.
    destruct (l_next _ Hl _ _ Hm) as [?|(E & n & Hn & _)]; [by left|right]. split; [lia|].
    eexists. split; [apply carved_lookup; [lia|done]|]. by rewrite decide_True. }
  destruct (decide (x = m)) as [->|Hx].
  { rewrite carved_m in He. injection He as <-. unfold lower; fields. right. split; [done|].
    eexists. split; [apply carved_m1|done]. }
  destruct (carved_other _ _ Hx Hx1 He) as (e0 & He0 & ->); clear He.
  replace (b_next (if decide _ then _ else _)) with (b_next e0) by (by case_decide).
  replace (b_len (if decide _ then _ else _)) with (b_len e0) by (by case_decide).
  destruct (l_next _ Hl _ _ He0) as [?|(E & n & Hn & Hnp)]; [by left|right]. split; [done|].
  destruct (decide (b_next e0 = m)) as [Em|Em].
  - rewrite Em. eexists. split; [apply carved_m|]. rewrite Em, Hm in Hn. by injection Hn as <-.
  - eexists. split; [by apply carved_lookup|]. case_decide as Hd; [|done]. exfalso.
    destruct (Hpos _ _ He0). destruct (l_next _ Hl _ _ Hm) as [?|(_ & g & Hg & Hgp)]; [lia|]. congruence.
Qed.

Lemma carved_prev_links x e :
  carved H m b sz !! x = Some e -> b_prev e = 0 \/
  exists p, carved H m b sz !! b_prev e = Some p /\ b_next p = x.
Proof.
  destruct (Hpos _ _ Hm). intros He. destruct (decide (x = m + sz)) as [->|Hx1].
  { rewrite carved_m1 in He. injection He as <-. unfold upper; fields. right.
    eexists. split; [apply carved_m|done]. }
  assert (D : forall x e, H !! x = Some e -> x <> b_next b \/ x = m -> b_prev e = 0 \/
    exists p, carved H m b sz !! b_prev e = Some p /\ b_next p = x).
  { clear dependent x. clear e. intros x e He Hd. destruct (l_prev _ Hl _ _ He) as [?|(p & Hp & Hpn)]; [by left|right].
    assert (b_prev e <> m).
    { intros E. rewrite E, Hm in Hp. injection Hp as <-. destruct Hd as [?| ->]; [done|].
      destruct (l_next _ Hl _ _ Hm) as [?|[? _]]; lia. }
    eexists. split; [by apply carved_lookup|]. by case_decide. }
  destruct (decide (x = m)) as [->|Hx].
  { rewrite carved_m in He. injection He as <-. unfold lower; fields. apply (D m b Hm). by right. }
  destruct (carved_other _ _ Hx Hx1 He) as (e0 & He0 & ->); clear He. case_decide as Hd.
  - right. fields. eexists. split; [apply carved_m1|]. by subst x.
  - apply (D x e0 He0). by left.
Qed.

Lemma links_carved : links (carved H m b sz).
Proof.
  split; [|apply carved_next_links|apply carved_prev_links].
  intros x e He. destruct (decide (x = m + sz)) as [->|Hx1];
    [rewrite carved_m1 in He; by injection He as <-|].
  destruct (decide (x = m)) as [->|Hx]; [rewrite carved_m in He; by injection He as <-|].
  destruct (carved_other _ _ Hx Hx1 He) as (e0 & He0 & ->); clear He.
  pose proof (l_sz _ Hl _ _ He0). by case_decide.
Qed.

Lemma carved_wf F J last :
  wf H F J last -> wf (carved H m b sz) F (J ∪ {[m + sz]}) last.
Proof.
  intros [_ WL WK WC]. destruct (Hpos _ _ Hm). split; [apply links_carved|..].
  - apply (lists_ext NONE H); [|done]. intros x. rewrite lookup_carved. repeat case_decide.
    + subst x. by rewrite Hnew.
    + subst x. rewrite Hm. simpl. unfold fview, is_free in *. simpl. by destruct (b_pay b).
    + by destruct (H !! x).
    + done.
  - split.
    + intros x e d He Hd. destruct (decide (x = m + sz)) as [->|Hx1];
        [rewrite carved_m1 in He; by injection He as <-|].
      destruct (decide (x = m)) as [->|Hx]; [rewrite carved_m in He; by injection He as <-|].
      destruct (carved_other _ _ Hx Hx1 He) as (e0 & He0 & ->); clear He.
      assert (Hd0 : b_pay e0 = Data d) by (by case_decide).
      pose proof (k_data _ _ WK _ _ _ He0 Hd0). by case_decide.
    + intros x e He Hj. destruct (decide (x = m + sz)) as [->|Hx1]; [set_solver|].
      destruct (decide (x = m)) as [->|Hx].
      * rewrite carved_m in He. injection He as <-. unfold lower in Hj; cbn [b_pay] in Hj.
        unfold is_free in Hf. destruct (b_pay b) eqn:Hp; try done.
        pose proof (k_junk _ _ WK _ _ Hm Hp). set_solver.
      * destruct (carved_other _ _ Hx Hx1 He) as (e0 & He0 & ->); clear He.
        assert (Hd0 : b_pay e0 = Junk) by (by case_decide).
        pose proof (k_junk _ _ WK _ _ He0 Hd0). set_solver.
    + intros x [Hx| ->%elem_of_singleton]%elem_of_union.
      2: { eexists. split; [apply carved_m1|done]. }
      destruct (k_J _ _ WK x Hx) as (e & He & Hj). destruct (decide (x = m)) as [->|Hxm].
      * eexists. split; [apply carved_m|]. rewrite Hm in He. injection He as <-. simpl. by rewrite Hj.
      * eexists. split; [by apply carved_lookup|]. by case_decide.
  - intros x e He Hfe. destruct (decide (x = m + sz)) as [->|Hx1];
      [rewrite carved_m1 in He; by injection He as <-|].
    destruct (decide (x = m)) as [->|Hx].
    { rewrite carved_m in He. injection He as <-. unfold is_free, lower in *. simpl in *.
      by destruct (b_pay b). }
    destruct (carved_other _ _ Hx Hx1 He) as (e0 & He0 & ->); clear He.
    assert (Hf0 : is_free e0 = true) by (by case_decide). destruct (WC _ _ He0 Hf0) as [W1 W2].
    replace (b_next (if decide _ then _ else _)) with (b_next e0) by (by case_decide).
    split; [|done]. intros n Hn. destruct (decide (b_next e0 = m + sz)) as [E1|E1];
      [rewrite E1, carved_m1 in Hn; by injection Hn as <-|].
    destruct (decide (b_next e0 = m)) as [E|E].
    + rewrite E, carved_m in Hn. injection Hn as <-. unfold is_free, lower in *. simpl in *.
      by destruct (b_pay b).
    + destruct (carved_other _ _ E E1 Hn) as (n0 & Hn0 & ->). specialize (W1 _ Hn0). by case_decide.
Qed.

(** The data of other blocks stays, that of [m] is cut. *)
Lemma carved_dat x : x <> m -> dat (carved H m b sz) x = dat H x.
Proof.
  intros Hx. unfold dat. rewrite lookup_carved. repeat case_decide; try done.
  - subst x. by rewrite Hnew.
  - by destruct (H !! x).
Qed.

End Carve.

(** ** __nmalloc_split *)

Lemma no_block_inside s H F last o m b sz :
  SR s H F last o -> H !! m = Some b -> 0 < sz < b_len b -> H !! (m + sz) = None.
Proof.
  intros Hs Hm Hsz. destruct (H !! (m + sz)) as [e|] eqn:E; [|done]. exfalso.
  pose proof (SR_fields _ _ _ _ _ _ Hs _ _ E).
  destruct (rep_disj _ _ _ (sr_rep _ _ _ _ _ _ Hs) _ _ _ _ Hm E); lia.
Qed.

Lemma split_spec s H F J last o m b sz :
  SR s H F last o -> wf H F J last -> H !! m = Some b -> is_free b = false ->
  sz mod 16 = 0 -> 48 <= sz -> sz + 32 <= b_len b ->
  wp (__nmalloc_split trapped m sz) (fun r s' => r = (m + sz, m) /\
    SR s' (carved H m b sz) F last o) s.
Proof.
  intros Hs Hw Hm Hf Hal Hsz Hlen. pose proof (SR_positive _ _ _ _ _ _ Hs) as Hpos.
  pose proof (wf_links _ _ _ _ _ Hw) as HL. destruct (Hpos _ _ Hm).
  assert (Hnew : H !! (m + sz) = None) by (eapply no_block_inside; [done..|lia]).
  pose proof (SR_fields _ _ _ _ _ _ Hs _ _ Hm) as (Hpr & Hnr & Hfr & Hlr).
  pose proof (ba_top _ _ _ (SR_blk _ _ _ _ _ _ Hs _ _ Hm)) as Htop.
  pose proof (l_sz _ HL _ _ Hm) as Ez.
  unfold __nmalloc_split. go. rewrite Ez.
  replace (b_len b <? sz + DATAOFFSET) with false by (unfold DATAOFFSET; lia). go.
  destruct (rep_carve NONE _ _ _ _ sz (sr_rep _ _ _ _ _ _ Hs) Hm Hal ltac:(lia) Hlen)
    as (m' & Em & Hr'). rewrite Ez in Hr'.
  apply nwp_bind. eapply wp_memop; [done|exact Em|exact Hr'|]. intros s1 Hs1.
  assert (Hmne : m <> m + sz) by lia. assert (Hmne' : m + sz <> m) by lia.
  rewrite wrap_u_small by lia. go. go. go. go. go. go.
  destruct (Z.eqb_spec (b_next b) 0) as [E|E].
  - go. go. split; [done|]. eapply SR_eq; [eassumption|]. unfold carved, upper, lower. rewrite E.
    apply map_eq. intros z. rewrite !lookup_insert, lookup_alter.
    repeat case_decide; simplify_eq; try done. by rewrite not_in_zero.
  - destruct (l_next _ HL _ _ Hm) as [?|(En & n & Hn & Hnp)]; [done|].
    assert (b_next b <> m) by lia. assert (b_next b <> m + sz) by congruence.
    apply nwp_bind. go. rewrite Hnp. go. go. go. split; [done|].
    eapply SR_eq; [eassumption|]. unfold carved. heap_eq.
Qed.

(** ** Storage changes hands *)

Lemma wf_pay H F J last m b p :
  wf H F J last -> H !! m = Some b -> is_free b = false ->
  match p with Data _ => b_nf b = 0 /\ 48 <= b_len b | Pf _ => False | Junk => True end ->
  wf (<[m := up_pay p b]> H) F (match p with Junk => J ∪ {[m]} | _ => J ∖ {[m]} end) last.
Proof.
  intros [WL WF WK WC] Hm Hf Hp.
  assert (Hfp : is_free (up_pay p b) = false) by (unfold is_free; simpl; by destruct p).
  assert (Hfr : forall x e, <[m := up_pay p b]> H !! x = Some e -> exists e0, H !! x = Some e0 /\
    is_free e = is_free e0 /\ b_next e = b_next e0 /\ (x <> m -> e = e0)).
  { intros x e. rewrite lookup_insert. case_decide; [|naive_solver]. intros [= <-]. subst x.
    exists b. rewrite Hf, Hfp. naive_solver. }
  split.
  - apply (links_ext H); [|done]. intros x. rewrite lookup_insert. case_decide; [|done].
    subst x. by rewrite Hm.
  - apply (lists_ext NONE H); [|done]. intros x. rewrite lookup_insert. case_decide; [|done].
    subst x. rewrite Hm. simpl. unfold fview, is_free in *. simpl in *. by destruct (b_pay b), p.
  - split.
    + intros x e d. rewrite lookup_insert. case_decide; [|apply WK].
      intros [= <-]. simpl. by intros ->.
    + intros x e. rewrite lookup_insert. case_decide.
      * intros [= <-]. simpl. intros ->. set_solver.
      * intros He Hj. pose proof (k_junk _ _ WK _ _ He Hj). destruct p; set_solver.
    + intros x Hx. destruct (decide (x = m)) as [->|Hxm].
      * eexists. rewrite lookup_insert_eq. split; [done|]. destruct p; set_solver.
      * destruct (k_J _ _ WK x) as (e & He & Hj); [destruct p; set_solver|].
        exists e. by rewrite lookup_insert_ne.
  - intros x e He Hfe. destruct (Hfr _ _ He) as (e0 & He0 & Hf0 & En & _). rewrite Hf0 in Hfe.
    destruct (WC _ _ He0 Hfe) as [W1 W2]. rewrite En. split; [|done]. intros n Hn.
    destruct (Hfr _ _ Hn) as (n0 & Hn0 & -> & _). eauto.
Qed.

(** A block at hand goes to the client. *)
Lemma give_out s H F J last o m b :
  SR s H F last o -> wf H F J last -> H !! m = Some b -> b_pay b = Junk -> b_nf b = 0 ->
  48 <= b_len b ->
  exists d, Z.of_nat (length d) = b_len b - 32 /\ bytes_ok d /\
    SR s (<[m := up_pay (Data d) b]> H) F last o /\
    wf (<[m := up_pay (Data d) b]> H) F (J ∖ {[m]}) last.
Proof.
  intros Hs Hw Hm Hj Hnf Hlen.
  destruct (rep_data NONE _ _ _ _ (sr_rep _ _ _ _ _ _ Hs) Hm) as (d & Hok & Hl & Hr).
  exists d. split_and!; [done|done|by eapply SR_view|].
  apply (wf_pay _ _ _ _ _ _ (Data d)); try done. by apply is_free_junk.
Qed.

(** A block of the client comes to hand. *)
Lemma take_in s H F J last o m b d :
  SR s H F last o -> wf H F J last -> H !! m = Some b -> b_pay b = Data d ->
  SR s (<[m := up_pay Junk b]> H) F last o /\
  wf (<[m := up_pay Junk b]> H) F (J ∪ {[m]}) last.
Proof.
  intros Hs Hw Hm Hd. split.
  - eapply SR_view; [done|]. by apply rep_junk; [apply Hs|].
  - apply (wf_pay _ _ _ _ _ _ Junk); try done. unfold is_free. by rewrite Hd.
Qed.

(** ** The remainder gives way to a new one *)

Lemma last_not_after_free H F J last b :
  wf H F J last -> positive H -> H !! last = Some b -> no_free_before H b.
Proof.
  intros Hw Hpos Hb p Hp. destruct (is_free p) eqn:Hf; [|done]. exfalso.
  destruct (wf_coal _ _ _ _ _ Hw _ _ Hp Hf) as [_ W]. destruct (Hpos _ _ Hb).
  destruct (l_prev _ (wf_links _ _ _ _ _ Hw) _ _ Hb) as [E|(p' & Hp' & E)].
  - rewrite E, not_in_zero in Hp; done.
  - rewrite Hp in Hp'. injection Hp' as <-. apply W; [lia|done].
Qed.

Lemma retire_spec s H F last o h bh bl :
  SR s H F last o -> wf H F ({[last]} ∪ {[h]}) last -> last <> 0 -> h <> last ->
  H !! last = Some bl -> b_pay bl = Junk -> b_next bl = 0 -> 40 <= b_len bl ->
  H !! h = Some bh -> b_pay bh = Junk ->
  wp (mv2freelist trapped NONE last) (fun _ s' => exists H' F',
    SR s' H' F' last o /\ wf H' F' {[h]} last /\ H' !! h = Some bh /\
    forall x, dat H' x = dat H x) s.
Proof.
  intros Hs Hw Hl0 Hne Hl Hj Hn Hlen Hh Hjh. pose proof (SR_positive _ _ _ _ _ _ Hs) as Hpos.
  pose proof (wf_links _ _ _ _ _ Hw) as HL. destruct (Hpos _ _ Hl).
  unfold mv2freelist. replace (last =? 0) with false by lia. go. rewrite Hn.
  apply nwp_bind, ISFREE_0. go. unfold list_or_last. go. go. go. rewrite Hn.
  replace (0 =? last) with false by lia. rewrite andb_false_r.
  rewrite (l_sz _ HL _ _ Hl). eapply wp_mono.
  { apply (push_spec NONE NONE_range s H F last o last bl _ Hs (wf_lists _ _ _ _ _ Hw) Hl);
      [by apply is_free_junk|lia|reflexivity]. }
  cbv beta. intros [] s1 (G & Fg & Hs1 & HLg & Hlk & nf & v & Hl1). exists G, Fg. split_and!; [done|..].
  - assert (Hw' : wf G Fg (({[last]} ∪ {[h]}) ∖ {[last]}) last).
    { eapply wf_on; try done; [|intros; lia|by eapply last_not_after_free].
      intros n. by rewrite Hn, not_in_zero. }
    eapply wf_J; [done|]. set_solver.
  - destruct (lk_inv' _ _ _ _ _ Hlk Hne Hh) as (b' & Hb' & _ & _ & Heq).
    by rewrite <- Heq in Hb' by (by apply is_free_junk).
  - intros x. eapply lk_dat; try done. simpl. by rewrite Hj.
Qed.

(** ** dofree *)

(** [if (ISFREE(m->prev)) m = combinelo(m);] *)
Lemma combine_prev s H F last o m b :
  hand NONE s H F last o m b ->
  wp (p ← prev_ m; f ← ISFREE NONE p;
      if f : bool then combinelo trapped NONE m else mret m)
    (fun r s' => exists G Fg b', hand NONE s' G Fg last o r b' /\
      (forall x, dat G x = dat H x) /\ b_len b <= b_len b' /\ no_free_before G b') s.
Proof.
  intros Hh. pose proof Hh as [Hs Hw Hl Hm Hj Hne Hnz].
  pose proof (SR_positive _ _ _ _ _ _ Hs) as Hpos. pose proof (wf_links _ _ _ _ _ Hw) as HL.
  pose proof (prev_ne _ _ _ HL Hpos Hm) as Hpm.
  go. apply nwp_bind. eapply ISFREE_other; [done|done|done|by eapply prev_in|].
  destruct (H !! b_prev b) as [c|] eqn:Hc; [destruct (is_free c) eqn:Hfc|].
  2: { go. exists H, F, b. split_and!; try done. intros q Hq. congruence. }
  2: { go. exists H, F, b. split_and!; try done. intros q Hq. congruence. }
  assert (Hpl : b_prev b <> last).
  { intros E. destruct Hl as [?|(bl & Hbl & Hjl & _)]; [destruct (Hpos _ _ Hc); lia|].
    rewrite E, Hbl in Hc. injection Hc as ->. by rewrite is_free_junk in Hfc. }
  assert (Hq : no_free_before H c).
  { intros q Hq. destruct (is_free q) eqn:Hfq; [|done]. exfalso.
    destruct (wf_coal _ _ _ _ _ Hw _ _ Hq Hfq) as [W _].
    destruct (l_prev _ HL _ _ Hc) as [E|(q' & Hq' & E)]; [rewrite E, not_in_zero in Hq; done|].
    rewrite Hq in Hq'. injection Hq' as <-. rewrite E in W. specialize (W _ Hc). congruence. }
  eapply wp_mono; [eapply (combinelo_spec trapped NONE NONE_range s H F _ last o m b (b_prev b) c);
    try done; by apply is_free_junk|]. cbv beta.
  intros r s1 (-> & H1 & (G & Fg & p' & Hs1 & Hw1 & Hn1 & Hm1 & Hg & K & Hd) & K1 & Hd1).
  simpl in Hg. subst p'. exists G, Fg. eexists. split_and!; [split; try done| | |].
  - eapply wf_J; [done|]. apply leibniz_equiv. intros x. pose proof (only_last_sub last x). set_solver.
  - eapply (last_ok_kept H G _ (b_prev b)); [done|by eapply kept_trans|done|apply Hw1|].
    intros Hl0. rewrite only_last_nz by done. set_solver.
  - intros x. destruct (decide (x = b_prev b)) as [->|Hx]; [|by rewrite Hd, Hd1].
    unfold dat. rewrite Hm1, Hc. simpl. unfold is_free in Hfc. by destruct (b_pay c).
  - unfold joined. fields. destruct (Hpos _ _ Hc). lia.
  - eapply (no_free_before_kept H G (b_prev b) c); [by eapply kept_trans|done|done|].
    by eapply prev_ne.
Qed.

Lemma dofree_spec s H F last o m b d :
  inv NONE s H F last o -> H !! m = Some b -> b_pay b = Data d ->
  wp (dofree trapped NONE m) (fun _ s' => exists H' F' last',
    inv NONE s' H' F' last' o /\
    forall x, dat H' x = if decide (x = m) then None else dat H x) s.
Proof.
  intros [Hs Hw Hl Hnz] Hm Hd. destruct (k_data _ _ (wf_kinds _ _ _ _ _ Hw) _ _ _ Hm Hd) as [Hnf Hlen].
  destruct (take_in _ _ _ _ _ _ _ _ _ Hs Hw Hm Hd) as [_ Hw1].
  unfold dofree. go. go.
  set (H1 := <[m := up_nf NONE (up_pay Junk b)]> H).
  assert (Hml : m <> last).
  { intros ->. destruct Hl as [->|(bl & Hbl & Hjl & _)]; [|congruence].
    pose proof (SR_addr _ _ _ _ _ _ Hs _ _ Hm). lia. }
  assert (Hh : hand NONE s1 H1 F last o m (up_nf NONE (up_pay Junk b))).
  { split; [..|unfold H1; hl|done|done|by intros ->%Hnz; rewrite lookup_empty in Hm].
    - eapply SR_off; [eassumption|hl| |done]. unfold H1. heap_eq.
    - replace H1 with (<[m := up_nf NONE (up_pay Junk b)]> (<[m := up_pay Junk b]> H))
        by (unfold H1; by rewrite insert_insert_eq).
      apply wf_nf; try done; hl.
    - destruct Hl as [->|(bl & Hbl & ?)]; [by left|right]. exists bl. unfold H1.
      by rewrite lookup_insert_ne. }
  assert (Hd1 : forall x, dat H1 x = if decide (x = m) then None else dat H x).
  { intros x. unfold H1. rewrite dat_insert. repeat case_decide; congruence || done. }
  clearbody H1. apply wp_bind3. eapply wp_mono; [by eapply combine_next|]. cbv beta.
  intros r s2 (-> & G & Fg & b' & Hg & K & Hd2 & Hp & Hlb & _).
  apply wp_bind3. eapply wp_mono; [by eapply combine_prev|]. cbv beta.
  intros r s3 (G2 & F2 & b2 & Hg2 & Hd3 & Hlb2 & Hpv). pose proof Hg2 as [Hs3 Hw3 Hl3 Hr Hjr Hrl _].
  go. go. simpl in Hlb.
  assert (negb (last =? 0) && (last =? b_prev b2) = false) as ->.
  { destruct (Z.eqb_spec last 0); [done|]. simpl. apply Z.eqb_neq. intros E.
    destruct Hl3 as [?|(bl & Hbl & _ & Hnl & _)]; [done|].
    destruct (l_prev _ (wf_links _ _ _ _ _ Hw3) _ _ Hr) as [?|(q & Hq & Hqn)]; [congruence|].
    rewrite <- E, Hbl in Hq. injection Hq as <-.
    pose proof (SR_addr _ _ _ _ _ _ Hs3 _ _ Hr). lia. }
  eapply wp_mono; [eapply mv2freelist_spec; [done|done|lia|done]|]. cbv beta.
  intros [] s4 (H4 & F4 & l4 & Hi & Hd4). exists H4, F4, l4. split; [done|].
  intros x. by rewrite Hd4, Hd3, Hd2, Hd1.
Qed.

End Split.
