(* ===== verification/NmThms.v ===== *)
(** * The allocator: its operations

    nmalloc, nfree, nrealloc and ncalloc keep the invariant, give the client storage that
    nobody else has, keep what is stored in every other block, and fail cleanly where sbrk
    fails. sbrk is any function that satisfies [SbrkLaws]. *)

From stdpp Require Import base gmap list numbers sets.
From Stdlib Require Import ZArith Lia.
From S2P Require Import Prelude MemFuns NMalloc NmRep NmInv NmLists NmOps NmSplit.

Open Scope Z_scope.

(** ** sbrk *)

(** [d] bytes at [r] that were not there before *)
Definition sbrk_gave (NONE : Z) (m : mem) (r d : Z) (m' : mem) : Prop :=
  0 < r /\ r + d < 2 ^ 64 /\ (NONE < r \/ r + d <= NONE) /\ fresh_at m r d /\ runs_ok m' /\
  exists l, Z.of_nat (length l) = d /\ bytes_ok l /\ m' = write_bytes m r l.

(** The documented behaviour of sbrk: it gives fresh memory, or -1. *)
Class SbrkLaws {SA : SbrkApi} (NONE : Z) := {
  NONE_ok : 0 < NONE < 2 ^ 64;
  sbrk_law : forall d sys m r sys' m',
    0 < d < 2 ^ 31 -> mem_bytes m -> runs_ok m -> m !! NONE = None ->
    sbrk d sys m = (r, sys', m') ->
    r = SBRK_ERR /\ m' = m \/ sbrk_gave NONE m r d m' }.

(** ** Sizes *)

Lemma land_alignmask x :
  0 <= x < 2 ^ 64 - 64 ->
  Z.land (wrap_u 64 (x + ALIGNMASK)) (wrap_u 64 (Z.lnot ALIGNMASK)) = 16 * ((x + 15) / 16).
Proof.
  intros Hx. unfold ALIGNMASK, ALIGN. rewrite (wrap_u_small 64 (x + _)) by lia.
  replace (wrap_u 64 (Z.lnot (16 - 1))) with (Z.shiftl (Z.ones 60) 4) by reflexivity.
  replace (x + (16 - 1)) with (x + 15) by lia. apply Z.bits_inj'. intros k Hk.
  rewrite Z.land_spec. change 16 with (2 ^ 4). rewrite Z.mul_comm, <- Z.shiftl_mul_pow2 by lia.
  rewrite <- Z.shiftr_div_pow2 by lia. rewrite !Z.shiftl_spec by lia.
  destruct (Z.lt_ge_cases k 4) as [Hk4|Hk4].
  - rewrite !(Z.testbit_neg_r _ (k - 4)) by lia. apply andb_false_r.
  - rewrite Z.shiftr_spec by lia. replace (k - 4 + 4) with k by lia.
    destruct (Z.lt_ge_cases k 64) as [Hk6|Hk6].
    + rewrite Z.ones_spec_low by lia. apply andb_true_r.
    + rewrite Z.ones_spec_high, andb_false_r by lia. symmetry.
      apply Z.bits_above_log2; [lia|]. apply Z.log2_lt_pow2; [lia|].
      apply Z.lt_le_trans with (2 ^ 64); [lia|]. apply Z.pow_le_mono_r; lia.
Qed.

Lemma roundup_eq x : 0 <= x < 2 ^ 64 - 64 -> roundup x = wrap_u 32 (16 * ((x + 15) / 16) + 32).
Proof.
  intros Hx. unfold roundup, DATAOFFSET. rewrite land_alignmask by done.
  pose proof (Z.div_mod (x + 15) 16). pose proof (Z.mod_pos_bound (x + 15) 16).
  by rewrite (wrap_u_small 64) by lia.
Qed.

Lemma roundup_spec sz :
  0 < sz <= 2 ^ 32 - 64 ->
  roundup sz mod 16 = 0 /\ sz + 32 <= roundup sz < sz + 48 /\ 48 <= roundup sz < 2 ^ 32.
Proof.
  intros Hsz. rewrite roundup_eq by lia.
  pose proof (Z.div_mod (sz + 15) 16). pose proof (Z.mod_pos_bound (sz + 15) 16).
  rewrite wrap_u_small by lia. split; [|lia].
  replace (16 * ((sz + 15) / 16) + 32) with (((sz + 15) / 16 + 2) * 16) by lia.
  apply Z.mod_mul. lia.
Qed.

Section Thms.
Context {SA : SbrkApi} (trapped : bool) (NONE : Z) {laws : SbrkLaws NONE}.

Abbreviation SR := (SR NONE).
Abbreviation wf := (wf NONE).
Abbreviation inv := (inv NONE).
Abbreviation hand := (hand NONE).
Implicit Types (H : gmap Z blk) (F : Z -> list Z) (J : gset Z).

(** ** Looking for a free block *)

Lemma searchfree_loop_spec fuel : forall s H F last o b (Q : Z -> nmst -> Prop),
  SR s H F last o -> 0 <= b -> 64 - b <= Z.of_nat fuel ->
  (forall r, b < r -> r < 64 /\ hd 0 (F r) <> 0 \/ 64 <= r -> Q r s) ->
  (0 < fuel)%nat ->
  wp (searchfree_loop fuel b) Q s.
Proof.
  induction fuel as [|fuel IH]; intros s H F last o b Q Hs Hb Hfuel HQ Hpos; [lia|].
  cbn [searchfree_loop]. cbv zeta. change NFLISTS with 64. destruct (Z.ltb_spec (b + 1) 64).
  - apply nwp_bind. eapply wp_hdr; [done|lia|]. destruct (Z.eqb_spec (hd 0 (F (b + 1))) 0).
    + eapply IH; [done|lia|lia|intros r Hr Hc; apply HQ; [lia|done]|lia].
    + apply nwp_ret, HQ; [lia|by left].
  - apply nwp_ret, HQ; [lia|right; lia].
Qed.

(** The list found has a block of at least the size needed at its head. *)
Definition found H F (szneed r : Z) : Prop :=
  r = 0 \/ 1 <= r < 64 /\ exists a l b, F r = a :: l /\ H !! a = Some b /\ szneed <= b_len b.

Lemma searchfree_spec s H F last o szneed :
  inv s H F last o -> 48 <= szneed < 2 ^ 32 ->
  wp (searchfree szneed) (fun r s' => s' = s /\ found H F szneed r) s.
Proof.
  intros [Hs Hw Hl Hnz] Hsz. unfold searchfree. pose proof (size2bucket_range szneed ltac:(lia)) as Hb.
  apply nwp_bind. eapply wp_hdr; [done|lia|].
  assert (Hhead : forall r, hd 0 (F r) <> 0 -> exists a l b, F r = a :: l /\ H !! a = Some b /\
    size2bucket (b_len b) = r /\ b_sz b = b_len b /\ 0 < b_len b < 2 ^ 32 /\ hd 0 (F r) = a).
  { intros r Hr. destruct (F r) as [|a l] eqn:HF; [done|].
    destruct (lists_elem NONE NONE_ok H F r a (wf_lists _ _ _ _ _ Hw)) as (b & v & Hb' & _ & Hi & _);
      [rewrite HF; set_solver|].
    exists a, l, b. split_and!; try done; [by eapply (l_sz _ (wf_links _ _ _ _ _ Hw))|..];
      eapply SR_fields; done. }
  assert (Hloop : wp (b ← searchfree_loop (Z.to_nat NFLISTS) (size2bucket szneed);
      mret (if b <? NFLISTS then b else 0)) (fun r s' => s' = s /\ found H F szneed r) s).
  { apply nwp_bind. eapply searchfree_loop_spec; [done|lia|unfold NFLISTS; lia| |unfold NFLISTS; lia].
    intros r Hr Hc. apply nwp_ret. split; [done|]. change NFLISTS with 64. destruct Hc as [[Hr2 Hc]|Hc].
    - replace (r <? 64) with true by lia. right. split; [lia|].
      destruct (Hhead r Hc) as (a & l & b & HF & Ha & Hi & _ & Hlr & _). exists a, l, b.
      split_and!; try done. pose proof (size2bucket_lt szneed (b_len b)). lia.
    - replace (r <? 64) with false by lia. by left. }
  destruct (Z.eqb_spec (hd 0 (F (size2bucket szneed))) 0) as [E|E].
  - go. exact Hloop.
  - destruct (Hhead _ E) as (a & l & b & HF & Ha & Hi & Hszb & Hlr & Hhd). rewrite Hhd.
    apply nwp_bind. go. rewrite Hszb. go. destruct (Z.ltb_spec (b_len b) szneed); [exact Hloop|].
    go. go. split; [done|]. change NFLISTS with 64.
    replace (size2bucket szneed <? 64) with true by lia. right. split; [lia|]. exists a, l, b. done.
Qed.

(** ** Parts of blocks *)

Lemma last_ok_carved H m b sz last :
  last_ok H last -> last <> m -> H !! m = Some b -> H !! (m + sz) = None ->
  last_ok (carved H m b sz) last.
Proof.
  intros [->|(bl & Hbl & Hj & Hn & Hf)] Hne Hm Hnew; [by left|right].
  eexists. split; [by apply carved_lookup|]. by case_decide.
Qed.

(** The upper part goes to the free lists, the lower part is not free. *)
Lemma file_upper s H F last o m e b sz :
  SR s H F last o -> wf H F (only_last last ∪ {[m + sz]}) last -> last_ok H last -> last <> 0 ->
  m + sz <> last -> H !! (m + sz) = Some (upper m b sz) -> 40 <= b_len b - sz ->
  H !! m = Some e -> is_free e = false ->
  wp (mv2freelist trapped NONE (m + sz)) (fun _ s' => back NONE H o s') s.
Proof.
  intros Hs Hw Hl Hnz Hne Hup Hlen Hm Hf. pose proof NONE_ok.
  eapply mv2freelist_spec; [done|by split|done|].
  intros q. unfold upper. fields. intros Hq. congruence.
Qed.

Lemma lower_wf s H F J last o m b sz :
  SR s H F last o -> wf H F J last -> H !! m = Some b -> is_free b = false ->
  sz mod 16 = 0 -> 48 <= sz -> sz + 32 <= b_len b ->
  H !! (m + sz) = None /\ wf (carved H m b sz) F (J ∪ {[m + sz]}) last.
Proof.
  intros Hs Hw Hm Hf Hal Hsz Hlen. pose proof (SR_positive _ _ _ _ _ _ Hs) as Hpos.
  assert (Hnew : H !! (m + sz) = None) by (eapply no_block_inside; [done..|lia]).
  split; [done|]. pose proof NONE_ok. apply carved_wf; try done. apply Hw.
Qed.

(** A block of the client's is cut to [sz] bytes. *)
Lemma trim_spec s H F last o m b d sz :
  inv s H F last o -> H !! m = Some b -> b_pay b = Data d ->
  sz mod 16 = 0 -> 48 <= sz <= b_len b ->
  wp (trim trapped NONE m sz) (fun r s' => r = m /\ exists H' F' last' d',
    inv s' H' F' last' o /\ dat H' m = Some d' /\ sz - 32 <= Z.of_nat (length d') /\
    take (Z.to_nat (sz - 32)) d' = take (Z.to_nat (sz - 32)) d /\
    forall x, x <> m -> dat H' x = dat H x) s.
Proof.
  intros [Hs Hw Hl Hnz] Hm Hd Hal Hsz. pose proof (SR_positive _ _ _ _ _ _ Hs) as Hpos.
  pose proof (SR_fields _ _ _ _ _ _ Hs _ _ Hm) as (_ & _ & _ & Hlr).
  pose proof (ba_pay _ _ _ (SR_blk _ _ _ _ _ _ Hs _ _ Hm)) as Hp. rewrite Hd in Hp. destruct Hp as [Hld _].
  assert (Hf : is_free b = false) by (unfold is_free; by rewrite Hd).
  pose proof NONE_ok. unfold trim. go. rewrite (l_sz _ (wf_links _ _ _ _ _ Hw) _ _ Hm), wrap_u_small by lia.
  change MINSAVE with 48. destruct (Z.leb_spec 48 (b_len b - sz)) as [Hbig|Hsmall].
  - destruct (lower_wf _ _ _ _ _ _ _ _ _ Hs Hw Hm Hf Hal ltac:(lia) ltac:(lia)) as [Hnew Hw1].
    apply nwp_bind. eapply wp_mono; [eapply split_spec; try done; lia|]. cbv beta.
    intros r s1 [-> Hs1]. apply nwp_bind.
    assert (Hlm : last <> m).
    { intros ->. destruct Hl as [->|(bl & Hbl & Hj & _)]; [destruct (Hpos _ _ Hm); lia|]. congruence. }
    eapply wp_mono.
    { apply (file_upper s1 (carved H m b sz) F last o m (lower m b sz) b sz Hs1 Hw1);
        [by apply last_ok_carved|by intros E%Hnz; rewrite E, lookup_empty in Hm| |by apply carved_m1
        |lia|by apply carved_m; [|lia|]|].
      - intros <-. destruct Hl as [E|(bl & Hbl & _)]; [destruct (Hpos _ _ Hm); lia|congruence].
      - unfold is_free. simpl. by rewrite Hd. }
    { cbv beta. intros [] s2 (H2 & F2 & l2 & Hi & Hd2). apply nwp_ret. split; [done|].
      exists H2, F2, l2, (take (Z.to_nat (sz - 32)) d). split_and!; [done|..].
      * rewrite Hd2. apply dat_Some. eexists. split; [by apply carved_m; [|lia|]|]. simpl. by rewrite Hd.
      * rewrite length_take. lia.
      * by rewrite take_take, Nat.min_id.
      * intros x Hx. rewrite Hd2. by apply carved_dat. }
  - go. split; [done|]. exists H, F, last, d. split_and!; [by split| |lia|done|done].
    apply dat_Some. eauto.
Qed.

(** What an allocation gives *)
Definition gives H (szneed m : Z) (s' : nmst) : Prop := exists H' F' last' o' d,
  inv s' H' F' last' o' /\ 0 < m /\ m mod 16 = 0 /\ dat H m = None /\ dat H' m = Some d /\
  bytes_ok d /\ szneed - 32 <= Z.of_nat (length d) /\
  (forall x, x <> m -> dat H' x = dat H x).

(** A block at hand, to be given out with [sz] bytes *)
Lemma hand_out s H F last o m b sz :
  hand s H F last o m b -> b_nf b = 0 -> sz mod 16 = 0 -> 48 <= sz <= b_len b ->
  wp (sz' ← sz_ m;
      if sz' <? sz + MINSAVE then mret m
      else '(m1, m) ← __nmalloc_split trapped m sz; _ ← mv2freelist trapped NONE m1; mret m)
    (fun r s' => r = m /\ gives H sz m s') s.
Proof.
  intros [Hs Hw Hl Hm Hj Hne Hnz] Hnf Hal Hsz. pose proof (SR_positive _ _ _ _ _ _ Hs) as Hpos.
  pose proof (SR_blk _ _ _ _ _ _ Hs _ _ Hm) as Hb. destruct (Hpos _ _ Hm).
  assert (Hdm : dat H m = None) by (unfold dat; by rewrite Hm, Hj).
  go. rewrite (l_sz _ (wf_links _ _ _ _ _ Hw) _ _ Hm). change MINSAVE with 48.
  destruct (Z.ltb_spec (b_len b) (sz + 48)) as [Hsmall|Hbig].
  - go. split; [done|].
    destruct (give_out NONE NONE_ok _ _ _ _ _ _ _ _ Hs Hw Hm Hj Hnf ltac:(lia)) as (d & Hd & Hok & Hs1 & Hw1).
    eexists _, F, last, o, d. split_and!; [split; [exact Hs1|..]|lia|apply Hb|done|..|lia|].
    + eapply wf_J; [done|]. apply leibniz_equiv. intros x. pose proof (only_last_sub last x). set_solver.
    + destruct Hl as [->|(bl & Hbl & ?)]; [by left|right]. exists bl. by rewrite lookup_insert_ne.
    + done.
    + rewrite dat_insert. by rewrite decide_True.
    + done.
    + intros x Hx. rewrite dat_insert. by rewrite decide_False by congruence.
  - assert (Hf : is_free b = false) by (by apply is_free_junk).
    destruct (lower_wf _ _ _ _ _ _ _ _ _ Hs Hw Hm Hf Hal ltac:(lia) ltac:(lia)) as [Hnew Hw1].
    apply nwp_bind. eapply wp_mono; [eapply split_spec; try done; lia|]. cbv beta.
    intros r s1 [-> Hs1]. apply nwp_bind.
    destruct (give_out NONE NONE_ok _ _ _ _ _ _ m (lower m b sz) Hs1 Hw1) as (d & Hd & Hok & Hs2 & Hw2);
      [by apply carved_m; [|lia|]|simpl; by rewrite Hj|done|simpl; lia|].
    eapply wp_mono; [eapply file_upper; [exact Hs2|..]|].
    + eapply wf_J; [done|]. apply leibniz_equiv. intros x. pose proof (only_last_sub last x).
      assert (m + sz <> m) by lia. set_solver.
    + destruct (last_ok_carved H m b sz last) as [->|(bl & Hbl & ?)]; try done. right.
      exists bl. rewrite lookup_insert_ne by done. done.
    + done.
    + intros E. destruct Hl as [?|(bl & Hbl & _)]; [lia|congruence].
    + rewrite lookup_insert_ne by lia. by apply carved_m1.
    + lia.
    + apply lookup_insert_eq.
    + done.
    + cbv beta. intros [] s2 (H2 & F2 & l2 & Hi & Hd2). apply nwp_ret. split; [done|].
      exists H2, F2, l2, o, d. split_and!; [done|lia|apply Hb|done|..|done| |].
      * rewrite Hd2, dat_insert. by rewrite decide_True.
      * simpl in Hd. lia.
      * intros x Hx. rewrite Hd2, dat_insert, decide_False by congruence. by apply carved_dat.
Qed.

Lemma take_from_list_spec s H F last o r szneed :
  inv s H F last o -> found H F szneed r -> r <> 0 -> szneed mod 16 = 0 -> 48 <= szneed ->
  wp (take_from_list trapped NONE r szneed) (fun m s' => gives H szneed m s') s.
Proof.
  intros [Hs Hw Hl Hnz] [?|(Hr & a & l & b & HF & Ha & Hlen)] Hr0 Hal Hsz; [done|].
  unfold take_from_list. apply nwp_bind. eapply wp_hdr; [done|done|]. rewrite HF. cbn [hd].
  pose proof NONE_ok. apply nwp_bind. eapply wp_mono.
  { eapply rmvfromfree_spec; [done|done|apply Hw|done|apply (wf_links _ _ _ _ _ Hw)]. }
  cbv beta. intros [] s1 (H1 & F1 & b' & v & Hs1 & HL1 & Hb' & Hv & Hi & Ha1 & Hlk).
  rewrite Ha in Hb'. injection Hb' as <-.
  assert (Hfb : is_free b = true) by (unfold is_free; by rewrite Hv).
  assert (Hal' : a <> last).
  { intros ->. destruct Hl as [->|(bl & Hbl & Hj & _)].
    - pose proof (SR_addr _ _ _ _ _ _ Hs _ _ Ha). lia.
    - rewrite Ha in Hbl. injection Hbl as <-. by rewrite is_free_junk in Hfb. }
  assert (Hd : forall x, dat H1 x = dat H x).
  { intros x. eapply lk_dat; try done. simpl. by rewrite Hv. }
  assert (Hw1 : wf H1 F1 (only_last last ∪ {[a]}) last) by (by eapply wf_off).
  assert (Hl0 : last <> 0) by (intros E%Hnz; by rewrite E, lookup_empty in Ha).
  eapply wp_mono; [apply (hand_out s1 H1 F1 last o a (up_nf 0 (up_pay Junk b))); [|done|done|simpl; lia]|].
  - split; try done. eapply last_ok_kept; [done|by apply kept_lk|done|apply Hw1|].
    intros _. rewrite only_last_nz by done. set_solver.
  - cbv beta. intros m s2 [-> (H2 & F2 & l2 & o2 & d & Hi2 & ? & ? & Hd1 & Hd2 & ? & ? & Hd3)].
    exists H2, F2, l2, o2, d. split_and!; try done.
    + by rewrite <- Hd.
    + intros x Hx. rewrite Hd3 by done. apply Hd.
Qed.

(** ** [lastsbrk] *)

Lemma split_last_spec s H F last o bl sz :
  inv s H F last o -> last <> 0 -> H !! last = Some bl -> sz mod 16 = 0 -> 48 <= sz ->
  sz + 32 <= b_len bl ->
  wp (split_last trapped sz) (fun m s' => m = last /\ gives H sz m s') s.
Proof.
  intros [Hs Hw Hl Hnz] Hl0 Hbl Hal Hsz Hlen. pose proof NONE_ok.
  pose proof (SR_positive _ _ _ _ _ _ Hs) as Hpos. destruct (Hpos _ _ Hbl).
  destruct Hl as [?|(bl' & Hbl' & Hj & Hn & Hf)]; [done|]. rewrite Hbl in Hbl'. injection Hbl' as <-.
  destruct (lower_wf _ _ _ _ _ _ _ _ _ Hs Hw Hbl (is_free_junk _ Hj) Hal Hsz Hlen) as [Hnew Hw1].
  unfold split_last. go. apply nwp_bind.
  eapply wp_mono; [eapply split_spec; try done; by apply is_free_junk|]. cbv beta.
  intros r s1 [-> Hs1]. apply nwp_bind. eapply wp_set_lastsbrk; [done|]. intros s2 Hs2. apply nwp_ret.
  split; [done|].
  assert (Hup : carved H last bl sz !! (last + sz) = Some (upper last bl sz)) by (by apply carved_m1).
  assert (Hlo : carved H last bl sz !! last = Some (lower last bl sz)) by (by apply carved_m).
  assert (Hw2 : wf (carved H last bl sz) F (only_last last ∪ {[last + sz]}) (last + sz)).
  { eapply wf_last; [done|by eapply SR_positive|done|]. intros q. unfold upper; fields.
    rewrite Hlo. intros [= <-]. unfold is_free. simpl. by rewrite Hj. }
  destruct (give_out NONE NONE_ok _ _ _ _ _ _ last (lower last bl sz) Hs2 Hw2 Hlo)
    as (d & Hd & Hok & Hs3 & Hw3); [simpl; by rewrite Hj|done|done|].
  eexists _, F, (last + sz), o, d.
  split_and!; [split; [exact Hs3|..]|lia|apply (SR_blk _ _ _ _ _ _ Hs _ _ Hbl)| | |done|simpl in Hd; lia|].
  - eapply wf_J; [done|]. rewrite !only_last_nz by lia. assert (last + sz <> last) by lia. set_solver.
  - right. exists (upper last bl sz). rewrite lookup_insert_ne by lia. done.
  - lia.
  - unfold dat. by rewrite Hbl, Hj.
  - rewrite dat_insert. by rewrite decide_True.
  - intros x Hx. rewrite dat_insert, decide_False by congruence. by apply carved_dat.
Qed.

(** ** extendsbrk *)

Lemma sbrk_size_spec szneed e :
  48 <= szneed <= INT_MAX - 65536 -> szneed + 64 <= sbrk_size szneed e < 2 ^ 31 /\
  wrap_s 32 (sbrk_size szneed e) = sbrk_size szneed e.
Proof.
  intros Hsz. unfold INT_MAX in Hsz.
  assert (Hb : szneed + 64 <= sbrk_size szneed e < 2 ^ 31).
  { unfold sbrk_size, ALIGNMASK, ALIGN, DATAOFFSET, MINSBRK. rewrite (wrap_u_small 32 (szneed + _)) by lia.
    change (16 - 1) with (Z.ones 4). rewrite Z.land_ones by lia.
    pose proof (Z.mod_pos_bound e (2 ^ 4) ltac:(lia)).
    destruct (Z.ltb_spec (szneed + (2 * 16 + 32)) 1024), (Z.eqb_spec (e mod 2 ^ 4) 0);
      rewrite ?wrap_u_small by lia; lia. }
  split; [done|]. apply wrap_s_small; lia.
Qed.

(** The remainder, too small for the links of a free block, would be put on a free list. *)
Definition retires (szneed : Z) (s : nmst) : bool :=
  match lastsbrk s with
  | Done (l, _) =>
      if l =? 0 then false
      else
        match sz_ l s with
        | Done (sz, _) =>
            let '(r, _, _) := sbrk (wrap_s 32 (sbrk_size szneed (l + sz))) (n_sys s) (n_mem s) in
            (sz <? 40) && negb (r =? SBRK_ERR) && negb (r =? l + sz)
        | Fail _ => false
        end
  | Fail _ => false
  end.

Lemma wf_relen H F J last a b L :
  wf H F J last -> H !! a = Some b -> b_pay b = Junk -> b_next b = 0 ->
  wf (<[a := up_len L (up_sz L b)]> H) F J last.
Proof.
  intros [WL WF WK WC] Ha Hj Hn.
  assert (B : forall x e, <[a := up_len L (up_sz L b)]> H !! x = Some e -> exists e0, H !! x = Some e0 /\
    b_pay e = b_pay e0 /\ b_prev e = b_prev e0 /\ b_next e = b_next e0 /\ (x <> a -> e = e0)).
  { intros x e. rewrite lookup_insert. case_decide; [|naive_solver].
    intros [= <-]. subst. exists b. naive_solver. }
  assert (B' : forall x e0, H !! x = Some e0 -> exists e, <[a := up_len L (up_sz L b)]> H !! x = Some e /\
    b_pay e = b_pay e0 /\ b_prev e = b_prev e0 /\ b_next e = b_next e0).
  { intros x e0 He0. rewrite lookup_insert. case_decide; [|naive_solver]. subst. eexists.
    split; [done|]. by simplify_eq. }
  split.
  - split.
    + intros x e. rewrite lookup_insert. case_decide; [by intros [= <-]|]. apply WL.
    + intros x e He. destruct (decide (x = a)) as [->|Hx].
      { rewrite lookup_insert_eq in He. injection He as <-. by left. }
      destruct (B _ _ He) as (e0 & He0 & _ & _ & _ & Heq). rewrite Heq in * by done.
      destruct (l_next _ WL _ _ He0) as [?|(? & n & Hn' & ?)]; [by left|right; split; [done|]].
      destruct (B' _ _ Hn') as (n1 & ? & _ & ? & _). exists n1. split; congruence.
    + intros x e He. destruct (B _ _ He) as (e0 & He0 & _ & -> & _ & _).
      destruct (l_prev _ WL _ _ He0) as [?|(n & Hn' & ?)]; [by left|right].
      destruct (B' _ _ Hn') as (n1 & ? & _ & _ & ?). exists n1. split; congruence.
  - apply (lists_ext NONE H); [|done]. intros x. rewrite lookup_insert. case_decide; [|done].
    subst. rewrite Ha. simpl. unfold fview. simpl. by rewrite Hj.
  - split.
    + intros x e d He Hd. destruct (decide (x = a)) as [->|Hx].
      * rewrite lookup_insert_eq in He. injection He as <-. simpl in Hd. congruence.
      * rewrite lookup_insert_ne in He by done. by eapply WK.
    + intros x e He Hp. destruct (B _ _ He) as (e0 & He0 & E & _). apply (k_junk _ _ WK x e0); congruence.
    + intros x Hx. destruct (k_J _ _ WK x Hx) as (e & He & Hp).
      destruct (B' _ _ He) as (e1 & ? & ? & _). exists e1. split; congruence.
  - intros x e He Hf. destruct (B _ _ He) as (e0 & He0 & Ep & _ & En & _).
    assert (Hf0 : is_free e0 = true) by (unfold is_free in *; by rewrite <- Ep).
    destruct (WC _ _ He0 Hf0) as [W1 W2]. rewrite En. split; [|done]. intros n Hn'.
    destruct (B _ _ Hn') as (n0 & Hn0 & Epn & _). specialize (W1 _ Hn0). unfold is_free in *.
    by rewrite Epn.
Qed.

(** A chain of its own *)
Lemma wf_add H F J last a b :
  wf H F J last -> positive H -> H !! a = None -> b_pay b = Junk -> b_sz b = b_len b ->
  b_prev b = 0 -> b_next b = 0 -> wf (<[a := b]> H) F (J ∪ {[a]}) last.
Proof.
  intros [WL WF WK WC] Hpos Ha Hj Hsz Hp Hn.
  assert (B' : forall x e, H !! x = Some e -> <[a := b]> H !! x = Some e).
  { intros x e He. rewrite lookup_insert_ne; [done|]. congruence. }
  split.
  - split; intros x e; rewrite lookup_insert; (case_decide; [intros [= <-]; by auto|]); intros He.
    + by apply (l_sz _ WL x).
    + destruct (l_next _ WL _ _ He) as [?|(? & n & Hn' & ?)]; [by left|right; split; [done|]]. eauto.
    + destruct (l_prev _ WL _ _ He) as [?|(n & Hn' & ?)]; [by left|right]. eauto.
  - apply (lists_ext NONE H); [|done]. intros x. rewrite lookup_insert. case_decide; [|done].
    subst. rewrite Ha. simpl. unfold fview. by rewrite Hj.
  - split.
    + intros x e d. rewrite lookup_insert. case_decide; [intros [= <-]; congruence|]. apply WK.
    + intros x e. rewrite lookup_insert. case_decide; [set_solver|]. intros He Hp'.
      pose proof (k_junk _ _ WK _ _ He Hp'). set_solver.
    + intros x [Hx| ->%elem_of_singleton]%elem_of_union.
      * destruct (k_J _ _ WK x Hx) as (e & He & ?). eauto.
      * exists b. by rewrite lookup_insert_eq.
  - intros x e. rewrite lookup_insert. case_decide; [intros [= <-]; by rewrite is_free_junk|].
    intros He Hf. destruct (WC _ _ He Hf) as [W1 W2]. split; [|done]. intros n.
    rewrite lookup_insert. case_decide; [intros [= <-]; by rewrite is_free_junk|]. apply W1.
Qed.

(** The call of sbrk that extendsbrk makes for [szneed] bytes fails. *)
Definition sbrk_fails (szneed : Z) (s : nmst) : Prop :=
  exists expected sys m,
    sbrk (wrap_s 32 (sbrk_size szneed expected)) (n_sys s) (n_mem s) = (SBRK_ERR, sys, m).

(** What extendsbrk leaves *)
Definition extended (s : nmst) H F last szneed r (s' : nmst) : Prop :=
  r = 0 /\ sbrk_fails szneed s /\ (exists o', inv s' H F last o') \/
  exists H' F' o' bl, inv s' H' F' r o' /\ H' !! r = Some bl /\ szneed + 48 <= b_len bl /\
    (forall x, dat H' x = dat H x).

(** More memory leaves the heap as it is. *)
Lemma SR_grow s H F last o r d m' sys' :
  SR s H F last o -> 0 <= d -> sbrk_gave NONE (n_mem s) r d m' ->
  SR (mk_nm m' (freehdrs s) (lastsbrkbgn s) (sbrkbgn s) sys') H F last (o.1.1, o.1.2, sys') /\
  rng m' r d /\
  (forall x c, H !! x = Some c -> 0 < d -> x + b_len c <= r \/ r + d <= x).
Proof.
  intros Hs Hd0 (Hr & Htop & Hnone & Hfresh & Hruns & l & Hl & Hok & ->). split_and!.
  - destruct Hs as [Hrep Hlen Hla Hhd <-]. split; cbn [n_mem freehdrs lastsbrkbgn sbrkbgn n_sys]; try done.
    subst d. by apply rep_grow.
  - intros x Hx. rewrite lookup_write_bytes, decide_True by lia. apply lookup_lt_is_Some. lia.
  - intros x c Hx Hd. pose proof (SR_blk _ _ _ _ _ _ Hs _ _ Hx) as Hb.
    pose proof (SR_fields _ _ _ _ _ _ Hs _ _ Hx) as (_ & _ & _ & ?).
    apply (rng_fresh (n_mem s)); [apply Hb|done|lia|done].
Qed.

Lemma extend_adjacent s H F last o bl szneed d m' sys' :
  inv s H F last o -> last <> 0 -> H !! last = Some bl ->
  48 <= szneed -> szneed + 64 <= d -> sbrk_gave NONE (n_mem s) (last + b_len bl) d m' ->
  wp (sz ← sz_ last; _ ← set_sz last (wrap_u 32 (sz + d)); mret last)
    (extended s H F last szneed)
    (mk_nm m' (freehdrs s) (lastsbrkbgn s) (sbrkbgn s) sys').
Proof.
  intros [Hs Hw Hl Hnz] Hl0 Hbl Hsz Hd Hg.
  assert (Hd0 : 0 <= d) by lia.
  destruct (SR_grow _ _ _ _ _ _ _ _ sys' Hs Hd0 Hg) as (Hs1 & Hrg & Hdis).
  destruct Hg as (Hr & Htop & _ & _ & Hruns & _).
  destruct Hl as [?|(bl' & Hbl' & Hj & Hn & Hf)]; [done|]. rewrite Hbl in Hbl'. injection Hbl' as <-.
  pose proof (SR_fields _ _ _ _ _ _ Hs _ _ Hbl) as (_ & _ & _ & Hlr).
  assert (Hsum : b_len bl + d < 2 ^ 32).
  { apply (Hruns last). intros x Hx. destruct (decide (x < last + b_len bl)).
    - apply (ba_rng _ _ _ (SR_blk _ _ _ _ _ _ Hs1 _ _ Hbl)). lia.
    - apply Hrg. lia. }
  set (L := b_len bl + d).
  assert (Hs2 : SR (mk_nm m' (freehdrs s) (lastsbrkbgn s) (sbrkbgn s) sys')
    (<[last := up_len L bl]> H) F last (o.1.1, o.1.2, sys')).
  { eapply SR_view; [done|]. apply rep_extend; try done; try lia; [apply Hs1|].
    intros x c Hc. apply Hdis; [done|lia]. }
  go. rewrite (l_sz _ (wf_links _ _ _ _ _ Hw) _ _ Hbl), wrap_u_small by lia. fold L. go. go.
  right. exists (<[last := up_len L (up_sz L bl)]> H), F. eexists _, (up_len L (up_sz L bl)).
  split_and!; [split| | |].
  - eapply SR_eq; [eassumption|]. heap_eq.
  - by apply wf_relen.
  - right. exists (up_len L (up_sz L bl)). split_and!; [hl|done..].
  - done.
  - hl.
  - simpl. unfold L. lia.
  - intros x. rewrite dat_insert. case_decide; [|done]. subst x. unfold dat. rewrite Hbl. simpl. by rewrite Hj.
Qed.

Lemma recordnewsbrk_spec s H F last o bk :
  SR s H F last o -> wp (recordnewsbrk bk) (fun _ s' => exists o', SR s' H F last o') s.
Proof.
  intros Hs. unfold wp, recordnewsbrk. destruct (_ <? _); [case_bool_decide|]; [eauto| |eauto].
  destruct Hs. eexists. by split.
Qed.

Lemma align_up r :
  let e := Z.land ALIGNMASK r in
  let delta := if e =? 0 then 0 else ALIGN - e in
  0 <= delta < 16 /\ (r + delta) mod 16 = 0.
Proof.
  cbv zeta. unfold ALIGNMASK, ALIGN. rewrite Z.land_comm. change (16 - 1) with (Z.ones 4).
  rewrite Z.land_ones by lia. change (2 ^ 4) with 16. pose proof (Z.mod_pos_bound r 16 ltac:(lia)).
  destruct (Z.eqb_spec (r mod 16) 0) as [E|E]; (split; [lia|]).
  - by rewrite Z.add_0_r.
  - rewrite Z.add_mod, Zminus_mod_idemp_r by lia. rewrite <- Z.add_mod by lia.
    replace (r + (16 - r)) with (1 * 16) by lia. apply Z.mod_mul. lia.
Qed.

Lemma extend_elsewhere s H F last o szneed d r m' sys' :
  inv s H F last o -> 48 <= szneed -> szneed + 64 <= d < 2 ^ 31 -> sbrk_gave NONE (n_mem s) r d m' ->
  (forall bl, H !! last = Some bl -> 40 <= b_len bl) ->
  let e := Z.land ALIGNMASK r in
  let delta := if e =? 0 then 0 else ALIGN - e in
  let m := r + delta in
  wp (_ ← set_sz m (wrap_u 32 (d - delta)); _ ← set_next m 0; _ ← set_prev m 0;
      _ ← set_nextfree m 0; _ ← mv2freelist trapped NONE last; _ ← set_lastsbrk m;
      _ ← recordnewsbrk m; mret m)
    (extended s H F last szneed)
    (mk_nm m' (freehdrs s) (lastsbrkbgn s) (sbrkbgn s) sys').
Proof.
  intros [Hs Hw Hl Hnz] Hsz Hd Hg Hst e delta m. pose proof NONE_ok.
  assert (Hd0 : 0 <= d) by lia.
  destruct (SR_grow _ _ _ _ _ _ _ _ sys' Hs Hd0 Hg) as (Hs1 & Hrg & Hdis).
  destruct Hg as (Hr & Htop & _). destruct (align_up r) as [Hdl Hal]. fold e delta m in Hdl, Hal.
  destruct (rep_add NONE m' H m (d - delta)) as (Hm & p & n & z & f & Hr1); try done; try lia; [apply Hs1|..].
  { intros x Hx. apply Hrg. lia. }
  { intros x c Hc. destruct (Hdis x c Hc); lia. }
  assert (Hpos : positive H) by (by eapply SR_positive).
  assert (Hml : m <> last).
  { intros E. destruct Hl as [->|(bl & Hbl & _)]; [lia|congruence]. }
  pose proof (SR_view NONE _ _ _ _ _ Hs1 _ Hr1) as Hs2.
  rewrite wrap_u_small by lia. go. go. go. go.
  set (nb := mk_blk (d - delta) 0 0 (d - delta) 0 Junk).
  assert (Hsn : SR s3 (<[m := nb]> H) F last (o.1.1, o.1.2, sys')).
  { eapply SR_eq; [eassumption|]. unfold nb. heap_eq. }
  assert (Hw3 : wf (<[m := nb]> H) F (only_last last ∪ {[m]}) last) by (by apply wf_add).
  apply nwp_bind.
  eapply wp_mono with (Q := fun _ s' => exists H' F', SR s' H' F' last (o.1.1, o.1.2, sys') /\
    wf H' F' {[m]} last /\ H' !! m = Some nb /\ forall x, dat H' x = dat H x).
  { assert (Hdn : forall x, dat (<[m := nb]> H) x = dat H x).
    { intros x. rewrite dat_insert. case_decide; [|done]. subst x. unfold dat. by rewrite Hm. }
    destruct Hl as [->|(bl & Hbl & Hj & Hnl & Hfl)].
    - apply nwp_ret. exists (<[m := nb]> H), F. split_and!; try done; [|hl].
      eapply wf_J; [done|]. unfold only_last. rewrite decide_True by done. set_solver.
    - assert (Hl0 : last <> 0) by (destruct (Hpos _ _ Hbl); lia).
      eapply wp_mono; [eapply (retire_spec trapped NONE NONE_ok _ _ _ _ _ m nb bl); try done|].
      + by rewrite <- only_last_nz.
      + by rewrite lookup_insert_ne.
      + by apply Hst.
      + hl.
      + cbv beta. intros [] s5 (H5 & F5 & ? & ? & ? & Hd5). exists H5, F5. split_and!; try done.
        intros x. by rewrite Hd5. }
  cbv beta. intros [] s6 (H6 & F6 & Hs6 & Hw6 & Hm6 & Hd6).
  apply nwp_bind. eapply wp_set_lastsbrk; [done|]. intros s7 Hs7. apply nwp_bind.
  eapply wp_mono; [by eapply recordnewsbrk_spec|]. cbv beta. intros [] s8 [o8 Hs8]. apply nwp_ret.
  right. exists H6, F6, o8, nb. split_and!; [split|done| |done].
  - done.
  - rewrite only_last_nz by lia. eapply wf_last; [done|by eapply SR_positive|done|].
    intros q. unfold nb. fields. rewrite not_in_zero; [done|by eapply SR_positive].
  - right. by exists nb.
  - lia.
  - unfold nb. simpl. lia.
Qed.

Lemma extendsbrk_spec s H F last o szneed :
  inv s H F last o -> 48 <= szneed <= INT_MAX - 65536 -> retires szneed s = false ->
  wp (extendsbrk trapped NONE szneed) (extended s H F last szneed) s.
Proof.
  intros Hi Hsz Hret. pose proof Hi as [Hs Hw Hl Hnz]. pose proof (sr_rep _ _ _ _ _ _ Hs) as Hrep.
  unfold extendsbrk. go. unfold retires in Hret.
  assert (Hll : lastsbrk s = Done (last, s)).
  { unfold lastsbrk, hdr. change (0 <? 0) with false. change (Z.to_nat 0) with 0%nat. cbn iota.
    by rewrite (sr_last _ _ _ _ _ _ Hs). }
  rewrite Hll in Hret.
  assert (Hcall : forall e (Q : Z -> nmst -> Prop),
    (forall r sys' m', sbrk (wrap_s 32 (sbrk_size szneed e)) (n_sys s) (n_mem s) = (r, sys', m') ->
      r = SBRK_ERR /\ m' = n_mem s \/ sbrk_gave NONE (n_mem s) r (sbrk_size szneed e) m' ->
      Q r (mk_nm m' (freehdrs s) (lastsbrkbgn s) (sbrkbgn s) sys')) ->
    wp (call_sbrk (wrap_s 32 (sbrk_size szneed e))) Q s).
  { intros e Q HQ. unfold wp, call_sbrk. destruct (sbrk _ _ _) as [[r sys'] m'] eqn:E.
    apply HQ; [done|]. destruct (sbrk_size_spec szneed e Hsz) as [Hb Hwr]. rewrite Hwr in E.
    eapply sbrk_law; [|apply Hrep..|done]. unfold INT_MAX in Hsz. lia. }
  assert (Hfail : forall e sys', sbrk (wrap_s 32 (sbrk_size szneed e)) (n_sys s) (n_mem s) =
      (SBRK_ERR, sys', n_mem s) -> extended s H F last szneed 0
    (mk_nm (n_mem s) (freehdrs s) (lastsbrkbgn s) (sbrkbgn s) sys')).
  { intros e sys' E. left. split; [done|]. split; [by eexists _, _, _|]. eexists (_, _, sys'). split; [|done..]. destruct Hs. by split. }
  assert (Hne : forall r d m', sbrk_gave NONE (n_mem s) r d m' -> 0 < d -> (r =? SBRK_ERR) = false).
  { intros r d m' (? & ? & _) Hd. unfold SBRK_ERR. lia. }
  destruct (Z.eqb_spec last 0) as [E|E].
  - go. apply nwp_bind, Hcall. intros r sys' m' Eq [[-> ->]|Hg].
    + rewrite Z.eqb_refl. by eapply nwp_ret, Hfail.
    + destruct (sbrk_size_spec szneed 0 Hsz) as [Hb _]. rewrite (Hne _ _ _ Hg ltac:(lia)).
      pose proof Hg as (Hr & _). replace (r =? 0) with false by lia.
      apply extend_elsewhere with o; try done; [lia|].
      intros bl Hbl. rewrite E, not_in_zero in Hbl; [done|by eapply SR_positive].
  - destruct Hl as [?|(bl & Hbl & Hj & Hnl & Hfl)]; [done|].
    pose proof (l_sz _ (wf_links _ _ _ _ _ Hw) _ _ Hbl) as Ez.
    apply nwp_bind. go. rewrite Ez. go.
    assert (Hsz' : sz_ last s = Done (b_len bl, s)).
    { unfold sz_, rd. rewrite (ld_at _ _ _ _ (ba_sz _ _ _ (SR_blk _ _ _ _ _ _ Hs _ _ Hbl))), bind_Done.
      by rewrite Ez. }
    rewrite Hsz' in Hret. apply nwp_bind, Hcall. intros r sys' m' Eq [[-> ->]|Hg].
    + rewrite Z.eqb_refl. by eapply nwp_ret, Hfail.
    + destruct (sbrk_size_spec szneed (last + b_len bl) Hsz) as [Hb _].
      rewrite (Hne _ _ _ Hg ltac:(lia)). rewrite Eq, (Hne _ _ _ Hg ltac:(lia)) in Hret.
      destruct (Z.eqb_spec r (last + b_len bl)) as [Er|Er].
      * subst r. apply (extend_adjacent s H F last o bl); try done; lia.
      * apply extend_elsewhere with o; try done; [lia|]. intros bl' Hbl'.
        rewrite Hbl in Hbl'. injection Hbl' as <-. cbn [negb andb] in Hret.
        rewrite !andb_true_r in Hret. lia.
Qed.

End Thms.
