(* ===== verification/NmAlloc.v ===== *)
(** * The allocator: malloc, free, realloc and calloc

    The specifications of nmalloc, nfree and nrealloc on the invariant. *)

From stdpp Require Import base gmap list numbers sets.
From Stdlib Require Import ZArith Lia.
From S2P Require Import Prelude MemFuns NMalloc NmRep NmInv NmLists NmOps NmSplit NmThms.

Open Scope Z_scope.

Section Alloc.
Context {SA : SbrkApi} (trapped : bool) (NONE : Z) {laws : SbrkLaws NONE}.

Abbreviation SR := (SR NONE).
Abbreviation wf := (wf NONE).
Abbreviation inv := (inv NONE).
Implicit Types (H : gmap Z blk) (F : Z -> list Z) (J : gset Z).

(** The heap is in order and its blocks are those of [H]. *)
Definition nm_ok (s : nmst) H : Prop := exists F last o, inv s H F last o.

(** ** malloc *)

(** malloc gives NULL and changes nothing, or a block. *)
Definition allocated (s : nmst) H (szneed m : Z) (s' : nmst) : Prop :=
  m = 0 /\ (sbrk_fails szneed s \/ INT_MAX - 65536 <= szneed) /\ (exists H', nm_ok s' H' /\ forall x, dat H' x = dat H x) \/
  gives NONE H szneed m s'.

(** [szneed], after [if (!sz) sz++;] *)
Definition need (size : Z) : Z := roundup (if size =? 0 then size + 1 else size).

Lemma need_spec size :
  0 <= size <= 2 ^ 32 - 64 ->
  need size mod 16 = 0 /\ 48 <= need size < 2 ^ 32 /\ size + 32 <= need size.
Proof.
  intros Hs. unfold need. destruct (Z.eqb_spec size 0) as [->|E].
  - destruct (roundup_spec (0 + 1)) as (? & ? & ?); lia.
  - destruct (roundup_spec size) as (? & ? & ?); lia.
Qed.

Lemma inv_last_blk s H F last o :
  inv s H F last o -> last <> 0 ->
  exists bl, H !! last = Some bl /\ b_sz bl = b_len bl /\ b_pay bl = Junk /\ b_next bl = 0 /\ b_nf bl = 0.
Proof.
  intros [Hs Hw Hl Hnz] Hl0. destruct Hl as [?|(bl & Hbl & ? & ? & ?)]; [done|].
  exists bl. split_and!; try done. by apply (l_sz _ (wf_links _ _ _ _ _ Hw) _ _ Hbl).
Qed.

Lemma nmalloc_spec s H size :
  nm_ok s H -> 0 <= size <= 2 ^ 32 - 64 -> retires (need size) s = false ->
  wp (nmalloc trapped NONE size) (fun p s' => exists m, p = (if m =? 0 then 0 else m + 32) /\
    allocated s H (need size) m s') s.
Proof.
  intros (F & last & o & Hi) Hsize Hret. destruct (need_spec size Hsize) as (Hal & Hneed & _).
  unfold nmalloc. fold (need size). cbv zeta. set (sz := need size) in *.
  destruct (Z.ltb_spec sz (INT_MAX - 65536)) as [Hlim|Hlim].
  2: { apply nwp_ret. exists 0. split; [done|]. left. split; [done|]. split; [by right|].
       exists H. split; [by exists F, last, o|done]. }
  apply nwp_bind. eapply wp_mono; [by eapply searchfree_spec|]. cbv beta. intros b s0 [-> Hf].
  apply nwp_bind. eapply wp_mono with (Q := fun m s' => allocated s H sz m s').
  2: { cbv beta. intros m s' Hm. apply nwp_ret. by exists m. }
  destruct (Z.eqb_spec b 0) as [Eb|Eb]; cbn [negb].
  2: { eapply wp_mono; [eapply take_from_list_spec; (done || lia)|]. intros m s'. by right. }
  pose proof (inv_SR _ _ _ _ _ _ Hi) as Hs.
  assert (Hext : wp (m1 ← extendsbrk trapped NONE sz;
    if m1 =? 0 then mret 0
    else sz1 ← sz_ m1; if sz1 <? sz + MINSAVE then mret m1 else split_last trapped sz)
    (fun m s' => allocated s H sz m s') s).
  { apply nwp_bind. eapply wp_mono; [eapply extendsbrk_spec; (done || lia)|]. cbv beta.
    intros r s1 [(-> & Hsf & o' & Hi1)|(H1 & F1 & o1 & bl & Hi1 & Hbl & Hlen & Hd)].
    - rewrite Z.eqb_refl. apply nwp_ret. left. split; [done|]. split; [by left|]. exists H.
      split; [by exists F, last, o'|done].
    - pose proof (inv_SR _ _ _ _ _ _ Hi1) as Hs1.
      pose proof (SR_addr _ _ _ _ _ _ Hs1 _ _ Hbl). replace (r =? 0) with false by lia.
      go. rewrite (l_sz _ (wf_links _ _ _ _ _ (inv_wf _ _ _ _ _ _ Hi1)) _ _ Hbl).
      change MINSAVE with 48. replace (b_len bl <? sz + 48) with false by lia.
      eapply wp_mono; [eapply split_last_spec; (done || lia)|]. cbv beta.
      intros m s2 [-> (H2 & F2 & l2 & o2 & d & ? & ? & ? & Hd1 & ? & ? & ? & Hd2)]. right.
      exists H2, F2, l2, o2, d. split_and!; try done; [by rewrite <- Hd|].
      intros x Hx. by rewrite Hd2, Hd. }
  go. destruct (Z.eqb_spec last 0) as [El|El]; [go; exact Hext|].
  destruct (inv_last_blk _ _ _ _ _ Hi El) as (bl & Hbl & Ez & _). apply nwp_bind. go. rewrite Ez. go.
  change DATAOFFSET with 32. destruct (Z.leb_spec (sz + 32) (b_len bl)); [|exact Hext].
  eapply wp_mono; [eapply split_last_spec; (done || lia)|]. cbv beta. intros m s' [_ Hg]. by right.
Qed.

(** ** free *)

Lemma dat_blk s H F last o m d :
  inv s H F last o -> dat H m = Some d ->
  exists b, H !! m = Some b /\ b_pay b = Data d /\ b_nf b = 0 /\ b_sz b = b_len b /\
    Z.of_nat (length d) = b_len b - 32 /\ 48 <= b_len b < 2 ^ 32 /\ 0 < m /\ last <> 0 /\ m <> last.
Proof.
  intros [Hs Hw Hl Hnz] (b & Hb & Hd)%dat_Some. exists b.
  destruct (k_data _ _ (wf_kinds _ _ _ _ _ Hw) _ _ _ Hb Hd).
  pose proof (SR_fields _ _ _ _ _ _ Hs _ _ Hb). pose proof (SR_addr _ _ _ _ _ _ Hs _ _ Hb).
  pose proof (ba_pay _ _ _ (SR_blk _ _ _ _ _ _ Hs _ _ Hb)) as Hp. rewrite Hd in Hp. destruct Hp as [Hld _].
  assert (last <> 0) by (intros E%Hnz; by rewrite E, lookup_empty in Hb).
  split_and!; try done; try lia.
  - by apply (l_sz _ (wf_links _ _ _ _ _ Hw) _ _ Hb).
  - intros ->. destruct Hl as [?|(bl & Hbl & ? & _)]; [done|congruence].
Qed.

(** [ISFREE(m) || FOULED(m)] of a block of the client's *)
Lemma not_fouled s H F last o m d {A} (k : bool -> N A) Q' :
  inv s H F last o -> dat H m = Some d -> wp (k false) Q' s ->
  wp (f ← ISFREE NONE m; bad ← (if f : bool then mret true else FOULED m); k bad) Q' s.
Proof.
  intros Hi Hd HQ. destruct (dat_blk _ _ _ _ _ _ _ Hi Hd) as (b & Hb & Hp & Hnf & _ & _ & _ & _ & Hl0 & _).
  pose proof (inv_SR _ _ _ _ _ _ Hi) as Hs. apply nwp_bind.
  eapply ISFREE_spec; [apply NONE_ok|done|apply Hi|done|done|].
  unfold is_free. rewrite Hp. apply nwp_bind. unfold FOULED. go.
  replace (last =? 0) with false by lia. go. rewrite Hnf. go. rewrite Z.eqb_refl. done.
Qed.

Lemma nfree_spec s H p d :
  nm_ok s H -> dat H (p - 32) = Some d ->
  wp (nfree trapped NONE p) (fun _ s' => exists H', nm_ok s' H' /\
    forall x, dat H' x = if decide (x = p - 32) then None else dat H x) s.
Proof.
  intros (F & last & o & Hi) Hd.
  destruct (dat_blk _ _ _ _ _ _ _ Hi Hd) as (b & Hb & Hp & _ & _ & _ & _ & Hpos & _).
  unfold nfree. replace (p =? 0) with false by lia. change (MEMBLKp p) with (p - 32). cbv zeta.
  eapply not_fouled; [done|done|]. cbv beta iota.
  eapply wp_mono; [eapply dofree_spec; try done; apply NONE_ok|]. cbv beta.
  intros [] s' (H' & F' & l' & Hi' & Hd'). exists H'. split; [by exists F', l', o|done].
Qed.

(** ** realloc *)

(** The block [m], with data [d], has become the block [r] of at least [szneed] bytes. *)
Definition regrown H (m : Z) (d : list Z) (szneed r : Z) (s' : nmst) : Prop := exists H' d',
  nm_ok s' H' /\ 0 < r /\ r mod 16 = 0 /\ dat H' r = Some d' /\ bytes_ok d' /\
  szneed - 32 <= Z.of_nat (length d') /\
  take (Nat.min (length d) (Z.to_nat (szneed - 32))) d' =
  take (Nat.min (length d) (Z.to_nat (szneed - 32))) d /\
  (r <> m -> dat H r = None /\ dat H' m = None) /\
  (forall x, x <> m -> x <> r -> dat H' x = dat H x).

Lemma dat_ok s H F last o m d : inv s H F last o -> dat H m = Some d -> bytes_ok d.
Proof.
  intros Hi (b & Hb & Hd)%dat_Some. eapply rep_data_ok; [|done|done].
  apply (sr_rep _ _ _ _ _ _ (inv_SR _ _ _ _ _ _ Hi)).
Qed.

Lemma inv_al s H F last o m d : inv s H F last o -> dat H m = Some d -> m mod 16 = 0.
Proof.
  intros Hi (b & Hb & Hd)%dat_Some. apply (SR_blk _ _ _ _ _ _ (inv_SR _ _ _ _ _ _ Hi) _ _ Hb).
Qed.

Lemma take_prefix {A} (d x : list A) n : (n <= length d)%nat -> take n (d ++ x) = take n d.
Proof. intros. by rewrite take_app_le. Qed.

(** trim of a block whose data starts with [d] *)
Lemma trim_regrown s H H0 F last o m d x szneed :
  inv s H F last o -> dat H m = Some (d ++ x) -> szneed mod 16 = 0 -> 48 <= szneed ->
  szneed - 32 <= Z.of_nat (length (d ++ x)) ->
  (forall y, y <> m -> dat H y = dat H0 y) ->
  wp (trim trapped NONE m szneed) (fun r s' => r = m /\ regrown H0 m d szneed m s') s.
Proof.
  intros Hi Hd Hal Hsz Hlen Hd0.
  destruct (dat_blk _ _ _ _ _ _ _ Hi Hd) as (b & Hb & Hp & _ & _ & Hl & _ & Hpos & _).
  eapply wp_mono; [eapply trim_spec; (done || lia)|]. cbv beta.
  intros r s' (-> & H' & F' & l' & d' & Hi' & Hd' & Hl' & Ht & Hdx). split; [done|].
  exists H', d'. split_and!; [by exists F', l', o|done|by eapply inv_al|done|by eapply dat_ok|done| |done|].
  - rewrite <- (take_prefix d x _ (Nat.le_min_l _ _)).
    rewrite <- !take_take. by rewrite Ht.
  - intros y Hy _. rewrite Hdx by done. by apply Hd0.
Qed.

(** The data is copied to a fresh block and the old block is freed. *)
Lemma copy_free s H m m2 d szneed :
  gives NONE H szneed m2 s -> dat H m = Some d -> Z.of_nat (length d) <= szneed - 32 ->
  wp (sz ← sz_ m;
      _ ← memop (fun mem => memcpy mem (PTR m2) (PTR m) (sz - DATAOFFSET));
      _ ← dofree trapped NONE m;
      mret m2) (fun r s' => r = m2 /\ regrown H m d szneed m2 s') s.
Proof.
  intros (H1 & F1 & l1 & o1 & d2 & Hi & Hpos2 & Hal2 & Hn2 & Hd2 & Hok2 & Hl2 & Hdx) Hd Hle.
  assert (Hne : m <> m2) by congruence. rewrite <- Hdx in Hd by done.
  destruct (dat_blk _ _ _ _ _ _ _ Hi Hd) as (b & Hb & Hp & Hnf & Hz & Hlb & _ & Hpos & _).
  destruct (dat_blk _ _ _ _ _ _ _ Hi Hd2) as (b2 & Hb2 & Hp2 & Hnf2 & _ & Hlb2 & Hr2 & _).
  pose proof Hi as [Hs Hw Hl Hnz]. go. rewrite Hz.
  destruct (rep_copy NONE _ _ _ _ d m2 b2 d2 (sr_rep _ _ _ _ _ _ Hs) Hb Hp Hb2 Hp2 Hne) as (m' & Em & Hr'); [lia|].
  apply nwp_bind. eapply wp_memop; [done| |exact Hr'|].
  { change (PTR m2) with (m2 + 32). change (PTR m) with (m + 32). change DATAOFFSET with 32.
    rewrite <- Hlb. exact Em. }
  intros s1 Hs1. set (H2 := <[m2 := _]> H1) in *.
  assert (Hw2 : wf H2 F1 (only_last l1) l1).
  { eapply wf_J; [eapply (wf_pay NONE NONE_ok H1 F1 _ l1 m2 b2 (Data _)); [done|done|..]|].
    - unfold is_free. by rewrite Hp2.
    - split; [done|lia].
    - simpl. apply leibniz_equiv. intros x. pose proof (only_last_sub l1 x).
      destruct (dat_blk _ _ _ _ _ _ _ Hi Hd2) as (_ & _ & _ & _ & _ & _ & _ & _ & _ & ?). set_solver. }
  assert (Hi2 : inv s1 H2 F1 l1 o1).
  { destruct (dat_blk _ _ _ _ _ _ _ Hi Hd2) as (_ & _ & _ & _ & _ & _ & _ & _ & Hl10 & Hml).
    split; [done|done| |done]. destruct Hl as [?|(bl & Hbl & ?)]; [done|right]. exists bl.
    unfold H2. by rewrite lookup_insert_ne. }
  apply nwp_bind. eapply wp_mono.
  { apply (dofree_spec trapped NONE NONE_ok s1 H2 F1 l1 o1 m b d Hi2); [|done].
    unfold H2. rewrite lookup_insert_ne by congruence. done. }
  cbv beta. intros [] s2 (H3 & F3 & l3 & Hi3 & Hd3). apply nwp_ret. split; [done|].
  assert (Hd32 : dat H3 m2 = Some (d ++ drop (length d) d2)).
  { rewrite Hd3, decide_False by done. unfold H2. rewrite dat_insert. by rewrite decide_True. }
  exists H3, (d ++ drop (length d) d2).
  split_and!; [by exists F3, l3, o1|done|done|done|by eapply dat_ok| | | |].
  - rewrite length_app, length_drop. lia.
  - rewrite Nat.min_l by lia. by rewrite take_prefix.
  - intros _. split; [done|]. rewrite Hd3. by rewrite decide_True.
  - intros x Hx Hx2. rewrite Hd3, decide_False by done. unfold H2.
    rewrite dat_insert, decide_False by congruence. by apply Hdx.
Qed.

Lemma mv2lastsbrk_spec s H F last o bl m d szneed :
  inv s H F last o -> H !! last = Some bl -> szneed mod 16 = 0 -> 48 <= szneed ->
  szneed + 32 <= b_len bl -> dat H m = Some d -> Z.of_nat (length d) <= szneed - 32 ->
  wp (mv2lastsbrk trapped NONE m szneed) (fun r s' => regrown H m d szneed r s') s.
Proof.
  intros Hi Hbl Hal Hsz Hlen Hd Hle.
  destruct (dat_blk _ _ _ _ _ _ _ Hi Hd) as (_ & _ & _ & _ & _ & _ & _ & _ & Hl0 & _).
  unfold mv2lastsbrk. apply nwp_bind.
  eapply wp_mono; [eapply split_last_spec; (done || lia)|]. cbv beta. intros m2 s1 [_ Hg].
  eapply wp_mono; [eapply copy_free; (done || lia)|]. cbv beta. by intros r s' [-> ?].
Qed.

Lemma grow_by_copy_spec s H F last o m b d szneed :
  inv s H F last o -> found H F szneed b -> b <> 0 -> szneed mod 16 = 0 -> 48 <= szneed ->
  dat H m = Some d -> Z.of_nat (length d) <= szneed - 32 ->
  wp (grow_by_copy trapped NONE m b szneed) (fun r s' => regrown H m d szneed r s') s.
Proof.
  intros Hi Hf Hb Hal Hsz Hd Hle. unfold grow_by_copy. apply nwp_bind.
  eapply wp_mono; [eapply take_from_list_spec; (done || lia)|]. cbv beta. intros m2 s1 Hg.
  eapply wp_mono; [eapply copy_free; (done || lia)|]. cbv beta. by intros r s' [-> ?].
Qed.

(** The next block is free and large enough. *)
Lemma grow_up s H F last o m b n c d szneed :
  inv s H F last o -> H !! m = Some b -> b_pay b = Data d -> b_next b = n -> H !! n = Some c ->
  is_free c = true -> szneed mod 16 = 0 -> 48 <= szneed <= b_len b + b_len c ->
  wp (m ← combinehi trapped NONE m; trim trapped NONE m szneed)
    (fun r s' => regrown H m d szneed r s') s.
Proof.
  intros Hi Hb Hp Hn Hc Hfc Hal Hsz. pose proof Hi as [Hs Hw Hl Hnz].
  assert (Hd : dat H m = Some d) by (apply dat_Some; eauto).
  destruct (dat_blk _ _ _ _ _ _ _ Hi Hd) as (b' & Hb' & _ & _ & _ & Hlb & _ & _ & Hl0 & Hml).
  rewrite Hb in Hb'. injection Hb' as <-.
  assert (Hnl : n <> last).
  { intros ->. destruct (inv_last_blk _ _ _ _ _ Hi Hl0) as (bl & Hbl & _ & Hj & _).
    rewrite Hc in Hbl. injection Hbl as <-. by rewrite is_free_junk in Hfc. }
  apply nwp_bind. eapply wp_mono.
  { apply (combinehi_spec trapped NONE NONE_ok s H F _ last o m b n c Hs Hw Hb); try done;
      [unfold is_free; by rewrite Hp|by left]. }
  cbv beta. intros r s1 (-> & G & Fg & p & Hs1 & Hw1 & Hn1 & Hm1 & Hg & K & Hdg).
  rewrite Hp in Hg. destruct Hg as (x & -> & Hx).
  assert (Hi1 : inv s1 G Fg last o).
  { assert (HJ : only_last last ∖ {[n]} = only_last last).
    { apply leibniz_equiv. intros y. pose proof (only_last_sub last y). set_solver. }
    rewrite HJ in Hw1. split; [done|done| |done].
    eapply last_ok_kept; [done|done|done|apply Hw1|]. intros _. rewrite only_last_nz by done. set_solver. }
  eapply wp_mono; [eapply (trim_regrown s1 G H); try done|].
  - apply dat_Some. eauto.
  - lia.
  - rewrite length_app. lia.
  - cbv beta. by intros r s' [-> ?].
Qed.

(** [lastsbrk] is the next block and large enough. *)
Lemma grow_into_last_spec s H F last o m b bl d szneed :
  inv s H F last o -> H !! m = Some b -> b_pay b = Data d -> b_next b = last ->
  H !! last = Some bl -> szneed mod 16 = 0 -> 48 <= szneed -> b_len b < szneed ->
  szneed + 32 <= b_len b + b_len bl ->
  wp (grow_into_last trapped NONE m szneed) (fun r s' => regrown H m d szneed r s') s.
Proof.
  intros Hi Hb Hp Hn Hbl Hal Hsz1 Hgr Hsz. pose proof Hi as [Hs Hw Hl Hnz].
  assert (Hd : dat H m = Some d) by (apply dat_Some; eauto).
  destruct (dat_blk _ _ _ _ _ _ _ Hi Hd) as (b' & Hb' & _ & Hnf & _ & Hlb & _ & Hpos & Hl0 & Hml).
  rewrite Hb in Hb'. injection Hb' as <-.
  destruct (inv_last_blk _ _ _ _ _ Hi Hl0) as (bl' & Hbl' & _ & Hj & Hnx & Hfl).
  rewrite Hbl in Hbl'. injection Hbl' as <-. unfold grow_into_last. apply nwp_bind. eapply wp_mono.
  { apply (combinehi_spec trapped NONE NONE_ok s H F _ last o m b last bl Hs Hw Hb); try done;
      [unfold is_free; by rewrite Hp|by right]. }
  cbv beta. intros r s1 (-> & G & Fg & p & Hs1 & Hw1 & Hn1 & Hm1 & Hg & K & Hdg).
  rewrite Hp in Hg. destruct Hg as (x & -> & Hx). set (j := joined b bl (Data (d ++ x))) in *.
  assert (Hlj : b_len j = b_len b + b_len bl) by done.
  assert (Hfj : is_free j = false) by done.
  assert (H48 : 48 <= szneed) by lia. assert (H32 : szneed + 32 <= b_len j) by lia.
  destruct (lower_wf NONE _ _ _ _ _ _ _ _ _ Hs1 Hw1 Hm1 Hfj Hal H48 H32) as [Hnew Hw2].
  apply nwp_bind. eapply wp_mono; [eapply split_spec; done|]. cbv beta. intros r s2 [-> Hs2].
  apply nwp_bind. eapply wp_set_lastsbrk; [done|]. intros s3 Hs3. apply nwp_ret.
  assert (Hup : carved G m j szneed !! (m + szneed) = Some (upper m j szneed)) by (by apply carved_m1).
  assert (Hlo : carved G m j szneed !! m = Some (lower m j szneed)) by (by apply carved_m).
  assert (Hi3 : inv s3 (carved G m j szneed) Fg (m + szneed) o).
  { split; [done| |right; exists (upper m j szneed); by split_and!|lia].
    eapply wf_last; [|by eapply SR_positive|done|].
    - eapply wf_J; [done|]. rewrite !only_last_nz by lia. set_solver.
    - intros q. unfold upper; fields. rewrite Hlo. by intros [= <-]. }
  assert (Hd3 : dat (carved G m j szneed) m = Some (take (Z.to_nat (szneed - 32)) (d ++ x))).
  { apply dat_Some. eauto. }
  exists (carved G m j szneed), (take (Z.to_nat (szneed - 32)) (d ++ x)).
  split_and!; [by eexists _, _, _|done|by eapply inv_al|done|by eapply dat_ok| | |done|].
  - rewrite length_take, length_app. lia.
  - rewrite take_take. rewrite Nat.min_l by lia. by rewrite take_prefix by lia.
  - intros y Hy _. rewrite carved_dat by done. by apply Hdg.
Qed.

(** The heap after the block [m] has moved down into the block [p] in front *)
Lemma moved_wf H F J last p c m b d x :
  wf H F J last -> positive H -> H !! p = Some c -> b_pay c = Junk -> b_nf c = 0 ->
  H !! m = Some b -> b_pay b = Data d -> b_next c = m -> 48 <= b_len b ->
  let G := <[p := up_pay (Data (d ++ x)) (joined c b Junk)]> (merged H p c m b Junk) in
  wf G F (J ∖ {[p]}) last /\ (forall y, y <> p -> y <> m -> dat G y = dat H y) /\ G !! m = None /\
  kept H G p.
Proof.
  intros Hw Hpos Hc Hjc Hnf Hb Hp Hcm Hlen G.
  destruct (merge_pos _ NONE_ok _ _ _ _ _ Hpos (wf_links _ _ _ _ _ Hw) Hc Hb Hcm) as (? & ? & Em & ? & _).
  assert (Hpm : p <> m) by lia. set (b1 := up_pay Junk b).
  assert (Hw1 : wf (<[m := b1]> H) F (J ∪ {[m]}) last).
  { apply (wf_pay NONE NONE_ok _ _ _ _ _ _ Junk); try done. unfold is_free. by rewrite Hp. }
  assert (Eg : merged H p c m b Junk = merged (<[m := b1]> H) p c m b1 Junk).
  { unfold merged. change (b_next b1) with (b_next b). change (joined c b1 Junk) with (joined c b Junk).
    f_equal. apply map_eq. intros z. rewrite !lookup_delete, !lookup_alter, !lookup_insert.
    repeat case_decide; congruence. }
  assert (Hp1 : <[m := b1]> H !! p = Some c) by (by rewrite lookup_insert_ne).
  assert (Hm1 : <[m := b1]> H !! m = Some b1) by (by rewrite lookup_insert_eq).
  assert (Hpos1 : positive (<[m := b1]> H)) by (apply positive_insert; [done|lia|done]).
  assert (Hw2 : wf (merged H p c m b Junk) F ((J ∪ {[m]}) ∖ {[m]}) last).
  { rewrite Eg. apply merged_wf; try done; [apply NONE_ok|apply Hw1|by rewrite Hjc]. }
  split_and!.
  - assert (Hw3 : wf G F (((J ∪ {[m]}) ∖ {[m]}) ∖ {[p]}) last).
    { apply (wf_pay NONE NONE_ok _ _ _ _ _ _ (Data (d ++ x))); [done| |done|].
      - rewrite lookup_merged, decide_True by done. done.
      - simpl. lia. }
    assert (m ∉ J).
    { intros Hin. destruct (k_J _ _ (wf_kinds _ _ _ _ _ Hw) _ Hin) as (e & He & Hje). congruence. }
    eapply wf_J; [done|]. set_solver.
  - intros y Hy Hym. unfold G. rewrite dat_insert, decide_False by congruence.
    rewrite Eg, merged_dat by done. rewrite dat_insert. by rewrite decide_False by congruence.
  - unfold G. rewrite lookup_insert_ne by done.
    rewrite lookup_merged, decide_False, decide_True by done. done.
  - intros y e Hy. unfold G. rewrite lookup_insert_ne by congruence. by apply kept_merged.
Qed.

(** trim of the block [p] that the data of [m] was moved to *)
Lemma trim_moved s H G F last o p m d x szneed :
  inv s G F last o -> dat G p = Some (d ++ x) -> dat G m = None -> dat H p = None -> p <> m ->
  szneed mod 16 = 0 -> 48 <= szneed -> szneed - 32 <= Z.of_nat (length (d ++ x)) ->
  (forall y, y <> p -> y <> m -> dat G y = dat H y) ->
  wp (trim trapped NONE p szneed) (fun r s' => regrown H m d szneed r s') s.
Proof.
  intros Hi Hd Hm HHp Hpm Hal Hsz Hlen Hx.
  destruct (dat_blk _ _ _ _ _ _ _ Hi Hd) as (b & Hb & Hp & _ & _ & Hl & _ & Hpos & _).
  eapply wp_mono; [eapply trim_spec; (done || lia)|]. cbv beta.
  intros r s4 (-> & H4 & F4 & l4 & d4 & Hi4 & Hd4 & Hl4 & Ht & Hdx).
  exists H4, d4. split_and!; [by eexists _, _, _|done|by eapply inv_al|done|by eapply dat_ok|done| | |].
  - rewrite <- (take_prefix d x _ (Nat.le_min_l _ _)). rewrite <- !take_take. by rewrite Ht.
  - intros _. split; [done|]. by rewrite Hdx by congruence.
  - intros y Hy Hyp. rewrite Hdx, Hx by done. done.
Qed.

Lemma grow_down_spec s H F last o m b p c d szneed :
  inv s H F last o -> H !! m = Some b -> b_pay b = Data d -> b_prev b = p ->
  H !! p = Some c -> is_free c = true -> szneed mod 16 = 0 -> 48 <= szneed <= b_len b + b_len c ->
  wp (grow_down trapped NONE m szneed) (fun r s' => regrown H m d szneed r s') s.
Proof.
  intros Hi Hb Hp Hpr Hc Hfc Hal Hsz. pose proof Hi as [Hs Hw Hl Hnz]. pose proof NONE_ok as HN.
  assert (Hd : dat H m = Some d) by (apply dat_Some; eauto).
  destruct (dat_blk _ _ _ _ _ _ _ Hi Hd) as (b' & Hb' & _ & Hnf & Hzb & Hlb & Hbr & Hpos & Hl0 & Hml).
  rewrite Hb in Hb'. injection Hb' as <-. pose proof (SR_positive _ _ _ _ _ _ Hs) as HP.
  pose proof (wf_links _ _ _ _ _ Hw) as HL. assert (Hfb : is_free b = false) by (unfold is_free; by rewrite Hp).
  assert (Hcm : b_next c = m).
  { destruct (l_prev _ HL _ _ Hb) as [E|(c' & Hc' & E)]; [destruct (HP _ _ Hc); lia|].
    rewrite Hpr, Hc in Hc'. by injection Hc' as ->. }
  destruct (merge_pos _ NONE_ok _ _ _ _ _ HP HL Hc Hb Hcm) as (Hp0 & ? & En & ? & _ & Enn).
  assert (Hpl : p <> last).
  { intros ->. destruct (inv_last_blk _ _ _ _ _ Hi Hl0) as (bl & Hbl & _ & Hj & _).
    rewrite Hc in Hbl. injection Hbl as <-. by rewrite is_free_junk in Hfc. }
  unfold grow_down. go. rewrite Hpr. apply nwp_bind. eapply wp_mono; [by eapply extractfree_wf|]. cbv beta.
  intros [] s1 (G & Fg & Hs1 & Hw1 & Hp1 & K & Hsame & Hdg).
  set (c1 := up_nf 0 (up_pay Junk c)) in *.
  assert (Hm1 : G !! m = Some b) by (apply Hsame; [lia|done|done]).
  pose proof (SR_positive _ _ _ _ _ _ Hs1) as HP1. pose proof (wf_links _ _ _ _ _ Hw1) as HL1.
  destruct (SR_sum _ _ _ _ _ _ _ _ _ _ Hs1 Hp1 Hm1 En) as [Hsum Hwr].
  pose proof (SR_fields _ _ _ _ _ _ Hs1 _ _ Hm1) as (_ & ? & _ & _).
  pose proof (SR_addr _ _ _ _ _ _ Hs _ _ Hc).
  pose proof (after_neighbour _ NONE_ok _ _ _ _ _ HP1 HL1 Hp1 Hm1 Hcm) as Haft.
  pose proof (l_sz _ HL1 _ _ Hp1) as Ezc. assert (Hpm : p <> m) by lia.
  set (L := b_len c1 + b_len b) in *.
  set (Hd2 := <[p := up_next (b_next b) (up_sz L c1)]> (alter (up_prev p) (b_next b) G)).
  assert (Htail : forall s2, SR s2 Hd2 Fg last o ->
    wp (sz ← sz_ m; _ ← memop (fun mem => memmove mem (PTR p) (PTR m) (sz - DATAOFFSET));
        trim trapped NONE p szneed) (fun r s' => regrown H m d szneed r s') s2).
  { intros s2 Hs2. assert (Hnm : b_next b <> m) by lia.
    assert (Hm2 : Hd2 !! m = Some b).
    { unfold Hd2. rewrite lookup_insert_ne, lookup_alter_ne by done. done. }
    assert (Hp2 : Hd2 !! p = Some (up_next (b_next b) (up_sz L c1))) by (unfold Hd2; hl).
    go. rewrite Hzb.
    destruct (rep_move_down NONE _ _ _ _ _ _ d (sr_rep _ _ _ _ _ _ Hs2) Hp2 Hm2 En Hp)
      as (m' & x & Emv & Hx & Hr').
    apply nwp_bind. eapply wp_memop; [done| |exact Hr'|].
    { change (PTR p) with (p + 32). change (PTR m) with (m + 32). change DATAOFFSET with 32.
      rewrite <- Hlb. exact Emv. }
    intros s3 Hs3.
    destruct (moved_wf G Fg _ last p c1 m b d x Hw1 HP1 Hp1 eq_refl eq_refl Hm1 Hp Hcm ltac:(lia))
      as (Hw3 & Hd3 & Hm3 & K3).
    set (Hd3h := <[p := up_pay (Data (d ++ x)) (joined c1 b Junk)]> (merged G p c1 m b Junk)) in *.
    assert (Hs3' : SR s3 Hd3h Fg last o).
    { eapply SR_eq; [exact Hs3|]. unfold Hd3h, Hd2, merged, joined. apply map_eq. intros z.
      rewrite !lookup_insert, !lookup_delete, !lookup_insert. by repeat case_decide. }
    assert (HJ : (only_last last ∪ {[p]}) ∖ {[p]} = only_last last).
    { apply leibniz_equiv. intros y. pose proof (only_last_sub last y). set_solver. }
    rewrite HJ in Hw3.
    assert (Hi3 : inv s3 Hd3h Fg last o).
    { split; [done|done| |done]. eapply (last_ok_kept H Hd3h _ p); [done|by eapply kept_trans|done|apply Hw3|].
      intros _. rewrite only_last_nz by done. set_solver. }
    assert (Hdp : dat Hd3h p = Some (d ++ x)) by (unfold Hd3h; rewrite dat_insert; by rewrite decide_True).
    assert (Hdm : dat Hd3h m = None) by (unfold dat; by rewrite Hm3).
    destruct (dat_blk _ _ _ _ _ _ _ Hi3 Hdp) as (b3 & Hb3 & _ & _ & _ & Hl3 & _).
    unfold Hd3h in Hb3. rewrite lookup_insert_eq in Hb3. injection Hb3 as <-.
    eapply (trim_moved s3 H Hd3h); try done.
    - unfold dat. rewrite Hc. unfold is_free in Hfc. by destruct (b_pay c).
    - lia.
    - rewrite Hl3. simpl. lia.
    - intros y Hy Hym. by rewrite Hd3, Hdg. }
  go. go. rewrite Ezc, Hzb. fold L. rewrite Hwr. go. go. go. destruct (Z.eqb_spec (b_next b) 0) as [Ez|Enz].
  - go. apply Htail. eapply SR_eq; [eassumption|]. unfold Hd2. rewrite Ez.
    apply map_eq. intros z. rewrite !lookup_insert, lookup_alter.
    repeat case_decide; simplify_eq; try done. by rewrite not_in_zero.
  - destruct (Haft Enz) as (e & He & Hea & Hen). go. apply Htail.
    eapply SR_eq; [eassumption|]. unfold Hd2. heap_eq.
Qed.

Lemma ISFREE_inv s H F last o x (Q : bool -> nmst -> Prop) :
  inv s H F last o -> x = 0 \/ is_Some (H !! x) ->
  Q (match H !! x with Some e => is_free e | None => false end) s -> wp (ISFREE NONE x) Q s.
Proof.
  intros Hi Hin HQ. pose proof Hi as [Hs Hw Hl _]. destruct Hin as [->|[e He]].
  { rewrite not_in_zero in HQ by (by eapply SR_positive). by apply ISFREE_0. }
  rewrite He in HQ. eapply ISFREE_spec; [apply NONE_ok|done|apply Hw|done| |done].
  intros Hf. destruct (b_pay e) as [d| |] eqn:Hp.
  - by eapply (k_data _ _ (wf_kinds _ _ _ _ _ Hw)).
  - unfold is_free in Hf. by rewrite Hp in Hf.
  - pose proof (k_junk _ _ (wf_kinds _ _ _ _ _ Hw) _ _ He Hp) as [-> Hl0]%only_last_sub.
    destruct (inv_last_blk _ _ _ _ _ Hi Hl0) as (bl & Hbl & _ & _ & _ & Hfl). congruence.
Qed.

Lemma adequate_spec s H F last o m b x szneed (Q : bool -> nmst -> Prop) :
  inv s H F last o -> H !! m = Some b -> x = 0 \/ is_Some (H !! x) ->
  (forall e, H !! x = Some e -> x = m + b_len b \/ m = x + b_len e) ->
  Q (match H !! x with Some e => is_free e && (szneed <=? b_len b + b_len e) | None => false end) s ->
  wp (adequate NONE m x szneed) Q s.
Proof.
  intros Hi Hb Hin Hnb HQ. pose proof Hi as [Hs Hw _ _]. pose proof (wf_links _ _ _ _ _ Hw) as HL.
  unfold adequate. apply nwp_bind. eapply ISFREE_inv; [done|done|].
  destruct (H !! x) as [e|] eqn:He; [|by apply nwp_ret].
  destruct (is_free e); [|by apply nwp_ret]. go. go.
  rewrite (l_sz _ HL _ _ Hb), (l_sz _ HL _ _ He).
  replace (wrap_u 32 (b_len b + b_len e)) with (b_len b + b_len e); [by go|]. symmetry.
  destruct (Hnb _ eq_refl) as [E|E].
  - by apply (SR_sum NONE s H F last o m b x e).
  - rewrite Z.add_comm. by apply (SR_sum NONE s H F last o x e m b).
Qed.

(** What realloc gives *)
Definition reallocated (s : nmst) H (m : Z) (d : list Z) (szneed r : Z) (s' : nmst) : Prop :=
  r = 0 /\ (sbrk_fails szneed s \/ INT_MAX - 65536 < szneed) /\ (exists H', nm_ok s' H' /\ forall x, dat H' x = dat H x) \/ regrown H m d szneed r s'.

(** Where nothing near by is large enough *)
Lemma realloc_far s H F last o m b d szneed :
  inv s H F last o -> H !! m = Some b -> b_pay b = Data d -> szneed mod 16 = 0 ->
  48 <= szneed <= INT_MAX - 65536 -> b_len b < szneed -> retires szneed s = false ->
  wp (b ← searchfree szneed;
      if negb (b =? 0) then grow_by_copy trapped NONE m b szneed
      else
        room ← (if last =? 0 then mret false
                else lsz ← sz_ last; mret (szneed + MINSAVE <=? lsz));
        if room : bool then mv2lastsbrk trapped NONE m szneed
        else
          m1 ← extendsbrk trapped NONE szneed;
          if m1 =? 0 then mret 0
          else
            l ← lastsbrk;
            n ← next_ m;
            if l =? n then grow_into_last trapped NONE m szneed
            else mv2lastsbrk trapped NONE m szneed)
    (fun r s' => reallocated s H m d szneed r s') s.
Proof.
  intros Hi Hb Hp Hal Hsz Hgr Hret. pose proof Hi as [Hs Hw _ _].
  assert (Hd : dat H m = Some d) by (apply dat_Some; eauto).
  destruct (dat_blk _ _ _ _ _ _ _ Hi Hd) as (b' & Hb' & _ & _ & _ & Hlb & _ & _ & Hl0 & _).
  rewrite Hb in Hb'. injection Hb' as <-. unfold INT_MAX in Hsz.
  destruct (inv_last_blk _ _ _ _ _ Hi Hl0) as (bl & Hbl & Ez & _).
  apply nwp_bind. eapply wp_mono; [eapply (searchfree_spec NONE); [done|lia]|]. cbv beta. intros r s0 [-> Hf].
  destruct (Z.eqb_spec r 0) as [Er|Er]; cbn [negb].
  2: { eapply wp_mono; [apply (grow_by_copy_spec s H F last o m r d szneed); (done || lia)|].
       intros ? ? ?. by right. }
  replace (last =? 0) with false by lia. apply nwp_bind. go. rewrite Ez. go. change MINSAVE with 48.
  destruct (Z.leb_spec (szneed + 48) (b_len bl)).
  { eapply wp_mono; [apply (mv2lastsbrk_spec s H F last o bl m d szneed); (done || lia)|].
    intros ? ? ?. by right. }
  apply nwp_bind. eapply wp_mono; [eapply (extendsbrk_spec trapped NONE); [done|unfold INT_MAX; lia|done]|]. cbv beta.
  intros r1 s1 [(-> & Hsf & o' & Hi1)|(H1 & F1 & o1 & bl1 & Hi1 & Hbl1 & Hlen1 & Hd1)].
  - rewrite Z.eqb_refl. apply nwp_ret. left. split; [done|]. split; [by left|]. exists H. split; [by exists F, last, o'|done].
  - pose proof Hi1 as [Hs1 Hw1 _ _]. pose proof (SR_addr _ _ _ _ _ _ Hs1 _ _ Hbl1).
    replace (r1 =? 0) with false by lia. rewrite <- Hd1 in Hd.
    destruct (dat_blk _ _ _ _ _ _ _ Hi1 Hd) as (b1 & Hb1 & Hp1 & _ & _ & Hlb1 & _).
    assert (Hre : forall r s', regrown H1 m d szneed r s' -> reallocated s H m d szneed r s').
    { intros r2 s2 (G2 & d2 & ? & ? & ? & ? & ? & ? & ? & Hm2 & Hdx). right. exists G2, d2.
      split_and!; try done.
      - intros Hne. destruct (Hm2 Hne). by rewrite <- Hd1.
      - intros x Hx1 Hx2. rewrite Hdx, Hd1; done. }
    go. go. destruct (Z.eqb_spec r1 (b_next b1)) as [E|E].
    + eapply wp_mono; [apply (grow_into_last_spec s1 H1 F1 r1 o1 m b1 bl1 d szneed); (done || lia)|]. done.
    + eapply wp_mono; [apply (mv2lastsbrk_spec s1 H1 F1 r1 o1 bl1 m d szneed); (done || lia)|]. done.
Qed.

(** Where neither the next block nor [lastsbrk] behind it will do *)
Lemma realloc_near s H F last o m b d szneed :
  inv s H F last o -> H !! m = Some b -> b_pay b = Data d -> szneed mod 16 = 0 ->
  48 <= szneed <= INT_MAX - 65536 -> b_len b < szneed -> retires szneed s = false ->
  wp (p ← prev_ m;
      lo ← adequate NONE m p szneed;
      if lo : bool then grow_down trapped NONE m szneed
      else
        b ← searchfree szneed;
        if negb (b =? 0) then grow_by_copy trapped NONE m b szneed
        else
          room ← (if last =? 0 then mret false
                  else lsz ← sz_ last; mret (szneed + MINSAVE <=? lsz));
          if room : bool then mv2lastsbrk trapped NONE m szneed
          else
            m1 ← extendsbrk trapped NONE szneed;
            if m1 =? 0 then mret 0
            else
              l ← lastsbrk;
              n ← next_ m;
              if l =? n then grow_into_last trapped NONE m szneed
              else mv2lastsbrk trapped NONE m szneed)
    (fun r s' => reallocated s H m d szneed r s') s.
Proof.
  intros Hi Hb Hp Hal Hsz Hgr Hret. pose proof Hi as [Hs Hw _ _].
  pose proof (wf_links _ _ _ _ _ Hw) as HL. go. apply nwp_bind.
  eapply adequate_spec; [done|done|by eapply prev_in|..].
  { intros e He. right. destruct (l_prev _ HL _ _ Hb) as [E|(e' & He' & E)].
    - rewrite E, not_in_zero in He; [done|by eapply SR_positive].
    - rewrite He in He'. injection He' as <-. pose proof (SR_addr _ _ _ _ _ _ Hs _ _ Hb).
      destruct (l_next _ HL _ _ He) as [?|[? _]]; lia. }
  destruct (match H !! b_prev b with Some e => _ | None => false end) eqn:Elo.
  - destruct (H !! b_prev b) as [e|] eqn:He; [|done]. apply andb_true_iff in Elo as [Hfe Hle].
    eapply wp_mono; [apply (grow_down_spec s H F last o m b (b_prev b) e d szneed); (done || lia)|]. intros ? ? ?. by right.
  - by apply realloc_far with F o b.
Qed.

Lemma nrealloc_spec s H p size d :
  nm_ok s H -> dat H (p - 32) = Some d -> 0 <= size <= 2 ^ 32 - 64 -> retires (need size) s = false ->
  wp (nrealloc trapped NONE p size) (fun q s' => exists r, q = (if r =? 0 then 0 else r + 32) /\
    reallocated s H (p - 32) d (need size) r s') s.
Proof.
  intros (F & last & o & Hi) Hd Hsize Hret. destruct (need_spec size Hsize) as (Hal & Hneed & _).
  pose proof Hi as [Hs Hw _ _]. pose proof (wf_links _ _ _ _ _ Hw) as HL.
  destruct (dat_blk _ _ _ _ _ _ _ Hi Hd) as (b & Hb & Hp & _ & Hz & Hlb & Hbr & Hpos & Hl0 & _).
  destruct (inv_last_blk _ _ _ _ _ Hi Hl0) as (bl & Hbl & Ezl & _).
  unfold nrealloc. replace (p =? 0) with false by lia. change (MEMBLKp p) with (p - 32).
  fold (need size). cbv zeta. set (sz := need size) in *. set (m := p - 32) in *.
  eapply not_fouled; [done|done|]. cbv beta iota. go. rewrite Hz. apply nwp_bind.
  eapply wp_mono with (Q := fun r s' => reallocated s H m d sz r s').
  2: { cbv beta. intros r s' Hr. apply nwp_ret. exists r. done. }
  destruct (Z.leb_spec sz (b_len b)) as [Hle|Hgt].
  { eapply wp_mono; [eapply (trim_regrown s H H F last o m d []); rewrite ?app_nil_r; (done || lia)|].
    cbv beta. intros r s' [-> ?]. by right. }
  destruct (Z.ltb_spec (INT_MAX - 65536) sz) as [Hbig|Hsm].
  { apply nwp_ret. left. split; [done|]. split; [by right|]. exists H. split; [by exists F, last, o|done]. }
  go. apply nwp_bind. eapply adequate_spec; [done|done|by eapply next_in|..].
  { intros e He. left. destruct (l_next _ HL _ _ Hb) as [E|[E _]]; [|done].
    rewrite E, not_in_zero in He; [done|by eapply SR_positive]. }
  destruct (match H !! b_next b with Some e => _ | None => false end) eqn:Ehi.
  { destruct (H !! b_next b) as [e|] eqn:He; [|done]. apply andb_true_iff in Ehi as [Hfe Hle].
    eapply wp_mono; [apply (grow_up s H F last o m b (b_next b) e d sz); (done || lia)|]. intros ? ? ?. by right. }
  go. destruct (Z.eqb_spec last (b_next b)) as [El|El].
  - apply nwp_bind. go. rewrite Ezl.
    assert (Hbn : last = m + b_len b) by (destruct (l_next _ HL _ _ Hb) as [?|[? _]]; lia).
    destruct (SR_sum _ _ _ _ _ _ _ _ _ _ Hs Hb Hbl Hbn) as [_ Hwr]. rewrite Hwr. go.
    change MINSAVE with 48. destruct (Z.leb_spec (sz + 48) (b_len b + b_len bl)).
    { eapply wp_mono; [apply (grow_into_last_spec s H F last o m b bl d sz); (done || lia)|].
      intros ? ? ?. by right. }
    apply (realloc_near s H F last o m b d sz); (done || lia).
  - go. apply (realloc_near s H F last o m b d sz); (done || lia).
Qed.

End Alloc.
