(* ===== verification/NmHeap.v ===== *)
(** * The allocator: what its clients see

    malloc, free, realloc and calloc against an abstract heap, a map from the pointers
    that are live to the contents of their storage. A client is a tree of calls, reads and
    writes in which each call may depend on the results of the earlier ones; every client
    that uses live pointers only runs to its end without a fault, and each of its steps is
    one of the abstract heap. *)

From stdpp Require Import base gmap list numbers sets.
From Stdlib Require Import ZArith Lia.
From S2P Require Import Prelude MemFuns NMalloc NmRep NmInv NmLists NmOps NmSplit NmThms NmAlloc.

Open Scope Z_scope.
Open Scope c_scope.

(** ** The entry points of malloc.c *)

Section Entry.
Context {SA : SbrkApi} (trapped : bool) (NONE : Z).

Definition malloc (size : Z) : N Z := nmalloc trapped NONE size.
Definition free (ptr : Z) : N unit := nfree trapped NONE ptr.
Definition realloc (ptr size : Z) : N Z := nrealloc trapped NONE ptr size.
Definition calloc (n s : Z) : N Z := ncalloc trapped NONE n s.

(** *** nmalloc.c

    The same on the memory of the DOS program. DATA_PTR and PTR_DATA are the macros of
    dpmi.h, which call the host. *)
Context (DATA_PTR PTR_DATA : Z -> Z).

Definition malloc32 (size : Z) : N Z :=
  ptr ← nmalloc trapped NONE size; mret (if ptr =? 0 then 0 else PTR_DATA ptr).

Definition free32 (addr : Z) : N unit := nfree trapped NONE (DATA_PTR addr).

Definition realloc32 (addr size : Z) : N Z :=
  let ptr := if addr =? 0 then 0 else DATA_PTR addr in
  ret ← nrealloc trapped NONE ptr size; mret (if ret =? 0 then 0 else PTR_DATA ret).

Definition calloc32 (n s : Z) : N Z :=
  ptr ← ncalloc trapped NONE n s; mret (if ptr =? 0 then 0 else PTR_DATA ptr).

End Entry.

(** ** The abstract heap *)

(** A call of the allocator, or an access to storage it gave *)
Inductive hop :=
  | Malloc (size : Z)
  | Calloc (n s : Z)
  | Realloc (ptr size : Z)
  | Free (ptr : Z)
  | Store (ptr off : Z) (l : list Z)
  | Load (ptr off : Z) (n : nat).

(** A client, which chooses its next call by what the last one returned. A read returns
    the number its bytes make. *)
Inductive client :=
  | Stop
  | Do (o : hop) (k : Z -> client).

Abbreviation aheap := (gmap Z (list Z)).

Definition overwrite (off : nat) (l d : list Z) : list Z := take off d ++ l ++ drop (off + length l) d.

(** A new block with at least [size] bytes that start with [l] *)
Definition fresh_block (A : aheap) (size : Z) (l : list Z) (p : Z) (A' : aheap) : Prop :=
  exists d, 0 < p /\ p mod 16 = 0 /\ A !! p = None /\ size <= Z.of_nat (length d) /\ bytes_ok d /\
    take (length l) d = l /\ A' = <[p := d]> A.

(** What a call may do *)
Inductive astep (A : aheap) : hop -> Z -> aheap -> Prop :=
  | a_malloc size p A' : fresh_block A size [] p A' -> astep A (Malloc size) p A'
  | a_malloc_null size : astep A (Malloc size) 0 A
  | a_calloc n s p A' :
      fresh_block A (n * s) (replicate (Z.to_nat (n * s)) 0) p A' -> astep A (Calloc n s) p A'
  | a_calloc_null n s : astep A (Calloc n s) 0 A
  | a_realloc p size q d A' :
      A !! p = Some d ->
      fresh_block (delete p A) size (take (Z.to_nat size) d) q A' -> astep A (Realloc p size) q A'
  | a_realloc_new size p A' : fresh_block A size [] p A' -> astep A (Realloc 0 size) p A'
  | a_realloc_null p size : astep A (Realloc p size) 0 A
  | a_free p : astep A (Free p) 0 (delete p A)
  | a_store p d off l :
      A !! p = Some d -> astep A (Store p off l) 0 (<[p := overwrite (Z.to_nat off) l d]> A)
  | a_load p d off n :
      A !! p = Some d -> astep A (Load p off n) (le_val (take n (drop (Z.to_nat off) d))) A.

(** What a client may ask for *)
Definition legal (A : aheap) (o : hop) : Prop :=
  match o with
  | Malloc size => 0 <= size <= 2 ^ 32 - 64
  | Calloc n s => 0 <= n /\ 0 <= s /\ n * s <= 2 ^ 32 - 64
  | Realloc p size => 0 <= size <= 2 ^ 32 - 64 /\ (p = 0 \/ is_Some (A !! p))
  | Free p => p = 0 \/ is_Some (A !! p)
  | Store p off l =>
      bytes_ok l /\ exists d, A !! p = Some d /\ 0 <= off /\ off + Z.of_nat (length l) <= Z.of_nat (length d)
  | Load p off n => exists d, A !! p = Some d /\ 0 <= off /\ off + Z.of_nat n <= Z.of_nat (length d)
  end.

(** A client that never asks for anything else, whatever the answers are *)
Fixpoint well_behaved (c : client) (A : aheap) : Prop :=
  match c with
  | Stop => True
  | Do o k => legal A o /\ forall r A', astep A o r A' -> well_behaved (k r) A'
  end.

(** ** The run of a client on the allocator *)

Section Heap.
Context {SA : SbrkApi} (trapped : bool) (NONE : Z).

Definition hexec (o : hop) : N Z :=
  match o with
  | Malloc size => malloc trapped NONE size
  | Calloc n s => calloc trapped NONE n s
  | Realloc p size => realloc trapped NONE p size
  | Free p => _ ← free trapped NONE p; mret 0
  | Store p off l => fun s => m ← store_bytes (n_mem s) (p + off) l; Done (0, with_mem s m)
  | Load p off n => rd n (p + off)
  end.

Fixpoint hrun (c : client) : N unit :=
  match c with
  | Stop => mret tt
  | Do o k => r ← hexec o; hrun (k r)
  end.

(** The size for which a call may need memory from sbrk *)
Definition wanted (o : hop) : option Z :=
  match o with
  | Malloc size => Some (need size)
  | Calloc n s => Some (need (n * s))
  | Realloc _ size => Some (need size)
  | _ => None
  end.

(** No call of the run leaves a remainder that is too small for a free list. *)
Definition keeps_room (o : hop) (s : nmst) : bool :=
  match wanted o with Some sz => negb (retires sz s) | None => true end.

Fixpoint roomy (c : client) (s : nmst) : bool :=
  match c with
  | Stop => true
  | Do o k =>
      keeps_room o s &&
      match hexec o s with Done (r, s') => roomy (k r) s' | Fail _ => true end
  end.

(** The abstract heap of a state *)
Definition heap_ok (s : nmst) (A : aheap) : Prop :=
  exists H, nm_ok NONE s H /\ forall p, A !! p = dat H (p - 32).

Context {laws : SbrkLaws NONE}.
Abbreviation nm_ok := (nm_ok NONE).
Abbreviation inv := (inv NONE).
Implicit Types (H : gmap Z blk) (F : Z -> list Z).

(** *** The client's accesses *)

Lemma length_overwrite off l d : (off + length l <= length d)%nat -> length (overwrite off l d) = length d.
Proof. intros. unfold overwrite. rewrite !length_app, length_take, length_drop. lia. Qed.

Lemma overwrite_lookup off l d i x :
  (off + length l <= length d)%nat -> overwrite off l d !! i = Some x ->
  (off <= i < off + length l)%nat /\ l !! (i - off)%nat = Some x \/
  ~ (off <= i < off + length l)%nat /\ d !! i = Some x.
Proof.
  intros Hle. unfold overwrite. destruct (decide (i < off)%nat).
  - rewrite lookup_app_l by (rewrite length_take; lia). rewrite lookup_take_lt by lia. right. split; [lia|done].
  - rewrite lookup_app_r by (rewrite length_take; lia). rewrite length_take, Nat.min_l by lia.
    destruct (decide (i < off + length l)%nat).
    + rewrite lookup_app_l by lia. left. split; [lia|done].
    + rewrite lookup_app_r by lia. rewrite lookup_drop. intros E. right. split; [lia|].
      rewrite <- E. f_equal. lia.
Qed.

Lemma rep_poke m H a b d off l :
  rep NONE m H -> H !! a = Some b -> b_pay b = Data d -> bytes_ok l -> (off + length l <= length d)%nat ->
  store_bytes m (a + 32 + Z.of_nat off) l = Done (write_bytes m (a + 32 + Z.of_nat off) l) /\
  rep NONE (write_bytes m (a + 32 + Z.of_nat off) l) (<[a := up_pay (Data (overwrite off l d)) b]> H).
Proof.
  intros Hr Ha Hd Hl Hle. pose proof (rep_blk _ _ _ Hr _ _ Ha) as Hb.
  pose proof (ba_pay _ _ _ Hb) as Hp. rewrite Hd in Hp. destruct Hp as [Hlen Hat].
  pose proof (ba_min _ _ _ Hb). pose proof (ba_rng _ _ _ Hb) as Hrg. set (p := a + 32 + Z.of_nat off).
  assert (Hpr : rng m p (Z.of_nat (length l))) by (intros x Hx; apply Hrg; unfold p in Hx; lia).
  split; [by apply store_bytes_spec; [|apply rng_mapped]|].
  apply (rep_write NONE m H a b); try done; try (unfold p; lia).
  change (up_pay ?q b) with (up_len (b_len b) (up_pay q b)).
  apply (blk_at_header m); try done.
  - intros y Hy. apply lookup_write_bytes_out. unfold p. lia.
  - apply Hb.
  - by apply rng_write.
  - simpl. rewrite length_overwrite by done. split; [lia|]. intros i x Hx.
    destruct (overwrite_lookup _ _ _ _ _ Hle Hx) as [[Hi Hx']|[Hi Hx']].
    + rewrite <- (bytes_at_write m p l _ _ Hx'). f_equal. unfold p. lia.
    + rewrite lookup_write_bytes_out by (unfold p; lia). by apply Hat.
Qed.

(** The contents of one block change. *)
Lemma inv_data s H F last o m b d d' m' :
  inv s H F last o -> H !! m = Some b -> b_pay b = Data d ->
  rep NONE m' (<[m := up_pay (Data d') b]> H) ->
  inv (with_mem s m') (<[m := up_pay (Data d') b]> H) F last o.
Proof.
  intros Hi Hb Hp Hr. assert (Hd : dat H m = Some d) by (apply dat_Some; eauto).
  destruct (dat_blk NONE _ _ _ _ _ _ _ Hi Hd) as (b' & Hb' & _ & Hnf & _ & _ & Hlen & _ & Hl0 & Hml).
  rewrite Hb in Hb'. injection Hb' as <-. pose proof Hi as [Hs Hw Hla Hnz]. split.
  - by apply SR_with_mem with H.
  - eapply wf_J; [eapply (wf_pay NONE NONE_ok H F _ last m b (Data _)); [done|done|..]|].
    + unfold is_free. by rewrite Hp.
    + split; [done|lia].
    + simpl. apply leibniz_equiv. intros x. pose proof (only_last_sub last x). set_solver.
  - destruct Hla as [?|(bl & Hbl & ?)]; [done|right]. exists bl. by rewrite lookup_insert_ne.
  - done.
Qed.

Lemma store_spec s A p off l :
  heap_ok s A -> legal A (Store p off l) ->
  wp (hexec (Store p off l)) (fun r s' => exists A', astep A (Store p off l) r A' /\ heap_ok s' A') s.
Proof.
  intros (H & (F & last & o & Hi) & HA) (Hl & d & Hp & Hoff & Hle). rewrite HA in Hp.
  apply dat_Some in Hp as Hp'. destruct Hp' as (b & Hb & Hd).
  destruct (rep_poke _ _ _ _ _ (Z.to_nat off) l (sr_rep _ _ _ _ _ _ (inv_SR _ _ _ _ _ _ Hi)) Hb Hd Hl)
    as [E Hr]; [lia|].
  unfold wp. cbn [hexec]. replace (p + off) with (p - 32 + 32 + Z.of_nat (Z.to_nat off)) by lia.
  rewrite E, bind_Done. eexists. split; [constructor; by rewrite HA|].
  eexists. split; [by exists F, last, o; eapply inv_data|]. intros q.
  rewrite dat_insert, lookup_insert. do 2 case_decide; try lia; [done|apply HA].
Qed.

(** What is in a live block is in memory. *)
Lemma heap_ok_load s A p d : heap_ok s A -> A !! p = Some d -> bytes_at (n_mem s) p d.
Proof.
  intros (H & (F & last & o & Hi) & HA) Hp. rewrite HA in Hp. apply dat_Some in Hp as (b & Hb & Hd).
  pose proof (ba_pay _ _ _ (SR_blk _ _ _ _ _ _ (inv_SR _ _ _ _ _ _ Hi) _ _ Hb)) as Hat.
  rewrite Hd in Hat. destruct Hat as [_ Hat]. replace (p - 32 + 32) with p in Hat by lia. done.
Qed.

Lemma load_spec s A p off n :
  heap_ok s A -> legal A (Load p off n) ->
  wp (hexec (Load p off n)) (fun r s' => exists A', astep A (Load p off n) r A' /\ heap_ok s' A') s.
Proof.
  intros Hok (d & Hp & Hoff & Hle). pose proof (heap_ok_load _ _ _ _ Hok Hp) as Hat.
  assert (Hl : length (take n (drop (Z.to_nat off) d)) = n) by (rewrite length_take, length_drop; lia).
  assert (Hat' : bytes_at (n_mem s) (p + off) (take n (drop (Z.to_nat off) d))).
  { intros i x Hx. apply lookup_take_Some in Hx as [Hx _]. rewrite lookup_drop in Hx.
    rewrite <- (Hat _ _ Hx). f_equal. lia. }
  unfold wp. cbn [hexec]. unfold rd, ld. pose proof (load_bytes_spec _ _ _ Hat') as E. rewrite Hl in E.
  rewrite E, !bind_Done. exists A. split; [by constructor|done].
Qed.

(** *** The calls *)

(** A block that is given out *)
Lemma gives_block A H szneed m s' size :
  (forall p, A !! p = dat H (p - 32)) -> gives NONE H szneed m s' -> size <= szneed - 32 ->
  exists A', fresh_block A size [] (m + 32) A' /\ heap_ok s' A'.
Proof.
  intros HA (H' & F & last & o & d & Hi & Hpos & Hal & Hn & Hd & Hok & Hl & Hx) Hsz.
  exists (<[m + 32 := d]> A). split.
  - exists d. split_and!; try done; try lia.
    + replace (m + 32) with (m + 2 * 16) by lia. by rewrite Z.mod_add.
    + rewrite HA. by replace (m + 32 - 32) with m by lia.
  - exists H'. split; [by exists F, last, o|]. intros p. rewrite lookup_insert. case_decide as E.
    + subst p. by replace (m + 32 - 32) with m by lia.
    + rewrite Hx by lia. apply HA.
Qed.

Lemma malloc_spec s A size :
  heap_ok s A -> 0 <= size <= 2 ^ 32 - 64 -> retires (need size) s = false ->
  wp (malloc trapped NONE size) (fun p s' =>
    p = 0 /\ (sbrk_fails (need size) s \/ INT_MAX - 65536 <= need size) /\ heap_ok s' A \/
    p <> 0 /\ exists A', fresh_block A size [] p A' /\ heap_ok s' A') s.
Proof.
  intros (H & Hok & HA) Hsz Hr. destruct (need_spec size Hsz) as (_ & _ & Hn).
  eapply wp_mono; [by eapply nmalloc_spec|]. cbv beta.
  intros p s' (m & -> & [(-> & Hwhy & H' & Hok' & Hd)|Hg]).
  - left. rewrite Z.eqb_refl. split_and!; [done|done|]. exists H'. split; [done|].
    intros p. by rewrite Hd.
  - right. assert (Hpos : 0 < m) by (destruct Hg as (?&?&?&?&?&?&?&?); done).
    replace (m =? 0) with false by lia. split; [lia|]. eapply gives_block; [done|done|lia].
Qed.

(** The zeros of calloc *)
Lemma fresh_zeroed A size p A' s :
  fresh_block A size [] p A' -> heap_ok s A' -> 0 <= size ->
  wp (memop (fun mem => memset mem p 0 size)) (fun _ s' => exists A'',
    fresh_block A size (replicate (Z.to_nat size) 0) p A'' /\ heap_ok s' A'') s.
Proof.
  intros (d & Hpos & Hal & Hn & Hl & Hok & _ & ->) (H & (F & last & o & Hi) & HA) Hsz.
  pose proof (HA p) as Hp. rewrite lookup_insert_eq in Hp. symmetry in Hp.
  apply dat_Some in Hp as (b & Hb & Hd).
  destruct (rep_fill NONE _ _ _ _ _ (Z.to_nat size) (sr_rep _ _ _ _ _ _ (inv_SR _ _ _ _ _ _ Hi)) Hb Hd)
    as (m' & E & Hr); [lia|]. replace (p - 32 + 32) with p in E by lia. rewrite Z2Nat.id in E by lia.
  unfold wp, memop. rewrite E, bind_Done. set (d' := replicate _ 0 ++ drop _ d) in *.
  exists (<[p := d']> A). split.
  - exists d'. unfold d'. rewrite length_app, length_replicate, length_drop.
    split_and!; try done; try lia.
    + apply Forall_app. split; [apply Forall_replicate; lia|]. by apply Forall_drop.
    + rewrite take_app_le by (rewrite length_replicate; lia). apply take_ge. rewrite length_replicate. lia.
  - eexists. split; [exists F, last, o; by eapply inv_data|]. intros q.
    rewrite dat_insert, lookup_insert. pose proof (HA q) as Hq. rewrite lookup_insert in Hq.
    repeat case_decide; try lia; done.
Qed.

Lemma calloc_spec s A n k :
  heap_ok s A -> legal A (Calloc n k) -> retires (need (n * k)) s = false ->
  wp (calloc trapped NONE n k) (fun p s' =>
    p = 0 /\ (sbrk_fails (need (n * k)) s \/ INT_MAX - 65536 <= need (n * k) \/ 2 ^ 64 <= n) /\ heap_ok s' A \/
    p <> 0 /\ exists A', fresh_block A (n * k) (replicate (Z.to_nat (n * k)) 0) p A' /\ heap_ok s' A') s.
Proof.
  intros Hok (Hn & Hk & Hnk) Hr. unfold calloc, ncalloc.
  destruct ((n =? 0) || (k <? (2 ^ 64 - 1) / n)) eqn:Eg.
  2: { apply nwp_ret. left. split_and!; [done| |done]. do 2 right.
       apply orb_false_iff in Eg as [En Ek]. apply Z.eqb_neq in En. apply Z.ltb_ge in Ek.
       destruct (decide (2 ^ 64 <= n)); [done|]. exfalso.
       destruct (decide (k = 0)) as [->|Hk0].
       - pose proof (Z.div_str_pos (2 ^ 64 - 1) n). lia.
       - assert (n <= n * k) by nia. assert (2 ^ 64 - 1 < n * ((2 ^ 64 - 1) / n) + n).
         { pose proof (Z.mul_succ_div_gt (2 ^ 64 - 1) n). lia. }
         assert (n * ((2 ^ 64 - 1) / n) <= n * k) by (apply Z.mul_le_mono_nonneg_l; lia). lia. }
  cbv zeta. assert (Hsz : 0 <= n * k) by nia. rewrite wrap_u_small by lia. apply nwp_bind.
  eapply wp_mono; [apply malloc_spec with (A := A); [done|lia|done]|]. cbv beta.
  intros p s' [(-> & Hwhy & Hok')|(Hp0 & A' & Hf & Hok')].
  - apply nwp_bind, nwp_ret, nwp_ret. left. split_and!; [done|tauto|done].
  - replace (p =? 0) with false by lia. apply nwp_bind.
    eapply wp_mono; [eapply fresh_zeroed; done|]. cbv beta. intros [] s2 Hz.
    apply nwp_ret. right. done.
Qed.

Lemma free_spec s A p :
  heap_ok s A -> p = 0 \/ is_Some (A !! p) ->
  wp (free trapped NONE p) (fun _ s' => heap_ok s' (delete p A)) s.
Proof.
  intros (H & Hok & HA) Hp. destruct (decide (p = 0)) as [->|Hp0].
  { apply nwp_ret. exists H. split; [done|]. intros q. rewrite lookup_delete. case_decide; [|done].
    subst q. symmetry. rewrite <- HA. destruct (A !! 0) as [d|] eqn:E; [|done].
    rewrite HA in E. destruct Hok as (F & last & o & Hi).
    destruct (dat_blk _ _ _ _ _ _ _ _ Hi E) as (?&?&?&?&?&?&?&?&?). lia. }
  destruct Hp as [?|[d Hd]]; [done|]. rewrite HA in Hd.
  eapply wp_mono; [by eapply nfree_spec|]. cbv beta. intros _ s' (H' & Hok' & Hx).
  exists H'. split; [done|]. intros q. rewrite Hx, lookup_delete.
  repeat case_decide; try lia; done.
Qed.

Lemma regrown_block A H p d szneed size r s' :
  (forall q, A !! q = dat H (q - 32)) -> A !! p = Some d -> regrown NONE H (p - 32) d szneed r s' ->
  size <= szneed - 32 -> 0 <= size ->
  exists A', fresh_block (delete p A) size (take (Z.to_nat size) d) (r + 32) A' /\ heap_ok s' A'.
Proof.
  intros HA Hp (H' & d' & Hok & Hpos & Hal & Hd & Hb & Hl & Ht & Hne & Hx) Hsz H0.
  exists (<[r + 32 := d']> (delete p A)). split.
  - exists d'. split_and!; try done; try lia.
    + replace (r + 32) with (r + 2 * 16) by lia. by rewrite Z.mod_add.
    + rewrite lookup_delete. case_decide as E; [done|]. rewrite HA.
      replace (r + 32 - 32) with r by lia. apply Hne. lia.
    + rewrite length_take. set (k := Nat.min (Z.to_nat size) (length d)).
      assert (Hk : (k <= Nat.min (length d) (Z.to_nat (szneed - 32)))%nat) by lia.
      rewrite <- (Nat.min_l _ _ Hk), <- take_take, Ht, take_take, Nat.min_l by lia. unfold k.
      rewrite <- take_take. f_equal. apply take_ge. lia.
  - exists H'. split; [done|]. intros q. rewrite lookup_insert, lookup_delete. repeat case_decide; subst.
    + by replace (r + 32 - 32) with r by lia.
    + symmetry. apply Hne. lia.
    + rewrite Hx by lia. apply HA.
Qed.

Lemma realloc_spec s A p size d :
  heap_ok s A -> A !! p = Some d -> 0 <= size <= 2 ^ 32 - 64 -> retires (need size) s = false ->
  wp (realloc trapped NONE p size) (fun q s' =>
    q = 0 /\ (sbrk_fails (need size) s \/ INT_MAX - 65536 < need size) /\ heap_ok s' A \/
    q <> 0 /\ exists A', fresh_block (delete p A) size (take (Z.to_nat size) d) q A' /\ heap_ok s' A') s.
Proof.
  intros (H & Hok & HA) Hp Hsz Hr. destruct (need_spec size Hsz) as (_ & _ & Hn). rewrite HA in Hp.
  eapply wp_mono; [by eapply nrealloc_spec|]. cbv beta.
  intros q s' (m & -> & [(-> & Hwhy & H' & Hok' & Hd)|Hg]).
  - left. rewrite Z.eqb_refl. split_and!; [done|done|]. exists H'. split; [done|].
    intros q. by rewrite Hd.
  - right. assert (Hpos : 0 < m) by (destruct Hg as (?&?&?&?&?); done).
    replace (m =? 0) with false by lia. split; [lia|].
    eapply regrown_block; [done|by rewrite HA|done|lia|lia].
Qed.

(** realloc of NULL is malloc. *)
Lemma realloc_null size s : realloc trapped NONE 0 size s = malloc trapped NONE size s.
Proof. done. Qed.

(** *** Every call *)

Lemma hexec_spec s A o :
  heap_ok s A -> legal A o -> keeps_room o s = true ->
  wp (hexec o) (fun r s' => exists A', astep A o r A' /\ heap_ok s' A') s.
Proof.
  intros Hok Hl Hr. destruct o as [size|n k|p size|p|p off l|p off n]; cbn [hexec];
    cbv [keeps_room wanted] in Hr; try apply negb_true_iff in Hr.
  - eapply wp_mono; [by eapply malloc_spec|]. cbv beta.
    intros q s' [(-> & _ & ?)|(_ & A' & ? & ?)]; eexists; (split; [by constructor|done]).
  - eapply wp_mono; [by eapply calloc_spec|]. cbv beta.
    intros q s' [(-> & _ & ?)|(_ & A' & ? & ?)]; eexists; (split; [by constructor|done]).
  - destruct Hl as [Hsz Hp]. destruct (decide (p = 0)) as [->|Hp0].
    + eapply wp_mono; [by eapply malloc_spec|]. cbv beta.
      intros q s' [(-> & _ & ?)|(_ & A' & ? & ?)]; eexists;
        (split; [by (apply a_realloc_null || apply a_realloc_new)|done]).
    + destruct Hp as [?|[d Hd]]; [done|]. eapply wp_mono; [by eapply realloc_spec|]. cbv beta.
      intros q s' [(-> & _ & ?)|(_ & A' & ? & ?)]; eexists;
        (split; [by (apply a_realloc_null || eapply a_realloc)|done]).
  - apply nwp_bind. eapply wp_mono; [by eapply free_spec|]. cbv beta. intros [] s' Hs'.
    apply nwp_ret. eexists. split; [constructor|done].
  - by apply store_spec.
  - by apply load_spec.
Qed.

End Heap.

(** The abstract runs of a client *)
Inductive aruns : client -> aheap -> aheap -> Prop :=
  | aruns_stop A : aruns Stop A A
  | aruns_do o k A r A' A'' : astep A o r A' -> aruns (k r) A' A'' -> aruns (Do o k) A A''.
