(* ===== verification/NmMain.v ===== *)
(** * The allocator: theorems

    Every well-behaved client of malloc, free, realloc and calloc runs to its end, with its
    blocks apart from each other and from what the allocator keeps; the free lists are in
    order after every run; malloc fails only where sbrk does or the request is too large.
    The last section has the requests that go wrong. *)

From stdpp Require Import base gmap list numbers sets.
From Stdlib Require Import ZArith Lia.
From S2P Require Import Prelude MemFuns NMalloc NmRep NmInv NmLists NmOps NmSplit NmThms NmAlloc NmHeap.

Open Scope Z_scope.
Open Scope c_scope.

(** ** A system to run on

    sbrk gives the storage at the addresses of a list, as long as they are free and below
    2 GB. *)

Definition in_reach (m : mem) : Prop := map_Forall (fun a _ => 0 <= a < 2 ^ 31) m.

Definition bases_sbrk (NONE d : Z) (bases : list Z) (m : mem) : Z * list Z * mem :=
  match bases with
  | [] => (SBRK_ERR, [], m)
  | b :: bases' =>
      if bool_decide (NONE < b) && bool_decide (0 < b) && (b + d <=? 2 ^ 31) &&
         bool_decide (in_reach m) && bool_decide (map_Forall (fun a _ => a < b \/ b + d <= a) m)
      then (b, bases', write_bytes m b (replicate (Z.to_nat d) 0))
      else (SBRK_ERR, bases', m)
  end.

#[local] Instance bases_api : SbrkApi := {| sbrk_st := list Z; sbrk := bases_sbrk 8 |}.

Lemma in_reach_runs m : in_reach m -> runs_ok m.
Proof.
  intros Hm a n Hr. destruct (decide (n < 2 ^ 32)); [done|].
  destruct (Hr a) as [v Hv]; [lia|]. destruct (Hr (a + n - 1)) as [w Hw]; [lia|].
  apply Hm in Hv, Hw. lia.
Qed.

Lemma in_reach_write m b l :
  in_reach m -> 0 <= b -> b + Z.of_nat (length l) <= 2 ^ 31 -> in_reach (write_bytes m b l).
Proof.
  intros Hm Hb Hl a v Ha. destruct (decide (b <= a < b + Z.of_nat (length l))); [lia|].
  rewrite lookup_write_bytes_out in Ha by lia. by apply (Hm a v).
Qed.

#[local] Instance bases_laws : SbrkLaws (SA := bases_api) 8.
Proof.
  split; [lia|]. intros d bases m r bases' m' Hd Hm Hru Hn. cbn [sbrk bases_api]. unfold bases_sbrk.
  destruct bases as [|b bases0]; [intros [= <- <- <-]; by left|].
  destruct (bool_decide (8 < b) && _ && _ && _ && _) eqn:E; [|intros [= <- <- <-]; by left].
  rewrite !andb_true_iff, !bool_decide_eq_true, Z.leb_le in E. destruct E as ((((? & ?) & ?) & Hin) & Hf).
  intros [= <- <- <-]. right. split_and!; [done|lia|by left| | |].
  - intros x Hx. destruct (m !! x) eqn:Ex; [|done]. apply Hf in Ex. lia.
  - apply in_reach_runs, in_reach_write; [done|lia|]. rewrite length_replicate. lia.
  - exists (replicate (Z.to_nat d) 0). rewrite length_replicate. split_and!; [lia| |done].
    apply Forall_replicate. lia.
Qed.

(** ** The state at the start *)

Section Main.
Context {SA : SbrkApi} (trapped : bool) (NONE : Z) {laws : SbrkLaws NONE}.

Lemma init_ok m sys : mem_bytes m -> runs_ok m -> m !! NONE = None -> heap_ok NONE (nm_init m sys) ∅.
Proof.
  intros Hm Hr Hn. exists ∅. split; [|intros p; by rewrite lookup_empty].
  exists (fun _ => []), 0, (0, replicate (Z.to_nat MAXSBRKS) 0, sys). split.
  - split; cbn [nm_init freehdrs n_mem]; [| done | done | | done].
    + split; try done; intros *; by rewrite lookup_empty.
    + intros b Hb. rewrite lookup_replicate. split; [done|]. change NFLISTS with 64. lia.
  - split; [split..|]; try (intros *; rewrite ?lookup_empty; done).
    intros _. constructor.
  - by left.
  - done.
Qed.

(** Two live blocks, with their headers *)
Lemma live_apart s A p d q e :
  heap_ok NONE s A -> A !! p = Some d -> A !! q = Some e -> p <> q ->
  p + Z.of_nat (length d) + 32 <= q \/ q + Z.of_nat (length e) + 32 <= p.
Proof.
  intros (H & (F & last & o & Hi) & HA) Hp Hq Hne. rewrite HA in Hp, Hq.
  destruct (dat_blk _ _ _ _ _ _ _ _ Hi Hp) as (b & Hb & _ & _ & _ & Hlb & _).
  destruct (dat_blk _ _ _ _ _ _ _ _ Hi Hq) as (c & Hc & _ & _ & _ & Hlc & _).
  destruct (rep_disj _ _ _ (sr_rep _ _ _ _ _ _ (inv_SR _ _ _ _ _ _ Hi)) _ _ _ _ Hb Hc); lia.
Qed.

Lemma hrun_spec c : forall s A,
  heap_ok NONE s A -> well_behaved c A -> roomy trapped NONE c s = true ->
  exists s' A', hrun trapped NONE c s = Done (tt, s') /\ aruns c A A' /\ heap_ok NONE s' A'.
Proof.
  induction c as [|o k IH]; intros s A Hok Hw Hr.
  - exists s, A. split_and!; [done|constructor|done].
  - cbn [well_behaved] in Hw. destruct Hw as [Hl Hw]. cbn [roomy] in Hr.
    apply andb_true_iff in Hr as [Hr1 Hr2].
    destruct (nwp_Done _ _ _ (hexec_spec trapped NONE s A o Hok Hl Hr1)) as (r & s1 & E & A1 & Ha & Hok1).
    rewrite E in Hr2. destruct (IH r s1 A1 Hok1 (Hw _ _ Ha) Hr2) as (s2 & A2 & E2 & Ha2 & Hok2).
    exists s2, A2. split_and!; [|by econstructor|done].
    cbn [hrun]. unfold mbind, N_bind. rewrite E, bind_Done. exact E2.
Qed.

(** *** The free lists *)

(** The blocks on a free list, as dumpfree walks it *)
Fixpoint freelist (fuel : nat) (x : Z) : N (list Z) :=
  match fuel with
  | O => fun _ => Fail NoFuel
  | S fuel' =>
      if (x =? 0) || (x =? NONE) then mret []
      else nf ← nextfree x; l ← freelist fuel' nf; mret (x :: l)
  end.

Lemma freelist_walk s H F last o i l : forall p,
  SR NONE s H F last o -> flseg H i p l NONE ->
  wp (freelist (S (length l)) (hd NONE l)) (fun r s' => r = l /\ s' = s) s.
Proof.
  induction l as [|x l IH]; intros p Hs Hf.
  - cbn [freelist hd]. rewrite Z.eqb_refl, orb_true_r. by apply nwp_ret.
  - destruct Hf as [(b & Hb & _ & Hnf & _) Hf]. cbn [length hd]. remember (S (length l)) as n.
    cbn [freelist]. pose proof (SR_addr _ _ _ _ _ _ Hs _ _ Hb). pose proof (SR_not_none _ _ _ _ _ _ Hs _ _ Hb).
    replace ((x =? 0) || (x =? NONE)) with false by lia. go. rewrite Hnf. apply nwp_bind.
    eapply wp_mono; [by eapply IH|]. cbv beta. intros r s' [-> ->]. by apply nwp_ret.
Qed.

(** A block in order on list [b]: its size is the list's, and neither the next block nor
    the remainder behind it could be joined with it. *)
Definition listed (s : nmst) (b x : Z) : Prop := exists sz n,
  sz_ x s = Done (sz, s) /\ size2bucket sz = b /\ next_ x s = Done (n, s) /\
  ISFREE NONE x s = Done (true, s) /\ ISFREE NONE n s = Done (false, s) /\
  (n <> 0 -> lastsbrk s <> Done (n, s)).

Lemma wp_pure {A} (c : N A) (a : A) s : wp c (fun r s' => r = a /\ s' = s) s -> c s = Done (a, s).
Proof. intros (? & ? & E & -> & ->)%nwp_Done. done. Qed.

Lemma listed_spec s H F last o i x :
  inv NONE s H F last o -> x ∈ F i -> listed s i x.
Proof.
  intros Hi Hx. pose proof Hi as [Hs Hw Hl Hnz]. pose proof (wf_links _ _ _ _ _ Hw) as HL.
  destruct (lists_elem _ NONE_ok _ _ _ _ (wf_lists _ _ _ _ _ Hw) Hx) as (b & v & Hb & Hp & Hsz & _).
  assert (Hf : is_free b = true) by (unfold is_free; by rewrite Hp).
  destruct (wf_coal _ _ _ _ _ Hw _ _ Hb Hf) as [Hn1 Hn2].
  exists (b_len b), (b_next b). split_and!.
  - apply wp_pure. eapply wp_sz; [done|done|]. by rewrite (l_sz _ HL _ _ Hb).
  - done.
  - apply wp_pure. by eapply wp_next.
  - apply wp_pure. eapply (ISFREE_inv NONE _ H); [done|right; by rewrite Hb|]. by rewrite Hb, Hf.
  - apply wp_pure. eapply (ISFREE_inv NONE _ H); [done|by eapply next_in|].
    destruct (H !! b_next b) as [e|] eqn:E; [by rewrite (Hn1 _ eq_refl)|done].
  - intros Hn0. rewrite (wp_pure lastsbrk last s) by (by eapply wp_lastsbrk). intros [= E].
    destruct (decide (last = 0)); [lia|]. by apply Hn2.
Qed.

Lemma free_lists_ok s A b :
  heap_ok NONE s A -> 1 <= b < 64 ->
  exists l, (h ← hdr b; freelist (S (length l)) h) s = Done (l, s) /\ NoDup l /\ Forall (listed s b) l.
Proof.
  intros (H & (F & last & o & Hi) & _) Hb. pose proof Hi as [Hs Hw _ _]. exists (F b). split_and!.
  - apply wp_pure. apply nwp_bind. eapply wp_hdr; [done|done|]. destruct (F b) as [|x l] eqn:E.
    + cbn [hd length freelist]. by apply nwp_ret.
    + change (hd 0 (x :: l)) with (hd NONE (x :: l)). rewrite <- E.
      eapply freelist_walk; [done|]. apply (ls_seg _ _ _ (wf_lists _ _ _ _ _ Hw)).
  - apply (ls_nd _ _ _ (wf_lists _ _ _ _ _ Hw)).
  - apply Forall_forall. intros x Hx. by apply (listed_spec s H F last o b x Hi).
Qed.



(** C22. In a heap that has its invariant malloc returns, and it returns a block: NULL is
    returned only where sbrk fails or the request is within 64 KB of 2 GB. The call may not
    have to retire a remainder of less than 40 bytes ([retires]; see [remainder_overrun]),
    and sbrk has the [SbrkLaws] of [heap_refinement]. *)
Theorem malloc_gives s A size :
  heap_ok NONE s A -> 0 <= size <= INT_MAX - 65600 -> retires (need size) s = false ->
  ~ sbrk_fails (need size) s ->
  exists p s' A', malloc trapped NONE size s = Done (p, s') /\ p <> 0 /\
    fresh_block A size [] p A' /\ heap_ok NONE s' A'.
Proof.
  intros Hok Hsz Hr Hns. unfold INT_MAX in *.
  destruct (nwp_Done _ _ _ (malloc_spec trapped NONE s A size Hok ltac:(lia) Hr))
    as (p & s' & E & [(-> & [?|Hb] & _)|(Hp & A' & Hf & Hok')]); [done| |by exists p, s', A'].
  exfalso. unfold INT_MAX, need in Hb. destruct (Z.eqb_spec size 0) as [->|].
  - by destruct Hb.
  - destruct (roundup_spec size) as (? & ? & ?); lia.
Qed.

End Main.

(** ** Witnesses *)

(** A client that grows a block, with another one behind it *)
Definition sample : client :=
  Do (Malloc 100) (fun p => if p =? 0 then Stop else
  Do (Store p 0 [1; 2; 3]) (fun _ =>
  Do (Calloc 4 8) (fun q =>
  Do (Realloc p 2000) (fun r => if r =? 0 then Stop else
  Do (Load r 0 3) (fun _ =>
  Do (Free q) (fun _ => Stop)))))).

Lemma sample_behaves : well_behaved sample ∅.
Proof.
  cbn [sample well_behaved legal]. split; [lia|]. intros p A1 H1. inversion H1; subst; [|done].
  destruct (Z.eqb_spec p 0); [done|]. match goal with Hf : fresh_block _ _ _ _ _ |- _ => destruct Hf as (d & _ & _ & _ & Hl & Hd & _ & ->) end.
  cbn [well_behaved legal]. split.
  { split; [by repeat constructor|]. exists d. rewrite lookup_insert_eq. simpl. split_and!; (done || lia). }
  intros r2 A2 H2. inversion H2; simplify_map_eq.
  split; [lia|]. intros q A3 H3.
  assert (HA3 : exists d', A3 !! p = Some d' /\ (q = 0 \/ q <> p /\ is_Some (A3 !! q))).
  { inversion H3; subst.
    - match goal with Hf : fresh_block _ _ _ _ _ |- _ => destruct Hf as (e & _ & _ & Hn & _ & _ & _ & ->) end.
      assert (q <> p) by (intros ->; by rewrite lookup_insert_eq in Hn).
      rewrite lookup_insert_ne, !lookup_insert_eq by done. eauto.
    - rewrite lookup_insert_eq. eauto. }
  destruct HA3 as (d' & Hp & Hq). split; [rewrite Hp; split; [lia|eauto]|].
  intros r A4 H5. destruct (Z.eqb_spec r 0); [done|]. inversion H5; subst; try done.
  match goal with Hf : fresh_block _ _ _ _ _ |- _ => destruct Hf as (e & _ & _ & Hn & Hle & _ & _ & ->) end.
  cbn [well_behaved legal]. split; [exists e; rewrite lookup_insert_eq; split_and!; (done || lia)|].
  intros r5 A5 H6. inversion H6; subst. split; [|done].
  destruct Hq as [?|[Hqp Hq]]; [by left|right]. rewrite lookup_insert. case_decide; [done|].
  by rewrite lookup_delete_ne.
Qed.

Definition on (bases : list Z) : nmst := nm_init (SA := bases_api) ∅ bases.

Definition start : nmst := on [4096; 5120; 9000; 20000].

Lemma sample_roomy : roomy false 8 sample start = true.
Proof. vm_compute. reflexivity. Qed.



Lemma bases_enough expected sys m :
  bases_sbrk 8 (wrap_s 32 (sbrk_size (need 100) expected)) [4096] ∅ <> (SBRK_ERR, sys, m).
Proof.
  destruct (sbrk_size_spec (need 100) expected) as [Hb Hw]; [by vm_compute|]. rewrite Hw.
  assert (sbrk_size (need 100) expected <= 2048).
  { unfold sbrk_size, ALIGNMASK, ALIGN, DATAOFFSET, MINSBRK. change (need 100) with 144.
    change (16 - 1) with (Z.ones 4). rewrite Z.land_ones by lia.
    pose proof (Z.mod_pos_bound expected (2 ^ 4) ltac:(lia)).
    change (wrap_u 32 (144 + (2 * 16 + 32))) with 208. change (208 <? 1024) with true. cbn iota.
    destruct (Z.eqb_spec (expected mod 2 ^ 4) 0); rewrite ?wrap_u_small by lia; lia. }
  unfold bases_sbrk. rewrite (proj2 (andb_true_iff _ _)); [done|]. split; [|done].
  rewrite !andb_true_iff, Z.leb_le. split_and!; [done|done|lia|done].
Qed.

Lemma malloc_gives_witness :
  exists p s' A', malloc false 8 100 (on [4096]) = Done (p, s') /\ p <> 0 /\
    fresh_block ∅ 100 [] p A' /\ heap_ok 8 s' A'.
Proof.
  apply (malloc_gives (SA := bases_api) false 8 (on [4096]) ∅ 100).
  - apply init_ok; [done|by apply in_reach_runs|done].
  - by vm_compute.
  - vm_compute. reflexivity.
  - intros (expected & sys & m & E). by apply bases_enough in E.
Defined.

(** ** What goes wrong *)

(** The size is cut to 32 bits before it is checked: a request for [2 ^ 32] bytes more is
    served as if it were not there. *)
Theorem malloc_truncates {SA : SbrkApi} trapped NONE size s :
  0 < size < 2 ^ 32 -> malloc trapped NONE (2 ^ 32 + size) s = malloc trapped NONE size s.
Proof.
  intros Hs. assert (E : roundup (2 ^ 32 + size) = roundup size).
  { rewrite !roundup_eq by lia. replace (2 ^ 32 + size + 15) with (size + 15 + 2 ^ 28 * 16) by lia.
    rewrite Z.div_add by lia.
    replace (16 * ((size + 15) / 16 + 2 ^ 28) + 32) with (16 * ((size + 15) / 16) + 32 + 1 * 2 ^ 32) by lia.
    unfold wrap_u. by rewrite Z.mod_add. }
  unfold malloc, nmalloc. replace (2 ^ 32 + size =? 0) with false by lia.
  replace (size =? 0) with false by lia. by rewrite E.
Qed.

Lemma malloc_truncates_witness :
  malloc false 8 (2 ^ 32 + 100) (on [4096]) = malloc false 8 100 (on [4096]).
Proof. apply (malloc_truncates (SA := bases_api) false 8 100 (on [4096])). lia. Defined.

Fixpoint mallocs {SA : SbrkApi} (NONE : Z) (sizes : list Z) : N (list Z) :=
  match sizes with
  | [] => mret []
  | size :: sizes' => p ← malloc false NONE size; l ← mallocs NONE sizes'; mret (p :: l)
  end.

(** What a sequence of calls returns *)
Definition result {SA : SbrkApi} {A} (c : N A) (s : nmst) : outcome A :=
  match c s with Done (a, _) => Done a | Fail e => Fail e end.

(** nmalloc keeps [DATAOFFSET] bytes behind a block that it cuts off [lastsbrk]. When the
    next memory from sbrk is elsewhere, this remainder goes to a free list and its prevfree
    field is written past its end: here into memory that is not the program's. *)
Theorem remainder_overrun : result (mallocs 8 [900; 1; 1]) (on [4096; 16384]) = Fail UB.
Proof. vm_compute. reflexivity. Qed.

(** A block that was joined with [lastsbrk] is freed again without a report, and its
    storage is then given out twice. *)
Theorem double_free_unseen :
  result (p ← malloc false 8 1; _ ← free false 8 p; _ ← free false 8 p; mallocs 8 [100; 1000; 100])
    (on [4096; 16384]) = Done [4128; 16416; 4128].
Proof. vm_compute. reflexivity. Qed.

(** *** sbrk of malloc.c

    djsbrk of thunks.c asks the host for memory. Its assertion holds, since extendsbrk never
    asks for 0 bytes or less ([sbrk_size_spec]). *)
Class HostMalloc := { host_st : Type; host_malloc : Z -> host_st -> mem -> Z * host_st * mem }.

Definition djsbrk {HM : HostMalloc} (increment : Z) (st : host_st) (m : mem) : Z * host_st * mem :=
  host_malloc increment st m.

#[local] Instance djsbrk_api {HM : HostMalloc} : SbrkApi := {| sbrk := djsbrk |}.

(** A host that has no memory left: its malloc returns NULL. *)
#[local] Instance no_memory : HostMalloc := {| host_st := unit; host_malloc := fun _ st m => (0, st, m) |}.

(** NULL from the host is not the -1 that extendsbrk looks for: the block is made at
    address 0. *)
Theorem host_null_faults :
  result (malloc (SA := djsbrk_api) false 8 100) (nm_init (SA := djsbrk_api) ∅ tt) = Fail UB.
Proof. vm_compute. reflexivity. Qed.

(** free32, unlike realloc32, does not look for address 0: free32(0) takes what lies below
    the start of the program's memory for the header of a block. *)
Theorem free32_null {SA : SbrkApi} trapped NONE DATA_PTR s :
  DATA_PTR 0 <> 0 -> DATA_PTR 0 <> 32 -> DATA_PTR 0 <> NONE + 32 -> n_mem s !! (DATA_PTR 0 - 8) = None ->
  free32 trapped NONE DATA_PTR 0 s = Fail UB.
Proof.
  intros H0 H1 H2 Hm. unfold free32, nfree, MEMBLKp, DATAOFFSET. replace (DATA_PTR 0 =? 0) with false by lia.
  cbv zeta. unfold mbind, N_bind, ISFREE. replace (_ || _) with false by lia.
  unfold mbind, N_bind, nextfree, rd, ld. replace (DATA_PTR 0 - 32 + 24) with (DATA_PTR 0 - 8) by lia.
  cbn [load_bytes]. unfold load. by rewrite Hm.
Qed.

Lemma free32_null_witness : free32 false 8 (fun a => 65536 + a) 0 (on [4096]) = Fail UB.
Proof. apply (free32_null (SA := bases_api) false 8 (fun a => 65536 + a) (on [4096])); done. Defined.
