(* ===== verification/Stdio.v ===== *)
(** * Streams

    src/src/libc/ansi/stdio with include/libc/file.h and include/stdio.h: the buffering of
    streams between the character functions and [_read], [_write] and [lseek].

    A FILE is a record in a table, under its address. Its buffer lies in byte memory. The
    calls of other parts of the library and of DOS are the class [StdioApi]: their effect on
    the system is a change of [os_st], which also holds errno. [AUTO] and [AUTOBUF] are the
    addresses of the automatic variables whose address the code takes. *)

From stdpp Require Import base gmap list numbers.
From Stdlib Require Import ZArith Lia.
From S2P Require Import Prelude MemFuns.

Open Scope Z_scope.
Open Scope c_scope.

(** ** Constants *)

Definition _IOFBF : Z := 0x01.
Definition _IONBF : Z := 0x02.
Definition _IOLBF : Z := 0x04.
Definition _IOREAD : Z := 0x08.
Definition _IOWRT : Z := 0x10.
Definition _IOMYBUF : Z := 0x20.
Definition _IOEOF : Z := 0x40.
Definition _IOERR : Z := 0x80.
Definition _IOSTRG : Z := 0x100.
Definition _IORW : Z := 0x200.
Definition _IORMONCL : Z := 0x800.
Definition _IOUNGETC : Z := 0x1000.
Definition _IOTERM : Z := 0x2000.
Definition _IONTERM : Z := 0x4000.

Definition BUFSIZ : Z := 16384.
Definition EOF : Z := -1.
Definition SEEK_SET : Z := 0.
Definition SEEK_CUR : Z := 1.
Definition SEEK_END : Z := 2.
Definition O_BINARY : Z := 4.
Definition O_TEXT : Z := 8.
Definition FILE_DESC_APPEND : Z := 0x10.
Definition FILE_DESC_DIRECTORY : Z := 0x20.
Definition EFAULT : Z := 11.
Definition __FILE_REC_MAX : nat := 20.
(** sizeof(FILE) and sizeof(__file_rec) *)
Definition sizeof_FILE : Z := 56.
Definition sizeof_file_rec : Z := 176.

(** [x & mask] as a condition, and [x &= ~mask] *)
Definition has (x mask : Z) : bool := negb (x .& mask =? 0).
Definition without (x mask : Z) : Z := Z.ldiff x mask.

(** ** Data *)

Record FILE := mk_FILE {
  _cnt : Z;
  _ptr : Z;
  _base : Z;
  _bufsiz : Z;
  _flag : Z;
  _file : Z;
  _name_to_remove : Z;
  _fillsize : Z }.

Definition up_cnt (v : Z) (f : FILE) := mk_FILE v (_ptr f) (_base f) (_bufsiz f) (_flag f) (_file f) (_name_to_remove f) (_fillsize f).
Definition up_ptr (v : Z) (f : FILE) := mk_FILE (_cnt f) v (_base f) (_bufsiz f) (_flag f) (_file f) (_name_to_remove f) (_fillsize f).
Definition up_base (v : Z) (f : FILE) := mk_FILE (_cnt f) (_ptr f) v (_bufsiz f) (_flag f) (_file f) (_name_to_remove f) (_fillsize f).
Definition up_bufsiz (v : Z) (f : FILE) := mk_FILE (_cnt f) (_ptr f) (_base f) v (_flag f) (_file f) (_name_to_remove f) (_fillsize f).
Definition up_flag (v : Z) (f : FILE) := mk_FILE (_cnt f) (_ptr f) (_base f) (_bufsiz f) v (_file f) (_name_to_remove f) (_fillsize f).
Definition up_file (v : Z) (f : FILE) := mk_FILE (_cnt f) (_ptr f) (_base f) (_bufsiz f) (_flag f) v (_name_to_remove f) (_fillsize f).
Definition up_name (v : Z) (f : FILE) := mk_FILE (_cnt f) (_ptr f) (_base f) (_bufsiz f) (_flag f) (_file f) v (_fillsize f).
Definition up_fillsize (v : Z) (f : FILE) := mk_FILE (_cnt f) (_ptr f) (_base f) (_bufsiz f) (_flag f) (_file f) (_name_to_remove f) v.

(** [f->_flag |= x], [f->_flag &= ~x] *)
Definition or_flag (x : Z) (f : FILE) := up_flag (_flag f .| x) f.
Definition not_flag (x : Z) (f : FILE) := up_flag (without (_flag f) x) f.

(** memset(rv, 0, sizeof(FILE)) *)
Definition zero_FILE : FILE := mk_FILE 0 0 0 0 0 0 0 0.

(** The addresses of the static FILEs *)
Definition stdin : Z := 1.
Definition stdout : Z := 2.
Definition stderr : Z := 3.
Definition stdprn : Z := 4.
Definition stdaux : Z := 5.

(** ** The calls below *)

(** A hook gets the descriptor, the buffer and the size; its result is whether it returned
    a nonzero value, and the count that it stored. *)
Class StdioApi := {
  os_st : Type;
  os_read : Z -> Z -> os_st -> Z * list Z * os_st;
  os_write : Z -> list Z -> os_st -> Z * os_st;
  os_lseek : Z -> Z -> Z -> os_st -> Z * os_st;
  os_close : Z -> os_st -> Z * os_st;
  os_open : Z -> Z -> mem -> os_st -> Z * os_st;
  os_dup2 : Z -> Z -> os_st -> os_st;
  os_remove : Z -> mem -> os_st -> os_st;
  os_isatty : Z -> os_st -> bool;
  os_dev_info : Z -> os_st -> Z;
  os_fd_flags : Z -> os_st -> Z;
  os_modes : Z -> os_st -> Z;
  os_errno : os_st -> Z;
  os_set_errno : Z -> os_st -> os_st;
  os_malloc : Z -> os_st -> mem -> Z * os_st * mem;
  os_free : Z -> os_st -> mem -> os_st * mem;
  read_hook : option (Z -> Z -> Z -> os_st -> mem -> bool * Z * os_st * mem);
  write_hook : option (Z -> list Z -> os_st -> bool * Z * os_st) }.

Section Stdio.
Context {SA : StdioApi} (AUTO AUTOBUF __tb_size : Z).

(** Memory, the FILEs, __file_rec_list and _fmode *)
Record iost := mk_io {
  i_mem : mem;
  i_files : gmap Z FILE;
  i_recs : list (list Z);
  i_fmode : Z;
  i_os : os_st }.

Definition IO (A : Type) : Type := iost -> outcome (A * iost).
#[export] Instance IO_ret : MRet IO := fun A a s => Done (a, s).
#[export] Instance IO_bind : MBind IO := fun A B k m s => '(a, s) ← m s; k a s.

Definition put_mem (s : iost) (m : mem) : iost := mk_io m (i_files s) (i_recs s) (i_fmode s) (i_os s).
Definition put_files (s : iost) (t : gmap Z FILE) : iost := mk_io (i_mem s) t (i_recs s) (i_fmode s) (i_os s).
Definition put_recs (s : iost) (r : list (list Z)) : iost := mk_io (i_mem s) (i_files s) r (i_fmode s) (i_os s).
Definition put_os (s : iost) (o : os_st) : iost := mk_io (i_mem s) (i_files s) (i_recs s) (i_fmode s) o.

(** A FILE through its pointer *)
Definition getf (f : Z) : IO FILE := fun s =>
  match i_files s !! f with Some x => Done (x, s) | None => Fail UB end.

Definition modf (f : Z) (g : FILE -> FILE) : IO unit := fun s =>
  match i_files s !! f with
  | Some x => Done (tt, put_files s (<[f := g x]> (i_files s)))
  | None => Fail UB
  end.

Definition ldb (a : Z) : IO Z := fun s => b ← load (i_mem s) a; Done (b, s).
Definition stb (a v : Z) : IO unit := fun s => m ← store (i_mem s) a v; Done (tt, put_mem s m).
Definition copy (d p n : Z) : IO unit := fun s =>
  '(m, _) ← memcpy (i_mem s) d p n; Done (tt, put_mem s m).

Definition _read (fd base size : Z) : IO Z := fun s =>
  let '(n, l, o) := os_read fd size (i_os s) in
  m ← store_bytes (i_mem s) base l; Done (n, put_os (put_mem s m) o).

Definition _write (fd base n : Z) : IO Z := fun s =>
  l ← load_bytes (i_mem s) base (Z.to_nat n);
  let '(r, o) := os_write fd l (i_os s) in Done (r, put_os s o).

Definition lseek (fd off whence : Z) : IO Z := fun s =>
  let '(r, o) := os_lseek fd off whence (i_os s) in Done (r, put_os s o).

Definition ask {A} (q : os_st -> A) : IO A := fun s => Done (q (i_os s), s).
Definition tell_os (q : os_st -> os_st) : IO unit := fun s => Done (tt, put_os s (q (i_os s))).

Definition modify (g : iost -> iost) : IO unit := fun s => Done (tt, g s).

Definition c_close (fd : Z) : IO Z := fun s => let '(e, o) := os_close fd (i_os s) in Done (e, put_os s o).

Definition c_malloc (n : Z) : IO Z := fun s =>
  let '(p, o, m) := os_malloc n (i_os s) (i_mem s) in Done (p, put_os (put_mem s m) o).

Definition c_free (p : Z) : IO unit := fun s =>
  let '(o, m) := os_free p (i_os s) (i_mem s) in Done (tt, put_os (put_mem s m) o).

(** ** Writing out *)

(** The seek to the end of a file for appending, which leaves errno alone *)
Definition seek_end (fd : Z) : IO bool :=
  e ← ask os_errno;
  r ← lseek fd 0 SEEK_END;
  if r =? -1 then _ ← tell_os (os_set_errno e); mret false else mret true.

(** The call of the hook or of [_write]; [appending] is the seek in front of it that only
    _flsbuf makes. None: the seek failed. *)
Definition put_out (appending : bool) (f base rn : Z) : IO (option Z) :=
  x ← getf f;
  hooked ← (if has (_flag x) _IOTERM then
              match write_hook with
              | None => mret None
              | Some h => fun s =>
                  l ← load_bytes (i_mem s) base (Z.to_nat rn);
                  let '(done, n, o) := h (_file x) l (i_os s) in
                  Done ((if done : bool then Some n else None), put_os s o)
              end
            else mret None);
  match hooked with
  | Some n => mret (Some n)
  | None =>
      fl ← ask (os_fd_flags (_file x));
      sought ← (if appending && has fl FILE_DESC_APPEND then seek_end (_file x) else mret true);
      if sought : bool then n ← _write (_file x) base rn; mret (Some n) else mret None
  end.

(** [while (rn > 0) { ... }]: every round writes at least one byte. False: return EOF. *)
Fixpoint put_all (appending : bool) (fuel : nat) (f base rn : Z) : IO bool :=
  match fuel with
  | O => fun _ => Fail NoFuel
  | S fuel' =>
      if 0 <? rn then
        n ← put_out appending f base rn;
        match n with
        | None => mret false
        | Some n =>
            if n <=? 0 then _ ← modf f (or_flag _IOERR); mret false
            else put_all appending fuel' f (base + n) (rn - n)
        end
      else mret true
  end.

Definition fflush1 (f : Z) : IO Z :=
  x ← getf f;
  fl ← ask (os_fd_flags (_file x));
  sought ← (if has fl FILE_DESC_APPEND then seek_end (_file x) else mret true);
  if sought : bool then
    _ ← modf f (not_flag _IOUNGETC);
    x ← getf f;
    let n := _ptr x - _base x in
    ok ← (if (_flag x .& (_IONBF .| _IOWRT) =? _IOWRT) && negb (_base x =? 0) && (0 <? n) then
            _ ← modf f (up_ptr (_base x));
            _ ← modf f (up_cnt (if has (_flag x) (_IOLBF .| _IONBF) then 0 else _bufsiz x));
            put_all false (S (Z.to_nat n)) f (_base x) n
          else mret true);
    if ok : bool then
      x ← getf f;
      _ ← (if has (_flag x) _IORW then
             _ ← modf f (up_cnt 0);
             _ ← modf f (not_flag (_IOWRT .| _IOREAD));
             modf f (up_ptr (_base x))
           else mret tt);
      mret 0
    else mret EOF
  else mret (-1).

(** The streams that _fwalk visits: those whose flags are not 0 when their turn comes *)
Fixpoint walk (func : Z -> IO unit) (l : list Z) : IO unit :=
  match l with
  | [] => mret tt
  | f :: l' =>
      x ← getf f;
      _ ← (if _flag x =? 0 then mret tt else func f);
      walk func l'
  end.

Definition _fwalk (func : Z -> IO unit) : IO unit := fun s => walk func (concat (i_recs s)) s.

Definition fflush (f : Z) : IO Z :=
  if f =? 0 then
    e ← ask os_errno;
    _ ← tell_os (os_set_errno 0);
    _ ← _fwalk (fun f => _ ← fflush1 f; mret tt);
    e' ← ask os_errno;
    if negb (e' =? 0) then mret EOF else _ ← tell_os (os_set_errno e); mret 0
  else fflush1 f.

(** if the buffer is not yet allocated, allocate it *)
Definition alloc_wbuf (f : Z) : IO unit :=
  x ← getf f;
  if (_base x =? 0) && negb (has (_flag x) _IONBF) then
    base ← c_malloc __tb_size;
    _ ← modf f (up_base base);
    if base =? 0 then
      _ ← modf f (or_flag _IONBF); modf f (not_flag (_IOFBF .| _IOLBF))
    else
      _ ← modf f (or_flag _IOMYBUF);
      _ ← modf f (up_bufsiz __tb_size);
      _ ← modf f (up_cnt __tb_size);
      _ ← modf f (up_ptr base);
      tty ← (if f =? stdout then x ← getf stdout; ask (os_isatty (_file x)) else mret false);
      if tty : bool then modf f (or_flag _IOLBF) else mret tt
  else mret tt.

Definition _flsbuf (c f : Z) : IO Z :=
  x ← getf f;
  _ ← (if has (_flag x) _IORW then
         _ ← modf f (or_flag _IOWRT); modf f (not_flag (_IOEOF .| _IOREAD))
       else mret tt);
  x ← getf f;
  if negb (has (_flag x) _IOWRT) then _ ← modf f (or_flag _IOERR); mret EOF
  else if has (_flag x) _IOSTRG then mret c
  else
    _ ← alloc_wbuf f;
    x ← getf f;
    if has (_flag x) _IOLBF then
      _ ← stb (_ptr x) c;
      _ ← modf f (up_ptr (_ptr x + 1));
      let rn := _ptr x + 1 - _base x in
      if (c =? 10) || (_bufsiz x <=? rn) then
        _ ← modf f (up_ptr (_base x));
        _ ← modf f (up_cnt 0);
        ok ← put_all true (S (Z.to_nat rn)) f (_base x) rn;
        mret (if ok : bool then c else EOF)
      else _ ← modf f (up_cnt (- rn)); mret c
    else if has (_flag x) _IONBF then
      _ ← stb AUTO c;
      _ ← modf f (up_cnt 0);
      ok ← put_all true 2 f AUTO 1;
      mret (if ok : bool then c else EOF)
    else
      let rn := _ptr x - _base x in
      _ ← modf f (up_ptr (_base x));
      _ ← modf f (up_cnt (_bufsiz x));
      ok ← put_all true (S (Z.to_nat rn)) f (_base x) rn;
      if ok : bool then
        x ← getf f;
        _ ← modf f (up_cnt (_cnt x - 1));
        _ ← stb (_ptr x) c;
        _ ← modf f (up_ptr (_ptr x + 1));
        mret c
      else mret EOF.

(** ** Reading *)

Definition __is_text_file (f : Z) : IO bool :=
  x ← getf f;
  m ← ask (os_modes (_file x));
  mret (negb (has (_flag x) (_IOSTRG .| _IOTERM)) && has m O_TEXT).

(** How much _filbuf reads: what is read so far ends at a cluster *)
Definition fill_size (x : FILE) : Z :=
  let fillsize := wrap_s 32 (_fillsize x) in
  if (fillsize =? 1024) && (1536 <=? _bufsiz x) then 1536 else fillsize.

(** The call of the hook or of [_read], with the end of a text file at Ctrl-Z *)
Definition get_in (f size : Z) : IO unit :=
  x ← getf f;
  hooked ← (if has (_flag x) _IOTERM then
              match read_hook with
              | None => mret false
              | Some h => fun s =>
                  let '(done, n, o, m) := h (_file x) (_base x) size (i_os s) (i_mem s) in
                  '(_, s) ← modf f (up_cnt n) (put_os (put_mem s m) o); Done (done, s)
              end
            else mret false);
  if hooked : bool then mret tt
  else
    n ← _read (_file x) (_base x) size;
    _ ← modf f (up_cnt n);
    text ← __is_text_file f;
    if text && (0 <? n) then
      cz ← (fun s => p ← memchr (i_mem s) (_base x) 0x1A n; Done (p, s));
      if cz =? 0 then mret tt
      else
        let newcnt := cz - _base x in
        _ ← lseek (_file x) (- (n - newcnt)) SEEK_CUR;
        modf f (up_cnt newcnt)
    else mret tt.

Definition alloc_rbuf (f : Z) : IO unit :=
  x ← getf f;
  if (_base x =? 0) && negb (has (_flag x) _IONBF) then
    base ← c_malloc __tb_size;
    _ ← modf f (up_base base);
    if base =? 0 then
      _ ← modf f (or_flag _IONBF); modf f (not_flag (_IOFBF .| _IOLBF))
    else
      _ ← modf f (or_flag _IOMYBUF);
      _ ← modf f (up_bufsiz __tb_size);
      modf f (up_fillsize 512)
  else mret tt.

Definition _filbuf (f : Z) : IO Z :=
  x ← getf f;
  _ ← (if has (_flag x) _IORW then modf f (or_flag _IOREAD) else mret tt);
  x ← getf f;
  if negb (has (_flag x) _IOREAD) then _ ← modf f (or_flag _IOERR); mret EOF
  else if has (_flag x) (_IOSTRG .| _IOEOF) then mret EOF
  else
    _ ← modf f (not_flag _IOUNGETC);
    _ ← alloc_rbuf f;
    x ← getf f;
    _ ← (if has (_flag x) _IONBF then modf f (up_base AUTO) else mret tt);
    _ ← (if f =? stdin then
           o ← getf stdout;
           _ ← (if has (_flag o) _IOLBF then _ ← fflush stdout; mret tt else mret tt);
           e ← getf stderr;
           if has (_flag e) _IOLBF then _ ← fflush stderr; mret tt else mret tt
         else mret tt);
    x ← getf f;
    _ ← (if _bufsiz x <? _fillsize x then modf f (up_fillsize (_bufsiz x)) else mret tt);
    x ← getf f;
    _ ← get_in f (if has (_flag x) _IONBF then 1 else wrap_u 64 (fill_size x));
    x ← getf f;
    _ ← (if _fillsize x <? _bufsiz x then modf f (up_fillsize (wrap_u 64 (_fillsize x * 2))) else mret tt);
    _ ← modf f (up_ptr (_base x));
    _ ← (if has (_flag x) _IONBF then modf f (up_base 0) else mret tt);
    let n := _cnt x - 1 in
    _ ← modf f (up_cnt n);
    if n <? 0 then
      _ ← (if n =? -1 then
             _ ← modf f (or_flag _IOEOF);
             if has (_flag x) _IORW then modf f (not_flag _IOREAD) else mret tt
           else modf f (or_flag _IOERR));
      _ ← modf f (up_cnt 0);
      mret EOF
    else
      c ← ldb (_base x);
      _ ← modf f (up_ptr (_base x + 1));
      mret (c .& 255).

(** ** Characters *)

Definition __getc_raw (f : Z) : IO Z :=
  x ← getf f;
  if 0 <? _cnt x then
    _ ← modf f (up_cnt (_cnt x - 1));
    _ ← modf f (up_ptr (_ptr x + 1));
    ldb (_ptr x)
  else _filbuf f.

Definition __putc_raw (c f : Z) : IO Z :=
  x ← getf f;
  if 0 <? _cnt x then
    _ ← modf f (up_cnt (_cnt x - 1));
    _ ← modf f (up_ptr (_ptr x + 1));
    _ ← stb (_ptr x) c;
    mret (byte c)
  else _flsbuf (byte c) f.

(** first time we see this handle--see if termios hooked it *)
Definition see_handle (hooked str : bool) (f : Z) : IO unit :=
  x ← getf f;
  if hooked && negb (has (_flag x) (_IOTERM .| _IONTERM)) then
    tty ← (if str && has (_flag x) _IOSTRG then mret false else ask (os_isatty (_file x)));
    modf f (or_flag (if tty : bool then _IOTERM else _IONTERM))
  else mret tt.

Definition hooked {A} (h : option A) : bool := match h with Some _ => true | None => false end.

Definition __getc (f : Z) : IO Z :=
  _ ← see_handle (hooked read_hook) true f;
  c ← __getc_raw f;
  text ← (if c =? 13 then __is_text_file f else mret false);
  if text : bool then __getc_raw f else mret c.

Definition __putc (x f : Z) : IO Z :=
  _ ← see_handle (hooked write_hook) true f;
  text ← (if x =? 10 then __is_text_file f else mret false);
  _ ← (if text : bool then _ ← __putc_raw 13 f; mret tt else mret tt);
  __putc_raw x f.

Definition fgetc (f : Z) : IO Z := __getc f.
Definition getc (f : Z) : IO Z := __getc f.
Definition getchar : IO Z := __getc stdin.
Definition fputc (c f : Z) : IO Z := __putc c f.
Definition putc (c f : Z) : IO Z := __putc c f.
Definition putchar (c : Z) : IO Z := __putc c stdout.

(** [*f->_ptr != c] compares a [char] with an [int]. *)
Definition ungetc (c f : Z) : IO Z :=
  if c =? EOF then mret EOF
  else
    x ← getf f;
    if negb (has (_flag x) (_IOREAD .| _IORW)) || (_ptr x =? 0) || (_base x =? 0) then mret EOF
    else
      full ← (if _ptr x =? _base x then
                if _cnt x =? 0 then _ ← modf f (up_ptr (_ptr x + 1)); mret false else mret true
              else mret false);
      if full : bool then mret EOF
      else
        x ← getf f;
        _ ← modf f (up_cnt (_cnt x + 1));
        _ ← modf f (up_ptr (_ptr x - 1));
        b ← ldb (_ptr x - 1);
        _ ← (if wrap_s 8 b =? c then mret tt
             else _ ← modf f (or_flag _IOUNGETC); stb (_ptr x - 1) c);
        mret c.

(** ** Blocks *)

(** [while (size * count > f->_fillsize && f->_fillsize < f->_bufsiz)]: 64 rounds double
    any number past a size_t. *)
Fixpoint grow_fill (fuel : nat) (total f : Z) : IO unit :=
  match fuel with
  | O => mret tt
  | S fuel' =>
      x ← getf f;
      if (_fillsize x <? total) && (_fillsize x <? _bufsiz x) then
        let fs := if _fillsize x <? 512 then 512 else _fillsize x in
        _ ← modf f (up_fillsize (wrap_u 64 (fs * 2)));
        grow_fill fuel' total f
      else mret tt
  end.

(** None: return count; otherwise the value of [s] where the loop is left *)
Fixpoint fread_binary (fuel : nat) (f ptr s : Z) : IO (option Z) :=
  match fuel with
  | O => fun _ => Fail NoFuel
  | S fuel' =>
      if 0 <? s then
        x ← getf f;
        r ← (if _cnt x <? s then
               '(ptr, s) ← (if 0 <? _cnt x then
                              _ ← copy ptr (_ptr x) (_cnt x);
                              mret (ptr + _cnt x, s - _cnt x)
                            else mret (ptr, s));
               c ← _filbuf f;
               if c =? EOF then mret (inr s)
               else _ ← stb ptr c; mret (inl (ptr + 1, s - 1))
             else mret (inl (ptr, s)));
        match r with
        | inr s => mret (Some s)
        | inl (ptr, s) =>
            x ← getf f;
            if s <=? _cnt x then
              _ ← copy ptr (_ptr x) s;
              _ ← modf f (up_ptr (_ptr x + s));
              _ ← modf f (up_cnt (_cnt x - s));
              mret None
            else fread_binary fuel' f ptr s
        end
      else mret (Some s)
  end.

(** [while (s > 0 && f->_cnt > 0) ...]: characters of the buffer but CR. Where [all] is set
    the condition on [s] is absent. *)
Fixpoint take_text (fuel : nat) (all : bool) (f ptr s : Z) : IO (Z * Z) :=
  match fuel with
  | O => fun _ => Fail NoFuel
  | S fuel' =>
      x ← getf f;
      if (all || (0 <? s)) && (0 <? _cnt x) then
        c ← ldb (_ptr x);
        _ ← modf f (up_ptr (_ptr x + 1));
        '(ptr, s) ← (if c =? 13 then mret (ptr, s) else _ ← stb ptr c; mret (ptr + 1, s - 1));
        _ ← modf f (up_cnt (_cnt x - 1));
        take_text fuel' all f ptr s
      else mret (ptr, s)
  end.

Fixpoint fread_text (fuel : nat) (f ptr s : Z) : IO Z :=
  match fuel with
  | O => fun _ => Fail NoFuel
  | S fuel' =>
      if 0 <? s then
        x ← getf f;
        r ← (if _cnt x <? s then
               '(ptr, s) ← take_text (S (Z.to_nat (_cnt x))) true f ptr s;
               c ← _filbuf f;
               if c =? EOF then mret (inr s)
               else if c =? 13 then mret (inl (ptr, s))
               else _ ← stb ptr c; mret (inl (ptr + 1, s - 1))
             else mret (inl (ptr, s)));
        match r with
        | inr s => mret s
        | inl (ptr, s) =>
            x ← getf f;
            '(ptr, s) ← (if s <=? _cnt x then take_text (S (Z.to_nat (_cnt x))) false f ptr s
                         else mret (ptr, s));
            fread_text fuel' f ptr s
        end
      else mret s
  end.

(** [size != 0 ? count - ((s + size - 1) / size) : 0] *)
Definition items (size count s : Z) : Z :=
  if size =? 0 then 0 else wrap_u 64 (count - wrap_u 64 (wrap_u 64 s + size - 1) / size).

(** [fuel] bounds the rounds of the text loop, which skips any number of CRs. *)
Definition fread (fuel : nat) (vptr size count f : Z) : IO Z :=
  _ ← grow_fill 64 (wrap_u 64 (size * count)) f;
  _ ← see_handle (hooked read_hook) false f;
  let s := wrap_s 32 (size * count) in
  text ← __is_text_file f;
  if text : bool then s ← fread_text fuel f vptr s; mret (items size count s)
  else
    r ← fread_binary (S (Z.to_nat s)) f vptr s;
    mret (match r with None => count | Some s => items size count s end).

(** *** fwrite *)

(** [c] goes to the buffer, or to _flsbuf where there is no room or [now] is set; False:
    _flsbuf returned EOF. [limit] is 0 or, for a line buffer, [-f->_bufsiz + 1]. *)
Definition put_or_flush (limit : Z) (now : bool) (c arg f : Z) : IO bool :=
  x ← getf f;
  _ ← modf f (up_cnt (_cnt x - 1));
  if (limit <=? _cnt x - 1) && negb now then
    _ ← stb (_ptr x) c;
    _ ← modf f (up_ptr (_ptr x + 1));
    mret true
  else r ← _flsbuf arg f; mret (negb (r =? EOF)).

(** The loops that look at every character. The result is [s]. *)
Fixpoint fwrite_chars (fuel : nat) (text line : bool) (f ptr s : Z) : IO Z :=
  match fuel with
  | O => fun _ => Fail NoFuel
  | S fuel' =>
      if 0 <? s then
        x ← getf f;
        let limit := if line then - _bufsiz x + 1 else 0 in
        c ← ldb ptr;
        cr ← (if text && (c =? 10) then put_or_flush limit false 13 13 f else mret true);
        if cr : bool then
          ok ← put_or_flush limit (line && (c =? 10)) c
                 (if text then c else wrap_s 8 c) f;
          if ok : bool then fwrite_chars fuel' text line f (ptr + 1) (s - 1) else mret s
        else mret s
      else mret s
  end.

Fixpoint fwrite_binary (fuel : nat) (f ptr s : Z) : IO (option Z) :=
  match fuel with
  | O => fun _ => Fail NoFuel
  | S fuel' =>
      if 0 <? s then
        x ← getf f;
        r ← (if _cnt x <? s then
               '(ptr, s) ← (if 0 <? _cnt x then
                              _ ← copy (_ptr x) ptr (_cnt x);
                              _ ← modf f (up_ptr (_ptr x + _cnt x));
                              mret (ptr + _cnt x, s - _cnt x)
                            else mret (ptr, s));
               c ← ldb ptr;
               e ← _flsbuf c f;
               mret (if e =? EOF then inr s else inl (ptr + 1, s - 1))
             else mret (inl (ptr, s)));
        match r with
        | inr s => mret (Some s)
        | inl (ptr, s) =>
            x ← getf f;
            if s <=? _cnt x then
              _ ← copy (_ptr x) ptr s;
              _ ← modf f (up_ptr (_ptr x + s));
              _ ← modf f (up_cnt (_cnt x - s));
              mret None
            else fwrite_binary fuel' f ptr s
        end
      else mret (Some s)
  end.

Definition fwrite (vptr size count f : Z) : IO Z :=
  _ ← see_handle (hooked write_hook) false f;
  let s := wrap_s 64 (size * count) in
  text ← __is_text_file f;
  x ← getf f;
  if text || has (_flag x) _IOLBF then
    s ← fwrite_chars (S (Z.to_nat s)) text (has (_flag x) _IOLBF) f vptr s;
    mret (items size count s)
  else
    r ← fwrite_binary (S (Z.to_nat s)) f vptr s;
    mret (match r with None => count | Some s => items size count s end).

(** ** Strings *)

(** [while ((c = *s++)) if ((r = __putc(c, f)) == EOF) break;] *)
Fixpoint put_string (fuel : nat) (s f r : Z) : IO Z :=
  match fuel with
  | O => fun _ => Fail NoFuel
  | S fuel' =>
      c ← ldb s;
      if c =? 0 then mret r
      else
        r ← __putc (wrap_s 8 c) f;
        if r =? EOF then mret r else put_string fuel' (s + 1) f r
  end.

(** [fuel] bounds the length of the string. *)
Definition fputs (fuel : nat) (s f : Z) : IO Z :=
  x ← getf f;
  let unbuffered := has (_flag x) _IONBF in
  _ ← (if unbuffered then
         _ ← modf f (not_flag _IONBF);
         _ ← modf f (up_base AUTOBUF);
         _ ← modf f (up_ptr AUTOBUF);
         modf f (up_bufsiz BUFSIZ)
       else mret tt);
  r ← put_string fuel s f 0;
  if unbuffered then
    e ← fflush f;
    _ ← modf f (or_flag _IONBF);
    _ ← modf f (up_base 0);
    _ ← modf f (up_bufsiz 0);
    _ ← modf f (up_cnt 0);
    mret (if e =? EOF then EOF else r)
  else mret r.

Fixpoint put_chars (fuel : nat) (s : Z) : IO unit :=
  match fuel with
  | O => fun _ => Fail NoFuel
  | S fuel' =>
      c ← ldb s;
      if c =? 0 then mret tt else _ ← putchar (wrap_s 8 c); put_chars fuel' (s + 1)
  end.

Definition puts (fuel : nat) (s : Z) : IO Z :=
  _ ← put_chars fuel s;
  text ← __is_text_file stdout;
  x ← getf stdout;
  _ ← (if negb text && negb (has (_flag x) _IOTERM) then _ ← putchar 13; mret tt else mret tt);
  putchar 10.

(** [while (--n > 0 && (c = __getc(f)) != EOF)]; the result is [cs] and [c]. *)
Fixpoint get_line (fuel : nat) (cs n c f : Z) : IO (Z * Z) :=
  match fuel with
  | O => fun _ => Fail NoFuel
  | S fuel' =>
      if 0 <? n - 1 then
        c ← __getc f;
        if c =? EOF then mret (cs, c)
        else
          _ ← stb cs c;
          if c =? 10 then mret (cs + 1, c) else get_line fuel' (cs + 1) (n - 1) c f
      else mret (cs, c)
  end.

Definition fgets (s n f : Z) : IO Z :=
  '(cs, c) ← get_line (S (Z.to_nat n)) s n 0 f;
  if (c =? EOF) && (cs =? s) then mret 0 else _ ← stb cs 0; mret s.

Fixpoint get_chars (fuel : nat) (cs : Z) : IO (Z * Z) :=
  match fuel with
  | O => fun _ => Fail NoFuel
  | S fuel' =>
      c ← getchar;
      if (c =? 10) || (c =? EOF) then mret (cs, c) else _ ← stb cs c; get_chars fuel' (cs + 1)
  end.

Definition gets (fuel : nat) (s : Z) : IO Z :=
  '(cs, c) ← get_chars fuel s;
  if (c =? EOF) && (cs =? s) then mret 0 else _ ← stb cs 0; mret s.

(** ** State of a stream *)

Definition feof (f : Z) : IO Z := x ← getf f; mret (_flag x .& _IOEOF).
Definition ferror (f : Z) : IO Z := x ← getf f; mret (_flag x .& _IOERR).
Definition clearerr (f : Z) : IO unit := modf f (not_flag (_IOERR .| _IOEOF)).

(** Four bytes of an int, the lowest first *)
Fixpoint get_bytes (n : nat) (f : Z) : IO (list Z) :=
  match n with
  | O => mret []
  | S n' => c ← getc f; l ← get_bytes n' f; mret (byte c :: l)
  end.

Definition getw (f : Z) : IO Z :=
  l ← get_bytes 4 f;
  e ← feof f;
  mret (if e =? 0 then wrap_s 32 (foldr (fun b v => b + 256 * v) 0 l) else EOF).

Definition putw (w f : Z) : IO Z :=
  _ ← putc (wrap_s 8 w) f;
  _ ← putc (wrap_s 8 (Z.shiftr w 8)) f;
  _ ← putc (wrap_s 8 (Z.shiftr w 16)) f;
  _ ← putc (wrap_s 8 (Z.shiftr w 24)) f;
  ferror f.

(** ** Position *)

Definition ftell (f : Z) : IO Z :=
  x ← getf f;
  fl ← ask (os_fd_flags (_file x));
  if has fl FILE_DESC_DIRECTORY then mret 0
  else
    _ ← (if _cnt x <? 0 then modf f (up_cnt 0) else mret tt);
    x ← getf f;
    if has (_flag x) _IOREAD || has (_flag x) (_IOWRT .| _IORW) then
      let adjust :=
        if has (_flag x) _IOREAD then wrap_s 32 (- _cnt x)
        else if has (_flag x) _IOWRT && negb (_base x =? 0) && negb (has (_flag x) _IONBF)
        then wrap_s 32 (_ptr x - _base x) else 0 in
      tres ← lseek (_file x) 0 1;
      mret (if tres <? 0 then tres else tres + adjust)
    else mret (-1).

Definition fseek (f offset ptrname : Z) : IO Z :=
  x ← getf f;
  let fd := _file x in
  fl ← ask (os_fd_flags fd);
  if has fl FILE_DESC_DIRECTORY then mret 0
  else
    _ ← modf f (up_fillsize 512);
    _ ← modf f (not_flag _IOEOF);
    if has (_flag x) _IOREAD then
      r ← (if negb (_base x =? 0) && negb (has (_flag x) _IONBF) then
             p ← ftell f;
             let '(offset, ptrname) :=
               if ptrname =? SEEK_CUR then (offset + p, SEEK_SET) else (offset, ptrname) in
             x ← getf f;
             if (ptrname =? SEEK_SET) && negb (has (_flag x) (_IOUNGETC .| _IORW)) &&
                (p - offset <=? _ptr x - _base x) && (offset - p <=? _cnt x)
             then
               _ ← modf f (up_ptr (_ptr x + (offset - p)));
               _ ← modf f (up_cnt (_cnt x + (p - offset)));
               mret (inr 0)
             else mret (inl (offset, ptrname))
           else mret (inl (offset, ptrname)));
      match r with
      | inr v => mret v
      | inl (offset, ptrname) =>
          x ← getf f;
          _ ← (if has (_flag x) _IORW then modf f (not_flag _IOREAD) else mret tt);
          p ← lseek fd offset ptrname;
          _ ← modf f (up_cnt 0);
          _ ← modf f (up_ptr (_base x));
          _ ← modf f (not_flag _IOUNGETC);
          mret (if p =? -1 then -1 else 0)
      end
    else if has (_flag x) (_IOWRT .| _IORW) then
      p ← fflush f;
      q ← lseek fd offset ptrname;
      mret (if (q =? -1) || (p =? EOF) then -1 else 0)
    else mret (-1).

Definition rewind (f : Z) : IO unit :=
  x ← getf f;
  fl ← ask (os_fd_flags (_file x));
  if has fl FILE_DESC_DIRECTORY then mret tt
  else
    _ ← fflush f;
    _ ← lseek (_file x) 0 SEEK_SET;
    _ ← modf f (up_fillsize 512);
    _ ← modf f (up_cnt 0);
    x ← getf f;
    _ ← modf f (up_ptr (_base x));
    _ ← modf f (not_flag (_IOERR .| _IOEOF));
    if has (_flag x) _IORW then modf f (not_flag (_IOREAD .| _IOWRT)) else mret tt.

(** ** Buffers *)

Definition setvbuf (f buf type len : Z) : IO Z :=
  if f =? 0 then mret (-1)
  else
    _ ← fflush f;
    let install (buf : Z) (mine : bool) : IO Z :=
      x ← getf f;
      _ ← (if negb (_base x =? 0) && has (_flag x) _IOMYBUF then c_free (_base x) else mret tt);
      _ ← modf f (up_cnt 0);
      _ ← modf f (not_flag (_IONBF .| _IOFBF .| _IOLBF .| _IOUNGETC));
      _ ← modf f (or_flag type);
      _ ← (if negb (type =? _IONBF) then
             _ ← (if mine then modf f (or_flag _IOMYBUF) else mret tt);
             _ ← modf f (up_base buf);
             _ ← modf f (up_ptr buf);
             modf f (up_bufsiz len)
           else _ ← modf f (up_base 0); modf f (up_bufsiz 0));
      mret 0 in
    if (type =? _IOFBF) || (type =? _IOLBF) then
      if len <=? 0 then mret (-1)
      else
        p ← (if buf =? 0 then c_malloc len else mret buf);
        if p =? 0 then mret (-1)
        else
          _ ← modf f (up_fillsize len);
          install p (buf =? 0)
    else if type =? _IONBF then install buf false
    else mret (-1).

Definition setbuf (f buf : Z) : IO unit :=
  _ ← (if buf =? 0 then setvbuf f 0 _IONBF BUFSIZ else setvbuf f buf _IOFBF BUFSIZ); mret tt.

Definition setbuffer (f buf size : Z) : IO unit :=
  _ ← (if buf =? 0 then setvbuf f 0 _IONBF 0 else setvbuf f buf _IOFBF size); mret tt.

Definition setlinebuf (f : Z) : IO unit := _ ← setvbuf f 0 _IOLBF BUFSIZ; mret tt.

Definition fgetpos (stream pos : Z) : IO (Z * option Z) :=
  if negb (stream =? 0) && negb (pos =? 0) then
    ret ← ftell stream;
    mret (if ret =? -1 then (-1, None) else (0, Some ret))
  else _ ← tell_os (os_set_errno EFAULT); mret (1, None).

(** [pos] is the value that the pointer points to, None for NULL. *)
Definition fsetpos (stream : Z) (pos : option Z) : IO Z :=
  match pos with
  | Some p => if stream =? 0 then _ ← tell_os (os_set_errno EFAULT); mret (-1) else fseek stream p SEEK_SET
  | None => _ ← tell_os (os_set_errno EFAULT); mret (-1)
  end.

(** ** Opening and closing *)

(** [fd] is taken from the FILE before [f] is compared with NULL. *)
Definition fclose (f : Z) : IO Z :=
  x ← getf f;
  let fd := _file x in
  if f =? 0 then mret EOF
  else
    fl ← ask (os_fd_flags fd);
    r ← (if has (_flag x) (_IOREAD .| _IOWRT .| _IORW) && negb (has (_flag x) _IOSTRG)
            || has fl FILE_DESC_DIRECTORY then
           r ← fflush f;
           e ← c_close fd;
           x ← getf f;
           _ ← (if has (_flag x) _IOMYBUF then c_free (_base x) else mret tt);
           mret (if e <? 0 then EOF else r)
         else mret EOF);
    x ← getf f;
    _ ← (if has (_flag x) _IORMONCL && negb (_name_to_remove x =? 0) then
           _ ← modify (fun s => put_os s (os_remove (_name_to_remove x) (i_mem s) (i_os s)));
           _ ← c_free (_name_to_remove x);
           modf f (up_name 0)
         else mret tt);
    _ ← modf f (up_cnt 0);
    _ ← modf f (up_base 0);
    _ ← modf f (up_ptr 0);
    _ ← modf f (up_bufsiz 0);
    _ ← modf f (up_flag 0);
    _ ← modf f (up_file (-1));
    mret r.

(** The first FILE of a record whose flags are 0 *)
Fixpoint unused (l : list Z) : IO (option Z) :=
  match l with
  | [] => mret None
  | f :: l' => x ← getf f; if _flag x =? 0 then mret (Some f) else unused l'
  end.

(** The records with a new FILE, after [done] *)
Definition add_file (done : list (list Z)) (fr : list Z) (rest : list (list Z)) : IO Z :=
  rv ← c_malloc sizeof_FILE;
  if rv =? 0 then mret 0
  else
    _ ← modify (fun s => put_recs (put_files s (<[rv := zero_FILE]> (i_files s))) (done ++ (fr ++ [rv]) :: rest));
    mret rv.

Fixpoint alloc_in (done rest : list (list Z)) : IO Z :=
  match rest with
  | [] =>
      fr ← c_malloc sizeof_file_rec;
      if fr =? 0 then mret 0
      else _ ← modify (fun s => put_recs s (done ++ [[]])); add_file done [] []
  | fr :: rest' =>
      u ← unused fr;
      match u with
      | Some f => mret f
      | None =>
          if bool_decide (length fr = __FILE_REC_MAX) then alloc_in (done ++ [fr]) rest'
          else add_file done fr rest'
      end
  end.

Definition __alloc_file : IO Z := fun s => alloc_in [] (i_recs s) s.

Definition O_RDONLY : Z := 0.
Definition O_WRONLY : Z := 1.
Definition O_RDWR : Z := 2.
Definition O_CREAT : Z := 0x100.
Definition O_TRUNC : Z := 0x800.
Definition O_APPEND : Z := 0x1000.

Definition get_fmode : IO Z := fun s => Done (i_fmode s, s).

(** [(mode[1] == '+') || (mode[1] && (mode[2] == '+'))] *)
Definition mode_rw (mode : Z) : IO bool :=
  c1 ← ldb (mode + 1);
  if c1 =? 43 then mret true
  else if c1 =? 0 then mret false
  else c2 ← ldb (mode + 2); mret (c2 =? 43).

(** The flags for open; None: the mode is not valid *)
Definition mode_flags (mode : Z) (rw : bool) : IO (option Z) :=
  c0 ← ldb mode;
  let acc := if rw then O_RDWR else O_WRONLY in
  let oflags :=
    if c0 =? 97 then Some (O_CREAT .| acc .| O_APPEND)
    else if c0 =? 114 then Some (if rw then O_RDWR else O_RDONLY)
    else if c0 =? 119 then Some (O_TRUNC .| O_CREAT .| acc)
    else None in
  match oflags with
  | None => mret None
  | Some fl =>
      c1 ← ldb (mode + 1);
      tb ← (if c1 =? 43 then ldb (mode + 2) else mret c1);
      fm ← get_fmode;
      mret (Some (if tb =? 116 then fl .| O_TEXT
                  else if tb =? 98 then fl .| O_BINARY
                  else fl .| (fm .& (O_TEXT .| O_BINARY))))
  end.

(** What fopen, fdopen, freopen and fdreopen do with the descriptor they have *)
Definition set_up (f fd mode : Z) (rw : bool) : IO unit :=
  _ ← modf f (up_cnt 0);
  _ ← modf f (up_file fd);
  _ ← modf f (up_bufsiz 0);
  c0 ← ldb mode;
  _ ← modf f (up_flag (if rw then _IORW else if c0 =? 114 then _IOREAD else _IOWRT));
  _ ← (if c0 =? 97 then _ ← lseek fd 0 SEEK_END; mret tt else mret tt);
  _ ← modf f (up_base 0);
  _ ← modf f (up_ptr 0);
  fl ← ask (os_fd_flags fd);
  if has fl FILE_DESC_DIRECTORY then
    _ ← modf f (not_flag (_IORW .| _IOREAD .| _IOWRT)); modf f (or_flag _IOEOF)
  else mret tt.

Definition c_open (file oflags : Z) : IO Z := fun s =>
  let '(fd, o) := os_open file oflags (i_mem s) (i_os s) in Done (fd, put_os s o).

Definition fopen (file mode : Z) : IO Z :=
  if (file =? 0) || (mode =? 0) then mret 0
  else
    f ← __alloc_file;
    if f =? 0 then mret 0
    else
      rw ← mode_rw mode;
      oflags ← mode_flags mode rw;
      match oflags with
      | None => mret 0
      | Some oflags =>
          fd ← c_open file oflags;
          if fd <? 0 then mret 0 else _ ← set_up f fd mode rw; mret f
      end.

Definition freopen (file mode f : Z) : IO Z :=
  if (file =? 0) || (mode =? 0) || (f =? 0) then mret 0
  else
    rw ← mode_rw mode;
    x ← getf f;
    let fdo := _file x in
    _ ← fclose f;
    oflags ← mode_flags mode rw;
    match oflags with
    | None => mret 0
    | Some oflags =>
        fd ← c_open file oflags;
        if fd <? 0 then mret 0
        else
          fd ← (if negb (fd =? fdo) && (0 <=? fdo) then
                  _ ← tell_os (os_dup2 fd fdo);
                  _ ← c_close fd;
                  mret fdo
                else mret fd);
          _ ← set_up f fd mode rw;
          mret f
    end.

Definition fdreopen (fd mode f : Z) : IO Z :=
  if (fd =? -1) || (mode =? 0) || (f =? 0) then mret 0
  else
    rw ← mode_rw mode;
    x ← getf f;
    let fdo := _file x in
    if fdo =? fd then mret f
    else
      _ ← fclose f;
      fd ← (if 0 <=? fdo then _ ← tell_os (os_dup2 fd fdo); mret fdo else mret fd);
      _ ← set_up f fd mode rw;
      mret f.

(** *** At exit *)

Definition fcloseall_helper (f : Z) : IO unit :=
  _ ← fflush f;
  x ← getf f;
  if 2 <? _file x then _ ← fclose f; mret tt else mret tt.

Definition __stdio_cleanup_proc : IO unit := _fwalk fcloseall_helper.

(** ** Streams on strings *)

(** The address of an automatic FILE is a key of the table. *)
Definition __stropenw (p str len : Z) : IO unit :=
  _ ← modf p (up_flag (_IOWRT .| _IOSTRG .| _IONTERM));
  _ ← modf p (up_ptr str);
  modf p (up_cnt len).

Definition __strclosew (p : Z) : IO unit := x ← getf p; stb (_ptr x) 0.

Definition stdin_init : FILE := mk_FILE 0 0 0 0 (_IOREAD .| _IOLBF) 0 0 0.
Definition stdout_init : FILE := mk_FILE 0 0 0 0 (_IOWRT .| _IOFBF) 1 0 0.
Definition stderr_init : FILE := mk_FILE 0 0 0 0 (_IOWRT .| _IONBF) 2 0 0.
Definition stdprn_init : FILE := mk_FILE 0 0 0 0 (_IOWRT .| _IONBF) 4 0 0.
Definition stdaux_init : FILE := mk_FILE 0 0 0 0 (_IORW .| _IONBF) 3 0 0.

(** *** At start-up *)

Definition check_std (f : Z) : IO unit :=
  x ← getf f;
  i ← ask (os_dev_info (_file x));
  if i =? -1 then modf f (up_file (-1)) else mret tt.

(** [__initial_file_rec.next = 0]: the list has one record again. *)
Definition __setup_file_rec_list : IO unit :=
  _ ← modify (fun s => put_recs s [[stdin; stdout; stderr; stdprn; stdaux]]);
  _ ← check_std stdin;
  _ ← check_std stdout;
  _ ← check_std stderr;
  _ ← check_std stdprn;
  check_std stdaux.

End Stdio.
