(* ===== verification/StdioInv.v ===== *)
(** * Streams: reasoning about the calls

    Flags, a weakest precondition that excludes every failure, and its rules for FILEs,
    memory and the calls of the system. *)

From stdpp Require Import base gmap list numbers.
From Stdlib Require Import ZArith Lia.
From S2P Require Import Prelude MemFuns NmRep Stdio.

Open Scope Z_scope.
Open Scope c_scope.

(** ** Flags *)

Lemma has_or x y m : has (x .| y) m = has x m || has y m.
Proof.
  unfold has. rewrite Z.land_lor_distr_l, <- negb_andb. f_equal.
  destruct (Z.eqb_spec (x .& m) 0) as [E|E], (Z.eqb_spec (y .& m) 0) as [E'|E']; cbn [andb];
    rewrite ?Z.eqb_eq, ?Z.eqb_neq, ?Z.lor_eq_0_iff; tauto.
Qed.

Lemma has_mask x m m' : has x (m .| m') = has x m || has x m'.
Proof. unfold has. rewrite (Z.land_comm x), (Z.land_comm x m), (Z.land_comm x m'). apply has_or. Qed.

Lemma has_without x y m : has (without x y) m = has x (without m y).
Proof.
  unfold has, without. do 2 f_equal. apply Z.bits_inj'. intros k Hk.
  rewrite !Z.land_spec, !Z.ldiff_spec. destruct (Z.testbit x k), (Z.testbit y k), (Z.testbit m k); done.
Qed.

(** [(x & (a | b)) == b] for two single flags *)
Lemma land_eq_flag x i j :
  0 <= i -> 0 <= j -> i <> j ->
  (x .& (2 ^ i .| 2 ^ j) =? 2 ^ j) = negb (has x (2 ^ i)) && has x (2 ^ j).
Proof.
  intros Hi Hj Hne. assert (Hbit : forall k, 0 <= k -> has x (2 ^ k) = Z.testbit x k).
  { intros k Hk. unfold has. destruct (Z.testbit x k) eqn:E.
    - apply negb_true_iff, Z.eqb_neq. intros Hz. apply (f_equal (fun z => Z.testbit z k)) in Hz.
      rewrite Z.land_spec, E, Z.pow2_bits_true, Z.bits_0 in Hz by lia. done.
    - apply negb_false_iff, Z.eqb_eq. apply Z.bits_inj'. intros n Hn. rewrite Z.land_spec, Z.bits_0.
      destruct (decide (n = k)) as [->|]; [by rewrite E|]. rewrite Z.pow2_bits_false by lia. apply andb_false_r. }
  rewrite !Hbit by done. destruct (Z.eqb_spec (x .& (2 ^ i .| 2 ^ j)) (2 ^ j)) as [E|E].
  - symmetry. rewrite andb_true_iff, negb_true_iff.
    pose proof (f_equal (fun z => Z.testbit z i) E) as Ei. pose proof (f_equal (fun z => Z.testbit z j) E) as Ej.
    cbv beta in Ei, Ej. rewrite Z.land_spec, Z.lor_spec in Ei, Ej.
    rewrite (Z.pow2_bits_true i), (Z.pow2_bits_false j i) in Ei by lia.
    rewrite (Z.pow2_bits_true j), orb_true_r in Ej by lia.
    rewrite orb_true_l, andb_true_r in Ei. rewrite andb_true_r in Ej. done.
  - symmetry. apply not_true_iff_false. rewrite andb_true_iff, negb_true_iff. intros [Ei Ej]. apply E.
    apply Z.bits_inj'. intros n Hn. rewrite Z.land_spec, Z.lor_spec.
    destruct (decide (n = i)) as [->|].
    + rewrite Ei, (Z.pow2_bits_false j i) by lia. done.
    + destruct (decide (n = j)) as [->|].
      * rewrite Ej, (Z.pow2_bits_true j) by lia. by rewrite orb_true_r.
      * rewrite (Z.pow2_bits_false i n), (Z.pow2_bits_false j n) by lia. by rewrite andb_false_r.
Qed.

Lemma has_without_ne x y m : without m y = m -> has (without x y) m = has x m.
Proof. intros E. by rewrite has_without, E. Qed.

Lemma has_without_in x y m : without m y = 0 -> has (without x y) m = false.
Proof. intros E. rewrite has_without, E. unfold has. by rewrite Z.land_0_r. Qed.

(** Flags of updated words *)
Ltac flags :=
  repeat first
  [ rewrite has_or
  | match goal with
    | |- context [has (without ?x ?y) ?m] =>
        first [rewrite (has_without_ne x y m) by reflexivity | rewrite (has_without_in x y m) by reflexivity]
    | |- context [has ?a ?b] =>
        let v := eval vm_compute in (has a b) in
        lazymatch v with true => idtac | false => idtac end; progress change (has a b) with v
    end ];
  rewrite ?orb_false_r, ?orb_true_r; cbn [orb andb negb].

(** Written bytes are mapped. *)
Lemma rng_written m p l : rng (write_bytes m p l) p (Z.of_nat (length l)).
Proof.
  intros a Ha. destruct (lookup_lt_is_Some_2 l (Z.to_nat (a - p))) as [b Hb]; [lia|].
  rewrite <- (Z.sub_simpl_r a p). replace (a - p + p) with (p + Z.of_nat (Z.to_nat (a - p))) by lia.
  rewrite (bytes_at_write m p l _ _ Hb). done.
Qed.

(** ** Weakest preconditions *)

Section Wpi.
Context {SA : StdioApi}.

Definition wpi {A} (c : IO A) (Q : A -> iost -> Prop) (s : iost) : Prop :=
  match c s with Done (a, s') => Q a s' | Fail _ => False end.

Lemma wpi_bind {A B} (c : IO A) (k : A -> IO B) Q s :
  wpi c (fun a s' => wpi (k a) Q s') s -> wpi (c ≫= k) Q s.
Proof.
  unfold wpi, mbind, IO_bind. destruct (c s) as [[a s']|]; [|done]. by rewrite bind_Done.
Qed.

Lemma wpi_ret {A} (a : A) (Q : A -> iost -> Prop) s : Q a s -> wpi (mret a) Q s.
Proof. done. Qed.

Lemma wpi_mono {A} (c : IO A) (Q Q' : A -> iost -> Prop) s :
  wpi c Q s -> (forall a s', Q a s' -> Q' a s') -> wpi c Q' s.
Proof. unfold wpi. destruct (c s) as [[a s']|]; [|done]. auto. Qed.

Lemma wpi_Done {A} (c : IO A) (Q : A -> iost -> Prop) s :
  wpi c Q s -> exists a s', c s = Done (a, s') /\ Q a s'.
Proof. unfold wpi. destruct (c s) as [[a s']|]; [|done]. eauto. Qed.

Lemma wpi_getf f x s (Q : FILE -> iost -> Prop) : i_files s !! f = Some x -> Q x s -> wpi (getf f) Q s.
Proof. intros E HQ. unfold wpi, getf. by rewrite E. Qed.

(** The state with another FILE *)
Definition setf (s : iost) (f : Z) (x : FILE) : iost := put_files s (<[f := x]> (i_files s)).

Lemma setf_at s f x : i_files (setf s f x) !! f = Some x.
Proof. apply lookup_insert_eq. Qed.

Lemma setf_setf s f x y : setf (setf s f x) f y = setf s f y.
Proof. unfold setf, put_files. simpl. by rewrite insert_insert_eq. Qed.

Lemma setf_put_mem s f x y m : setf (put_mem (setf s f x) m) f y = setf (put_mem s m) f y.
Proof. unfold setf, put_files, put_mem. simpl. by rewrite insert_insert_eq. Qed.

Lemma setf_same s f x : i_files s !! f = Some x -> setf s f x = s.
Proof. intros E. unfold setf, put_files. rewrite insert_id by done. by destruct s. Qed.

Lemma wpi_modf f g x s (Q : unit -> iost -> Prop) :
  i_files s !! f = Some x -> Q tt (setf s f (g x)) -> wpi (modf f g) Q s.
Proof. intros E HQ. unfold wpi, modf. by rewrite E. Qed.

Lemma wpi_ask {A} (q : os_st -> A) s (Q : A -> iost -> Prop) : Q (q (i_os s)) s -> wpi (ask q) Q s.
Proof. done. Qed.

Lemma wpi_ldb a b s (Q : Z -> iost -> Prop) : i_mem s !! a = Some b -> Q b s -> wpi (ldb a) Q s.
Proof. intros E HQ. unfold wpi, ldb, load. by rewrite E, bind_Done. Qed.

Lemma wpi_stb a c s (Q : unit -> iost -> Prop) :
  is_Some (i_mem s !! a) -> Q tt (put_mem s (<[a := byte c]> (i_mem s))) -> wpi (stb a c) Q s.
Proof. intros [v E] HQ. unfold wpi, stb, store. by rewrite E, bind_Done. Qed.

End Wpi.

#[global] Arguments wpi : simpl never.

(** One statement on a FILE that is known *)
Ltac io1 :=
  lazymatch goal with
  | |- wpi (_ ≫= _) _ _ => apply wpi_bind; io1
  | |- wpi (mret _) _ _ => apply wpi_ret
  | |- wpi (getf _) _ _ => eapply wpi_getf; [solve [apply setf_at | eassumption]|]
  | |- wpi (modf _ _) _ _ => eapply wpi_modf; [solve [apply setf_at | eassumption]|]; rewrite ?setf_setf
  | |- wpi (ask _) _ _ => apply wpi_ask
  end.
Ltac io := repeat (io1; cbv beta zeta).

Ltac fcbn := cbn [_cnt _ptr _base _bufsiz _flag _file _name_to_remove _fillsize
  up_cnt up_ptr up_base up_bufsiz up_flag up_file up_name up_fillsize or_flag not_flag
  negb andb orb i_mem i_files i_recs i_fmode i_os put_mem put_files put_os put_recs].
