(* ===== verification/StdioWr.v ===== *)
(** * Streams: output

    Whatever is given to putc, fwrite and fputs reaches the descriptor, once and in order,
    in every mode of buffering: what the descriptor has received, followed by what is in the
    buffer, is what was written before followed by the new characters. *)

From stdpp Require Import base gmap list numbers.
From Stdlib Require Import ZArith Lia.
From S2P Require Import Prelude MemFuns NmRep Stdio StdioInv.

Open Scope Z_scope.
Open Scope c_scope.

(** ** The calls below *)

Section Laws.
Context {SA : StdioApi}.

(** The descriptors are the same ones. *)
Definition same_env (o o' : os_st) : Prop := forall fd,
  os_fd_flags fd o' = os_fd_flags fd o /\ os_modes fd o' = os_modes fd o /\
  os_isatty fd o' = os_isatty fd o.

Lemma same_env_refl o : same_env o o.
Proof. done. Qed.

Lemma same_env_trans o1 o2 o3 : same_env o1 o2 -> same_env o2 o3 -> same_env o1 o3.
Proof.
  intros H1 H2 fd. destruct (H1 fd) as (? & ? & ?), (H2 fd) as (? & ? & ?). split_and!; congruence.
Qed.

(** [os_out fd] is what the descriptor has received. write takes some of the bytes, from
    the first one on; malloc gives fresh memory. *)
Class OutLaws (tb_size : Z) := {
  os_out : Z -> os_st -> list Z;
  write_law : forall fd l o n o', os_write fd l o = (n, o') -> same_env o o' /\
    (n <= 0 /\ os_out fd o' = os_out fd o \/
     0 < n <= Z.of_nat (length l) /\ os_out fd o' = os_out fd o ++ take (Z.to_nat n) l);
  seek_law : forall fd off whence o r o', os_lseek fd off whence o = (r, o') ->
    same_env o o' /\ os_out fd o' = os_out fd o;
  alloc_law : forall n o m p o' m', 0 < n -> os_malloc n o m = (p, o', m') ->
    same_env o o' /\ (forall fd, os_out fd o' = os_out fd o) /\
    (p = 0 /\ m' = m \/
     0 < p /\ fresh_at m p n /\ exists l, Z.of_nat (length l) = n /\ m' = write_bytes m p l);
  no_write_hook : write_hook = None;
  tb_size_pos : 0 < tb_size }.

(** write and the seek to the end do not fail. *)
Definition progress : Prop :=
  (forall fd l o, l <> [] -> 0 < fst (os_write fd l o)) /\
  (forall fd o, fst (os_lseek fd 0 SEEK_END o) <> -1).

End Laws.

Section Wr.
Context {SA : StdioApi} (AUTO AUTOBUF tb : Z) {laws : OutLaws tb}.
Implicit Types (s : iost) (x : FILE).

Definition fd_out s x : list Z := os_out (_file x) (i_os s).

(** *** Writing a block out *)

Lemma seek_end_spec (b : bool) s x :
  progress -> wpi (if b then seek_end (_file x) else mret true) (fun r s' => r = true /\ exists o',
    s' = put_os s o' /\ same_env (i_os s) o' /\ os_out (_file x) o' = fd_out s x) s.
Proof.
  intros [_ Hk]. destruct b; [|apply wpi_ret; split; [done|]; exists (i_os s); destruct s; done].
  unfold seek_end. io1. apply wpi_bind. unfold wpi, lseek. destruct (os_lseek _ _ _ _) as [r o'] eqn:E.
  pose proof (Hk (_file x) (i_os s)) as Hr. rewrite E in Hr. cbn [fst] in Hr.
  destruct (seek_law _ _ _ _ _ _ E) as [? ?]. replace (r =? -1) with false by lia.
  split; [done|]. by exists o'.
Qed.

Lemma put_out_spec app f base l s x :
  progress -> i_files s !! f = Some x -> bytes_at (i_mem s) base l -> l <> [] ->
  wpi (put_out app f base (Z.of_nat (length l))) (fun r s' => exists n o',
    r = Some n /\ s' = put_os s o' /\ same_env (i_os s) o' /\ 0 < n <= Z.of_nat (length l) /\
    os_out (_file x) o' = fd_out s x ++ take (Z.to_nat n) l) s.
Proof.
  intros Hpr Hx Hl Hne. pose proof (proj1 Hpr) as Hp. unfold put_out. io1. rewrite no_write_hook.
  apply wpi_bind. apply (wpi_mono _ (fun r s' => r = None /\ s' = s)).
  { destruct (has _ _); by apply wpi_ret. }
  intros ? ? [-> ->]. io1. apply wpi_bind. eapply wpi_mono; [by apply (seek_end_spec _ s x)|]. cbv beta.
  intros ? ? (-> & o1 & -> & He1 & Ho1). apply wpi_bind. unfold wpi, _write. cbn [put_os i_mem i_os].
  rewrite Nat2Z.id, (load_bytes_spec _ _ _ Hl), bind_Done.
  destruct (os_write (_file x) l o1) as [n o2] eqn:E. pose proof (Hp (_file x) l o1 Hne) as Hn.
  rewrite E in Hn. cbn [fst] in Hn. destruct (write_law _ _ _ _ _ E) as [He2 [[? _]|[Hn2 Ho2]]]; [lia|].
  exists n, o2. split_and!; try done; [by eapply same_env_trans|lia|]. by rewrite Ho2, Ho1.
Qed.

Lemma put_all_spec app f fuel : forall l base s x,
  progress -> i_files s !! f = Some x -> bytes_at (i_mem s) base l -> (length l < fuel)%nat ->
  wpi (put_all app fuel f base (Z.of_nat (length l))) (fun r s' => r = true /\ exists o',
    s' = put_os s o' /\ same_env (i_os s) o' /\ os_out (_file x) o' = fd_out s x ++ l) s.
Proof.
  induction fuel as [|fuel IH]; intros l base s x Hp Hx Hl Hf; [lia|]. cbn [put_all].
  destruct (Z.ltb_spec 0 (Z.of_nat (length l))) as [Hpos|Hz].
  2: { destruct l; [|simpl in Hz; lia]. apply wpi_ret. split; [done|]. exists (i_os s).
       rewrite app_nil_r. by destruct s. }
  apply wpi_bind. eapply wpi_mono; [apply put_out_spec; [done|done|done|by intros ->]|]. cbv beta.
  intros ? ? (n & o1 & -> & -> & He1 & Hn & Ho1). replace (n <=? 0) with false by lia.
  replace (Z.of_nat (length l) - n) with (Z.of_nat (length (drop (Z.to_nat n) l)))
    by (rewrite length_drop; lia).
  eapply wpi_mono; [apply (IH _ _ (put_os s o1) x)|].
  - done.
  - done.
  - rewrite <- (take_drop (Z.to_nat n) l) in Hl. apply bytes_at_app in Hl as [_ Hl].
    rewrite length_take, Nat.min_l in Hl by lia. by rewrite Z2Nat.id in Hl by lia.
  - rewrite length_drop. lia.
  - cbv beta. intros r s' (-> & o2 & -> & He2 & Ho2). split; [done|]. exists o2. split_and!; [done| |].
    + by eapply same_env_trans.
    + rewrite Ho2. unfold fd_out. cbn [put_os i_os]. rewrite Ho1. unfold fd_out.
      by rewrite <- app_assoc, take_drop.
Qed.

(** *** A stream for output *)

Definition nbf x : bool := has (_flag x) _IONBF.
Definition lbf x : bool := has (_flag x) _IOLBF.

(** The buffer holds [pend]. *)
Inductive buffered s x (pend : list Z) : Prop :=
  | no_buffer : _base x = 0 -> pend = [] -> lbf x = false -> buffered s x pend
  | in_buffer : nbf x = false -> 0 < _base x -> 0 < _bufsiz x -> rng (i_mem s) (_base x) (_bufsiz x) ->
      _ptr x = _base x + Z.of_nat (length pend) -> bytes_at (i_mem s) (_base x) pend ->
      (if lbf x then Z.of_nat (length pend) < _bufsiz x else Z.of_nat (length pend) <= _bufsiz x) ->
      buffered s x pend.

(** The automatic variables are there. *)
Definition autos s : Prop :=
  is_Some (i_mem s !! AUTO) /\ 0 < AUTOBUF /\ rng (i_mem s) AUTOBUF BUFSIZ.

(** [f] is open for output only. *)
Record wr_pre s (f : Z) x (pend : list Z) : Prop := {
  w_at : i_files s !! f = Some x;
  w_wrt : has (_flag x) _IOWRT = true;
  w_rw : has (_flag x) _IORW = false;
  w_strg : has (_flag x) _IOSTRG = false;
  w_auto : autos s;
  w_buf : buffered s x pend }.

(** The count tells __putc_raw and fwrite how much room there is. *)
Definition cnt_ok x (pend : list Z) : Prop :=
  if _base x =? 0 then _cnt x = 0
  else if lbf x then _cnt x = - Z.of_nat (length pend)
  else 0 <= _cnt x /\ Z.of_nat (length pend) + _cnt x <= _bufsiz x.

Definition wr_ok s f x pend : Prop := wr_pre s f x pend /\ cnt_ok x pend.

(** Memory of the client's *)
Definition client_at s x (a : Z) : Prop :=
  is_Some (i_mem s !! a) /\ a <> AUTO /\ (a < AUTOBUF \/ AUTOBUF + BUFSIZ <= a) /\
  (_base x = 0 \/ a < _base x \/ _base x + _bufsiz x <= a).

(** [l] went to the stream, and nothing of the client's changed. *)
Record wstep s x (pend l : list Z) s' x' (pend' : list Z) : Prop := {
  ws_file : _file x' = _file x;
  ws_term : has (_flag x') _IOTERM = has (_flag x) _IOTERM;
  ws_err : has (_flag x') _IOERR = has (_flag x) _IOERR;
  ws_env : same_env (i_os s) (i_os s');
  ws_out : fd_out s' x ++ pend' = fd_out s x ++ pend ++ l;
  ws_keep : forall a, client_at s x a -> client_at s' x' a /\ i_mem s' !! a = i_mem s !! a }.

Lemma wstep_refl s x pend : wstep s x pend [] s x pend.
Proof. split; try done. by rewrite app_nil_r. Qed.

Lemma wstep_trans s1 x1 p1 l1 s2 x2 p2 l2 s3 x3 p3 :
  wstep s1 x1 p1 l1 s2 x2 p2 -> wstep s2 x2 p2 l2 s3 x3 p3 -> wstep s1 x1 p1 (l1 ++ l2) s3 x3 p3.
Proof.
  intros [F1 T1 R1 E1 O1 K1] [F2 T2 R2 E2 O2 K2]. split.
  - congruence.
  - congruence.
  - congruence.
  - by eapply same_env_trans.
  - unfold fd_out in *. rewrite F1 in O2. rewrite O2, app_assoc, O1. by rewrite <- !app_assoc.
  - intros a Ha. destruct (K1 a Ha) as [Ha2 E]. destruct (K2 a Ha2) as [Ha3 E']. split; [done|]. congruence.
Qed.

(** A buffer, once there, stays, and only stdout becomes line buffered. *)
Record same_buf (f : Z) x x' : Prop := {
  sb_base : _base x <> 0 ->
    _base x' = _base x /\ _bufsiz x' = _bufsiz x /\ nbf x' = nbf x /\ lbf x' = lbf x;
  sb_lbf : f <> stdout -> lbf x = false -> lbf x' = false }.

Lemma same_buf_refl f x : same_buf f x x.
Proof. by split. Qed.

Lemma same_buf_trans f x1 x2 x3 : same_buf f x1 x2 -> same_buf f x2 x3 -> same_buf f x1 x3.
Proof.
  intros [H1 L1] [H2 L2]. split; [|auto]. intros Hb. destruct (H1 Hb) as (E & ? & ? & ?).
  destruct H2 as (? & ? & ? & ?); [by rewrite E|]. split_and!; congruence.
Qed.

(** Output of [l] on a stream leaves it in order. *)
Definition wrote s f x pend (l : list Z) s' : Prop :=
  exists x' pend', wr_ok s' f x' pend' /\ same_buf f x x' /\ wstep s x pend l s' x' pend'.

Lemma wrote_trans s f x pend l1 s1 x1 p1 l2 s2 :
  wstep s x pend l1 s1 x1 p1 -> same_buf f x x1 -> wrote s1 f x1 p1 l2 s2 -> wrote s f x pend (l1 ++ l2) s2.
Proof.
  intros H1 B1 (x2 & p2 & ? & B2 & H2). exists x2, p2.
  split_and!; [done|by eapply same_buf_trans|by eapply wstep_trans].
Qed.

Lemma wrote_nil s f x pend : wr_ok s f x pend -> wrote s f x pend [] s.
Proof. intros H. exists x, pend. split_and!; [done|done|apply wstep_refl]. Qed.

(** Memory that stays mapped *)
Lemma autos_mono s s' :
  (forall a, is_Some (i_mem s !! a) -> is_Some (i_mem s' !! a)) -> autos s -> autos s'.
Proof. intros Hm (? & ? & Hr). split_and!; auto. intros a Ha. auto. Qed.

Lemma autos_store s a v : autos s -> autos (put_mem s (<[a := v]> (i_mem s))).
Proof. apply autos_mono. intros b Hb. simpl. rewrite lookup_insert. by case_decide. Qed.

(** A stream with a new buffer at [p] *)
Lemma new_buffer s f x o' m' p l fl flag' :
  wr_pre s f x [] -> nbf x = false -> lbf x = false -> same_env (i_os s) o' ->
  (forall fd, os_out fd o' = os_out fd (i_os s)) -> 0 < p -> fresh_at (i_mem s) p tb ->
  Z.of_nat (length l) = tb -> m' = write_bytes (i_mem s) p l ->
  flag' = _flag x .| _IOMYBUF \/ flag' = (_flag x .| _IOMYBUF) .| _IOLBF ->
  let x' := mk_FILE tb p p tb flag' (_file x) (_name_to_remove x) fl in
  let s' := setf (put_os (put_mem s m') o') f x' in
  wr_pre s' f x' [] /\ wstep s x [] [] s' x' [].
Proof.
  intros [Hx Hw Hr Hs Ha _] En Hl He Ho Hp Hf Hlen Em Hfl x' s'. unfold nbf in En. unfold lbf in Hl.
  pose proof (tb_size_pos (tb_size := tb)) as Htb.
  assert (Hkeep : forall a, is_Some (i_mem s !! a) -> m' !! a = i_mem s !! a /\ (a < p \/ p + tb <= a)).
  { intros a [v Hv]. assert (a < p \/ p + tb <= a).
    { destruct (decide (p <= a < p + tb)) as [Hin|]; [|lia]. by rewrite Hf in Hv. }
    split; [|done]. rewrite Em. apply lookup_write_bytes_out. lia. }
  split; [split; [apply setf_at|..]|split]; try done; simpl.
  all: try (destruct Hfl as [-> | ->]; flags; done).
  - revert Ha. apply autos_mono. intros a Ha. simpl. by destruct (Hkeep a Ha) as [-> _].
  - apply in_buffer; simpl; try lia.
    + destruct Hfl as [-> | ->]; unfold nbf, x'; fcbn; flags; done.
    + rewrite Em, <- Hlen. apply rng_written.
    + apply bytes_at_nil.
    + destruct (lbf _); lia.
  - unfold fd_out. simpl. by rewrite Ho, !app_nil_r.
  - intros a (Ha1 & Ha2 & Ha3 & _). destruct (Hkeep a Ha1) as [Ea Hout]. rewrite Ea.
    split; [|done]. split_and!; [simpl; by rewrite Ea|done|done|]. simpl. lia.
Qed.

(** The first output on a stream allocates its buffer. *)
Lemma alloc_wbuf_spec s f x pend :
  wr_pre s f x pend -> wpi (alloc_wbuf tb f) (fun _ s' => exists x',
    wr_pre s' f x' pend /\ (nbf x' = false -> _base x' <> 0) /\ same_buf f x x' /\
    wstep s x pend [] s' x' pend) s.
Proof.
  intros Hpre. pose proof Hpre as [Hx Hw Hr Hs Ha Hb]. unfold alloc_wbuf. io1. fold (nbf x).
  destruct (Z.eqb_spec (_base x) 0) as [E0|E0]; cbn [andb].
  2: { io1. exists x. split_and!; [done|done|done|apply wstep_refl]. }
  destruct (nbf x) eqn:En; cbn [negb].
  { io1. exists x. split_and!; [done| |done|apply wstep_refl]. by rewrite En. }
  destruct Hb as [_ -> Hl|]; [|lia].
  apply wpi_bind. unfold wpi at 1, c_malloc. destruct (os_malloc _ _ _) as [[p o'] m'] eqn:E.
  destruct (alloc_law _ _ _ _ _ _ tb_size_pos E) as (He & Ho & Hm). cbn iota.
  set (s1 := put_os (put_mem s m') o'). assert (Hx1 : i_files s1 !! f = Some x) by done.
  io. destruct Hm as [[-> ->]|(Hp & Hf & l & Hlen & Em)].
  - change (0 =? 0) with true. cbn iota. unfold nbf in En. unfold lbf in Hl.
    io. eexists. split_and!; [split; [apply setf_at|..]| |split; [intros ?; lia|]|].
    all: unfold nbf; fcbn; flags; try done.
    + by apply no_buffer; [| |unfold lbf; fcbn; flags].
    + intros _ _. unfold lbf. fcbn. by flags.
    + split; fcbn; flags; try done.
      * unfold fd_out. cbn. by rewrite Ho, !app_nil_r.
      * intros a (? & ? & ? & _). split; [|done]. split_and!; try done. by left.
  - replace (p =? 0) with false by lia. io. apply wpi_bind.
    assert (Hfin : forall b : bool, (b = true -> f = stdout) -> wpi (if b then modf f (or_flag _IOLBF) else mret tt)
      (fun _ s' => exists x', wr_pre s' f x' [] /\ (nbf x' = false -> _base x' <> 0) /\
        same_buf f x x' /\ wstep s x [] [] s' x' [])
      (setf s1 f (mk_FILE tb p p tb (_flag x .| _IOMYBUF) (_file x) (_name_to_remove x) (_fillsize x)))).
    { intros b Hbs. assert (Hn : forall flag', flag' = _flag x .| _IOMYBUF \/ flag' = (_flag x .| _IOMYBUF) .| _IOLBF ->
        let x' := mk_FILE tb p p tb flag' (_file x) (_name_to_remove x) (_fillsize x) in
        wr_pre (setf s1 f x') f x' [] /\ wstep s x [] [] (setf s1 f x') x' []).
      { intros flag' Hfl. by apply (new_buffer s f x o' m' p l). }
      destruct b; io; fcbn; (eexists; split_and!; [apply Hn; auto|simpl; lia| |apply Hn; auto]).
      - split; [intros ?; lia|]. intros Hns _. by destruct Hns; apply Hbs.
      - split; [intros ?; lia|]. intros _ _. unfold lbf in *. fcbn. by flags. }
    destruct (f =? stdout) eqn:Es; [|io; by apply (Hfin false)].
    apply Z.eqb_eq in Es. rewrite <- Es. io. by apply Hfin.
Qed.

(** *** _flsbuf *)

Lemma bytes_at_snoc m base pend c :
  bytes_at m base pend -> bytes_at (<[base + Z.of_nat (length pend) := c]> m) base (pend ++ [c]).
Proof.
  intros H. apply bytes_at_app. split.
  - intros i b Hi. rewrite lookup_insert_ne; [by apply H|]. apply lookup_lt_Some in Hi. lia.
  - intros i b Hi. destruct i; [|done]. injection Hi as <-. rewrite Z.add_0_r. apply lookup_insert_eq.
Qed.

Lemma rng_insert m a n b v : rng m a n -> rng (<[b := v]> m) a n.
Proof. intros H y Hy. rewrite lookup_insert. case_decide; [done|auto]. Qed.

(** After a step that left the flags and the buffer where they were *)
Lemma wr_pre_same s f x pend s' x' pend' :
  wr_pre s f x pend -> i_files s' !! f = Some x' -> _flag x' = _flag x ->
  autos s' -> buffered s' x' pend' -> wr_pre s' f x' pend'.
Proof. intros [] ? E ? ?. split; try done; by rewrite E. Qed.

Lemma keeps_buf s x s' x' :
  _base x' = _base x -> _bufsiz x' = _bufsiz x ->
  (forall a, client_at s x a -> i_mem s' !! a = i_mem s !! a) ->
  forall a, client_at s x a -> client_at s' x' a /\ i_mem s' !! a = i_mem s !! a.
Proof.
  intros Eb Ez Hk a Ha. pose proof (Hk a Ha) as E. destruct Ha as (? & ? & ? & ?). split; [|done].
  unfold client_at. rewrite E, Eb, Ez. done.
Qed.

Lemma flsbuf_line s f x pend c :
  progress -> wr_pre s f x pend -> lbf x = true ->
  wpi (_ ← stb (_ptr x) c;
       _ ← modf f (up_ptr (_ptr x + 1));
       let rn := _ptr x + 1 - _base x in
       if (c =? 10) || (_bufsiz x <=? rn) then
         _ ← modf f (up_ptr (_base x));
         _ ← modf f (up_cnt 0);
         ok ← put_all true (S (Z.to_nat rn)) f (_base x) rn;
         mret (if ok : bool then c else EOF)
       else _ ← modf f (up_cnt (- rn)); mret c)
    (fun r s' => r = c /\ wrote s f x pend [byte c] s') s.
Proof.
  intros Hpr Hpre Hl. pose proof Hpre as [Hx _ _ _ Ha [Hb _ Hl'|Hn Hb Hz Hr Hp Hat Hlen]]; [congruence|].
  rewrite Hl in Hlen. set (l := pend ++ [byte c]).
  assert (Hll : Z.of_nat (length l) = Z.of_nat (length pend) + 1) by (unfold l; rewrite length_app; simpl; lia).
  apply wpi_bind, wpi_stb; [apply Hr; lia|]. set (s1 := put_mem s _).
  assert (Hx1 : i_files s1 !! f = Some x) by done.
  assert (Hat1 : bytes_at (i_mem s1) (_base x) l) by (simpl; rewrite Hp; by apply bytes_at_snoc).
  assert (Hr1 : rng (i_mem s1) (_base x) (_bufsiz x)) by (by apply rng_insert).
  assert (Ha1 : autos s1) by (by apply autos_store).
  assert (Hk1 : forall a, client_at s x a -> i_mem s1 !! a = i_mem s !! a).
  { intros a (_ & _ & _ & Hout). simpl. apply lookup_insert_ne. lia. }
  io. replace (_ptr x + 1 - _base x) with (Z.of_nat (length l)) by lia.
  destruct ((c =? 10) || (_bufsiz x <=? Z.of_nat (length l))) eqn:Ec.
  - io. apply wpi_bind. eapply wpi_mono; [apply put_all_spec; [done|apply setf_at|done|lia]|]. cbv beta.
    intros r s2 (-> & o' & -> & He & Ho). apply wpi_ret. split; [done|].
    eexists _, []. split; [split|split].
    + eapply (wr_pre_same s f x pend); [done|apply setf_at|done|done|].
      apply in_buffer; fcbn; try done; [simpl; lia|].
      change (lbf _) with (lbf x). rewrite Hl. simpl. lia.
    + unfold cnt_ok. fcbn. replace (_base x =? 0) with false by lia.
      change (lbf _) with (lbf x). by rewrite Hl.
    + done.
    + split; try done; [by rewrite app_nil_r|]. by apply keeps_buf.
  - io. split; [done|]. apply orb_false_iff in Ec as [_ Ec]. apply Z.leb_gt in Ec.
    eexists _, l. split; [split|split].
    + eapply (wr_pre_same s f x pend); [done|apply setf_at|done|done|].
      apply in_buffer; fcbn; try done; [lia|]. change (lbf _) with (lbf x). by rewrite Hl.
    + unfold cnt_ok. fcbn. replace (_base x =? 0) with false by lia.
      change (lbf _) with (lbf x). by rewrite Hl.
    + done.
    + split; try done. by apply keeps_buf.
Qed.

Lemma flsbuf_none s f x pend c :
  progress -> wr_pre s f x pend -> nbf x = true -> lbf x = false ->
  wpi (_ ← stb AUTO c;
       _ ← modf f (up_cnt 0);
       ok ← put_all true 2 f AUTO 1;
       mret (if ok : bool then c else EOF))
    (fun r s' => r = c /\ wrote s f x pend [byte c] s') s.
Proof.
  intros Hpr Hpre Hn Hl. pose proof Hpre as [Hx _ _ _ Ha [Hb -> _|]]; [|congruence].
  apply wpi_bind, wpi_stb; [exact (proj1 Ha)|].
  set (s1 := put_mem s (<[AUTO := byte c]> (i_mem s))).
  assert (Hx1 : i_files s1 !! f = Some x) by done. io. apply wpi_bind.
  eapply wpi_mono; [apply (put_all_spec true f 2 [byte c]); [done|apply setf_at| |simpl; lia]|].
  { intros [|i] v Hi; [|done]. injection Hi as <-. rewrite Z.add_0_r. apply lookup_insert_eq. }
  cbv beta. intros r s2 (-> & o' & -> & He & Ho). apply wpi_ret. split; [done|].
  eexists _, []. split; [split|split].
  - eapply (wr_pre_same s f x []); [done|apply setf_at|done|by apply (autos_store s)|].
    apply no_buffer; done.
  - unfold cnt_ok. fcbn. by rewrite Hb.
  - done.
  - split; try done; [by rewrite app_nil_r|]. apply keeps_buf; try done.
    intros a (_ & ? & _). simpl. by rewrite lookup_insert_ne.
Qed.

Lemma flsbuf_full s f x pend c :
  progress -> wr_pre s f x pend -> nbf x = false -> lbf x = false -> _base x <> 0 ->
  wpi (let rn := _ptr x - _base x in
       _ ← modf f (up_ptr (_base x));
       _ ← modf f (up_cnt (_bufsiz x));
       ok ← put_all true (S (Z.to_nat rn)) f (_base x) rn;
       if ok : bool then
         x ← getf f;
         _ ← modf f (up_cnt (_cnt x - 1));
         _ ← stb (_ptr x) c;
         _ ← modf f (up_ptr (_ptr x + 1));
         mret c
       else mret EOF)
    (fun r s' => r = c /\ wrote s f x pend [byte c] s') s.
Proof.
  intros Hpr Hpre Hn Hl Hb0. pose proof Hpre as [Hx _ _ _ Ha [Hb _ _|_ Hb Hz Hr Hp Hat Hlen]]; [done|].
  cbv zeta. replace (_ptr x - _base x) with (Z.of_nat (length pend)) by lia. io. apply wpi_bind.
  eapply wpi_mono; [apply put_all_spec; [done|apply setf_at|done|lia]|]. cbv beta.
  intros r s2 (-> & o' & -> & He & Ho). set (x1 := up_cnt _ _) in *. set (s1 := put_os _ o').
  assert (Hx1 : i_files s1 !! f = Some x1) by apply setf_at. io. apply wpi_bind, wpi_stb; [apply Hr; simpl; lia|].
  io. split; [done|]. eexists _, [byte c]. split; [split|split].
  - eapply (wr_pre_same s f x pend); [done|apply setf_at|done|..].
    { by apply (autos_store s). }
    apply in_buffer; simpl; try done.
    + by apply rng_insert.
    + intros [|i] v Hi; [|done]. injection Hi as <-. rewrite Z.add_0_r. apply lookup_insert_eq.
    + change (lbf _) with (lbf x). rewrite Hl. lia.
  - unfold cnt_ok. fcbn. simpl. replace (_base x =? 0) with false by lia.
    change (lbf _) with (lbf x). rewrite Hl. lia.
  - done.
  - split; try done.
    + unfold fd_out in *. simpl in *. rewrite Ho. simpl. by rewrite <- app_assoc.
    + apply keeps_buf; try done. intros a (_ & _ & _ & Hout). simpl. rewrite lookup_insert_ne; [done|]. lia.
Qed.

Lemma flsbuf_spec s f x pend c :
  progress -> wr_pre s f x pend ->
  wpi (_flsbuf AUTO tb c f) (fun r s' => r = c /\ wrote s f x pend [byte c] s') s.
Proof.
  intros Hpr Hpre. pose proof Hpre as [Hx Hw Hrw Hs _ _]. unfold _flsbuf. io1. rewrite Hrw.
  apply wpi_bind, wpi_ret. io1. rewrite Hw, Hs. cbn [negb]. apply wpi_bind.
  eapply wpi_mono; [by apply alloc_wbuf_spec|]. cbv beta. intros [] s1 (x1 & Hpre1 & Hb1 & Hsb1 & Hst1).
  pose proof (w_at _ _ _ _ Hpre1) as Hx1. io1. fold (lbf x1) (nbf x1).
  eapply (wpi_mono _ (fun r s' => r = c /\ wrote s1 f x1 pend [byte c] s')).
  - destruct (lbf x1) eqn:El; [by apply flsbuf_line|]. destruct (nbf x1) eqn:En; [by apply flsbuf_none|].
    by apply flsbuf_full; auto.
  - intros r s' (-> & Hwr). split; [done|]. exact (wrote_trans _ _ _ _ _ _ _ _ _ _ Hst1 Hsb1 Hwr).
Qed.

(** *** Characters *)

(** A character goes to the buffer. *)
Lemma put_in_buffer s f x pend c :
  wr_pre s f x pend -> 0 < _base x ->
  (if lbf x then Z.of_nat (length pend) + 1 < _bufsiz x else Z.of_nat (length pend) + 1 <= _bufsiz x) ->
  let s1 := put_mem s (<[_ptr x := byte c]> (i_mem s)) in
  forall n, wr_pre (setf s1 f (up_ptr (_ptr x + 1) (up_cnt n x))) f (up_ptr (_ptr x + 1) (up_cnt n x)) (pend ++ [byte c]) /\
    wstep s x pend [byte c] (setf s1 f (up_ptr (_ptr x + 1) (up_cnt n x))) (up_ptr (_ptr x + 1) (up_cnt n x)) (pend ++ [byte c]).
Proof.
  intros Hpre Hb Hroom s1 n. pose proof Hpre as [Hx _ _ _ Ha [?|Hn _ Hz Hr Hp Hat Hlen]]; [lia|]. split.
  - eapply (wr_pre_same s f x pend); [done|apply setf_at|done|by apply (autos_store s)|].
    apply in_buffer; simpl; try done.
    + by apply rng_insert.
    + rewrite length_app. simpl. lia.
    + rewrite Hp. by apply bytes_at_snoc.
    + change (lbf (up_ptr _ _)) with (lbf x). rewrite length_app. simpl. destruct (lbf x); lia.
  - split; try done. apply keeps_buf; try done. intros a (_ & _ & _ & Hout). simpl.
    apply lookup_insert_ne. destruct (lbf x); lia.
Qed.

Lemma putc_raw_spec s f x pend c :
  progress -> wr_ok s f x pend ->
  wpi (__putc_raw AUTO tb c f) (fun r s' => r = byte c /\ wrote s f x pend [byte c] s') s.
Proof.
  intros Hpr [Hpre Hc]. pose proof (w_at _ _ _ _ Hpre) as Hx. unfold __putc_raw. io1.
  destruct (Z.ltb_spec 0 (_cnt x)) as [Hpos|Hneg].
  2: { eapply wpi_mono; [by eapply (flsbuf_spec s f x pend)|]. cbv beta. intros r s' (-> & Hw).
       split; [done|]. replace (byte (byte c)) with (byte c) in Hw; [done|]. unfold byte. by rewrite Zmod_mod. }
  io. unfold cnt_ok in Hc. destruct (Z.eqb_spec (_base x) 0); [lia|].
  destruct (lbf x) eqn:El; [lia|]. destruct (w_buf _ _ _ _ Hpre) as [?|_ Hb Hz Hr Hp _ _]; [done|].
  apply wpi_bind, wpi_stb; [apply Hr; lia|]. apply wpi_ret. split; [done|].
  destruct (put_in_buffer s f x pend c Hpre Hb) with (n := _cnt x - 1) as [Hpre1 Hst]; [rewrite El; lia|].
  eexists _, _. split; [split; [exact Hpre1|]|split; [done|exact Hst]].
  unfold cnt_ok. fcbn. replace (_base x =? 0) with false by lia. change (lbf (up_ptr _ _)) with (lbf x).
  rewrite El, length_app. simpl. lia.
Qed.

(** CR is put before LF in a text file. *)
Definition crlf (c : Z) : list Z := if c =? 10 then [13; 10] else [c].
Definition enc (text : bool) (l : list Z) : list Z := if text then l ≫= crlf else l.

Definition textual s x : bool :=
  negb (has (_flag x) (_IOSTRG .| _IOTERM)) && has (os_modes (_file x) (i_os s)) O_TEXT.

Lemma textual_step s f x pend l s' x' pend' :
  wr_pre s f x pend -> wr_pre s' f x' pend' -> wstep s x pend l s' x' pend' -> textual s' x' = textual s x.
Proof.
  intros Hp Hp' Hst. unfold textual. rewrite !has_mask, (w_strg _ _ _ _ Hp), (w_strg _ _ _ _ Hp').
  rewrite (ws_term _ _ _ _ _ _ _ Hst), (ws_file _ _ _ _ _ _ _ Hst).
  by destruct (ws_env _ _ _ _ _ _ _ Hst (_file x)) as (_ & -> & _).
Qed.

Lemma is_text_spec s f x (Q : bool -> iost -> Prop) :
  i_files s !! f = Some x -> Q (textual s x) s -> wpi (__is_text_file f) Q s.
Proof. intros Hx HQ. unfold __is_text_file. io. done. Qed.

Lemma see_handle_none str s f x (Q : unit -> iost -> Prop) :
  i_files s !! f = Some x -> Q tt s -> wpi (see_handle (hooked write_hook) str f) Q s.
Proof. intros Hx HQ. unfold see_handle. rewrite no_write_hook. cbn [hooked]. io. done. Qed.

Lemma enc_byte text c :
  -128 <= c < 256 -> enc text [byte c] = (if text && (c =? 10) then [13] else []) ++ [byte c].
Proof.
  intros Hc. unfold enc. destruct text; [|done]. cbn. unfold crlf, byte. cbn [andb].
  destruct (Z.eqb_spec c 10) as [->|Hne]; [done|]. destruct (Z.eqb_spec (c mod 256) 10) as [E|]; [|done].
  exfalso. pose proof (Z.div_mod c 256). destruct (decide (0 <= c)).
  - rewrite Z.mod_small in E by lia. lia.
  - rewrite <- (Z.mod_add c 1 256), Z.mod_small in E by lia. lia.
Qed.

Lemma putc_spec s f x pend c :
  progress -> wr_ok s f x pend -> -128 <= c < 256 ->
  wpi (__putc AUTO tb c f) (fun r s' => r = byte c /\ wrote s f x pend (enc (textual s x) [byte c]) s') s.
Proof.
  intros Hpr Hok Hc. pose proof Hok as [Hpre _]. pose proof (w_at _ _ _ _ Hpre) as Hx.
  unfold __putc. apply wpi_bind. eapply see_handle_none; [done|]. apply wpi_bind.
  rewrite enc_byte by done.
  apply (wpi_mono _ (fun r s' => r = textual s x && (c =? 10) /\ s' = s)).
  { destruct (c =? 10); [|by io; rewrite andb_false_r]. eapply is_text_spec; [done|]. by rewrite andb_true_r. }
  intros ? ? [-> ->]. destruct (textual s x && (c =? 10)).
  - apply wpi_bind. apply wpi_bind. eapply wpi_mono; [by apply putc_raw_spec|]. cbv beta.
    intros _ s1 (_ & x1 & p1 & Hok1 & Hsb1 & Hst1). io. eapply wpi_mono; [by apply putc_raw_spec|]. cbv beta.
    intros r s2 (-> & Hw). split; [done|]. by eapply wrote_trans.
  - io. by apply putc_raw_spec.
Qed.

(** *** fwrite *)

(** Bytes of the client's at [p] *)
Definition source s x (p : Z) (l : list Z) : Prop :=
  bytes_at (i_mem s) p l /\ bytes_ok l /\ forall a, p <= a < p + Z.of_nat (length l) -> client_at s x a.

Lemma source_step s x pend l s' x' pend' p d :
  wstep s x pend l s' x' pend' -> source s x p d -> source s' x' p d.
Proof.
  intros Hst (Hat & Hok & Hc). split_and!; [|done|].
  - intros i b Hi. pose proof (lookup_lt_Some _ _ _ Hi).
    destruct (ws_keep _ _ _ _ _ _ _ Hst (p + Z.of_nat i)) as [_ ->]; [apply Hc; lia|]. by apply Hat.
  - intros a Ha. by apply (ws_keep _ _ _ _ _ _ _ Hst), Hc.
Qed.

Lemma source_cons s x p b d :
  source s x p (b :: d) -> i_mem s !! p = Some b /\ 0 <= b < 256 /\ source s x (p + 1) d.
Proof.
  intros (Hat & Hok & Hc). apply bytes_at_cons in Hat as [Hb Hat]. apply bytes_ok_cons in Hok as [? Hok].
  do 4 (split; [done|]). intros a Ha. apply Hc. simpl. lia.
Qed.

Lemma wrap_s_8 c : 0 <= c < 256 -> wrap_s 8 c = if decide (c < 128) then c else c - 256.
Proof.
  intros Hc. unfold wrap_s. change (2 ^ (8 - 1)) with 128. change (2 ^ 8) with 256. case_decide.
  - rewrite Z.mod_small by lia. lia.
  - replace (c + 128) with (c - 128 + 1 * 256) by lia. rewrite Z.mod_add, Z.mod_small by lia. lia.
Qed.

Lemma byte_wrap_s c : byte (wrap_s 8 c) = byte c.
Proof.
  unfold byte, wrap_s. change (2 ^ (8 - 1)) with 128. change (2 ^ 8) with 256.
  rewrite Zminus_mod, Zmod_mod, <- Zminus_mod. f_equal. lia.
Qed.

Lemma lbf_kept s f x pend x' :
  wr_pre s f x pend -> same_buf f x x' -> lbf x = true -> lbf x' = true /\ _bufsiz x' = _bufsiz x.
Proof.
  intros Hpre Hsb Hl. destruct (w_buf _ _ _ _ Hpre) as [? _ ?|]; [congruence|].
  destruct (sb_base _ _ _ Hsb) as (? & ? & ? & ?); [lia|]. split; congruence.
Qed.

Lemma put_or_flush_spec s f x pend limit now c arg :
  progress -> wr_ok s f x pend -> byte arg = byte c -> arg <> EOF ->
  limit = 0 \/ lbf x = true /\ limit = - _bufsiz x + 1 ->
  wpi (put_or_flush AUTO tb limit now c arg f) (fun r s' => r = true /\ wrote s f x pend [byte c] s') s.
Proof.
  intros Hpr [Hpre Hc] Harg Hne Hlim. pose proof (w_at _ _ _ _ Hpre) as Hx. unfold put_or_flush. io.
  destruct ((limit <=? _cnt x - 1) && negb now) eqn:E.
  - apply andb_true_iff in E as [E _]. apply Z.leb_le in E. unfold cnt_ok in Hc.
    destruct (w_buf _ _ _ _ Hpre) as [Hb _ Hl|Hn Hb Hz Hr Hp _ Hlen].
    { rewrite Hb in Hc. simpl in Hc. destruct Hlim as [->|[? _]]; [lia|congruence]. }
    replace (_base x =? 0) with false in Hc by lia.
    apply wpi_bind, wpi_stb; [apply Hr; destruct (lbf x); lia|]. io. rewrite setf_put_mem.
    split; [done|]. destruct (put_in_buffer s f x pend c Hpre Hb) with (n := _cnt x - 1) as [Hpre1 Hst].
    { destruct (lbf x) eqn:El; [destruct Hlim as [->|[_ ->]]; lia|]. destruct Hlim as [->|[? _]]; [lia|done]. }
    eexists _, _. split; [split; [exact Hpre1|]|split; [done|exact Hst]].
    unfold cnt_ok. fcbn. replace (_base x =? 0) with false by lia. change (lbf (up_ptr _ _)) with (lbf x).
    rewrite length_app. simpl. destruct (lbf x); [lia|]. destruct Hlim as [->|[? _]]; [lia|done].
  - set (s1 := setf s f _). assert (Hpre1 : wr_pre s1 f (up_cnt (_cnt x - 1) x) pend).
    { eapply (wr_pre_same s f x pend); [done|apply setf_at|done|by apply Hpre|].
      destruct (w_buf _ _ _ _ Hpre); [by apply no_buffer|by apply in_buffer]. }
    apply wpi_bind. eapply wpi_mono; [by apply flsbuf_spec|]. cbv beta. intros r s2 (-> & x2 & p2 & Hok2 & Hsb2 & Hst2).
    apply wpi_ret. split; [by replace (arg =? EOF) with false by lia|]. exists x2, p2. split; [done|]. split; [by destruct Hsb2; split|].
    rewrite Harg in Hst2. destruct Hst2. by split.
Qed.

Lemma fwrite_chars_spec text line f fuel : forall d s x pend p,
  progress -> wr_ok s f x pend -> source s x p d -> (length d < fuel)%nat ->
  (line = true -> lbf x = true) -> (text = false -> 255 ∉ d) ->
  wpi (fwrite_chars AUTO tb fuel text line f p (Z.of_nat (length d)))
    (fun r s' => r = 0 /\ wrote s f x pend (enc text d) s') s.
Proof.
  induction fuel as [|fuel IH]; intros d s x pend p Hpr Hok Hsrc Hf Hline Hff; [lia|].
  cbn [fwrite_chars]. destruct d as [|c d].
  { simpl. apply wpi_ret. split; [done|]. unfold enc. destruct text; by apply wrote_nil. }
  rewrite (proj2 (Z.ltb_lt 0 (Z.of_nat (length (c :: d))))) by (cbn [length]; lia).
  pose proof (w_at _ _ _ _ (proj1 Hok)) as Hx. destruct (source_cons _ _ _ _ _ Hsrc) as (Hb & Hc & _).
  io1. cbv zeta. apply wpi_bind. eapply wpi_ldb; [done|]. set (limit := if line then _ else 0).
  assert (Hlim : limit = 0 \/ lbf x = true /\ limit = - _bufsiz x + 1).
  { unfold limit. destruct line; [right; auto|by left]. }
  assert (Henc : enc text (c :: d) = ((if text && (c =? 10) then [13] else []) ++ [byte c]) ++ enc text d).
  { unfold enc. destruct text; [|unfold byte; by rewrite Z.mod_small]. cbn. f_equal.
    unfold crlf, byte. rewrite Z.mod_small by lia. by destruct (Z.eqb_spec c 10) as [->|?]. }
  apply wpi_bind.
  apply (wpi_mono _ (fun r s1 => r = true /\ wrote s f x pend (if text && (c =? 10) then [13] else []) s1)).
  { destruct (text && (c =? 10)); [by apply put_or_flush_spec|]. apply wpi_ret. split; [done|].
    by apply wrote_nil. }
  intros ? s1 (-> & x1 & p1 & Hok1 & Hsb1 & Hst1). apply wpi_bind.
  eapply wpi_mono; [apply (put_or_flush_spec s1 f x1 p1 limit _ c); try done|].
  - destruct text; [done|]. apply byte_wrap_s.
  - destruct text; [unfold EOF; lia|]. assert (c <> 255) by (intros ->; apply Hff; [done|left]).
    unfold EOF. rewrite wrap_s_8 by lia. case_decide; lia.
  - destruct Hlim as [?|[Hl ->]]; [by left|right]. destruct (lbf_kept _ _ _ _ _ (proj1 Hok) Hsb1 Hl) as [? ->]. done.
  - cbv beta. intros r s2 (-> & x2 & p2 & Hok2 & Hsb2 & Hst2).
    pose proof (same_buf_trans _ _ _ _ Hsb1 Hsb2) as Hsb. pose proof (wstep_trans _ _ _ _ _ _ _ _ _ _ _ Hst1 Hst2) as Hst.
    replace (Z.of_nat (length (c :: d)) - 1) with (Z.of_nat (length d)) by (simpl; lia).
    eapply wpi_mono; [apply (IH d s2 x2 p2 (p + 1)); try done|].
    + apply (source_cons s2 x2 p c d). by eapply source_step.
    + simpl in Hf. lia.
    + intros Hl. by destruct (lbf_kept _ _ _ _ _ (proj1 Hok) Hsb (Hline Hl)).
    + intros Ht Hin. apply Hff; [done|by right].
    + cbv beta. intros r s3 (-> & Hw). split; [done|]. rewrite Henc. by eapply wrote_trans.
Qed.

Lemma source_app s x p d1 d2 :
  source s x p (d1 ++ d2) -> source s x p d1 /\ source s x (p + Z.of_nat (length d1)) d2.
Proof.
  intros (Hat & Hok & Hc). apply bytes_at_app in Hat as [H1 H2]. apply bytes_ok_app in Hok as [O1 O2].
  rewrite length_app in Hc. split; (do 2 (split; [done|]); intros a Ha; apply Hc; lia).
Qed.

(** Bytes are copied to the buffer. *)
Lemma copy_in_buffer s f x pend p l :
  wr_pre s f x pend -> lbf x = false -> 0 < _base x -> Z.of_nat (length pend) + Z.of_nat (length l) <= _bufsiz x ->
  source s x p l ->
  wpi (copy (_ptr x) p (Z.of_nat (length l))) (fun _ s1 => i_files s1 = i_files s /\
    forall n, let x' := up_cnt n (up_ptr (_ptr x + Z.of_nat (length l)) x) in
      wr_pre (setf s1 f x') f x' (pend ++ l) /\ wstep s x pend l (setf s1 f x') x' (pend ++ l)) s.
Proof.
  intros Hpre Hl Hb Hroom (Hat & Hok & Hc). pose proof Hpre as [Hx _ _ _ Ha [?|Hn _ Hz Hr Hp Hpend Hlen]]; [lia|].
  assert (Hrb : rng (i_mem s) (_ptr x) (Z.of_nat (length l))) by (intros a Ha1; apply Hr; lia).
  unfold wpi, copy. rewrite memcpy_spec; [|done|done|by apply rng_mapped|].
  2: { destruct (decide (_ptr x <= p)); [by left|]. right.
       destruct (decide (p + Z.of_nat (length l) <= _ptr x)); [done|].
       destruct (Hc (_ptr x)) as (_ & _ & _ & Hout); lia. }
  rewrite bind_Done. split; [done|]. intros n. set (x' := up_cnt n _).
  assert (Hm : forall a, client_at s x a -> write_bytes (i_mem s) (_ptr x) l !! a = i_mem s !! a).
  { intros a (_ & _ & _ & Hout). apply lookup_write_bytes_out. lia. }
  split.
  - eapply (wr_pre_same s f x pend); [done|apply setf_at|done|..].
    { revert Ha. apply autos_mono. intros a Ha. simpl. by apply (is_Some_write (i_mem s)). }
    apply in_buffer; simpl; try done.
    + intros a Ha1. apply (is_Some_write (i_mem s)); [done|]. by apply Hr.
    + rewrite length_app. lia.
    + apply bytes_at_app. split; [|rewrite <- Hp; apply bytes_at_write].
      intros i b Hi. pose proof (lookup_lt_Some _ _ _ Hi). rewrite lookup_write_bytes_out by lia. by apply Hpend.
    + change (lbf x') with (lbf x). rewrite Hl, length_app. lia.
  - split; try done. by apply keeps_buf.
Qed.

Lemma cnt_pos_buffer s f x pend :
  wr_ok s f x pend -> 0 < _cnt x ->
  lbf x = false /\ 0 < _base x /\ Z.of_nat (length pend) + _cnt x <= _bufsiz x.
Proof.
  intros [Hpre Hc] Hpos. unfold cnt_ok in Hc. destruct (Z.eqb_spec (_base x) 0); [lia|].
  destruct (lbf x); [lia|]. destruct (w_buf _ _ _ _ Hpre); [done|]. split_and!; [done|done|lia].
Qed.

(** What is left of the buffer is filled. *)
Lemma fill_buffer s f x pend p d :
  wr_ok s f x pend -> d <> [] -> _cnt x < Z.of_nat (length d) -> source s x p d ->
  wpi (if 0 <? _cnt x then
         _ ← copy (_ptr x) p (_cnt x);
         _ ← modf f (up_ptr (_ptr x + _cnt x));
         mret (p + _cnt x, Z.of_nat (length d) - _cnt x)
       else mret (p, Z.of_nat (length d)))
    (fun r s' => exists d1 c d2 x', d = d1 ++ c :: d2 /\
      r = (p + Z.of_nat (length d1), Z.of_nat (length (c :: d2))) /\
      wr_pre s' f x' (pend ++ d1) /\ same_buf f x x' /\ wstep s x pend d1 s' x' (pend ++ d1)) s.
Proof.
  intros Hok Hne Hlt Hsrc. destruct (Z.ltb_spec 0 (_cnt x)) as [Hpos|Hneg].
  - destruct (cnt_pos_buffer _ _ _ _ Hok Hpos) as (Hl & Hb & Hroom). destruct Hok as [Hpre _].
    set (n := Z.to_nat (_cnt x)). rewrite <- (take_drop n d) in Hsrc.
    destruct (source_app _ _ _ _ _ Hsrc) as [Hs1 _].
    assert (Hln : Z.of_nat (length (take n d)) = _cnt x) by (rewrite length_take; lia).
    destruct (drop n d) as [|c d2] eqn:Ed; [apply (f_equal length) in Ed; rewrite length_drop in Ed; simpl in Ed; lia|].
    apply wpi_bind. rewrite <- Hln.
    eapply wpi_mono; [apply (copy_in_buffer s f x pend p (take n d)); (done || lia)|]. cbv beta.
    intros [] s1 [Ef Hw]. destruct (Hw (_cnt x)) as [Hpre1 Hst1].
    replace (up_cnt (_cnt x) (up_ptr (_ptr x + Z.of_nat (length (take n d))) x))
      with (up_ptr (_ptr x + Z.of_nat (length (take n d))) x) in * by (by destruct x).
    assert (Hx1 : i_files s1 !! f = Some x) by (rewrite Ef; apply Hpre). io.
    exists (take n d), c, d2. eexists. split_and!; [by rewrite <- Ed, take_drop| |done|done|done].
    f_equal. rewrite <- Ed, length_drop, length_take. lia.
  - destruct d as [|c d]; [done|].
    apply wpi_ret. exists [], c, d, x. rewrite !app_nil_r. simpl. rewrite Z.add_0_r.
    split_and!; try done; [apply Hok|apply wstep_refl].
Qed.

Lemma copy_zero d p s (Q : unit -> iost -> Prop) : Q tt s -> wpi (copy d p 0) Q s.
Proof. intros HQ. unfold wpi, copy, memcpy, copy_forward. simpl. by destruct s. Qed.

Lemma fwrite_binary_spec f fuel : forall d s x pend p,
  progress -> wr_ok s f x pend -> source s x p d -> (length d < fuel)%nat ->
  wpi (fwrite_binary AUTO tb fuel f p (Z.of_nat (length d)))
    (fun r s' => (r = None \/ r = Some 0) /\ wrote s f x pend d s') s.
Proof.
  induction fuel as [|fuel IH]; intros d s x pend p Hpr Hok Hsrc Hf; [lia|]. cbn [fwrite_binary].
  destruct (Z.ltb_spec 0 (Z.of_nat (length d))) as [Hd|Hd].
  2: { destruct d; [|simpl in Hd; lia]. apply wpi_ret. split; [by right|]. by apply wrote_nil. }
  assert (Hne : d <> []) by (intros ->; simpl in Hd; lia).
  pose proof (w_at _ _ _ _ (proj1 Hok)) as Hx. io1. apply wpi_bind.
  apply (wpi_mono _ (fun r s' => exists d1 d2 x' p', d = d1 ++ d2 /\ (d1 <> [] \/ Z.of_nat (length d2) <= _cnt x') /\
    r = inl (p + Z.of_nat (length d1), Z.of_nat (length d2)) /\
    wr_ok s' f x' p' /\ same_buf f x x' /\ wstep s x pend d1 s' x' p')).
  { destruct (Z.ltb_spec (_cnt x) (Z.of_nat (length d))) as [Hlt|Hge].
    2: { apply wpi_ret. exists [], d, x, pend. simpl. rewrite Z.add_0_r.
         split_and!; try done; [by right|apply wstep_refl]. }
    apply wpi_bind. eapply wpi_mono; [by eapply fill_buffer|]. cbv beta.
    intros ? s1 (d1 & c & d2 & x1 & -> & -> & Hpre1 & Hsb1 & Hst1).
    destruct (source_app _ _ _ _ _ (source_step _ _ _ _ _ _ _ _ _ Hst1 Hsrc)) as [_ Hs2].
    apply source_cons in Hs2 as (Hb & Hc & _). apply wpi_bind. eapply wpi_ldb; [done|]. apply wpi_bind.
    eapply wpi_mono; [by apply flsbuf_spec|]. cbv beta. intros r s2 (-> & x2 & p2 & Hok2 & Hsb2 & Hst2).
    apply wpi_ret. replace (c =? EOF) with false by (unfold EOF; lia).
    exists (d1 ++ [c]), d2, x2, p2. rewrite <- app_assoc, length_app. simpl.
    split_and!; [done|left; by destruct d1| |done|by eapply same_buf_trans|].
    - do 2 f_equal; lia.
    - unfold byte in Hst2. rewrite (Z.mod_small c 256) in Hst2 by lia. by eapply wstep_trans. }
  intros ? s1 (d1 & d2 & x1 & p1 & -> & Hprog & -> & Hok1 & Hsb1 & Hst1).
  destruct (source_app _ _ _ _ _ (source_step _ _ _ _ _ _ _ _ _ Hst1 Hsrc)) as [_ Hs2].
  pose proof (w_at _ _ _ _ (proj1 Hok1)) as Hx1. io1.
  destruct (Z.leb_spec (Z.of_nat (length d2)) (_cnt x1)) as [Hfit|Hmore].
  2: { eapply wpi_mono; [apply (IH d2 s1 x1 p1); try done|].
       - rewrite length_app in Hf. destruct Hprog as [?|]; [destruct d1; [done|]; simpl in Hf; lia|lia].
       - cbv beta. intros r s2 [Hr Hw]. split; [done|]. by eapply wrote_trans. }
  destruct d2 as [|c d2].
  - apply wpi_bind, copy_zero. io. split; [by left|]. rewrite app_nil_r.
    exists x1, p1. rewrite setf_same; [done|]. simpl. rewrite Hx1. by destruct x1; simpl; rewrite Z.sub_0_r, Z.add_0_r.
  - set (l := c :: d2) in *. destruct (cnt_pos_buffer _ _ _ _ Hok1) as (Hl & Hb & Hroom); [simpl in Hfit; lia|].
    apply wpi_bind. eapply wpi_mono; [apply (copy_in_buffer s1 f x1 p1); try done; [apply Hok1|lia]|].
    cbv beta. intros [] s2 [Ef Hw]. assert (Hx2 : i_files s2 !! f = Some x1) by (by rewrite Ef). io.
    split; [by left|]. destruct (Hw (_cnt x1 - Z.of_nat (length l))) as [Hpre3 Hst3].
    eexists _, _. split; [split; [exact Hpre3|]|split; [by eapply same_buf_trans; [exact Hsb1|]|by eapply wstep_trans]].
    unfold cnt_ok. fcbn. replace (_base x1 =? 0) with false by lia.
    change (lbf (up_cnt _ _)) with (lbf x1). rewrite Hl, length_app. lia.
Qed.

Lemma items_all size count : 0 < size < 2 ^ 64 -> 0 <= count < 2 ^ 64 -> items size count 0 = count.
Proof.
  intros Hs Hc. unfold items. replace (size =? 0) with false by lia.
  rewrite (wrap_u_small 64 0) by lia. rewrite (wrap_u_small 64 (0 + size - 1)) by lia.
  rewrite Z.div_small by lia. rewrite wrap_u_small; lia.
Qed.

Lemma fwrite_spec s f x pend p size count d :
  progress -> wr_ok s f x pend -> source s x p d -> 0 < size < 2 ^ 64 -> 0 <= count < 2 ^ 64 ->
  size * count = Z.of_nat (length d) -> Z.of_nat (length d) < 2 ^ 63 ->
  (textual s x = false -> lbf x = true -> 255 ∉ d) ->
  wpi (fwrite AUTO tb p size count f) (fun r s' => r = count /\
    wrote s f x pend (enc (textual s x) d) s') s.
Proof.
  intros Hpr Hok Hsrc Hs Hc Hsc Hd Hff. pose proof (w_at _ _ _ _ (proj1 Hok)) as Hx.
  unfold fwrite. apply wpi_bind. eapply see_handle_none; [done|]. cbv zeta. apply wpi_bind.
  eapply is_text_spec; [done|]. io1. fold (lbf x). rewrite Hsc, wrap_s_small by lia. rewrite Nat2Z.id.
  destruct (textual s x || lbf x) eqn:E; apply wpi_bind.
  - eapply wpi_mono; [apply (fwrite_chars_spec (textual s x) (lbf x) f _ d s x pend p); try done|].
    + lia.
    + intros Et. apply Hff; [done|]. by rewrite Et in E.
    + cbv beta. intros r s' [-> Hw]. apply wpi_ret. by rewrite items_all.
  - apply orb_false_iff in E as [-> _].
    eapply wpi_mono; [apply (fwrite_binary_spec f _ d s x pend p); (done || lia)|]. cbv beta.
    intros r s' [Hr Hw]. apply wpi_ret. split; [|done]. destruct Hr as [-> | ->]; [done|by apply items_all].
Qed.

(** *** fflush *)

(** fflush clears the flag of ungetc. *)
Lemma unget_cleared s f x pend o :
  wr_pre s f x pend -> let x1 := not_flag _IOUNGETC x in
  (forall m, without m _IOUNGETC = m -> has (_flag x1) m = has (_flag x) m) /\
  wr_pre (setf (put_os s o) f x1) f x1 pend.
Proof.
  intros Hpre x1. assert (Hfl : forall m, without m _IOUNGETC = m -> has (_flag x1) m = has (_flag x) m).
  { intros m Hm. by apply has_without_ne. }
  split; [done|]. destruct Hpre as [Hx Hw Hr Hs Ha Hb].
  split; rewrite ?Hfl by done; try done; [apply setf_at|].
  assert (El : lbf x1 = lbf x) by (by apply Hfl). assert (En : nbf x1 = nbf x) by (by apply Hfl).
  destruct Hb; [apply no_buffer; by rewrite ?El|]. apply in_buffer; rewrite ?El, ?En; done.
Qed.

(** What fflush leaves of the stream *)
Record flushed s f x pend s' x' : Prop := {
  fl_pre : wr_pre s' f x' [];
  fl_base : _base x' = _base x;
  fl_bufsiz : _bufsiz x' = _bufsiz x;
  fl_nbf : nbf x' = nbf x;
  fl_lbf : lbf x' = lbf x;
  fl_cnt : cnt_ok x pend -> cnt_ok x' [];
  fl_step : wstep s x pend [] s' x' [] }.

Lemma wstep_os s f x pend s' x' :
  i_mem s' = i_mem s -> _file x' = _file x -> _flag x' = _flag (not_flag _IOUNGETC x) ->
  _base x' = _base x -> _bufsiz x' = _bufsiz x -> same_env (i_os s) (i_os s') ->
  fd_out s' x = fd_out s x ++ pend -> wr_pre s f x pend -> wstep s x pend [] s' x' [].
Proof.
  intros Em E1 E2 E3 E4 E5 E6 Hpre. destruct (unget_cleared s f x pend (i_os s) Hpre) as [Hfl _].
  split; try done.
  - rewrite E2. by apply Hfl.
  - rewrite E2. by apply Hfl.
  - by rewrite E6, !app_nil_r.
  - apply keeps_buf; try done. intros a _. by rewrite Em.
Qed.

Lemma fflush_spec s f x pend :
  progress -> wr_pre s f x pend -> f <> 0 ->
  wpi (fflush f) (fun r s' => r = 0 /\ exists x', flushed s f x pend s' x') s.
Proof.
  intros Hpr Hpre Hf. unfold fflush. replace (f =? 0) with false by lia.
  pose proof (w_at _ _ _ _ Hpre) as Hx. unfold fflush1. io1. io1. apply wpi_bind.
  eapply wpi_mono; [by apply (seek_end_spec _ s x)|]. cbv beta.
  intros ? ? (-> & o1 & -> & He1 & Ho1).
  assert (Hx1 : i_files (put_os s o1) !! f = Some x) by done. io.
  destruct (unget_cleared s f x pend o1 Hpre) as [Hfl Hpre1]. cbv zeta in Hfl, Hpre1.
  set (x1 := not_flag _IOUNGETC x) in *. set (s1 := setf (put_os s o1) f x1) in *.
  pose proof (w_at _ _ _ _ Hpre1) as Hx2.
  assert (Hrw : has (_flag x1) _IORW = false) by apply Hpre1.
  assert (El : lbf x1 = lbf x) by (by apply Hfl). assert (En : nbf x1 = nbf x) by (by apply Hfl).
  change (_IONBF .| _IOWRT) with (2 ^ 1 .| 2 ^ 4).
  assert (Eif : (_flag x1 .& (2 ^ 1 .| 2 ^ 4) =? _IOWRT) = negb (nbf x)).
  { change _IOWRT with (2 ^ 4). rewrite land_eq_flag by lia.
    change (has (_flag x1) (2 ^ 4)) with (has (_flag x1) _IOWRT). rewrite (w_wrt _ _ _ _ Hpre1), andb_true_r.
    by rewrite <- En. }
  rewrite Eif. change (_ptr x1) with (_ptr x). change (_base x1) with (_base x). apply wpi_bind.
  destruct (negb (nbf x) && negb (_base x =? 0) && (0 <? _ptr x - _base x)) eqn:Ec.
  - apply andb_true_iff in Ec as [[Ec1 Ec2]%andb_true_iff Ec3]. apply negb_true_iff in Ec1, Ec2. apply Z.ltb_lt in Ec3.
    destruct (w_buf _ _ _ _ Hpre) as [Hb|Hn Hb Hz Hr Hp Hat Hlen]; [rewrite Hb in Ec2; done|].
    replace (_ptr x - _base x) with (Z.of_nat (length pend)) by lia. io.
    set (n := if has (_flag x1) _ then 0 else _).
    eapply wpi_mono; [apply put_all_spec; [done|apply setf_at|done|lia]|]. cbv beta.
    intros ? s2 (-> & o2 & -> & He2 & Ho2). set (x2 := up_cnt n _) in *.
    io1. change (_flag x2) with (_flag x1). rewrite Hrw. io. split; [done|]. exists x2. split; try done.
    + eapply (wr_pre_same s1 f x1 pend); [done|apply setf_at|done|apply Hpre|].
      apply in_buffer; simpl; try done; [by rewrite <- En in Ec1|lia|]. change (lbf x2) with (lbf x1).
      simpl. destruct (lbf x1); lia.
    + intros _. unfold cnt_ok. simpl. replace (_base x =? 0) with false by lia. change (lbf x2) with (lbf x1).
      unfold n. rewrite has_mask. fold (lbf x1) (nbf x1). rewrite En, Ec1. destruct (lbf x1); simpl; lia.
    + apply (wstep_os s f); try done; [by eapply same_env_trans|]. unfold fd_out in *. simpl in *. by rewrite Ho2, Ho1.
  - assert (Hpe : pend = []).
    { destruct (w_buf _ _ _ _ Hpre) as [? ->|Hn Hb _ _ Hp _ _]; [done|]. rewrite Hn in Ec.
      replace (_base x =? 0) with false in Ec by lia. cbn [negb andb] in Ec. apply Z.ltb_ge in Ec.
      destruct pend; [done|]. simpl in Hp. lia. }
    subst pend. apply wpi_ret. cbv beta iota. io1. rewrite Hrw. io. split; [done|]. exists x1. split; try done.
    + intros Hc. unfold cnt_ok in *. change (_base x1) with (_base x). by rewrite El.
    + apply (wstep_os s f); try done. unfold fd_out in *. simpl in *. by rewrite Ho1, app_nil_r.
Qed.

(** *** fputs *)

Lemma enc_cons text c d : 0 <= c < 256 -> enc text (c :: d) = enc text [byte c] ++ enc text d.
Proof.
  intros Hc. unfold enc, byte. rewrite Z.mod_small by lia. destruct text; [|done]. cbn. by rewrite app_nil_r.
Qed.

Lemma wrap_s_8_range c : -128 <= wrap_s 8 c < 256.
Proof.
  unfold wrap_s. change (2 ^ (8 - 1)) with 128. change (2 ^ 8) with 256.
  pose proof (Z.mod_pos_bound (c + 128) 256). lia.
Qed.

Lemma put_string_spec f fuel : forall d s x pend p r,
  progress -> wr_ok s f x pend -> source s x p (d ++ [0]) -> 0 ∉ d -> (length d < fuel)%nat -> 0 <= r ->
  wpi (put_string AUTO tb fuel p f r) (fun r' s' => 0 <= r' /\ wrote s f x pend (enc (textual s x) d) s') s.
Proof.
  induction fuel as [|fuel IH]; intros d s x pend p r Hpr Hok Hsrc H0 Hf Hr; [lia|]. cbn [put_string].
  destruct d as [|c d].
  - apply source_cons in Hsrc as (Hb & _). apply wpi_bind. eapply wpi_ldb; [done|]. apply wpi_ret.
    split; [done|]. unfold enc. destruct (textual s x); by apply wrote_nil.
  - pose proof Hsrc as (Hb & Hc & _)%source_cons. apply not_elem_of_cons in H0 as [Hc0 H0].
    apply wpi_bind. eapply wpi_ldb; [done|]. replace (c =? 0) with false by lia. apply wpi_bind.
    eapply wpi_mono; [apply (putc_spec s f x pend (wrap_s 8 c) Hpr Hok (wrap_s_8_range c))|]. cbv beta.
    intros ? s1 (-> & x1 & p1 & Hok1 & Hsb1 & Hst1). rewrite byte_wrap_s in *. pose proof (byte_range c).
    replace (byte c =? EOF) with false by (unfold EOF; lia).
    eapply wpi_mono; [apply (IH d s1 x1 p1); try done; try lia|].
    + pose proof (source_step _ _ _ _ _ _ _ _ _ Hst1 Hsrc) as Hs. by apply source_cons in Hs as (_ & _ & ?).
    + simpl in Hf. lia.
    + cbv beta. intros r' s2 [Hr' Hw]. split; [done|]. rewrite enc_cons by done.
      rewrite (textual_step _ _ _ _ _ _ _ _ (proj1 Hok) (proj1 Hok1) Hst1) in Hw. by eapply wrote_trans.
Qed.

(** The stream with the local buffer of fputs *)
Lemma localbuf_ok s f x pend :
  wr_ok s f x pend -> nbf x = true ->
  let x1 := up_bufsiz BUFSIZ (up_ptr AUTOBUF (up_base AUTOBUF (not_flag _IONBF x))) in
  wr_ok (setf s f x1) f x1 [] /\ wstep s x pend [] (setf s f x1) x1 [] /\
  textual (setf s f x1) x1 = textual s x /\ _base x1 <> 0 /\ nbf x1 = false /\ lbf x1 = false.
Proof.
  intros [[Hx Hw Hr Hs Ha Hb] Hc] Hn x1. unfold nbf in Hn.
  destruct Hb as [Hb -> Hl|En]; [|unfold nbf in En; congruence]. unfold lbf in Hl. destruct Ha as (Ha1 & Ha2 & Ha3).
  assert (Hfl : forall m, without m _IONBF = m -> has (_flag x1) m = has (_flag x) m).
  { intros m Hm. by apply has_without_ne. }
  split; [split; [split|]|split; [split|split; [|split_and!]]]; rewrite ?Hfl by done; try done.
  - apply setf_at.
  - apply in_buffer; simpl; try done; try lia.
    + unfold nbf. by apply has_without_in.
    + by destruct (lbf x1).
  - unfold cnt_ok in *. simpl. replace (AUTOBUF =? 0) with false by lia. unfold lbf. rewrite Hfl, Hl by done.
    rewrite Hb in Hc. simpl in Hc. simpl. unfold BUFSIZ. lia.
  - intros a (? & ? & ? & _). split; [|done]. split_and!; try done. by right.
  - unfold textual. rewrite !has_mask, !Hfl by done. done.
  - simpl. lia.
  - by apply has_without_in.
  - unfold lbf. by rewrite Hfl.
Qed.

(** ... and back without it *)
Lemma localbuf_done s f x :
  wr_pre s f x [] -> nbf x = false -> lbf x = false ->
  let x1 := up_cnt 0 (up_bufsiz 0 (up_base 0 (or_flag _IONBF x))) in
  wr_ok (setf s f x1) f x1 [] /\ wstep s x [] [] (setf s f x1) x1 [].
Proof.
  intros [Hx Hw Hr Hs Ha _] Hn Hl x1. unfold nbf in Hn. unfold lbf in Hl.
  assert (Hfl : forall m, has _IONBF m = false -> has (_flag x1) m = has (_flag x) m).
  { intros m Hm. change (_flag x1) with (_flag x .| _IONBF). by rewrite has_or, Hm, orb_false_r. }
  split; [split; [split|]|split]; rewrite ?Hfl by done; try done.
  - apply setf_at.
  - apply no_buffer; [done..|]. unfold lbf. by rewrite Hfl.
  - intros a (? & ? & ? & _). split; [|done]. split_and!; try done. by left.
Qed.

Lemma fputs_spec fuel s f x pend p d :
  progress -> wr_ok s f x pend -> source s x p (d ++ [0]) -> 0 ∉ d -> (length d < fuel)%nat -> f <> 0 ->
  wpi (fputs AUTO AUTOBUF tb fuel p f) (fun r s' => 0 <= r /\ wrote s f x pend (enc (textual s x) d) s') s.
Proof.
  intros Hpr Hok Hsrc H0 Hf Hf0. pose proof (w_at _ _ _ _ (proj1 Hok)) as Hx. unfold fputs. io1. fold (nbf x).
  destruct (nbf x) eqn:En.
  2: { io1. apply wpi_bind. eapply wpi_mono; [by apply put_string_spec|]. cbv beta. intros r s' H. by io1. }
  io. destruct (localbuf_ok s f x pend Hok En) as (Hok1 & Hst1 & Ht1 & Hb1 & Hn1 & Hl1). set (x1 := up_bufsiz _ _) in *.
  apply wpi_bind. eapply wpi_mono; [apply (put_string_spec f fuel d (setf s f x1) x1 []); try done|].
  { by eapply source_step. }
  cbv beta. intros r s2 (Hr & x2 & p2 & Hok2 & Hsb2 & Hst2). apply wpi_bind.
  eapply wpi_mono; [by eapply (fflush_spec s2 f x2 p2); [|apply Hok2|]|]. cbv beta.
  intros ? s3 (-> & x3 & Hfl). pose proof (w_at _ _ _ _ (fl_pre _ _ _ _ _ _ Hfl)) as Hx3. io.
  change (0 =? EOF) with false. cbn iota. split; [done|]. destruct (sb_base _ _ _ Hsb2 Hb1) as (_ & _ & En2 & El2).
  destruct (localbuf_done s3 f x3 (fl_pre _ _ _ _ _ _ Hfl)) as [Hok4 Hst4].
  { by rewrite (fl_nbf _ _ _ _ _ _ Hfl), En2. }
  { by rewrite (fl_lbf _ _ _ _ _ _ Hfl), El2. }
  rewrite <- Ht1. eexists _, []. split_and!; [exact Hok4|..].
  - split; [intros Hb; destruct (w_buf _ _ _ _ (proj1 Hok)); [lia|congruence]|]. intros _ _.
    unfold lbf. fcbn. flags. change (lbf x3 = false). by rewrite (fl_lbf _ _ _ _ _ _ Hfl), El2.
  - pose proof (wstep_trans _ _ _ _ _ _ _ _ _ _ _ Hst2 (fl_step _ _ _ _ _ _ Hfl)) as H23.
    pose proof (wstep_trans _ _ _ _ _ _ _ _ _ _ _ Hst1 (wstep_trans _ _ _ _ _ _ _ _ _ _ _ H23 Hst4)) as H.
    by rewrite app_nil_l, !app_nil_r in H.
Qed.

End Wr.
