(* ===== verification/StdioRd.v ===== *)
(** * Streams: input

    getc and fread give the bytes of the file one after the other, whatever pieces [_read]
    hands them out in, and EOF at the end only; in a text file the end is the first Ctrl-Z.
    ftell and fseek agree with the position of the next byte, also where fseek moves inside
    of the buffer without a call of lseek. *)

From stdpp Require Import base gmap list numbers.
From Stdlib Require Import ZArith Lia.
From S2P Require Import Prelude MemFuns NmRep Stdio StdioInv StdioWr.

Open Scope Z_scope.
Open Scope c_scope.

Section Laws.
Context {SA : StdioApi}.

(** The contents of the file of a descriptor, and its position. read gives some of the
    bytes from there on, and none at the end only. *)
Class InLaws (tb_size : Z) := {
  os_data : Z -> os_st -> list Z;
  os_pos : Z -> os_st -> nat;
  same_file := fun fd (o o' : os_st) => same_env o o' /\ os_data fd o' = os_data fd o;
  data_ok : forall fd o, bytes_ok (os_data fd o);
  read_law : forall fd n o r l o', 0 < n -> os_read fd n o = (r, l, o') -> same_file fd o o' /\
    r = Z.of_nat (length l) /\ r <= n /\
    l = take (length l) (drop (os_pos fd o) (os_data fd o)) /\
    os_pos fd o' = (os_pos fd o + length l)%nat /\
    (l = [] -> drop (os_pos fd o) (os_data fd o) = []);
  lseek_set : forall fd off o r o', 0 <= off -> os_lseek fd off SEEK_SET o = (r, o') ->
    same_file fd o o' /\ r = off /\ os_pos fd o' = Z.to_nat off;
  lseek_end : forall fd off o r o', 0 <= Z.of_nat (length (os_data fd o)) + off ->
    os_lseek fd off SEEK_END o = (r, o') ->
    same_file fd o o' /\ r = Z.of_nat (length (os_data fd o)) + off /\ os_pos fd o' = Z.to_nat r;
  lseek_cur : forall fd off o r o', 0 <= Z.of_nat (os_pos fd o) + off ->
    os_lseek fd off SEEK_CUR o = (r, o') ->
    same_file fd o o' /\ r = Z.of_nat (os_pos fd o) + off /\ os_pos fd o' = Z.to_nat r;
  ralloc_law : forall n o m p o' m', 0 < n -> os_malloc n o m = (p, o', m') ->
    (forall fd, same_file fd o o' /\ os_pos fd o' = os_pos fd o) /\
    (p = 0 /\ m' = m \/
     0 < p /\ fresh_at m p n /\ exists l, Z.of_nat (length l) = n /\ m' = write_bytes m p l);
  no_read_hook : read_hook = None;
  tb_size_range : 512 <= tb_size < 2 ^ 31 }.

End Laws.

(** The bytes of a text file end in front of the first Ctrl-Z. *)
Fixpoint cutz (text : bool) (l : list Z) : list Z :=
  match l with
  | [] => []
  | c :: l' => if text && (c =? 26) then [] else c :: cutz text l'
  end.

Lemma cutz_app text l1 l2 : (text = true -> 26 ∉ l1) -> cutz text (l1 ++ l2) = l1 ++ cutz text l2.
Proof.
  induction l1 as [|c l1 IH]; intros H; [done|]. simpl.
  destruct text; cbn [andb].
  - destruct (Z.eqb_spec c 26) as [->|]; [destruct H; [done|left]|].
    rewrite IH; [done|]. intros _ Hin. apply H; [done|by right].
  - by rewrite IH.
Qed.

Lemma cutz_false l : cutz false l = l.
Proof. induction l as [|c l IH]; simpl; [done|by rewrite IH]. Qed.

Section Rd.
Context {SA : StdioApi} (AUTO AUTOBUF tb : Z) {laws : InLaws tb}.
Implicit Types (s : iost) (x : FILE).

Abbreviation client_at := (client_at AUTO AUTOBUF).

Definition fdata s x : list Z := os_data (_file x) (i_os s).
Definition fpos s x : nat := os_pos (_file x) (i_os s).
(** What comes after the buffer *)
Definition beyond s x : list Z := cutz (textual s x) (drop (fpos s x) (fdata s x)).

(** [f] is open for input only. *)
Record rd_pre s (f : Z) x : Prop := {
  r_at : i_files s !! f = Some x;
  r_read : has (_flag x) _IOREAD = true;
  r_rw : has (_flag x) _IORW = false;
  r_strg : has (_flag x) _IOSTRG = false;
  r_eof : has (_flag x) _IOEOF = true -> _cnt x = 0 /\ beyond s x = [];
  r_auto : 0 < AUTO /\ is_Some (i_mem s !! AUTO);
  r_buf : _base x = 0 \/ nbf x = false /\ 0 < _base x /\ 0 < _bufsiz x < 2 ^ 31 /\ 0 < _fillsize x /\
    rng (i_mem s) (_base x) (_bufsiz x) }.

(** The buffer holds the [w] that precede the position of the file; [i] of them are read. *)
Record window s x (w : list Z) (i : nat) : Prop := {
  w_idx : (i <= length w)%nat;
  w_cnt : _cnt x = Z.of_nat (length w) - Z.of_nat i;
  w_none : _base x = 0 -> w = [];
  w_ptr : _base x <> 0 -> _ptr x = _base x + Z.of_nat i /\ Z.of_nat (length w) <= _bufsiz x /\
    bytes_at (i_mem s) (_base x) w;
  w_file : (length w <= fpos s x)%nat /\ w = take (length w) (drop (fpos s x - length w) (fdata s x));
  w_text : textual s x = true -> 26 ∉ w }.

(** The next byte of the stream is the one at [pos] of the file. *)
Definition rd_ok s f x (pos : nat) : Prop :=
  rd_pre s f x /\ exists w i, window s x w i /\ (pos + length w = fpos s x + i)%nat.

(** What the stream will give *)
Definition rest_at s x (pos : nat) : list Z := cutz (textual s x) (drop pos (fdata s x)).

Lemma window_rest s x w i pos :
  window s x w i -> (pos + length w = fpos s x + i)%nat -> rest_at s x pos = drop i w ++ beyond s x.
Proof.
  intros [Hi _ _ _ [Hlen Hw] Ht] Hpos. unfold rest_at, beyond.
  assert (E : drop pos (fdata s x) = drop i w ++ drop (fpos s x) (fdata s x)).
  { rewrite Hw at 1. rewrite <- (take_drop (length w - i) (drop pos _)), skipn_firstn_comm, !drop_drop.
    f_equal; [do 2 f_equal; lia|f_equal; lia]. }
  rewrite E. apply cutz_app. intros Htx Hin. apply (Ht Htx). rewrite <- (take_drop i w). set_solver.
Qed.

(** The stream is on the same file, and nothing of the client's changed. *)
Record rstep s x s' x' : Prop := {
  rs_file : _file x' = _file x;
  rs_same : same_file (_file x) (i_os s) (i_os s');
  rs_text : textual s' x' = textual s x;
  rs_keep : forall a, client_at s x a -> client_at s' x' a /\ i_mem s' !! a = i_mem s !! a }.

Lemma same_file_trans fd o1 o2 o3 : same_file fd o1 o2 -> same_file fd o2 o3 -> same_file fd o1 o3.
Proof. intros [? ?] [? ?]. split; [by eapply same_env_trans|congruence]. Qed.

Lemma rstep_refl s x : rstep s x s x.
Proof. by split. Qed.

Lemma rstep_trans s1 x1 s2 x2 s3 x3 : rstep s1 x1 s2 x2 -> rstep s2 x2 s3 x3 -> rstep s1 x1 s3 x3.
Proof.
  intros [F1 S1 T1 K1] [F2 S2 T2 K2]. split.
  - congruence.
  - rewrite F1 in S2. by eapply same_file_trans.
  - congruence.
  - intros a Ha. destruct (K1 a Ha) as [Ha2 E]. destruct (K2 a Ha2) as [Ha3 E']. split; [done|]. congruence.
Qed.

(** *** Reading a piece *)

(** What [_read] put at [base], with Ctrl-Z looked for *)
Record piece s x (n : Z) (w l : list Z) (o' : os_st) : Prop := {
  p_len : Z.of_nat (length l) <= n;
  p_sub : w = take (length w) l;
  p_same : same_file (_file x) (i_os s) o';
  p_pos : os_pos (_file x) o' = (fpos s x + length w)%nat;
  p_data : w = take (length w) (drop (fpos s x) (fdata s x));
  p_text : textual s x = true -> 26 ∉ w;
  p_end : w = [] -> beyond s x = [] }.

Lemma find_index_take c l j :
  find_index (Z.eqb c) l = Some j -> (j < length l)%nat /\ l !! j = Some c /\ c ∉ take j l.
Proof.
  revert j. induction l as [|b l IH]; intros j H; [done|]. simpl in H.
  destruct (Z.eqb_spec c b) as [->|Hne].
  - injection H as <-. simpl. split_and!; [lia|done|apply not_elem_of_nil].
  - destruct (find_index (Z.eqb c) l) as [k|] eqn:E; [|done]. injection H as <-.
    destruct (IH k eq_refl) as (? & ? & ?). simpl. split_and!; [lia|done|]. by apply not_elem_of_cons.
Qed.

Lemma find_index_none c l : find_index (Z.eqb c) l = None -> c ∉ l.
Proof.
  induction l as [|b l IH]; intros H; [apply not_elem_of_nil|]. simpl in H.
  destruct (Z.eqb_spec c b) as [->|Hne]; [done|]. destruct (find_index (Z.eqb c) l); [done|].
  apply not_elem_of_cons. auto.
Qed.

Lemma get_in_spec s f x n :
  i_files s !! f = Some x -> 0 < n -> 0 < _base x -> rng (i_mem s) (_base x) n ->
  wpi (get_in f n) (fun _ s' => exists w l o',
    s' = setf (put_os (put_mem s (write_bytes (i_mem s) (_base x) l)) o') f (up_cnt (Z.of_nat (length w)) x) /\
    piece s x n w l o') s.
Proof.
  intros Hx Hn Hb Hr. unfold get_in. io1. rewrite no_read_hook. apply wpi_bind.
  apply (wpi_mono _ (fun r s' => r = false /\ s' = s)).
  { destruct (has _ _); by apply wpi_ret. }
  intros ? ? [-> ->]. apply wpi_bind. unfold wpi at 1, _read.
  destruct (os_read (_file x) n (i_os s)) as [[r l] o1] eqn:E.
  destruct (read_law _ _ _ _ _ _ Hn E) as (Hs1 & Hlr & Hrn & Hl & Hp1 & Hend). subst r.
  pose proof (data_ok (_file x) (i_os s)) as Hdok.
  assert (Hlok : bytes_ok l) by (rewrite Hl; by apply Forall_take, Forall_drop).
  rewrite store_bytes_spec; [|done|apply rng_mapped; intros a Ha; apply Hr; lia]. rewrite bind_Done.
  set (m1 := write_bytes (i_mem s) (_base x) l). set (s1 := put_os (put_mem s m1) o1).
  assert (Hx1 : i_files s1 !! f = Some x) by done.
  assert (Ht1 : textual s1 x = textual s x).
  { unfold textual. simpl. by destruct Hs1 as [He _]; destruct (He (_file x)) as (_ & -> & _). }
  io. apply wpi_bind. eapply is_text_spec; [apply setf_at|].
  change (textual (setf s1 f (up_cnt (Z.of_nat (length l)) x)) (up_cnt (Z.of_nat (length l)) x)) with (textual s1 x).
  rewrite Ht1.
  assert (Hwhole : 26 ∉ l \/ textual s x = false -> piece s x n l l o1).
  { intros Hz. split; try done.
    - by rewrite firstn_all.
    - intros Ht. destruct Hz; [done|congruence].
    - intros E0. unfold beyond. unfold fpos, fdata. by rewrite Hend. }
  destruct (textual s x && (0 <? Z.of_nat (length l))) eqn:Etx.
  2: { apply wpi_ret. exists l, l, o1. split; [done|]. apply Hwhole. apply andb_false_iff in Etx as [?|Hz]; [by right|].
       left. apply Z.ltb_ge in Hz. destruct l; [apply not_elem_of_nil|simpl in Hz; lia]. }
  apply wpi_bind. unfold wpi at 1. cbn [i_mem setf put_files put_os put_mem].
  rewrite memchr_spec by apply bytes_at_write. rewrite bind_Done. change (byte 26) with 26.
  destruct (find_index (Z.eqb 26) l) as [j|] eqn:Ej.
  2: { apply wpi_ret. exists l, l, o1. split; [done|]. apply Hwhole. left. by apply find_index_none. }
  destruct (find_index_take _ _ _ Ej) as (Hj & Hlj & Hnj).
  replace (_base x + Z.of_nat j =? 0) with false by lia. cbv zeta.
  replace (_base x + Z.of_nat j - _base x) with (Z.of_nat j) by lia.
  apply wpi_bind. unfold wpi at 1, lseek. cbn [i_os setf put_files put_os put_mem s1].
  destruct (os_lseek _ _ _ _) as [r o2] eqn:E2. apply lseek_cur in E2 as (Hs2 & -> & Hp2); [|lia].
  eapply wpi_modf; [apply setf_at|]. exists (take j l), l, o2. rewrite length_take, Nat.min_l by lia. split.
  { unfold setf, put_files, put_os. simpl. by rewrite insert_insert_eq. }
  split; rewrite ?length_take, ?Nat.min_l by lia; try done.
  - by eapply same_file_trans.
  - rewrite Hp2. unfold fpos. lia.
  - rewrite Hl at 1. rewrite take_take, Nat.min_l by lia. done.
  - intros E0. unfold beyond. unfold fpos, fdata.
    apply (f_equal length) in E0. rewrite length_take, Nat.min_l in E0 by lia. simpl in E0. subst j.
    apply andb_true_iff in Etx as [-> _]. destruct l as [|c l']; [done|]. simpl in Hlj. injection Hlj as ->.
    destruct (drop _ _) as [|c' r'] eqn:Ed; [done|]. simpl in Hl. by injection Hl as <- _.
Qed.

Lemma beyond_split s x n w l o' :
  piece s x n w l o' -> beyond s x = w ++ cutz (textual s x) (drop (fpos s x + length w) (fdata s x)).
Proof.
  intros [_ _ _ _ Hd Ht _]. unfold beyond. rewrite <- (take_drop (length w) (drop (fpos s x) _)) at 1.
  rewrite <- Hd, cutz_app by done. by rewrite drop_drop.
Qed.

(** *** The buffer *)

(** Flags that alloc_rbuf leaves alone *)
Lemma alloc_rbuf_spec s f x :
  rd_pre s f x -> has (_flag x) _IOEOF = false ->
  wpi (alloc_rbuf tb f) (fun _ s' => exists x', rd_pre s' f x' /\ has (_flag x') _IOEOF = false /\
    (_base x' = 0 -> nbf x' = true) /\ fpos s' x' = fpos s x /\ rstep s x s' x' /\ (_base x <> 0 -> x' = x)) s.
Proof.
  intros Hpre Heof. pose proof Hpre as [Hx Hrd Hrw Hst _ Ha Hb]. unfold alloc_rbuf. io1. fold (nbf x).
  destruct (Z.eqb_spec (_base x) 0) as [E0|E0]; cbn [andb].
  2: { io1. exists x. by split_and!. }
  destruct (nbf x) eqn:En; cbn [negb].
  { io1. exists x. by split_and!. }
  apply wpi_bind. unfold wpi at 1, c_malloc. destruct (os_malloc _ _ _) as [[p o'] m'] eqn:E.
  pose proof (tb_size_range (tb_size := tb)) as Htb.
  apply ralloc_law in E as [Ho Hm]; [|lia]. destruct (Ho (_file x)) as [Hsf Hpos].
  set (s1 := put_os (put_mem s m') o'). assert (Hx1 : i_files s1 !! f = Some x) by done.
  assert (Htx : forall x', _file x' = _file x -> has (_flag x') (_IOSTRG .| _IOTERM) = has (_flag x) (_IOSTRG .| _IOTERM) ->
    textual (setf s1 f x') x' = textual s x).
  { intros x' E1 E2. unfold textual. rewrite E2, E1. simpl. destruct Hsf as [He _].
    by destruct (He (_file x)) as (_ & -> & _). }
  io. destruct Hm as [[-> ->]|(Hp & Hf & l & Hlen & Em)].
  - change (0 =? 0) with true. cbn iota. io. eexists. split_and!; [split; [apply setf_at|..]| | | | |done].
    all: unfold nbf; fcbn; flags; try done; try congruence.
    + by left.
    + split; try done.
      * apply Htx; [done|]. fcbn. rewrite !has_mask. by flags.
      * intros a (? & ? & ? & _). split; [|done]. split_and!; try done. by left.
  - replace (p =? 0) with false by lia. io.
    assert (Hkeep : forall a, is_Some (i_mem s !! a) -> m' !! a = i_mem s !! a /\ (a < p \/ p + tb <= a)).
    { intros a [v Hv]. assert (a < p \/ p + tb <= a).
      { destruct (decide (p <= a < p + tb)) as [Hin|]; [|lia]. by rewrite Hf in Hv. }
      split; [|done]. rewrite Em. apply lookup_write_bytes_out. lia. }
    eexists. split_and!; [split; [apply setf_at|..]| | | | |done].
    all: fcbn; flags; try done; try congruence; try (intros ?; lia).
    + destruct Ha as [? Ha]. split; [done|]. simpl. destruct (Hkeep AUTO Ha) as [-> _]. done.
    + right. unfold nbf in *. simpl. split_and!; try lia; [flags; done|]. rewrite Em, <- Hlen. apply rng_written.
    + split; try done.
      * apply Htx; [done|]. fcbn. rewrite !has_mask. by flags.
      * intros a (Ha1 & Ha2 & Ha3 & _). destruct (Hkeep a Ha1) as [Ea Hout].
        split; [|done]. split_and!; [simpl; by rewrite Ea|done|done|]. simpl. lia.
Qed.

(** *** _filbuf *)

Lemma fill_size_ok x :
  0 < _bufsiz x < 2 ^ 31 -> 0 < _fillsize x <= _bufsiz x ->
  0 < wrap_u 64 (fill_size x) <= _bufsiz x.
Proof.
  intros Hb Hf. unfold fill_size. rewrite wrap_s_small by lia.
  destruct ((_fillsize x =? 1024) && (1536 <=? _bufsiz x)) eqn:E; rewrite wrap_u_small; lia.
Qed.

(** The byte that was read can be given back, on a stream that has a buffer. *)
Definition backable x x' : Prop :=
  has (_flag x') _IOEOF = false /\ (_base x <> 0 -> _base x' = _base x /\ _ptr x' <> _base x').

(** _filbuf gives the first byte that is beyond the buffer, and reads some of what follows. *)
Definition filled s f x (r : Z) s' : Prop := exists x', rstep s x s' x' /\
  match beyond s x with
  | [] => r = EOF /\ has (_flag x') _IOEOF = true /\ rd_ok s' f x' (fpos s x)
  | c :: _ => r = c /\ rd_ok s' f x' (S (fpos s x)) /\ backable x x'
  end.

(** The FILE after a piece was read: [i] is 1, or 0 at the end of the file. *)
Definition after_fill x (cnt ptr flag fs : Z) : FILE :=
  mk_FILE cnt ptr (if nbf x then 0 else _base x) (_bufsiz x) flag (_file x) (_name_to_remove x) fs.

Definition fill_ready s f x : Prop :=
  i_files s !! f = Some x /\ has (_flag x) _IOREAD = true /\ has (_flag x) _IORW = false /\
  has (_flag x) _IOSTRG = false /\ has (_flag x) _IOEOF = false /\ 0 < AUTO /\ is_Some (i_mem s !! AUTO) /\
  0 < _base x /\ (nbf x = true -> _base x = AUTO) /\
  (nbf x = false -> 0 < _bufsiz x < 2 ^ 31 /\ 0 < _fillsize x <= _bufsiz x /\ rng (i_mem s) (_base x) (_bufsiz x)).

Lemma after_fill_ok s f x n w l o' i flag fs :
  fill_ready s f x -> piece s x n w l o' -> (nbf x = false -> n <= _bufsiz x) -> (nbf x = true -> n <= 1) ->
  i = Nat.min 1 (length w) -> (nbf x = false -> 0 < fs) ->
  flag = (if decide (w = []) then _flag x .| _IOEOF else _flag x) ->
  let x' := after_fill x (Z.of_nat (length w) - Z.of_nat i) (_base x + Z.of_nat i) flag fs in
  let s' := setf (put_os (put_mem s (write_bytes (i_mem s) (_base x) l)) o') f x' in
  textual s' x' = textual s x /\ rd_ok s' f x' (fpos s x + i).
Proof.
  intros (Hx & Hrd & Hrw & Hst & Heof & HA & Ha & Hb & Hnb & Hfb) Hp Hn1 Hn2 Hi Hfs Hfl x' s'.
  assert (Hhas : forall m, has _IOEOF m = false -> has (_flag x') m = has (_flag x) m).
  { intros m Hm. unfold x', after_fill. fcbn. rewrite Hfl. case_decide; [|done]. by rewrite has_or, Hm, orb_false_r. }
  pose proof (p_same _ _ _ _ _ _ Hp) as [Henv Hdat].
  assert (Ht : textual s' x' = textual s x).
  { unfold textual. rewrite Hhas by done. simpl. by destruct (Henv (_file x)) as (_ & -> & _). }
  assert (Hfp : fpos s' x' = (fpos s x + length w)%nat) by apply (p_pos _ _ _ _ _ _ Hp).
  assert (Hfd : fdata s' x' = fdata s x) by apply Hdat.
  assert (Hby : beyond s' x' = cutz (textual s x) (drop (fpos s x + length w) (fdata s x))).
  { unfold beyond. by rewrite Ht, Hfp, Hfd. }
  assert (Hmap : forall a, is_Some (i_mem s !! a) -> is_Some (i_mem s' !! a)).
  { intros a [v Hv]. simpl. rewrite lookup_write_bytes. destruct (decide (_base x <= a < _)); [|by rewrite Hv].
    apply lookup_lt_is_Some_2. lia. }
  assert (Hlw : Z.of_nat (length w) <= n).
  { pose proof (p_len _ _ _ _ _ _ Hp). pose proof (f_equal length (p_sub _ _ _ _ _ _ Hp)) as E.
    rewrite length_take in E. lia. }
  split; [done|]. split.
  - split; rewrite ?Hhas by done; try done; [apply setf_at| | |].
    + simpl. rewrite Hfl. case_decide as Ew; [|congruence]. intros _. subst w. simpl in *. subst i.
      split; [lia|]. rewrite Hby. rewrite Nat.add_0_r. by apply (p_end _ _ _ _ _ _ Hp).
    + split; [done|by apply Hmap].
    + simpl. destruct (nbf x) eqn:En; [by left|]. right. destruct (Hfb eq_refl) as (? & ? & Hr).
      split_and!; try lia; [unfold nbf in *; by rewrite Hhas|]. intros a Hin. apply Hmap, Hr. lia.
  - destruct (nbf x) eqn:En.
    + exists [], 0%nat. split; [|simpl; specialize (Hn2 eq_refl); lia]. split; simpl; rewrite ?En; try done; [|split; [lia|done]|intros _; apply not_elem_of_nil].
      specialize (Hn2 eq_refl). lia.
    + exists w, i. split; [|lia]. split; simpl; rewrite ?En; try done; try lia.
      * intros _. split_and!; [done|specialize (Hn1 eq_refl); lia|].
        rewrite (p_sub _ _ _ _ _ _ Hp). intros k b Hk. apply lookup_take_Some in Hk as [Hk _].
        by apply (bytes_at_write (i_mem s) (_base x) l).
      * rewrite Hfp, Hfd. split; [lia|]. replace (fpos s x + length w - length w)%nat with (fpos s x) by lia.
        apply (p_data _ _ _ _ _ _ Hp).
      * rewrite Ht. apply (p_text _ _ _ _ _ _ Hp).
Qed.

Lemma land_255 c : 0 <= c < 256 -> c .& 255 = c.
Proof. intros. change 255 with (Z.ones 8). rewrite Z.land_ones by lia. by apply Z.mod_small. Qed.

(** The rest of _filbuf, from the call of [_read] on *)
Lemma filbuf_tail s f x :
  fill_ready s f x ->
  wpi (_ ← get_in f (if has (_flag x) _IONBF then 1 else wrap_u 64 (fill_size x));
       x ← getf f;
       _ ← (if _fillsize x <? _bufsiz x then modf f (up_fillsize (wrap_u 64 (_fillsize x * 2))) else mret tt);
       _ ← modf f (up_ptr (_base x));
       _ ← (if has (_flag x) _IONBF then modf f (up_base 0) else mret tt);
       let n := _cnt x - 1 in
       _ ← modf f (up_cnt n);
       if n <? 0 then
         _ ← (if n =? -1 then
                _ ← modf f (or_flag _IOEOF);
                if has (_flag x) _IORW then modf f (not_flag _IOREAD) else mret tt
              else modf f (or_flag _IOERR));
         _ ← modf f (up_cnt 0);
         mret EOF
       else
         c ← ldb (_base x);
         _ ← modf f (up_ptr (_base x + 1));
         mret (c .& 255))
    (fun r s' => exists x' n w l o', piece s x n w l o' /\ n <= (if nbf x then 1 else _bufsiz x) /\
      i_mem s' = write_bytes (i_mem s) (_base x) l /\ i_os s' = o' /\
      _file x' = _file x /\ _base x' = (if nbf x then 0 else _base x) /\ _bufsiz x' = _bufsiz x /\
      textual s' x' = textual s x /\
      match beyond s x with
      | [] => r = EOF /\ has (_flag x') _IOEOF = true /\ rd_ok s' f x' (fpos s x)
      | c :: _ => r = c /\ rd_ok s' f x' (S (fpos s x)) /\ has (_flag x') _IOEOF = false /\ _ptr x' = _base x + 1
      end) s.
Proof.
  intros Hrdy. pose proof Hrdy as (Hx & Hrd & Hrw & Hst & Heof & HA & Ha & Hb & Hnb & Hfb).
  fold (nbf x). apply wpi_bind. set (n := if nbf x then 1 else wrap_u 64 (fill_size x)).
  assert (Hn : 0 < n /\ rng (i_mem s) (_base x) n /\ n <= (if nbf x then 1 else _bufsiz x)).
  { unfold n. destruct (nbf x).
    - split_and!; [lia| |done]. rewrite (Hnb eq_refl). intros a Hin. by replace a with AUTO by lia.
    - destruct (Hfb eq_refl) as (H1 & H2 & H3). pose proof (fill_size_ok x H1 H2).
      split_and!; [lia| |lia]. intros a Hin. apply H3. lia. }
  destruct Hn as (Hn & Hrn & Hnsz).
  eapply wpi_mono; [by apply get_in_spec|]. cbv beta. intros [] s1 (w & l & o' & -> & Hp). io1. fcbn.
  set (s1 := put_os _ o'). set (x1 := up_cnt _ x).
  apply wpi_bind. apply (wpi_mono _ (fun _ s' => exists fs, (nbf x = false -> 0 < fs) /\ s' = setf s1 f (up_fillsize fs x1))).
  { destruct (Z.ltb_spec (_fillsize x) (_bufsiz x)) as [Hlt|_].
    - eapply wpi_modf; [apply setf_at|]. rewrite setf_setf. eexists. split; [|done]. intros En.
      destruct (Hfb En) as (? & ? & _). rewrite wrap_u_small by lia. lia.
    - apply wpi_ret. exists (_fillsize x). split; [intros En; destruct (Hfb En) as (_ & ? & _); lia|]. by destruct x. }
  intros [] ? (fs & Hfs & ->). io. apply wpi_bind. fold (nbf x).
  apply (wpi_mono _ (fun _ s' => s' = setf s1 f (after_fill x (Z.of_nat (length w)) (_base x) (_flag x) fs))).
  { unfold after_fill. destruct (nbf x); [|by apply wpi_ret]. eapply wpi_modf; [apply setf_at|]. by rewrite setf_setf. }
  intros [] ? ->. io. rewrite Hrw.
  assert (Hfin : forall i flag, i = Nat.min 1 (length w) ->
    flag = (if decide (w = []) then _flag x .| _IOEOF else _flag x) -> let x' := after_fill x
      (Z.of_nat (length w) - Z.of_nat i) (_base x + Z.of_nat i) flag fs in
    textual (setf s1 f x') x' = textual s x /\
    rd_ok (setf s1 f x') f x' (fpos s x + i)).
  { intros i flag Hi Hfl. apply (after_fill_ok s f x n w l o' i flag fs); try done; intros En; by rewrite En in Hnsz. }
  rewrite (beyond_split _ _ _ _ _ _ Hp). destruct w as [|c w]; cbn [length app].
  - change (Z.of_nat 0 - 1) with (-1). change (-1 <? 0) with true. change (-1 =? -1) with true. cbn iota. io.
    destruct (Hfin 0%nat (_flag x .| _IOEOF)) as [Ht Hok]; [done|by rewrite decide_True|].
    change (Z.of_nat (length []) - Z.of_nat 0) with 0 in Ht, Hok. rewrite Z.add_0_r in Ht, Hok. rewrite Nat.add_0_r in Hok.
    assert (Hnil : cutz (textual s x) (drop (fpos s x) (fdata s x)) = []) by apply (p_end _ _ _ _ _ _ Hp eq_refl).
    rewrite Nat.add_0_r, Hnil.
    eexists _, n, [], l, o'. split_and!; try exact Hp; try exact Hok; try exact Ht; try done.
    fcbn. unfold after_fill. fcbn. flags. done.
  - replace (Z.of_nat (S (length w)) - 1) with (Z.of_nat (length w)) by lia.
    rewrite (proj2 (Z.ltb_ge (Z.of_nat (length w)) 0)) by lia.
    destruct (Hfin 1%nat (_flag x)) as [Ht Hok]; [simpl; lia|by rewrite decide_False|].
    replace (Z.of_nat (length (c :: w)) - Z.of_nat 1) with (Z.of_nat (length w)) in Ht, Hok by (simpl; lia).
    change (Z.of_nat 1) with 1 in Ht, Hok. rewrite Nat.add_1_r in Hok.
    assert (Hc : 0 <= c < 256).
    { assert (Hd : bytes_ok (c :: w)).
      { rewrite (p_data _ _ _ _ _ _ Hp). apply Forall_take, Forall_drop, data_ok. }
      by apply Forall_cons_1 in Hd as [? _]. }
    apply wpi_bind. eapply wpi_ldb.
    { rewrite <- (Z.add_0_r (_base x)). apply (bytes_at_write (i_mem s) (_base x) l 0%nat).
      pose proof (p_sub _ _ _ _ _ _ Hp) as Es. destruct l; simpl in Es; [done|]. by injection Es as <- _. }
    io. rewrite land_255 by done.
    eexists _, n, (c :: w), l, o'. split_and!; try exact Hp; try exact Hok; try exact Ht; try done.
Qed.

(** A change of flags that the reading does not look at *)
Lemma rd_pre_flags s f x g :
  rd_pre s f x -> (forall m, m ∈ [_IOREAD; _IORW; _IOSTRG; _IOEOF; _IONBF; _IOTERM] ->
    has (_flag (up_flag g x)) m = has (_flag x) m) ->
  rd_pre (setf s f (up_flag g x)) f (up_flag g x) /\ rstep s x (setf s f (up_flag g x)) (up_flag g x).
Proof.
  intros [Hx Hrd Hrw Hst He Ha Hb] Hm.
  assert (Ht : textual (setf s f (up_flag g x)) (up_flag g x) = textual s x).
  { unfold textual. rewrite !has_mask, !Hm by set_solver. done. }
  assert (Hn : nbf (up_flag g x) = nbf x) by (apply Hm; set_solver).
  split; [split|split]; rewrite ?Hm by set_solver; try done; [apply setf_at| |].
  - intros E. destruct (He E). split; [done|]. unfold beyond. by rewrite Ht.
  - by rewrite Hn.
Qed.

(** The FILE as _filbuf reads it: an unbuffered stream gets the automatic variable. *)
Definition with_auto x : FILE := if nbf x then up_base AUTO x else x.
Definition clipped x : FILE := if _bufsiz x <? _fillsize x then up_fillsize (_bufsiz x) x else x.

Lemma fill_ready_intro s f x :
  rd_pre s f x -> has (_flag x) _IOEOF = false -> (_base x = 0 -> nbf x = true) ->
  let x' := clipped (with_auto x) in
  fill_ready (setf s f x') f x' /\ _flag x' = _flag x /\ _file x' = _file x /\ _bufsiz x' = _bufsiz x /\
  _base x' = if nbf x then AUTO else _base x.
Proof.
  intros [Hx Hrd Hrw Hst _ [HA Ha] Hb] He Hb0 x'.
  assert (E : _flag x' = _flag x /\ _file x' = _file x /\ _bufsiz x' = _bufsiz x /\
    _base x' = (if nbf x then AUTO else _base x) /\ _fillsize x' = Z.min (_fillsize x) (_bufsiz x)).
  { unfold x', clipped, with_auto. destruct (nbf x); fcbn;
      destruct (Z.ltb_spec (_bufsiz x) (_fillsize x)); fcbn; split_and!; (done || lia). }
  destruct E as (E1 & E2 & E3 & E4 & E5). split; [|done].
  unfold fill_ready, nbf. rewrite E1, E3, E4, E5. fold (nbf x). split_and!; try done; [apply setf_at|..].
  - destruct (nbf x) eqn:En; [done|]. destruct Hb as [H0|(_ & ? & _)]; [by specialize (Hb0 H0)|done].
  - intros En. by rewrite En.
  - intros En. rewrite En. destruct Hb as [H0|(_ & _ & ? & ? & ?)]; [by rewrite (Hb0 H0) in En|].
    split_and!; try lia. done.
Qed.

Lemma filbuf_spec s f x :
  rd_pre s f x -> f <> stdin -> (has (_flag x) _IOEOF = true -> exists w i, window s x w i) ->
  wpi (_filbuf AUTO tb f) (filled s f x) s.
Proof.
  intros Hpre Hf Hwin. pose proof Hpre as [Hx Hrd Hrw Hst He _ _]. unfold _filbuf. io1. rewrite Hrw.
  apply wpi_bind, wpi_ret. io1. rewrite Hrd, has_mask, Hst. cbn [negb orb].
  destruct (has (_flag x) _IOEOF) eqn:Ee.
  { io1. destruct (He eq_refl) as [Hc Hb]. exists x. split; [done|]. rewrite Hb. split_and!; [done|done|]. split; [done|].
    destruct (Hwin eq_refl) as (w & i & Hw). exists w, i. split; [done|].
    destruct Hw as [Hi Hcn _ _ _ _]. lia. }
  io1. destruct (rd_pre_flags s f x (without (_flag x) _IOUNGETC) Hpre) as [Hpre1 Hst1].
  { intros m Hm. simpl. apply has_without_ne. repeat (apply elem_of_cons in Hm as [->|Hm]; [done|]). by apply elem_of_nil in Hm. }
  set (x1 := not_flag _IOUNGETC x) in *. fold x1 in Hpre1. apply wpi_bind.
  eapply wpi_mono; [apply (alloc_rbuf_spec _ f x1 Hpre1); unfold x1; fcbn; by flags|]. cbv beta.
  intros [] s2 (x2 & Hpre2 & He2 & Hb2 & Hp2 & Hst2 & Hsame2). pose proof (r_at _ _ _ Hpre2) as Hx2. io1.
  destruct (fill_ready_intro s2 f x2 Hpre2 He2 Hb2) as (Hrdy & E1 & E2 & E3 & E4). fold (nbf x2).
  apply wpi_bind. apply (wpi_mono _ (fun _ s' => s' = setf s2 f (with_auto x2))).
  { unfold with_auto. destruct (nbf x2); [by eapply wpi_modf|]. apply wpi_ret. by rewrite setf_same. }
  intros [] ? ->. replace (f =? stdin) with false by lia. apply wpi_bind, wpi_ret. io1.
  apply wpi_bind. apply (wpi_mono _ (fun _ s' => s' = setf s2 f (clipped (with_auto x2)))).
  { unfold clipped at 1. destruct (_ <? _).
    - eapply wpi_modf; [apply setf_at|]. by rewrite setf_setf.
    - by apply wpi_ret. }
  intros [] ? ->. io1. set (x3 := clipped _) in *. set (s3 := setf s2 f x3) in *.
  eapply wpi_mono; [by apply (filbuf_tail s3 f x3)|]. cbv beta.
  intros r s' (x' & n & w & l & o' & Hp & Hn & Em & Eo & Ef & Eb & Ez & Et & Hres).
  assert (Ht3 : textual s3 x3 = textual s2 x2) by (unfold textual; by rewrite E1, E2).
  assert (Hst3 : rstep s2 x2 s' x').
  { split; [by rewrite Ef, E2| |by rewrite Et|].
    - rewrite <- E2, Eo. apply (p_same _ _ _ _ _ _ Hp).
    - intros a (Ha1 & Ha2 & Ha3 & Ha4). pose proof (p_len _ _ _ _ _ _ Hp) as Hl.
      assert (Hn3 : nbf x3 = nbf x2) by (unfold nbf; by rewrite E1). rewrite Hn3 in *.
      assert (Hm : i_mem s' !! a = i_mem s2 !! a).
      { rewrite Em. apply lookup_write_bytes_out. rewrite E4. rewrite E3 in Hn.
        destruct (nbf x2) eqn:En; [lia|]. destruct Ha4 as [H0|?]; [specialize (Hb2 H0); congruence|lia]. }
      split; [|done]. unfold client_at, StdioWr.client_at. rewrite Hm, Eb, Ez, E3, E4. split_and!; try done.
      destruct (nbf x2) eqn:En; [by left|]. done. }
  assert (Hby : beyond s3 x3 = beyond s x).
  { unfold beyond.
    replace (textual s3 x3) with (textual s x) by (rewrite Ht3, (rs_text _ _ _ _ Hst2); symmetry; exact (rs_text _ _ _ _ Hst1)).
    replace (fpos s3 x3) with (fpos s x) by (unfold fpos at 2; simpl; rewrite E2; symmetry; exact Hp2).
    replace (fdata s3 x3) with (fdata s x); [done|]. unfold fdata. simpl. rewrite E2.
    rewrite (rs_file _ _ _ _ Hst2). destruct (rs_same _ _ _ _ Hst2) as [_ Ed]. symmetry. exact Ed. }
  replace (fpos s3 x3) with (fpos s x) in Hres by (unfold fpos at 2; simpl; rewrite E2; symmetry; exact Hp2).
  exists x'. rewrite <- Hby. split; [eapply rstep_trans; [exact Hst1|]; by eapply rstep_trans|].
  destruct (beyond s3 x3) as [|c r0]; [done|]. destruct Hres as (? & ? & Hfl & Hptr). split_and!; [done|done|]. split; [done|].
  intros Hb0. assert (E0 : _base x2 = _base x) by by rewrite (Hsame2 Hb0). assert (Hn2 : nbf x2 = false).
  { destruct (r_buf _ _ _ Hpre2) as [?|[? _]]; [congruence|done]. }
  assert (Hn3 : nbf x3 = false) by (unfold nbf; by rewrite E1). rewrite Hn2 in E4. rewrite Hn3 in Eb. split; [congruence|]. lia.
Qed.

End Rd.
