(* ===== verification/StdioIn.v ===== *)
(** * Streams: characters and blocks of a file

    A stream for input is a cursor: its data are the bytes of the file and its state is a
    position. getc, ungetc, fread, fgets, ftell and fseek are the operations of that cursor,
    whatever is in the buffer. *)

From stdpp Require Import base gmap list numbers.
From Stdlib Require Import ZArith Lia.
From S2P Require Import Prelude MemFuns NmRep Stdio StdioInv StdioWr StdioRd.

Open Scope Z_scope.
Open Scope c_scope.

Section In.
Context {SA : StdioApi} (AUTO AUTOBUF tb : Z) {laws : InLaws tb}.
Implicit Types (s : iost) (x : FILE).

Abbreviation client_at := (client_at AUTO AUTOBUF).
Abbreviation rd_pre := (rd_pre AUTO tb).
Abbreviation window := (window tb).
Abbreviation fpos := (fpos tb).
Abbreviation fdata := (fdata tb).
Abbreviation beyond := (beyond tb).
Abbreviation rest_at := (rest_at tb).
Abbreviation rd_ok := (rd_ok AUTO tb).
Abbreviation rstep := (rstep AUTO AUTOBUF tb).

(** ** Characters *)

(** What a read of one byte does at [pos] *)
Definition read1 s f x (pos : nat) (r : Z) s' : Prop := exists x', rstep s x s' x' /\
  match rest_at s x pos with
  | [] => r = EOF /\ has (_flag x') _IOEOF = true /\ rd_ok s' f x' pos
  | c :: _ => r = c /\ rd_ok s' f x' (S pos) /\ backable x x'
  end.

Lemma rd_eof s f x : rd_pre s f x -> 0 < _cnt x -> has (_flag x) _IOEOF = false.
Proof.
  intros Hp Hc. destruct (has (_flag x) _IOEOF) eqn:E; [|done].
  destruct (r_eof _ _ _ _ _ Hp E). lia.
Qed.

(** The position moves inside of the buffer. *)
Lemma rd_pre_move s f x n p :
  rd_pre s f x -> has (_flag x) _IOEOF = false ->
  rd_pre (setf s f (up_ptr p (up_cnt n x))) f (up_ptr p (up_cnt n x)).
Proof. intros [? ? ? ? _ ? ?] He. split; try done; [apply setf_at|]. simpl. by rewrite He. Qed.

Lemma window_move s f x w i j :
  window s x w i -> (j <= length w)%nat -> _base x <> 0 ->
  let x' := up_ptr (_base x + Z.of_nat j) (up_cnt (Z.of_nat (length w) - Z.of_nat j) x) in
  window (setf s f x') x' w j.
Proof.
  intros [Hi Hc Hn Hp Hf Ht] Hj Hb x'. split; try done. intros _. destruct (Hp Hb) as (_ & ? & ?). done.
Qed.

Lemma drop_lookup_cons {A} (l : list A) i c l' : drop i l = c :: l' -> l !! i = Some c /\ l' = drop (S i) l.
Proof.
  intros E. assert (Hi : l !! i = Some c) by (rewrite <- (Nat.add_0_r i), <- lookup_drop, E; done).
  split; [done|]. apply (drop_S l c i) in Hi. rewrite E in Hi. by injection Hi.
Qed.

Lemma getc_raw_spec s f x pos :
  rd_ok s f x pos -> f <> stdin -> wpi (__getc_raw AUTO tb f) (read1 s f x pos) s.
Proof.
  intros (Hpre & w & i & Hw & Hpos) Hf. pose proof (r_at _ _ _ _ _ Hpre) as Hx. unfold __getc_raw. io1.
  pose proof (window_rest _ _ _ _ _ _ Hw Hpos) as Hrest. pose proof Hw as [Hi Hc Hn Hp _ _].
  destruct (Z.ltb_spec 0 (_cnt x)) as [Hpos'|Hneg].
  - assert (Hb : _base x <> 0) by (intros E; specialize (Hn E); subst w; simpl in *; lia).
    destruct (Hp Hb) as (Ep & _ & Hat). destruct (drop i w) as [|c w'] eqn:Ed.
    { apply (f_equal length) in Ed. rewrite length_drop in Ed. simpl in Ed. lia. }
    apply drop_lookup_cons in Ed as [Hci ->]. io. eapply wpi_ldb; [rewrite Ep; by apply Hat|].
    pose proof (rd_eof _ _ _ Hpre Hpos') as He. unfold read1. rewrite Hrest.
    eexists. split; [|split; [done|split; [split; [by apply rd_pre_move|]|]]]; [by split| |].
    2: { split; [exact He|]. intros _. split; [done|]. cbn. lia. }
    exists w, (S i). apply lookup_lt_Some in Hci. split; [|change (fpos (setf s f _) _) with (fpos s x); lia].
    pose proof (window_move s f x w i (S i) Hw ltac:(lia) Hb) as Hm.
    replace (_ptr x + 1) with (_base x + Z.of_nat (S i)) by lia.
    by replace (_cnt x - 1) with (Z.of_nat (length w) - Z.of_nat (S i)) by lia.
  - assert (Ei : i = length w) by lia. eapply wpi_mono; [apply (filbuf_spec AUTO AUTOBUF tb); eauto|]. cbv beta.
    intros r s' (x' & Hst & Hres). exists x'. split; [done|]. rewrite Hrest, Ei, drop_all. cbn [app].
    by replace (fpos s x) with pos in Hres by lia.
Qed.

(** The character that getc gives, and how many bytes it takes: one CR is left out. *)
Definition getc_of (text : bool) (rest : list Z) : Z * nat :=
  match rest with
  | [] => (EOF, 0%nat)
  | c :: r =>
      if text && (c =? 13) then match r with [] => (EOF, 1%nat) | c' :: _ => (c', 2%nat) end
      else (c, 1%nat)
  end.

(** *** The cursor *)

Lemma rest_at_step s x s' x' pos : rstep s x s' x' -> rest_at s' x' pos = rest_at s x pos.
Proof.
  intros [Ef [_ Ed] Et _]. unfold StdioRd.rest_at, StdioRd.fdata. by rewrite Et, Ef, Ed.
Qed.

Lemma cutz_drop_S text l c pos r :
  cutz text (drop pos l) = c :: r -> r = cutz text (drop (S pos) l).
Proof.
  intros H. destruct (drop pos l) as [|c' l'] eqn:E; [done|]. apply drop_lookup_cons in E as [_ ->].
  simpl in H. destruct (text && (c' =? 26)); [done|]. by injection H.
Qed.

Lemma see_handle_in str s f x (Q : unit -> iost -> Prop) :
  i_files s !! f = Some x -> Q tt s -> wpi (see_handle (hooked read_hook) str f) Q s.
Proof. intros Hx HQ. unfold see_handle. rewrite no_read_hook. cbn [hooked]. io. done. Qed.

(** What getc does at [pos] *)
Definition read_back s f x (pos : nat) (r : Z) s' : Prop := exists x', rstep s x s' x' /\
  (r <> EOF -> backable x x') /\
  let '(c, n) := getc_of (textual s x) (rest_at s x pos) in
  r = c /\ (c = EOF -> has (_flag x') _IOEOF = true) /\ rd_ok s' f x' (pos + n).

Definition read_char s f x (pos : nat) (r : Z) s' : Prop := exists x', rstep s x s' x' /\
  let '(c, n) := getc_of (textual s x) (rest_at s x pos) in
  r = c /\ (c = EOF -> has (_flag x') _IOEOF = true) /\ rd_ok s' f x' (pos + n).

Lemma rest_bytes s x pos : bytes_ok (rest_at s x pos).
Proof.
  unfold StdioRd.rest_at. assert (H : bytes_ok (drop pos (fdata s x))) by apply Forall_drop, data_ok.
  induction H; simpl; [constructor|]. destruct (_ && _); by constructor.
Qed.

Lemma backable_trans x x1 x2 : backable x x1 -> backable x1 x2 -> backable x x2.
Proof.
  intros [_ H1] [E2 H2]. split; [done|]. intros Hb. destruct (H1 Hb) as [Eb _]. rewrite <- Eb in Hb |- *. by apply H2.
Qed.

Lemma getc_back s f x pos :
  rd_ok s f x pos -> f <> stdin -> wpi (__getc AUTO tb f) (read_back s f x pos) s.
Proof.
  intros Hok Hf. pose proof Hok as [Hpre _]. pose proof (r_at _ _ _ _ _ Hpre) as Hx. unfold __getc.
  apply wpi_bind. eapply see_handle_in; [done|]. apply wpi_bind.
  eapply wpi_mono; [by apply getc_raw_spec|]. cbv beta. intros r s1 (x1 & Hst1 & Hres).
  pose proof (rest_bytes s x pos) as Hby. unfold read_back.
  destruct (rest_at s x pos) as [|c rest] eqn:Er; cbn [getc_of].
  - destruct Hres as (-> & He & Hok1). change (EOF =? 13) with false. cbn iota. apply wpi_bind, wpi_ret, wpi_ret. exists x1. split; [done|]. by rewrite Nat.add_0_r.
  - destruct Hres as (-> & Hok1 & Hb1). apply Forall_cons_1 in Hby as [Hc Hby]. apply wpi_bind.
    apply (wpi_mono _ (fun t s' => t = textual s x && (c =? 13) /\ s' = s1)).
    { destruct (c =? 13); [|by apply wpi_ret; rewrite andb_false_r]. eapply is_text_spec; [apply (r_at _ _ _ _ _ (proj1 Hok1))|].
      by rewrite andb_true_r, (rs_text _ _ _ _ _ _ _ Hst1). }
    intros ? ? [-> ->]. destruct (textual s x && (c =? 13)).
    2: { apply wpi_ret. exists x1. split; [done|]. rewrite Nat.add_1_r. split_and!; [done|done| |done]. unfold EOF. lia. }
    eapply wpi_mono; [by apply getc_raw_spec|]. cbv beta. intros r s2 (x2 & Hst2 & Hres). exists x2.
    split; [by eapply rstep_trans|]. rewrite (rest_at_step _ _ _ _ _ Hst1) in Hres.
    unfold StdioRd.rest_at in Hres, Er. rewrite <- (cutz_drop_S _ _ _ _ _ Er) in Hres.
    destruct rest as [|c' r'].
    + destruct Hres as (-> & ? & ?). by rewrite Nat.add_1_r.
    + destruct Hres as (-> & Hok2 & Hb2). apply Forall_cons_1 in Hby as [Hc' _].
      replace (pos + 2)%nat with (S (S pos)) by lia. split_and!; [intros _; by eapply backable_trans|done| |done]. unfold EOF. lia.
Qed.

Lemma getc_spec s f x pos :
  rd_ok s f x pos -> f <> stdin -> wpi (__getc AUTO tb f) (read_char s f x pos) s.
Proof.
  intros Hok Hf. eapply wpi_mono; [by apply getc_back|]. intros r s' (x' & Hst & _ & Hres). by exists x'.
Qed.

(** ** Blocks *)

(** Memory of the client's that may be written *)
Definition dest s x (p : Z) (n : nat) : Prop := forall a, p <= a < p + Z.of_nat n -> client_at s x a.

(** The stream is on the same file, [l] is at [p] and the rest of the client's memory is as it was. *)
Record fstep s x (p : Z) (l : list Z) s' x' : Prop := {
  fs_file : _file x' = _file x;
  fs_same : same_file (_file x) (i_os s) (i_os s');
  fs_text : textual s' x' = textual s x;
  fs_client : forall a, client_at s x a -> client_at s' x' a;
  fs_keep : forall a, client_at s x a -> a < p \/ p + Z.of_nat (length l) <= a -> i_mem s' !! a = i_mem s !! a;
  fs_at : bytes_at (i_mem s') p l }.

Lemma rstep_fstep s x s' x' p : rstep s x s' x' -> fstep s x p [] s' x'.
Proof. intros [? ? ? K]. split; try done; [intros a Ha; by apply K|intros a Ha _; by apply K]. Qed.

Lemma fstep_trans s1 x1 p l1 s2 x2 l2 s3 x3 :
  dest s1 x1 p (length l1) -> fstep s1 x1 p l1 s2 x2 -> fstep s2 x2 (p + Z.of_nat (length l1)) l2 s3 x3 ->
  fstep s1 x1 p (l1 ++ l2) s3 x3.
Proof.
  intros Hd [F1 S1 T1 C1 K1 A1] [F2 S2 T2 C2 K2 A2]. split.
  - congruence.
  - rewrite F1 in S2. by eapply same_file_trans.
  - congruence.
  - auto.
  - intros a Ha Hout. rewrite length_app in Hout. rewrite K2, K1; auto; lia.
  - apply bytes_at_app. split; [|done]. intros i b Hi. pose proof (lookup_lt_Some _ _ _ Hi).
    rewrite K2; [by apply A1| |lia]. apply C1, Hd. lia.
Qed.

Lemma dest_step s x p l s' x' q n : fstep s x p l s' x' -> dest s x q n -> dest s' x' q n.
Proof. intros Hs Hd a Ha. apply (fs_client _ _ _ _ _ _ Hs). by apply Hd. Qed.

Lemma dest_sub s x p n q k :
  dest s x p n -> p <= q -> q + Z.of_nat k <= p + Z.of_nat n -> dest s x q k.
Proof. intros Hd ? ? a Ha. apply Hd. lia. Qed.

Lemma rest_at_fstep s x p l s' x' pos : fstep s x p l s' x' -> rest_at s' x' pos = rest_at s x pos.
Proof.
  intros [Ef [_ Ed] Et _ _ _]. unfold StdioRd.rest_at, StdioRd.fdata. by rewrite Et, Ef, Ed.
Qed.

Lemma cutz_drop t l k : forall pos,
  (k <= length (cutz t (drop pos l)))%nat -> cutz t (drop (pos + k) l) = drop k (cutz t (drop pos l)).
Proof.
  induction k as [|k IH]; intros pos Hk; [by rewrite Nat.add_0_r|].
  destruct (cutz t (drop pos l)) as [|c r] eqn:E; [simpl in Hk; lia|].
  pose proof (cutz_drop_S _ _ _ _ _ E) as Er. subst r. simpl in Hk |- *.
  rewrite <- IH by lia. do 2 f_equal. lia.
Qed.

Lemma rest_at_drop s x pos k :
  (k <= length (rest_at s x pos))%nat -> rest_at s x (pos + k) = drop k (rest_at s x pos).
Proof. apply cutz_drop. Qed.

(** Writing to the client's memory *)
Definition wmem s (p : Z) (l : list Z) : iost := put_mem s (write_bytes (i_mem s) p l).

Lemma wmem_mapped s p l a : is_Some (i_mem s !! a) -> is_Some (i_mem (wmem s p l) !! a).
Proof.
  intros H. simpl. rewrite lookup_write_bytes. case_decide; [|done]. apply lookup_lt_is_Some_2. lia.
Qed.

Lemma wmem_step s x p l : dest s x p (length l) -> fstep s x p l (wmem s p l) x.
Proof.
  intros Hd. split; try done.
  - intros a (H & ?). split; [by apply wmem_mapped|done].
  - intros a _ Hout. by apply lookup_write_bytes_out.
  - apply bytes_at_write.
Qed.

Lemma wmem_pre s f x p l : rd_pre s f x -> rd_pre (wmem s p l) f x.
Proof.
  intros [Hx Hr Hrw Hs He [HA Ha] Hb]. split; try done.
  - split; [done|]. by apply wmem_mapped.
  - destruct Hb as [?|(? & ? & ? & ? & Hr')]; [by left|]. right. split_and!; try done; try lia.
    intros a Hin. by apply wmem_mapped, Hr'.
Qed.

Lemma wmem_window s x p l w i :
  window s x w i -> dest s x p (length l) -> window (wmem s p l) x w i.
Proof.
  intros [Hi Hc Hn Hp Hf Ht] Hd. split; try done. intros Hb. destruct (Hp Hb) as (? & ? & Hat). split_and!; try done.
  intros k b Hk. pose proof (lookup_lt_Some _ _ _ Hk). simpl. rewrite lookup_write_bytes_out; [by apply Hat|].
  destruct (decide (p <= _base x + Z.of_nat k < p + Z.of_nat (length l))) as [Hin|]; [|lia].
  destruct (Hd _ Hin) as (_ & _ & _ & Hout). lia.
Qed.

(** [n] bytes of the buffer go to the client. *)
Lemma copy_out s f x w i p n :
  rd_pre s f x -> window s x w i -> (0 < n <= length w - i)%nat -> dest s x p n ->
  wpi (copy p (_ptr x) (Z.of_nat n)) (fun _ s' => s' = wmem s p (take n (drop i w))) s.
Proof.
  intros Hpre [Hi Hc Hn Hp [_ Hw] _] Hlen Hd.
  assert (Hb : _base x <> 0) by (intros E; specialize (Hn E); subst w; simpl in *; lia).
  destruct (Hp Hb) as (Ep & Hsz & Hat). set (l := take n (drop i w)).
  assert (Hl : length l = n) by (unfold l; rewrite length_take, length_drop; lia).
  assert (Hla : bytes_at (i_mem s) (_ptr x) l).
  { intros k b Hk. apply lookup_take_Some in Hk as [Hk _]. rewrite lookup_drop in Hk.
    rewrite Ep. replace (_base x + Z.of_nat i + Z.of_nat k) with (_base x + Z.of_nat (i + k)) by lia. by apply Hat. }
  assert (Hlok : bytes_ok l).
  { unfold l. apply Forall_take, Forall_drop. rewrite Hw. apply Forall_take, Forall_drop, data_ok. }
  unfold wpi, copy. replace (Z.of_nat n) with (Z.of_nat (length l)) by lia. rewrite memcpy_spec; [by rewrite bind_Done|done|done| |].
  - apply rng_mapped. intros a Ha. rewrite Hl in Ha. by apply Hd.
  - destruct (decide (p <= _ptr x)); [by left|]. right. rewrite Hl.
    destruct (decide (_ptr x + Z.of_nat n <= p)); [done|].
    destruct (Hd p) as (_ & _ & _ & Hout); lia.
Qed.

Definition fetched s f x (pos : nat) (p : Z) (n : nat) s' : Prop := exists x',
  let rest := rest_at s x pos in
  fstep s x p (take n rest) s' x' /\ rd_ok s' f x' (pos + Nat.min n (length rest)) /\
  ((length rest < n)%nat -> has (_flag x') _IOEOF = true).

Lemma fetched_trans s f x pos p n k s1 x1 s2 :
  (k <= n)%nat -> (k <= length (rest_at s x pos))%nat -> dest s x p n ->
  fstep s x p (take k (rest_at s x pos)) s1 x1 -> fetched s1 f x1 (pos + k) (p + Z.of_nat k) (n - k) s2 ->
  fetched s f x pos p n s2.
Proof.
  intros Hk Hkl Hd Hst (x2 & Hst2 & Hok & He). rewrite (rest_at_fstep _ _ _ _ _ _ _ Hst), rest_at_drop in * by done.
  exists x2. assert (Hlk : length (take k (rest_at s x pos)) = k) by (rewrite length_take; lia).
  rewrite length_drop in *. split_and!.
  - replace n with (k + (n - k))%nat at 1 by lia. rewrite <- take_take_drop. eapply fstep_trans; [|exact Hst|by rewrite Hlk].
    rewrite Hlk. eapply dest_sub; [done|lia|lia].
  - replace (pos + Nat.min n _)%nat with (pos + k + Nat.min (n - k) (length (rest_at s x pos) - k))%nat by lia. done.
  - intros ?. apply He. lia.
Qed.

(** *** fread *)

(** The first half of a round: the buffer is emptied and filled again. *)
Definition refill x (f ptr s : Z) : IO (Z * Z + Z) :=
  '(ptr, s) ← (if 0 <? _cnt x then
                 _ ← copy ptr (_ptr x) (_cnt x);
                 mret (ptr + _cnt x, s - _cnt x)
               else mret (ptr, s));
  c ← _filbuf AUTO tb f;
  if c =? EOF then mret (inr s)
  else _ ← stb ptr c; mret (inl (ptr + 1, s - 1)).

Lemma empty_buffer s f x w i p n :
  rd_pre s f x -> window s x w i -> dest s x p n -> _cnt x <= Z.of_nat n ->
  wpi (if 0 <? _cnt x then
         _ ← copy p (_ptr x) (_cnt x);
         mret (p + _cnt x, Z.of_nat n - _cnt x)
       else mret (p, Z.of_nat n))
    (fun r s' => r = (p + _cnt x, Z.of_nat n - _cnt x) /\ s' = wmem s p (drop i w)) s.
Proof.
  intros Hpre Hw Hd Hc. pose proof Hw as [Hi Hcnt _ _ _ _]. destruct (Z.ltb_spec 0 (_cnt x)) as [Hpos|Hz].
  - apply wpi_bind. replace (_cnt x) with (Z.of_nat (length w - i)) at 1 by lia.
    eapply wpi_mono; [eapply (copy_out s f x w i p (length w - i)); try done; [lia|]|].
    { eapply dest_sub; [done|lia|lia]. }
    cbv beta. intros [] ? ->. io. split; [done|]. by rewrite take_ge by (rewrite length_drop; lia).
  - apply wpi_ret. rewrite drop_ge by lia. split; [f_equal; lia|]. unfold wmem. simpl. by destruct s.
Qed.

Lemma refill_spec s f x pos p n :
  rd_ok s f x pos -> f <> stdin -> dest s x p n -> _cnt x < Z.of_nat n ->
  wpi (refill x f p (Z.of_nat n)) (fun r s' => let rest := rest_at s x pos in
    r = inr (Z.of_nat (n - length rest)) /\ (length rest < n)%nat /\ fetched s f x pos p n s' \/
    exists k x1, (0 < k <= n)%nat /\ (k <= length rest)%nat /\ r = inl (p + Z.of_nat k, Z.of_nat (n - k)) /\
      fstep s x p (take k rest) s' x1 /\ rd_ok s' f x1 (pos + k)) s.
Proof.
  intros (Hpre & w & i & Hw & Hpos) Hf Hd Hlt. pose proof (r_at _ _ _ _ _ Hpre) as Hx.
  pose proof (window_rest _ _ _ _ _ _ Hw Hpos) as Hrest. pose proof Hw as [Hi Hcnt _ _ _ _]. cbv zeta. rewrite Hrest.
  unfold refill. apply wpi_bind. eapply wpi_mono; [eapply empty_buffer; try done; lia|]. cbv beta.
  intros ? ? [-> ->]. set (l := drop i w) in *. set (s1 := wmem s p l).
  assert (Hl : Z.of_nat (length l) = _cnt x) by (unfold l; rewrite length_drop; lia).
  assert (Hd1 : dest s x p (length l)) by (eapply dest_sub; [done|lia|lia]).
  pose proof (wmem_step s x p l Hd1) as Hst1. pose proof (wmem_pre s f x p l Hpre) as Hpre1.
  pose proof (wmem_window s x p l w i Hw Hd1) as Hw1. apply wpi_bind.
  eapply wpi_mono; [apply (filbuf_spec AUTO AUTOBUF tb s1 f x); eauto|]. cbv beta. intros r s2 (x2 & Hst2 & Hres).
  change (beyond s1 x) with (beyond s x) in Hres. change (fpos s1 x) with (fpos s x) in Hres.
  assert (Hst12 : fstep s x p l s2 x2).
  { rewrite <- (app_nil_r l). eapply fstep_trans; [done|done|]. by apply rstep_fstep. }
  replace (fpos s x) with (pos + length l)%nat in Hres by (unfold l; rewrite length_drop; lia).
  destruct (beyond s x) as [|c b] eqn:Eb.
  - destruct Hres as (-> & He & Hok2). change (EOF =? EOF) with true. cbn iota. apply wpi_ret. left.
    rewrite app_nil_r. split_and!; [do 2 f_equal; lia|lia|]. exists x2. cbv zeta. rewrite Hrest, app_nil_r.
    rewrite take_ge, Nat.min_r by lia. done.
  - destruct Hres as (-> & Hok2 & _). pose proof (rest_bytes s x pos) as Hby. rewrite Hrest in Hby.
    assert (Hc : 0 <= c < 256) by (apply Forall_app in Hby as [_ Hby]; by apply Forall_cons_1 in Hby as [? _]).
    replace (c =? EOF) with false by (unfold EOF; lia).
    assert (Hd2 : dest s2 x2 (p + _cnt x) 1) by (eapply dest_step; [done|]; eapply dest_sub; [exact Hd|lia|lia]).
    apply wpi_bind, wpi_stb; [apply Hd2; lia|]. apply wpi_ret. right. exists (S (length l)), x2.
    change (put_mem s2 _) with (wmem s2 (p + _cnt x) [byte c]). unfold byte. rewrite Z.mod_small by lia.
    split_and!; try lia; try (rewrite length_app; simpl; lia).
    + do 2 f_equal; lia.
    + rewrite firstn_app, take_ge by lia. replace (S (length l) - length l)%nat with 1%nat by lia. simpl.
      eapply fstep_trans; [done|done|]. rewrite Hl. by apply wmem_step.
    + destruct Hok2 as (Hpre2 & w2 & i2 & Hw2 & Hp2). split; [by apply wmem_pre|].
      exists w2, i2. split; [by apply wmem_window|]. change (fpos (wmem _ _ _) x2) with (fpos s2 x2). lia.
Qed.

(** The last [n] bytes are in the buffer. *)
Lemma finish_read s f x pos p n :
  rd_ok s f x pos -> dest s x p n -> Z.of_nat n <= _cnt x ->
  wpi (_ ← copy p (_ptr x) (Z.of_nat n);
       _ ← modf f (up_ptr (_ptr x + Z.of_nat n));
       _ ← modf f (up_cnt (_cnt x - Z.of_nat n));
       mret None)
    (fun r s' => r = @None Z /\ (n <= length (rest_at s x pos))%nat /\ fetched s f x pos p n s') s.
Proof.
  intros Hok Hd Hn. pose proof Hok as (Hpre & w & i & Hw & Hpos). pose proof (r_at _ _ _ _ _ Hpre) as Hx.
  pose proof (window_rest _ _ _ _ _ _ Hw Hpos) as Hrest. pose proof Hw as [Hi Hcnt Hnone Hp _ _].
  apply wpi_bind. destruct n as [|n].
  { apply copy_zero. io. split; [done|]. split; [lia|]. rewrite setf_same.
    - exists x. cbv zeta. rewrite take_0, Nat.min_0_l, Nat.add_0_r. split_and!; [|done|lia]. by split.
    - rewrite Hx. simpl. rewrite Z.add_0_r, Z.sub_0_r. by destruct x. }
  set (k := S n) in *. eapply wpi_mono; [eapply (copy_out s f x w i p k); try done; lia|]. cbv beta. intros [] ? ->.
  assert (Hx1 : i_files (wmem s p (take k (drop i w))) !! f = Some x) by done. io. split; [done|].
  assert (Hlen : (k <= length (drop i w))%nat) by (rewrite length_drop; lia).
  rewrite Hrest. split; [rewrite length_app; lia|].
  set (l := take k (drop i w)). assert (Hl : length l = k) by (unfold l; rewrite length_take; lia).
  assert (Hd1 : dest s x p (length l)) by (by rewrite Hl).
  exists (up_ptr (_ptr x + Z.of_nat k) (up_cnt (_cnt x - Z.of_nat k) x)). cbv zeta. rewrite Hrest, take_app_le by done. fold l. rewrite length_app, Nat.min_l by lia.
  assert (Hb : _base x <> 0) by (intros E; specialize (Hnone E); subst w; simpl in *; lia).
  assert (He : has (_flag x) _IOEOF = false) by (eapply rd_eof; [done|lia]).
  split_and!; [|split; [apply (rd_pre_move (wmem s p l)); [by apply wmem_pre|done]|]|lia].
  - destruct (wmem_step s x p l Hd1). by split.
  - exists w, (i + k)%nat. split; [|change (fpos (setf _ _ _) _) with (fpos s x); lia].
    pose proof (window_move (wmem s p l) f x w i (i + k) (wmem_window s x p l w i Hw Hd1) ltac:(lia) Hb) as Hm.
    destruct (Hp Hb) as (Ep & _). replace (_ptr x + Z.of_nat k) with (_base x + Z.of_nat (i + k)) by lia.
    replace (_cnt x - Z.of_nat k) with (Z.of_nat (length w) - Z.of_nat (i + k)) by lia. exact Hm.
Qed.

Lemma fread_binary_spec f fuel : forall n s x pos p,
  rd_ok s f x pos -> f <> stdin -> dest s x p n -> (n < fuel)%nat ->
  wpi (fread_binary AUTO tb fuel f p (Z.of_nat n)) (fun r s' => let rest := rest_at s x pos in
    (r = None /\ (n <= length rest)%nat \/ r = Some (Z.of_nat (n - length rest))) /\
    fetched s f x pos p n s') s.
Proof.
  induction fuel as [|fuel IH]; intros n s x pos p Hok Hf Hd Hfuel; [lia|]. cbn [fread_binary].
  pose proof (r_at _ _ _ _ _ (proj1 Hok)) as Hx.
  destruct (Z.ltb_spec 0 (Z.of_nat n)) as [Hn|Hn].
  2: { assert (n = 0%nat) as -> by lia. apply wpi_ret. split; [by right|]. exists x. cbv zeta.
       rewrite take_0, Nat.min_0_l, Nat.add_0_r. split_and!; [by split|done|lia]. }
  io1. apply wpi_bind.
  apply (wpi_mono _ (fun r s' => let rest := rest_at s x pos in
    r = inr (Z.of_nat (n - length rest)) /\ (length rest < n)%nat /\ fetched s f x pos p n s' \/
    exists k x1, (k <= n)%nat /\ (k <= length rest)%nat /\ r = inl (p + Z.of_nat k, Z.of_nat (n - k)) /\
      (0 < Z.of_nat k \/ Z.of_nat n <= _cnt x1) /\ fstep s x p (take k rest) s' x1 /\ rd_ok s' f x1 (pos + k))).
  { destruct (Z.ltb_spec (_cnt x) (Z.of_nat n)) as [Hlt|Hge].
    - eapply wpi_mono; [by apply (refill_spec s f x pos p n)|]. cbv beta zeta.
      intros r s' [?|(k & x1 & ? & ? & ? & ? & ?)]; [by left|]. right. exists k, x1. split_and!; try done; lia.
    - apply wpi_ret. right. exists 0%nat, x. rewrite Z.add_0_r, Nat.sub_0_r, Nat.add_0_r, take_0.
      split_and!; try done; try lia. }
  cbv zeta. intros ? s1 [(-> & Hlt & Hfe)|(k & x1 & Hk & Hkl & -> & Hprog & Hst1 & Hok1)].
  { apply wpi_ret. split; [by right|done]. }
  pose proof (r_at _ _ _ _ _ (proj1 Hok1)) as Hx1. io1.
  assert (Hd1 : dest s1 x1 (p + Z.of_nat k) (n - k)).
  { eapply dest_step; [done|]. eapply dest_sub; [exact Hd|lia|lia]. }
  assert (Hlen : length (rest_at s1 x1 (pos + k)) = (length (rest_at s x pos) - k)%nat).
  { rewrite (rest_at_fstep _ _ _ _ _ _ _ Hst1), rest_at_drop by done. apply length_drop. }
  destruct (Z.leb_spec (Z.of_nat (n - k)) (_cnt x1)) as [Hfit|Hmore].
  - eapply wpi_mono; [by apply (finish_read s1 f x1 (pos + k))|]. cbv beta. intros r s2 (-> & Hl2 & Hfe).
    split; [left; split; [done|lia]|]. by eapply fetched_trans.
  - eapply wpi_mono; [apply (IH (n - k)%nat s1 x1 (pos + k)%nat); try done; lia|]. cbv beta zeta. intros r s2 [Hr Hfe].
    split; [|by eapply fetched_trans]. rewrite Hlen in Hr.
    destruct Hr as [[-> ?]| ->]; [left; split; [done|lia]|right; do 2 f_equal; lia].
Qed.

(** [_fillsize] is of no account. *)
Lemma rd_fillsize s f x pos fs :
  rd_ok s f x pos -> (_base x <> 0 -> 0 < fs) ->
  rd_ok (setf s f (up_fillsize fs x)) f (up_fillsize fs x) pos /\
  rstep s x (setf s f (up_fillsize fs x)) (up_fillsize fs x).
Proof.
  intros ([Hx Hr Hrw Hs He Ha Hb] & w & i & [? ? ? ? ? ?] & Hp) Hfs. split; [|by split]. split.
  - split; try done; [apply setf_at|]. destruct Hb as [?|(? & ? & ? & ? & ?)]; [by left|right]. split_and!; try done; simpl; lia.
  - exists w, i. by split.
Qed.

Lemma grow_fill_spec f total fuel : forall s x pos,
  rd_ok s f x pos -> wpi (grow_fill fuel total f) (fun _ s' => exists x', rd_ok s' f x' pos /\ rstep s x s' x') s.
Proof.
  induction fuel as [|fuel IH]; intros s x pos Hok; cbn [grow_fill].
  { apply wpi_ret. exists x. by split. }
  pose proof Hok as [[Hx _ _ _ _ _ Hb] _]. io1.
  destruct (Z.ltb_spec (_fillsize x) total), (Z.ltb_spec (_fillsize x) (_bufsiz x)); cbn [andb].
  2-4: by apply wpi_ret; exists x; split.
  io1. destruct (rd_fillsize s f x pos (wrap_u 64 ((if _fillsize x <? 512 then 512 else _fillsize x) * 2)) Hok) as [Hok1 Hst].
  { intros Hne. destruct Hb as [?|(? & ? & ? & ? & ?)]; [done|].
    destruct (_ <? 512); rewrite wrap_u_small; lia. }
  eapply wpi_mono; [exact (IH _ _ pos Hok1)|]. cbv beta. intros [] s' (x' & ? & ?). exists x'. split; [done|].
  by eapply rstep_trans.
Qed.

(** Whole items of the [k] bytes that were read *)
Lemma items_read size count k :
  0 < size < 2 ^ 63 -> 0 <= k <= size * count -> size * count < 2 ^ 63 ->
  items size count (size * count - k) = k / size.
Proof.
  intros Hs Hk Ht. unfold items. replace (size =? 0) with false by lia.
  assert (Hc : 0 <= count < 2 ^ 63) by nia.
  rewrite (wrap_u_small 64 (size * count - k)) by lia. rewrite (wrap_u_small 64 (_ + size - 1)) by lia.
  pose proof (Z.div_mod k size ltac:(lia)) as E. pose proof (Z.mod_pos_bound k size ltac:(lia)).
  assert (Hq : (size * count - k + size - 1) / size = count - k / size).
  { symmetry. apply (Z.div_unique_pos _ _ _ (size - 1 - k mod size)); [lia|]. nia. }
  rewrite Hq. assert (0 <= k / size <= count) by (split; [apply Z.div_pos; lia|apply Z.div_le_upper_bound; lia]).
  rewrite wrap_u_small; lia.
Qed.

Lemma fread_spec fuel s f x pos p size count n :
  rd_ok s f x pos -> f <> stdin -> textual s x = false -> dest s x p n ->
  0 < size < 2 ^ 63 -> 0 <= count -> size * count = Z.of_nat n -> Z.of_nat n < 2 ^ 31 ->
  wpi (fread AUTO tb fuel p size count f) (fun r s' =>
    r = Z.of_nat (Nat.min n (length (rest_at s x pos))) / size /\ fetched s f x pos p n s') s.
Proof.
  intros Hok Hf Ht Hd Hs Hc Hn Hlt. unfold fread. apply wpi_bind.
  eapply wpi_mono; [by eapply grow_fill_spec|]. cbv beta. intros [] s1 (x1 & Hok1 & Hst1).
  pose proof (r_at _ _ _ _ _ (proj1 Hok1)) as Hx1. apply wpi_bind. eapply see_handle_in; [done|]. cbv zeta.
  apply wpi_bind. eapply is_text_spec; [done|]. rewrite (rs_text _ _ _ _ _ _ _ Hst1), Ht.
  rewrite Hn, wrap_s_small by lia. apply wpi_bind.
  pose proof (rstep_fstep _ _ _ _ p Hst1) as Hf1. pose proof (rest_at_step _ _ _ _ pos Hst1) as Hrest.
  eapply wpi_mono; [apply (fread_binary_spec f _ n s1 x1 pos); try done; [by eapply dest_step|lia]|]. cbv beta zeta.
  rewrite Hrest. intros r s2 [Hr Hfe]. apply wpi_ret. split.
  - destruct Hr as [[-> ?]| ->].
    + rewrite Nat.min_l by done. rewrite <- Hn. rewrite Z.mul_comm, Z.div_mul; lia.
    + rewrite <- (items_read size count) by lia. f_equal. lia.
  - eapply (fetched_trans _ _ _ _ _ _ 0); [lia|lia|done| |]; [|by rewrite Nat.add_0_r, Z.add_0_r, Nat.sub_0_r].
    by rewrite take_0.
Qed.

(** ** Position *)

Definition at_file s x : Prop := has (os_fd_flags (_file x) (i_os s)) FILE_DESC_DIRECTORY = false.

Lemma window_cnt s f x w i pos :
  rd_pre s f x -> window s x w i -> (pos + length w = fpos s x + i)%nat ->
  0 <= _cnt x < 2 ^ 31 /\ _cnt x = Z.of_nat (fpos s x) - Z.of_nat pos.
Proof.
  intros Hpre [Hi Hc Hn Hp _ _] Hpos. split; [|lia]. destruct (decide (_base x = 0)) as [E|E].
  - specialize (Hn E). subst w. simpl in *. lia.
  - destruct (Hp E) as (_ & ? & _). destruct (r_buf _ _ _ _ _ Hpre) as [?|(_ & _ & ? & _)]; [done|lia].
Qed.

(** Another state of the system with the same position *)
Lemma rd_os s f x pos o' :
  rd_ok s f x pos -> same_file (_file x) (i_os s) o' -> os_pos (_file x) o' = fpos s x ->
  rd_ok (put_os s o') f x pos /\ rstep s x (put_os s o') x.
Proof.
  intros ([Hx Hr Hrw Hs He Ha Hb] & w & i & [? ? ? ? Hfile Htx] & Hp) [Henv Hd] Hpos.
  assert (Ht : textual (put_os s o') x = textual s x).
  { unfold textual. simpl. by destruct (Henv (_file x)) as (_ & -> & _). }
  assert (Hfp : fpos (put_os s o') x = fpos s x) by done.
  assert (Hfd : fdata (put_os s o') x = fdata s x) by done.
  split; [split|by split].
  - split; try done. intros E. destruct (He E) as [? Hby]. split; [done|]. rewrite <- Hby. unfold StdioRd.beyond.
    by rewrite Ht, Hfp, Hfd.
  - exists w, i. rewrite Hfp. split; [|done]. split; try done; [by rewrite Hfp, Hfd|by rewrite Ht].
Qed.

Lemma ftell_spec s f x pos :
  rd_ok s f x pos -> at_file s x ->
  wpi (ftell f) (fun r s' => r = Z.of_nat pos /\ rd_ok s' f x pos /\ rstep s x s' x) s.
Proof.
  intros Hok Hat. pose proof Hok as (Hpre & w & i & Hw & Hpos). pose proof Hpre as [Hx Hr _ _ _ _ _].
  destruct (window_cnt _ _ _ _ _ _ Hpre Hw Hpos) as [Hc Hcp]. unfold ftell. io. rewrite Hat.
  replace (_cnt x <? 0) with false by lia. apply wpi_bind, wpi_ret. io1. rewrite Hr. cbn [orb]. apply wpi_bind.
  unfold wpi, lseek. destruct (os_lseek (_file x) 0 1 (i_os s)) as [r o'] eqn:E.
  apply lseek_cur in E as (Hsf & -> & Hp'); [|lia]. fold (fpos s x). rewrite wrap_s_small by lia.
  replace (_ <? 0) with false by lia. split; [lia|]. apply rd_os; [done|done|]. rewrite Hp'. unfold StdioRd.fpos. lia.
Qed.

(** *** fseek *)

Lemma rd_clear_eof s f x pos :
  rd_ok s f x pos -> let x' := not_flag _IOEOF x in
  rd_ok (setf s f x') f x' pos /\ rstep s x (setf s f x') x' /\ has (_flag x') _IOEOF = false.
Proof.
  intros ([Hx Hr Hrw Hs He Ha Hb] & w & i & [? ? ? ? ? Htx] & Hp) x'.
  assert (He' : has (_flag x') _IOEOF = false) by (unfold x'; fcbn; by flags).
  assert (Ht : textual (setf s f x') x' = textual s x).
  { unfold textual, x'. fcbn. rewrite !has_mask. by flags. }
  split_and!; [split|by split|done].
  - split; try done; [apply setf_at| | | | |]; unfold x', nbf; fcbn; flags; try done.
  - exists w, i. split; [|done]. split; try done. by rewrite Ht.
Qed.

(** After a call of lseek the buffer is empty. *)
Lemma rd_reset s f x o' :
  rd_pre s f x -> has (_flag x) _IOEOF = false -> same_file (_file x) (i_os s) o' ->
  let x' := not_flag _IOUNGETC (up_ptr (_base x) (up_cnt 0 x)) in
  let s' := setf (put_os s o') f x' in
  rd_ok s' f x' (os_pos (_file x) o') /\ rstep s x s' x' /\ has (_flag x') _IOEOF = false.
Proof.
  intros [Hx Hr Hrw Hs He Ha Hb] Heof [Henv Hd] x' s'.
  assert (Ht : textual s' x' = textual s x).
  { unfold textual, x'. fcbn. rewrite !has_mask. flags. simpl. by destruct (Henv (_file x)) as (_ & -> & _). }
  assert (He' : has (_flag x') _IOEOF = false) by (unfold x'; fcbn; by flags).
  split_and!; [split|by split|done].
  - split; try done; [apply setf_at| | | | |]; unfold x', nbf; fcbn; flags; try done. by rewrite Heof.
  - exists [], 0%nat. split; [|simpl; by rewrite !Nat.add_0_r]. split; try done.
    + simpl. intros Hne. split_and!; [lia| |done]. destruct Hb as [?|(_ & _ & ? & _)]; [done|lia].
    + split; [simpl; lia|done].
    + intros _. apply not_elem_of_nil.
Qed.

(** Where fseek goes to *)
Definition target s x (pos : nat) (off whence : Z) : Z :=
  if whence =? SEEK_SET then off
  else if whence =? SEEK_CUR then Z.of_nat pos + off
  else Z.of_nat (length (fdata s x)) + off.

Definition sought s f x (to : Z) (r : Z) s' : Prop :=
  r = 0 /\ exists x', rd_ok s' f x' (Z.to_nat to) /\ rstep s x s' x' /\ has (_flag x') _IOEOF = false.

Lemma sought_step s f x s1 x1 to r s' : rstep s x s1 x1 -> sought s1 f x1 to r s' -> sought s f x to r s'.
Proof. intros Hst (-> & x' & ? & ? & ?). split; [done|]. exists x'. split_and!; try done. by eapply rstep_trans. Qed.

(** The call of lseek *)
Lemma seek_os s f x pos off whence :
  rd_ok s f x pos -> has (_flag x) _IOEOF = false -> whence ∈ [SEEK_SET; SEEK_CUR; SEEK_END] ->
  (whence = SEEK_CUR -> _cnt x = 0) -> 0 <= target s x pos off whence ->
  wpi (x0 ← getf f;
       _ ← (if has (_flag x0) _IORW then modf f (not_flag _IOREAD) else mret tt);
       p ← lseek (_file x) off whence;
       _ ← modf f (up_cnt 0);
       _ ← modf f (up_ptr (_base x0));
       _ ← modf f (not_flag _IOUNGETC);
       mret (if p =? -1 then -1 else 0))
    (sought s f x (target s x pos off whence)) s.
Proof.
  intros (Hpre & w & i & Hw & Hpos) He Hwh Hcur Ht. pose proof Hpre as [Hx _ Hrw _ _ _ _]. io1.
  rewrite Hrw. apply wpi_bind, wpi_ret. apply wpi_bind. unfold wpi at 1, lseek.
  destruct (os_lseek (_file x) off whence (i_os s)) as [r o'] eqn:E.
  assert (Hres : same_file (_file x) (i_os s) o' /\ r = target s x pos off whence /\ os_pos (_file x) o' = Z.to_nat r).
  { destruct (window_cnt _ _ _ _ _ _ Hpre Hw Hpos) as [_ Hc].
    apply elem_of_cons in Hwh as [->|Hwh]; [|apply elem_of_cons in Hwh as [->|Hwh]; [|apply list_elem_of_singleton in Hwh as ->]].
    - apply lseek_set in E as (? & -> & ?); [|done]. done.
    - specialize (Hcur eq_refl). unfold target in Ht. simpl in Ht.
      apply lseek_cur in E as (? & -> & ?); fold (fpos s x); [|lia]. split_and!; try done. unfold target. simpl. lia.
    - apply lseek_end in E as (? & -> & ?); [|done]. done. }
  destruct Hres as (Hsf & -> & Hp'). assert (Hx1 : i_files (put_os s o') !! f = Some x) by done. io.
  replace (_ =? -1) with false by lia. split; [done|].
  destruct (rd_reset s f x o' Hpre He Hsf) as (Hok1 & Hst1 & He1). rewrite Hp' in Hok1. by eexists.
Qed.

(** A move inside of the buffer *)
Lemma seek_in_buffer s f x w i pos off :
  rd_pre s f x -> window s x w i -> (pos + length w = fpos s x + i)%nat -> has (_flag x) _IOEOF = false ->
  _base x <> 0 -> Z.of_nat pos - off <= _ptr x - _base x -> off - Z.of_nat pos <= _cnt x ->
  wpi (_ ← modf f (up_ptr (_ptr x + (off - Z.of_nat pos)));
       _ ← modf f (up_cnt (_cnt x + (Z.of_nat pos - off)));
       mret (@inr (Z * Z) Z 0))
    (fun r s' => exists v, r = inr v /\ sought s f x off v s') s.
Proof.
  intros Hpre Hw Hpos He Hb Hlo Hhi. pose proof (r_at _ _ _ _ _ Hpre) as Hx. pose proof Hw as [Hi Hc _ Hp [Hlf _] _].
  destruct (Hp Hb) as (Ep & _). io. exists 0. split; [done|]. split; [done|].
  set (j := Z.to_nat (Z.of_nat i + (off - Z.of_nat pos))). assert (Hj : (j <= length w)%nat) by lia.
  assert (Hm := window_move s f x w i j Hw Hj Hb). cbv zeta in Hm.
  replace (_base x + Z.of_nat j) with (_ptr x + (off - Z.of_nat pos)) in Hm by lia.
  replace (Z.of_nat (length w) - Z.of_nat j) with (_cnt x + (Z.of_nat pos - off)) in Hm by lia.
  set (x' := up_ptr _ _) in Hm. exists x'. split_and!; [|by split|done]. split; [by apply rd_pre_move|].
  exists w, j. split; [exact Hm|]. change (fpos (setf s f _) _) with (fpos s x). lia.
Qed.

Lemma fseek_spec s f x pos off whence :
  rd_ok s f x pos -> at_file s x -> whence ∈ [SEEK_SET; SEEK_CUR; SEEK_END] -> 0 <= target s x pos off whence ->
  wpi (fseek f off whence) (sought s f x (target s x pos off whence)) s.
Proof.
  intros Hok Hat Hwh Ht. pose proof Hok as [[Hx Hr Hrw _ _ _ Hb] _]. unfold fseek. io. rewrite Hat. io. rewrite Hr.
  destruct (rd_fillsize s f x pos 512 Hok) as [Hok1 Hst1]; [done|].
  destruct (rd_clear_eof _ _ _ _ Hok1) as (Hok2 & Hst2 & He2). rewrite setf_setf in Hok2, Hst2.
  set (x2 := not_flag _IOEOF _) in *. set (s2 := setf s f x2) in *.
  assert (Hst : rstep s x s2 x2) by (by eapply rstep_trans).
  change (target s x pos off whence) with (target s2 x2 pos off whence) in *.
  apply (wpi_mono _ (sought s2 f x2 (target s2 x2 pos off whence))); [|intros r s'; by apply sought_step].
  apply wpi_bind. change (_base x) with (_base x2). change (_file x) with (_file x2).
  destruct (Z.eqb_spec (_base x2) 0) as [E0|E0]; cbn [negb andb].
  { apply wpi_ret. apply (seek_os s2 f x2 pos off whence); try done. intros _.
    destruct Hok2 as (_ & w & i & [Hi Hc Hn _ _ _] & _). specialize (Hn E0). subst w. simpl in *. lia. }
  fold (nbf x). replace (nbf x) with false by (destruct Hb as [?|[-> _]]; done). cbn [negb].
  apply wpi_bind. eapply wpi_mono; [apply (ftell_spec s2 f x2 pos); done|]. cbv beta.
  intros ? s3 (-> & Hok3 & Hst3).
  set (wh := if whence =? SEEK_CUR then SEEK_SET else whence).
  set (to := if whence =? SEEK_CUR then off + Z.of_nat pos else off).
  replace (if whence =? SEEK_CUR then (off + Z.of_nat pos, SEEK_SET) else (off, whence)) with (to, wh)
    by (unfold to, wh; by destruct (whence =? SEEK_CUR)).
  assert (Hto : target s2 x2 pos off whence = target s3 x2 pos to wh).
  { unfold target, StdioRd.fdata. destruct (rs_same _ _ _ _ _ _ _ Hst3) as [_ ->]. unfold to, wh.
    destruct (Z.eqb_spec whence SEEK_CUR) as [->|Hne]; [simpl; lia|]. by rewrite (proj2 (Z.eqb_neq _ _) Hne). }
  rewrite Hto in *. apply (wpi_mono _ (fun r s' => match r with inr v => sought s3 f x2 (target s3 x2 pos to wh) v s' | inl q => q = (to, wh) /\ s' = s3 end)).
  - pose proof Hok3 as (Hpre3 & w & i & Hw & Hpos). pose proof (r_at _ _ _ _ _ Hpre3) as Hx3. io1.
    destruct ((wh =? SEEK_SET) && _ && _ && _) eqn:Econd; [|by apply wpi_ret].
    apply andb_true_iff in Econd as [Econd H3%Z.leb_le]. apply andb_true_iff in Econd as [Econd H2%Z.leb_le].
    apply andb_true_iff in Econd as [H1%Z.eqb_eq _].
    eapply wpi_mono; [by eapply (seek_in_buffer s3 f x2 w i pos to)|]. cbv beta. intros r s' (v & -> & Hv).
    rewrite H1. done.
  - intros [q|v] s' Hq.
    + destruct Hq as [-> ->]. eapply wpi_mono; [apply (seek_os s3 f x2 pos to wh)|]; try done.
      * unfold wh. destruct (Z.eqb_spec whence SEEK_CUR); [left|done].
      * unfold wh. destruct (Z.eqb_spec whence SEEK_CUR); [done|congruence].
      * intros r s'. by apply sought_step.
    + apply wpi_ret. by eapply sought_step.
Qed.

(** *** ungetc *)

(** The byte before the position goes back. *)
Lemma ungetc_spec s f x pos c :
  rd_ok s f x (S pos) -> has (_flag x) _IOEOF = false -> _base x <> 0 -> _ptr x <> _base x ->
  fdata s x !! pos = Some c ->
  wpi (ungetc c f) (fun r s' => r = c /\ exists x', rd_ok s' f x' pos /\ rstep s x s' x' /\ _base x' = _base x) s.
Proof.
  intros (Hpre & w & i & Hw & Hpos) He Hb Hpb Hc. pose proof Hpre as [Hx Hr _ _ _ _ Hbuf].
  pose proof Hw as [Hi Hcnt _ Hp [Hlf Ew] _]. destruct (Hp Hb) as (Ep & Hsz & Hat).
  destruct Hbuf as [?|(_ & Hb0 & _)]; [done|].
  assert (Hcb : 0 <= c < 256) by (exact (Forall_lookup_1 (fun b => 0 <= b < 256) _ _ _ (data_ok (_file x) (i_os s)) Hc)).
  destruct i as [|i]; [lia|]. assert (Hwi : w !! i = Some c).
  { rewrite Ew, lookup_take_lt by lia. rewrite lookup_drop. by replace (fpos s x - length w + i)%nat with pos by lia. }
  specialize (Hat _ _ Hwi). unfold ungetc. replace (c =? EOF) with false by (unfold EOF; lia). io1.
  rewrite has_mask, Hr. cbn [orb negb]. replace (_ptr x =? 0) with false by lia.
  replace (_base x =? 0) with false by lia. replace (_ptr x =? _base x) with false by lia. cbn [orb].
  apply wpi_bind, wpi_ret. io. replace (_ptr x - 1) with (_base x + Z.of_nat i) by lia.
  eapply wpi_bind, wpi_ldb; [exact Hat|].
  assert (Hm := window_move s f x w (S i) i Hw ltac:(lia) Hb). cbv zeta in Hm.
  replace (Z.of_nat (length w) - Z.of_nat i) with (_cnt x + 1) in Hm by lia.
  set (x1 := up_ptr _ _) in Hm |- *. set (s1 := setf s f x1).
  assert (Hpre1 : rd_pre s1 f x1) by (by apply rd_pre_move).
  assert (Hok1 : forall s' x', rd_pre s' f x' -> window s' x' w i -> fpos s' x' = fpos s x -> rd_ok s' f x' pos).
  { intros s' x' ? ? Hf'. split; [done|]. exists w, i. split; [done|lia]. }
  destruct (wrap_s 8 c =? c).
  { apply wpi_bind, wpi_ret, wpi_ret. split; [done|]. exists x1. split_and!; [by apply Hok1|by split|done]. }
  apply wpi_bind. io1.
  destruct (rd_pre_flags AUTO AUTOBUF tb s1 f x1 (_flag x1 .| _IOUNGETC) Hpre1) as [Hpre2 Hst2].
  { intros m Hin. simpl. rewrite has_or. repeat (apply elem_of_cons in Hin as [->|Hin]; [by flags|]). by apply elem_of_nil in Hin. }
  set (x2 := up_flag _ _) in Hpre2, Hst2. change (or_flag _IOUNGETC x1) with x2. set (s2 := setf s1 f x2) in *.
  change (i_mem s) with (i_mem s2) in Hat. apply wpi_stb; [by rewrite Hat|]. apply wpi_ret. unfold byte. rewrite Z.mod_small, insert_id by done.
  replace (put_mem s2 (i_mem s2)) with s2 by done.
  split; [done|]. exists x2. split_and!; [apply Hok1; [done| |done]| |done].
  - destruct Hm as [? ? ? ? ? Ht]. split; try done. by rewrite (rs_text _ _ _ _ _ _ _ Hst2).
  - apply (rstep_trans _ _ _ _ _ s1 x1); [by split|done].
Qed.

(** ** Lines *)

(** The characters that fgets takes, how many bytes they are, and whether the end was met *)
Fixpoint take_line (k : nat) (text : bool) (rest : list Z) : list Z * nat * bool :=
  match k with
  | O => ([], 0%nat, false)
  | S k' =>
      let '(c, n) := getc_of text rest in
      if c =? EOF then ([], n, true)
      else if c =? 10 then ([10], n, false)
      else let '(l, m, e) := take_line k' text (drop n rest) in (c :: l, (n + m)%nat, e)
  end.

Lemma getc_of_len text rest c n : getc_of text rest = (c, n) -> (n <= length rest)%nat.
Proof.
  unfold getc_of. destruct rest as [|b r]; [intros [= _ <-]; done|].
  destruct (text && (b =? 13)); [destruct r|]; intros [= _ <-]; simpl; lia.
Qed.

Lemma getc_of_byte text rest c n : getc_of text rest = (c, n) -> bytes_ok rest -> c = EOF \/ 0 <= c < 256.
Proof.
  intros H Hb. unfold getc_of in H. destruct Hb as [|b r Hb Hr]; [injection H as <- <-; by left|].
  destruct (text && (b =? 13)); [destruct Hr|]; injection H as <- <-; auto.
Qed.

Definition read_line s f x (pos : nat) (p : Z) (k : nat) (r : Z * Z) s' : Prop :=
  let '(l, n, e) := take_line k (textual s x) (rest_at s x pos) in
  fst r = p + Z.of_nat (length l) /\ (snd r =? EOF) = e /\ (length l <= k)%nat /\
  exists x', fstep s x p l s' x' /\ rd_ok s' f x' (pos + n).

Lemma get_line_spec f fuel : forall k s x pos p c,
  rd_ok s f x pos -> f <> stdin -> dest s x p k -> (k < fuel)%nat -> c <> EOF ->
  wpi (get_line AUTO tb fuel p (Z.of_nat k + 1) c f) (read_line s f x pos p k) s.
Proof.
  induction fuel as [|fuel IH]; intros k s x pos p c Hok Hf Hd Hk Hc; [lia|]. cbn [get_line].
  destruct k as [|k].
  { simpl. apply wpi_ret. unfold read_line. simpl. split_and!; [lia|lia|lia|]. exists x. rewrite Nat.add_0_r. by split. }
  destruct (Z.ltb_spec 0 (Z.of_nat (S k) + 1 - 1)); [|lia]. apply wpi_bind. eapply wpi_mono; [by apply getc_spec|]. cbv beta.
  intros c1 s1 (x1 & Hst1 & Hres). unfold read_line. cbn [take_line].
  destruct (getc_of (textual s x) (rest_at s x pos)) as [b n] eqn:Eg. destruct Hres as (-> & _ & Hok1).
  pose proof (getc_of_len _ _ _ _ Eg) as Hn. pose proof (getc_of_byte _ _ _ _ Eg (rest_bytes s x pos)) as Hb.
  pose proof (rstep_fstep _ _ _ _ p Hst1) as Hf1.
  destruct (Z.eqb_spec b EOF) as [->|Hne].
  { apply wpi_ret. simpl. split_and!; [lia|done|lia|]. by exists x1. }
  destruct Hb as [?|Hb]; [done|]. assert (Hd1 : dest s1 x1 p (S k)) by (by eapply dest_step).
  apply wpi_bind, wpi_stb; [apply Hd1; lia|]. unfold byte. rewrite Z.mod_small by lia.
  change (put_mem s1 _) with (wmem s1 p [b]). set (s2 := wmem s1 p [b]).
  assert (Hd2 : dest s1 x1 p 1) by (eapply dest_sub; [exact Hd1|lia|lia]).
  assert (Hf2 : fstep s x p [b] s2 x1).
  { apply (fstep_trans s x p [] s1 x1 [b]); [intros a Ha; simpl in Ha; lia|done|]. simpl. rewrite Z.add_0_r. by apply wmem_step. }
  assert (Hok2 : rd_ok s2 f x1 (pos + n)).
  { destruct Hok1 as (Hpre & w & i & Hw & Hp). split; [by apply wmem_pre|]. exists w, i. split; [by apply wmem_window|done]. }
  destruct (Z.eqb_spec b 10) as [->|Hnl].
  { apply wpi_ret. simpl. split_and!; [done|done|lia|]. by exists x1. }
  replace (Z.of_nat (S k) + 1 - 1) with (Z.of_nat k + 1) by lia.
  eapply wpi_mono; [apply (IH k s2 x1 (pos + n)%nat); try done; [|lia]|].
  { eapply dest_step; [exact Hf2|]. eapply dest_sub; [exact Hd|lia|lia]. }
  intros r s3. unfold read_line. rewrite (fs_text _ _ _ _ _ _ Hf2), (rest_at_fstep _ _ _ _ _ _ _ Hf2), rest_at_drop by done.
  destruct (take_line k _ _) as [[l m] e]. intros (Hr & He & Hl & x3 & Hf3 & Hok3). simpl. split_and!; [lia|done|lia|].
  exists x3. rewrite Nat.add_assoc. split; [|done].
  apply (fstep_trans s x p [b] s2 x1 l); [|done|done]. eapply dest_sub; [exact Hd|lia|simpl; lia].
Qed.

Lemma fgets_spec s f x pos p k :
  rd_ok s f x pos -> f <> stdin -> dest s x p (S k) ->
  wpi (fgets AUTO tb p (Z.of_nat k + 1) f) (fun r s' =>
    let '(l, n, e) := take_line k (textual s x) (rest_at s x pos) in
    let none := e && bool_decide (l = []) in
    r = (if none then 0 else p) /\
    exists x', fstep s x p (if none then [] else l ++ [0]) s' x' /\ rd_ok s' f x' (pos + n)) s.
Proof.
  intros Hok Hf Hd. unfold fgets. apply wpi_bind.
  eapply wpi_mono; [apply (get_line_spec f _ k s x pos p 0); try done; [|lia]|].
  { eapply dest_sub; [exact Hd|lia|lia]. }
  intros [cs c] s1. unfold read_line. destruct (take_line k _ _) as [[l n] e]. simpl.
  intros (-> & -> & Hl & x1 & Hf1 & Hok1).
  replace (p + Z.of_nat (length l) =? p) with (bool_decide (l = [])).
  2: { destruct l; simpl; [by rewrite Z.add_0_r, Z.eqb_refl|]. symmetry. apply Z.eqb_neq. lia. }
  destruct (e && bool_decide (l = [])) eqn:En.
  { apply wpi_ret. split; [done|]. exists x1. split; [|done].
    apply andb_true_iff in En as [_ ->%bool_decide_eq_true]. done. }
  assert (Hd1 : dest s1 x1 (p + Z.of_nat (length l)) 1).
  { eapply dest_step; [exact Hf1|]. eapply dest_sub; [exact Hd|lia|lia]. }
  apply wpi_bind, wpi_stb; [apply Hd1; lia|]. apply wpi_ret. split; [done|].
  change (put_mem s1 _) with (wmem s1 (p + Z.of_nat (length l)) [0]). exists x1. split.
  - apply (fstep_trans s x p l s1 x1 [0]); [eapply dest_sub; [exact Hd|lia|lia]|done|by apply wmem_step].
  - destruct Hok1 as (Hpre & w & i & Hw & Hp). split; [by apply wmem_pre|]. exists w, i. split; [by apply wmem_window|done].
Qed.

End In.
