(* ===== verification/StdioThms.v ===== *)
(** * Streams: the theorems

    Programs of calls on a stream refine plain byte sequences: output is what the descriptor
    receives, input is a cursor on the bytes of the file, and text that is written is read
    again. The laws on the calls below hold of a disk in memory, and some inputs show where
    the code does not do what it means to. *)

From stdpp Require Import base gmap list numbers.
From Stdlib Require Import ZArith Lia.
From S2P Require Import Prelude MemFuns NmRep Stdio StdioInv StdioWr StdioRd StdioIn.

Open Scope Z_scope.
Open Scope c_scope.

(** ** Programs of calls *)

(** [d] is what lies at [p]. *)
Inductive wop : Type :=
  | WPutc (c : Z)
  | WFwrite (p size count : Z) (d : list Z)
  | WFputs (p : Z) (d : list Z)
  | WFflush.

Inductive rop : Type :=
  | RGetc
  | RFread (p size count : Z)
  | RFgets (p n : Z)
  | RFtell
  | RFseek (off whence : Z).

(** The string at [p], of less than [n] characters *)
Fixpoint cstring (n : nat) (m : mem) (p : Z) : outcome (list Z) :=
  match n with
  | O => Done []
  | S n' => b ← load m p; if b =? 0 then Done [] else l ← cstring n' m (p + 1); Done (b :: l)
  end.

(** What is in front of the NUL *)
Fixpoint to_nul (l : list Z) : list Z :=
  match l with [] => [] | b :: l' => if b =? 0 then [] else b :: to_nul l' end.

Section Programs.
Context {SA : StdioApi} (AUTO AUTOBUF tb : Z).

Definition wexec (f : Z) (op : wop) : IO Z :=
  match op with
  | WPutc c => putc AUTO tb c f
  | WFwrite p size count _ => fwrite AUTO tb p size count f
  | WFputs p d => fputs AUTO AUTOBUF tb (S (length d)) p f
  | WFflush => fflush f
  end.

Fixpoint wrun (f : Z) (ops : list wop) : IO (list Z) :=
  match ops with
  | [] => mret []
  | op :: ops' => r ← wexec f op; rs ← wrun f ops'; mret (r :: rs)
  end.

(** What a program sees of memory after fread and fgets *)
Definition see_bytes (p : Z) (n : nat) : IO (list Z) := fun s => l ← load_bytes (i_mem s) p n; Done (l, s).
Definition see_string (p : Z) (n : nat) : IO (list Z) := fun s => l ← cstring n (i_mem s) p; Done (l, s).

Definition rexec (f : Z) (op : rop) : IO (Z * list Z) :=
  match op with
  | RGetc => c ← getc AUTO tb f; mret (c, [])
  | RFread p size count =>
      r ← fread AUTO tb 0 p size count f; l ← see_bytes p (Z.to_nat (r * size)); mret (r, l)
  | RFgets p n =>
      r ← fgets AUTO tb p n f;
      l ← (if r =? 0 then mret [] else see_string p (Z.to_nat n)); mret (r, l)
  | RFtell => r ← ftell f; mret (r, [])
  | RFseek off whence => r ← fseek f off whence; mret (r, [])
  end.

Fixpoint rrun (f : Z) (ops : list rop) : IO (list (Z * list Z)) :=
  match ops with
  | [] => mret []
  | op :: ops' => r ← rexec f op; rs ← rrun f ops'; mret (r :: rs)
  end.

End Programs.

(** ** The cursor *)

Section Cursor.
Variables (data : list Z) (text : bool).

(** One call on a file whose bytes are [data], at [pos]. None: the call is outside of what
    is promised. *)
Definition cursor (op : rop) (pos : nat) : option (Z * list Z * nat) :=
  let rest := cutz text (drop pos data) in
  match op with
  | RGetc => let '(c, n) := getc_of text rest in Some (c, [], (pos + n)%nat)
  | RFread p size count =>
      if text || negb ((0 <? size) && (size <? 2 ^ 63) && (0 <=? count) && (size * count <? 2 ^ 31)) then None
      else
        let k := Nat.min (Z.to_nat (size * count)) (length rest) in
        let r := Z.of_nat k / size in
        Some (r, take (Z.to_nat (r * size)) rest, (pos + k)%nat)
  | RFgets p n =>
      if (n <=? 0) || (p <=? 0) then None
      else
        let '(l, k, e) := take_line (Z.to_nat (n - 1)) text rest in
        if e && bool_decide (l = []) then Some (0, [], (pos + k)%nat)
        else Some (p, to_nul l, (pos + k)%nat)
  | RFtell => Some (Z.of_nat pos, [], pos)
  | RFseek off whence =>
      let to :=
        if whence =? SEEK_SET then off
        else if whence =? SEEK_CUR then Z.of_nat pos + off
        else Z.of_nat (length data) + off in
      if bool_decide (whence ∈ [SEEK_SET; SEEK_CUR; SEEK_END]) && (0 <=? to)
      then Some (0, [], Z.to_nat to) else None
  end.

Fixpoint cursor_run (ops : list rop) (pos : nat) : option (list (Z * list Z) * nat) :=
  match ops with
  | [] => Some ([], pos)
  | op :: ops' =>
      '(r, pos') ← cursor op pos;
      '(rs, pos'') ← cursor_run ops' pos';
      Some (r :: rs, pos'')
  end.

End Cursor.

(** ** Output *)

Definition chars_of (op : wop) : list Z :=
  match op with WPutc c => [byte c] | WFwrite _ _ _ d => d | WFputs _ d => d | WFflush => [] end.

Definition good_result (op : wop) (r : Z) : Prop :=
  match op with
  | WPutc c => r = byte c
  | WFwrite _ _ count _ => r = count
  | WFputs _ _ => 0 <= r
  | WFflush => r = 0
  end.

Lemma enc_app text l1 l2 : enc text (l1 ++ l2) = enc text l1 ++ enc text l2.
Proof. destruct text; [|done]. apply bind_app. Qed.

Section Out.
Context {SA : StdioApi} (AUTO AUTOBUF tb : Z) {laws : OutLaws tb}.
Implicit Types (s : iost) (x : FILE).

(** The arguments of a call are the client's. A byte 255 may not go to a line buffered
    binary stream by fwrite. *)
Definition wlegal s f x (op : wop) : Prop :=
  match op with
  | WPutc c => -128 <= c < 256
  | WFwrite p size count d => source AUTO AUTOBUF s x p d /\ 0 < size < 2 ^ 64 /\ 0 <= count < 2 ^ 64 /\
      size * count = Z.of_nat (length d) /\ Z.of_nat (length d) < 2 ^ 63 /\
      (textual s x = true \/ lbf x = false /\ f <> stdout \/ 255 ∉ d)
  | WFputs p d => source AUTO AUTOBUF s x p (d ++ [0]) /\ 0 ∉ d
  | WFflush => True
  end.

Lemma wlegal_step s f x pend l s' x' pend' op :
  wr_ok AUTO AUTOBUF s f x pend -> wr_ok AUTO AUTOBUF s' f x' pend' -> same_buf f x x' ->
  wstep AUTO AUTOBUF tb s x pend l s' x' pend' -> wlegal s f x op -> wlegal s' f x' op.
Proof.
  intros Hok Hok' Hsb Hst. pose proof (textual_step _ _ _ _ _ _ _ _ _ _ _ (proj1 Hok) (proj1 Hok') Hst) as Ht.
  destruct op; simpl; try done.
  - intros (Hsrc & ? & ? & ? & ? & Hff). rewrite Ht. split_and!; try lia; [by eapply source_step|].
    destruct Hff as [?|[[Hl Hf]|?]]; auto. right; left. split; [|done]. by apply (sb_lbf _ _ _ Hsb).
  - intros [Hsrc ?]. split; [|done]. by eapply source_step.
Qed.

Lemma wexec_spec s f x pend op :
  progress -> wr_ok AUTO AUTOBUF s f x pend -> f <> 0 -> wlegal s f x op ->
  wpi (wexec AUTO AUTOBUF tb f op) (fun r s' => good_result op r /\ exists x' pend',
    wr_ok AUTO AUTOBUF s' f x' pend' /\ same_buf f x x' /\ (op = WFflush -> pend' = []) /\
    wstep AUTO AUTOBUF tb s x pend (enc (textual s x) (chars_of op)) s' x' pend') s.
Proof.
  intros Hpr Hok Hf Hl. destruct op as [c|p size count d|p d|]; simpl in Hl |- *.
  - eapply wpi_mono; [by apply putc_spec|]. cbv beta. intros r s' (-> & x' & p' & ? & ? & ?). split; [done|]. by exists x', p'.
  - destruct Hl as (Hsrc & ? & ? & ? & ? & Hff).
    eapply wpi_mono; [apply (fwrite_spec AUTO AUTOBUF tb s f x pend p size count d); try done|].
    + intros Et El. destruct Hff as [?|[[? _]|?]]; [congruence|congruence|done].
    + cbv beta. intros r s' (-> & x' & p' & ? & ? & ?). split; [done|]. by exists x', p'.
  - destruct Hl as [Hsrc H0]. eapply wpi_mono; [apply (fputs_spec AUTO AUTOBUF tb _ s f x pend p d); try done; lia|].
    cbv beta. intros r s' (? & x' & p' & ? & ? & ?). split; [done|]. by exists x', p'.
  - eapply wpi_mono; [by apply (fflush_spec AUTO AUTOBUF tb s f x pend); [|apply Hok|]|]. cbv beta.
    intros r s' (-> & x' & [Hpre Eb Ez En El Hc Hst]). split; [done|]. exists x', []. destruct (textual s x); simpl.
    all: split_and!; try done; [split; [done|]; apply Hc, Hok|split; [done|by rewrite El]].
Qed.

Lemma wrun_spec f ops : forall s x pend,
  progress -> wr_ok AUTO AUTOBUF s f x pend -> f <> 0 -> Forall (wlegal s f x) ops ->
  wpi (wrun AUTO AUTOBUF tb f ops) (fun rs s' => Forall2 good_result ops rs /\ exists x' pend',
    wr_ok AUTO AUTOBUF s' f x' pend' /\ same_buf f x x' /\ (ops = [] -> pend' = pend) /\
    (last ops (WPutc 0) = WFflush -> pend' = []) /\
    wstep AUTO AUTOBUF tb s x pend (enc (textual s x) (ops ≫= chars_of)) s' x' pend') s.
Proof.
  induction ops as [|op ops IH]; intros s x pend Hpr Hok Hf Hl; cbn [wrun].
  { apply wpi_ret. split; [done|]. exists x, pend. split_and!; try done. destruct (textual s x); apply wstep_refl. }
  apply Forall_cons_1 in Hl as [Hl Hls]. apply wpi_bind. eapply wpi_mono; [by apply (wexec_spec s f x pend op)|].
  cbv beta. intros r s1 (Hr & x1 & p1 & Hok1 & Hsb1 & He1 & Hst1). apply wpi_bind.
  eapply wpi_mono; [apply (IH s1 x1 p1); try done|].
  { eapply Forall_impl; [|exact Hls]. intros o Ho. by apply (wlegal_step _ _ _ _ _ _ _ _ _ Hok Hok1 Hsb1 Hst1). }
  cbv beta. intros rs s2 (Hrs & x2 & p2 & Hok2 & Hsb2 & Hn2 & He2 & Hst2). apply wpi_ret. split; [by constructor|].
  exists x2, p2. split_and!; [done|by eapply same_buf_trans|done| |].
  - destruct ops as [|op' ops]; [|done]. simpl. intros ->. rewrite Hn2 by done. auto.
  - simpl. rewrite enc_app.
    replace (textual s x) with (textual s1 x1) at 2 by (by eapply textual_step; [apply Hok|apply Hok1|]).
    by eapply wstep_trans.
Qed.

(** C6. Every program of putc, fwrite, fputs and fflush on a stream that is open for output, with
    any buffer or none, runs to its end with the results that the calls promise, and at
    every point what the descriptor has received, followed by what is in the buffer, is what
    was there before, followed by the characters of the program: nothing is lost, doubled or
    out of order, whatever part of a block write takes. In a text file LF becomes CR LF.
    Behind fflush the buffer is empty. Write takes at least a byte and the seek to the end
    does not fail ([progress]), and fwrite is not used for a byte 255 on a binary stream
    that is line buffered or is stdout ([wlegal]; see fwrite_byte_255). *)
Theorem stream_output s f x pend ops :
  progress -> wr_ok AUTO AUTOBUF s f x pend -> f <> 0 -> Forall (wlegal s f x) ops ->
  exists rs s' x' pend',
    wrun AUTO AUTOBUF tb f ops s = Done (rs, s') /\ Forall2 good_result ops rs /\
    wr_ok AUTO AUTOBUF s' f x' pend' /\
    os_out (_file x) (i_os s') ++ pend' =
      os_out (_file x) (i_os s) ++ pend ++ enc (textual s x) (ops ≫= chars_of) /\
    (last ops (WPutc 0) = WFflush -> pend' = []).
Proof.
  intros Hpr Hok Hf Hl. destruct (wpi_Done _ _ _ (wrun_spec f ops s x pend Hpr Hok Hf Hl)) as (rs & s' & E & Hrs & x' & p' & Hok' & _ & _ & He & Hst).
  exists rs, s', x', p'. split_and!; try done. apply (ws_out _ _ _ _ _ _ _ _ _ _ Hst).
Qed.

(** The one round of the loop in which write takes nothing *)
Lemma put_all_error app fuel f base l s x n o' :
  i_files s !! f = Some x -> bytes_at (i_mem s) base l -> l <> [] ->
  app && has (os_fd_flags (_file x) (i_os s)) FILE_DESC_APPEND = false ->
  os_write (_file x) l (i_os s) = (n, o') -> n <= 0 ->
  wpi (put_all app (S fuel) f base (Z.of_nat (length l)))
    (fun r s' => r = false /\ s' = setf (put_os s o') f (or_flag _IOERR x)) s.
Proof.
  intros Hx Hl Hne Happ E Hn. cbn [put_all]. destruct (Z.ltb_spec 0 (Z.of_nat (length l))) as [_|?].
  2: { destruct l; [done|simpl in *; lia]. }
  apply wpi_bind. apply (wpi_mono _ (fun r s' => r = Some n /\ s' = put_os s o')).
  - unfold put_out. io1. rewrite (no_write_hook (tb_size := tb)). apply wpi_bind.
    apply (wpi_mono _ (fun r s' => r = None /\ s' = s)).
    { destruct (has (_flag x) _IOTERM); by apply wpi_ret. }
    intros ? ? [-> ->]. io1. rewrite Happ. apply wpi_bind, wpi_ret. apply wpi_bind. unfold wpi, _write.
    by rewrite Nat2Z.id, (load_bytes_spec _ _ _ Hl), bind_Done, E.
  - intros ? ? [-> ->]. destruct (Z.leb_spec n 0); [|lia].
    assert (Hx1 : i_files (put_os s o') !! f = Some x) by done. io. done.
Qed.

(** C23. Where write takes nothing of a full block, fflush returns EOF, the error flag of the
    stream is set, and the descriptor has received nothing. *)
Theorem write_error_reported s f x pend n o' :
  wr_pre AUTO AUTOBUF s f x pend -> f <> 0 -> pend <> [] ->
  has (os_fd_flags (_file x) (i_os s)) FILE_DESC_APPEND = false ->
  os_write (_file x) pend (i_os s) = (n, o') -> n <= 0 ->
  exists s' e, fflush f s = Done (EOF, s') /\ ferror f s' = Done (e, s') /\ e <> 0 /\
    os_out (_file x) (i_os s') = os_out (_file x) (i_os s).
Proof.
  intros Hpre Hf Hne Happ E Hn. pose proof (write_law _ _ _ _ _ E) as [Henv [[_ Ho]|[? _]]]; [|lia].
  pose proof (w_at _ _ _ _ _ _ Hpre) as Hx. destruct (unget_cleared AUTO AUTOBUF s f x pend (i_os s) Hpre) as [Hfl Hpre1].
  assert (Hw : wpi (fflush f) (fun r s' => r = EOF /\ i_os s' = o' /\
    exists x', i_files s' !! f = Some (or_flag _IOERR x')) s).
  { unfold fflush. destruct (Z.eqb_spec f 0); [done|]. unfold fflush1. io1. io1. rewrite Happ. apply wpi_bind, wpi_ret. io.
    set (x1 := not_flag _IOUNGETC x) in *. pose proof (w_wrt _ _ _ _ _ _ Hpre1) as Hw1. fcbn.
    destruct (w_buf _ _ _ _ _ _ Hpre) as [? ?|Hnb Hb Hz Hr Hp Hat Hlen]; [done|].
    change (_base x1) with (_base x). change (_ptr x1) with (_ptr x).
    assert (Eif : (_flag x1 .& (_IONBF .| _IOWRT) =? _IOWRT) = true).
    { change (_IONBF .| _IOWRT) with (2 ^ 1 .| 2 ^ 4). change _IOWRT with (2 ^ 4). rewrite land_eq_flag by lia.
      apply andb_true_iff. split; [apply negb_true_iff; etransitivity; [exact (Hfl _IONBF eq_refl)|exact Hnb]|exact Hw1]. }
    assert (Hpos : 0 < Z.of_nat (length pend)) by (destruct pend; [done|simpl; lia]).
    rewrite Eif. replace (_base x =? 0) with false by lia. replace (_ptr x - _base x) with (Z.of_nat (length pend)) by lia.
    rewrite (proj2 (Z.ltb_lt 0 _)) by done. cbn [andb negb]. apply wpi_bind. io.
    eapply wpi_mono; [eapply (put_all_error false _ f (_base x) pend); [apply setf_at|done|done|done|exact E|done]|].
    cbv beta. intros ? ? [-> ->]. apply wpi_ret. split_and!; [done|done|]. eexists. apply setf_at. }
  apply wpi_Done in Hw as (r & s' & Er & -> & Eo & x' & Hx').
  exists s', ((_flag x' .| _IOERR) .& _IOERR). split_and!; [done| | |by rewrite Eo].
  - unfold ferror. unfold mbind, IO_bind, getf. by rewrite Hx'.
  - assert (He : has (_flag x' .| _IOERR) _IOERR = true) by (by flags). unfold has in He.
    apply negb_true_iff, Z.eqb_neq in He. done.
Qed.

End Out.

(** ** Input *)

Section In.
Context {SA : StdioApi} (AUTO AUTOBUF tb : Z) {laws : InLaws tb}.
Implicit Types (s : iost) (x : FILE).

(** The memory that a call fills is the client's. *)
Definition rlegal s x (op : rop) : Prop :=
  match op with
  | RFread p size count => dest AUTO AUTOBUF s x p (Z.to_nat (size * count))
  | RFgets p n => dest AUTO AUTOBUF s x p (Z.to_nat n)
  | _ => True
  end.

Lemma rlegal_step s x p l s' x' op : fstep AUTO AUTOBUF tb s x p l s' x' -> rlegal s x op -> rlegal s' x' op.
Proof. intros Hst. destruct op; simpl; try done; by apply (dest_step AUTO AUTOBUF tb s x p l). Qed.

Lemma at_file_step s x p l s' x' : fstep AUTO AUTOBUF tb s x p l s' x' -> at_file s x -> at_file s' x'.
Proof.
  intros [Ef [He _] _ _ _ _]. unfold at_file. rewrite Ef. by destruct (He (_file x)) as (-> & _).
Qed.

(** A call does what the cursor does. *)
Definition follows s f x (o : Z * list Z) (pos' : nat) (r : Z * list Z) s' : Prop :=
  r = o /\ exists x' p l, rd_ok AUTO tb s' f x' pos' /\ fstep AUTO AUTOBUF tb s x p l s' x'.

Lemma cstring_spec l : forall m p n, bytes_at m p (l ++ [0]) -> (length l < n)%nat -> cstring n m p = Done (to_nul l).
Proof.
  induction l as [|b l IH]; intros m p n H Hn; (destruct n as [|n]; [lia|]); simpl in *; apply bytes_at_cons in H as [Hb H].
  - unfold load. by rewrite Hb.
  - unfold load. rewrite Hb, bind_Done. destruct (b =? 0); [done|]. by rewrite (IH m (p + 1) n H) by lia.
Qed.

Lemma take_line_length k : forall text rest, (length (take_line k text rest).1.1 <= k)%nat.
Proof.
  induction k as [|k IH]; intros text rest; cbn [take_line]; [simpl; lia|].
  destruct (getc_of text rest) as [c n]. destruct (c =? EOF); [simpl; lia|]. destruct (c =? 10); [simpl; lia|].
  specialize (IH text (drop n rest)). destruct (take_line k text (drop n rest)) as [[l m] e]. simpl in *. lia.
Qed.

Lemma fread_follows s f x pos p size count o pos' :
  rd_ok AUTO tb s f x pos -> f <> stdin -> rlegal s x (RFread p size count) ->
  cursor (fdata tb s x) (textual s x) (RFread p size count) pos = Some (o, pos') ->
  wpi (rexec AUTO tb f (RFread p size count)) (follows s f x o pos') s.
Proof.
  intros Hok Hf Hl Hcur. cbn [cursor rlegal rexec] in *. fold (rest_at tb s x pos) in Hcur.
  destruct (textual s x) eqn:Et; [done|]. cbn [orb] in Hcur.
  destruct ((0 <? size) && _ && _ && _) eqn:E; [|done]. cbn [negb] in Hcur.
  apply andb_true_iff in E as [[[Hs%Z.ltb_lt Hs2%Z.ltb_lt]%andb_true_iff Hc%Z.leb_le]%andb_true_iff Hn%Z.ltb_lt].
  set (n := Z.to_nat (size * count)) in *. assert (Hsn : size * count = Z.of_nat n) by lia.
  apply wpi_bind. eapply wpi_mono; [apply (fread_spec AUTO AUTOBUF tb 0 s f x pos p size count n); try done; lia|]. cbv beta.
  set (k := Nat.min n (length (rest_at tb s x pos))) in *. injection Hcur as <- <-.
  intros r s1 (-> & x1 & Hst & Hok1 & _). set (r := Z.of_nat k / size).
  assert (Hrk : r * size <= Z.of_nat k) by (unfold r; pose proof (Z.mul_div_le (Z.of_nat k) size); lia).
  assert (Hr0 : 0 <= r) by (apply Z.div_pos; lia).
  apply wpi_bind. unfold wpi at 1, see_bytes.
  assert (Hb : load_bytes (i_mem s1) p (Z.to_nat (r * size)) = Done (take (Z.to_nat (r * size)) (rest_at tb s x pos))).
  { assert (Hlen : length (take (Z.to_nat (r * size)) (rest_at tb s x pos)) = Z.to_nat (r * size)) by (rewrite length_take; nia).
    rewrite <- Hlen at 1. apply load_bytes_spec. intros i b Hi. apply (fs_at _ _ _ _ _ _ _ _ _ Hst).
    apply lookup_take_Some in Hi as [Hi Hlt]. apply lookup_take_Some. split; [done|]. nia. }
  rewrite Hb, bind_Done. apply wpi_ret. split; [done|]. by exists x1, p, (take n (rest_at tb s x pos)).
Qed.

Lemma fgets_follows s f x pos p n o pos' :
  rd_ok AUTO tb s f x pos -> f <> stdin -> rlegal s x (RFgets p n) ->
  cursor (fdata tb s x) (textual s x) (RFgets p n) pos = Some (o, pos') ->
  wpi (rexec AUTO tb f (RFgets p n)) (follows s f x o pos') s.
Proof.
  intros Hok Hf Hl Hcur. cbn [cursor rlegal rexec] in *. fold (rest_at tb s x pos) in Hcur.
  destruct (Z.leb_spec n 0) as [?|Hn], (Z.leb_spec p 0) as [?|Hp]; try done. cbn [orb] in Hcur.
  set (k := Z.to_nat (n - 1)) in *. assert (En : n = Z.of_nat k + 1) by lia.
  apply wpi_bind. rewrite En at 1. eapply wpi_mono; [apply (fgets_spec AUTO AUTOBUF tb s f x pos p k); try done|].
  { by replace (S k) with (Z.to_nat n) by lia. }
  cbv beta. intros r s1. pose proof (take_line_length k (textual s x) (rest_at tb s x pos)) as Hlen.
  destruct (take_line k _ _) as [[l m] e]. simpl in Hlen. destruct (e && bool_decide (l = [])).
  - intros (-> & x1 & Hst & Hok1). injection Hcur as <- <-. apply wpi_bind, wpi_ret, wpi_ret. split; [done|].
    by exists x1, p, [].
  - intros (-> & x1 & Hst & Hok1). injection Hcur as <- <-. destruct (Z.eqb_spec p 0); [lia|]. apply wpi_bind.
    unfold wpi at 1, see_string. rewrite (cstring_spec l _ p); [|by apply (fs_at _ _ _ _ _ _ _ _ _ Hst)|lia].
    rewrite bind_Done. apply wpi_ret. split; [done|]. by exists x1, p, (l ++ [0]).
Qed.

Lemma rexec_spec s f x pos op o pos' :
  rd_ok AUTO tb s f x pos -> f <> stdin -> at_file s x -> rlegal s x op ->
  cursor (fdata tb s x) (textual s x) op pos = Some (o, pos') ->
  wpi (rexec AUTO tb f op) (follows s f x o pos') s.
Proof.
  intros Hok Hf Hat Hl Hcur. destruct op as [|p size count|p n| |off whence];
    [|by eapply fread_follows|by eapply fgets_follows|..]; cbn [cursor rexec] in Hcur |- *; apply wpi_bind.
  - fold (rest_at tb s x pos) in Hcur. eapply wpi_mono; [by apply (getc_spec AUTO AUTOBUF tb s f x pos)|]. cbv beta.
    intros c s1 (x1 & Hst & Hres). destruct (getc_of _ _) as [c' n]. injection Hcur as <- <-.
    destruct Hres as (-> & _ & Hok1). apply wpi_ret. split; [done|]. exists x1, 0, []. split; [done|]. by apply rstep_fstep.
  - injection Hcur as <- <-. eapply wpi_mono; [by apply (ftell_spec AUTO AUTOBUF tb s f x pos)|]. cbv beta.
    intros r s1 (-> & Hok1 & Hst). apply wpi_ret. split; [done|]. exists x, 0, []. split; [done|]. by apply rstep_fstep.
  - fold (target tb s x pos off whence) in Hcur.
    destruct (bool_decide _ && _) eqn:E; [|done]. apply andb_true_iff in E as [Hwh%bool_decide_eq_true Ht%Z.leb_le].
    injection Hcur as <- <-. eapply wpi_mono; [by apply (fseek_spec AUTO AUTOBUF tb s f x pos off whence)|]. cbv beta.
    intros r s1 (-> & x1 & Hok1 & Hst & _). apply wpi_ret. split; [done|]. exists x1, 0, []. split; [done|]. by apply rstep_fstep.
Qed.

Lemma rrun_spec f ops : forall s x pos os pos',
  rd_ok AUTO tb s f x pos -> f <> stdin -> at_file s x -> Forall (rlegal s x) ops ->
  cursor_run (fdata tb s x) (textual s x) ops pos = Some (os, pos') ->
  wpi (rrun AUTO tb f ops) (fun rs s' => rs = os /\ exists x', rd_ok AUTO tb s' f x' pos') s.
Proof.
  induction ops as [|op ops IH]; intros s x pos os pos' Hok Hf Hat Hl Hcur; cbn [rrun cursor_run] in *.
  { injection Hcur as <- <-. apply wpi_ret. split; [done|]. by exists x. }
  apply Forall_cons_1 in Hl as [Hl Hls]. destruct (cursor _ _ op pos) as [[o p1]|] eqn:E1; [|done]. simpl in Hcur.
  destruct (cursor_run _ _ ops p1) as [[os1 p2]|] eqn:E2; [|done]. injection Hcur as <- <-.
  apply wpi_bind. eapply wpi_mono; [by apply (rexec_spec s f x pos op o p1)|]. intros r s1 (-> & x1 & q & l & Hok1 & Hst).
  apply wpi_bind. eapply wpi_mono; [apply (IH s1 x1 p1 os1 p2); try done|].
  - by eapply at_file_step.
  - eapply Forall_impl; [|exact Hls]. intros o' Ho. by apply (rlegal_step _ _ _ _ _ _ _ Hst).
  - unfold fdata. rewrite (fs_text _ _ _ _ _ _ _ _ _ Hst), (fs_file _ _ _ _ _ _ _ _ _ Hst).
    destruct (fs_same _ _ _ _ _ _ _ _ _ Hst) as [_ ->]. done.
  - cbv beta. intros rs s2 (-> & x2 & Hok2). apply wpi_ret. split; [done|]. by exists x2.
Qed.

(** C7. Every program of getc, fread, fgets, ftell and fseek on a stream that is open for input
    gives what the cursor on the bytes of the file gives, whatever pieces read hands out and
    wherever the buffer begins and ends: ftell is the position, fseek sets it, also where it
    moves inside of the buffer only, fread gives the next bytes and the number of whole
    items, fgets the next line. The stream is not stdin; the cursor has no answer
    ([cursor] is None) to fread in text mode, where the code does not take CR away as getc
    does (getc_fread_differ_on_cr), to fread of 2 GB or more and to a seek to before the
    start. *)
Theorem stream_input s f x pos ops os pos' :
  rd_ok AUTO tb s f x pos -> f <> stdin -> at_file s x -> Forall (rlegal s x) ops ->
  cursor_run (os_data (_file x) (i_os s)) (textual s x) ops pos = Some (os, pos') ->
  exists s' x', rrun AUTO tb f ops s = Done (os, s') /\ rd_ok AUTO tb s' f x' pos'.
Proof.
  intros Hok Hf Hat Hl Hcur. destruct (wpi_Done _ _ _ (rrun_spec f ops s x pos os pos' Hok Hf Hat Hl Hcur)) as (rs & s' & E & -> & x' & Hok').
  by exists s', x'.
Qed.

(** What getc gave is given again after ungetc, and the position is the one before. *)
Theorem ungetc_then_getc s f x pos c :
  rd_ok AUTO tb s f x (S pos) -> f <> stdin -> has (_flag x) _IOEOF = false ->
  _base x <> 0 -> _ptr x <> _base x -> os_data (_file x) (i_os s) !! pos = Some c ->
  textual s x = false ->
  exists s' x', (r ← ungetc c f; d ← getc AUTO tb f; mret (r, d)) s = Done (c, c, s') /\ rd_ok AUTO tb s' f x' (S pos).
Proof.
  intros Hok Hf He Hb Hp Hc Ht.
  enough (Hw : wpi (r ← ungetc c f; d ← getc AUTO tb f; mret (r, d))
    (fun r s' => r = (c, c) /\ exists x', rd_ok AUTO tb s' f x' (S pos)) s).
  { apply wpi_Done in Hw as (r & s' & E & -> & x' & ?). by exists s', x'. }
  apply wpi_bind. eapply wpi_mono; [by apply (ungetc_spec AUTO AUTOBUF tb s f x pos c)|]. cbv beta.
  intros r s1 (-> & x1 & Hok1 & Hst1 & _). apply wpi_bind.
  eapply wpi_mono; [by apply (getc_spec AUTO AUTOBUF tb s1 f x1 pos)|]. cbv beta. intros r s2 (x2 & Hst2 & Hres).
  rewrite (rest_at_step _ _ _ _ _ _ _ _ Hst1), (rs_text _ _ _ _ _ _ _ Hst1), Ht in Hres.
  assert (Hr : rest_at tb s x pos = c :: drop (S pos) (fdata tb s x)).
  { unfold rest_at. rewrite Ht, cutz_false. by apply drop_S. }
  rewrite Hr in Hres. simpl in Hres. destruct Hres as (-> & _ & Hok2). apply wpi_ret. split; [done|]. exists x2.
  by rewrite Nat.add_1_r in Hok2.
Qed.

End In.

(** ** What was written is read *)

Lemma getc_of_enc text b d :
  0 <= b < 256 -> (text = true -> b <> 13) ->
  exists n, getc_of text (enc text (b :: d)) = (b, n) /\ drop n (enc text (b :: d)) = enc text d.
Proof.
  intros Hb H13. unfold enc. destruct text; [|by exists 1%nat]. simpl. unfold crlf at 1 3.
  destruct (Z.eqb_spec b 10) as [->|Hne]; [by exists 2%nat|].
  exists 1%nat. simpl. destruct (Z.eqb_spec b 13); [by destruct H13|done].
Qed.

Lemma cutz_enc text d : (text = true -> 26 ∉ d) -> cutz text (enc text d) = enc text d.
Proof.
  intros H. rewrite <- (app_nil_r (enc text d)) at 1. rewrite cutz_app; [by rewrite app_nil_r|].
  intros ->. specialize (H eq_refl). unfold enc. rewrite list_elem_of_bind. intros (b & Hb & Hd).
  unfold crlf in Hb. destruct (b =? 10); set_solver.
Qed.

(** getc on the cursor, again and again *)
Lemma cursor_chars data text d : forall pos,
  cutz text (drop pos data) = enc text d -> bytes_ok d -> (text = true -> 13 ∉ d) ->
  exists pos', cursor_run data text (replicate (S (length d)) RGetc) pos = Some (((fun c => (c, [])) <$> d) ++ [(EOF, [])], pos').
Proof.
  induction d as [|b d IH]; intros pos Hd Hok H13.
  - simpl. rewrite Hd. unfold enc. destruct text; simpl; eauto.
  - apply bytes_ok_cons in Hok as [Hb Hok]. destruct (getc_of_enc text b d Hb) as (n & Eg & Edrop).
    { intros Ht ->. apply (H13 Ht). left. }
    change (replicate (S (length (b :: d))) RGetc) with (RGetc :: replicate (S (length d)) RGetc).
    cbn [cursor_run cursor]. rewrite Hd, Eg. cbn [mbind option_bind].
    destruct (IH (pos + n)%nat) as (pos' & E); [|done|intros Ht Hin; apply (H13 Ht); by right|].
    + pose proof (getc_of_len _ _ _ _ Eg) as Hn. rewrite cutz_drop by (by rewrite Hd). by rewrite Hd.
    + exists pos'. rewrite E. done.
Qed.

Section Roundtrip.
Context {SA : StdioApi} (AUTO AUTOBUF tb : Z) {ol : OutLaws tb} {il : InLaws tb}.

(** C8. The characters of a program of output calls that ends in fflush are what getc gives on a
    stream that reads the file, and EOF follows. In a text file, where LF goes out as CR LF,
    this holds of characters other than CR and Ctrl-Z. The file is empty before, the reading
    stream is not stdin, and the conditions on write and on the byte 255 are those of
    [stream_output]. *)
Theorem written_is_read (s : iost) f x ops d :
  progress -> wr_ok AUTO AUTOBUF s f x [] -> f <> 0 -> Forall (wlegal AUTO AUTOBUF s f x) ops ->
  os_out (_file x) (i_os s) = [] -> d = (ops ≫= chars_of) -> bytes_ok d ->
  (textual s x = true -> (13 ∉ d) /\ (26 ∉ d)) ->
  exists rs s1, wrun AUTO AUTOBUF tb f (ops ++ [WFflush]) s = Done (rs, s1) /\
    forall (s2 : iost) g y, rd_ok AUTO tb s2 g y 0 -> g <> stdin -> at_file s2 y ->
      os_data (_file y) (i_os s2) = os_out (_file x) (i_os s1) -> textual s2 y = textual s x ->
      exists s3, rrun AUTO tb g (replicate (S (length d)) RGetc) s2 =
        Done (((fun c => (c, [])) <$> d) ++ [(EOF, [])], s3).
Proof.
  intros Hpr Hok Hf Hl Ho -> Hb Htx. assert (Hl' : Forall (wlegal AUTO AUTOBUF s f x) (ops ++ [WFflush])).
  { apply Forall_app. split; [done|]. by constructor. }
  destruct (wpi_Done _ _ _ (wrun_spec AUTO AUTOBUF tb f _ s x [] Hpr Hok Hf Hl')) as (rs & s1 & E & _ & x1 & p1 & _ & _ & _ & He & Hst).
  exists rs, s1. split; [done|]. intros s2 g y Hrd Hg Hat Hdata Ht.
  rewrite He in Hst by apply last_last. pose proof (ws_out _ _ _ _ _ _ _ _ _ _ Hst) as Hout.
  unfold fd_out in Hout. rewrite Ho, bind_app, app_nil_r in Hout. cbn in Hout. rewrite app_nil_r in Hout.
  destruct (cursor_chars (os_data (_file y) (i_os s2)) (textual s2 y) (ops ≫= chars_of) 0) as (pos' & Ec).
  - rewrite drop_0, Hdata, Hout, Ht. apply cutz_enc. intros Htt. by apply Htx.
  - done.
  - rewrite Ht. intros Htt. by apply Htx.
  - assert (Hlr : Forall (rlegal AUTO AUTOBUF s2 y) (replicate (S (length (ops ≫= chars_of))) RGetc)) by (by apply Forall_replicate).
    destruct (wpi_Done _ _ _ (rrun_spec AUTO AUTOBUF tb g _ s2 y 0 _ _ Hrd Hg Hat Hlr Ec)) as (? & s3 & E3 & -> & _).
    by exists s3.
Qed.

End Roundtrip.
