(* ===== verification/StdioTab.v ===== *)
(** * Streams: the table of FILEs

    __alloc_file gives a FILE that nobody uses and leaves the FILEs in use alone, and the
    records stay well formed. *)

From stdpp Require Import base gmap list numbers.
From Stdlib Require Import ZArith Lia.
From S2P Require Import Prelude MemFuns NmRep Stdio StdioInv StdioWr.

Open Scope Z_scope.
Open Scope c_scope.

Section Tab.
Context {SA : StdioApi} (tb : Z) {laws : OutLaws tb}.
Implicit Types (s : iost).

(** Every record has 20 FILEs at most, a FILE is listed once, and lies in mapped memory. *)
Record table_ok s : Prop := {
  t_len : Forall (fun fr => (length fr <= __FILE_REC_MAX)%nat) (i_recs s);
  t_nodup : NoDup (concat (i_recs s));
  t_files : Forall (fun f => is_Some (i_files s !! f) /\ is_Some (i_mem s !! f)) (concat (i_recs s)) }.

Definition in_use s (f : Z) (x : FILE) : Prop := i_files s !! f = Some x /\ _flag x <> 0.

(** The FILEs in use are as they were. *)
Definition keeps_used s s' : Prop :=
  forall f x, f ∈ concat (i_recs s) -> in_use s f x -> in_use s' f x /\ f ∈ concat (i_recs s').

Definition allocated s (r : Z) s' : Prop :=
  table_ok s' /\ keeps_used s s' /\
  (r = 0 \/ r ∈ concat (i_recs s') /\ (forall x, ~ (r ∈ concat (i_recs s) /\ in_use s r x)) /\
     exists x, i_files s' !! r = Some x /\ _flag x = 0).

Lemma unused_spec l s :
  Forall (fun f => is_Some (i_files s !! f) /\ is_Some (i_mem s !! f)) l ->
  wpi (unused l) (fun r s' => s' = s /\
    match r with
    | Some f => f ∈ l /\ exists x, i_files s !! f = Some x /\ _flag x = 0
    | None => True
    end) s.
Proof.
  induction l as [|f l IH]; intros Hl; cbn [unused]; [by apply wpi_ret|].
  apply Forall_cons_1 in Hl as [[[x Hx] _] Hl]. io1. destruct (Z.eqb_spec (_flag x) 0) as [E|].
  - apply wpi_ret. split; [done|]. split; [left|by exists x].
  - eapply wpi_mono; [by apply IH|]. cbv beta. intros [g|] s' [-> H]; [|done]. split; [done|].
    destruct H as [? ?]. split; [by right|done].
Qed.

Lemma table_mem s o m :
  table_ok s -> (forall a, is_Some (i_mem s !! a) -> is_Some (m !! a)) -> table_ok (put_os (put_mem s m) o).
Proof.
  intros [Hl Hn Hf] Hm. split; [done|done|]. simpl. eapply Forall_impl; [|exact Hf]. simpl. intros f [? ?]. auto.
Qed.

Lemma add_file_spec done fr rest s :
  table_ok s -> i_recs s = done ++ fr :: rest -> (length fr < __FILE_REC_MAX)%nat ->
  wpi (add_file done fr rest) (allocated s) s.
Proof.
  intros Ht Er Hlen. unfold add_file. apply wpi_bind. unfold wpi at 1, c_malloc.
  destruct (os_malloc sizeof_FILE (i_os s) (i_mem s)) as [[p o'] m'] eqn:E.
  apply (alloc_law (tb_size := tb)) in E as (_ & _ & Hm); [|done].
  destruct Hm as [[-> ->]|(Hp & Hf & l & Hlen' & ->)].
  { change (0 =? 0) with true. cbn iota. apply wpi_ret. split; [by apply table_mem|]. split; [done|by left]. }
  replace (p =? 0) with false by lia. apply wpi_bind. unfold wpi at 1, modify. apply wpi_ret.
  set (m' := write_bytes (i_mem s) p l).
  assert (Hnew : i_mem s !! p = None) by (apply Hf; unfold sizeof_FILE; lia).
  assert (Hmono : forall a, is_Some (i_mem s !! a) -> is_Some (m' !! a)).
  { intros a Ha. unfold m'. rewrite lookup_write_bytes. case_decide; [|done]. apply lookup_lt_is_Some_2. lia. }
  destruct Ht as [Hl Hn Hfs]. rewrite Er in Hl, Hn, Hfs.
  assert (Hout : p ∉ concat (done ++ fr :: rest)).
  { intros Hin%list_elem_of_In. rewrite Forall_forall in Hfs. destruct (Hfs p Hin) as [_ [v Hv]]. congruence. }
  assert (Hperm : concat (done ++ (fr ++ [p]) :: rest) ≡ₚ p :: concat (done ++ fr :: rest)).
  { rewrite !concat_app. cbn [concat]. rewrite <- !app_assoc. cbn [app]. rewrite !app_assoc. symmetry. apply Permutation_middle. }
  assert (Hat : forall f, f ∈ concat (done ++ fr :: rest) -> <[p := zero_FILE]> (i_files s) !! f = i_files s !! f).
  { intros f Hin. apply lookup_insert_ne. by intros ->. }
  split; [|split].
  - split; simpl.
    + apply Forall_app in Hl as [Hl1 Hl2]. apply Forall_cons_1 in Hl2 as [_ Hl2]. apply Forall_app. split; [done|].
      apply Forall_cons; [|done]. rewrite length_app. simpl. lia.
    + rewrite Hperm. by constructor.
    + rewrite Hperm. apply Forall_cons; [split|].
      * rewrite lookup_insert_eq. done.
      * apply rng_written. rewrite Hlen'. unfold sizeof_FILE. lia.
      * rewrite Forall_forall in Hfs |- *. intros f Hin. rewrite Hat by (by apply list_elem_of_In). destruct (Hfs f Hin). auto.
  - intros f x Hin [Hx Hfl]. rewrite Er in Hin. split; [split; [|done]|]; simpl.
    + by rewrite Hat.
    + rewrite Hperm. by right.
  - right. simpl. split_and!.
    + rewrite Hperm. left.
    + intros x [Hin _]. by rewrite Er in Hin.
    + exists zero_FILE. by rewrite lookup_insert_eq.
Qed.

Lemma allocated_trans s s1 r s' :
  (forall f, f ∈ concat (i_recs s) <-> f ∈ concat (i_recs s1)) -> i_files s1 = i_files s ->
  allocated s1 r s' -> allocated s r s'.
Proof.
  intros Hr Hf (Ht & Hk & Hres). split; [done|]. split.
  - intros f x Hin [Hx Hu]. apply Hk; [by apply Hr|]. split; [by rewrite Hf|done].
  - destruct Hres as [?|(? & Hnot & ?)]; [by left|right]. split_and!; try done.
    intros x [Hin [Hx Hu]]. apply (Hnot x). split; [by apply Hr|]. split; [by rewrite Hf|done].
Qed.

Lemma alloc_in_spec rest : forall done s,
  table_ok s -> i_recs s = done ++ rest -> wpi (alloc_in done rest) (allocated s) s.
Proof.
  induction rest as [|fr rest IH]; intros done s Ht Er; cbn [alloc_in].
  - apply wpi_bind. unfold wpi at 1, c_malloc. destruct (os_malloc _ (i_os s) (i_mem s)) as [[p o'] m'] eqn:E.
    apply (alloc_law (tb_size := tb)) in E as (_ & _ & Hm); [|done].
    assert (Hmono : forall a, is_Some (i_mem s !! a) -> is_Some (m' !! a)).
    { intros a Ha. destruct Hm as [[_ ->]|(_ & _ & l & _ & ->)]; [done|]. rewrite lookup_write_bytes.
      case_decide; [|done]. apply lookup_lt_is_Some_2. lia. }
    destruct (p =? 0).
    { apply wpi_ret. split; [by apply table_mem|]. split; [done|by left]. }
    apply wpi_bind. unfold wpi at 1, modify. rewrite app_nil_r in Er.
    destruct (table_mem s o' m' Ht Hmono) as [Hl Hn Hf]. simpl in Hl, Hn, Hf. rewrite Er in Hl, Hn, Hf.
    eapply wpi_mono; [apply (add_file_spec done [] [])|].
    + split; simpl; rewrite ?concat_app; cbn [concat]; rewrite ?app_nil_r; try done.
      apply Forall_app. split; [done|]. by repeat constructor.
    + done.
    + unfold __FILE_REC_MAX. simpl. lia.
    + intros r s'. apply allocated_trans; [|done]. intros f. simpl. rewrite Er, concat_app. cbn [concat].
      by rewrite !app_nil_r.
  - assert (Hfr : Forall (fun f => is_Some (i_files s !! f) /\ is_Some (i_mem s !! f)) fr).
    { pose proof (t_files s Ht) as H. rewrite Er, concat_app in H. apply Forall_app in H as [_ H]. cbn [concat] in H.
      by apply Forall_app in H as [? _]. }
    apply wpi_bind. eapply wpi_mono; [by apply unused_spec|]. cbv beta. intros [f|] s' [-> Hu].
    + destruct Hu as (Hin & x & Hx & E0). apply wpi_ret. split; [done|]. split; [done|]. right. split_and!.
      * rewrite Er, concat_app. apply elem_of_app. right. cbn [concat]. apply elem_of_app. by left.
      * intros y [_ [Hy Hne]]. congruence.
      * by exists x.
    + case_bool_decide as Hfull.
      * apply IH; [done|]. by rewrite <- app_assoc.
      * apply add_file_spec; [done|done|]. pose proof (t_len s Ht) as H. rewrite Er in H.
        apply Forall_app in H as [_ H]. apply Forall_cons_1 in H as [? _]. unfold __FILE_REC_MAX in *. lia.
Qed.

(** __alloc_file returns, and gives NULL or a FILE whose flags are 0: one that was listed
    and free, or a new one. No FILE in use is given out or changed, and the table stays
    well formed. *)
Theorem alloc_file_unused s :
  table_ok s -> exists r s', __alloc_file s = Done (r, s') /\ table_ok s' /\ keeps_used s s' /\
    (r = 0 \/ r ∈ concat (i_recs s') /\ (forall x, ~ (r ∈ concat (i_recs s) /\ in_use s r x)) /\
       exists x, i_files s' !! r = Some x /\ _flag x = 0).
Proof. intros Ht. exact (wpi_Done _ _ _ (alloc_in_spec (i_recs s) [] s Ht eq_refl)). Qed.

End Tab.
