(* ===== verification/StdioDisk.v ===== *)
(** * Streams on a disk in memory

    A small disk on which the laws of [StdioWr] and [StdioRd] hold, where read and write do
    a few bytes per call; the theorems at concrete programs; and inputs on which the code of
    the streams does not do what it means to. *)

From stdpp Require Import base gmap list numbers.
From Stdlib Require Import ZArith Lia.
From S2P Require Import Prelude MemFuns NmRep Stdio StdioInv StdioWr StdioRd StdioIn StdioThms StdioTab.

Open Scope Z_scope.
Open Scope c_scope.

(** ** The disk *)

(** The bytes and the position of each descriptor, and the blocks that were freed *)
Record disk := mk_disk { dk_files : gmap Z (list Z * nat); dk_freed : list Z }.

Definition dk_at (fd : Z) (o : disk) : list Z * nat := default ([], 0%nat) (dk_files o !! fd).
Definition dk_data (fd : Z) (o : disk) : list Z := byte <$> (dk_at fd o).1.
Definition dk_set (fd : Z) (v : list Z * nat) (o : disk) : disk := mk_disk (<[fd := v]> (dk_files o)) (dk_freed o).

(** Three bytes at most *)
Definition dk_read (fd n : Z) (o : disk) : Z * list Z * disk :=
  let '(l, pos) := dk_at fd o in
  let got := take (Nat.min 3 (Z.to_nat n)) (drop pos (byte <$> l)) in
  (Z.of_nat (length got), got, dk_set fd (l, (pos + length got)%nat) o).

(** Two bytes at most, at the end *)
Definition dk_write (fd : Z) (l : list Z) (o : disk) : Z * disk :=
  let '(d, pos) := dk_at fd o in
  let n := Nat.min 2 (length l) in (Z.of_nat n, dk_set fd (d ++ take n l, pos) o).

Definition dk_lseek (fd off whence : Z) (o : disk) : Z * disk :=
  let '(l, pos) := dk_at fd o in
  let to :=
    if whence =? SEEK_SET then off
    else if whence =? SEEK_CUR then Z.of_nat pos + off
    else Z.of_nat (length l) + off in
  if to <? 0 then (-1, o) else (to, dk_set fd (l, Z.to_nat to) o).

(** A file has a name of one character, which is its descriptor. *)
Definition dk_open (name flags : Z) (m : mem) (o : disk) : Z * disk :=
  match m !! name with
  | None => (-1, o)
  | Some fd => (fd, dk_set fd (if has flags O_TRUNC then [] else (dk_at fd o).1, 0%nat) o)
  end.

(** The first address behind all that is mapped *)
Definition brk_of (m : mem) : Z := map_fold (fun a _ b => Z.max (a + 1) b) 1 m.

Definition dk_malloc (n : Z) (o : disk) (m : mem) : Z * disk * mem :=
  (brk_of m, o, write_bytes m (brk_of m) (replicate (Z.to_nat n) 0)).

(** Files with an odd descriptor are text files. *)
Definition dk_api : StdioApi := {|
  os_st := disk;
  os_read := dk_read;
  os_write := dk_write;
  os_lseek := dk_lseek;
  os_close := fun _ o => (0, o);
  os_open := dk_open;
  os_dup2 := fun _ _ o => o;
  os_remove := fun _ _ o => o;
  os_isatty := fun _ _ => false;
  os_dev_info := fun _ _ => 0;
  os_fd_flags := fun _ _ => 0;
  os_modes := fun fd _ => if Z.odd fd then O_TEXT else O_BINARY;
  os_errno := fun _ => 0;
  os_set_errno := fun _ o => o;
  os_malloc := dk_malloc;
  os_free := fun p o m => (mk_disk (dk_files o) (p :: dk_freed o), m);
  read_hook := None;
  write_hook := None |}.
#[local] Existing Instance dk_api.

Lemma dk_at_set fd v o : dk_at fd (dk_set fd v o) = v.
Proof. unfold dk_at, dk_set. simpl. by rewrite lookup_insert_eq. Qed.

Lemma brk_above m a : is_Some (m !! a) -> a < brk_of m.
Proof.
  unfold brk_of. apply (map_fold_weak_ind (fun r m => is_Some (m !! a) -> a < r)).
  - intros [v Hv]. by rewrite lookup_empty in Hv.
  - intros b v m' r _ IH. rewrite lookup_insert. case_decide; [lia|]. intros Hs. specialize (IH Hs). lia.
Qed.

Lemma brk_pos m : 0 < brk_of m.
Proof.
  unfold brk_of. apply (map_fold_weak_ind (fun r m => 0 < r)); [lia|]. intros b v m' r _ IH. lia.
Qed.

Lemma dk_fresh m n : fresh_at m (brk_of m) n.
Proof.
  intros a Ha. destruct (m !! a) as [v|] eqn:E; [|done]. pose proof (brk_above m a (mk_is_Some _ _ E)). lia.
Qed.

Lemma dk_alloc n o m p o' m' :
  0 < n -> dk_malloc n o m = (p, o', m') ->
  o' = o /\ 0 < p /\ fresh_at m p n /\ exists l, Z.of_nat (length l) = n /\ m' = write_bytes m p l.
Proof.
  intros Hn [= <- <- <-]. split_and!; [done|apply brk_pos|apply dk_fresh|].
  eexists. split; [|done]. rewrite length_replicate. lia.
Qed.

#[local] Instance dk_out : OutLaws 512.
Proof.
  refine {| os_out := fun fd (o : os_st) => (dk_at fd o).1 |}; try done.
  - intros fd l o n o'. cbn [os_write dk_api]. unfold dk_write. destruct (dk_at fd o) as [d pos] eqn:E.
    assert (Hk : Nat.min 2 (length l) = 0%nat \/ (0 < Nat.min 2 (length l) <= length l)%nat) by lia.
    generalize dependent (Nat.min 2 (length l)). intros k Hk [= <- <-]. split; [done|]. rewrite dk_at_set. cbn [fst].
    destruct Hk as [->|Hk]; [left; by rewrite take_0, app_nil_r|right; rewrite Nat2Z.id; split; [lia|done]].
  - intros fd off whence o r o'. simpl. unfold dk_lseek. destruct (dk_at fd o) as [d pos] eqn:E.
    destruct (_ <? 0); intros [= <- <-]; (split; [done|]); [by rewrite E|by rewrite dk_at_set].
  - intros n o m p o' m' Hn E. apply dk_alloc in E as (-> & ? & ? & ?); [|done]. split_and!; [done|done|]. by right.
Defined.

#[local] Instance dk_in : InLaws 512.
Proof.
  refine {| os_data := fun fd (o : os_st) => dk_data fd o; os_pos := fun fd (o : os_st) => (dk_at fd o).2 |}; try done.
  - intros fd o. unfold dk_data. apply Forall_fmap, Forall_forall. intros b _. apply byte_range.
  - intros fd n o r l o' Hn. cbn [os_read dk_api]. unfold dk_read, dk_data. destruct (dk_at fd o) as [d pos] eqn:E.
    assert (Hk : (0 < Nat.min 3 (Z.to_nat n) <= Z.to_nat n)%nat) by lia.
    generalize dependent (Nat.min 3 (Z.to_nat n)). intros k Hk [= <- <- <-]. rewrite !dk_at_set. cbn [fst snd].
    set (rest := drop pos _). rewrite length_take. split_and!; try done; try lia.
    + destruct (Nat.min_spec k (length rest)) as [[_ ->]|[? ->]]; [done|]. by rewrite !take_ge by lia.
    + intros E0. apply (f_equal length) in E0. rewrite length_take in E0. simpl in E0.
      apply nil_length_inv. lia.
  - intros fd off o r o' Ht. simpl. unfold dk_lseek, dk_data. destruct (dk_at fd o) as [d pos] eqn:E. simpl.
    destruct (Z.ltb_spec off 0); [lia|]. intros [= <- <-]. by rewrite !dk_at_set.
  - intros fd off o r o' Ht. simpl in Ht |- *. unfold dk_lseek, dk_data in *. destruct (dk_at fd o) as [d pos] eqn:E.
    simpl in *. rewrite length_fmap in *. destruct (Z.ltb_spec (Z.of_nat (length d) + off) 0); [lia|].
    intros [= <- <-]. by rewrite !dk_at_set.
  - intros fd off o r o' Ht. simpl in Ht |- *. unfold dk_lseek, dk_data in *. destruct (dk_at fd o) as [d pos] eqn:E.
    simpl in *. destruct (Z.ltb_spec (Z.of_nat pos + off) 0); [lia|].
    intros [= <- <-]. by rewrite !dk_at_set.
  - intros n o m p o' m' Hn E. apply dk_alloc in E as (-> & ? & ? & ?); [|done]. split; [done|]. by right.
Defined.

Lemma dk_progress : progress.
Proof.
  split.
  - intros fd l o Hl. cbn [os_write dk_api]. unfold dk_write. destruct (dk_at fd o). cbn [fst].
    destruct l; [done|cbn [length]; lia].
  - intros fd o. cbn [os_lseek dk_api]. unfold dk_lseek. destruct (dk_at fd o) as [l pos].
    change (SEEK_END =? SEEK_SET) with false. change (SEEK_END =? SEEK_CUR) with false. cbv zeta. cbn iota.
    destruct (Z.ltb_spec (Z.of_nat (length l) + 0) 0); cbn [fst]; lia.
Qed.

(** ** Programs *)

(** The automatic variables at 999 and 20000; [text] and some room for the client at 1000 *)
Definition demo_mem (text : list Z) : mem :=
  write_bytes (write_bytes ∅ 20000 (replicate (Z.to_nat BUFSIZ) 0)) 999 (0 :: text ++ replicate 60 0).

Definition demo (text : list Z) (x : FILE) (files : gmap Z (list Z * nat)) : iost :=
  mk_io (demo_mem text) {[10 := x]} [] O_BINARY (mk_disk files []).

(** A stream as fopen leaves it *)
Definition opened (flag fd : Z) : FILE := mk_FILE 0 0 0 0 flag fd 0 0.

Lemma demo_mapped text a :
  Z.of_nat (length text) <= 1000 -> 999 <= a < 1060 + Z.of_nat (length text) \/ 20000 <= a < 20000 + BUFSIZ ->
  is_Some (demo_mem text !! a).
Proof.
  intros Hl Ha. unfold demo_mem. set (l := 0 :: text ++ replicate 60 0).
  assert (Hlen : Z.of_nat (length l) = 61 + Z.of_nat (length text)).
  { unfold l. cbn [length]. rewrite length_app, length_replicate. lia. }
  destruct (decide (999 <= a < 1060 + Z.of_nat (length text))) as [Hin|Hout].
  - apply rng_written. lia.
  - rewrite lookup_write_bytes_out by lia. apply rng_written. rewrite length_replicate. unfold BUFSIZ in *. lia.
Qed.

Lemma demo_client text x files a :
  Z.of_nat (length text) <= 1000 -> _base x = 0 -> 1000 <= a < 1060 + Z.of_nat (length text) ->
  client_at 999 20000 (demo text x files) x a.
Proof. intros Hl Hb Ha. split_and!; [apply demo_mapped; lia|lia|lia|by left]. Qed.

Lemma demo_text text x files l :
  Z.of_nat (length text) <= 1000 -> bytes_ok l -> take (length l) text = l -> _base x = 0 ->
  source 999 20000 (demo text x files) x 1000 l.
Proof.
  intros Hl Hok Ht Hb. assert (Hll : (length l <= length text)%nat).
  { apply (f_equal length) in Ht. rewrite length_take in Ht. lia. }
  split_and!; [|done|intros a Ha; apply demo_client; lia].
  simpl. unfold demo_mem. intros i b Hi.
  pose proof (bytes_at_write (write_bytes ∅ 20000 (replicate (Z.to_nat BUFSIZ) 0)) 999 (0 :: text ++ replicate 60 0) (S i) b) as H.
  replace (1000 + Z.of_nat i) with (999 + Z.of_nat (S i)) by lia. apply H. simpl.
  rewrite lookup_app_l by (apply lookup_lt_Some in Hi; lia). rewrite <- Ht in Hi. by apply lookup_take_Some in Hi as [? _].
Qed.

#[local] Opaque demo_mem.

Lemma demo_wr text fd files :
  Z.of_nat (length text) <= 1000 ->
  wr_ok 999 20000 (demo text (opened _IOWRT fd) files) 10 (opened _IOWRT fd) [].
Proof.
  intros Hl. split; [split|]; try done.
  - split_and!; [apply demo_mapped; [done|unfold BUFSIZ; lia]|lia|]. intros a Ha. apply demo_mapped; [done|lia].
  - by apply no_buffer.
Qed.

Lemma demo_rd text fd files :
  Z.of_nat (length text) <= 1000 -> (dk_at fd (mk_disk files [])).2 = 0%nat ->
  rd_ok 999 512 (demo text (opened _IOREAD fd) files) 10 (opened _IOREAD fd) 0.
Proof.
  intros Hl Hp. split; [split|]; try done.
  - split; [lia|]. apply demo_mapped; [done|lia].
  - by left.
  - exists [], 0%nat. split; [|unfold fpos; simpl; by rewrite Hp]. split; try done; [split; [simpl; lia|done]|].
    intros _. apply not_elem_of_nil.
Qed.

(** hi LF *)
Definition hi : list Z := [104; 105; 10].

Definition out_prog : list wop := [WPutc 72; WFputs 1000 hi; WFwrite 1000 1 3 hi; WFflush].

Lemma out_prog_legal fd ops :
  incl ops out_prog ->
  Forall (wlegal 999 20000 (demo (hi ++ [0]) (opened _IOWRT fd) ∅) 10 (opened _IOWRT fd)) ops.
Proof.
  intros Hi. apply (incl_Forall Hi).
  assert (Hs : forall l, take (length l) (hi ++ [0]) = l -> bytes_ok l ->
    source 999 20000 (demo (hi ++ [0]) (opened _IOWRT fd) ∅) (opened _IOWRT fd) 1000 l).
  { intros l Ht Hb. apply demo_text; [simpl; lia|done|done|done]. }
  assert (Hb : bytes_ok hi) by (repeat constructor; lia).
  apply Forall_cons; [cbn [wlegal]; lia|]. apply Forall_cons.
  { split; [|unfold hi; set_solver]. apply Hs; [done|]. apply Forall_app. split; [done|]. repeat constructor; lia. }
  apply Forall_cons; [|by apply Forall_cons].
  cbn [wlegal]. split_and!; try lia; [by apply Hs|unfold hi; simpl; lia|unfold hi; simpl; lia|]. right. left. split; [done|].
  unfold stdout. lia.
Qed.

Lemma stream_output_witness :
  exists rs s', wrun 999 20000 512 10 out_prog (demo (hi ++ [0]) (opened _IOWRT 5) ∅) = Done (rs, s') /\
    Forall2 good_result out_prog rs /\ (dk_at 5 (i_os s')).1 = [72; 104; 105; 13; 10; 104; 105; 13; 10].
Proof.
  destruct (stream_output 999 20000 512 (demo (hi ++ [0]) (opened _IOWRT 5) ∅) 10 (opened _IOWRT 5) [] out_prog)
    as (rs & s' & x' & p' & E & Hr & _ & Ho & He).
  - apply dk_progress.
  - apply demo_wr. simpl. lia.
  - done.
  - apply out_prog_legal, incl_refl.
  - exists rs, s'. split_and!; [done|done|]. rewrite He in Ho by done. rewrite app_nil_r in Ho. exact Ho.
Defined.

(** A disk that takes nothing *)
Definition full_api : StdioApi := {|
  os_st := disk;
  os_read := dk_read;
  os_write := fun _ _ o => (0, o);
  os_lseek := dk_lseek;
  os_close := fun _ o => (0, o);
  os_open := dk_open;
  os_dup2 := fun _ _ o => o;
  os_remove := fun _ _ o => o;
  os_isatty := fun _ _ => false;
  os_dev_info := fun _ _ => 0;
  os_fd_flags := fun _ _ => 0;
  os_modes := fun fd _ => if Z.odd fd then O_TEXT else O_BINARY;
  os_errno := fun _ => 0;
  os_set_errno := fun _ o => o;
  os_malloc := dk_malloc;
  os_free := fun p o m => (mk_disk (dk_files o) (p :: dk_freed o), m);
  read_hook := None;
  write_hook := None |}.

#[local] Instance full_out : OutLaws (SA := full_api) 512.
Proof.
  refine {| os_out := fun fd (o : os_st (StdioApi := full_api)) => (dk_at fd o).1 |}; try done.
  - intros fd l o n o'. cbn [os_write full_api]. intros [= <- <-]. split; [done|]. by left.
  - intros fd off whence o r o'. cbn [os_lseek full_api]. unfold dk_lseek. destruct (dk_at fd o) as [d pos] eqn:E.
    destruct (_ <? 0); intros [= <- <-]; (split; [done|]); [by rewrite E|by rewrite dk_at_set].
  - intros n o m p o' m' Hn E. apply dk_alloc in E as (-> & ? & ? & ?); [|done]. split_and!; [done|done|]. by right.
Defined.

(** A stream with [n] characters of the room at 1000 in its buffer *)
Definition pending (n : Z) : FILE := mk_FILE (60 - n) (1000 + n) 1000 60 _IOWRT 4 0 60.

Lemma pending_pre text files :
  Z.of_nat (length text) <= 60 -> bytes_ok text ->
  wr_pre (SA := full_api) 999 20000
    (mk_io (SA := full_api) (demo_mem text) {[10 := pending (Z.of_nat (length text))]} [] O_BINARY files)
    10 (pending (Z.of_nat (length text))) text.
Proof.
  intros Hl Hok. split; [apply lookup_singleton_eq|done|done|done| |].
  - split_and!; [apply demo_mapped; unfold BUFSIZ; lia|lia|]. intros a Ha. apply demo_mapped; lia.
  - apply in_buffer; cbn [_base _bufsiz _ptr pending i_mem]; try lia; [done| | |].
    + intros a Ha. apply demo_mapped; lia.
    + apply (demo_text text (opened _IOWRT 4) ∅ text); [lia|done|apply firstn_all|done].
    + change (lbf (pending _)) with false. cbn iota. lia.
Qed.

Lemma write_error_reported_witness :
  exists s' e, fflush (SA := full_api) 10 (mk_io (SA := full_api) (demo_mem hi) {[10 := pending 3]} [] O_BINARY (mk_disk ∅ [])) = Done (EOF, s') /\
    ferror (SA := full_api) 10 s' = Done (e, s') /\ e <> 0 /\ (dk_at 4 (i_os s')).1 = [].
Proof.
  destruct (write_error_reported (SA := full_api) 999 20000 512
    (mk_io (SA := full_api) (demo_mem hi) {[10 := pending 3]} [] O_BINARY (mk_disk ∅ [])) 10 (pending 3) hi 0 (mk_disk ∅ []))
    as (s' & e & E1 & E2 & Hne & Ho).
  - apply (pending_pre hi); [simpl; lia|repeat constructor; lia].
  - done.
  - done.
  - reflexivity.
  - reflexivity.
  - done.
  - exists s', e. split_and!; [exact E1|exact E2|exact Hne|exact Ho].
Defined.

(** *** Input *)

Definition abc : list Z := [97; 98; 99; 10; 100; 101; 102; 103; 104].

Definition in_prog : list rop :=
  [RGetc; RFread 1000 2 2; RFtell; RFseek (-3) SEEK_CUR; RGetc; RFgets 1000 10; RFgets 1000 3; RFseek 0 SEEK_END; RGetc].

Definition in_disk (l : list Z) : gmap Z (list Z * nat) := {[4 := (l, 0%nat)]}.

Lemma in_prog_legal : Forall (rlegal 999 20000 (demo [] (opened _IOREAD 4) (in_disk abc)) (opened _IOREAD 4)) in_prog.
Proof.
  unfold in_prog. repeat apply Forall_cons; try exact I; [| | |apply Forall_nil].
  all: intros a Ha; apply demo_client; [simpl; lia|done|simpl in *; lia].
Qed.

Lemma stream_input_witness :
  exists s' x', rrun 999 512 10 in_prog (demo [] (opened _IOREAD 4) (in_disk abc)) =
    Done ([(97, []); (2, [98; 99; 10; 100]); (5, []); (0, []); (99, []); (1000, [10]); (1000, [100; 101]);
           (0, []); (-1, [])], s') /\ rd_ok 999 512 s' 10 x' 9.
Proof.
  apply (stream_input 999 20000 512 (demo [] (opened _IOREAD 4) (in_disk abc)) 10 (opened _IOREAD 4) 0 in_prog).
  - apply demo_rd; [simpl; lia|done].
  - done.
  - done.
  - apply in_prog_legal.
  - vm_compute. reflexivity.
Defined.

Lemma written_is_read_witness :
  exists rs s1, wrun 999 20000 512 10 (take 3 out_prog ++ [WFflush]) (demo (hi ++ [0]) (opened _IOWRT 5) ∅) = Done (rs, s1) /\
    forall s2 g y, rd_ok 999 512 s2 g y 0 -> g <> stdin -> at_file s2 y ->
      dk_data (_file y) (i_os s2) = (dk_at 5 (i_os s1)).1 -> textual s2 y = true ->
      exists s3, rrun 999 512 g (replicate 8 RGetc) s2 =
        Done ([(72, []); (104, []); (105, []); (10, []); (104, []); (105, []); (10, []); (-1, [])], s3).
Proof.
  destruct (written_is_read 999 20000 512 (demo (hi ++ [0]) (opened _IOWRT 5) ∅) 10 (opened _IOWRT 5) (take 3 out_prog) (72 :: hi ++ hi))
    as (rs & s1 & E & Hrd).
  - apply dk_progress.
  - apply demo_wr. simpl. lia.
  - done.
  - apply out_prog_legal. intros op Hop. simpl in *. tauto.
  - done.
  - done.
  - repeat constructor; lia.
  - intros _. unfold hi. split; set_solver.
  - exists rs, s1. split; [exact E|]. intros s2 g y Hok Hg Hat Hd Ht. exact (Hrd s2 g y Hok Hg Hat Hd Ht).
Defined.

(** [b] was read, [c] is in the buffer at 1000. *)
Definition halfway : iost :=
  mk_io (SA := dk_api) (demo_mem abc) {[10 := mk_FILE 1 1002 1000 60 _IOREAD 4 0 60]} [] O_BINARY (mk_disk {[4 := (abc, 3%nat)]} []).

Lemma ungetc_then_getc_witness :
  exists s' x', (r ← ungetc 98 10; d ← getc 999 512 10; mret (r, d))
    halfway =
    Done (98, 98, s') /\ rd_ok 999 512 s' 10 x' 2.
Proof.
  apply (ungetc_then_getc 999 20000 512 halfway
    10 (mk_FILE 1 1002 1000 60 _IOREAD 4 0 60) 1 98).
  - split.
    + split; [apply lookup_singleton_eq|done|done|done|done| |].
      * split; [lia|]. apply demo_mapped; [simpl; lia|lia].
      * right. cbn [_base _bufsiz _fillsize]. split_and!; try done. intros a Ha. apply demo_mapped; simpl in *; lia.
    + exists (take 3 abc), 2%nat. split; [|done]. split; try done.
      * simpl. lia.
      * intros _. cbn [_ptr _base _bufsiz i_mem]. split_and!; [done|done|].
        apply (demo_text abc (opened _IOREAD 4) ∅ (take 3 abc)); [simpl; lia|repeat constructor; lia|done|done].
  - done.
  - done.
  - done.
  - done.
  - done.
  - done.
Defined.

(** *** The table *)

(** One FILE, in use *)
Definition one_file : iost :=
  mk_io (SA := dk_api) (demo_mem []) {[1000 := opened _IOWRT 4]} [[1000]] O_BINARY (mk_disk ∅ []).

Lemma alloc_file_unused_witness :
  exists r s', __alloc_file one_file = Done (r, s') /\ table_ok s' /\ r <> 1000 /\
    i_files s' !! 1000 = Some (opened _IOWRT 4).
Proof.
  assert (Hu : in_use one_file 1000 (opened _IOWRT 4)) by (split; [reflexivity|discriminate]).
  assert (Hin : 1000 ∈ concat (i_recs one_file)) by left.
  destruct (alloc_file_unused 512 one_file) as (r & s' & E & Ht & Hk & Hr).
  - split; cbn [i_recs i_files i_mem one_file concat app].
    + apply Forall_cons; [unfold __FILE_REC_MAX; cbn [length]; lia|apply Forall_nil].
    + apply NoDup_singleton.
    + apply Forall_cons; [|apply Forall_nil]. split; [by exists (opened _IOWRT 4)|]. apply demo_mapped; cbn [length]; lia.
  - exists r, s'. split; [exact E|]. split; [exact Ht|]. clear E. split.
    + destruct Hr as [->|(_ & Hnot & _)]; [discriminate|]. intros ->. apply (Hnot (opened _IOWRT 4)). by split.
    + apply (Hk 1000 (opened _IOWRT 4) Hin Hu).
Defined.

(** ** Concrete runs *)

(** The value that a program gives; None: it does not come to its end. *)
Definition value {A} (c : IO A) (s : iost) : option A :=
  match c s with Done (a, _) => Some a | Fail _ => None end.

(** [m] with a NUL: the file [A], the modes [w] and [r], hi LF *)
Definition shell : iost :=
  mk_io (SA := dk_api) (demo_mem ([65; 0; 119; 0; 114; 0] ++ hi ++ [0])) ∅ [] O_TEXT (mk_disk ∅ []).

(** fopen, fputs and fclose, and the file is read again by fopen and fgets. *)
Example file_session :
  value (f ← fopen 1000 1002;
         r ← fputs 999 20000 512 9 1006 f;
         c ← fclose f;
         o ← ask (dk_at 65);
         g ← fopen 1000 1004;
         p ← fgets 999 512 1020 10 g;
         l ← see_string 1020 10;
         q ← fgets 999 512 1020 10 g;
         e ← feof g;
         mret (r, c, o.1, bool_decide (f = g), p, l, q, e)) shell =
  Some (10, 0, [104; 105; 13; 10], true, 1020, hi, 0, _IOEOF).
Proof. vm_compute. reflexivity. Qed.

(** A line buffer of [n] bytes at 1000 + [k] *)
Definition line_buffer (k n : Z) (fd : Z) : FILE := mk_FILE 0 (1000 + k) (1000 + k) n (_IOWRT .| _IOLBF) fd 0 n.

(** _flsbuf returns the character it is given, and fwrite gives it a char: the byte 255 is
    taken for EOF where it fills a line buffer. Both bytes go out, and fwrite says that it
    wrote one; no error is set. *)
Theorem fwrite_byte_255 :
  value (r ← fwrite 999 512 1000 1 2 10; e ← ferror 10; o ← ask (dk_at 4); mret (r, e, o.1))
    (demo [65; 255] (line_buffer 10 2 4) ∅) = Some (1, 0, [65; 255]).
Proof. vm_compute. reflexivity. Qed.

(** ftell sets the count of a line buffered stream to 0, and the next fwrite takes the
    whole size of the buffer for room: it writes behind the end of it. The buffer is at
    1010, four bytes long; the two bytes that follow are not the stream's. *)
Theorem ftell_breaks_line_buffer :
  value (_ ← fwrite 999 512 1000 1 3 10; t ← ftell 10; _ ← fwrite 999 512 1000 1 3 10; l ← see_bytes 1014 2; mret (t, l))
    (demo [97; 98; 99] (line_buffer 10 4 4) ∅) = Some (3, [98; 99]).
Proof. vm_compute. reflexivity. Qed.

(** setvbuf leaves _IOMYBUF set when a buffer of the caller's takes the place of one that
    the stream allocated: fclose frees the caller's buffer at 1010. *)
Theorem setvbuf_frees_user_buffer :
  value (_ ← putc 999 512 97 10; b ← getf 10; _ ← setvbuf 10 1010 _IOFBF 8; _ ← fclose 10; o ← ask dk_freed; mret (_base b, o))
    (demo [] (opened _IOWRT 4) ∅) = Some (36384, [1010; 36384]).
Proof. vm_compute. reflexivity. Qed.

(** ungetc leaves _IOEOF set. fread copies the character that was pushed back and calls
    _filbuf, which returns at once and leaves [_cnt] and [_ptr] as they were, so that the
    character is read again. *)
Theorem ungetc_at_eof_doubled :
  value (a ← getc 999 512 10; e ← getc 999 512 10; _ ← ungetc 97 10;
         r ← fread 999 512 9 1000 1 2 10; l ← see_bytes 1000 2; c ← getc 999 512 10; mret (a, e, r, l, c))
    (demo [] (opened _IOREAD 4) (in_disk [97])) = Some (97, -1, 1, [97; 0], 97).
Proof. vm_compute. reflexivity. Qed.

(** getc leaves out one CR in front of any character, fread every CR. *)
Theorem getc_fread_differ_on_cr :
  value (a ← getc 999 512 10; b ← getc 999 512 10; c ← getc 999 512 10; mret [a; b; c])
    (demo [] (opened _IOREAD 5) {[5 := ([97; 13; 13; 10], 0%nat)]}) = Some [97; 13; 10] /\
  value (r ← fread 999 512 9 1000 1 3 10; l ← see_bytes 1000 3; mret (r, l))
    (demo [] (opened _IOREAD 5) {[5 := ([97; 13; 13; 10], 0%nat)]}) = Some (2, [97; 10; 0]).
Proof. split; vm_compute; reflexivity. Qed.

(** The list of the streams is one for all programs, and __setup_file_rec_list of the next
    program to start drops every record but the first and all that it held: what the program
    before has in the buffer of a file that it opened does not go out at its exit. *)
Definition std_files : gmap Z FILE :=
  {[stdin := stdin_init; stdout := stdout_init; stderr := stderr_init; stdprn := stdprn_init; stdaux := stdaux_init]}.
Definition boot : iost :=
  mk_io (SA := dk_api) (demo_mem ([65; 0; 119; 0; 114; 0] ++ hi ++ [0])) std_files [] O_TEXT (mk_disk ∅ []).

Theorem start_drops_streams (again : bool) :
  value (_ ← __setup_file_rec_list;
         f ← fopen 1000 1002;
         _ ← fputs 999 20000 512 9 1006 f;
         _ ← (if again then __setup_file_rec_list else mret tt);
         _ ← __stdio_cleanup_proc;
         o ← ask (dk_at 65);
         mret o.1) boot = Some (if again then [] else [104; 105; 13; 10]).
Proof. destruct again; vm_compute; reflexivity. Qed.

(** fclose takes the descriptor of the FILE before it compares the pointer with NULL. *)
Theorem fclose_null_faults (s : iost) : i_files s !! 0 = None -> fclose 0 s = Fail UB.
Proof. intros E. unfold fclose, mbind, IO_bind, getf. by rewrite E. Qed.
