(* ===== verification/Doprnt.v ===== *)
(** * printf

    src/src/libc/ansi/stdio/doprnt.c with the functions of the printf family over it. The
    characters go to a stream by putc. The format and the strings lie in byte memory, the
    digits of a number in a buffer of the function's own. [va_list] is an array type, so
    that a function that is given one advances the caller's: the arguments are threaded
    through.

    Floating point conversions are a parameter: the text, with its thousands separators, the
    flags and the sign that lines 343 to 428 of _doprnt arrive at. *)

From stdpp Require Import base gmap list numbers.
From Stdlib Require Import ZArith Lia.
From S2P Require Import Prelude Ctype MemFuns Strings NMalloc Stdio.

Open Scope Z_scope.
Open Scope c_scope.

Definition LONGINT : Z := 0x0001.
Definition LONGDBL : Z := 0x0002.
Definition SHORTINT : Z := 0x0004.
Definition CHARINT : Z := 0x0008.
Definition FLOAT : Z := 0x0010.
Definition FINITENUMBER : Z := 0x0020.
Definition ALT : Z := 0x0040.
Definition LADJUST : Z := 0x0080.
Definition ZEROPAD : Z := 0x0100.
Definition HEXPREFIX : Z := 0x0200.
Definition GROUPING : Z := 0x0400.
Definition UPPERCASE : Z := 0x0800.

Definition INT_MAX : Z := 2147483647.
Definition CHAR_MAX : Z := 127.
Definition EFBIG : Z := 12.

(** (null) *)
Definition NULL_REP : list Z := [40; 110; 117; 108; 108; 41].
Definition LOWER_DIGITS : list Z := [48; 49; 50; 51; 52; 53; 54; 55; 56; 57; 97; 98; 99; 100; 101; 102].
Definition UPPER_DIGITS : list Z := [48; 49; 50; 51; 52; 53; 54; 55; 56; 57; 65; 66; 67; 68; 69; 70].

(** ** Arguments *)

Section Args.
Context {F : Type}.

Inductive varg : Type :=
  | VInt (v : Z)
  | VLong (v : Z)
  | VLLong (v : Z)
  | VPtr (a : Z)
  | VDbl (d : F)
  | VLDbl (d : F).

(** va_arg; an argument of another type is undefined *)
Definition va_int (l : list varg) : outcome (Z * list varg) :=
  match l with VInt v :: l' => Done (wrap_s 32 v, l') | _ => Fail UB end.
Definition va_long (l : list varg) : outcome (Z * list varg) :=
  match l with VLong v :: l' => Done (v, l') | _ => Fail UB end.
Definition va_llong (l : list varg) : outcome (Z * list varg) :=
  match l with VLLong v :: l' => Done (v, l') | _ => Fail UB end.
Definition va_ptr (l : list varg) : outcome (Z * list varg) :=
  match l with VPtr a :: l' => Done (a, l') | _ => Fail UB end.
Definition va_float (flags : Z) (l : list varg) : outcome (F * list varg) :=
  match l with
  | VLDbl d :: l' => if has flags LONGDBL then Done (d, l') else Fail UB
  | VDbl d :: l' => if has flags LONGDBL then Fail UB else Done (d, l')
  | _ => Fail UB
  end.

(** ARG(signed), ARG(unsigned): the value of [_ulonglong] *)
Definition ARG (signed : bool) (flags : Z) (l : list varg) : outcome (Z * list varg) :=
  if has flags LONGDBL then '(v, l) ← va_llong l; Done (wrap_u 64 v, l)
  else if has flags LONGINT then '(v, l) ← va_long l; Done (wrap_u 64 v, l)
  else
    '(v, l) ← va_int l;
    Done (wrap_u 64 (if has flags SHORTINT then if signed then wrap_s 16 v else wrap_u 16 v
                     else if signed then v else wrap_u 32 v), l).

(** The caller's list, arg_list and to_be_printed; [va_local] where argp points to the
    last *)
Record va := mk_va { va_caller : list varg; va_arg_list : list varg; va_tbp : list varg; va_local : bool }.

Definition argp (v : va) : list varg := if va_local v then va_tbp v else va_caller v.
Definition set_argp (v : va) (l : list varg) : va :=
  if va_local v then mk_va (va_caller v) (va_arg_list v) l true
  else mk_va l (va_arg_list v) (va_tbp v) false.
Definition set_arg_list (v : va) (l : list varg) : va := mk_va (va_caller v) l (va_tbp v) (va_local v).
Definition set_tbp (v : va) (l : list varg) : va := mk_va (va_caller v) (va_arg_list v) l (va_local v).

(** [if (using_numeric_conv_spec) argp = to_be_printed;] *)
Definition redirect (numeric : bool) (v : va) : va :=
  if numeric then mk_va (va_caller v) (va_arg_list v) (va_tbp v) true else v.

End Args.

Arguments varg F : clear implicits.
Arguments va F : clear implicits.

(** ** Conversions *)

Definition todigit (c : Z) : Z := if c <? 48 then 0 else if 57 <? c then 9 else c - 48.

(** CONVERT, the last digit first: a 64-bit number has 64 digits at most. *)
Fixpoint convert_loop (fuel : nat) (value base : Z) (digit : list Z) (string : list Z) : list Z :=
  match fuel with
  | O => string
  | S fuel' =>
      let string := nth (Z.to_nat (value mod base)) digit 0 :: string in
      if value / base =? 0 then string else convert_loop fuel' (value / base) base digit string
  end.

Definition CONVERT (value base : Z) (upper : bool) : list Z :=
  convert_loop 64 value base (if upper then UPPER_DIGITS else LOWER_DIGITS) [].

(** isascii and isdigit of an unsigned char *)
Definition digit_char (b : Z) : outcome bool :=
  if isascii b =? 0 then Done false else d ← isdigit b; Done (negb (d =? 0)).

Section Doprnt.
Context {SA : StdioApi} (AUTO AUTOBUF tb : Z).
Context {F : Type} (float_conv : Z -> Z -> Z -> Z -> F -> list Z * Z * Z).
(** The first characters of the thousands separator and of the grouping of the locale *)
Context (thousands_sep grouping : Z).

Definition lift {A} (o : outcome A) : IO A := fun s => a ← o; Done (a, s).

(** A value of type int *)
Definition as_int (v : Z) : IO Z :=
  if (- 2 ^ 31 <=? v) && (v <? 2 ^ 31) then mret v else lift (Fail UB).

Definition PUTC (ch f : Z) : IO unit := _ ← putc AUTO tb ch f; mret tt.

(** [n = 10 * n + todigit] of the digits at [fmt] *)
Fixpoint scan_digits (fuel : nat) (fmt n : Z) : IO (Z * Z) :=
  match fuel with
  | O => lift (Fail NoFuel)
  | S fuel' =>
      b ← ldb fmt;
      d ← lift (digit_char b);
      if d : bool then
        n ← as_int (10 * n + todigit (wrap_s 8 b));
        scan_digits fuel' (fmt + 1) n
      else mret (fmt, n)
  end.

(** *** Positions in the argument list *)

Inductive trav_step : Type :=
  | TAgain
  | TInt | TArg (signed : bool) | TFloat | TPtr
  | TEnd | TNone.

(** What a character behind the percent sign is to __traverse_argument_list *)
Definition trav_class (c flags : Z) : trav_step * Z :=
  if bool_decide (c ∈ [32; 35; 39; 45; 43; 104; 116; 122]) then (TAgain, flags)
  else if c =? 76 then (TAgain, flags .| LONGDBL)
  else if c =? 108 then (TAgain, if has flags LONGINT then flags .| LONGDBL else flags .| LONGINT)
  else if c =? 106 then (TAgain, flags .| LONGDBL)
  else if c =? 99 then (TInt, flags)
  else if c =? 68 then (TArg true, flags .| LONGINT)
  else if bool_decide (c ∈ [100; 105]) then (TArg true, flags)
  else if bool_decide (c ∈ [65; 69; 70; 71; 97; 101; 102; 103]) then (TFloat, flags)
  else if bool_decide (c ∈ [79; 85; 88]) then (TArg false, flags .| LONGINT)
  else if bool_decide (c ∈ [111; 117; 120]) then (TArg false, flags)
  else if bool_decide (c ∈ [110; 112; 115]) then (TPtr, flags)
  else if c =? 0 then (TEnd, flags)
  else (TNone, flags).

(** The argument that a conversion discards *)
Definition discard (k : trav_step) (flags : Z) (l : list (varg F)) : outcome (list (varg F)) :=
  match k with
  | TInt => '(_, l) ← va_int l; Done l
  | TArg signed => '(_, l) ← ARG signed flags l; Done l
  | TFloat => '(_, l) ← va_float flags l; Done l
  | TPtr => '(_, l) ← va_ptr l; Done l
  | _ => Done l
  end.

(** [inner]: at rflag; otherwise at the head of the for loop *)
Fixpoint traverse (fuel : nat) (index fmt0 : Z) (inner : bool)
    (fmt arg_index list_index flags : Z) (l : list (varg F)) : IO (list (varg F)) :=
  match fuel with
  | O => lift (Fail NoFuel)
  | S fuel' =>
      if inner then
        let fmt := fmt + 1 in
        c ← ldb fmt;
        if (c =? 42) || (c =? 46) then
          let fmt := if c =? 42 then fmt else fmt + 1 in
          star ← (if c =? 42 then mret true else c1 ← ldb fmt; mret (c1 =? 42));
          if star : bool then
            '(fmt, prec_index) ← scan_digits fuel' (fmt + 1) 0;
            if (prec_index =? index) && (list_index =? index) then mret l
            else if prec_index =? list_index then
              l ← lift (discard TInt flags l);
              traverse fuel' index fmt0 true fmt arg_index (list_index + 1) flags l
            else traverse fuel' index fmt0 true fmt arg_index list_index flags l
          else traverse fuel' index fmt0 true fmt arg_index list_index flags l
        else if (48 <=? c) && (c <=? 57) then
          '(fmt, arg_index) ← scan_digits fuel' fmt 0;
          traverse fuel' index fmt0 true fmt arg_index list_index flags l
        else
          let '(k, flags) := trav_class c flags in
          match k with
          | TAgain => traverse fuel' index fmt0 true fmt arg_index list_index flags l
          | TEnd => mret l
          | TNone => traverse fuel' index fmt0 false fmt arg_index list_index flags l
          | _ =>
              if (arg_index =? index) && (list_index =? index) then mret l
              else if arg_index =? list_index then
                l ← lift (discard k flags l);
                traverse fuel' index fmt0 false fmt arg_index (list_index + 1) flags l
              else traverse fuel' index fmt0 false fmt arg_index list_index flags l
          end
      else if list_index <? index + 1 then
        ch ← ldb fmt;
        if ch =? 0 then traverse fuel' index fmt0 true fmt0 arg_index list_index 0 l
        else if ch =? 37 then traverse fuel' index fmt0 true fmt arg_index list_index 0 l
        else traverse fuel' index fmt0 false (fmt + 1) arg_index list_index flags l
      else mret l
  end.

(** [arg_list] is the caller's variable: it stays where the traversal left it. *)
Definition __traverse_argument_list (fuel : nat) (index fmt0 : Z) (l : list (varg F)) : IO (list (varg F)) :=
  traverse fuel index fmt0 false fmt0 0 1 0 l.

(** *** The flags of a conversion *)

Record conv := mk_conv {
  c_flags : Z;
  c_width : Z;
  c_prec : Z;
  c_sign : Z;
  c_numeric : bool;
  c_va : va F }.

Definition with_flags (k : conv) (v : Z) : conv := mk_conv v (c_width k) (c_prec k) (c_sign k) (c_numeric k) (c_va k).
Definition with_width (k : conv) (v : Z) : conv := mk_conv (c_flags k) v (c_prec k) (c_sign k) (c_numeric k) (c_va k).
Definition with_prec (k : conv) (v : Z) : conv := mk_conv (c_flags k) (c_width k) v (c_sign k) (c_numeric k) (c_va k).
Definition with_sign (k : conv) (v : Z) : conv := mk_conv (c_flags k) (c_width k) (c_prec k) v (c_numeric k) (c_va k).
Definition with_va (k : conv) (numeric : bool) (v : va F) : conv := mk_conv (c_flags k) (c_width k) (c_prec k) (c_sign k) numeric v.
Definition add_flag (k : conv) (v : Z) : conv := with_flags k (c_flags k .| v).

(** A width or a precision from the arguments: the star is at [pos]. *)
Definition star_arg (fuel : nat) (fmt0 pos : Z) (k : conv) : IO (Z * Z * conv) :=
  '(fmt, n) ← scan_digits fuel (pos + 1) 0;
  b ← ldb fmt;
  '(fmt, k) ← (if b =? 36 then
                 l ← __traverse_argument_list fuel n fmt0 (va_arg_list (c_va k));
                 mret (fmt, with_va k true (set_argp (set_arg_list (c_va k) l) l))
               else mret (pos, k));
  '(v, l) ← lift (va_int (argp (c_va k)));
  mret (fmt, v, with_va k (c_numeric k) (set_argp (c_va k) l)).

(** rflag: the result is the address of the conversion character. *)
Fixpoint rflag (fuel : nat) (fmt0 fmt : Z) (k : conv) : IO (Z * conv) :=
  match fuel with
  | O => lift (Fail NoFuel)
  | S fuel' =>
      let fmt := fmt + 1 in
      c ← ldb fmt;
      if c =? 39 then rflag fuel' fmt0 fmt (add_flag k GROUPING)
      else if c =? 32 then rflag fuel' fmt0 fmt (if c_sign k =? 0 then with_sign k 32 else k)
      else if c =? 35 then rflag fuel' fmt0 fmt (add_flag k ALT)
      else if c =? 42 then
        '(fmt, w, k) ← star_arg fuel' fmt0 fmt k;
        if 0 <=? w then rflag fuel' fmt0 fmt (with_width k w)
        else
          w ← as_int (- w);
          rflag fuel' fmt0 fmt (add_flag (with_width k w) LADJUST)
      else if c =? 45 then rflag fuel' fmt0 fmt (add_flag k LADJUST)
      else if c =? 43 then rflag fuel' fmt0 fmt (with_sign k 43)
      else if c =? 46 then
        let fmt := fmt + 1 in
        c1 ← ldb fmt;
        '(fmt, n, k) ← (if c1 =? 42 then star_arg fuel' fmt0 fmt k
                        else '(fmt, n) ← scan_digits fuel' fmt 0; mret (fmt - 1, n, k));
        rflag fuel' fmt0 fmt (with_prec k (if n <? 0 then -1 else n))
      else if c =? 48 then rflag fuel' fmt0 fmt (add_flag k ZEROPAD)
      else if (49 <=? c) && (c <=? 57) then
        '(fmt, n) ← scan_digits fuel' fmt 0;
        b ← ldb fmt;
        if b =? 36 then
          l ← __traverse_argument_list fuel' n fmt0 (va_arg_list (c_va k));
          rflag fuel' fmt0 fmt (with_va k true (set_tbp (set_arg_list (c_va k) l) l))
        else rflag fuel' fmt0 (fmt - 1) (with_width k n)
      else if c =? 76 then rflag fuel' fmt0 fmt (add_flag k LONGDBL)
      else if c =? 104 then
        rflag fuel' fmt0 fmt (if has (c_flags k) SHORTINT
                              then with_flags k (without (c_flags k .| CHARINT) SHORTINT)
                              else add_flag k SHORTINT)
      else if c =? 108 then rflag fuel' fmt0 fmt (add_flag k (if has (c_flags k) LONGINT then LONGDBL else LONGINT))
      else if c =? 106 then rflag fuel' fmt0 fmt (add_flag k LONGDBL)
      else if c =? 122 then rflag fuel' fmt0 fmt (add_flag k LONGINT)
      else if c =? 116 then rflag fuel' fmt0 fmt k
      else mret (fmt, k)
  end.

(** *** Output of a field *)

(** [t] and [size]: characters of the function's own, or [size] characters in memory *)
Inductive text : Type :=
  | Local (l : list Z)
  | At (p size : Z).

Definition text_size (t : text) : Z := match t with Local l => Z.of_nat (length l) | At _ n => n end.

Fixpoint put_times (n : nat) (ch f : Z) : IO unit :=
  match n with O => mret tt | S n' => _ ← PUTC ch f; put_times n' ch f end.

Fixpoint put_list (l : list Z) (f : Z) : IO unit :=
  match l with [] => mret tt | b :: l' => _ ← PUTC (wrap_s 8 b) f; put_list l' f end.

Fixpoint put_mem_chars (n : nat) (t f : Z) : IO unit :=
  match n with
  | O => mret tt
  | S n' => b ← ldb t; _ ← PUTC (wrap_s 8 b) f; put_mem_chars n' (t + 1) f
  end.

Definition put_text (t : text) (f : Z) : IO unit :=
  match t with Local l => put_list l f | At p n => put_mem_chars (Z.to_nat n) p f end.

(** pforw: the result is what is added to cnt. With a separator the digits are copied up to
    a NUL, and there is none behind them in the buffer. *)
Definition pforw (fmtch base dprec sign flags width : Z) (t : text) (f : Z) : IO Z :=
  if has flags FINITENUMBER && has flags GROUPING && (base =? 10) && negb (has flags FLOAT) &&
     negb (thousands_sep =? 0) && negb (grouping =? CHAR_MAX)
  then lift (Fail UB)
  else
    let fieldsz := text_size t in
    let realsz := if fieldsz <? dprec then dprec else fieldsz in
    let realsz := if sign =? 0 then realsz else realsz + 1 in
    let hex := has flags HEXPREFIX && has flags FINITENUMBER in
    let realsz := if hex then realsz + 2 else realsz in
    let pad := Z.to_nat (width - realsz) in
    _ ← (if negb (has flags (LADJUST .| ZEROPAD)) && negb (width =? 0) then put_times pad 32 f else mret tt);
    _ ← (if sign =? 0 then mret tt else PUTC sign f);
    _ ← (if hex then
           _ ← PUTC 48 f;
           PUTC (if fmtch =? 65 then 88 else if fmtch =? 97 then 120 else wrap_s 8 fmtch) f
         else mret tt);
    _ ← (if flags .& (LADJUST .| ZEROPAD) =? ZEROPAD then put_times pad 48 f else mret tt);
    _ ← put_times (Z.to_nat (dprec - fieldsz)) 48 f;
    _ ← put_text t f;
    _ ← (if has flags LADJUST then put_times pad 32 f else mret tt);
    mret (if realsz <? width then width else realsz).

(** nosign and number: the conversion of [_ulonglong] *)
Definition number (fmtch value base sign flags prec width f : Z) : IO Z :=
  let flags := if 0 <=? prec then without flags ZEROPAD else flags in
  let t :=
    if negb (value =? 0) || negb (prec =? 0) then
      let t := CONVERT value base (has flags UPPERCASE) in
      if has flags ALT && (base =? 8) && negb (hd 0 t =? 48) then 48 :: t else t
    else [] in
  pforw fmtch base prec sign flags width (Local t) f.

(** Minus of a negative [_ulonglong] *)
Definition magnitude (v : Z) : Z := if wrap_s 64 v <? 0 then wrap_u 64 (- v) else v.

Definition c_memchr (p c n : Z) : IO Z := fun s => r ← memchr (i_mem s) p c n; Done (r, s).
Definition c_strlen (p : Z) : IO Z := fun s => n ← strlen (i_mem s) p; Done (n, s).

(** The size of a string: memchr looks at the first [prec] characters only. *)
Definition string_size (t prec : Z) : IO Z :=
  if 0 <=? prec then
    p ← c_memchr t 0 prec;
    mret (if p =? 0 then prec else if prec <? p - t then prec else p - t)
  else c_strlen t.

(** The number of bytes of the object that %n stores to *)
Definition count_size (flags : Z) : nat :=
  if has flags LONGDBL then 8 else if has flags LONGINT then 8
  else if has flags SHORTINT then 2 else if has flags CHARINT then 1 else 4.

Definition store_count (p : Z) (n : nat) (cnt : Z) : IO unit := fun s =>
  m ← store_bytes (i_mem s) p (le_bytes n cnt); Done (tt, put_mem s m).

(** What the conversions of integers have in common: argp, the argument and [number] *)
Definition unsigned_conv (fmtch base extra : Z) (k : conv) (f : Z) : IO (Z * conv) :=
  let flags := c_flags k .| extra in
  let v := redirect (c_numeric k) (c_va k) in
  '(u, l) ← lift (ARG false flags (argp v));
  let flags := flags .| FINITENUMBER in
  let flags := if (base =? 16) && has flags ALT && negb (u =? 0) then flags .| HEXPREFIX else flags in
  n ← number fmtch u base 0 flags (c_prec k) (c_width k) f;
  mret (n, with_va k (c_numeric k) (set_argp v l)).

Definition signed_conv (fmtch extra : Z) (k : conv) (f : Z) : IO (Z * conv) :=
  let flags := c_flags k .| extra in
  let v := redirect (c_numeric k) (c_va k) in
  '(u, l) ← lift (ARG true flags (argp v));
  let sign := if wrap_s 64 u <? 0 then 45 else c_sign k in
  n ← number fmtch (magnitude u) 10 sign (flags .| FINITENUMBER) (c_prec k) (c_width k) f;
  mret (n, with_va k (c_numeric k) (set_argp v l)).

Definition string_conv (fmtch : Z) (k : conv) (f : Z) : IO (Z * conv) :=
  let v := redirect (c_numeric k) (c_va k) in
  '(t, l) ← lift (va_ptr (argp v));
  txt ← (if t =? 0 then
           mret (Local (if 0 <=? c_prec k then take (Z.to_nat (c_prec k)) NULL_REP else NULL_REP))
         else n ← string_size t (c_prec k); mret (At t n));
  n ← pforw fmtch 0 0 0 (c_flags k) (c_width k) txt f;
  mret (n, with_va k (c_numeric k) (set_argp v l)).

Definition float_field (fmtch : Z) (k : conv) (f : Z) : IO (Z * conv) :=
  let v := redirect (c_numeric k) (c_va k) in
  '(d, l) ← lift (va_float (c_flags k) (argp v));
  let '(t, flags, sign) := float_conv fmtch (c_flags k) (c_prec k) (c_sign k) d in
  n ← pforw fmtch (if has flags HEXPREFIX then 16 else 10) 0 sign flags (c_width k) (Local t) f;
  mret (n, with_va k (c_numeric k) (set_argp v l)).

(** The switch on the conversion character; None: return cnt. The first result is what is
    added to cnt. *)
Definition conversion (fmtch cnt : Z) (k : conv) (f : Z) : IO (option (Z * conv)) :=
  if fmtch =? 99 then
    '(c, l) ← lift (va_int (argp (c_va k)));
    n ← pforw fmtch 0 0 0 (c_flags k) (c_width k) (Local [byte c]) f;
    mret (Some (n, with_va k (c_numeric k) (set_argp (c_va k) l)))
  else if fmtch =? 68 then r ← signed_conv fmtch LONGINT k f; mret (Some r)
  else if bool_decide (fmtch ∈ [100; 105]) then r ← signed_conv fmtch 0 k f; mret (Some r)
  else if bool_decide (fmtch ∈ [65; 69; 70; 71; 97; 101; 102; 103]) then r ← float_field fmtch k f; mret (Some r)
  else if fmtch =? 110 then
    let v := redirect (c_numeric k) (c_va k) in
    '(p, l) ← lift (va_ptr (argp v));
    _ ← store_count p (count_size (c_flags k)) cnt;
    mret (Some (0, with_va k (c_numeric k) (set_argp v l)))
  else if fmtch =? 79 then r ← unsigned_conv fmtch 8 LONGINT k f; mret (Some r)
  else if fmtch =? 111 then r ← unsigned_conv fmtch 8 0 k f; mret (Some r)
  else if fmtch =? 112 then
    let v := redirect (c_numeric k) (c_va k) in
    '(p, l) ← lift (va_ptr (argp v));
    n ← number fmtch (wrap_u 64 p) 16 0 (c_flags k) (c_prec k) (c_width k) f;
    mret (Some (n, with_va k (c_numeric k) (set_argp v l)))
  else if fmtch =? 115 then r ← string_conv fmtch k f; mret (Some r)
  else if fmtch =? 85 then r ← unsigned_conv fmtch 10 LONGINT k f; mret (Some r)
  else if fmtch =? 117 then r ← unsigned_conv fmtch 10 0 k f; mret (Some r)
  else if fmtch =? 88 then r ← unsigned_conv fmtch 16 UPPERCASE k f; mret (Some r)
  else if fmtch =? 120 then r ← unsigned_conv fmtch 16 0 k f; mret (Some r)
  else if fmtch =? 0 then mret None
  else _ ← PUTC (wrap_s 8 fmtch) f; mret (Some (1, k)).

(** The loop over the format *)
Fixpoint doprnt_loop (fuel : nat) (fmt0 fmt cnt : Z) (numeric : bool) (v : va F) (f : Z) : IO (Z * va F) :=
  match fuel with
  | O => lift (Fail NoFuel)
  | S fuel' =>
      ch ← ldb fmt;
      if ch =? 0 then mret (cnt, v)
      else if ch =? 37 then
        '(fmt, k) ← rflag fuel' fmt0 fmt (mk_conv 0 0 (-1) 0 numeric v);
        fmtch ← ldb fmt;
        r ← conversion fmtch cnt k f;
        match r with
        | None => mret (cnt, c_va k)
        | Some (n, k) =>
            cnt ← as_int (cnt + n);
            doprnt_loop fuel' fmt0 (fmt + 1) cnt (c_numeric k) (c_va k) f
        end
      else
        _ ← PUTC (wrap_s 8 ch) f;
        cnt ← as_int (cnt + 1);
        doprnt_loop fuel' fmt0 (fmt + 1) cnt numeric v f
  end.

(** The result is the count and what is left of the caller's arguments. [fuel] bounds the
    length of the format. *)
Definition _doprnt (fuel : nat) (fmt0 : Z) (args : list (varg F)) (f : Z) : IO (Z * list (varg F)) :=
  x ← getf f;
  _ ← (if has (_flag x) _IORW then
         _ ← modf f (or_flag _IOWRT); modf f (not_flag (_IOEOF .| _IOREAD))
       else mret tt);
  x ← getf f;
  if negb (has (_flag x) _IOWRT) then mret (EOF, args)
  else
    '(cnt, v) ← doprnt_loop fuel fmt0 fmt0 0 false (mk_va args args [] false) f;
    mret (cnt, va_caller v).

(** ** The functions of the family *)

Definition vprintf (fuel : nat) (fmt : Z) (ap : list (varg F)) : IO Z :=
  '(len, _) ← _doprnt fuel fmt ap stdout;
  x ← getf stdout;
  mret (if has (_flag x) _IOERR then EOF else len).

Definition printf (fuel : nat) (fmt : Z) (args : list (varg F)) : IO Z :=
  '(len, _) ← _doprnt fuel fmt args stdout;
  x ← getf stdout;
  _ ← (if has (_flag x) _IOLBF then _ ← fflush stdout; mret tt else mret tt);
  x ← getf stdout;
  mret (if has (_flag x) _IOERR then EOF else len).

Definition vfprintf (fuel : nat) (f fmt : Z) (ap : list (varg F)) : IO Z :=
  x ← getf f;
  len ← (if has (_flag x) _IONBF then
           _ ← modf f (not_flag _IONBF);
           _ ← modf f (up_base AUTOBUF);
           _ ← modf f (up_ptr AUTOBUF);
           _ ← modf f (up_bufsiz BUFSIZ);
           '(len, _) ← _doprnt fuel fmt ap f;
           _ ← fflush f;
           _ ← modf f (or_flag _IONBF);
           _ ← modf f (up_base 0);
           _ ← modf f (up_bufsiz 0);
           _ ← modf f (up_cnt 0);
           mret len
         else '(len, _) ← _doprnt fuel fmt ap f; mret len);
  x ← getf f;
  mret (if has (_flag x) _IOERR then EOF else len).

Definition fprintf (fuel : nat) (f fmt : Z) (args : list (varg F)) : IO Z := vfprintf fuel f fmt args.

(** The FILE [_strbuf] is an automatic variable at the key [sb] of the table; [junk] is
    what it holds. *)
Definition vsprintf (fuel : nat) (sb : Z) (junk : FILE) (str fmt : Z) (ap : list (varg F)) : IO Z :=
  _ ← modify (fun s => put_files s (<[sb := junk]> (i_files s)));
  _ ← __stropenw sb str INT_MAX;
  '(len, _) ← _doprnt fuel fmt ap sb;
  _ ← __strclosew sb;
  mret len.

Definition sprintf (fuel : nat) (sb : Z) (junk : FILE) (str fmt : Z) (args : list (varg F)) : IO Z :=
  vsprintf fuel sb junk str fmt args.

Definition vsnprintf (fuel : nat) (sb str n fmt : Z) (ap : list (varg F)) : IO Z :=
  if INT_MAX <? n then _ ← tell_os (os_set_errno EFBIG); mret (-1)
  else
    _ ← modify (fun s => put_files s (<[sb := zero_FILE]> (i_files s)));
    _ ← (if 0 <? n then __stropenw sb str (n - 1) else __stropenw sb 0 0);
    '(len, _) ← _doprnt fuel fmt ap sb;
    _ ← (if 0 <? n then __strclosew sb else mret tt);
    mret len.

Definition snprintf (fuel : nat) (sb str n fmt : Z) (args : list (varg F)) : IO Z :=
  vsnprintf fuel sb str n fmt args.

(** The results are the length and the new value of the caller's pointer. *)
Definition vasprintf (fuel : nat) (sb fmt : Z) (argsp : list (varg F)) : IO (Z * Z) :=
  _ ← modify (fun s => put_files s (<[sb := zero_FILE]> (i_files s)));
  _ ← __stropenw sb 0 0;
  '(len, argsp) ← _doprnt fuel fmt argsp sb;
  if len =? EOF then mret (len, 0)
  else
    size ← as_int (len + 1);
    p ← c_malloc size;
    if p =? 0 then mret (EOF, 0)
    else
      _ ← __stropenw sb p len;
      '(len, _) ← _doprnt fuel fmt argsp sb;
      _ ← __strclosew sb;
      if len =? EOF then _ ← c_free p; mret (len, 0) else mret (len, p).

(** The results are the string and the new value of the caller's size. *)
Definition vasnprintf (fuel : nat) (sb str np fmt : Z) (argsp : list (varg F)) : IO (Z * Z) :=
  let len := wrap_s 32 np in
  if INT_MAX <? len then _ ← tell_os (os_set_errno EFBIG); mret (0, np) else
  _ ← modify (fun s => put_files s (<[sb := zero_FILE]> (i_files s)));
  r ← (if negb (str =? 0) && (0 <? len) then mret (Some (str, len - 1, argsp))
       else
         _ ← __stropenw sb 0 0;
         '(len, argsp) ← _doprnt fuel fmt argsp sb;
         if len =? EOF then mret None
         else
           size ← as_int (len + 1);
           buffer ← c_malloc size;
           mret (if buffer =? 0 then None else Some (buffer, len, argsp)));
  match r with
  | None => mret (0, np)
  | Some (buffer, len, argsp) =>
      _ ← __stropenw sb buffer len;
      '(len, _) ← _doprnt fuel fmt argsp sb;
      if len =? EOF then _ ← c_free buffer; mret (0, np)
      else if 0 <? len then _ ← __strclosew sb; mret (buffer, len)
      else mret (buffer, np)
  end.

Definition asprintf (fuel : nat) (sb fmt : Z) (args : list (varg F)) : IO (Z * Z) := vasprintf fuel sb fmt args.

Definition asnprintf (fuel : nat) (sb str np fmt : Z) (args : list (varg F)) : IO (Z * Z) :=
  vasnprintf fuel sb str np fmt args.

End Doprnt.
