(* ===== verification/DoprntSpec.v ===== *)
(** * printf: what a format means, and the streams it goes to

    The directives of a format and the text that each stands for; the interface of a stream
    that takes characters; and output as a calculus: [emits s m r out], the statement [m]
    puts [out] on the stream and gives [r]. *)

From stdpp Require Import base gmap list numbers.
From Stdlib Require Import ZArith Lia.
From S2P Require Import Prelude Ctype MemFuns Strings NMalloc NmRep Stdio StdioInv StdioWr Doprnt.

Open Scope Z_scope.
Open Scope c_scope.

(** ** Directives *)

Inductive wspec : Type := WNone | WNum (n : Z) | WStar.
Inductive len_mod : Type := L0 | Lh | Ll | Lll | Lj | Lz.

#[export] Instance len_mod_eq : EqDecision len_mod.
Proof. solve_decision. Defined.

Record directive := mk_dir {
  d_flags : list Z;
  d_width : wspec;
  d_prec : wspec;
  d_len : len_mod;
  d_conv : Z }.

Inductive item : Type := Lit (c : Z) | Dir (d : directive).

(** The character of a digit *)
Definition digit_text (upper : bool) (d : Z) : Z :=
  if d <? 10 then 48 + d else (if upper then 65 else 97) + (d - 10).

(** How many digits a 64-bit number has: one, and one for each power of the base that it
    reaches *)
Definition count_digits (base v : Z) : nat := S (length (filter (fun k => base ^ k <= v) (seqZ 1 63))).

(** A number in positional notation: the digit with [i] digits behind it is
    [v / base ^ i mod base]. *)
Definition numeral_text (base : Z) (upper : bool) (v : Z) : list Z :=
  (fun i => digit_text upper (v / base ^ i mod base)) <$> reverse (seqZ 0 (Z.of_nat (count_digits base v))).

(** A number in decimal *)
Definition dec (n : Z) : list Z := numeral_text 10 false n.

Definition show_len (l : len_mod) : list Z :=
  match l with L0 => [] | Lh => [104] | Ll => [108] | Lll => [108; 108] | Lj => [106] | Lz => [122] end.

Definition show_width (w : wspec) : list Z := match w with WNone => [] | WNum n => dec n | WStar => [42] end.
Definition show_prec (p : wspec) : list Z := match p with WNone => [] | WNum n => 46 :: dec n | WStar => [46; 42] end.

(** Behind the percent sign *)
Definition show_dir (d : directive) : list Z :=
  d_flags d ++ show_width (d_width d) ++ show_prec (d_prec d) ++ show_len (d_len d) ++ [d_conv d].

Definition show_item (i : item) : list Z := match i with Lit c => [c] | Dir d => 37 :: show_dir d end.
Definition show (l : list item) : list Z := l ≫= show_item.

(** ** Text of a directive *)

(** An argument; a string with what lies there *)
Inductive rarg : Type := RInt (v : Z) | RLong (v : Z) | RLLong (v : Z) | RStr (a : Z) (l : list Z) | RPtr (a : Z).

Definition varg_of {F} (a : rarg) : varg F :=
  match a with RInt v => VInt v | RLong v => VLong v | RLLong v => VLLong v | RStr p _ => VPtr p | RPtr p => VPtr p end.

(** The argument of an integer conversion, at the width of its type *)
Definition int_arg (signed : bool) (len : len_mod) (a : rarg) : option Z :=
  let cut w v := if signed : bool then wrap_s w v else wrap_u w v in
  match len, a with
  | L0, RInt v => Some (cut 32 v)
  | Lh, RInt v => Some (cut 16 v)
  | (Ll | Lz), RLong v => Some (cut 64 v)
  | (Lll | Lj), RLLong v => Some (cut 64 v)
  | _, _ => None
  end.

Definition rep (n : Z) (c : Z) : list Z := replicate (Z.to_nat n) c.

(** A field: [prefix] and [body], filled up to the width *)
Definition field (left zero : bool) (width : Z) (prefix body : list Z) : list Z :=
  let fill := width - Z.of_nat (length prefix + length body) in
  if left then prefix ++ body ++ rep fill 32
  else if zero then prefix ++ rep fill 48 ++ body
  else rep fill 32 ++ prefix ++ body.

(** The digits of a number, with the zeros that the precision asks for; no digits for zero
    with precision 0 *)
Definition digits (base : Z) (upper alt : bool) (prec v : Z) : list Z :=
  let t := if (v =? 0) && (prec =? 0) then [] else numeral_text base upper v in
  let t := if alt && (base =? 8) && negb (hd 0 t =? 48) then 48 :: t else t in
  rep (prec - Z.of_nat (length t)) 48 ++ t.

Definition sign_char (plus space : bool) (v : Z) : list Z :=
  if v <? 0 then [45] else if plus then [43] else if space then [32] else [].

Definition flag_in (c : Z) (d : directive) : bool := bool_decide (c ∈ d_flags d).

(** The text of an integer conversion. With # and precision 0 the octal form of 0 is left
    out. *)
Definition int_text (d : directive) (left : bool) (width prec : Z) (a : rarg) : option (list Z) :=
  let zero := flag_in 48 d && (prec <? 0) in
  let unsigned base upper :=
    v ← int_arg false (d_len d) a;
    if (base =? 8) && flag_in 35 d && (v =? 0) && (prec =? 0) then None
    else
      Some (field left zero width
        (if (base =? 16) && flag_in 35 d && negb (v =? 0) then [48; d_conv d] else [])
        (digits base upper (flag_in 35 d) prec v)) in
  if (d_conv d =? 100) || (d_conv d =? 105) then
    v ← int_arg true (d_len d) a;
    Some (field left zero width (sign_char (flag_in 43 d) (flag_in 32 d) v) (digits 10 false false prec (Z.abs v)))
  else if d_conv d =? 117 then unsigned 10 false
  else if d_conv d =? 111 then unsigned 8 false
  else if d_conv d =? 120 then unsigned 16 false
  else if d_conv d =? 88 then unsigned 16 true
  else None.

(** The text of any conversion *)
Definition conv_text (d : directive) (left : bool) (width prec : Z) (a : rarg) : option (list Z) :=
  match a with
  | RInt v =>
      if d_conv d =? 99 then Some (field left (flag_in 48 d) width [] [byte v])
      else int_text d left width prec a
  | RStr p l =>
      if d_conv d =? 115 then
        Some (field left (flag_in 48 d) width [] (if prec <? 0 then l else take (Z.to_nat prec) l))
      else None
  | RPtr p =>
      if d_conv d =? 112 then
        Some (field left (flag_in 48 d && (prec <? 0)) width [] (digits 16 false false prec (wrap_u 64 p)))
      else None
  | _ => int_text d left width prec a
  end.

(** A width or precision, with the arguments that follow *)
Definition star_value (w : wspec) (none : Z) (args : list rarg) : option (Z * list rarg) :=
  match w, args with
  | WNone, _ => Some (none, args)
  | WNum n, _ => Some (n, args)
  | WStar, RInt v :: args' => Some (wrap_s 32 v, args')
  | WStar, _ => None
  end.

(** A negative width asks for the left side, and its opposite has to be an int; a negative
    precision is none. *)
Definition dir_text (d : directive) (args : list rarg) : option (list Z * list rarg) :=
  '(w, args) ← star_value (d_width d) 0 args;
  '(p, args) ← star_value (d_prec d) (-1) args;
  if w =? - 2 ^ 31 then None
  else if d_conv d =? 37 then Some ([37], args)
  else
    match args with
    | [] => None
    | a :: args' =>
        t ← conv_text d (flag_in 45 d || (w <? 0)) (Z.abs w) (Z.max p (-1)) a;
        Some (t, args')
    end.

(** The text of a format, and the arguments that are left *)
Fixpoint format_text (l : list item) (args : list rarg) : option (list Z * list rarg) :=
  match l with
  | [] => Some ([], args)
  | Lit c :: l' => '(t, rest) ← format_text l' args; Some (c :: t, rest)
  | Dir d :: l' =>
      '(t1, args) ← dir_text d args;
      '(t2, rest) ← format_text l' args;
      Some (t1 ++ t2, rest)
  end.

(** A well-formed item *)
Definition num_ok (w : wspec) (lo : Z) : Prop := match w with WNum n => lo <= n < 2 ^ 31 | _ => True end.

Definition item_ok (i : item) : Prop :=
  match i with
  | Lit c => 0 < c < 256 /\ c <> 37
  | Dir d => Forall (fun c => c ∈ [32; 35; 43; 45; 48]) (d_flags d) /\
      num_ok (d_width d) 1 /\ num_ok (d_prec d) 0 /\
      d_conv d ∈ [100; 105; 117; 111; 120; 88; 99; 115; 112; 37]
  end.

(** ** Streams that take characters *)

(** [sk_ok s l]: the stream [f] is in order and has been given [l]. [sk_fits]: how much it
    can be given. *)
Class Sink {SA : StdioApi} (AUTO tb f : Z) := {
  sk_ok : iost -> list Z -> Prop;
  sk_client : iost -> Z -> Prop;
  sk_fits : nat -> Prop;
  sk_down : forall n m, (n <= m)%nat -> sk_fits m -> sk_fits n;
  sk_file : forall s l, sk_ok s l -> exists x, i_files s !! f = Some x /\
    has (_flag x) _IORW = false /\ has (_flag x) _IOWRT = true;
  sk_put : forall s l c, sk_ok s l -> sk_fits (S (length l)) -> -128 <= c < 256 ->
    wpi (putc AUTO tb c f) (fun _ s' => sk_ok s' (l ++ [byte c]) /\
      forall a, sk_client s a -> sk_client s' a /\ i_mem s' !! a = i_mem s !! a) s }.

Section Emit.
Context {SA : StdioApi} (AUTO tb f : Z) {SK : Sink AUTO tb f}.
Implicit Types (s : iost).

Definition keeps s s' : Prop := forall a, sk_client s a -> sk_client s' a /\ i_mem s' !! a = i_mem s !! a.

Lemma keeps_refl s : keeps s s.
Proof. by intros a Ha. Qed.

Lemma keeps_trans s1 s2 s3 : keeps s1 s2 -> keeps s2 s3 -> keeps s1 s3.
Proof. intros H1 H2 a Ha. destruct (H1 a Ha) as [Ha2 E1]. destruct (H2 a Ha2) as [Ha3 E2]. split; [done|congruence]. Qed.

(** [m] puts [out] on the stream and gives a result with [P]. *)
Definition emits_to {A} s (m : IO A) (P : A -> Prop) (out : list Z) : Prop := forall l,
  sk_ok s l -> sk_fits (length l + length out) ->
  wpi m (fun a s' => P a /\ sk_ok s' (l ++ out) /\ keeps s s') s.

(** ... and gives [r] *)
Definition emits {A} s (m : IO A) (r : A) (out : list Z) : Prop := emits_to s m (fun a => a = r) out.

Lemma emits_to_ret {A} s (r : A) (P : A -> Prop) : P r -> emits_to s (mret r) P [].
Proof. intros HP l Hok _. apply wpi_ret. rewrite app_nil_r. split_and!; [done|done|apply keeps_refl]. Qed.

Lemma emits_ret {A} s (r : A) : emits s (mret r) r [].
Proof. by apply emits_to_ret. Qed.

Lemma emits_to_bind {A B} s (m : IO A) (k : A -> IO B) a (P : B -> Prop) o1 o2 :
  emits s m a o1 -> (forall s', keeps s s' -> emits_to s' (k a) P o2) -> emits_to s (m ≫= k) P (o1 ++ o2).
Proof.
  intros Hm Hk l Hok Hf. rewrite length_app in Hf. apply wpi_bind.
  eapply wpi_mono; [apply Hm; [done|]|].
  { eapply sk_down; [|exact Hf]. lia. }
  cbv beta. intros ? s1 (-> & Hok1 & Hk1). eapply wpi_mono; [apply (Hk s1 Hk1); [done|]|].
  { rewrite length_app. by replace (length l + length o1 + length o2)%nat with (length l + (length o1 + length o2))%nat by lia. }
  cbv beta. intros b s2 (HP & Hok2 & Hk2). split_and!; [done|by rewrite app_assoc|by eapply keeps_trans].
Qed.

Lemma emits_bind {A B} s (m : IO A) (k : A -> IO B) a b o1 o2 :
  emits s m a o1 -> (forall s', keeps s s' -> emits s' (k a) b o2) -> emits s (m ≫= k) b (o1 ++ o2).
Proof. apply emits_to_bind. Qed.

(** A statement without output *)
Lemma emits_to_pure {A B} s (m : IO A) (k : A -> IO B) a (P : B -> Prop) out :
  wpi m (fun r s' => r = a /\ s' = s) s -> emits_to s (k a) P out -> emits_to s (m ≫= k) P out.
Proof.
  intros Hm Hk l Hok Hf. apply wpi_bind. eapply wpi_mono; [exact Hm|]. cbv beta. intros ? ? [-> ->]. by apply Hk.
Qed.

Lemma emits_pure {A B} s (m : IO A) (k : A -> IO B) a b out :
  wpi m (fun r s' => r = a /\ s' = s) s -> emits s (k a) b out -> emits s (m ≫= k) b out.
Proof. apply emits_to_pure. Qed.

Lemma emits_eq {A} s (m : IO A) r r' o o' : emits s m r o -> r = r' -> o = o' -> emits s m r' o'.
Proof. by intros H -> ->. Qed.

(** [emits] under [Some] *)
Lemma emits_some {A} s (m : IO A) r out : emits s m r out -> emits s (r ← m; mret (Some r)) (Some r) out.
Proof.
  intros H. eapply emits_eq; [|done|apply app_nil_r]. eapply emits_bind; [exact H|]. intros ? _. apply emits_ret.
Qed.

Lemma emits_PUTC s c : -128 <= c < 256 -> emits s (PUTC AUTO tb c f) tt [byte c].
Proof.
  intros Hc l Hok Hf. unfold PUTC. apply wpi_bind. eapply wpi_mono; [apply sk_put; [done| |done]|].
  { by rewrite Nat.add_1_r in Hf. }
  cbv beta. intros ? s' [? ?]. by apply wpi_ret.
Qed.

Lemma emits_if {A} s (b : bool) (m1 m2 : IO A) r o1 o2 :
  (b = true -> emits s m1 r o1) -> (b = false -> emits s m2 r o2) ->
  emits s (if b then m1 else m2) r (if b then o1 else o2).
Proof. destruct b; auto. Qed.

Lemma emits_times n c : forall s, 0 <= c < 128 -> emits s (put_times AUTO tb n c f) tt (replicate n c).
Proof.
  induction n as [|n IH]; intros s Hc; cbn [put_times replicate]; [apply emits_ret|].
  apply (emits_bind _ _ _ tt _ [c]); [|by intros; apply IH].
  replace c with (byte c) at 2; [apply emits_PUTC; lia|]. unfold byte. rewrite Z.mod_small; lia.
Qed.

Lemma emits_list l : forall s, bytes_ok l -> emits s (put_list AUTO tb l f) tt l.
Proof.
  induction l as [|b l IH]; intros s Hl; cbn [put_list]; [apply emits_ret|].
  apply bytes_ok_cons in Hl as [Hb Hl]. apply (emits_bind _ _ _ tt _ [b]); [|by intros; apply IH].
  pose proof (wrap_s_8_range b). replace b with (byte (wrap_s 8 b)) at 2; [by apply emits_PUTC|].
  rewrite byte_wrap_s. unfold byte. by rewrite Z.mod_small.
Qed.

(** Memory of the client's *)
Definition client_bytes s (p : Z) (l : list Z) : Prop :=
  bytes_at (i_mem s) p l /\ bytes_ok l /\ forall a, p <= a < p + Z.of_nat (length l) -> sk_client s a.

Lemma client_bytes_keeps s s' p l : keeps s s' -> client_bytes s p l -> client_bytes s' p l.
Proof.
  intros Hk (Hat & Hok & Hc). split_and!; [|done|].
  - intros i b Hi. pose proof (lookup_lt_Some _ _ _ Hi). destruct (Hk (p + Z.of_nat i)) as [_ ->]; [apply Hc; lia|]. by apply Hat.
  - intros a Ha. by apply Hk, Hc.
Qed.

Lemma client_bytes_app s p l1 l2 :
  client_bytes s p (l1 ++ l2) -> client_bytes s p l1 /\ client_bytes s (p + Z.of_nat (length l1)) l2.
Proof.
  intros (Hat & Hok & Hc). apply bytes_at_app in Hat as [? ?]. apply Forall_app in Hok as [? ?].
  rewrite length_app in Hc. split; (split_and!; [done|done|]); intros a Ha; apply Hc; lia.
Qed.

Lemma client_bytes_cons s p b l :
  client_bytes s p (b :: l) -> i_mem s !! p = Some b /\ 0 <= b < 256 /\ client_bytes s (p + 1) l.
Proof.
  intros (Hat & Hok & Hc). apply bytes_at_cons in Hat as [Hb Hat]. apply bytes_ok_cons in Hok as [? Hok].
  do 4 (split; [done|]). intros a Ha. apply Hc. simpl. lia.
Qed.

Lemma emits_mem_chars l : forall s p, client_bytes s p l -> emits s (put_mem_chars AUTO tb (length l) p f) tt l.
Proof.
  induction l as [|b l IH]; intros s p Hl; cbn [put_mem_chars length]; [apply emits_ret|].
  apply client_bytes_cons in Hl as (Hb & Hr & Hl).
  eapply emits_pure; [by eapply wpi_ldb|]. apply (emits_bind _ _ _ tt _ [b]).
  - pose proof (wrap_s_8_range b). replace b with (byte (wrap_s 8 b)) at 2; [by apply emits_PUTC|].
    rewrite byte_wrap_s. unfold byte. by rewrite Z.mod_small.
  - intros s' Hk. apply IH. by eapply client_bytes_keeps.
Qed.

(** [t] stands for [l]. *)
Definition text_is s (t : text) (l : list Z) : Prop :=
  match t with Local l' => l' = l /\ bytes_ok l | At p n => n = Z.of_nat (length l) /\ client_bytes s p l end.

Lemma emits_text s t l : text_is s t l -> emits s (put_text AUTO tb t f) tt l.
Proof.
  destruct t as [l'|p n]; cbn [text_is put_text].
  - intros [-> Hl]. by apply emits_list.
  - intros [-> Hl]. rewrite Nat2Z.id. by apply emits_mem_chars.
Qed.

End Emit.
