(* ===== verification/DoprntConv.v ===== *)
(** * printf: conversions

    What each conversion puts on a stream: the layout of a field, the integers at their
    widths, strings, characters and pointers. *)

From stdpp Require Import base gmap list numbers.
From Stdlib Require Import ZArith Lia.
From S2P Require Import Prelude Ctype MemFuns Strings NMalloc NmRep Stdio StdioInv StdioWr Doprnt DoprntSpec.

Open Scope Z_scope.
Open Scope c_scope.

(** ** Fields *)

Section Field.
Context {SA : StdioApi} (AUTO tb f : Z) {SK : Sink AUTO tb f}.
Context (thousands_sep grouping : Z).
Implicit Types (s : iost).

Lemma byte_ascii c : 0 <= c < 128 -> byte c = c.
Proof. intros H. unfold byte. apply Z.mod_small. lia. Qed.

Lemma emits_ascii s c : 0 <= c < 128 -> emits AUTO tb f s (PUTC AUTO tb c f) tt [c].
Proof. intros Hc. eapply emits_eq; [apply emits_PUTC; lia|done|]. by rewrite byte_ascii. Qed.

Lemma text_is_keeps s s' t l : keeps AUTO tb f s s' -> text_is AUTO tb f s t l -> text_is AUTO tb f s' t l.
Proof. destruct t; cbn [text_is]; [done|]. intros Hk [-> ?]. split; [done|]. by eapply client_bytes_keeps. Qed.

Lemma text_size_is s t l : text_is AUTO tb f s t l -> text_size t = Z.of_nat (length l).
Proof. by destruct t; cbn [text_is text_size]; intros [-> ?]. Qed.

(** The characters before the digits *)
Definition prefix_of (sign : Z) (hex : bool) (fmtch : Z) : list Z :=
  (if sign =? 0 then [] else [sign]) ++ (if hex then [48; fmtch] else []).

Lemma ladjust_zeropad flags :
  (flags .& (LADJUST .| ZEROPAD) =? ZEROPAD) = negb (has flags LADJUST) && has flags ZEROPAD.
Proof. apply (land_eq_flag flags 7 8); lia. Qed.

Lemma length_field left zero width p b :
  Z.of_nat (length (field left zero width p b)) = Z.max width (Z.of_nat (length p + length b)).
Proof. unfold field, rep. destruct left, zero; rewrite !length_app, length_replicate; lia. Qed.

(** The size that pforw computes *)
Definition realsz (dprec sign : Z) (hex : bool) (fieldsz : Z) : Z :=
  let n := if fieldsz <? dprec then dprec else fieldsz in
  let n := if sign =? 0 then n else n + 1 in
  if hex then n + 2 else n.

Lemma realsz_spec dprec sign hex fmtch l :
  realsz dprec sign hex (Z.of_nat (length l)) =
  Z.of_nat (length (prefix_of sign hex fmtch) + length (rep (dprec - Z.of_nat (length l)) 48 ++ l)).
Proof.
  unfold realsz, prefix_of, rep. rewrite !length_app, length_replicate.
  destruct (Z.ltb_spec (Z.of_nat (length l)) dprec), (Z.eqb_spec sign 0), hex; simpl; lia.
Qed.

(** Blanks on the left only where there is a width *)
Lemma left_blanks (left zero : bool) width n :
  0 <= n -> (if negb left && negb zero && negb (width =? 0) then replicate (Z.to_nat (width - n)) 32 else []) =
  if left then [] else if zero then [] else replicate (Z.to_nat (width - n)) 32.
Proof.
  intros Hn. destruct left, zero; cbn [negb andb]; try done. destruct (Z.eqb_spec width 0) as [->|]; [|done].
  cbn [negb]. by replace (Z.to_nat (0 - n)) with 0%nat by lia.
Qed.

Lemma emits_pforw s fmtch base dprec sign flags width t l :
  text_is AUTO tb f s t l -> has flags GROUPING = false -> 0 <= sign < 128 -> 0 <= fmtch < 128 ->
  fmtch <> 65 -> fmtch <> 97 ->
  let txt := field (has flags LADJUST) (has flags ZEROPAD) width
    (prefix_of sign (has flags HEXPREFIX && has flags FINITENUMBER) fmtch)
    (rep (dprec - Z.of_nat (length l)) 48 ++ l) in
  emits AUTO tb f s (pforw AUTO tb thousands_sep grouping fmtch base dprec sign flags width t f)
    (Z.of_nat (length txt)) txt.
Proof.
  intros Ht Hg Hs Hc H1 H2 txt. unfold pforw. rewrite Hg, andb_false_r. cbn [andb].
  rewrite (text_size_is _ _ _ Ht), has_mask, negb_orb, ladjust_zeropad.
  set (hex := has flags HEXPREFIX && has flags FINITENUMBER) in *.
  fold (realsz dprec sign hex (Z.of_nat (length l))). pose proof (realsz_spec dprec sign hex fmtch l) as Hreal.
  set (n := realsz _ _ _ _) in *. set (pad := Z.to_nat (width - n)).
  set (left := has flags LADJUST) in *. set (zero := has flags ZEROPAD) in *.
  eapply emits_eq.
  { apply (emits_bind _ _ _ _ _ _ tt _ (if negb left && negb zero && negb (width =? 0) then replicate pad 32 else [])).
    { apply emits_if; intros _; [apply emits_times; lia|apply emits_ret]. }
    intros s1 Hk1. apply (emits_bind _ _ _ _ _ _ tt _ (if sign =? 0 then [] else [sign])).
    { apply emits_if; intros _; [apply emits_ret|by apply emits_ascii]. }
    intros s2 Hk2. apply (emits_bind _ _ _ _ _ _ tt _ (if hex then [48; fmtch] else [])).
    { apply emits_if; intros _; [|apply emits_ret]. apply (emits_bind _ _ _ _ _ _ tt _ [48]); [by apply emits_ascii|].
      intros ? _. replace (fmtch =? 65) with false by lia. replace (fmtch =? 97) with false by lia.
      replace (wrap_s 8 fmtch) with fmtch; [by apply emits_ascii|]. rewrite wrap_s_8 by lia. case_decide; lia. }
    intros s3 Hk3. apply (emits_bind _ _ _ _ _ _ tt _ (if negb left && zero then replicate pad 48 else [])).
    { apply emits_if; intros _; [apply emits_times; lia|apply emits_ret]. }
    intros s4 Hk4. apply (emits_bind _ _ _ _ _ _ tt _ (rep (dprec - Z.of_nat (length l)) 48)); [apply emits_times; lia|].
    intros s5 Hk5. apply (emits_bind _ _ _ _ _ _ tt _ l).
    { apply emits_text. repeat (eapply text_is_keeps; [eassumption|]). done. }
    intros s6 Hk6. apply (emits_bind _ _ _ _ _ _ tt _ (if left then replicate pad 32 else [])).
    { apply emits_if; intros _; [apply emits_times; lia|apply emits_ret]. }
    intros s7 Hk7. apply emits_ret. }
  - unfold txt. rewrite length_field. rewrite <- Hreal. destruct (Z.ltb_spec n width); lia.
  - unfold txt, field. rewrite <- Hreal. unfold prefix_of, rep at 3 4 5. fold pad. unfold pad at 1.
    rewrite left_blanks by lia. fold pad. destruct left, zero; cbn [negb andb app]; rewrite ?app_nil_r, <- ?app_assoc; done.
Qed.

End Field.

(** ** Integers *)

Lemma wrap_s_mod_eq w w' x y : 0 < w <= w' -> (x - y) mod 2 ^ w' = 0 -> wrap_s w x = wrap_s w y.
Proof.
  intros Hw H. unfold wrap_s. f_equal.
  apply Z.mod_divide in H as [k Hk]; [|apply Z.pow_nonzero; lia].
  replace (2 ^ w') with (2 ^ (w' - w) * 2 ^ w) in Hk by (rewrite <- Z.pow_add_r by lia; f_equal; lia).
  replace (x + 2 ^ (w - 1)) with (y + 2 ^ (w - 1) + (k * 2 ^ (w' - w)) * 2 ^ w) by lia.
  apply Z.mod_add. apply Z.pow_nonzero; lia.
Qed.

Lemma wrap_u_mod_eq w w' x y : 0 < w <= w' -> (x - y) mod 2 ^ w' = 0 -> wrap_u w x = wrap_u w y.
Proof.
  intros Hw H. unfold wrap_u.
  apply Z.mod_divide in H as [k Hk]; [|apply Z.pow_nonzero; lia].
  replace (2 ^ w') with (2 ^ (w' - w) * 2 ^ w) in Hk by (rewrite <- Z.pow_add_r by lia; f_equal; lia).
  replace x with (y + (k * 2 ^ (w' - w)) * 2 ^ w) by lia.
  apply Z.mod_add. apply Z.pow_nonzero; lia.
Qed.

Lemma wrap_s_cong w x : 0 < w -> (wrap_s w x - x) mod 2 ^ w = 0.
Proof.
  intros Hw. unfold wrap_s. set (h := 2 ^ (w - 1)).
  replace ((x + h) mod 2 ^ w - h - x) with ((x + h) mod 2 ^ w - (x + h)) by lia.
  rewrite Zminus_mod_idemp_l, Z.sub_diag. apply Z.mod_0_l, Z.pow_nonzero; lia.
Qed.

Lemma wrap_u_cong w x : 0 < w -> (wrap_u w x - x) mod 2 ^ w = 0.
Proof.
  intros Hw. unfold wrap_u. rewrite Zminus_mod_idemp_l, Z.sub_diag. apply Z.mod_0_l, Z.pow_nonzero; lia.
Qed.

Lemma wrap_s_bounds w x : 0 < w -> - 2 ^ (w - 1) <= wrap_s w x < 2 ^ (w - 1).
Proof.
  intros Hw. unfold wrap_s. pose proof (Z.mod_pos_bound (x + 2 ^ (w - 1)) (2 ^ w)) as H.
  replace (2 ^ w) with (2 * 2 ^ (w - 1)) in * by (rewrite <- Z.pow_succ_r by lia; f_equal; lia).
  pose proof (Z.pow_pos_nonneg 2 (w - 1)). lia.
Qed.

Lemma wrap_u_shrink w w' x y : 0 < w <= w' -> 
  y = wrap_s w' x \/ y = wrap_u w' x -> wrap_s w y = wrap_s w x /\ wrap_u w y = wrap_u w x.
Proof.
  intros Hw [-> | ->]; (split; [apply (wrap_s_mod_eq w w')|apply (wrap_u_mod_eq w w')]);
    solve [lia | apply wrap_s_cong; lia | apply wrap_u_cong; lia].
Qed.

(** The value that ARG fetches, as the unsigned number of 64 bits that it becomes *)
Lemma ARG_spec {F} signed (flags : Z) (d : len_mod) a (rest : list (varg F)) z :
  has flags LONGDBL = bool_decide (d ∈ [Lll; Lj]) -> has flags LONGINT = bool_decide (d ∈ [Ll; Lll; Lz]) ->
  has flags SHORTINT = bool_decide (d = Lh) -> int_arg signed d a = Some z ->
  ARG signed flags (varg_of a :: rest) = Done (wrap_u 64 z, rest) /\
  (if signed then - 2 ^ 63 <= z < 2 ^ 63 else 0 <= z < 2 ^ 64).
Proof.
  intros H1 H2 H3 Hz. unfold ARG. rewrite H1, H2, H3.
  destruct d, a; try done; cbn in Hz |- *; injection Hz as <-.
  all: destruct signed; (split; [|try (pose proof (wrap_s_bounds 64 v); pose proof (wrap_s_bounds 32 v);
     pose proof (wrap_s_bounds 16 v); lia); try (pose proof (wrap_u_range 64 v);
     pose proof (wrap_u_range 32 v); pose proof (wrap_u_range 16 v); lia)]).
  all: try done; apply (f_equal Done), (f_equal (fun z => (z, rest))).
  all: first [ by rewrite (proj2 (wrap_u_shrink 64 64 v (wrap_s 64 v) ltac:(lia) ltac:(auto)))
     | by rewrite (proj2 (wrap_u_shrink 64 64 v (wrap_u 64 v) ltac:(lia) ltac:(auto)))
     | by rewrite (proj1 (wrap_u_shrink 16 32 v (wrap_s 32 v) ltac:(lia) ltac:(auto)))
     | by rewrite (proj2 (wrap_u_shrink 16 32 v (wrap_s 32 v) ltac:(lia) ltac:(auto)))
     | by rewrite (proj2 (wrap_u_shrink 32 32 v (wrap_s 32 v) ltac:(lia) ltac:(auto))) ].
Qed.

Lemma magnitude_spec z : - 2 ^ 63 <= z < 2 ^ 63 ->
  magnitude (wrap_u 64 z) = Z.abs z /\ wrap_s 64 (wrap_u 64 z) = z.
Proof.
  intros Hz.
  assert (E : wrap_s 64 (wrap_u 64 z) = z).
  { rewrite (proj1 (wrap_u_shrink 64 64 z (wrap_u 64 z) ltac:(lia) ltac:(auto))). by apply wrap_s_small. }
  split; [|done]. unfold magnitude. rewrite E. destruct (Z.ltb_spec z 0).
  - unfold wrap_u. rewrite <- Z.sub_0_l, Zminus_mod_idemp_r, Z.mod_small; lia.
  - rewrite wrap_u_small; lia.
Qed.

Lemma nth_digit_ok upper n : 0 <= nth n (if upper : bool then UPPER_DIGITS else LOWER_DIGITS) 0 < 256.
Proof. destruct upper; do 16 (destruct n as [|n]; [done|]); by destruct n. Qed.

Lemma CONVERT_ok v base upper : bytes_ok (CONVERT v base upper).
Proof.
  unfold CONVERT. generalize 64%nat. intros fuel. assert (H : bytes_ok []) by constructor.
  revert v H. generalize (@nil Z). induction fuel as [|fuel IH]; intros l v Hl; [done|]. cbn [convert_loop].
  assert (Hl' : bytes_ok (nth (Z.to_nat (v mod base)) (if upper then UPPER_DIGITS else LOWER_DIGITS) 0 :: l)).
  { constructor; [apply nth_digit_ok|done]. }
  destruct (_ =? 0); [done|]. by apply IH.
Qed.

Lemma nth_digit_text (upper : bool) d : 0 <= d < 16 ->
  nth (Z.to_nat d) (if upper then UPPER_DIGITS else LOWER_DIGITS) 0 = digit_text upper d.
Proof.
  intros Hd. apply Z.eqb_eq. revert d Hd. apply (range_all 0 16). destruct upper; by vm_compute.
Qed.

Lemma digit_count base : forall n v, 2 <= base -> 0 <= v < base ^ Z.of_nat (S n) -> exists c,
  (c <= n)%nat /\ v < base ^ Z.of_nat (S c) /\ (c = 0%nat \/ base ^ Z.of_nat c <= v).
Proof.
  induction n as [|n IH]; intros v Hb Hv; [exists 0%nat; lia|].
  destruct (Z.lt_ge_cases v (base ^ Z.of_nat (S n))) as [Hlt|Hge].
  - destruct (IH v Hb ltac:(lia)) as (c & ? & ? & ?). exists c. lia.
  - exists (S n). lia.
Qed.

Lemma filter_all (P : Z -> Prop) `{forall x, Decision (P x)} (l : list Z) : (forall x, x ∈ l -> P x) -> filter P l = l.
Proof.
  induction l as [|x l IH]; intros Hl; [done|]. rewrite filter_cons_True by set_solver. f_equal. apply IH. set_solver.
Qed.

Lemma filter_none (P : Z -> Prop) `{forall x, Decision (P x)} (l : list Z) : (forall x, x ∈ l -> ~ P x) -> filter P l = [].
Proof.
  induction l as [|x l IH]; intros Hl; [done|]. rewrite filter_cons_False by set_solver. apply IH. set_solver.
Qed.

Lemma count_digits_spec base v c : 2 <= base -> (c < 64)%nat -> v < base ^ Z.of_nat (S c) ->
  c = 0%nat \/ base ^ Z.of_nat c <= v -> count_digits base v = S c.
Proof.
  intros Hb Hc Hlt Hge. unfold count_digits. f_equal.
  replace (seqZ 1 63) with (seqZ 1 (Z.of_nat c) ++ seqZ (1 + Z.of_nat c) (63 - Z.of_nat c)).
  2: { rewrite <- seqZ_app by lia. f_equal. lia. }
  rewrite list.filter_app, length_app.
  assert (E1 : filter (fun k => base ^ k <= v) (seqZ 1 (Z.of_nat c)) = seqZ 1 (Z.of_nat c)).
  { apply filter_all. intros k Hk%elem_of_seqZ. destruct Hge as [->|Hge]; [lia|].
    etransitivity; [|exact Hge]. apply Z.pow_le_mono_r; lia. }
  assert (E2 : filter (fun k => base ^ k <= v) (seqZ (1 + Z.of_nat c) (63 - Z.of_nat c)) = []).
  { apply filter_none. intros k Hk%elem_of_seqZ. apply Z.lt_nge.
    apply Z.lt_le_trans with (base ^ Z.of_nat (S c)); [done|]. apply Z.pow_le_mono_r; lia. }
  rewrite E1, E2, length_seqZ. simpl. lia.
Qed.

Lemma convert_loop_text base (upper : bool) : forall c fuel v acc, 2 <= base <= 16 -> (c < fuel)%nat ->
  0 <= v < base ^ Z.of_nat (S c) -> c = 0%nat \/ base ^ Z.of_nat c <= v ->
  convert_loop fuel v base (if upper then UPPER_DIGITS else LOWER_DIGITS) acc =
  ((fun i => digit_text upper (v / base ^ i mod base)) <$> reverse (seqZ 0 (Z.of_nat (S c)))) ++ acc.
Proof.
  induction c as [|c IH]; intros fuel v acc Hb Hf Hv Hge; (destruct fuel as [|fuel]; [lia|]); cbn [convert_loop];
    rewrite nth_digit_text by (pose proof (Z.mod_pos_bound v base); lia).
  - rewrite Z.pow_1_r in Hv. rewrite (Z.div_small v base) by lia. change (reverse (seqZ 0 (Z.of_nat 1))) with [0].
    cbn [fmap list_fmap app]. by rewrite Z.pow_0_r, Z.div_1_r.
  - destruct Hge as [?|Hge]; [done|]. rewrite Nat2Z.inj_succ, Z.pow_succ_r in Hge by lia.
    rewrite (Nat2Z.inj_succ (S c)), Z.pow_succ_r in Hv by lia.
    assert (Hlo : base ^ Z.of_nat c <= v / base) by (apply Z.div_le_lower_bound; lia).
    assert (Hp : 0 < base ^ Z.of_nat c) by (apply Z.pow_pos_nonneg; lia).
    destruct (Z.eqb_spec (v / base) 0) as [E|_]; [lia|].
    rewrite (IH fuel (v / base)); [|lia|lia|split; [lia|apply Z.div_lt_upper_bound; lia]|by right].
    rewrite (seqZ_cons 0 (Z.of_nat (S (S c)))) by lia. rewrite reverse_cons, fmap_app, <- app_assoc. f_equal.
    + replace (Z.succ 0) with (1 + 0) by lia. rewrite <- (fmap_add_seqZ 1 0), <- fmap_reverse, <- list_fmap_compose.
      replace (Z.pred (Z.of_nat (S (S c)))) with (Z.of_nat (S c)) by lia.
      apply list_fmap_ext. intros j i Hi. apply list_elem_of_lookup_2, elem_of_reverse, elem_of_seqZ in Hi. simpl.
      rewrite Z.pow_add_r, Z.pow_1_r, Z.div_div by lia. done.
    + cbn [fmap list_fmap app]. by rewrite Z.pow_0_r, Z.div_1_r.
Qed.

(** CONVERT gives the number in positional notation. *)
Lemma CONVERT_text v base upper : 2 <= base <= 16 -> 0 <= v < 2 ^ 64 -> CONVERT v base upper = numeral_text base upper v.
Proof.
  intros Hb Hv. destruct (digit_count base 63 v) as (c & Hc & Hlt & Hge); [lia| |].
  { split; [lia|]. apply Z.lt_le_trans with (2 ^ 64); [lia|]. apply Z.pow_le_mono_l. lia. }
  unfold CONVERT, numeral_text. rewrite (convert_loop_text base upper c), (count_digits_spec base v c) by lia.
  apply app_nil_r.
Qed.

(** ** Strings *)

Lemma memchr_nul l : forall m s n, bytes_at m s (l ++ [0]) -> str_ok l -> (length l < n)%nat ->
  memchr m s 0 (Z.of_nat n) = Done (s + Z.of_nat (length l)).
Proof.
  unfold memchr. induction l as [|b l IH]; intros m s n Hs Hok Hn; (destruct n as [|n]; [simpl in Hn; lia|]);
    rewrite of_nat_eqb_0, count_fuel_of_nat; simpl (_ =? _)%nat; cbn iota;
    apply bytes_at_cons in Hs as [Hb Hs]; rewrite loop_S; cbn beta iota;
    rewrite (load_Some _ _ _ Hb), bind_Done, of_nat_S_pred.
  - cbn [byte]. simpl. f_equal. lia.
  - apply Forall_cons_1 in Hok as [Hb0 Hok]. replace (b =? byte 0) with false by (change (byte 0) with 0; lia).
    rewrite of_nat_eqb_0. destruct n as [|n]; [simpl in Hn; lia|].
    specialize (IH m (s + 1) (S n) Hs Hok ltac:(simpl in Hn; lia)).
    rewrite of_nat_eqb_0, count_fuel_of_nat in IH. simpl (_ =? _)%nat in IH |- *. cbn iota in IH |- *. rewrite IH.
    simpl length. f_equal. lia.
Qed.

Lemma find_nul_none l : str_ok l -> find_index (Z.eqb 0) l = None.
Proof.
  induction 1 as [|b l Hb Hok IH]; [done|]. simpl. destruct (Z.eqb_spec 0 b); [lia|]. by rewrite IH.
Qed.

Lemma memchr_none l m s : bytes_at m s l -> str_ok l -> memchr m s 0 (Z.of_nat (length l)) = Done 0.
Proof. intros Hs Hok. rewrite (memchr_spec l) by done. change (byte 0) with 0. by rewrite find_nul_none. Qed.

Section Str.
Context {SA : StdioApi} (AUTO tb f : Z) {SK : Sink AUTO tb f}.

Lemma string_size_spec s t l prec :
  client_bytes AUTO tb f s t (l ++ [0]) -> str_ok l -> 0 < t ->
  wpi (string_size t prec) (fun n s' =>
    n = Z.of_nat (length (if prec <? 0 then l else take (Z.to_nat prec) l)) /\ s' = s) s.
Proof.
  intros (Hat & _ & _) Hl Ht. unfold string_size.
  destruct (Z.leb_spec 0 prec) as [Hp|Hp].
  2: { destruct (Z.ltb_spec prec 0); [|lia]. unfold wpi, c_strlen. rewrite (strlen_spec _ _ l); [|lia|by split].
       by rewrite bind_Done. }
  destruct (Z.ltb_spec prec 0); [lia|]. apply wpi_bind. unfold wpi at 1, c_memchr. rewrite length_take.
  destruct (decide (length l < Z.to_nat prec)%nat) as [Hn|Hn].
  - pose proof (memchr_nul l _ t _ Hat Hl Hn) as E0. rewrite Z2Nat.id in E0 by done. rewrite E0, bind_Done.
    apply wpi_ret. split; [|done]. destruct (Z.eqb_spec (t + Z.of_nat (length l)) 0) as [E|E].
    + lia.
    + destruct (Z.ltb_spec prec (t + Z.of_nat (length l) - t)); lia.
  - pose proof (memchr_none (take (Z.to_nat prec) l) (i_mem s) t) as E0.
    rewrite length_take, Nat.min_l, Z2Nat.id in E0 by lia. rewrite E0, bind_Done.
    + apply wpi_ret. split; [|done]. simpl. lia.
    + intros i b Hi. apply Hat. rewrite lookup_app_l by (apply lookup_lt_Some in Hi; rewrite length_take in Hi; lia).
      by apply lookup_take_Some in Hi as [? _].
    + by apply Forall_take.
Qed.
End Str.

(** ** Conversions *)

Section Conv.
Context {SA : StdioApi} (AUTO tb f : Z) {SK : Sink AUTO tb f}.
Context {F : Type} (float_conv : Z -> Z -> Z -> Z -> F -> list Z * Z * Z).
Context (thousands_sep grouping : Z).
Implicit Types (s : iost) (k : conv (F := F)).

Lemma emits_number s fmtch value base sign flags prec width :
  has flags GROUPING = false -> 0 <= sign < 128 -> 0 <= fmtch < 128 -> fmtch <> 65 -> fmtch <> 97 ->
  has flags ALT && (base =? 8) && (value =? 0) && (prec =? 0) = false ->
  2 <= base <= 16 -> 0 <= value < 2 ^ 64 ->
  let txt := field (has flags LADJUST) (has flags ZEROPAD && (prec <? 0)) width
    (prefix_of sign (has flags HEXPREFIX && has flags FINITENUMBER) fmtch)
    (digits base (has flags UPPERCASE) (has flags ALT) prec value) in
  emits AUTO tb f s (number AUTO tb thousands_sep grouping fmtch value base sign flags prec width f)
    (Z.of_nat (length txt)) txt.
Proof.
  intros Hg Hs Hc H1 H2 Hex Hb Hv txt. unfold number.
  set (fl := if 0 <=? prec then without flags ZEROPAD else flags).
  assert (Hfl : forall b, without b ZEROPAD = b -> has fl b = has flags b).
  { intros b Hbz. unfold fl. destruct (0 <=? prec); [|done]. by apply has_without_ne. }
  assert (Hz : has fl ZEROPAD = has flags ZEROPAD && (prec <? 0)).
  { unfold fl. destruct (Z.leb_spec 0 prec), (Z.ltb_spec prec 0); try lia; rewrite ?andb_true_r, ?andb_false_r; [|done].
    by apply has_without_in. }
  rewrite (Hfl UPPERCASE), (Hfl ALT) by done.
  set (t := if negb (value =? 0) || negb (prec =? 0) then _ else _).
  assert (Et : digits base (has flags UPPERCASE) (has flags ALT) prec value = rep (prec - Z.of_nat (length t)) 48 ++ t).
  { unfold t, digits. rewrite <- CONVERT_text by done. destruct (value =? 0), (prec =? 0); cbn [negb orb andb]; try done.
    rewrite !andb_true_r in Hex. by rewrite Hex. }
  assert (Ht : bytes_ok t).
  { pose proof (CONVERT_ok value base (has flags UPPERCASE)). unfold t. case_match; [|constructor].
    cbv zeta. case_match; [by constructor|done]. }
  eapply emits_eq; [apply (emits_pforw _ _ _ _ _ _ _ _ _ _ _ _ _ t); [done|by rewrite Hfl|done..]| |];
    by rewrite Hz, <- Et, !Hfl.
Qed.

(** What rflag has made of the directive [d], with the arguments [args] left *)
Record part (d : directive) (left : bool) (len : len_mod) (width prec : Z) k (args : list rarg) : Prop := {
  p_left : has (c_flags k) LADJUST = left;
  p_zero : has (c_flags k) ZEROPAD = flag_in 48 d;
  p_alt : has (c_flags k) ALT = flag_in 35 d;
  p_ll : has (c_flags k) LONGDBL = bool_decide (len ∈ [Lll; Lj]);
  p_l : has (c_flags k) LONGINT = bool_decide (len ∈ [Ll; Lll; Lz]);
  p_h : has (c_flags k) SHORTINT = bool_decide (len = Lh);
  p_other : has (c_flags k) (GROUPING .| (HEXPREFIX .| (FINITENUMBER .| UPPERCASE))) = false;
  p_width : c_width k = width;
  p_prec : c_prec k = prec;
  p_sign : c_sign k = if flag_in 43 d then 43 else if flag_in 32 d then 32 else 0;
  p_numeric : c_numeric k = false;
  p_local : va_local (c_va k) = false;
  p_args : va_caller (c_va k) = varg_of <$> args }.

(** All of it, with the width [w] and the precision [p] *)
Definition parsed (d : directive) (w p : Z) k (args : list rarg) : Prop :=
  part d (flag_in 45 d || (w <? 0)) (d_len d) (Z.abs w) (Z.max p (-1)) k args.

(** The next conversion has the arguments [args]. *)
Definition ready k (args : list rarg) : Prop :=
  c_numeric k = false /\ va_local (c_va k) = false /\ va_caller (c_va k) = varg_of <$> args.

(** A string among the arguments lies in memory of the client's. *)
Definition arg_ok s (a : rarg) : Prop :=
  match a with
  | RStr p l => p = 0 /\ l = NULL_REP \/ 0 < p /\ str_ok l /\ client_bytes AUTO tb f s p (l ++ [0])
  | _ => True
  end.

Lemma arg_ok_keeps s s' a : keeps AUTO tb f s s' -> arg_ok s a -> arg_ok s' a.
Proof.
  destruct a as [| | |p l|]; try done. intros Hk [?|(? & ? & ?)]; [by left|right]. split_and!; [done..|].
  by eapply client_bytes_keeps.
Qed.

Lemma parsed_other d w p k args : parsed d w p k args ->
  has (c_flags k) GROUPING = false /\ has (c_flags k) HEXPREFIX = false /\
  has (c_flags k) FINITENUMBER = false /\ has (c_flags k) UPPERCASE = false.
Proof. intros H. apply p_other in H. rewrite !has_mask, !orb_false_iff in H. tauto. Qed.

(** The end of a conversion of an integer *)
Lemma emits_number_ret {A} s fmtch value base sign flags prec width out (g : Z -> A) :
  has flags GROUPING = false -> 0 <= sign < 128 -> 0 <= fmtch < 128 -> fmtch <> 65 -> fmtch <> 97 ->
  has flags ALT && (base =? 8) && (value =? 0) && (prec =? 0) = false ->
  2 <= base <= 16 -> 0 <= value < 2 ^ 64 ->
  out = field (has flags LADJUST) (has flags ZEROPAD && (prec <? 0)) width
    (prefix_of sign (has flags HEXPREFIX && has flags FINITENUMBER) fmtch)
    (digits base (has flags UPPERCASE) (has flags ALT) prec value) ->
  emits AUTO tb f s (n ← number AUTO tb thousands_sep grouping fmtch value base sign flags prec width f; mret (g n))
    (g (Z.of_nat (length out))) out.
Proof.
  intros ? ? ? ? ? ? ? ? ->. eapply emits_eq; [|done|apply app_nil_r].
  eapply emits_bind; [by apply emits_number|]. intros ? _. apply emits_ret.
Qed.

Lemma ready_next k v l args : va_local (c_va k) = false ->
  l = varg_of <$> args -> v = c_va k -> ready (with_va k false (set_argp v l)) args.
Proof. intros Hl -> ->. unfold ready, set_argp. cbn. rewrite Hl. done. Qed.

Lemma digits_noalt base upper alt prec v : base <> 8 -> digits base upper alt prec v = digits base upper false prec v.
Proof. intros Hb. unfold digits. rewrite (proj2 (Z.eqb_neq base 8) Hb), andb_false_r. done. Qed.

Lemma signed_conv_spec s d w p k a args z fmtch :
  parsed d w p k (a :: args) -> int_arg true (d_len d) a = Some z -> fmtch ∈ [100; 105] ->
  let txt := field (flag_in 45 d || (w <? 0)) (flag_in 48 d && (Z.max p (-1) <? 0)) (Z.abs w)
    (sign_char (flag_in 43 d) (flag_in 32 d) z) (digits 10 false false (Z.max p (-1)) (Z.abs z)) in
  exists k', ready k' args /\
    emits AUTO tb f s (signed_conv AUTO tb thousands_sep grouping fmtch 0 k f) (Z.of_nat (length txt), k') txt.
Proof.
  intros Hp Hz Hf txt. destruct (parsed_other _ _ _ _ _ Hp) as (Hg & Hh & Hn & Hu).
  destruct Hp as [Hl Hze Hal Hll Hlo Hsh _ Hw Hpr Hsi Hnu Hlc Har].
  assert (Hc : 0 <= fmtch < 128 /\ fmtch <> 65 /\ fmtch <> 97) by (set_unfold in Hf; lia).
  destruct (ARG_spec (F := F) true (c_flags k .| 0) (d_len d) a (varg_of <$> args) z) as [Ea Hr];
    [by rewrite Z.lor_0_r..|done|]. destruct (magnitude_spec z Hr) as [Em Es].
  exists (with_va k false (set_argp (c_va k) (varg_of <$> args))). split; [by apply ready_next|].
  unfold signed_conv. rewrite Hnu. cbn [redirect]. unfold argp. rewrite Hlc, Har. cbn [fmap list_fmap].
  eapply emits_pure; [unfold wpi, lift; rewrite Ea; done|]. cbv beta iota zeta. rewrite Em, Es, Z.lor_0_r.
  apply (emits_number_ret _ _ _ _ _ _ _ _ _ (fun n => (n, _))); flags; rewrite ?Hg; try tauto; try done.
  - rewrite Hsi. repeat case_match; lia.
  - rewrite !andb_false_r. done.
  - lia.
  - unfold txt. rewrite Hl, Hze, Hal, Hpr, Hw, Hh, Hu. f_equal.
    + unfold sign_char, prefix_of. rewrite Hsi. destruct (z <? 0), (flag_in 43 d), (flag_in 32 d); done.
    + symmetry. by apply digits_noalt.
Qed.

(** The flags with the prefix of a hexadecimal number *)
Definition hex_flags (fl : Z) (c : bool) : Z := if c then fl .| FINITENUMBER .| HEXPREFIX else fl .| FINITENUMBER.

Lemma hex_flags_other fl c b :
  has HEXPREFIX b = false -> has FINITENUMBER b = false -> has (hex_flags fl c) b = has fl b.
Proof. intros H1 H2. unfold hex_flags. destruct c; rewrite !has_or, ?H1, H2, !orb_false_r; done. Qed.

Lemma hex_flags_hex fl c :
  has fl HEXPREFIX = false -> has (hex_flags fl c) HEXPREFIX && has (hex_flags fl c) FINITENUMBER = c.
Proof. intros H1. unfold hex_flags. destruct c; flags; [done|]. by rewrite H1. Qed.

Lemma unsigned_conv_spec s d w p k a args z fmtch base extra :
  parsed d w p k (a :: args) -> int_arg false (d_len d) a = Some z ->
  (fmtch, base, extra) ∈ [(117, 10, 0); (111, 8, 0); (120, 16, 0); (88, 16, UPPERCASE)] ->
  (base =? 8) && flag_in 35 d && (z =? 0) && (Z.max p (-1) =? 0) = false ->
  let txt := field (flag_in 45 d || (w <? 0)) (flag_in 48 d && (Z.max p (-1) <? 0)) (Z.abs w)
    (if (base =? 16) && flag_in 35 d && negb (z =? 0) then [48; fmtch] else [])
    (digits base (extra =? UPPERCASE) (flag_in 35 d) (Z.max p (-1)) z) in
  exists k', ready k' args /\
    emits AUTO tb f s (unsigned_conv AUTO tb thousands_sep grouping fmtch base extra k f) (Z.of_nat (length txt), k') txt.
Proof.
  intros Hp Hz Hf Hex txt. destruct (parsed_other _ _ _ _ _ Hp) as (Hg & Hh & Hn & Hu).
  destruct Hp as [Hl Hze Hal Hll Hlo Hsh _ Hw Hpr Hsi Hnu Hlc Har].
  assert (Hc : 0 <= fmtch < 128 /\ fmtch <> 65 /\ fmtch <> 97 /\ (extra = 0 \/ extra = UPPERCASE)).
  { set_unfold in Hf. naive_solver lia. }
  assert (Hextra : forall b, has UPPERCASE b = false -> has (c_flags k .| extra) b = has (c_flags k) b).
  { intros b Hb. destruct Hc as (_ & _ & _ & [-> | ->]); [by rewrite Z.lor_0_r|]. by rewrite has_or, Hb, orb_false_r. }
  destruct (ARG_spec (F := F) false (c_flags k .| extra) (d_len d) a (varg_of <$> args) z) as [Ea Hr];
    [by rewrite Hextra..|done|].
  exists (with_va k false (set_argp (c_va k) (varg_of <$> args))). split; [by apply ready_next|].
  unfold unsigned_conv. rewrite Hnu. cbn [redirect]. unfold argp. rewrite Hlc, Har. cbn [fmap list_fmap].
  eapply emits_pure; [unfold wpi, lift; rewrite Ea; done|]. cbv beta iota zeta. rewrite wrap_u_small by done.
  replace (has ((c_flags k .| extra) .| FINITENUMBER) ALT) with (flag_in 35 d); cycle 1.
  { rewrite has_or, Hextra by done. flags. done. }
  change (if _ && _ && _ then _ else _) with (hex_flags (c_flags k .| extra) ((base =? 16) && flag_in 35 d && negb (z =? 0))).
  assert (Hh' : has (c_flags k .| extra) HEXPREFIX = false) by by rewrite Hextra.
  apply (emits_number_ret _ _ _ _ _ _ _ _ _ (fun n => (n, _))); rewrite ?hex_flags_other by done; rewrite ?(Hextra GROUPING), ?(Hextra ALT) by done;
    try tauto; try lia.
  - rewrite Hal, Hpr, <- Hex. f_equal. f_equal. apply andb_comm.
  - set_unfold in Hf. naive_solver lia.
  - assert (Eu : has (c_flags k .| extra) UPPERCASE = (extra =? UPPERCASE)).
    { rewrite has_or, Hu. by destruct Hc as (_ & _ & _ & [-> | ->]). }
    rewrite hex_flags_hex, !hex_flags_other, (Hextra LADJUST), (Hextra ZEROPAD), (Hextra ALT), Eu by done.
    unfold txt. by rewrite Hl, Hze, Hal, Hpr, Hw.
Qed.
Lemma emits_pforw_ret {A} s fmtch flags width t l out (g : Z -> A) :
  text_is AUTO tb f s t l -> has flags GROUPING = false -> has flags HEXPREFIX = false -> 0 <= fmtch < 128 -> fmtch <> 97 ->
  fmtch <> 65 -> out = field (has flags LADJUST) (has flags ZEROPAD) width [] l ->
  emits AUTO tb f s (n ← pforw AUTO tb thousands_sep grouping fmtch 0 0 0 flags width t f; mret (g n))
    (g (Z.of_nat (length out))) out.
Proof.
  intros Ht Hg Hh Hc H1 H2 ->. eapply emits_eq; [|done|apply app_nil_r].
  eapply emits_bind; [|intros; apply emits_ret]. eapply emits_eq; [apply emits_pforw; try done; lia| |];
    rewrite Hh; cbn [andb]; unfold prefix_of; cbn [Z.eqb app];
    (replace (rep (0 - Z.of_nat (length l)) 48) with (@nil Z) by (unfold rep; by replace (Z.to_nat _) with 0%nat by lia)); done.
Qed.

Lemma string_conv_spec s d w p k q l args :
  parsed d w p k (RStr q l :: args) -> arg_ok s (RStr q l) ->
  let txt := field (flag_in 45 d || (w <? 0)) (flag_in 48 d) (Z.abs w) []
    (if Z.max p (-1) <? 0 then l else take (Z.to_nat (Z.max p (-1))) l) in
  exists k', ready k' args /\
    emits AUTO tb f s (string_conv AUTO tb thousands_sep grouping 115 k f) (Z.of_nat (length txt), k') txt.
Proof.
  intros Hp Ha txt. destruct (parsed_other _ _ _ _ _ Hp) as (Hg & Hh & Hn & Hu).
  destruct Hp as [Hl Hze Hal Hll Hlo Hsh _ Hw Hpr Hsi Hnu Hlc Har].
  exists (with_va k false (set_argp (c_va k) (varg_of <$> args))). split; [by apply ready_next|].
  unfold string_conv. rewrite Hnu. cbn [redirect]. unfold argp. rewrite Hlc, Har. cbn [fmap list_fmap varg_of].
  eapply emits_pure; [done|]. cbv beta iota zeta.
  set (l' := if Z.max p (-1) <? 0 then l else take (Z.to_nat (Z.max p (-1))) l) in *.
  destruct Ha as [[-> ->]|(Hq & Hs & Hb)].
  - cbn [Z.eqb]. eapply emits_pure; [by apply wpi_ret|]. apply (emits_pforw_ret _ _ _ _ _ l' _ (fun n => (n, _))); try done; [|by unfold txt; rewrite Hl, Hze, Hw].
    cbn [text_is]. rewrite Hpr. unfold l'. split.
    + destruct (Z.leb_spec 0 (Z.max p (-1))), (Z.ltb_spec (Z.max p (-1)) 0); done || lia.
    + assert (Hn0 : bytes_ok NULL_REP) by by repeat constructor.
      destruct (Z.max p (-1) <? 0); [done|by apply Forall_take].
  - replace (q =? 0) with false by lia. eapply emits_pure.
    { apply wpi_bind. eapply wpi_mono; [by eapply string_size_spec|]. cbv beta. intros ? ? [-> ->]. by apply wpi_ret. }
    rewrite Hpr. fold l'. apply (emits_pforw_ret _ _ _ _ _ l' _ (fun n => (n, _))); try done; [|by unfold txt; rewrite Hl, Hze, Hw].
    split; [done|]. apply client_bytes_app in Hb as [Hb _]. unfold l'. destruct (Z.max p (-1) <? 0); [done|].
    rewrite <- (take_drop (Z.to_nat (Z.max p (-1))) l) in Hb. by apply client_bytes_app in Hb as [? _].
Qed.

Lemma char_conv_spec s d w p k v args cnt :
  parsed d w p k (RInt v :: args) ->
  let txt := field (flag_in 45 d || (w <? 0)) (flag_in 48 d) (Z.abs w) [] [byte v] in
  exists k', ready k' args /\
    emits AUTO tb f s (conversion AUTO tb float_conv thousands_sep grouping 99 cnt k f) (Some (Z.of_nat (length txt), k')) txt.
Proof.
  intros Hp txt. destruct (parsed_other _ _ _ _ _ Hp) as (Hg & Hh & Hn & Hu).
  destruct Hp as [Hl Hze Hal Hll Hlo Hsh _ Hw Hpr Hsi Hnu Hlc Har].
  exists (with_va k false (set_argp (c_va k) (varg_of <$> args))). split; [by apply ready_next|].
  unfold conversion. cbn [Z.eqb Pos.eqb]. unfold argp. rewrite Hlc, Har. cbn [fmap list_fmap varg_of].
  eapply emits_pure; [done|]. cbv beta iota zeta.
  assert (Eb : byte (wrap_s 32 v) = byte v).
  { apply (wrap_u_mod_eq 8 32); [lia|]. apply wrap_s_cong. lia. }
  rewrite Eb, Hnu.
  apply (emits_pforw_ret _ _ _ _ _ [byte v] _ (fun n => Some (n, _))); try done; [|by unfold txt; rewrite Hl, Hze, Hw].
  split; [done|]. constructor; [apply byte_range|constructor].
Qed.

Lemma ptr_conv_spec s d w p k q args cnt :
  parsed d w p k (RPtr q :: args) ->
  let txt := field (flag_in 45 d || (w <? 0)) (flag_in 48 d && (Z.max p (-1) <? 0)) (Z.abs w) []
    (digits 16 false false (Z.max p (-1)) (wrap_u 64 q)) in
  exists k', ready k' args /\
    emits AUTO tb f s (conversion AUTO tb float_conv thousands_sep grouping 112 cnt k f) (Some (Z.of_nat (length txt), k')) txt.
Proof.
  intros Hp txt. destruct (parsed_other _ _ _ _ _ Hp) as (Hg & Hh & Hn & Hu).
  destruct Hp as [Hl Hze Hal Hll Hlo Hsh _ Hw Hpr Hsi Hnu Hlc Har].
  exists (with_va k false (set_argp (c_va k) (varg_of <$> args))). split; [by apply ready_next|].
  unfold conversion. cbn [Z.eqb Pos.eqb]. rewrite !bool_decide_eq_false_2 by (set_unfold; lia).
  unfold argp. rewrite Hnu. cbn [redirect]. rewrite Hlc, Har. cbn [fmap list_fmap varg_of].
  eapply emits_pure; [done|]. cbv beta iota zeta.
  apply (emits_number_ret _ _ _ _ _ _ _ _ _ (fun n => Some (n, _))); try done.
  - by rewrite andb_false_r.
  - pose proof (wrap_u_range 64 q). lia.
  - unfold txt. rewrite Hl, Hze, Hw, Hpr, Hh, Hu. by rewrite (digits_noalt _ _ (has _ _)).
Qed.

Lemma int_conv_spec s d w p k a args cnt t :
  parsed d w p k (a :: args) -> int_text d (flag_in 45 d || (w <? 0)) (Z.abs w) (Z.max p (-1)) a = Some t ->
  exists k', ready k' args /\
    emits AUTO tb f s (conversion AUTO tb float_conv thousands_sep grouping (d_conv d) cnt k f) (Some (Z.of_nat (length t), k')) t.
Proof.
  intros Hp Ht. unfold int_text in Ht.
  destruct (decide (d_conv d ∈ [100; 105])) as [Hd|Hd].
  { replace ((d_conv d =? 100) || (d_conv d =? 105)) with true in Ht by (set_unfold in Hd; lia).
    apply bind_Some in Ht as (z & Hz & [= <-]).
    destruct (signed_conv_spec s d w p k a args z (d_conv d) Hp Hz Hd) as (k' & Hk & He). exists k'. split; [done|].
    unfold conversion. rewrite (proj2 (Z.eqb_neq (d_conv d) 99)), (proj2 (Z.eqb_neq (d_conv d) 68)) by (set_unfold in Hd; lia).
    rewrite bool_decide_eq_true_2 by done. by apply emits_some. }
  replace ((d_conv d =? 100) || (d_conv d =? 105)) with false in Ht by (set_unfold in Hd; lia).
  assert (Hu : exists base extra, (d_conv d, base, extra) ∈ [(117, 10, 0); (111, 8, 0); (120, 16, 0); (88, 16, UPPERCASE)] /\
    (v ← int_arg false (d_len d) a;
     if (base =? 8) && flag_in 35 d && (v =? 0) && (Z.max p (-1) =? 0) then None
     else Some (field (flag_in 45 d || (w <? 0)) (flag_in 48 d && (Z.max p (-1) <? 0)) (Z.abs w)
        (if (base =? 16) && flag_in 35 d && negb (v =? 0) then [48; d_conv d] else [])
        (digits base (extra =? UPPERCASE) (flag_in 35 d) (Z.max p (-1)) v))) = Some t).
  { destruct (Z.eqb_spec (d_conv d) 117) as [->|]; [exists 10, 0; split; [set_solver|done]|].
    destruct (Z.eqb_spec (d_conv d) 111) as [->|]; [exists 8, 0; split; [set_solver|done]|].
    destruct (Z.eqb_spec (d_conv d) 120) as [->|]; [exists 16, 0; split; [set_solver|done]|].
    destruct (Z.eqb_spec (d_conv d) 88) as [->|]; [exists 16, UPPERCASE; split; [set_solver|done]|done]. }
  clear Ht. destruct Hu as (base & extra & Hin & Ht). apply bind_Some in Ht as (z & Hz & Ht).
  destruct ((base =? 8) && _ && _ && _) eqn:Hex; [done|]. injection Ht as <-.
  destruct (unsigned_conv_spec s d w p k a args z _ _ _ Hp Hz Hin Hex) as (k' & Hk & He). exists k'. split; [done|].
  replace (conversion _ _ _ _ _ _ _ _ _) with
    (r ← unsigned_conv AUTO tb thousands_sep grouping (d_conv d) base extra k f; mret (Some r)); [by apply emits_some|].
  set_unfold in Hin. destruct Hin as [[= -> -> ->]|[[= -> -> ->]|[[= -> -> ->]|[[= -> -> ->]|[]]]]]; done.
Qed.

Lemma conversion_spec s d w p k args cnt t rest :
  parsed d w p k args -> d_conv d ∈ [100; 105; 117; 111; 120; 88; 99; 115; 112; 37] -> Forall (arg_ok s) args ->
  (if d_conv d =? 37 then Some ([37], args)
   else match args with
        | [] => None
        | a :: args' => t ← conv_text d (flag_in 45 d || (w <? 0)) (Z.abs w) (Z.max p (-1)) a; Some (t, args')
        end) = Some (t, rest) ->
  exists k', ready k' rest /\
    emits AUTO tb f s (conversion AUTO tb float_conv thousands_sep grouping (d_conv d) cnt k f) (Some (Z.of_nat (length t), k')) t.
Proof.
  intros Hp Hd Ha Ht. destruct (Z.eqb_spec (d_conv d) 37) as [E|E].
  { injection Ht as <- <-. exists k. split; [by destruct Hp|]. rewrite E. unfold conversion. cbn [Z.eqb Pos.eqb].
    rewrite !bool_decide_eq_false_2 by (set_unfold; lia). eapply emits_eq; [|done|apply app_nil_r].
    eapply emits_bind; [by apply emits_ascii|intros; apply emits_ret]. }
  destruct args as [|a args']; [done|]. apply bind_Some in Ht as (t' & Ht & [= <- <-]).
  apply Forall_cons_1 in Ha as [Ha _].
  destruct a as [v|v|v|q l|q]; cbn [conv_text] in Ht; try by eapply int_conv_spec.
  - destruct (Z.eqb_spec (d_conv d) 99) as [E'|]; [|by eapply int_conv_spec].
    injection Ht as <-. rewrite E'. by eapply char_conv_spec.
  - destruct (Z.eqb_spec (d_conv d) 115) as [E'|]; [|done]. injection Ht as <-.
    destruct (string_conv_spec s d w p k q l args' Hp Ha) as (k' & Hk & He). exists k'. split; [done|]. rewrite E'.
    unfold conversion. cbn [Z.eqb Pos.eqb]. rewrite !bool_decide_eq_false_2 by (set_unfold; lia). by apply emits_some.
  - destruct (Z.eqb_spec (d_conv d) 112) as [E'|]; [|done]. injection Ht as <-. rewrite E'. by eapply ptr_conv_spec.
Qed.

End Conv.
