(* ===== verification/DoprntLoop.v ===== *)
(** * printf: the format

    rflag reads a directive as it was written, numbers included, and the loop puts the text
    of the whole format on the stream. *)

From stdpp Require Import base gmap list numbers.
From Stdlib Require Import ZArith Lia.
From S2P Require Import Prelude Ctype MemFuns Strings Strto NMalloc NmRep Stdio StdioInv StdioWr Doprnt DoprntSpec DoprntConv.

Open Scope Z_scope.
Open Scope c_scope.

(** ** Digits *)

Definition digit_at (upper : bool) (d : Z) : Z := nth (Z.to_nat d) (if upper then UPPER_DIGITS else LOWER_DIGITS) 0.

(** [ds] are the digits of [v]. *)
Definition numeral (base v : Z) (ds : list Z) : Prop :=
  Forall (fun d => 0 <= d < base) ds /\ horner base 0 ds = v /\ ds <> [] /\ (0 < v -> hd 0 ds <> 0).

Lemma convert_loop_spec base (upper : bool) fuel : forall v acc,
  2 <= base -> 0 <= v < base ^ Z.of_nat (S fuel) -> exists ds, numeral base v ds /\
  convert_loop (S fuel) v base (if upper then UPPER_DIGITS else LOWER_DIGITS) acc = (digit_at upper <$> ds) ++ acc.
Proof.
  induction fuel as [|fuel IH]; intros v acc Hb Hv; (assert (Hone : v / base = 0 -> numeral base v [v mod base]);
    [intros Hz; pose proof (Z.mod_pos_bound v base); pose proof (Z.div_mod v base);
     split_and!; [repeat constructor; lia|unfold horner; simpl; lia|done|simpl; lia]|]).
  - exists [v mod base]. cbn [convert_loop]. rewrite Z.pow_1_r in Hv.
    rewrite (Z.div_small v base) in * by lia. by split; [apply Hone|].
  - set (m := S fuel) in *. cbn [convert_loop]. destruct (Z.eqb_spec (v / base) 0) as [E|E].
    { exists [v mod base]. by split; [apply Hone|]. }
    assert (Hv' : 0 <= v / base < base ^ Z.of_nat m).
    { split; [apply Z.div_pos; lia|]. apply Z.div_lt_upper_bound; [lia|]. rewrite <- Z.pow_succ_r by lia.
      replace (Z.succ (Z.of_nat m)) with (Z.of_nat (S m)) by lia. apply Hv. }
    destruct (IH (v / base) (nth (Z.to_nat (v mod base)) (if upper then UPPER_DIGITS else LOWER_DIGITS) 0 :: acc) Hb Hv')
      as (ds & (Hd & Hval & Hne & Hh) & ->).
    exists (ds ++ [v mod base]). pose proof (Z.mod_pos_bound v base). pose proof (Z.div_mod v base).
    split; [split_and!|].
    + apply Forall_app. split; [done|]. repeat constructor; lia.
    + unfold horner in *. rewrite foldl_app, Hval. simpl. lia.
    + by destruct ds.
    + intros _. destruct ds as [|d ds]; [done|]. apply Hh. lia.
    + by rewrite fmap_app, <- app_assoc.
Qed.

Lemma CONVERT_spec v base upper : 2 <= base -> 0 <= v < 2 ^ 64 ->
  exists ds, numeral base v ds /\ CONVERT v base upper = digit_at upper <$> ds.
Proof.
  intros Hb Hv. destruct (convert_loop_spec base upper 63 v [] Hb) as (ds & Hds & E).
  - split; [lia|]. apply Z.lt_le_trans with (2 ^ 64); [lia|]. apply Z.pow_le_mono_l. lia.
  - exists ds. split; [done|]. unfold CONVERT. by rewrite E, app_nil_r.
Qed.

Lemma dec_spec n : 0 <= n < 2 ^ 64 -> exists ds, numeral 10 n ds /\ dec n = (Z.add 48) <$> ds.
Proof.
  intros Hn. destruct (CONVERT_spec n 10 false) as (ds & Hds & E); [lia|done|]. exists ds. split; [done|].
  unfold dec. rewrite <- CONVERT_text, E by lia. destruct Hds as (Hd & _). clear -Hd. induction Hd as [|d ds Hd Hds IH]; [done|].
  rewrite !fmap_cons, IH. f_equal. assert (Hc : d ∈ [0; 1; 2; 3; 4; 5; 6; 7; 8; 9]) by (set_unfold; lia).
  set_unfold in Hc. by repeat destruct Hc as [->|Hc].
Qed.

Lemma digit_char_spec b : 0 <= b < 256 -> digit_char b = Done ((48 <=? b) && (b <=? 57)).
Proof.
  intros Hb. unfold digit_char. rewrite isdigit_spec, bind_Done by lia.
  assert (E : implb ((48 <=? b) && (b <=? 57)) (negb (isascii b =? 0)) = true).
  { revert b Hb. apply (range_all 0 256). by vm_compute. }
  change (digit_spec b) with ((48 <=? b) && (b <=? 57)).
  destruct ((48 <=? b) && (b <=? 57)), (isascii b =? 0); done.
Qed.

Section Scan.
Context {SA : StdioApi}.

Lemma lift_Done {A B} (a : A) (k : A -> IO B) (Q : B -> iost -> Prop) s : wpi (k a) Q s -> wpi (lift (Done a) ≫= k) Q s.
Proof. done. Qed.

(** A character that ends a number and is not a dollar sign *)
Definition stop (c : Z) : Prop := 0 <= c < 256 /\ ~ 48 <= c <= 57 /\ c <> 36.

Lemma horner_mono ds : forall n, Forall (fun d => 0 <= d < 10) ds -> 0 <= n -> n <= foldl (fun a d => a * 10 + d) n ds.
Proof.
  induction ds as [|d ds IH]; intros n Hd Hn; cbn [foldl]; [lia|]. apply Forall_cons_1 in Hd as [Hd Hds].
  specialize (IH (n * 10 + d) Hds). lia.
Qed.

Lemma scan_digits_spec ds c : forall fuel p n s (Q : Z * Z -> iost -> Prop),
  Forall (fun d => 0 <= d < 10) ds -> stop c -> bytes_at (i_mem s) p ((Z.add 48 <$> ds) ++ [c]) ->
  (length ds < fuel)%nat -> 0 <= n -> foldl (fun a d => a * 10 + d) n ds < 2 ^ 31 ->
  Q (p + Z.of_nat (length ds), foldl (fun a d => a * 10 + d) n ds) s -> wpi (scan_digits fuel p n) Q s.
Proof.
  induction ds as [|d ds IH]; intros fuel p n s Q Hd Hc Hat Hf Hn Hlt HQ; (destruct fuel as [|fuel]; [simpl in Hf; lia|]);
    apply bytes_at_cons in Hat as [Hb Hat]; cbn [scan_digits]; apply wpi_bind; (eapply wpi_ldb; [exact Hb|]).
  - destruct Hc as (Hc & Hnd & _). rewrite digit_char_spec by lia. apply lift_Done.
    destruct (Z.leb_spec 48 c), (Z.leb_spec c 57); try lia; cbn [andb]; apply wpi_ret; by rewrite Z.add_0_r in HQ.
  - apply Forall_cons_1 in Hd as [Hd Hds]. cbn [foldl] in Hlt, HQ.
    rewrite digit_char_spec by lia. apply lift_Done. replace ((48 <=? 48 + d) && (48 + d <=? 57)) with true by lia.
    pose proof (horner_mono ds (n * 10 + d) Hds ltac:(lia)).
    assert (Et : 10 * n + todigit (wrap_s 8 (48 + d)) = n * 10 + d).
    { rewrite wrap_s_8 by lia. case_decide; [|lia]. unfold todigit. destruct (Z.ltb_spec (48 + d) 48), (Z.ltb_spec 57 (48 + d)); lia. }
    rewrite Et. apply wpi_bind. unfold as_int. replace ((- 2 ^ 31 <=? n * 10 + d) && (n * 10 + d <? 2 ^ 31)) with true by lia.
    apply wpi_ret. apply IH; [done..|simpl in Hf; lia|lia|done|].
    simpl in HQ. by replace (p + 1 + Z.of_nat (length ds)) with (p + Z.pos (Pos.of_succ_nat (length ds))) by lia.
Qed.
End Scan.

(** ** Flags, width, precision and length *)

Section Rflag.
Context {SA : StdioApi} {F : Type} (fmt0 : Z).
Implicit Types (s : iost) (k : conv (F := F)) (Q : Z * conv (F := F) -> iost -> Prop).

(** A flag *)
Definition flag_step k (c : Z) : conv :=
  if c =? 32 then if c_sign k =? 0 then with_sign k 32 else k
  else if c =? 35 then add_flag k ALT
  else if c =? 45 then add_flag k LADJUST
  else if c =? 43 then with_sign k 43
  else add_flag k ZEROPAD.

Lemma flag_step_eqs k :
  flag_step k 32 = (if c_sign k =? 0 then with_sign k 32 else k) /\ flag_step k 35 = add_flag k ALT /\
  flag_step k 45 = add_flag k LADJUST /\ flag_step k 43 = with_sign k 43 /\ flag_step k 48 = add_flag k ZEROPAD.
Proof. done. Qed.

Ltac flag_eqs k := let E := fresh in destruct (flag_step_eqs k) as (E & ? & ? & ? & ?); rewrite ?E; clear E;
  repeat match goal with E : flag_step k _ = _ |- _ => rewrite ?E; clear E end.

Ltac kcbn := cbn [c_flags c_width c_prec c_sign c_numeric c_va with_flags with_width with_prec with_sign with_va add_flag].

Lemma rflag_flag fuel q k s Q c :
  c ∈ [32; 35; 43; 45; 48] -> i_mem s !! (q + 1) = Some c ->
  wpi (rflag fuel fmt0 (q + 1) (flag_step k c)) Q s -> wpi (rflag (S fuel) fmt0 q k) Q s.
Proof.
  intros Hc Hb HQ. cbn [rflag]. apply wpi_bind. eapply wpi_ldb; [exact Hb|].
  set_unfold in Hc. destruct Hc as [->|[->|[->|[->|[->|[]]]]]]; exact HQ.
Qed.

Lemma rflag_flags l : forall fuel q k s Q,
  Forall (fun c => c ∈ [32; 35; 43; 45; 48]) l -> bytes_at (i_mem s) (q + 1) l ->
  wpi (rflag fuel fmt0 (q + Z.of_nat (length l)) (foldl flag_step k l)) Q s ->
  wpi (rflag (length l + fuel) fmt0 q k) Q s.
Proof.
  induction l as [|c l IH]; intros fuel q k s Q Hl Hat HQ.
  { by rewrite Z.add_0_r in HQ. }
  apply Forall_cons_1 in Hl as [Hc Hl]. apply bytes_at_cons in Hat as [Hb Hat]. simpl length. rewrite Nat.add_succ_l.
  eapply rflag_flag; [done|done|]. apply IH; [done|done|].
  simpl in HQ. by replace (q + 1 + Z.of_nat (length l)) with (q + Z.pos (Pos.of_succ_nat (length l))) by lia.
Qed.

Lemma bool_decide_elem_cons (c x : Z) l : bool_decide (c ∈ x :: l) = (c =? x) || bool_decide (c ∈ l).
Proof.
  destruct (Z.eqb_spec c x) as [->|Hne]; [apply bool_decide_eq_true_2; set_solver|].
  cbn [orb]. apply bool_decide_ext. set_solver.
Qed.

Lemma fold_flags l : forall k b,
  Forall (fun c => c ∈ [32; 35; 43; 45; 48]) l ->
  let k' := foldl flag_step k l in
  has (c_flags k') b = has (c_flags k) b || (has LADJUST b && bool_decide (45 ∈ l)) ||
    (has ZEROPAD b && bool_decide (48 ∈ l)) || (has ALT b && bool_decide (35 ∈ l)) /\
  c_width k' = c_width k /\ c_prec k' = c_prec k /\ c_numeric k' = c_numeric k /\ c_va k' = c_va k.
Proof.
  induction l as [|c l IH]; intros k b Hl k'.
  { unfold k'. cbn [foldl]. rewrite !bool_decide_eq_false_2, !andb_false_r, !orb_false_r by set_solver. done. }
  apply Forall_cons_1 in Hl as [Hc Hl]. unfold k'. cbn [foldl].
  destruct (IH (flag_step k c) b Hl) as (E1 & -> & -> & -> & ->). rewrite E1. clear E1 IH.
  rewrite !bool_decide_elem_cons. set_unfold in Hc. destruct Hc as [->|[->|[->|[->|[->|[]]]]]];
    flag_eqs k; try (destruct (c_sign k =? 0)); kcbn; rewrite ?has_or; split_and!; try done;
    destruct (has (c_flags k) b), (has LADJUST b), (has ZEROPAD b), (has ALT b),
      (bool_decide (45 ∈ l)), (bool_decide (48 ∈ l)), (bool_decide (35 ∈ l)); done.
Qed.

Lemma fold_sign l : forall k,
  Forall (fun c => c ∈ [32; 35; 43; 45; 48]) l -> c_sign k ∈ [0; 32; 43] ->
  c_sign (foldl flag_step k l) =
  if bool_decide (43 ∈ l) || (c_sign k =? 43) then 43 else if bool_decide (32 ∈ l) || (c_sign k =? 32) then 32 else 0.
Proof.
  induction l as [|c l IH]; intros k Hl Hk; cbn [foldl].
  { rewrite !bool_decide_eq_false_2 by set_solver. set_unfold in Hk. destruct Hk as [->|[->|[->|[]]]]; done. }
  apply Forall_cons_1 in Hl as [Hc Hl]. rewrite IH, !bool_decide_elem_cons; [|done|].
  - set_unfold in Hc. set_unfold in Hk. destruct Hc as [->|[->|[->|[->|[->|[]]]]]];
      flag_eqs k; destruct Hk as [E|[E|[E|[]]]]; rewrite ?E; simpl (_ =? _); kcbn; rewrite ?E;
      destruct (bool_decide (43 ∈ l)), (bool_decide (32 ∈ l)); done.
  - set_unfold in Hc. set_unfold in Hk. destruct Hc as [->|[->|[->|[->|[->|[]]]]]];
      flag_eqs k; try set_solver.
    destruct (c_sign k =? 0); set_solver.
Qed.

Lemma flags_part d args v :
  Forall (fun c => c ∈ [32; 35; 43; 45; 48]) (d_flags d) -> va_local v = false -> va_caller v = varg_of <$> args ->
  part d (flag_in 45 d) L0 0 (-1) (foldl flag_step (mk_conv 0 0 (-1) 0 false v) (d_flags d)) args.
Proof.
  intros Hl Hv Ha. pose proof (fun b => fold_flags (d_flags d) (mk_conv 0 0 (-1) 0 false v) b Hl) as H. cbv zeta in H.
  destruct (H 0) as (_ & Hw & Hp & Hn & Hva). assert (Hb : forall b, _) by exact (fun b => proj1 (H b)). clear H.
  pose proof (fold_sign (d_flags d) (mk_conv 0 0 (-1) 0 false v) Hl ltac:(set_solver)) as Hs.
  split; try (rewrite Hb; cbn; rewrite ?orb_false_r; done); try done.
  - rewrite Hs. cbn. by rewrite !orb_false_r.
  - by rewrite Hva.
  - by rewrite Hva.
Qed.

Lemma part_num d left len w p k args n : part d left len w p k args ->
  part d left len n p (with_width k n) args /\ part d left len w n (with_prec k n) args.
Proof. intros []. split; by split. Qed.

Lemma part_left d left len w p k args : part d left len w p k args -> part d true len w p (add_flag k LADJUST) args.
Proof. intros []. split; try done; kcbn; flags; done. Qed.

Lemma part_arg d left len w p k v args : part d left len w p k (RInt v :: args) ->
  part d left len w p (with_va k (c_numeric k) (set_argp (c_va k) (varg_of <$> args))) args.
Proof. intros []. split; try done; kcbn; unfold set_argp; rewrite p_local; done. Qed.

Lemma star_arg_spec fuel pos k s (Q : Z * Z * conv -> iost -> Prop) c d left len w p v args :
  stop c -> i_mem s !! (pos + 1) = Some c -> part d left len w p k (RInt v :: args) ->
  (forall k', part d left len w p k' args -> Q (pos, wrap_s 32 v, k') s) -> wpi (star_arg (S fuel) fmt0 pos k) Q s.
Proof.
  intros Hc Hb Hp HQ. unfold star_arg. apply wpi_bind. apply (scan_digits_spec [] c); try done; [|simpl; lia|].
  { intros [|i] b Hi; [|by destruct i]. injection Hi as <-. by rewrite Z.add_0_r. }
  cbn [length foldl]. rewrite Z.add_0_r. apply wpi_bind. eapply wpi_ldb; [exact Hb|].
  destruct Hc as (_ & _ & Hc). rewrite (proj2 (Z.eqb_neq c 36) Hc). apply wpi_bind, wpi_ret.
  unfold argp. rewrite (p_local _ _ _ _ _ _ _ Hp), (p_args _ _ _ _ _ _ _ Hp). apply lift_Done. cbv beta iota.
  apply wpi_ret, HQ. by eapply part_arg.
Qed.

(** The rounds of the loop for a width or a precision *)
Definition rounds (w : wspec) : nat := match w with WNone => 0 | _ => 1 end.

Lemma dec_head n : 1 <= n < 2 ^ 31 -> exists c l, dec n = c :: l /\ 49 <= c <= 57.
Proof.
  intros Hn. destruct (dec_spec n) as (ds & (Hd & Hv & Hne & Hh) & E); [lia|]. destruct ds as [|d ds]; [done|].
  rewrite E. eexists _, _. split; [done|]. apply Forall_cons_1 in Hd as [Hd _]. specialize (Hh ltac:(lia)). simpl in Hh. lia.
Qed.

(** The digits of a number in the format *)
Lemma scan_dec n fuel p c s (Q : Z * Z -> iost -> Prop) :
  0 <= n < 2 ^ 31 -> stop c -> bytes_at (i_mem s) p (dec n ++ [c]) -> (length (dec n) < fuel)%nat ->
  Q (p + Z.of_nat (length (dec n)), n) s -> wpi (scan_digits fuel p 0) Q s.
Proof.
  intros Hn Hc Hat Hf HQ. destruct (dec_spec n) as (ds & (Hd & Hv & _) & E); [lia|].
  rewrite E, length_fmap in *. unfold horner in Hv. apply (scan_digits_spec ds c); rewrite ?Hv; done || lia.
Qed.

Lemma rflag_width fuel q k s Q d args w args' c :
  num_ok (d_width d) 1 -> part d (flag_in 45 d) L0 0 (-1) k args ->
  star_value (d_width d) 0 args = Some (w, args') -> w <> - 2 ^ 31 ->
  stop c -> bytes_at (i_mem s) (q + 1) (show_width (d_width d) ++ [c]) ->
  (length (show_width (d_width d)) < fuel)%nat ->
  (forall k', part d (flag_in 45 d || (w <? 0)) L0 (Z.abs w) (-1) k' args' ->
    wpi (rflag fuel fmt0 (q + Z.of_nat (length (show_width (d_width d)))) k') Q s) ->
  wpi (rflag (rounds (d_width d) + fuel) fmt0 q k) Q s.
Proof.
  intros Hn Hp Hw Hmin Hc Hat Hf HQ. destruct (d_width d) as [|n|]; cbn [show_width rounds num_ok star_value] in *.
  - injection Hw as <- <-. rewrite Z.add_0_r in HQ. apply HQ. by rewrite orb_false_r.
  - injection Hw as <- <-. destruct (dec_head n Hn) as (c0 & l & E & Hc0). cbn [rflag Nat.add].
    apply wpi_bind. eapply wpi_ldb; [rewrite E in Hat; by apply bytes_at_cons in Hat as [? _]|].
    do 8 (match goal with |- context [c0 =? ?v] => rewrite (proj2 (Z.eqb_neq c0 v)) by lia end).
    replace ((49 <=? c0) && (c0 <=? 57)) with true by lia. apply wpi_bind. apply (scan_dec n _ _ c); [lia|done..|].
    apply wpi_bind. eapply wpi_ldb; [apply bytes_at_app in Hat as [_ Hat]; by apply bytes_at_cons in Hat as [? _]|].
    destruct Hc as (_ & _ & Hc). rewrite (proj2 (Z.eqb_neq c 36) Hc).
    replace (q + 1 + Z.of_nat (length (dec n)) - 1) with (q + Z.of_nat (length (dec n))) by lia.
    apply HQ. rewrite Z.abs_eq, (proj2 (Z.ltb_ge n 0)), orb_false_r by lia. by eapply part_num.
  - destruct args as [|[v| | | |] args]; try done. injection Hw as <- <-. cbn [rflag Nat.add].
    apply bytes_at_cons in Hat as [Hb Hat]. apply bytes_at_cons in Hat as [Hb' _].
    apply wpi_bind. eapply wpi_ldb; [exact Hb|]. simpl (_ =? _). cbn iota. apply wpi_bind.
    destruct fuel as [|fuel]; [simpl in Hf; lia|]. eapply star_arg_spec; [done|done|done|]. intros k' Hk'. cbv beta iota.
    cbn [length] in HQ. change (Z.of_nat 1) with 1 in HQ.
    destruct (Z.leb_spec 0 (wrap_s 32 v)) as [H0|H0].
    + apply HQ. rewrite Z.abs_eq, (proj2 (Z.ltb_ge _ 0)), orb_false_r by lia. by eapply part_num.
    + pose proof (wrap_s_bounds 32 v). apply wpi_bind. unfold as_int.
      replace ((- 2 ^ 31 <=? - wrap_s 32 v) && (- wrap_s 32 v <? 2 ^ 31)) with true by lia. apply wpi_ret, HQ.
      rewrite Z.abs_neq, (proj2 (Z.ltb_lt _ 0)), orb_true_r by lia. eapply part_left, part_num; done.
Qed.

Lemma rflag_prec fuel q k s Q d left w args p args' c :
  num_ok (d_prec d) 0 -> part d left L0 w (-1) k args ->
  star_value (d_prec d) (-1) args = Some (p, args') ->
  stop c -> bytes_at (i_mem s) (q + 1) (show_prec (d_prec d) ++ [c]) ->
  (length (show_prec (d_prec d)) < fuel)%nat ->
  (forall k', part d left L0 w (Z.max p (-1)) k' args' ->
    wpi (rflag fuel fmt0 (q + Z.of_nat (length (show_prec (d_prec d)))) k') Q s) ->
  wpi (rflag (rounds (d_prec d) + fuel) fmt0 q k) Q s.
Proof.
  intros Hn Hp Hw Hc Hat Hf HQ. destruct (d_prec d) as [|n|]; cbn [show_prec rounds num_ok star_value] in *.
  - injection Hw as <- <-. rewrite Z.add_0_r in HQ. by apply HQ.
  - injection Hw as <- <-. cbn [rflag Nat.add]. apply bytes_at_cons in Hat as [Hb Hat].
    destruct (dec_spec n) as (ds & (Hd & _ & Hne & _) & E); [lia|].
    apply wpi_bind. eapply wpi_ldb; [exact Hb|]. simpl (_ =? _). cbn iota. apply wpi_bind.
    eapply (wpi_ldb _ (hd 0 (dec n))).
    { rewrite E in Hat |- *. destruct ds as [|d0 ds]; [done|]. by apply bytes_at_cons in Hat as [? _]. }
    assert (Hh : hd 0 (dec n) <> 42).
    { rewrite E. destruct ds as [|d0 ds]; [done|]. apply Forall_cons_1 in Hd as [Hd _]. simpl. lia. }
    rewrite (proj2 (Z.eqb_neq _ 42) Hh). apply wpi_bind, wpi_bind. 
    apply (scan_dec n _ _ c); [lia|done|done|simpl in Hf; lia|]. apply wpi_ret. cbv beta iota.
    replace (q + 1 + 1 + Z.of_nat (length (dec n)) - 1) with (q + Z.of_nat (length (46 :: dec n))) by (simpl; lia).
    apply HQ. rewrite (proj2 (Z.ltb_ge n 0)), Z.max_l by lia. by eapply part_num.
  - destruct args as [|[v| | | |] args]; try done. injection Hw as <- <-. cbn [rflag Nat.add].
    apply bytes_at_cons in Hat as [Hb Hat]. apply bytes_at_cons in Hat as [Hb' Hat]. apply bytes_at_cons in Hat as [Hb'' _].
    apply wpi_bind. eapply wpi_ldb; [exact Hb|]. simpl (_ =? _). cbn iota. apply wpi_bind.
    eapply wpi_ldb; [exact Hb'|]. simpl (_ =? _). cbn iota. apply wpi_bind.
    destruct fuel as [|fuel]; [simpl in Hf; lia|]. eapply star_arg_spec; [done|done|done|]. intros k' Hk'. cbv beta iota.
    replace (q + 1 + 1) with (q + Z.of_nat (length [46; 42])) by (simpl; lia). apply HQ.
    replace (if wrap_s 32 v <? 0 then -1 else wrap_s 32 v) with (Z.max (wrap_s 32 v) (-1)).
    + by eapply part_num.
    + destruct (Z.ltb_spec (wrap_s 32 v) 0); lia.
Qed.

Definition convs : list Z := [100; 105; 117; 111; 120; 88; 99; 115; 112; 37].

Lemma rflag_conv fuel q k s Q c :
  c ∈ convs -> i_mem s !! (q + 1) = Some c -> Q (q + 1, k) s -> wpi (rflag (S fuel) fmt0 q k) Q s.
Proof.
  intros Hc Hb HQ. cbn [rflag]. apply wpi_bind. eapply wpi_ldb; [exact Hb|].
  unfold convs in Hc. set_unfold in Hc. by repeat destruct Hc as [->|Hc].
Qed.

(** One letter of a length *)
Lemma rflag_letter fuel q k s Q c :
  c ∈ [104; 108; 106; 122] -> i_mem s !! (q + 1) = Some c -> has (c_flags k) SHORTINT = false ->
  wpi (rflag fuel fmt0 (q + 1) (add_flag k (if c =? 104 then SHORTINT else if c =? 106 then LONGDBL
    else if (c =? 108) && has (c_flags k) LONGINT then LONGDBL else LONGINT))) Q s ->
  wpi (rflag (S fuel) fmt0 q k) Q s.
Proof.
  intros Hc Hb Hh HQ. cbn [rflag]. apply wpi_bind. eapply wpi_ldb; [exact Hb|].
  set_unfold in Hc. destruct Hc as [->|[->|[->|[->|[]]]]]; simpl (_ =? _) in *; cbn [andb] in *; cbn iota in *;
    rewrite ?Hh; done.
Qed.

Lemma rflag_len fuel q k s Q d left w p args :
  part d left L0 w p k args -> d_conv d ∈ convs ->
  bytes_at (i_mem s) (q + 1) (show_len (d_len d) ++ [d_conv d]) -> (length (show_len (d_len d)) < fuel)%nat ->
  (forall k', part d left (d_len d) w p k' args -> Q (q + Z.of_nat (length (show_len (d_len d))) + 1, k') s) ->
  wpi (rflag fuel fmt0 q k) Q s.
Proof.
  intros Hp Hc Hat Hf HQ.
  assert (Hgo : forall k' n, (length (show_len (d_len d)) + n = fuel)%nat ->
    part d left (d_len d) w p k' args -> wpi (rflag n fmt0 (q + Z.of_nat (length (show_len (d_len d)))) k') Q s).
  { intros k' n Hn Hk'. destruct n as [|n]; [lia|]. apply bytes_at_app in Hat as [_ Hat]. apply bytes_at_cons in Hat as [Hb _].
    eapply rflag_conv; [done| |by apply HQ].
    by replace (q + Z.of_nat (length (show_len (d_len d))) + 1) with (q + 1 + Z.of_nat (length (show_len (d_len d)))) by lia. }
  clear HQ Hc. pose proof Hp as [? ? ? Hll Hl Hh ? ? ? ? ? ? ?].
  change (bool_decide (L0 ∈ [Lll; Lj])) with false in Hll. change (bool_decide (L0 ∈ [Ll; Lll; Lz])) with false in Hl.
  destruct (d_len d); cbn [show_len length app] in *.
  1: { rewrite Z.add_0_r in Hgo. by apply Hgo. }
  all: apply bytes_at_cons in Hat as [Hb Hat]; destruct fuel as [|fuel]; [lia|];
    (eapply rflag_letter; [|exact Hb|done|]; [set_solver|]); simpl (_ =? _); cbn [andb]; rewrite ?Hl; cbn [andb].
  1,2: apply (Hgo _ fuel eq_refl); split; try done; kcbn; flags; rewrite ?Hl, ?Hll, ?Hh; done.
  2,3: apply (Hgo _ fuel eq_refl); split; try done; kcbn; flags; rewrite ?Hl, ?Hll, ?Hh; done.
  apply bytes_at_cons in Hat as [Hb' _]. destruct fuel as [|fuel]; [lia|].
  eapply rflag_letter; [|exact Hb'| |]; [set_solver|kcbn; flags; by rewrite Hh|].
  replace (has (c_flags (add_flag k _)) LONGINT) with true by (kcbn; flags; done).
  replace (q + 1 + 1) with (q + Z.of_nat 2) by lia. apply (Hgo _ fuel eq_refl).
  split; try done; kcbn; flags; rewrite ?Hl, ?Hll, ?Hh; done.
Qed.

End Rflag.

(** ** The loop *)

Section Loop.
Context {SA : StdioApi} (AUTO tb f : Z) {SK : Sink AUTO tb f}.
Context {F : Type} (float_conv : Z -> Z -> Z -> Z -> F -> list Z * Z * Z).
Context (thousands_sep grouping fmt0 : Z).
Implicit Types (s : iost) (k : conv (F := F)).

Lemma stop_conv c : c ∈ convs -> stop c.
Proof. intros Hc. unfold convs in Hc. unfold stop. set_unfold in Hc. lia. Qed.

Lemma stop_len d : d_conv d ∈ convs -> exists c r, show_len (d_len d) ++ [d_conv d] = c :: r /\ stop c.
Proof. intros Hc. pose proof (stop_conv _ Hc). destruct (d_len d); eexists _, _; split; done || (unfold stop; lia). Qed.

Lemma stop_prec d : d_conv d ∈ convs ->
  exists c r, show_prec (d_prec d) ++ show_len (d_len d) ++ [d_conv d] = c :: r /\ stop c.
Proof. intros Hc. destruct (d_prec d); [by apply stop_len|..]; eexists _, _; split; done || (unfold stop; lia). Qed.

Lemma rounds_le w lo : num_ok w lo -> 0 <= lo ->
  (rounds w <= length (show_width w))%nat /\ (rounds w <= length (show_prec w))%nat.
Proof.
  destruct w as [|n|]; cbn [num_ok rounds show_width show_prec length]; [lia| |lia]. intros Hn Hlo.
  destruct (dec_spec n) as (ds & (_ & _ & Hne & _) & ->); [lia|]. destruct ds; [done|]. simpl. lia.
Qed.

(** The part before the next character *)
Lemma bytes_at_prefix m p p' l1 c l2 r : l2 = c :: r -> p' = p -> bytes_at m p' (l1 ++ l2) -> bytes_at m p (l1 ++ [c]).
Proof.
  intros -> -> Hat. change (c :: r) with ([c] ++ r) in Hat. rewrite app_assoc in Hat. by apply bytes_at_app in Hat as [? _].
Qed.

Lemma rflag_spec fuel q s d args w p args1 args2 v :
  item_ok (Dir d) -> star_value (d_width d) 0 args = Some (w, args1) -> w <> - 2 ^ 31 ->
  star_value (d_prec d) (-1) args1 = Some (p, args2) ->
  bytes_at (i_mem s) (q + 1) (show_dir d) -> (length (show_dir d) < fuel)%nat ->
  va_local v = false -> va_caller v = varg_of <$> args ->
  wpi (rflag fuel fmt0 q (mk_conv 0 0 (-1) 0 false v)) (fun r s' => s' = s /\
    exists k : conv (F := F), r = (q + Z.of_nat (length (show_dir d)), k) /\ parsed d w p k args2) s.
Proof.
  intros (Hfl & Hnw & Hnp & Hc) Hw Hmin Hp Hat Hf Hv Ha. unfold show_dir in *.
  destruct (stop_prec d Hc) as (c1 & r1 & E1 & Hs1). destruct (stop_len d Hc) as (c2 & r2 & E2 & Hs2).
  apply bytes_at_app in Hat as [Hat1 Hat]. pose proof Hat as Hat2. apply bytes_at_app in Hat as [_ Hat].
  pose proof Hat as Hat3. apply bytes_at_app in Hat as [_ Hat4].
  rewrite !length_app in Hf. cbn [length] in Hf.
  destruct (rounds_le _ _ Hnw) as [Hrw _]; [lia|]. destruct (rounds_le _ _ Hnp) as [_ Hrp]; [lia|].
  assert (Hone : forall w', (rounds w' <= 1)%nat) by (intros []; simpl; lia).
  pose proof (Hone (d_width d)). pose proof (Hone (d_prec d)).
  replace fuel with (length (d_flags d) + (rounds (d_width d) + (rounds (d_prec d) +
    (fuel - length (d_flags d) - rounds (d_width d) - rounds (d_prec d)))))%nat by lia.
  apply rflag_flags; [done|done|].
  eapply rflag_width; [done|by apply flags_part|done|done|exact Hs1| |lia|].
  { eapply bytes_at_prefix; [exact E1| |exact Hat2]. lia. }
  intros k1 Hk1. eapply rflag_prec; [done|exact Hk1|done|exact Hs2| |lia|].
  { eapply bytes_at_prefix; [exact E2| |exact Hat3]. lia. }
  intros k2 Hk2. eapply rflag_len; [exact Hk2|done| |lia|].
  { eapply bytes_at_prefix; [reflexivity| |exact Hat4]. lia. }
  intros k3 Hk3. split; [done|]. exists k3. split; [|done]. f_equal. rewrite !length_app. cbn [length]. lia.
Qed.

Lemma args_keep s s' args : keeps AUTO tb f s s' -> Forall (arg_ok AUTO tb f s) args -> Forall (arg_ok AUTO tb f s') args.
Proof. intros Hk H. eapply Forall_impl; [|exact H]. intros a. by apply arg_ok_keeps. Qed.

Lemma star_value_args s w none args v rest :
  star_value w none args = Some (v, rest) -> Forall (arg_ok AUTO tb f s) args -> Forall (arg_ok AUTO tb f s) rest.
Proof.
  destruct w; cbn [star_value]; [by intros [= _ <-]..|]. destruct args as [|[| | | |] args]; try done.
  intros [= _ <-] H. by apply Forall_cons_1 in H as [_ ?].
Qed.

(** A directive, from the percent sign to the conversion *)
Lemma directive_spec fuel fmt cnt v s d args t rest :
  item_ok (Dir d) -> client_bytes AUTO tb f s fmt (37 :: show_dir d) -> Forall (arg_ok AUTO tb f s) args ->
  va_local v = false -> va_caller v = varg_of <$> args -> dir_text d args = Some (t, rest) ->
  (length (show_dir d) < fuel)%nat ->
  Forall (arg_ok AUTO tb f s) rest /\ exists k k' : conv (F := F), ready k' rest /\
    rflag fuel fmt0 fmt (mk_conv 0 0 (-1) 0 false v) s = Done (fmt + Z.of_nat (length (show_dir d)), k, s) /\
    i_mem s !! (fmt + Z.of_nat (length (show_dir d))) = Some (d_conv d) /\
    emits AUTO tb f s (conversion AUTO tb float_conv thousands_sep grouping (d_conv d) cnt k f)
      (Some (Z.of_nat (length t), k')) t.
Proof.
  intros Hi Hc Hargs Hv Ha Ht Hf. unfold dir_text in Ht. 
  apply bind_Some in Ht as ([w args1] & Hw & Ht). apply bind_Some in Ht as ([p args2] & Hp & Ht).
  destruct (Z.eqb_spec w (- 2 ^ 31)) as [|Hmin]; [done|].
  apply client_bytes_cons in Hc as (_ & _ & Hc). pose proof Hc as (Hat & _ & _).
  pose proof (star_value_args _ _ _ _ _ _ Hp (star_value_args _ _ _ _ _ _ Hw Hargs)) as Hargs2.
  destruct (wpi_Done _ _ _ (rflag_spec fuel fmt s d args w p args1 args2 v Hi Hw Hmin Hp Hat Hf Hv Ha))
    as (? & ? & E & -> & k & -> & Hk).
  destruct (conversion_spec AUTO tb f float_conv thousands_sep grouping s d w p k args2 cnt t rest Hk) as (k' & Hk' & He);
    [apply Hi|done|done|]. split.
  - destruct (d_conv d =? 37); [by injection Ht as _ <-|]. destruct args2 as [|a args2]; [done|].
    apply bind_Some in Ht as (t' & _ & [= _ <-]). by apply Forall_cons_1 in Hargs2 as [_ ?].
  - exists k, k'. split_and!; [done|done| |done]. unfold show_dir in Hat |- *. rewrite !app_assoc in Hat |- *.
    apply bytes_at_app in Hat as [_ Hat]. apply bytes_at_cons in Hat as [Hat _]. rewrite length_app. cbn [length].
    rewrite <- Hat. f_equal. lia.
Qed.

Lemma doprnt_loop_spec items : forall fuel fmt cnt v s args t rest,
  Forall item_ok items -> client_bytes AUTO tb f s fmt (show items ++ [0]) -> Forall (arg_ok AUTO tb f s) args ->
  va_local v = false -> va_caller v = varg_of <$> args -> format_text items args = Some (t, rest) ->
  (length (show items) < fuel)%nat -> 0 <= cnt -> cnt + Z.of_nat (length t) < 2 ^ 31 ->
  emits_to AUTO tb f s (doprnt_loop AUTO tb float_conv thousands_sep grouping fuel fmt0 fmt cnt false v f)
    (fun r => r.1 = cnt + Z.of_nat (length t) /\ va_caller r.2 = varg_of <$> rest) t.
Proof.
  induction items as [|i items IH]; intros fuel fmt cnt v s args t rest Hi Hc Hargs Hv Ha Ht Hf Hcnt Hmax;
    (destruct fuel as [|fuel]; [lia|]).
  { injection Ht as <- <-. apply client_bytes_cons in Hc as (Hb & _ & _). cbn [doprnt_loop].
    eapply emits_to_pure; [by eapply wpi_ldb|]. apply emits_to_ret. cbn [length fst snd]. by rewrite Z.add_0_r. }
  apply Forall_cons_1 in Hi as [Hi His]. destruct i as [c|d].
  - destruct Hi as [Hr Hne]. change (show (Lit c :: items)) with (c :: show items) in *. cbn [app length] in *.
    apply client_bytes_cons in Hc as (Hb & _ & Hc). cbn [format_text] in Ht.
    apply bind_Some in Ht as ([t' rest'] & Ht & [= <- <-]). cbn [length] in Hmax. cbn [doprnt_loop].
    eapply emits_to_pure; [by eapply wpi_ldb|]. rewrite (proj2 (Z.eqb_neq c 0)), (proj2 (Z.eqb_neq c 37)) by lia.
    apply (emits_to_bind _ _ _ _ _ _ tt _ [c]).
    { eapply emits_eq; [apply emits_PUTC; apply wrap_s_8_range|done|]. rewrite byte_wrap_s, byte_small by lia. done. }
    intros s1 Hk1. eapply (emits_to_pure _ _ _ _ _ _ (cnt + 1)).
    { unfold as_int. replace ((- 2 ^ 31 <=? cnt + 1) && (cnt + 1 <? 2 ^ 31)) with true by lia. by apply wpi_ret. }
    replace (cnt + Z.of_nat (length (c :: t'))) with (cnt + 1 + Z.of_nat (length t')) by (simpl; lia).
    apply (IH _ _ _ _ _ args); try done; try lia; [by eapply client_bytes_keeps|by eapply args_keep].
  - change (show (Dir d :: items)) with ((37 :: show_dir d) ++ show items) in *. rewrite length_app in Hf. rewrite <- app_assoc in Hc.
    apply client_bytes_app in Hc as [Hc1 Hc2]. cbn [length] in Hf, Hc2. cbn [format_text] in Ht.
    apply bind_Some in Ht as ([t1 args1] & Ht1 & Ht). apply bind_Some in Ht as ([t2 rest2] & Ht & [= <- <-]).
    rewrite length_app in Hmax |- *.
    destruct (directive_spec fuel fmt cnt v s d args t1 args1) as (Hargs1 & k & k' & (Hn & Hv' & Ha') & Er & Eb & He);
      try done; try lia. cbn [doprnt_loop].
    eapply emits_to_pure; [eapply wpi_ldb; [by apply client_bytes_cons in Hc1 as [? _]|done]|]. cbn [Z.eqb Pos.eqb].
    eapply emits_to_pure; [unfold wpi; rewrite Er; done|]. cbv beta iota.
    eapply emits_to_pure; [by eapply wpi_ldb|]. eapply emits_to_bind; [exact He|]. intros s1 Hk1. cbv beta iota.
    eapply (emits_to_pure _ _ _ _ _ _ (cnt + Z.of_nat (length t1))).
    { unfold as_int. replace ((- 2 ^ 31 <=? _) && (_ <? 2 ^ 31)) with true by lia. by apply wpi_ret. }
    rewrite Hn. replace (cnt + Z.of_nat (length t1 + length t2)) with (cnt + Z.of_nat (length t1) + Z.of_nat (length t2)) by lia.
    apply (IH _ _ _ _ _ args1); try done; try lia; [|by eapply args_keep].
    replace (fmt + Z.of_nat (length (show_dir d)) + 1) with (fmt + Z.of_nat (S (length (show_dir d)))) by lia.
    by eapply client_bytes_keeps.
Qed.

Lemma doprnt_spec fuel s l items args t rest :
  sk_ok s l -> sk_fits (length l + length t) -> Forall item_ok items -> client_bytes AUTO tb f s fmt0 (show items ++ [0]) ->
  Forall (arg_ok AUTO tb f s) args -> format_text items args = Some (t, rest) -> Z.of_nat (length t) < 2 ^ 31 ->
  (length (show items) < fuel)%nat ->
  wpi (_doprnt AUTO tb float_conv thousands_sep grouping fuel fmt0 (varg_of <$> args) f) (fun r s' =>
    r = (Z.of_nat (length t), varg_of <$> rest) /\ sk_ok s' (l ++ t) /\ keeps AUTO tb f s s') s.
Proof.
  intros Hok Hfit Hi Hc Ha Ht Hmax Hf. destruct (sk_file s l Hok) as (x & Hx & Hrw & Hw). unfold _doprnt.
  apply wpi_bind. eapply wpi_getf; [exact Hx|]. rewrite Hrw. apply wpi_bind, wpi_ret, wpi_bind. eapply wpi_getf; [exact Hx|].
  rewrite Hw. cbn [negb]. apply wpi_bind.
  eapply wpi_mono; [apply (doprnt_loop_spec items fuel fmt0 0 _ s args t rest); done || lia|]. cbv beta.
  intros [cnt v] s' ([Hcnt Hv] & Hok' & Hk). apply wpi_ret. cbn [fst snd] in Hcnt, Hv. rewrite Hcnt, Hv. done.
Qed.

End Loop.
