(* ===== verification/DoprntThms.v ===== *)
(** * printf: streams and strings

    The two kinds of streams that printf writes to, as implementations of [Sink], and the
    theorems about the functions of the family. *)

From stdpp Require Import base gmap list numbers.
From Stdlib Require Import ZArith Lia.
From S2P Require Import Prelude Ctype MemFuns Strings Strto NMalloc NmRep Stdio StdioInv StdioWr StdioThms.
From S2P Require Import Doprnt DoprntSpec DoprntConv DoprntLoop.

Open Scope Z_scope.
Open Scope c_scope.

(** ** Streams on strings *)

Section StringSink.
Context {SA : StdioApi} (AUTO tb sb str cap : Z) (room : nat) (s0 : iost).
Implicit Types (s : iost) (l : list Z).

(** What the string takes of [l]: [cap] characters at most *)
Definition kept l : list Z := take (Z.to_nat (Z.min cap (Z.of_nat (length l)))) l.

(** The stream on [sb] has been given [l] since the state [s0]. *)
Record str_stream s l : Prop := {
  ss_file : exists x, i_files s !! sb = Some x /\ _flag x = (_IOWRT .| _IOSTRG .| _IONTERM) /\
    _ptr x = str + Z.of_nat (length (kept l)) /\ _cnt x = cap - Z.of_nat (length (kept l));
  ss_files : forall g, g <> sb -> i_files s !! g = i_files s0 !! g;
  ss_mem : i_mem s = write_bytes (i_mem s0) str (kept l);
  ss_os : i_os s = i_os s0 }.

Lemma length_kept l : 0 <= cap -> Z.of_nat (length (kept l)) = Z.min cap (Z.of_nat (length l)).
Proof. intros Hc. unfold kept. rewrite length_take. lia. Qed.

Lemma kept_snoc l c : 0 <= cap ->
  kept (l ++ [c]) = if Z.of_nat (length l) <? cap then kept l ++ [c] else kept l.
Proof.
  intros Hc. unfold kept. rewrite length_app. cbn [length]. destruct (Z.ltb_spec (Z.of_nat (length l)) cap).
  - rewrite !Z.min_r by lia. rewrite !Nat2Z.id, firstn_all. replace (length l + 1)%nat with (length (l ++ [c])) by (rewrite length_app; done).
    apply firstn_all.
  - rewrite !Z.min_l by lia. rewrite take_app_le by lia. done.
Qed.

Lemma str_putc s l c :
  0 <= cap -> rng (i_mem s0) str (Z.of_nat room) -> str_stream s l -> (Z.min cap (Z.of_nat (S (length l))) <= Z.of_nat room) ->
  wpi (putc AUTO tb c sb) (fun _ s' => str_stream s' (l ++ [byte c]) /\
    forall a, a < str \/ str + Z.of_nat room <= a -> i_mem s' !! a = i_mem s !! a) s.
Proof.
  intros Hcap Hr [(x & Hx & Hf & Hp & Hc) Hfs Hm Ho] Hroom. pose proof (length_kept l Hcap) as Hk.
  assert (Hno : forall b (Q : unit -> iost -> Prop), Q tt s -> wpi (see_handle b true sb) Q s).
  { intros b Q HQ. unfold see_handle. io1. rewrite Hf. destruct b; done. }
  assert (Hrw : has (_flag x) _IORW = false) by by rewrite Hf.
  assert (Hwr : has (_flag x) _IOWRT = true) by by rewrite Hf.
  assert (Hst : has (_flag x) _IOSTRG = true) by by rewrite Hf.
  unfold putc, __putc. apply wpi_bind, Hno, wpi_bind. apply (wpi_mono _ (fun r s' => r = false /\ s' = s)).
  { destruct (c =? 10); [|by apply wpi_ret]. unfold __is_text_file. io. by rewrite has_mask, Hst. }
  intros ? ? [-> ->]. apply wpi_bind, wpi_ret. unfold __putc_raw. io1. rewrite Hc, Hk.
  destruct (Z.ltb_spec 0 (cap - Z.min cap (Z.of_nat (length l)))) as [Hpos|Hfull].
  - io. apply wpi_bind, wpi_stb.
    { cbn [setf put_files i_mem]. rewrite Hm, Hp, lookup_write_bytes_out by lia. apply Hr. lia. }
    apply wpi_ret. split; [split|].
    + eexists. split; [apply setf_at|]. split; [done|]. rewrite kept_snoc by done. 
      destruct (Z.ltb_spec (Z.of_nat (length l)) cap); [|lia]. rewrite length_app. cbn [length]. simpl. lia.
    + intros g Hg. cbn. rewrite lookup_insert_ne by done. auto.
    + cbn. rewrite kept_snoc by done. destruct (Z.ltb_spec (Z.of_nat (length l)) cap); [|lia].
      rewrite write_bytes_app. cbn [write_bytes]. by rewrite <- Hm, Hp.
    + done.
    + intros a Ha. cbn. apply lookup_insert_ne. lia.
  - unfold _flsbuf. io1. rewrite Hrw. apply wpi_bind, wpi_ret. io1. rewrite Hwr. cbn [negb]. rewrite Hst. apply wpi_ret.
    split; [|done]. split; rewrite ?kept_snoc by done; destruct (Z.ltb_spec (Z.of_nat (length l)) cap); try lia; try done.
    by exists x.
Qed.

Definition string_sink (Hcap : 0 <= cap) (Hr : rng (i_mem s0) str (Z.of_nat room)) : Sink AUTO tb sb.
Proof.
  refine {| sk_ok := str_stream; sk_client := fun _ a => a < str \/ str + Z.of_nat room <= a;
    sk_fits := fun n => Z.min cap (Z.of_nat n) <= Z.of_nat room |}.
  - intros n m. lia.
  - intros s l [(x & Hx & Hf & _) _ _ _]. exists x. by rewrite Hf.
  - intros s l c Hok Hfit Hc. eapply wpi_mono; [by apply str_putc|]. cbv beta. intros _ s' [? Hk]. split; [done|]. auto.
Defined.

(** __stropenw starts one. *)
Lemma stropenw_spec x : 0 <= cap -> i_files s0 !! sb = Some x ->
  wpi (__stropenw sb str cap) (fun _ s' => str_stream s' []) s0.
Proof.
  intros Hc Hx. unfold __stropenw. io. assert (Hk : kept [] = []) by apply take_nil. split; rewrite ?Hk.
  - eexists. split; [apply setf_at|]. fcbn. cbn [length]. split; [done|]. lia.
  - intros g Hg. cbn. by rewrite lookup_insert_ne.
  - done.
  - done.
Qed.

End StringSink.

(** [l] lies at [p], apart from [lo, hi). *)
Definition held (m : mem) (lo hi p : Z) (l : list Z) : Prop :=
  bytes_at m p l /\ bytes_ok l /\ (p + Z.of_nat (length l) <= lo \/ hi <= p).

Definition arg_held (m : mem) (lo hi : Z) (a : rarg) : Prop :=
  match a with
  | RStr p l => p = 0 /\ l = NULL_REP \/ 0 < p /\ str_ok l /\ held m lo hi p (l ++ [0])
  | _ => True
  end.

Section Strings.
Context {SA : StdioApi} (AUTO tb : Z).
Context {F : Type} (float_conv : Z -> Z -> Z -> Z -> F -> list Z * Z * Z) (thousands_sep grouping : Z).

(** A stream on a string is opened and printed to. *)
Lemma print_to_string {B} sb str cap room s0 x fuel fmt items args t rest lo hi
    (k : Z * list (varg F) -> IO B) (Q : B -> iost -> Prop) :
  i_files s0 !! sb = Some x -> 0 <= cap -> rng (i_mem s0) str (Z.of_nat room) ->
  Z.min cap (Z.of_nat (length t)) <= Z.of_nat room -> room = 0%nat \/ lo <= str /\ str + Z.of_nat room <= hi ->
  Forall item_ok items -> held (i_mem s0) lo hi fmt (show items ++ [0]) -> Forall (arg_held (i_mem s0) lo hi) args ->
  format_text items args = Some (t, rest) -> Z.of_nat (length t) < 2 ^ 31 -> (length (show items) < fuel)%nat ->
  (forall s', str_stream sb str cap s0 s' t -> wpi (k (Z.of_nat (length t), varg_of <$> rest)) Q s') ->
  wpi (_ ← __stropenw sb str cap;
       r ← _doprnt AUTO tb float_conv thousands_sep grouping fuel fmt (varg_of <$> args) sb; k r) Q s0.
Proof.
  intros Hx Hcap Hr Hroom Hlo Hi Hfmt Hargs Ht Hmax Hf Hk. apply wpi_bind.
  eapply wpi_mono; [by apply (stropenw_spec sb str cap s0 x)|]. cbv beta. intros _ s1 Hs1.
  pose proof (ss_mem _ _ _ _ _ _ Hs1) as Em. replace (kept cap []) with (@nil Z) in Em by (symmetry; apply take_nil).
  cbn [write_bytes] in Em. apply wpi_bind. eapply wpi_mono.
  { apply (doprnt_spec AUTO tb sb (SK := string_sink AUTO tb sb str cap room s0 Hcap Hr) float_conv thousands_sep grouping
      fmt fuel s1 [] items args t rest); try done.
    - destruct Hfmt as (Hat & Hok & Hd). split_and!; [by rewrite Em|done|]. intros a Ha. cbn. lia.
    - eapply Forall_impl; [|exact Hargs]. intros [| | |p l|] Ha; try done. destruct Ha as [?|(? & ? & Hat & Hok & Hd)]; [by left|].
      right. split_and!; [done|done|]. split_and!; [by rewrite Em|done|]. intros a Ha. cbn. lia. }
  cbv beta. intros ? s2 (-> & Hs2 & _). by apply Hk.
Qed.

(** The end of the string *)
Lemma strclosew_spec sb str cap s0 s l (Q : unit -> iost -> Prop) :
  str_stream sb str cap s0 s l -> is_Some (i_mem s0 !! (str + Z.of_nat (length (kept cap l)))) ->
  (forall s', i_mem s' = write_bytes (i_mem s0) str (kept cap l ++ [0]) -> i_os s' = i_os s0 ->
    (forall g, g <> sb -> i_files s' !! g = i_files s0 !! g) -> Q tt s') ->
  wpi (__strclosew sb) Q s.
Proof.
  intros [(x & Hx & _ & Hp & _) Hfs Hm Ho] Hmap HQ. unfold __strclosew. io1. apply wpi_stb.
  { rewrite Hm, Hp, lookup_write_bytes_out by lia. done. }
  apply HQ; [|done|done]. rewrite write_bytes_app, <- Hm, Hp. done.
Qed.

(** C10. snprintf writes at most the bytes it was given: the text that the format stands for,
    cut where needed, and the NUL, and nothing where the size is 0. It returns the length of
    the whole text. The format is one of [item_ok], as in [fprintf_correct], and its text is
    shorter than 2 GB. *)
Theorem snprintf_bounded sb str n fuel fmt items args t rest s :
  Forall item_ok items -> format_text items args = Some (t, rest) -> Z.of_nat (length t) < 2 ^ 31 ->
  held (i_mem s) str (str + n) fmt (show items ++ [0]) -> Forall (arg_held (i_mem s) str (str + n)) args ->
  0 <= n <= INT_MAX -> rng (i_mem s) str n -> (length (show items) < fuel)%nat ->
  exists s', snprintf AUTO tb float_conv thousands_sep grouping fuel sb str n fmt (varg_of <$> args) s =
      Done (Z.of_nat (length t), s') /\
    i_mem s' = (if n =? 0 then i_mem s else write_bytes (i_mem s) str (take (Z.to_nat (n - 1)) t ++ [0])) /\
    i_os s' = i_os s /\ forall g, g <> sb -> i_files s' !! g = i_files s !! g.
Proof.
  intros Hi Ht Hmax Hfmt Hargs Hn Hr Hf.
  enough (H : wpi (snprintf AUTO tb float_conv thousands_sep grouping fuel sb str n fmt (varg_of <$> args)) (fun r s' =>
    r = Z.of_nat (length t) /\
    i_mem s' = (if n =? 0 then i_mem s else write_bytes (i_mem s) str (take (Z.to_nat (n - 1)) t ++ [0])) /\
    i_os s' = i_os s /\ forall g, g <> sb -> i_files s' !! g = i_files s !! g) s).
  { destruct (wpi_Done _ _ _ H) as (r & s' & E & -> & ?). eauto. }
  unfold snprintf, vsnprintf. rewrite (proj2 (Z.ltb_ge INT_MAX n)) by lia. apply wpi_bind.
  set (s0 := put_files s (<[sb := zero_FILE]> (i_files s))). change (wpi (modify _) ?Q s) with (Q tt s0). cbv beta.
  assert (Hx : i_files s0 !! sb = Some zero_FILE) by apply lookup_insert_eq.
  assert (Hg : forall g, g <> sb -> i_files s0 !! g = i_files s !! g) by (intros g Hne; by apply lookup_insert_ne).
  assert (Hkept : kept (n - 1) t = take (Z.to_nat (n - 1)) t).
  { unfold kept. destruct (decide (n - 1 <= Z.of_nat (length t))) as [?|?]; [by rewrite Z.min_l by lia|].
    rewrite Z.min_r, Nat2Z.id, firstn_all, take_ge by lia. done. }
  destruct (Z.ltb_spec 0 n) as [Hpos|Hz].
  - rewrite (proj2 (Z.eqb_neq n 0)) by lia.
    eapply (print_to_string sb str (n - 1) (Z.to_nat (n - 1)) s0 _ _ _ _ _ _ _ str (str + n)); try done; try lia.
    { intros a Ha. apply Hr. lia. }
    intros s' Hs'. cbv beta iota. apply wpi_bind. eapply strclosew_spec; [done| |].
    { apply Hr. rewrite length_kept by lia. lia. }
    intros s2 Em Eo Ef. apply wpi_ret. split_and!; [done|by rewrite Em, Hkept|done|]. intros g Hne. by rewrite Ef, Hg.
  - replace n with 0 in * by lia.
    eapply (print_to_string sb 0 0 0 s0 _ _ _ _ _ _ _ str (str + 0)); try done; try lia.
    { intros a Ha. lia. }
    intros s' [_ Hfs Em Eo]. cbv beta iota. apply wpi_bind, wpi_ret, wpi_ret.
    replace (kept 0 t) with (@nil Z) in Em; [|unfold kept; by rewrite Z.min_l by lia].
    split_and!; [done|done|done|]. intros g Hne. by rewrite Hfs, Hg.
Qed.

Lemma sprintf_spec sb junk str fuel fmt items args t rest s :
  Forall item_ok items -> format_text items args = Some (t, rest) -> Z.of_nat (length t) < 2 ^ 31 ->
  let hi := str + Z.of_nat (length t) + 1 in
  held (i_mem s) str hi fmt (show items ++ [0]) -> Forall (arg_held (i_mem s) str hi) args ->
  rng (i_mem s) str (Z.of_nat (length t) + 1) -> (length (show items) < fuel)%nat ->
  wpi (sprintf AUTO tb float_conv thousands_sep grouping fuel sb junk str fmt (varg_of <$> args)) (fun r s' =>
    r = Z.of_nat (length t) /\ i_mem s' = write_bytes (i_mem s) str (t ++ [0]) /\
    i_os s' = i_os s /\ forall g, g <> sb -> i_files s' !! g = i_files s !! g) s.
Proof.
  intros Hi Ht Hmax hi Hfmt Hargs Hr Hf. unfold sprintf, vsprintf. apply wpi_bind.
  set (s0 := put_files s (<[sb := junk]> (i_files s))). change (wpi (modify _) ?Q s) with (Q tt s0). cbv beta.
  assert (Hx : i_files s0 !! sb = Some junk) by apply lookup_insert_eq.
  assert (Hkept : kept INT_MAX t = t).
  { unfold kept. rewrite Z.min_r, Nat2Z.id by (unfold INT_MAX; lia). apply firstn_all. }
  eapply (print_to_string sb str INT_MAX (length t) s0 _ _ _ _ _ _ _ str hi); try done; try lia.
  { intros a Ha. apply Hr. lia. }
  intros s' Hs'. cbv beta iota. apply wpi_bind. eapply strclosew_spec; [done| |].
  { apply Hr. rewrite Hkept. lia. }
  intros s2 Em Eo Ef. apply wpi_ret. split_and!; [done|by rewrite Em, Hkept|done|]. intros g Hne.
  rewrite Ef by done. by apply lookup_insert_ne.
Qed.

End Strings.

(** ** Numbers that are printed and read *)

(** The form that the text of a number has: blanks, the sign, the digits and blanks *)
Definition number_shape (v : Z) (t : list Z) : Prop := exists a b sg ds,
  t = replicate a 32 ++ sg ++ (Z.add 48 <$> ds) ++ replicate b 32 /\
  sg ∈ (if v <? 0 then [[45]] else [[]; [43]]) /\ Forall (fun d => 0 <= d < 10) ds /\ horner 10 0 ds = Z.abs v.

Lemma horner_zeros n ds : horner 10 0 (replicate n 0 ++ ds) = horner 10 0 ds.
Proof. unfold horner. rewrite foldl_app. f_equal. induction n as [|n IH]; [done|]. cbn [replicate foldl]. exact IH. Qed.

Lemma digits_shape prec v : 0 <= v < 2 ^ 64 -> exists ds,
  DoprntSpec.digits 10 false false prec v = Z.add 48 <$> ds /\ Forall (fun d => 0 <= d < 10) ds /\ horner 10 0 ds = v.
Proof.
  intros Hv. unfold DoprntSpec.digits. cbn [andb]. cbv zeta.
  set (t := if (v =? 0) && (prec =? 0) then [] else numeral_text 10 false v).
  assert (Ht : exists ds, t = Z.add 48 <$> ds /\ Forall (fun d => 0 <= d < 10) ds /\ horner 10 0 ds = v).
  { unfold t. destruct ((v =? 0) && (prec =? 0)) eqn:E.
    - exists []. apply andb_true_iff in E as [E _]. split_and!; [done|constructor|cbn; lia].
    - destruct (dec_spec v Hv) as (ds & (Hd & Hh & _) & E'). by exists ds. }
  destruct Ht as (ds & Et & Hd & Hh). exists (replicate (Z.to_nat (prec - Z.of_nat (length t))) 0 ++ ds). split_and!.
  - rewrite fmap_app, fmap_replicate, <- Et. done.
  - apply Forall_app. split; [|done]. apply Forall_replicate. lia.
  - by rewrite horner_zeros.
Qed.

Lemma int_shape left zero width plus space prec v : Z.abs v < 2 ^ 64 ->
  number_shape v (field left zero width (sign_char plus space v) (DoprntSpec.digits 10 false false prec (Z.abs v))).
Proof.
  intros Hv. destruct (digits_shape prec (Z.abs v)) as (ds & -> & Hd & Hh); [lia|].
  assert (Hsg : exists c sg, sign_char plus space v = replicate c 32 ++ sg /\ sg ∈ (if v <? 0 then [[45]] else [[]; [43]])).
  { unfold sign_char. destruct (v <? 0); [exists 0%nat, [45]; set_solver|]. destruct plus; [exists 0%nat, [43]; set_solver|].
    destruct space; [exists 1%nat, []; set_solver|exists 0%nat, []; set_solver]. }
  destruct Hsg as (c & sg & -> & Hsg). unfold field. set (fill := width - _). clearbody fill. unfold rep.
  destruct left; [|destruct zero].
  - exists c, (Z.to_nat fill), sg, ds. split_and!; try done. by rewrite <- !app_assoc.
  - exists c, 0%nat, sg, (replicate (Z.to_nat fill) 0 ++ ds). split_and!; [|done| |by rewrite horner_zeros].
    + rewrite fmap_app, fmap_replicate, app_nil_r, <- !app_assoc. done.
    + apply Forall_app. split; [|done]. apply Forall_replicate. lia.
  - exists (Z.to_nat fill + c)%nat, 0%nat, sg, ds. split_and!; try done.
    by rewrite replicate_add, app_nil_r, <- !app_assoc.
Qed.

Lemma spaces_blanks a r : spaces (replicate a 32 ++ r) = (a + spaces r)%nat.
Proof. induction a as [|a IH]; [done|]. cbn [replicate app spaces]. change (space_spec 32) with true. by rewrite IH. Qed.

Lemma read_digits ds r :
  Forall (fun d => 0 <= d < 10) ds -> Strto.digits 10 r = [] -> Strto.digits 10 ((Z.add 48 <$> ds) ++ r) = ds.
Proof.
  intros Hd Hr. induction Hd as [|d ds Hd Hds IH]; [done|]. cbn [fmap list_fmap app Strto.digits].
  assert (E : digit_of (48 + d) = Some d).
  { unfold digit_of. change (digit_spec (48 + d)) with ((48 <=? 48 + d) && (48 + d <=? 57)).
    replace ((48 <=? 48 + d) && (48 + d <=? 57)) with true by lia. f_equal. lia. }
  rewrite E, (proj2 (Z.ltb_lt d 10)) by lia. by rewrite IH.
Qed.

Lemma base_of_10 s : base_of 10 s = (10, 0%nat).
Proof. by destruct s as [|c [|x s]]. Qed.

Lemma parse_blanks a r : exists k, parse_num 10 (replicate a 32 ++ r) =
  let '(neg, j) := sign_of (drop (spaces r) r) in (neg, 10, Strto.digits 10 (drop (spaces r + j) r), k).
Proof.
  unfold parse_num. rewrite spaces_blanks.
  assert (Hd : forall n, drop (a + n) (replicate a 32 ++ r) = drop n r).
  { intros n. rewrite drop_app, (drop_ge (replicate a 32)) by (rewrite length_replicate; lia). rewrite length_replicate. cbn [app]. f_equal. lia. }
  rewrite Hd. destruct (sign_of (drop (spaces r) r)) as [neg j]. rewrite base_of_10, Nat.add_0_r, <- Nat.add_assoc, Hd. by eexists.
Qed.

Lemma read_shape v t : number_shape v t -> exists neg ds k, parse_num 10 t = (neg, 10, ds, k) /\
  neg = (v <? 0) /\ horner 10 0 ds = Z.abs v.
Proof.
  intros (a & b & sg & ds & -> & Hsg & Hd & Hh).
  assert (Hread : Strto.digits 10 ((Z.add 48 <$> ds) ++ replicate b 32) = ds) by (apply read_digits; [done|by destruct b]).
  destruct (parse_blanks a (sg ++ (Z.add 48 <$> ds) ++ replicate b 32)) as [k ->].
  destruct (Z.ltb_spec v 0) as [Hv|Hv]; set_unfold in Hsg.
  - destruct Hsg as [->|[]]. exists true, ds, k. split_and!; [|done|done]. change ((true, 10, Strto.digits 10 ((Z.add 48 <$> ds) ++ replicate b 32), k) = (true, 10, ds, k)). by rewrite Hread.
  - destruct Hsg as [->|[->|[]]]; exists false, ds, k; (split_and!; [|done|done]).
    2: { change ((false, 10, Strto.digits 10 ((Z.add 48 <$> ds) ++ replicate b 32), k) = (false, 10, ds, k)). by rewrite Hread. }
    cbn [app]. destruct ds as [|d ds].
    + cbn [fmap list_fmap app]. rewrite <- (app_nil_r (replicate b 32)), spaces_blanks. cbn [spaces]. rewrite Nat.add_0_r, app_nil_r.
      rewrite drop_ge by (rewrite length_replicate; lia). cbn [sign_of]. rewrite drop_ge by (rewrite length_replicate; lia). done.
    + apply Forall_cons_1 in Hd as [Hd _]. assert (Es : spaces ((Z.add 48 <$> d :: ds) ++ replicate b 32) = 0%nat).
      { cbn [fmap list_fmap app spaces]. assert (Hs : space_spec (48 + d) = false); [|by rewrite Hs].
        assert (Hc : d ∈ [0; 1; 2; 3; 4; 5; 6; 7; 8; 9]) by (set_unfold; lia). set_unfold in Hc. by repeat destruct Hc as [->|Hc]. }
      rewrite Es. cbn [Nat.add]. rewrite !drop_0.
      assert (Eg : sign_of ((Z.add 48 <$> d :: ds) ++ replicate b 32) = (false, 0%nat)).
      { cbn [fmap list_fmap app sign_of]. rewrite (proj2 (Z.eqb_neq _ 45)), (proj2 (Z.eqb_neq _ 43)) by lia. done. }
      rewrite Eg, drop_0, Hread. done.
Qed.

Lemma shape_str v t : number_shape v t -> str_ok t.
Proof.
  intros (a & b & sg & ds & -> & Hsg & Hd & _). unfold str_ok. rewrite !Forall_app. split_and!.
  - apply Forall_replicate. lia.
  - assert (Hc : Forall (fun b => 0 < b < 256) [45] /\ Forall (fun b => 0 < b < 256) [43]) by (split; by repeat constructor).
    destruct (v <? 0); set_unfold in Hsg; destruct_or?; subst; try done; apply Hc || constructor.
  - apply List.Forall_map. eapply Forall_impl; [|exact Hd]. simpl. lia.
  - apply Forall_replicate. lia.
Qed.

Lemma star_value_last w none args v args' a : star_value w none args = Some (v, args') ->
  args' <> [] -> (exists pre, args = pre ++ [a]) -> exists pre, args' = pre ++ [a].
Proof.
  destruct w; cbn [star_value]; [by intros [= _ <-]..|]. destruct args as [|[| | | |] args]; try done.
  intros [= _ <-] Hne [[|x pre] E]; [by injection E as _ ->|]. injection E as _ ->. by exists pre.
Qed.

Lemma dir_text_shape d pre v t : d_conv d ∈ [100; 105] -> d_len d ∈ [Lll; Lj] -> - 2 ^ 63 <= v < 2 ^ 63 ->
  dir_text d (pre ++ [RLLong v]) = Some (t, []) -> number_shape v t.
Proof.
  intros Hc Hl Hv Ht. unfold dir_text in Ht.
  apply bind_Some in Ht as ([w args1] & Hw & Ht). apply bind_Some in Ht as ([p args2] & Hp & Ht).
  destruct (w =? - 2 ^ 31); [done|]. rewrite (proj2 (Z.eqb_neq (d_conv d) 37)) in Ht by (set_unfold in Hc; lia).
  destruct args2 as [|a args2]; [done|]. apply bind_Some in Ht as (t' & Ht & [= <- ->]).
  destruct (star_value_last _ _ _ _ _ (RLLong v) Hw) as [pre1 ->]; [|by eexists|].
  { intros ->. destruct (d_prec d); cbn [star_value] in Hp; naive_solver. }
  destruct (star_value_last _ _ _ _ _ (RLLong v) Hp) as [pre2 E]; [done|by eexists|].
  destruct pre2 as [|x pre2]; [injection E as ->|by destruct pre2].
  cbn [conv_text] in Ht. unfold int_text in Ht.
  replace ((d_conv d =? 100) || (d_conv d =? 105)) with true in Ht by (set_unfold in Hc; lia).
  assert (E2 : int_arg true (d_len d) (RLLong v) = Some v).
  { set_unfold in Hl. destruct Hl as [->|[->|[]]]; cbn [int_arg]; f_equal; by apply wrap_s_small. }
  rewrite E2 in Ht. injection Ht as <-. apply int_shape. lia.
Qed.

(** What sprintf prints of a number of 64 bits, with any flags, width and precision,
    strtoll reads back as that number, in range. *)
Theorem printed_is_read_back {SA : StdioApi} AUTO tb {F : Type} (float_conv : Z -> Z -> Z -> Z -> F -> list Z * Z * Z)
    thousands_sep grouping sb junk str fuel fmt d pre v t s :
  item_ok (Dir d) -> d_conv d ∈ [100; 105] -> d_len d ∈ [Lll; Lj] -> - 2 ^ 63 <= v < 2 ^ 63 ->
  dir_text d (pre ++ [RLLong v]) = Some (t, []) -> Z.of_nat (length t) < 2 ^ 31 ->
  let hi := str + Z.of_nat (length t) + 1 in
  held (i_mem s) str hi fmt (show [Dir d] ++ [0]) -> Forall (arg_held (i_mem s) str hi) pre ->
  rng (i_mem s) str (Z.of_nat (length t) + 1) -> (length (show [Dir d]) < fuel)%nat ->
  exists s' e, sprintf AUTO tb float_conv thousands_sep grouping fuel sb junk str fmt (varg_of <$> (pre ++ [RLLong v])) s =
      Done (Z.of_nat (length t), s') /\
    strtoll (i_mem s') str 10 = Done (v, e, false).
Proof.
  intros Hi Hc Hl Hv Ht Hmax hi Hfmt Hpre Hr Hf. pose proof (dir_text_shape d pre v t Hc Hl Hv Ht) as Hshape.
  assert (Hft : format_text [Dir d] (pre ++ [RLLong v]) = Some (t, [])).
  { cbn [format_text]. rewrite Ht. cbn. by rewrite app_nil_r. }
  destruct (wpi_Done _ _ _ (sprintf_spec AUTO tb float_conv thousands_sep grouping sb junk str fuel fmt [Dir d]
    (pre ++ [RLLong v]) t [] s ltac:(by constructor) Hft Hmax Hfmt ltac:(apply Forall_app; split; [done|by constructor]) Hr Hf))
    as (r & s' & E & -> & Em & _).
  destruct (read_shape v t Hshape) as (neg & ds & k & Ep & -> & Hh).
  pose proof (strtoll_correct (i_mem s') str t 10) as Hst. rewrite Ep in Hst. cbv zeta in Hst. rewrite Hh in Hst.
  exists s', (if (length ds =? 0)%nat then str else str + Z.of_nat (k + length ds)). split; [done|]. rewrite Hst.
  - unfold LLONG_MIN, LLONG_MAX. destruct (Z.ltb_spec v 0); repeat f_equal; lia.
  - split; [rewrite Em; apply bytes_at_write|by eapply shape_str].
  - lia.
Qed.

(** ** Streams on files *)

Section StreamSink.
Context {SA : StdioApi} (AUTO AUTOBUF tb : Z) {laws : OutLaws tb}.
Context {F : Type} (float_conv : Z -> Z -> Z -> Z -> F -> list Z * Z * Z) (thousands_sep grouping : Z).
Implicit Types (s : iost) (x : FILE).

(** The stream has been given [l] since it was [x0] with [pend0] in its buffer. *)
Definition out_stream f s0 x0 (pend0 : list Z) s (l : list Z) : Prop :=
  wrote AUTO AUTOBUF tb s0 f x0 pend0 (enc (textual s0 x0) l) s.

Lemma out_putc f s0 x0 pend0 s l c :
  progress -> wr_ok AUTO AUTOBUF s0 f x0 pend0 -> out_stream f s0 x0 pend0 s l -> -128 <= c < 256 ->
  wpi (putc AUTO tb c f) (fun _ s' => out_stream f s0 x0 pend0 s' (l ++ [byte c]) /\ forall a,
    (exists x, i_files s !! f = Some x /\ client_at AUTO AUTOBUF s x a) ->
    (exists x, i_files s' !! f = Some x /\ client_at AUTO AUTOBUF s' x a) /\ i_mem s' !! a = i_mem s !! a) s.
Proof.
  intros Hpr Hok0 (x & pend & Hok & Hsb & Hst) Hc. eapply wpi_mono; [by apply (putc_spec AUTO AUTOBUF tb s f x pend c)|].
  cbv beta. intros r s' (_ & x' & pend' & Hok' & Hsb' & Hst').
  rewrite (textual_step AUTO AUTOBUF tb s0 f x0 pend0 _ s x pend) in Hst' by (apply Hok0 || apply Hok || done). split.
  - exists x', pend'. split_and!; [done|by eapply same_buf_trans|]. rewrite enc_app. by eapply wstep_trans.
  - intros a (y & Hy & Ha). rewrite (w_at _ _ _ _ _ _ (proj1 Hok)) in Hy. injection Hy as <-.
    destruct (ws_keep _ _ _ _ _ _ _ _ _ _ Hst' a Ha) as [? ?]. split; [|done]. exists x'. split; [apply Hok'|done].
Qed.

Definition stream_sink f s0 x0 pend0 (Hpr : progress) (Hok : wr_ok AUTO AUTOBUF s0 f x0 pend0) : Sink AUTO tb f.
Proof.
  refine {| sk_ok := out_stream f s0 x0 pend0;
    sk_client := fun s a => exists x, i_files s !! f = Some x /\ client_at AUTO AUTOBUF s x a; sk_fits := fun _ => True |}.
  - done.
  - intros s l (x & pend & [[Hx Hw Hr _ _ _] _] & _). by exists x.
  - intros s l c Hs _ Hc. by apply out_putc.
Defined.

(** A string among the arguments is the client's. *)
Definition arg_source s x (a : rarg) : Prop :=
  match a with
  | RStr p l => p = 0 /\ l = NULL_REP \/ 0 < p /\ str_ok l /\ source AUTO AUTOBUF s x p (l ++ [0])
  | _ => True
  end.

Lemma doprnt_stream fuel f s x pend fmt items args t rest :
  progress -> wr_ok AUTO AUTOBUF s f x pend -> Forall item_ok items -> source AUTO AUTOBUF s x fmt (show items ++ [0]) ->
  Forall (arg_source s x) args -> format_text items args = Some (t, rest) -> Z.of_nat (length t) < 2 ^ 31 ->
  (length (show items) < fuel)%nat ->
  wpi (_doprnt AUTO tb float_conv thousands_sep grouping fuel fmt (varg_of <$> args) f) (fun r s' =>
    r = (Z.of_nat (length t), varg_of <$> rest) /\ wrote AUTO AUTOBUF tb s f x pend (enc (textual s x) t) s') s.
Proof.
  intros Hpr Hok Hi Hfmt Ha Ht Hmax Hf. pose proof (w_at _ _ _ _ _ _ (proj1 Hok)) as Hx.
  assert (Hsrc : forall p l, source AUTO AUTOBUF s x p l ->
    client_bytes AUTO tb f (SK := stream_sink f s x pend Hpr Hok) s p l).
  { intros p l (Hat & Hb & Hc). split_and!; [done|done|]. intros a Ha'. exists x. split; [done|]. by apply Hc. }
  eapply wpi_mono.
  { apply (doprnt_spec AUTO tb f (SK := stream_sink f s x pend Hpr Hok) float_conv thousands_sep grouping fmt fuel s []
      items args t rest); try done; [|by apply Hsrc|].
    - unfold enc. cbn. exists x, pend. split_and!; [done|done|]. by destruct (textual s x); apply wstep_refl.
    - eapply Forall_impl; [|exact Ha]. intros [| | |p l|] Hp; try done. destruct Hp as [?|(? & ? & ?)]; [by left|].
      right. split_and!; [done|done|]. by apply Hsrc. }
  cbv beta. intros r s' (-> & Hs & _). done.
Qed.

(** The stream is written to, and flushed where it has no buffer of its own. *)
Definition printed f s x pend (l : list Z) s' : Prop := exists x' pend',
  wr_ok AUTO AUTOBUF s' f x' pend' /\ (nbf x = true -> pend' = []) /\ wstep AUTO AUTOBUF tb s x pend l s' x' pend'.

Lemma printed_err f s x pend l s' (n : Z) : printed f s x pend l s' ->
  wpi (y ← getf f; mret (if has (_flag y) _IOERR then EOF else n))
    (fun r s2 => r = (if has (_flag x) _IOERR then EOF else n) /\ printed f s x pend l s2) s'.
Proof.
  intros (x' & pend' & Hok & He & Hst). pose proof (w_at _ _ _ _ _ _ (proj1 Hok)) as Hx. io.
  split; [by rewrite (ws_err _ _ _ _ _ _ _ _ _ _ Hst)|]. by exists x', pend'.
Qed.

Lemma fprintf_spec fuel f s x pend fmt items args t rest :
  progress -> wr_ok AUTO AUTOBUF s f x pend -> f <> 0 -> Forall item_ok items ->
  source AUTO AUTOBUF s x fmt (show items ++ [0]) -> Forall (arg_source s x) args ->
  format_text items args = Some (t, rest) -> Z.of_nat (length t) < 2 ^ 31 -> (length (show items) < fuel)%nat ->
  wpi (fprintf AUTO AUTOBUF tb float_conv thousands_sep grouping fuel f fmt (varg_of <$> args)) (fun r s' =>
    r = (if has (_flag x) _IOERR then EOF else Z.of_nat (length t)) /\
    printed f s x pend (enc (textual s x) t) s') s.
Proof.
  intros Hpr Hok Hf0 Hi Hfmt Ha Ht Hmax Hf. pose proof (w_at _ _ _ _ _ _ (proj1 Hok)) as Hx.
  unfold fprintf, vfprintf. io1. fold (nbf x). apply wpi_bind. destruct (nbf x) eqn:En.
  2: { apply wpi_bind. eapply wpi_mono; [by apply (doprnt_stream fuel f s x pend fmt items args t rest)|]. cbv beta.
       intros ? s' (-> & x' & p' & Hok' & _ & Hst'). apply wpi_ret. apply printed_err. exists x', p'. by rewrite En. }
  io. destruct (localbuf_ok AUTO AUTOBUF tb s f x pend Hok En) as (Hok1 & Hst1 & Ht1 & Hb1 & Hn1 & Hl1). set (x1 := up_bufsiz _ _) in *.
  apply wpi_bind. eapply wpi_mono; [apply (doprnt_stream fuel f (setf s f x1) x1 [] fmt items args t rest); try done|].
  { by eapply source_step. }
  { eapply Forall_impl; [|exact Ha]. intros [| | |p l|] Hp; try done. destruct Hp as [?|(? & ? & ?)]; [by left|].
    right. split_and!; [done|done|]. by eapply source_step. }
  cbv beta. intros ? s2 (-> & x2 & p2 & Hok2 & Hsb2 & Hst2). apply wpi_bind.
  eapply wpi_mono; [by eapply (fflush_spec AUTO AUTOBUF tb s2 f x2 p2); [|apply Hok2|]|]. cbv beta.
  intros ? s3 (_ & x3 & Hfl). pose proof (w_at _ _ _ _ _ _ (fl_pre _ _ _ _ _ _ _ _ _ Hfl)) as Hx3. io1. io1. io1. io1. io1.
  destruct (sb_base _ _ _ Hsb2 Hb1) as (_ & _ & En2 & El2).
  destruct (localbuf_done AUTO AUTOBUF tb s3 f x3 (fl_pre _ _ _ _ _ _ _ _ _ Hfl)) as [Hok4 Hst4].
  { by rewrite (fl_nbf _ _ _ _ _ _ _ _ _ Hfl), En2. }
  { by rewrite (fl_lbf _ _ _ _ _ _ _ _ _ Hfl), El2. }
  apply printed_err. eexists _, []. split_and!; [exact Hok4|done|]. rewrite <- Ht1.
  pose proof (wstep_trans _ _ _ _ _ _ _ _ _ _ _ _ _ _ Hst2 (fl_step _ _ _ _ _ _ _ _ _ Hfl)) as H23.
  pose proof (wstep_trans _ _ _ _ _ _ _ _ _ _ _ _ _ _ Hst1 (wstep_trans _ _ _ _ _ _ _ _ _ _ _ _ _ _ H23 Hst4)) as H.
  by rewrite app_nil_l, !app_nil_r in H.
Qed.

(** C9. fprintf on a stream for output, in every mode of buffering: the text that the format
    stands for goes to the stream, as stream_output says of characters; nothing of the
    client's changes, the result is the length of the text, or EOF where the error flag was
    set before. The format is one of [item_ok]: ordinary characters and the conversions d,
    i, u, o, x, X, c, s, p and %, with the flags space, #, +, - and 0, with a width and a
    precision, and with the lengths h, l, ll, j and z; not the positions of arguments, hh, t,
    grouping, n and floating point, nor the octal zero with # and precision 0, of which
    [format_text] has no text. Write does not fail ([progress]). *)
Theorem fprintf_correct fuel f s x pend fmt items args t rest :
  progress -> wr_ok AUTO AUTOBUF s f x pend -> f <> 0 -> Forall item_ok items ->
  source AUTO AUTOBUF s x fmt (show items ++ [0]) -> Forall (arg_source s x) args ->
  format_text items args = Some (t, rest) -> Z.of_nat (length t) < 2 ^ 31 -> (length (show items) < fuel)%nat ->
  exists s' x' pend',
    fprintf AUTO AUTOBUF tb float_conv thousands_sep grouping fuel f fmt (varg_of <$> args) s =
      Done (if has (_flag x) _IOERR then EOF else Z.of_nat (length t), s') /\
    wr_ok AUTO AUTOBUF s' f x' pend' /\ (nbf x = true -> pend' = []) /\
    fd_out tb s' x ++ pend' = fd_out tb s x ++ pend ++ enc (textual s x) t /\
    forall a, client_at AUTO AUTOBUF s x a -> client_at AUTO AUTOBUF s' x' a /\ i_mem s' !! a = i_mem s !! a.
Proof.
  intros Hpr Hok Hf0 Hi Hfmt Ha Ht Hmax Hf.
  destruct (wpi_Done _ _ _ (fprintf_spec fuel f s x pend fmt items args t rest Hpr Hok Hf0 Hi Hfmt Ha Ht Hmax Hf))
    as (r & s' & E & -> & x' & pend' & Hok' & He & Hst). exists s', x', pend'.
  split_and!; [done|done|done|apply (ws_out _ _ _ _ _ _ _ _ _ _ Hst)|apply (ws_keep _ _ _ _ _ _ _ _ _ _ Hst)].
Qed.

End StreamSink.
