(* ===== verification/DoprntRuns.v ===== *)
(** * printf at work

    The theorems about printf at concrete formats, on the disk of [StdioDisk]; and formats
    on which the code does not do what it means to. *)

From Stdlib Require Import String Ascii.
From stdpp Require Import base gmap list numbers.
From Stdlib Require Import ZArith Lia.
From S2P Require Import Prelude Ctype MemFuns Strings Strto NMalloc NmRep Stdio StdioInv StdioWr StdioThms StdioDisk.
From S2P Require Import Doprnt DoprntSpec DoprntConv DoprntLoop DoprntThms.

Open Scope Z_scope.
Open Scope c_scope.

#[local] Existing Instance dk_api.
#[local] Existing Instance dk_out.
#[local] Opaque demo_mem.

(** Nothing here converts floating point. *)
Definition no_float (fmtch flags prec sign : Z) (d : Empty_set) : list Z * Z * Z := ([], 0, 0).

(** ** A format *)

(** %-6s, %+05d and %#x, LF *)
Definition demo_items : list item :=
  [Dir (mk_dir [45] (WNum 6) WNone L0 115); Lit 124; Dir (mk_dir [43; 48] (WNum 5) WNone L0 100); Lit 124;
   Dir (mk_dir [35] WNone WNone L0 120); Lit 10].

Definition demo_args : list rarg := [RStr 0 NULL_REP; RInt (-42); RInt 255].

(** (null)|-0042|0xff LF *)
Definition demo_out : list Z := [40; 110; 117; 108; 108; 41; 124; 45; 48; 48; 52; 50; 124; 48; 120; 102; 102; 10].

Lemma demo_items_ok : Forall item_ok demo_items.
Proof. repeat constructor; cbn; try lia; set_solver. Qed.

Lemma demo_format_text : format_text demo_items demo_args = Some (demo_out, []).
Proof. by vm_compute. Qed.

Lemma demo_show_ok : bytes_ok (show demo_items ++ [0]).
Proof. apply (bool_decide_eq_true_1 _). by vm_compute. Qed.

Definition unbuffered : FILE := opened (_IOWRT .| _IONBF) 5.

Lemma demo_unbuffered text : Z.of_nat (length text) <= 1000 ->
  wr_ok 999 20000 (demo text unbuffered ∅) 10 unbuffered [].
Proof.
  intros Hl. split; [split|]; try done.
  - split_and!; [apply demo_mapped; [done|unfold BUFSIZ; lia]|lia|]. intros a Ha. apply demo_mapped; [done|lia].
  - by apply no_buffer.
Qed.

Lemma fprintf_correct_witness : exists s',
  fprintf 999 20000 512 no_float 0 0 30 10 1000 (varg_of <$> demo_args)
    (demo (show demo_items ++ [0]) unbuffered ∅) = Done (18, s') /\
  (dk_at 5 (i_os s')).1 = take 17 demo_out ++ [13; 10].
Proof.
  destruct (fprintf_correct 999 20000 512 no_float 0 0 30 10 (demo (show demo_items ++ [0]) unbuffered ∅) unbuffered []
    1000 demo_items demo_args demo_out []) as (s' & x' & p' & E & _ & Hp & Ho & _).
  - apply dk_progress.
  - apply demo_unbuffered. vm_compute. discriminate.
  - lia.
  - apply demo_items_ok.
  - apply demo_text; [vm_compute; discriminate|apply demo_show_ok|apply firstn_all|reflexivity].
  - repeat constructor.
  - apply demo_format_text.
  - by vm_compute.
  - apply Nat.ltb_lt. by vm_compute.
  - exists s'. split; [exact E|]. rewrite Hp, app_nil_r in Ho by reflexivity. exact Ho.
Defined.

(** The format is apart from what is printed to. *)
Lemma demo_held items lo hi : Z.of_nat (length (show items ++ [0])) <= 1000 -> bytes_ok (show items ++ [0]) -> 2000 <= lo ->
  held (demo_mem (show items ++ [0])) lo hi 1000 (show items ++ [0]).
Proof.
  intros Hl Hb Hlo. destruct (demo_text (show items ++ [0]) unbuffered ∅ (show items ++ [0])) as (Hat & _); [done|done|apply firstn_all|done|].
  split_and!; [exact Hat|done|]. lia.
Qed.

Lemma demo_room text n : Z.of_nat (length text) <= 1000 -> n <= BUFSIZ -> rng (demo_mem text) 20000 n.
Proof. intros Hl Hn a Ha. apply demo_mapped; [done|lia]. Qed.

Lemma snprintf_bounded_witness : exists s',
  snprintf 999 512 no_float 0 0 30 50 20000 8 1000 (varg_of <$> demo_args)
    (demo (show demo_items ++ [0]) unbuffered ∅) = Done (18, s') /\
  i_mem s' = write_bytes (demo_mem (show demo_items ++ [0])) 20000 (take 7 demo_out ++ [0]).
Proof.
  destruct (snprintf_bounded 999 512 no_float 0 0 50 20000 8 30 1000 demo_items demo_args demo_out []
    (demo (show demo_items ++ [0]) unbuffered ∅)) as (s' & E & Em & _).
  - apply demo_items_ok.
  - apply demo_format_text.
  - by vm_compute.
  - apply demo_held; [vm_compute; discriminate|apply demo_show_ok|lia].
  - repeat constructor.
  - unfold INT_MAX. lia.
  - apply demo_room; [vm_compute; discriminate|unfold BUFSIZ; lia].
  - apply Nat.ltb_lt. by vm_compute.
  - exists s'. split; [exact E|exact Em].
Defined.

(** %+ *.3lld *)
Definition num_dir : directive := mk_dir [43; 32] WStar (WNum 3) Lll 100.

Lemma printed_is_read_back_witness : exists s' e,
  sprintf 999 512 no_float 0 0 30 50 zero_FILE 20000 1000 [VInt (-9); VLLong (-42)]
    (demo (show [Dir num_dir] ++ [0]) unbuffered ∅) = Done (9, s') /\
  strtoll (i_mem s') 20000 10 = Done (-42, e, false).
Proof.
  apply (printed_is_read_back 999 512 no_float 0 0 50 zero_FILE 20000 30 1000 num_dir [RInt (-9)] (-42)
    ([45; 48; 52; 50] ++ replicate 5 32) (demo (show [Dir num_dir] ++ [0]) unbuffered ∅)).
  - repeat constructor; cbn; try lia; set_solver.
  - set_solver.
  - set_solver.
  - lia.
  - by vm_compute.
  - by vm_compute.
  - apply demo_held; [vm_compute; discriminate|apply (bool_decide_eq_true_1 _); by vm_compute|lia].
  - repeat constructor.
  - apply demo_room; [vm_compute; discriminate|unfold BUFSIZ; cbn; lia].
  - apply Nat.ltb_lt. by vm_compute.
Defined.

(** ** Formats that go wrong *)

Fixpoint chars (s : string) : list Z :=
  match s with EmptyString => [] | String c s => Z.of_nat (nat_of_ascii c) :: chars s end.

(** What snprintf returns and writes, with the thousands separator [sep] *)
Definition print_sep (sep : Z) (fmt : string) (args : list (varg Empty_set)) : option (Z * list Z) :=
  value (n ← snprintf 999 512 no_float sep 3 100 50 20000 60 1000 args; l ← see_string 20000 60; mret (n, l))
    (demo (chars fmt ++ [0]) unbuffered ∅).
Definition print := print_sep 0.

(** The second use of a position goes on from where the first left the arguments. *)
Lemma positions_advance :
  print "%2$d %1$d" [VInt 1; VInt 2] = Some (3, chars "2 2") /\
  print "%1$d %2$d %3$d" [VInt 1; VInt 2; VInt 3] = None.
Proof. split; by vm_compute. Qed.

(** A position in front of c is not used. *)
Lemma char_ignores_position : print "%2$c %1$c" [VInt 65; VInt 66] = Some (3, chars "A B").
Proof. by vm_compute. Qed.

(** The length hh leaves an int as it is. *)
Lemma hh_not_cut : print "%hhd %hhu" [VInt 300; VInt (-1)] = Some (14, chars "300 4294967295").
Proof. by vm_compute. Qed.

(** The octal form of 0 with precision 0 and # is not there. *)
Lemma alt_octal_zero : print "<%#.0o>" [VInt 0] = Some (2, chars "<>").
Proof. by vm_compute. Qed.

(** A ptrdiff_t has the size of a long, but is fetched as an int. *)
Lemma ptrdiff_as_int : print "%td" [VLong 5] = None /\ print "%td" [VInt 5] = Some (1, chars "5").
Proof. split; by vm_compute. Qed.

(** With a thousands separator the digits are read past their end. *)
Lemma grouping_overruns : print_sep 44 "%'d" [VInt 1234] = None /\ print "%'d" [VInt 1234] = Some (4, chars "1234").
Proof. split; by vm_compute. Qed.

(** vasprintf and vasnprintf print twice, the second time with the arguments used up. *)
Lemma vasprintf_reuses :
  value (vasprintf 999 512 no_float 0 0 100 50 1000 [VInt 7]) (demo (chars "%d" ++ [0]) unbuffered ∅) = None /\
  value (vasnprintf 999 512 no_float 0 0 100 50 0 0 1000 [VInt 7]) (demo (chars "%d" ++ [0]) unbuffered ∅) = None /\
  fst <$> value (vasprintf 999 512 no_float 0 0 100 50 1000 [VInt 7; VInt 77]) (demo (chars "%d" ++ [0]) unbuffered ∅) = Some 2.
Proof. split_and!; by vm_compute. Qed.

(** The test for a size above INT_MAX is on an int. *)
Lemma vasnprintf_size : forall np, (INT_MAX <? wrap_s 32 np) = false.
Proof. intros np. apply Z.ltb_ge. pose proof (wrap_s_bounds 32 np). unfold INT_MAX. lia. Qed.
