(* ===== verification/HashTab.v ===== *)
(** * Hash tables

    src/src/libc/posix/search/_hash2v.c and hcreate.c. Keys are strings in byte memory; the
    table is the array that calloc gives, or NULL, and a pointer to one of its elements is an
    index. Whether calloc succeeds is a parameter. *)

From stdpp Require Import base gmap list numbers.
From Stdlib Require Import ZArith Lia.
From S2P Require Import Prelude MemFuns Strings.

Open Scope Z_scope.
Open Scope c_scope.

(** ** The hash functions *)

Definition u64 (x : Z) : Z := wrap_u 64 x.

(** A line of mix: [a -= b; a -= c; a ^= x] *)
Definition mix_line (a b c x : Z) : Z := Z.lxor (u64 (u64 (a - b) - c)) x.

Definition mix (a b c : Z) : Z * Z * Z :=
  let a := mix_line a b c (Z.shiftr c 13) in
  let b := mix_line b c a (u64 (Z.shiftl a 8)) in
  let c := mix_line c a b (Z.shiftr b 13) in
  let a := mix_line a b c (Z.shiftr c 12) in
  let b := mix_line b c a (u64 (Z.shiftl a 16)) in
  let c := mix_line c a b (Z.shiftr b 5) in
  let a := mix_line a b c (Z.shiftr c 3) in
  let b := mix_line b c a (u64 (Z.shiftl a 10)) in
  let c := mix_line c a b (Z.shiftr b 15) in
  (a, b, c).

(** The four bytes of a word *)
Definition word_at (m : mem) (k : Z) : outcome Z :=
  k0 ← load m k;
  k1 ← load m (k + 1);
  k2 ← load m (k + 2);
  k3 ← load m (k + 3);
  Done (k0 + Z.shiftl k1 8 + Z.shiftl k2 16 + Z.shiftl k3 24).

(** Twelve bytes of the key *)
Definition mix_block (m : mem) (k a b c : Z) : outcome (Z * Z * Z) :=
  x ← word_at m k;
  y ← word_at m (k + 4);
  z ← word_at m (k + 8);
  Done (mix (u64 (a + x)) (u64 (b + y)) (u64 (c + z))).

(** [case n: ... += k[i] << sh], which is reached for [which] of [n] or more *)
Definition case_add (m : mem) (k which n i sh v : Z) : outcome Z :=
  if n <=? which then x ← load m (k + i); Done (u64 (v + Z.shiftl x sh)) else Done v.

(** The switch over the last bytes *)
Definition last_bytes (m : mem) (k which a b c : Z) : outcome (Z * Z * Z) :=
  c ← case_add m k which 11 10 24 c;
  c ← case_add m k which 10 9 16 c;
  c ← case_add m k which 9 8 8 c;
  b ← case_add m k which 8 7 24 b;
  b ← case_add m k which 7 6 16 b;
  b ← case_add m k which 6 5 8 b;
  b ← case_add m k which 5 4 0 b;
  a ← case_add m k which 4 3 24 a;
  a ← case_add m k which 3 2 16 a;
  a ← case_add m k which 2 1 8 a;
  a ← case_add m k which 1 0 0 a;
  Done (a, b, c).

(** [for (which = 0; which < 12; which++) if (!k[which]) break;] *)
Definition find_end (m : mem) (k : Z) : outcome Z :=
  loop 13 (fun which =>
    if which <? 12 then b ← load m (k + which); if b =? 0 then Done (inr which) else Done (inl (which + 1))
    else Done (inr which)) 0.

Definition golden : Z := 0x9e3779b9.

(** The result is the value and the second one. *)
Definition _hash2v (m : mem) (k : Z) : outcome (Z * Z) :=
  '(k, len, which, a, b, c) ← loop (scan_fuel m) (fun '(k, len, a, b, c) =>
    which ← find_end m k;
    if which <? 12 then Done (inr (k, len, which, a, b, c))
    else '(a, b, c) ← mix_block m k a b c; Done (inl (k + 12, u64 (len + 12), a, b, c)))
    (k, 0, golden, golden, 0);
  let len := u64 (len + which) in
  '(a, b, c) ← last_bytes m k which a b (u64 (c + len));
  let '(a, b, c) := mix a b c in
  Done (c, b).

(** The original function, for a key of [length] bytes *)
Definition hash (m : mem) (k length initval : Z) : outcome Z :=
  '(k, len, a, b, c) ← loop (S (Z.to_nat length)) (fun '(k, len, a, b, c) =>
    if len <? 12 then Done (inr (k, len, a, b, c))
    else '(a, b, c) ← mix_block m k a b c; Done (inl (k + 12, u64 (len - 12), a, b, c)))
    (k, length, golden, golden, initval);
  '(a, b, c) ← last_bytes m k len a b (u64 (c + length));
  let '(a, b, c) := mix a b c in
  Done c.

(** ** The table *)

Inductive ACTION : Type := FIND | ENTER.

Record ENTRY := mk_ENTRY { key : Z; data : Z }.

(** The static variables *)
Record htab := mk_htab { h_hash : option (list ENTRY); h_buckets : Z; h_mask : Z }.

Definition htab_init : htab := mk_htab None 0 (2 ^ 64 - 1).

Definition MAX_BUCKETS : Z := 0x20000000.

(** [while ((1U<<i) < nel) i++;] *)
Definition round_up (nel : Z) : outcome Z :=
  loop 32 (fun i => if wrap_u 32 (Z.shiftl 1 i) <? nel then Done (inl (i + 1)) else Done (inr i)) 7.

Definition hcreate (calloc_ok : bool) (nel : Z) (t : htab) : outcome (Z * htab) :=
  if MAX_BUCKETS <? nel then Done (0, t)
  else
    let nel := nel + nel / 3 in
    let nel := if MAX_BUCKETS <? nel then MAX_BUCKETS else nel in
    let nel := if nel <? 0x80 then 0x80 else nel in
    i ← round_up nel;
    let buckets := wrap_u 32 (Z.shiftl 1 i) in
    Done (if calloc_ok then
            (1, mk_htab (Some (replicate (Z.to_nat buckets) (mk_ENTRY 0 0))) buckets (buckets - 1))
          else (0, mk_htab None buckets (buckets - 1))).

Definition hdestroy (t : htab) : htab := mk_htab None (h_buckets t) (h_mask t).

(** [hash[i]] *)
Definition bucket (t : htab) (i : Z) : outcome ENTRY :=
  match h_hash t with
  | None => Fail UB
  | Some l => match l !! Z.to_nat i with Some e => Done e | None => Fail UB end
  end.

Definition set_bucket (t : htab) (i : Z) (e : ENTRY) : htab :=
  mk_htab (match h_hash t with None => None | Some l => Some (<[Z.to_nat i := e]> l) end) (h_buckets t) (h_mask t).

(** The body of the do loop; left of the sum where it goes on *)
Definition hsearch_body (m : mem) (item : ENTRY) (action : ACTION) (t : htab) (start increment hash_value : Z)
    : outcome (Z + option Z * htab) :=
  e ← bucket t hash_value;
  if key e =? 0 then
    Done (inr (match action with
               | FIND => (None, t)
               | ENTER => (Some hash_value, set_bucket t hash_value item)
               end))
  else
    r ← strcmp m (key e) (key item);
    if r =? 0 then Done (inr (Some hash_value, t))
    else
      let hash_value := u64 (hash_value + increment) .& h_mask t in
      if hash_value =? start then Done (inr (None, t)) else Done (inl hash_value).

(** The result is the index of the element, or None for NULL. *)
Definition hsearch (m : mem) (item : ENTRY) (action : ACTION) (t : htab) : outcome (option Z * htab) :=
  '(value, increment) ← _hash2v m (key item);
  let start := value .& h_mask t in
  let increment := u64 (u64 (2 * increment) + 1) in
  loop (S (Z.to_nat (h_buckets t))) (hsearch_body m item action t start increment) start.
