(* ===== verification/HashProps.v ===== *)
(** * Hash tables: the table is a map

    The hash of a string, as a function on its bytes; the order in which the elements of the
    table are looked at; and the table as a finite map from strings to data. *)

From stdpp Require Import base gmap list numbers.
From Stdlib Require Import ZArith Lia.
From S2P Require Import Prelude MemFuns Strings HashTab.

Open Scope Z_scope.
Open Scope c_scope.

(** ** The hash of a string *)

Definition byte_of (s : list Z) (i : Z) : Z := nth (Z.to_nat i) s 0.
Definition word_of (s : list Z) (i : Z) : Z :=
  byte_of s i + Z.shiftl (byte_of s (i + 1)) 8 + Z.shiftl (byte_of s (i + 2)) 16 + Z.shiftl (byte_of s (i + 3)) 24.

Definition case_of (s : list Z) (which n i sh v : Z) : Z :=
  if n <=? which then u64 (v + Z.shiftl (byte_of s i) sh) else v.

Definition last_of (s : list Z) (a b c : Z) : Z * Z * Z :=
  let which := Z.of_nat (length s) in
  (case_of s which 1 0 0 (case_of s which 2 1 8 (case_of s which 3 2 16 (case_of s which 4 3 24 a))),
   case_of s which 5 4 0 (case_of s which 6 5 8 (case_of s which 7 6 16 (case_of s which 8 7 24 b))),
   case_of s which 9 8 8 (case_of s which 10 9 16 (case_of s which 11 10 24 c))).

Definition mix3 (x : Z * Z * Z) : Z * Z * Z := let '(a, b, c) := x in mix a b c.

(** [len] is the length of the whole key. *)
Fixpoint hash_from (fuel : nat) (s : list Z) (len a b c : Z) : Z * Z * Z :=
  match fuel with
  | O => (a, b, c)
  | S fuel' =>
      if Z.of_nat (length s) <? 12 then mix3 (last_of s a b (u64 (c + len)))
      else
        let '(a, b, c) := mix (u64 (a + word_of s 0)) (u64 (b + word_of s 4)) (u64 (c + word_of s 8)) in
        hash_from fuel' (drop 12 s) len a b c
  end.

Definition hash_str (s : list Z) : Z * Z :=
  let '(a, b, c) := hash_from (S (length s)) s (u64 (Z.of_nat (length s))) golden golden 0 in (c, b).

Section Str.
Context (m : mem).

Lemma load_str k s i : cstr m k s -> 0 <= i < Z.of_nat (length s) -> load m (k + i) = Done (byte_of s i) /\ 0 < byte_of s i.
Proof.
  intros [Hat Hok] Hi. destruct (lookup_lt_is_Some_2 s (Z.to_nat i)) as [b Hb]; [lia|].
  unfold byte_of. rewrite (nth_lookup_Some _ _ _ _ Hb). split.
  - apply load_Some. replace (k + i) with (k + Z.of_nat (Z.to_nat i)) by lia. apply Hat. rewrite lookup_app_l by lia. done.
  - eapply str_ok_elem; [done|]. by apply list_elem_of_lookup_2 in Hb.
Qed.

Lemma find_end_spec k s : cstr m k s -> find_end m k = Done (Z.min 12 (Z.of_nat (length s))).
Proof.
  intros Hs. unfold find_end.
  enough (G : forall n w, (0 <= w <= Z.min 12 (Z.of_nat (length s))) -> (Z.of_nat n = 13 - w) ->
    loop n (fun which => if which <? 12 then b ← load m (k + which); if b =? 0 then Done (inr which) else Done (inl (which + 1))
      else Done (inr which)) w = Done (Z.min 12 (Z.of_nat (length s)))) by (apply G; lia).
  induction n as [|n IH]; intros w Hw Hn; [lia|]. rewrite loop_S. destruct (Z.ltb_spec w 12).
  - destruct (decide (w < Z.of_nat (length s))) as [Hl|Hl].
    + destruct (load_str k s w Hs) as [-> Hb]; [lia|]. rewrite bind_Done. destruct (Z.eqb_spec (byte_of s w) 0); [lia|].
      apply IH; lia.
    + destruct Hs as [Hat _]. rewrite (load_Some m (k + w) 0), bind_Done.
      * cbn. f_equal. lia.
      * replace w with (Z.of_nat (length s)) by lia. apply Hat. by rewrite lookup_app_r, Nat.sub_diag by lia.
  - f_equal. lia.
Qed.

Lemma word_at_spec k s i : cstr m k s -> 0 <= i -> i + 3 < Z.of_nat (length s) -> word_at m (k + i) = Done (word_of s i).
Proof.
  intros Hs H0 Hi. unfold word_at. rewrite <- !Z.add_assoc.
  rewrite !(fun j H => proj1 (load_str k s j Hs H)) by lia. done.
Qed.

Lemma mix_block_spec k s a b c : cstr m k s -> 12 <= Z.of_nat (length s) ->
  mix_block m k a b c = Done (mix (u64 (a + word_of s 0)) (u64 (b + word_of s 4)) (u64 (c + word_of s 8))).
Proof.
  intros Hs Hl. unfold mix_block. replace (word_at m k) with (word_at m (k + 0)) by (f_equal; lia).
  rewrite !(word_at_spec k s _ Hs) by lia. done.
Qed.

Lemma case_add_spec k s n i sh v : cstr m k s -> i = n - 1 -> 0 <= i ->
  case_add m k (Z.of_nat (length s)) n i sh v = Done (case_of s (Z.of_nat (length s)) n i sh v).
Proof.
  intros Hs -> Hi. unfold case_add, case_of. destruct (Z.leb_spec n (Z.of_nat (length s))); [|done].
  by rewrite (proj1 (load_str k s (n - 1) Hs ltac:(lia))).
Qed.

Lemma last_bytes_spec k s a b c : cstr m k s -> last_bytes m k (Z.of_nat (length s)) a b c = Done (last_of s a b c).
Proof.
  intros Hs. unfold last_bytes. 
  do 11 (match goal with |- (case_add _ _ _ ?n ?i ?sh ?v ≫= _) = _ => rewrite (case_add_spec k s n i sh v) by (done || lia) end;
    rewrite bind_Done).
  done.
Qed.

Lemma cstr_drop12 k s : cstr m k s -> 12 <= Z.of_nat (length s) -> cstr m (k + 12) (drop 12 s).
Proof.
  intros [Hat Hok] Hl. split; [|by apply Forall_drop].
  rewrite <- (take_drop 12 s), <- app_assoc in Hat. apply bytes_at_app in Hat as [_ Hat].
  rewrite length_take, Nat.min_l in Hat by lia. exact Hat.
Qed.

(** The loop over the blocks, as both functions write it *)
Lemma hash2v_loop fuel : forall s k len a b c, cstr m k s -> (length s < fuel)%nat ->
  exists k' s' len' a' b' c',
    loop fuel (fun '(k, len, a, b, c) =>
      which ← find_end m k;
      if which <? 12 then Done (inr (k, len, which, a, b, c))
      else '(a, b, c) ← mix_block m k a b c; Done (inl (k + 12, u64 (len + 12), a, b, c)))
      (k, len, a, b, c) = Done (k', len', Z.of_nat (length s'), a', b', c') /\
    cstr m k' s' /\ u64 (len' + Z.of_nat (length s')) = u64 (len + Z.of_nat (length s)) /\
    forall n tot, (length s < n)%nat -> hash_from n s tot a b c = mix3 (last_of s' a' b' (u64 (c' + tot))).
Proof.
  induction fuel as [|fuel IH]; intros s k len a b c Hs Hf; [lia|]. rewrite loop_S, (find_end_spec k s Hs), bind_Done.
  destruct (Z.ltb_spec (Z.min 12 (Z.of_nat (length s))) 12) as [Hl|Hl].
  - exists k, s, len, a, b, c. replace (Z.min 12 (Z.of_nat (length s))) with (Z.of_nat (length s)) by lia.
    split_and!; try done. intros [|n] tot Hn; [lia|]. cbn [hash_from]. by rewrite (proj2 (Z.ltb_lt _ 12)) by lia.
  - rewrite (mix_block_spec k s) by (done || lia). rewrite bind_Done.
    destruct (mix _ _ _) as [[a1 b1] c1] eqn:Em.
    destruct (IH (drop 12 s) (k + 12) (u64 (len + 12)) a1 b1 c1) as (k' & s' & len' & a' & b' & c' & E & Hs' & El & Eh).
    { apply cstr_drop12; [done|lia]. }
    { rewrite length_drop. lia. }
    exists k', s', len', a', b', c'. split_and!; [done|done| |].
    + rewrite El, length_drop. unfold u64, wrap_u. rewrite Zplus_mod_idemp_l. f_equal. lia.
    + intros [|n] tot Hn; [lia|]. cbn [hash_from]. rewrite (proj2 (Z.ltb_ge _ 12)), Em by lia. apply Eh. rewrite length_drop. lia.
Qed.

Lemma hash2v_spec k s : cstr m k s -> _hash2v m k = Done (hash_str s).
Proof.
  intros Hs. unfold _hash2v. pose proof (cstr_fuel m k s Hs).
  destruct (hash2v_loop (scan_fuel m) s k 0 golden golden 0 Hs) as (k' & s' & len' & a' & b' & c' & E & Hs' & El & Eh); [lia|].
  rewrite E, bind_Done. rewrite (last_bytes_spec k' s' _ _ _ Hs'), bind_Done. unfold hash_str.
  rewrite Eh by lia. rewrite El. unfold mix3. destruct (last_of _ _ _ _) as [[a b] c]. by destruct (mix a b c) as [[? ?] ?].
Qed.

Lemma hash_loop fuel : forall s k a b c, cstr m k s -> (length s < fuel)%nat -> Z.of_nat (length s) < 2 ^ 64 ->
  exists k' s' a' b' c',
    loop fuel (fun '(k, len, a, b, c) =>
      if len <? 12 then Done (inr (k, len, a, b, c))
      else '(a, b, c) ← mix_block m k a b c; Done (inl (k + 12, u64 (len - 12), a, b, c)))
      (k, Z.of_nat (length s), a, b, c) = Done (k', Z.of_nat (length s'), a', b', c') /\
    cstr m k' s' /\
    forall n tot, (length s < n)%nat -> hash_from n s tot a b c = mix3 (last_of s' a' b' (u64 (c' + tot))).
Proof.
  induction fuel as [|fuel IH]; intros s k a b c Hs Hf Hm; [lia|]. rewrite loop_S.
  destruct (Z.ltb_spec (Z.of_nat (length s)) 12) as [Hl|Hl].
  - exists k, s, a, b, c. split_and!; try done. intros [|n] tot Hn; [lia|]. cbn [hash_from]. by rewrite (proj2 (Z.ltb_lt _ 12)) by lia.
  - rewrite (mix_block_spec k s) by (done || lia). rewrite bind_Done.
    destruct (mix _ _ _) as [[a1 b1] c1] eqn:Em.
    destruct (IH (drop 12 s) (k + 12) a1 b1 c1) as (k' & s' & a' & b' & c' & E & Hs' & Eh).
    { apply cstr_drop12; [done|lia]. }
    { rewrite length_drop. lia. }
    { rewrite length_drop. lia. }
    exists k', s', a', b', c'. rewrite length_drop in E.
    replace (u64 (Z.of_nat (length s) - 12)) with (Z.of_nat (length s - 12)); cycle 1.
    { unfold u64. rewrite wrap_u_small by lia. lia. }
    split_and!; [done|done|]. intros [|n] tot Hn; [lia|]. cbn [hash_from]. rewrite (proj2 (Z.ltb_ge _ 12)), Em by lia.
    apply Eh. rewrite length_drop. lia.
Qed.

Lemma hash_spec k s : cstr m k s -> Z.of_nat (length s) < 2 ^ 64 -> hash m k (Z.of_nat (length s)) 0 = Done (hash_str s).1.
Proof.
  intros Hs Hm. unfold hash.
  destruct (hash_loop (S (Z.to_nat (Z.of_nat (length s)))) s k golden golden 0 Hs) as (k' & s' & a' & b' & c' & E & Hs' & Eh); [lia|done|].
  rewrite E, bind_Done. rewrite (last_bytes_spec k' s' _ _ _ Hs'), bind_Done. unfold hash_str.
  rewrite Eh by lia. replace (u64 (Z.of_nat (length s))) with (Z.of_nat (length s)) by (unfold u64; by rewrite wrap_u_small by lia).
  unfold mix3. destruct (last_of _ _ _ _) as [[a b] c]. by destruct (mix a b c) as [[? ?] ?].
Qed.

End Str.

(** ** The cells that a key is looked for in *)

Section Probe.
Context (i : Z) (Hi : 0 <= i < 32).

Definition probe (s : list Z) (j : Z) : Z :=
  let '(v, b) := hash_str s in (v + j * (2 * b + 1)) mod 2 ^ i.

Lemma probe_range s j : 0 <= probe s j < 2 ^ i.
Proof. unfold probe. destruct (hash_str s). apply Z.mod_pos_bound. apply Z.pow_pos_nonneg; lia. Qed.

(** The increment is odd and the size a power of two: the first cells of a key differ. *)
Lemma probe_inj s j j' : 0 <= j < 2 ^ i -> 0 <= j' < 2 ^ i -> probe s j = probe s j' -> j = j'.
Proof.
  unfold probe. destruct (hash_str s) as [v b]. intros Hj Hj' E.
  assert (Hd : (2 ^ i | (2 * b + 1) * (j - j'))).
  { apply Z.mod_divide; [apply Z.pow_nonzero; lia|].
    replace ((2 * b + 1) * (j - j')) with (v + j * (2 * b + 1) - (v + j' * (2 * b + 1))) by lia.
    by rewrite Zminus_mod, E, Z.sub_diag. }
  apply Z.gauss in Hd; [|apply Z.coprime_pow_l; [lia|]].
  - destruct Hd as [q Hq]. assert (q = 0) by nia. lia.
  - unfold Z.coprime. replace (2 * b + 1) with (1 + b * 2) by lia. by rewrite Z.gcd_add_mult_diag_r.
Qed.

(** ... so that all cells are among them. *)
Lemma probe_all s a : 0 <= a < 2 ^ i -> exists j, 0 <= j < 2 ^ i /\ probe s j = a.
Proof.
  intros Ha. set (N := Z.to_nat (2 ^ i)). set (l := (fun n => Z.to_nat (probe s (Z.of_nat n))) <$> seq 0 N).
  assert (Hnd : NoDup l).
  { apply NoDup_fmap_2_strong; [|apply NoDup_seq]. intros x y Hx%elem_of_seq Hy%elem_of_seq E.
    pose proof (probe_range s (Z.of_nat x)). pose proof (probe_range s (Z.of_nat y)).
    apply Nat2Z.inj, (probe_inj s); unfold N in *; lia. }
  assert (Hsub : l ⊆+ seq 0 N).
  { apply NoDup_submseteq; [done|]. intros x (n & -> & Hn)%list_elem_of_fmap. apply elem_of_seq.
    pose proof (probe_range s (Z.of_nat n)). unfold N. lia. }
  assert (Hp : l ≡ₚ seq 0 N).
  { apply submseteq_length_Permutation; [done|]. unfold l. rewrite length_fmap. done. }
  assert (Hin : Z.to_nat a ∈ l) by (rewrite Hp; apply elem_of_seq; unfold N; lia).
  apply list_elem_of_fmap in Hin as (n & E & Hn%elem_of_seq). exists (Z.of_nat n).
  pose proof (probe_range s (Z.of_nat n)). unfold N in Hn. split; lia.
Qed.

Lemma land_mask x : Z.land x (2 ^ i - 1) = x mod 2 ^ i.
Proof. rewrite <- Z.land_ones by lia. by rewrite Z.ones_equiv, <- Z.sub_1_r. Qed.

Lemma mod_u64 x : u64 x mod 2 ^ i = x mod 2 ^ i.
Proof.
  unfold u64, wrap_u. apply Z.mod_mod_divide.
  exists (2 ^ (64 - i)). rewrite <- Z.pow_add_r by lia. f_equal. lia.
Qed.

Lemma probe_start s : Z.land (hash_str s).1 (2 ^ i - 1) = probe s 0.
Proof. rewrite land_mask. unfold probe. destruct (hash_str s) as [v b]. cbn. f_equal. lia. Qed.

Lemma probe_next s j :
  Z.land (u64 (probe s j + u64 (u64 (2 * (hash_str s).2) + 1))) (2 ^ i - 1) = probe s (j + 1).
Proof.
  rewrite land_mask, mod_u64. unfold probe. destruct (hash_str s) as [v b]. cbn [fst snd].
  rewrite Zplus_mod, mod_u64, (Zplus_mod (u64 (2 * b)) 1), mod_u64, <- (Zplus_mod (2 * b) 1).
  rewrite Zmod_mod, <- Zplus_mod. f_equal. lia.
Qed.

Lemma probe_wraps s : probe s (2 ^ i) = probe s 0.
Proof.
  unfold probe. destruct (hash_str s) as [v b].
  replace (v + 2 ^ i * (2 * b + 1)) with (v + 0 * (2 * b + 1) + (2 * b + 1) * 2 ^ i) by lia.
  apply Z.mod_add. apply Z.pow_nonzero; lia.
Qed.

End Probe.

(** ** What the table holds *)

(** An element holds no key, or the string and the data. *)
Definition holds (m : mem) (e : ENTRY) (o : option (list Z * Z)) : Prop :=
  match o with
  | None => key e = 0
  | Some (s, d) => key e <> 0 /\ cstr m (key e) s /\ data e = d
  end.

Abbreviation content := (list (option (list Z * Z))) (only parsing).

Definition free_at (l : content) (a : Z) : Prop := l !! Z.to_nat a = Some None.
Definition used_at (l : content) (a : Z) (s : list Z) (d : Z) : Prop := l !! Z.to_nat a = Some (Some (s, d)).

Record tab_ok (m : mem) (i : Z) (t : htab) (l : content) : Prop := {
  tk_i : 0 <= i < 32;
  tk_buckets : h_buckets t = 2 ^ i;
  tk_mask : h_mask t = 2 ^ i - 1;
  tk_cells : exists cells, h_hash t = Some cells /\ Forall2 (holds m) cells l;
  tk_len : Z.of_nat (length l) = 2 ^ i;
  (** every key is found before a free element *)
  tk_reach : forall a s d, 0 <= a -> used_at l a s d -> exists j, 0 <= j < 2 ^ i /\ a = probe i s j /\
    forall j', 0 <= j' < j -> exists s' d', s' <> s /\ used_at l (probe i s j') s' d' }.

Lemma bucket_spec m i t l a : tab_ok m i t l -> 0 <= a < 2 ^ i -> exists e o, bucket t a = Done e /\ l !! Z.to_nat a = Some o /\ holds m e o.
Proof.
  intros [_ _ _ (cells & Eh & Hc) Hl _] Ha. destruct (lookup_lt_is_Some_2 l (Z.to_nat a)) as [o Ho]; [lia|].
  destruct (Forall2_lookup_r _ _ _ _ _ Hc Ho) as (e & He & Hh). exists e, o. split_and!; [|done|done].
  unfold bucket. by rewrite Eh, He.
Qed.

(** A key is in one element. *)
Lemma used_unique m i t l a a' s d d' :
  tab_ok m i t l -> 0 <= a -> 0 <= a' -> used_at l a s d -> used_at l a' s d' -> a = a' /\ d = d'.
Proof.
  intros Hok Ha Ha' H H'. destruct (tk_reach _ _ _ _ Hok a s d Ha H) as (j & Hj & Ej & Hb).
  destruct (tk_reach _ _ _ _ Hok a' s d' Ha' H') as (j' & Hj' & Ej' & Hb').
  destruct (Z.lt_trichotomy j j') as [Hlt|[->|Hlt]].
  - destruct (Hb' j) as (s' & d2 & Hne & Hu); [lia|]. rewrite <- Ej in Hu. unfold used_at in *. congruence.
  - rewrite Ej, Ej'. split; [done|]. unfold used_at in *. rewrite Ej in H. rewrite Ej' in H'. congruence.
  - destruct (Hb j') as (s' & d2 & Hne & Hu); [lia|]. rewrite <- Ej' in Hu. unfold used_at in *. congruence.
Qed.

(** All elements before the [j]-th one of [s] hold other keys. *)
Definition passed (i : Z) (l : content) (s : list Z) (j : Z) : Prop :=
  forall j', 0 <= j' < j -> exists s' d', s' <> s /\ used_at l (probe i s j') s' d'.

(** A key is not behind a free element. *)
Lemma not_behind_free m i t l s j :
  tab_ok m i t l -> 0 <= j -> passed i l s j -> free_at l (probe i s j) -> forall a d, 0 <= a -> ~ used_at l a s d.
Proof.
  intros Hok Hj Hbefore Ho a d Ha Hu. unfold free_at in Ho. destruct (tk_reach _ _ _ _ Hok a s d Ha Hu) as (j0 & Hj0 & E0 & Hb0).
  destruct (Z.lt_trichotomy j0 j) as [Hlt|[->|Hlt]].
  - destruct (Hbefore j0) as (s' & d' & Hne & Hu'); [lia|]. rewrite <- E0 in Hu'. unfold used_at in *. congruence.
  - unfold used_at in Hu. rewrite E0 in Hu. congruence.
  - destruct (Hb0 j) as (s' & d' & Hne & Hu'); [lia|]. unfold used_at in Hu'. congruence.
Qed.

(** What hsearch comes to *)
Inductive search_result (m : mem) (i : Z) (l : content) (s : list Z) (item : ENTRY) (action : ACTION) (t : htab) :
    option Z * htab -> Prop :=
  | sr_found a d : 0 <= a < 2 ^ i -> used_at l a s d -> search_result m i l s item action t (Some a, t)
  | sr_free a : 0 <= a < 2 ^ i -> free_at l a -> (forall a' d, 0 <= a' -> ~ used_at l a' s d) ->
      (exists j, 0 <= j < 2 ^ i /\ a = probe i s j /\ passed i l s j) ->
      search_result m i l s item action t
        (match action with FIND => (None, t) | ENTER => (Some a, set_bucket t a item) end)
  | sr_full : (forall a, 0 <= a < 2 ^ i -> exists s' d', s' <> s /\ used_at l a s' d') ->
      search_result m i l s item action t (None, t).

Lemma hsearch_spec m i t l s item action :
  tab_ok m i t l -> cstr m (key item) s -> exists r, hsearch m item action t = Done r /\ search_result m i l s item action t r.
Proof.
  intros Hok Hs. pose proof (tk_i _ _ _ _ Hok) as Hi. unfold hsearch. rewrite (hash2v_spec m (key item) s Hs), bind_Done.
  pose proof (probe_start i Hi s) as Hstart. pose proof (probe_next i Hi s) as Hnext.
  destruct (hash_str s) as [v b] eqn:Eh. cbn [fst snd] in Hstart, Hnext. rewrite (tk_mask _ _ _ _ Hok), (tk_buckets _ _ _ _ Hok), Hstart.
  set (body := hsearch_body _ _ _ _ _ _).
  enough (G : forall n hv j, (Z.of_nat n = 2 ^ i - j) -> 0 <= j < 2 ^ i -> hv = probe i s j ->
    passed i l s j -> exists r, loop (S n) body hv = Done r /\ search_result m i l s item action t r).
  { pose proof (Z.pow_pos_nonneg 2 i). apply (G (Z.to_nat (2 ^ i)) _ 0); try done; try lia. intros ? ?. lia. }
  clear Hstart. induction n as [|n IH]; intros hv j Hn Hj -> Hbefore; [lia|]. rewrite loop_S.
  unfold body at 1, hsearch_body. destruct (bucket_spec m i t l (probe i s j) Hok (probe_range i Hi s j)) as (e & o & -> & Ho & He).
  rewrite bind_Done. destruct o as [[s' d']|]; cbn [holds] in He.
  - destruct He as (Hk & Hs' & Hd). rewrite (proj2 (Z.eqb_neq _ 0) Hk), (strcmp_spec _ _ _ s' s Hs' Hs), bind_Done.
    destruct (Z.eqb_spec (first_diff (s' ++ [0]) (s ++ [0])) 0) as [E|E].
    + apply first_diff_nul in E; [subst s'|apply Hs'|apply Hs]. eexists. split; [done|].
      eapply sr_found; [apply (probe_range i Hi)|]. exact Ho.
    + assert (Hne : s' <> s) by (intros ->; apply E; by apply first_diff_nul; [apply Hs|apply Hs|]).
      assert (Hbefore' : passed i l s (j + 1)).
      { intros j' Hj'. destruct (decide (j' = j)) as [->|]; [by exists s', d'|]. apply Hbefore. lia. }
      rewrite (tk_mask _ _ _ _ Hok), Hnext. destruct (Z.eqb_spec (probe i s (j + 1)) (probe i s 0)) as [E0|E0].
      * assert (Hall : j + 1 = 2 ^ i).
        { destruct (decide (j + 1 = 2 ^ i)); [done|]. apply (probe_inj i Hi) in E0; lia. }
        eexists. split; [done|]. apply sr_full. intros a Ha. destruct (probe_all i Hi s a Ha) as (j0 & Hj0 & <-).
        apply Hbefore'. lia.
      * apply (IH _ (j + 1)); try done; try lia. destruct (decide (j + 1 = 2 ^ i)) as [E1|]; [|lia].
        exfalso. apply E0. rewrite E1. by apply probe_wraps.
  - rewrite He. eexists. split; [done|]. apply sr_free; [apply (probe_range i Hi)|exact Ho| |by exists j].
    apply (not_behind_free m i t l s j); [done|lia|done|exact Ho].
Qed.

Lemma lookup_set (l : content) a b o : 0 <= a < Z.of_nat (length l) -> 0 <= b ->
  (<[Z.to_nat a := o]> l) !! Z.to_nat b = if decide (b = a) then Some o else l !! Z.to_nat b.
Proof.
  intros Ha Hb. case_decide as E; [subst; apply list_lookup_insert_eq; lia|]. apply list_lookup_insert_ne. lia.
Qed.

(** A new key in a free element *)
Lemma set_bucket_ok m i t l a s item :
  tab_ok m i t l -> 0 <= a < 2 ^ i -> free_at l a -> key item <> 0 -> cstr m (key item) s ->
  (forall a' d, 0 <= a' -> ~ used_at l a' s d) ->
  (exists j, 0 <= j < 2 ^ i /\ a = probe i s j /\ passed i l s j) ->
  tab_ok m i (set_bucket t a item) (<[Z.to_nat a := Some (s, data item)]> l).
Proof.
  intros Hok Ha Hfree Hk Hs Hnew (j & Hj & Ej & Hp). pose proof (tk_len _ _ _ _ Hok) as Hl. pose proof (tk_i _ _ _ _ Hok) as Hi.
  assert (Hkeep : forall b s' d', 0 <= b -> used_at l b s' d' -> used_at (<[Z.to_nat a := Some (s, data item)]> l) b s' d').
  { intros b s' d' Hb Hu. unfold used_at, free_at in *. rewrite lookup_set by lia. case_decide; [|done]. congruence. }
  split; [done|apply Hok|apply Hok| |by rewrite length_insert|].
  - destruct (tk_cells _ _ _ _ Hok) as (cells & Eh & Hc). exists (<[Z.to_nat a := item]> cells). split.
    + unfold set_bucket. by rewrite Eh.
    + by apply Forall2_insert.
  - intros b s' d' Hb Hu. unfold used_at in Hu. rewrite lookup_set in Hu by lia. case_decide as E.
    + injection Hu as <- <-. exists j. split_and!; [lia|lia|by rewrite E|]. intros j' Hj'. destruct (Hp j' Hj') as (s1 & d1 & Hne & Hu1).
      exists s1, d1. split; [done|]. apply Hkeep; [apply (probe_range i Hi)|done].
    + destruct (tk_reach _ _ _ _ Hok b s' d' Hb Hu) as (j0 & Hj0 & E0 & Hb0). exists j0. split_and!; [lia|lia|done|].
      intros j' Hj'. destruct (Hb0 j' Hj') as (s1 & d1 & Hne & Hu1). exists s1, d1. split; [done|].
      apply Hkeep; [apply (probe_range i Hi)|done].
Qed.

(** ** The table as a map *)

(** The keys and their data *)
Definition abs_is (l : content) (M : gmap (list Z) Z) : Prop :=
  (forall s d, M !! s = Some d <-> exists a, 0 <= a /\ used_at l a s d) /\ size M = length (omap id l).

Lemma omap_insert (l : content) n x : l !! n = Some None -> length (omap id (<[n := Some x]> l)) = S (length (omap id l)).
Proof.
  intros Hn. rewrite <- (take_drop_middle l n None Hn) at 2. rewrite insert_take_drop by (by eapply lookup_lt_Some).
  rewrite !omap_app, !length_app. cbn. lia.
Qed.

Lemma omap_full (l : content) : (forall n o, l !! n = Some o -> is_Some o) -> length (omap id l) = length l.
Proof.
  induction l as [|o l IH]; intros Hf; [done|]. destruct (Hf 0%nat o eq_refl) as [x ->]. cbn. f_equal. apply IH.
  intros n. apply (Hf (S n)).
Qed.

Lemma omap_free (l : content) n : l !! n = Some None -> (length (omap id l) < length l)%nat.
Proof.
  intros Hn. assert (Hle : forall l' : content, (length (omap id l') <= length l')%nat).
  { induction l' as [|[x|] l' IH]; cbn; [lia|lia|lia]. }
  rewrite <- (take_drop_middle l n None Hn), omap_app, !length_app. pose proof (Hle (take n l)). pose proof (Hle (drop (S n) l)). cbn. lia.
Qed.

Lemma abs_insert l M a s d : abs_is l M -> 0 <= a < Z.of_nat (length l) -> free_at l a -> M !! s = None ->
  abs_is (<[Z.to_nat a := Some (s, d)]> l) (<[s := d]> M).
Proof.
  intros [HM Hsz] Ha Hfree EM. unfold free_at in Hfree. split.
  - intros s' d'. rewrite lookup_insert. split.
    + case_decide as Es; [intros [= <-]; subst s'; exists a; split; [lia|]; unfold used_at; by rewrite lookup_set, decide_True by lia|].
      intros (b & Hb & Hu)%HM. exists b. split; [done|]. unfold used_at in *. rewrite lookup_set by lia. case_decide; congruence.
    + intros (b & Hb & Hu). unfold used_at in Hu. rewrite lookup_set in Hu by lia. case_decide as Eb.
      * injection Hu as <- <-. by rewrite decide_True.
      * assert (Hs : M !! s' = Some d') by (apply HM; by exists b). by case_decide; [simplify_eq|].
  - rewrite map_size_insert, EM, omap_insert by done. lia.
Qed.

(** hsearch, and the data of the element it gives *)
Definition hget (m : mem) (item : ENTRY) (action : ACTION) (t : htab) : outcome (option Z * htab) :=
  '(r, t) ← hsearch m item action t;
  match r with
  | None => Done (None, t)
  | Some a => e ← bucket t a; Done (Some (data e), t)
  end.

(** A map of [cap] keys at most *)
Definition abs_search (cap : nat) (s : list Z) (d : Z) (action : ACTION) (M : gmap (list Z) Z) : option Z * gmap (list Z) Z :=
  match M !! s, action with
  | Some d', _ => (Some d', M)
  | None, FIND => (None, M)
  | None, ENTER => if (size M <? cap)%nat then (Some d, <[s := d]> M) else (None, M)
  end.

Lemma hget_spec m i t l M s item action :
  tab_ok m i t l -> abs_is l M -> key item <> 0 -> cstr m (key item) s ->
  exists t' l', hget m item action t = Done ((abs_search (Z.to_nat (2 ^ i)) s (data item) action M).1, t') /\
    tab_ok m i t' l' /\ abs_is l' (abs_search (Z.to_nat (2 ^ i)) s (data item) action M).2.
Proof.
  intros Hok HMl Hk Hs. pose proof HMl as [HM Hsz]. destruct (hsearch_spec m i t l s item action Hok Hs) as (r & E & Hr).
  pose proof (tk_len _ _ _ _ Hok) as Hl. unfold hget. rewrite E, bind_Done. clear E. unfold abs_search.
  destruct Hr as [a d Ha Hu|a Ha Hfree Hnew Hp|Hfull].
  - assert (EM : M !! s = Some d) by (apply HM; exists a; split; [lia|done]). rewrite EM.
    destruct (bucket_spec m i t l a Hok Ha) as (e & o & -> & Ho & He). unfold used_at in Hu. rewrite Hu in Ho. injection Ho as <-.
    destruct He as (_ & _ & <-). exists t, l. by destruct action.
  - assert (EM : M !! s = None).
    { destruct (M !! s) as [d|] eqn:EM; [|done]. apply HM in EM as (b & Hb & Hu). by destruct (Hnew b d Hb). }
    rewrite EM. destruct action; [by exists t, l|]. cbv beta iota.
    pose proof (set_bucket_ok m i t l a s item Hok Ha Hfree Hk Hs Hnew Hp) as Hok'.
    destruct (bucket_spec m i _ _ a Hok' Ha) as (e & o & -> & Ho & He). rewrite lookup_set, decide_True in Ho by lia.
    injection Ho as <-. destruct He as (_ & _ & Ed). rewrite bind_Done, Ed.
    pose proof (omap_free l _ Hfree). rewrite (proj2 (Nat.ltb_lt _ _)) by lia. cbn [fst snd].
    eexists _, _. split_and!; [done|exact Hok'|]. by apply abs_insert; [|lia|..].
  - assert (EM : M !! s = None).
    { destruct (M !! s) as [d|] eqn:EM; [|done]. apply HM in EM as (b & Hb & Hu).
      assert (Hbl : b < 2 ^ i) by (apply lookup_lt_Some in Hu; lia).
      destruct (Hfull b) as (s' & d' & Hne & Hu'); [lia|]. unfold used_at in *. congruence. }
    rewrite EM. assert (Hn : length (omap id l) = length l).
    { apply omap_full. intros n o Ho. assert (Hn : (n < length l)%nat) by (by eapply lookup_lt_Some).
      destruct (Hfull (Z.of_nat n)) as (s' & d' & _ & Hu); [lia|]. unfold used_at in Hu. rewrite Nat2Z.id in Hu. by simplify_eq. }
    rewrite (proj2 (Nat.ltb_ge _ _)) by lia. exists t, l. by destruct action.
Qed.

(** ** hcreate *)

Lemma round_up_spec nel : 128 <= nel <= 2 ^ 29 -> exists i, round_up nel = Done i /\ 7 <= i <= 29 /\ nel <= 2 ^ i.
Proof.
  intros Hn. unfold round_up.
  destruct (loop_total (fun i => 7 <= i <= 29) (fun i => 7 <= i <= 29 /\ nel <= 2 ^ i) (fun i => Z.to_nat (29 - i))
    (fun i => if wrap_u 32 (Z.shiftl 1 i) <? nel then Done (inl (i + 1)) else Done (inr i))) with (fuel := 32%nat) (s := 7)
    as (i & E & Hi); [|lia|lia|by exists i].
  intros i Hi. assert (Hp : wrap_u 32 (Z.shiftl 1 i) = 2 ^ i).
  { rewrite Z.shiftl_1_l. apply wrap_u_small. split; [lia|]. apply Z.pow_lt_mono_r; lia. }
  rewrite Hp. destruct (Z.ltb_spec (2 ^ i) nel); [|split; lia].
  assert (i < 29); [|lia]. destruct (decide (i = 29)) as [->|]; lia.
Qed.

Lemma hcreate_spec m nel t : 0 <= nel <= MAX_BUCKETS -> exists i t', hcreate true nel t = Done (1, t') /\
  nel <= 2 ^ i /\ tab_ok m i t' (replicate (Z.to_nat (2 ^ i)) None).
Proof.
  intros Hn. unfold hcreate. rewrite (proj2 (Z.ltb_ge _ _)) by lia. cbv zeta.
  set (nel' := if (if MAX_BUCKETS <? nel + nel / 3 then _ else _) <? 0x80 then _ else _).
  assert (Hn' : nel <= nel' /\ 128 <= nel' <= 2 ^ 29).
  { unfold nel', MAX_BUCKETS in *. pose proof (Z.div_pos nel 3). destruct (Z.ltb_spec 0x20000000 (nel + nel / 3));
      match goal with |- context [?x <? 0x80] => destruct (Z.ltb_spec x 0x80) end; lia. }
  clearbody nel'. destruct (round_up_spec nel') as (i & -> & Hi & Hle); [lia|]. rewrite bind_Done.
  assert (Hp : wrap_u 32 (Z.shiftl 1 i) = 2 ^ i).
  { rewrite Z.shiftl_1_l. apply wrap_u_small. split; [lia|]. apply Z.pow_lt_mono_r; lia. }
  rewrite Hp. eexists i, _. split_and!; [done|lia|]. split; try done; [lia| | |].
  - eexists. split; [done|]. apply Forall2_replicate. done.
  - rewrite length_replicate. lia.
  - intros a s d Ha Hu. unfold used_at in Hu. by apply lookup_replicate_1 in Hu as [? _].
Qed.

Lemma abs_empty n : abs_is (replicate n None) ∅.
Proof.
  split.
  - intros s d. rewrite lookup_empty. split; [done|]. intros (a & _ & Hu). unfold used_at in Hu. by apply lookup_replicate_1 in Hu as [? _].
  - rewrite map_size_empty. induction n as [|n IH]; [done|exact IH].
Qed.

(** ** Programs *)

(** A call of hsearch: the string at the key, the item and the action *)
Record hcall := mk_hcall { hc_str : list Z; hc_item : ENTRY; hc_action : ACTION }.

Definition hcall_ok (m : mem) (o : hcall) : Prop := key (hc_item o) <> 0 /\ cstr m (key (hc_item o)) (hc_str o).

Fixpoint hrun (m : mem) (ops : list hcall) (t : htab) : outcome (list (option Z) * htab) :=
  match ops with
  | [] => Done ([], t)
  | o :: ops' =>
      '(r, t) ← hget m (hc_item o) (hc_action o) t;
      '(rs, t) ← hrun m ops' t;
      Done (r :: rs, t)
  end.

Fixpoint abs_run (cap : nat) (ops : list hcall) (M : gmap (list Z) Z) : list (option Z) :=
  match ops with
  | [] => []
  | o :: ops' =>
      let '(r, M) := abs_search cap (hc_str o) (data (hc_item o)) (hc_action o) M in
      r :: abs_run cap ops' M
  end.

Lemma hsearch_runs m i ops : forall t l M, tab_ok m i t l -> abs_is l M -> Forall (hcall_ok m) ops ->
  exists t', hrun m ops t = Done (abs_run (Z.to_nat (2 ^ i)) ops M, t').
Proof.
  induction ops as [|o ops IH]; intros t l M Hok HM Ho; cbn [hrun abs_run]; [by eexists|].
  apply Forall_cons_1 in Ho as [[Hk Hs] Ho].
  destruct (hget_spec m i t l M (hc_str o) (hc_item o) (hc_action o) Hok HM Hk Hs) as (t1 & l1 & -> & Hok1 & HM1).
  rewrite bind_Done. destruct (abs_search _ _ _ _ _) as [r M1]. cbn [fst snd] in *.
  destruct (IH t1 l1 M1 Hok1 HM1 Ho) as (t2 & ->). by exists t2.
Qed.

(** C29. After hcreate, hsearch is lookup and insertion in a finite map from strings to data: any
    sequence of calls ends and gives what the map gives, up to a number of keys that is at
    least what hcreate was asked for. Equal strings are one key wherever they lie. *)
Theorem hash_table_is_map m nel t ops :
  0 <= nel <= MAX_BUCKETS -> Forall (hcall_ok m) ops ->
  exists cap t0 t', (Z.to_nat nel <= cap)%nat /\ hcreate true nel t = Done (1, t0) /\
    hrun m ops t0 = Done (abs_run cap ops ∅, t').
Proof.
  intros Hn Ho. destruct (hcreate_spec m nel t Hn) as (i & t0 & E & Hle & Hok).
  destruct (hsearch_runs m i ops t0 _ ∅ Hok (abs_empty _) Ho) as (t' & E').
  exists (Z.to_nat (2 ^ i)), t0, t'. split_and!; [lia|done|done].
Qed.

(** C30. _hash2v finds the length of its key by itself and computes what the original function
    [hash] computes of the key and its length. *)
Theorem hash2v_is_hash m k s :
  cstr m k s -> Z.of_nat (length s) < 2 ^ 64 ->
  exists v v2, _hash2v m k = Done (v, v2) /\ hash m k (Z.of_nat (length s)) 0 = Done v.
Proof.
  intros Hs Hl. exists (hash_str s).1, (hash_str s).2. split; [|by apply hash_spec].
  rewrite (hash2v_spec m k s Hs). by destruct (hash_str s).
Qed.

(** ** Concrete tables *)

(** The strings a, b and once more a *)
Definition demo_keys : mem := mem_of 1 [97; 0; 98; 0; 97; 0].

Definition demo_calls : list hcall :=
  [mk_hcall [97] (mk_ENTRY 1 10) ENTER; mk_hcall [98] (mk_ENTRY 3 0) FIND; mk_hcall [98] (mk_ENTRY 3 20) ENTER;
   mk_hcall [97] (mk_ENTRY 5 0) FIND; mk_hcall [97] (mk_ENTRY 5 30) ENTER].

Lemma hash_table_is_map_witness : exists t0 t', hcreate true 2 htab_init = Done (1, t0) /\
  hrun demo_keys demo_calls t0 = Done ([Some 10; None; Some 20; Some 10; Some 10], t').
Proof.
  destruct (hash_table_is_map demo_keys 2 htab_init demo_calls) as (cap & t0 & t' & Hc & E & E').
  - unfold MAX_BUCKETS. lia.
  - repeat apply Forall_cons; try apply Forall_nil; (split; [discriminate|by_eval]).
  - exists t0, t'. split; [exact E|]. destruct cap as [|[|cap]]; [simpl in Hc; lia..|]. exact E'.
Defined.

Lemma hash2v_is_hash_witness : exists v v2,
  _hash2v (mem_of 1 [97; 0]) 1 = Done (v, v2) /\ hash (mem_of 1 [97; 0]) 1 1 0 = Done v.
Proof. apply (hash2v_is_hash (mem_of 1 [97; 0]) 1 [97]); [by_eval|simpl; lia]. Defined.

(** The values have 64 bits, where the comments speak of 32. *)
Lemma hash_exceeds_32_bits : exists v v2, _hash2v (mem_of 1 [97; 0]) 1 = Done (v, v2) /\ 2 ^ 32 <= v.
Proof. eexists _, _. split; [by vm_compute|]. vm_compute. discriminate. Qed.

(** Without a table, before hcreate or after it failed, hsearch uses the pointer NULL. *)
Lemma hsearch_without_table : exists t, hcreate false 100 htab_init = Done (0, t) /\
  hsearch demo_keys (mk_ENTRY 1 10) FIND t = Fail UB /\ hsearch demo_keys (mk_ENTRY 1 10) FIND htab_init = Fail UB.
Proof. eexists. split; [by vm_compute|]. split; by vm_compute. Qed.
