(* ===== verification/Doscan.v ===== *)
(** * scanf

    src/src/libc/ansi/stdio/doscan.c with the functions of the scanf family over it. The
    static variables nchars and _sctab are threaded through; numbuf is the list of the
    characters stored so far, the last one first. A store past its 64 bytes is undefined.
    The arguments are pointers; [va_list] is an array type as in [Doprnt].

    The bytes that a floating point conversion stores are a parameter, and so is realloc. *)

From stdpp Require Import base gmap list numbers.
From Stdlib Require Import ZArith Lia.
From S2P Require Import Prelude Ctype MemFuns Strings NMalloc Stdio Doprnt.

Open Scope Z_scope.
Open Scope c_scope.

Definition SPC : Z := 1.
Definition STP : Z := 2.

Definition CHAR : Z := 0.
Definition SHORT : Z := 1.
Definition REGULAR : Z := 2.
Definition LONG : Z := 4.
Definition LONGDOUBLE : Z := 8.

Definition DEFAULT_WIDTH : Z := 30000.
Definition BUFFER_INCREMENT : Z := 128.
Definition ENOMEM : Z := 25.
Definition NUMBUF : nat := 64.

Definition _sctab_init : list Z :=
  replicate 9 0 ++ replicate 5 SPC ++ replicate 18 0 ++ [SPC] ++ replicate 223 0.

(** nchars and _sctab *)
Record scst := mk_scst { nchars : Z; _sctab : list Z }.

Definition up_nchars (n : Z) (v : scst) : scst := mk_scst (nchars v + n) (_sctab v).

(** [_sctab[c & 0xff] & bit] *)
Definition sc_has (v : scst) (c bit : Z) : bool := has (nth (Z.to_nat (c .& 255)) (_sctab v) 0) bit.

(** [_sctab[c & 0xff] |= STP] or [&= ~STP] *)
Definition mark (stp : bool) (c : Z) (tab : list Z) : list Z :=
  let i := Z.to_nat (c .& 255) in
  <[i := if stp then nth i tab 0 .| STP else without (nth i tab 0) STP]> tab.

Section Doscan.
Context {SA : StdioApi} (AUTO tb : Z).
(** The first character of the decimal point of the locale *)
Context (decimal_point : Z).
Context (float_bytes : Z -> list Z -> list Z) (c_realloc : Z -> Z -> IO Z).

(** A value of type long long *)
Definition as_llong (v : Z) : IO Z :=
  if (- 2 ^ 63 <=? v) && (v <? 2 ^ 63) then mret v else lift (Fail UB).

(** A store to an integer of [n] bytes *)
Definition store_int (p : Z) (n : nat) (v : Z) : IO unit := fun s =>
  m ← store_bytes (i_mem s) p (le_bytes n v); Done (tt, put_mem s m).

(** *** Sets of characters *)

Definition mark_all (stp : bool) (tab : list Z) : list Z :=
  (fun x => if stp then x .| STP else without x STP) <$> tab.

(** [for (c = lo; c < hi; c++)] *)
Definition mark_range (stp : bool) (lo hi : Z) (tab : list Z) : list Z :=
  foldl (fun tab i => mark stp (lo + Z.of_nat i) tab) tab (seq 0 (Z.to_nat (hi - lo))).

(** [t]: the set is negated. The result is the address behind the set. *)
Fixpoint ccl_loop (fuel : nat) (t : bool) (s : Z) (tab : list Z) : IO (Z * list Z) :=
  match fuel with
  | O => lift (Fail NoFuel)
  | S fuel' =>
      c ← ldb s;
      let s := s + 1 in
      if c =? 93 then mret (s, tab)
      else if c =? 0 then mret (s - 1, tab)
      else
        next ← (if c =? 45 then ldb s else mret 93);
        prev ← (if (c =? 45) && negb (next =? 93) then ldb (s - 2) else mret 255);
        if (c =? 45) && negb (next =? 93) && (prev <? next)
        then ccl_loop fuel' t s (mark_range t (prev + 1) next tab)
        else ccl_loop fuel' t s (mark t c tab)
  end.

Definition _getccl (fuel : nat) (s : Z) (tab : list Z) : IO (Z * list Z) :=
  c ← ldb s;
  let t := c =? 94 in
  let s := if t then s + 1 else s in
  let tab := mark_all (negb t) tab in
  c ← ldb s;
  if (c =? 93) || (c =? 45) then ccl_loop fuel t (s + 1) (mark t c tab) else ccl_loop fuel t s tab.

(** *** Input *)

Context (scan_getc : IO Z) (scan_ungetc : Z -> IO Z).

(** [while (((nchars++, c = scan_getc(iop)) != EOF) && (_sctab[c & 0xff] & bit));] *)
Fixpoint skip_class (fuel : nat) (bit : Z) (v : scst) : IO (Z * scst) :=
  match fuel with
  | O => lift (Fail NoFuel)
  | S fuel' =>
      c ← scan_getc;
      let v := up_nchars 1 v in
      if negb (c =? EOF) && sc_has v c bit then skip_class fuel' bit v else mret (c, v)
  end.

(** The variables of the loop over the digits *)
Record numst := mk_numst {
  n_np : list Z;
  n_c : Z;
  n_base : Z;
  n_lcval : Z;
  n_ndigit : Z;
  n_expseen : Z;
  n_cpos : Z;
  n_v : scst }.

(** [*np++ = c] *)
Definition np_push (c : Z) (np : list Z) : IO (list Z) :=
  if (length np <? NUMBUF)%nat then mret (byte c :: np) else lift (Fail UB).

(** [*np++ = c, c = scan_getc(iop), nchars++] *)
Definition num_next (x : numst) : IO numst :=
  np ← np_push (n_c x) (n_np x);
  c ← scan_getc;
  mret (mk_numst np c (n_base x) (n_lcval x) (n_ndigit x) (n_expseen x) (n_cpos x) (up_nchars 1 (n_v x))).

Definition dec_digit (c : Z) : bool := (48 <=? c .& 255) && (c .& 255 <=? 57).

Definition hex_letter (c : Z) : bool := (97 <=? c) && (c <=? 102) || (65 <=? c) && (c <=? 70).

(** [lcval] with the digit [c]; the shifts wrap around. *)
Definition add_digit (base lcval c : Z) : IO Z :=
  lcval ← (if base =? 8 then mret (wrap_s 64 (Z.shiftl lcval 3))
           else if base =? 10 then
             n ← as_llong (wrap_s 64 (Z.shiftl lcval 2) + lcval); mret (wrap_s 64 (Z.shiftl n 1))
           else mret (wrap_s 64 (Z.shiftl lcval 4)));
  as_llong (lcval + (if dec_digit c then c - 48 else if (97 <=? c) && (c <=? 102) then c - 87 else c - 55)).

(** The body of the for loop; False: break *)
Definition num_body (type : Z) (float : bool) (x : numst) : IO (bool * numst) :=
  let c := n_c x in
  let cpos := n_cpos x + 1 in
  let base := if (c =? 48) && (cpos =? 1) && (type =? 105) then 8 else n_base x in
  let x := mk_numst (n_np x) c base (n_lcval x) (n_ndigit x) (n_expseen x) cpos (n_v x) in
  if ((c =? 120) || (c =? 88)) && ((type =? 97) || (type =? 105) || (type =? 120)) && (cpos =? 2) && (n_lcval x =? 0)
  then mret (true, mk_numst (n_np x) c 16 (n_lcval x) (n_ndigit x) (n_expseen x) cpos (n_v x))
  else if negb (c =? EOF) && dec_digit c && (c - 48 <? base) || (base =? 16) && hex_letter c then
    lcval ← add_digit base (n_lcval x) c;
    mret (true, mk_numst (n_np x) c base lcval (n_ndigit x + 1) (n_expseen x) cpos (n_v x))
  else if c =? decimal_point then
    if negb float || (base =? 8) then mret (false, x)
    else mret (true, mk_numst (n_np x) c base (n_lcval x) (n_ndigit x + 1) (n_expseen x) cpos (n_v x))
  else if ((c =? 101) || (c =? 69)) && (n_expseen x =? 0) then
    if negb float || (base =? 8) || (n_ndigit x =? 0) then mret (false, x)
    else
      np ← np_push c (n_np x);
      c ← scan_getc;
      let x := mk_numst np c base (n_lcval x) (n_ndigit x) 1 cpos (up_nchars 1 (n_v x)) in
      mret (negb (negb (c =? 43) && negb (c =? 45) && ((c <? 48) || (57 <? c))), x)
  else mret (false, x).

(** [for (; --len >= 0; ...)]: [len] rounds at most *)
Fixpoint num_loop (len : nat) (type : Z) (float : bool) (x : numst) : IO numst :=
  match len with
  | O => mret x
  | S len' =>
      '(go, x) ← num_body type float x;
      if go : bool then x ← num_next x; num_loop len' type float x else mret x
  end.

(** The switch over (scale << 4) | size *)
Definition store_num (ptr : Z) (float : bool) (size lcval : Z) (numbuf : list Z) : IO unit :=
  if float then
    if (size =? SHORT) || (size =? REGULAR) || (size =? LONG)
    then fun s => m ← store_bytes (i_mem s) ptr (float_bytes size numbuf); Done (tt, put_mem s m)
    else mret tt
  else if size =? CHAR then store_int ptr 1 lcval
  else if size =? SHORT then store_int ptr 2 lcval
  else if size =? REGULAR then store_int ptr 4 lcval
  else if size =? LONG then store_int ptr 8 lcval
  else if size =? LONGDOUBLE then store_int ptr 8 lcval
  else mret tt.

(** The results are the value, the new *eofptr and the static variables. *)
Definition innum (fuel : nat) (ptr type len size : Z) (v : scst) : IO (bool * bool * scst) :=
  let float := bool_decide (type ∈ [97; 101; 102; 103]) in
  let base := if type =? 111 then 8 else if (type =? 120) || (type =? 112) || (type =? 97) then 16 else 10 in
  '(c, v) ← skip_class fuel SPC v;
  let v := if c =? EOF then up_nchars (-1) v else v in
  let negflg := c =? 45 in
  np ← (if negflg then np_push c [] else mret []);
  let signed := (c =? 45) || (c =? 43) in
  c ← (if signed then scan_getc else mret c);
  let v := if signed then up_nchars 1 v else v in
  let len := if signed then len - 1 else len in
  x ← num_loop (Z.to_nat len) type float (mk_numst np c base 0 0 0 0 v);
  lcval ← (if negflg then as_llong (- n_lcval x) else mret (n_lcval x));
  _ ← (if n_c x =? EOF then mret tt else _ ← scan_ungetc (n_c x); mret tt);
  let eof := n_c x =? EOF in
  let v := up_nchars (-1) (n_v x) in
  if (length (n_np x) =? (if negflg then 1 else 0))%nat || (length (n_np x) =? 0)%nat then mret (false, eof, v)
  else if ptr =? 0 then mret (true, eof, v)
  else
    np ← np_push 0 (n_np x);
    _ ← store_num ptr float size lcval (rev (tail np));
    mret (true, eof, v).

(** *** Strings *)

Record strst := mk_strst {
  t_ptr : Z;
  t_orig : Z;
  t_len : Z;
  t_size : Z;
  t_ch : Z;
  t_matched : bool;
  t_v : scst }.

(** The loop over the characters; on the right: return 0 after realloc failed *)
Fixpoint str_loop (fuel : nat) (type ignstp : Z) (alloc : bool) (x : strst) : IO (strst + scst) :=
  match fuel with
  | O => lift (Fail NoFuel)
  | S fuel' =>
      let ch := t_ch x in
      if (ch =? EOF) || sc_has (t_v x) ch ignstp then mret (inl x)
      else
        _ ← (if t_ptr x =? 0 then mret tt else stb (t_ptr x) ch);
        let ptr := if t_ptr x =? 0 then 0 else t_ptr x + 1 in
        let goon ptr orig len size :=
          c ← scan_getc;
          str_loop fuel' type ignstp alloc (mk_strst ptr orig len size c true (up_nchars 1 (t_v x))) in
        if alloc && negb (type =? 99) then
          let size := t_size x - 1 in
          if size <? 1 then
            let offset := ptr - t_orig x in
            new_ptr ← c_realloc (t_orig x) (offset + BUFFER_INCREMENT);
            if new_ptr =? 0 then
              _ ← c_free (t_orig x);
              _ ← tell_os (os_set_errno ENOMEM);
              mret (inr (t_v x))
            else
              let len := if t_len x - 1 <? 1 then DEFAULT_WIDTH else t_len x - 1 in
              goon (new_ptr + offset) new_ptr len BUFFER_INCREMENT
          else goon ptr (t_orig x) (t_len x) size
        else if t_len x - 1 <? 1
        then mret (inl (mk_strst ptr (t_orig x) (t_len x - 1) (t_size x) ch true (t_v x)))
        else goon ptr (t_orig x) (t_len x - 1) (t_size x)
  end.

(** What is behind the loop *)
Definition str_end (type : Z) (alloc : bool) (arg_ptr start : Z) (x : strst) : IO (bool * bool * scst) :=
  let ch := t_ch x in
  _ ← (if negb (ch =? EOF) && (0 <? t_len x) then _ ← scan_ungetc ch; mret tt else mret tt);
  let v := if (ch =? EOF) || (0 <? t_len x) then up_nchars (-1) (t_v x) else t_v x in
  let eof := ch =? EOF in
  if t_matched x then
    let ends := negb (t_ptr x =? 0) && negb (type =? 99) in
    _ ← (if ends then stb (t_ptr x) 0 else mret tt);
    let string_length := nchars v - start + (if ends then 1 else 0) in
    if alloc then
      tmp_ptr ← c_realloc (t_orig x) string_length;
      _ ← store_int arg_ptr 8 tmp_ptr;
      if tmp_ptr =? 0 then
        _ ← c_free (t_orig x);
        _ ← tell_os (os_set_errno ENOMEM);
        mret (false, eof, v)
      else mret (true, eof, v)
    else mret (true, eof, v)
  else mret (false, eof, v).

Definition instr (fuel : nat) (ptr type len : Z) (alloc : bool) (v : scst) : IO (bool * bool * scst) :=
  let len := if (type =? 99) && (len =? DEFAULT_WIDTH) then 1 else len in
  buf ← (if alloc then if len =? 0 then mret 0 else c_malloc BUFFER_INCREMENT else mret ptr);
  if alloc && (buf =? 0) then _ ← tell_os (os_set_errno ENOMEM); mret (false, false, v)
  else
    '(ch, v) ← skip_class fuel (if type =? 115 then SPC else 0) v;
    let start := nchars v - 1 in
    let ignstp := if type =? 99 then 0 else if type =? 91 then STP else SPC in
    r ← str_loop fuel type ignstp alloc (mk_strst buf buf len BUFFER_INCREMENT ch false v);
    match r with
    | inr v => mret (false, false, v)
    | inl x => str_end type alloc ptr start x
    end.

Definition _innum (fuel : nat) (ptr type len size : Z) (alloc : bool) (v : scst) : IO (bool * bool * scst) :=
  if (type =? 99) || (type =? 115) || (type =? 91) then instr fuel ptr type len alloc v
  else innum fuel ptr type len size v.

(** *** The format *)

(** argp, arg_list; [sv_local]: argp points to arg_list *)
Record sva := mk_sva { sv_caller : list Z; sv_arg_list : list Z; sv_local : bool }.

(** [va_arg(argp, int * )] *)
Definition sv_arg (a : sva) : IO (Z * sva) :=
  match (if sv_local a then sv_arg_list a else sv_caller a) with
  | [] => lift (Fail UB)
  | p :: l => mret (p, if sv_local a then mk_sva (sv_caller a) l true else mk_sva l (sv_arg_list a) false)
  end.

(** [for (argp = arg_list, i = 0; i < n; i++) ptr = va_arg(argp, int * );] *)
Fixpoint sv_nth (n : nat) (ptr : Z) (a : sva) : IO (Z * sva) :=
  match n with
  | O => mret (ptr, a)
  | S n' => '(ptr, a) ← sv_arg a; sv_nth n' ptr a
  end.

(** A char of the format *)
Definition ldc (p : Z) : IO Z := b ← ldb p; mret (wrap_s 8 b).

(** [while (isdigit(ch & 0xff)) { n = n * 10 + ch - '0'; ch = *fmt++; }] *)
Fixpoint width_digits (fuel : nat) (n ch fmt : Z) : IO (Z * Z * Z) :=
  match fuel with
  | O => lift (Fail NoFuel)
  | S fuel' =>
      if dec_digit ch then
        n ← as_int (n * 10 + ch - 48);
        ch ← ldc fmt;
        width_digits fuel' n ch (fmt + 1)
      else mret (n, ch, fmt)
  end.

(** From repeat to the width: the results are n, ch, fmt, ptr and argp. *)
Fixpoint scan_repeat (fuel : nat) (retrieve : bool) (ch fmt ptr : Z) (a : sva) : IO (Z * Z * Z * Z * sva) :=
  match fuel with
  | O => lift (Fail NoFuel)
  | S fuel' =>
      '(ptr, a, ch, fmt) ← (if negb (ch =? 42) && retrieve
                            then '(ptr, a) ← sv_arg a; mret (ptr, a, ch, fmt)
                            else ch ← ldc fmt; mret (ptr, a, ch, fmt + 1));
      '(n, ch, fmt) ← width_digits fuel' 0 ch fmt;
      if ch =? 36 then
        '(ptr, a) ← sv_nth (Z.to_nat n) ptr (mk_sva (sv_caller a) (sv_arg_list a) true);
        scan_repeat fuel' false ch fmt ptr a
      else mret (n, ch, fmt, ptr, a)
  end.

(** The length: the results are size, allocate_char_buffer, ch, fmt and _sctab. *)
Definition scan_size (fuel : nat) (ch fmt : Z) (tab : list Z) : IO (Z * bool * Z * Z * list Z) :=
  if ch =? 108 then
    ch ← ldc fmt;
    if ch =? 108 then ch ← ldc (fmt + 1); mret (LONGDOUBLE, false, ch, fmt + 2, tab)
    else mret (LONG, false, ch, fmt + 1, tab)
  else if ch =? 104 then
    ch ← ldc fmt;
    if ch =? 104 then ch ← ldc (fmt + 1); mret (CHAR, false, ch, fmt + 2, tab)
    else mret (SHORT, false, ch, fmt + 1, tab)
  else if (ch =? 76) || (ch =? 106) then ch ← ldc fmt; mret (LONGDOUBLE, false, ch, fmt + 1, tab)
  else if ch =? 122 then ch ← ldc fmt; mret (LONG, false, ch, fmt + 1, tab)
  else if ch =? 116 then ch ← ldc fmt; mret (REGULAR, false, ch, fmt + 1, tab)
  else if ch =? 109 then
    ch ← ldc fmt;
    if ch =? 91 then '(fmt, tab) ← _getccl fuel (fmt + 1) tab; mret (REGULAR, true, ch, fmt, tab)
    else mret (REGULAR, true, ch, fmt + 1, tab)
  else if ch =? 91 then '(fmt, tab) ← _getccl fuel fmt tab; mret (REGULAR, false, ch, fmt, tab)
  else mret (REGULAR, false, ch, fmt, tab).

(** An upper case letter stands for the lower case one, and for a longer size. *)
Definition scan_upper (ch size : Z) : Z * Z :=
  if (65 <=? ch .& 255) && (ch .& 255 <=? 90) then
    let ch := ch + 32 in
    (ch, if bool_decide (ch ∈ [100; 105; 111; 117])
         then if size =? LONG then LONGDOUBLE else if size =? LONGDOUBLE then size else LONG
         else size)
  else (ch, size).

(** %n *)
Definition store_nchars (ptr size n : Z) : IO unit :=
  if ptr =? 0 then mret tt
  else store_int ptr (if size =? LONG then 8 else if size =? CHAR then 1 else if size =? SHORT then 2
                      else if size =? LONGDOUBLE then 8 else 4) n.

(** The results are the value and the static variables. *)
Fixpoint doscan_loop (fuel : nat) (previous_errno fmt nmatch : Z) (suppressed : bool) (a : sva) (v : scst) : IO (Z * scst) :=
  match fuel with
  | O => lift (Fail NoFuel)
  | S fuel' =>
      ch ← ldc fmt;
      let fmt := fmt + 1 in
      let literal ch fmt :=
        ch1 ← scan_getc;
        let v := if ch1 =? EOF then v else up_nchars 1 v in
        if ch1 =? ch then doscan_loop fuel' previous_errno fmt nmatch suppressed a v
        else if ch1 =? EOF then mret (if negb (nmatch =? 0) || suppressed then nmatch else EOF, v)
        else _ ← scan_ungetc ch1; mret (nmatch, up_nchars (-1) v) in
      if ch =? 0 then mret (nmatch, v)
      else if ch =? 37 then
        ch ← ldc fmt;
        let fmt := fmt + 1 in
        if ch =? 37 then literal ch fmt
        else
          '(n, ch, fmt, ptr, a) ← scan_repeat fuel' true ch fmt 0 a;
          let len := if n =? 0 then DEFAULT_WIDTH else n in
          '(size, alloc, ch, fmt, tab) ← scan_size fuel' ch fmt (_sctab v);
          let v := mk_scst (nchars v) tab in
          let '(ch, size) := scan_upper ch size in
          if ch =? 0 then mret (EOF, v)
          else if ch =? 110 then
            _ ← store_nchars ptr size (nchars v);
            doscan_loop fuel' previous_errno fmt nmatch suppressed a v
          else
            '(ok, fileended, v) ← _innum fuel' ptr ch len size alloc v;
            if ok : bool then
              if ptr =? 0 then doscan_loop fuel' previous_errno fmt nmatch true a v
              else doscan_loop fuel' previous_errno fmt (nmatch + 1) suppressed a v
            else
              e ← ask os_errno;
              if (fileended && (nmatch =? 0) && negb suppressed) || (alloc && (e =? ENOMEM)) then mret (EOF, v)
              else _ ← tell_os (os_set_errno previous_errno); mret (nmatch, v)
      else if bool_decide (ch ∈ [32; 10; 9; 13; 12; 11]) then
        '(ch1, v) ← skip_class fuel' SPC v;
        _ ← (if ch1 =? EOF then mret tt else _ ← scan_ungetc ch1; mret tt);
        doscan_loop fuel' previous_errno fmt nmatch suppressed a (up_nchars (-1) v)
      else literal ch fmt
  end.

(** [fuel] bounds the length of the format and of the input. *)
Definition _doscan_low (fuel : nat) (fmt : Z) (args : list Z) (tab : list Z) : IO (Z * scst) :=
  previous_errno ← ask os_errno;
  _ ← tell_os (os_set_errno 0);
  doscan_loop fuel previous_errno fmt 0 false (mk_sva args args false) (mk_scst 0 tab).

End Doscan.

Section Scanf.
Context {SA : StdioApi} (AUTO tb : Z) (decimal_point : Z).
Context (float_bytes : Z -> list Z -> list Z) (c_realloc : Z -> Z -> IO Z).

Definition _doscan (fuel : nat) (iop fmt : Z) (args tab : list Z) : IO (Z * scst) :=
  _doscan_low decimal_point float_bytes c_realloc (fgetc AUTO tb iop) (fun c => ungetc c iop) fuel fmt args tab.

Definition fscanf (fuel : nat) (f fmt : Z) (args tab : list Z) : IO (Z * scst) := _doscan fuel f fmt args tab.
Definition scanf (fuel : nat) (fmt : Z) (args tab : list Z) : IO (Z * scst) := _doscan fuel stdin fmt args tab.
Definition vfscanf (fuel : nat) (stream fmt : Z) (args tab : list Z) : IO (Z * scst) := _doscan fuel stream fmt args tab.
Definition vscanf (fuel : nat) (fmt : Z) (args tab : list Z) : IO (Z * scst) := _doscan fuel stdin fmt args tab.

(** [while ( *str++) p->_cnt++;] *)
Definition __stropenr (p str : Z) : IO unit :=
  _ ← modf p (up_flag (_IOREAD .| _IOSTRG .| _IONTERM));
  _ ← modf p (up_base str);
  _ ← modf p (up_ptr str);
  e ← (fun s => e ← scan_nul (i_mem s) str; Done (e, s));
  _ ← modf p (up_cnt (e - str));
  modf p (up_bufsiz (e - str)).

(** The FILE is an automatic variable at the key [sb]; [junk] is what it holds. *)
Definition sscanf (fuel : nat) (sb : Z) (junk : FILE) (str fmt : Z) (args tab : list Z) : IO (Z * scst) :=
  _ ← modify (fun s => put_files s (<[sb := junk]> (i_files s)));
  _ ← __stropenr sb str;
  _doscan fuel sb fmt args tab.

Definition vsscanf := sscanf.

End Scanf.
