(* ===== verification/DoscanSpec.v ===== *)
(** * scanf: what a format means, and the streams it reads

    The directives of a format and what they take from the input; the interface of a stream
    of characters with one character of np_push-back; and the statements of doscan.c over it. *)

From stdpp Require Import base gmap list numbers.
From Stdlib Require Import ZArith Lia.
From S2P Require Import Prelude Ctype MemFuns Strings Strto NMalloc NmRep Stdio StdioInv StdioWr Doprnt DoprntSpec DoprntConv DoprntLoop Doscan.

Open Scope Z_scope.
Open Scope c_scope.

(** ** Directives *)

Inductive slen : Type := S0 | Shh | Sh | Sl | Sll | Sj | Sz | St.

(** A conversion; width 0: none *)
Record sdir := mk_sdir { s_star : bool; s_width : Z; s_len : slen; s_conv : Z }.

Inductive sitem : Type := SSpace (c : Z) | SLit (c : Z) | SDir (d : sdir).

Definition show_slen (l : slen) : list Z :=
  match l with
  | S0 => [] | Shh => [104; 104] | Sh => [104] | Sl => [108] | Sll => [108; 108]
  | Sj => [106] | Sz => [122] | St => [116]
  end.

Definition show_sdir (d : sdir) : list Z :=
  (if s_star d then [42] else []) ++ (if s_width d =? 0 then [] else dec (s_width d)) ++ show_slen (s_len d) ++ [s_conv d].

Definition show_sitem (i : sitem) : list Z :=
  match i with SSpace c => [c] | SLit c => if c =? 37 then [37; 37] else [c] | SDir d => 37 :: show_sdir d end.
Definition sshow (l : list sitem) : list Z := l ≫= show_sitem.

(** The bytes of the object that a number is stored in *)
Definition size_of (l : slen) : nat := match l with S0 | St => 4 | Shh => 1 | Sh => 2 | _ => 8 end.

(** ** What a conversion takes *)

Definition is_space (c : Z) : bool := (9 <=? c) && (c <=? 13) || (c =? 32).

Fixpoint drop_ws (l : list Z) : list Z :=
  match l with c :: l' => if is_space c then drop_ws l' else l | [] => [] end.

(** The value of a digit *)
Definition dval (base c : Z) : option Z :=
  if (48 <=? c) && (c <=? 57) && (c - 48 <? base) then Some (c - 48)
  else if (base =? 16) && (97 <=? c) && (c <=? 102) then Some (c - 87)
  else if (base =? 16) && (65 <=? c) && (c <=? 70) then Some (c - 55)
  else None.

(** The digits at the start of [l], [w] at most, and the rest *)
Fixpoint span_digits (base : Z) (w : nat) (l : list Z) : list Z * list Z :=
  match w, l with
  | S w', c :: l' =>
      match dval base c with
      | Some d => let '(ds, r) := span_digits base w' l' in (d :: ds, r)
      | None => ([], l)
      end
  | _, _ => ([], l)
  end.

(** The base, and the length of the prefix that says so *)
Definition num_prefix (conv : Z) (w : nat) (l : list Z) : Z * nat :=
  let x := match l with c0 :: c :: _ => (c0 =? 48) && ((c =? 120) || (c =? 88)) && (2 <=? w)%nat | _ => false end in
  if conv =? 105 then
    if x then (16, 2%nat)
    else (match l with c :: _ => if (c =? 48) && (1 <=? w)%nat then 8 else 10 | [] => 10 end, 0%nat)
  else if conv =? 120 then (16, if x then 2%nat else 0%nat)
  else if conv =? 111 then (8, 0%nat)
  else if conv =? 112 then (16, 0%nat)
  else (10, 0%nat).

(** A number: its sign, its value, whether there is one, the characters that are kept in the
    buffer, and the rest *)
Record numres := mk_numres { nr_neg : bool; nr_val : Z; nr_any : bool; nr_kept : nat; nr_rest : list Z }.

Definition take_num (conv : Z) (w : nat) (l : list Z) : numres :=
  let neg := match l with c :: _ => c =? 45 | [] => false end in
  let sign := match l with c :: _ => if (c =? 45) || (c =? 43) then 1%nat else 0%nat | [] => 0%nat end in
  let w := (w - sign)%nat in
  let l := drop sign l in
  let '(b, k) := num_prefix conv w l in
  let '(ds, r) := span_digits b (w - k) (drop k l) in
  mk_numres neg (horner b 0 ds) (negb (k + length ds =? 0)%nat) ((if neg then 1 else 0) + k + length ds) r.

Fixpoint span_word (w : nat) (l : list Z) : list Z * list Z :=
  match w, l with
  | S w', c :: l' => if is_space c then ([], l) else let '(t, r) := span_word w' l' in (c :: t, r)
  | _, _ => ([], l)
  end.

(** ** What a format does *)

(** What a conversion comes to: out of the domain of this specification, failed with or
    without the end of the input, or done with the bytes to be stored *)
Inductive convres : Type :=
  | CFail (eof : bool) (rest : list Z)
  | CDone (bytes : list Z) (rest : list Z).

Definition conv_ref (d : sdir) (l : list Z) : option convres :=
  let w := Z.to_nat (if s_width d =? 0 then DEFAULT_WIDTH else s_width d) in
  if s_conv d =? 99 then
    let w := Z.to_nat (if s_width d =? 0 then 1 else if s_width d =? DEFAULT_WIDTH then 1 else s_width d) in
    match l with [] => Some (CFail true []) | _ => Some (CDone (take w l) (drop w l)) end
  else if s_conv d =? 115 then
    match span_word w (drop_ws l) with
    | ([], r) => Some (CFail true r)
    | (t, r) => Some (CDone (t ++ [0]) r)
    end
  else
    let x := take_num (s_conv d) w (drop_ws l) in
    if (64 <=? nr_kept x)%nat || (2 ^ 63 <=? nr_val x) then None
    else if nr_any x then Some (CDone (le_bytes (size_of (s_len d)) (if nr_neg x then - nr_val x else nr_val x)) (nr_rest x))
    else Some (CFail (match nr_rest x with [] => true | _ => false end) (nr_rest x)).

(** [n] characters are read, [nm] conversions stored; the results are the value, the stores
    and the rest of the input. None: too few pointers, or outside of the domain *)
Fixpoint scan_ref (items : list sitem) (ptrs : list Z) (n nm : Z) (supp : bool) (l : list Z)
    : option (Z * list (Z * list Z) * list Z) :=
  match items with
  | [] => Some (nm, [], l)
  | SSpace _ :: items' =>
      scan_ref items' ptrs (n + Z.of_nat (length l - length (drop_ws l))) nm supp (drop_ws l)
  | SLit c :: items' =>
      match l with
      | [] => Some (if negb (nm =? 0) || supp then nm else EOF, [], [])
      | c' :: l' => if c' =? c then scan_ref items' ptrs (n + 1) nm supp l' else Some (nm, [], l)
      end
  | SDir d :: items' =>
      '(ptr, ptrs) ← (if s_star d then Some (0, ptrs) else match ptrs with p :: ps => Some (p, ps) | [] => None end);
      if s_conv d =? 110 then
        '(r, ws, l) ← scan_ref items' ptrs n nm supp l;
        Some (r, if ptr =? 0 then ws else (ptr, le_bytes (size_of (s_len d)) n) :: ws, l)
      else
        c ← conv_ref d l;
        match c with
        | CFail eof r => Some (if eof && (nm =? 0) && negb supp then EOF else nm, [], r)
        | CDone bs r =>
            let n := n + Z.of_nat (length l - length r) in
            if ptr =? 0 then scan_ref items' ptrs n nm true r
            else
              '(v, ws, l) ← scan_ref items' ptrs n (nm + 1) supp r;
              Some (v, (ptr, bs) :: ws, l)
        end
  end.

(** A well-formed item *)
Definition sitem_ok (i : sitem) : Prop :=
  match i with
  | SSpace c => c ∈ [32; 10; 9; 13; 12; 11]
  | SLit c => 0 < c < 128 /\ is_space c = false
  | SDir d => 0 <= s_width d < 2 ^ 31 /\ s_conv d ∈ [100; 105; 117; 111; 120; 99; 115; 110]
  end.

(** ** Streams that give characters *)

(** [sr_ok s l]: the stream is in order and will give [l]. [sr_read s c l]: [c] was just
    read, and can be given back. *)
Class Source {SA : StdioApi} (getc : IO Z) (ungetc : Z -> IO Z) := {
  sr_ok : iost -> list Z -> Prop;
  sr_read : iost -> Z -> list Z -> Prop;
  sr_client : iost -> Z -> Prop;
  sr_bytes : forall s l, sr_ok s l -> bytes_ok l;
  sr_weaken : forall s c l, sr_read s c l -> sr_ok s l;
  sr_getc : forall s l, sr_ok s l -> wpi getc (fun c s' =>
    match l with [] => c = EOF /\ sr_ok s' [] | b :: l' => c = b /\ sr_read s' b l' end /\
    forall a, sr_client s a -> sr_client s' a /\ i_mem s' !! a = i_mem s !! a) s;
  sr_ungetc : forall s c l, sr_read s c l -> wpi (ungetc c) (fun _ s' => sr_ok s' (c :: l) /\
    forall a, sr_client s a -> sr_client s' a /\ i_mem s' !! a = i_mem s !! a) s;
  sr_store : forall s a b, sr_client s a ->
    let s' := put_mem s (<[a := b]> (i_mem s)) in
    (forall l, sr_ok s l -> sr_ok s' l) /\ (forall c l, sr_read s c l -> sr_read s' c l) /\
    forall a', sr_client s a' -> sr_client s' a';
  sr_errno : forall s e,
    let s' := put_os s (os_set_errno e (i_os s)) in
    (forall l, sr_ok s l -> sr_ok s' l) /\ forall a', sr_client s a' -> sr_client s' a' }.

(** ** Input as a calculus *)

(** The stores [ws], one after the other *)
Definition written (ws : list (Z * list Z)) (m : mem) : mem := foldl (fun m '(p, bs) => write_bytes m p bs) m ws.

Lemma written_app ws1 ws2 m : written (ws1 ++ ws2) m = written ws2 (written ws1 m).
Proof. apply foldl_app. Qed.

Lemma write_bytes_at bs : forall p (m m' : mem) a,
  m !! a = m' !! a -> write_bytes m p bs !! a = write_bytes m' p bs !! a.
Proof.
  induction bs as [|b bs IH]; intros p m m' a E; [done|]. cbn [write_bytes]. apply IH.
  destruct (decide (p = a)) as [->|?]; [by rewrite !lookup_insert_eq|by rewrite !lookup_insert_ne].
Qed.

Lemma written_at ws : forall (m m' : mem) a, m !! a = m' !! a -> written ws m !! a = written ws m' !! a.
Proof. induction ws as [|[p bs] ws IH]; intros m m' a E; [done|]. apply IH. by apply write_bytes_at. Qed.

Lemma written_mapped ws : forall (m : mem) a, is_Some (m !! a) -> is_Some (written ws m !! a).
Proof.
  induction ws as [|[p bs] ws IH]; intros m a H; [done|]. apply IH. clear IH ws. revert p m H. induction bs as [|b bs IH]; intros p m H; [done|].
  cbn [write_bytes]. apply IH. destruct (decide (p = a)) as [->|?]; [by rewrite lookup_insert_eq|by rewrite lookup_insert_ne].
Qed.

(** The stores do not touch [a]. *)
Definition spares (ws : list (Z * list Z)) (a : Z) : Prop :=
  Forall (fun '(p, bs) => ~ p <= a < p + Z.of_nat (length bs)) ws.

Lemma written_spares ws : forall m a, spares ws a -> written ws m !! a = m !! a.
Proof.
  induction ws as [|[p bs] ws IH]; intros m a H; [done|]. apply Forall_cons_1 in H as [H Hws].
  change (written ws (write_bytes m p bs) !! a = m !! a). rewrite (IH _ _ Hws). apply lookup_write_bytes_out. lia.
Qed.

Section Input.
Context {SA : StdioApi} {getc : IO Z} {ungetc : Z -> IO Z} {SO : Source getc ungetc}.
Implicit Types (s : iost) (l : list Z) (ws : list (Z * list Z)).

(** From [s] to [s'] the stores [ws] are made to the client's memory. *)
Definition wrote s ws s' : Prop := forall a, sr_client s a ->
  sr_client s' a /\ i_mem s' !! a = written ws (i_mem s) !! a.

Lemma wrote_refl s : wrote s [] s.
Proof. by intros a Ha. Qed.

Lemma wrote_then s1 s2 s3 ws1 ws2 : wrote s1 ws1 s2 -> wrote s2 ws2 s3 -> wrote s1 (ws1 ++ ws2) s3.
Proof.
  intros H1 H2 a Ha. destruct (H1 a Ha) as [Ha2 E1]. destruct (H2 a Ha2) as [Ha3 E2]. split; [done|].
  rewrite E2, written_app. by apply written_at.
Qed.

Lemma wrote_quiet s1 s2 s3 ws : wrote s1 ws s2 -> wrote s2 [] s3 -> wrote s1 ws s3.
Proof. intros H1 H2. rewrite <- (app_nil_r ws). by eapply wrote_then. Qed.

Lemma wrote_client s ws s' a : wrote s ws s' -> sr_client s a -> sr_client s' a.
Proof. intros H Ha. by apply H. Qed.

(** The character that was read last, and what follows: [l] is the input with it. *)
Definition ahead s (c : Z) l : Prop :=
  match l with [] => c = EOF /\ sr_ok s [] | b :: l' => c = b /\ 0 <= b < 256 /\ sr_read s b l' /\ bytes_ok l' end.

Lemma ahead_bytes s c l : ahead s c l -> bytes_ok l.
Proof. destruct l as [|b l]; [constructor|]. intros (_ & Hb & _ & Hl). by apply bytes_ok_cons. Qed.

Lemma ahead_EOF s c l : ahead s c l -> (c =? EOF) = bool_decide (l = []).
Proof. destruct l as [|b l]; [by intros [-> _]|]. intros (-> & Hb & _). apply Z.eqb_neq. unfold EOF. lia. Qed.

(** A character is read. *)
Lemma wpi_getc s l (Q : Z -> iost -> Prop) :
  sr_ok s l -> (forall c s', ahead s' c l -> wrote s [] s' -> Q c s') -> wpi getc Q s.
Proof.
  intros Hok HQ. pose proof (sr_bytes _ _ Hok) as Hb. eapply wpi_mono; [by apply sr_getc|]. cbv beta. intros c s' [Hl Hm].
  apply HQ; [|done]. destruct l as [|b l]; [done|]. apply bytes_ok_cons in Hb as [? ?]. by destruct Hl as [-> ?].
Qed.

(** The character is given back, unless it is EOF. *)
Lemma wpi_back s c l (Q : unit -> iost -> Prop) :
  ahead s c l -> (forall s', sr_ok s' l -> wrote s [] s' -> Q tt s') ->
  wpi (if c =? EOF then mret tt else _ ← ungetc c; mret tt) Q s.
Proof.
  intros Ha HQ. rewrite (ahead_EOF _ _ _ Ha). destruct l as [|b l].
  - destruct Ha as [-> Ha]. apply wpi_ret, HQ; [done|apply wrote_refl].
  - destruct Ha as (-> & _ & Ha & _). cbn. apply wpi_bind. eapply wpi_mono; [by apply sr_ungetc|]. cbv beta.
    intros _ s' [? ?]. apply wpi_ret. by apply HQ.
Qed.

(** Bytes are stored in the client's memory. *)
Definition place s (a : Z) : Prop := sr_client s a /\ is_Some (i_mem s !! a).
Definition region s (p : Z) (n : nat) : Prop := forall a, p <= a < p + Z.of_nat n -> place s a.

Lemma place_wrote s ws s' a : wrote s ws s' -> place s a -> place s' a.
Proof. intros H [Ha Hm]. destruct (H a Ha) as [Ha' E]. split; [done|]. rewrite E. by apply written_mapped. Qed.

Lemma region_wrote s ws s' p n : wrote s ws s' -> region s p n -> region s' p n.
Proof. intros H Hr a Ha. eapply place_wrote; [done|]. by apply Hr. Qed.

Lemma wrote_store s a b : sr_client s a -> wrote s [(a, [b])] (put_mem s (<[a := b]> (i_mem s))).
Proof. intros Hc a' Ha'. split; [by apply (sr_store s a b)|done]. Qed.

Lemma ahead_store s a b c l : sr_client s a -> ahead s c l -> ahead (put_mem s (<[a := b]> (i_mem s))) c l.
Proof.
  intros Hc. destruct (sr_store s a b Hc) as (H1 & H2 & _). destruct l as [|x l].
  - intros [? ?]. split; auto.
  - intros (? & ? & ? & ?). split_and!; auto; lia.
Qed.

Lemma wrote_cons s s1 s' p b bs : wrote s [(p, [b])] s1 -> wrote s1 [(p + 1, bs)] s' -> wrote s [(p, b :: bs)] s'.
Proof. intros H1 H2. exact (wrote_then _ _ _ _ _ H1 H2). Qed.

Lemma store_bytes_input bs : forall s p l (Q : unit -> iost -> Prop),
  sr_ok s l -> bytes_ok bs -> region s p (length bs) ->
  (forall s', sr_ok s' l -> wrote s [(p, bs)] s' -> Q tt s') ->
  wpi (fun s => m ← store_bytes (i_mem s) p bs; Done (tt, put_mem s m)) Q s.
Proof.
  induction bs as [|b bs IH]; intros s p l Q Hok Hb Hr HQ.
  { apply HQ; by destruct s. }
  apply bytes_ok_cons in Hb as [Hb Hbs]. assert (Hc : place s p) by (apply Hr; simpl; lia). destruct Hc as [Hc Hm].
  destruct (sr_store s p b Hc) as (H1 & _ & _). pose proof (wrote_store s p b Hc) as Hw.
  set (s1 := put_mem s (<[p := b]> (i_mem s))) in *.
  pose proof (IH s1 (p + 1) l Q (H1 l Hok) Hbs) as H. unfold wpi in *. cbn [store_bytes].
  rewrite store_byte, bind_Done by done. apply H.
  - eapply region_wrote; [done|]. intros a Ha. apply Hr. simpl. lia.
  - intros s' ? ?. apply HQ; [done|]. by eapply wrote_cons.
Qed.

(** A char of the format *)
Lemma wpi_ldc p b s (Q : Z -> iost -> Prop) : i_mem s !! p = Some b -> 0 <= b < 128 -> Q b s -> wpi (ldc p) Q s.
Proof. intros E Hb HQ. unfold ldc. apply wpi_bind. eapply wpi_ldb; [exact E|]. apply wpi_ret. rewrite wrap_s_small by lia. done. Qed.

End Input.
