(* ===== verification/DoscanConv.v ===== *)
(** * scanf: conversions

    What the functions of doscan.c that read blanks, numbers, characters and words take from
    the input and store. *)

From stdpp Require Import base gmap list numbers.
From Stdlib Require Import ZArith Lia.
From S2P Require Import Prelude Ctype MemFuns Strings Strto NMalloc NmRep Stdio StdioInv StdioWr.
From S2P Require Import Doprnt DoprntSpec DoprntConv DoprntLoop Doscan DoscanSpec.

Open Scope Z_scope.
Open Scope c_scope.

(** _sctab knows the white space. *)
Definition tab_ok (tab : list Z) : Prop := forall c, 0 <= c < 256 -> has (nth (Z.to_nat c) tab 0) SPC = is_space c.

Lemma init_tab_ok : tab_ok _sctab_init.
Proof.
  intros c Hc. apply eqb_prop. revert c Hc.
  apply (range_all 0 256 (fun c => Bool.eqb (has (nth (Z.to_nat c) _sctab_init 0) SPC) (is_space c))). by vm_compute.
Qed.

Lemma low_byte c : 0 <= c < 256 -> c .& 255 = c.
Proof. intros Hc. change 255 with (Z.ones 8). rewrite Z.land_ones by lia. by apply Z.mod_small. Qed.

Lemma up_nchars_add a b v : up_nchars a (up_nchars b v) = up_nchars (b + a) v.
Proof. unfold up_nchars. simpl. f_equal. lia. Qed.

Lemma up_nchars_0 v : up_nchars 0 v = v.
Proof. destruct v. unfold up_nchars. simpl. f_equal. lia. Qed.

Lemma drop_ws_length l : (length (drop_ws l) <= length l)%nat.
Proof. induction l as [|c l IH]; [done|]. cbn [drop_ws]. destruct (is_space c); simpl; lia. Qed.

Lemma drop_ws_head c l l' : drop_ws l = c :: l' -> is_space c = false.
Proof. induction l as [|x l IH]; [done|]. cbn [drop_ws]. destruct (is_space x) eqn:E; [exact IH|]. by intros [= <- _]. Qed.

Lemma drop_ws_bytes l : bytes_ok l -> bytes_ok (drop_ws l).
Proof.
  induction l as [|c l IH]; [done|]. intros H. pose proof H as [_ Hl]%bytes_ok_cons. cbn [drop_ws].
  destruct (is_space c); auto.
Qed.

(** ** Digits *)

Lemma dval_range b c d : b ∈ [8; 10; 16] -> dval b c = Some d -> 0 <= d < b.
Proof. intros Hb. set_unfold in Hb. unfold dval. repeat case_match; intros; simplify_eq; try done; destruct Hb as [->|[->|[->|[]]]]; simpl in *; lia. Qed.

Lemma dec_digit_spec c : 0 <= c < 256 -> dec_digit c = (48 <=? c) && (c <=? 57).
Proof. intros Hc. unfold dec_digit. by rewrite low_byte. Qed.

(** The test of the loop *)
Lemma dval_test b c : 0 <= c < 256 ->
  (negb (c =? EOF) && dec_digit c && (c - 48 <? b) || (b =? 16) && hex_letter c) = bool_decide (is_Some (dval b c)).
Proof.
  intros Hc. rewrite dec_digit_spec by done. rewrite (proj2 (Z.eqb_neq c EOF)) by (unfold EOF; lia). cbn [negb andb].
  unfold dval, hex_letter. destruct ((48 <=? c) && (c <=? 57) && (c - 48 <? b)); [by rewrite bool_decide_eq_true_2 by eauto|].
  cbn [orb]. destruct (b =? 16); [|by cbn]. cbn [andb].
  destruct ((97 <=? c) && (c <=? 102)); [by rewrite bool_decide_eq_true_2 by eauto|]. cbn [orb].
  destruct ((65 <=? c) && (c <=? 70)); [by rewrite bool_decide_eq_true_2 by eauto|done].
Qed.

Lemma dval_digit b c d : dval b c = Some d -> 0 <= c < 256 ->
  d = (if dec_digit c then c - 48 else if (97 <=? c) && (c <=? 102) then c - 87 else c - 55).
Proof.
  intros H Hc. rewrite dec_digit_spec by done. unfold dval in H.
  destruct ((48 <=? c) && (c <=? 57)) eqn:E1; cbn [andb] in H.
  - destruct (c - 48 <? b); [by injection H|]. destruct (Z.leb_spec 97 c), (Z.leb_spec 65 c), (Z.leb_spec c 70); try lia; rewrite ?andb_false_r in H; done.
  - destruct ((97 <=? c) && (c <=? 102)) eqn:E2.
    + rewrite <- andb_assoc, E2, andb_true_r in H. destruct (b =? 16); cbn [andb] in H; [by injection H|done].
    + rewrite <- andb_assoc, E2, andb_false_r in H. rewrite <- andb_assoc in H.
      destruct ((b =? 16) && ((65 <=? c) && (c <=? 70))); [by injection H|done].
Qed.

Lemma horner_ge b ds : forall n, 1 <= b -> Forall (fun d => 0 <= d) ds -> 0 <= n -> n <= horner b n ds.
Proof.
  unfold horner. induction ds as [|d ds IH]; intros n Hb Hd Hn; cbn [foldl]; [lia|]. apply Forall_cons_1 in Hd as [Hd Hds].
  specialize (IH (n * b + d) Hb Hds). nia.
Qed.

Lemma span_digits_range b : b ∈ [8; 10; 16] -> forall w l, Forall (fun d => 0 <= d) (span_digits b w l).1.
Proof.
  intros Hb. induction w as [|w IH]; intros l; [constructor|]. destruct l as [|c l]; [constructor|]. cbn [span_digits].
  destruct (dval b c) as [d|] eqn:E; [|constructor]. specialize (IH l). destruct (span_digits b w l) as [ds r].
  apply dval_range in E; [|done]. constructor; [lia|exact IH].
Qed.

Section Conv.
Context {SA : StdioApi} {getc : IO Z} {ungetc : Z -> IO Z} {SO : Source getc ungetc}.
Context (decimal_point : Z) (float_bytes : Z -> list Z -> list Z) (c_realloc : Z -> Z -> IO Z).
Implicit Types (s : iost) (l : list Z) (v : scst).

Lemma add_digit_spec b lcval c d s (Q : Z -> iost -> Prop) :
  b ∈ [8; 10; 16] -> 0 <= c < 256 -> dval b c = Some d -> 0 <= lcval -> lcval * b + d < 2 ^ 63 ->
  Q (lcval * b + d) s -> wpi (add_digit b lcval c) Q s.
Proof.
  intros Hb Hc Hd Hl Hlt HQ. unfold add_digit. rewrite <- (dval_digit b c d Hd Hc). pose proof (dval_range b c d Hb Hd).
  assert (Hok : forall x (Q' : Z -> iost -> Prop), 0 <= x < 2 ^ 63 -> Q' x s -> wpi (as_llong x) Q' s).
  { intros x Q' Hx HQ'. unfold as_llong. replace ((- 2 ^ 63 <=? x) && (x <? 2 ^ 63)) with true by lia. by apply wpi_ret. }
  assert (Hshl : forall x n, 0 <= n -> 0 <= x * 2 ^ n < 2 ^ 63 -> wrap_s 64 (Z.shiftl x n) = x * 2 ^ n).
  { intros x n Hn Hx. rewrite Z.shiftl_mul_pow2 by done. apply wrap_s_small; lia. }
  apply wpi_bind. set_unfold in Hb. destruct Hb as [->|[->|[->|[]]]]; cbv [Z.eqb Pos.eqb].
  - apply wpi_ret. rewrite Hshl by lia. apply Hok; [lia|]. by change (2 ^ 3) with 8.
  - rewrite Hshl by lia. apply wpi_bind, Hok; [lia|]. apply wpi_ret. rewrite Hshl by lia. apply Hok; [lia|].
    by replace ((lcval * 2 ^ 2 + lcval) * 2 ^ 1) with (lcval * 10) by lia.
  - apply wpi_ret. rewrite Hshl by lia. apply Hok; [lia|]. by change (2 ^ 4) with 16.
Qed.

(** ** Blanks *)

Lemma sc_has_SPC v c : tab_ok (_sctab v) -> 0 <= c < 256 -> sc_has v c SPC = is_space c.
Proof. intros Ht Hc. unfold sc_has. rewrite low_byte by done. by apply Ht. Qed.

Lemma sc_has_0 v c : sc_has v c 0 = false.
Proof. unfold sc_has, has. by rewrite Z.land_0_r. Qed.

Lemma skip_none fuel v s l (Q : Z * scst -> iost -> Prop) :
  sr_ok s l -> (forall c s', ahead s' c l -> wrote s [] s' -> Q (c, up_nchars 1 v) s') -> wpi (skip_class getc (S fuel) 0 v) Q s.
Proof.
  intros Hok HQ. cbn [skip_class]. apply wpi_bind. eapply wpi_getc; [done|]. intros c s1 Ha Hw.
  rewrite sc_has_0, andb_false_r. apply wpi_ret. auto.
Qed.

Lemma skip_ws : forall l fuel v s (Q : Z * scst -> iost -> Prop),
  tab_ok (_sctab v) -> sr_ok s l -> (length l < fuel)%nat ->
  (forall c s', ahead s' c (drop_ws l) -> wrote s [] s' ->
    Q (c, up_nchars (Z.of_nat (length l - length (drop_ws l)) + 1) v) s') -> wpi (skip_class getc fuel SPC v) Q s.
Proof.
  induction l as [|b l IH]; intros fuel v s Q Ht Hok Hf HQ; (destruct fuel as [|fuel]; [lia|]); cbn [skip_class];
    apply wpi_bind; (eapply wpi_getc; [done|]); intros c s1 Ha Hw.
  - destruct Ha as [-> Ha]. apply wpi_ret. by apply (HQ EOF).
  - pose proof Ha as (-> & Hb & Hr & Hl). rewrite (proj2 (Z.eqb_neq b EOF)) by (unfold EOF; lia). cbn [negb andb].
    rewrite sc_has_SPC by done. cbn [drop_ws] in HQ. destruct (is_space b) eqn:E.
    + apply IH; [done|by eapply sr_weaken|simpl in Hf; lia|]. intros c s2 Ha2 Hw2. rewrite up_nchars_add.
      pose proof (drop_ws_length l). cbn [length] in HQ.
      replace (1 + (Z.of_nat (length l - length (drop_ws l)) + 1)) with (Z.of_nat (S (length l) - length (drop_ws l)) + 1) by lia.
      apply HQ; [done|]. by eapply wrote_quiet.
    + apply wpi_ret. rewrite Nat.sub_diag in HQ. by apply HQ.
Qed.

(** ** Numbers *)

Abbreviation rounds := (num_loop decimal_point getc).

(** The base, and the test for an x, when [c] is read *)
Definition base_now (type : Z) (x : numst) (c : Z) : Z :=
  if (c =? 48) && (n_cpos x + 1 =? 1) && (type =? 105) then 8 else n_base x.

Definition x_now (type : Z) (x : numst) (c : Z) : bool :=
  ((c =? 120) || (c =? 88)) && ((type =? 97) || (type =? 105) || (type =? 120)) && (n_cpos x + 1 =? 2) && (n_lcval x =? 0).

(** [k] characters more are kept and read, and the value is [val]. *)
Definition counted (x : numst) (val : Z) (k : nat) (x' : numst) : Prop :=
  n_lcval x' = val /\ length (n_np x') = (length (n_np x) + k)%nat /\ n_v x' = up_nchars (Z.of_nat k) (n_v x).

Lemma counted_refl x x' : n_lcval x' = n_lcval x -> n_np x' = n_np x -> n_v x' = n_v x -> counted x (n_lcval x) 0 x'.
Proof. intros E1 E2 E3. split_and!; [done|by rewrite E2|by rewrite E3, up_nchars_0]. Qed.

Lemma counted_step x x1 x2 a b k : counted x a 1 x1 -> counted x1 b k x2 -> counted x b (S k) x2.
Proof.
  intros (_ & E1 & E2) (H0 & H1 & H2). split_and!; [done|lia|]. rewrite H2, E2, up_nchars_add. f_equal. lia.
Qed.

Lemma np_push_ok c np s (Q : list Z -> iost -> Prop) : (length np < 64)%nat -> Q (byte c :: np) s -> wpi (np_push c np) Q s.
Proof. intros Hn HQ. unfold np_push. rewrite (proj2 (Nat.ltb_lt _ _)) by done. by apply wpi_ret. Qed.

Lemma num_next_ok x s c l (Q : numst -> iost -> Prop) :
  ahead s (n_c x) (c :: l) -> (length (n_np x) < 64)%nat ->
  (forall x' s', n_base x' = n_base x -> n_cpos x' = n_cpos x -> counted x (n_lcval x) 1 x' -> ahead s' (n_c x') l ->
    wrote s [] s' -> Q x' s') -> wpi (num_next getc x) Q s.
Proof.
  intros (Ec & _ & Hr & _) Hn HQ. unfold num_next. apply wpi_bind, np_push_ok; [done|]. apply wpi_bind.
  eapply wpi_getc; [by eapply sr_weaken|]. intros c1 s1 Ha Hw. apply wpi_ret. apply HQ; try done.
  split_and!; [done|cbn; lia|done].
Qed.

(** A digit *)
Lemma num_digit w type x s c l d (Q : numst -> iost -> Prop) :
  ahead s (n_c x) (c :: l) -> x_now type x c = false -> base_now type x c ∈ [8; 10; 16] ->
  dval (base_now type x c) c = Some d -> 0 <= n_lcval x -> n_lcval x * base_now type x c + d < 2 ^ 63 ->
  (length (n_np x) < 64)%nat ->
  (forall x' s', n_base x' = base_now type x c -> n_cpos x' = n_cpos x + 1 ->
    counted x (n_lcval x * base_now type x c + d) 1 x' -> ahead s' (n_c x') l -> wrote s [] s' ->
    wpi (rounds w type false x') Q s') ->
  wpi (rounds (S w) type false x) Q s.
Proof.
  intros Ha Hx Hb Hd Hl Hlt Hn HQ. pose proof Ha as (Ec & Hc & _). cbn [Doscan.num_loop]. apply wpi_bind.
  unfold num_body. cbv zeta. cbn [n_np n_c n_base n_lcval n_ndigit n_expseen n_cpos n_v]. rewrite Ec.
  fold (base_now type x c). fold (x_now type x c). rewrite Hx, dval_test by done. rewrite bool_decide_eq_true_2 by eauto.
  apply wpi_bind. eapply add_digit_spec; [done..|]. apply wpi_ret. cbv iota. apply wpi_bind.
  eapply num_next_ok; [cbn [n_c]; by rewrite Ec in Ha|done|]. cbn [n_base n_cpos n_lcval]. intros x' s' Eb Ep Hk Ha' Hw. by apply HQ.
Qed.

(** The end of the digits *)
Lemma num_stop w type x s l (Q : numst -> iost -> Prop) :
  ahead s (n_c x) l -> x_now type x (n_c x) = false ->
  match l with [] => True | c :: _ => dval (base_now type x c) c = None end ->
  (forall x', n_c x' = n_c x -> counted x (n_lcval x) 0 x' -> Q x' s) -> wpi (rounds (S w) type false x) Q s.
Proof.
  intros Ha Hx Hl HQ. cbn [Doscan.num_loop]. apply wpi_bind. unfold num_body. cbv zeta.
  cbn [n_np n_c n_base n_lcval n_ndigit n_expseen n_cpos n_v]. fold (base_now type x (n_c x)). fold (x_now type x (n_c x)).
  rewrite Hx. assert (E : (negb (n_c x =? EOF) && dec_digit (n_c x) && (n_c x - 48 <? base_now type x (n_c x)) ||
    (base_now type x (n_c x) =? 16) && hex_letter (n_c x)) = false).
  { destruct l as [|c l].
    - destruct Ha as [-> _]. change (hex_letter EOF) with false. cbn [Z.eqb negb andb]. by rewrite !andb_false_r.
    - destruct Ha as (-> & Hc & _). rewrite dval_test, Hl by done. apply bool_decide_eq_false_2. by intros [? ?]. }
  rewrite E. assert (H : forall x', n_c x' = n_c x -> counted x (n_lcval x) 0 x' ->
    wpi (mret (false, x')) (fun r s => wpi (let '(go, x) := r in if go : bool then x ← num_next getc x; rounds w type false x else mret x) Q s) s).
  { intros x' ? ?. apply wpi_ret, wpi_ret. auto. }
  destruct (n_c x =? decimal_point); cbn [negb orb]; [apply H; [done|by apply counted_refl]|].
  destruct (((n_c x =? 101) || (n_c x =? 69)) && (n_expseen x =? 0)); apply H; (done || by apply counted_refl).
Qed.

(** An x behind a zero *)
Lemma num_x w type x s c l (Q : numst -> iost -> Prop) :
  ahead s (n_c x) (c :: l) -> x_now type x c = true -> (length (n_np x) < 64)%nat ->
  (forall x' s', n_base x' = 16 -> n_cpos x' = n_cpos x + 1 -> counted x (n_lcval x) 1 x' -> ahead s' (n_c x') l ->
    wrote s [] s' -> wpi (rounds w type false x') Q s') ->
  wpi (rounds (S w) type false x) Q s.
Proof.
  intros Ha Hx Hn HQ. pose proof Ha as (Ec & Hc & _). cbn [Doscan.num_loop]. apply wpi_bind.
  unfold num_body. cbv zeta. cbn [n_np n_c n_base n_lcval n_ndigit n_expseen n_cpos n_v]. rewrite Ec.
  fold (x_now type x c). rewrite Hx. apply wpi_ret. cbv iota. apply wpi_bind.
  eapply num_next_ok; [cbn [n_c]; by rewrite Ec in Ha|done|]. cbn [n_base n_cpos n_lcval]. intros x' s' Eb Ep Hk Ha' Hw. by apply HQ.
Qed.

(** No prefix is possible any more. *)
Definition calm (type : Z) (x : numst) l : Prop :=
  type ∉ [97; 105; 120] \/ 2 <= n_cpos x \/ n_cpos x = 1 /\ (n_lcval x <> 0 \/ hd 0 l ∉ [120; 88]).

Lemma calm_x type x c l : calm type x (c :: l) -> x_now type x c = false.
Proof. unfold calm, x_now. cbn [hd]. intros H. set_unfold in H. lia. Qed.

Lemma calm_eof type x : x_now type x EOF = false.
Proof. done. Qed.

Lemma calm_base type x c l : calm type x l -> 0 <= n_cpos x -> base_now type x c = n_base x.
Proof.
  unfold calm, base_now. intros H Hp. set_unfold in H. destruct ((c =? 48) && (n_cpos x + 1 =? 1) && (type =? 105)) eqn:E; lia.
Qed.

Lemma calm_next type x x' l l' : calm type x l -> 0 <= n_cpos x -> n_cpos x' = n_cpos x + 1 -> calm type x' l'.
Proof. unfold calm. intros [H|H] Hp E; [by left|]. right. left. lia. Qed.

(** What the loop does from [x] on *)
Definition num_done s x (val : Z) (k : nat) r (Q : numst -> iost -> Prop) : Prop :=
  forall x' s', counted x val k x' -> ahead s' (n_c x') r -> wrote s [] s' -> Q x' s'.

Lemma num_digits type b : b ∈ [8; 10; 16] -> forall w l x s (Q : numst -> iost -> Prop),
  calm type x l \/ w = 0%nat -> 0 <= n_cpos x -> n_base x = b -> ahead s (n_c x) l -> 0 <= n_lcval x ->
  let '(ds, r) := span_digits b w l in
  horner b (n_lcval x) ds < 2 ^ 63 -> (length (n_np x) + length ds < 64)%nat ->
  num_done s x (horner b (n_lcval x) ds) (length ds) r Q -> wpi (rounds w type false x) Q s.
Proof.
  intros Hb. induction w as [|w IH]; intros l x s Q Hcalm Hp Eb Ha Hl.
  { destruct l; cbn [span_digits]; intros _ _ HQ; apply wpi_ret, HQ; try done; (apply counted_refl || apply wrote_refl); done. }
  destruct Hcalm as [Hcalm|?]; [|done].
  assert (Hx : x_now type x (n_c x) = false).
  { destruct l as [|c l]; [destruct Ha as [-> _]; apply calm_eof|]. destruct Ha as (-> & _). by eapply calm_x. }
  assert (Hstop : match l with [] => True | c :: _ => dval (base_now type x c) c = None end -> num_done s x (n_lcval x) 0 l Q ->
    wpi (rounds (S w) type false x) Q s).
  { intros Hs HQ. eapply num_stop; [done..|]. intros x' Ec Hk. apply HQ; [done|by rewrite Ec|apply wrote_refl]. }
  destruct l as [|c l]; cbn [span_digits]; [intros _ _ HQ; by apply Hstop|].
  destruct (dval b c) as [d|] eqn:Ed; [|intros _ _ HQ; apply Hstop; [|done]; by rewrite (calm_base _ _ _ _ Hcalm Hp), Eb].
  pose proof Ha as (Ec & _). rewrite Ec in Hx. pose proof (calm_base _ _ c _ Hcalm Hp) as Ebn. rewrite Eb in Ebn.
  pose proof (dval_range b c d Hb Ed). pose proof (span_digits_range b Hb w l) as Hrng.
  destruct (span_digits b w l) as [ds r] eqn:Es. cbn [fst] in Hrng. intros Hlt Hn HQ. unfold horner in Hlt, HQ. cbn [foldl length] in Hlt, HQ, Hn.
  fold (horner b (n_lcval x * b + d) ds) in Hlt, HQ.
  pose proof (horner_ge b ds (n_lcval x * b + d) ltac:(lia) Hrng ltac:(nia)).
  eapply num_digit; [exact Ha|done|by rewrite Ebn|by rewrite Ebn|done|rewrite Ebn; lia|lia|]. rewrite Ebn.
  intros x1 s1 Eb1 Ep1 Hk1 Ha1 Hw1. pose proof Hk1 as (El1 & En1 & _).
  specialize (IH l x1 s1 Q (or_introl (calm_next _ _ _ _ l Hcalm Hp Ep1)) ltac:(lia) Eb1 Ha1 ltac:(rewrite El1; nia)). rewrite Es, El1 in IH.
  apply IH; [done|lia|]. intros x2 s2 Hk2 Ha2 Hw2. apply HQ; [by eapply counted_step|done|by eapply wrote_quiet].
Qed.

Definition start_base (conv : Z) : Z := if conv =? 111 then 8 else if (conv =? 120) || (conv =? 112) || (conv =? 97) then 16 else 10.

(** The first digit of a number without prefix *)
Lemma num_plain conv b w c l d x s (Q : numst -> iost -> Prop) :
  base_now conv x c = b -> b ∈ [8; 10; 16] -> n_cpos x = 0 -> n_lcval x = 0 -> ahead s (n_c x) (c :: l) ->
  dval b c = Some d -> (d <> 0 \/ hd 0 l ∉ [120; 88]) \/ w = 0%nat ->
  let '(ds, r) := span_digits b (S w) (c :: l) in
  horner b 0 ds < 2 ^ 63 -> (length (n_np x) + length ds < 64)%nat ->
  num_done s x (horner b 0 ds) (length ds) r Q -> wpi (rounds (S w) conv false x) Q s.
Proof.
  intros Ebn Hb Ep El Ha Ed Hcalm. pose proof (span_digits_range b Hb w l) as Hrng. pose proof (dval_range b c d Hb Ed).
  assert (Hx : x_now conv x c = false) by (unfold x_now; rewrite Ep; lia).
  cbn [span_digits]. rewrite Ed. destruct (span_digits b w l) as [ds r] eqn:Es.
  cbn [fst] in Hrng. intros Hlt Hn HQ. unfold horner in Hlt, HQ. cbn [foldl length] in Hlt, HQ, Hn. fold (horner b (0 * b + d) ds) in Hlt, HQ.
  pose proof (horner_ge b ds (0 * b + d) ltac:(lia) Hrng ltac:(lia)).
  eapply num_digit; [exact Ha|done|by rewrite Ebn|rewrite Ebn; exact Ed|lia|rewrite Ebn; lia|lia|]. rewrite Ebn, El.
  intros x1 s1 Eb1 Ep1 Hk1 Ha1 Hw1. pose proof Hk1 as (El1 & En1 & _).
  pose proof (num_digits conv b Hb w l x1 s1 Q) as IH. rewrite Es, El1 in IH. apply IH; [|lia|done|done|lia|done|lia|].
  - destruct Hcalm as [Hcalm|?]; [left|by right]. right. right. rewrite El1. split; [lia|]. destruct Hcalm; [left; lia|by right].
  - intros x2 s2 Hk2 Ha2 Hw2. apply HQ; [by eapply counted_step|done|by eapply wrote_quiet].
Qed.

(** A zero, an x and digits of base 16 *)
Lemma num_hex conv w c l x s (Q : numst -> iost -> Prop) :
  conv ∈ [105; 120] -> c ∈ [120; 88] -> n_cpos x = 0 -> n_lcval x = 0 -> n_base x = start_base conv ->
  ahead s (n_c x) (48 :: c :: l) ->
  let '(ds, r) := span_digits 16 w l in
  horner 16 0 ds < 2 ^ 63 -> (length (n_np x) + S (S (length ds)) < 64)%nat ->
  num_done s x (horner 16 0 ds) (S (S (length ds))) r Q -> wpi (rounds (S (S w)) conv false x) Q s.
Proof.
  intros Hconv Hc Ep El Eb Ha. pose proof (num_digits conv 16 ltac:(set_solver) w l) as IH.
  destruct (span_digits 16 w l) as [ds r]. intros Hlt Hn HQ.
  assert (Hb : base_now conv x 48 ∈ [8; 16]).
  { unfold base_now. rewrite Eb, Ep. set_unfold in Hconv. destruct Hconv as [->|[->|[]]]; cbn; set_solver. }
  eapply num_digit; [exact Ha|done|set_solver| |lia| |lia|].
  { set_unfold in Hb. by destruct Hb as [->|[->|[]]]. }
  { rewrite El. lia. }
  rewrite El, Z.mul_0_l. intros x1 s1 Eb1 Ep1 Hk1 Ha1 Hw1. pose proof Hk1 as (El1 & En1 & _).
  eapply num_x; [exact Ha1| |lia|].
  { unfold x_now. rewrite El1, Ep1, Ep. set_unfold in Hc. set_unfold in Hconv. lia. }
  rewrite El1. intros x2 s2 Eb2 Ep2 Hk2 Ha2 Hw2. pose proof Hk2 as (El2 & En2 & _).
  specialize (IH x2 s2 Q). rewrite El2 in IH. apply IH; [|lia|done|done|done|done|lia|].
  { left. right. left. lia. }
  intros x3 s3 Hk3 Ha3 Hw3. apply HQ; [by do 2 (eapply counted_step; [done|])|done|].
  by do 2 (eapply wrote_quiet; [done|]).
Qed.

Lemma dval_zero b c d : dval b c = Some d -> c <> 48 -> d <> 0.
Proof. unfold dval. intros H Hc. repeat case_match; simplify_eq; lia. Qed.

Lemma num_prefix_0 conv l : exists b, num_prefix conv 0 l = (b, 0%nat).
Proof. unfold num_prefix. destruct l as [|c [|c' l]]; rewrite ?andb_false_r; repeat case_match; simplify_eq; eauto. Qed.

Lemma num_prefix_nil conv w : exists b, num_prefix conv w [] = (b, 0%nat).
Proof. unfold num_prefix. repeat case_match; simplify_eq; eauto. Qed.

Lemma num_prefix_cons conv w c l x : conv ∈ [105; 120] -> n_cpos x = 0 -> n_base x = start_base conv ->
  num_prefix conv (S w) (c :: l) =
    if (c =? 48) && bool_decide (hd 0 l ∈ [120; 88]) && (1 <=? w)%nat then (16, 2%nat) else (base_now conv x c, 0%nat).
Proof.
  intros Hc Ep Eb. unfold num_prefix, base_now. rewrite Ep, Eb.
  assert (Ex : match l with c' :: _ => (c =? 48) && ((c' =? 120) || (c' =? 88)) && (2 <=? S w)%nat | [] => false end =
    (c =? 48) && bool_decide (hd 0 l ∈ [120; 88]) && (1 <=? w)%nat).
  { destruct l as [|c' l]; [by rewrite andb_false_r|]. change (2 <=? S w)%nat with (1 <=? w)%nat. do 2 f_equal. cbn [hd].
    apply eq_bool_prop_intro. rewrite !Is_true_true, bool_decide_eq_true. set_unfold. lia. }
  assert (E : match c :: l with c0 :: c' :: _ => (c0 =? 48) && ((c' =? 120) || (c' =? 88)) && (2 <=? S w)%nat | _ => false end =
    (c =? 48) && bool_decide (hd 0 l ∈ [120; 88]) && (1 <=? w)%nat) by (rewrite <- Ex; by destruct l).
  rewrite E. set_unfold in Hc. destruct Hc as [->|[->|[]]].
  - change (105 =? 105) with true. cbv iota. destruct (_ && _ && (1 <=? w)%nat); [done|]. by destruct (c =? 48).
  - change (120 =? 105) with false. cbv iota. destruct (_ && _ && (1 <=? w)%nat); [done|]. by destruct (c =? 48).
Qed.

Lemma num_start conv w l x s (Q : numst -> iost -> Prop) :
  conv ∈ [100; 105; 117; 111; 120] -> n_cpos x = 0 -> n_lcval x = 0 -> n_base x = start_base conv -> ahead s (n_c x) l ->
  let '(b, k) := num_prefix conv w l in
  let '(ds, r) := span_digits b (w - k) (drop k l) in
  horner b 0 ds < 2 ^ 63 -> (length (n_np x) + (k + length ds) < 64)%nat ->
  num_done s x (horner b 0 ds) (k + length ds) r Q -> wpi (rounds w conv false x) Q s.
Proof.
  intros Hconv Ep El Eb Ha. destruct (decide (conv ∈ [105; 120])) as [Hc|Hc].
  2: { assert (E : num_prefix conv w l = (start_base conv, 0%nat)).
       { unfold num_prefix, start_base. set_unfold in Hconv. set_unfold in Hc. destruct_or? Hconv; subst; try done; tauto. }
       rewrite E, drop_0, Nat.sub_0_r. cbn [Nat.add]. rewrite <- El. apply num_digits; [|left; left|lia|done|done|lia].
       - unfold start_base. repeat case_match; set_solver.
       - set_unfold. lia. }
  pose proof (wrote_refl s) as Hrefl.
  destruct w as [|w].
  { destruct (num_prefix_0 conv l) as [b0 ->]. rewrite drop_0. cbn. intros _ _ HQ. apply wpi_ret. destruct l; (apply HQ; [|done|done]);
      rewrite <- El; by apply counted_refl. }
  destruct l as [|c l].
  { destruct (num_prefix_nil conv (S w)) as [b0 ->]. rewrite drop_nil. cbn [span_digits Nat.sub]. intros _ _ HQ.
    eapply num_stop; [done|by destruct Ha as [-> _]|done|]. intros x' Ec Hk. apply HQ; [by rewrite El in Hk|by rewrite Ec|done]. }
  rewrite (num_prefix_cons conv w c l x Hc Ep Eb). set (b := base_now conv x c).
  assert (Hb : b ∈ [8; 10; 16]).
  { unfold b, base_now. rewrite Eb, Ep. unfold start_base. set_unfold in Hc. destruct Hc as [->|[->|[]]]; destruct (c =? 48); cbn; set_solver. }
  destruct ((c =? 48) && bool_decide (hd 0 l ∈ [120; 88]) && (1 <=? w)%nat) eqn:Ex.
  - apply andb_true_iff in Ex as [[Ec%Z.eqb_eq Ex%bool_decide_eq_true]%andb_true_iff Ew%Nat.leb_le]. subst c.
    destruct w as [|w]; [lia|]. destruct l as [|c l]; [cbn in Ex; set_unfold in Ex; lia|].
    replace (S (S w) - 2)%nat with w by lia. change (drop 2 (48 :: c :: l)) with (drop 0 l). rewrite drop_0. by apply (num_hex conv w c l).
  - rewrite drop_0, Nat.sub_0_r. cbn [Nat.add]. destruct (dval b c) as [d|] eqn:Ed.
    + apply (num_plain conv b w c l d); try done. pose proof (dval_zero b c d Ed) as Hz. rewrite !andb_false_iff in Ex.
      destruct Ex as [[Ex|Ex]|Ex]; [left; left; lia|left; right; by apply bool_decide_eq_false in Ex|right; apply Nat.leb_gt in Ex; lia].
    + cbn [span_digits]. rewrite Ed. intros _ _ HQ.
      eapply num_stop; [done| |exact Ed|].
      { destruct Ha as (-> & _). unfold x_now. rewrite Ep. lia. }
      intros x' Ec Hk. apply HQ; [by rewrite El in Hk|by rewrite Ec|done].
Qed.

(** The size that a length stands for *)
Definition size_code (l : slen) : Z :=
  match l with S0 | St => REGULAR | Shh => CHAR | Sh => SHORT | Sl | Sz => LONG | Sll | Sj => LONGDOUBLE end.

Lemma store_num_spec ptr len lcval numbuf s l (Q : unit -> iost -> Prop) :
  sr_ok s l -> region s ptr (size_of len) ->
  (forall s', sr_ok s' l -> wrote s [(ptr, le_bytes (size_of len) lcval)] s' -> Q tt s') ->
  wpi (store_num float_bytes ptr false (size_code len) lcval numbuf) Q s.
Proof.
  intros Hok Hr HQ.
  enough (H : wpi (store_int ptr (size_of len) lcval) Q s) by (destruct len; exact H).
  eapply store_bytes_input; [done|apply le_bytes_ok|by rewrite length_le_bytes|done].
Qed.

(** What a conversion has done: the result, the characters counted, the rest of the input and the store *)
Definition conv_done s l v (ptr : Z) (res : convres) (r : bool * bool * scst) s' : Prop :=
  match res with
  | CFail eof rest => r.1 = (false, eof) /\ sr_ok s' rest /\ wrote s [] s'
  | CDone bs rest => r.1.1 = true /\ r.2 = up_nchars (Z.of_nat (length l - length rest)) v /\ sr_ok s' rest /\
      wrote s (if ptr =? 0 then [] else [(ptr, bs)]) s'
  end.

Definition store_ok s (ptr : Z) (res : convres) : Prop :=
  match res with CDone bs _ => ptr = 0 \/ 0 < ptr /\ region s ptr (length bs) | _ => True end.

Lemma span_digits_length b : forall w l, let '(ds, r) := span_digits b w l in length l = (length ds + length r)%nat.
Proof.
  induction w as [|w IH]; intros l; [by destruct l|]. destruct l as [|c l]; [done|]. cbn [span_digits].
  destruct (dval b c); [|done]. specialize (IH l). destruct (span_digits b w l). simpl. lia.
Qed.

Lemma num_prefix_length conv w l : ((num_prefix conv w l).2 <= length l)%nat.
Proof. unfold num_prefix. destruct l as [|c [|c' l]]; repeat case_match; simpl; lia. Qed.

(** From the sign to the end of a number *)
Definition num_tail (ptr size : Z) (negflg : bool) (x : numst) : IO (bool * bool * scst) :=
  lcval ← (if negflg then as_llong (- n_lcval x) else mret (n_lcval x));
  _ ← (if n_c x =? EOF then mret tt else _ ← ungetc (n_c x); mret tt);
  let eof := n_c x =? EOF in
  let v := up_nchars (-1) (n_v x) in
  if (length (n_np x) =? (if negflg then 1 else 0))%nat || (length (n_np x) =? 0)%nat then mret (false, eof, v)
  else if ptr =? 0 then mret (true, eof, v)
  else
    np ← np_push 0 (n_np x);
    _ ← store_num float_bytes ptr false size lcval (rev (tail np));
    mret (true, eof, v).

Lemma num_tail_spec ptr len neg x s r (Q : bool * bool * scst -> iost -> Prop) :
  ahead s (n_c x) r -> 0 <= n_lcval x < 2 ^ 63 -> (length (n_np x) < 64)%nat -> (Nat.b2n neg <= length (n_np x))%nat ->
  (length (n_np x) <> Nat.b2n neg -> ptr = 0 \/ region s ptr (size_of len)) ->
  (forall s', sr_ok s' r ->
    if (length (n_np x) =? Nat.b2n neg)%nat then wrote s [] s' -> Q (false, bool_decide (r = []), up_nchars (-1) (n_v x)) s'
    else wrote s (if ptr =? 0 then [] else [(ptr, le_bytes (size_of len) (if neg then - n_lcval x else n_lcval x))]) s' ->
      Q (true, bool_decide (r = []), up_nchars (-1) (n_v x)) s') ->
  wpi (num_tail ptr (size_code len) neg x) Q s.
Proof.
  intros Ha Hv Hn Hneg Hp HQ. unfold num_tail. apply wpi_bind.
  apply (wpi_mono _ (fun r s' => r = (if neg then - n_lcval x else n_lcval x) /\ s' = s)).
  { destruct neg; [|by apply wpi_ret]. unfold as_llong. replace ((- 2 ^ 63 <=? _) && _) with true by lia. by apply wpi_ret. }
  intros ? ? [-> ->]. apply wpi_bind. eapply wpi_back; [done|]. intros s1 Hok Hw. cbv zeta. rewrite (ahead_EOF _ _ _ Ha).
  specialize (HQ s1 Hok) as HQ1. fold (Nat.b2n neg).
  replace ((length (n_np x) =? Nat.b2n neg)%nat || (length (n_np x) =? 0)%nat) with (length (n_np x) =? Nat.b2n neg)%nat.
  2: { destruct (Nat.eqb_spec (length (n_np x)) (Nat.b2n neg)), (Nat.eqb_spec (length (n_np x)) 0); try done. lia. }
  destruct (Nat.eqb_spec (length (n_np x)) (Nat.b2n neg)) as [E|E]; [apply wpi_ret; auto|]. specialize (Hp E).
  destruct (Z.eqb_spec ptr 0) as [->|Hne]; [apply wpi_ret; auto|]. destruct Hp as [?|Hp]; [done|].
  apply wpi_bind, np_push_ok; [done|]. apply wpi_bind. eapply store_num_spec; [done|by eapply region_wrote|].
  intros s2 Hok2 Hw2. apply wpi_ret. apply HQ; [done|]. exact (wrote_then _ _ _ [] _ Hw Hw2).
Qed.


Lemma start_base_eq conv : start_base conv = if conv =? 111 then 8 else if (conv =? 120) || (conv =? 112) || (conv =? 97) then 16 else 10.
Proof. done. Qed.

Lemma wrote_nil_trans s1 s2 s3 ws : wrote s1 [] s2 -> wrote s2 ws s3 -> wrote s1 ws s3.
Proof. intros H1 H2. exact (wrote_then _ _ _ [] _ H1 H2). Qed.

(** From the character behind the sign on *)
Lemma num_rest ptr d conv w neg np c l v s (Q : bool * bool * scst -> iost -> Prop) :
  conv ∈ [100; 105; 117; 111; 120] -> ahead s c l -> length np = Nat.b2n neg ->
  let '(b, k) := num_prefix conv w l in
  let '(ds, r) := span_digits b (w - k) (drop k l) in
  (Nat.b2n neg + k + length ds < 64)%nat -> horner b 0 ds < 2 ^ 63 ->
  ((k + length ds)%nat <> 0%nat -> ptr = 0 \/ region s ptr (size_of d)) ->
  (forall s' v', sr_ok s' r -> v' = up_nchars (Z.of_nat (k + length ds) - 1) v ->
    if (k + length ds =? 0)%nat then wrote s [] s' -> Q (false, bool_decide (r = []), v') s'
    else wrote s (if ptr =? 0 then [] else [(ptr, le_bytes (size_of d) (if neg then - horner b 0 ds else horner b 0 ds))]) s' ->
      Q (true, bool_decide (r = []), v') s') ->
  wpi (x ← rounds w conv false (mk_numst np c (start_base conv) 0 0 0 0 v); num_tail ptr (size_code d) neg x) Q s.
Proof.
  intros Hconv Ha Enp. set (x0 := mk_numst np c (start_base conv) 0 0 0 0 v).
  pose proof (fun Q => num_start conv w l x0 s Q Hconv eq_refl eq_refl eq_refl Ha) as H.
  destruct (num_prefix conv w l) as [b k] eqn:Epre. pose proof (span_digits_range b) as Hrng.
  destruct (span_digits b (w - k) (drop k l)) as [ds r] eqn:Es. intros Hk Hlt Hp HQ.
  assert (Hb : b ∈ [8; 10; 16]).
  { unfold num_prefix in Epre. destruct l as [|c0 [|c1 l0]]; repeat case_match; simplify_eq; set_solver. }
  specialize (Hrng Hb (w - k)%nat (drop k l)). rewrite Es in Hrng. cbn [fst] in Hrng.
  pose proof (horner_ge b ds 0 ltac:(set_unfold in Hb; lia) Hrng ltac:(lia)).
  apply wpi_bind, H; [done|cbn [x0 n_np]; lia|]. intros x s1 (El & En & Ev) Ha1 Hw1. cbn [x0 n_np n_v] in En, Ev.
  eapply num_tail_spec; [done|lia|lia|lia|intros Hne; destruct Hp; [lia|by left|right; by eapply region_wrote]|].
  intros s2 Hok2. rewrite En, Enp, El, Ev, up_nchars_add.
  specialize (HQ s2 _ Hok2 eq_refl). replace (Z.of_nat (k + length ds) + -1) with (Z.of_nat (k + length ds) - 1) by lia.
  destruct (Nat.eqb_spec (k + length ds) 0) as [E|E].
  - rewrite E, Nat.add_0_r, Nat.eqb_refl in *. intros Hw2. apply HQ. by eapply wrote_quiet.
  - rewrite (proj2 (Nat.eqb_neq _ _)) by lia. intros Hw2. apply HQ. by eapply wrote_nil_trans.
Qed.

Lemma sign_le l : le (match l with c :: _ => if (c =? 45) || (c =? 43) then 1%nat else 0%nat | [] => 0%nat end) (length l).
Proof. destruct l as [|c l]; [done|]. destruct (_ || _); simpl; lia. Qed.

(** The sign *)
Lemma num_sign {B} c l v s (len : Z) (k : bool -> list Z -> Z -> scst -> Z -> IO B) (Q : B -> iost -> Prop) :
  ahead s c l -> 1 <= len ->
  let neg := match l with c :: _ => c =? 45 | [] => false end in
  let sign := match l with c :: _ => if (c =? 45) || (c =? 43) then 1%nat else 0%nat | [] => 0%nat end in
  (forall np c' s', length np = Nat.b2n neg -> ahead s' c' (drop sign l) -> wrote s [] s' ->
    wpi (k neg np c' (up_nchars (Z.of_nat sign) v) (len - Z.of_nat sign)) Q s') ->
  wpi (let negflg := c =? 45 in
       np ← (if negflg then np_push c [] else mret []);
       let signed := (c =? 45) || (c =? 43) in
       c ← (if signed then getc else mret c);
       let v := if signed then up_nchars 1 v else v in
       let len := if signed then len - 1 else len in
       k negflg np c v len) Q s.
Proof.
  intros Ha Hlen neg sign HQ. cbv zeta.
  assert (En : (c =? 45) = neg) by (unfold neg; destruct l; [by destruct Ha as [-> _]|by destruct Ha as (-> & _)]).
  assert (Es : (c =? 45) || (c =? 43) = (sign =? 1)%nat).
  { unfold sign. destruct l; [by destruct Ha as [-> _]|]. destruct Ha as (-> & _). by case_match. }
  rewrite Es, En. apply wpi_bind. apply (wpi_mono _ (fun np s' => length np = Nat.b2n neg /\ s' = s)).
  { destruct neg; [apply np_push_ok; [simpl; lia|done]|by apply wpi_ret]. }
  intros np ? [Enp ->]. apply wpi_bind. unfold sign in *. destruct l as [|c0 l].
  - apply wpi_ret. specialize (HQ np c s Enp Ha (wrote_refl s)). rewrite up_nchars_0, Z.sub_0_r in HQ. exact HQ.
  - destruct ((c0 =? 45) || (c0 =? 43)).
    + cbn [Nat.eqb]. destruct Ha as (_ & _ & Hr & _). eapply wpi_getc; [by eapply sr_weaken|]. intros c1 s1 Ha1 Hw1.
      exact (HQ np c1 s1 Enp Ha1 Hw1).
    + apply wpi_ret. specialize (HQ np c s Enp Ha (wrote_refl s)). rewrite up_nchars_0, Z.sub_0_r in HQ. exact HQ.
Qed.

Definition width_of (d : sdir) : Z := if s_width d =? 0 then DEFAULT_WIDTH else s_width d.

Lemma width_pos d : 0 <= s_width d -> 1 <= width_of d.
Proof. unfold width_of, DEFAULT_WIDTH. destruct (Z.eqb_spec (s_width d) 0); lia. Qed.

Lemma innum_spec fuel ptr d v s l res :
  s_conv d ∈ [100; 105; 117; 111; 120] -> 0 <= s_width d -> conv_ref d l = Some res -> tab_ok (_sctab v) -> sr_ok s l ->
  (length l < fuel)%nat -> store_ok s ptr res ->
  wpi (innum decimal_point float_bytes getc ungetc fuel ptr (s_conv d) (width_of d)
    (size_code (s_len d)) v) (conv_done s l v ptr res) s.
Proof.
  intros Hc Hwd Href Ht Hok Hf Hst. unfold innum.
  replace (bool_decide (s_conv d ∈ [97; 101; 102; 103])) with false.
  2: { symmetry. apply bool_decide_eq_false_2. set_unfold. lia. }
  unfold conv_ref in Href. fold (width_of d) in Href. pose proof (width_pos d Hwd) as Hlen. set (len := width_of d) in *.
  rewrite (proj2 (Z.eqb_neq (s_conv d) 99)), (proj2 (Z.eqb_neq (s_conv d) 115)) in Href by (set_unfold in Hc; lia).
  cbv zeta. rewrite <- start_base_eq. apply wpi_bind. apply (skip_ws l); [done..|]. intros c s1 Ha1 Hw1. cbv iota.
  rewrite (ahead_EOF _ _ _ Ha1). pose proof (drop_ws_length l) as Hdl. set (l1 := drop_ws l) in *.
  set (v1 := if bool_decide _ then _ else _).
  unfold take_num in Href.
  apply (num_sign c l1 v1 s1 len (fun neg np c v len =>
    x ← rounds (Z.to_nat len) (s_conv d) false (mk_numst np c (start_base (s_conv d)) 0 0 0 0 v);
    num_tail ptr (size_code (s_len d)) neg x) (conv_done s l v ptr res) Ha1 Hlen).
  set (neg := match l1 with c :: _ => c =? 45 | [] => false end) in *.
  set (sign := match l1 with c :: _ => if (c =? 45) || (c =? 43) then 1%nat else 0%nat | [] => 0%nat end) in *.
  assert (Hsg : (sign <= length l1)%nat) by apply sign_le.
  intros np c' s2 Enp Ha2 Hw2. replace (Z.to_nat (len - Z.of_nat sign)) with (Z.to_nat len - sign)%nat by lia.
  pose proof (fun Q => num_rest ptr (s_len d) (s_conv d) (Z.to_nat len - sign) neg np c' (drop sign l1) (up_nchars (Z.of_nat sign) v1) s2 Q Hc Ha2 Enp) as H.
  pose proof (num_prefix_length (s_conv d) (Z.to_nat len - sign) (drop sign l1)) as Hkl.
  destruct (num_prefix (s_conv d) (Z.to_nat len - sign) (drop sign l1)) as [b k].
  pose proof (span_digits_length b (Z.to_nat len - sign - k) (drop k (drop sign l1))) as Hdr.
  destruct (span_digits b (Z.to_nat len - sign - k) (drop k (drop sign l1))) as [ds r].
  cbn [nr_neg nr_val nr_any nr_kept nr_rest snd] in *. rewrite !length_drop in *.
  destruct ((64 <=? _)%nat || (2 ^ 63 <=? _)) eqn:Edom; [done|]. apply orb_false_iff in Edom as [Edk%Nat.leb_gt Edv%Z.leb_gt].
  fold (Nat.b2n neg) in Edk. pose proof (wrote_quiet _ _ _ _ Hw1 Hw2) as Hw12. apply H; [lia|lia| |].
  { intros Hne. rewrite (proj2 (Nat.eqb_neq _ _) Hne) in Href. cbn [negb] in Href. injection Href as <-.
    cbn [store_ok] in Hst. rewrite length_le_bytes in Hst. destruct Hst as [?|[_ ?]]; [by left|right]. by eapply region_wrote. }
  intros s3 v3 Hok3 Ev. destruct (Nat.eqb_spec (k + length ds) 0) as [E0|E0]; cbn [negb] in Href; injection Href as <-.
  - intros Hw3. split_and!; [|done|by eapply wrote_quiet]. cbn. f_equal. by destruct r.
  - intros Hw3. split_and!; [done| |done|by eapply wrote_nil_trans]. cbn [snd]. rewrite Ev. unfold v1.
    rewrite bool_decide_eq_false_2 by (intros E; apply (f_equal length) in E; simpl in E; lia).
    rewrite !up_nchars_add. f_equal. lia.
Qed.


(** ** Strings *)

Fixpoint span (stop : Z -> bool) (w : nat) l : list Z * list Z :=
  match w, l with
  | S w', c :: l' => if stop c then ([], l) else let '(t, r) := span stop w' l' in (c :: t, r)
  | _, _ => ([], l)
  end.

Lemma span_word_span w : forall l, span_word w l = span is_space w l.
Proof. induction w as [|w IH]; intros [|c l]; [done..|]. cbn [span_word span]. by rewrite IH. Qed.

Lemma span_all w : forall l, span (fun _ => false) w l = (take w l, drop w l).
Proof. induction w as [|w IH]; intros [|c l]; [done..|]. cbn [span take drop]. by rewrite IH. Qed.

Lemma span_length stop w : forall l, let '(t, r) := span stop w l in length l = (length t + length r)%nat.
Proof.
  induction w as [|w IH]; intros l; [by destruct l|]. destruct l as [|c l]; [done|]. cbn [span].
  destruct (stop c); [done|]. specialize (IH l). destruct (span stop w l). simpl. lia.
Qed.

Lemma wrote_more s s1 s' p bs bs' : wrote s [(p, bs)] s1 -> wrote s1 [(p + Z.of_nat (length bs), bs')] s' -> wrote s [(p, bs ++ bs')] s'.
Proof.
  intros H1 H2 a Ha. destruct (wrote_then _ _ _ _ _ H1 H2 a Ha) as [? E]. split; [done|]. rewrite E. cbn.
  by rewrite write_bytes_app.
Qed.

(** The store that a string makes *)
Definition stored (ptr : Z) (t : list Z) : list (Z * list Z) := if ptr =? 0 then [] else [(ptr, t)].

(** How the loop ends: at a character that is given back, or when the width is used up *)
Definition str_stop s (x : strst) v (n : Z) r : Prop :=
  ahead s (t_ch x) r /\ 0 < t_len x /\ t_v x = up_nchars n v \/
  sr_ok s r /\ t_len x = 0 /\ t_ch x <> EOF /\ 0 < n /\ t_v x = up_nchars (n - 1) v.

(** One character is stored. *)
Lemma str_store ptr b c l s (Q : unit -> iost -> Prop) :
  0 <= b < 256 -> ahead s c l -> (ptr = 0 \/ 0 < ptr /\ place s ptr) ->
  (forall s', ahead s' c l -> wrote s (stored ptr [b]) s' -> Q tt s') ->
  wpi (if ptr =? 0 then mret tt else stb ptr b) Q s.
Proof.
  intros Hb Ha Hp HQ. unfold stored in HQ. destruct (Z.eqb_spec ptr 0) as [->|Hne].
  - apply wpi_ret, HQ; [done|apply wrote_refl].
  - destruct Hp as [?|[_ [Hp Hm]]]; [done|]. apply wpi_stb; [done|].
    replace (byte b) with b by (unfold byte; by rewrite Z.mod_small). apply HQ; [by apply ahead_store|by apply wrote_store].
Qed.

Lemma stored_cons s s1 s2 ptr b t :
  wrote s (stored ptr [b]) s1 -> wrote s1 (stored (if ptr =? 0 then 0 else ptr + 1) t) s2 -> 0 <= ptr -> wrote s (stored ptr (b :: t)) s2.
Proof.
  unfold stored. intros H1 H2 Hp. destruct (Z.eqb_spec ptr 0) as [->|Hne]; [by eapply wrote_quiet|].
  rewrite (proj2 (Z.eqb_neq (ptr + 1) 0)) in H2 by lia. by eapply wrote_cons.
Qed.

(** The loop ends before a character. *)
Lemma str_none type ignstp fuel x s (Q : strst + scst -> iost -> Prop) :
  (t_ch x =? EOF) || sc_has (t_v x) (t_ch x) ignstp = true -> Q (inl x) s -> wpi (str_loop c_realloc getc (S fuel) type ignstp false x) Q s.
Proof. intros E HQ. cbn [str_loop]. rewrite E. by apply wpi_ret. Qed.

(** A character is taken. *)
Lemma str_char type ignstp fuel c l x s (Q : strst + scst -> iost -> Prop) :
  ahead s (t_ch x) (c :: l) -> sc_has (t_v x) c ignstp = false -> (t_ptr x = 0 \/ 0 < t_ptr x /\ place s (t_ptr x)) ->
  let ptr := if t_ptr x =? 0 then 0 else t_ptr x + 1 in
  (forall s', wrote s (stored (t_ptr x) [c]) s' ->
    if t_len x - 1 <? 1 then sr_ok s' l -> Q (inl (mk_strst ptr (t_orig x) (t_len x - 1) (t_size x) c true (t_v x))) s'
    else forall c', ahead s' c' l -> wpi (str_loop c_realloc getc fuel type ignstp false
      (mk_strst ptr (t_orig x) (t_len x - 1) (t_size x) c' true (up_nchars 1 (t_v x)))) Q s') ->
  wpi (str_loop c_realloc getc (S fuel) type ignstp false x) Q s.
Proof.
  intros Ha Hs Hp ptr HQ. pose proof Ha as (Ec & Hc & _). cbn [str_loop]. rewrite Ec in Ha |- *.
  rewrite Hs, (proj2 (Z.eqb_neq c EOF)) by (unfold EOF; lia). cbn [orb]. cbv zeta. apply wpi_bind.
  eapply str_store; [done|exact Ha|done|]. intros s1 (_ & _ & Hr & _) Hw. apply sr_weaken in Hr. cbn [andb]. fold ptr.
  destruct (t_len x - 1 <? 1) eqn:E; [apply wpi_ret; by apply HQ|]. apply wpi_bind. eapply wpi_getc; [done|].
  intros c' s2 Ha2 Hw2. by apply (HQ s2 (wrote_quiet _ _ _ _ Hw Hw2)).
Qed.

Lemma str_loop_spec type ignstp stop : forall w l fuel x s (Q : strst + scst -> iost -> Prop),
  (forall c, 0 <= c < 256 -> sc_has (t_v x) c ignstp = stop c) -> ahead s (t_ch x) l -> t_len x = Z.of_nat (S w) ->
  (length l < fuel)%nat ->
  let '(t, r) := span stop (S w) l in
  (t_ptr x = 0 \/ 0 < t_ptr x /\ region s (t_ptr x) (length t)) ->
  (forall x' s', t_ptr x' = (if t_ptr x =? 0 then 0 else t_ptr x + Z.of_nat (length t)) ->
    t_matched x' = t_matched x || bool_decide (t <> []) ->
    str_stop s' x' (t_v x) (Z.of_nat (length t)) r -> wrote s (stored (t_ptr x) t) s' -> Q (inl x') s') ->
  wpi (str_loop c_realloc getc fuel type ignstp false x) Q s.
Proof.
  induction w as [w IH] using lt_wf_ind. intros l fuel x s Q Hstop Ha Elen Hf. destruct fuel as [|fuel]; [lia|].
  assert (Hnone : (t_ch x =? EOF) || sc_has (t_v x) (t_ch x) ignstp = true ->
    (forall x' s', t_ptr x' = (if t_ptr x =? 0 then 0 else t_ptr x + 0) -> t_matched x' = t_matched x || false ->
      str_stop s' x' (t_v x) 0 l -> wrote s (stored (t_ptr x) []) s' -> Q (inl x') s') ->
    wpi (str_loop c_realloc getc (S fuel) type ignstp false x) Q s).
  { intros E HQ. eapply str_none; [done|]. apply HQ; [|by rewrite orb_false_r| |].
    - destruct (Z.eqb_spec (t_ptr x) 0); lia.
    - left. rewrite up_nchars_0. split_and!; [done|lia|done].
    - unfold stored. destruct (t_ptr x =? 0); apply wrote_refl. }
  destruct l as [|c l]; [destruct Ha as [Ec Ha]; intros _; apply Hnone; by rewrite Ec|].
  pose proof Ha as (Ec & Hc & Hr & _). cbn [span]. pose proof (Hstop c Hc) as Est.
  destruct (stop c) eqn:Es; [intros _; apply Hnone; by rewrite Ec, Est, orb_true_r|]. clear Hnone.
  destruct (span stop w l) as [t r] eqn:Esp. intros Hp HQ. cbn [length] in *.
  assert (Hptr : forall n, 0 <= n -> (if (if t_ptr x =? 0 then 0 else t_ptr x + 1) =? 0 then 0 else (if t_ptr x =? 0 then 0 else t_ptr x + 1) + n) =
    if t_ptr x =? 0 then 0 else t_ptr x + (n + 1)).
  { intros n Hn. destruct (Z.eqb_spec (t_ptr x) 0); [done|]. rewrite (proj2 (Z.eqb_neq _ _)) by lia. lia. }
  eapply str_char; [done|done| |].
  { destruct Hp as [?|[? Hp]]; [by left|right]. split; [done|]. apply Hp. lia. }
  intros s1 Hw1. destruct (Z.ltb_spec (t_len x - 1) 1) as [Hl|Hl].
  - replace w with 0%nat in Esp by lia. assert (E : t = [] /\ r = l) by (destruct l; by injection Esp as <- <-). destruct E as [-> ->].
    intros Hok. apply HQ; [|by rewrite orb_true_r| |done].
    + done.
    + right. cbn [t_ch t_len t_v]. split_and!; [done|lia|unfold EOF; lia|done|by rewrite up_nchars_0].
  - destruct w as [|w]; [lia|]. intros c1 Ha1.
    specialize (IH w ltac:(lia) l fuel (mk_strst (if t_ptr x =? 0 then 0 else t_ptr x + 1) (t_orig x) (t_len x - 1) (t_size x) c1 true (up_nchars 1 (t_v x))) s1 Q).
    cbn [t_v t_ch t_len t_ptr t_matched] in IH. rewrite Esp in IH. apply IH; [done|done|lia|lia| |].
    + destruct Hp as [E|[? Hp]]; [left; by rewrite E|right]. rewrite (proj2 (Z.eqb_neq (t_ptr x) 0)) by lia. split; [lia|].
      eapply region_wrote; [done|]. intros a Ha'. apply Hp. lia.
    + intros x' s2 Ep Em Hs Hw2. apply HQ; [|by rewrite orb_true_r, Em| |].
      * rewrite Ep, Hptr by lia. destruct (t_ptr x =? 0); lia.
      * unfold str_stop in *. rewrite !up_nchars_add in Hs. destruct Hs as [(? & ? & ->)|(? & ? & ? & ? & ->)]; [left|right]; split_and!; try done; try lia; f_equal; lia.
      * eapply stored_cons; [done|done|]. destruct Hp; lia.
Qed.


Lemma str_end_spec type arg start x v n r s (Q : bool * bool * scst -> iost -> Prop) :
  str_stop s x v n r -> (t_ptr x = 0 \/ t_matched x = false \/ type = 99 \/ 0 < t_ptr x /\ place s (t_ptr x)) ->
  (forall s' eof, sr_ok s' r -> (0 < t_len x -> eof = bool_decide (r = [])) ->
    wrote s (if t_matched x && negb (type =? 99) then stored (t_ptr x) [0] else []) s' ->
    Q (t_matched x, eof, up_nchars (n - 1) v) s') ->
  wpi (str_end c_realloc ungetc type false arg start x) Q s.
Proof.
  intros Hs Hp HQ. unfold str_end. cbv zeta. apply wpi_bind.
  apply (wpi_mono _ (fun _ s1 => sr_ok s1 r /\ wrote s [] s1 /\ (0 < t_len x -> (t_ch x =? EOF) = bool_decide (r = [])) /\
    (if (t_ch x =? EOF) || (0 <? t_len x) then up_nchars (-1) (t_v x) else t_v x) = up_nchars (n - 1) v)).
  { destruct Hs as [(Ha & Hl & Ev)|(Hok & El & Hne & _ & Ev)].
    - rewrite (proj2 (Z.ltb_lt 0 (t_len x))), andb_true_r, orb_true_r by done.
      replace (if negb (t_ch x =? EOF) then _ ← ungetc (t_ch x); mret tt else mret tt) with
        (if t_ch x =? EOF then mret tt else _ ← ungetc (t_ch x); mret tt) by by destruct (t_ch x =? EOF).
      eapply wpi_back; [done|]. intros s' ? ?. split_and!; [done|done|intros _; by eapply ahead_EOF|].
      by rewrite Ev, up_nchars_add.
    - rewrite El, (proj2 (Z.eqb_neq _ _) Hne). apply wpi_ret. split_and!; [done|apply wrote_refl|lia|done]. }
  intros _ s1 (Hok1 & Hw1 & Heof & Ev). rewrite Ev. destruct (t_matched x); [|apply wpi_ret; by apply HQ].
  cbn [andb] in HQ. unfold stored in HQ. destruct (Z.eqb_spec (t_ptr x) 0) as [E|E]; cbn [negb andb].
  { apply wpi_bind, wpi_ret, wpi_ret. apply HQ; [done|done|]. by destruct (negb (type =? 99)). }
  destruct (Z.eqb_spec type 99) as [E9|E9]; cbn [negb] in HQ |- *.
  { apply wpi_bind, wpi_ret, wpi_ret. by apply HQ. }
  destruct Hp as [?|[?|[?|[_ Hp]]]]; try done. apply wpi_bind.
  pose proof (place_wrote _ _ _ _ Hw1 Hp) as [Hp1 Hm1]. apply wpi_stb; [done|]. apply wpi_ret.
  apply HQ; [by apply (sr_store s1 (t_ptr x) (byte 0) Hp1)|done|]. eapply wrote_nil_trans; [done|]. by apply (wrote_store s1).
Qed.

(** The loop and what is behind it *)
Lemma str_rest type ignstp stop arg start w l fuel ptr c v s (Q : bool * bool * scst -> iost -> Prop) :
  0 <= ptr -> (forall c, 0 <= c < 256 -> sc_has v c ignstp = stop c) -> ahead s c l -> (length l < fuel)%nat ->
  let '(t, r) := span stop (S w) l in
  let bs := if type =? 99 then t else t ++ [0] in
  (t <> [] -> ptr = 0 \/ 0 < ptr /\ region s ptr (length bs)) ->
  (forall s' eof v', sr_ok s' r -> (t = [] -> eof = bool_decide (r = [])) -> v' = up_nchars (Z.of_nat (length t) - 1) v ->
    if bool_decide (t <> []) then wrote s (stored ptr bs) s' -> Q (true, eof, v') s' else wrote s [] s' -> Q (false, eof, v') s') ->
  wpi (r ← str_loop c_realloc getc fuel type ignstp false (mk_strst ptr ptr (Z.of_nat (S w)) BUFFER_INCREMENT c false v);
    match r with inr v => mret (false, false, v) | inl x => str_end c_realloc ungetc type false arg start x end) Q s.
Proof.
  intros Hp0 Hstop Ha Hf. pose proof (str_loop_spec type ignstp stop w l fuel (mk_strst ptr ptr (Z.of_nat (S w)) BUFFER_INCREMENT c false v) s) as H.
  cbn [t_v t_ch t_len t_ptr t_matched orb] in H. destruct (span stop (S w) l) as [t r]. intros bs Hp HQ.
  assert (Hlen : (length t <= length bs)%nat) by (unfold bs; destruct (type =? 99); rewrite ?length_app; lia).
  apply wpi_bind, H; [done|done|done|done| |].
  { destruct (Z.eqb_spec ptr 0); [by left|right]. split; [lia|]. destruct t as [|b t]; [intros a ?; simpl in *; lia|].
    destruct Hp as [?|[_ Hp]]; [done|done|]. intros a Ha'. apply Hp. lia. }
  intros x s1 Ep Em Hs Hw. eapply str_end_spec; [done| |].
  { rewrite Ep, Em. destruct (Z.eqb_spec ptr 0); [by left|right]. destruct t as [|b t]; [by left|right].
    destruct (Z.eqb_spec type 99); [by left|right]. destruct Hp as [?|[? Hp]]; [done|done|]. split; [lia|].
    eapply place_wrote; [done|]. apply Hp. unfold bs. rewrite length_app. cbn [length]. lia. }
  intros s2 eof Hok2 Heof Hw2. rewrite Em, Ep in Hw2. pose proof (fun H => HQ s2 eof _ Hok2 H eq_refl) as HQ2.
  assert (Ht : t = [] -> eof = bool_decide (r = [])).
  { intros ->. apply Heof. by destruct Hs as [(_ & ? & _)|(_ & _ & _ & ? & _)]. }
  specialize (HQ2 Ht). rewrite Em. destruct t as [|b t].
  - apply HQ2. eapply wrote_quiet; [|done]. unfold stored in Hw. destruct (ptr =? 0); exact Hw.
  - apply HQ2. cbn in Hw2. unfold stored, bs in *.
    destruct (Z.eqb_spec ptr 0) as [->|Hne]; [|rewrite (proj2 (Z.eqb_neq _ 0)) in Hw2 by lia].
    + eapply wrote_quiet; [done|]. by destruct (negb (type =? 99)).
    + destruct (type =? 99); cbn [negb] in Hw2; [by eapply wrote_quiet|by eapply wrote_more].
Qed.


(** %c *)
Lemma char_spec fuel ptr d v s l res :
  s_conv d = 99 -> 0 <= s_width d -> conv_ref d l = Some res -> tab_ok (_sctab v) -> sr_ok s l ->
  (length l < fuel)%nat -> 0 <= ptr -> store_ok s ptr res ->
  wpi (instr c_realloc getc ungetc fuel ptr 99 (width_of d) false v) (conv_done s l v ptr res) s.
Proof.
  intros E Hwd Href Ht Hok Hf Hp0 Hst. unfold instr. cbv zeta. apply wpi_bind, wpi_ret. cbn [andb].
  unfold conv_ref in Href. fold (width_of d) in Href. pose proof (width_pos d Hwd) as Hlen. set (len := width_of d) in *. rewrite E in Href.
  change (99 =? 99) with true in *. change (99 =? 115) with false. change (99 =? 91) with false. cbn [andb] in *. cbv iota.
  destruct fuel as [|fuel]; [lia|]. apply wpi_bind. eapply skip_none; [done|]. intros c s1 Ha1 Hw1. cbv iota.
  set (n := if len =? DEFAULT_WIDTH then 1 else len).
  assert (En : (if s_width d =? 0 then 1 else if s_width d =? DEFAULT_WIDTH then 1 else s_width d) = n).
  { unfold n, len, width_of. destruct (s_width d =? 0); [by rewrite Z.eqb_refl|done]. }
  rewrite En in Href. assert (Hn : 1 <= n) by (unfold n; destruct (len =? DEFAULT_WIDTH); lia).
  replace n with (Z.of_nat (S (Z.to_nat (n - 1)))) by lia.
  pose proof (fun Q => str_rest 99 0 (fun _ => false) ptr (nchars (up_nchars 1 v) - 1) (Z.to_nat (n - 1)) l (S fuel) ptr c (up_nchars 1 v) s1 Q
    Hp0 (fun c _ => sc_has_0 _ c) Ha1 Hf) as H.
  replace (S (Z.to_nat (n - 1))) with (Z.to_nat n) in H |- * by lia. rewrite span_all in H. cbv zeta in H. apply H.
  { intros Hne. destruct l as [|b l]; [by rewrite take_nil in Hne|]. injection Href as <-. destruct Hst as [?|[? ?]]; [by left|right].
    split; [done|]. by eapply region_wrote. }
  intros s2 eof v' Hok2 Heof -> . destruct l as [|b l].
  - rewrite take_nil, drop_nil in *. injection Href as <-. intros Hw2. split_and!; [|done|by eapply wrote_quiet].
    cbn. f_equal. by apply Heof.
  - injection Href as <-. rewrite bool_decide_eq_true_2.
    2: { destruct (Z.to_nat n) eqn:?; [lia|]. done. }
    intros Hw2. split_and!; [done| |done|by eapply wrote_nil_trans]. cbn [snd].
    rewrite up_nchars_add, length_take, length_drop. f_equal. lia.
Qed.

(** %s *)
Lemma word_spec fuel ptr d v s l res :
  s_conv d = 115 -> 0 <= s_width d -> conv_ref d l = Some res -> tab_ok (_sctab v) -> sr_ok s l ->
  (length l < fuel)%nat -> 0 <= ptr -> store_ok s ptr res ->
  wpi (instr c_realloc getc ungetc fuel ptr 115 (width_of d) false v) (conv_done s l v ptr res) s.
Proof.
  intros E Hwd Href Ht Hok Hf Hp0 Hst. unfold instr. cbv zeta. apply wpi_bind, wpi_ret. cbn [andb].
  unfold conv_ref in Href. fold (width_of d) in Href. pose proof (width_pos d Hwd) as Hlen. set (len := width_of d) in *. rewrite E in Href.
  change (115 =? 99) with false in *. change (115 =? 115) with true in *. change (115 =? 91) with false. cbn [andb] in *. cbv iota in *.
  apply wpi_bind. apply (skip_ws l); [done..|]. intros c s1 Ha1 Hw1. cbv iota. pose proof (drop_ws_length l) as Hdl.
  set (v1 := up_nchars _ v). assert (Ht1 : forall c, 0 <= c < 256 -> sc_has v1 c SPC = is_space c) by (intros; by apply sc_has_SPC).
  replace len with (Z.of_nat (S (Z.to_nat (len - 1)))) by lia.
  pose proof (fun Q => str_rest 115 SPC is_space ptr (nchars v1 - 1) (Z.to_nat (len - 1)) (drop_ws l) fuel ptr c v1 s1 Q Hp0 Ht1 Ha1 ltac:(lia)) as H.
  replace (S (Z.to_nat (len - 1))) with (Z.to_nat len) in H |- * by lia. rewrite span_word_span in Href.
  pose proof (span_length is_space (Z.to_nat len) (drop_ws l)) as Hsl.
  destruct (span is_space (Z.to_nat len) (drop_ws l)) as [t r] eqn:Esp. apply H.
  { intros Hne. destruct t as [|b t]; [done|]. injection Href as <-. destruct Hst as [?|[? ?]]; [by left|right].
    split; [done|]. by eapply region_wrote. }
  intros s2 eof v' Hok2 Heof -> . destruct t as [|b t].
  - injection Href as <-. intros Hw2. split_and!; [|done|by eapply wrote_quiet]. cbn. f_equal. rewrite Heof by done.
    apply bool_decide_eq_true_2. destruct (drop_ws l) as [|b l1] eqn:Ed; [destruct (Z.to_nat len); by injection Esp|].
    pose proof (drop_ws_head _ _ _ Ed) as Hb. destruct (Z.to_nat len) eqn:?; [lia|]. cbn [span] in Esp. rewrite Hb in Esp.
    by destruct (span is_space _ l1).
  - injection Href as <-. intros Hw2. split_and!; [done| |done|by eapply wrote_nil_trans]. cbn [snd]. unfold v1.
    rewrite up_nchars_add. f_equal. lia.
Qed.

End Conv.
