(* ===== verification/DoscanLoop.v ===== *)
(** * scanf: the format

    The directives are read as they were written, and the loop over the format does what the
    reference says. *)

From stdpp Require Import base gmap list numbers.
From Stdlib Require Import ZArith Lia.
From S2P Require Import Prelude Ctype MemFuns Strings Strto NMalloc NmRep Stdio StdioInv StdioWr.
From S2P Require Import Doprnt DoprntSpec DoprntConv DoprntLoop Doscan DoscanSpec DoscanConv.

Open Scope Z_scope.
Open Scope c_scope.

Lemma take_num_rest conv w l : (length (nr_rest (take_num conv w l)) <= length l)%nat.
Proof.
  unfold take_num. cbv zeta. generalize (match l with c :: _ => if (c =? 45) || (c =? 43) then 1%nat else 0%nat | [] => 0%nat end).
  intros sg. destruct (num_prefix conv (w - sg) (drop sg l)) as [b k].
  pose proof (span_digits_length b (w - sg - k) (drop k (drop sg l))) as Hs. destruct (span_digits b (w - sg - k) (drop k (drop sg l))) as [ds r].
  rewrite !length_drop in Hs. cbn [nr_rest]. lia.
Qed.

Lemma conv_ref_rest d l res : conv_ref d l = Some res ->
  match res with CFail _ r | CDone _ r => (length r <= length l)%nat end.
Proof.
  unfold conv_ref. pose proof (drop_ws_length l) as Hd. cbv zeta. set (w := Z.to_nat (if s_width d =? 0 then DEFAULT_WIDTH else _)).
  destruct (s_conv d =? 99).
  { destruct l as [|b l]; intros [= <-]; [done|]. rewrite length_drop. lia. }
  destruct (s_conv d =? 115).
  { rewrite span_word_span. pose proof (span_length is_space w (drop_ws l)) as Hs.
    destruct (span is_space w (drop_ws l)) as [[|b t] r]; intros E; injection E as <-; simpl in Hs; lia. }
  pose proof (take_num_rest (s_conv d) w (drop_ws l)). destruct (_ || _); [done|].
  destruct (nr_any _); intros E; injection E as <-; lia.
Qed.

Section Dir.
Context {SA : StdioApi}.
Implicit Types (s : iost).

(** ** A directive *)

Lemma width_digits_spec ds c : 0 <= c < 128 -> ~ 48 <= c <= 57 -> forall fuel n p s (Q : Z * Z * Z -> iost -> Prop),
  Forall (fun d => 0 <= d < 10) ds -> bytes_at (i_mem s) p ((Z.add 48 <$> ds) ++ [c]) -> (length ds < fuel)%nat ->
  0 <= n -> foldl (fun a d => a * 10 + d) n ds < 2 ^ 31 ->
  Q (foldl (fun a d => a * 10 + d) n ds, c, p + Z.of_nat (length ds) + 1) s ->
  wpi (width_digits fuel n (hd 0 ((Z.add 48 <$> ds) ++ [c])) (p + 1)) Q s.
Proof.
  intros Hc Hnd. induction ds as [|d ds IH]; intros fuel n p s Q Hd Hat Hf Hn Hlt HQ; (destruct fuel as [|fuel]; [simpl in Hf; lia|]);
    cbn [width_digits fmap list_fmap app hd].
  - rewrite dec_digit_spec by lia. replace ((48 <=? c) && (c <=? 57)) with false by lia. apply wpi_ret. cbn [foldl length] in HQ.
    by rewrite Z.add_0_r in HQ.
  - apply Forall_cons_1 in Hd as [Hd Hds]. rewrite dec_digit_spec by lia. replace ((48 <=? 48 + d) && (48 + d <=? 57)) with true by lia.
    cbn [foldl] in Hlt, HQ. pose proof (horner_mono ds (n * 10 + d) Hds ltac:(lia)). apply wpi_bind.
    replace (n * 10 + (48 + d) - 48) with (n * 10 + d) by lia.
    unfold as_int. replace ((- 2 ^ 31 <=? n * 10 + d) && (n * 10 + d <? 2 ^ 31)) with true by lia. apply wpi_ret.
    cbn [fmap list_fmap app] in Hat. apply bytes_at_cons in Hat as [_ Hat]. apply wpi_bind.
    assert (Hb : i_mem s !! (p + 1) = Some (hd 0 ((Z.add 48 <$> ds) ++ [c])) /\ 0 <= hd 0 ((Z.add 48 <$> ds) ++ [c]) < 128).
    { destruct ds as [|d' ds]; apply bytes_at_cons in Hat as [? _]; [done|]. apply Forall_cons_1 in Hds as [? _]. split; [done|].
      cbn [fmap list_fmap app hd]. lia. }
    eapply wpi_ldc; [apply Hb|apply Hb|]. apply IH; [done|done|simpl in Hf; lia|lia|done|].
    cbn [length] in HQ. by replace (p + 1 + Z.of_nat (length ds) + 1) with (p + Z.of_nat (S (length ds)) + 1) by lia.
Qed.

(** The width as it was written *)
Definition show_w (w : Z) : list Z := if w =? 0 then [] else dec w.

Lemma show_w_spec w : 0 <= w < 2 ^ 31 -> exists ds, show_w w = Z.add 48 <$> ds /\ Forall (fun d => 0 <= d < 10) ds /\
  foldl (fun a d => a * 10 + d) 0 ds = w.
Proof.
  intros Hw. unfold show_w. destruct (Z.eqb_spec w 0) as [->|]; [by exists []|].
  destruct (dec_spec w) as (ds & (Hd & Hv & _) & E); [lia|]. by exists ds.
Qed.

(** The length: the characters that may start one are not conversions. *)
Lemma scan_size_spec fuel len conv p s tab (Q : Z * bool * Z * Z * list Z -> iost -> Prop) :
  conv ∈ [100; 105; 117; 111; 120; 99; 115; 110] -> bytes_at (i_mem s) p (show_slen len ++ [conv]) ->
  Q (size_code len, false, conv, p + Z.of_nat (length (show_slen len)) + 1, tab) s ->
  wpi (scan_size fuel (hd 0 (show_slen len ++ [conv])) (p + 1) tab) Q s.
Proof.
  intros Hc Hat HQ. assert (Hr : 0 <= conv < 128) by (set_unfold in Hc; lia).
  assert (Hne : forall x, x ∈ [108; 104; 76; 106; 122; 116; 109; 91] -> (conv =? x) = false).
  { intros x Hx. apply Z.eqb_neq. set_unfold in Hc. set_unfold in Hx. lia. }
  assert (Hld : forall q b (Q' : Z -> iost -> Prop), i_mem s !! q = Some b -> 0 <= b < 128 -> Q' b s -> wpi (ldc q) Q' s).
  { intros. by eapply wpi_ldc. }
  unfold scan_size. destruct len; cbn [show_slen app hd length] in *; repeat (apply bytes_at_cons in Hat as [?Hb Hat]);
    rewrite ?Z.add_0_r in HQ.
  { by rewrite !Hne by set_solver. }
  all: repeat match goal with |- context [?a =? ?b] => let v := eval vm_compute in (a =? b) in
         lazymatch v with true => change (a =? b) with true | false => change (a =? b) with false end end; cbn [orb]; cbv iota.
  all: apply wpi_bind; eapply Hld; [eassumption|lia|].
  all: try (rewrite Hne by set_solver); try (apply wpi_ret; exact HQ).
  all: rewrite Z.eqb_refl; apply wpi_bind; (eapply Hld; [eassumption|lia|]); apply wpi_ret; 
    by replace (p + 1 + 2) with (p + Z.of_nat 2 + 1) by lia.
Qed.

Definition scan_convs : list Z := [100; 105; 117; 111; 120; 99; 115; 110].

(** What is behind the width *)
Definition show_end (d : sdir) : list Z := show_slen (s_len d) ++ [s_conv d].

Lemma show_end_hd d : s_conv d ∈ scan_convs -> exists c r, show_end d = c :: r /\ 0 <= c < 128 /\ ~ 48 <= c <= 57 /\ c <> 36 /\ c <> 42 /\ c <> 37.
Proof.
  intros Hc. unfold show_end. set_unfold in Hc. destruct (s_len d); cbn [show_slen app]; eexists _, _; (split; [done|]); lia.
Qed.

Lemma show_sdir_eq d : show_sdir d = (if s_star d then [42] else []) ++ show_w (s_width d) ++ show_end d.
Proof. done. Qed.

(** The width, up to the character behind it *)
Lemma scan_width fuel d p s (Q : Z * Z * Z -> iost -> Prop) :
  0 <= s_width d < 2 ^ 31 -> s_conv d ∈ scan_convs -> bytes_at (i_mem s) p (show_w (s_width d) ++ show_end d) ->
  (length (show_w (s_width d)) < fuel)%nat ->
  Q (s_width d, hd 0 (show_end d), p + Z.of_nat (length (show_w (s_width d))) + 1) s ->
  wpi (width_digits fuel 0 (hd 0 (show_w (s_width d) ++ show_end d)) (p + 1)) Q s.
Proof.
  intros Hw Hc Hat Hf HQ. destruct (show_end_hd d Hc) as (c & r & E & Hr & Hd & _). rewrite E in *. cbn [hd] in HQ.
  destruct (show_w_spec (s_width d) Hw) as (ds & Ew & Hds & Ev). rewrite Ew, length_fmap in *.
  replace (hd 0 ((Z.add 48 <$> ds) ++ c :: r)) with (hd 0 ((Z.add 48 <$> ds) ++ [c])) by by destruct ds.
  apply (width_digits_spec ds c Hr Hd); [done| |done|lia|lia|by rewrite Ev].
  eapply bytes_at_prefix; [reflexivity|reflexivity|exact Hat].
Qed.

Lemma scan_repeat_spec fuel d p ptrs ptr ptrs' al s (Q : Z * Z * Z * Z * sva -> iost -> Prop) :
  0 <= s_width d < 2 ^ 31 -> s_conv d ∈ scan_convs -> bytes_at (i_mem s) p (show_sdir d) ->
  (length (show_sdir d) < fuel)%nat -> (if s_star d then ptr = 0 /\ ptrs' = ptrs else ptrs = ptr :: ptrs') ->
  Q (s_width d, hd 0 (show_end d), p + Z.of_nat (length (show_sdir d) - length (show_end d)) + 1, ptr, mk_sva ptrs' al false) s ->
  wpi (scan_repeat fuel true (hd 0 (show_sdir d)) (p + 1) 0 (mk_sva ptrs al false)) Q s.
Proof.
  intros Hw Hc Hat Hf Hp HQ. destruct (show_end_hd d Hc) as (c & r & Ee & Hr & Hd & H36 & H42 & _).
  destruct fuel as [|fuel]; [lia|]. cbn [scan_repeat]. rewrite show_sdir_eq in *.
  assert (H36' : forall (m : IO (Z * Z * Z * Z * sva)) (x : IO (Z * Z * Z * Z * sva)), wpi m Q s -> wpi (if hd 0 (show_end d) =? 36 then x else m) Q s).
  { intros m x Hm. rewrite Ee. cbn [hd]. by rewrite (proj2 (Z.eqb_neq c 36)). }
  set (body := show_w (s_width d) ++ show_end d) in *.
  assert (Hb : 0 <= hd 0 body < 128 /\ hd 0 body <> 42 /\ exists r', body = hd 0 body :: r').
  { unfold body. destruct (show_w_spec _ Hw) as (ds & -> & Hds & _). destruct ds as [|x ds]; cbn [fmap list_fmap app hd].
    - rewrite Ee. cbn [hd]. eauto.
    - apply Forall_cons_1 in Hds as [? _]. split_and!; [lia..|eauto]. }
  destruct Hb as (Hb & Hb42 & r' & Eb). destruct (s_star d).
  - destruct Hp as [-> ->]. cbn [app hd] in Hat |- *. change (42 =? 42) with true. cbn [negb andb]. apply bytes_at_cons in Hat as [_ Hat].
    apply wpi_bind, wpi_bind. eapply wpi_ldc; [|exact Hb|].
    { rewrite Eb in Hat. by apply bytes_at_cons in Hat as [? _]. }
    apply wpi_ret. cbv iota. apply wpi_bind. cbn [length app] in Hf, HQ. apply (scan_width fuel d (p + 1)); [done..| |].
    { unfold body in Hf. rewrite length_app, Ee in Hf. cbn [length] in Hf. lia. }
    cbv iota. apply H36', wpi_ret. unfold body in HQ. rewrite length_app in HQ.
    by replace (p + 1 + Z.of_nat (length (show_w (s_width d))) + 1) with
      (p + Z.of_nat (S (length (show_w (s_width d)) + length (show_end d)) - length (show_end d)) + 1) by lia.
  - subst ptrs. cbn [app] in *. rewrite (proj2 (Z.eqb_neq (hd 0 body) 42)) by done. cbn [negb andb].
    apply wpi_bind, wpi_bind, wpi_ret, wpi_ret. cbv iota. apply wpi_bind. apply (scan_width fuel d p); [done..| |].
    { unfold body in Hf. rewrite length_app, Ee in Hf. cbn [length] in Hf. lia. }
    cbv iota. apply H36', wpi_ret. cbn [sv_local sv_caller sv_arg_list]. unfold body in HQ. rewrite length_app in HQ.
    by replace (p + Z.of_nat (length (show_w (s_width d))) + 1) with
      (p + Z.of_nat (length (show_w (s_width d)) + length (show_end d) - length (show_end d)) + 1) by lia.
Qed.

Lemma scan_upper_conv conv size : conv ∈ scan_convs -> scan_upper conv size = (conv, size).
Proof. intros Hc. set_unfold in Hc. by destruct_or? Hc; subst. Qed.

End Dir.

Section Loop.
Context {SA : StdioApi} {getc : IO Z} {ungetc : Z -> IO Z} {SO : Source getc ungetc}.
Context (decimal_point : Z) (float_bytes : Z -> list Z -> list Z) (c_realloc : Z -> Z -> IO Z).
Implicit Types (s : iost) (l : list Z) (v : scst).

Abbreviation scan_loop := (doscan_loop decimal_point float_bytes c_realloc getc ungetc).

(** ** The loop *)

(** The format lies in the client's memory. *)
Definition fmt_at s (p : Z) l : Prop := bytes_at (i_mem s) p l /\ region s p (length l).

Lemma fmt_at_app s p l1 l2 : fmt_at s p (l1 ++ l2) -> fmt_at s p l1 /\ fmt_at s (p + Z.of_nat (length l1)) l2.
Proof.
  intros [Hat Hr]. apply bytes_at_app in Hat as [? ?]. rewrite length_app in Hr.
  split; (split; [done|]); intros a Ha; apply Hr; lia.
Qed.

(** The stores leave the format alone. *)
Definition clear_of (ws : list (Z * list Z)) (p : Z) (n : nat) : Prop := forall a, p <= a < p + Z.of_nat n -> spares ws a.

Lemma fmt_at_wrote s ws s' p l : wrote s ws s' -> clear_of ws p (length l) -> fmt_at s p l -> fmt_at s' p l.
Proof.
  intros Hw Hc [Hat Hr]. split; [|by eapply region_wrote]. intros i b Hi. pose proof (lookup_lt_Some _ _ _ Hi).
  destruct (Hw (p + Z.of_nat i)) as [_ ->]; [by apply Hr; lia|]. rewrite written_spares by (apply Hc; lia). by apply Hat.
Qed.

Lemma fmt_at_quiet s s' p l : wrote s [] s' -> fmt_at s p l -> fmt_at s' p l.
Proof. intros Hw. apply (fmt_at_wrote s []); [done|]. intros a _. constructor. Qed.

(** What a scan has done *)
Definition scanned s (r : Z) (ws : list (Z * list Z)) l (x : Z * scst) s' : Prop := x.1 = r /\ sr_ok s' l /\ wrote s ws s'.

Lemma scanned_after s s1 r ws ws1 l x s' : wrote s ws1 s1 -> scanned s1 r ws l x s' -> scanned s r (ws1 ++ ws) l x s'.
Proof. intros Hw (? & ? & ?). split_and!; [done|done|by eapply wrote_then]. Qed.

Definition stores_ok s (ws : list (Z * list Z)) : Prop := Forall (fun '(p, bs) => 0 < p /\ region s p (length bs)) ws.

Lemma stores_ok_wrote s ws1 s' ws : wrote s ws1 s' -> stores_ok s ws -> stores_ok s' ws.
Proof. intros Hw. apply Forall_impl. intros [p bs] [? ?]. split; [done|]. by eapply region_wrote. Qed.

(** A character of the format that has to be met *)
Lemma literal_spec c l v nm (supp : bool) (K : scst -> IO (Z * scst)) s (Q : Z * scst -> iost -> Prop) :
  0 < c -> sr_ok s l ->
  match l with
  | [] => forall s' v', sr_ok s' [] -> wrote s [] s' -> Q (if negb (nm =? 0) || supp then nm else EOF, v') s'
  | c' :: l' =>
      if c' =? c then forall s', sr_ok s' l' -> wrote s [] s' -> wpi (K (up_nchars 1 v)) Q s'
      else forall s' v', sr_ok s' l -> wrote s [] s' -> Q (nm, v') s'
  end ->
  wpi (ch1 ← getc;
       let v := if ch1 =? EOF then v else up_nchars 1 v in
       if ch1 =? c then K v
       else if ch1 =? EOF then mret (if negb (nm =? 0) || supp then nm else EOF, v)
       else _ ← ungetc ch1; mret (nm, up_nchars (-1) v)) Q s.
Proof.
  intros Hc Hok H. apply wpi_bind. eapply wpi_getc; [done|]. intros ch s1 Ha Hw. cbv zeta.
  destruct l as [|c' l].
  - destruct Ha as [-> Ha]. rewrite (proj2 (Z.eqb_neq EOF c)) by (unfold EOF; lia). rewrite Z.eqb_refl. apply wpi_ret. by apply H.
  - pose proof Ha as (-> & Hc' & Hr & _). rewrite (proj2 (Z.eqb_neq c' EOF)) by (unfold EOF; lia).
    destruct (Z.eqb_spec c' c) as [->|Hne].
    + apply H; [by eapply sr_weaken|done].
    + apply wpi_bind. eapply wpi_mono; [by apply sr_ungetc|]. cbv beta. intros _ s2 [Hok2 Hw2]. apply wpi_ret. apply H; [done|]. by eapply wrote_quiet.
Qed.

Lemma store_nchars_spec ptr len n s l (Q : unit -> iost -> Prop) :
  sr_ok s l -> (ptr = 0 \/ region s ptr (size_of len)) ->
  (forall s', sr_ok s' l -> wrote s (if ptr =? 0 then [] else [(ptr, le_bytes (size_of len) n)]) s' -> Q tt s') ->
  wpi (store_nchars ptr (size_code len) n) Q s.
Proof.
  intros Hok Hp HQ. unfold store_nchars. destruct (Z.eqb_spec ptr 0) as [->|Hne]; [apply wpi_ret, HQ; [done|apply wrote_refl]|].
  destruct Hp as [?|Hp]; [done|].
  enough (H : wpi (store_int ptr (size_of len) n) Q s) by (destruct len; exact H).
  eapply store_bytes_input; [done|apply le_bytes_ok|by rewrite length_le_bytes|done].
Qed.

Lemma conv_spec fuel ptr d v s l res :
  s_conv d ∈ scan_convs -> s_conv d <> 110 -> 0 <= s_width d -> conv_ref d l = Some res -> tab_ok (_sctab v) -> sr_ok s l ->
  (length l < fuel)%nat -> 0 <= ptr -> store_ok s ptr res ->
  wpi (_innum decimal_point float_bytes c_realloc getc ungetc fuel ptr (s_conv d) (width_of d) (size_code (s_len d)) false v)
    (conv_done s l v ptr res) s.
Proof.
  intros Hc Hn Hw Href Ht Hok Hf Hp Hst. unfold _innum. destruct (decide (s_conv d ∈ [99; 115])) as [Hs|Hs].
  - set_unfold in Hs. destruct Hs as [E|[E|[]]]; rewrite E; simpl (_ || _); cbv iota; [by apply char_spec|by apply word_spec].
  - replace ((s_conv d =? 99) || (s_conv d =? 115) || (s_conv d =? 91)) with false.
    2: { set_unfold in Hs. set_unfold in Hc. lia. }
    apply innum_spec; try done. set_unfold in Hs. set_unfold in Hc. set_unfold. lia.
Qed.

(** A directive is read. *)
Lemma dir_read {B} fuel d p ptrs ptr ptrs' al v s (K : Z -> Z -> Z -> Z -> bool -> Z -> sva -> scst -> IO B) (Q : B -> iost -> Prop) :
  0 <= s_width d < 2 ^ 31 -> s_conv d ∈ scan_convs -> fmt_at s p (show_sdir d) -> (length (show_sdir d) < fuel)%nat ->
  (if s_star d then ptr = 0 /\ ptrs' = ptrs else ptrs = ptr :: ptrs') ->
  wpi (K ptr (s_width d) (s_conv d) (size_code (s_len d)) false (p + Z.of_nat (length (show_sdir d))) (mk_sva ptrs' al false) v) Q s ->
  wpi ('(n, ch, fmt, ptr, a) ← scan_repeat fuel true (hd 0 (show_sdir d)) (p + 1) 0 (mk_sva ptrs al false);
       '(size, alloc, ch, fmt, tab) ← scan_size fuel ch fmt (_sctab v);
       let v := mk_scst (nchars v) tab in
       let '(ch, size) := scan_upper ch size in
       K ptr n ch size alloc fmt a v) Q s.
Proof.
  intros Hw Hc [Hat _] Hf Hp HQ. apply wpi_bind. eapply scan_repeat_spec; [done..|]. cbv iota. apply wpi_bind.
  assert (El : (length (show_sdir d) = length ((if s_star d then [42%Z] else []) ++ show_w (s_width d)) + length (show_end d))%nat).
  { by rewrite show_sdir_eq, app_assoc, length_app. }
  assert (Hat' : bytes_at (i_mem s) (p + Z.of_nat (length (show_sdir d) - length (show_end d))) (show_end d)).
  { rewrite show_sdir_eq, app_assoc in Hat. apply bytes_at_app in Hat as [_ Hat].
    by replace (length (show_sdir d) - length (show_end d))%nat with (length ((if s_star d then [42] else []) ++ show_w (s_width d))) by lia. }
  apply (scan_size_spec fuel (s_len d) (s_conv d)); [done|done|]. cbv iota zeta. rewrite scan_upper_conv by done.
  destruct v as [n tab]. cbn [_sctab nchars] in *.
  replace (p + Z.of_nat (length (show_sdir d) - length (show_end d)) + Z.of_nat (length (show_slen (s_len d))) + 1) with
    (p + Z.of_nat (length (show_sdir d))); [exact HQ|]. unfold show_end. rewrite length_app in *. unfold show_end in El. rewrite length_app in El.
  cbn [length] in *. lia.
Qed.

(** What the reference does is what the loop does. *)
Definition loop_ok (items : list sitem) : Prop := forall fuel pe fmt nm supp ptrs al v l s r ws l',
  scan_ref items ptrs (nchars v) nm supp l = Some (r, ws, l') -> Forall (fun p => 0 <= p) ptrs ->
  tab_ok (_sctab v) -> sr_ok s l -> fmt_at s fmt (sshow items ++ [0]) ->
  clear_of ws fmt (length (sshow items ++ [0])) -> stores_ok s ws -> (length (sshow items) + length l + 2 <= fuel)%nat ->
  wpi (scan_loop fuel pe fmt nm supp (mk_sva ptrs al false) v) (scanned s r ws l') s.

Lemma sshow_cons i items : sshow (i :: items) ++ [0] = show_sitem i ++ sshow items ++ [0].
Proof. unfold sshow. cbn [mbind list_bind]. by rewrite <- app_assoc. Qed.

Lemma length_sshow i items : length (sshow (i :: items)) = (length (show_sitem i) + length (sshow items))%nat.
Proof. unfold sshow. cbn [mbind list_bind]. apply length_app. Qed.

Lemma clear_tail ws p l1 l2 : clear_of ws p (length (l1 ++ l2)) -> clear_of ws (p + Z.of_nat (length l1)) (length l2).
Proof. intros H a Ha. apply H. rewrite length_app. lia. Qed.

Lemma clear_cons ws w p n : clear_of (w :: ws) p n -> clear_of [w] p n /\ clear_of ws p n.
Proof.
  intros H. split; intros a Ha; specialize (H a Ha); apply Forall_cons_1 in H as [? ?]; [|done]. by constructor.
Qed.

(** The rest of the format, after the stores [ws1] *)
Lemma loop_rest items fuel pe p l1 nm supp ptrs al v l s s1 r ws ws1 l' :
  loop_ok items -> wrote s ws1 s1 -> sr_ok s1 l -> tab_ok (_sctab v) -> Forall (fun p => 0 <= p) ptrs ->
  fmt_at s p (l1 ++ sshow items ++ [0]) -> clear_of ws1 p (length (l1 ++ sshow items ++ [0])) ->
  clear_of ws p (length (l1 ++ sshow items ++ [0])) -> stores_ok s ws -> (length (sshow items) + length l + 2 <= fuel)%nat ->
  scan_ref items ptrs (nchars v) nm supp l = Some (r, ws, l') ->
  wpi (scan_loop fuel pe (p + Z.of_nat (length l1)) nm supp (mk_sva ptrs al false) v) (scanned s r (ws1 ++ ws) l') s1.
Proof.
  intros IH Hw Hok Ht Hps Hfmt Hc1 Hc Hst Hf Href. eapply wpi_mono; [apply (IH fuel pe _ nm supp ptrs al v l s1 r ws l'); try done|].
  - eapply fmt_at_wrote; [done|by eapply clear_tail|]. by apply fmt_at_app in Hfmt as [_ ?].
  - by eapply clear_tail.
  - by eapply stores_ok_wrote.
  - intros x s' H. by eapply scanned_after.
Qed.

Lemma clear_nil p n : clear_of [] p n.
Proof. intros a _. constructor. Qed.

(** The first character of an item *)
Lemma loop_head {B} s p c l (K : Z -> IO B) (Q : B -> iost -> Prop) :
  fmt_at s p (c :: l) -> 0 <= c < 128 -> wpi (K c) Q s -> wpi (ldc p ≫= K) Q s.
Proof. intros [Hat _] Hc HK. apply wpi_bind. apply bytes_at_cons in Hat as [? _]. by eapply wpi_ldc. Qed.

Lemma loop_nil : loop_ok [].
Proof.
  intros fuel pe fmt nm supp ptrs al v l s r ws l' Href _ _ Hok Hfmt _ _ Hf. injection Href as <- <- <-.
  destruct fuel as [|fuel]; [lia|]. cbn [Doscan.doscan_loop]. eapply loop_head; [exact Hfmt|lia|]. apply wpi_ret.
  split_and!; [done|done|apply wrote_refl].
Qed.

Lemma loop_space c items : c ∈ [32; 10; 9; 13; 12; 11] -> loop_ok items -> loop_ok (SSpace c :: items).
Proof.
  intros Hc IH fuel pe fmt nm supp ptrs al v l s r ws l' Href Hps Ht Hok Hfmt Hcl Hst Hf. rewrite sshow_cons in *.
  destruct fuel as [|fuel]; [lia|]. cbn [Doscan.doscan_loop]. eapply loop_head; [exact Hfmt|set_unfold in Hc; lia|]. cbv zeta.
  rewrite (proj2 (Z.eqb_neq c 0)), (proj2 (Z.eqb_neq c 37)) by (set_unfold in Hc; lia). rewrite bool_decide_eq_true_2 by done.
  pose proof (drop_ws_length l). assert (Hlen : (length (sshow (SSpace c :: items)) = S (length (sshow items)))%nat) by done. rewrite Hlen in Hf.
  apply wpi_bind. apply (skip_ws l); [done|done|lia|]. intros ch s1 Ha1 Hw1. cbv iota. apply wpi_bind.
  eapply wpi_back; [done|]. intros s2 Hok2 Hw2. rewrite up_nchars_add. cbn [scan_ref] in Href.
  apply (loop_rest items fuel pe fmt [c] nm supp ptrs al _ (drop_ws l) s s2 r ws [] l'); try done.
  - by eapply wrote_quiet.
  - apply clear_nil.
  - lia.
  - cbn [up_nchars nchars]. by replace (Z.of_nat (length l - length (drop_ws l)) + 1 + -1) with (Z.of_nat (length l - length (drop_ws l))) by lia.
Qed.

(** A literal, [l1] being how it is written *)
Lemma loop_literal c l1 items fuel pe fmt nm supp ptrs al v l s r ws l' :
  0 < c -> loop_ok items -> scan_ref (SLit c :: items) ptrs (nchars v) nm supp l = Some (r, ws, l') ->
  Forall (fun p => 0 <= p) ptrs -> tab_ok (_sctab v) -> sr_ok s l -> fmt_at s fmt (l1 ++ sshow items ++ [0]) ->
  clear_of ws fmt (length (l1 ++ sshow items ++ [0])) -> stores_ok s ws -> (length (sshow items) + length l + 2 <= fuel)%nat ->
  wpi (ch1 ← getc;
       let v := if ch1 =? EOF then v else up_nchars 1 v in
       if ch1 =? c then scan_loop fuel pe (fmt + Z.of_nat (length l1)) nm supp (mk_sva ptrs al false) v
       else if ch1 =? EOF then mret (if negb (nm =? 0) || supp then nm else EOF, v)
       else _ ← ungetc ch1; mret (nm, up_nchars (-1) v)) (scanned s r ws l') s.
Proof.
  intros Hc IH Href Hps Ht Hok Hfmt Hcl Hst Hf.
  apply (literal_spec c l v nm supp (fun v => scan_loop fuel pe (fmt + Z.of_nat (length l1)) nm supp (mk_sva ptrs al false) v)); [done|done|].
  cbn [scan_ref] in Href. destruct l as [|c' l].
  - injection Href as <- <- <-. intros s' v' ? ?. by split_and!.
  - destruct (c' =? c).
    + intros s1 Hok1 Hw1. apply (loop_rest items fuel pe fmt l1 nm supp ptrs al _ l s s1 r ws [] l'); try done; [apply clear_nil|simpl in Hf; lia].
    + injection Href as <- <- <-. intros s' v' ? ?. by split_and!.
Qed.

Lemma loop_lit c items : 0 < c < 128 -> is_space c = false -> loop_ok items -> loop_ok (SLit c :: items).
Proof.
  intros Hc Hsp IH fuel pe fmt nm supp ptrs al v l s r ws l' Href Hps Ht Hok Hfmt Hcl Hst Hf. rewrite sshow_cons in *.
  assert (Hlen : (length (sshow items) < length (sshow (SLit c :: items)))%nat).
  { rewrite length_sshow. cbn [show_sitem]. destruct (c =? 37); cbn [length]; lia. }
  destruct fuel as [|fuel]; [lia|]. cbn [Doscan.doscan_loop]. cbn [show_sitem] in *.
  destruct (Z.eqb_spec c 37) as [->|Hne].
  - eapply loop_head; [exact Hfmt|lia|]. cbv zeta. change (37 =? 0) with false. change (37 =? 37) with true. cbv iota.
    apply (fmt_at_app s fmt [37]) in Hfmt as Hfmt'. destruct Hfmt' as [_ Hfmt']. eapply loop_head; [exact Hfmt'|lia|].
    change (37 =? 37) with true. cbv iota. replace (fmt + 1 + 1) with (fmt + Z.of_nat (length [37; 37])) by (cbn [length]; lia).
    apply (loop_literal 37 [37; 37] items fuel pe fmt nm supp ptrs al v l s r ws l'); try done. lia.
  - eapply loop_head; [exact Hfmt|lia|]. cbv zeta. rewrite (proj2 (Z.eqb_neq c 0)), (proj2 (Z.eqb_neq c 37)) by lia.
    rewrite bool_decide_eq_false_2.
    2: { intros H. unfold is_space in Hsp. set_unfold in H. lia. }
    apply (loop_literal c [c] items fuel pe fmt nm supp ptrs al v l s r ws l'); try done; lia.
Qed.

(** What follows a directive *)
Definition after_dir (fuel : nat) (pe nm : Z) (supp : bool) (ptr n ch size : Z) (alloc : bool) (fmt : Z) (a : sva) v : IO (Z * scst) :=
  if ch =? 0 then mret (EOF, v)
  else if ch =? 110 then
    _ ← store_nchars ptr size (nchars v);
    scan_loop fuel pe fmt nm supp a v
  else
    '(ok, fileended, v) ← _innum decimal_point float_bytes c_realloc getc ungetc fuel ptr ch (if n =? 0 then DEFAULT_WIDTH else n) size alloc v;
    if ok : bool then
      if ptr =? 0 then scan_loop fuel pe fmt nm true a v
      else scan_loop fuel pe fmt (nm + 1) supp a v
    else
      e ← ask os_errno;
      if (fileended && (nm =? 0) && negb supp) || (alloc && (e =? ENOMEM)) then mret (EOF, v)
      else _ ← tell_os (os_set_errno pe); mret (nm, v).

(** The pointer of a directive *)
Definition take_ptr (d : sdir) (ptrs : list Z) : option (Z * list Z) :=
  if s_star d then Some (0, ptrs) else match ptrs with p :: ps => Some (p, ps) | [] => None end.

(** %n *)
Lemma after_n fuel pe d items fmt nm supp ptr ptrs al v l s r ws l' :
  let l1 := 37 :: show_sdir d in
  s_conv d = 110 -> loop_ok items ->
  ('(r, ws, l) ← scan_ref items ptrs (nchars v) nm supp l;
    Some (r, if ptr =? 0 then ws else (ptr, le_bytes (size_of (s_len d)) (nchars v)) :: ws, l)) = Some (r, ws, l') ->
  Forall (fun p => 0 <= p) ptrs -> tab_ok (_sctab v) -> sr_ok s l -> fmt_at s fmt (l1 ++ sshow items ++ [0]) ->
  clear_of ws fmt (length (l1 ++ sshow items ++ [0])) -> stores_ok s ws -> (length (sshow items) + length l + 2 <= fuel)%nat ->
  wpi (after_dir fuel pe nm supp ptr (s_width d) (s_conv d) (size_code (s_len d)) false (fmt + Z.of_nat (length l1)) (mk_sva ptrs al false) v)
    (scanned s r ws l') s.
Proof.
  intros l1 E IH Href Hps Ht Hok Hfmt Hcl Hst Hf. unfold after_dir. rewrite E. change (110 =? 0) with false. change (110 =? 110) with true. cbv iota.
  apply bind_Some in Href as ([[r1 ws1] l2] & Href & [= <- <- <-]). apply wpi_bind.
  assert (Hws : stores_ok s ws1 /\ clear_of ws1 fmt (length (l1 ++ sshow items ++ [0]))).
  { destruct (ptr =? 0); [done|]. split; [by apply Forall_cons_1 in Hst as [_ ?]|by apply clear_cons in Hcl as [_ ?]]. }
  eapply store_nchars_spec; [done| |].
  { destruct (ptr =? 0) eqn:E0; [left; lia|right]. apply Forall_cons_1 in Hst as [[_ H] _]. by rewrite length_le_bytes in H. }
  intros s1 Hok1 Hw1.
  replace (if ptr =? 0 then ws1 else (ptr, le_bytes (size_of (s_len d)) (nchars v)) :: ws1) with
    ((if ptr =? 0 then [] else [(ptr, le_bytes (size_of (s_len d)) (nchars v))]) ++ ws1) by by destruct (ptr =? 0).
  apply (loop_rest items fuel pe fmt l1 nm supp ptrs al v l s s1 r1 ws1); try done; [|apply Hws|apply Hws].
  destruct (ptr =? 0); [apply clear_nil|]. by apply clear_cons in Hcl as [? _].
Qed.

(** Any other conversion *)
Lemma after_conv fuel pe d items fmt nm supp ptr ptrs al v l s r ws l' :
  let l1 := 37 :: show_sdir d in
  s_conv d ∈ scan_convs -> s_conv d <> 110 -> 0 <= s_width d -> 0 <= ptr -> loop_ok items ->
  (c ← conv_ref d l;
   match c with
   | CFail eof r => Some (if eof && (nm =? 0) && negb supp then EOF else nm, [], r)
   | CDone bs r =>
       let n := nchars v + Z.of_nat (length l - length r) in
       if ptr =? 0 then scan_ref items ptrs n nm true r
       else '(v, ws, l) ← scan_ref items ptrs n (nm + 1) supp r; Some (v, (ptr, bs) :: ws, l)
   end) = Some (r, ws, l') ->
  Forall (fun p => 0 <= p) ptrs -> tab_ok (_sctab v) -> sr_ok s l -> fmt_at s fmt (l1 ++ sshow items ++ [0]) ->
  clear_of ws fmt (length (l1 ++ sshow items ++ [0])) -> stores_ok s ws -> (length (sshow items) + length l + 2 <= fuel)%nat ->
  wpi (after_dir fuel pe nm supp ptr (s_width d) (s_conv d) (size_code (s_len d)) false (fmt + Z.of_nat (length l1)) (mk_sva ptrs al false) v)
    (scanned s r ws l') s.
Proof.
  intros l1 Hc Hn Hw Hp IH Href Hps Ht Hok Hfmt Hcl Hst Hf. unfold after_dir.
  rewrite (proj2 (Z.eqb_neq _ 0)), (proj2 (Z.eqb_neq _ 110)) by (set_unfold in Hc; lia). fold (width_of d).
  apply bind_Some in Href as (res & Hres & Href). pose proof (conv_ref_rest d l res Hres) as Hrl. apply wpi_bind.
  eapply wpi_mono; [apply (conv_spec fuel ptr d v s l res); try done; [lia|]|].
  { destruct res as [|bs rest]; [done|]. cbn [store_ok]. destruct (Z.eqb_spec ptr 0); [by left|right]. cbv zeta in Href.
    apply bind_Some in Href as ([[? ws1] ?] & _ & [= _ <- _]). by apply Forall_cons_1 in Hst as [? _]. }
  intros [[ok eof] v1] s1 Hdone. destruct res as [e rest|bs rest].
  - destruct Hdone as ([= -> ->] & Hok1 & Hw1). injection Href as <- <- <-. cbv iota. apply wpi_bind, wpi_ask. rewrite orb_false_r.
    destruct (e && (nm =? 0) && negb supp); [apply wpi_ret; by split_and!|]. apply wpi_bind.
    destruct (sr_errno s1 pe) as [He Hcl1]. apply wpi_ret. split_and!; [done|by apply He|].
    intros a Ha. destruct (Hw1 a Ha) as [Ha1 E]. split; [by apply Hcl1|done].
  - cbn [conv_done fst snd] in Hdone. destruct Hdone as (-> & -> & Hok1 & Hw1). cbv iota zeta in Href |- *.
    destruct (Z.eqb_spec ptr 0) as [->|Hne].
    + apply (loop_rest items fuel pe fmt l1 nm true ptrs al _ rest s s1 r ws []); try done; [apply clear_nil|lia].
    + apply bind_Some in Href as ([[r1 ws1] l2] & Href & [= <- <- <-]). apply Forall_cons_1 in Hst as [_ Hst]. apply clear_cons in Hcl as [Hcl1 Hcl].
      apply (loop_rest items fuel pe fmt l1 (nm + 1) supp ptrs al _ rest s s1 r1 ws1 [(ptr, bs)]); try done. lia.
Qed.

Lemma loop_dir d items : 0 <= s_width d < 2 ^ 31 -> s_conv d ∈ scan_convs -> loop_ok items -> loop_ok (SDir d :: items).
Proof.
  intros Hw Hc IH fuel pe fmt nm supp ptrs al v l s r ws l' Href Hps Ht Hok Hfmt Hcl Hst Hf. rewrite sshow_cons in *.
  rewrite length_sshow in Hf. cbn [show_sitem length] in *.
  destruct fuel as [|fuel]; [lia|]. cbn [Doscan.doscan_loop].
  eapply loop_head; [exact Hfmt|lia|]. cbv zeta. change (37 =? 0) with false. change (37 =? 37) with true. cbv iota.
  assert (Hfmt' : fmt_at s (fmt + 1) (show_sdir d)).
  { apply (fmt_at_app s fmt (37 :: show_sdir d)) in Hfmt as [Hfmt _]. by apply (fmt_at_app s fmt [37]) in Hfmt as [_ ?]. }
  assert (Hhd : exists c r', show_sdir d = c :: r' /\ 0 <= c < 128 /\ c <> 37).
  { rewrite show_sdir_eq. destruct (s_star d); [by eexists _, _|]. destruct (show_w_spec _ Hw) as (ds & -> & Hds & _).
    destruct (show_end_hd d Hc) as (c & r' & -> & Hc1 & _ & _ & _ & Hc2). destruct ds as [|x ds]; [eauto|].
    apply Forall_cons_1 in Hds as [? _]. eexists _, _. split; [done|]. lia. }
  destruct Hhd as (c & r' & Esd & Hc1 & Hc2). eapply loop_head; [rewrite Esd in Hfmt'; exact Hfmt'|done|].
  rewrite (proj2 (Z.eqb_neq c 37)) by done. replace c with (hd 0 (show_sdir d)) by by rewrite Esd.
  cbn [scan_ref] in Href. change (if s_star d then _ else _) with (take_ptr d ptrs) in Href. 
  apply bind_Some in Href as ([ptr ptrs'] & Hptr & Href).
  assert (Hptrs : (if s_star d then ptr = 0 /\ ptrs' = ptrs else ptrs = ptr :: ptrs') /\ 0 <= ptr /\ Forall (fun p => 0 <= p) ptrs').
  { unfold take_ptr in Hptr. destruct (s_star d); [by injection Hptr as <- <-|]. destruct ptrs as [|q ptrs]; [done|].
    injection Hptr as <- <-. apply Forall_cons_1 in Hps as [? ?]. done. }
  destruct Hptrs as (Hp & Hp0 & Hps').
  apply (dir_read fuel d (fmt + 1) ptrs ptr ptrs' al v s (after_dir fuel pe nm supp)); try done; [lia|].
  replace (fmt + 1 + Z.of_nat (length (show_sdir d))) with (fmt + Z.of_nat (length (37 :: show_sdir d))) by (cbn [length]; lia).
  destruct (Z.eqb_spec (s_conv d) 110) as [E|E].
  - apply (after_n fuel pe d items fmt nm supp ptr ptrs' al v l s r ws l'); try done. lia.
  - apply (after_conv fuel pe d items fmt nm supp ptr ptrs' al v l s r ws l'); try done; lia.
Qed.

Lemma loop_spec items : Forall sitem_ok items -> loop_ok items.
Proof.
  induction 1 as [|i items Hi _ IH]; [apply loop_nil|]. destruct i as [c|c|d].
  - by apply loop_space.
  - destruct Hi as [? ?]. by apply loop_lit.
  - destruct Hi as [? ?]. by apply loop_dir.
Qed.

(** doscan does what the format stands for. *)
Lemma doscan_low_spec fuel fmt items ptrs tab l s r ws l' :
  Forall sitem_ok items -> scan_ref items ptrs 0 0 false l = Some (r, ws, l') -> Forall (fun p => 0 <= p) ptrs ->
  tab_ok tab -> sr_ok s l -> fmt_at s fmt (sshow items ++ [0]) -> clear_of ws fmt (length (sshow items ++ [0])) -> stores_ok s ws ->
  (length (sshow items) + length l + 2 <= fuel)%nat ->
  wpi (_doscan_low decimal_point float_bytes c_realloc getc ungetc fuel fmt ptrs tab) (scanned s r ws l') s.
Proof.
  intros Hi Href Hps Ht Hok Hfmt Hcl Hst Hf. unfold _doscan_low. apply wpi_bind, wpi_ask, wpi_bind.
  destruct (sr_errno s 0) as [He Hcl1]. apply wpi_ret. set (s1 := put_os s _).
  assert (Hw : wrote s [] s1) by (intros a Ha; split; [by apply Hcl1|done]).
  eapply wpi_mono; [eapply (loop_spec items Hi fuel _ fmt 0 false ptrs ptrs (mk_scst 0 tab) l s1 r ws l'); try done|].
  - by apply He.
  - by eapply fmt_at_quiet.
  - by eapply stores_ok_wrote.
  - intros x s' H. by apply (scanned_after s s1 r ws []).
Qed.

End Loop.
