(* ===== verification/DoscanThms.v ===== *)
(** * scanf: streams and strings

    The two kinds of streams that scanf reads, as implementations of [Source], and the
    theorems about the functions of the family. *)

From stdpp Require Import base gmap list numbers.
From Stdlib Require Import ZArith Lia.
From S2P Require Import Prelude Ctype MemFuns Strings Strto NMalloc NmRep Stdio StdioInv StdioWr StdioRd StdioIn.
From S2P Require Import Doprnt DoprntSpec DoprntConv DoprntLoop DoprntThms Doscan DoscanSpec DoscanConv DoscanLoop.

Open Scope Z_scope.
Open Scope c_scope.

(** ** Streams on strings *)

Section StringSource.
Context {SA : StdioApi} (AUTO tb sb str : Z) (txt : list Z) (s0 : iost).
Implicit Types (s : iost) (l : list Z).

(** The FILE of a string of which [k] characters were read *)
Record str_file (x : FILE) (k : nat) : Prop := {
  sf_read : has (_flag x) _IOREAD = true;
  sf_rw : has (_flag x) _IORW = false;
  sf_strg : has (_flag x) _IOSTRG = true;
  sf_nterm : has (_flag x) _IONTERM = true;
  sf_base : _base x = str;
  sf_ptr : _ptr x = str + Z.of_nat k;
  sf_cnt : _cnt x = Z.of_nat (length txt) - Z.of_nat k }.

(** The stream on [sb] has given all but [l] since the state [s0]. *)
Record str_reads s (k : nat) l : Prop := {
  sr_file : exists x, i_files s !! sb = Some x /\ str_file x k;
  sr_le : (k <= length txt)%nat;
  sr_rest : l = drop k txt;
  sr_text : bytes_at (i_mem s) str txt;
  sr_files : forall g, g <> sb -> i_files s !! g = i_files s0 !! g }.

Definition str_in s l : Prop := exists k, str_reads s k l.
Definition str_got s (c : Z) l : Prop := exists k, str_reads s (S k) l /\ txt !! k = Some c.

Lemma str_reads_setf s x k l k' : str_reads s k l -> str_file x k' -> (k' <= length txt)%nat ->
  str_reads (setf s sb x) k' (drop k' txt).
Proof.
  intros [_ _ _ Ht Hg] Hf Hk. split; try done; [exists x; split; [apply setf_at|done]|].
  intros g Hne. cbn. rewrite lookup_insert_ne by done. auto.
Qed.

Lemma str_getc s l : str_ok txt -> str_in s l ->
  wpi (fgetc AUTO tb sb) (fun c s' => match l with [] => c = EOF /\ str_in s' [] | b :: l' => c = b /\ str_got s' b l' end /\ i_mem s' = i_mem s) s.
Proof.
  intros Hok (k & Hs). pose proof Hs as [(x & Hx & Hf) Hk -> Ht _]. pose proof Hf as [Hr Hrw Hst Hn Hb Hp Hc].
  assert (Hno : forall b (Q : unit -> iost -> Prop), Q tt s -> wpi (see_handle b true sb) Q s).
  { intros b Q HQ. unfold see_handle. io1. rewrite has_mask, Hn, orb_true_r. destruct b; done. }
  unfold fgetc, __getc. apply wpi_bind, Hno, wpi_bind. unfold __getc_raw. io1. rewrite Hc.
  destruct (drop k txt) as [|b l'] eqn:El.
  - assert (k = length txt) as -> by (apply (f_equal length) in El; rewrite length_drop in El; simpl in El; lia).
    rewrite Z.sub_diag. change (0 <? 0) with false. cbv iota. unfold _filbuf. io1. rewrite Hrw. apply wpi_bind, wpi_ret.
    io1. rewrite Hr. cbn [negb]. rewrite has_mask, Hst. cbn [orb]. apply wpi_ret. change (EOF =? 13) with false. cbv iota.
    apply wpi_bind, wpi_ret, wpi_ret. split; [|done]. split; [done|]. exists (length txt). rewrite drop_all in *. exact Hs.
  - apply drop_lookup_cons in El as [Hb1 ->]. pose proof (lookup_lt_Some _ _ _ Hb1). rewrite (proj2 (Z.ltb_lt _ _)) by lia.
    io. rewrite Hp. eapply wpi_ldb; [apply Ht; exact Hb1|]. apply wpi_bind.
    set (x1 := up_ptr _ _). assert (Hf1 : str_file x1 (S k)) by (split; try done; cbn; lia).
    assert (Hs1 : str_reads (setf s sb x1) (S k) (drop (S k) txt)) by (eapply str_reads_setf; [done|done|lia]).
    apply (wpi_mono _ (fun r s' => r = false /\ s' = setf s sb x1)).
    { destruct (b =? 13); [|by apply wpi_ret]. unfold __is_text_file. io. split; [|done]. cbn. by rewrite has_mask, Hst. }
    intros ? ? [-> ->]. apply wpi_ret. split; [|done]. split; [done|]. by exists k.
Qed.

Lemma str_ungetc s c l : str_ok txt -> 0 < str -> str_got s c l ->
  wpi (ungetc c sb) (fun _ s' => str_in s' (c :: l) /\ i_mem s' = i_mem s) s.
Proof.
  intros Hok Hpos (k & Hs & Hc). pose proof Hs as [(x & Hx & Hf) Hk -> Ht _]. pose proof Hf as [Hr Hrw Hst Hn Hb Hp Hcn].
  assert (Hcb : 0 < c < 256) by exact (Forall_lookup_1 (fun b => 0 < b < 256) _ _ _ Hok Hc).
  unfold ungetc. rewrite (proj2 (Z.eqb_neq c EOF)) by (unfold EOF; lia). io1. rewrite has_mask, Hr. cbn [orb negb].
  rewrite (proj2 (Z.eqb_neq (_ptr x) 0)), (proj2 (Z.eqb_neq (_base x) 0)), (proj2 (Z.eqb_neq (_ptr x) (_base x))) by lia. cbn [orb].
  apply wpi_bind, wpi_ret. io. set (x1 := up_ptr _ _). replace (_ptr x - 1) with (str + Z.of_nat k) by lia.
  pose proof (Ht _ _ Hc) as Hm. apply wpi_bind. eapply wpi_ldb; [exact Hm|].
  assert (Hf1 : str_file x1 k) by (split; try done; cbn; lia).
  assert (Hin : forall y, str_file y k -> str_in (setf s sb y) (c :: drop (S k) txt)).
  { intros y Hy. exists k. rewrite <- (drop_S txt c k Hc). eapply str_reads_setf; [done|done|lia]. }
  destruct (wrap_s 8 c =? c).
  - apply wpi_bind, wpi_ret, wpi_ret. auto.
  - apply wpi_bind. io1. set (x2 := or_flag _IOUNGETC x1). apply wpi_stb; [cbn; by rewrite Hm|]. apply wpi_ret.
    assert (Em : <[str + Z.of_nat k := byte c]> (i_mem s) = i_mem s).
    { apply insert_id. rewrite Hm. f_equal. unfold byte. rewrite Z.mod_small; lia. }
    split; [|exact Em]. change (str_in (put_mem (setf s sb x2) (<[str + Z.of_nat k := byte c]> (i_mem s))) (c :: drop (S k) txt)).
    rewrite Em. apply (Hin x2). destruct Hf1. split; try done; unfold x2; cbn [or_flag up_flag _flag]; by flags.
Qed.

(** What lies outside of the string *)
Definition outside (a : Z) : Prop := a < str \/ str + Z.of_nat (length txt) <= a.

Lemma outside_store s k l a b : outside a -> str_reads s k l -> str_reads (put_mem s (<[a := b]> (i_mem s))) k l.
Proof.
  intros Ha [Hx Hk Hl Ht Hg]. split; try done. intros i c Hi. pose proof (lookup_lt_Some _ _ _ Hi). cbn.
  rewrite lookup_insert_ne by (unfold outside in Ha; lia). by apply Ht.
Qed.

Definition string_source (Hok : str_ok txt) (Hpos : 0 < str) : Source (fgetc AUTO tb sb) (fun c => ungetc c sb).
Proof.
  refine {| sr_ok := str_in; sr_read := str_got; sr_client := fun _ => outside |}.
  - intros s l (k & [_ _ -> _ _]). apply Forall_drop. eapply Forall_impl; [|exact Hok]. simpl. lia.
  - intros s c l (k & H & _). by exists (S k).
  - intros s l Hs. eapply wpi_mono; [by apply str_getc|]. cbv beta. intros c s' [H ->]. by split.
  - intros s c l Hs. eapply wpi_mono; [by apply str_ungetc|]. cbv beta. intros _ s' [H ->]. by split.
  - intros s a b Ha. split_and!; [| |done].
    + intros l (k & H). exists k. by apply outside_store.
    + intros c l (k & H & ?). exists k. split; [by apply outside_store|done].
  - intros s e. split; [|done]. intros l (k & [? ? ? ? ?]). by exists k.
Defined.

End StringSource.

Section Sscanf.
Context {SA : StdioApi} (AUTO tb decimal_point : Z).
Context (float_bytes : Z -> list Z -> list Z) (c_realloc : Z -> Z -> IO Z).
Implicit Types (s : iost).

Abbreviation run_sscanf := (sscanf AUTO tb decimal_point float_bytes c_realloc).

(** The stores are mapped, and apart from the [n] bytes at [p]. *)
Definition stores_at (m : mem) (ws : list (Z * list Z)) : Prop :=
  Forall (fun '(p, bs) => 0 < p /\ rng m p (Z.of_nat (length bs))) ws.

Lemma stropenr_spec sb str txt s x : str_ok txt -> bytes_at (i_mem s) str (txt ++ [0]) -> i_files s !! sb = Some x ->
  wpi (__stropenr sb str) (fun _ s' => str_in sb str txt s s' txt /\ i_mem s' = i_mem s) s.
Proof.
  intros Hok Hat Hx. unfold __stropenr. io1. io1. io1. apply wpi_bind. unfold wpi at 1.
  cbn [setf put_files i_mem]. rewrite (scan_nul_spec (i_mem s) str txt) by done. rewrite bind_Done. io1. io1. split; [|done].
  replace (str + Z.of_nat (length txt) - str) with (Z.of_nat (length txt)) by lia.
  exists 0%nat. split; [eexists; split; [apply setf_at|]|lia|done| |].
  - split; try done; cbn; lia.
  - cbn. by apply bytes_at_app in Hat as [? _].
  - intros g Hg. cbn. by rewrite lookup_insert_ne.
Qed.

Lemma sscanf_spec fuel sb junk str txt fmt items ptrs tab s r ws rest :
  Forall sitem_ok items -> scan_ref items ptrs 0 0 false txt = Some (r, ws, rest) -> Forall (fun p => 0 <= p) ptrs -> tab_ok tab ->
  0 < str -> str_ok txt -> bytes_at (i_mem s) str (txt ++ [0]) ->
  bytes_at (i_mem s) fmt (sshow items ++ [0]) -> 
  (fmt + Z.of_nat (length (sshow items)) < str \/ str + Z.of_nat (length txt) <= fmt) ->
  stores_at (i_mem s) ws -> clear_of ws str (length txt) -> clear_of ws fmt (length (sshow items ++ [0])) ->
  (length (sshow items) + length txt + 2 <= fuel)%nat ->
  wpi (run_sscanf fuel sb junk str fmt ptrs tab) (fun x s' => x.1 = r /\ i_mem s' = written ws (i_mem s) /\
    forall g, g <> sb -> i_files s' !! g = i_files s !! g) s.
Proof.
  intros Hi Href Hps Ht Hpos Hok Hat Hfmt Hap Hst Hcs Hcf Hf. unfold Doscan.sscanf. apply wpi_bind.
  set (s0 := put_files s (<[sb := junk]> (i_files s))). change (wpi (modify _) ?Q s) with (Q tt s0). cbv beta.
  assert (Hx : i_files s0 !! sb = Some junk) by apply lookup_insert_eq. apply wpi_bind.
  eapply wpi_mono; [by apply (stropenr_spec sb str txt s0 junk)|]. cbv beta. intros _ s1 [Hin Em]. change (i_mem s0) with (i_mem s) in Em.
  set (SO := string_source AUTO tb sb str txt s0 Hok Hpos). unfold _doscan.
  eapply wpi_mono; [apply (doscan_low_spec (SO := SO) decimal_point float_bytes c_realloc fuel fmt items ptrs tab txt s1 r ws rest); try done|].
  - split; [by rewrite Em|]. intros a Ha. rewrite length_app in Ha. cbn [length] in Ha. split.
    + unfold sr_client, SO, string_source, outside. lia.
    + rewrite Em. apply (mapped_Some (i_mem s) fmt (length (sshow items ++ [0]))); [|rewrite length_app; cbn [length]; lia].
      by eapply bytes_at_mapped.
  - apply List.Forall_forall. intros [p bs] Hin'. unfold stores_at in Hst. rewrite List.Forall_forall in Hst.
    destruct (Hst _ Hin') as [Hp Hr]. split; [done|]. intros a Ha. split; [|rewrite Em; apply Hr; lia].
    unfold sr_client, SO, string_source, outside.
    destruct (decide (a < str \/ str + Z.of_nat (length txt) <= a)) as [?|Hno]; [done|exfalso].
    assert (Hsp : spares ws a) by (apply Hcs; lia). unfold spares in Hsp. rewrite List.Forall_forall in Hsp. by apply (Hsp _ Hin').
  - intros [r' v'] s' (-> & (k & [_ _ _ Htx Hg]) & Hw). split_and!; [done| |].
    + apply map_eq. intros a. destruct (decide (outside str txt a)) as [Ha|Ha].
      * destruct (Hw a Ha) as [_ ->]. by rewrite Em.
      * unfold outside in Ha. rewrite written_spares by (apply Hcs; lia). apply bytes_at_app in Hat as [Hat _].
        destruct (lookup_lt_is_Some_2 txt (Z.to_nat (a - str))) as [b Hb]; [lia|].
        replace a with (str + Z.of_nat (Z.to_nat (a - str))) by lia. by rewrite (Htx _ _ Hb), (Hat _ _ Hb).
    + intros g Hne. rewrite Hg by done. by apply lookup_insert_ne.
Qed.

(** C11. sscanf takes from the string what the format asks for, stores the results where the
    pointers say and nothing else, and returns their number, or EOF where the string ended
    before the first. The format is one of [sitem_ok]: blanks, ASCII characters and the
    conversions d, i, u, o, x, c, s and n, with a star, a width and a length; not sets,
    floating point, p, m and positions. The reference has a result ([scan_ref] is Some)
    where each number has fewer than 64 characters and is below 2^63 in magnitude, which
    long_number_overruns and scan_min_overflows show to be needed, and where there are
    enough pointers. *)
Theorem sscanf_correct fuel sb junk str txt fmt items ptrs tab s r ws rest :
  Forall sitem_ok items -> scan_ref items ptrs 0 0 false txt = Some (r, ws, rest) -> Forall (fun p => 0 <= p) ptrs -> tab_ok tab ->
  0 < str -> cstr (i_mem s) str txt -> bytes_at (i_mem s) fmt (sshow items ++ [0]) ->
  (fmt + Z.of_nat (length (sshow items)) < str \/ str + Z.of_nat (length txt) <= fmt) ->
  stores_at (i_mem s) ws -> clear_of ws str (length txt) -> clear_of ws fmt (length (sshow items ++ [0])) ->
  (length (sshow items) + length txt + 2 <= fuel)%nat ->
  exists v s', run_sscanf fuel sb junk str fmt ptrs tab s = Done ((r, v), s') /\ i_mem s' = written ws (i_mem s) /\
    forall g, g <> sb -> i_files s' !! g = i_files s !! g.
Proof.
  intros Hi Href Hps Ht Hpos [Hat Hok] Hfmt Hap Hst Hcs Hcf Hf.
  destruct (wpi_Done _ _ _ (sscanf_spec fuel sb junk str txt fmt items ptrs tab s r ws rest Hi Href Hps Ht Hpos Hok Hat Hfmt Hap Hst Hcs Hcf Hf))
    as ([r' v] & s' & E & <- & ? & ?). by exists v, s'.
Qed.

End Sscanf.

(** ** Numbers that are printed and scanned *)

(** %lld *)
Definition scan_lld : sdir := mk_sdir false 0 Sll 100.

Lemma drop_ws_blanks a r : drop_ws (replicate a 32 ++ r) = drop_ws r.
Proof. induction a as [|a IH]; [done|]. exact IH. Qed.

Lemma span_digits_print ds b : forall w, Forall (fun d => 0 <= d < 10) ds -> (length ds <= w)%nat ->
  span_digits 10 w ((Z.add 48 <$> ds) ++ replicate b 32) = (ds, replicate b 32).
Proof.
  induction ds as [|d ds IH]; intros w Hd Hw; [by destruct w, b|]. apply Forall_cons_1 in Hd as [Hd Hds].
  destruct w as [|w]; [simpl in Hw; lia|]. cbn [fmap list_fmap app span_digits].
  assert (E : dval 10 (48 + d) = Some d).
  { unfold dval. replace ((48 <=? 48 + d) && (48 + d <=? 57) && (48 + d - 48 <? 10)) with true by lia. f_equal. lia. }
  rewrite E, IH by (done || simpl in Hw; lia). done.
Qed.

(** A number behind its sign *)
Lemma take_num_print sg neg ds b w : (sg, neg) ∈ [([45], true); ([], false); ([43], false)] ->
  Forall (fun d => 0 <= d < 10) ds -> ds <> [] -> (64 <= w)%nat -> (length ds < 63)%nat ->
  take_num 100 w (sg ++ (Z.add 48 <$> ds) ++ replicate b 32) =
    mk_numres neg (horner 10 0 ds) true (Nat.b2n neg + 0 + length ds) (replicate b 32).
Proof.
  intros Hsg Hd Hne Hw Hl. destruct ds as [|d ds]; [done|]. pose proof Hd as [Hd0 _]%Forall_cons_1.
  set (dg := (Z.add 48 <$> d :: ds) ++ replicate b 32). unfold take_num. cbv zeta.
  assert (Hsp : forall n, (length (d :: ds) <= n)%nat -> span_digits 10 n dg = (d :: ds, replicate b 32)) by (intros; by apply span_digits_print).
  assert (Hpl : forall w l, num_prefix 100 w l = (10, 0%nat)) by done.
  rewrite !elem_of_cons, elem_of_nil in Hsg. destruct Hsg as [[= -> ->]|[[= -> ->]|[[= -> ->]|[]]]]; cbn [app].
  - change (45 =? 45) with true. cbn [orb]. change (drop 1 (45 :: dg)) with (drop 0 dg).
    rewrite drop_0, Hpl, drop_0, Nat.sub_0_r, Hsp by (simpl in *; lia). done.
  - assert (E : dg = (48 + d) :: ((Z.add 48 <$> ds) ++ replicate b 32)) by done. rewrite E.
    rewrite (proj2 (Z.eqb_neq _ 45)), (proj2 (Z.eqb_neq _ 43)) by lia. cbn [orb]. rewrite <- E, drop_0, Hpl, drop_0, !Nat.sub_0_r, Hsp by lia. done.
  - change (43 =? 45) with false. change (43 =? 43) with true. cbn [orb]. change (drop 1 (43 :: dg)) with (drop 0 dg).
    rewrite drop_0, Hpl, drop_0, Nat.sub_0_r, Hsp by (simpl in *; lia). done.
Qed.

(** %lld takes the number that was printed. *)
Lemma scan_shape v t : number_shape v t -> Z.abs v < 2 ^ 63 -> (length t < 63)%nat -> Exists (fun c => 48 <= c <= 57) t ->
  exists rest, conv_ref scan_lld t = Some (CDone (le_bytes 8 v) rest).
Proof.
  intros (a & b & sg & ds & -> & Hsg & Hd & Hh) Hv Hl He. rewrite !length_app, length_fmap in Hl.
  assert (Hne : ds <> []).
  { intros ->. rewrite !Exists_app in He. assert (Hb : forall n, ~ Exists (fun c => 48 <= c <= 57) (replicate n 32)).
    { intros n H. apply Exists_exists in H as (c & Hc%list_elem_of_In & ?). apply elem_of_replicate in Hc as [-> _]. lia. }
    destruct He as [He|[He|[He|He]]]; [by apply Hb in He| |by apply Exists_nil in He|by apply Hb in He].
    apply Exists_exists in He as (c & Hc%list_elem_of_In & ?). destruct (v <? 0); set_unfold in Hsg; destruct_or? Hsg; subst; set_unfold in Hc; lia. }
  assert (Hneg : (sg, v <? 0) ∈ [([45], true); ([], false); ([43], false)]).
  { destruct (v <? 0); set_unfold in Hsg; destruct_or? Hsg; subst; set_solver. }
  exists (replicate b 32). unfold conv_ref, scan_lld. cbn [s_width s_conv s_len size_of]. change (0 =? 0) with true. cbv zeta iota.
  change (100 =? 99) with false. change (100 =? 115) with false. cbv iota. rewrite drop_ws_blanks.
  assert (Ews : drop_ws (sg ++ (Z.add 48 <$> ds) ++ replicate b 32) = sg ++ (Z.add 48 <$> ds) ++ replicate b 32).
  { rewrite !elem_of_cons, elem_of_nil in Hneg. destruct Hneg as [[= -> _]|[[= -> _]|[[= -> _]|[]]]]; [done| |done]. destruct ds as [|d ds]; [done|].
    apply Forall_cons_1 in Hd as [Hd _]. cbn [fmap list_fmap app drop_ws]. replace (is_space (48 + d)) with false; [done|]. unfold is_space. lia. }
  rewrite Ews, (take_num_print sg (v <? 0)) by (done || unfold DEFAULT_WIDTH; lia). cbn [nr_neg nr_val nr_any nr_kept nr_rest]. rewrite Hh.
  replace ((64 <=? _)%nat || (2 ^ 63 <=? Z.abs v)) with false.
  2: { symmetry. apply orb_false_iff. split; [apply Nat.leb_gt; destruct (v <? 0); simpl; lia|lia]. }
  do 3 f_equal. destruct (Z.ltb_spec v 0); lia.
Qed.

Lemma bytes_at_held m lo hi p l lo' bs : held m lo hi p l -> lo <= lo' -> lo' + Z.of_nat (length bs) <= hi -> bytes_at (write_bytes m lo' bs) p l.
Proof.
  intros (Hat & _ & Hd) H1 H2 i b Hi. pose proof (lookup_lt_Some _ _ _ Hi). rewrite lookup_write_bytes_out by lia. by apply Hat.
Qed.

Section RoundTrip.
Context {SA : StdioApi} (AUTO tb decimal_point : Z) {F : Type} (float_conv : Z -> Z -> Z -> Z -> F -> list Z * Z * Z).
Context (thousands_sep grouping : Z) (float_bytes : Z -> list Z -> list Z) (c_realloc : Z -> Z -> IO Z).

(** C13. What sprintf prints of a number other than -2^63 with the conversion d or i of a long
    long, with any flags, width and precision as long as there is a digit and the text has
    fewer than 63 characters, sscanf with the lld conversion stores as the 8 bytes of that
    number, and it returns 1. *)
Theorem printed_is_scanned sb junk str fuel fmt d pre v t fmt' p tab fuel' s :
  item_ok (Dir d) -> d_conv d ∈ [100; 105] -> d_len d ∈ [Lll; Lj] -> Z.abs v < 2 ^ 63 ->
  dir_text d (pre ++ [RLLong v]) = Some (t, []) -> (length t < 63)%nat -> Exists (fun c => 48 <= c <= 57) t ->
  let hi := str + Z.of_nat (length t) + 1 in
  held (i_mem s) str hi fmt (show [Dir d] ++ [0]) -> Forall (arg_held (i_mem s) str hi) pre ->
  held (i_mem s) str hi fmt' (sshow [SDir scan_lld] ++ [0]) -> 0 < str -> rng (i_mem s) str (Z.of_nat (length t) + 1) ->
  0 < p -> rng (i_mem s) p 8 -> (p + 8 <= str \/ hi <= p) -> (p + 8 <= fmt' \/ fmt' + 5 <= p) -> tab_ok tab ->
  (length (show [Dir d]) < fuel)%nat -> (length t + 6 <= fuel')%nat ->
  exists s', (n ← sprintf AUTO tb float_conv thousands_sep grouping fuel sb junk str fmt (varg_of <$> (pre ++ [RLLong v]));
      '(r, _) ← sscanf AUTO tb decimal_point float_bytes c_realloc fuel' sb junk str fmt' [p] tab;
      mret (n, r)) s = Done (Z.of_nat (length t), 1, s') /\
    i_mem s' = write_bytes (write_bytes (i_mem s) str (t ++ [0])) p (le_bytes 8 v).
Proof.
  intros Hi Hc Hl Hv Ht Hlen He hi Hfmt Hpre Hfmt' Hstr Hr Hp Hrp Hps Hpf Htab Hf Hf'.
  pose proof (dir_text_shape d pre v t Hc Hl ltac:(lia) Ht) as Hshape. pose proof (shape_str _ _ Hshape) as Hok.
  destruct (scan_shape v t Hshape Hv Hlen He) as [rest Href].
  assert (Hft : format_text [Dir d] (pre ++ [RLLong v]) = Some (t, [])).
  { cbn [format_text]. rewrite Ht. cbn. by rewrite app_nil_r. }
  assert (Hscan : scan_ref [SDir scan_lld] [p] 0 0 false t = Some (1, [(p, le_bytes 8 v)], rest)).
  { cbn [scan_ref]. cbn -[conv_ref le_bytes]. rewrite Href. cbn -[le_bytes]. by rewrite (proj2 (Z.eqb_neq p 0)) by lia. }
  set (m1 := write_bytes (i_mem s) str (t ++ [0])).
  assert (Hmap : forall a, is_Some (i_mem s !! a) -> is_Some (m1 !! a)) by apply (written_mapped [(str, t ++ [0])]).
  assert (Hsh : length (sshow [SDir scan_lld] ++ [0]) = 5%nat) by done.
  enough (H : wpi (n ← sprintf AUTO tb float_conv thousands_sep grouping fuel sb junk str fmt (varg_of <$> (pre ++ [RLLong v]));
      '(r, _) ← sscanf AUTO tb decimal_point float_bytes c_realloc fuel' sb junk str fmt' [p] tab; mret (n, r))
      (fun r s' => r = (Z.of_nat (length t), 1) /\ i_mem s' = write_bytes m1 p (le_bytes 8 v)) s).
  { destruct (wpi_Done _ _ _ H) as (r & s' & E & -> & ?). eauto. }
  apply wpi_bind. eapply wpi_mono; [apply (sprintf_spec AUTO tb float_conv thousands_sep grouping sb junk str fuel fmt [Dir d]
    (pre ++ [RLLong v]) t [] s); try done|].
  { by constructor. } { lia. } { apply Forall_app. split; [done|by constructor]. }
  cbv beta. intros ? s1 (-> & Em & _). fold m1 in Em. apply wpi_bind.
  eapply wpi_mono; [apply (sscanf_spec AUTO tb decimal_point float_bytes c_realloc fuel' sb junk str t fmt' [SDir scan_lld] [p] tab s1 1
    [(p, le_bytes 8 v)] rest); try done|].
  - constructor; [|constructor]. split; [cbn; lia|set_solver].
  - constructor; [lia|constructor].
  - rewrite Em. apply bytes_at_write.
  - rewrite Em. eapply bytes_at_held; [done|lia|]. rewrite length_app. cbn [length]. lia.
  - destruct Hfmt' as (_ & _ & Hd). rewrite Hsh in Hd. change (length (sshow [SDir scan_lld])) with 4%nat. lia.
  - constructor; [|constructor]. split; [done|]. rewrite Em, length_le_bytes. intros a Ha. apply Hmap, Hrp. lia.
  - intros a Ha. constructor; [|constructor]. rewrite length_le_bytes. lia.
  - intros a Ha. rewrite Hsh in Ha. constructor; [|constructor]. rewrite length_le_bytes. lia.
  - change (length (sshow [SDir scan_lld])) with 4%nat. lia.
  - intros [r v'] s2 (Er & E & _). cbn [fst] in Er. subst r. apply wpi_ret. split; [done|]. by rewrite E, Em.
Qed.

End RoundTrip.
