(* ===== verification/DoscanFile.v ===== *)
(** * scanf: files

    A stream on a file as an implementation of [Source], and fscanf over it. *)

From stdpp Require Import base gmap list numbers.
From Stdlib Require Import ZArith Lia.
From S2P Require Import Prelude Ctype MemFuns Strings Strto NMalloc NmRep Stdio StdioInv StdioWr StdioRd StdioIn.
From S2P Require Import Doprnt DoprntSpec Doscan DoscanSpec DoscanConv DoscanLoop DoscanThms.

Open Scope Z_scope.
Open Scope c_scope.

(** The characters that getc makes of the bytes of a file: in text mode a CR is left out. The
    characters are no CRs then, and no CR is the last byte. *)
Inductive chars_of (text : bool) : list Z -> list Z -> Prop :=
  | chars_nil : chars_of text [] []
  | chars_one c raw l : (text = true -> c <> 13) -> chars_of text raw l -> chars_of text (c :: raw) (c :: l)
  | chars_cr c raw l : text = true -> c <> 13 -> chars_of text raw l -> chars_of text (13 :: c :: raw) (c :: l).

Lemma chars_of_binary l : chars_of false l l.
Proof. induction l; by constructor. Qed.

Lemma chars_of_bytes text raw l : chars_of text raw l -> bytes_ok raw -> bytes_ok l.
Proof.
  induction 1 as [|c raw l _ _ IH|c raw l _ _ _ IH]; intros Hb; [constructor| |].
  - apply bytes_ok_cons in Hb as [? ?]. apply bytes_ok_cons. auto.
  - apply bytes_ok_cons in Hb as [_ Hb]. apply bytes_ok_cons in Hb as [? ?]. apply bytes_ok_cons. auto.
Qed.

(** errno is no part of the files. *)
Class ErrnoLaw {SA : StdioApi} (tb : Z) {laws : InLaws tb} := errno_law : forall e o fd,
  same_file fd o (os_set_errno e o) /\ os_pos fd (os_set_errno e o) = os_pos fd o.

Section FileSource.
Context {SA : StdioApi} (AUTO AUTOBUF tb : Z) {laws : InLaws tb} {elaw : ErrnoLaw tb} (f : Z).
Implicit Types (s : iost) (x : FILE) (l : list Z).

Abbreviation client_at := (client_at AUTO AUTOBUF).
Abbreviation rest_at := (rest_at tb).
Abbreviation fdata := (fdata tb).
Abbreviation rd_ok := (rd_ok AUTO tb).

(** The stream is open for input, has a buffer, and will give [l]. *)
Definition file_in s l : Prop := exists x pos, rd_ok s f x pos /\ chars_of (textual s x) (rest_at s x pos) l /\ (_base x <> 0 \/ l = []).

(** [c] was read from it. *)
Definition file_got s (c : Z) l : Prop := exists x pos, rd_ok s f x (S pos) /\ has (_flag x) _IOEOF = false /\
  _base x <> 0 /\ _ptr x <> _base x /\ fdata s x !! pos = Some c /\ (textual s x = true -> c <> 13 /\ c <> 26) /\
  chars_of (textual s x) (rest_at s x (S pos)) l.

Lemma rest_at_cons s x pos c r : rest_at s x pos = c :: r ->
  fdata s x !! pos = Some c /\ (textual s x = true -> c <> 26) /\ r = rest_at s x (S pos).
Proof.
  intros E. pose proof E as Er. unfold StdioRd.rest_at in E. destruct (drop pos (fdata s x)) as [|c' l'] eqn:Ed; [done|].
  apply drop_lookup_cons in Ed as [Hl ->]. simpl in E. destruct (textual s x) eqn:Et; cbn [andb] in E.
  - destruct (Z.eqb_spec c' 26); [done|]. injection E as -> <-. split_and!; [done|done|]. unfold StdioRd.rest_at. by rewrite Et.
  - injection E as -> <-. split_and!; [done|done|]. unfold StdioRd.rest_at. by rewrite Et.
Qed.

Lemma rest_at_back s x pos c : fdata s x !! pos = Some c -> (textual s x = true -> c <> 26) ->
  rest_at s x pos = c :: rest_at s x (S pos).
Proof.
  intros Hc Hz. unfold StdioRd.rest_at. rewrite (drop_S _ _ _ Hc). simpl. destruct (textual s x); [|done].
  by rewrite (proj2 (Z.eqb_neq c 26)) by auto.
Qed.

Lemma file_getc s l : f <> stdin -> file_in s l ->
  wpi (fgetc AUTO tb f) (fun c s' => match l with [] => c = EOF /\ file_in s' [] | b :: l' => c = b /\ file_got s' b l' end /\
    forall x, i_files s !! f = Some x -> exists x', i_files s' !! f = Some x' /\ rstep AUTO AUTOBUF tb s x s' x') s.
Proof.
  intros Hf (x & pos & Hok & Hl & Hb). pose proof (r_at _ _ _ _ _ (proj1 Hok)) as Hx.
  eapply wpi_mono; [by apply (getc_back AUTO AUTOBUF tb s f x pos)|]. intros r s' (x' & Hst & Hback & Hres).
  pose proof (rest_bytes tb s x pos) as Hby.
  assert (Hr : forall p, rest_at s' x' p = rest_at s x p) by (intros; by eapply rest_at_step).
  pose proof (rs_text _ _ _ _ _ _ _ Hst) as Et.
  assert (Hgot : forall c p n, getc_of (textual s x) (rest_at s x pos) = (c, n) -> (pos + n)%nat = S p -> 0 <= c < 256 ->
    fdata s x !! p = Some c -> (textual s x = true -> c <> 13 /\ c <> 26) -> l <> [] -> forall l', chars_of (textual s x) (rest_at s x (S p)) l' ->
    r = c /\ file_got s' c l' /\ i_files s' !! f = Some x').
  { intros c p n Eg Ep Hc Hd Hz Hne l' Hl'. rewrite Eg, Ep in Hres. destruct Hres as (-> & _ & Hok').
    destruct Hback as [He Hbk]; [unfold EOF; lia|]. destruct Hb as [Hb|?]; [|done]. destruct (Hbk Hb) as [Eb Hp].
    split_and!; [done| |apply (r_at _ _ _ _ _ (proj1 Hok'))]. exists x', p. rewrite Eb in *.
    split_and!; try done; [|by rewrite Et|by rewrite Et, Hr].
    unfold StdioRd.fdata. rewrite (rs_file _ _ _ _ _ _ _ Hst). destruct (rs_same _ _ _ _ _ _ _ Hst) as [_ ->]. done. }
  enough (H : match l with [] => r = EOF /\ file_in s' [] | b :: l' => r = b /\ file_got s' b l' end /\ i_files s' !! f = Some x').
  { destruct H as [H1 H2]. split; [done|]. intros y Hy. rewrite Hx in Hy. injection Hy as <-. by exists x'. }
  inversion Hl as [E1 E2|c raw l' Hc Hl' E1 E2|c raw l' Htx Hc Hl' E1 E2]; symmetry in E1; subst l; rewrite E1 in Hby, Hres.
  - destruct Hres as (-> & _ & Hok'). rewrite Nat.add_0_r in Hok'. split; [|apply (r_at _ _ _ _ _ (proj1 Hok'))]. split; [done|].
    exists x', pos. split_and!; [done| |by right]. rewrite Hr, E1. constructor.
  - destruct (rest_at_cons _ _ _ _ _ E1) as (Hd & Hz & ->). apply bytes_ok_cons in Hby as [Hcb _].
    destruct (Hgot c pos 1%nat) with (l' := l') as (-> & ? & ?); try done; [|lia|intros Ht; split; auto].
    rewrite E1. cbn [getc_of]. destruct (textual s x); [|done]. cbn [andb]. by rewrite (proj2 (Z.eqb_neq c 13)) by auto.
  - destruct (rest_at_cons _ _ _ _ _ E1) as (_ & _ & E3). symmetry in E3. destruct (rest_at_cons _ _ _ _ _ E3) as (Hd & Hz & ->).
    apply bytes_ok_cons in Hby as [_ Hby]. apply bytes_ok_cons in Hby as [Hcb _].
    destruct (Hgot c (S pos) 2%nat) with (l' := l') as (-> & ? & ?); try done; [|lia|intros Ht; split; auto].
    rewrite E1. cbn [getc_of]. by rewrite Htx.
Qed.

Lemma file_ungetc s c l : file_got s c l ->
  wpi (ungetc c f) (fun _ s' => file_in s' (c :: l) /\
    forall x, i_files s !! f = Some x -> exists x', i_files s' !! f = Some x' /\ rstep AUTO AUTOBUF tb s x s' x') s.
Proof.
  intros (x & pos & Hok & He & Hb & Hp & Hc & Hz & Hl). pose proof (r_at _ _ _ _ _ (proj1 Hok)) as Hx.
  eapply wpi_mono; [by apply (ungetc_spec AUTO AUTOBUF tb s f x pos c)|]. cbv beta. intros _ s' (_ & x' & Hok' & Hst & Eb). split.
  - exists x', pos. split_and!; [done| |left; congruence]. rewrite (rs_text _ _ _ _ _ _ _ Hst), (rest_at_step _ _ _ _ _ _ _ _ Hst).
    rewrite (rest_at_back s x pos c); [|done|by intros Ht; apply Hz]. constructor; [by intros Ht; apply Hz|done].
  - intros y Hy. rewrite Hx in Hy. injection Hy as <-. exists x'. split; [apply (r_at _ _ _ _ _ (proj1 Hok'))|done].
Qed.

(** Memory of the client's *)
Definition free_at s (a : Z) : Prop := exists x, i_files s !! f = Some x /\ client_at s x a.

Lemma free_step s s' : (forall x, i_files s !! f = Some x -> exists x', i_files s' !! f = Some x' /\ rstep AUTO AUTOBUF tb s x s' x') ->
  forall a, free_at s a -> free_at s' a /\ i_mem s' !! a = i_mem s !! a.
Proof.
  intros H a (x & Hx & Ha). destruct (H x Hx) as (x' & Hx' & Hst). destruct (rs_keep _ _ _ _ _ _ _ Hst a Ha) as [? ?].
  split; [by exists x'|done].
Qed.

Lemma rd_ok_store s x pos a b : rd_ok s f x pos -> client_at s x a -> rd_ok (put_mem s (<[a := b]> (i_mem s))) f x pos.
Proof.
  intros (Hpre & w & i & Hw & Hp) Ha. assert (Hd : dest AUTO AUTOBUF s x a 1) by (intros a' Ha'; by replace a' with a by lia).
  split; [by apply (wmem_pre AUTO tb s f x a [b])|]. exists w, i. split; [by apply (wmem_window AUTO AUTOBUF tb s x a [b])|done].
Qed.

Lemma rd_ok_errno s x pos e : rd_ok s f x pos -> rd_ok (put_os s (os_set_errno e (i_os s))) f x pos.
Proof.
  destruct (errno_law e (i_os s) (_file x)) as [[Henv Hdat] Hpos].
  assert (Et : textual (put_os s (os_set_errno e (i_os s))) x = textual s x).
  { unfold textual. cbn. by destruct (Henv (_file x)) as (_ & -> & _). }
  intros ([? ? ? ? He ? ?] & w & i & [? ? ? ? Hw Ht] & Hp). split.
  - split; try done. intros E. destruct (He E) as [? Hby]. split; [done|]. unfold beyond, StdioRd.fdata, fpos in *. rewrite Et. cbn. by rewrite Hpos, Hdat.
  - exists w, i. unfold fpos, StdioRd.fdata in *. split; [|cbn; by rewrite Hpos].
    split; try done; [unfold fpos, StdioRd.fdata; cbn; by rewrite Hpos, Hdat|by rewrite Et].
Qed.

Lemma errno_same s x e : let s' := put_os s (os_set_errno e (i_os s)) in
  textual s' x = textual s x /\ forall pos, rest_at s' x pos = rest_at s x pos.
Proof.
  destruct (errno_law e (i_os s) (_file x)) as [[Henv Hdat] _]. cbv zeta.
  assert (Et : textual (put_os s (os_set_errno e (i_os s))) x = textual s x).
  { unfold textual. cbn. by destruct (Henv (_file x)) as (_ & -> & _). }
  split; [done|]. intros pos. unfold StdioRd.rest_at, StdioRd.fdata. rewrite Et. cbn. by rewrite Hdat.
Qed.

Lemma client_store s x a b a' : client_at s x a' -> client_at (put_mem s (<[a := b]> (i_mem s))) x a'.
Proof.
  intros [Hm ?]. split; [|done]. cbn. destruct (decide (a = a')) as [->|?]; [by rewrite lookup_insert_eq|by rewrite lookup_insert_ne].
Qed.

Definition file_source (Hf : f <> stdin) : Source (fgetc AUTO tb f) (fun c => ungetc c f).
Proof.
  refine {| sr_ok := file_in; sr_read := file_got; sr_client := free_at |}.
  - intros s l (x & pos & _ & Hl & _). eapply chars_of_bytes; [exact Hl|]. apply rest_bytes.
  - intros s c l (x & pos & Hok & _ & Hb & _ & _ & _ & Hl). exists x, (S pos). split_and!; [done|done|by left].
  - intros s l Hs. eapply wpi_mono; [by apply file_getc|]. cbv beta. intros c s' [H Hk]. split; [done|]. by apply free_step.
  - intros s c l Hs. eapply wpi_mono; [by apply file_ungetc|]. cbv beta. intros _ s' [H Hk]. split; [done|]. by apply free_step.
  - intros s a b (y & Hy & Ha).
    assert (Hx : forall x pos, rd_ok s f x pos -> x = y).
    { intros x pos Hok. pose proof (r_at _ _ _ _ _ (proj1 Hok)). congruence. }
    cbv zeta. split_and!.
    + intros l (x & pos & Hok & Hl & Hb). assert (x = y) as -> by by eapply Hx. exists y, pos. split_and!; [by apply rd_ok_store|done|done].
    + intros c l (x & pos & Hok & H). assert (x = y) as -> by by eapply Hx. exists y, pos. split; [by apply rd_ok_store|done].
    + intros a' (z & Hz & Ha'). exists z. split; [done|]. by apply client_store.
  - intros s e. cbv zeta. split; [|intros a' (z & Hz & Ha'); by exists z].
    intros l (x & pos & Hok & Hl & Hb). destruct (errno_same s x e) as [Et Er]. exists x, pos.
    split_and!; [by apply rd_ok_errno|by rewrite Et, Er|done].
Defined.

Context (decimal_point : Z) (float_bytes : Z -> list Z -> list Z) (c_realloc : Z -> Z -> IO Z).


End FileSource.
