(* ===== verification/DoscanRuns.v ===== *)
(** * scanf at work

    The theorems about scanf at concrete formats, and formats on which the code does not do
    what it means to. *)

From Stdlib Require Import String Ascii.
From stdpp Require Import base gmap list numbers.
From Stdlib Require Import ZArith Lia.
From S2P Require Import Prelude Ctype MemFuns Strings Strto NMalloc NmRep Stdio StdioInv StdioWr StdioRd StdioIn StdioThms StdioDisk.
From S2P Require Import Doprnt DoprntSpec DoprntConv DoprntLoop DoprntThms DoprntRuns.
From S2P Require Import Doscan DoscanSpec DoscanConv DoscanLoop DoscanThms DoscanFile.

Open Scope Z_scope.
Open Scope c_scope.

#[local] Existing Instance dk_api.
#[local] Existing Instance dk_in.

(** ** A format *)

(** The format at 1000, the text at 2000, and room for 400 bytes at 3000 *)
Definition scan_mem (fmt txt : list Z) : mem :=
  write_bytes (write_bytes (write_bytes ∅ 3000 (replicate 400 170)) 2000 (txt ++ [0])) 1000 (fmt ++ [0]).

Definition scan_state (fmt txt : list Z) : iost := mk_io (scan_mem fmt txt) ∅ [] O_BINARY (mk_disk ∅ []).

Definition no_float_bytes (size : Z) (l : list Z) : list Z := [].
Definition no_realloc (p n : Z) : IO Z := mret 0.

(** What sscanf returns, and the [n] bytes at 3000 *)
Definition scan (fmt txt : string) (ptrs : list Z) (n : nat) : option (Z * list Z) :=
  value ('(r, _) ← sscanf 999 512 46 no_float_bytes no_realloc 300 50 zero_FILE 2000 1000 ptrs _sctab_init;
         l ← see_bytes 3000 n; mret (r, l)) (scan_state (chars fmt) (chars txt)).

Lemma scan_demo : scan "%d,%2x%%%n %s%c" " -42,fF%   ab c" [3000; 3004; 3008; 3012; 3016] 17 =
  Some (4, [214; 255; 255; 255; 255; 0; 0; 0; 8; 0; 0; 0; 97; 98; 0; 170; 32]).
Proof. by vm_compute. Qed.


(** %d , %5lld and a comma, %3s *)
Definition scan_items : list sitem :=
  [SDir (mk_sdir false 0 S0 100); SLit 44; SDir (mk_sdir false 5 Sll 105); SSpace 32; SDir (mk_sdir true 0 S0 99); SDir (mk_sdir false 3 S0 115)].

Definition scan_text : list Z := chars "  -42,0x1F9 @ words".
Definition scan_stores : list (Z * list Z) := [(3000, le_bytes 4 (-42)); (3008, le_bytes 8 505); (3016, chars "wor" ++ [0])].

Lemma scan_items_ok : Forall sitem_ok scan_items.
Proof. repeat constructor; cbn; try lia; set_solver. Qed.

Lemma scan_items_ref : scan_ref scan_items [3000; 3008; 3016] 0 0 false scan_text = Some (3, scan_stores, chars "ds").
Proof. by vm_compute. Qed.

(** Stores at 3000 are apart from what is below. *)
Lemma stores_clear p n : p + Z.of_nat n <= 3000 -> clear_of scan_stores p n.
Proof. intros Hp a Ha. repeat constructor; lia. Qed.

Lemma sscanf_correct_witness : exists v s',
  sscanf 999 512 46 no_float_bytes no_realloc 100 50 zero_FILE 2000 1000 [3000; 3008; 3016] _sctab_init
    (scan_state (sshow scan_items) scan_text) = Done ((3, v), s') /\
  i_mem s' = written scan_stores (scan_mem (sshow scan_items) scan_text).
Proof.
  destruct (sscanf_correct 999 512 46 no_float_bytes no_realloc 100 50 zero_FILE 2000 scan_text 1000 scan_items [3000; 3008; 3016]
    _sctab_init (scan_state (sshow scan_items) scan_text) 3 scan_stores (chars "ds")) as (v & s' & E & Em & _).
  - apply scan_items_ok.
  - apply scan_items_ref.
  - repeat constructor; lia.
  - apply init_tab_ok.
  - lia.
  - split; [apply bytes_at_b_iff; by vm_compute|apply (bool_decide_eq_true_1 _); by vm_compute].
  - apply bytes_at_b_iff. by vm_compute.
  - left. apply Z.ltb_lt. by vm_compute.
  - repeat apply Forall_cons_2; [..|apply Forall_nil_2]; (split; [lia|]); apply mapped_rng, mapped_b_iff; by vm_compute.
  - apply stores_clear. apply Z.leb_le. by vm_compute.
  - apply stores_clear. apply Z.leb_le. by vm_compute.
  - apply Nat.leb_le. by vm_compute.
  - exists v, s'. split; [exact E|exact Em].
Defined.

(** ** A number, printed and scanned *)

(** %+ *.3lld at 1000 and %lld at 1100; the text goes to 3000, the number to 3100 *)
Definition trip_mem : mem := write_bytes (scan_mem (show [Dir num_dir]) []) 1100 (chars "%lld" ++ [0]).
Definition trip_state : iost := mk_io trip_mem ∅ [] O_BINARY (mk_disk ∅ []).

Lemma trip_held p l : bytes_at_b trip_mem p l = true -> bytes_ok l -> p + Z.of_nat (length l) <= 3000 -> held trip_mem 3000 3010 p l.
Proof. intros Hat Hb Hp. split_and!; [by apply bytes_at_b_iff|done|by left]. Qed.

Lemma printed_is_scanned_witness : exists s',
  (n ← sprintf 999 512 no_float 0 0 30 50 zero_FILE 3000 1000 [VInt (-9); VLLong (-42)];
   '(r, _) ← sscanf 999 512 46 no_float_bytes no_realloc 20 50 zero_FILE 3000 1100 [3100] _sctab_init;
   mret (n, r)) trip_state = Done (9, 1, s') /\
  i_mem s' = write_bytes (write_bytes trip_mem 3000 (chars "-042     " ++ [0])) 3100 (le_bytes 8 (-42)).
Proof.
  apply (printed_is_scanned 999 512 46 no_float 0 0 no_float_bytes no_realloc 50 zero_FILE 3000 30 1000 num_dir [RInt (-9)] (-42)
    (chars "-042     ") 1100 3100 _sctab_init 20 trip_state).
  - repeat constructor; cbn; try lia; set_solver.
  - set_solver.
  - set_solver.
  - lia.
  - by vm_compute.
  - apply Nat.ltb_lt. by vm_compute.
  - apply Exists_cons_tl, Exists_cons_hd. by vm_compute.
  - apply trip_held; [by vm_compute|apply (bool_decide_eq_true_1 _); by vm_compute|apply Z.leb_le; by vm_compute].
  - repeat constructor.
  - apply trip_held; [by vm_compute|apply (bool_decide_eq_true_1 _); by vm_compute|apply Z.leb_le; by vm_compute].
  - lia.
  - apply (mapped_rng trip_mem 3000 10), mapped_b_iff. by vm_compute.
  - lia.
  - apply (mapped_rng trip_mem 3100 8), mapped_b_iff. by vm_compute.
  - right. apply Z.leb_le. by vm_compute.
  - right. lia.
  - apply init_tab_ok.
  - apply Nat.ltb_lt. by vm_compute.
  - apply Nat.leb_le. by vm_compute.
Defined.

(** ** A text file *)

#[local] Instance dk_errno : ErrnoLaw 512.
Proof. done. Qed.

(** A stream for input that was given the 512 bytes at 5000 as its buffer; the file 5 is a
    text file. *)
Definition reader : FILE := mk_FILE 0 5000 5000 512 _IOREAD 5 0 512.

Definition reader_mem (fmt : list Z) : mem := write_bytes (write_bytes (scan_mem fmt []) 5000 (replicate 512 0)) 999 [0].

Definition reader_state (fmt data : list Z) : iost := mk_io (reader_mem fmt) {[10 := reader]} [] O_BINARY (mk_disk {[5 := (data, 0%nat)]} []).

Lemma reader_rd fmt data : rng (reader_mem fmt) 5000 512 -> rd_ok 999 512 (reader_state fmt data) 10 reader 0.
Proof.
  intros Hr. split.
  - split; try done; [|right; split_and!; try done; lia].
    split; [lia|]. unfold reader_state. cbn [i_mem]. apply (rng_written _ 999 [0]). cbn. lia.
  - exists [], 0%nat. split; [|cbn; done]. split; try done.
    intros _. apply not_elem_of_nil.
Qed.

Lemma reader_client fmt data p n : mapped_b (reader_mem fmt) p n = true -> 1000 <= p -> p + Z.of_nat n <= 5000 ->
  dest 999 20000 (reader_state fmt data) reader p n.
Proof.
  intros Hm H1 H2 a Ha. split_and!; [apply (mapped_rng (reader_mem fmt) p n); [by apply mapped_b_iff|lia]|lia|lia|]. right. left. cbn. lia.
Qed.

Definition lines_items : list sitem := [SDir (mk_sdir false 0 S0 100); SDir (mk_sdir false 0 Sl 120); SDir (mk_sdir false 0 S0 115)].
Definition lines_data : list Z := chars "12 -5" ++ [13; 10] ++ chars "xy z".
Definition lines_text : list Z := chars "12 -5" ++ [10] ++ chars "xy z".
Definition lines_stores : list (Z * list Z) := [(3000, le_bytes 4 12); (3008, le_bytes 8 (-5)); (3016, chars "xy" ++ [0])].

Lemma lines_chars : chars_of true lines_data lines_text.
Proof. vm_compute. do 5 (apply chars_one; [lia|]). apply chars_cr; [done|lia|]. repeat (apply chars_one; [lia|]). apply chars_nil. Qed.


(** ** Formats that go wrong *)

Definition some_float (size : Z) (l : list Z) : list Z := [1; 2; 3; 4].

Definition scan_bytes (fmt txt : list Z) (ptrs : list Z) (n : nat) : option (Z * list Z) :=
  value ('(r, _) ← sscanf 999 512 46 some_float no_realloc 300 50 zero_FILE 2000 1000 ptrs _sctab_init;
         l ← see_bytes 3000 n; mret (r, l)) (scan_state fmt txt).

(** The 64 bytes of numbuf are not enough for 64 digits and the NUL. *)
Lemma long_number_overruns :
  scan_bytes (chars "%d") (replicate 63 48) [3000] 4 = Some (1, [0; 0; 0; 0]) /\
  scan_bytes (chars "%d") (replicate 64 48) [3000] 4 = None.
Proof. split; by vm_compute. Qed.

(** Positions go on from where the last one left the arguments, so that the second pointer
    and the fourth are used. *)
Lemma scan_positions_advance : scan "%2$d %1$d" "1 2" [3000; 3004; 3008; 3012] 16 =
  Some (2, replicate 4 170 ++ [1; 0; 0; 0] ++ replicate 4 170 ++ [2; 0; 0; 0]).
Proof. by vm_compute. Qed.

(** A pointer and a ptrdiff_t are stored as an int, in 4 of their 8 bytes. *)
Lemma scan_pointer_cut :
  scan "%p" "123456789abc" [3000] 8 = Some (1, [188; 154; 120; 86; 170; 170; 170; 170]) /\
  scan "%td" "-1" [3000] 8 = Some (1, [255; 255; 255; 255; 170; 170; 170; 170]).
Proof. split; by vm_compute. Qed.

(** A long double is counted, but not stored. *)
Lemma long_double_not_stored : scan_bytes (chars "%Lf%f") (chars "1.5 2.5") [3000; 3016] 20 = Some (2, replicate 16 170 ++ [1; 2; 3; 4]).
Proof. by vm_compute. Qed.

(** The least number of type long long overflows. *)
Lemma scan_min_overflows : scan "%lld" "-9223372036854775808" [3000] 8 = None /\
  scan "%lld" "-9223372036854775807" [3000] 8 = Some (1, [1; 0; 0; 0; 0; 0; 0; 128]).
Proof. split; by vm_compute. Qed.

(** A character above 127 of the format is never met. *)
Lemma high_literal_unmet : scan_bytes (233 :: chars "%d") (233 :: chars "7") [3000] 1 = Some (0, [170]).
Proof. by vm_compute. Qed.

(** With m and c the buffer of 128 bytes does not grow; with m and no pointer, the result is
    stored at NULL. *)
Lemma allocated_overruns :
  scan_bytes (chars "%200mc") (replicate 200 48) [3000] 8 = None /\ scan "%*ms" "a" [] 8 = None.
Proof. split; by vm_compute. Qed.

(** An unbuffered stream does not take the character behind a number back. *)
Definition scan_then_getc (flag : Z) : option (Z * Z) :=
  value ('(r, _) ← fscanf 999 512 46 some_float no_realloc 300 10 1000 [20000] _sctab_init; c ← fgetc 999 512 10; mret (r, c))
    (demo (chars "%d" ++ [0]) (opened flag 4) (in_disk (chars "12ab"))).

Lemma unbuffered_scan_loses : scan_then_getc _IOREAD = Some (1, 97) /\ scan_then_getc (_IOREAD .| _IONBF) = Some (1, 98).
Proof. split; by vm_compute. Qed.
