(* ===== verification/CrtArgs.v ===== *)
(** * The arguments of a program

    src/src/libc/crt0/c1args.c: the command line that DOS gives a program is taken apart,
    response files and wildcards are expanded, and the arrays that main sees are filled.

    The text that is parsed is a buffer of bytes, which the code changes in place. A
    structure Arg belongs to one list only, so that it is a value here; [arg] is the block
    without its last byte, the NUL. Statements run in a monad that counts the calls of malloc
    and of free; the exit after a failed malloc is a result. What DOS, the environment, the
    files and glob answer are parameters. *)

From stdpp Require Import base gmap list numbers.
From Stdlib Require Import ZArith Lia.
From S2P Require Import Prelude Ctype MemFuns Strings.

Open Scope Z_scope.
Open Scope c_scope.

Definition _CRT0_FLAG_PRESERVE_UPPER_CASE : Z := 0x1.
Definition _CRT0_FLAG_USE_DOS_SLASHES : Z := 0x2.
Definition _CRT0_FLAG_DROP_EXE_SUFFIX : Z := 0x4.
Definition _CRT0_FLAG_DROP_DRIVE_SPECIFIER : Z := 0x8.
Definition _CRT0_FLAG_DISALLOW_RESPONSE_FILES : Z := 0x10.
Definition _CRT0_FLAG_KEEP_QUOTES : Z := 0x4000.

(** [__PROXY], a blank and !proxy *)
Definition __PROXY : list Z := [32; 33; 112; 114; 111; 120; 121].

(** ** Statements *)

(** The calls of malloc and of free so far *)
Record calls := mk_calls { mallocs : nat; frees : nat }.

(** On the right: the code of an exit *)
Definition M (A : Type) : Type := calls -> outcome ((A * calls) + Z).

#[export] Instance M_ret : MRet M := fun A a w => Done (inl (a, w)).
#[export] Instance M_bind : MBind M := fun A B k c w =>
  r ← c w; match r with inl (a, w') => k a w' | inr code => Done (inr code) end.

Definition run {A} (c : outcome A) : M A := fun w => a ← c; Done (inl (a, w)).
Definition leave {A} (code : Z) : M A := fun w => Done (inr code).

(** ** Buffers *)

Definition rdb (buf : list Z) (i : nat) : outcome Z := match buf !! i with Some b => Done b | None => Fail UB end.
Definition wrb (buf : list Z) (i : nat) (b : Z) : outcome (list Z) :=
  if (i <? length buf)%nat then Done (<[i := b]> buf) else Fail UB.

(** [strchr(set, c)]: the NUL of the set counts. *)
Definition in_set (set : list Z) (c : Z) : bool := bool_decide (c ∈ set ++ [0]).

(** [strncmp(ep, ..., 3) == 0] with three dots *)
Definition three_dots (buf : list Z) (ep : nat) : outcome bool :=
  a ← rdb buf ep;
  if negb (a =? 46) then Done false
  else b ← rdb buf (ep + 1); if negb (b =? 46) then Done false else c ← rdb buf (ep + 2); Done (c =? 46).

Definition space_at (buf : list Z) (i : nat) : outcome bool := b ← rdb buf i; r ← isspace b; Done (negb (r =? 0)).

(** ** parse_arg *)

(** The variables of the loop *)
Record parg := mk_parg { p_buf : list Z; p_ep : nat; p_epp : nat; p_quote : Z; p_wq : bool }.

(** [*epp++ = c] *)
Definition p_put (c : Z) (p : parg) : outcome parg :=
  buf ← wrb (p_buf p) (p_epp p) c; Done (mk_parg buf (p_ep p) (p_epp p + 1) (p_quote p) (p_wq p)).
Definition put_if (b : bool) (c : Z) (p : parg) : outcome parg := if b then p_put c p else Done p.
Definition p_next (p : parg) : parg := mk_parg (p_buf p) (p_ep p + 1) (p_epp p) (p_quote p) (p_wq p).
Definition set_quote (q : Z) (p : parg) : parg := mk_parg (p_buf p) (p_ep p) (p_epp p) q (p_wq p).
Definition or_quoted (b : bool) (p : parg) : parg := mk_parg (p_buf p) (p_ep p) (p_epp p) (p_quote p) (p_wq p || b).

(** One round *)
Definition parg_body (unquote : bool) (last : nat) (p : parg) : outcome parg :=
  c ← rdb (p_buf p) (p_ep p);
  if negb (p_quote p =? 0) && (c =? p_quote p) then
    p ← put_if (negb unquote) c (set_quote 0 p); Done (p_next p)
  else if (p_quote p =? 0) && ((c =? 39) || (c =? 34)) then put_if (negb unquote) c (p_next (set_quote c p))
  else
    esc ← (if c =? 92 then d ← rdb (p_buf p) (p_ep p + 1); Done (in_set [39; 34] d && (p_ep p + 1 <? last)%nat) else Done false);
    if esc : bool then
      p ← put_if (negb unquote) c p;
      let p := p_next p in
      d ← rdb (p_buf p) (p_ep p);
      p ← p_put d p; Done (p_next p)
    else
      special ← (if p_quote p =? 0 then Done false
                 else if in_set [91; 63; 42] c then Done true else three_dots (p_buf p) (p_ep p));
      p ← p_put c (or_quoted (special && unquote) p); Done (p_next p).

Fixpoint parse_arg_loop (fuel : nat) (unquote : bool) (last : nat) (p : parg) : outcome parg :=
  match fuel with
  | O => Fail NoFuel
  | S fuel' =>
      go ← (if p_quote p =? 0 then b ← space_at (p_buf p) (p_ep p); Done (negb b) else Done true);
      if go && (p_ep p <? last)%nat then p ← parg_body unquote last p; parse_arg_loop fuel' unquote last p
      else Done p
  end.

(** The results are the buffer, the address behind the argument, its length and was_quoted. *)
Definition parse_arg (buf : list Z) (bp last : nat) (unquote : bool) (was_quoted : bool) : outcome (list Z * nat * nat * bool) :=
  p ← parse_arg_loop (S (length buf)) unquote last (mk_parg buf bp bp 0 was_quoted);
  Done (p_buf p, p_ep p, p_epp p - bp, p_wq p)%nat.

(** ** Lists of arguments *)

Set Warnings "-register-all".

(** A moved [arg] is None, and so are moved entries of [arg_globbed]. *)
Inductive Arg : Type := mk_arg
  (arg : option (list Z)) (arg_globbed : option (list (option (list Z)))) (arg_file : option (list Arg)) (was_quoted : bool).

Definition a_arg (a : Arg) := let 'mk_arg x _ _ _ := a in x.
Definition a_globbed (a : Arg) := let 'mk_arg _ x _ _ := a in x.
Definition a_file (a : Arg) := let 'mk_arg _ _ x _ := a in x.
Definition a_quoted (a : Arg) := let 'mk_arg _ _ _ x := a in x.

Section Args.
(** Whether the n-th call of malloc succeeds for a size *)
Context (gives : nat -> Z -> bool).

Definition c_malloc (n : Z) : M bool := fun w => Done (inl (gives (mallocs w) n, mk_calls (S (mallocs w)) (frees w))).
Definition c_free : M unit := fun w => Done (inl (tt, mk_calls (mallocs w) (S (frees w)))).

Definition c1xmalloc (s : Z) : M unit := ok ← c_malloc s; if ok : bool then mret tt else leave 1.

Definition new_arg : M unit := c1xmalloc 40.
Definition new_arglist (count : nat) : M unit := _ ← c1xmalloc 16; c1xmalloc (8 * (Z.of_nat count + 1)).

Fixpoint free_all {A} (l : list A) : M unit := match l with [] => mret tt | _ :: l' => _ ← c_free; free_all l' end.

(** The blocks of an argument: what delete_arg frees. Entries up to the first NULL are freed. *)
Fixpoint set_entries (l : list (option (list Z))) : nat := match l with Some _ :: l' => S (set_entries l') | _ => O end.

Fixpoint delete_arg (a : Arg) : M unit :=
  match a with
  | mk_arg arg globbed file _ =>
      _ ← (match arg with Some _ => c_free | None => mret tt end);
      _ ← (match globbed with Some l => _ ← free_all (seq 0 (set_entries l)); c_free | None => mret tt end);
      _ ← (match file with
           | Some l =>
               _ ← (fix dels (l : list Arg) : M unit := match l with [] => mret tt | x :: l' => _ ← delete_arg x; dels l' end) l;
               _ ← c_free; c_free
           | None => mret tt
           end);
      c_free
  end.

Fixpoint delete_args (l : list Arg) : M unit := match l with [] => mret tt | x :: l' => _ ← delete_arg x; delete_args l' end.
Definition delete_arglist (al : list Arg) : M unit := _ ← delete_args al; _ ← c_free; c_free.

(** ** parse_bytes *)

(** [while (isspace( *bp) && bp < last) bp++;] *)
Fixpoint skip_spaces (fuel : nat) (buf : list Z) (bp last : nat) : outcome nat :=
  match fuel with
  | O => Fail NoFuel
  | S fuel' => b ← space_at buf bp; if b && (bp <? last)%nat then skip_spaces fuel' buf (bp + 1) last else Done bp
  end.

Definition slice (buf : list Z) (i n : nat) : list Z := take n (drop i buf).

(** The arguments from [bp] on *)
Fixpoint parse_bytes_loop (fuel : nat) (unquote : bool) (buf : list Z) (bp last : nat) : M (list Z * list Arg) :=
  match fuel with
  | O => run (Fail NoFuel)
  | S fuel' =>
      if (bp <? last)%nat then
        bp ← run (skip_spaces (S (length buf)) buf bp last);
        if (bp =? last)%nat then mret (buf, [])
        else
          _ ← new_arg;
          '(buf, ep, arg_len, was_quoted) ← run (parse_arg buf bp last unquote false);
          _ ← c1xmalloc (Z.of_nat arg_len + 1);
          '(buf', al) ← parse_bytes_loop fuel' unquote buf (ep + 1) last;
          mret (buf', mk_arg (Some (slice buf bp arg_len)) None None was_quoted :: al)
      else mret (buf, [])
  end.

(** The results are the buffer and the list. *)
Definition parse_bytes (bytes : list Z) (length_ : nat) (unquote : bool) : M (list Z * list Arg) :=
  '(buf, al) ← parse_bytes_loop (S length_) unquote bytes 0 length_;
  _ ← new_arglist (length al);
  mret (buf, al).

(** [strlen(bp)] *)
Fixpoint str_len (fuel : nat) (buf : list Z) (bp : nat) : outcome nat :=
  match fuel with
  | O => Fail NoFuel
  | S fuel' => b ← rdb buf bp; if b =? 0 then Done O else n ← str_len fuel' buf (bp + 1); Done (S n)
  end.

Fixpoint parse_print0_loop (fuel : nat) (buf : list Z) (bp last : nat) : M (list Arg) :=
  match fuel with
  | O => run (Fail NoFuel)
  | S fuel' =>
      if (bp <? last)%nat then
        arg_len ← run (str_len (S (length buf)) buf bp);
        _ ← new_arg;
        _ ← c1xmalloc (Z.of_nat arg_len + 1);
        al ← parse_print0_loop fuel' buf (bp + arg_len + 1) last;
        mret (mk_arg (Some (slice buf bp arg_len)) None None true :: al)
      else mret []
  end.

Definition parse_print0 (bytes : list Z) (length_ : nat) : M (list Arg) :=
  al ← parse_print0_loop (S length_) bytes 0 length_;
  _ ← new_arglist (length al);
  mret al.

(** ** The arrays *)

(** [for (j=0; arg_globbed[j]; j++);] *)
Fixpoint count_arg (a : Arg) : nat :=
  match a with
  | mk_arg _ (Some g) _ _ => set_entries g
  | mk_arg _ None (Some l) _ => list_sum (count_arg <$> l)
  | mk_arg _ None None _ => 1
  end.
Definition count_args (al : list Arg) : nat := list_sum (count_arg <$> al).

(** An array of pointers; [largv] is the index of the next entry. *)
Definition cells : Type := list (option (list Z)).
Definition set_cell (v : cells) (i : nat) (x : option (list Z)) : outcome cells :=
  if (i <? length v)%nat then Done (<[i := x]> v) else Fail UB.

Fixpoint fill_globbed (v : cells) (largv : nat) (g : list (option (list Z))) : outcome (cells * nat * list (option (list Z))) :=
  match g with
  | Some s :: g' =>
      v ← set_cell v largv (Some s);
      '(v, largv, g') ← fill_globbed v (largv + 1) g';
      Done (v, largv, None :: g')
  | _ => Done (v, largv, g)
  end.

Fixpoint fill_arg (a : Arg) (v : cells) (largv : nat) : outcome (cells * nat * Arg) :=
  match a with
  | mk_arg arg (Some g) file q => '(v, largv, g) ← fill_globbed v largv g; Done (v, largv, mk_arg arg (Some g) file q)
  | mk_arg arg None (Some l) q =>
      '(v, largv, l) ← (fix fills (l : list Arg) (v : cells) (largv : nat) : outcome (cells * nat * list Arg) :=
        match l with
        | [] => Done (v, largv, [])
        | x :: l' => '(v, largv, x) ← fill_arg x v largv; '(v, largv, l') ← fills l' v largv; Done (v, largv, x :: l')
        end) l v largv;
      Done (v, largv, mk_arg arg None (Some l) q)
  | mk_arg arg None None q => v ← set_cell v largv arg; Done (v, largv + 1, mk_arg None None None q)%nat
  end.

Fixpoint fill_args (l : list Arg) (v : cells) (largv : nat) : outcome (cells * nat * list Arg) :=
  match l with
  | [] => Done (v, largv, [])
  | x :: l' => '(v, largv, x) ← fill_arg x v largv; '(v, largv, l') ← fill_args l' v largv; Done (v, largv, x :: l')
  end.

(** ** Response files and wildcards *)

(** What _open, lseek and _read make of a name: the size of the file, the number that _read
    returns and the bytes it has read *)
Context (open_file : list Z -> option (Z * Z * list Z)).
(** The byte of a block from malloc that nothing was stored in *)
Context (junk : Z).
Context (glob_function : list Z -> option (list (list Z))).
Context (startup_flags : Z).

(** The bytes of a block up to its first NUL *)
Fixpoint c_string (l : list Z) : list Z := match l with c :: l' => if c =? 0 then [] else c :: c_string l' | [] => [] end.

Definition the_arg (a : Arg) : outcome (list Z) := match a_arg a with Some s => Done s | None => Fail UB end.

(** [_crt0_startup_flags & f] *)
Definition flag_set (f : Z) : bool := negb (startup_flags .& f =? 0).

(** The list of a file that was opened *)
Definition read_response (st_size len : Z) (data : list Z) : M (list Arg) :=
  let st_size := if st_size <? 0 then 0 else st_size in
  _ ← c1xmalloc (st_size + 1);
  let len := if len <? 0 then 0 else len in
  let bytes := data ++ replicate (Z.to_nat (st_size + 1) - length data) junk in
  c ← (if 0 <? len then run (rdb bytes (Z.to_nat (len - 1))) else mret 1);
  let len := if (0 <? len) && (c =? 26) then len - 1 else len in
  c ← (if 0 <? len then run (rdb bytes (Z.to_nat (len - 1))) else mret 1);
  if (0 <? len) && (c =? 0) then parse_print0 bytes (Z.to_nat len)
  else '(_, al) ← parse_bytes bytes (Z.to_nat len) (negb (flag_set _CRT0_FLAG_KEEP_QUOTES)); mret al.

(** [fuel] bounds the depth of files in files. *)
Fixpoint expand_response_files (fuel : nat) (al : list Arg) : M (list Arg) :=
  match fuel with
  | O => run (Fail NoFuel)
  | S fuel' =>
      (fix each (al : list Arg) : M (list Arg) :=
        match al with
        | [] => mret []
        | a :: al' =>
            s ← (if a_quoted a then mret [] else run (the_arg a));
            a ← (if negb (a_quoted a) && (hd 0 s =? 64) then
                   match open_file (c_string (tail s)) with
                   | None => mret a
                   | Some (st_size, len, data) =>
                       l ← read_response st_size len data;
                       l ← expand_response_files fuel' l;
                       _ ← c_free;
                       mret (mk_arg (a_arg a) (a_globbed a) (Some l) (a_quoted a))
                   end
                 else mret a);
            al' ← each al';
            mret (a :: al')
        end) al
  end.

Fixpoint expand_wildcard (a : Arg) : outcome Arg :=
  match a with
  | mk_arg arg g (Some l) q =>
      l ← (fix each (l : list Arg) : outcome (list Arg) :=
        match l with [] => Done [] | x :: l' => x ← expand_wildcard x; l' ← each l'; Done (x :: l') end) l;
      Done (mk_arg arg g (Some l) q)
  | mk_arg arg g None q =>
      if q then Done a
      else
        s ← the_arg a;
        if bool_decide (42 ∈ c_string s) || bool_decide (63 ∈ c_string s)
        then Done (mk_arg arg (option_map (map Some) (glob_function (c_string s))) None q)
        else Done a
  end.

Fixpoint expand_wildcards (l : list Arg) : outcome (list Arg) :=
  match l with [] => Done [] | x :: l' => x ← expand_wildcard x; l' ← expand_wildcards l'; Done (x :: l') end.

(** ** The name of the program *)

(** [__dos_argv0], [_stubinfo->argv0] up to its NUL *)
Context (dos_argv0 stub_argv0 : list Z).

Definition dos_sep (c : Z) : bool := (c =? 58) || (c =? 92) || (c =? 47).

(** The index behind the last separator *)
Fixpoint base_index (l : list Z) (i ls : nat) : nat :=
  match l with [] => ls | c :: l' => base_index l' (S i) (if dos_sep c then S i else ls) end.

(** A character of argv0: slashes, and the case *)
Definition map_char (c : Z) : outcome Z :=
  let c := if negb (flag_set _CRT0_FLAG_USE_DOS_SLASHES) && (c =? 92) then 47 else c in
  if flag_set _CRT0_FLAG_PRESERVE_UPPER_CASE then Done c
  else u ← isupper c; if negb (u =? 0) then tolower c else Done c.

Fixpoint map_chars (l : list Z) : outcome (list Z) :=
  match l with [] => Done [] | c :: l' => c ← map_char c; l' ← map_chars l'; Done (c :: l') end.

Definition exe_suffix (l : list Z) : bool :=
  match l with
  | [a; b; c; d] => (a =? 46) && ((b =? 101) || (b =? 69)) && ((c =? 120) || (c =? 88)) && ((d =? 101) || (d =? 69))
  | _ => false
  end.

(** argv0 as it is passed on, and the new __dos_argv0 *)
Definition make_argv0 : M (list Z * list Z) :=
  dos_argv0 ← (if flag_set _CRT0_FLAG_DROP_DRIVE_SPECIFIER
               then c ← run (rdb (dos_argv0 ++ [0]) 1); mret (if c =? 58 then drop 2 dos_argv0 else dos_argv0)
               else mret dos_argv0);
  let ls := base_index dos_argv0 0 0 in
  let stub := negb (hd 0 stub_argv0 =? 0) in
  let fc := if stub then stub_argv0 else drop ls dos_argv0 in
  ok ← c_malloc (Z.of_nat ls + Z.of_nat (length fc) + 1);
  if negb ok then run (Fail UB)
  else
    let argv0 := if (ls =? 0)%nat then take 16 fc else take ls dos_argv0 ++ take 16 fc in
    argv0 ← run (if stub then l ← map_chars (take ls argv0); Done (l ++ drop ls argv0) else map_chars argv0);
    if flag_set _CRT0_FLAG_DROP_EXE_SUFFIX then
      if (length argv0 <? 4)%nat then run (Fail UB)
      else mret (if exe_suffix (drop (length argv0 - 4) argv0) then take (length argv0 - 4) argv0 else argv0, dos_argv0)
    else mret (argv0, dos_argv0).

(** ** The command line *)

(** The 128 bytes at 128 of the PSP, the variables of the environment, and DOS memory *)
Context (psp : list Z) (env : list Z -> option (list Z)) (dos : Z -> Z).

Definition CMDLINE : list Z := [67; 77; 68; 76; 73; 78; 69].

(** [while ( *cmdline != stop_token) ++cmdline; ++cmdline;] *)
Fixpoint skip_name (l : list Z) (stop_token : Z) : outcome (list Z) :=
  match l with [] => Fail UB | c :: l' => if c =? stop_token then Done l' else skip_name l' stop_token end.

(** The list; and the variable CMDLINE where it was parsed, as that left it *)
Definition scan_cmdline : M (list Arg * option (list Z)) :=
  n ← run (rdb psp 0);
  match (if n =? 127 then env CMDLINE else None) with
  | None => '(_, al) ← parse_bytes (drop 1 psp) (Z.to_nat (n .& 127)) (negb (flag_set _CRT0_FLAG_KEEP_QUOTES)); mret (al, None)
  | Some cmdline =>
      let c := hd 0 cmdline in
      let stop_token := if (c =? 34) || (c =? 39) then c else 32 in
      rest ← run (skip_name (cmdline ++ [0]) stop_token);
      '(buf, al) ← parse_bytes rest (length rest - 1) (negb (flag_set _CRT0_FLAG_KEEP_QUOTES));
      mret (al, Some (take (length cmdline + 1 - length rest) cmdline ++ c_string buf))
  end.

(** A line that names the arguments in DOS memory: the variable of the name __PROXY wins. *)
Definition proxy_args (al : list Arg) : M (list Arg * bool) :=
  match env __PROXY with
  | None => mret (al, false)
  | Some v =>
      if 50 <? Z.of_nat (length v) + 9 then run (Fail UB)
      else
        _ ← delete_arglist al;
        '(_, al) ← parse_bytes (__PROXY ++ [32] ++ v ++ [0]) (length v + 8) false;
        mret (al, true)
  end.

Fixpoint atohex_loop (l : list Z) (rv : Z) : outcome Z :=
  match l with
  | [] => Done rv
  | c :: l' =>
      let v := wrap_s 8 c - 48 in
      let v := (if 9 <? v then v - 7 else v) .& 15 in
      let rv := rv * 16 + v in
      if (- 2 ^ 31 <=? rv) && (rv <? 2 ^ 31) then atohex_loop l' rv else Fail UB
  end.
Definition atohex (s : list Z) : outcome Z := atohex_loop (c_string s) 0.

Definition dos_limit : Z := 0x110000.

(** The string at an address of DOS memory *)
Fixpoint far_string (fuel : nat) (a : Z) : outcome (list Z) :=
  match fuel with
  | O => Fail UB
  | S fuel' =>
      if (0 <=? a) && (a <? dos_limit) then
        let c := dos a in if c =? 0 then Done [] else l ← far_string fuel' (a + 1); Done (c :: l)
      else Fail UB
  end.

(** The i-th argument in DOS memory *)
Definition far_arg (proxy_v : bool) (seg ofs : Z) (i : nat) : M Arg :=
  let at_ := seg * 16 + ofs + 2 * Z.of_nat i in
  _ ← run (if (0 <=? at_) && (at_ + 1 <? dos_limit) then Done tt else Fail UB);
  let rm := dos at_ + 256 * dos (at_ + 1) in
  s ← run (far_string (Z.to_nat dos_limit) (seg * 16 + rm));
  _ ← new_arg;
  _ ← c1xmalloc (Z.of_nat (length s) + 1);
  if proxy_v && negb (flag_set _CRT0_FLAG_KEEP_QUOTES) then
    '(buf, _, ln, was_quoted) ← run (parse_arg (s ++ [0]) 0 (length s) true false);
    buf ← run (wrb buf ln 0);
    mret (mk_arg (Some (take (length s) buf)) None None was_quoted)
  else mret (mk_arg (Some s) None None false).

Fixpoint far_args (proxy_v : bool) (seg ofs : Z) (n : nat) (i : nat) : M (list Arg) :=
  match n with
  | O => mret []
  | S n' => a ← far_arg proxy_v seg ofs i; al ← far_args proxy_v seg ofs n' (S i); mret (a :: al)
  end.

(** The arguments; prepend_argv0 and should_expand_wildcards *)
Definition resolve_proxy (al : list Arg) (proxy_v : bool) : M (list Arg * bool * bool) :=
  let is_proxy := match al with
    | a0 :: _ :: _ :: _ :: _ => match a_arg a0 with Some s => bool_decide (c_string s = tail __PROXY) | None => false end
    | _ => false end in
  if is_proxy then
    match al with
    | _ :: a1 :: a2 :: a3 :: _ =>
        s1 ← run (the_arg a1); argc ← run (atohex s1);
        s2 ← run (the_arg a2); seg ← run (atohex s2);
        s3 ← run (the_arg a3); ofs ← run (atohex s3);
        _ ← delete_arglist al;
        if argc <? 0 then run (Fail UB)
        else
          _ ← new_arglist (Z.to_nat argc);
          l ← far_args proxy_v seg ofs (Z.to_nat argc) 0;
          mret (l, false, proxy_v)
    | _ => run (Fail UB)
    end
  else mret (al, true, true).

(** argc and argv, and the variable CMDLINE where it was parsed. [fuel] bounds the depth of
    response files. *)
Definition __crt0_setup_arguments (fuel : nat) : M (nat * cells * option (list Z)) :=
  '(argv0, _) ← make_argv0;
  '(al, cmdline) ← scan_cmdline;
  '(al, proxy_v) ← proxy_args al;
  '(al, prepend_argv0, should_expand_wildcards) ← resolve_proxy al proxy_v;
  al ← (if flag_set _CRT0_FLAG_DISALLOW_RESPONSE_FILES then mret al else expand_response_files fuel al);
  al ← run (if should_expand_wildcards : bool then expand_wildcards al else Done al);
  let prepend := if prepend_argv0 : bool then 1%nat else 0%nat in
  let argc := (prepend + count_args al)%nat in
  _ ← c1xmalloc (8 * (Z.of_nat argc + 1));
  let v := replicate (argc + 1) None in
  v ← run (if prepend_argv0 : bool then set_cell v 0 (Some argv0) else Done v);
  '(v, e, _) ← run (fill_args al v prepend);
  v ← run (set_cell v e None);
  mret (argc, v, cmdline).

End Args.
