(* ===== verification/CrtArgsProps.v ===== *)
(** * The arguments of a program: theorems

    What the parser of c1args.c makes of a command line, against a reference on lists; and
    the whole way from the command line to argv. *)

From stdpp Require Import base gmap list numbers.
From Stdlib Require Import ZArith Lia.
From S2P Require Import Prelude Ctype MemFuns Strings CrtArgs.

Open Scope Z_scope.
Open Scope c_scope.

(** ** The reference *)

Definition dots (l : list Z) : bool := bool_decide (take 3 l = [46; 46; 46]).

(** A text with more in front *)
Definition pre (t : list Z) (r : list Z * bool * list Z) : list Z * bool * list Z := let '(t', sp, rest) := r in (t ++ t', sp, rest).
Definition mark_special (b : bool) (r : list Z * bool * list Z) : list Z * bool * list Z := let '(t, sp, rest) := r in (t, b || sp, rest).

(** The first argument of [l], inside of the quotes [q]: its text, whether it has quoted
    wildcards, and what follows *)
Fixpoint arg_ref (unquote : bool) (q : Z) (l : list Z) : list Z * bool * list Z :=
  match l with
  | [] => ([], false, [])
  | c :: l' =>
      let kept := if unquote then [] else [c] in
      let plain := mark_special (negb (q =? 0) && (in_set [91; 63; 42] c || dots l) && unquote) (pre [c] (arg_ref unquote q l')) in
      if (q =? 0) && space_spec c then ([], false, l)
      else if negb (q =? 0) && (c =? q) then pre kept (arg_ref unquote 0 l')
      else if (q =? 0) && ((c =? 39) || (c =? 34)) then pre kept (arg_ref unquote c l')
      else
        match l' with
        | d :: l'' => if (c =? 92) && in_set [39; 34] d then pre (kept ++ [d]) (arg_ref unquote q l'') else plain
        | [] => plain
        end
  end.

Fixpoint drop_spaces (l : list Z) : list Z :=
  match l with c :: l' => if space_spec c then drop_spaces l' else l | [] => [] end.

Fixpoint args_ref (fuel : nat) (unquote : bool) (l : list Z) : list (list Z * bool) :=
  match fuel with
  | O => []
  | S fuel' =>
      match drop_spaces l with
      | [] => []
      | l1 => let '(t, sp, rest) := arg_ref unquote 0 l1 in (t, sp) :: args_ref fuel' unquote (tail rest)
      end
  end.

(** The arguments of a line *)
Definition split_args (unquote : bool) (l : list Z) : list (list Z * bool) := args_ref (S (length l)) unquote l.

Definition plain_arg (x : list Z * bool) : Arg := mk_arg (Some x.1) None None x.2.

(** ** parse_arg *)

Lemma rdb_Some buf i b : buf !! i = Some b -> rdb buf i = Done b.
Proof. unfold rdb. by intros ->. Qed.

Lemma space_at_spec buf i b : buf !! i = Some b -> 0 <= b < 256 -> space_at buf i = Done (space_spec b).
Proof.
  intros E Hb. unfold space_at. rewrite (rdb_Some _ _ _ E), bind_Done, isspace_spec, bind_Done by lia. by destruct (space_spec b).
Qed.

(** The text [l] lies at [i], and a byte that is no dot is behind it. *)
Definition text_at (buf : list Z) (i : nat) (l : list Z) : Prop :=
  exists z r, drop i buf = l ++ z :: r /\ z <> 46 /\ bytes_ok (l ++ [z]).

Lemma text_at_cons buf i c l : text_at buf i (c :: l) -> buf !! i = Some c /\ 0 <= c < 256 /\ text_at buf (S i) l.
Proof.
  intros (z & r & E & Hz & Hb). apply bytes_ok_cons in Hb as [Hc Hb]. split_and!; [|lia|lia|].
  - rewrite <- (Nat.add_0_r i), <- lookup_drop, E. done.
  - exists z, r. split_and!; [|done|done]. replace (S i) with (i + 1)%nat by lia. by rewrite <- drop_drop, E.
Qed.

Lemma text_at_end buf i : text_at buf i [] -> exists z, buf !! i = Some z /\ 0 <= z < 256 /\ z <> 46.
Proof.
  intros (z & r & E & Hz & Hb). exists z. apply bytes_ok_cons in Hb as [? _]. split_and!; [|lia|lia|done].
  rewrite <- (Nat.add_0_r i), <- lookup_drop, E. done.
Qed.

(** The byte at [i + n], or the one behind the text *)
Lemma text_at_skip buf i l1 l2 : text_at buf i (l1 ++ l2) -> text_at buf (i + length l1) l2.
Proof.
  revert i. induction l1 as [|c l1 IH]; intros i H; [by rewrite Nat.add_0_r|]. apply text_at_cons in H as (_ & _ & H).
  apply IH in H. cbn [length]. by replace (i + S (length l1))%nat with (S i + length l1)%nat by lia.
Qed.

Lemma text_at_write buf i l j b : text_at buf i l -> (j < i)%nat -> text_at (<[j := b]> buf) i l.
Proof. intros (z & r & E & H) Hj. exists z, r. split; [|done]. by rewrite drop_insert_lt. Qed.

Lemma three_dots_spec buf i c l : text_at buf i (c :: l) -> three_dots buf i = Done (dots (c :: l)).
Proof.
  intros H. unfold three_dots, dots. pose proof H as (Hc & _ & H1)%text_at_cons. rewrite (rdb_Some _ _ _ Hc), bind_Done.
  destruct (Z.eqb_spec c 46) as [->|Hne]; cbn [negb].
  2: { f_equal. symmetry. apply bool_decide_eq_false_2. cbn. congruence. }
  rewrite Nat.add_1_r. destruct l as [|d l].
  { apply text_at_end in H1 as (z & Hz & _ & Hne). rewrite (rdb_Some _ _ _ Hz), bind_Done, (proj2 (Z.eqb_neq _ _) Hne). done. }
  pose proof H1 as (Hd & _ & H2)%text_at_cons. rewrite (rdb_Some _ _ _ Hd), bind_Done.
  destruct (Z.eqb_spec d 46) as [->|Hne]; cbn [negb].
  2: { f_equal. symmetry. apply bool_decide_eq_false_2. cbn. congruence. }
  replace (i + 2)%nat with (S (S i)) by lia. destruct l as [|e l].
  { apply text_at_end in H2 as (z & Hz & _ & Hne). rewrite (rdb_Some _ _ _ Hz), bind_Done. f_equal. by apply Z.eqb_neq. }
  apply text_at_cons in H2 as (He & _). rewrite (rdb_Some _ _ _ He), bind_Done. f_equal.
  destruct (Z.eqb_spec e 46) as [->|Hne]; symmetry; [by apply bool_decide_eq_true_2|apply bool_decide_eq_false_2; cbn; congruence].
Qed.

(** [t] was written at [i], and nothing else below or from [j] on was. *)
Record wrote_at (buf : list Z) (i : nat) (t : list Z) (j : nat) (buf' : list Z) : Prop := {
  wa_len : length buf' = length buf;
  wa_text : forall k b, t !! k = Some b -> buf' !! (i + k)%nat = Some b;
  wa_out : forall k, (k < i \/ j <= k)%nat -> buf' !! k = buf !! k }.

Lemma wrote_at_nil buf i j : wrote_at buf i [] j buf.
Proof. by split. Qed.

Lemma wrote_at_cons buf i c t j buf' : (i < length buf)%nat -> (i < j)%nat ->
  wrote_at (<[i := c]> buf) (S i) t j buf' -> wrote_at buf i (c :: t) j buf'.
Proof.
  intros Hi Hj [Hl Ht Ho]. rewrite length_insert in Hl. split; [done| |].
  - intros [|k] b Hk; [|replace (i + S k)%nat with (S i + k)%nat by lia; by apply Ht].
    rewrite Nat.add_0_r, Ho by lia. injection Hk as <-. by apply list_lookup_insert_eq.
  - intros k Hk. rewrite Ho by lia. apply list_lookup_insert_ne. lia.
Qed.

Lemma wrote_at_app buf i t j buf1 t2 j2 buf2 : (i + length t <= j <= j2)%nat ->
  wrote_at buf i t j buf1 -> wrote_at buf1 (i + length t) t2 j2 buf2 -> wrote_at buf i (t ++ t2) j2 buf2.
Proof.
  intros Hj [Hl Ht Ho] [Hl2 Ht2 Ho2]. split; [congruence| |].
  - intros k b [Hk|[Hge Hk]]%lookup_app_Some.
    + pose proof (lookup_lt_Some _ _ _ Hk). rewrite Ho2 by lia. by apply Ht.
    + replace (i + k)%nat with (i + length t + (k - length t))%nat by lia. by apply Ht2.
  - intros k Hk. rewrite Ho2, Ho by lia. done.
Qed.

Lemma wrote_at_text buf i t j buf' k l : wrote_at buf i t j buf' -> (j <= k)%nat -> text_at buf k l -> text_at buf' k l.
Proof.
  intros [Hl _ Ho] Hk (z & r & E & H). exists z, r. split; [|done]. rewrite <- E. apply list_eq. intros m.
  rewrite !lookup_drop. apply Ho. lia.
Qed.

Lemma text_at_lt buf i l : text_at buf i l -> (i + length l < length buf)%nat.
Proof.
  intros (z & r & E & _). pose proof (f_equal length E) as HL. rewrite length_drop, length_app in HL. cbn [length] in HL. lia.
Qed.

(** [p_put] of one character *)
Lemma put_spec c p : (p_epp p < length (p_buf p))%nat ->
  p_put c p = Done (mk_parg (<[p_epp p := c]> (p_buf p)) (p_ep p) (p_epp p + 1) (p_quote p) (p_wq p)).
Proof. intros H. unfold p_put, wrb. by rewrite (proj2 (Nat.ltb_lt _ _) H). Qed.

Lemma wrote_one buf i c j : (i < length buf)%nat -> (i < j)%nat -> wrote_at buf i [c] j (<[i := c]> buf).
Proof. intros. apply wrote_at_cons; [done..|]. apply wrote_at_nil. Qed.

(** A character that is kept unless quotes are dropped *)
Definition kept (unquote : bool) (c : Z) : list Z := if unquote then [] else [c].

Lemma put_if_spec unquote c p : (p_epp p < length (p_buf p))%nat -> exists buf',
  put_if (negb unquote) c p = Done (mk_parg buf' (p_ep p) (p_epp p + length (kept unquote c)) (p_quote p) (p_wq p)) /\
  forall j, (p_epp p < j)%nat -> wrote_at (p_buf p) (p_epp p) (kept unquote c) j buf'.
Proof.
  intros H. destruct unquote; cbn.
  - exists (p_buf p). split; [rewrite Nat.add_0_r; by destruct p|]. intros. apply wrote_at_nil.
  - rewrite put_spec by done. eexists. split; [done|]. intros. by apply wrote_one.
Qed.

(** What one round does: it takes [n] characters, and writes [t]. *)
Record parg_step (unquote : bool) (p : parg) (l : list Z) (n : nat) (t : list Z) (p' : parg) (sp : bool) : Prop := {
  ps_ref : arg_ref unquote (p_quote p) l = mark_special sp (pre t (arg_ref unquote (p_quote p') (drop n l)));
  ps_size : (1 <= n <= length l)%nat /\ (length t <= n)%nat;
  ps_ep : p_ep p' = (p_ep p + n)%nat;
  ps_epp : p_epp p' = (p_epp p + length t)%nat;
  ps_wq : p_wq p' = p_wq p || sp;
  ps_buf : wrote_at (p_buf p) (p_epp p) t (p_ep p + n) (p_buf p') }.

Lemma mark_false r : mark_special false r = r.
Proof. by destruct r as [[??]?]. Qed.

(** The test for an escaped quote *)
Definition escaped (c : Z) (l : list Z) : bool := match l with d :: _ => (c =? 92) && in_set [39; 34] d | [] => false end.

Lemma escape_test buf i c l : text_at buf i (c :: l) ->
  (if c =? 92 then d ← rdb buf (i + 1); Done (in_set [39; 34] d && (i + 1 <? i + S (length l))%nat) else Done false) = Done (escaped c l).
Proof.
  intros (_ & _ & H)%text_at_cons. rewrite Nat.add_1_r. destruct l as [|d l].
  - apply text_at_end in H as (z & Hz & _). rewrite (rdb_Some _ _ _ Hz), bind_Done, (proj2 (Nat.ltb_ge _ _)), andb_false_r by (cbn; lia).
    cbn. by destruct (c =? 92).
  - apply text_at_cons in H as (Hd & _). rewrite (rdb_Some _ _ _ Hd), bind_Done, (proj2 (Nat.ltb_lt _ _)), andb_true_r by (cbn; lia).
    cbn. by destruct (c =? 92).
Qed.

Lemma special_test buf i q c l : text_at buf i (c :: l) ->
  (if q =? 0 then Done false else if in_set [91; 63; 42] c then Done true else three_dots buf i) =
  Done (negb (q =? 0) && (in_set [91; 63; 42] c || dots (c :: l))).
Proof.
  intros H. rewrite (three_dots_spec _ _ _ _ H). destruct (q =? 0); [done|]. by destruct (in_set [91; 63; 42] c).
Qed.

(** A quote that opens or closes *)
Lemma quote_step unquote p c l q i q1 : (p_epp p <= p_ep p)%nat -> (p_ep p < length (p_buf p))%nat ->
  arg_ref unquote (p_quote p) (c :: l) = pre (kept unquote c) (arg_ref unquote q l) -> exists buf',
  put_if (negb unquote) c (mk_parg (p_buf p) i (p_epp p) q1 (p_wq p)) = Done (mk_parg buf' i (p_epp p + length (kept unquote c)) q1 (p_wq p)) /\
  parg_step unquote p (c :: l) 1 (kept unquote c) (mk_parg buf' (p_ep p + 1) (p_epp p + length (kept unquote c)) q (p_wq p)) false.
Proof.
  intros Hle Hlt Href. destruct (put_if_spec unquote c (mk_parg (p_buf p) i (p_epp p) q1 (p_wq p))) as (buf' & Hput & Hw); [cbn; lia|]. exists buf'. split; [done|].
  split; cbn [p_quote p_ep p_epp p_wq p_buf]; [by rewrite mark_false| |done|done|by rewrite orb_false_r|apply Hw; cbn; lia].
  destruct unquote; cbn; lia.
Qed.

(** An escaped quote *)
Lemma escape_step unquote p c d l : text_at (p_buf p) (p_ep p) (c :: d :: l) -> (p_epp p <= p_ep p)%nat ->
  arg_ref unquote (p_quote p) (c :: d :: l) = pre (kept unquote c ++ [d]) (arg_ref unquote (p_quote p) l) -> exists p',
  (p ← put_if (negb unquote) c p; let p := p_next p in d ← rdb (p_buf p) (p_ep p); p ← p_put d p; Done (p_next p)) = Done p' /\
  parg_step unquote p (c :: d :: l) 2 (kept unquote c ++ [d]) p' false.
Proof.
  intros H Hle Href. pose proof H as Hlt%text_at_lt. cbn [length] in Hlt. apply text_at_cons in H as (_ & _ & H).
  destruct (put_if_spec unquote c p) as (buf' & -> & Hw); [lia|]. specialize (Hw (S (p_ep p)) ltac:(lia)). rewrite bind_Done. cbn zeta.
  assert (Hk : (length (kept unquote c) <= 1)%nat) by (destruct unquote; cbn; lia).
  pose proof (wrote_at_text _ _ _ _ _ _ _ Hw (le_n _) H) as (Hd & _)%text_at_cons. cbn [p_next p_buf p_ep]. rewrite Nat.add_1_r.
  rewrite (rdb_Some _ _ _ Hd), bind_Done. pose proof (wa_len _ _ _ _ _ Hw) as HL.
  rewrite put_spec by (cbn; lia). rewrite bind_Done. eexists. split; [done|]. cbn [p_next p_quote p_ep p_epp p_wq p_buf].
  split; cbn [p_quote p_ep p_epp p_wq p_buf]; [by rewrite mark_false| | | |by rewrite orb_false_r|].
  - rewrite length_app. cbn. lia.
  - cbn. lia.
  - rewrite length_app. cbn. lia.
  - eapply wrote_at_app; [|exact Hw|apply wrote_one; cbn; lia]. lia.
Qed.

Lemma parg_body_spec unquote p c l : text_at (p_buf p) (p_ep p) (c :: l) -> (p_epp p <= p_ep p)%nat ->
  (p_quote p =? 0) && space_spec c = false ->
  exists n t p' sp, parg_body unquote (p_ep p + S (length l)) p = Done p' /\ parg_step unquote p (c :: l) n t p' sp.
Proof.
  intros H Hle Hsp. pose proof H as Hlt%text_at_lt. pose proof H as (Hc & _)%text_at_cons. cbn [length] in Hlt.
  unfold parg_body. rewrite (rdb_Some _ _ _ Hc), bind_Done, (escape_test _ _ _ _ H), (special_test _ _ _ _ _ H).
  destruct (negb (p_quote p =? 0) && (c =? p_quote p)) eqn:E1.
  { destruct (quote_step unquote p c l 0 (p_ep p) 0) as (buf' & Hput & Hs); [lia..|cbn [arg_ref]; by rewrite Hsp, E1|].
    eexists 1%nat, _, _, false. split; [|exact Hs]. unfold set_quote. by rewrite Hput. }
  destruct ((p_quote p =? 0) && ((c =? 39) || (c =? 34))) eqn:E2.
  { destruct (quote_step unquote p c l c (p_ep p + 1) c) as (buf' & Hput & Hs); [lia..|cbn [arg_ref]; by rewrite Hsp, E1, E2|].
    eexists 1%nat, _, _, false. split; [|exact Hs]. exact Hput. }
  rewrite !bind_Done. destruct (escaped c l) eqn:E3.
  { destruct l as [|d l]; [done|]. destruct (escape_step unquote p c d l) as (p' & Hp & Hs); [done..| |by eexists _, _, _, _].
    cbn [escaped] in E3. cbn [arg_ref]. by rewrite Hsp, E1, E2, E3. }
  rewrite put_spec by (cbn; lia). eexists 1%nat, [c], _, _. split; [done|]. cbn [p_next or_quoted p_quote p_ep p_epp p_wq p_buf].
  split; cbn [p_quote p_ep p_epp p_wq p_buf]; [|cbn; lia|done|done|done|apply wrote_one; lia].
  cbn [arg_ref drop]. rewrite Hsp, E1, E2. destruct l as [|d l]; [done|]. cbn [escaped] in E3. by rewrite E3.
Qed.

(** What the loop has done at its end *)
Record parg_end (unquote : bool) (p : parg) (l : list Z) (p' : parg) (t rest : list Z) (sp : bool) : Prop := {
  pe_ref : arg_ref unquote (p_quote p) l = (t, sp, rest);
  pe_ep : (p_ep p' + length rest = p_ep p + length l)%nat;
  pe_ge : (p_ep p <= p_ep p')%nat;
  pe_epp : p_epp p' = (p_epp p + length t)%nat;
  pe_le : (p_epp p' <= p_ep p')%nat;
  pe_wq : p_wq p' = p_wq p || sp;
  pe_rest : text_at (p_buf p') (p_ep p') rest;
  pe_buf : wrote_at (p_buf p) (p_epp p) t (p_ep p') (p_buf p') }.

Lemma parg_end_here unquote p l : (p_epp p <= p_ep p)%nat -> text_at (p_buf p) (p_ep p) l ->
  arg_ref unquote (p_quote p) l = ([], false, l) -> parg_end unquote p l p [] l false.
Proof. intros. split; cbn [length]; [done|done|lia|lia|lia|by rewrite orb_false_r|done|apply wrote_at_nil]. Qed.

Lemma parg_end_step unquote p l n t p1 sp p' t' rest sp' : (p_epp p <= p_ep p)%nat ->
  parg_step unquote p l n t p1 sp -> parg_end unquote p1 (drop n l) p' t' rest sp' -> parg_end unquote p l p' (t ++ t') rest (sp || sp').
Proof.
  intros Hle [Hr Hn He Hp Hw Hb] [Hr' He' Hg' Hp' Hl' Hw' Ht' Hb']. rewrite length_drop in He'.
  split; [by rewrite Hr, Hr'|lia|lia|rewrite length_app; lia|done|rewrite Hw', Hw; by rewrite orb_assoc|done|].
  eapply wrote_at_app; [|exact Hb|]; [lia|]. by rewrite <- Hp.
Qed.

Lemma parse_arg_loop_spec unquote fuel p l : text_at (p_buf p) (p_ep p) l -> (p_epp p <= p_ep p)%nat -> (length l < fuel)%nat ->
  exists p' t rest sp, parse_arg_loop fuel unquote (p_ep p + length l) p = Done p' /\ parg_end unquote p l p' t rest sp.
Proof.
  revert p l. induction fuel as [|fuel IH]; intros p l H Hle Hf; [lia|]. cbn [parse_arg_loop].
  destruct l as [|c l].
  { pose proof H as (z & Hz & Hzb & _)%text_at_end. rewrite (space_at_spec _ _ _ Hz Hzb), (proj2 (Nat.ltb_ge _ _)) by (cbn; lia).
    exists p, [], [], false. split; [|by apply parg_end_here]. destruct (p_quote p =? 0); rewrite ?bind_Done; by rewrite andb_false_r. }
  pose proof H as (Hc & Hb & _)%text_at_cons. rewrite (space_at_spec _ _ _ Hc Hb), (proj2 (Nat.ltb_lt _ _)) by (cbn; lia).
  replace (if p_quote p =? 0 then _ else _) with (Done (negb ((p_quote p =? 0) && space_spec c))) by (by destruct (p_quote p =? 0)).
  rewrite bind_Done, andb_true_r. destruct ((p_quote p =? 0) && space_spec c) eqn:Hsp; cbn [negb].
  { exists p, [], (c :: l), false. split; [done|]. apply parg_end_here; [done..|]. cbn [arg_ref]. by rewrite Hsp. }
  destruct (parg_body_spec unquote p c l H Hle Hsp) as (n & t & p1 & sp & Hp & Hs). cbn [length]. rewrite Hp, bind_Done.
  pose proof Hs as [_ Hn He Hpp _ Hw].
  destruct (IH p1 (drop n (c :: l))) as (p' & t' & rest & sp' & Hrun & Hend).
  - rewrite He. eapply wrote_at_text; [exact Hw|done|]. pose proof (text_at_skip (p_buf p) (p_ep p) (take n (c :: l)) (drop n (c :: l))) as Hk.
    rewrite take_drop, length_take, Nat.min_l in Hk by lia. by apply Hk.
  - lia.
  - rewrite length_drop. cbn [length] in *. lia.
  - exists p', (t ++ t'), rest, (sp || sp'). split; [|by eapply parg_end_step]. rewrite <- Hrun, length_drop. f_equal. cbn [length] in *. lia.
Qed.

(** What parse_arg does with the text [l] at [bp] *)
Lemma parse_arg_spec unquote buf bp l q : text_at buf bp l ->
  exists buf' t rest sp, arg_ref unquote 0 l = (t, sp, rest) /\
    parse_arg buf bp (bp + length l) unquote q = Done (buf', bp + (length l - length rest), length t, q || sp)%nat /\
    (length rest + length t <= length l)%nat /\ slice buf' bp (length t) = t /\ length buf' = length buf /\
    text_at buf' (bp + (length l - length rest)) rest.
Proof.
  intros H. unfold parse_arg. pose proof (text_at_lt _ _ _ H) as Hlt.
  destruct (parse_arg_loop_spec unquote (S (length buf)) (mk_parg buf bp bp 0 q) l) as (p' & t & rest & sp & Hrun & [Hr He Hg Hp Hl Hw Ht Hb]);
    cbn [p_buf p_ep p_epp p_quote p_wq] in *; [done|done|lia|].
  exists (p_buf p'), t, rest, sp. rewrite Hrun, bind_Done, Hw, Hp. split; [done|]. split_and!.
  - repeat f_equal; lia.
  - lia.
  - apply list_eq. intros k. unfold slice. destruct (decide (k < length t)%nat) as [Hk|Hk].
    + rewrite lookup_take_lt, lookup_drop by done. destruct (lookup_lt_is_Some_2 t k Hk) as [b Hb']. rewrite Hb'. by apply (wa_text _ _ _ _ _ Hb).
    + rewrite lookup_take_ge, lookup_ge_None_2 by lia. done.
  - apply (wa_len _ _ _ _ _ Hb).
  - by replace (bp + (length l - length rest))%nat with (p_ep p') by lia.
Qed.

(** ** Statements

    A run ends normally, or with the exit of c1xmalloc, and then a call of malloc failed. *)

Section Calls.
Context (gives : nat -> Z -> bool).

Definition refused : Prop := exists k n, gives k n = false.

Definition wpm {A} (c : M A) (w : calls) (Q : A -> calls -> Prop) : Prop :=
  match c w with Done (inl (a, w')) => Q a w' | Done (inr code) => code = 1 /\ refused | Fail _ => False end.

Lemma wpm_ret {A} (a : A) w (Q : A -> calls -> Prop) : Q a w -> wpm (mret a) w Q.
Proof. done. Qed.

Lemma wpm_bind {A B} (c : M A) (k : A -> M B) w Q : wpm c w (fun a w' => wpm (k a) w' Q) -> wpm (c ≫= k) w Q.
Proof. unfold wpm, mbind, M_bind. destruct (c w) as [[[a w']|code]|]; rewrite ?bind_Done; done. Qed.

Lemma wpm_mono {A} (c : M A) w (Q R : A -> calls -> Prop) : wpm c w Q -> (forall a w', Q a w' -> R a w') -> wpm c w R.
Proof. unfold wpm. destruct (c w) as [[[a w']|code]|]; auto. Qed.

Lemma wpm_run {A} (c : outcome A) a w (Q : A -> calls -> Prop) : c = Done a -> Q a w -> wpm (run c) w Q.
Proof. unfold wpm, run. by intros ->. Qed.

Definition more (w : calls) (m f : nat) : calls := mk_calls (mallocs w + m) (frees w + f).

Lemma wpm_c_malloc n w (Q : bool -> calls -> Prop) : Q (gives (mallocs w) n) (more w 1 0) -> wpm (c_malloc gives n) w Q.
Proof. unfold wpm, c_malloc, more. by rewrite Nat.add_1_r, Nat.add_0_r. Qed.

Lemma wpm_c_free w (Q : unit -> calls -> Prop) : Q tt (more w 0 1) -> wpm c_free w Q.
Proof. unfold wpm, c_free, more. by rewrite Nat.add_1_r, Nat.add_0_r. Qed.

Lemma wpm_c1xmalloc n w (Q : unit -> calls -> Prop) : Q tt (more w 1 0) -> wpm (c1xmalloc gives n) w Q.
Proof.
  intros H. unfold c1xmalloc. apply wpm_bind, wpm_c_malloc. destruct (gives (mallocs w) n) eqn:E; [by apply wpm_ret|].
  unfold wpm, leave. split; [done|]. by exists (mallocs w), n.
Qed.

(** When no call of malloc fails, the run ends normally. *)
Lemma wpm_ends {A} (c : M A) w Q : (forall k n, gives k n = true) -> wpm c w Q -> exists a w', c w = Done (inl (a, w')) /\ Q a w'.
Proof.
  intros Hg H. unfold wpm in H. destruct (c w) as [[[a w']|code]|]; [by eauto| |done]. destruct H as [_ (k & n & E)]. by rewrite Hg in E.
Qed.

Lemma more_more w a b c d : more (more w a b) c d = more w (a + c) (b + d).
Proof. unfold more. cbn. f_equal; lia. Qed.

(** ** parse_bytes *)

Lemma skip_spaces_spec fuel buf bp l : text_at buf bp l -> (length l < fuel)%nat ->
  skip_spaces fuel buf bp (bp + length l) = Done (bp + (length l - length (drop_spaces l)))%nat /\
  (length (drop_spaces l) <= length l)%nat /\ text_at buf (bp + (length l - length (drop_spaces l))) (drop_spaces l).
Proof.
  revert bp l. induction fuel as [|fuel IH]; intros bp l H Hf; [lia|]. cbn [skip_spaces]. destruct l as [|c l].
  { pose proof H as (z & Hz & Hzb & _)%text_at_end. rewrite (space_at_spec _ _ _ Hz Hzb), bind_Done, (proj2 (Nat.ltb_ge _ _)), andb_false_r by (cbn; lia).
    cbn. by rewrite Nat.add_0_r. }
  pose proof H as (Hc & Hb & H1)%text_at_cons. rewrite (space_at_spec _ _ _ Hc Hb), bind_Done, (proj2 (Nat.ltb_lt _ _)), andb_true_r by (cbn; lia).
  cbn [drop_spaces]. destruct (space_spec c); [|by rewrite Nat.sub_diag, Nat.add_0_r].
  destruct (IH (S bp) l H1) as (E & Hle & Ht); [cbn in Hf; lia|]. rewrite Nat.add_1_r.
  replace (bp + length (c :: l))%nat with (S bp + length l)%nat by (cbn; lia).
  replace (bp + (length (c :: l) - length (drop_spaces l)))%nat with (S bp + (length l - length (drop_spaces l)))%nat by (cbn; lia).
  split; [done|]. split; [cbn; lia|done].
Qed.

Lemma parse_bytes_loop_spec unquote fuel buf bp last l w :
  (l = [] /\ (last <= bp)%nat) \/ (text_at buf bp l /\ last = (bp + length l)%nat) -> (length l < fuel)%nat ->
  wpm (parse_bytes_loop gives fuel unquote buf bp last) w
    (fun r w' => r.2 = plain_arg <$> args_ref fuel unquote l /\ w' = more w (2 * length (args_ref fuel unquote l)) 0).
Proof.
  revert buf bp last l w. induction fuel as [|fuel IH]; intros buf bp last l w H Hf; [lia|]. cbn [parse_bytes_loop].
  assert (Hmore : forall w, more w (2 * 0) 0 = w) by (intros []; unfold more; cbn; by rewrite !Nat.add_0_r).
  destruct H as [[-> Hge]|[H ->]].
  { rewrite (proj2 (Nat.ltb_ge _ _)) by done. apply wpm_ret. cbn [snd args_ref drop_spaces length]. by rewrite Hmore. }
  destruct l as [|c l0] eqn:El.
  { rewrite (proj2 (Nat.ltb_ge _ _)) by (cbn; lia). apply wpm_ret. cbn [snd args_ref drop_spaces length]. by rewrite Hmore. }
  rewrite <- El in *. rewrite (proj2 (Nat.ltb_lt _ _)) by (rewrite El; cbn; lia). pose proof (text_at_lt _ _ _ H) as Hlt.
  destruct (skip_spaces_spec (S (length buf)) buf bp l H) as (Esk & Hle & H1); [lia|].
  apply wpm_bind. eapply wpm_run; [exact Esk|]. cbn [args_ref]. set (l1 := drop_spaces l) in *.
  destruct l1 as [|c1 l1'] eqn:E1; rewrite <- E1 in *.
  { rewrite (proj2 (Nat.eqb_eq _ _)) by (rewrite E1; cbn; lia). apply wpm_ret. cbn [snd]. by rewrite Hmore. }
  rewrite (proj2 (Nat.eqb_neq _ _)) by (rewrite E1 in *; cbn in *; lia).
  set (bp1 := (bp + (length l - length l1))%nat) in *. replace (bp + length l)%nat with (bp1 + length l1)%nat by lia.
  apply wpm_bind, wpm_c1xmalloc. destruct (parse_arg_spec unquote buf bp1 l1 false H1) as (buf' & t & rest & sp & Er & Ep & Hlen & Hsl & Hbl & Hrest).
  rewrite Er. apply wpm_bind. eapply wpm_run; [exact Ep|]. cbn beta iota. apply wpm_bind, wpm_c1xmalloc, wpm_bind.
  eapply wpm_mono.
  { apply (IH buf' _ _ (tail rest)); [|destruct rest; cbn in *; rewrite E1 in *; cbn in *; lia].
    destruct rest as [|r rest]; [left; split; [done|cbn; lia]|right]. cbn [tail length] in *.
    apply text_at_cons in Hrest as (_ & _ & Hrest). rewrite Nat.add_1_r. split; [done|]. lia. }
  intros [buf2 al] w' [Hal Hw]. cbn [snd] in *. subst al w'. apply wpm_ret. cbn [snd fmap list_fmap length]. rewrite Hsl, !more_more.
  split; [done|]. f_equal; lia.
Qed.

Lemma wpm_new_arglist n w (Q : unit -> calls -> Prop) : Q tt (more w 2 0) -> wpm (new_arglist gives n) w Q.
Proof. intros H. unfold new_arglist. apply wpm_bind, wpm_c1xmalloc, wpm_c1xmalloc. by rewrite more_more. Qed.

Lemma parse_bytes_spec unquote bytes l w : text_at bytes 0 l ->
  wpm (parse_bytes gives bytes (length l) unquote) w
    (fun r w' => r.2 = plain_arg <$> split_args unquote l /\ w' = more w (2 * length (split_args unquote l) + 2) 0).
Proof.
  intros H. unfold parse_bytes. apply wpm_bind. eapply wpm_mono; [apply (parse_bytes_loop_spec _ _ _ _ _ l); [by right|lia]|].
  intros [buf al] w' [Hal Hw]. cbn [snd] in Hal. subst al w'. apply wpm_bind, wpm_new_arglist, wpm_ret. cbn [snd]. rewrite more_more.
  split; [done|]. unfold split_args. f_equal; lia.
Qed.

(** ** Lists that end with NUL *)

(** The texts in front of the NULs *)
Fixpoint print0_ref (cur l : list Z) : list (list Z) :=
  match l with [] => [] | c :: l' => if c =? 0 then cur :: print0_ref [] l' else print0_ref (cur ++ [c]) l' end.

Lemma print0_ref_text cur t l : 0 ∉ t -> print0_ref cur (t ++ 0 :: l) = (cur ++ t) :: print0_ref [] l.
Proof.
  revert cur. induction t as [|c t IH]; intros cur H; [by rewrite app_nil_r|]. apply not_elem_of_cons in H as [Hc Ht]. cbn.
  rewrite (proj2 (Z.eqb_neq c 0)) by congruence. rewrite IH by done. by rewrite <- app_assoc.
Qed.

Lemma str_len_spec fuel buf bp t r : drop bp buf = t ++ 0 :: r -> 0 ∉ t -> (length t < fuel)%nat -> str_len fuel buf bp = Done (length t).
Proof.
  revert bp t. induction fuel as [|fuel IH]; intros bp t E Ht Hf; [lia|]. cbn [str_len].
  assert (Hl : forall c, (drop bp buf) !! 0%nat = Some c -> buf !! bp = Some c) by (intros c; by rewrite lookup_drop, Nat.add_0_r).
  destruct t as [|c t]; rewrite E in Hl; rewrite (rdb_Some _ _ _ (Hl _ eq_refl)), bind_Done; [done|].
  apply not_elem_of_cons in Ht as [Hc Ht]. rewrite (proj2 (Z.eqb_neq c 0)) by congruence. cbn in Hf. rewrite (IH (bp + 1)%nat t); [done| |done|lia].
  by rewrite <- drop_drop, E.
Qed.

(** A list that ends with NUL starts with a text and a NUL. *)
Lemma first_nul l : last l 1 = 0 -> exists t l', l = t ++ 0 :: l' /\ (0 ∉ t) /\ (l' = [] \/ last l' 1 = 0).
Proof.
  induction l as [|c l IH]; [done|]. intros H. destruct (decide (c = 0)) as [->|Hc].
  { exists [], l. split; [done|]. split; [apply not_elem_of_nil|]. destruct l; [by left|by right]. }
  destruct l as [|d l]; [cbn in H; congruence|]. destruct (IH H) as (t & l' & -> & Ht & Hl).
  exists (c :: t), l'. split; [done|]. split; [|done]. apply not_elem_of_cons. split; [congruence|done].
Qed.

Definition quoted_arg (t : list Z) : Arg := mk_arg (Some t) None None true.

Lemma parse_print0_loop_spec fuel buf bp l r w : drop bp buf = l ++ r -> l = [] \/ last l 1 = 0 -> (length l < fuel)%nat ->
  wpm (parse_print0_loop gives fuel buf bp (bp + length l)) w
    (fun al w' => al = quoted_arg <$> print0_ref [] l /\ w' = more w (2 * length (print0_ref [] l)) 0).
Proof.
  revert bp l w. induction fuel as [|fuel IH]; intros bp l w E H Hf; [lia|]. cbn [parse_print0_loop].
  destruct H as [->|H].
  { rewrite (proj2 (Nat.ltb_ge _ _)) by (cbn; lia). apply wpm_ret. split; [done|]. destruct w. unfold more. cbn. by rewrite !Nat.add_0_r. }
  destruct (first_nul l H) as (t & l' & -> & Ht & Hl'). rewrite print0_ref_text by done. cbn [app fmap list_fmap length].
  rewrite length_app in *. cbn [length] in *. rewrite (proj2 (Nat.ltb_lt _ _)) by lia. rewrite <- app_assoc in E. cbn [app] in E.
  pose proof (f_equal length E) as HL. rewrite length_drop, length_app in HL. cbn [length] in HL.
  apply wpm_bind. eapply wpm_run; [eapply str_len_spec; [exact E|done|lia]|]. apply wpm_bind, wpm_c1xmalloc, wpm_bind, wpm_c1xmalloc, wpm_bind.
  replace (bp + (length t + S (length l')))%nat with (bp + length t + 1 + length l')%nat by lia.
  eapply wpm_mono; [apply IH; [|done|lia]|].
  - replace (bp + length t + 1)%nat with (bp + length (t ++ [0%Z]))%nat by (rewrite length_app; cbn; lia).
    rewrite <- drop_drop, E. replace (t ++ 0 :: l' ++ r) with ((t ++ [0]) ++ l' ++ r) by (by rewrite <- app_assoc). apply drop_app_length.
  - intros al w' [-> ->]. apply wpm_ret. unfold slice. rewrite E, take_app_length, !more_more. split; [done|]. f_equal; lia.
Qed.

Lemma parse_print0_spec bytes l r w : bytes = l ++ r -> last l 1 = 0 ->
  wpm (parse_print0 gives bytes (length l)) w
    (fun al w' => al = quoted_arg <$> print0_ref [] l /\ w' = more w (2 * length (print0_ref [] l) + 2) 0).
Proof.
  intros -> H. unfold parse_print0. apply wpm_bind. eapply wpm_mono; [apply (parse_print0_loop_spec _ _ 0 l r); [done|by right|lia]|].
  intros al w' [-> ->]. apply wpm_bind, wpm_new_arglist, wpm_ret. rewrite more_more. split; [done|]. f_equal; lia.
Qed.

End Calls.
