(* ===== verification/CrtArgsThms.v ===== *)
(** * The arguments of a program: the way to argv

    Response files and wildcards are expanded to the words of a reference semantics, the array
    holds these words, and a line that was written with quotes is read back. *)

From stdpp Require Import base gmap list numbers.
From Stdlib Require Import ZArith Lia.
From S2P Require Import Prelude Ctype MemFuns Strings CrtArgs CrtArgsProps.

Open Scope Z_scope.
Open Scope c_scope.

(** ** The array *)

Section ArgInd.
Context (P : Arg -> Prop) (Hleaf : forall a g q, P (mk_arg a g None q)) (Hfile : forall a g l q, Forall P l -> P (mk_arg a g (Some l) q)).

(** Induction over arguments, the lists of files included *)
Fixpoint arg_nested (a : Arg) : P a :=
  match a with
  | mk_arg s g None q => Hleaf s g q
  | mk_arg s g (Some l) q =>
      Hfile s g l q ((fix all (l : list Arg) : Forall P l :=
        match l with [] => Forall_nil_2 P | x :: l' => Forall_cons_2 P x l' (arg_nested x) (all l') end) l)
  end.
End ArgInd.

(** What an argument contributes to argv *)
Fixpoint words (a : Arg) : cells :=
  match a with
  | mk_arg _ (Some g) _ _ => take (set_entries g) g
  | mk_arg _ None (Some l) _ => concat (words <$> l)
  | mk_arg s None None _ => [s]
  end.

Lemma set_entries_le g : (set_entries g <= length g)%nat.
Proof. induction g as [|[s|] g IH]; cbn; lia. Qed.

Lemma length_concat_sum {A B} (f : A -> list B) (n : A -> nat) l : Forall (fun x => n x = length (f x)) l ->
  list_sum (n <$> l) = length (concat (f <$> l)).
Proof. induction 1 as [|x l Hx _ IH]; [done|]. rewrite !fmap_cons. cbn [concat]. rewrite length_app, <- IH, <- Hx. done. Qed.

Lemma count_arg_spec a : count_arg a = length (words a).
Proof.
  induction a as [s [g|] q|s [g|] l q H] using arg_nested; cbn; rewrite ?length_take; [|done| |by apply length_concat_sum];
    pose proof (set_entries_le g); lia.
Qed.

Lemma count_args_spec l : count_args l = length (concat (words <$> l)).
Proof. apply length_concat_sum, Forall_forall. intros. apply count_arg_spec. Qed.

Lemma set_cell_spec u x y v : set_cell (u ++ x :: v) (length u) y = Done (u ++ y :: v).
Proof. unfold set_cell. rewrite (proj2 (Nat.ltb_lt _ _)) by (rewrite length_app; cbn; lia). f_equal. pose proof (insert_app_r u (x :: v) 0 y) as E. by rewrite Nat.add_0_r in E. Qed.

(** What is filled at the end of [u] *)
Definition fills {A} (f : cells -> nat -> outcome (cells * nat * A)) (ws : cells) : Prop :=
  forall u m v, length m = length ws -> exists a', f (u ++ m ++ v) (length u) = Done (u ++ ws ++ v, length (u ++ ws), a').

Lemma fills_app {A B C} (f : cells -> nat -> outcome (cells * nat * A)) (g : cells -> nat -> outcome (cells * nat * B)) (h : A -> B -> C) ws1 ws2 :
  fills f ws1 -> fills g ws2 ->
  fills (fun v i => '(v, i, a) ← f v i; '(v, i, b) ← g v i; Done (v, i, h a b)) (ws1 ++ ws2).
Proof.
  intros Hf Hg u m v Hm. rewrite length_app in Hm. rewrite <- (take_drop (length ws1) m), <- app_assoc.
  destruct (Hf u (take (length ws1) m) (drop (length ws1) m ++ v)) as [a Ha]; [rewrite length_take; lia|].
  destruct (Hg (u ++ ws1) (drop (length ws1) m) v) as [b Hb]; [rewrite length_drop; lia|].
  exists (h a b). rewrite Ha, bind_Done. rewrite <- !app_assoc in *. by rewrite Hb, bind_Done, !app_assoc.
Qed.

Lemma fills_globbed g : fills (fun v i => fill_globbed v i g) (take (set_entries g) g).
Proof.
  induction g as [|[s|] g IH]; intros u m v Hm.
  - apply nil_length_inv in Hm as ->. cbn. rewrite app_nil_r. by eexists.
  - destruct m as [|x m]; [done|]. cbn [take set_entries length] in Hm. injection Hm as Hm. cbn [app fill_globbed set_entries take].
    rewrite set_cell_spec, bind_Done. destruct (IH (u ++ [Some s]) m v Hm) as [g' Hg].
    rewrite length_app in Hg. cbn [length] in Hg. rewrite <- !app_assoc in Hg. cbn [app] in Hg. rewrite Hg, bind_Done. by eexists.
  - apply nil_length_inv in Hm as ->. cbn. rewrite app_nil_r. by eexists.
Qed.

Lemma fills_args l : Forall (fun a => fills (fill_arg a) (words a)) l -> fills (fill_args l) (concat (words <$> l)).
Proof.
  induction 1 as [|a l Ha _ IH].
  - intros u m v Hm%nil_length_inv. subst. cbn. rewrite app_nil_r. by eexists.
  - by apply (fills_app (fill_arg a) (fill_args l) cons).
Qed.

Lemma fill_arg_file s l q v i :
  fill_arg (mk_arg s None (Some l) q) v i = ('(v, i, l) ← fill_args l v i; Done (v, i, mk_arg s None (Some l) q)).
Proof. reflexivity. Qed.

Lemma fills_arg a : fills (fill_arg a) (words a).
Proof.
  induction a as [s [g|] q|s [g|] l q H] using arg_nested; intros u m v Hm.
  - destruct (fills_globbed g u m v Hm) as [g' Hg]. cbn. rewrite Hg, bind_Done. by eexists.
  - destruct m as [|x [|]]; [done| |done]. cbn. rewrite set_cell_spec, bind_Done. rewrite length_app. by eexists.
  - destruct (fills_globbed g u m v Hm) as [g' Hg]. cbn. rewrite Hg, bind_Done. by eexists.
  - destruct (fills_args l H u m v Hm) as [l' Hl]. rewrite fill_arg_file, Hl, bind_Done. by eexists.
Qed.

(** fill_args stays in an array with room for count_args entries, and stores the words. *)
Lemma fill_args_spec u l m v : length m = count_args l -> exists l',
  fill_args l (u ++ m ++ v) (length u) = Done (u ++ concat (words <$> l) ++ v, length u + count_args l, l')%nat.
Proof.
  rewrite count_args_spec. intros Hm. destruct (fills_args l ltac:(apply Forall_forall; intros; apply fills_arg) u m v Hm) as [l' E].
  exists l'. by rewrite E, length_app.
Qed.

(** ** Response files *)

Section Files.
Context (gives : nat -> Z -> bool) (open_file : list Z -> option (Z * Z * list Z)) (junk : Z)
  (glob_function : list Z -> option (list (list Z))) (startup_flags : Z).

Abbreviation flag := (flag_set startup_flags).
Abbreviation unquote := (negb (flag _CRT0_FLAG_KEEP_QUOTES)).

(** A file as _read gave it: no more than its size, and bytes *)
Definition file_ok (f : Z * Z * list Z) : Prop :=
  let '(st_size, len, data) := f in Z.of_nat (length data) = Z.max 0 len /\ len <= Z.max 0 st_size /\ bytes_ok data.

(** The text of a file, without a ^Z at its end *)
Definition file_text (f : Z * Z * list Z) : list Z := let '(_, _, data) := f in if last data 1 =? 26 then removelast data else data.

(** The arguments in a file *)
Definition file_args (f : Z * Z * list Z) : list (list Z * bool) :=
  let t := file_text f in if last t 1 =? 0 then (fun s => (s, true)) <$> print0_ref [] t else split_args unquote t.

Lemma last_lookup {A} (l : list A) d x : l !! (length l - 1)%nat = Some x -> last l d = x.
Proof.
  induction l as [|a [|b l] IH]; [done|cbn; congruence|]. intros H. change (last (b :: l) d = x). apply IH. cbn in H |- *. by rewrite Nat.sub_0_r.
Qed.

(** The last byte that was read; the code looks at it where there is one. *)
Lemma wpm_last data r w (Q : Z -> calls -> Prop) : Q (last data 1) w ->
  wpm gives (if 0 <? Z.of_nat (length data) then run (rdb (data ++ r) (Z.to_nat (Z.of_nat (length data) - 1))) else mret 1) w Q.
Proof.
  intros H. destruct data as [|a data]; [exact H|]. set (l := a :: data) in *. rewrite (proj2 (Z.ltb_lt _ _)) by (cbn; lia).
  destruct (lookup_lt_is_Some_2 l (length l - 1)) as [x Hx]; [cbn; lia|]. rewrite (last_lookup _ _ _ Hx) in H.
  eapply wpm_run; [|exact H]. apply rdb_Some. rewrite lookup_app_l by (cbn; lia).
  by replace (Z.to_nat (Z.of_nat (length l) - 1)) with (length l - 1)%nat by (cbn; lia).
Qed.

Lemma last_test data k : k <> 1 -> (0 <? Z.of_nat (length data)) && (last data 1 =? k) = (last data 1 =? k).
Proof. intros H. destruct data; [cbn; symmetry; apply Z.eqb_neq; congruence|]. by rewrite (proj2 (Z.ltb_lt _ _)) by (cbn; lia). Qed.

(** A file that was read, as a text with one byte more *)
Lemma file_text_at st_size len data : 0 <= junk < 256 -> junk <> 46 -> file_ok (st_size, len, data) ->
  let t := file_text (st_size, len, data) in exists z r,
  data ++ replicate (Z.to_nat (Z.max 0 st_size + 1) - length data) junk = t ++ z :: r /\ z <> 46 /\ bytes_ok (t ++ [z]) /\
  Z.of_nat (length t) = (if last data 1 =? 26 then Z.max 0 len - 1 else Z.max 0 len).
Proof.
  intros Hj Hj46 (Hl & Hle & Hb). cbn [file_text]. destruct (Z.eqb_spec (last data 1) 26) as [E|E].
  - assert (Hd : data = removelast data ++ [26]) by (rewrite <- E; apply app_removelast_last; by intros ->).
    set (t := removelast data) in *. clearbody t. subst data. rewrite length_app in Hl. cbn [length] in Hl.
    exists 26. eexists. rewrite <- app_assoc. split_and!; [done|done|done|lia].
  - exists junk. destruct (Z.to_nat (Z.max 0 st_size + 1) - length data)%nat as [|k] eqn:Ek; [lia|]. eexists. cbn [replicate]. split; [done|].
    split; [done|]. split; [|lia]. apply bytes_ok_app. split; [done|]. apply bytes_ok_cons. split; [lia|apply Forall_nil].
Qed.

Lemma read_response_spec st_size len data w : 0 <= junk < 256 -> junk <> 46 -> file_ok (st_size, len, data) ->
  wpm gives (read_response gives junk startup_flags st_size len data) w (fun al _ => al = plain_arg <$> file_args (st_size, len, data)).
Proof.
  intros Hj Hj46 Hok. destruct (file_text_at _ _ _ Hj Hj46 Hok) as (z & r & Eb & Hz & Hbt & Hlen). pose proof Hok as (Hl & _).
  unfold read_response. apply wpm_bind, wpm_c1xmalloc. replace (if st_size <? 0 then 0 else st_size) with (Z.max 0 st_size) by (destruct (Z.ltb_spec st_size 0); lia).
  replace (if len <? 0 then 0 else len) with (Z.of_nat (length data)) by (destruct (Z.ltb_spec len 0); lia).
  apply wpm_bind, wpm_last. cbv zeta. rewrite last_test by done. rewrite Eb.
  replace (if last data 1 =? 26 then _ else _) with (Z.of_nat (length (file_text (st_size, len, data)))) by (by rewrite Hlen, Hl).
  apply wpm_bind, wpm_last. rewrite last_test, Nat2Z.id by done. unfold file_args. set (t := file_text _) in *.
  destruct (Z.eqb_spec (last t 1) 0) as [E|E].
  - eapply wpm_mono; [by apply (parse_print0_spec gives _ t (z :: r))|]. intros al w' [-> _]. by rewrite <- list_fmap_compose.
  - apply wpm_bind. eapply wpm_mono; [apply (parse_bytes_spec gives _ _ t); by exists z, r|]. intros [buf al] w' [Hal _]. by apply wpm_ret.
Qed.

(** ** The words of a line *)

(** What an argument that names no file becomes *)
Definition glob_words (x : list Z * bool) : list (list Z) :=
  let '(t, q) := x in
  if negb q && (bool_decide (42 ∈ c_string t) || bool_decide (63 ∈ c_string t))
  then match glob_function (c_string t) with Some l => l | None => [t] end else [t].

(** The response file an argument names *)
Definition names_file (x : list Z * bool) : option (Z * Z * list Z) :=
  let '(t, q) := x in if negb q && (hd 0 t =? 64) then open_file (c_string (tail t)) else None.

(** The words, with files to the depth [n] *)
Fixpoint line_words (n : nat) (l : list (list Z * bool)) : list (list Z) :=
  match n with
  | O => concat (glob_words <$> l)
  | S n' => concat ((fun x => match names_file x with Some f => line_words n' (file_args f) | None => glob_words x end) <$> l)
  end.

(** Files lie inside of files no deeper than [n]. *)
Fixpoint depth_ok (n : nat) (l : list (list Z * bool)) : Prop :=
  match n with
  | O => Forall (fun x => names_file x = None) l
  | S n' => Forall (fun x => match names_file x with Some f => file_ok f /\ depth_ok n' (file_args f) | None => True end) l
  end.

(** An argument stands for words: its wildcards can be expanded, and then it fills these entries. *)
Definition stands (a : Arg) (ws : list (list Z)) : Prop := exists a', expand_wildcard glob_function a = Done a' /\ words a' = Some <$> ws.
Definition all_stand (l : list Arg) (ws : list (list Z)) : Prop :=
  exists l', expand_wildcards glob_function l = Done l' /\ concat (words <$> l') = Some <$> ws.

Lemma set_entries_all l : take (set_entries (map Some l)) (map Some l) = map Some l.
Proof. induction l as [|x l IH]; [done|]. cbn. by rewrite IH. Qed.

Lemma plain_stands x : stands (plain_arg x) (glob_words x).
Proof.
  destruct x as [t q]. unfold stands, plain_arg, glob_words. cbn. destruct q; [by eexists|]. cbn.
  destruct (bool_decide (42 ∈ c_string t) || bool_decide (63 ∈ c_string t)); [|by eexists]. eexists. split; [done|]. cbn.
  destruct (glob_function (c_string t)) as [g|]; [|done]. cbn. apply set_entries_all.
Qed.

Lemma all_stand_nil : all_stand [] [].
Proof. by eexists. Qed.

Lemma all_stand_cons a l ws1 ws2 : stands a ws1 -> all_stand l ws2 -> all_stand (a :: l) (ws1 ++ ws2).
Proof.
  intros (a' & Ea & Ha) (l' & El & Hl). exists (a' :: l'). cbn [expand_wildcards]. rewrite Ea, bind_Done, El. split; [done|].
  rewrite fmap_cons. cbn [concat]. by rewrite Ha, Hl, fmap_app.
Qed.

Lemma file_stands s l q ws : all_stand l ws -> stands (mk_arg s None (Some l) q) ws.
Proof.
  intros (l' & El & Hl). exists (mk_arg s None (Some l') q). split; [|done].
  change ((l ← expand_wildcards glob_function l; Done (mk_arg s None (Some l) q)) = Done (mk_arg s None (Some l') q)). by rewrite El.
Qed.

Lemma plain_all_stand l : all_stand (plain_arg <$> l) (concat (glob_words <$> l)).
Proof. induction l as [|x l IH]; [apply all_stand_nil|]. apply all_stand_cons; [apply plain_stands|done]. Qed.

Abbreviation expand := (expand_response_files gives open_file junk startup_flags).

(** One argument of the list, with [k] for the files inside of a file *)
Definition expand_one (k : list Arg -> M (list Arg)) (a : Arg) : M Arg :=
  s ← (if a_quoted a then mret [] else run (the_arg a));
  if negb (a_quoted a) && (hd 0 s =? 64) then
    match open_file (c_string (tail s)) with
    | None => mret a
    | Some (st_size, len, data) =>
        l ← read_response gives junk startup_flags st_size len data; l ← k l; _ ← c_free;
        mret (mk_arg (a_arg a) (a_globbed a) (Some l) (a_quoted a))
    end
  else mret a.

Lemma expand_cons n a al w : expand (S n) (a :: al) w = (a ← expand_one (expand n) a; al ← expand (S n) al; mret (a :: al)) w.
Proof.
  unfold expand_one. cbn [expand_response_files]. unfold mbind, M_bind.
  destruct ((if a_quoted a then mret [] else run (the_arg a)) w) as [[[s w1]|code]|]; done.
Qed.

Lemma wpm_expand_cons n a al w Q :
  wpm gives (a ← expand_one (expand n) a; al ← expand (S n) al; mret (a :: al)) w Q -> wpm gives (expand (S n) (a :: al)) w Q.
Proof. unfold wpm. by rewrite expand_cons. Qed.

Lemma expand_one_spec k x ws w : 0 <= junk < 256 -> junk <> 46 ->
  match names_file x with
  | Some f => file_ok f /\ forall w, wpm gives (k (plain_arg <$> file_args f)) w (fun al _ => all_stand al ws)
  | None => ws = glob_words x
  end -> wpm gives (expand_one k (plain_arg x)) w (fun a _ => stands a ws).
Proof.
  intros Hj Hj46 H. destruct x as [t q]. unfold expand_one, names_file in *. cbn [plain_arg a_quoted fst snd] in *.
  destruct q; cbn [negb andb] in *.
  { apply wpm_bind, wpm_ret, wpm_ret. subst ws. apply plain_stands. }
  apply wpm_bind. eapply wpm_run; [done|]. cbn [fst]. destruct (hd 0 t =? 64).
  2: { subst ws. apply wpm_ret, plain_stands. }
  destruct (open_file (c_string (tail t))) as [[[st_size len] data]|].
  2: { subst ws. apply wpm_ret, plain_stands. }
  destruct H as [Hok Hk]. apply wpm_bind. eapply wpm_mono; [by apply read_response_spec|]. intros al w1 ->.
  apply wpm_bind. eapply wpm_mono; [apply Hk|]. intros al w2 Hal. apply wpm_bind, wpm_c_free, wpm_ret. by apply file_stands.
Qed.

Lemma expand_spec n l w : 0 <= junk < 256 -> junk <> 46 -> depth_ok n l ->
  wpm gives (expand (S n) (plain_arg <$> l)) w (fun al _ => all_stand al (line_words n l)).
Proof.
  intros Hj Hj46. revert l w. induction n as [|n IHn]; intros l.
  - induction l as [|x l IH]; intros w H; [apply wpm_ret, all_stand_nil|]. apply Forall_cons_1 in H as [Hx Hl].
    apply wpm_expand_cons, wpm_bind. eapply wpm_mono; [apply (expand_one_spec _ x (glob_words x)); [done..|by rewrite Hx]|].
    intros a w1 Ha. apply wpm_bind. eapply wpm_mono; [by apply IH|]. intros al w2 Hal. apply wpm_ret. by apply (all_stand_cons _ _ (glob_words x)).
  - induction l as [|x l IH]; intros w H; [apply wpm_ret, all_stand_nil|]. apply Forall_cons_1 in H as [Hx Hl].
    apply wpm_expand_cons, wpm_bind.
    set (ws := match names_file x with Some f => line_words n (file_args f) | None => glob_words x end).
    eapply wpm_mono; [apply (expand_one_spec _ x ws); [done..|]|].
    + subst ws. destruct (names_file x) as [f|]; [|done]. destruct Hx as [Hok Hd]. split; [done|]. intros w1. by apply IHn.
    + intros a w1 Ha. apply wpm_bind. eapply wpm_mono; [by apply IH|]. intros al w2 Hal. apply wpm_ret. by apply (all_stand_cons _ _ ws).
Qed.

(** A file that names only itself is opened again and again. *)
Lemma expand_endless fuel x f w : (forall k n, gives k n = true) -> 0 <= junk < 256 -> junk <> 46 ->
  file_ok f -> names_file x = Some f -> file_args f = [x] -> expand fuel [plain_arg x] w = Fail NoFuel.
Proof.
  intros Hg Hj Hj46 Hok Hx Hf. revert w. induction fuel as [|fuel IH]; intros w; [done|].
  rewrite expand_cons. destruct x as [t q], f as [[st_size len] data]. unfold expand_one. cbn [plain_arg a_quoted fst snd names_file] in *.
  destruct q; [done|]. cbn [negb andb] in *. unfold mbind, M_bind. change (run (the_arg _) w) with (Done (inl (A := _ * calls) (B := Z) (t, w))).
  rewrite bind_Done. destruct (hd 0 t =? 64); [|done]. rewrite Hx.
  destruct (wpm_ends gives _ w _ Hg (read_response_spec _ _ _ w Hj Hj46 Hok)) as (al & w1 & E & ->). unfold mbind, M_bind. rewrite E, bind_Done, Hf.
  change (plain_arg <$> [(t, false)]) with [plain_arg (t, false)]. by rewrite (IH w1).
Qed.

(** ** argv[0] *)

(** A character of the path *)
Definition argv_char (c : Z) : Z :=
  let c := if negb (flag _CRT0_FLAG_USE_DOS_SLASHES) && (c =? 92) then 47 else c in
  if negb (flag _CRT0_FLAG_PRESERVE_UPPER_CASE) && upper_spec c then c + 32 else c.

Lemma map_chars_spec l : bytes_ok l -> map_chars startup_flags l = Done (argv_char <$> l).
Proof.
  induction 1 as [|c l Hc _ IH]; [done|]. cbn [map_chars]. unfold map_char. rewrite fmap_cons. unfold argv_char at 1.
  set (c' := if _ && (c =? 92) then 47 else c). assert (0 <= c' < 256) by (subst c'; destruct (_ && (c =? 92)); lia).
  destruct (flag _CRT0_FLAG_PRESERVE_UPPER_CASE); cbn [negb andb]; [by rewrite IH|].
  rewrite isupper_spec, bind_Done, tolower_spec by lia. destruct (upper_spec c'); by rewrite IH.
Qed.

(** The path in front, and up to 16 characters of the name *)
Definition argv0_ref (d : list Z) : list Z := argv_char <$> take (base_index d 0 0 + 16) d.

Lemma make_argv0_spec d stub w : bytes_ok d -> hd 0 stub = 0 -> (forall n, gives (mallocs w) n = true) ->
  flag _CRT0_FLAG_DROP_DRIVE_SPECIFIER = false -> flag _CRT0_FLAG_DROP_EXE_SUFFIX = false ->
  wpm gives (make_argv0 gives startup_flags d stub) w (fun r _ => r = (argv0_ref d, d)).
Proof.
  intros Hb Hs Hg Hdd Hds. unfold make_argv0. rewrite Hdd, Hds, Hs. change (negb (0 =? 0)) with false. apply wpm_bind, wpm_ret.
  apply wpm_bind, wpm_c_malloc. rewrite Hg. cbn [negb]. apply wpm_bind. eapply wpm_run; [|by apply wpm_ret].
  set (ls := base_index d 0 0). rewrite map_chars_spec.
  - unfold argv0_ref. do 2 f_equal. fold ls. destruct (Nat.eqb_spec ls 0) as [E|_]; [by rewrite E|]. by rewrite take_take_drop.
  - destruct (Nat.eqb_spec ls 0) as [_|_]; [|apply bytes_ok_app; split]; unfold bytes_ok; auto using Forall_take, Forall_drop.
Qed.

(** ** The whole start *)

Context (psp : list Z) (env : list Z -> option (list Z)) (dos : Z -> Z).

(** The line is in the PSP, with a carriage return behind it, or it is too long for that and
    in the variable CMDLINE, behind a name that is not quoted. *)
Definition line_from (line : list Z) : Prop :=
  bytes_ok line /\
  ((exists r, psp = Z.of_nat (length line) :: line ++ 13 :: r /\ (length line <= 126)%nat) \/
   (exists r name, psp = 127 :: r /\ env CMDLINE = Some (name ++ 32 :: line) /\ (32 ∉ name) /\ hd 0 name <> 34 /\ hd 0 name <> 39)).

Lemma skip_name_spec name l c : c ∉ name -> skip_name (name ++ c :: l) c = Done l.
Proof.
  induction name as [|a name IH]; intros H; cbn; [by rewrite Z.eqb_refl|]. apply not_elem_of_cons in H as [Ha H].
  rewrite (proj2 (Z.eqb_neq a c)) by congruence. by apply IH.
Qed.

Lemma scan_cmdline_spec line w : line_from line ->
  wpm gives (scan_cmdline gives startup_flags psp env) w
    (fun r _ => r.1 = plain_arg <$> split_args unquote line /\ (hd 0 psp <> 127 -> r.2 = None)).
Proof.
  intros [Hb [(r & Hp & Hl)|(r & name & Hp & He & Hn & Hq1 & Hq2)]]; unfold scan_cmdline; rewrite Hp; apply wpm_bind; (eapply wpm_run; [done|]).
  - rewrite (proj2 (Z.eqb_neq _ _)) by lia. apply wpm_bind. rewrite (Z.land_ones _ 7), Z.mod_small, Nat2Z.id by lia.
    eapply wpm_mono; [apply parse_bytes_spec|].
    + exists 13, r. split; [done|]. split; [done|]. apply bytes_ok_app. split; [done|]. apply bytes_ok_cons. split; [lia|apply List.Forall_nil].
    + intros [buf al] w' [Hal _]. by apply wpm_ret.
  - rewrite Z.eqb_refl, He. cbv zeta. assert (Hst : (hd 0 (name ++ 32 :: line) =? 34) || (hd 0 (name ++ 32 :: line) =? 39) = false).
    { destruct name as [|a name]; [done|]. cbn in *. apply orb_false_intro; by apply Z.eqb_neq. }
    rewrite Hst. apply wpm_bind. apply (wpm_run _ _ (line ++ [0])); [rewrite <- app_assoc; by apply skip_name_spec|]. apply wpm_bind.
    replace (length (line ++ [0%Z]) - 1)%nat with (length line) by (rewrite length_app; cbn; lia).
    eapply wpm_mono; [apply parse_bytes_spec|].
    + exists 0, []. split; [done|]. split; [done|]. apply bytes_ok_app. split; [done|]. apply bytes_ok_cons. split; [lia|apply List.Forall_nil].
    + intros [buf al] w' [Hal _]. by apply wpm_ret.
Qed.

(** The first argument is not the sign of a proxy. *)
Definition no_proxy (l : list (list Z * bool)) : Prop := match l with x :: _ => c_string x.1 <> tail __PROXY | [] => True end.

Lemma resolve_plain l v w : no_proxy l -> resolve_proxy gives startup_flags dos (plain_arg <$> l) v w = Done (inl (plain_arg <$> l, true, true, w)).
Proof.
  intros H. unfold resolve_proxy. destruct l as [|x [|? [|? [|? ?]]]]; [done..|]. cbn [fmap list_fmap].
  cbn [plain_arg a_arg]. rewrite bool_decide_eq_false_2 by exact H. done.
Qed.

(** argc and argv of the words: the name in front, NULL behind *)
Definition argv_of (argv0 : list Z) (ws : list (list Z)) : nat * cells := (S (length ws), Some argv0 :: (Some <$> ws) ++ [None]).

Lemma argv_filled argv0 l ws : concat (words <$> l) = Some <$> ws ->
  exists l' v, set_cell (replicate (1 + count_args l + 1) None) 0 (Some argv0) = Done v /\
    fill_args l v 1 = Done ((argv_of argv0 ws).2, S (length ws), l') /\ (1 + count_args l)%nat = S (length ws).
Proof.
  intros H. assert (Hc : count_args l = length ws) by (by rewrite count_args_spec, H, length_fmap).
  destruct (fill_args_spec [Some argv0] l (replicate (count_args l) None) [None]) as [l' E]; [apply length_replicate|].
  exists l'. eexists. split; [done|]. cbn [length app] in E. rewrite H, Hc in E. split; [|by rewrite Hc].
  etransitivity; [|exact E]. cbn. by rewrite Hc, Nat.add_1_r, replicate_S_end.
Qed.

(** From the line to argv *)
Lemma setup_spec n d stub line w : line_from line -> env __PROXY = None -> no_proxy (split_args unquote line) ->
  depth_ok n (split_args unquote line) -> bytes_ok d -> hd 0 stub = 0 -> (forall k, gives (mallocs w) k = true) ->
  flag _CRT0_FLAG_DROP_DRIVE_SPECIFIER = false -> flag _CRT0_FLAG_DROP_EXE_SUFFIX = false ->
  flag _CRT0_FLAG_DISALLOW_RESPONSE_FILES = false -> 0 <= junk < 256 -> junk <> 46 ->
  wpm gives (__crt0_setup_arguments gives open_file junk glob_function startup_flags d stub psp env dos (S n)) w
    (fun r _ => r.1 = argv_of (argv0_ref d) (line_words n (split_args unquote line)) /\ (hd 0 psp <> 127 -> r.2 = None)).
Proof.
  intros Hl He Hp Hd Hb Hs Hg F1 F2 F3 Hj Hj46. unfold __crt0_setup_arguments.
  apply wpm_bind. eapply wpm_mono; [by apply make_argv0_spec|]. intros ? w1 ->.
  apply wpm_bind. eapply wpm_mono; [by apply (scan_cmdline_spec line)|]. intros [al cmdline] w2 [Hal Hcmd]. cbn [fst snd] in Hal, Hcmd. subst al.
  unfold proxy_args. rewrite He. apply wpm_bind, wpm_ret, wpm_bind. unfold wpm at 1. rewrite resolve_plain by done.
  rewrite F3. apply wpm_bind. eapply wpm_mono; [by apply expand_spec|]. intros al w3 (al' & Ew & Hw).
  apply wpm_bind. eapply wpm_run; [exact Ew|]. destruct (argv_filled (argv0_ref d) al' _ Hw) as (l' & v & Ev & Ef & Hc).
  cbv zeta. rewrite Hc. apply wpm_bind, wpm_c1xmalloc, wpm_bind. eapply wpm_run; [by rewrite <- Hc|].
  apply wpm_bind. eapply wpm_run; [exact Ef|]. apply wpm_bind. set (ws := line_words _ _) in *.
  eapply wpm_run; [|by apply wpm_ret].
  pose proof (set_cell_spec (Some (argv0_ref d) :: (Some <$> ws)) None None []) as E. cbn [length] in E. rewrite length_fmap in E. exact E.
Qed.

End Files.

(** C26. The start-up code turns the command line into argv: the line comes from the PSP or, when
    it is too long, from CMDLINE; it is split at blanks outside of quotes, with the quotes
    removed or kept as the flags say; arguments that name response files are replaced by what
    these hold, to any depth; arguments with wildcards by what glob found. argv holds the name
    of the program, of which 16 characters behind the last slash are left ([argv0_ref]), these
    words and NULL, and argc counts them. No buffer is overrun on the way, and the only other
    end is the exit after a failed malloc. Conditions: a line of at most 126 characters with
    its carriage return, or CMDLINE with a name that is not quoted and a blank behind it
    ([line_from]; see full_line_overruns and name_alone_overruns); no proxy, in the
    environment or as the first word (proxy_line_overruns), and no name in the stub; the first
    malloc succeeds (argv0_unchecked); the flags that drop the drive, the suffix or response
    files are clear; response files nest [n] deep at most; and [junk], what the unassigned
    bytes behind the text of a response file hold, is not a dot. *)
Theorem command_line_to_argv gives open_file junk glob_function startup_flags psp env dos n d stub line :
  line_from psp env line -> env __PROXY = None ->
  let l := split_args (negb (flag_set startup_flags _CRT0_FLAG_KEEP_QUOTES)) line in
  no_proxy l -> depth_ok open_file startup_flags n l -> bytes_ok d -> hd 0 stub = 0 -> (forall k, gives 0%nat k = true) ->
  flag_set startup_flags _CRT0_FLAG_DROP_DRIVE_SPECIFIER = false -> flag_set startup_flags _CRT0_FLAG_DROP_EXE_SUFFIX = false ->
  flag_set startup_flags _CRT0_FLAG_DISALLOW_RESPONSE_FILES = false -> 0 <= junk < 256 -> junk <> 46 ->
  match __crt0_setup_arguments gives open_file junk glob_function startup_flags d stub psp env dos (S n) (mk_calls 0 0) with
  | Done (inl (argc, argv, _, _)) => (argc, argv) = argv_of (argv0_ref startup_flags d) (line_words open_file glob_function startup_flags n l)
  | Done (inr code) => code = 1 /\ exists k size, gives k size = false
  | Fail _ => False
  end.
Proof.
  cbv zeta. intros. pose proof (setup_spec gives open_file junk glob_function startup_flags psp env dos n d stub line (mk_calls 0 0)) as Hs.
  unfold wpm in Hs. destruct (__crt0_setup_arguments _ _ _ _ _ _ _ _ _ _ _ _) as [[[[[argc argv] c] w]|code]|]; by apply Hs.
Qed.
