(* ===== verification/CrtArgsQuote.v ===== *)
(** * The arguments of a program: quoting

    A way to write words on a command line, and that the start-up code gives main exactly these
    words. *)

From stdpp Require Import base gmap list numbers.
From Stdlib Require Import ZArith Lia.
From S2P Require Import Prelude Ctype MemFuns Strings CrtArgs CrtArgsProps CrtArgsThms.

Open Scope Z_scope.
Open Scope c_scope.

(** ** Writing a word *)

Definition is_quote (c : Z) : bool := (c =? 39) || (c =? 34).
Definition escape (c : Z) : list Z := if is_quote c then [92; c] else [c].

(** The word behind the opening quote. Backslashes at its end follow the closing quote. *)
Fixpoint quoted (t : list Z) : list Z :=
  if forallb (fun c => c =? 92) t then 34 :: t else match t with c :: t' => escape c ++ quoted t' | [] => [34] end.

Definition quoted_line (ws : list (list Z)) : list Z := flat_map (fun t => (34 :: quoted t) ++ [32]) ws.

(** A word with wildcards, or three dots *)
Fixpoint special (t : list Z) : bool :=
  match t with [] => false | c :: t' => in_set [91; 63; 42] c || dots t || special t' end.

(** ** Reading it back *)

Lemma in_set_spec set c : in_set set c = true <-> c ∈ set \/ c = 0.
Proof. unfold in_set. rewrite bool_decide_eq_true, elem_of_app, list_elem_of_singleton. done. Qed.

Lemma escaped_false c d l : in_set [39; 34] d = false -> escaped c (d :: l) = false.
Proof. intros H. cbn. by rewrite H, andb_false_r. Qed.

(** A character that is neither a quote nor escapes one *)
Lemma arg_ref_plain q c l : (q =? 0) && space_spec c = false -> negb (q =? 0) && (c =? q) = false -> (q =? 0) && is_quote c = false ->
  escaped c l = false ->
  arg_ref true q (c :: l) = mark_special (negb (q =? 0) && (in_set [91; 63; 42] c || dots (c :: l))) (pre [c] (arg_ref true q l)).
Proof.
  intros H1 H2 H3 H4. cbn [arg_ref]. unfold is_quote in H3. rewrite H1, H2, H3, andb_true_r. destruct l as [|d l]; [done|].
  cbn [escaped] in H4. by rewrite H4.
Qed.

Lemma all_backslashes c t : forallb (fun c => c =? 92) (c :: t) = true -> c = 92 /\ forallb (fun c => c =? 92) t = true.
Proof. cbn. intros [H%Z.eqb_eq Ht]%andb_true_iff. done. Qed.

Lemma arg_ref_backslashes t r : forallb (fun c => c =? 92) t = true -> arg_ref true 0 (t ++ 32 :: r) = (t, false, 32 :: r).
Proof.
  induction t as [|c t IH]; intros H; [done|]. apply all_backslashes in H as [-> H]. cbn [app].
  rewrite arg_ref_plain, IH; [done|done|done|done|done|]. destruct t as [|d t]; [done|]. apply all_backslashes in H as [-> _]. done.
Qed.

Lemma special_backslashes t : forallb (fun c => c =? 92) t = true -> special t = false.
Proof. induction t as [|c t IH]; intros H; [done|]. apply all_backslashes in H as [-> H]. cbn [special]. by rewrite IH. Qed.

(** The first character of a word that is written *)
Lemma quoted_first t r : 0 ∉ t -> exists d l, quoted t ++ r = d :: l /\
  (forallb (fun c => c =? 92) t = false -> in_set [39; 34] d = false) /\ (d = 46 <-> hd 0 t = 46) /\
  (d = 46 -> l = quoted (tail t) ++ r).
Proof.
  intros Hz. destruct t as [|c t]; [by exists 34, r|]. cbn [quoted]. destruct (forallb _ (c :: t)) eqn:E.
  { apply all_backslashes in E as [-> _]. by exists 34, ((92 :: t) ++ r). }
  apply not_elem_of_cons in Hz as [Hc _]. unfold escape, is_quote. destruct ((c =? 39) || (c =? 34)) eqn:Eq; cbn [app].
  - exists 92. eexists. split; [done|]. split; [done|]. split; [|done]. cbn. split; [done|]. intros ->. done.
  - exists c. eexists. split; [done|]. split; [|done]. intros _. apply orb_false_iff in Eq as [H1%Z.eqb_neq H2%Z.eqb_neq].
    destruct (in_set [39; 34] c) eqn:Ei; [|done]. apply in_set_spec in Ei. rewrite !elem_of_cons, elem_of_nil in Ei. naive_solver.
Qed.

Lemma dots_cons3 l : dots l = true <-> hd 0 l = 46 /\ hd 0 (tail l) = 46 /\ hd 0 (tail (tail l)) = 46.
Proof.
  unfold dots. rewrite bool_decide_eq_true. destruct l as [|a [|b [|c l]]]; cbn; naive_solver.
Qed.

Lemma dots_quoted c t r : 0 ∉ t -> dots (c :: quoted t ++ r) = dots (c :: t).
Proof.
  intros Hz. apply eq_true_iff_eq. rewrite !dots_cons3. cbn [hd tail list.tail].
  destruct (quoted_first t r Hz) as (d & l & -> & _ & Hd & Hl). cbn [hd tail list.tail]. rewrite <- Hd.
  destruct (decide (d = 46)) as [H46|]; [|naive_solver]. rewrite (Hl H46).
  destruct (quoted_first (tail t) r) as (e & l' & -> & _ & He & _); [|cbn; by rewrite <- He].
  destruct t; [done|]. by apply not_elem_of_cons in Hz as [_ ?].
Qed.

Lemma arg_ref_escaped q c d l : (q =? 0) && space_spec c = false -> negb (q =? 0) && (c =? q) = false -> (q =? 0) && is_quote c = false ->
  escaped c (d :: l) = true -> arg_ref true q (c :: d :: l) = pre [d] (arg_ref true q l).
Proof.
  intros H1 H2 H3 H4. cbn [escaped] in H4. unfold is_quote in H3. cbn [arg_ref]. by rewrite H1, H2, H3, H4.
Qed.

(** A word that was written is read. *)
Lemma arg_ref_quoted t r : 0 ∉ t -> arg_ref true 34 (quoted t ++ 32 :: r) = (t, special t, 32 :: r).
Proof.
  induction t as [|c t IH]; intros Hz; [done|]. cbn [quoted]. destruct (forallb _ (c :: t)) eqn:E.
  { rewrite special_backslashes by done. change (pre [] (arg_ref true 0 ((c :: t) ++ 32 :: r)) = (c :: t, false, 32 :: r)).
    by rewrite arg_ref_backslashes. }
  apply not_elem_of_cons in Hz as [Hc Hz]. specialize (IH Hz). unfold escape. destruct (is_quote c) eqn:Eq; cbn [app].
  - rewrite arg_ref_escaped, IH; [|done|done|done|].
    + cbn [special]. unfold is_quote in Eq. apply orb_true_iff in Eq as [->%Z.eqb_eq| ->%Z.eqb_eq]; done.
    + cbn. unfold is_quote in Eq. apply orb_true_iff in Eq as [->%Z.eqb_eq| ->%Z.eqb_eq]; done.
  - unfold is_quote in Eq. apply orb_false_iff in Eq as [H1 H2].
    destruct (quoted_first t (32 :: r) Hz) as (d & l & El & Hd & _).
    rewrite arg_ref_plain, IH, dots_quoted; [done|done|done|done|done|].
    rewrite El. destruct (Z.eqb_spec c 92) as [->|Hne].
    + apply escaped_false, Hd. destruct (forallb _ t) eqn:Et; [|done]. cbn [forallb] in E. rewrite Et in E. done.
    + cbn. by rewrite (proj2 (Z.eqb_neq _ _) Hne).
Qed.

Lemma args_ref_quoted fuel ws : Forall (fun t => 0 ∉ t) ws -> (length ws < fuel)%nat ->
  args_ref fuel true (quoted_line ws) = (fun t => (t, special t)) <$> ws.
Proof.
  revert ws. induction fuel as [|fuel IH]; intros ws H Hf; [lia|]. destruct ws as [|t ws]; [done|]. apply Forall_cons_1 in H as [Ht H].
  cbn [length] in Hf. change (quoted_line (t :: ws)) with (((34 :: quoted t) ++ [32]) ++ quoted_line ws).
  rewrite <- app_assoc. cbn [app args_ref drop_spaces]. change (space_spec 34) with false. cbn match.
  change (arg_ref true 0 (34 :: quoted t ++ 32 :: quoted_line ws)) with (pre [] (arg_ref true 34 (quoted t ++ 32 :: quoted_line ws))).
  rewrite arg_ref_quoted by done. cbn [pre app tail list.tail]. rewrite IH by (done || lia). done.
Qed.

Lemma quoted_line_length ws : (length ws <= length (quoted_line ws))%nat.
Proof. induction ws as [|t ws IH]; [done|]. cbn [quoted_line flat_map]. rewrite !length_app. cbn [length]. fold (quoted_line ws). lia. Qed.

Lemma split_quoted ws : Forall (fun t => 0 ∉ t) ws -> split_args true (quoted_line ws) = (fun t => (t, special t)) <$> ws.
Proof. intros H. apply args_ref_quoted; [done|]. pose proof (quoted_line_length ws). lia. Qed.

(** ** A quoted word stays itself *)

Lemma special_wild t c : c ∈ t -> c = 42 \/ c = 63 -> special t = true.
Proof.
  induction t as [|a t IH]; intros H Hc; [by apply not_elem_of_nil in H|]. cbn [special].
  apply elem_of_cons in H as [->|H]; [|rewrite (IH H Hc); by rewrite orb_true_r]. destruct Hc as [-> | ->]; done.
Qed.

Lemma c_string_id t : 0 ∉ t -> c_string t = t.
Proof.
  induction t as [|c t IH]; intros H; [done|]. apply not_elem_of_cons in H as [Hc H]. cbn.
  rewrite (proj2 (Z.eqb_neq c 0)) by congruence. by rewrite IH.
Qed.

Lemma glob_words_quoted glob t : 0 ∉ t -> glob_words glob (t, special t) = [t].
Proof.
  intros H. unfold glob_words. rewrite c_string_id by done. destruct (special t) eqn:E; [done|]. cbn [negb andb].
  rewrite !bool_decide_eq_false_2; [done| |]; intros Hin; rewrite (special_wild _ _ Hin) in E by auto; done.
Qed.

(** A line of quoted words names no response file, unless a word starts with the at sign. *)
Lemma quoted_depth open_file flags ws : Forall (fun t => hd 0 t <> 64) ws ->
  depth_ok open_file flags 0 ((fun t => (t, special t)) <$> ws).
Proof.
  intros H. apply Forall_fmap. revert H. apply Forall_impl. intros t Ht. cbn. by rewrite (proj2 (Z.eqb_neq _ _) Ht), andb_false_r.
Qed.

Lemma quoted_words open_file glob flags ws : Forall (fun t => 0 ∉ t) ws ->
  line_words open_file glob flags 0 ((fun t => (t, special t)) <$> ws) = ws.
Proof.
  intros H. cbn [line_words]. induction H as [|t ws Ht _ IH]; [done|]. rewrite !fmap_cons. cbn [concat].
  rewrite glob_words_quoted by done. cbn [app]. by rewrite IH.
Qed.

(** C27. Quoting protects every word that does not start with @: a line in which each word is in
    double quotes, with a backslash in front of the quotes inside and the backslashes of its
    end behind the closing quote, gives main these words, whatever blanks, quotes,
    backslashes, wildcards and dots they hold, and whatever glob would answer. The words have
    no NUL, none starts with @ (it would be taken for a response file all the same, see
    quoted_response_file), and the first is not !proxy; the flag to keep quotes is clear, all
    memory that is asked for is given, and the other conditions are those of
    [command_line_to_argv]. *)
Theorem quoted_words_reach_main gives open_file junk glob_function startup_flags psp env dos d stub ws :
  line_from psp env (quoted_line ws) -> env __PROXY = None -> Forall (fun t => (0 ∉ t) /\ hd 0 t <> 64) ws ->
  hd [] ws <> tail __PROXY -> bytes_ok d -> hd 0 stub = 0 -> (forall k size, gives k size = true) ->
  flag_set startup_flags _CRT0_FLAG_KEEP_QUOTES = false ->
  flag_set startup_flags _CRT0_FLAG_DROP_DRIVE_SPECIFIER = false -> flag_set startup_flags _CRT0_FLAG_DROP_EXE_SUFFIX = false ->
  flag_set startup_flags _CRT0_FLAG_DISALLOW_RESPONSE_FILES = false -> 0 <= junk < 256 -> junk <> 46 ->
  exists c w, __crt0_setup_arguments gives open_file junk glob_function startup_flags d stub psp env dos 1 (mk_calls 0 0) =
    Done (inl (S (length ws), Some (argv0_ref startup_flags d) :: (Some <$> ws) ++ [None], c, w)).
Proof.
  intros Hl He Hws Hp Hd Hs Hg F1 F2 F3 F4 Hj Hj46. 
  assert (Hz : Forall (fun t => 0 ∉ t) ws) by (revert Hws; apply Forall_impl; tauto).
  assert (H64 : Forall (fun t => hd 0 t <> 64) ws) by (revert Hws; apply Forall_impl; tauto).
  pose proof (setup_spec gives open_file junk glob_function startup_flags psp env dos 0 d stub _ (mk_calls 0 0) Hl He) as Hset.
  rewrite F1 in Hset. cbn [negb] in Hset. rewrite split_quoted in Hset by done. rewrite quoted_words in Hset by done.
  destruct (wpm_ends gives _ _ _ Hg (Hset ltac:(destruct ws as [|t ws]; [done|]; cbn; rewrite c_string_id by (by inversion Hz); done)
    (quoted_depth _ _ _ H64) Hd Hs ltac:(done) F2 F3 F4 Hj Hj46)) as ([[argc argv] c] & w & E & Er & _).
  cbn [fst] in Er. unfold argv_of in Er. simplify_eq. by exists c, w.
Qed.
