(* ===== verification/CrtArgsRuns.v ===== *)
(** * The arguments of a program: runs

    The theorems at concrete command lines, and lines that the code does not handle. *)

From Stdlib Require Import String Ascii.
From stdpp Require Import base gmap list numbers.
From Stdlib Require Import ZArith Lia.
From S2P Require Import Prelude Ctype MemFuns Strings CrtArgs CrtArgsProps CrtArgsThms CrtArgsQuote.

Open Scope Z_scope.
Open Scope c_scope.

Definition tx (s : string) : list Z := map (fun c => Z.of_nat (nat_of_ascii c)) (list_ascii_of_string s).

(** Memory never runs out. *)
Definition plenty (k : nat) (n : Z) : bool := true.

(** A file r with two words and a name of a file s; and a file that names itself *)
Definition files (name : list Z) : option (Z * Z * list Z) :=
  if bool_decide (name = tx "r") then Some (11, 11, tx "x 'y z'" ++ [32] ++ tx "@s" ++ [10])
  else if bool_decide (name = tx "s") then Some (8, 5, tx "u" ++ [0] ++ tx "v" ++ [0; 26])
  else if bool_decide (name = tx "self") then Some (5, 5, tx "@self")
  else None.

(** *.c is a.c and b.c. *)
Definition globs (pat : list Z) : option (list (list Z)) := if bool_decide (pat = tx "*.c") then Some [tx "a.c"; tx "b.c"] else None.

Definition no_env (name : list Z) : option (list Z) := None.
Definition env_of (var value : list Z) (name : list Z) : option (list Z) := if bool_decide (name = var) then Some value else None.
Definition no_dos (a : Z) : Z := 0.

(** The PSP with a line, and bytes that are left of another *)
Definition psp_of (line : list Z) : list Z := Z.of_nat (length line) :: line ++ 13 :: replicate (126 - length line) 120.

Definition start (flags : Z) (psp : list Z) (env : list Z -> option (list Z)) (fuel : nat) :=
  __crt0_setup_arguments plenty files 7 globs flags (tx "C:\BIN\PROG.EXE") [] psp env no_dos fuel (mk_calls 0 0).

(** What a run gives main *)
Definition argv_in {A B} (r : outcome ((nat * cells * A * B) + Z)) : option (list (option (list Z))) :=
  match r with Done (inl (_, argv, _, _)) => Some argv | _ => None end.

Definition strs (l : list string) : list (option (list Z)) := map (fun s => Some (tx s)) l ++ [None].

Lemma argv_demo : argv_in (start 0 (psp_of (tx " @r *.c '*.c' end")) no_env 3) =
  Some (strs ["c:/bin/prog.exe"; "x"; "y z"; "u"; "v"; "a.c"; "b.c"; "*.c"; "end"]%string).
Proof. by vm_compute. Qed.

(** ** The theorems *)

Lemma bytes_of_tx s : bytes_ok (tx s).
Proof. apply Forall_forall. intros b. unfold tx. intros Hb. apply in_map_iff in Hb as (c & <- & _). pose proof (nat_ascii_bounded c). lia. Qed.

Definition line1 : list Z := tx " @r *.c '*.c' end".

Lemma line1_depth : depth_ok files 0 2 (split_args true line1).
Proof.
  vm_compute. repeat first [apply Forall_cons_2 | apply Forall_nil_2 | split | exact I | (apply Forall_forall; lia) | lia]; try lia; try done.
Qed.

Lemma command_line_to_argv_witness :
  line_from (psp_of line1) no_env line1 /\ depth_ok files 0 2 (split_args true line1) /\
  match start 0 (psp_of line1) no_env 3 with
  | Done (inl (argc, argv, _, _)) => (argc, argv) = argv_of (argv0_ref 0 (tx "C:\BIN\PROG.EXE")) (line_words files globs 0 2 (split_args true line1))
  | Done (inr code) => code = 1 /\ exists k size, plenty k size = false
  | Fail _ => False
  end.
Proof.
  assert (Hl : line_from (psp_of line1) no_env line1).
  { split; [apply bytes_of_tx|]. left. exists (replicate (126 - length line1) 120). split; [done|]. apply Nat.leb_le. reflexivity. }
  split; [exact Hl|]. split; [exact line1_depth|].
  apply (command_line_to_argv plenty files 7 globs 0 (psp_of line1) no_env no_dos 2 (tx "C:\BIN\PROG.EXE") [] line1);
    [exact Hl|reflexivity|vm_compute; discriminate|exact line1_depth|apply bytes_of_tx|reflexivity|reflexivity|reflexivity|reflexivity|reflexivity|lia|lia].
Defined.

(** A blank, a quote, backslashes at the end, wildcards, and the empty word *)
Definition ws1 : list (list Z) := [tx "a b"; 34 :: tx "\'"; tx "c:\"; tx "*.c"; []].

Lemma quoted_words_reach_main_witness :
  exists c w, start 0 (psp_of (quoted_line ws1)) no_env 1 =
    Done (inl (6%nat, Some (argv0_ref 0 (tx "C:\BIN\PROG.EXE")) :: (Some <$> ws1) ++ [None], c, w)).
Proof.
  apply (quoted_words_reach_main plenty files 7 globs 0 (psp_of (quoted_line ws1)) no_env no_dos (tx "C:\BIN\PROG.EXE") [] ws1);
    [|reflexivity| |vm_compute; discriminate|apply bytes_of_tx|reflexivity|reflexivity|reflexivity|reflexivity|reflexivity|reflexivity|lia|lia].
  - split; [apply (bool_decide_unpack (Forall (fun b => 0 <= b < 256) (quoted_line ws1))); vm_compute; exact I|]. left.
    exists (replicate (126 - length (quoted_line ws1)) 120). split; [done|]. apply Nat.leb_le. reflexivity.
  - apply (bool_decide_unpack (Forall (fun t => (0 ∉ t) /\ hd 0 t <> 64) ws1)). vm_compute. exact I.
Defined.

(** ** What the code does not handle *)

Abbreviation full_psp := (127 :: replicate 127 65).

(** A response file that names itself is opened until memory or the stack ends. *)
Lemma response_file_endless fuel : expand_response_files plenty files 7 0 fuel [plain_arg (tx "@self", false)] (mk_calls 0 0) = Fail NoFuel.
Proof.
  apply (expand_endless plenty files 7 0 fuel (tx "@self", false) (5, 5, tx "@self")); [done|lia|lia| |done|done].
  split; [done|]. split; [done|apply bytes_of_tx].
Qed.

(** The name of the program in quotes: the code stops at the opening quote, and the name is
    taken for an argument. *)
Lemma quoted_name_is_argument : argv_in (start 0 full_psp (env_of CMDLINE (34 :: tx "prog" ++ 34 :: tx " a b")) 1) =
  Some (strs ["c:/bin/prog.exe"; "prog a b"]%string).
Proof. by vm_compute. Qed.

(** Without a blank the search for the end of the name leaves the variable. *)
Lemma name_alone_overruns : start 0 full_psp (env_of CMDLINE (tx "prog")) 1 = Fail UB.
Proof. by vm_compute. Qed.

(** The variable is parsed in place. *)
Lemma cmdline_changed : exists r, start 0 full_psp (env_of CMDLINE (tx "p 'a' b")) 1 = Done (inl (r, mk_calls 8 0)) /\
  r.2 = Some (tx "p aa' b").
Proof. eexists. split; by vm_compute. Qed.

(** A line of 127 characters: the byte behind the copy of the PSP is read. *)
Lemma full_line_overruns : start 0 full_psp no_env 1 = Fail UB.
Proof. by vm_compute. Qed.

(** A variable for the proxy that does not fit 50 bytes *)
Lemma proxy_line_overruns al w : proxy_args plenty (env_of __PROXY (tx "10 1234 5678 more words than were expected")) al w = Fail UB.
Proof. by vm_compute. Qed.

(** A name of more than 16 characters is cut. *)
Lemma argv0_cut w : exists w', make_argv0 plenty 0 (tx "c:/program-with-long-name.exe") [] w = Done (inl (tx "c:/program-with-lon", tx "c:/program-with-long-name.exe", w')).
Proof. eexists. by vm_compute. Qed.

(** A name of less than four characters: the test for the suffix reads in front of it. *)
Lemma short_name_underruns w : make_argv0 plenty _CRT0_FLAG_DROP_EXE_SUFFIX (tx "ls") [] w = Fail UB.
Proof. by vm_compute. Qed.

(** The first malloc is not checked. *)
Lemma argv0_unchecked w d : make_argv0 (fun _ _ => false) 0 d [] w = Fail UB.
Proof. done. Qed.

(** Quotes do not keep an argument from being read as a response file. *)
Lemma quoted_response_file : argv_in (start 0 (psp_of (tx " '@r'")) no_env 3) = Some (strs ["c:/bin/prog.exe"; "x"; "y z"; "u"; "v"]%string).
Proof. by vm_compute. Qed.
