(* ===== verification/CrtEnv.v ===== *)
(** * The environment of a program at its start

    src/src/libc/crt0/c1loadef.c, and setup_environment and setup_pname of
    src/src/libc/crt0/crt1.c: the environment that DOS gives a program, and the variables that
    the file DJGPP.ENV adds to it.

    The file is a block of bytes that the code writes to: it ends lines and names of variables
    with NULs in place. The environment is the one of getenv and putenv; what memory putenv
    gets at its calls is a parameter, and so are the files. *)

From Stdlib Require Import String.
From stdpp Require Import base gmap list numbers.
From Stdlib Require Import ZArith Lia.
From S2P Require Import Prelude Ctype MemFuns Strings Env CrtArgs.

Open Scope Z_scope.
Open Scope c_scope.

Definition PATH_MAX : Z := 512.
Definition DJGPP : list Z := [68; 74; 71; 80; 80].

Section Load.
(** What the blocks for a string and for the array are, at the n-th call of putenv *)
Context (bss : Z) (mem : nat -> bool * option Z).

(** The file, the environment, and the calls of putenv so far *)
Record ld := mk_ld { l_file : list Z; l_env : envs; l_puts : nat }.

Definition with_file (file : list Z) (st : ld) : ld := mk_ld file (l_env st) (l_puts st).

Definition ld_putenv (val : list Z) (st : ld) : outcome ld :=
  '(e, _) ← putenv bss (mem (l_puts st)).1 (mem (l_puts st)).2 (l_env st) val; Done (mk_ld (l_file st) e (S (l_puts st))).

(** [while (p( *i)) i++;] *)
Fixpoint scan_while (fuel : nat) (p : Z -> bool) (file : list Z) (i : nat) : outcome nat :=
  match fuel with
  | O => Fail NoFuel
  | S fuel' => c ← rdb file i; if p c then scan_while fuel' p file (i + 1) else Done i
  end.

Definition is_eol (c : Z) : bool := (c =? 10) || (c =? 13).
Definition path_sep (c : Z) : bool := (c =? 92) || (c =? 47) || (c =? 58).

(** [*dp++ = c] in the [fsize] bytes from alloca *)
Definition emit (fsize : nat) (out : list Z) (c : Z) : outcome (list Z) :=
  if (length out <? fsize)%nat then Done (out ++ [c]) else Fail UB.

(** [while ( *sp != '=' && *sp != '\n' && *sp) *dp++ = *sp++;] *)
Fixpoint copy_name (fuel : nat) (file : list Z) (fsize : nat) (sp : nat) (out : list Z) : outcome (nat * list Z) :=
  match fuel with
  | O => Fail NoFuel
  | S fuel' =>
      c ← rdb file sp;
      if negb (c =? 61) && negb (c =? 10) && negb (c =? 0) then out ← emit fsize out c; copy_name fuel' file fsize (sp + 1) out
      else Done (sp, out)
  end.

(** ** Variables in a value *)

Record pflags := mk_pflags { dirpart : bool; apsemi : bool; mapup : bool; maplow : bool; mapfs : bool; mapbs : bool }.
Definition no_pflags : pflags := mk_pflags false false false false false false.

(** The switch over a character behind the percent sign *)
Definition set_pflag (c : Z) (fl : pflags) : pflags :=
  let 'mk_pflags d s u l f b := fl in
  mk_pflags (d || (c =? 58)) (s || (c =? 59)) (u || (c =? 60)) (l || (c =? 62)) (f || (c =? 47)) (b || (c =? 92)).

Definition pflag_chars : list Z := [58; 59; 47; 92; 60; 62].

(** [while (strchr(":;/\\<>", sp[1]))]: the NUL counts. *)
Fixpoint read_pflags (fuel : nat) (file : list Z) (sp : nat) (fl : pflags) : outcome (nat * pflags) :=
  match fuel with
  | O => Fail NoFuel
  | S fuel' => c ← rdb file (sp + 1); if in_set pflag_chars c then read_pflags fuel' file (sp + 1) (set_pflag c fl) else Done (sp, fl)
  end.

(** A character of the variable *)
Definition map_value_char (fl : pflags) (ec : Z) : outcome Z :=
  ec ← (if mapup fl then toupper (wrap_u 8 ec) else Done ec);
  ec ← (if maplow fl then tolower (wrap_u 8 ec) else Done ec);
  let ec := if mapfs fl && (ec =? 92) then 47 else ec in
  Done (if mapbs fl && (ec =? 47) then 92 else ec).

Fixpoint copy_value (fsize : nat) (fl : pflags) (e : list Z) (dirend : nat) (out : list Z) : outcome (nat * list Z) :=
  match e with
  | [] => Done (dirend, out)
  | ec :: e' =>
      let dirend := if path_sep ec then length out else dirend in
      ec ← map_value_char fl ec;
      out ← emit fsize out ec;
      copy_value fsize fl e' dirend out
  end.

(** What a variable puts into the value *)
Definition put_value (fsize : nat) (fl : pflags) (e : option (list Z)) (out : list Z) : outcome (list Z) :=
  '(dirend, out') ← (match e with Some v => copy_value fsize fl v (length out) out | None => Done (length out, out) end);
  let out' := if dirpart fl then take dirend out' else out' in
  if apsemi fl && bool_decide (is_Some e) then emit fsize out' 59 else Done out'.

(** From the percent sign at [sp] to the end of the name, which gets a NUL: the flags, the
    name, what ended it, and where *)
Definition read_variable (file : list Z) (sp : nat) : outcome (pflags * list Z * Z * nat * list Z) :=
  '(sp, fl) ← read_pflags (S (length file)) file sp no_pflags;
  pp ← scan_while (S (length file)) (fun c => negb (c =? 0) && negb (c =? 37)) file (sp + 1);
  ps ← rdb file pp;
  file ← wrb file pp 0;
  Done (fl, slice file (sp + 1) (pp - (sp + 1)), ps, pp, file).

(** [while ( *sp)]: the value *)
Fixpoint expand_value (fuel : nat) (fsize : nat) (sp : nat) (out : list Z) (st : ld) : outcome (list Z * ld) :=
  match fuel with
  | O => Fail NoFuel
  | S fuel' =>
      let file := l_file st in
      c ← rdb file sp;
      if c =? 0 then Done (out, st)
      else if c =? 37 then
        d ← rdb file (sp + 1);
        if d =? 37 then out ← emit fsize out 37; expand_value fuel' fsize (sp + 2) out st
        else
          '(fl, name, ps, pp, file) ← read_variable file sp;
          e ← getenv (l_env st) name;
          out ← put_value fsize fl e out;
          let st := with_file file st in
          if ps =? 0 then Done (out, st) else expand_value fuel' fsize (pp + 1) out st
      else out ← emit fsize out c; expand_value fuel' fsize (sp + 1) out st
  end.

(** ** Lines *)

(** The byte of the stack that [*tb2] reads when the name is empty *)
Context (uninit : Z).

(** From the equals sign at [sp] on; [tb2] is the name, without its plus sign. *)
Definition store_value (fsize : nat) (plus : bool) (out : list Z) (c : Z) (sp : nat) (st : ld) : outcome ld :=
  out ← emit fsize out c;
  '(out, st) ← expand_value (S (length (l_file st))) fsize (sp + 1) out st;
  _ ← emit fsize out 0;
  ld_putenv (if plus then tail out else out) st.

(** A line with an assignment, at [tb] *)
Definition load_assign (fsize : nat) (tb : nat) (st : ld) : outcome ld :=
  let file := l_file st in
  '(sp, out) ← copy_name (S (length file)) file fsize tb [];
  c ← rdb file sp;
  if (c =? 10) || (c =? 0) then Done st
  else
    let plus := hd uninit out =? 43 in
    skip ← (if plus then
              if bool_decide (out = []) || negb (length out <? fsize)%nat then Fail UB
              else e ← getenv (l_env st) (tail out); Done (bool_decide (is_Some e))
            else Done false);
    if skip : bool then Done st else store_value fsize plus out c sp st.

(** [while (p > tb && ( *p == ' ' || *p == '\t')) p--;] *)
Fixpoint trim_back (fuel : nat) (file : list Z) (tb p : nat) : outcome nat :=
  match fuel with
  | O => Fail NoFuel
  | S fuel' =>
      if (tb <? p)%nat then c ← rdb file p; if (c =? 32) || (c =? 9) then trim_back fuel' file tb (p - 1) else Done p
      else Done p
  end.

Definition load_section (base : list Z) (tb bp : nat) (st : ld) : outcome (bool * ld) :=
  p ← trim_back (S (length (l_file st))) (l_file st) tb (bp - 2);
  file ← wrb (l_file st) (p + 1) 0;
  Done (bool_decide (c_string (drop tb file) = base), with_file file st).

(** The line at [tb], which ends in front of [bp]; the result tells whether the lines that
    follow are for this program. *)
Definition load_line (fsize : nat) (base : list Z) (this_prog : bool) (tb bp : nat) (st : ld) : outcome (bool * ld) :=
  t ← rdb (l_file st) tb;
  if (t =? 0) || (t =? 35) then Done (this_prog, st)
  else if t =? 91 then load_section base tb bp st
  else st ← (if this_prog then load_assign fsize tb st else Done st); Done (this_prog, st).

Fixpoint load_lines (fuel : nat) (fsize : nat) (base : list Z) (this_prog : bool) (bp : nat) (st : ld) : outcome ld :=
  match fuel with
  | O => Fail NoFuel
  | S fuel' =>
      let n := S (length (l_file st)) in
      tb ← scan_while n (fun c => negb (c =? 0) && is_eol c) (l_file st) bp;
      bp ← scan_while n (fun c => negb (c =? 0) && negb (is_eol c)) (l_file st) tb;
      c ← rdb (l_file st) bp;
      if c =? 0 then Done st
      else
        file ← wrb (l_file st) bp 0;
        '(this_prog, st) ← load_line fsize base this_prog tb (bp + 1) (with_file file st);
        load_lines fuel' fsize base this_prog (bp + 1) st
  end.

(** ** The file *)

(** The index behind the last separator *)
Fixpoint name_index (l : list Z) (i ls : nat) : nat :=
  match l with [] => ls | c :: l' => name_index l' (S i) (if path_sep c then S i else ls) end.

Fixpoint before_dot (l : list Z) : list Z := match l with c :: l' => if c =? 46 then [] else c :: before_dot l' | [] => [] end.

Fixpoint lower_all (l : list Z) : outcome (list Z) :=
  match l with [] => Done [] | c :: l' => c ← tolower (wrap_u 8 c); l' ← lower_all l'; Done (c :: l') end.

(** The section of the program in the file *)
Definition section_of (app_name : list Z) : outcome (list Z) :=
  l ← lower_all (before_dot (drop (name_index app_name 0 0) app_name));
  if PATH_MAX <? Z.of_nat (length l) + 3 then Fail UB else Done ([91] ++ l ++ [93]).

(** What _open, lseek and _read make of a name: the size and the bytes that were read; and
    whether malloc gives the block. Bytes that were not read hold [uninit]. *)
Context (open_env : list Z -> option (Z * list Z)) (gives_file : bool).

(** The block with the file: a newline and a NUL end it. *)
Definition file_block (fsize : nat) (data : list Z) : outcome (list Z) :=
  let file := data ++ replicate (fsize + 2 - length data) uninit in
  c ← rdb file (fsize - 1);
  if c =? 10 then wrb file fsize 0 else file ← wrb file fsize 10; wrb file (fsize + 1) 0.

(** The environment, and whether the file was left open *)
Definition __crt0_load_environment_file (app_name : list Z) (env : envs) : outcome (envs * bool) :=
  djgpp_var ← getenv env DJGPP;
  match djgpp_var with
  | None => Done (env, false)
  | Some name =>
      match open_env name with
      | None => Done (env, false)
      | Some (fsize, data) =>
          if negb gives_file then Done (env, true)
          else if fsize <=? 0 then Fail UB
          else
            file ← file_block (Z.to_nat fsize) data;
            base ← section_of app_name;
            st ← load_lines (S (length file)) (Z.to_nat fsize) base true 0 (mk_ld file env 0);
            Done (l_env st, false)
      end
  end.

End Load.

(** ** What DOS gives *)

(** The strings up to the empty one, and the index of its NUL *)
Fixpoint env_strings (fuel : nat) (blk : list Z) (cp : nat) : outcome (list (list Z) * nat) :=
  match fuel with
  | O => Fail NoFuel
  | S fuel' =>
      c ← rdb blk cp;
      if c =? 0 then Done ([], cp)
      else n ← str_len (S (length blk)) blk cp; '(l, e) ← env_strings fuel' blk (cp + n + 1); Done (slice blk cp n :: l, e)
  end.

Definition with_environ (env : envs) (a : option (Z * list cell)) (changed : Z) : envs :=
  mk_env a (prev_environ env) (ecount env) (emax env) (putenv_bss_count env) changed (env_errno env).

(** The address of the array, and whether the blocks for the strings and for the name are
    there. The results are the environment and [__dos_argv0]; abort ends on the right. *)
Definition setup_environment (bss : Z) (arr : option Z) (gives_strs gives_argv0 : bool) (blk : list Z) (env : envs) : outcome (envs * option (list Z) + unit) :=
  '(l, cp) ← env_strings (S (length blk)) blk 0;
  let with_array a := with_environ env a (environ_changed env) in
  match arr with
  | None => Done (inl (with_array None, None))
  | Some id =>
      if negb gives_strs && negb (bool_decide (l = [])) then Fail UB
      else
        '(env, _) ← putenv bss true None (with_array (Some (id, map Str l ++ [Null]))) [];
        n ← str_len (S (length blk)) blk (cp + 3);
        if gives_argv0 then Done (inl (env, Some (slice blk (cp + 3) n))) else Done (inr tt)
  end.

(** The name that the environment file is searched for; the block for it is not checked. *)
Definition start_name (dos_argv0 stub_argv0 : list Z) : list Z :=
  if negb (hd 0 stub_argv0 =? 0) then stub_argv0 else drop (base_index dos_argv0 0 0) dos_argv0.
Definition setup_pname (gives_pname : bool) (dos_argv0 stub_argv0 : list Z) : outcome (list Z) :=
  if gives_pname then Done (start_name dos_argv0 stub_argv0) else Fail UB.

(** ** The start of a program *)

(** main is called, or the program has ended before *)
Inductive started := Main (argc : nat) (argv : cells) (env : envs) | Exited (code : Z) | Aborted.

Definition env_fn (env : envs) (name : list Z) : option (list Z) := match getenv env name with Done r => r | Fail _ => None end.

(** CMDLINE as the parser left it, in the string of the environment *)
Fixpoint change_cmdline (v : list Z) (l : list cell) : list cell :=
  match l with
  | Str e :: l' => match entry_value e CMDLINE with Some _ => Str (CMDLINE ++ eq_sign :: v) :: l' | None => Str e :: change_cmdline v l' end
  | _ => l
  end.
Definition set_cmdline (cmdline : option (list Z)) (env : envs) : envs :=
  match cmdline, environ env with
  | Some v, Some (id, l) => with_environ env (Some (id, change_cmdline v l)) (environ_changed env)
  | _, _ => env
  end.

Section Start.
Context (bss : Z) (arr : option Z) (gives_strs gives_argv0 gives_pname : bool) (mem : nat -> bool * option Z) (uninit : Z)
  (open_env : list Z -> option (Z * list Z)) (gives_file : bool).
Context (gives : nat -> Z -> bool) (open_file : list Z -> option (Z * Z * list Z)) (junk : Z)
  (glob_function : list Z -> option (list (list Z))) (startup_flags : Z) (stub_argv0 psp : list Z) (dos : Z -> Z).

(** The environment and the arguments: the calls of __crt1_startup from setup_environment to
    __crt0_setup_arguments *)
Definition crt1_arguments (fuel : nat) (blk : list Z) (env : envs) : outcome started :=
  r ← setup_environment bss arr gives_strs gives_argv0 blk env;
  match r with
  | inr _ => Done Aborted
  | inl (_, None) => Fail UB
  | inl (env, Some dos_argv0) =>
      let env := with_environ env (environ env) (wrap_u 32 (environ_changed env + 1)) in
      app_name ← setup_pname gives_pname dos_argv0 stub_argv0;
      '(env, _) ← __crt0_load_environment_file bss mem uninit open_env gives_file app_name env;
      r ← __crt0_setup_arguments gives open_file junk glob_function startup_flags dos_argv0 stub_argv0 psp (env_fn env) dos fuel (mk_calls 0 0);
      match r with
      | inr code => Done (Exited code)
      | inl (argc, argv, cmdline, _) => Done (Main argc argv (set_cmdline cmdline env))
      end
  end.
End Start.
