(* ===== verification/CrtEnvProps.v ===== *)
(** * The environment of a program at its start: theorems

    The file DJGPP.ENV against a reference on lines and maps, and the whole way from the
    environment of DOS to the one main sees. *)

From Stdlib Require Import String.
From stdpp Require Import base gmap list numbers.
From Stdlib Require Import ZArith Lia.
From S2P Require Import Prelude Ctype MemFuns Strings Env CrtArgs CrtArgsProps CrtEnv.

Open Scope Z_scope.
Open Scope c_scope.

(** ** The reference *)

Abbreviation vars := (gmap (list Z) (list Z)).

(** The longest start of [l] in [p], and the rest *)
Fixpoint span (p : Z -> bool) (l : list Z) : list Z * list Z :=
  match l with c :: l' => if p c then let '(a, b) := span p l' in (c :: a, b) else ([], l) | [] => ([], []) end.

Definition up_char (c : Z) : Z := let c := wrap_u 8 c in if lower_spec c then c - 32 else c.
Definition low_char (c : Z) : Z := let c := wrap_u 8 c in if upper_spec c then c + 32 else c.

Definition value_char (fl : pflags) (c : Z) : Z :=
  let c := if mapup fl then up_char c else c in
  let c := if maplow fl then low_char c else c in
  let c := if mapfs fl && (c =? 92) then 47 else c in
  if mapbs fl && (c =? 47) then 92 else c.

(** The length of the directory part: what is in front of the last separator *)
Fixpoint dir_length (i d : nat) (v : list Z) : nat :=
  match v with [] => d | c :: v' => dir_length (S i) (if path_sep c then i else d) v' end.

(** What a variable of this value stands for *)
Definition value_ref (fl : pflags) (e : option (list Z)) : list Z :=
  match e with
  | None => []
  | Some v =>
      let t := value_char fl <$> v in
      (if dirpart fl then take (dir_length 0 0 v) t else t) ++ (if apsemi fl then [59] else [])
  end.

Definition value_room (e : option (list Z)) : nat := match e with None => 0 | Some v => length v + 1 end.

(** The value of the right side [l], and the room it takes while it is built; None when a
    percent sign is the end. *)
Fixpoint expand_ref (fuel : nat) (m : vars) (l : list Z) : option (list Z * nat) :=
  match fuel with
  | O => None
  | S fuel' =>
      let more t n l := '(t', n') ← expand_ref fuel' m l; Some (t ++ t', n + n')%nat in
      match l with
      | [] => Some ([], O)
      | c :: l' =>
          if negb (c =? 37) then more [c] 1%nat l'
          else if hd 0 l' =? 37 then more [37] 1%nat (tail l')
          else
            let '(fs, r) := span (fun c => bool_decide (c ∈ pflag_chars)) l' in
            let fl := foldl (fun fl c => set_pflag c fl) no_pflags fs in
            let '(name, r2) := span (fun c => negb (c =? 37)) r in
            match r, r2 with
            | [], _ => None
            | _, [] => Some (value_ref fl (m !! name), value_room (m !! name))
            | _, _ :: r3 => more (value_ref fl (m !! name)) (value_room (m !! name)) r3
            end
      end
  end.

(** A line of the form name=value, with [room] bytes to build it; None when they do not do, or
    there is no name. *)
Definition assign_ref (room : nat) (m : vars) (line : list Z) : option vars :=
  let '(name, r) := span (fun c => negb (c =? 61)) line in
  match r with
  | [] => Some m
  | _ :: rhs =>
      let plus := hd 0 name =? 43 in
      let var := if plus then tail name else name in
      if bool_decide (name = []) then None
      else if plus && bool_decide (is_Some (m !! var)) then Some m
      else
        '(v, n) ← expand_ref (S (length rhs)) m rhs;
        if (length name + 1 + n + 1 <=? room)%nat then Some (<[var := v]> m) else None
  end.

Fixpoint trim_end (l : list Z) : list Z :=
  match l with
  | [] => []
  | c :: l' => match trim_end l' with [] => if (c =? 32) || (c =? 9) then [] else [c] | t => c :: t end
  end.

(** The lines of a file *)
Fixpoint lines_of (cur l : list Z) : list (list Z) :=
  match l with
  | [] => if bool_decide (cur = []) then [] else [cur]
  | c :: l' => if is_eol c then (if bool_decide (cur = []) then [] else [cur]) ++ lines_of [] l' else lines_of (cur ++ [c]) l'
  end.

(** What the lines do: comments, sections, and assignments where the section is ours *)
Fixpoint load_ref (room : nat) (base : list Z) (this : bool) (m : vars) (lines : list (list Z)) : option vars :=
  match lines with
  | [] => Some m
  | line :: lines' =>
      match line with
      | [] => load_ref room base this m lines'
      | c :: _ =>
          if c =? 35 then load_ref room base this m lines'
          else if c =? 91 then load_ref room base (bool_decide (c :: trim_end (tail line) = base)) m lines'
          else m' ← (if this then assign_ref room m line else Some m); load_ref room base this m' lines'
      end
  end.

(** ** Scanning *)

Lemma span_app p l : let '(a, b) := span p l in l = a ++ b /\ Forall (fun c => p c = true) a /\ match b with c :: _ => p c = false | [] => True end.
Proof.
  induction l as [|c l IH]; [done|]. cbn. destruct (p c) eqn:E; [|done]. destruct (span p l) as [a b]. destruct IH as (-> & Ha & Hb).
  split; [done|]. split; [|done]. by apply Forall_cons_2.
Qed.

(** The text [l] lies at [i], and a NUL behind it. *)
Definition at_ (file : list Z) (i : nat) (l r : list Z) : Prop := drop i file = l ++ r.

Lemma at_lookup file i c l r : at_ file i (c :: l) r -> file !! i = Some c.
Proof. unfold at_. intros E. rewrite <- (Nat.add_0_r i), <- lookup_drop, E. done. Qed.

Lemma at_next file i c l r : at_ file i (c :: l) r -> at_ file (i + 1) l r.
Proof. unfold at_. intros E. by rewrite <- drop_drop, E. Qed.

Lemma at_skip file i l1 l2 r : at_ file i (l1 ++ l2) r -> at_ file (i + length l1) l2 r.
Proof. unfold at_. intros E. by rewrite <- drop_drop, E, <- app_assoc, drop_app_length. Qed.

Lemma at_length file i l r : at_ file i l r -> r <> [] -> (i + length l < length file)%nat.
Proof.
  unfold at_. intros E Hr. pose proof (f_equal length E) as HL. rewrite length_drop, length_app in HL. destruct r; [done|]. cbn in HL. lia.
Qed.

Lemma scan_while_spec p fuel file i a b r : at_ file i a (b ++ r) -> Forall (fun c => p c = true) a ->
  (exists c r', b ++ r = c :: r' /\ p c = false) -> (length a < fuel)%nat -> scan_while fuel p file i = Done (i + length a)%nat.
Proof.
  intros H Ha (c & r' & Ec & Hc). revert fuel i H. induction Ha as [|d a Hd _ IH]; intros [|fuel] i H Hf; cbn [length] in Hf; [lia| |lia|]; cbn [scan_while].
  - rewrite (rdb_Some file i c); [|apply (at_lookup _ _ _ [] r'); unfold at_ in *; by rewrite H, Ec]. rewrite bind_Done, Hc. f_equal. cbn. lia.
  - rewrite (rdb_Some file i d) by (by eapply at_lookup). rewrite bind_Done, Hd. apply at_next in H. rewrite IH by (done || lia). f_equal. cbn. lia.
Qed.

(** ** Values *)

Lemma emit_ok fsize out c : (length out < fsize)%nat -> emit fsize out c = Done (out ++ [c]).
Proof. intros H. unfold emit. by rewrite (proj2 (Nat.ltb_lt _ _) H). Qed.

Lemma map_value_char_spec fl c : map_value_char fl c = Done (value_char fl c).
Proof.
  assert (Hw : forall c, 0 <= wrap_u 8 c < 256) by (intros; unfold wrap_u; apply Z.mod_pos_bound; lia).
  unfold map_value_char, value_char, up_char, low_char. destruct (mapup fl), (maplow fl); rewrite ?toupper_spec, ?bind_Done, ?tolower_spec by done; done.
Qed.

Lemma copy_value_spec fsize fl e i d (out0 out : list Z) : length out = (length out0 + i)%nat -> (length out + length e <= fsize)%nat ->
  copy_value fsize fl e (length out0 + d) out = Done (length out0 + dir_length i d e, out ++ (value_char fl <$> e))%nat.
Proof.
  revert i d out. induction e as [|c e IH]; intros i d out Hi Hf; [cbn; by rewrite app_nil_r|]. cbn [copy_value length] in *.
  rewrite map_value_char_spec, bind_Done, emit_ok, bind_Done by lia.
  replace (if path_sep c then length out else length out0 + d)%nat with (length out0 + (if path_sep c then i else d))%nat by (destruct (path_sep c); lia).
  rewrite (IH (S i)) by (rewrite length_app; cbn; lia). cbn [dir_length]. by rewrite fmap_cons, <- app_assoc.
Qed.

Lemma dir_length_le v i d : (d <= i)%nat -> (dir_length i d v <= i + length v)%nat.
Proof. revert i d. induction v as [|c v IH]; intros i d H; cbn; [lia|]. etransitivity; [apply IH; destruct (path_sep c); lia|lia]. Qed.

Lemma value_ref_length fl e : (length (value_ref fl e) <= value_room e)%nat.
Proof.
  destruct e as [v|]; cbn; [|lia]. rewrite length_app. assert (length (if dirpart fl then take (dir_length 0 0 v) (value_char fl <$> v) else value_char fl <$> v) <= length v)%nat.
  { destruct (dirpart fl); rewrite ?length_take, length_fmap; lia. }
  destruct (apsemi fl); cbn; lia.
Qed.

Lemma put_value_spec fsize fl e out : (length out + value_room e <= fsize)%nat -> put_value fsize fl e out = Done (out ++ value_ref fl e).
Proof.
  intros H. unfold put_value. destruct e as [v|]; cbn [value_room] in H.
  - pose proof (copy_value_spec fsize fl v 0 0 out out ltac:(lia) ltac:(lia)) as E. rewrite Nat.add_0_r in E. rewrite E, bind_Done. cbn [value_ref].
    pose proof (dir_length_le v 0 0 ltac:(lia)) as Hd. rewrite bool_decide_eq_true_2, andb_true_r by done.
    replace (if dirpart fl then _ else _) with (out ++ if dirpart fl then take (dir_length 0 0 v) (value_char fl <$> v) else value_char fl <$> v).
    2: { destruct (dirpart fl); [|done]. by rewrite take_app_add. }
    destruct (apsemi fl); [|by rewrite app_nil_r]. rewrite emit_ok; [by rewrite <- app_assoc|].
    rewrite length_app. destruct (dirpart fl); rewrite ?length_take, length_fmap; lia.
  - rewrite bind_Done. cbn [value_ref]. rewrite app_nil_r, bool_decide_eq_false_2, andb_false_r by (by intros []).
    destruct (dirpart fl); [|done]. by rewrite take_ge.
Qed.

Lemma in_pflags c : c <> 0 -> in_set pflag_chars c = bool_decide (c ∈ pflag_chars).
Proof.
  intros H. unfold in_set. apply bool_decide_ext. rewrite elem_of_app, list_elem_of_singleton. naive_solver.
Qed.

Lemma read_pflags_spec fuel file sp fs c r fl : at_ file (sp + 1) (fs ++ [c]) r -> 0 ∉ fs -> c <> 0 ->
  Forall (fun c => bool_decide (c ∈ pflag_chars) = true) fs -> bool_decide (c ∈ pflag_chars) = false -> (length fs < fuel)%nat ->
  read_pflags fuel file sp fl = Done (sp + length fs, foldl (fun fl c => set_pflag c fl) fl fs)%nat.
Proof.
  intros H Hz Hc Hfs Hn. revert fuel sp fl H. induction fs as [|d fs IH]; intros [|fuel] sp fl H Hf; cbn [length] in Hf; [lia| |lia|]; cbn [read_pflags app] in *.
  - rewrite (rdb_Some _ _ _ (at_lookup _ _ _ _ _ H)), bind_Done, in_pflags, Hn, Nat.add_0_r by done. done.
  - apply not_elem_of_cons in Hz as [Hd Hz]. apply Forall_cons_1 in Hfs as [Hd' Hfs].
    rewrite (rdb_Some _ _ _ (at_lookup _ _ _ _ _ H)), bind_Done, in_pflags, Hd' by congruence. apply at_next in H.
    rewrite IH by (done || lia). cbn [foldl length]. do 2 f_equal. lia.
Qed.

Lemma slice_at file i l r : at_ file i l r -> slice file i (length l) = l.
Proof. unfold at_, slice. intros ->. apply take_app_length. Qed.

Lemma at_insert file i l r k c : at_ file i l r -> (k < i)%nat -> at_ (<[k := c]> file) i l r.
Proof. unfold at_. intros E H. by rewrite drop_insert_lt. Qed.

Lemma slice_insert file i n k c : (i + n <= k)%nat -> slice (<[k := c]> file) i n = slice file i n.
Proof.
  intros H. unfold slice. destruct (decide (k < i)%nat); [lia|]. rewrite drop_insert_ge by lia. apply take_insert_ge. lia.
Qed.

(** A NUL is stored at the end of a text. *)
Lemma at_insert_end file i l r : at_ file i l (0 :: r) -> at_ (<[(i + length l)%nat := 0]> file) (i + length l) [] (0 :: r).
Proof.
  intros H. rewrite <- (app_nil_r l) in H. apply at_skip in H. unfold at_ in *. rewrite drop_insert_ge, Nat.sub_diag, H by lia. done.
Qed.

Lemma wrb_ok file i c : (i < length file)%nat -> wrb file i c = Done (<[i := c]> file).
Proof. intros H. unfold wrb. by rewrite (proj2 (Nat.ltb_lt _ _) H). Qed.

Lemma at_end file i c r : at_ file i [] (c :: r) -> file !! i = Some c.
Proof. unfold at_. intros E. rewrite <- (Nat.add_0_r i), <- lookup_drop, E. done. Qed.

Lemma name_chars name : Forall (fun c => negb (c =? 37) = true) name -> 0 ∉ name -> Forall (fun c => negb (c =? 0) && negb (c =? 37) = true) name.
Proof.
  induction 1 as [|c l Hc _ IH]; intros H; [done|]. apply not_elem_of_cons in H as [Hz H]. apply Forall_cons_2; [|by apply IH].
  rewrite Hc, andb_true_r. apply negb_true_iff, Z.eqb_neq. congruence.
Qed.

(** A variable: what is read at the percent sign *)
Lemma variable_spec file sp fs name r2 z : at_ file sp (37 :: fs ++ name ++ r2) (0 :: z) -> 0 ∉ fs ++ name ++ r2 ->
  Forall (fun c => bool_decide (c ∈ pflag_chars) = true) fs -> Forall (fun c => negb (c =? 37) = true) name ->
  match name ++ r2 with c :: _ => bool_decide (c ∈ pflag_chars) = false | [] => False end ->
  match r2 with c :: _ => c = 37 | [] => True end ->
  let pp := (sp + length fs + 1 + length name)%nat in
  read_variable file sp = Done (foldl (fun fl c => set_pflag c fl) no_pflags fs, name, hd 0 r2, pp, <[pp := 0]> file) /\
  at_ file pp r2 (0 :: z).
Proof.
  intros H Hz Hfs Hname Hn Hr2. pose proof (at_length _ _ _ _ H ltac:(done)) as HL. cbn [length] in HL. rewrite !length_app in HL.
  pose proof (at_next _ _ _ _ _ H) as H1. apply not_elem_of_app in Hz as [Hz1 Hz2].
  assert (H2 : at_ file (sp + length fs + 1) (name ++ r2) (0 :: z)).
  { apply at_skip in H1. by replace (sp + length fs + 1)%nat with (sp + 1 + length fs)%nat by lia. }
  assert (H3 : at_ file (sp + length fs + 1 + length name) r2 (0 :: z)) by (by apply at_skip in H2).
  cbv zeta. split; [|done]. unfold read_variable. rewrite (read_pflags_spec _ _ _ fs (hd 0 (name ++ r2)) (tail (name ++ r2) ++ 0 :: z)).
  - rewrite bind_Done, (scan_while_spec _ _ _ _ name r2 (0 :: z)), bind_Done; [|unfold at_ in *; by rewrite H2, <- app_assoc| | |lia].
    + assert (Er : rdb file (sp + length fs + 1 + length name) = Done (hd 0 r2)).
      { apply rdb_Some. destruct r2; [by eapply at_end|by eapply at_lookup]. }
      rewrite Er, bind_Done, wrb_ok, bind_Done by lia. replace (sp + length fs + 1 + length name - (sp + length fs + 1))%nat with (length name) by lia.
      rewrite slice_insert, (slice_at _ _ _ (r2 ++ 0 :: z)) by (done || (unfold at_ in *; by rewrite H2, <- app_assoc)). done.
    + apply name_chars; [done|]. by apply not_elem_of_app in Hz2 as [Hz2 _].
    + destruct r2 as [|c r3]; [by exists 0, z|]. subst c. by exists 37, (r3 ++ 0 :: z).
  - destruct (name ++ r2) as [|c t]; [done|]. unfold at_ in *. cbn [hd tail list.tail]. by rewrite H1, <- !app_assoc.
  - done.
  - destruct (name ++ r2) as [|c t]; [done|]. apply not_elem_of_cons in Hz2 as [Hc _]. cbn. congruence.
  - done.
  - by destruct (name ++ r2).
  - lia.
Qed.

Lemma with_file_twice f g st : with_file f (with_file g st) = with_file f st.
Proof. done. Qed.

(** The value is built behind [out]; the file may change up to the end of the line. *)
Definition expanded (fsize : nat) (sp : nat) (out l z v : list Z) (fuel : nat) (st : ld) : Prop :=
  exists file', expand_value fuel fsize sp out st = Done (out ++ v, with_file file' st) /\
    length file' = length (l_file st) /\ at_ file' (sp + length l) [] (0 :: z).

Definition expand_ok (m : vars) (fsize : nat) (z : list Z) (fu : nat) : Prop := forall fuel sp out l st v n,
  at_ (l_file st) sp l (0 :: z) -> 0 ∉ l -> (forall x, getenv (l_env st) x = Done (m !! x)) ->
  expand_ref fu m l = Some (v, n) -> (length out + n <= fsize)%nat -> (length l < fuel)%nat ->
  expanded fsize sp out l z v fuel st.

(** The value goes on behind [k] characters. *)
Lemma expanded_later m fsize z fu fuel sp k out t l1 l2 st st' file v n : expand_ok m fsize z fu ->
  length l1 = k -> st' = with_file file st -> length file = length (l_file st) ->
  at_ file (sp + k) l2 (0 :: z) -> 0 ∉ l2 -> (forall x, getenv (l_env st) x = Done (m !! x)) ->
  expand_ref fu m l2 = Some (v, n) -> (length (out ++ t) + n <= fsize)%nat -> (length l2 < fuel)%nat ->
  exists file', expand_value fuel fsize (sp + k) (out ++ t) st' = Done (out ++ (t ++ v), with_file file' st) /\
    length file' = length (l_file st) /\ at_ file' (sp + length (l1 ++ l2)) [] (0 :: z).
Proof.
  intros IH Hk -> Hlen H Hz Henv He Hn Hf.
  destruct (IH fuel (sp + k)%nat (out ++ t) l2 (with_file file st) v n) as (file' & E & Hl & Ha); [done..|].
  exists file'. rewrite E, <- app_assoc. split; [done|]. split; [by rewrite Hl|]. rewrite length_app, Hk. by rewrite Nat.add_assoc.
Qed.

(** A variable *)
Lemma expand_variable m fsize z fu fuel sp out l st v n : expand_ok m fsize z fu ->
  at_ (l_file st) sp (37 :: l) (0 :: z) -> 0 ∉ l -> (forall x, getenv (l_env st) x = Done (m !! x)) -> hd 0 l <> 37 ->
  expand_ref (S fu) m (37 :: l) = Some (v, n) -> (length out + n <= fsize)%nat -> (length l < fuel)%nat ->
  exists file',
    ('(fl, name, ps, pp, file) ← read_variable (l_file st) sp;
     e ← getenv (l_env st) name;
     out ← put_value fsize fl e out;
     let st := with_file file st in
     if ps =? 0 then Done (out, st) else expand_value fuel fsize (pp + 1) out st) = Done (out ++ v, with_file file' st) /\
    length file' = length (l_file st) /\ at_ file' (sp + length (37 :: l)) [] (0 :: z).
Proof.
  intros IH H Hz Henv Hhd He Hn Hf. cbn [expand_ref] in He. change (negb (37 =? 37)) with false in He. rewrite (proj2 (Z.eqb_neq _ _) Hhd) in He.
  pose proof (span_app (fun c => bool_decide (c ∈ pflag_chars)) l) as Hs1. destruct (span _ l) as [fs r]. destruct Hs1 as (-> & Hfs & Hr).
  pose proof (span_app (fun c => negb (c =? 37)) r) as Hs2. destruct (span _ r) as [name r2]. destruct Hs2 as (-> & Hname & Hr2).
  destruct (variable_spec _ _ _ _ _ _ H Hz Hfs Hname) as (E1 & E4).
  { by destruct (name ++ r2). } { destruct r2 as [|c r2]; [done|]. apply negb_false_iff, Z.eqb_eq in Hr2. done. }
  rewrite E1, bind_Done, Henv, bind_Done. set (pp := (sp + length fs + 1 + length name)%nat) in *.
  set (fl := foldl _ _ _) in *. set (w := m !! name) in *. set (file := <[pp := 0]> (l_file st)). pose proof (value_ref_length fl w).
  destruct (name ++ r2) as [|c0 t0] eqn:E0; [done|]. destruct r2 as [|c r3]; cbn iota in He.
  - injection He as <- <-. rewrite put_value_spec, bind_Done by done. exists file. split; [done|]. split; [apply length_insert|].
    pose proof (at_insert_end _ _ _ _ E4) as Ha. cbn [length] in Ha. rewrite Nat.add_0_r in Ha.
    rewrite <- E0, app_nil_r. cbn [length]. rewrite length_app. by replace (sp + S (length fs + length name))%nat with pp by lia.
  - apply bind_Some in He as ([v' n'] & He & [= <- <-]). apply negb_false_iff, Z.eqb_eq in Hr2 as ->.
    rewrite put_value_spec, bind_Done by lia. cbv zeta. change (hd 0 (37 :: r3) =? 0) with false. cbn iota.
    assert (Hpp : (pp + 1 = sp + length (37%Z :: fs ++ name ++ [37%Z]))%nat) by (cbn [length]; rewrite !length_app; cbn [length]; lia).
    replace (37 :: fs ++ c0 :: t0) with ((37 :: fs ++ name ++ [37]) ++ r3) by (rewrite <- E0; cbn; by rewrite <- !app_assoc).
    rewrite Hpp. eapply (expanded_later m fsize z fu); [done|done|done|apply length_insert| | |done|exact He|rewrite length_app; lia|].
    + apply at_insert; [|lia]. apply at_next in E4. by rewrite <- Hpp.
    + rewrite <- E0 in Hz. apply not_elem_of_app in Hz as [_ Hz]. apply not_elem_of_app in Hz as [_ Hz]. by apply not_elem_of_cons in Hz as [_ Hz].
    + rewrite <- E0, !length_app in Hf. cbn [length] in Hf. lia.
Qed.

Lemma expand_value_spec m fsize z fu : expand_ok m fsize z fu.
Proof.
  induction fu as [|fu IH]; intros fuel sp out l st v n H Hz Henv He Hn Hf; [done|]. destruct fuel as [|fuel]; [lia|].
  destruct l as [|c l]; unfold expanded; cbn [expand_value].
  { cbn in He. simplify_eq. rewrite (rdb_Some (l_file st) sp 0) by (by eapply at_end). exists (l_file st).
    rewrite bind_Done, app_nil_r, Nat.add_0_r. by destruct st. }
  rewrite (rdb_Some _ _ _ (at_lookup _ _ _ _ _ H)), bind_Done. cbn [length] in Hf.
  apply not_elem_of_cons in Hz as [Hc Hz]. rewrite (proj2 (Z.eqb_neq c 0)) by congruence.
  destruct (Z.eqb_spec c 37) as [->|Hne].
  2: { cbn [expand_ref] in He. rewrite (proj2 (Z.eqb_neq _ _) Hne) in He. cbn [negb] in He.
    apply bind_Some in He as ([v' n'] & He & [= <- <-]). rewrite emit_ok, bind_Done by lia. change (c :: l) with ([c] ++ l).
    apply (expanded_later m fsize z fu fuel sp 1 out [c] [c] l st st (l_file st) v' n'); [done|done|by destruct st|done|by eapply at_next|done|done|exact He|rewrite length_app; cbn; lia|lia]. }
  assert (Ed : rdb (l_file st) (sp + 1) = Done (hd 0 l)).
  { apply rdb_Some. apply at_next in H. destruct l; [by eapply at_end|by eapply at_lookup]. }
  rewrite Ed, bind_Done. destruct (Z.eqb_spec (hd 0 l) 37) as [E37|E37].
  - destruct l as [|d l]; [done|]. cbn in E37. subst d. cbn [expand_ref] in He. change (negb (37 =? 37)) with false in He.
    change (hd 0 (37 :: l) =? 37) with true in He. cbn [tail list.tail] in He. apply bind_Some in He as ([v' n'] & He & [= <- <-]).
    apply not_elem_of_cons in Hz as [_ Hz]. rewrite emit_ok, bind_Done by lia. change (37 :: 37 :: l) with ([37; 37] ++ l). cbn [length] in Hf.
    apply (expanded_later m fsize z fu fuel sp 2 out [37] [37; 37] l st st (l_file st) v' n'); [done|done|by destruct st|done| |done|done|exact He|rewrite length_app; cbn; lia|lia].
    replace (sp + 2)%nat with (sp + 1 + 1)%nat by lia. eapply at_next, at_next, H.
  - eapply expand_variable; [done|done|done|done|done|exact He|done|lia].
Qed.

Lemma expand_ref_length fu m l v n : expand_ref fu m l = Some (v, n) -> (length v <= n)%nat.
Proof.
  revert l v n. induction fu as [|fu IH]; intros l v n H; [done|]. cbn [expand_ref] in H. destruct l as [|c l]; [by simplify_eq|].
  assert (Hm : forall t k l, (length t <= k)%nat -> ('(t', n') ← expand_ref fu m l; Some (t ++ t', k + n')%nat) = Some (v, n) -> (length v <= n)%nat).
  { intros t k l' Hk ([v' n'] & He & [= <- <-])%bind_Some. apply IH in He. rewrite length_app. lia. }
  repeat case_match; simplify_eq; try (eapply Hm; [|exact H]; cbn; lia); try apply value_ref_length.
  eapply Hm; [|exact H]. apply value_ref_length.
Qed.

(** ** Lines *)

Section Lines.
Context (bss : Z) (mem : nat -> bool * option Z) (uninit : Z).
Context (Hmem : forall k, exists a, mem k = (true, Some a)).

(** The environment holds these variables. *)
Definition holds (env : envs) (m : vars) : Prop := exists l, env_holds bss env l /\ env_map l = m.

Lemma holds_getenv env m x : holds env m -> getenv env x = Done (m !! x).
Proof. intros (l & H & <-). by eapply getenv_holds. Qed.

Lemma ld_putenv_spec n v st m : eq_sign ∉ n -> holds (l_env st) m ->
  exists env, ld_putenv bss mem (n ++ 61 :: v) st = Done (mk_ld (l_file st) env (S (l_puts st))) /\ holds env (<[n := v]> m).
Proof.
  intros Hn (l & H & <-). destruct (Hmem (l_puts st)) as [a Ha]. destruct (putenv_binds bss a _ _ n v H Hn) as (env & l' & E & H' & Hm).
  exists env. unfold ld_putenv. rewrite Ha. cbn [fst snd]. change (n ++ 61 :: v) with (entry (n, v)). rewrite E. split; [done|]. by exists l'.
Qed.

(** What a line leaves: a file of the same length with the same rest *)
Definition leaves (st : ld) (i : nat) (z : list Z) (m : vars) (st' : ld) : Prop :=
  length (l_file st') = length (l_file st) /\ at_ (l_file st') i [] (0 :: z) /\ holds (l_env st') m.

Lemma copy_name_spec fuel file fsize sp name b r out : at_ file sp name (b ++ r) ->
  Forall (fun c => c <> 61 /\ c <> 10 /\ c <> 0) name -> (exists c r', b ++ r = c :: r' /\ (c = 61 \/ c = 0)) ->
  (length out + length name <= fsize)%nat -> (length name < fuel)%nat ->
  copy_name fuel file fsize sp out = Done (sp + length name, out ++ name)%nat.
Proof.
  intros H Hn (c & r' & Ec & Hc). revert fuel sp out H. induction Hn as [|d name Hd _ IH]; intros [|fuel] sp out H Ho Hf; cbn [length] in *; [lia| |lia|]; cbn [copy_name].
  - rewrite (rdb_Some file sp c); [|apply (at_end _ _ _ r'); unfold at_ in *; by rewrite H, Ec]. rewrite bind_Done, app_nil_r, Nat.add_0_r.
    by destruct Hc as [-> | ->].
  - rewrite (rdb_Some _ _ _ (at_lookup _ _ _ _ _ H)), bind_Done. destruct Hd as (H1 & H2 & H3).
    rewrite (proj2 (Z.eqb_neq d 61)), (proj2 (Z.eqb_neq d 10)), (proj2 (Z.eqb_neq d 0)) by done. cbn [negb andb].
    rewrite emit_ok, bind_Done by lia. apply at_next in H. rewrite IH by (done || (rewrite ?length_app; cbn; lia)).
    do 2 f_equal; [lia|]. by rewrite <- app_assoc.
Qed.

Lemma store_value_spec fsize (plus : bool) name sp rhs z st m v n : at_ (l_file st) sp (61 :: rhs) (0 :: z) -> 0 ∉ rhs ->
  holds (l_env st) m -> name <> [] -> eq_sign ∉ (if plus then tail name else name) ->
  expand_ref (S (length rhs)) m rhs = Some (v, n) -> (length name + 1 + n + 1 <= fsize)%nat ->
  exists st', store_value bss mem fsize plus name 61 sp st = Done st' /\
    leaves st (sp + 1 + length rhs) z (<[if plus then tail name else name := v]> m) st'.
Proof.
  intros H Hz Hm Hne Hn He Hr. pose proof (at_length _ _ _ _ H ltac:(done)) as HL. cbn [length] in HL. pose proof (expand_ref_length _ _ _ _ _ He).
  unfold store_value. rewrite emit_ok, bind_Done by lia.
  destruct (expand_value_spec m fsize z (S (length rhs)) (S (length (l_file st))) (sp + 1)%nat (name ++ [61]) rhs st v n) as (file' & E & Hl & Ha);
    [by eapply at_next|done|intros; by apply holds_getenv|exact He|rewrite length_app; cbn; lia|lia|].
  rewrite E, bind_Done, emit_ok, bind_Done by (rewrite !length_app; cbn; lia).
  destruct (ld_putenv_spec (if plus then tail name else name) v (with_file file' st) m) as (env & Ep & Hh); [done|done|].
  exists (mk_ld file' env (S (l_puts st))). split; [|by split_and!]. etransitivity; [|exact Ep]. f_equal. rewrite <- app_assoc.
  destruct plus; [|done]. by destruct name.
Qed.

(** A line without equals sign, or with one *)
Lemma load_assign_spec fsize tb line z st m m' : at_ (l_file st) tb line (0 :: z) -> Forall (fun c => c <> 10 /\ c <> 0) line ->
  (length line <= fsize)%nat -> holds (l_env st) m -> assign_ref fsize m line = Some m' ->
  exists st', load_assign bss mem uninit fsize tb st = Done st' /\ leaves st (tb + length line) z m' st'.
Proof.
  intros H Hl Hfs Hm Ha. unfold assign_ref in Ha. pose proof (span_app (fun c => negb (c =? 61)) line) as Hs.
  destruct (span _ line) as [name r]. destruct Hs as (-> & Hname & Hr). rewrite length_app in Hfs.
  pose proof (at_length _ _ _ _ H ltac:(done)) as HL. rewrite length_app in HL.
  assert (Hn : Forall (fun c => c <> 61 /\ c <> 10 /\ c <> 0) name).
  { apply Forall_app in Hl as [Hl _]. rewrite Forall_forall in *. intros c Hc. specialize (Hl c Hc). specialize (Hname c Hc).
    apply negb_true_iff, Z.eqb_neq in Hname. tauto. }
  assert (H1 : at_ (l_file st) tb name (r ++ 0 :: z)) by (unfold at_ in *; by rewrite H, <- app_assoc).
  pose proof (at_skip _ _ _ _ _ H) as H2. unfold load_assign.
  rewrite (copy_name_spec _ _ fsize tb name r (0 :: z) []), bind_Done; [|done|done| |cbn; lia|lia].
  2: { destruct r as [|c r]; [by exists 0, z; auto|]. apply negb_false_iff, Z.eqb_eq in Hr as ->. eexists 61, _. by auto. }
  cbn [app]. destruct r as [|c rhs].
  { injection Ha as <-. rewrite (rdb_Some _ _ 0) by (by eapply at_end). rewrite bind_Done. exists st. split; [done|]. rewrite app_nil_r. by split. }
  apply negb_false_iff, Z.eqb_eq in Hr as ->. rewrite (rdb_Some _ _ _ (at_lookup _ _ _ _ _ H2)), bind_Done.
  change ((61 =? 10) || (61 =? 0)) with false. cbn iota.
  destruct (decide (name = [])) as [Hne|Hne]; [by rewrite bool_decide_eq_true_2 in Ha|].
  rewrite (bool_decide_eq_false_2 (name = [])) in Ha by done. cbv zeta. set (plus := hd uninit name =? 43).
  assert (Ep : (hd 0 name =? 43) = plus) by (by destruct name). rewrite Ep in Ha. set (var := if plus then tail name else name) in *.
  assert (Hv : eq_sign ∉ var).
  { intros Hin. rewrite Forall_forall in Hn. assert (Hin' : eq_sign ∈ name) by (subst var; destruct plus; [destruct name; [done|by right]|done]).
    apply list_elem_of_In in Hin'. destruct (Hn _ Hin') as (Hx & _). done. }
  assert (Hs : (if plus then if bool_decide (name = []) || negb (length name <? fsize)%nat then Fail UB
      else e ← getenv (l_env st) (tail name); Done (bool_decide (is_Some e)) else Done false) = Done (plus && bool_decide (is_Some (m !! var)))).
  { subst var. destruct plus; [|done]. rewrite bool_decide_eq_false_2, (proj2 (Nat.ltb_lt _ _)) by (done || cbn in Hfs; lia).
    cbn [orb negb]. by rewrite (holds_getenv _ m). }
  rewrite Hs, bind_Done. destruct (plus && bool_decide (is_Some (m !! var))).
  { injection Ha as <-. exists st. split; [done|]. split; [done|]. split; [|done]. apply (at_skip _ _ (name ++ 61 :: rhs) []). by rewrite app_nil_r. }
  apply bind_Some in Ha as ([v n] & He & Ha). destruct (Nat.leb_spec (length name + 1 + n + 1) fsize); [|done]. injection Ha as <-.
  rewrite length_app. cbn [length]. replace (tb + (length name + S (length rhs)))%nat with (tb + length name + 1 + length rhs)%nat by lia.
  apply (store_value_spec fsize plus name _ rhs z st m v n); try done. intros Hin. apply Forall_app in Hl as [_ Hl].
  rewrite Forall_forall in Hl. apply list_elem_of_In in Hin. destruct (Hl 0) as [_ ?]; [by right|done].
Qed.

Lemma trim_end_snoc l c : trim_end (l ++ [c]) = if (c =? 32) || (c =? 9) then trim_end l else l ++ [c].
Proof.
  induction l as [|d l IH]; [done|]. cbn [app trim_end]. rewrite IH.
  destruct ((c =? 32) || (c =? 9)); by destruct l.
Qed.

Lemma trim_end_prefix l : exists b, l = trim_end l ++ b.
Proof.
  induction l as [|c l [b IH]] using rev_ind; [by exists []|]. rewrite trim_end_snoc. destruct ((c =? 32) || (c =? 9)); [|exists []; by rewrite app_nil_r].
  exists (b ++ [c]). rewrite app_assoc. by rewrite <- IH.
Qed.

Lemma trim_back_spec fuel file tb a l r : at_ file tb (a :: l) r -> (length l < fuel)%nat ->
  trim_back fuel file tb (tb + length l) = Done (tb + length (trim_end l))%nat.
Proof.
  revert fuel r. induction l as [|c l IH] using rev_ind; intros [|fuel] r H Hf; [cbn in Hf; lia| |lia|].
  - cbn [trim_back length trim_end]. by rewrite Nat.add_0_r, Nat.ltb_irrefl.
  - rewrite length_app in *. cbn [length] in *. cbn [trim_back]. rewrite (proj2 (Nat.ltb_lt _ _)) by lia.
    assert (Hc : file !! (tb + (length l + 1))%nat = Some c).
    { apply (at_lookup _ _ _ [] r). apply (at_skip _ _ (a :: l)) in H. cbn [length] in H. by replace (tb + (length l + 1))%nat with (tb + S (length l))%nat by lia. }
    rewrite (rdb_Some _ _ _ Hc), bind_Done, trim_end_snoc. destruct ((c =? 32) || (c =? 9)).
    + replace (tb + (length l + 1) - 1)%nat with (tb + length l)%nat by lia. apply (IH _ (c :: r)); [|lia]. unfold at_ in *. rewrite H. cbn. by rewrite <- app_assoc.
    + rewrite length_app. done.
Qed.

Lemma c_string_cut t x r : 0 ∉ t -> c_string (<[length t := 0]> (t ++ x :: r)) = t.
Proof.
  induction t as [|c t IH]; intros H; [done|]. apply not_elem_of_cons in H as [Hc H]. cbn.
  rewrite (proj2 (Z.eqb_neq c 0)) by congruence. f_equal. by apply IH.
Qed.

Lemma load_section_spec base tb a l z st : at_ (l_file st) tb (a :: l) (0 :: z) -> 0 ∉ a :: l ->
  exists file', load_section base tb (tb + length (a :: l) + 1) st = Done (bool_decide (a :: trim_end l = base), with_file file' st) /\
    length file' = length (l_file st) /\ at_ file' (tb + length (a :: l)) [] (0 :: z).
Proof.
  intros H Hz. unfold load_section. pose proof (at_length _ _ _ _ H ltac:(done)) as HL. cbn [length] in HL |- *.
  replace (tb + S (length l) + 1 - 2)%nat with (tb + length l)%nat by lia. rewrite (trim_back_spec _ _ _ a _ (0 :: z)), bind_Done by (done || lia).
  destruct (trim_end_prefix l) as [b Hb]. pose proof (f_equal length Hb) as Hlen. rewrite length_app in Hlen. set (t := trim_end l) in *.
  rewrite wrb_ok, bind_Done by lia. eexists. split; [|split; [apply length_insert|]].
  - do 3 f_equal. rewrite drop_insert_ge by lia. replace (tb + length t + 1 - tb)%nat with (length (a :: t)) by (cbn; lia). unfold at_ in H. rewrite H.
    destruct (b ++ 0 :: z) as [|x r] eqn:Ex; [by destruct b|].
    replace ((a :: l) ++ 0 :: z) with ((a :: t) ++ x :: r) by (rewrite <- Ex, app_assoc; f_equal; cbn; by rewrite <- Hb).
    rewrite c_string_cut; [done|]. rewrite Hb in Hz. change (a :: t ++ b) with ((a :: t) ++ b) in Hz. by apply not_elem_of_app in Hz as [? _].
  - destruct (decide (length t = length l)) as [El|El].
    + replace (tb + length t + 1)%nat with (tb + length (a :: l))%nat by (cbn; lia). by apply (at_insert_end _ _ (a :: l)).
    + apply at_insert; [|lia]. rewrite <- (app_nil_r (a :: l)) in H. by apply at_skip in H.
Qed.

Lemma lines_skip a l : Forall (fun c => is_eol c = true) a -> lines_of [] (a ++ l) = lines_of [] l.
Proof. induction 1 as [|c a Hc _ IH]; [done|]. cbn. by rewrite Hc. Qed.

Lemma lines_line cur line c r : Forall (fun c => is_eol c = false) line -> is_eol c = true -> cur ++ line <> [] ->
  lines_of cur (line ++ c :: r) = (cur ++ line) :: lines_of [] r.
Proof.
  intros H Hc. revert cur. induction H as [|d line Hd _ IH]; intros cur Hne; cbn.
  - rewrite app_nil_r in *. by rewrite Hc, bool_decide_eq_false_2.
  - rewrite Hd, IH; [by rewrite <- app_assoc|by destruct cur].
Qed.

(** The last line ends with a newline. *)
Definition terminated (l : list Z) : bool := is_eol (last l 10).

Lemma last_app_ne {A} (a b : list A) d : b <> [] -> last (a ++ b) d = last b d.
Proof. intros Hb. induction a as [|x a IH]; [done|]. cbn. rewrite IH. by destruct a, b. Qed.

Lemma terminated_app a b : terminated (a ++ b) = true -> terminated b = true.
Proof. unfold terminated. destruct b as [|x b]; [done|]. by rewrite last_app_ne. Qed.

Lemma terminated_line line : terminated line = true -> Forall (fun c => is_eol c = false) line -> line = [].
Proof.
  intros Ht H. destruct line as [|c line] using rev_ind; [done|]. unfold terminated in Ht. rewrite last_last in Ht.
  apply Forall_app in H as [_ H]. inversion H. congruence.
Qed.

(** A text without NULs starts with newlines, a line and its end; or it has no more lines. *)
Lemma first_line l : terminated l = true -> exists a line r, l = a ++ line ++ r /\ Forall (fun c => is_eol c = true) a /\
  Forall (fun c => is_eol c = false) line /\ ((line = [] /\ r = []) \/ (line <> [] /\ exists c r', r = c :: r' /\ is_eol c = true)).
Proof.
  intros Ht. pose proof (span_app is_eol l) as H1. destruct (span is_eol l) as [a b]. destruct H1 as (-> & Ha & Hb). apply terminated_app in Ht.
  pose proof (span_app (fun c => negb (is_eol c)) b) as H2. destruct (span _ b) as [line r]. destruct H2 as (-> & Hl & Hr).
  assert (Hl' : Forall (fun c => is_eol c = false) line) by (revert Hl; apply Forall_impl; intros c; by destruct (is_eol c)).
  exists a, line, r. split_and!; [done|done|done|]. destruct r as [|c r].
  - rewrite app_nil_r in *. rewrite (terminated_line line) by done. by left.
  - apply negb_false_iff in Hr. destruct line as [|d line]; [cbn in Hb; congruence|]. right. split; [done|]. by exists c, r.
Qed.

Lemma both_chars p (l : list Z) : 0 ∉ l -> Forall (fun c => p c = true) l -> Forall (fun c => negb (c =? 0) && p c = true) l.
Proof.
  intros Hz H. induction H as [|c l Hc _ IH]; [done|]. apply not_elem_of_cons in Hz as [H0 Hz]. apply Forall_cons_2; [|by apply IH].
  rewrite Hc, andb_true_r. apply negb_true_iff, Z.eqb_neq. congruence.
Qed.

Lemma at_cut file i line c r : at_ file i line (c :: r) -> (i + length line < length file)%nat ->
  at_ (<[(i + length line)%nat := 0]> file) i line (0 :: r).
Proof.
  unfold at_. intros E H. rewrite drop_insert_ge by lia. replace (i + length line - i)%nat with (length line + 0)%nat by lia.
  rewrite E, insert_app_r. done.
Qed.

Lemma at_after file i r z : at_ file i [] (0 :: r ++ z) -> at_ file (i + 1) r z.
Proof. unfold at_. intros E. by rewrite <- drop_drop, E. Qed.

(** A line that was found: [line] lies at [tb], and its end got a NUL. *)
Lemma find_line fuel bp a line r z st : at_ (l_file st) bp (a ++ line ++ r) (0 :: z) -> 0 ∉ a ++ line ++ r ->
  Forall (fun c => is_eol c = true) a -> Forall (fun c => is_eol c = false) line ->
  (line = [] /\ r = []) \/ (line <> [] /\ exists c r', r = c :: r' /\ is_eol c = true) -> (length (l_file st) < fuel)%nat ->
  scan_while fuel (fun c => negb (c =? 0) && is_eol c) (l_file st) bp = Done (bp + length a)%nat /\
  scan_while fuel (fun c => negb (c =? 0) && negb (is_eol c)) (l_file st) (bp + length a) = Done (bp + length a + length line)%nat /\
  rdb (l_file st) (bp + length a + length line) = Done (hd 0 r) /\ at_ (l_file st) (bp + length a) line (r ++ 0 :: z).
Proof.
  intros H Hz Ha Hl Hcase Hf. pose proof (at_length _ _ _ _ H ltac:(done)) as HL. rewrite !length_app in HL.
  apply not_elem_of_app in Hz as [Hza Hz]. apply not_elem_of_app in Hz as [Hzl Hzr].
  pose proof (at_skip _ _ _ _ _ H) as H1. pose proof (at_skip _ _ _ _ _ H1) as H2.
  assert (H1' : at_ (l_file st) (bp + length a) line (r ++ 0 :: z)) by (unfold at_ in *; by rewrite H1, <- app_assoc).
  split_and!; [| | |done].
  - apply (scan_while_spec _ _ _ _ a (line ++ r) (0 :: z)); [unfold at_ in *; by rewrite H, <- app_assoc|by apply both_chars| |lia].
    destruct Hcase as [[-> ->]|[Hne _]]; [by exists 0, z|]. destruct line as [|d line]; [done|]. eexists _, _. split; [done|].
    apply Forall_cons_1 in Hl as [-> _]. apply andb_false_r.
  - apply (scan_while_spec _ _ _ _ line r (0 :: z)); [done| | |lia].
    + apply both_chars; [done|]. revert Hl. apply Forall_impl. by intros c ->.
    + destruct Hcase as [[-> ->]|(_ & c & r' & -> & Hc)]; [by exists 0, z|]. eexists _, _. split; [done|]. rewrite Hc. apply andb_false_r.
  - apply rdb_Some. destruct r; [by eapply at_end|by eapply at_lookup].
Qed.

Lemma load_line_spec fsize base this tb line z st m m' lines : at_ (l_file st) tb line (0 :: z) -> 0 ∉ line -> line <> [] ->
  Forall (fun c => is_eol c = false) line -> (length line <= fsize)%nat -> holds (l_env st) m ->
  load_ref fsize base this m (line :: lines) = Some m' ->
  exists this' st' m1, load_line bss mem uninit fsize base this tb (tb + length line + 1) st = Done (this', st') /\
    leaves st (tb + length line) z m1 st' /\ load_ref fsize base this' m1 lines = Some m'.
Proof.
  intros H Hz Hne Hl Hfs Hm Href. destruct line as [|t l]; [done|]. unfold load_line. rewrite (rdb_Some _ _ _ (at_lookup _ _ _ _ _ H)), bind_Done.
  cbn [load_ref] in Href. assert (Ht : t <> 0) by (apply not_elem_of_cons in Hz as [? _]; congruence). rewrite (proj2 (Z.eqb_neq _ _) Ht). cbn [orb].
  assert (Hend : at_ (l_file st) (tb + length (t :: l)) [] (0 :: z)) by (rewrite <- (app_nil_r (t :: l)) in H; by apply at_skip in H).
  destruct (t =? 35); [by exists this, st, m|]. destruct (t =? 91).
  { destruct (load_section_spec base tb t l z st H Hz) as (file' & E & Hlen & Ha). rewrite E. by exists (bool_decide (t :: trim_end l = base)), (with_file file' st), m. }
  apply bind_Some in Href as (m1 & Ha & Href). destruct this; [|injection Ha as <-; by exists false, st, m].
  destruct (load_assign_spec fsize tb (t :: l) z st m m1) as (st' & E & Hlv); [done| |done|done|done|rewrite E, bind_Done; by exists true, st', m1].
  rewrite Forall_forall in *. intros c Hc. pose proof (Hl c Hc) as Hc'. split; [by intros ->|]. intros ->. apply Hz. by apply list_elem_of_In.
Qed.

Lemma load_lines_spec fsize base z fuel : forall this bp rest st m m',
  at_ (l_file st) bp rest (0 :: z) -> 0 ∉ rest -> terminated rest = true -> (length rest <= S fsize)%nat -> (length rest < fuel)%nat ->
  holds (l_env st) m -> load_ref fsize base this m (lines_of [] rest) = Some m' ->
  exists st', load_lines bss mem uninit fuel fsize base this bp st = Done st' /\ holds (l_env st') m'.
Proof.
  induction fuel as [|fuel IH]; intros this bp rest st m m' H Hz Ht Hfs Hf Hm Href; [lia|]. cbn [load_lines].
  destruct (first_line rest Ht) as (a & line & r & -> & Ha & Hl & Hcase).
  destruct (find_line (S (length (l_file st))) bp a line r z st) as (E1 & E2 & E3 & H1); [done..|lia|].
  rewrite E1, bind_Done, E2, bind_Done, E3, bind_Done. rewrite lines_skip in Href by done.
  destruct Hcase as [[-> ->]|(Hne & c & r' & -> & Hc)].
  { cbn in Href. injection Href as <-. by exists st. }
  pose proof (at_length _ _ _ _ H ltac:(done)) as HL. rewrite !length_app in *. cbn [length] in *. apply terminated_app, terminated_app in Ht.
  change (hd 0 (c :: r')) with c. rewrite (proj2 (Z.eqb_neq c 0)) by (intros ->; done). rewrite wrb_ok, bind_Done by lia.
  set (tb := (bp + length a)%nat) in *. apply (at_cut _ _ _ _ (r' ++ 0 :: z)) in H1; [|lia]. set (file := <[(tb + length line)%nat := 0]> (l_file st)) in *.
  apply not_elem_of_app in Hz as [_ Hz]. apply not_elem_of_app in Hz as [Hzl Hzr]. apply not_elem_of_cons in Hzr as [_ Hzr].
  rewrite lines_line in Href by done. cbn [app] in Href.
  destruct (load_line_spec fsize base this tb line (r' ++ 0 :: z) (with_file file st) m m' (lines_of [] r'))
    as (this' & st' & m1 & E & (Hlen & Ha' & Hm1) & Hr1); [done|done|done|done|lia|done|done|].
  rewrite E, bind_Done. apply (IH this' _ r' st' m1 m'); [by apply at_after|done| |lia|lia|done|done]. by apply (terminated_app [c]).
Qed.

End Lines.

(** ** The file *)

(** The section of a program: its name in lower case, without directories and suffix *)
Definition section_ref (app_name : list Z) : list Z :=
  [91] ++ (low_char <$> before_dot (drop (name_index app_name 0 0) app_name)) ++ [93].

Lemma lower_all_spec l : lower_all l = Done (low_char <$> l).
Proof.
  induction l as [|c l IH]; [done|]. cbn [lower_all]. rewrite tolower_spec by (unfold wrap_u; apply Z.mod_pos_bound; lia). by rewrite bind_Done, IH.
Qed.

Lemma before_dot_length l : (length (before_dot l) <= length l)%nat.
Proof. induction l as [|c l IH]; [done|]. cbn. destruct (c =? 46); cbn; lia. Qed.

Lemma section_of_spec app_name : (length app_name <= 509)%nat -> section_of app_name = Done (section_ref app_name).
Proof.
  intros H. unfold section_of. rewrite lower_all_spec, bind_Done, length_fmap. set (l := drop _ _). pose proof (before_dot_length l).
  assert (length l <= length app_name)%nat by (subst l; rewrite length_drop; lia). unfold PATH_MAX.
  by rewrite (proj2 (Z.ltb_ge _ _)) by lia.
Qed.

Lemma lines_newline cur l : lines_of cur (l ++ [10]) = lines_of cur l.
Proof. revert cur. induction l as [|c l IH]; intros cur; cbn; [by rewrite app_nil_r|]. destruct (is_eol c); by rewrite IH. Qed.

(** The block as a terminated text *)
Lemma file_block_spec uninit data : data <> [] -> 0 ∉ data -> exists rest z,
  file_block uninit (length data) data = Done (rest ++ 0 :: z) /\ (0 ∉ rest) /\ terminated rest = true /\
  (length rest <= S (length data))%nat /\ lines_of [] rest = lines_of [] data.
Proof.
  intros Hne Hz. unfold file_block. rewrite Nat.add_comm, Nat.add_sub. cbn [replicate].
  destruct data as [|c data] using rev_ind; [done|]. clear IHdata. set (d := data ++ [c]) in *.
  assert (Ec : (d ++ [uninit; uninit]) !! (length d - 1)%nat = Some c).
  { subst d. rewrite length_app. cbn [length]. rewrite Nat.add_sub, <- app_assoc. by rewrite lookup_app_r, Nat.sub_diag by lia. }
  assert (HL : length (d ++ [uninit; uninit]) = (length d + 2)%nat) by (by rewrite length_app).
  assert (Hi : forall k b, <[(length d + k)%nat := b]> (d ++ [uninit; uninit]) = d ++ <[k := b]> [uninit; uninit]) by (intros; apply insert_app_r).
  rewrite (rdb_Some _ _ _ Ec), bind_Done. destruct (Z.eqb_spec c 10) as [->|Hc].
  - exists d, [uninit]. rewrite wrb_ok by lia. rewrite <- (Nat.add_0_r (length d)), Hi at 1. split_and!; [done|done| |lia|done].
    unfold terminated. subst d. by rewrite last_last.
  - exists (d ++ [10]), []. rewrite wrb_ok, bind_Done by lia. rewrite <- (Nat.add_0_r (length d)), Hi at 1. cbn [insert list_insert].
    rewrite wrb_ok by (rewrite length_app; cbn; lia). rewrite insert_app_r, <- app_assoc. split_and!; [done| | |rewrite length_app; cbn; lia|apply lines_newline].
    + apply not_elem_of_app. split; [done|]. set_solver.
    + unfold terminated. by rewrite last_last.
Qed.

Lemma load_file_spec bss mem uninit open_env app_name env m name data m' : (forall k, exists a, mem k = (true, Some a)) ->
  holds bss env m -> m !! DJGPP = Some name -> open_env name = Some (Z.of_nat (length data), data) -> data <> [] -> 0 ∉ data ->
  (length app_name <= 509)%nat -> load_ref (length data) (section_ref app_name) true m (lines_of [] data) = Some m' ->
  exists env', __crt0_load_environment_file bss mem uninit open_env true app_name env = Done (env', false) /\ holds bss env' m'.
Proof.
  intros Hmem Hm Hv Ho Hne Hz Ha Href. unfold __crt0_load_environment_file. rewrite (holds_getenv _ _ _ _ Hm), bind_Done, Hv, Ho. cbn [negb].
  rewrite (proj2 (Z.leb_gt _ _)) by (destruct data; [done|cbn; lia]). rewrite Nat2Z.id.
  destruct (file_block_spec uninit data Hne Hz) as (rest & z & E & Hzr & Ht & Hlen & El). rewrite E, bind_Done, section_of_spec, bind_Done by done.
  destruct (load_lines_spec bss mem uninit Hmem (length data) (section_ref app_name) z (S (length (rest ++ 0 :: z))) true 0 rest (mk_ld (rest ++ 0 :: z) env 0) m m')
    as (st' & E' & Hm'); [done|done|done|done|rewrite length_app; cbn; lia|done|by rewrite El|].
  rewrite E', bind_Done. by exists (l_env st').
Qed.
