(* ===== verification/CrtStart.v ===== *)
(** * The start of a program: what main is given

    The environment of DOS, the file DJGPP.ENV and the command line together; a whole start,
    and environment files that the code does not handle. *)

From Stdlib Require Import String Ascii.
From stdpp Require Import base gmap list numbers.
From Stdlib Require Import ZArith Lia.
From S2P Require Import Prelude Ctype MemFuns Strings Env CrtArgs CrtArgsProps CrtArgsThms CrtArgsQuote CrtArgsRuns CrtEnv CrtEnvProps.

Open Scope Z_scope.
Open Scope c_scope.

(** ** The environment of DOS *)

Definition env_text (l : list (list Z * list Z)) : list Z := concat ((fun x => entry x ++ [0]) <$> l).

(** The block: the strings, an empty one, a word, and the name of the program *)
Definition env_block (l : list (list Z * list Z)) (word argv0 r : list Z) : list Z := env_text l ++ 0 :: word ++ argv0 ++ 0 :: r.

Lemma entry_nonempty x : exists c t, entry x = c :: t.
Proof. destruct x as [[|c n] v]; by eexists _, _. Qed.

Lemma env_strings_spec fuel blk cp l z : at_ blk cp (env_text l) (0 :: z) -> Forall (fun x => 0 ∉ entry x) l -> (length l < fuel)%nat ->
  env_strings fuel blk cp = Done (map entry l, cp + length (env_text l))%nat.
Proof.
  intros H Hl. revert fuel cp H. induction Hl as [|x l Hx _ IH]; intros [|fuel] cp H Hf; cbn [length] in Hf; [lia| |lia|]; cbn [env_strings].
  - rewrite (rdb_Some blk cp 0) by (by eapply at_end). rewrite bind_Done. cbn. by rewrite Nat.add_0_r.
  - change (env_text (x :: l)) with ((entry x ++ [0]) ++ env_text l) in *. destruct (entry_nonempty x) as (c & t & Ex).
    assert (H1 : drop cp blk = entry x ++ 0 :: (env_text l ++ 0 :: z)) by (unfold at_ in H; by rewrite H, <- !app_assoc).
    rewrite (rdb_Some blk cp c) by (apply (at_lookup _ _ _ t (0 :: env_text l ++ 0 :: z)); unfold at_; by rewrite H1, Ex).
    rewrite bind_Done, (proj2 (Z.eqb_neq c 0)) by (intros ->; rewrite Ex in Hx; apply Hx; by left).
    pose proof (f_equal length H1) as HL. rewrite length_drop, length_app in HL. cbn [length] in HL.
    rewrite (str_len_spec _ _ _ _ _ H1 Hx), bind_Done by lia. apply at_skip in H. rewrite length_app in H. cbn [length] in H.
    rewrite Nat.add_assoc in H. rewrite IH, bind_Done by (done || lia). cbn [map]. rewrite (slice_at _ _ _ _ H1), !length_app. cbn [length].
    do 2 f_equal. lia.
Qed.

Lemma setup_environment_spec bss id l word argv0 r env : length word = 2%nat -> 0 ∉ argv0 ->
  Forall (fun x => (0 ∉ entry x) /\ (eq_sign ∉ x.1) /\ x.1 <> []) l -> NoDup l.*1 -> putenv_bss_count env <> bss ->
  exists env', setup_environment bss (Some id) true true (env_block l word argv0 r) env = Done (inl (env', Some argv0)) /\
    holds bss env' (list_to_map l).
Proof.
  intros Hw Hz Hl Hnd Hb. unfold setup_environment.
  assert (Hlen : (length l <= length (env_text l))%nat).
  { clear. induction l as [|x l IH]; [done|]. change (env_text (x :: l)) with ((entry x ++ [0]) ++ env_text l). rewrite !length_app. cbn [length]. lia. }
  rewrite (env_strings_spec _ _ 0 l (word ++ argv0 ++ 0 :: r)), bind_Done; [|done| |].
  2: { revert Hl. apply Forall_impl. tauto. } 2: { unfold env_block. rewrite length_app. lia. }
  cbn [negb andb]. rewrite Nat.add_0_l.
  assert (Hh : env_holds bss (with_environ env (Some (id, map Str (map entry l) ++ [Null])) (environ_changed env)) l).
  { constructor; [|done|]. - exists id, []. rewrite map_map. split; [done|]. intros; done.
    - apply Forall_fmap. revert Hl. apply Forall_impl. intros x. cbn. tauto. }
  destruct (putenv_unbinds bss true None _ l [] Hh) as (env' & l' & E & Hh' & Hm); [apply not_elem_of_nil|]. rewrite E, bind_Done.
  assert (Hd : drop (length (env_text l) + 3) (env_block l word argv0 r) = argv0 ++ 0 :: r).
  { unfold env_block. rewrite <- drop_drop, drop_app_length. destruct word as [|? [|? [|]]]; done. }
  rewrite (str_len_spec _ _ _ _ _ Hd Hz), bind_Done by (unfold env_block; rewrite !length_app; cbn [length]; rewrite !length_app; cbn [length]; lia).
  rewrite (slice_at _ _ _ _ Hd). exists env'. split; [done|]. exists l'. split; [done|]. rewrite Hm. apply delete_id.
  apply not_elem_of_list_to_map_1. intros Hin. apply list_elem_of_fmap in Hin as (x & Hx & Hin). rewrite Forall_forall in Hl.
  apply list_elem_of_In in Hin. destruct (Hl x Hin) as (_ & _ & Hne). by rewrite <- Hx in Hne.
Qed.

(** ** The whole start *)

Lemma env_fn_holds bss env m x : holds bss env m -> env_fn env x = m !! x.
Proof. intros H. unfold env_fn. by rewrite (holds_getenv _ _ _ _ H). Qed.

Lemma bumped_holds bss env m k : holds bss env m -> holds bss (with_environ env (environ env) k) m.
Proof. intros (l & [H1 H2 H3] & Hm). exists l. by split. Qed.

(** What DOS gives: an environment of variables [l] in which DJGPP names the file [data], the
    name of the program, and a short command line; and a start with default flags. *)
Record start_ok (bss : Z) (l : list (list Z * list Z)) (word argv0 : list Z) (env0 : envs) (open_env : list Z -> option (Z * list Z))
    (data : list Z) (stub psp : list Z) (startup_flags : Z) (line : list Z) : Prop := {
  so_vars : Forall (fun x => (0 ∉ entry x) /\ (eq_sign ∉ x.1) /\ x.1 <> []) l;
  so_nodup : NoDup l.*1;
  so_word : length word = 2%nat;
  so_argv0 : (0 ∉ argv0) /\ bytes_ok argv0 /\ (length argv0 <= 509)%nat;
  so_first : putenv_bss_count env0 <> bss;
  so_file : exists name, (list_to_map l : vars) !! DJGPP = Some name /\ open_env name = Some (Z.of_nat (length data), data);
  so_data : data <> [] /\ (0 ∉ data);
  so_stub : hd 0 stub = 0;
  so_line : bytes_ok line /\ (length line <= 126)%nat;
  so_psp : exists r, psp = Z.of_nat (length line) :: line ++ 13 :: r;
  so_flags : Forall (fun f => flag_set startup_flags f = false)
    [_CRT0_FLAG_DROP_DRIVE_SPECIFIER; _CRT0_FLAG_DROP_EXE_SUFFIX; _CRT0_FLAG_DISALLOW_RESPONSE_FILES] }.

Lemma start_name_short argv0 stub : hd 0 stub = 0 -> (length argv0 <= 509)%nat -> (length (start_name argv0 stub) <= 509)%nat.
Proof. intros Hs H. unfold start_name. rewrite Hs. change (negb (0 =? 0)) with false. cbn iota. rewrite length_drop. lia. Qed.

(** C25. The start of a program, from what DOS gives to main: the variables of the block of DOS
    are the environment, the lines of the file that DJGPP names and that are for this program
    are carried out on it, with the values of variables expanded; and main is called with the
    name, the words of the command line and this environment. Of the name, 16 characters
    behind the last slash are left ([argv0_ref]). Conditions: those of [start_ok] (distinct
    variables with names, DJGPP set and its file readable and not empty, no name in the stub,
    argv[0] of at most 509 characters, a line of at most 126 characters in the PSP, and the
    flags that drop the drive, the suffix or response files clear), all memory that is asked
    for, lines of the file that [load_ref] can carry out (no value ends in an unfinished
    percent, lines have names, and values fit; see trailing_percent_cuts, value_overruns and
    empty_file_underruns), no proxy, response files that nest [n] deep at most, and no dot
    in the unassigned bytes behind their text. *)
Theorem main_gets bss id mem uninit open_env gives open_file junk glob_function startup_flags stub psp dos n l word argv0 r env0 data line m' :
  start_ok bss l word argv0 env0 open_env data stub psp startup_flags line ->
  (forall k, exists a, mem k = (true, Some a)) -> (forall k size, gives k size = true) -> 0 <= junk < 256 -> junk <> 46 ->
  load_ref (length data) (section_ref (start_name argv0 stub)) true (list_to_map l) (lines_of [] data) = Some m' ->
  m' !! __PROXY = None ->
  let args := split_args (negb (flag_set startup_flags _CRT0_FLAG_KEEP_QUOTES)) line in
  no_proxy args -> depth_ok open_file startup_flags n args ->
  let '(argc, argv) := argv_of (argv0_ref startup_flags argv0) (line_words open_file glob_function startup_flags n args) in
  exists env', holds bss env' m' /\
    crt1_arguments bss (Some id) true true true mem uninit open_env true gives open_file junk glob_function startup_flags stub psp dos (S n)
      (env_block l word argv0 r) env0 = Done (Main argc argv env').
Proof.
  intros [Hl Hnd Hw (Hz & Hb & Ha) Hfirst (name & Hname & Ho) (Hdn & Hdz) Hs (Hlb & Hll) (rp & Hp) Hfl] Hmem Hg Hj Hj46 Href Hprox args Hnp Hd.
  unfold crt1_arguments. destruct (setup_environment_spec bss id l word argv0 r env0) as (env1 & E1 & H1); [done..|]. rewrite E1, bind_Done.
  set (env2 := with_environ _ _ _). assert (H2 : holds bss env2 (list_to_map l)) by (by apply bumped_holds).
  unfold setup_pname. rewrite bind_Done.
  destruct (load_file_spec bss mem uninit open_env (start_name argv0 stub) env2 (list_to_map l) name data m') as (env3 & E3 & H3);
    [done|done|done|done|done|done|by apply start_name_short|done|]. rewrite E3, bind_Done.
  apply Forall_cons_1 in Hfl as [F1 Hfl]. apply Forall_cons_1 in Hfl as [F2 Hfl]. apply Forall_cons_1 in Hfl as [F3 _].
  assert (Hline : line_from psp (env_fn env3) line) by (split; [done|]; left; by exists rp).
  destruct (wpm_ends gives _ _ _ Hg (setup_spec gives open_file junk glob_function startup_flags psp (env_fn env3) dos n argv0 stub line (mk_calls 0 0)
    Hline ltac:(by rewrite (env_fn_holds bss _ m')) Hnp Hd Hb Hs ltac:(done) F1 F2 F3 Hj Hj46)) as ([[argc argv] c] & w & E & Er & Hc).
  rewrite E, bind_Done. cbn [fst snd] in *. rewrite Hc by (rewrite Hp; cbn; lia). fold args in Er. rewrite <- Er. by exists env3.
Qed.

(** ** A start *)

(** A file: lines for all programs, for gcc and for another *)
Definition env_file : list Z :=
  tx "# comment" ++ [13; 10] ++ tx "+TMP=c:/tmp" ++ [10] ++ tx "DIR=%/>:DJGPP%" ++ [10] ++
  tx "[gcc]  " ++ [10] ++ tx "OPT=100%%-%TMP%" ++ [10] ++ tx "[other]" ++ [10] ++ tx "X=1".

Definition vars1 : list (list Z * list Z) := [(tx "DJGPP", tx "C:\DJ\DJGPP.ENV"); (tx "TMP", tx "d:")].

(** What the file makes of them *)
Definition vars2 : list (list Z * list Z) := vars1 ++ [(tx "DIR", tx "c:/dj"); (tx "OPT", tx "100%-d:")].

Definition opens (data : list Z) (name : list Z) : option (Z * list Z) :=
  if bool_decide (name = tx "C:\DJ\DJGPP.ENV") then Some (Z.of_nat (length data), data) else None.
Definition env_mem (k : nat) : bool * option Z := (true, Some (1000 + Z.of_nat k)).
Definition env_zero : envs := mk_env None None (-1) (-1) (-1) 0 0.
Definition prog1 : list Z := tx "C:\DJ\BIN\GCC.EXE".

Definition start1 := crt1_arguments 1 (Some 100) true true true env_mem 7 (opens env_file) true plenty files 7 globs 0 [] (psp_of line1) no_dos 3
  (env_block vars1 [1; 0] prog1 []) env_zero.

Lemma main_gets_witness :
  exists env', holds 1 env' (list_to_map vars2) /\
    start1 = Done (Main 9 (strs ["c:/dj/bin/gcc.exe"; "x"; "y z"; "u"; "v"; "a.c"; "b.c"; "*.c"; "end"]%string) env').
Proof.
  assert (Hok : start_ok 1 vars1 [1; 0] prog1 env_zero (opens env_file) env_file [] (psp_of line1) 0 line1).
  { split.
    - apply (bool_decide_unpack (Forall (fun x => (0 ∉ entry x) /\ (eq_sign ∉ x.1) /\ x.1 <> []) vars1)). vm_compute. exact I.
    - apply (bool_decide_unpack (NoDup vars1.*1)). vm_compute. exact I.
    - reflexivity.
    - split; [apply (bool_decide_unpack (0 ∉ prog1)); vm_compute; exact I|]. split; [apply bytes_of_tx|]. apply Nat.leb_le. reflexivity.
    - discriminate.
    - exists (tx "C:\DJ\DJGPP.ENV"). split; reflexivity.
    - split; [discriminate|]. apply (bool_decide_unpack (0 ∉ env_file)). vm_compute. exact I.
    - reflexivity.
    - split; [apply bytes_of_tx|]. apply Nat.leb_le. reflexivity.
    - eexists. reflexivity.
    - apply (bool_decide_unpack _). vm_compute. exact I. }
  apply (main_gets 1 100 env_mem 7 (opens env_file) plenty files 7 globs 0 [] (psp_of line1) no_dos 2 vars1 [1; 0] prog1 [] env_zero env_file line1 (list_to_map vars2));
    [exact Hok|intros k; eexists; reflexivity|reflexivity|lia|lia|vm_compute; reflexivity|vm_compute; reflexivity|vm_compute; discriminate|exact line1_depth].
Defined.

(** ** What the code does not handle *)

(** The variables after a file was loaded *)
Definition loads (data : list Z) : option (list (list Z)) :=
  match __crt0_load_environment_file 1 env_mem 7 (opens data) true prog1 (mk_env (Some (100, map (Str ∘ entry) vars1 ++ [Null])) None (-1) (-1) (-1) 1 0) with
  | Done (env, _) => match environ env with Some (_, l) => Some (omap (fun c => match c with Str s => Some s | _ => None end) l) | None => None end
  | Fail _ => None
  end.

Abbreviation envs1 := (mk_env (Some (100, map (Str ∘ entry) vars1 ++ [Null])) None (-1) (-1) (-1) 1 0).

(** A line that ends with a percent sign: strchr finds the NUL, and the name of a variable is
    searched in the lines that follow. What is behind it there becomes part of the value, and
    the other lines are lost. *)
Lemma trailing_percent_cuts : loads (tx "A=100%" ++ [10] ++ tx "B=%TMP%" ++ [10] ++ tx "C=1" ++ [10]) =
  Some (map entry vars1 ++ [tx "A=100TMP"]).
Proof. by vm_compute. Qed.

(** At the end of the file it leaves the block. *)
Lemma last_percent_overruns : __crt0_load_environment_file 1 env_mem 7 (opens (tx "A=100%" ++ [10])) true prog1 envs1 = Fail UB.
Proof. by vm_compute. Qed.

(** The value is built in as many bytes as the file has, whatever the variables hold. *)
Lemma value_overruns : __crt0_load_environment_file 1 env_mem 7 (opens (tx "A=%DJGPP%" ++ [10])) true prog1 envs1 = Fail UB.
Proof. by vm_compute. Qed.

(** The byte in front of the block is read for an empty file. *)
Lemma empty_file_underruns : __crt0_load_environment_file 1 env_mem 7 (opens []) true prog1 envs1 = Fail UB.
Proof. by vm_compute. Qed.

(** Without memory the file stays open. *)
Lemma file_left_open : __crt0_load_environment_file 1 env_mem 7 (opens env_file) false prog1 envs1 = Done (envs1, true).
Proof. by vm_compute. Qed.

(** A line without a name: what happens depends on the stack. *)
Lemma nameless_uninit : loads (tx "=x" ++ [10]) = Some (map entry vars1 ++ [tx "=x"]) /\
  __crt0_load_environment_file 1 env_mem 43 (opens (tx "=x" ++ [10])) true prog1 envs1 = Fail UB.
Proof. split; by vm_compute. Qed.

(** Without memory for the array the name of the program stays NULL, and is then read. *)
Lemma environ_exhausted : crt1_arguments 1 None true true true env_mem 7 (opens env_file) true plenty files 7 globs 0 [] (psp_of line1) no_dos 3
  (env_block vars1 [1; 0] prog1 []) env_zero = Fail UB.
Proof. by vm_compute. Qed.
