(* ===== verification/PathFix.v ===== *)
(** * Making paths canonical

    src/src/libc/dos/io/putpath.c and src/src/libc/posix/sys/stat/fixpath.c: what every path
    goes through on its way to DOS, with the names under /dev, and the absolute form of a path.

    Paths are strings by value; the transfer buffer is the text that was stored there. What DOS
    answers (the current drive and directory, whether a directory exists) and the environment
    are parameters. The C locale has no characters of more than one byte: mblen is 0 or 1. *)

From stdpp Require Import base gmap list numbers.
From Stdlib Require Import ZArith Lia.
From S2P Require Import Prelude Ctype MemFuns Strings Paths CrtArgs.

Open Scope Z_scope.
Open Scope c_scope.

Definition FILENAME_MAX : nat := 260.
Definition env_delim : Z := 126.

(** The character at [i]; the NUL behind the end *)
Definition pget (l : list Z) (i : nat) : Z := nth i l 0.

Definition is_slash (c : Z) : bool := (c =? 47) || (c =? 92).
Definition is_term (c : Z) : bool := is_slash c || (c =? 0).

Definition is_letter (c : Z) : bool := ((97 <=? c) && (c <=? 122)) || ((65 <=? c) && (c <=? 90)).

Definition _is_dev_path (p : list Z) : bool :=
  is_slash (pget p 0) && bool_decide (take 3 (drop 1 p) = [100; 101; 118]) && is_slash (pget p 4).

(** ** Variables in paths *)

(** The name of a variable and what follows: two delimiters are one. *)
Fixpoint env_name (p : list Z) : list Z * list Z :=
  match p with
  | [] => ([], [])
  | c :: p' =>
      if is_slash c then ([], p)
      else if c =? env_delim then
        match p' with
        | d :: p'' => if d =? env_delim then let '(n, r) := env_name p'' in (env_delim :: n, r) else ([], p)
        | [] => ([], p)
        end
      else let '(n, r) := env_name p' in (c :: n, r)
  end.

(** The default, up to a single delimiter *)
Fixpoint env_default (p : list Z) : list Z * list Z :=
  match p with
  | [] => ([], [])
  | c :: p' =>
      if c =? env_delim then
        match p' with
        | d :: p'' => if d =? env_delim then let '(n, r) := env_default p'' in (env_delim :: n, r) else ([], p)
        | [] => ([], p)
        end
      else let '(n, r) := env_default p' in (c :: n, r)
  end.

(** ** _put_path2 *)

(** [for (; *path; path++)]: double slashes are one; [space] is what is left *)
Fixpoint copy_path (out : list Z) (space : Z) (path : list Z) : list Z :=
  match path with
  | [] => out
  | c :: path' =>
      if negb (c =? 47) || negb (pget path' 0 =? 47)
      then if space - 1 <? 2 then out ++ [c] else copy_path (out ++ [c]) (space - 1) path'
      else copy_path out space path'
  end.

Definition trim_slash (out : list Z) : list Z :=
  if (2 <=? length out)%nat && (pget out (length out - 1) =? 47) && negb (pget out (length out - 2) =? 58)
  then removelast out else out.

Section PutPath.
(** [beyond] is what lies behind the path in memory. *)
Context (getenv : list Z -> option (list Z)) (is_dir : list Z -> bool) (beyond : list Z).

(** What DOS is asked for: the first four characters, the four at 8 (the second long), and a
    NUL at 4 or at 6 *)
Definition dev_probe (path : list Z) : list Z :=
  let q := path ++ [0] ++ beyond in
  let tb := take 4 q ++ take 4 (drop 8 q) in
  c_string (take (if pget path 4 =? 47 then 4 else 6) tb).

(** The text that is stored at the offset, for [space] bytes. enough_stack_p is always true,
    and [fuel] bounds the nesting of variables. *)
Fixpoint _put_path2 (fuel : nat) (path : list Z) (space : Z) : outcome (list Z) :=
  match fuel with
  | O => Fail NoFuel
  | S fuel' =>
      let p := if negb (pget path 0 =? 0) && (pget path 1 =? 58) then drop 2 path else path in
      '(out, path) ←
        (if _is_dev_path p then
           let q := drop 5 p in
           if bool_decide (q = [110; 117; 108; 108]) then Done ([], [110; 117; 108])
           else if bool_decide (q = [116; 116; 121]) then Done ([], [99; 111; 110])
           else if bool_decide (q = [101; 110; 118]) then Done ([], path)
           else if is_letter (pget q 0) && is_term (pget q 1) then Done ([pget q 0; 58], drop 1 q)
           else if bool_decide (take 3 q = [101; 110; 118]) && is_slash (pget q 3) && negb (pget q 4 =? 0) then
             let '(var_name, p) := env_name (drop 4 q) in
             '(out, use_default) ←
               (match getenv var_name with
                | Some (c :: v) => out ← _put_path2 fuel' (c :: v) space; Done (out, false)
                | _ => Done ([], true)
                end);
             '(out, p) ←
               (if pget p 0 =? env_delim then
                  let '(dflt, p) := env_default (drop 1 p) in
                  out ← (if use_default : bool then _put_path2 fuel' dflt space else Done out);
                  Done (out, if pget p 0 =? env_delim then drop 1 p else p)
                else Done (out, p));
             let out := if is_slash (pget p 0) && (1 <=? length out)%nat && is_slash (pget out (length out - 1)) then removelast out else out in
             Done (out, p)
           else Done ([], if negb (is_dir (dev_probe path)) && negb (bool_decide (q = [])) then q else path)
         else Done ([], path));
      Done (trim_slash (copy_path out (space - Z.of_nat (length out)) path))
  end.

Definition _put_path (fuel : nat) (tb_size : Z) (path : list Z) : outcome (list Z) := _put_path2 fuel path tb_size.

End PutPath.

(** ** The current directory *)

(** The answer of DOS to the call for the current directory *)
Inductive dos_dir := Unsupported | Failed | Dir (name : list Z).

(** A text in [out] for [cap] bytes *)
Definition store (cap : nat) (out : list Z) : outcome (list Z) := if (length out <=? cap)%nat then Done out else Fail UB.

Section Canonical.
(** With and without long names; the long name of the directory on a drive; the current drive *)
Context (get_dir : bool -> Z -> dos_dir) (true_name : Z -> option (list Z)) (os_trueversion cur_drive : Z).

(** [out] with the directory behind it. Without terminator [cap] bytes may be full. *)
Definition __get_current_directory (use_lfn : bool) (cap : nat) (out : list Z) (drive_number : Z) : outcome (list Z) :=
  let '(use_lfn, r) := match get_dir use_lfn drive_number with Unsupported => (false, get_dir false drive_number) | r => (use_lfn, r) end in
  let relative := store cap (out ++ [46]) in
  let by_true_name :=
    match true_name drive_number with
    | Some t =>
        if ((pget t 0 =? drive_number + 65) || (pget t 0 =? drive_number + 97)) && (pget t 1 =? 58)
        then if (pget t 2 =? 92) && (pget t 3 =? 0) then Done out else _ ← store cap (out ++ drop 2 t ++ [0]); Done (out ++ drop 2 t)
        else relative
    | None => relative
    end in
  match r with
  | Unsupported => Fail NoFuel
  | Failed => relative
  | Dir name =>
      _ ← store cap (out ++ [47] ++ name ++ [0]);
      if negb (pget name 0 =? 0) then Done (out ++ [47] ++ name)
      else if negb (os_trueversion =? 0x532) || negb use_lfn then Done out
      else by_true_name
  end.

(** ** The components *)

(** [while (!is_slash( *--op));] *)
Fixpoint pop_rev (l : list Z) : outcome (list Z) :=
  match l with [] => Fail UB | c :: l' => if is_slash c then Done l' else pop_rev l' end.
Definition pop_component (out : list Z) : outcome (list Z) := l ← pop_rev (rev out); Done (rev l).

(** Copy up to the end of the component; None for a path that is too long *)
Fixpoint copy_component (fuel : nat) (path_max : nat) (in1 : list Z) (ip : nat) (out : list Z) : outcome (option (nat * list Z)) :=
  match fuel with
  | O => Fail NoFuel
  | S fuel' =>
      c ← rdb in1 ip;
      if is_term c then Done (Some (ip, out))
      else
        out ← store path_max (out ++ [c]);
        if (path_max <=? length out)%nat then Done None else copy_component fuel' path_max in1 (ip + 1) out
  end.

Definition dot_at (in1 : list Z) (ip : nat) : outcome bool :=
  c ← rdb in1 ip; if c =? 46 then d ← rdb in1 (ip + 1); Done (is_term d) else Done false.
Definition dots_at (in1 : list Z) (ip : nat) : outcome bool :=
  c ← rdb in1 ip;
  if c =? 46 then d ← rdb in1 (ip + 1); if d =? 46 then e ← rdb in1 (ip + 2); Done (is_term e) else Done false else Done false.

(** [while ( *ip)] *)
Fixpoint canon_loop (fuel : nat) (path_max : nat) (in1 : list Z) (ip : nat) (out : list Z) : outcome (option (list Z)) :=
  match fuel with
  | O => Fail NoFuel
  | S fuel' =>
      c ← rdb in1 ip;
      if c =? 0 then Done (Some out)
      else if is_slash c then canon_loop fuel' path_max in1 (ip + 1) out
      else
        dot ← dot_at in1 ip;
        if dot : bool then canon_loop fuel' path_max in1 (ip + 1) out
        else
          dots ← dots_at in1 ip;
          if dots : bool then
            out ← (if (pget out 2 =? 46) && (pget out (length out - 1) =? 46) then store path_max (out ++ [47; 46; 46])
                   else if (2 <? length out)%nat then pop_component out else Done out);
            canon_loop fuel' path_max in1 (ip + 2) out
          else if (path_max <=? length out)%nat then Done None
          else
            r ← copy_component (S (length in1)) path_max in1 ip (out ++ [47]);
            match r with None => Done None | Some (ip, out) => canon_loop fuel' path_max in1 ip out end
  end.

(** ** Case *)

Definition low_letter (c : Z) : Z := if (65 <=? c) && (c <=? 90) then c + 32 else c.
Definition fix_name (preserve_case : bool) (name : list Z) : list Z :=
  if negb preserve_case && negb (_is_DOS83 name =? 0) then map low_letter name else name.

(** The loop from [out + 3] on; [name] starts behind the last slash. *)
Fixpoint fix_case (preserve_case : bool) (name l : list Z) : list Z :=
  match l with
  | [] => fix_name preserve_case name
  | c :: l' =>
      let c := if c =? 92 then 47 else c in
      if c =? 47 then fix_name preserve_case name ++ [47] ++ fix_case preserve_case [] l' else fix_case preserve_case (name ++ [c]) l'
  end.

(** ** The whole *)

(** [in1] is what _put_path stored, up to FILENAME_MAX bytes of the transfer buffer; None
    is NULL with ENAMETOOLONG. *)
Definition __canonicalize_path (use_lfn preserve_case : bool) (in1 : list Z) (path_max : nat) : outcome (option (list Z)) :=
  let path_max := if (FILENAME_MAX <? path_max)%nat then FILENAME_MAX else path_max in
  c ← rdb in1 0;
  d ← (if is_letter c then rdb in1 1 else Done 0);
  let has_drive := is_letter c && (d =? 58) in
  let drive_number := if has_drive then (if 97 <=? c then c - 97 else c - 65) else cur_drive in
  let ip := if has_drive then 2%nat else O in
  out ← store path_max (if has_drive then [low_letter c; 58] else [drive_number + (if drive_number <? 26 then 97 else 65); 58]);
  c ← rdb in1 ip;
  out ← (if negb (is_slash c) then __get_current_directory use_lfn path_max out drive_number else Done out);
  r ← canon_loop (S (length in1)) path_max in1 ip out;
  match r with
  | None => Done None
  | Some out =>
      out ← (if (length out =? 2)%nat then store path_max (out ++ [47]) else Done out);
      if (path_max <=? length out)%nat then Done None else Done (Some (take 3 out ++ fix_case preserve_case [] (drop 3 out)))
  end.

(** The transfer buffer: the text and a NUL, and bytes of before *)
Definition tb_bytes (text stale : list Z) : list Z := take FILENAME_MAX (text ++ [0] ++ stale).

(** [_fixpath]: the empty path stays empty *)
Definition _fixpath (getenv : list Z -> option (list Z)) (is_dir : list Z -> bool) (beyond stale : list Z) (tb_size : Z)
    (use_lfn preserve_case : bool) (fuel : nat) (path : list Z) : outcome (option (list Z)) :=
  if bool_decide (path = []) then Done (Some [])
  else text ← _put_path getenv is_dir beyond fuel tb_size path; __canonicalize_path use_lfn preserve_case (tb_bytes text stale) FILENAME_MAX.

End Canonical.
