(* ===== verification/PathFixProps.v ===== *)
(** * Making paths canonical: theorems

    The absolute form of a path against a reference on lists of components, and what the names
    under /dev stand for. *)

From stdpp Require Import base gmap list numbers.
From Stdlib Require Import ZArith Lia.
From S2P Require Import Prelude Ctype MemFuns Strings Paths CrtArgs CrtArgsProps CrtEnv CrtEnvProps PathFix.

Open Scope Z_scope.
Open Scope c_scope.

(** ** The reference *)

(** The components of a path *)
Fixpoint components (cur l : list Z) : list (list Z) :=
  let flush := if bool_decide (cur = []) then [] else [cur] in
  match l with [] => flush | c :: l' => if is_slash c then flush ++ components [] l' else components (cur ++ [c]) l' end.

(** A component is added: a dot is nothing, two dots take one away. *)
Definition step_dir {A} (mk : list Z -> A) (st : list A) (c : list Z) : list A :=
  if bool_decide (c = [46]) then st else if bool_decide (c = [46; 46]) then removelast st else st ++ [mk c].

Definition walk (st cs : list (list Z)) : list (list Z) := foldl (step_dir id) st cs.

(** The text of a drive and directories *)
Definition path_text (drive : list Z) (cs : list (list Z)) : list Z :=
  drive ++ match cs with [] => [47] | _ => concat ((fun c => 47 :: c) <$> cs) end.

(** ** The components *)

(** Components with the slashes in front of them, as they lie in the buffer *)
Definition with_seps (st : list (Z * list Z)) : list Z := concat ((fun x => x.1 :: x.2) <$> st).

Definition comp_ok (x : Z * list Z) : Prop := is_slash x.1 = true /\ x.2 <> [] /\ Forall (fun c => is_slash c = false) x.2.

Lemma with_seps_snoc st x : with_seps (st ++ [x]) = with_seps st ++ x.1 :: x.2.
Proof. unfold with_seps. by rewrite fmap_app, concat_app; cbn; rewrite app_nil_r. Qed.

Lemma pop_rev_spec c s l : Forall (fun c => is_slash c = false) c -> is_slash s = true -> pop_rev (c ++ s :: l) = Done l.
Proof. induction 1 as [|a c Ha _ IH]; intros Hs; cbn; [by rewrite Hs|]. rewrite Ha. by apply IH. Qed.

Lemma pop_component_spec dr st x : comp_ok x -> pop_component (dr ++ with_seps (st ++ [x])) = Done (dr ++ with_seps st).
Proof.
  intros (Hs & _ & Hc). unfold pop_component. rewrite with_seps_snoc, app_assoc, rev_app_distr. cbn [rev]. rewrite <- (app_assoc (rev x.2)). cbn [app].
  rewrite pop_rev_spec; [by rewrite bind_Done, rev_involutive|by apply Forall_rev|done].
Qed.

Lemma components_app cur c l : Forall (fun c => is_slash c = false) c -> components cur (c ++ l) = components (cur ++ c) l.
Proof.
  intros H. revert cur. induction H as [|a c Ha _ IH]; intros cur; cbn [app]; [by rewrite app_nil_r|]. cbn [components]. rewrite Ha, IH, <- app_assoc. done.
Qed.

(** A component in front of a slash or the end *)
Lemma components_first c l : c <> [] -> Forall (fun c => is_slash c = false) c -> (l = [] \/ exists s l', l = s :: l' /\ is_slash s = true) ->
  components [] (c ++ l) = c :: components [] l.
Proof.
  intros Hne Hc Hl. rewrite components_app by done. cbn [app]. destruct Hl as [->|(s & l' & -> & Hs)]; cbn [components]; rewrite bool_decide_eq_false_2 by done; [done|].
  by rewrite Hs.
Qed.

Lemma is_term_at in1 ip l z : at_ in1 ip l (0 :: z) -> rdb in1 ip = Done (hd 0 l).
Proof. intros H. apply rdb_Some. destruct l; [by eapply at_end|by eapply at_lookup]. Qed.

(** A component, and what follows it *)
Lemma split_component l : let '(c, r) := span (fun c => negb (is_slash c)) l in
  l = c ++ r /\ Forall (fun c => is_slash c = false) c /\ (r = [] \/ exists s l', r = s :: l' /\ is_slash s = true).
Proof.
  pose proof (span_app (fun c => negb (is_slash c)) l) as H. destruct (span _ l) as [c r]. destruct H as (-> & Hc & Hr). split; [done|]. split.
  - revert Hc. apply Forall_impl. intros x. by destruct (is_slash x).
  - destruct r as [|s r]; [by left|]. right. exists s, r. by apply negb_false_iff in Hr.
Qed.

Lemma copy_component_spec path_max in1 c r z : forall fuel ip out, at_ in1 ip (c ++ r) (0 :: z) -> 0 ∉ c -> Forall (fun c => is_slash c = false) c ->
  (r = [] \/ exists s l', r = s :: l' /\ is_slash s = true) -> (length out + length c < path_max)%nat -> (length c < fuel)%nat ->
  copy_component fuel path_max in1 ip out = Done (Some (ip + length c, out ++ c)%nat).
Proof.
  induction c as [|a c IH]; intros [|fuel] ip out H Hz Hc Hr Hl Hf; cbn [length app] in *; [lia| |lia|]; cbn [copy_component]; rewrite (is_term_at _ _ _ _ H), bind_Done.
  - rewrite Nat.add_0_r, app_nil_r. by destruct Hr as [->|(s & l' & -> & Hs)]; cbn [hd]; unfold is_term; [|rewrite Hs].
  - apply not_elem_of_cons in Hz as [Ha Hz]. apply Forall_cons_1 in Hc as [Hs Hc]. cbn [hd]. unfold is_term. rewrite Hs, (proj2 (Z.eqb_neq a 0)) by congruence. cbn [orb].
    unfold store. rewrite length_app. cbn [length]. rewrite (proj2 (Nat.leb_le _ _)), bind_Done, length_app by lia. cbn [length]. rewrite (proj2 (Nat.leb_gt _ _)) by lia.
    apply at_next in H. rewrite IH; [|done|done|done|done|rewrite length_app; cbn; lia|lia]. do 3 f_equal; [lia|]. by rewrite <- app_assoc.
Qed.

Definition ends_here (r : list Z) : Prop := r = [] \/ exists s l', r = s :: l' /\ is_slash s = true.

Lemma ends_term r : ends_here r -> is_term (hd 0 r) = true.
Proof. intros [->|(s & l' & -> & Hs)]; [done|]. cbn. unfold is_term. by rewrite Hs. Qed.

Lemma inner_term a : is_slash a = false -> 0 <> a -> is_term a = false.
Proof. intros Hs Hz. unfold is_term. rewrite Hs. apply Z.eqb_neq. congruence. Qed.

Lemma dot_at_spec in1 ip c r z : at_ in1 ip (c ++ r) (0 :: z) -> c <> [] -> 0 ∉ c -> Forall (fun c => is_slash c = false) c -> ends_here r ->
  dot_at in1 ip = Done (bool_decide (c = [46])).
Proof.
  intros H Hne Hz Hc Hr. unfold dot_at. rewrite (is_term_at _ _ _ _ H), bind_Done. destruct c as [|a c]; [done|]. cbn [app hd] in *.
  apply not_elem_of_cons in Hz as [_ Hz]. apply Forall_cons_1 in Hc as [_ Hc]. apply at_next in H. destruct (Z.eqb_spec a 46) as [->|Ha].
  - rewrite (is_term_at _ _ _ _ H), bind_Done. f_equal. destruct c as [|b c]; cbn [app hd].
    + rewrite ends_term by done. by rewrite bool_decide_eq_true_2.
    + apply not_elem_of_cons in Hz as [Hb _]. apply Forall_cons_1 in Hc as [Hs _]. rewrite inner_term by done. by rewrite bool_decide_eq_false_2.
  - by rewrite bool_decide_eq_false_2 by congruence.
Qed.

Lemma dots_at_spec in1 ip c r z : at_ in1 ip (c ++ r) (0 :: z) -> c <> [] -> 0 ∉ c -> Forall (fun c => is_slash c = false) c -> ends_here r ->
  c <> [46] -> dots_at in1 ip = Done (bool_decide (c = [46; 46])).
Proof.
  intros H Hne Hz Hc Hr Hn. unfold dots_at. rewrite (is_term_at _ _ _ _ H), bind_Done. destruct c as [|a c]; [done|]. cbn [app hd] in *.
  apply not_elem_of_cons in Hz as [_ Hz]. apply Forall_cons_1 in Hc as [_ Hc]. pose proof (at_next _ _ _ _ _ H) as H1.
  destruct (Z.eqb_spec a 46) as [->|Ha]; [|by rewrite bool_decide_eq_false_2 by congruence].
  destruct c as [|b c]; [done|]. rewrite (is_term_at _ _ _ _ H1), bind_Done. cbn [app hd] in *.
  apply not_elem_of_cons in Hz as [_ Hz]. apply Forall_cons_1 in Hc as [_ Hc]. apply at_next in H1. rewrite <- Nat.add_assoc in H1.
  destruct (Z.eqb_spec b 46) as [->|Hb]; [|by rewrite bool_decide_eq_false_2 by congruence].
  change (1 + 1)%nat with 2%nat in H1. rewrite (is_term_at _ _ _ _ H1), bind_Done. f_equal. destruct c as [|e c]; cbn [app hd].
  - rewrite ends_term by done. by rewrite bool_decide_eq_true_2.
  - apply not_elem_of_cons in Hz as [He _]. apply Forall_cons_1 in Hc as [Hs _]. rewrite inner_term by done. by rewrite bool_decide_eq_false_2.
Qed.

Definition walk_seps (st : list (Z * list Z)) (cs : list (list Z)) : list (Z * list Z) := foldl (step_dir (pair 47)) st cs.

(** The room that is needed in front of [l] *)
Definition slack (l : list Z) : nat := if is_term (hd 0 l) then 0 else 1.

Lemma seps_third dr st : length dr = 2%nat -> Forall comp_ok st -> (pget (dr ++ with_seps st) 2 =? 46) = false.
Proof.
  intros Hd Hst. unfold pget. rewrite app_nth2, Hd by lia. destruct Hst as [|[s c] st (Hs & _) _]; [done|]. cbn.
  apply Z.eqb_neq. intros ->. done.
Qed.

Lemma removelast_ok st : Forall comp_ok st -> Forall comp_ok (removelast st).
Proof.
  intros H. destruct st as [|x st] using rev_ind; [done|]. rewrite removelast_last. by apply Forall_app in H as [H _].
Qed.

Lemma with_seps_removelast st : (length (with_seps (removelast st)) <= length (with_seps st))%nat.
Proof. destruct st as [|x st] using rev_ind; [done|]. rewrite removelast_last, with_seps_snoc, length_app. lia. Qed.

(** Two dots *)
Lemma dots_step dr st path_max : length dr = 2%nat -> Forall comp_ok st ->
  (if (pget (dr ++ with_seps st) 2 =? 46) && (pget (dr ++ with_seps st) (length (dr ++ with_seps st) - 1) =? 46)
   then store path_max ((dr ++ with_seps st) ++ [47; 46; 46])
   else if (2 <? length (dr ++ with_seps st))%nat then pop_component (dr ++ with_seps st) else Done (dr ++ with_seps st)) =
  Done (dr ++ with_seps (removelast st)).
Proof.
  intros Hd Hst. rewrite seps_third by done. cbn [andb]. rewrite length_app, Hd. destruct st as [|x st _] using rev_ind; [done|].
  rewrite removelast_last. apply Forall_app in Hst as [_ Hx]. apply Forall_cons_1 in Hx as [Hx _].
  rewrite (proj2 (Nat.ltb_lt _ _)) by (rewrite with_seps_snoc, length_app; cbn; lia). by apply pop_component_spec.
Qed.

Lemma canon_loop_spec dr path_max in1 z : length dr = 2%nat -> forall fuel ip l st, at_ in1 ip l (0 :: z) -> 0 ∉ l -> Forall comp_ok st ->
  (length dr + length (with_seps st) + length l + slack l < path_max)%nat -> (length l < fuel)%nat ->
  canon_loop fuel path_max in1 ip (dr ++ with_seps st) = Done (Some (dr ++ with_seps (walk_seps st (components [] l)))) /\
  Forall comp_ok (walk_seps st (components [] l)).
Proof.
  intros Hd. induction fuel as [|fuel IH]; intros ip l st H Hz Hst Hl Hf; [lia|]. cbn [canon_loop]. rewrite (is_term_at _ _ _ _ H), bind_Done.
  destruct l as [|a l0] eqn:El; [done|]. pose proof Hz as Hz0. apply not_elem_of_cons in Hz0 as [Ha Hz0]. cbn [hd].
  rewrite (proj2 (Z.eqb_neq a 0)) by congruence. destruct (is_slash a) eqn:Es.
  { cbn [components]. rewrite Es, bool_decide_eq_true_2 by done. cbn [app]. apply IH; [by eapply at_next|done|done| |cbn in Hf; lia].
    unfold slack in *. cbn [hd length] in *. unfold is_term in Hl at 1. rewrite Es in Hl. cbn in Hl. destruct (is_term (hd 0 l0)); lia. }
  rewrite <- El in *. pose proof (split_component l) as Hsp. destruct (span _ l) as [c r] eqn:Esp. destruct Hsp as (Ecr & Hc & Hr).
  assert (Hne : c <> []) by (intros ->; rewrite El in Esp; cbn in Esp; rewrite Es in Esp; cbn in Esp; by destruct (span _ l0)).
  assert (Hsl : slack l = 1%nat) by (unfold slack; rewrite El; cbn [hd]; by rewrite inner_term). rewrite Hsl in Hl. clear Hsl.
  assert (Hsr : slack r = 0%nat) by (unfold slack; by rewrite ends_term).
  clear El Esp. subst l. apply not_elem_of_app in Hz as [Hzc Hzr]. rewrite length_app in Hl, Hf.
  assert (Hcl : (0 < length c)%nat) by (destruct c; [done|cbn; lia]).
  rewrite components_first by done. cbn [walk_seps foldl]. fold (walk_seps (step_dir (pair 47) st c) (components [] r)).
  rewrite (dot_at_spec _ _ _ _ _ H), bind_Done by done. pose proof (at_skip _ _ _ _ _ H) as H1. unfold step_dir.
  destruct (bool_decide_reflect (c = [46])) as [->|Hn1].
  { apply IH; [done|done|done|rewrite Hsr; lia|cbn in Hf; lia]. }
  rewrite (dots_at_spec _ _ _ _ _ H), bind_Done by done. destruct (bool_decide_reflect (c = [46; 46])) as [->|Hn2].
  { rewrite dots_step, bind_Done by done. pose proof (with_seps_removelast st).
    apply IH; [done|done|by apply removelast_ok|rewrite Hsr; cbn in Hl; lia|cbn in Hf; lia]. }
  rewrite (proj2 (Nat.leb_gt _ _)) by (rewrite length_app; lia). pose proof (at_length _ _ _ _ H ltac:(done)) as HL. rewrite length_app in HL.
  rewrite (copy_component_spec path_max in1 c r z), bind_Done; [|done|done|done|done|rewrite !length_app; cbn; lia|lia].
  replace (((dr ++ with_seps st) ++ [47]) ++ c) with (dr ++ with_seps (st ++ [(47, c)])) by (rewrite with_seps_snoc, <- !app_assoc; done).
  apply IH; [done|done| |rewrite with_seps_snoc, length_app, Hsr; cbn; lia|lia]. apply Forall_app. split; [done|]. by apply Forall_cons_2.
Qed.

(** ** Lengths, and the first slash *)

Definition comps_size (cs : list (list Z)) : nat := list_sum ((fun c => S (length c)) <$> cs).

Lemma walk_seps_size st cs : (length (with_seps (walk_seps st cs)) <= length (with_seps st) + comps_size cs)%nat.
Proof.
  revert st. induction cs as [|c cs IH]; intros st; [apply Nat.le_add_r|]. cbn [walk_seps foldl]. fold (walk_seps (step_dir (pair 47) st c) cs).
  etransitivity; [apply IH|]. change (comps_size (c :: cs)) with (S (length c) + comps_size cs)%nat. unfold step_dir.
  destruct (bool_decide (c = [46])); [lia|]. destruct (bool_decide (c = [46; 46])); [pose proof (with_seps_removelast st); lia|].
  rewrite with_seps_snoc, length_app. cbn. lia.
Qed.

Lemma components_size cur l : (comps_size (components cur l) <= length cur + length l + 1)%nat.
Proof.
  revert cur. induction l as [|c l IH]; intros cur; cbn [components].
  - destruct (bool_decide (cur = [])); unfold comps_size; cbn; lia.
  - destruct (is_slash c).
    + unfold comps_size in *. rewrite fmap_app, list_sum_app. specialize (IH []). cbn [length] in IH |- *. destruct (bool_decide (cur = [])); cbn; lia.
    + etransitivity; [apply IH|]. rewrite length_app. cbn. lia.
Qed.

(** The drive is followed by a forward slash. *)
Definition first_sep (st : list (Z * list Z)) : Prop := match st with x :: _ => x.1 = 47 | [] => True end.

Lemma walk_first st cs : first_sep st -> first_sep (walk_seps st cs).
Proof.
  revert st. induction cs as [|c cs IH]; intros st H; [done|]. apply IH. unfold step_dir. destruct (bool_decide (c = [46])); [done|].
  destruct (bool_decide (c = [46; 46])); [by destruct st as [|x [|y st]]|]. by destruct st.
Qed.

Lemma step_forget st c : (step_dir (pair 47) st c).*2 = step_dir id (st.*2) c.
Proof.
  unfold step_dir. destruct (bool_decide (c = [46])); [done|]. destruct (bool_decide (c = [46; 46])); [|by rewrite fmap_app].
  induction st as [|x [|y st] IH]; [done|done|]. cbn in *. by rewrite IH.
Qed.

Lemma walk_forget st cs : (walk_seps st cs).*2 = walk (st.*2) cs.
Proof.
  revert st. induction cs as [|c cs IH]; intros st; [done|]. etransitivity; [apply (IH (step_dir (pair 47) st c))|]. by rewrite step_forget.
Qed.

(** ** Case *)

Lemma fix_case_name pc name c l : Forall (fun c => is_slash c = false) c -> fix_case pc name (c ++ l) = fix_case pc (name ++ c) l.
Proof.
  intros H. revert name. induction H as [|a c Ha _ IH]; intros name; [by rewrite app_nil_r|]. cbn [app fix_case]. unfold is_slash in Ha.
  apply orb_false_iff in Ha as [H1 H2]. rewrite H2, H1, IH, <- app_assoc. done.
Qed.

Lemma fix_case_seps pc name st : Forall comp_ok st ->
  fix_case pc name (with_seps st) = fix_name pc name ++ concat ((fun c => 47 :: c) <$> (fix_name pc <$> st.*2)).
Proof.
  intros H. revert name. induction H as [|[s c] st (Hs & _ & Hc) _ IH]; intros name; [cbn; by rewrite app_nil_r|].
  change (with_seps ((s, c) :: st)) with (s :: c ++ with_seps st). cbn [fix_case].
  replace (if (if s =? 92 then 47 else s) =? 47 then _ else _) with (fix_name pc name ++ [47] ++ fix_case pc [] (c ++ with_seps st)).
  2: { cbn in Hs. unfold is_slash in Hs. apply orb_true_iff in Hs as [->%Z.eqb_eq| ->%Z.eqb_eq]; done. }
  rewrite fix_case_name, IH by done. by rewrite !fmap_cons.
Qed.

Lemma fix_name_nil pc : fix_name pc [] = [].
Proof. by destruct pc. Qed.

Lemma fix_case_text pc dr st : length dr = 2%nat -> Forall comp_ok st -> first_sep st ->
  let out := if bool_decide (st = []) then dr ++ [47] else dr ++ with_seps st in
  take 3 out ++ fix_case pc [] (drop 3 out) = path_text dr (fix_name pc <$> st.*2).
Proof.
  intros Hd H Hf. destruct dr as [|a [|b [|]]]; [done|done| |done]. destruct H as [|[s c] st (_ & _ & Hc) Hst].
  - rewrite bool_decide_eq_true_2 by done. cbn. by rewrite fix_name_nil.
  - rewrite bool_decide_eq_false_2 by done. cbn in Hf. subst s. change (with_seps ((47, c) :: st)) with (47 :: c ++ with_seps st).
    cbn [app take drop]. rewrite take_0, drop_0, fix_case_name, fix_case_seps by done. cbn [app]. by rewrite !fmap_cons.
Qed.

(** ** The whole *)

Section Canonical.
Context (get_dir : bool -> Z -> dos_dir) (true_name : Z -> option (list Z)) (os_trueversion cur_drive : Z).

Abbreviation canonicalize := (__canonicalize_path get_dir true_name os_trueversion cur_drive).

(** The drive of a path, and what follows it *)
Definition drive_given (t : list Z) : bool := is_letter (pget t 0) && (pget t 1 =? 58).
Definition drive_of (t : list Z) : Z := if drive_given t then (if 97 <=? pget t 0 then pget t 0 - 97 else pget t 0 - 65) else cur_drive.
Definition drive_text (t : list Z) : list Z :=
  if drive_given t then [low_letter (pget t 0); 58] else [cur_drive + (if cur_drive <? 26 then 97 else 65); 58].
Definition behind_drive (t : list Z) : list Z := if drive_given t then drop 2 t else t.

(** What DOS says of the current directory: components, with slashes between them *)
Definition cwd_is (use_lfn : bool) (drive : Z) (st : list (Z * list Z)) : Prop :=
  match get_dir use_lfn drive with
  | Dir [] => st = [] /\ (os_trueversion <> 0x532 \/ use_lfn = false)
  | Dir (c :: name) => c <> 0 /\ 47 :: c :: name = with_seps st /\ Forall comp_ok st
  | _ => False
  end.

(** The directories a path starts from *)
Definition starts_from (use_lfn : bool) (t : list Z) (st : list (Z * list Z)) : Prop :=
  if is_slash (pget (behind_drive t) 0) then st = [] else cwd_is use_lfn (drive_of t) st.

Lemma starts_ok use_lfn t st : starts_from use_lfn t st -> Forall comp_ok st /\ first_sep st.
Proof.
  unfold starts_from, cwd_is. destruct (is_slash _); [by intros ->|]. destruct (get_dir use_lfn (drive_of t)) as [| |[|c name]]; [done|done|by intros [-> _]|].
  intros (_ & E & H). split; [done|]. destruct st as [|[s x] st]; [done|]. cbn in E. by injection E as <- _.
Qed.

Lemma current_dir_spec use_lfn cap dr drive st : cwd_is use_lfn drive st -> (length dr + length (with_seps st) + 2 <= cap)%nat ->
  __get_current_directory get_dir true_name os_trueversion use_lfn cap dr drive = Done (dr ++ with_seps st).
Proof.
  unfold cwd_is, __get_current_directory. destruct (get_dir use_lfn drive) as [| |[|c name]]; [done|done| |]; cbn zeta; cbn iota.
  - intros [-> Hv] Hl. change (with_seps []) with (@nil Z) in *. cbn [length] in Hl.
    assert (Hs : store cap (dr ++ [47] ++ [] ++ [0]) = Done (dr ++ [47] ++ [] ++ [0])).
    { unfold store. rewrite (proj2 (Nat.leb_le _ _)); [done|]. rewrite !length_app. cbn [length]. lia. }
    rewrite Hs, bind_Done.
    rewrite !app_nil_r. change (negb (pget [] 0 =? 0)) with false. cbn iota. destruct Hv as [Hv| ->]; [|cbn [negb]; by rewrite orb_true_r]. by rewrite (proj2 (Z.eqb_neq _ _) Hv).
  - intros (Hc & E & _) Hl. rewrite <- E in *. cbn [length] in Hl.
    assert (Hs : store cap (dr ++ [47] ++ (c :: name) ++ [0]) = Done (dr ++ [47] ++ (c :: name) ++ [0])).
    { unfold store. rewrite (proj2 (Nat.leb_le _ _)); [done|]. rewrite !length_app. cbn [length]. lia. }
    rewrite Hs, bind_Done. change (pget (c :: name) 0) with c. rewrite (proj2 (Z.eqb_neq _ _) Hc). done.
Qed.

(** The text of the transfer buffer *)
Lemma tb_at text stale : (length text < FILENAME_MAX)%nat -> exists z, at_ (tb_bytes text stale) 0 text (0 :: z).
Proof.
  intros H. unfold at_, tb_bytes. rewrite drop_0, take_app, take_ge by lia. destruct (FILENAME_MAX - length text)%nat as [|k] eqn:E; [lia|].
  cbn [app take]. by eexists.
Qed.

Lemma low_letter_drive c : is_letter c = true -> 97 <= low_letter c <= 122.
Proof. unfold is_letter, low_letter. intros H. destruct ((65 <=? c) && (c <=? 90)) eqn:E; bool_to_prop; lia. Qed.

(** The drive is read, and the index of what follows *)
Lemma drive_spec_text in1 t z : at_ in1 0 t (0 :: z) ->
  (c ← rdb in1 0; d ← (if is_letter c then rdb in1 1 else Done 0); Done (is_letter c && (d =? 58))) = Done (drive_given t) /\
  rdb in1 0 = Done (pget t 0) /\ at_ in1 (if drive_given t then 2 else 0) (behind_drive t) (0 :: z).
Proof.
  intros H. pose proof (is_term_at _ _ _ _ H) as E0. assert (Ep : pget t 0 = hd 0 t) by (by destruct t). rewrite E0, bind_Done, <- Ep. split_and!; [|done|].
  - unfold drive_given. destruct (is_letter (pget t 0)) eqn:El; [|done]. destruct t as [|a t]; [done|]. apply at_next in H.
    change (0 + 1)%nat with 1%nat in H. rewrite (is_term_at _ _ _ _ H), bind_Done. by destruct t.
  - unfold behind_drive. destruct (drive_given t) eqn:Eh; [|done]. unfold drive_given, pget in Eh. destruct t as [|a [|b t]]; [done|cbn in Eh; by rewrite andb_false_r in Eh|].
    cbn [drop]. by apply at_next, at_next in H.
Qed.

Lemma canonicalize_spec use_lfn pc t stale path_max st : (length t < FILENAME_MAX)%nat -> 0 ∉ t -> starts_from use_lfn t st ->
  (path_max <= FILENAME_MAX)%nat -> (length (with_seps st) + length t + 4 < path_max)%nat ->
  canonicalize use_lfn pc (tb_bytes t stale) path_max =
  Done (Some (path_text (drive_text t) (fix_name pc <$> walk (st.*2) (components [] (behind_drive t))))).
Proof.
  intros Ht Hz Hst Hm Hl. destruct (tb_at t stale Ht) as [z H]. set (in1 := tb_bytes t stale) in *.
  destruct (drive_spec_text in1 t z H) as (E1 & E2 & H2). destruct (starts_ok _ _ _ Hst) as [Hok Hf].
  unfold __canonicalize_path. rewrite (proj2 (Nat.ltb_ge _ _)) by lia. rewrite E2, bind_Done in E1. rewrite E2, bind_Done.
  destruct (if is_letter (pget t 0) then rdb in1 1 else Done 0) as [d|] eqn:Ed; [|done]. rewrite bind_Done in E1. rewrite bind_Done. injection E1 as E1. rewrite E1.
  set (dr := drive_text t). assert (Hd : length dr = 2%nat) by (subst dr; unfold drive_text; by destruct (drive_given t)).
  assert (Hbl : (length (behind_drive t) <= length t)%nat) by (unfold behind_drive; destruct (drive_given t); rewrite ?length_drop; lia).
  replace (store path_max _) with (Done dr).
  2: { unfold store. subst dr. unfold drive_text. destruct (drive_given t); by rewrite (proj2 (Nat.leb_le _ _)) by (cbn; lia). }
  rewrite bind_Done, (is_term_at _ _ _ _ H2), bind_Done. fold (drive_of t).
  assert (Ecwd : (if negb (is_slash (hd 0 (behind_drive t))) then __get_current_directory get_dir true_name os_trueversion use_lfn path_max dr (drive_of t) else Done dr)
    = Done (dr ++ with_seps st)).
  { unfold starts_from in Hst. replace (hd 0 (behind_drive t)) with (pget (behind_drive t) 0) by (by destruct (behind_drive t)).
    destruct (is_slash (pget (behind_drive t) 0)); cbn [negb]; [subst st; by rewrite app_nil_r|]. apply current_dir_spec; [done|lia]. }
  rewrite Ecwd, bind_Done. pose proof (at_length _ _ _ _ H2 ltac:(done)) as HL.
  assert (Hzb : 0 ∉ behind_drive t) by (unfold behind_drive; destruct (drive_given t); [|done]; rewrite <- (take_drop 2 t) in Hz; by apply not_elem_of_app in Hz as [_ Hz]).
  destruct (canon_loop_spec dr path_max in1 z Hd (S (length in1)) (if drive_given t then 2 else 0)%nat (behind_drive t) st H2 Hzb Hok) as [E3 Hw];
    [unfold slack; destruct (is_term _); lia|lia|].
  rewrite E3, bind_Done. set (st' := walk_seps st _) in *. assert (Hsz : (length (with_seps st') <= length (with_seps st) + length t + 1)%nat).
  { pose proof (walk_seps_size st (components [] (behind_drive t))). pose proof (components_size [] (behind_drive t)). cbn in *. subst st'. lia. }
  pose proof (fix_case_text pc dr st' Hd Hw (walk_first _ _ Hf)) as Etext. cbv zeta in Etext.
  rewrite <- walk_forget. change (walk_seps st (components [] (behind_drive t))) with st'. rewrite <- Etext. clear Etext. clearbody st'.
  assert (Eout : (if (length (dr ++ with_seps st') =? 2)%nat then store path_max ((dr ++ with_seps st') ++ [47]) else Done (dr ++ with_seps st')) =
    Done (if bool_decide (st' = []) then dr ++ [47] else dr ++ with_seps st')).
  { rewrite length_app, Hd. destruct st' as [|x st'']; [|done]. cbn [length with_seps fmap list_fmap concat Nat.add Nat.eqb]. rewrite app_nil_r. unfold store.
    rewrite length_app, Hd, (proj2 (Nat.leb_le _ _)) by (cbn; lia). done. }
  rewrite Eout, bind_Done. rewrite (proj2 (Nat.leb_gt _ _)); [done|]. destruct (bool_decide (st' = [])); rewrite length_app; cbn [length]; lia.
Qed.

End Canonical.

(** ** What _put_path makes of an ordinary path *)

(** Double slashes as one *)
Fixpoint squeeze (l : list Z) : list Z :=
  match l with [] => [] | c :: l' => if (c =? 47) && (pget l' 0 =? 47) then squeeze l' else c :: squeeze l' end.

Lemma copy_path_spec l : forall out space, Z.of_nat (length l) + 2 <= space -> copy_path out space l = out ++ squeeze l.
Proof.
  induction l as [|c l IH]; intros out space H; [by rewrite app_nil_r|]. cbn [copy_path squeeze length] in *. rewrite <- negb_andb.
  destruct ((c =? 47) && (pget l 0 =? 47)); cbn [negb]; [apply IH; lia|]. rewrite (proj2 (Z.ltb_ge _ _)) by lia. rewrite IH by lia. by rewrite <- app_assoc.
Qed.

Lemma squeeze_first l : pget (squeeze l) 0 = pget l 0.
Proof.
  induction l as [|c l IH]; [done|]. cbn [squeeze]. destruct ((c =? 47) && (pget l 0 =? 47)) eqn:E; [|done].
  apply andb_true_iff in E as [->%Z.eqb_eq E2%Z.eqb_eq]. rewrite IH. by rewrite E2.
Qed.

Lemma squeeze_length l : (length (squeeze l) <= length l)%nat.
Proof. induction l as [|c l IH]; [done|]. cbn [squeeze]. destruct (_ && _); cbn [length]; lia. Qed.

Lemma squeeze_elem x l : x ∈ squeeze l -> x ∈ l.
Proof.
  induction l as [|c l IH]; [done|]. cbn [squeeze]. destruct (_ && _); intros H; [right; by apply IH|]. apply elem_of_cons in H as [->|H]; [by left|right; by apply IH].
Qed.

Lemma components_squeeze l : forall cur, components cur (squeeze l) = components cur l.
Proof.
  induction l as [|c l IH]; intros cur; [done|]. cbn [squeeze]. destruct ((c =? 47) && (pget l 0 =? 47)) eqn:E.
  - apply andb_true_iff in E as [->%Z.eqb_eq E2%Z.eqb_eq]. rewrite IH. destruct l as [|d l]; [done|]. cbn in E2. subst d. done.
  - cbn [components]. by rewrite !IH.
Qed.

Lemma components_slash l : forall cur, components cur (l ++ [47]) = components cur l.
Proof. induction l as [|c l IH]; intros cur; cbn [app components]; [by rewrite app_nil_r|]. destruct (is_slash c); by rewrite IH. Qed.

(** Two texts that name the same file *)
Record same_path (t u : list Z) : Prop := {
  sp_drive : drive_given u = drive_given t;
  sp_letter : pget u 0 = pget t 0;
  sp_root : is_slash (pget (behind_drive u) 0) = is_slash (pget (behind_drive t) 0);
  sp_comps : components [] (behind_drive u) = components [] (behind_drive t) }.

Lemma drive_given_two t : drive_given t = true -> exists c r, t = c :: 58 :: r /\ is_letter c = true.
Proof.
  unfold drive_given. intros [H1 H2%Z.eqb_eq]%andb_true_iff. destruct t as [|c [|d r]]; [done|done|]. cbn in *. subst d. by exists c, r.
Qed.

Lemma letter_no_slash c : is_letter c = true -> (c =? 47) = false.
Proof. intros H. apply Z.eqb_neq. intros ->. done. Qed.

Lemma squeeze_second c l : is_letter c = true -> pget (squeeze (c :: l)) 1 = pget l 0.
Proof. intros H. cbn [squeeze]. rewrite letter_no_slash by done. apply (squeeze_first l). Qed.

Lemma squeeze_drive c r : is_letter c = true -> squeeze (c :: 58 :: r) = c :: 58 :: squeeze r.
Proof. intros H. cbn [squeeze]. by rewrite letter_no_slash. Qed.

Lemma squeeze_same t : same_path t (squeeze t).
Proof.
  assert (Hh : drive_given (squeeze t) = drive_given t).
  { unfold drive_given. rewrite squeeze_first. destruct (is_letter (pget t 0)) eqn:E; [|done]. destruct t as [|c t]; [done|]. by rewrite squeeze_second. }
  split; [done|apply squeeze_first| |]; unfold behind_drive; rewrite Hh; destruct (drive_given t) eqn:E; try (by rewrite ?squeeze_first, ?components_squeeze).
  - apply drive_given_two in E as (c & r & -> & Hc). rewrite squeeze_drive by done. cbn [drop]. by rewrite !drop_0, squeeze_first.
  - apply drive_given_two in E as (c & r & -> & Hc). rewrite squeeze_drive by done. cbn [drop]. by rewrite !drop_0, components_squeeze.
Qed.

Lemma trim_same t : same_path t (trim_slash t).
Proof.
  unfold trim_slash. destruct (_ && _ && _) eqn:E; [|done]. apply andb_true_iff in E as [[E1%Nat.leb_le E2%Z.eqb_eq]%andb_true_iff E3%negb_true_iff].
  destruct t as [|s t _] using rev_ind; [done|]. rewrite length_app in *. cbn [length] in *. rewrite removelast_last.
  unfold pget in E2. rewrite Nat.add_sub, app_nth2, Nat.sub_diag in E2 by lia. cbn in E2. subst s.
  replace (length t + 1 - 2)%nat with (length t - 1)%nat in E3 by lia. destruct t as [|a t]; [cbn in E1; lia|].
  assert (Hh : drive_given ((a :: t) ++ [47]) = drive_given (a :: t)) by (unfold drive_given; cbn; by destruct t).
  split; [done|done| |]; unfold behind_drive; rewrite Hh; destruct (drive_given (a :: t)) eqn:E; try done; try (by rewrite components_slash).
  - apply drive_given_two in E as (c & r & [= -> ->] & Hc). destruct r as [|x r]; [|done]. done.
  - apply drive_given_two in E as (c & r & [= -> ->] & Hc). cbn [app drop]. by rewrite !drop_0, components_slash.
Qed.

Lemma same_trans t u v : same_path t u -> same_path u v -> same_path t v.
Proof. intros [A1 A2 A3 A4] [B1 B2 B3 B4]. split; congruence. Qed.

(** A path that is not under /dev *)
Definition ordinary (path : list Z) : Prop :=
  _is_dev_path (if negb (pget path 0 =? 0) && (pget path 1 =? 58) then drop 2 path else path) = false.

Lemma put_path_spec getenv is_dir beyond fuel tb_size path : ordinary path -> Z.of_nat (length path) + 2 <= tb_size ->
  _put_path getenv is_dir beyond (S fuel) tb_size path = Done (trim_slash (squeeze path)).
Proof. intros Ho Hs. unfold _put_path. cbn [_put_path2]. unfold ordinary in Ho. rewrite Ho, bind_Done, copy_path_spec by (cbn; lia). done. Qed.

Lemma trim_length t : (length (trim_slash t) <= length t)%nat.
Proof. unfold trim_slash. destruct (_ && _ && _); [|done]. destruct t as [|s t _] using rev_ind; [done|]. rewrite removelast_last, length_app. lia. Qed.

Lemma trim_elem x t : x ∈ trim_slash t -> x ∈ t.
Proof.
  unfold trim_slash. destruct (_ && _ && _); [|done]. destruct t as [|s t _] using rev_ind; [done|]. rewrite removelast_last. intros H. apply elem_of_app. by left.
Qed.

Section Fix.
Context (get_dir : bool -> Z -> dos_dir) (true_name : Z -> option (list Z)) (os_trueversion cur_drive : Z).
Context (getenv : list Z -> option (list Z)) (is_dir : list Z -> bool) (beyond stale : list Z) (tb_size : Z).
Context (Htb : 262 <= tb_size).

Abbreviation fixpath := (_fixpath get_dir true_name os_trueversion cur_drive getenv is_dir beyond stale tb_size).
Abbreviation starts := (starts_from get_dir os_trueversion cur_drive).

(** The canonical form of a path, for the directories it starts from *)
Definition canonical (pc : bool) (path : list Z) (st : list (Z * list Z)) : list Z :=
  path_text (drive_text cur_drive path) (fix_name pc <$> walk (st.*2) (components [] (behind_drive path))).

Lemma same_starts use_lfn t u st : same_path t u -> starts use_lfn t st -> starts use_lfn u st.
Proof.
  intros [H1 H2 H3 _]. unfold starts_from. rewrite H3. unfold drive_of. by rewrite H1, H2.
Qed.

Lemma same_canonical pc t u st : same_path t u -> canonical pc u st = canonical pc t st.
Proof. intros [H1 H2 _ H4]. unfold canonical, drive_text. by rewrite H1, H2, H4. Qed.

Lemma fixpath_spec use_lfn pc fuel path st : path <> [] -> 0 ∉ path -> ordinary path -> starts use_lfn path st ->
  (length (with_seps st) + length path + 4 < FILENAME_MAX)%nat ->
  fixpath use_lfn pc (S fuel) path = Done (Some (canonical pc path st)).
Proof.
  intros Hne Hz Ho Hst Hl. unfold _fixpath. rewrite bool_decide_eq_false_2 by done. unfold FILENAME_MAX in Hl. rewrite put_path_spec, bind_Done by (done || lia).
  set (t := trim_slash (squeeze path)).
  assert (Hs : same_path path t) by (eapply same_trans; [apply squeeze_same|apply trim_same]).
  assert (Hlen : (length t <= length path)%nat) by (pose proof (squeeze_length path); pose proof (trim_length (squeeze path)); subst t; lia).
  rewrite (canonicalize_spec _ _ _ _ use_lfn pc t stale FILENAME_MAX st); [|unfold FILENAME_MAX; lia| |by eapply same_starts|done|unfold FILENAME_MAX; lia].
  - f_equal. f_equal. exact (same_canonical pc path t st Hs).
  - intros Hin. apply Hz. by apply squeeze_elem, trim_elem.
Qed.

End Fix.

(** ** The form of the result *)

Definition good_comp (c : list Z) : Prop := c <> [] /\ Forall (fun x => is_slash x = false) c /\ (0 ∉ c) /\ c <> [46] /\ c <> [46; 46].

Lemma good_components l : 0 ∉ l -> forall cur, 0 ∉ cur -> Forall (fun x => is_slash x = false) cur ->
  Forall (fun c => c <> [] /\ Forall (fun x => is_slash x = false) c /\ 0 ∉ c) (components cur l).
Proof.
  induction l as [|a l IH]; intros Hz cur Hc Hs; cbn [components].
  { destruct (bool_decide_reflect (cur = [])); [apply Forall_nil_2|]. by apply Forall_cons_2; [|apply Forall_nil_2]. }
  apply not_elem_of_cons in Hz as [Ha Hz]. destruct (is_slash a) eqn:E.
  - apply Forall_app. split; [|apply IH; [done|apply not_elem_of_nil|apply Forall_nil_2]].
    destruct (bool_decide_reflect (cur = [])); [apply Forall_nil_2|]. by apply Forall_cons_2; [|apply Forall_nil_2].
  - apply IH; [done| |]. + apply not_elem_of_app. split; [done|]. by apply not_elem_of_cons; split; [|apply not_elem_of_nil].
    + apply Forall_app. split; [done|]. by apply Forall_cons_2; [|apply Forall_nil_2].
Qed.

Lemma good_walk cs : forall st, Forall good_comp st -> Forall (fun c => c <> [] /\ Forall (fun x => is_slash x = false) c /\ 0 ∉ c) cs -> Forall good_comp (walk st cs).
Proof.
  induction cs as [|c cs IH]; intros st Hst Hcs; [done|]. apply Forall_cons_1 in Hcs as [Hc Hcs]. apply IH; [|done]. unfold step_dir.
  destruct (bool_decide_reflect (c = [46])); [done|]. destruct (bool_decide_reflect (c = [46; 46])).
  - destruct st as [|x st _] using rev_ind; [done|]. rewrite removelast_last. by apply Forall_app in Hst as [Hst _].
  - apply Forall_app. split; [done|]. apply Forall_cons_2; [|apply Forall_nil_2]. unfold good_comp. tauto.
Qed.

Lemma low_letter_eq x y : low_letter x = y -> y < 97 -> x = y.
Proof. unfold low_letter. destruct ((65 <=? x) && (x <=? 90)) eqn:E; [|done]. bool_to_prop. lia. Qed.

Lemma low_letter_idem x : low_letter (low_letter x) = low_letter x.
Proof.
  unfold low_letter at 2 3. destruct ((65 <=? x) && (x <=? 90)) eqn:E.
  - bool_to_prop. unfold low_letter. replace (x + 32 <=? 90) with false by (symmetry; apply Z.leb_gt; lia). by rewrite andb_false_r.
  - unfold low_letter. by rewrite E.
Qed.

Lemma low_letter_slash x : is_slash x = false -> is_slash (low_letter x) = false.
Proof.
  intros H. destruct (is_slash (low_letter x)) eqn:E; [|done]. unfold is_slash in E. apply orb_true_iff in E as [E%Z.eqb_eq|E%Z.eqb_eq];
    apply low_letter_eq in E; [|lia| |lia]; subst x; done.
Qed.

Lemma low_map_eq c l : map low_letter c = l -> Forall (fun x => x < 97) l -> c = l.
Proof.
  intros <-. induction c as [|x c IH]; intros H; [done|]. apply Forall_cons_1 in H as [Hx H]. cbn. f_equal; [|by apply IH]. by apply low_letter_eq.
Qed.

Lemma good_fix_name pc c : good_comp c -> good_comp (fix_name pc c).
Proof.
  intros (H1 & H2 & H3 & H4 & H5). unfold fix_name. destruct (negb pc && negb (_is_DOS83 c =? 0)); [|done]. split_and!.
  - by destruct c.
  - clear -H2. induction H2 as [|x c Hx _ IH]; [apply Forall_nil_2|]. apply Forall_cons_2; [by apply low_letter_slash|done].
  - clear -H3. intros Hin. apply list_elem_of_In, in_map_iff in Hin as (x & Hx & Hin). apply low_letter_eq in Hx; [|lia]. subst x. apply H3. by apply list_elem_of_In.
  - intros E. apply H4. apply low_map_eq; [done|]. by apply Forall_cons_2; [lia|apply Forall_nil_2].
  - intros E. apply H5. apply low_map_eq; [done|]. apply Forall_cons_2; [lia|]. by apply Forall_cons_2; [lia|apply Forall_nil_2].
Qed.

Lemma fix_name_idem pc c : fix_name pc (fix_name pc c) = fix_name pc c.
Proof.
  unfold fix_name. destruct pc; cbn [negb andb]; [done|]. destruct (negb (_is_DOS83 c =? 0)) eqn:E; [|by rewrite E].
  destruct (negb (_is_DOS83 (map low_letter c) =? 0)); [|done]. rewrite map_map. apply map_ext. apply low_letter_idem.
Qed.

Lemma components_text cs : Forall good_comp cs -> components [] (concat ((fun c => 47 :: c) <$> cs)) = cs.
Proof.
  induction 1 as [|c cs (H1 & H2 & _) _ IH]; [done|]. rewrite fmap_cons. cbn [concat app components]. change (is_slash 47) with true. cbn [app].
  rewrite bool_decide_eq_true_2 by done. cbn [app]. rewrite components_first, IH; [done|done|done|]. destruct cs as [|d cs]; [by left|right]. by eexists _, _.
Qed.

Lemma walk_good cs : forall st, Forall good_comp cs -> walk st cs = st ++ cs.
Proof.
  induction cs as [|c cs IH]; intros st H; [by rewrite app_nil_r|]. apply Forall_cons_1 in H as [(_ & _ & _ & H4 & H5) H].
  change (walk st (c :: cs)) with (walk (step_dir id st c) cs). rewrite IH by done. unfold step_dir.
  rewrite !bool_decide_eq_false_2 by done. by rewrite <- app_assoc.
Qed.

(** A canonical path is its own canonical form. *)
Lemma text_canonical cur_drive d pc cs : is_letter d = true -> low_letter d = d -> Forall good_comp cs -> fix_name pc <$> cs = cs ->
  canonical cur_drive pc (path_text [d; 58] cs) [] = path_text [d; 58] cs /\ drive_given (path_text [d; 58] cs) = true /\
  is_slash (pget (behind_drive (path_text [d; 58] cs)) 0) = true /\ 0 ∉ path_text [d; 58] cs.
Proof.
  intros Hd Hl Hcs Hf. set (r := path_text [d; 58] cs).
  assert (Er : exists t, r = d :: 58 :: t /\ components [] t = cs /\ is_slash (pget t 0) = true /\ 0 ∉ t).
  { subst r. unfold path_text. eexists. split; [done|]. destruct cs as [|c cs]; [by split_and!; [| |set_solver]|]. split_and!; [by apply components_text|done|].
    clear -Hcs. induction Hcs as [|x l (_ & _ & Hx & _) _ IH]; [apply not_elem_of_nil|]. rewrite fmap_cons. cbn [concat]. apply not_elem_of_app. split; [|done].
    apply not_elem_of_cons. split; [done|done]. }
  destruct Er as (t & Et & Ec & Es & Ez). assert (Hh : drive_given r = true) by (rewrite Et; unfold drive_given; cbn; by rewrite Hd).
  assert (Hb : behind_drive r = t) by (unfold behind_drive; rewrite Hh, Et; done). rewrite Hb. split_and!; [|done|done|].
  - unfold canonical, drive_text. rewrite Hh, Hb, Ec, Et. cbn [pget nth]. change (pget (d :: 58 :: t) 0) with d. rewrite Hl.
    change ([].*2) with (@nil (list Z)). rewrite walk_good by done. cbn [app]. rewrite Hf, <- Et. done.
  - rewrite Et. apply not_elem_of_cons. split; [intros <-; done|]. by apply not_elem_of_cons.
Qed.

Lemma fix_name_length pc c : length (fix_name pc c) = length c.
Proof. unfold fix_name. destruct (_ && _); [apply length_map|done]. Qed.

Lemma text_length pc dr st : (length (path_text dr (fix_name pc <$> st.*2)) <= length dr + 1 + length (with_seps st))%nat.
Proof.
  unfold path_text. rewrite length_app. destruct st as [|x st]; [cbn; lia|]. set (l := x :: st). cbn iota.
  assert (E : length (concat ((fun c => 47 :: c) <$> (fix_name pc <$> l.*2))) = length (with_seps l)).
  { unfold with_seps. clearbody l. induction l as [|y l IH]; [done|]. rewrite !fmap_cons. cbn [concat app length]. rewrite !length_app, IH, fix_name_length. done. }
  subst l. rewrite !fmap_cons in *. lia.
Qed.

(** ** The parts of the result *)

Definition canonical_comps (pc : bool) (path : list Z) (st : list (Z * list Z)) : list (list Z) :=
  fix_name pc <$> walk st.*2 (components [] (behind_drive path)).

Lemma behind_drive_part path : (length (behind_drive path) <= length path)%nat /\ (0 ∉ path -> 0 ∉ behind_drive path).
Proof.
  unfold behind_drive. destruct (drive_given path); [|done]. rewrite length_drop. split; [lia|]. intros Hz.
  rewrite <- (take_drop 2 path) in Hz. by apply not_elem_of_app in Hz as [_ Hz].
Qed.

Lemma canonical_comps_good pc path st : 0 ∉ path -> Forall good_comp st.*2 ->
  Forall good_comp (canonical_comps pc path st) /\ fix_name pc <$> canonical_comps pc path st = canonical_comps pc path st.
Proof.
  intros Hz Hst. destruct (behind_drive_part path) as [_ Hb]. split.
  - assert (H : Forall good_comp (walk st.*2 (components [] (behind_drive path)))).
    { apply good_walk; [done|]. apply good_components; [by apply Hb|apply not_elem_of_nil|apply Forall_nil_2]. }
    unfold canonical_comps. induction H as [|c l Hc _ IH]; [apply Forall_nil_2|]. rewrite fmap_cons. apply Forall_cons_2; [by apply good_fix_name|done].
  - unfold canonical_comps. rewrite <- list_fmap_compose. apply list_fmap_ext. intros. apply fix_name_idem.
Qed.

Lemma canonical_length pc (d : Z) path st : (length (path_text [d; 58%Z] (canonical_comps pc path st)) <= length (with_seps st) + length path + 4)%nat.
Proof.
  unfold canonical_comps. rewrite <- (walk_forget st). etransitivity; [apply text_length|]. destruct (behind_drive_part path) as [Hb _].
  pose proof (walk_seps_size st (components [] (behind_drive path))). pose proof (components_size [] (behind_drive path)). cbn [length] in *. lia.
Qed.

Lemma lower_letter d : 97 <= d <= 122 -> is_letter d = true /\ low_letter d = d.
Proof.
  intros H. split; [apply orb_true_iff; left; apply andb_true_iff; split; apply Z.leb_le; lia|].
  unfold low_letter. replace (d <=? 90) with false by (symmetry; apply Z.leb_gt; lia). by rewrite andb_false_r.
Qed.

Lemma drive_letter cur_drive path : 0 <= cur_drive < 26 -> exists d, drive_text cur_drive path = [d; 58] /\ 97 <= d <= 122.
Proof.
  intros Hcur. unfold drive_text. destruct (drive_given path) eqn:E.
  - apply drive_given_two in E as (c & r & -> & Hc). eexists. split; [done|]. by apply low_letter_drive.
  - rewrite (proj2 (Z.ltb_lt _ _)) by lia. eexists. split; [done|]. lia.
Qed.

