(* ===== verification/PathFixRuns.v ===== *)
(** * Making paths canonical: runs

    Paths, and paths that the code does not handle. *)

From Stdlib Require Import String Ascii.
From stdpp Require Import base gmap list numbers.
From Stdlib Require Import ZArith Lia.
From S2P Require Import Prelude Ctype MemFuns Strings Paths CrtArgs CrtEnvProps CrtArgsRuns PathFix PathFixProps.

Open Scope Z_scope.
Open Scope c_scope.

(** Drive C is current, with the directory WORK\SRC. *)
Definition dirs (lfn : bool) (drive : Z) : dos_dir := if drive =? 2 then Dir (tx "WORK\SRC") else Dir [].
Definition no_name (drive : Z) : option (list Z) := None.
Definition dir_exists (name : list Z) : bool := false.

(** A variable with a drive, one that names itself, and one of seven characters *)
Definition path_env (name : list Z) : option (list Z) :=
  if bool_decide (name = tx "HOME") then Some (tx "d:/users/")
  else if bool_decide (name = tx "SELF") then Some (tx "/dev/env/SELF")
  else if bool_decide (name = tx "SEVEN") then Some (tx "abcdefg")
  else None.

Abbreviation fix1 := (_fixpath dirs no_name 0 2 path_env dir_exists [] [] 4096 true false).

Lemma fixpath_demo :
  fix1 3 (tx "..\Foo//./bar/../README.TXT") = Done (Some (tx "c:/work/Foo/readme.txt")) /\
  fix1 3 (tx "/dev/env/HOME/x/..") = Done (Some (tx "d:/users")) /\
  fix1 3 (tx "/dev/env/NONE~a:/~/b") = Done (Some (tx "a:/b")) /\
  fix1 3 (tx "/dev/e") = Done (Some (tx "e:/")) /\ fix1 3 (tx "A:/..") = Done (Some (tx "a:/")).
Proof. split_and!; by vm_compute. Qed.

(** ** The theorem *)

Definition cwd1 : list (Z * list Z) := [(47, tx "WORK"); (92, tx "SRC")].


(** ** What the code does not handle *)

(** A variable whose value is a path through itself: enough_stack_p is always true here, and
    the recursion does not end. *)
Lemma self_variable_endless fuel : _put_path path_env dir_exists [] fuel 4096 (tx "/dev/env/SELF") = Fail NoFuel.
Proof.
  unfold _put_path. induction fuel as [|fuel IH]; [done|]. cbn [_put_path2]. revert IH. generalize (_put_path2 path_env dir_exists [] fuel).
  intros g IH. vm_compute in IH. vm_compute. by rewrite IH.
Qed.

(** The probe for a directory /dev takes the second half from the wrong place: a long has 8
    bytes. *)
Lemma probe_misread : dev_probe [] (tx "c:/dev/foo.txt") = tx "c:/doo" /\ dev_probe [] (tx "\dev\foo.txt") = tx "\dev.t".
Proof. by vm_compute. Qed.

(** The text of a variable that fills the buffer is followed by one character more; the NUL
    is then stored behind the buffer. *)
Lemma transfer_overruns : exists t, _put_path path_env dir_exists [] 2 8 (tx "/dev/env/SEVEN~d~xyz") = Done t /\ length t = 8%nat.
Proof. eexists. split; by vm_compute. Qed.

(** A path of more than 259 characters has no NUL in the copy of the buffer. *)
Lemma long_path_overruns :
  __canonicalize_path dirs no_name 0 2 true false (tb_bytes (tx "c:" ++ concat (replicate 200 (tx "/."))) []) FILENAME_MAX = Fail UB.
Proof. by vm_compute. Qed.

(** The name that is too long leaves NULL, which _fixpath ignores. *)
Lemma too_long_ignored : fix1 1 (tx "/" ++ replicate 300 97) = Done None.
Proof. by vm_compute. Qed.

(** On a system that answers with the root for deep directories the long name is asked for; its
    first slash stays a backslash. *)
Lemma deep_backslash :
  _fixpath (fun _ _ => Dir []) (fun _ => Some (tx "C:\DEEP\DIR")) 0x532 2 path_env dir_exists [] [] 4096 true false 1 (tx "x") =
  Done (Some (tx "c:\deep/dir/x")).
Proof. by vm_compute. Qed.
